(* ===== verification/_CoqProject ===== *)
-Q . S2P
Prelude.v
Text.v
Threads.v
PayrollCalculator.v
Money.v
Ledger.v
JournalDb.v
JournalService.v
Json.v
BlockCompiler.v
Utils.v
Dates.v
Requests.v
TaxCalendar.v
PayrollService.v
TaxService.v
TaxForms.v
Jobs.v
Agent.v
InputPolicy.v
RateLimit.v
Idempotency.v
Templates.v
Documents.v
DocumentFlow.v
Auth.v
Tenancy.v
Accounts.v
Sessions.v
Filings.v
Hr.v
Paydesk.v
Bookdesk.v
Worker.v
Migrations.v
Storage.v
Outbound.v
Gateway.v
Connections.v
