(* ===== verification/Prelude.v ===== *)
(** * Verification of cyber-accountant

    A library of Rocq files beside the C++ sources of src/: executable definitions
    translated from the headers, function by function, and the theorems that make them
    correct.  Paths in the comments are relative to the repository; the comment
    [[symbol]: path:first-last] before a definition names the lines it translates.

    ** The program

    An accounting service for Kazakhstan.  Requests pass the middleware (rate limits,
    idempotency keys, authentication), reach a handler that checks the body and the
    caller's role, and call services over PostgreSQL: the double-entry journal, payroll
    and personnel, taxes and their filing, documents with their versions, and the
    templates documents are rendered from.  Rendering, publishing and mails run as jobs
    of a Redis queue that workers take; files go to an object storage; an agent may call
    the same services as tools, within its role and the organization's autonomy policies.

    ** The files

    Vocabulary.  Prelude: outcomes of a C++ call (value, exception, undefined
    behaviour), a state monad over them, 64- and 32-bit arithmetic that is undefined or
    throws where the code's is, byte strings, decimal text, stable sorting.  Text:
    searches of [std::string].  Threads: programs as sequences of atomic steps on a
    shared store, pools of programs whose steps interleave, schedules, and rely/guarantee
    reasoning ([ok], [quiet], [pool_keeps]).  Json: JSON values, dotted paths, merge
    patches, UTF-8 and the text of a value.  Dates: civil dates and their day numbers.
    Utils (src/utils/: strings, base64url, time stamps, retries).

    Money and ledger.  Money (src/money/): amounts in words and in print.  Ledger
    (src/ledger/KzIdentifiers.hpp and the amount text of JournalService.hpp).  JournalDb:
    the journal tables with the constraints and triggers of
    src/migrations/022_qualify_journal_trigger_names.sql and the transactions of
    src/database/Database.hpp.  JournalService: [create_draft], [post], [reverse].
    Bookdesk: the handlers of entries, accounts and counterparties (src/api/
    JournalController.hpp, AccountsController.hpp, CounterpartiesController.hpp).

    Payroll and personnel.  PayrollCalculator, PayrollService (src/payroll/).  Hr
    (src/hr/, src/api/EmployeesController.hpp, HrController.hpp): the roster, contracts,
    orders and vacations.  Paydesk (src/api/PayrollController.hpp): runs and payslips.

    Taxes.  TaxService, TaxForms, TaxCalendar (src/tax/).  Filings (src/tax/TaxFiling*,
    src/api/TaxController.hpp): calculations and the filing of a form, its XML and its
    printed copy.

    Jobs.  Jobs (src/jobs/Jobs.hpp, Job.hpp): every operation that moves a job between
    the Redis structures, command by command.  Worker (src/jobs/Dispatcher.hpp,
    src/worker_main.cpp, src/api/JobsController.hpp): the cycle of a worker thread and
    the handlers over the queue.

    Agent.  Agent (src/agent/, src/tenancy/OrgPermissions.hpp): the role matrix,
    autonomy policies, the execution of a tool, the log and the loop.

    Identities.  Auth (src/security/Jwt.hpp, Tokens.hpp, Auth.hpp, ApiKeys.hpp, Csrf.hpp):
    tokens, principals, guards.  Tenancy (src/tenancy/, src/api/
    OrganizationsController.hpp, BankAccountsController.hpp): organizations, members,
    requisites.  Accounts (src/repositories/, src/security/SessionStore.hpp, the account,
    session, key and administration controllers of src/api/): users, roles, sessions and
    links.  Sessions: the laws of those handlers, and their races.

    Requests.  Requests (src/api/RequestUtils.hpp, Validation.hpp), RateLimit
    (src/security/RateLimit.hpp), Idempotency (src/security/Idempotency.hpp over
    src/cache/Cache.hpp), Gateway (src/api/Middleware.hpp, src/utils/Config.hpp,
    src/observability/): the chain of advice, settings, trace contexts and log lines.

    Documents.  InputPolicy (src/docgen/InputPolicy.hpp): what a client may put into a
    document.  BlockCompiler (src/docgen/BlockCompiler.hpp, Variables.hpp): templates of
    blocks to Typst.  Templates (src/docgen/TemplateRegistry.hpp,
    DocumentTemplateRepository.hpp, PublishJob.hpp, src/api/TemplatesController.hpp, the
    rendering of RenderJob.hpp).  Documents (src/files/FileKeys.hpp, src/ledger/
    Document*.hpp): the tables and the repository.  DocumentFlow (src/docgen/
    RenderJob.hpp, src/api/DocgenController.hpp, LedgerDocumentsController.hpp): the
    render job and the handlers over that repository.

    Edges.  Connections (src/database/Database.hpp, src/utils/Pg.hpp): the pool of
    connections, the attempts of a transaction, replicas.  Migrations
    (src/database/Migrations.hpp).  Storage (src/storage/Storage.hpp): the S3 backend.
    Outbound (src/agent/ModelEgress.hpp, ModelClient.hpp, src/webhooks/Webhooks.hpp,
    src/email/): what the service calls, and what is checked of it first.

    ** How state and operations correspond

    A table or a Redis structure is a finite map or a list in a record; a repository
    call is a function of the state monad [st] and stands for one transaction; a
    service, handler or job is a program of such calls.  Concurrency is explicit: in
    JournalService, PayrollService and Bookdesk a world carries the commits of other
    sessions that happen before each access; in Jobs every Redis command may be preceded
    by other clients and may fail, lose its reply or be the last the process sends; in
    RateLimit the threads of a process interleave the steps of their checks; in
    Idempotency, Templates, Documents, Tenancy, Accounts, Filings and Hr programs of
    [Threads] interleave in pools; in Migrations and Connections processes and threads
    take steps of a relation.  An identifier in a path is checked to be a UUID and from
    then on carried in the spelling PostgreSQL gives it ([Requests.with_id]).  Text: what
    is written as JSON must be UTF-8, and [dump] throws where it is not; what goes into a
    [jsonb] column must hold no zero byte.  Jobs, Agent and the tokens have these errors
    where the code meets them.
    Code outside src/ is a parameter with its documented laws: identifiers and text of
    PostgreSQL ([Postgres]), JSON text and merge patches ([JsonText], [MergePatch]), the
    schema validator and the Typst engine ([Renderer]), hashes, signatures and random
    texts, the clock, the model behind the agent, HTTP.  Every class of parameters has a
    concrete instance, used by the witnesses and examples.

    ** What the theorems show

    Books: every interleaving keeps every entry balanced and posted entries unchanged;
    drafts are accepted exactly when they should be; an accepted request is the entry it
    asked for; a storno undoes its entry.  Payroll: a run pays everyone employed, refines
    an unbounded reference calculation, conserves gross pay and posts one balanced entry
    once; the payslip prints the stored figures.  Taxes: both calculations file what the
    ledger says, a filing has its XML in the storage, the form and its printed copy say
    what was calculated, the calendar misses no deadline.  Queue: no job is lost or
    doubled in the histories the code is written for (connections that answer, texts in
    UTF-8), a job that keeps failing is buried after its attempts, and the histories that
    break this are proved as such.  Agent: whatever the model answers, only granted and
    allowed tools run, and the loop ends.  Requests: caps and exclusion under
    interleaving with the conditions they need, replays, spoofing and isolation of
    callers, calendar dates; nobody passes the guard without a credential.  Identities:
    the tables stay consistent under every interleaving, an organization keeps an owner,
    a mailed link works once for its text, a refresh token once in a row.  Documents:
    what a client sends cannot forge amounts, requisites or labels; a compiled template
    reads only what its schema declares; a template holds what its blocks compile to; the
    history of a document is kept by every interleaving; a render lands on its version or
    nowhere; lists show what may be opened.  Edges: migrations are applied once, the pool
    does not shrink, a write takes effect at most once, the model is called inside the
    cluster.  The races that remain are theorems or examples too, and listed as findings.

    ** Bounds and fuel

    [dec] prints with fuel 20, more than the digits of any 64-bit value.  The walks of
    the tax calendar take as fuel a number of periods that the theorems show to reach
    the horizon.  The retry loop and the agent loop take their attempt and call limits
    as fuel, as the code does.  Filling an input by its schema recurses on the schema,
    which may be cyclic on paper: the theorems show fuel 2 to be enough for every schema the block compiler
    makes.  The numbers of a run of the typesetting engine tell runs apart, since it need
    not be deterministic.

    ** Not modelled

    Floating point (none of the modelled code decides by it), the lag of read replicas in
    the services (reads see the last commit), a commit whose answer is lost in the
    services (it is in Connections alone), texts of log lines and of human-readable
    messages, audit records and time stamps of JSON replies.  Left out as I/O or as
    wrappers of libraries: HTTP, Redis, PostgreSQL, SMTP and NATS connections, metrics
    and the trace exporter, timers and signals, start-up and shut-down (but the reaper of
    used tokens, with the accounts), the local storage backend, the Typst subprocess.

    ** This file

    The vocabulary shared by all components: the outcome monad, checked integers,
    decimal text, byte strings and the [std::string] operations the sources use; the
    tactics and hint databases the component proofs rely on. *)
From Stdlib Require Import Sorted ZArith Lia Ascii String.
From stdpp Require Export base tactics list list_numbers numbers option strings gmap.
Open Scope Z_scope.
Set Default Goal Selector "!".
#[global] Arguments String.append !s1 s2 : simpl nomatch.

Declare Scope cpp_scope.
Delimit Scope cpp_scope with cpp.
Create HintDb cpp discriminated.
Create Rewrite HintDb cpp_rw.

(** ** Outcomes of a C++ call *)

(** The exception classes thrown by the modelled sources. *)
Inductive exn_class :=
| std_invalid_argument
| std_out_of_range
| std_runtime_error
| UnbalancedEntry
| UnknownAccount
| ForeignCounterparty
| InvalidEntryState
| InvalidSubaccount
| DuplicateAccount
| InvalidRunState
| MissingPayrollReference
| GrossSalaryOutOfRange
| MissingTaxReference
| NotFoundError
| json_type_error
| json_out_of_range
| redis_error
| process_death
| NotConfigured
| DuplicateTemplateVersion
| PublishedTemplateIsImmutable
| DuplicateBin
| DuplicateMembership
| DuplicateBankAccount
| DuplicateEmail
| DuplicateRole
| RoleInUse
| DuplicateEmployeeIin
| DuplicateCounterparty
| pqxx_sql_error
| pqxx_broken_connection
| PermanentJobError
| not_std.

Record exn := Exn { exn_cls : exn_class; what : string }.

(** A call returns a value, throws an exception, or has undefined behaviour
    (signed overflow, an out-of-range array access, ...). *)
Inductive outcome (A : Type) :=
| Ok (a : A)
| Throw (e : exn)
| Undef.
Arguments Ok {A} a.
Arguments Throw {A} e.
Arguments Undef {A}.

#[export] Instance outcome_ret : MRet outcome := fun A a => Ok a.
#[export] Instance outcome_bind : MBind outcome := fun A B f m =>
  match m with Ok a => f a | Throw e => Throw e | Undef => Undef end.
#[export] Instance exn_class_eq_dec : EqDecision exn_class.
Proof. solve_decision. Defined.
#[export] Instance exn_eq_dec : EqDecision exn.
Proof. solve_decision. Defined.
#[export] Instance outcome_eq_dec {A} `{EqDecision A} : EqDecision (outcome A).
Proof. solve_decision. Defined.

(** [throws c m]: the call leaves by an exception of class [c]. *)
Definition throws {A} (c : exn_class) (m : outcome A) : Prop :=
  exists w, m = Throw (Exn c w).

(** [defined m]: no undefined behaviour. *)
Definition defined {A} (m : outcome A) : Prop := m <> Undef.

(** Monad laws and inversion of a successful sequence. *)
Lemma bind_ret_l {A B} (a : A) (f : A -> outcome B) : (mret a ≫= f) = f a.
Proof. reflexivity. Qed.

Lemma bind_ok {A B} (a : A) (f : A -> outcome B) : (Ok a ≫= f) = f a.
Proof. reflexivity. Qed.

Lemma bind_assoc {A B C} (m : outcome A) (f : A -> outcome B) (g : B -> outcome C) :
  ((m ≫= f) ≫= g) = (m ≫= fun a => f a ≫= g).
Proof. by destruct m. Qed.

Lemma bind_Ok_inv {A B} (m : outcome A) (f : A -> outcome B) b :
  (m ≫= f) = Ok b -> exists a, m = Ok a /\ f a = Ok b.
Proof. destruct m; simpl; intros H; [eauto | discriminate | discriminate]. Qed.

#[export] Hint Rewrite @bind_ret_l @bind_ok @bind_assoc : cpp_rw.

(** ** Stateful calls *)

(** A call that reads and writes a state of type [S]; an exception leaves the
    state as it was when it was thrown (rollback is the transaction's job). *)
Definition st (S A : Type) : Type := S -> outcome A * S.

#[export] Instance st_ret S : MRet (st S) := fun A a s => (Ok a, s).
#[export] Instance st_bind S : MBind (st S) := fun A B f m s =>
  match m s with
  | (Ok a, s') => f a s'
  | (Throw e, s') => (Throw e, s')
  | (Undef, s') => (Undef, s')
  end.

Definition lift {S A} (m : outcome A) : st S A := fun s => (m, s).
Definition throw {S A} (c : exn_class) (w : string) : st S A := fun s => (Throw (Exn c w), s).
Definition gets {S A} (f : S -> A) : st S A := fun s => (Ok (f s), s).
Definition modify {S} (f : S -> S) : st S unit := fun s => (Ok tt, f s).

Lemma st_bind_Ok {S A B} (m : st S A) (f : A -> st S B) s b s' :
  (m ≫= f) s = (Ok b, s') -> exists a s1, m s = (Ok a, s1) /\ f a s1 = (Ok b, s').
Proof. unfold mbind, st_bind. destruct (m s) as [[a| |] s1]; intros H; [eauto | discriminate.. ]. Qed.

Lemma st_bind_ok {S A B} (m : st S A) (f : A -> st S B) s a s1 :
  m s = (Ok a, s1) -> (m ≫= f) s = f a s1.
Proof. unfold mbind, st_bind. by intros ->. Qed.

Lemma st_bind_case {S A B} (m : st S A) (f : A -> st S B) s :
  (m ≫= f) s = match m s with
               | (Ok a, s1) => f a s1 | (Throw e, s1) => (Throw e, s1) | (Undef, s1) => (Undef, s1)
               end.
Proof. reflexivity. Qed.

(** [st_inv H]: take a successful sequence apart, step by step. *)
Ltac st_inv H :=
  lazymatch type of H with
  | (_ ≫= _) ?s = (Ok _, _) =>
      let a := fresh "a" in let s1 := fresh "s" in let H1 := fresh "Hs" in
      apply st_bind_Ok in H as (a & s1 & H1 & H); cbn beta in H
  end.

(** ** Machine integers *)

Definition I64_MIN : Z := -9223372036854775808.
Definition I64_MAX : Z := 9223372036854775807.
Definition I32_MIN : Z := -2147483648.
Definition I32_MAX : Z := 2147483647.

Definition in_i64 (z : Z) : bool := (I64_MIN <=? z) && (z <=? I64_MAX).
Definition in_i32 (z : Z) : bool := (I32_MIN <=? z) && (z <=? I32_MAX).

(** A conversion to [int] keeps the low 32 bits. *)
Definition wrap32 (z : Z) : Z := (z + 2 ^ 31) mod 2 ^ 32 - 2 ^ 31.

(** A signed result that does not fit is undefined behaviour. *)
Definition i64 (z : Z) : outcome Z := if in_i64 z then Ok z else Undef.
Definition i32 (z : Z) : outcome Z := if in_i32 z then Ok z else Undef.

Definition add64 (a b : Z) : outcome Z := i64 (a + b).
Definition sub64 (a b : Z) : outcome Z := i64 (a - b).
Definition mul64 (a b : Z) : outcome Z := i64 (a * b).

Lemma i64_ok z : I64_MIN <= z <= I64_MAX -> i64 z = Ok z.
Proof. intros H. unfold i64, in_i64. by rewrite (proj2 (Z.leb_le _ _)), (proj2 (Z.leb_le _ _)) by lia. Qed.

Lemma i64_inv z r : i64 z = Ok r -> r = z /\ I64_MIN <= z <= I64_MAX.
Proof.
  unfold i64, in_i64. destruct (Z.leb_spec I64_MIN z), (Z.leb_spec z I64_MAX); simpl; intros [=]; lia.
Qed.

Lemma i64_undef z : z < I64_MIN \/ I64_MAX < z -> i64 z = Undef.
Proof.
  unfold i64, in_i64. intros H.
  destruct (Z.leb_spec I64_MIN z), (Z.leb_spec z I64_MAX); simpl; (reflexivity || lia).
Qed.

Lemma i32_ok z : I32_MIN <= z <= I32_MAX -> i32 z = Ok z.
Proof. intros H. unfold i32, in_i32. by rewrite (proj2 (Z.leb_le _ _)), (proj2 (Z.leb_le _ _)) by lia. Qed.

Lemma quot_div a b : 0 <= a -> 0 < b -> Z.quot a b = a / b.
Proof. intros. by apply Z.quot_div_nonneg. Qed.

Lemma rem_mod a b : 0 <= a -> 0 < b -> Z.rem a b = a mod b.
Proof. intros. by apply Z.rem_mod_nonneg. Qed.

Lemma add64_ok a b : I64_MIN <= a + b <= I64_MAX -> add64 a b = Ok (a + b).
Proof. apply i64_ok. Qed.

Lemma sub64_ok a b : I64_MIN <= a - b <= I64_MAX -> sub64 a b = Ok (a - b).
Proof. apply i64_ok. Qed.

Lemma mul64_ok a b : I64_MIN <= a * b <= I64_MAX -> mul64 a b = Ok (a * b).
Proof. apply i64_ok. Qed.

(** [run64]: evaluate the checked arithmetic of a goal, proving every bound. *)
Ltac bound64 := unfold I64_MIN, I64_MAX, I32_MIN, I32_MAX in *; lia.
Ltac step64 :=
  first [ rewrite mul64_ok by bound64 | rewrite add64_ok by bound64
        | rewrite sub64_ok by bound64 | rewrite i64_ok by bound64
        | rewrite i32_ok by bound64 | rewrite bind_ret_l | rewrite bind_ok ];
  cbn beta iota.
Ltac run64 := repeat step64.
(** [dlia]: linear arithmetic with [/] and [mod]. *)
Ltac dlia := Z.div_mod_to_equations; lia.

(** ** Characters and byte strings *)

Definition code (c : ascii) : Z := Z.of_N (N_of_ascii c).
Definition chr (z : Z) : ascii := ascii_of_N (Z.to_N z).

(** [std::isdigit] on an [unsigned char] in the "C" locale. *)
Definition is_digit (c : ascii) : bool := (48 <=? code c) && (code c <=? 57).

Definition digit (d : Z) : ascii := chr (48 + d).

Lemma code_chr z : 0 <= z < 256 -> code (chr z) = z.
Proof. intros H. unfold code, chr. rewrite N_ascii_embedding; lia. Qed.

Lemma chr_code c : chr (code c) = c.
Proof. unfold code, chr. rewrite N2Z.id. apply ascii_N_embedding. Qed.

Lemma code_range c : 0 <= code c < 256.
Proof. unfold code. pose proof (N_ascii_bounded c). lia. Qed.

Lemma code_inj c d : code c = code d -> c = d.
Proof. intros H. rewrite <- (chr_code c), <- (chr_code d). by f_equal. Qed.

Lemma is_digit_digit d : 0 <= d < 10 -> is_digit (digit d) = true.
Proof. intros H. unfold is_digit, digit. rewrite code_chr by lia. lia. Qed.

Lemma code_digit d : 0 <= d < 10 -> code (digit d) = 48 + d.
Proof. intros H. unfold digit. apply code_chr. lia. Qed.

(** [std::string::size]. *)
Definition size (s : string) : nat := String.length s.

Fixpoint str_all (p : ascii -> bool) (s : string) : bool :=
  match s with EmptyString => true | String c s' => p c && str_all p s' end.

Fixpoint str_any (p : ascii -> bool) (s : string) : bool :=
  match s with EmptyString => false | String c s' => p c || str_any p s' end.

Fixpoint str_filter (p : ascii -> bool) (s : string) : string :=
  match s with
  | EmptyString => EmptyString
  | String c s' => if p c then String c (str_filter p s') else str_filter p s'
  end.

Fixpoint str_rev_onto (s acc : string) : string :=
  match s with EmptyString => acc | String c s' => str_rev_onto s' (String c acc) end.
Definition str_rev (s : string) : string := str_rev_onto s EmptyString.

(** The first [n] bytes and the rest: the two halves of [std::string::substr]. *)
Fixpoint str_take (n : nat) (s : string) : string :=
  match n, s with
  | S n', String c s' => String c (str_take n' s')
  | _, _ => EmptyString
  end.
Fixpoint str_drop (n : nat) (s : string) : string :=
  match n, s with
  | S n', String _ s' => str_drop n' s'
  | _, _ => s
  end.

(** [s.substr(pos, n)]: throws past the end, truncates at the end. *)
Definition substr (pos n : nat) (s : string) : outcome string :=
  if (pos <=? size s)%nat then Ok (str_take n (str_drop pos s))
  else Throw (Exn std_out_of_range "basic_string::substr").

(** [s.find(c)]: the first position of [c]; [None] for [npos]. *)
Fixpoint str_find (c : ascii) (s : string) : option nat :=
  match s with
  | EmptyString => None
  | String d s' => if ascii_dec c d then Some O else S <$> str_find c s'
  end.

(** Split at every separator, keeping empty pieces. *)
Fixpoint split_on (sep : ascii) (s : string) : string * list string :=
  match s with
  | EmptyString => (EmptyString, [])
  | String c s' =>
      let '(w, ws) := split_on sep s' in
      if ascii_dec c sep then (EmptyString, w :: ws) else (String c w, ws)
  end.
Definition pieces (sep : ascii) (s : string) : list string :=
  let '(w, ws) := split_on sep s in w :: ws.

(** *** Laws of the string operations *)

Lemma app_empty_r s : s +:+ EmptyString = s.
Proof. induction s; simpl; congruence. Qed.

Lemma str_app_assoc s t u : (s +:+ t) +:+ u = s +:+ (t +:+ u).
Proof. induction s; simpl; congruence. Qed.

Lemma size_app s t : size (s +:+ t) = (size s + size t)%nat.
Proof. unfold size. induction s; simpl; [done | lia]. Qed.

Lemma str_all_app p s t : str_all p (s +:+ t) = str_all p s && str_all p t.
Proof. induction s; simpl; [done|]. by rewrite IHs, andb_assoc. Qed.

Lemma str_filter_app p s t : str_filter p (s +:+ t) = str_filter p s +:+ str_filter p t.
Proof. induction s; simpl; [done|]. case_match; simpl; congruence. Qed.

Lemma str_filter_all p s : str_all p s = true -> str_filter p s = s.
Proof.
  induction s as [|c s IH]; simpl; [done|]. intros [-> H]%andb_true_iff. by rewrite IH.
Qed.

Lemma str_all_impl p q s :
  (forall c, p c = true -> q c = true) -> str_all p s = true -> str_all q s = true.
Proof.
  intros Hi. induction s as [|c s IH]; simpl; [done|].
  intros [Hc Hs]%andb_true_iff. by rewrite (Hi c Hc), (IH Hs).
Qed.

Lemma str_take_le n s : (size (str_take n s) <= n)%nat.
Proof. unfold size. revert s. induction n as [|n IH]; intros [|c s]; cbn [str_take String.length]; try lia. specialize (IH s). lia. Qed.

Lemma str_take_app s t : str_take (size s) (s +:+ t) = s.
Proof. unfold size. induction s; simpl; [by destruct t | by f_equal]. Qed.

Lemma str_drop_app s t : str_drop (size s) (s +:+ t) = t.
Proof. unfold size. induction s; simpl; [by destruct t | done]. Qed.

Lemma str_find_none p c s : str_all p s = true -> p c = false -> str_find c s = None.
Proof.
  intros Hs Hc. induction s as [|d s IH]; simpl in *; [done|].
  apply andb_true_iff in Hs as [Hd Hs]. destruct (ascii_dec c d) as [->|_]; [congruence|].
  by rewrite IH.
Qed.

Lemma str_find_app p c s t :
  str_all p s = true -> p c = false -> str_find c (s +:+ String c t) = Some (size s).
Proof.
  intros Hs Hc. induction s as [|d s IH]; simpl in *.
  - by destruct (ascii_dec c c).
  - apply andb_true_iff in Hs as [Hd Hs]. destruct (ascii_dec c d) as [->|_]; [congruence|].
    by rewrite IH.
Qed.

Lemma str_app_inj_l s t u : s +:+ t = s +:+ u -> t = u.
Proof. induction s; simpl; [done|]. intros [=]. auto. Qed.

Lemma str_rev_onto_app s acc : str_rev_onto s acc = str_rev s +:+ acc.
Proof.
  unfold str_rev. revert acc. induction s as [|c s IH]; intros acc; simpl; [done|].
  by rewrite IH, (IH (String c EmptyString)), str_app_assoc.
Qed.

Lemma str_rev_cons c s : str_rev (String c s) = str_rev s +:+ String c EmptyString.
Proof. unfold str_rev at 1. simpl. apply str_rev_onto_app. Qed.

Lemma str_rev_app s t : str_rev (s +:+ t) = str_rev t +:+ str_rev s.
Proof.
  induction s as [|c s IH]; simpl.
  - by rewrite app_empty_r.
  - by rewrite !str_rev_cons, IH, str_app_assoc.
Qed.

Lemma str_rev_involutive s : str_rev (str_rev s) = s.
Proof. induction s as [|c s IH]; [done|]. by rewrite str_rev_cons, str_rev_app, IH. Qed.

Lemma str_filter_rev p s : str_filter p (str_rev s) = str_rev (str_filter p s).
Proof.
  induction s as [|c s IH]; [done|].
  rewrite str_rev_cons, str_filter_app, IH. simpl.
  case_match; [by rewrite str_rev_cons | by rewrite app_empty_r].
Qed.

Lemma size_rev s : size (str_rev s) = size s.
Proof.
  induction s as [|c s IH]; [done|]. rewrite str_rev_cons, size_app, IH. unfold size. simpl. lia.
Qed.

(** Splitting text put together with a separator gives the words back. *)
Lemma split_on_app sep w s :
  str_all (fun c => negb (Ascii.eqb c sep)) w = true ->
  split_on sep (w +:+ s) = (let '(v, vs) := split_on sep s in (w +:+ v, vs)).
Proof.
  induction w as [|c w IH]; simpl; intros H; [by destruct (split_on sep s)|].
  apply andb_true_iff in H as [Hc Hw]. rewrite (IH Hw).
  destruct (split_on sep s) as [v vs]. destruct (ascii_dec c sep) as [->|]; [|done].
  by rewrite Ascii.eqb_refl in Hc.
Qed.

Lemma pieces_cons sep w s :
  str_all (fun c => negb (Ascii.eqb c sep)) w = true ->
  pieces sep (w +:+ String sep s) = w :: pieces sep s.
Proof.
  intros H. unfold pieces. rewrite split_on_app by done. simpl.
  destruct (split_on sep s) as [v vs]. destruct (ascii_dec sep sep); [|done]. by rewrite app_empty_r.
Qed.

Lemma pieces_one sep w :
  str_all (fun c => negb (Ascii.eqb c sep)) w = true -> pieces sep w = [w].
Proof.
  intros H. unfold pieces. rewrite <- (app_empty_r w) at 1. rewrite split_on_app by done.
  simpl. by rewrite app_empty_r.
Qed.

(** ** Decimal text *)

(** The decimal digits of [n], most significant first; 20 digits hold every
    64-bit magnitude. *)
Fixpoint dec_digits (fuel : nat) (n : Z) (acc : string) : string :=
  match fuel with
  | O => acc
  | S f =>
      let acc' := String (digit (n mod 10)) acc in
      if n <? 10 then acc' else dec_digits f (n / 10) acc'
  end.
Definition dec (n : Z) : string := dec_digits 20 n EmptyString.

(** [std::to_string(long long)]. *)
Definition to_string (z : Z) : string :=
  if z <? 0 then String "-" (dec (- z)) else dec z.

Fixpoint zeros (n : nat) : string :=
  match n with O => EmptyString | S n' => String "0" (zeros n') end.
Definition pad0 (w : nat) (s : string) : string := zeros (w - size s) +:+ s.

(** [printf("%0<w>lld")]: the sign comes first and counts in the width. *)
Definition fmt0 (w : nat) (z : Z) : string :=
  if z <? 0 then String "-" (pad0 (w - 1) (dec (- z))) else pad0 w (dec z).

(** The value of a run of digits, as [std::stoll] accumulates it. *)
Fixpoint parse_digits (acc : Z) (s : string) : Z :=
  match s with
  | EmptyString => acc
  | String c s' => parse_digits (acc * 10 + (code c - 48)) s'
  end.

Lemma dec_digits_app f n acc : dec_digits f n acc = dec_digits f n EmptyString +:+ acc.
Proof.
  revert n acc. induction f as [|f IH]; intros n acc; simpl; [done|].
  case_match; [done|].
  by rewrite IH, (IH _ (String (digit (n mod 10)) EmptyString)), str_app_assoc.
Qed.

Lemma dec_digits_S f n :
  dec_digits (S f) n EmptyString =
  (if n <? 10 then EmptyString else dec_digits f (n / 10) EmptyString) +:+
  String (digit (n mod 10)) EmptyString.
Proof. simpl. case_match; [done|]. apply dec_digits_app. Qed.

Lemma parse_digits_app a s t : parse_digits a (s +:+ t) = parse_digits (parse_digits a s) t.
Proof. revert a. induction s; simpl; auto. Qed.

Lemma parse_dec_digits f n :
  0 <= n < 10 ^ Z.of_nat f -> parse_digits 0 (dec_digits f n EmptyString) = n.
Proof.
  revert n. induction f as [|f IH]; intros n Hn.
  - simpl in *. lia.
  - rewrite dec_digits_S, parse_digits_app.
    assert (Hd : 0 <= n mod 10 < 10) by (apply Z.mod_pos_bound; lia).
    rewrite Nat2Z.inj_succ, Z.pow_succ_r in Hn by lia.
    destruct (Z.ltb_spec n 10); simpl; rewrite code_digit by done.
    + rewrite Z.mod_small by lia. lia.
    + rewrite IH by dlia. dlia.
Qed.

Lemma parse_dec n : 0 <= n < 10 ^ 20 -> parse_digits 0 (dec n) = n.
Proof. intros H. apply parse_dec_digits. simpl. lia. Qed.

Lemma dec_digits_all f n : str_all is_digit (dec_digits f n EmptyString) = true.
Proof.
  revert n. induction f as [|f IH]; intros n; [done|].
  rewrite dec_digits_S, str_all_app. simpl.
  rewrite is_digit_digit by (apply Z.mod_pos_bound; lia).
  case_match; simpl; [done|]. by rewrite IH.
Qed.

Lemma dec_all n : str_all is_digit (dec n) = true.
Proof. apply dec_digits_all. Qed.

Lemma pad0_all w t : str_all is_digit t = true -> str_all is_digit (pad0 w t) = true.
Proof. intros Ht. unfold pad0. rewrite str_all_app, Ht, andb_true_r. by induction (w - size t)%nat. Qed.

Lemma dec_digits_nonempty f n : (1 <= size (dec_digits (S f) n EmptyString))%nat.
Proof. rewrite dec_digits_S, size_app. unfold size at 2. simpl. lia. Qed.

(** A number below [10^k] has at most [k] digits. *)
Lemma dec_digits_size k f n :
  (1 <= k)%nat -> 0 <= n < 10 ^ Z.of_nat k -> (size (dec_digits f n EmptyString) <= k)%nat.
Proof.
  revert f n. induction k as [|k IH]; intros f n Hk Hn; [lia|].
  destruct f as [|f]; [unfold size; simpl; lia|].
  rewrite dec_digits_S, size_app. unfold size at 2. simpl.
  destruct (Z.ltb_spec n 10); [unfold size; simpl; lia|].
  rewrite Nat2Z.inj_succ, Z.pow_succ_r in Hn by lia.
  destruct k as [|k]; [simpl in Hn; lia|].
  enough (size (dec_digits f (n / 10) EmptyString) <= S k)%nat by lia.
  apply IH; [lia | dlia].
Qed.

Lemma dec_size k n : (1 <= k)%nat -> 0 <= n < 10 ^ Z.of_nat k -> (1 <= size (dec n) <= k)%nat.
Proof. intros. split; [apply dec_digits_nonempty | by apply dec_digits_size]. Qed.

Lemma dec_inj m n : 0 <= m < 10 ^ 20 -> 0 <= n < 10 ^ 20 -> dec m = dec n -> m = n.
Proof. intros Hm Hn H. rewrite <- (parse_dec m), <- (parse_dec n) by done. by rewrite H. Qed.

Lemma to_string_nonneg z : 0 <= z -> to_string z = dec z.
Proof. intros. unfold to_string. by destruct (Z.ltb_spec z 0); [lia|]. Qed.

(** Two-digit zero padding, the ["%02lld"] of every money formatter. *)
Lemma fmt02_range z :
  0 <= z < 100 -> fmt0 2 z = String (digit (z / 10)) (String (digit (z mod 10)) EmptyString).
Proof.
  intros H.
  assert (Hall : forallb (fun n => bool_decide (fmt0 2 (Z.of_nat n) =
     String (digit (Z.of_nat n / 10)) (String (digit (Z.of_nat n mod 10)) EmptyString)))
     (seq 0 100) = true) by (vm_compute; reflexivity).
  rewrite forallb_forall in Hall.
  specialize (Hall (Z.to_nat z)). rewrite Z2Nat.id in Hall by lia.
  eapply bool_decide_eq_true_1, Hall, in_seq. lia.
Qed.

(** Decide a property of every integer of a small range by computation. *)
Lemma range_check (P : Z -> bool) (n : nat) :
  forallb P (map Z.of_nat (seq 0 n)) = true -> forall z, 0 <= z < Z.of_nat n -> P z = true.
Proof.
  intros H z Hz. rewrite forallb_forall in H. apply H.
  apply in_map_iff. exists (Z.to_nat z). rewrite Z2Nat.id by lia. split; [done|].
  apply in_seq. lia.
Qed.

(** [split_binds]: case analysis on the outcome of each step of a sequence. *)
Ltac split_binds :=
  repeat (rewrite ?bind_ret_l, ?bind_ok, ?bind_assoc;
          match goal with
          | |- context [?m ≫= _] => destruct m; [|reflexivity|reflexivity]
          end);
  rewrite ?bind_ret_l, ?bind_ok.

(** ** [std::stoi] and [std::stoll] *)

(** The longest prefix of digits and what follows. *)
Fixpoint digit_prefix (s : string) : string :=
  match s with
  | EmptyString => EmptyString
  | String c s' => if is_digit c then String c (digit_prefix s') else EmptyString
  end.

Definition is_space (c : ascii) : bool := (code c =? 32) || ((9 <=? code c) && (code c <=? 13)).

Fixpoint skip_space (s : string) : string :=
  match s with
  | String c s' => if is_space c then skip_space s' else s
  | EmptyString => EmptyString
  end.

(** The number [strtoll] recognises at the start of [s], base ten. *)
Definition strtol (s : string) : option Z :=
  let s := skip_space s in
  let '(neg, body) :=
    match s with
    | String c s' =>
        if Ascii.eqb c "-" then (true, s') else if Ascii.eqb c "+" then (false, s') else (false, s)
    | EmptyString => (false, s)
    end in
  match digit_prefix body with
  | EmptyString => None
  | ds => Some (if neg then - parse_digits 0 ds else parse_digits 0 ds)
  end.

Definition stoll (s : string) : outcome Z :=
  match strtol s with
  | None => Throw (Exn std_invalid_argument "stoll")
  | Some z => if in_i64 z then Ok z else Throw (Exn std_out_of_range "stoll")
  end.

Definition stoi (s : string) : outcome Z :=
  match strtol s with
  | None => Throw (Exn std_invalid_argument "stoi")
  | Some z => if in_i32 z then Ok z else Throw (Exn std_out_of_range "stoi")
  end.

Lemma digit_prefix_all s : str_all is_digit s = true -> digit_prefix s = s.
Proof.
  induction s as [|c s IH]; [done|]. simpl. intros [-> H]%andb_true_iff. by rewrite IH.
Qed.

Lemma digit_prefix_app s c t :
  str_all is_digit s = true -> is_digit c = false -> digit_prefix (s +:+ String c t) = s.
Proof.
  intros H Hc. induction s as [|d s IH]; simpl in *; [by rewrite Hc|].
  apply andb_true_iff in H as [-> H]. by rewrite IH.
Qed.

Lemma digit_not (c d : ascii) : is_digit c = true -> is_digit d = false -> Ascii.eqb c d = false.
Proof. intros Hc Hd. destruct (Ascii.eqb_spec c d) as [->|]; [congruence | done]. Qed.

Lemma digit_not_space c : is_digit c = true -> is_space c = false.
Proof. unfold is_digit, is_space. lia. Qed.

(** On a non-empty run of digits it is the value of the digits. *)
Lemma strtol_digits s :
  s <> EmptyString -> str_all is_digit s = true -> strtol s = Some (parse_digits 0 s).
Proof.
  intros Hne H. destruct s as [|c s]; [done|].
  pose proof H as [Hc _]%andb_true_iff. unfold strtol. cbn [skip_space].
  rewrite digit_not_space by done. rewrite !(digit_not c) by done. cbn beta iota zeta.
  rewrite digit_prefix_all by done. done.
Qed.

Lemma parse_digits_bound a s k :
  0 <= a < k -> str_all is_digit s = true -> 0 <= parse_digits a s < k * 10 ^ Z.of_nat (size s).
Proof.
  unfold size. revert a k. induction s as [|c s IH]; intros a k Ha H.
  - simpl. lia.
  - apply andb_true_iff in H as [Hc Hs]. cbn [parse_digits String.length].
    unfold is_digit in Hc. rewrite Nat2Z.inj_succ, Z.pow_succ_r by lia.
    rewrite Z.mul_assoc. apply IH; [lia | done].
Qed.

Lemma parse_digits_range s :
  str_all is_digit s = true -> 0 <= parse_digits 0 s < 10 ^ Z.of_nat (size s).
Proof. intros H. pose proof (parse_digits_bound 0 s 1 ltac:(lia) H). lia. Qed.

(** ** Arrays *)

(** [a[i]] on a C array or [std::array]: undefined outside the bounds. *)
Definition at_ {A} (l : list A) (i : Z) : outcome A :=
  if i <? 0 then Undef
  else match l !! Z.to_nat i with Some x => Ok x | None => Undef end.

Definition nospace (s : string) : bool := str_all (fun c => negb (Ascii.eqb c " ")) s.

(** ** Sums *)

Definition zsum (l : list Z) : Z := foldr Z.add 0 l.

Lemma zsum_app l k : zsum (l ++ k) = zsum l + zsum k.
Proof. unfold zsum. induction l; simpl; lia. Qed.

Lemma zsum_perm l k : l ≡ₚ k -> zsum l = zsum k.
Proof. unfold zsum. induction 1; simpl; lia. Qed.

Lemma zsum_opp {A} (f : A -> Z) l : zsum (map (fun x => - f x) l) = - zsum (map f l).
Proof. unfold zsum. induction l; simpl; lia. Qed.

Lemma zsum_nonneg l : Forall (fun z => 0 <= z) l -> 0 <= zsum l.
Proof. unfold zsum. induction 1; simpl; lia. Qed.

(** ** Lists *)

Lemma elem_of_map {A B} (f : A -> B) l y : y ∈ map f l <-> exists x, y = f x /\ x ∈ l.
Proof. rewrite list_elem_of_In, in_map_iff. setoid_rewrite list_elem_of_In. split; intros (x & ? & ?); eauto. Qed.

(** Elements of a list without duplicate keys are determined by their key. *)
Lemma nodup_key_inj {A K} (key : A -> K) l x y :
  NoDup (map key l) -> x ∈ l -> y ∈ l -> key x = key y -> x = y.
Proof.
  induction l as [|z l IH]; [by intros _ ?%elem_of_nil|]. simpl. intros [Hz Hn]%NoDup_cons.
  rewrite !elem_of_cons. intros [-> | Hx] [-> | Hy] E; auto.
  - destruct Hz. rewrite E. apply elem_of_map. eauto.
  - destruct Hz. rewrite <- E. apply elem_of_map. eauto.
Qed.

(** A filtered sum is a sum of zeroes and terms. *)
Lemma zsum_filter {A} (P : A -> bool) (f : A -> Z) l :
  zsum (map f (List.filter P l)) = zsum (map (fun x => if P x then f x else 0) l).
Proof. unfold zsum. induction l as [|x l IH]; [done|]. simpl. destruct (P x); simpl; lia. Qed.

Lemma zsum_ext {A} (f g : A -> Z) l : (forall x, x ∈ l -> f x = g x) -> zsum (map f l) = zsum (map g l).
Proof. intros H. f_equal. apply map_ext_in. intros x Hx. by apply H, list_elem_of_In. Qed.

Lemma zsum_map_app {A} (f : A -> Z) l k : zsum (map f (l ++ k)) = zsum (map f l) + zsum (map f k).
Proof. by rewrite map_app, zsum_app. Qed.

(** Lists that agree on every class of a classification are permutations. *)
Lemma classes_perm {A} `{EqDecision A} {K} `{EqDecision K} (key : A -> K) (l k : list A) :
  (forall x, filter (fun a => key a = x) l = filter (fun a => key a = x) k) -> l ≡ₚ k.
Proof.
  intros H. apply (Permutation_count_occ (decide_rel (=))). intros a.
  assert (E : forall ls, count_occ (decide_rel (=)) ls a
                         = count_occ (decide_rel (=)) (filter (fun b => key b = key a) ls) a).
  { induction ls as [|b ls IH]; [done|]. rewrite filter_cons. cbn [count_occ].
    case_decide as Hk; cbn [count_occ]; destruct (decide_rel (=) b a); congruence. }
  rewrite (E l), (E k). by rewrite H.
Qed.

(** ** JSON values *)

(** The JSON documents the sources build: integers, text, arrays, objects. *)
#[warnings="-register-all"]
Inductive json :=
| JNull
| JBool (b : bool)
| JInt (z : Z)
| JString (s : string)
| JArray (l : list json)
| JObject (l : list (string * json)).

(** ** Stable sorting *)

(** [std::stable_sort] and ORDER BY over a strict order: insertion from the
    right, before the first element that is not smaller. *)
Fixpoint sort_insert {A} (lt : A -> A -> bool) (x : A) (l : list A) : list A :=
  match l with
  | [] => [x]
  | y :: r => if lt y x then y :: sort_insert lt x r else x :: l
  end.

Definition stable_sort {A} (lt : A -> A -> bool) (l : list A) : list A := foldr (sort_insert lt) [] l.

Lemma sort_insert_perm {A} (lt : A -> A -> bool) x l : sort_insert lt x l ≡ₚ x :: l.
Proof.
  induction l as [|y r IH]; simpl; [done|]. destruct (lt y x); [|done].
  rewrite IH. apply Permutation_swap.
Qed.

Lemma stable_sort_perm {A} (lt : A -> A -> bool) l : stable_sort lt l ≡ₚ l.
Proof. induction l as [|x l IH]; simpl; [done|]. by rewrite sort_insert_perm, IH. Qed.

Section SortKey.
Context {A : Type} (lt : A -> A -> bool).
Context (lt_trans : forall x y z, lt x y = true -> lt y z = true -> lt x z = true).
Context (lt_irrefl : forall x, lt x x = false).
Context (ge_trans : forall x y z, lt y x = false -> lt z y = false -> lt z x = false).

Definition sorted_by (l : list A) : Prop := StronglySorted (fun x y => lt y x = false) l.

Lemma sort_insert_sorted x l : sorted_by l -> sorted_by (sort_insert lt x l).
Proof.
  intros H. induction H as [|y r Hr IH Hall]; simpl; [repeat constructor|].
  destruct (lt y x) eqn:E.
  - constructor; [done|]. rewrite sort_insert_perm. constructor; [|done].
    destruct (lt x y) eqn:E'; [|done]. pose proof (lt_trans _ _ _ E E') as C. by rewrite lt_irrefl in C.
  - constructor; [by constructor|]. constructor; [done|].
    eapply Forall_impl; [exact Hall|]. intros z Hz. cbn beta in *. by eapply ge_trans.
Qed.

Lemma stable_sort_sorted l : sorted_by (stable_sort lt l).
Proof. induction l as [|x l IH]; simpl; [constructor | by apply sort_insert_sorted]. Qed.

End SortKey.

(** The order of [std::string]. *)
Lemma str_ltb_leb a b : String.ltb a b = negb (String.leb b a).
Proof. unfold String.ltb, String.leb. rewrite String.compare_antisym. by destruct (String.compare b a). Qed.

Lemma str_leb_trans a b c : String.leb a b = true -> String.leb b c = true -> String.leb a c = true.
Proof.
  intros H1 H2. apply Is_true_true. change (String.le a c). transitivity b; by apply Is_true_true.
Qed.

(** Sorting by a string key. *)
Lemma sort_by_string_sorted {A} (key : A -> string) l :
  StronglySorted (fun x y => String.leb (key x) (key y) = true)
    (stable_sort (fun a b => String.ltb (key a) (key b)) l).
Proof.
  assert (H : sorted_by (fun a b => String.ltb (key a) (key b))
                (stable_sort (fun a b => String.ltb (key a) (key b)) l)).
  { apply stable_sort_sorted.
    - intros x y z. rewrite !str_ltb_leb, !negb_true_iff. intros H1 H2.
      destruct (String.leb (key z) (key x)) eqn:E; [|done].
      destruct (String.leb_total (key y) (key z)) as [T|T]; [|congruence].
      by rewrite (str_leb_trans _ _ _ T E) in H1.
    - intros x. rewrite str_ltb_leb. by destruct (String.leb_total (key x) (key x)) as [-> | ->].
    - intros x y z. rewrite !str_ltb_leb, !negb_false_iff. intros H1 H2. by eapply str_leb_trans. }
  unfold sorted_by in H. revert H. generalize (stable_sort (fun a b => String.ltb (key a) (key b)) l) as k.
  induction 1 as [|x k _ IH Hall]; constructor; [done|]. eapply Forall_impl; [exact Hall|].
  intros y. cbn beta. by rewrite str_ltb_leb, negb_false_iff.
Qed.
