(* ===== verification/Text.v ===== *)
(** * Searching text

    What the components share of [std::string]'s searches: the first and the last
    occurrence, prefixes and suffixes, and the pieces a text falls into at a separator. *)
From Stdlib Require Import ZArith Lia Ascii String.
From S2P Require Import Prelude.
Open Scope string_scope.
Open Scope Z_scope.

(** ** Searches *)

(** [s.find(sub, pos)]. *)
Definition find_from (pos : nat) (sub s : string) : option nat := String.index pos sub s.
Definition has (sub s : string) : bool := match find_from 0 sub s with Some _ => true | None => false end.

(** [s.rfind(c)]: what is before the last one, and after it. *)
Fixpoint cut_last (c : ascii) (s : string) : option (string * string) :=
  match s with
  | EmptyString => None
  | String d r =>
      match cut_last c r with
      | Some (a, b) => Some (String d a, b)
      | None => if ascii_dec c d then Some (EmptyString, r) else None
      end
  end.

(** What stands before the first character that stops. *)
Fixpoint take_until (stop : ascii -> bool) (s : string) : string :=
  match s with
  | EmptyString => EmptyString
  | String c r => if stop c then EmptyString else String c (take_until stop r)
  end.

Definition ends_with (suffix s : string) : bool :=
  (size suffix <=? size s)%nat && String.eqb (str_drop (size s - size suffix) s) suffix.

(** ** What they find *)

Lemma index_split sub s : has sub s = false -> sub <> "" -> forall a b, s <> a +:+ (sub +:+ b).
Proof.
  unfold has, find_from. destruct (String.index 0 sub s) as [n|] eqn:E; [done|]. intros _ Hs a b ->.
  apply (index_correct3 0 (String.length a) sub _ E Hs); [lia|]. clear. induction a as [|x a IH]; cbn [String.append String.length substring]; [|done].
  induction sub as [|x sub IH]; cbn; [by destruct b | by f_equal].
Qed.

(** What is found lies where it was looked for, and is as long as what was sought. *)
Lemma find_from_bounds pos sub s n : find_from pos sub s = Some n -> (pos <= n /\ n + size sub <= size s)%nat.
Proof.
  assert (Hp : forall a b, String.prefix a b = true -> (size a <= size b)%nat).
  { unfold size. induction a as [|x a IH]; intros [|y b]; cbn [String.prefix String.length]; try (done || lia).
    destruct (ascii_dec x y); [|done]. intros ?%IH. lia. }
  unfold find_from. revert pos n. induction s as [|x s IH]; intros pos n.
  - destruct pos, sub; cbn [String.index]; intros [= <-]. unfold size. cbn. lia.
  - destruct pos as [|pos]; cbn [String.index].
    + destruct (String.prefix sub (String x s)) eqn:E; [intros [= <-]; apply Hp in E; lia|].
      destruct (String.index 0 sub s) as [k|] eqn:F; [|done]. intros [= <-]. apply IH in F. unfold size in *. cbn [String.length]. lia.
    + destruct (String.index pos sub s) as [k|] eqn:F; [|done]. intros [= <-]. apply IH in F. unfold size in *. cbn [String.length]. lia.
Qed.

Lemma find_from_here pos sub s n : find_from pos sub s = Some n -> String.prefix sub (str_drop n s) = true.
Proof.
  unfold find_from. revert pos n. induction s as [|x s IH]; intros pos n; [destruct pos, sub; cbn [String.index]; by intros [= <-]|].
  destruct pos as [|pos]; cbn [String.index].
  - destruct (String.prefix sub (String x s)) eqn:E; [by intros [= <-]|].
    destruct (String.index 0 sub s) as [k|] eqn:F; [|done]. intros [= <-]. by apply IH in F.
  - destruct (String.index pos sub s) as [k|] eqn:F; [|done]. intros [= <-]. by apply IH in F.
Qed.

Lemma take_until_app stop s t : str_all (fun c => negb (stop c)) s = true ->
  match t with EmptyString => True | String c _ => stop c = true end -> take_until stop (s +:+ t) = s.
Proof.
  intros Hs Ht. induction s as [|c s IH]; cbn [String.append take_until str_all] in *.
  - destruct t as [|c t]; [done|]. cbn. by rewrite Ht.
  - apply andb_true_iff in Hs as [Hc%negb_true_iff Hs]. by rewrite Hc, IH.
Qed.

Lemma prefix_split sub d : String.prefix sub d = true -> exists r, d = sub +:+ r.
Proof.
  revert d. induction sub as [|c sub IH]; intros d; [by exists d|]. destruct d as [|e d]; cbn [String.prefix]; [done|].
  destruct (ascii_dec c e) as [<-|]; [|done]. intros [r ->]%IH. by exists r.
Qed.

Lemma take_drop_str n s : s = str_take n s +:+ str_drop n s.
Proof. revert s. induction n as [|n IH]; intros [|c s]; cbn [str_take str_drop String.append]; [done..|]. by rewrite <- IH. Qed.

Lemma has_true sub s : sub <> "" -> has sub s = true <-> exists a b, s = a +:+ (sub +:+ b).
Proof.
  intros Hs. split.
  - unfold has. destruct (find_from 0 sub s) as [n|] eqn:E; [|done]. intros _. apply find_from_here, prefix_split in E as [r Hr].
    exists (str_take n s), r. rewrite <- Hr. apply take_drop_str.
  - intros (a & b & E). destruct (has sub s) eqn:H; [done|]. by apply (index_split _ _ H Hs) in E.
Qed.

Lemma ends_with_true suffix s : ends_with suffix s = true <-> exists a, s = a +:+ suffix.
Proof.
  unfold ends_with. split.
  - intros [_ E%String.eqb_eq]%andb_true_iff. exists (str_take (size s - size suffix) s). rewrite <- E at 2. apply take_drop_str.
  - intros [a ->]. rewrite size_app. replace (size a + size suffix - size suffix)%nat with (size a) by lia.
    rewrite str_drop_app. apply andb_true_iff. split; [apply Nat.leb_le; lia | apply String.eqb_refl].
Qed.

Lemma cut_last_none c s : str_all (fun x => negb (Ascii.eqb x c)) s = true -> cut_last c s = None.
Proof.
  induction s as [|d s IH]; cbn [str_all cut_last]; [done|]. intros [Hd%negb_true_iff Hs]%andb_true_iff. rewrite IH by done.
  apply Ascii.eqb_neq in Hd. by destruct (ascii_dec c d) as [->|].
Qed.

Lemma cut_last_app c a b : str_all (fun x => negb (Ascii.eqb x c)) b = true -> cut_last c (a +:+ String c b) = Some (a, b).
Proof.
  intros Hb. induction a as [|d a IH]; cbn [String.append cut_last].
  - rewrite cut_last_none by done. by destruct (ascii_dec c c).
  - by rewrite IH.
Qed.

(** ** Pieces *)

Lemma piece_inside sep s p : p ∈ pieces sep s -> exists a b, s = a +:+ (p +:+ b).
Proof.
  assert (Hg : forall w ws, split_on sep s = (w, ws) -> (exists b, s = w +:+ b) /\ (p ∈ ws -> exists a b, s = a +:+ (p +:+ b))).
  { induction s as [|x s IH]; intros w ws; cbn [split_on]; [intros [= <- <-]; split; [by exists "" | by intros ?%elem_of_nil]|].
    destruct (split_on sep s) as [w1 ws1]. destruct (IH _ _ eq_refl) as [[b Hb] Hin].
    destruct (ascii_dec x sep); intros [= <- <-].
    - split; [by exists (String x s)|]. intros [->|Hp]%elem_of_cons; [exists (String x ""), b; by rewrite Hb|].
      destruct (Hin Hp) as (a & b' & ->). by exists (String x a), b'.
    - split; [exists b; by rewrite Hb|]. intros Hp. destruct (Hin Hp) as (a & b' & ->). by exists (String x a), b'. }
  unfold pieces. destruct (split_on sep s) as [w ws]. destruct (Hg _ _ eq_refl) as [[b Hb] Hin].
  intros [->|Hp]%elem_of_cons; [by exists "", b | by apply Hin].
Qed.

Lemma pieces_app sep a b : pieces sep (a +:+ String sep b) = (pieces sep a ++ pieces sep b)%list.
Proof.
  unfold pieces. induction a as [|c a IH]; cbn [String.append split_on].
  - destruct (split_on sep b). by destruct (ascii_dec sep sep).
  - revert IH. destruct (split_on sep (a +:+ String sep b)) as [w ws], (split_on sep a) as [v vs], (split_on sep b) as [u us].
    cbn [app]. intros [= -> ->]. by destruct (ascii_dec c sep).
Qed.

Lemma split_joins sep s w ws : split_on sep s = (w, ws) -> s = foldl (fun acc p => acc +:+ String sep p) w ws.
Proof.
  assert (Hc : forall l c v, foldl (fun acc p => acc +:+ String sep p) (String c v) l = String c (foldl (fun acc p => acc +:+ String sep p) v l)).
  { induction l as [|p l IH]; intros c v; cbn [foldl]; [done|]. by rewrite <- IH. }
  revert w ws. induction s as [|c s IH]; intros w ws; cbn [split_on]; [by intros [= <- <-]|].
  destruct (split_on sep s) as [v vs]. specialize (IH _ _ eq_refl). destruct (ascii_dec c sep) as [->|]; intros [= <- <-].
  - cbn [foldl String.append]. by rewrite Hc, <- IH.
  - by rewrite Hc, <- IH.
Qed.

Lemma joined_back sep s ws : pieces sep s = ws -> s = match ws with [] => "" | w :: r => foldl (fun acc p => acc +:+ String sep p) w r end.
Proof. unfold pieces. destruct (split_on sep s) as [w vs] eqn:E. intros <-. by apply split_joins. Qed.


(** The pieces after the first: none without a separator, and each stands between two
    separators or after the last. *)
Lemma tail_pieces_nil sep s : tl (pieces sep s) = [] <-> str_all (fun c => negb (Ascii.eqb c sep)) s = true.
Proof.
  split; [|by intros H; rewrite pieces_one].
  destruct (str_all _ s) eqn:E; [done|]. intros H. exfalso. assert (exists a b, s = a +:+ String sep b) as (a & b & ->).
  { clear H. induction s as [|c s IH]; [done|]. cbn [str_all] in E. destruct (Ascii.eqb_spec c sep) as [->|Hc]; [by exists "", s|].
    cbn [negb andb] in E. destruct (IH E) as (a & b & ->). by exists (String c a), b. }
  rewrite pieces_app in H. destruct (pieces sep a) as [|x [|y l]] eqn:Ea; [unfold pieces in Ea; by destruct (split_on sep a)| |done].
  cbn in H. unfold pieces in H. by destruct (split_on sep b).
Qed.

Lemma join_app sep x y l : foldl (fun acc p => acc +:+ String sep p) (x +:+ y) l = x +:+ foldl (fun acc p => acc +:+ String sep p) y l.
Proof. revert y. induction l as [|p l IH]; intros y; cbn [foldl]; [done|]. by rewrite str_app_assoc, IH. Qed.

Lemma tail_pieces_app sep a b p : p ∈ pieces sep b -> p ∈ tl (pieces sep (a +:+ String sep b)).
Proof. intros H. rewrite pieces_app. unfold pieces at 1. destruct (split_on sep a). cbn. apply elem_of_app. by right. Qed.

Lemma tail_piece sep p s : str_all (fun c => negb (Ascii.eqb c sep)) p = true ->
  p ∈ tl (pieces sep s) <-> (exists a, s = a +:+ String sep p) \/ (exists a b, s = a +:+ String sep (p +:+ String sep b)).
Proof.
  intros Hp. split.
  - destruct (pieces sep s) as [|w r] eqn:E; [by intros ?%elem_of_nil|]. cbn [tl]. intros (r1 & r2 & ->)%list_elem_of_split.
    apply joined_back in E. rewrite E, foldl_app. cbn [foldl]. set (a := foldl _ w r1). destruct r2 as [|q r3]; [left; by exists a|].
    right. exists a, (foldl (fun acc p => acc +:+ String sep p) q r3). cbn [foldl].
    change (String sep q) with (String sep "" +:+ q). rewrite <- !str_app_assoc, join_app, !str_app_assoc. done.
  - intros [[a ->]|(a & b & ->)]; apply tail_pieces_app; [rewrite pieces_one by done | rewrite pieces_cons by done]; by apply list_elem_of_here.
Qed.
