(* ===== verification/Threads.v ===== *)
(** * Interleaved transactions

    Programs that run as a sequence of atomic steps on a shared store (one database
    transaction or storage call each), pools of such programs whose steps interleave
    in any order, and rely/guarantee reasoning about them: a program that keeps the
    invariant and changes the store only as the others expect, whatever they do
    between two of its steps, keeps it in every pool. *)
From Stdlib Require Import ZArith Lia Ascii String.
From stdpp Require Import relations.
From S2P Require Import Prelude.
Open Scope Z_scope.
Set Warnings "-clear-no-such-hyp".

Module Threads.

(** ** Programs *)

(** A result, or a step: what it leaves in the store, and how the program goes on
    with what it saw there. *)
Inductive prog (W A : Type) :=
| Done (r : outcome A)
| Step (next : W -> W) (k : W -> prog W A).
Arguments Done {W A} r.
Arguments Step {W A} next k.

#[export] Instance prog_ret W : MRet (prog W) := fun A a => Done (Ok a).

Fixpoint prog_bind_ {W A B} (k : A -> prog W B) (p : prog W A) : prog W B :=
  match p with
  | Done (Ok a) => k a
  | Done (Throw e) => Done (Throw e)
  | Done Undef => Done Undef
  | Step next p' => Step next (fun w => prog_bind_ k (p' w))
  end.
#[export] Instance prog_bind W : MBind (prog W) := fun A B => prog_bind_.

(** One step: a whole call on the store. *)
Definition atomic {W A} (m : st W A) : prog W A := Step (fun w => (m w).2) (fun w => Done (m w).1).

(** A computation that does not touch the store. *)
Definition pure {W A} (m : outcome A) : prog W A := Done m.

(** [try]/[catch] around a program. *)
Fixpoint catch {W A} (h : exn -> outcome A) (p : prog W A) : prog W A :=
  match p with
  | Done (Throw e) => Done (h e)
  | Done r => Done r
  | Step next k => Step next (fun w => catch h (k w))
  end.

(** A program whose result nobody looks at. *)
Definition void {W A} (p : prog W A) : prog W () := p ≫= fun _ => mret ().

(** A program on one part of a larger store. *)
Fixpoint zoom {W V A} (get : W -> V) (put : V -> W -> W) (p : prog V A) : prog W A :=
  match p with
  | Done r => Done r
  | Step next k => Step (fun w => put (next (get w)) w) (fun w => zoom get put (k (get w)))
  end.

(** Nothing else runs: the result and the store at the end. *)
Fixpoint alone {W A} (p : prog W A) (w : W) : outcome A * W :=
  match p with Done r => (r, w) | Step next k => alone (k w) (next w) end.

Lemma alone_bind {W A B} (p : prog W A) (k : A -> prog W B) w :
  alone (p ≫= k) w = match alone p w with
                     | (Ok a, w') => alone (k a) w'
                     | (Throw e, w') => (Throw e, w')
                     | (Undef, w') => (Undef, w')
                     end.
Proof.
  unfold mbind, prog_bind. revert w. induction p as [[a|e|]|next p' IH]; intros w; cbn [prog_bind_ alone]; done.
Qed.

Lemma alone_atomic {W A} (m : st W A) w : alone (atomic m) w = m w.
Proof. cbn [atomic alone]. by destruct (m w). Qed.

Lemma alone_step {W A B} (m : st W A) (k : A -> prog W B) w a w' :
  m w = (Ok a, w') -> alone (atomic m ≫= k) w = alone (k a) w'.
Proof. intros E. by rewrite alone_bind, alone_atomic, E. Qed.

Lemma alone_pure {W A} (m : outcome A) (w : W) : alone (pure m) w = (m, w).
Proof. done. Qed.

Lemma alone_catch {W A} (h : exn -> outcome A) (p : prog W A) w :
  alone (catch h p) w = match alone p w with (Throw e, w') => (h e, w') | x => x end.
Proof. revert w. induction p as [[a|e|]|next k IH]; intros w; cbn [catch alone]; done. Qed.

Lemma alone_zoom {W V A} (get : W -> V) (put : V -> W -> W) (p : prog V A) w :
  (forall v w, get (put v w) = v) -> (forall v v' w, put v (put v' w) = put v w) -> (forall w, put (get w) w = w) ->
  alone (zoom get put p) w = let '(r, v) := alone p (get w) in (r, put v w).
Proof.
  intros Hg Hp Hs. revert w. induction p as [r|next k IH]; intros w; cbn [zoom alone]; [by rewrite Hs|].
  rewrite IH, Hg. destruct (alone (k (get w)) (next (get w))). by rewrite Hp.
Qed.

(** A property of the store that a program, run alone, leaves as it was. *)
Definition stays {W A} (P : W -> Prop) (p : prog W A) : Prop := forall w, P w -> P (alone p w).2.

Lemma stays_done {W A} (P : W -> Prop) (r : outcome A) : stays P (Done r).
Proof. by intros w Hw. Qed.

Lemma stays_bind {W A B} (P : W -> Prop) (p : prog W A) (k : A -> prog W B) :
  stays P p -> (forall a, stays P (k a)) -> stays P (p ≫= k).
Proof.
  intros Hp Hk w Hw. rewrite alone_bind. specialize (Hp w Hw). destruct (alone p w) as [[a|e|] w']; cbn [snd] in *; [by apply Hk | done..].
Qed.

Lemma stays_pure {W A B} (P : W -> Prop) (m : outcome A) (k : A -> prog W B) : (forall a, stays P (k a)) -> stays P (pure m ≫= k).
Proof. intros Hk. apply stays_bind; [apply stays_done | done]. Qed.

Lemma stays_call {W A B} (P : W -> Prop) (m : st W A) (k : A -> prog W B) :
  (forall w, P w -> P (m w).2) -> (forall a, stays P (k a)) -> stays P (atomic m ≫= k).
Proof. intros Hm Hk. apply stays_bind; [|done]. intros w Hw. rewrite alone_atomic. by apply Hm. Qed.

Lemma stays_read {W A B} (P : W -> Prop) (f : W -> A) (k : A -> prog W B) : (forall a, stays P (k a)) -> stays P (atomic (gets f) ≫= k).
Proof. intros Hk. apply stays_call; [done | exact Hk]. Qed.

Lemma stays_catch {W A} (P : W -> Prop) (h : exn -> outcome A) (p : prog W A) : stays P p -> stays P (catch h p).
Proof. intros Hp w Hw. rewrite alone_catch. specialize (Hp w Hw). by destruct (alone p w) as [[a|e|] w']. Qed.

Lemma pure_ok {W A B} (a : A) (k : A -> prog W B) : (pure (Ok a) ≫= k) = k a.
Proof. done. Qed.

Lemma step_Ok {W A B} (m : st W A) (k : A -> prog W B) w b w' : alone (atomic m ≫= k) w = (Ok b, w') ->
  exists a w1, m w = (Ok a, w1) /\ alone (k a) w1 = (Ok b, w').
Proof. rewrite alone_bind, alone_atomic. destruct (m w) as [[a|e|] w1]; [|discriminate..]. intros E. by exists a, w1. Qed.

(** ** Pools *)

(** The store and the programs running on it: any of them takes its next step, or a
    new one, among those [enter] allows, is started. *)
Inductive turn {W A} (enter : W -> prog W A -> Prop) : W * list (prog W A) -> W * list (prog W A) -> Prop :=
| turn_step w ts i next k :
    ts !! i = Some (Step next k) -> turn enter (w, ts) (next w, <[i := k w]> ts)
| turn_enter w ts p : enter w p -> turn enter (w, ts) (w, ts ++ [p])%list.

(** The turns of a given schedule: which program steps next. *)
Fixpoint schedule {W A} (order : list nat) (s : W * list (prog W A)) : W * list (prog W A) :=
  match order with
  | [] => s
  | i :: r =>
      match s.2 !! i with
      | Some (Step next k) => schedule r (next s.1, <[i := k s.1]> s.2)
      | _ => schedule r s
      end
  end.

Lemma schedule_turns {W A} (enter : W -> prog W A -> Prop) order : forall s, rtc (turn enter) s (schedule order s).
Proof.
  induction order as [|i r IH]; intros [w ts]; cbn [schedule fst snd]; [done|].
  destruct (ts !! i) as [[|next k]|] eqn:E; [apply IH | | apply IH].
  eapply rtc_l; [by apply turn_step | apply IH].
Qed.

(** Programs that may all start at once, under a schedule. *)
Lemma schedule_reached {W A} (enter : W -> prog W A -> Prop) order w l :
  Forall (enter w) l -> rtc (turn enter) (w, []) (schedule order (w, l)).
Proof.
  intros H. etrans; [|apply schedule_turns]. assert (forall started, rtc (turn enter) (w, started) (w, started ++ l)%list) as K; [|apply (K [])].
  induction H as [|p l Hp _ IH]; intros started; [by rewrite app_nil_r|]. eapply rtc_l; [by apply turn_enter|].
  replace (started ++ p :: l)%list with ((started ++ [p]) ++ l)%list by by rewrite <- app_assoc. apply IH.
Qed.

(** ** Rely and guarantee *)

Section Rely.
Context {W : Type} (I : W -> Prop) (R : W -> W -> Prop).
Context `{!PreOrder R}.

(** From any store the others may have left, every step keeps [I] and changes the
    store only as [R] allows; [Q] holds of the result at the moment it is returned. *)
Fixpoint ok {A} (p : prog W A) (w : W) (Q : outcome A -> W -> Prop) : Prop :=
  match p with
  | Done r => Q r w
  | Step next k => forall w1, R w w1 -> I w1 -> I (next w1) /\ R w1 (next w1) /\ ok (k w1) (next w1) Q
  end.

Lemma ok_weaken {A} (p : prog W A) w (Q Q' : outcome A -> W -> Prop) :
  (forall r w', R w w' -> Q r w' -> Q' r w') -> ok p w Q -> ok p w Q'.
Proof.
  revert w. induction p as [r|next k IH]; intros w H; cbn [ok]; [by apply H|]. intros Hk w1 H1 HI.
  destruct (Hk w1 H1 HI) as (HI2 & H2 & Hk2). split; [done|]. split; [done|].
  apply IH; [|done]. intros r w' H'. apply H. by do 2 (etrans; [eassumption|]).
Qed.

Lemma ok_bind {A B} (p : prog W A) (k : A -> prog W B) w Q :
  ok p w (fun r w' => match r with Ok a => ok (k a) w' Q | Throw e => Q (Throw e) w' | Undef => Q Undef w' end) ->
  ok (p ≫= k) w Q.
Proof.
  unfold mbind, prog_bind. revert w. induction p as [[a|e|]|next p' IH]; intros w; cbn [prog_bind_ ok]; try done.
  intros Hk w1 H1 HI. destruct (Hk w1 H1 HI) as (? & ? & Hk2). split; [done|]. split; [done|]. by apply IH.
Qed.

Lemma ok_atomic {A} (m : st W A) w Q :
  (forall w1 r w2, R w w1 -> I w1 -> m w1 = (r, w2) -> I w2 /\ R w1 w2 /\ Q r w2) -> ok (atomic m) w Q.
Proof.
  intros H w1 H1 HI. cbn [ok]. destruct (m w1) as [r w2] eqn:E. by apply (H w1 r w2).
Qed.

Lemma ok_catch {A} (h : exn -> outcome A) (p : prog W A) w Q :
  ok p w (fun r w' => Q (match r with Throw e => h e | _ => r end) w') -> ok (catch h p) w Q.
Proof.
  revert w. induction p as [[a|e|]|next k IH]; intros w; cbn [catch ok]; try done.
  intros Hk w1 H1 HI. destruct (Hk w1 H1 HI) as (? & ? & Hk2). split; [done|]. split; [done|]. by apply IH.
Qed.

(** What held of an old store holds after the others have moved. *)
Lemma ok_later {A} (p : prog W A) w w' Q :
  (forall r w1 w2, R w1 w2 -> Q r w1 -> Q r w2) -> R w w' -> ok p w Q -> ok p w' Q.
Proof.
  intros HQ H. destruct p as [r|next k]; cbn [ok]; [by apply HQ|]. intros Hk w1 H1. apply Hk. by etrans.
Qed.

Definition quiet {A} (p : prog W A) (w : W) : Prop := ok p w (fun _ _ => True).

Lemma quiet_done {A} (r : outcome A) w : quiet (Done r) w.
Proof. done. Qed.

Lemma quiet_pure {A B} (m : outcome A) (k : A -> prog W B) w : (forall a, m = Ok a -> quiet (k a) w) -> quiet (pure m ≫= k) w.
Proof. destruct m as [a|e|]; [by intros H; apply H | done..]. Qed.

(** A step: what it does to the store, and the rest with what it found. *)
Lemma quiet_step {A B} (m : st W A) (k : A -> prog W B) w :
  (forall w1 r w2, R w w1 -> I w1 -> m w1 = (r, w2) -> I w2 /\ R w1 w2 /\ forall a, r = Ok a -> quiet (k a) w2) ->
  quiet (atomic m ≫= k) w.
Proof.
  intros H. apply ok_bind, ok_atomic. intros w1 r w2 H1 HI E. destruct (H _ _ _ H1 HI E) as (? & ? & Hk).
  split; [done|]. split; [done|]. destruct r; [by apply Hk | done..].
Qed.

(** A call that keeps [I] and moves as [R] allows wherever it starts. *)
Lemma quiet_call {A B} (m : st W A) (k : A -> prog W B) w :
  (forall w1, I w1 -> I (m w1).2 /\ R w1 (m w1).2) -> (forall a w', quiet (k a) w') -> quiet (atomic m ≫= k) w.
Proof. intros Hm Hk. apply quiet_step. intros w1 r w2 _ HI E. destruct (Hm w1 HI) as [? ?]. rewrite E in *. eauto. Qed.

Lemma quiet_read {A B} (f : W -> A) (k : A -> prog W B) w :
  (forall w1, R w w1 -> I w1 -> quiet (k (f w1)) w1) -> quiet (atomic (gets f) ≫= k) w.
Proof. intros H. apply quiet_step. intros w1 r w2 H1 HI [= <- <-]. repeat split; [done | done|]. intros a [= <-]. by apply H. Qed.

Lemma quiet_last {A} (m : st W A) w :
  (forall w1, R w w1 -> I w1 -> I (m w1).2 /\ R w1 (m w1).2) -> quiet (atomic m) w.
Proof. intros H. apply ok_atomic. intros w1 r w2 H1 HI E. destruct (H _ H1 HI) as [? ?]. by rewrite E in *. Qed.

Lemma quiet_catch {A} (h : exn -> outcome A) (p : prog W A) w : quiet p w -> quiet (catch h p) w.
Proof. apply (ok_catch h p w (fun _ _ => True)). Qed.

Lemma quiet_bind {A B} (p : prog W A) (k : A -> prog W B) w : quiet p w -> (forall a w', quiet (k a) w') -> quiet (p ≫= k) w.
Proof. intros Hp Hk. apply ok_bind. eapply ok_weaken; [|exact Hp]. intros [a|e|] w' _ _; [apply Hk | done..]. Qed.

(** Such a program, run with nothing in between. *)
Lemma quiet_alone {A} (p : prog W A) : forall w, quiet p w -> I w -> I (alone p w).2 /\ R w (alone p w).2.
Proof.
  induction p as [r|next k IH]; intros w; cbn [quiet ok alone]; [done|]. intros H HI. destruct (H w (reflexivity w) HI) as (HI2 & H2 & Hk).
  destruct (IH w (next w) Hk HI2) as [HI3 H3]. split; [done | by etrans].
Qed.

(** Every pool of such programs keeps the invariant, and moves only as [R] allows. *)
Theorem pool_keeps {A} (enter : W -> prog W A -> Prop) :
  (forall w p, I w -> enter w p -> quiet p w) ->
  forall s s', rtc (turn enter) s s' ->
  I s.1 -> Forall (fun p => quiet p s.1) s.2 -> I s'.1 /\ R s.1 s'.1 /\ Forall (fun p => quiet p s'.1) s'.2.
Proof.
  intros Henter s s' Hs. induction Hs as [s|s t u Ht Hs IH]; intros HI Hq; [done|].
  assert (I t.1 /\ R s.1 t.1 /\ Forall (fun p => quiet p t.1) t.2) as (HI' & HR & Hq').
  { destruct Ht as [w ts i next k Hi|w ts p Hp]; cbn [fst snd] in *.
    - destruct (proj1 (Forall_lookup _ _) Hq i _ Hi w (reflexivity w) HI) as (HI2 & HR & Hp). split; [done|]. split; [done|].
      apply Forall_insert; [|done]. eapply Forall_impl; [exact Hq|]. intros q. by apply ok_later.
    - split; [done|]. split; [done|]. apply Forall_app_2; [done|]. by apply Forall_singleton, Henter. }
  destruct (IH HI' Hq') as (? & ? & ?). split; [done|]. split; [by etrans | done].
Qed.

End Rely.

End Threads.
