(* ===== verification/PayrollCalculator.v ===== *)
(** * Payroll withholding calculator (src/payroll/PayrollCalculator.hpp)

    [Payroll::calculate] in checked [long long] arithmetic, an unbounded
    reference calculation, and the refinement between the two inside the
    supported range of rates and gross pay. *)
From Stdlib Require Import ZArith Lia String.
From S2P Require Import Prelude.
Open Scope Z_scope.

Module Calculator.

(** [kMaxGrossTiyn]: src/payroll/PayrollCalculator.hpp:112-112. *)
Definition kMaxGrossTiyn : Z := 100000000000000.

(** [Rates]: src/payroll/PayrollCalculator.hpp:119-146. *)
Record Rates := mkRates {
  ipn_bp : Z; opv_bp : Z; opvr_bp : Z; so_bp : Z; osms_bp : Z; vosms_bp : Z;
  social_tax_bp : Z;
  mrp_tiyn : Z; mzp_tiyn : Z;
  ipn_deduction_mrp : Z; opv_base_max_mzp : Z; so_base_min_mzp : Z;
  so_base_max_mzp : Z; vosms_base_max_mzp : Z; osms_base_max_mzp : Z;
  social_tax_applies : bool
}.

(** [Input]: src/payroll/PayrollCalculator.hpp:149-159. *)
Record Input := mkInput {
  gross_tiyn : Z;
  ipn_deduction_claimed : bool;
  opvr_exempt : bool
}.

(** [Result]: src/payroll/PayrollCalculator.hpp:162-172. *)
Record Result := mkResult {
  opv : Z; vosms : Z; ipn : Z; net : Z; opvr : Z; so : Z; osms : Z;
  social_tax : Z; employer_cost_total : Z
}.

#[export] Instance Result_eq_dec : EqDecision Result.
Proof. solve_decision. Defined.

(** [std::clamp], undefined when the bounds cross. *)
Definition std_clamp (v lo hi : Z) : outcome Z :=
  if hi <? lo then Undef
  else Ok (if v <? lo then lo else if hi <? v then hi else v).

(** [apply_bp]: src/payroll/PayrollCalculator.hpp:181-183. *)
Definition apply_bp (base_tiyn rate_bp : Z) : outcome Z :=
  p ← mul64 base_tiyn rate_bp;
  s ← add64 p 5000;
  mret (Z.quot s 10000).

(** The exception [calculate] raises on a gross outside the range. *)
Definition gross_error (gross : Z) : exn :=
  Exn std_out_of_range
    ("payroll: gross of " +:+ to_string gross +:+
     " tiyn is outside the supported range [0, " +:+ to_string kMaxGrossTiyn +:+ "]").

(** [calculate]: src/payroll/PayrollCalculator.hpp:196-244. *)
Definition calculate (inp : Input) (r : Rates) : outcome Result :=
  let gross := gross_tiyn inp in
  if (gross <? 0) || (kMaxGrossTiyn <? gross) then Throw (gross_error gross)
  else
    opv_cap ← mul64 (mzp_tiyn r) (opv_base_max_mzp r);
    opv ← apply_bp (Z.min gross opv_cap) (opv_bp r);
    vosms_cap ← mul64 (mzp_tiyn r) (vosms_base_max_mzp r);
    vosms ← apply_bp (Z.min gross vosms_cap) (vosms_bp r);
    ipn_deduction ← (if ipn_deduction_claimed inp
                     then mul64 (mrp_tiyn r) (ipn_deduction_mrp r) else mret 0);
    after_opv ← sub64 gross opv;
    after_withheld ← sub64 after_opv vosms;
    after_deduction ← sub64 after_withheld ipn_deduction;
    ipn ← apply_bp (Z.max 0 after_deduction) (ipn_bp r);
    net ← sub64 after_withheld ipn;
    so_floor ← mul64 (mzp_tiyn r) (so_base_min_mzp r);
    so_ceiling ← mul64 (mzp_tiyn r) (so_base_max_mzp r);
    so_base ← std_clamp after_opv so_floor so_ceiling;
    so ← apply_bp so_base (so_bp r);
    osms_cap ← mul64 (mzp_tiyn r) (osms_base_max_mzp r);
    osms ← apply_bp (Z.min gross osms_cap) (osms_bp r);
    opvr ← (if opvr_exempt inp then mret 0
            else apply_bp (Z.min gross opv_cap) (opvr_bp r));
    social_tax ← (if social_tax_applies r
                  then apply_bp after_withheld (social_tax_bp r) else mret 0);
    e1 ← add64 gross opvr;
    e2 ← add64 e1 so;
    e3 ← add64 e2 osms;
    employer ← add64 e3 social_tax;
    mret (mkResult opv vosms ipn net opvr so osms social_tax employer).

(** ** Reference calculation on unbounded integers *)

(** Half-up rounding of [base * bp / 10000]. *)
Definition bp_spec (base bp : Z) : Z := (base * bp + 5000) / 10000.

Definition clamp_spec (v lo hi : Z) : Z := Z.max lo (Z.min v hi).

Section Spec.
Context (inp : Input) (r : Rates).

Definition opv_spec : Z := bp_spec (Z.min (gross_tiyn inp) (mzp_tiyn r * opv_base_max_mzp r)) (opv_bp r).
Definition vosms_spec : Z :=
  bp_spec (Z.min (gross_tiyn inp) (mzp_tiyn r * vosms_base_max_mzp r)) (vosms_bp r).
Definition deduction_spec : Z :=
  if ipn_deduction_claimed inp then mrp_tiyn r * ipn_deduction_mrp r else 0.
Definition ipn_spec : Z :=
  bp_spec (Z.max 0 (gross_tiyn inp - opv_spec - vosms_spec - deduction_spec)) (ipn_bp r).
Definition so_spec : Z :=
  bp_spec (clamp_spec (gross_tiyn inp - opv_spec) (mzp_tiyn r * so_base_min_mzp r)
             (mzp_tiyn r * so_base_max_mzp r)) (so_bp r).
Definition osms_spec : Z :=
  bp_spec (Z.min (gross_tiyn inp) (mzp_tiyn r * osms_base_max_mzp r)) (osms_bp r).
Definition opvr_spec : Z :=
  if opvr_exempt inp then 0
  else bp_spec (Z.min (gross_tiyn inp) (mzp_tiyn r * opv_base_max_mzp r)) (opvr_bp r).
Definition social_tax_spec : Z :=
  if social_tax_applies r
  then bp_spec (gross_tiyn inp - opv_spec - vosms_spec) (social_tax_bp r) else 0.

Definition calculate_spec : Result :=
  mkResult opv_spec vosms_spec ipn_spec (gross_tiyn inp - opv_spec - vosms_spec - ipn_spec)
    opvr_spec so_spec osms_spec social_tax_spec
    (gross_tiyn inp + opvr_spec + so_spec + osms_spec + social_tax_spec).
End Spec.

(** Rates the calculator is written for: percentages, non-negative bases, and
    withholdings that leave at least half of the gross. *)
Definition is_bp (b : Z) : Prop := 0 <= b <= 10000.
Definition is_base (b : Z) : Prop := 0 <= b <= kMaxGrossTiyn.

Record rates_ok (r : Rates) : Prop := {
  ok_ipn : is_bp (ipn_bp r); ok_opv : is_bp (opv_bp r); ok_opvr : is_bp (opvr_bp r);
  ok_so : is_bp (so_bp r); ok_osms : is_bp (osms_bp r); ok_vosms : is_bp (vosms_bp r);
  ok_social : is_bp (social_tax_bp r);
  ok_withheld : opv_bp r + vosms_bp r <= 5000;
  ok_opv_cap : is_base (mzp_tiyn r * opv_base_max_mzp r);
  ok_vosms_cap : is_base (mzp_tiyn r * vosms_base_max_mzp r);
  ok_osms_cap : is_base (mzp_tiyn r * osms_base_max_mzp r);
  ok_so_floor : is_base (mzp_tiyn r * so_base_min_mzp r);
  ok_so_ceiling : is_base (mzp_tiyn r * so_base_max_mzp r);
  ok_so_order : mzp_tiyn r * so_base_min_mzp r <= mzp_tiyn r * so_base_max_mzp r;
  ok_deduction : is_base (mrp_tiyn r * ipn_deduction_mrp r)
}.

(** The rates seeded for 2026 (migrations/011_tax_reference.sql), simplified
    regime. *)
Definition rates_2026 : Rates :=
  mkRates 1000 1000 350 500 300 200 600 432500 8500000 30 50 1 7 20 40 false.

(** ** Rounding lemmas *)

Lemma apply_bp_exact base bp :
  0 <= base -> is_bp bp -> base <= kMaxGrossTiyn -> apply_bp base bp = Ok (bp_spec base bp).
Proof.
  unfold is_bp, kMaxGrossTiyn. intros Hb Hr Hm. unfold apply_bp, bp_spec.
  assert (0 <= base * bp <= 1000000000000000000) by nia.
  run64. by rewrite quot_div by lia.
Qed.

Lemma bp_spec_nonneg base bp : 0 <= base -> 0 <= bp -> 0 <= bp_spec base bp.
Proof. intros. unfold bp_spec. apply Z.div_pos; nia. Qed.

Lemma bp_spec_le_base base bp : 0 <= base -> is_bp bp -> bp_spec base bp <= base.
Proof.
  unfold is_bp, bp_spec. intros Hb Hr.
  apply Z.lt_succ_r, Z.div_lt_upper_bound; [lia|]. nia.
Qed.

Lemma bp_spec_mono b1 b2 bp : 0 <= bp -> b1 <= b2 -> bp_spec b1 bp <= bp_spec b2 bp.
Proof. intros. unfold bp_spec. apply Z.div_le_mono; nia. Qed.

(** Rounding moves the exact product by at most half a tiyn. *)
Lemma bp_spec_rounding base bp :
  -5000 < 10000 * bp_spec base bp - base * bp <= 5000.
Proof. unfold bp_spec. dlia. Qed.

(** Two withholdings of at most half the base together stay within it. *)
Lemma bp_spec_pair x y g b1 b2 :
  0 <= x <= g -> 0 <= y <= g -> 0 <= b1 -> 0 <= b2 -> b1 + b2 <= 5000 ->
  bp_spec x b1 + bp_spec y b2 <= g.
Proof.
  intros Hx Hy H1 H2 H12.
  pose proof (bp_spec_rounding x b1). pose proof (bp_spec_rounding y b2).
  assert (x * b1 + y * b2 <= g * 5000) by nia.
  destruct (Z.le_gt_cases 2 g); [lia|].
  assert (x = 0 \/ x = 1) as [-> | ->] by lia; assert (y = 0 \/ y = 1) as [-> | ->] by lia; lia.
Qed.

Lemma clamp_spec_range v lo hi : lo <= hi -> lo <= clamp_spec v lo hi <= hi.
Proof. unfold clamp_spec. lia. Qed.

Lemma std_clamp_ok v lo hi : lo <= hi -> std_clamp v lo hi = Ok (clamp_spec v lo hi).
Proof.
  intros H. unfold std_clamp, clamp_spec.
  destruct (Z.ltb_spec hi lo); [lia|]. f_equal.
  destruct (Z.ltb_spec v lo), (Z.ltb_spec hi v); lia.
Qed.

#[export] Hint Resolve bp_spec_nonneg bp_spec_le_base clamp_spec_range : cpp.

(** Withheld amounts of a valid calculation. *)
Lemma withheld_bounds inp r :
  rates_ok r -> 0 <= gross_tiyn inp ->
  0 <= opv_spec inp r <= gross_tiyn inp /\ 0 <= vosms_spec inp r <= gross_tiyn inp /\
  opv_spec inp r + vosms_spec inp r <= gross_tiyn inp.
Proof.
  intros Hr Hg. destruct Hr. unfold is_bp, is_base, opv_spec, vosms_spec in *.
  assert (Hpair := bp_spec_pair (Z.min (gross_tiyn inp) (mzp_tiyn r * opv_base_max_mzp r))
    (Z.min (gross_tiyn inp) (mzp_tiyn r * vosms_base_max_mzp r)) (gross_tiyn inp)
    (opv_bp r) (vosms_bp r)).
  assert (0 <= bp_spec (Z.min (gross_tiyn inp) (mzp_tiyn r * opv_base_max_mzp r)) (opv_bp r))
    by (apply bp_spec_nonneg; lia).
  assert (0 <= bp_spec (Z.min (gross_tiyn inp) (mzp_tiyn r * vosms_base_max_mzp r)) (vosms_bp r))
    by (apply bp_spec_nonneg; lia).
  lia.
Qed.

Lemma ipn_bounds inp r :
  rates_ok r -> 0 <= gross_tiyn inp ->
  0 <= ipn_spec inp r <= gross_tiyn inp - opv_spec inp r - vosms_spec inp r.
Proof.
  intros Hr Hg. pose proof (withheld_bounds inp r Hr Hg). destruct Hr. unfold ipn_spec.
  assert (0 <= deduction_spec inp r) by (unfold deduction_spec, is_base in *; case_match; lia).
  set (b := Z.max 0 _). assert (0 <= b) by lia.
  split; [by apply bp_spec_nonneg; unfold is_bp in *; try lia|].
  pose proof (bp_spec_le_base b (ipn_bp r)). unfold b in *. intuition lia.
Qed.

Lemma deduction_ok inp r :
  rates_ok r ->
  (if ipn_deduction_claimed inp then mul64 (mrp_tiyn r) (ipn_deduction_mrp r) else mret 0)
    = Ok (deduction_spec inp r) /\ is_base (deduction_spec inp r).
Proof.
  intros Hr. destruct Hr. unfold deduction_spec, is_base, kMaxGrossTiyn in *.
  case_match; [|done]. by run64.
Qed.

(** [calc]: one step of the calculator: a known amount or checked arithmetic. *)
Ltac calc :=
  repeat first
    [ match goal with H : ?m = Ok _ |- context [?m] => rewrite H end
    | rewrite std_clamp_ok by assumption | step64 ].

(** Each rounded amount of a valid calculation, as the code computes it. *)
Lemma withheld_exact inp r :
  rates_ok r -> 0 <= gross_tiyn inp <= kMaxGrossTiyn ->
  apply_bp (Z.min (gross_tiyn inp) (mzp_tiyn r * opv_base_max_mzp r)) (opv_bp r)
    = Ok (opv_spec inp r) /\
  apply_bp (Z.min (gross_tiyn inp) (mzp_tiyn r * vosms_base_max_mzp r)) (vosms_bp r)
    = Ok (vosms_spec inp r) /\
  apply_bp (Z.max 0 (gross_tiyn inp - opv_spec inp r - vosms_spec inp r - deduction_spec inp r))
    (ipn_bp r) = Ok (ipn_spec inp r) /\
  apply_bp (clamp_spec (gross_tiyn inp - opv_spec inp r) (mzp_tiyn r * so_base_min_mzp r)
    (mzp_tiyn r * so_base_max_mzp r)) (so_bp r) = Ok (so_spec inp r) /\
  apply_bp (Z.min (gross_tiyn inp) (mzp_tiyn r * osms_base_max_mzp r)) (osms_bp r)
    = Ok (osms_spec inp r).
Proof.
  intros Hr Hg. pose proof (withheld_bounds inp r Hr ltac:(lia)) as (Ho & Hv & Hov).
  pose proof (deduction_ok inp r Hr) as [_ Hd].
  destruct Hr. unfold is_base in *.
  pose proof (clamp_spec_range (gross_tiyn inp - opv_spec inp r) _ _ ok_so_order0).
  repeat split; apply apply_bp_exact; (assumption || lia).
Qed.

(** The employer-side amounts: values and ranges. *)
Lemma side_amounts_ok inp r :
  rates_ok r -> 0 <= gross_tiyn inp <= kMaxGrossTiyn ->
  0 <= so_spec inp r <= kMaxGrossTiyn /\ 0 <= osms_spec inp r <= kMaxGrossTiyn /\
  ((if opvr_exempt inp then mret 0 else
     apply_bp (Z.min (gross_tiyn inp) (mzp_tiyn r * opv_base_max_mzp r)) (opvr_bp r))
     = Ok (opvr_spec inp r) /\ 0 <= opvr_spec inp r <= kMaxGrossTiyn) /\
  ((if social_tax_applies r then
     apply_bp (gross_tiyn inp - opv_spec inp r - vosms_spec inp r) (social_tax_bp r) else mret 0)
     = Ok (social_tax_spec inp r) /\ 0 <= social_tax_spec inp r <= kMaxGrossTiyn).
Proof.
  intros Hr Hg. pose proof (withheld_bounds inp r Hr ltac:(lia)) as (Ho & Hv & Hov).
  assert (Hle : forall b p, 0 <= b <= kMaxGrossTiyn -> is_bp p -> 0 <= bp_spec b p <= kMaxGrossTiyn).
  { intros b p Hb Hp. pose proof (bp_spec_le_base b p ltac:(lia) Hp).
    pose proof (bp_spec_nonneg b p ltac:(lia) ltac:(unfold is_bp in Hp; lia)). lia. }
  destruct Hr. unfold is_base in *.
  pose proof (clamp_spec_range (gross_tiyn inp - opv_spec inp r) _ _ ok_so_order0).
  repeat split;
    try (unfold so_spec, osms_spec, opvr_spec, social_tax_spec; case_match; [unfold kMaxGrossTiyn; lia|]);
    try (unfold so_spec, osms_spec, opvr_spec, social_tax_spec; apply Hle; [lia|done]);
    unfold opvr_spec, social_tax_spec; case_match; try done; try (unfold kMaxGrossTiyn; lia);
    try (by rewrite apply_bp_exact by (done || lia)); apply Hle; (done || lia).
Qed.

(** ** Properties of [calculate] *)

Lemma calculate_run_spec inp r res :
  rates_ok r -> 0 <= gross_tiyn inp <= kMaxGrossTiyn ->
  calculate inp r = Ok res <-> res = calculate_spec inp r.
Proof.
  intros Hr Hg. enough (calculate inp r = Ok (calculate_spec inp r)) as -> by (split; congruence).
  pose proof (withheld_bounds inp r Hr ltac:(lia)) as (Ho & Hv & Hov).
  pose proof (ipn_bounds inp r Hr ltac:(lia)) as Hi.
  pose proof (deduction_ok inp r Hr) as [Hd Hdb].
  pose proof (side_amounts_ok inp r Hr Hg) as (Hso & Hosms & [Hopvr ?] & [Hst ?]).
  pose proof (withheld_exact inp r Hr Hg) as (Eo & Ev & Ei & Es & Em).
  destruct Hr as [? ? ? ? ? ? ? Hw Hc1 Hc2 Hc3 Hf1 Hf2 Hf _].
  unfold calculate, is_base, kMaxGrossTiyn in *.
  destruct (Z.ltb_spec (gross_tiyn inp) 0); [lia|].
  destruct (Z.ltb_spec 100000000000000 (gross_tiyn inp)); [lia|]. cbn [orb].
  calc. reflexivity.
Qed.

(** C3: For every gross in [0, kMaxGrossTiyn] and every sane rate table the
    checked [long long] computation never overflows, never reaches the
    undefined case of [std::clamp], and returns exactly the nine amounts of the
    unbounded reference calculation. *)
Theorem calculate_refines_spec inp r :
  rates_ok r -> 0 <= gross_tiyn inp <= kMaxGrossTiyn ->
  calculate inp r = Ok (calculate_spec inp r).
Proof. intros Hr Hg. by apply calculate_run_spec. Qed.

(** A successful run, read off the code: every bound of every step. *)
Lemma calculate_inv inp r res :
  calculate inp r = Ok res ->
  0 <= gross_tiyn inp <= kMaxGrossTiyn /\
  net res = gross_tiyn inp - opv res - vosms res - ipn res /\
  employer_cost_total res = gross_tiyn inp + opvr res + so res + osms res + social_tax res.
Proof.
  unfold calculate. case_match eqn:Hr; [discriminate|].
  apply orb_false_iff in Hr as [H1%Z.ltb_ge H2%Z.ltb_ge]. intros H.
  repeat match goal with
    | H : (_ ≫= _) = Ok _ |- _ => apply bind_Ok_inv in H as (? & ? & H)
    | H : sub64 _ _ = Ok _ |- _ => apply i64_inv in H as [-> _]
    | H : add64 _ _ = Ok _ |- _ => apply i64_inv in H as [-> _]
    end.
  injection H as <-. simpl. lia.
Qed.

(** Whatever the rates, a payslip that [calculate] returns balances: the
    gross is split exactly into the net pay and the three withholdings, and the
    employer cost is the gross plus the four employer contributions. *)
Theorem calculate_conservation inp r res :
  calculate inp r = Ok res ->
  gross_tiyn inp = net res + opv res + vosms res + ipn res /\
  employer_cost_total res
    = net res + ipn res + (opv res + opvr res) + so res + (osms res + vosms res) + social_tax res.
Proof. intros H. apply calculate_inv in H. lia. Qed.

Definition gross_500k : Input := mkInput 50000000 true false.

Lemma rates_2026_ok : rates_ok rates_2026.
Proof. split; unfold is_bp, is_base, kMaxGrossTiyn; simpl; lia. Qed.

Example calculate_500k :
  calculate gross_500k rates_2026
  = Ok (mkResult 5000000 1000000 3102500 40897500 1750000 2250000 1500000 0 55500000).
Proof. vm_compute. reflexivity. Qed.

Lemma calculate_refines_spec_witness :
  calculate gross_500k rates_2026 = Ok (calculate_spec gross_500k rates_2026).
Proof.
  apply (calculate_refines_spec gross_500k rates_2026);
    [exact rates_2026_ok | unfold kMaxGrossTiyn; simpl; lia].
Defined.

Lemma calculate_conservation_witness :
  50000000 = 40897500 + 5000000 + 1000000 + 3102500 /\ 55500000 =
  40897500 + 3102500 + (5000000 + 1750000) + 2250000 + (1500000 + 1000000) + 0.
Proof. exact (calculate_conservation gross_500k rates_2026 _ calculate_500k). Defined.

(** Under sane rates the net pay is between zero and the gross, every
    withheld and accrued amount is non-negative, and the standard deduction
    never raises the income tax. *)
Theorem calculate_net_bounds inp r res :
  rates_ok r -> calculate inp r = Ok res ->
  0 <= net res <= gross_tiyn inp /\ 0 <= opv res /\ 0 <= vosms res /\ 0 <= ipn res /\
  0 <= opvr res /\ 0 <= so res /\ 0 <= osms res /\ 0 <= social_tax res /\
  ipn res <= ipn_spec (mkInput (gross_tiyn inp) false (opvr_exempt inp)) r.
Proof.
  intros Hr Hc. pose proof (calculate_inv _ _ _ Hc) as (Hg & _).
  apply (calculate_run_spec inp r res Hr Hg) in Hc as ->. simpl.
  pose proof (withheld_bounds inp r Hr ltac:(lia)).
  pose proof (ipn_bounds inp r Hr ltac:(lia)).
  pose proof (side_amounts_ok inp r Hr Hg).
  pose proof (deduction_ok inp r Hr) as [_ Hd]. unfold is_base in Hd.
  repeat split; try lia.
  unfold ipn_spec. apply bp_spec_mono; [destruct Hr; unfold is_bp in *; lia|].
  unfold opv_spec, vosms_spec, deduction_spec in *; simpl in *. case_match; lia.
Qed.

(** [calculate] throws exactly on a gross outside [0, kMaxGrossTiyn], and
    then always [std::out_of_range], before any rate is looked at. *)
Theorem calculate_error inp r :
  rates_ok r ->
  (exists e, calculate inp r = Throw e) <-> (gross_tiyn inp < 0 \/ kMaxGrossTiyn < gross_tiyn inp).
Proof.
  intros Hr. split.
  - intros [e He]. destruct (Z.le_gt_cases 0 (gross_tiyn inp)); [|lia].
    destruct (Z.le_gt_cases (gross_tiyn inp) kMaxGrossTiyn); [|lia].
    rewrite (proj2 (calculate_run_spec inp r _ Hr ltac:(lia)) eq_refl) in He. discriminate.
  - intros H. exists (gross_error (gross_tiyn inp)). unfold calculate.
    by replace ((gross_tiyn inp <? 0) || (kMaxGrossTiyn <? gross_tiyn inp)) with true by lia.
Qed.

Lemma calculate_net_bounds_witness : 0 <= 40897500 <= 50000000.
Proof.
  destruct (calculate_net_bounds gross_500k rates_2026 _ rates_2026_ok calculate_500k) as [H _].
  exact H.
Defined.

Lemma calculate_error_witness :
  exists e, calculate (mkInput (-1) false false) rates_2026 = Throw e.
Proof. apply (calculate_error _ _ rates_2026_ok). left. simpl. lia. Defined.

(** The gross bound alone does not keep the arithmetic defined: with legal
    percentages and a legal gross, a table whose СО floor exceeds its ceiling
    hits the undefined case of [std::clamp], and one whose МЗП multiplier is
    too large overflows. *)
Theorem calculate_needs_rate_bounds :
  exists r1 r2 inp,
    0 <= gross_tiyn inp <= kMaxGrossTiyn /\
    Forall (fun b => 0 <= b <= 10000)
      [ipn_bp r1; opv_bp r1; so_bp r1; osms_bp r1; vosms_bp r1; social_tax_bp r1;
       ipn_bp r2; opv_bp r2; so_bp r2; osms_bp r2; vosms_bp r2; social_tax_bp r2] /\
    calculate inp r1 = Undef /\ calculate inp r2 = Undef.
Proof.
  exists (mkRates 1000 1000 350 500 300 200 600 432500 8500000 30 50 7 1 20 40 false),
         (mkRates 1000 1000 350 500 300 200 600 432500 8500000 30 5000000000000 1 7 20 40 false),
         gross_500k.
  split; [unfold kMaxGrossTiyn; simpl; lia|].
  split; [repeat constructor; simpl; lia | split; vm_compute; reflexivity].
Qed.

End Calculator.
