(* ===== verification/Money.v ===== *)
(** * Money in words and in print (src/money/AmountInWords.hpp, MoneyFormat.hpp)

    The Russian and Kazakh spellings of an amount of tiyn and the grouped
    print format, with readers that take every rendered text back to the
    amount it came from. *)
From Stdlib Require Import ZArith Lia Ascii String.
From S2P Require Import Prelude.
Open Scope string_scope.
Open Scope Z_scope.

Module Words.

(** [kMaxTiyn]: src/money/AmountInWords.hpp:42-42. *)
Definition kMaxTiyn : Z := 100000000000000.

(** [kTriadCount]: src/money/AmountInWords.hpp:48-48. *)
Definition kTriadCount : nat := 5.

(** [kRuUnits]: src/money/AmountInWords.hpp:50-53. *)
Definition kRuUnits : list string :=
  ["ноль"; "один"; "два"; "три"; "четыре"; "пять"; "шесть"; "семь"; "восемь"; "девять";
   "десять"; "одиннадцать"; "двенадцать"; "тринадцать"; "четырнадцать"; "пятнадцать";
   "шестнадцать"; "семнадцать"; "восемнадцать"; "девятнадцать"].

(** [kRuTens]: src/money/AmountInWords.hpp:55-56. *)
Definition kRuTens : list string :=
  [""; ""; "двадцать"; "тридцать"; "сорок"; "пятьдесят"; "шестьдесят"; "семьдесят";
   "восемьдесят"; "девяносто"].

(** [kRuHundreds]: src/money/AmountInWords.hpp:58-59. *)
Definition kRuHundreds : list string :=
  [""; "сто"; "двести"; "триста"; "четыреста"; "пятьсот"; "шестьсот"; "семьсот";
   "восемьсот"; "девятьсот"].

(** [RuScale]: src/money/AmountInWords.hpp:62-65. *)
Record RuScale := mkRuScale { forms : list string; feminine : bool }.

(** [kRuScales]: src/money/AmountInWords.hpp:69-75. *)
Definition kRuScales : list RuScale :=
  [mkRuScale [""; ""; ""] false;
   mkRuScale ["тысяча"; "тысячи"; "тысяч"] true;
   mkRuScale ["миллион"; "миллиона"; "миллионов"] false;
   mkRuScale ["миллиард"; "миллиарда"; "миллиардов"] false;
   mkRuScale ["триллион"; "триллиона"; "триллионов"] false].

(** The loop of [split_triads]: [n] more triads of [rest]. *)
Fixpoint triads_loop (n : nat) (rest : Z) : list Z :=
  match n with
  | O => []
  | S n' => Z.rem rest 1000 :: triads_loop n' (Z.quot rest 1000)
  end.

(** [split_triads]: src/money/AmountInWords.hpp:79-87. *)
Definition split_triads (value : Z) : list Z := triads_loop kTriadCount value.

(** [plural_index]: src/money/AmountInWords.hpp:92-106. *)
Definition plural_index (n : Z) : Z :=
  let hundred_rest := Z.rem n 100 in
  if (11 <=? hundred_rest) && (hundred_rest <=? 14) then 2
  else
    let d := Z.rem n 10 in
    if d =? 1 then 0
    else if (d =? 2) || (d =? 3) || (d =? 4) then 1
    else 2.

(** The last digit (or 0..19 remainder) of a triad, with the feminine forms. *)
Definition unit_word_ru (feminine : bool) (u : Z) : outcome string :=
  if feminine && (u =? 1) then mret "одна"
  else if feminine && (u =? 2) then mret "две"
  else at_ kRuUnits u.

(** [append_triad_ru]: src/money/AmountInWords.hpp:112-141. *)
Definition append_triad_ru (out : list string) (triad : Z) (feminine : bool)
    : outcome (list string) :=
  if triad =? 0 then mret out
  else
    let h := Z.quot triad 100 in
    let t := Z.rem (Z.quot triad 10) 10 in
    let u := Z.rem triad 10 in
    hs ← (if 0 <? h then w ← at_ kRuHundreds h; mret [w] else mret []);
    us ← (if 2 <=? t then
            tw ← at_ kRuTens t;
            if 0 <? u then w ← unit_word_ru feminine u; mret [tw; w] else mret [tw]
          else
            let rest := t * 10 + u in
            if 0 <? rest then w ← unit_word_ru feminine rest; mret [w] else mret []);
    mret (out ++ hs ++ us)%list.

(** [CyrillicCasePair]: src/money/AmountInWords.hpp:145-148. *)
Record CyrillicCasePair := mkPair { lower : Z * Z; upper : Z * Z }.

(** [kExtraCyrillicCasePairs]: src/money/AmountInWords.hpp:158-168. *)
Definition kExtraCyrillicCasePairs : list CyrillicCasePair :=
  [mkPair (0xD3, 0x99) (0xD3, 0x98);
   mkPair (0xD2, 0x93) (0xD2, 0x92);
   mkPair (0xD2, 0x9B) (0xD2, 0x9A);
   mkPair (0xD2, 0xA3) (0xD2, 0xA2);
   mkPair (0xD3, 0xA9) (0xD3, 0xA8);
   mkPair (0xD2, 0xB1) (0xD2, 0xB0);
   mkPair (0xD2, 0xAF) (0xD2, 0xAE);
   mkPair (0xD2, 0xBB) (0xD2, 0xBA);
   mkPair (0xD1, 0x96) (0xD0, 0x86)].

Fixpoint find_pair (b0 b1 : Z) (ps : list CyrillicCasePair) : option (Z * Z) :=
  match ps with
  | [] => None
  | p :: ps' =>
      if (b0 =? (lower p).1) && (b1 =? (lower p).2) then Some (upper p) else find_pair b0 b1 ps'
  end.

(** [capitalize_cyrillic]: src/money/AmountInWords.hpp:176-197. *)
Definition capitalize_cyrillic (s : string) : string :=
  match s with
  | String c0 (String c1 rest) =>
      let b0 := code c0 in
      let b1 := code c1 in
      if (b0 =? 0xD0) && (0xB0 <=? b1) && (b1 <=? 0xBF) then
        String c0 (String (chr (b1 - 0x20)) rest)
      else if (b0 =? 0xD1) && (0x80 <=? b1) && (b1 <=? 0x8F) then
        String (chr 0xD0) (String (chr (b1 + 0x20)) rest)
      else match find_pair b0 b1 kExtraCyrillicCasePairs with
           | Some (u0, u1) => String (chr u0) (String (chr u1) rest)
           | None => s
           end
  | _ => s
  end.

(** [join_words]: src/money/AmountInWords.hpp:200-208. *)
Fixpoint join_words (words : list string) : string :=
  match words with
  | [] => ""
  | [w] => w
  | w :: ws => w +:+ String " " (join_words ws)
  end.

(** [tiyn_tail]: src/money/AmountInWords.hpp:213-217. *)
Definition tiyn_tail (tiyn_part : Z) (unit_word : string) : string :=
  (String " " (fmt0 2 tiyn_part) +:+ " ") +:+ unit_word.

(** [kKkUnits]: src/money/AmountInWords.hpp:221-221. *)
Definition kKkUnits : list string :=
  [""; "бір"; "екі"; "үш"; "төрт"; "бес"; "алты"; "жеті"; "сегіз"; "тоғыз"].

(** [kKkTens]: src/money/AmountInWords.hpp:226-227. *)
Definition kKkTens : list string :=
  [""; "он"; "жиырма"; "отыз"; "қырық"; "елу"; "алпыс"; "жетпіс"; "сексен"; "тоқсан"].

(** [KkScale]: src/money/AmountInWords.hpp:235-238. *)
Record KkScale := mkKkScale { word : string; drop_one : bool }.

(** [kKkScales]: src/money/AmountInWords.hpp:240-246. *)
Definition kKkScales : list KkScale :=
  [mkKkScale "" false; mkKkScale "мың" true; mkKkScale "миллион" false;
   mkKkScale "миллиард" false; mkKkScale "триллион" false].

(** [append_triad_kk]: src/money/AmountInWords.hpp:254-272. *)
Definition append_triad_kk (out : list string) (triad : Z) (drop_leading_one : bool)
    : outcome (list string) :=
  if triad =? 0 then mret out
  else
    let h := Z.quot triad 100 in
    let t := Z.rem (Z.quot triad 10) 10 in
    let u := Z.rem triad 10 in
    hs ← (if 0 <? h then
            ms ← (if 1 <? h then w ← at_ kKkUnits h; mret [w] else mret []);
            mret (ms ++ ["жүз"])%list
          else mret []);
    ts ← (if 0 <? t then w ← at_ kKkTens t; mret [w] else mret []);
    us ← (if 0 <? u then
            let alone := (h =? 0) && (t =? 0) in
            if negb (alone && (u =? 1) && drop_leading_one) then
              w ← at_ kKkUnits u; mret [w]
            else mret []
          else mret []);
    mret (out ++ hs ++ ts ++ us)%list.

(** One pass of the loop of [to_words_ru], for the triad of index [i]. *)
Definition step_ru (words : list string) (i : Z) (triad : Z) : outcome (list string) :=
  if triad =? 0 then mret words
  else
    scale ← at_ kRuScales i;
    ws ← append_triad_ru words triad (feminine scale);
    if 0 <? i then f ← at_ (forms scale) (plural_index triad); mret (ws ++ [f])%list
    else mret ws.

Definition step_kk (words : list string) (i : Z) (triad : Z) : outcome (list string) :=
  if triad =? 0 then mret words
  else
    scale ← at_ kKkScales i;
    ws ← append_triad_kk words triad (drop_one scale);
    if 0 <? i then mret (ws ++ [word scale])%list else mret ws.

(** The descending loop over the triads; [i] counts the triads left. *)
Fixpoint words_loop (step : list string -> Z -> Z -> outcome (list string))
    (triads : list Z) (i : nat) (words : list string) : outcome (list string) :=
  match i with
  | O => mret words
  | S i' =>
      triad ← at_ triads (Z.of_nat i');
      ws ← step words (Z.of_nat i') triad;
      words_loop step triads i' ws
  end.

Definition words_range_error (fn : string) (tiyn : Z) : exn :=
  if tiyn <? 0 then
    Exn std_invalid_argument (fn +:+ ": amount must be non-negative, got " +:+ to_string tiyn)
  else
    Exn std_out_of_range
      (fn +:+ ": amount " +:+ to_string tiyn +:+ " tiyn exceeds the supported maximum " +:+
       to_string kMaxTiyn).

(** [to_words_ru]: src/money/AmountInWords.hpp:285-314. *)
Definition to_words_ru (tiyn : Z) : outcome string :=
  if tiyn <? 0 then Throw (words_range_error "to_words_ru" tiyn)
  else if kMaxTiyn <? tiyn then Throw (words_range_error "to_words_ru" tiyn)
  else
    let tenge := Z.quot tiyn 100 in
    let tiyn_part := Z.rem tiyn 100 in
    let triads := split_triads tenge in
    words ← words_loop step_ru triads kTriadCount [];
    let words := (match words with [] => ["ноль"] | _ => words end ++ ["тенге"])%list in
    let out := capitalize_cyrillic (join_words words) in
    mret (out +:+ tiyn_tail tiyn_part "тиын").

(** [to_words_kk]: src/money/AmountInWords.hpp:330-359. *)
Definition to_words_kk (tiyn : Z) : outcome string :=
  if tiyn <? 0 then Throw (words_range_error "to_words_kk" tiyn)
  else if kMaxTiyn <? tiyn then Throw (words_range_error "to_words_kk" tiyn)
  else
    let tenge := Z.quot tiyn 100 in
    let tiyn_part := Z.rem tiyn 100 in
    let triads := split_triads tenge in
    words ← words_loop step_kk triads kTriadCount [];
    let words := (match words with [] => ["нөл"] | _ => words end ++ ["теңге"])%list in
    let out := capitalize_cyrillic (join_words words) in
    mret (out +:+ tiyn_tail tiyn_part "тиын").

Example words_250575 :
  to_words_ru 25057500 = Ok "Двести пятьдесят тысяч пятьсот семьдесят пять тенге 00 тиын".
Proof. vm_compute. reflexivity. Qed.
Example words_kk_250575 :
  to_words_kk 25057500 = Ok "Екі жүз елу мың бес жүз жетпіс бес теңге 00 тиын".
Proof. vm_compute. reflexivity. Qed.
Example words_kk_1965 : to_words_kk 196500 = Ok "Мың тоғыз жүз алпыс бес теңге 00 тиын".
Proof. vm_compute. reflexivity. Qed.

(** ** Reading a rendered amount back *)

(** What one numeral word stands for. *)
Inductive token := Num (v : Z) | Hundred | Scale (m : Z).

Definition lexicon := list (string * token).

(** The state of the reader: thousands already closed, and the open triad. *)
Definition read_token (st : Z * Z) (t : token) : Z * Z :=
  let '(total, cur) := st in
  match t with
  | Num v => (total, cur + v)
  | Hundred => (total, (if cur =? 0 then 1 else cur) * 100)
  | Scale m => (total + (if cur =? 0 then 1 else cur) * m, 0)
  end.

Fixpoint lookup_word (lex : lexicon) (w : string) : option token :=
  match lex with
  | [] => None
  | (k, t) :: lex' => if String.eqb w k then Some t else lookup_word lex' w
  end.

(** Every word of the tables also in its sentence-initial form. *)
Definition with_capitals (lex : lexicon) : lexicon :=
  (lex ++ map (fun kt => (capitalize_cyrillic kt.1, kt.2)) lex)%list.

Fixpoint read_words (lex : lexicon) (st : Z * Z) (ws : list string) : option (Z * Z) :=
  match ws with
  | [] => Some st
  | w :: ws' => t ← lookup_word lex w; read_words lex (read_token st t) ws'
  end.

(** Read "<words> <unit> NN тиын" as a number of tiyn. *)
Definition read_amount (lex : lexicon) (unit : string) (s : string) : option Z :=
  match rev (pieces " " s) with
  | tiyn :: nn :: u :: rws =>
      if String.eqb tiyn "тиын" && String.eqb u unit then
        '(total, cur) ← read_words lex (0, 0) (rev rws);
        Some ((total + cur) * 100 + parse_digits 0 nn)
      else None
  | _ => None
  end.

Definition nums (from : Z) (ws : list string) : lexicon :=
  zip ws (map (fun k => Num (from + Z.of_nat k)) (seq 0 (length ws))).

Definition nums_by (m : Z) (ws : list string) : lexicon :=
  zip ws (map (fun k => Num (m * Z.of_nat k)) (seq 0 (length ws))).

Definition lex_ru : lexicon := Eval vm_compute in with_capitals
  (nums 0 kRuUnits ++ drop 2 (nums_by 10 kRuTens) ++ drop 1 (nums_by 100 kRuHundreds) ++
   [("одна", Num 1); ("две", Num 2)] ++
   zip (concat (map forms (drop 1 kRuScales)))
       (map Scale [1000; 1000; 1000; 1000000; 1000000; 1000000; 1000000000; 1000000000;
                   1000000000; 1000000000000; 1000000000000; 1000000000000]))%list.

Definition lex_kk : lexicon := Eval vm_compute in with_capitals
  (drop 1 (nums 0 kKkUnits) ++ drop 1 (nums_by 10 kKkTens) ++ [("жүз", Hundred); ("нөл", Num 0)] ++
   zip (map word (drop 1 kKkScales)) (map Scale [1000; 1000000; 1000000000; 1000000000000]))%list.

Definition read_ru := read_amount lex_ru "тенге".
Definition read_kk := read_amount lex_kk "теңге".

Example read_ru_ex :
  read_ru "Двести пятьдесят тысяч пятьсот семьдесят пять тенге 00 тиын" = Some 25057500.
Proof. vm_compute. reflexivity. Qed.

(** *** Words, capitals and blanks *)

(** A word of a lexicon: at least two bytes, no blank, also when capitalised. *)
Definition plain_word (w : string) : bool :=
  (2 <=? size w)%nat && nospace w && nospace (capitalize_cyrillic w).

#[export] Instance token_eq_dec : EqDecision token.
Proof. solve_decision. Defined.

Definition good_lexicon (lex : lexicon) : bool :=
  forallb (fun kt => plain_word kt.1 &&
    bool_decide (lookup_word lex (capitalize_cyrillic kt.1) = lookup_word lex kt.1)) lex.

Definition known (lex : lexicon) (w : string) : Prop := is_Some (lookup_word lex w).

Lemma lookup_word_in lex w t : lookup_word lex w = Some t -> In (w, t) lex.
Proof.
  induction lex as [|[k u] lex IH]; simpl; [done|].
  destruct (String.eqb_spec w k) as [->|]; [intros [= ->]; by left | intros H; right; auto].
Qed.

Lemma known_good lex w :
  good_lexicon lex = true -> known lex w ->
  plain_word w = true /\ lookup_word lex (capitalize_cyrillic w) = lookup_word lex w.
Proof.
  unfold good_lexicon. rewrite forallb_forall. intros H [t Ht].
  specialize (H _ (lookup_word_in _ _ _ Ht)). simpl in H.
  apply andb_true_iff in H as [H1 H2]. by apply bool_decide_eq_true_1 in H2.
Qed.

Lemma read_words_known lex ws : forall st st',
  read_words lex st ws = Some st' -> Forall (known lex) ws.
Proof.
  induction ws as [|w ws IH]; intros st st' H; simpl in H; [done|].
  destruct (lookup_word lex w) as [t|] eqn:E; [|done]. simpl in H.
  constructor; [by exists t | by eapply IH].
Qed.

Lemma capitalize_app w s :
  (2 <= size w)%nat -> capitalize_cyrillic (w +:+ s) = capitalize_cyrillic w +:+ s.
Proof.
  destruct w as [|c0 [|c1 w]]; unfold size; simpl; try lia. intros _.
  repeat case_match; reflexivity.
Qed.

Lemma join_words_cons w ws :
  join_words (w :: ws) = w +:+ (match ws with [] => "" | _ => String " " (join_words ws) end).
Proof. destruct ws; simpl; [by rewrite app_empty_r | done]. Qed.

Lemma capitalize_join w ws :
  (2 <= size w)%nat ->
  capitalize_cyrillic (join_words (w :: ws)) = join_words (capitalize_cyrillic w :: ws).
Proof. intros H. by rewrite !join_words_cons, capitalize_app. Qed.

Lemma pieces_join ws s :
  ws <> [] -> Forall (fun w => nospace w = true) ws ->
  pieces " " (join_words ws +:+ String " " s) = (ws ++ pieces " " s)%list.
Proof.
  intros Hne H. induction H as [|w ws Hw Hws IH]; [done|].
  destruct ws as [|v ws].
  - simpl. by apply pieces_cons.
  - change (join_words (w :: v :: ws)) with (w +:+ String " " (join_words (v :: ws))).
    rewrite str_app_assoc. cbn [String.append]. rewrite pieces_cons by done.
    by rewrite IH.
Qed.

Lemma nospace_digits s : str_all is_digit s = true -> nospace s = true.
Proof.
  apply str_all_impl. intros c Hc. destruct (Ascii.eqb_spec c " ") as [->|]; [|done]. by vm_compute in Hc.
Qed.

Lemma fmt02_digits z : 0 <= z < 100 -> str_all is_digit (fmt0 2 z) = true.
Proof.
  intros H. rewrite fmt02_range by done. simpl.
  rewrite !is_digit_digit; [done | apply Z.mod_pos_bound; lia | dlia].
Qed.

Lemma fmt02_value z : 0 <= z < 100 -> parse_digits 0 (fmt0 2 z) = z.
Proof.
  intros H. rewrite fmt02_range by done. simpl.
  rewrite !code_digit; [dlia | apply Z.mod_pos_bound; lia | dlia].
Qed.

(** Reading adds to the thousands already closed. *)
Lemma read_words_shift lex T ws : forall a c,
  read_words lex (T + a, c) ws = (fun p => (T + p.1, p.2)) <$> read_words lex (a, c) ws.
Proof.
  induction ws as [|w ws IH]; intros a c; [done|]. simpl.
  destruct (lookup_word lex w) as [[v| |m]|]; simpl; [apply IH | apply IH | | done].
  rewrite <- IH. by rewrite Z.add_assoc.
Qed.

Lemma read_words_app lex ws vs : forall st,
  read_words lex st (ws ++ vs) = read_words lex st ws ≫= fun st' => read_words lex st' vs.
Proof.
  induction ws as [|w ws IH]; intros st; [done|]. simpl.
  destruct (lookup_word lex w); simpl; [apply IH | done].
Qed.

(** ** The loop, for any language *)

Section Language.
Context (lex : lexicon) (unit zero : string) (step : list string -> Z -> Z -> outcome (list string)).

(** The words of one triad read back as its value times the scale. *)
Definition triad_value (i triad : Z) : Z * Z :=
  if i =? 0 then (0, triad) else (triad * 1000 ^ i, 0).

Definition step_reads (i triad : Z) : Prop :=
  exists ws, step [] i triad = Ok ws /\
    read_words lex (0, 0) ws = Some (triad_value i triad) /\ (ws = [] -> triad = 0).

Hypothesis step_append : forall out i triad,
  step out i triad = (ws ← step [] i triad; mret (out ++ ws)%list).
Hypothesis step_spec : forall i triad, 0 <= i < 5 -> 0 <= triad < 1000 -> step_reads i triad.
Hypothesis lex_ok : good_lexicon lex = true.
Hypothesis zero_ok : lookup_word lex zero = Some (Num 0).
Hypothesis unit_ok : nospace unit = true.

(** The value of triads [i-1 .. 0]. *)
Fixpoint triads_sum (triads : list Z) (i : nat) : Z :=
  match i with
  | O => 0
  | S i' => nth i' triads 0 * 1000 ^ Z.of_nat i' + triads_sum triads i'
  end.

Lemma words_loop_spec triads : forall i out T,
  (i <= 5)%nat -> (i <= length triads)%nat -> Forall (fun t => 0 <= t < 1000) triads ->
  read_words lex (0, 0) out = Some (T, 0) ->
  exists ws total cur, words_loop step triads i out = Ok ws /\
    read_words lex (0, 0) ws = Some (total, cur) /\ total + cur = T + triads_sum triads i /\
    (ws = [] -> T + triads_sum triads i = 0).
Proof.
  induction i as [|i IH]; intros out T Hi Hl Htr Hr.
  - exists out, T, 0. simpl. repeat split; auto; try lia. intros ->. simpl in Hr. injection Hr. lia.
  - simpl words_loop. unfold at_.
    destruct (Z.ltb_spec (Z.of_nat i) 0); [lia|]. rewrite Nat2Z.id.
    destruct (lookup_lt_is_Some_2 triads i ltac:(lia)) as [t Ht]. rewrite Ht.
    assert (Ht' : 0 <= t < 1000) by (rewrite Forall_forall in Htr; by eapply Htr, list_elem_of_lookup_2).
    destruct (step_spec (Z.of_nat i) t ltac:(lia) Ht') as (ws & Hs & Hrw & Hz).
    rewrite !bind_ok, step_append, Hs, bind_ok. simpl.
    assert (Hn : nth i triads 0 = t).
    { rewrite nth_lookup, Ht. done. }
    pose proof (read_words_shift lex T ws 0 0) as Hsh. rewrite Z.add_0_r, Hrw in Hsh. simpl in Hsh.
    assert (Hro : read_words lex (0, 0) (out ++ ws)
      = Some (T + (triad_value (Z.of_nat i) t).1, (triad_value (Z.of_nat i) t).2)).
    { rewrite read_words_app, Hr. simpl. exact Hsh. }
    unfold triad_value in *. destruct (Z.eqb_spec (Z.of_nat i) 0) as [Hi0|Hi0]; simpl in *.
    + assert (i = 0%nat) as -> by lia. simpl. eexists (out ++ ws)%list, _, _.
      split; [done|]. split; [exact Hro|]. rewrite Hn. split; [lia|].
      intros [-> ->]%app_eq_nil. simpl in Hr. injection Hr. specialize (Hz eq_refl). lia.
    + destruct (IH (out ++ ws)%list (T + t * 1000 ^ Z.of_nat i)) as (ws' & tot & cur & H1 & H3 & H4 & H5);
        [lia | lia | done | done |].
      exists ws', tot, cur. rewrite Hn. repeat split; auto; try lia. intros E. specialize (H5 E). lia.
Qed.

(** The text assembled from the words reads back as the amount. *)
Lemma text_reads_back words total cur part :
  words <> [] ->
  read_words lex (0, 0) words = Some (total, cur) -> 0 <= part < 100 ->
  read_amount lex unit
    (capitalize_cyrillic (join_words (words ++ [unit])) +:+ tiyn_tail part "тиын")
  = Some ((total + cur) * 100 + part).
Proof.
  intros Hne Hr Hp. pose proof (read_words_known _ _ _ _ Hr) as Hk. destruct words as [|w ws]; [done|].
  apply Forall_cons in Hk as [Hw Hws]. destruct (known_good _ _ lex_ok Hw) as [Hpl Hcap].
  unfold plain_word in Hpl. apply andb_true_iff in Hpl as [[H2 Hn]%andb_true_iff Hnc].
  rewrite Nat.leb_le in H2. simpl app. rewrite capitalize_join by done.
  unfold tiyn_tail. cbn [String.append].
  unfold read_amount. rewrite pieces_join; [ | done | ].
  2:{ constructor; [done|]. apply Forall_app. split; [|by constructor].
      eapply Forall_impl; [exact Hws|]. intros v Hv. destruct (known_good _ _ lex_ok Hv) as [Hpv _].
      unfold plain_word in Hpv. by apply andb_true_iff in Hpv as [[_ ?]%andb_true_iff _]. }
  rewrite str_app_assoc. cbn [String.append].
  rewrite pieces_cons by (by apply nospace_digits, fmt02_digits).
  rewrite pieces_one by (vm_compute; reflexivity).
  change ((capitalize_cyrillic w :: ws ++ [unit]) ++ [fmt0 2 part; "тиын"])%list
    with (capitalize_cyrillic w :: ((ws ++ [unit]) ++ [fmt0 2 part; "тиын"]))%list.
  simpl rev. rewrite !rev_app_distr. simpl. rewrite !String.eqb_refl. simpl.
  rewrite rev_app_distr, rev_involutive. simpl. rewrite Hcap.
  simpl in Hr. rewrite Hr. simpl. by rewrite fmt02_value.
Qed.
End Language.

(** ** The two languages *)

Lemma split_triads_spec v :
  0 <= v <= 1000000000000 ->
  length (split_triads v) = 5%nat /\ Forall (fun t => 0 <= t < 1000) (split_triads v) /\
  triads_sum (split_triads v) 5 = v.
Proof.
  intros Hv. unfold split_triads, kTriadCount. cbn [triads_loop].
  rewrite !quot_div, !rem_mod by dlia.
  split; [done|]. split; [repeat constructor; apply Z.mod_pos_bound; lia|].
  cbn [triads_sum nth Z.of_nat Pos.of_succ_nat Pos.succ]. rewrite !Z.pow_1_r.
  change (1000 ^ 0) with 1. change (1000 ^ 2) with 1000000. change (1000 ^ 3) with 1000000000.
  change (1000 ^ 4) with 1000000000000. dlia.
Qed.

Lemma append_triad_ru_app out triad f :
  append_triad_ru out triad f = (ws ← append_triad_ru [] triad f; mret (out ++ ws)%list).
Proof.
  unfold append_triad_ru. case_match; [by rewrite bind_ret_l, app_nil_r|].
  split_binds. reflexivity.
Qed.

Lemma append_triad_kk_app out triad f :
  append_triad_kk out triad f = (ws ← append_triad_kk [] triad f; mret (out ++ ws)%list).
Proof.
  unfold append_triad_kk. case_match; [by rewrite bind_ret_l, app_nil_r|].
  split_binds. reflexivity.
Qed.

Lemma step_ru_append out i triad :
  step_ru out i triad = (ws ← step_ru [] i triad; mret (out ++ ws)%list).
Proof.
  unfold step_ru. case_match; [by rewrite bind_ret_l, app_nil_r|].
  destruct (at_ kRuScales i); [|done|done]. rewrite !bind_ok, append_triad_ru_app.
  split_binds. case_match; [|done]. split_binds. by rewrite app_assoc.
Qed.

Lemma step_kk_append out i triad :
  step_kk out i triad = (ws ← step_kk [] i triad; mret (out ++ ws)%list).
Proof.
  unfold step_kk. case_match; [by rewrite bind_ret_l, app_nil_r|].
  destruct (at_ kKkScales i); [|done|done]. rewrite !bind_ok, append_triad_kk_app.
  split_binds. case_match; [|done]. split_binds. by rewrite app_assoc.
Qed.

(** The words of every triad below 1000, by computation; [one] says that a
    lone one may be left to the scale word. *)
Definition triad_ok (lex : lexicon) (app : Z -> outcome (list string)) (one : bool) (t : Z) : bool :=
  match app t with
  | Ok ws =>
      match read_words lex (0, 0) ws with
      | Some (0, c) => (c =? t) && match ws with [] => t =? 0 | _ => true end
                       || one && (t =? 1) && (c =? 0)
      | _ => false
      end
  | _ => false
  end.

Definition triads := map Z.of_nat (seq 0 1000).

Lemma triads_ru : forallb (fun f => forallb (triad_ok lex_ru (fun t => append_triad_ru [] t f) false) triads)
  [false; true] = true.
Proof. vm_compute. reflexivity. Qed.

Lemma triads_kk : forallb (fun f => forallb (triad_ok lex_kk (fun t => append_triad_kk [] t f) f) triads)
  [false; true] = true.
Proof. vm_compute. reflexivity. Qed.

Lemma triad_ok_spec lex app one t :
  (forallb (fun f => forallb (triad_ok lex (app f) (one f)) triads) [false; true]) = true ->
  0 <= t < 1000 -> forall f, exists ws c, app f t = Ok ws /\ read_words lex (0, 0) ws = Some (0, c) /\
    (c = t /\ (ws = [] -> t = 0) \/ one f = true /\ t = 1 /\ c = 0).
Proof.
  intros H Ht f.
  assert (Hf : triad_ok lex (app f) (one f) t = true).
  { apply (range_check (triad_ok lex (app f) (one f)) 1000); [|lia].
    rewrite forallb_forall in H. apply H. destruct f; simpl; auto. }
  unfold triad_ok in Hf. destruct (app f t) as [ws| |]; try discriminate.
  destruct (read_words lex (0, 0) ws) as [[[] c]|] eqn:Hrd; try discriminate.
  exists ws, c. split; [done|]. split; [done|].
  apply orb_true_iff in Hf as [[Hc Hn]%andb_true_iff | [[Ho H1]%andb_true_iff H0]%andb_true_iff].
  - left. split; [lia|]. intros ->. lia.
  - right. split; [done | lia].
Qed.

Lemma plural_index_cases n : plural_index n = 0 \/ plural_index n = 1 \/ plural_index n = 2.
Proof. unfold plural_index. repeat case_match; auto. Qed.

(** The scale word after a triad that reads as [c] closes it. *)
Lemma read_scale lex ws c t m w :
  read_words lex (0, 0) ws = Some (0, c) -> lookup_word lex w = Some (Scale m) ->
  (c = t /\ t <> 0 \/ t = 1 /\ c = 0) -> read_words lex (0, 0) (ws ++ [w]) = Some (t * m, 0).
Proof.
  intros Hr Hw Hc. rewrite read_words_app, Hr. simpl. rewrite Hw. simpl.
  destruct (Z.eqb_spec c 0); repeat f_equal; lia.
Qed.

Lemma step_ru_spec i triad : 0 <= i < 5 -> 0 <= triad < 1000 -> step_reads lex_ru step_ru i triad.
Proof.
  intros Hi Ht. unfold step_reads, step_ru, triad_value.
  destruct (Z.eqb_spec triad 0) as [->|Hnz].
  { exists []. split; [done|]. simpl. destruct (i =? 0); by rewrite ?Z.mul_0_l. }
  destruct (triad_ok_spec lex_ru (fun f t => append_triad_ru [] t f) (fun _ => false)
    triad triads_ru Ht) with (f := bool_decide (i = 1)) as (ws & c & Ha & Hr & [[-> Hn]|[[=] _]]).
  assert (i = 0 \/ i = 1 \/ i = 2 \/ i = 3 \/ i = 4) as Hc by lia.
  destruct Hc as [-> | Hc]; [exists ws; simpl in *; by rewrite Ha|].
  destruct (plural_index_cases triad) as [Hp|[Hp|Hp]];
    destruct Hc as [-> | [-> | [-> | ->]]]; simpl in Ha |- *; rewrite Ha, bind_ok, Hp; simpl;
    eexists; (split; [reflexivity|]; split;
      [ etransitivity; [eapply (read_scale _ _ _ triad); [exact Hr | reflexivity | tauto] | reflexivity]
      | by destruct ws ]).
Qed.

Lemma step_kk_spec i triad : 0 <= i < 5 -> 0 <= triad < 1000 -> step_reads lex_kk step_kk i triad.
Proof.
  intros Hi Ht. unfold step_reads, step_kk, triad_value.
  destruct (Z.eqb_spec triad 0) as [->|Hnz].
  { exists []. split; [done|]. simpl. destruct (i =? 0); by rewrite ?Z.mul_0_l. }
  destruct (triad_ok_spec lex_kk (fun f t => append_triad_kk [] t f) (fun f => f)
    triad triads_kk Ht) with (f := bool_decide (i = 1)) as (ws & c & Ha & Hr & Hcase).
  assert (i = 0 \/ i = 1 \/ i = 2 \/ i = 3 \/ i = 4) as Hc by lia.
  destruct Hc as [-> | Hc].
  { exists ws. simpl in *. rewrite Ha. destruct Hcase as [[-> Hn]|[[=] _]]. auto. }
  destruct Hc as [-> | [-> | [-> | ->]]]; simpl in Ha |- *; rewrite Ha; simpl;
    eexists; (split; [reflexivity|]; split;
      [ etransitivity; [eapply (read_scale _ _ _ triad); [exact Hr | reflexivity | tauto] | reflexivity]
      | by destruct ws ]).
Qed.

(** What [to_words_*] does on an amount of its range. *)
Lemma words_total lex unit zero step :
  (forall out i triad, step out i triad = (ws ← step [] i triad; mret (out ++ ws)%list)) ->
  (forall i triad, 0 <= i < 5 -> 0 <= triad < 1000 -> step_reads lex step i triad) ->
  good_lexicon lex = true -> lookup_word lex zero = Some (Num 0) -> nospace unit = true ->
  forall tiyn, 0 <= tiyn <= kMaxTiyn ->
  exists words, words_loop step (split_triads (Z.quot tiyn 100)) kTriadCount [] = Ok words /\
    read_amount lex unit
      (capitalize_cyrillic
         (join_words (match words with [] => [zero] | _ => words end ++ [unit])%list) +:+
       tiyn_tail (Z.rem tiyn 100) "тиын") = Some tiyn.
Proof.
  intros Happ Hok Hlex Hz0 Hu tiyn Ht. unfold kMaxTiyn in Ht.
  rewrite quot_div, rem_mod by lia.
  destruct (split_triads_spec (tiyn / 100)) as (Hl & Htr & Hs); [dlia|].
  destruct (words_loop_spec lex step Happ Hok (split_triads (tiyn / 100)) 5 [] 0)
    as (ws & tot & cur & Hw & Hr & Hsum & Hnil); [lia | lia | done | done |].
  exists ws. split; [exact Hw|].
  assert (Hp : 0 <= tiyn mod 100 < 100) by (apply Z.mod_pos_bound; lia).
  rewrite Hs in Hsum, Hnil. destruct ws as [|w ws].
  - rewrite (text_reads_back lex unit Hlex Hu [zero] 0 0);
      [f_equal; specialize (Hnil eq_refl); dlia | done | | done].
    simpl. by rewrite Hz0.
  - rewrite (text_reads_back lex unit Hlex Hu (w :: ws) tot cur); [f_equal; dlia | done..].
Qed.

Lemma to_words_ru_in_range tiyn :
  0 <= tiyn <= kMaxTiyn -> exists s, to_words_ru tiyn = Ok s /\ read_ru s = Some tiyn.
Proof.
  intros Ht. unfold to_words_ru.
  destruct (Z.ltb_spec tiyn 0); [lia|]. destruct (Z.ltb_spec kMaxTiyn tiyn); [lia|].
  destruct (words_total lex_ru "тенге" "ноль" step_ru step_ru_append step_ru_spec
    eq_refl eq_refl eq_refl tiyn Ht) as (ws & -> & Hr).
  eexists. split; [reflexivity | exact Hr].
Qed.

Lemma to_words_kk_in_range tiyn :
  0 <= tiyn <= kMaxTiyn -> exists s, to_words_kk tiyn = Ok s /\ read_kk s = Some tiyn.
Proof.
  intros Ht. unfold to_words_kk.
  destruct (Z.ltb_spec tiyn 0); [lia|]. destruct (Z.ltb_spec kMaxTiyn tiyn); [lia|].
  destruct (words_total lex_kk "теңге" "нөл" step_kk step_kk_append step_kk_spec
    eq_refl eq_refl eq_refl tiyn Ht) as (ws & -> & Hr).
  eexists. split; [reflexivity | exact Hr].
Qed.

(** ** Properties of the spelled-out amounts *)

(** C29: The Russian spelling is complete and unambiguous: every amount from 0
    to kMaxTiyn is rendered (no exception, no out-of-range table access), and
    the text, gender and plural forms included, reads back as that amount; so no two amounts share
    a text. *)
Theorem to_words_ru_roundtrip tiyn :
  0 <= tiyn <= kMaxTiyn ->
  (exists s, to_words_ru tiyn = Ok s /\ read_ru s = Some tiyn) /\
  (forall other, 0 <= other <= kMaxTiyn -> to_words_ru other = to_words_ru tiyn -> other = tiyn).
Proof.
  intros Ht. destruct (to_words_ru_in_range tiyn Ht) as (s & Hs & Hr).
  split; [by exists s|]. intros other Ho Heq.
  destruct (to_words_ru_in_range other Ho) as (s' & Hs' & Hr'). congruence.
Qed.

(** The same for the Kazakh spelling, where "бір" is dropped before "мың"
    and "жүз" and kept before "миллион" and above. *)
Theorem to_words_kk_roundtrip tiyn :
  0 <= tiyn <= kMaxTiyn ->
  (exists s, to_words_kk tiyn = Ok s /\ read_kk s = Some tiyn) /\
  (forall other, 0 <= other <= kMaxTiyn -> to_words_kk other = to_words_kk tiyn -> other = tiyn).
Proof.
  intros Ht. destruct (to_words_kk_in_range tiyn Ht) as (s & Hs & Hr).
  split; [by exists s|]. intros other Ho Heq.
  destruct (to_words_kk_in_range other Ho) as (s' & Hs' & Hr'). congruence.
Qed.

(** Both spellings reject exactly the amounts outside [0, kMaxTiyn]:
    [std::invalid_argument] below zero, [std::out_of_range] above the maximum. *)
Theorem to_words_errors tiyn :
  (throws std_invalid_argument (to_words_ru tiyn) <-> tiyn < 0) /\
  (throws std_out_of_range (to_words_ru tiyn) <-> kMaxTiyn < tiyn) /\
  (throws std_invalid_argument (to_words_kk tiyn) <-> tiyn < 0) /\
  (throws std_out_of_range (to_words_kk tiyn) <-> kMaxTiyn < tiyn) /\
  defined (to_words_ru tiyn) /\ defined (to_words_kk tiyn).
Proof.
  assert (kMaxTiyn = 100000000000000) by done.
  destruct (Z.ltb_spec tiyn 0) as [Hn|Hn]; [|destruct (Z.ltb_spec kMaxTiyn tiyn) as [Hm|Hm]].
  - unfold to_words_ru, to_words_kk, words_range_error, throws, defined.
    destruct (Z.ltb_spec tiyn 0); [|lia].
    repeat split; try done; try lia; intros; try (eexists; reflexivity); destruct_and?;
      destruct H1 as [? [=]].
  - unfold to_words_ru, to_words_kk, words_range_error, throws, defined.
    destruct (Z.ltb_spec tiyn 0); [lia|]. destruct (Z.ltb_spec kMaxTiyn tiyn); [|lia].
    repeat split; try done; try lia; intros; try (eexists; reflexivity);
      destruct H2 as [? [=]].
  - destruct (to_words_ru_in_range tiyn) as (s & -> & _); [lia|].
    destruct (to_words_kk_in_range tiyn) as (s' & -> & _); [lia|]. unfold throws, defined.
    repeat split; try done; try lia; intros [? [=]].
Qed.

Lemma to_words_ru_roundtrip_witness : exists s, to_words_ru 12100000 = Ok s /\ read_ru s = Some 12100000.
Proof. apply (to_words_ru_roundtrip 12100000). unfold kMaxTiyn. lia. Defined.

Lemma to_words_kk_roundtrip_witness : exists s, to_words_kk 115000 = Ok s /\ read_kk s = Some 115000.
Proof. apply (to_words_kk_roundtrip 115000). unfold kMaxTiyn. lia. Defined.

End Words.

Module Format.

(** The grouping loop: [taken] digits already pushed, a blank before every
    third one; reads the digits from the right and pushes from the left. *)
Fixpoint group_digits (taken : nat) (reversed : string) : string :=
  match reversed with
  | EmptyString => EmptyString
  | String c rest =>
      if (0 <? taken)%nat && (taken mod 3 =? 0)%nat
      then String " " (String c (group_digits (S taken) rest))
      else String c (group_digits (S taken) rest)
  end.

(** [format_tiyn_ru]: src/money/MoneyFormat.hpp:31-56. *)
Definition format_tiyn_ru (tiyn : Z) : outcome string :=
  if tiyn <? 0 then
    Throw (Exn std_invalid_argument
      ("format_tiyn_ru: amount must be non-negative, got " +:+ to_string tiyn))
  else
    let whole := Z.quot tiyn 100 in
    let frac := Z.rem tiyn 100 in
    let digits := to_string whole in
    let grouped := str_rev (group_digits 0 (str_rev digits)) in
    mret (grouped +:+ String "," (fmt0 2 frac)).

Example format_ex : format_tiyn_ru 123456789 = Ok "1 234 567,89".
Proof. vm_compute. reflexivity. Qed.

(** *** Grouping keeps the digits *)

Lemma group_digits_filter taken s :
  str_all is_digit s = true -> str_filter is_digit (group_digits taken s) = s.
Proof.
  revert taken. induction s as [|c s IH]; intros taken H; [done|].
  apply andb_true_iff in H as [Hc Hs]. simpl.
  case_match; simpl; rewrite Hc, IH by done; reflexivity.
Qed.

Lemma str_all_rev p s : str_all p (str_rev s) = str_all p s.
Proof.
  induction s as [|c s IH]; [done|]. rewrite str_rev_cons, str_all_app, IH. simpl.
  rewrite andb_true_r. apply andb_comm.
Qed.

(** *** Shape of the groups *)

Lemma group_digits_period t s :
  (0 < t)%nat -> group_digits (3 + t) s = group_digits t s.
Proof.
  revert t. induction s as [|c s IH]; intros t Ht; [done|]. cbn [group_digits].
  change (S (3 + t)) with (3 + S t)%nat. rewrite IH by lia.
  replace (0 <? 3 + t)%nat with (0 <? t)%nat
    by (rewrite (proj2 (Nat.ltb_lt 0 t) Ht); symmetry; apply Nat.ltb_lt; lia).
  replace ((3 + t) mod 3)%nat with (t mod 3)%nat; [done|].
  replace (3 + t)%nat with (t + 1 * 3)%nat by lia. by rewrite Nat.Div0.mod_add.
Qed.

(** After three digits the rest is grouped afresh behind a blank. *)
Lemma group_digits_three c1 c2 c3 c s :
  group_digits 0 (String c1 (String c2 (String c3 (String c s))))
  = String c1 (String c2 (String c3 (String " " (group_digits 0 (String c s))))).
Proof. cbn. by rewrite (group_digits_period 1) by lia. Qed.

(** The groups of the reversed number: full ones, then a leading one. *)
Lemma group_digits_join n : forall s, (1 <= size s <= n)%nat ->
  exists gs g, group_digits 0 s = Words.join_words (gs ++ [g]) /\
    Forall (fun h => size h = 3%nat) gs /\ (1 <= size g <= 3)%nat.
Proof.
  unfold size. induction n as [|n IH]; intros s Hs; [lia|].
  destruct s as [|c1 [|c2 [|c3 [|c s]]]]; simpl in Hs; try lia.
  - exists [], (String c1 ""). simpl. repeat split; auto; lia.
  - exists [], (String c1 (String c2 "")). simpl. repeat split; auto; lia.
  - exists [], (String c1 (String c2 (String c3 ""))). simpl. repeat split; auto; lia.
  - destruct (IH (String c s)) as (gs & g & Hg & Hgs & Hlast); [simpl; lia|].
    exists (String c1 (String c2 (String c3 "")) :: gs), g.
    split; [|split; [by constructor | done]].
    rewrite group_digits_three, Hg. simpl app. rewrite Words.join_words_cons.
    by destruct (gs ++ [g])%list eqn:E; [apply app_eq_nil in E as [_ ?] | ].
Qed.

Lemma join_words_snoc ws w :
  ws <> [] -> Words.join_words (ws ++ [w]) = Words.join_words ws +:+ String " " w.
Proof.
  intros Hne. induction ws as [|v ws IH]; [done|]. simpl app.
  rewrite !Words.join_words_cons. destruct ws as [|u ws]; [by rewrite app_empty_r|].
  change ((u :: ws) ++ [w])%list with (u :: (ws ++ [w]))%list in *. rewrite IH by done.
  by rewrite str_app_assoc.
Qed.

Lemma str_rev_join ws :
  ws <> [] -> str_rev (Words.join_words ws) = Words.join_words (rev (map str_rev ws)).
Proof.
  induction ws as [|w ws IH]; intros Hne; [done|]. simpl rev.
  rewrite Words.join_words_cons. destruct ws as [|v ws]; [simpl; by rewrite app_empty_r|].
  rewrite str_rev_app, str_rev_cons, IH by done.
  rewrite join_words_snoc by (simpl; intros E; by apply app_eq_nil in E as [_ ?]).
  by rewrite str_app_assoc.
Qed.

Lemma whole_text w :
  0 <= w -> to_string w = dec w /\ str_all is_digit (dec w) = true.
Proof. intros. split; [by apply to_string_nonneg | apply dec_all]. Qed.

Lemma format_in_range tiyn :
  0 <= tiyn ->
  format_tiyn_ru tiyn = Ok (str_rev (group_digits 0 (str_rev (dec (tiyn / 100)))) +:+
                            String "," (fmt0 2 (tiyn mod 100))).
Proof.
  intros H. unfold format_tiyn_ru. destruct (Z.ltb_spec tiyn 0); [lia|].
  rewrite quot_div, rem_mod by lia. by rewrite to_string_nonneg by dlia.
Qed.

(** ** Properties of the printed amount *)

(** The printed amount loses nothing: for every non-negative [long long]
    the digits of "12 345,67", read without the separators, are the amount. *)
Theorem format_tiyn_ru_roundtrip tiyn :
  0 <= tiyn <= I64_MAX ->
  exists s, format_tiyn_ru tiyn = Ok s /\ parse_digits 0 (str_filter is_digit s) = tiyn.
Proof.
  intros H. unfold I64_MAX in H. rewrite format_in_range by lia. eexists. split; [reflexivity|].
  assert (Hp : 0 <= tiyn mod 100 < 100) by (apply Z.mod_pos_bound; lia).
  rewrite str_filter_app, str_filter_rev, group_digits_filter by (rewrite str_all_rev; apply dec_all).
  rewrite str_rev_involutive. cbn [str_filter]. replace (is_digit ",") with false by reflexivity.
  rewrite str_filter_all by (by apply Words.fmt02_digits). rewrite parse_digits_app.
  rewrite parse_dec by dlia. rewrite fmt02_range by done. cbn [parse_digits].
  rewrite !code_digit; [dlia | apply Z.mod_pos_bound; lia | dlia].
Qed.

(** The printed amount has the documented shape: groups of exactly three
    digits separated by single blanks behind a leading group of one to three,
    a comma and a two-digit fraction; a negative amount is refused with
    [std::invalid_argument]. *)
Theorem format_tiyn_ru_shape tiyn :
  tiyn <= I64_MAX ->
  (tiyn < 0 /\ throws std_invalid_argument (format_tiyn_ru tiyn)) \/
  (0 <= tiyn /\ exists g gs f, format_tiyn_ru tiyn = Ok (Words.join_words (g :: gs) +:+ String "," f) /\
    (1 <= size g <= 3)%nat /\ Forall (fun h => size h = 3%nat) gs /\ size f = 2%nat).
Proof.
  intros H. destruct (Z.ltb_spec tiyn 0) as [Hn|Hn].
  { left. split; [done|]. unfold format_tiyn_ru. destruct (Z.ltb_spec tiyn 0); [|lia].
    eexists. reflexivity. }
  right. split; [done|]. rewrite format_in_range by done.
  destruct (group_digits_join (size (str_rev (dec (tiyn / 100)))) (str_rev (dec (tiyn / 100))))
    as (gs & g & Hg & Hgs & Hl).
  { rewrite size_rev. unfold I64_MAX in H.
    pose proof (dec_size 20 (tiyn / 100) ltac:(lia) ltac:(simpl; dlia)). lia. }
  rewrite Hg, str_rev_join by (intros E; by apply app_eq_nil in E as [_ ?]).
  rewrite map_app, rev_app_distr. simpl.
  exists (str_rev g), (rev (map str_rev gs)), (fmt0 2 (tiyn mod 100)).
  split; [reflexivity|]. rewrite size_rev. split; [done|]. split.
  - apply Forall_rev, Forall_map. eapply Forall_impl; [exact Hgs|]. intros h. simpl. by rewrite size_rev.
  - rewrite fmt02_range by (apply Z.mod_pos_bound; lia). done.
Qed.

Lemma format_tiyn_ru_roundtrip_witness :
  exists s, format_tiyn_ru 123456789 = Ok s /\ parse_digits 0 (str_filter is_digit s) = 123456789.
Proof. apply format_tiyn_ru_roundtrip. unfold I64_MAX. lia. Defined.

Lemma format_tiyn_ru_shape_witness :
  (123456789 < 0 /\ throws std_invalid_argument (format_tiyn_ru 123456789)) \/
  (0 <= 123456789 /\ exists g gs f,
    format_tiyn_ru 123456789 = Ok (Words.join_words (g :: gs) +:+ String "," f) /\
    (1 <= size g <= 3)%nat /\ Forall (fun h => size h = 3%nat) gs /\ size f = 2%nat).
Proof. apply format_tiyn_ru_shape. unfold I64_MAX. lia. Defined.

End Format.
