(* ===== verification/Ledger.v ===== *)
(** * Ledger values: BIN/IIN identifiers and decimal amounts

    [Ledger::is_valid_bin_iin] (src/ledger/KzIdentifiers.hpp) with its check
    digit, and the text form of a ledger amount: [parse_tiyn] and
    [format_tiyn] (src/ledger/JournalService.hpp). *)
From Stdlib Require Import ZArith Lia Ascii String.
From S2P Require Import Prelude.
Open Scope string_scope.
Open Scope Z_scope.

Module KzIdentifiers.

Definition w1 : list Z := [1; 2; 3; 4; 5; 6; 7; 8; 9; 10; 11].
Definition w2 : list Z := [3; 4; 5; 6; 7; 8; 9; 10; 11; 1; 2].

(** The digit loop: [None] at the first byte that is no digit. *)
Fixpoint digits_of (s : string) : option (list Z) :=
  match s with
  | EmptyString => Some []
  | String c s' => if is_digit c then ds ← digits_of s'; Some ((code c - 48) :: ds) else None
  end.

(** The lambda [weighted]: the first eleven digits against a weight system. *)
Definition weighted (d w : list Z) : Z := Z.rem (zsum (zip_with Z.mul d w)) 11.

(** [is_valid_bin_iin]: src/ledger/KzIdentifiers.hpp:9-33. *)
Definition is_valid_bin_iin (id : string) : outcome bool :=
  if negb (size id =? 12)%nat then Ok false
  else match digits_of id with
       | None => Ok false
       | Some d =>
           last ← at_ d 11;
           let s := weighted d w1 in
           if s =? 10 then
             let s2 := weighted d w2 in
             if s2 =? 10 then Ok false else Ok (last =? s2)
           else Ok (last =? s)
       end.

Definition is_dec (z : Z) : Prop := 0 <= z <= 9.

(** The decision on twelve digits. *)
Definition check (d : list Z) : bool :=
  match d !! 11%nat with
  | None => false
  | Some last =>
      if weighted d w1 =? 10 then negb (weighted d w2 =? 10) && (last =? weighted d w2)
      else last =? weighted d w1
  end.

Lemma digits_of_spec s d :
  digits_of s = Some d -> length d = size s /\ Forall is_dec d.
Proof.
  unfold size. revert d. induction s as [|c s IH]; intros d H; simpl in H.
  - injection H as <-. by split.
  - destruct (is_digit c) eqn:Hc; [|done]. destruct (digits_of s) as [ds|]; [|done].
    simpl in H. injection H as <-. destruct (IH ds eq_refl) as [Hl Hf]. simpl.
    split; [by rewrite Hl|]. constructor; [|done]. unfold is_digit, is_dec in *. lia.
Qed.

(** The function is total: no index leaves the array. *)
Lemma is_valid_check id :
  is_valid_bin_iin id = Ok (match digits_of id with
                            | Some d => (size id =? 12)%nat && check d | None => false end).
Proof.
  unfold is_valid_bin_iin, check. destruct (Nat.eqb_spec (size id) 12) as [Hs|Hs]; simpl.
  - destruct (digits_of id) as [d|] eqn:Hd; [|done].
    destruct (digits_of_spec _ _ Hd) as [Hl _].
    unfold at_. simpl. change (Z.to_nat 11) with 11%nat. change (Pos.to_nat 11) with 11%nat.
    destruct (lookup_lt_is_Some_2 d 11 ltac:(lia)) as [x ->]. simpl.
    repeat case_match; simpl; (done || lia).
  - by destruct (digits_of id).
Qed.

Lemma weighted_insert d w i x y v :
  d !! i = Some y -> w !! i = Some v ->
  zsum (zip_with Z.mul (<[i:=x]> d) w) = zsum (zip_with Z.mul d w) + (x - y) * v.
Proof.
  unfold zsum. revert w i. induction d as [|a d IH]; intros [|b w] [|i] Hd Hw; simplify_eq/=.
  - lia.
  - rewrite (IH w i Hd Hw). lia.
Qed.

Lemma weighted_range d w : 0 <= zsum (zip_with Z.mul d w) -> 0 <= weighted d w < 11.
Proof. intros H. unfold weighted. rewrite rem_mod by lia. apply Z.mod_pos_bound. lia. Qed.

Lemma dot_nonneg d w :
  Forall is_dec d -> Forall (fun z => 0 <= z) w -> 0 <= zsum (zip_with Z.mul d w).
Proof.
  unfold zsum. intros Hd. revert w. induction Hd as [|x d Hx Hd IH]; intros [|v w] Hw; simpl; try lia.
  apply Forall_cons in Hw as [Hv Hw]. specialize (IH w Hw). unfold is_dec in Hx. nia.
Qed.

Lemma dot_insert_ge d w n x :
  (length w <= n)%nat -> zip_with Z.mul (<[n:=x]> d) w = zip_with Z.mul d w.
Proof.
  revert w n. induction d as [|a d IH]; intros [|b w] [|n] Hn; simpl in *; try lia; try done.
  f_equal. apply IH. lia.
Qed.

(** The check digit does its work: the verdict is defined on every string,
    a valid identifier is twelve digits, and when the first weight system
    decides, no valid identifier turns into another valid one by changing a
    single digit, the eleventh (weight 11) excepted. *)
Theorem bin_iin_detects_single_error id id' d i x y :
  is_valid_bin_iin id = Ok true -> digits_of id = Some d -> weighted d w1 <> 10 ->
  (i < 12)%nat -> i <> 10%nat -> d !! i = Some y -> 0 <= x <= 9 -> x <> y ->
  digits_of id' = Some (<[i:=x]> d) -> weighted (<[i:=x]> d) w1 <> 10 ->
  size id = 12%nat /\ is_valid_bin_iin id' = Ok false.
Proof.
  rewrite !is_valid_check. intros Hv Hd Hw Hi Hi10 Hy Hx Hxy Hd' Hw'. rewrite Hd in Hv. rewrite Hd'.
  destruct (digits_of_spec _ _ Hd) as [Hl Hf]. destruct (digits_of_spec _ _ Hd') as [_ Hf'].
  injection Hv as [Hs Hc]%andb_true_iff. apply Nat.eqb_eq in Hs. split; [done|].
  f_equal. apply andb_false_iff. right. revert Hc. unfold check.
  destruct (lookup_lt_is_Some_2 d 11 ltac:(lia)) as [last Hlast]. rewrite Hlast.
  rewrite (proj2 (Z.eqb_neq _ _) Hw), (proj2 (Z.eqb_neq _ _) Hw').
  pose proof (dot_nonneg d w1 Hf ltac:(repeat constructor; lia)) as H0.
  pose proof (dot_nonneg _ w1 Hf' ltac:(repeat constructor; lia)) as H0'.
  assert (Hyd : is_dec y) by (rewrite Forall_forall in Hf; eapply Hf, list_elem_of_lookup_2, Hy).
  unfold is_dec in Hyd. intros Heq%Z.eqb_eq.
  destruct (decide (i = 11%nat)) as [->|Hne].
  - rewrite list_lookup_insert_eq by lia. apply Z.eqb_neq.
    replace (weighted (<[11%nat:=x]> d) w1) with (weighted d w1); [congruence|].
    unfold weighted. by rewrite dot_insert_ge.
  - rewrite list_lookup_insert_ne by done. rewrite Hlast. apply Z.eqb_neq.
    assert (Hv : w1 !! i = Some (Z.of_nat i + 1)) by (do 11 (destruct i as [|i]; [try done; lia|]); lia).
    unfold weighted in *. rewrite (weighted_insert d w1 i x y _ Hy Hv) in *.
    rewrite !rem_mod in * by lia. clear - Hi Hi10 Hne Hx Hxy Hyd Heq.
    do 10 (destruct i as [|i]; [simpl in *; dlia|]). lia.
Qed.

Lemma bin_iin_detects_single_error_witness :
  size "104332181962" = 12%nat /\ is_valid_bin_iin "104332581962" = Ok false.
Proof.
  apply (bin_iin_detects_single_error "104332181962" "104332581962"
    [1; 0; 4; 3; 3; 2; 1; 8; 1; 9; 6; 2] 6 5 1);
    first [lia | vm_compute; reflexivity | vm_compute; discriminate].
Defined.

(** Nothing else is checked: the eleventh digit has weight zero modulo 11
    in the first system, so two valid identifiers can differ in it alone. *)
Theorem bin_iin_eleventh_digit :
  exists id id', is_valid_bin_iin id = Ok true /\ is_valid_bin_iin id' = Ok true /\
    id <> id' /\ str_take 10 id = str_take 10 id' /\ str_drop 11 id = str_drop 11 id'.
Proof.
  exists "104332181962", "104332181972". repeat split; try (vm_compute; reflexivity). discriminate.
Qed.

End KzIdentifiers.

Module Amounts.

Definition parse_error (msg amount : string) : exn :=
  Exn std_invalid_argument ("parse_tiyn: " +:+ msg +:+ " in '" +:+ amount +:+ "'").

(** [frac_part] padded to two digits. *)
Definition pad_frac (f : string) : string := f +:+ zeros (2 - size f).

(** [parse_tiyn]: src/ledger/JournalService.hpp:133-178. *)
Definition parse_tiyn (amount : string) : outcome Z :=
  if (size amount =? 0)%nat then Throw (Exn std_invalid_argument "parse_tiyn: empty amount")
  else
    let dot := str_find "." amount in
    let int_part := match dot with None => amount | Some n => str_take n amount end in
    let frac_part := match dot with None => "" | Some n => str_drop (S n) amount end in
    if match str_find "." frac_part with Some _ => true | None => false end then
      Throw (parse_error "more than one decimal point" amount)
    else if (2 <? size frac_part)%nat then
      Throw (parse_error "more than 2 digits after the decimal point" amount)
    else if (size int_part =? 0)%nat then
      Throw (parse_error "missing integer part" amount)
    else if negb (str_all is_digit int_part) then
      Throw (parse_error "non-digit character (no sign allowed)" amount)
    else if negb (str_all is_digit frac_part) then
      Throw (Exn std_invalid_argument
        ("parse_tiyn: non-digit character in fractional part of '" +:+ amount +:+ "'"))
    else if (16 <? size int_part)%nat then
      Throw (parse_error "integer part too long (max 16 digits)" amount)
    else
      let frac_part := pad_frac frac_part in
      let overflow := Exn std_invalid_argument ("parse_tiyn: integer overflow in '" +:+ amount +:+ "'") in
      match stoll int_part, stoll frac_part with
      | Ok whole, Ok frac =>
          scaled ← mul64 whole 100;
          tiyn ← add64 scaled frac;
          if tiyn <=? 0 then
            Throw (Exn std_invalid_argument
              ("parse_tiyn: amount must be strictly positive, got '" +:+ amount +:+ "'"))
          else Ok tiyn
      | Undef, _ => Undef
      | Ok _, Undef => Undef
      | _, _ => Throw overflow
      end.

(** [format_tiyn]: src/ledger/JournalService.hpp:203-211. *)
Definition format_tiyn (tiyn : Z) : outcome string :=
  if tiyn <? 0 then
    Throw (Exn std_invalid_argument
      ("format_tiyn: amount must be non-negative, got " +:+ to_string tiyn))
  else
    let whole := Z.quot tiyn 100 in
    let frac := Z.rem tiyn 100 in
    mret (to_string whole +:+ String "." (fmt0 2 frac)).

Example parse_ex : parse_tiyn "1234.5" = Ok 123450.
Proof. vm_compute. reflexivity. Qed.
Example format_tiyn_ex : format_tiyn 123450 = Ok "1234.50".
Proof. vm_compute. reflexivity. Qed.

Lemma zeros_digits n : str_all is_digit (zeros n) = true.
Proof. induction n; simpl; [done|]. by rewrite IHn. Qed.

Lemma size_zeros n : size (zeros n) = n.
Proof. unfold size. induction n; simpl; congruence. Qed.

Lemma pad_frac_digits f :
  str_all is_digit f = true -> (size f <= 2)%nat ->
  str_all is_digit (pad_frac f) = true /\ size (pad_frac f) = 2%nat.
Proof.
  intros Hd Hs. unfold pad_frac. rewrite str_all_app, Hd, zeros_digits, size_app, size_zeros.
  split; [done | lia].
Qed.

Lemma stoll_digits s :
  (1 <= size s <= 18)%nat -> str_all is_digit s = true -> stoll s = Ok (parse_digits 0 s).
Proof.
  intros Hs Hd. unfold stoll. rewrite strtol_digits; [|by destruct s; unfold size in Hs; simpl in Hs; [lia|] | done].
  pose proof (parse_digits_range s Hd).
  assert (10 ^ Z.of_nat (size s) <= 10 ^ 18) by (apply Z.pow_le_mono_r; lia).
  unfold in_i64, I64_MIN, I64_MAX. by rewrite (proj2 (Z.leb_le _ _)), (proj2 (Z.leb_le _ _)) by lia.
Qed.

(** The arithmetic of an accepted text stays inside [long long]. *)
Lemma parse_arith ip fp amount :
  str_all is_digit ip = true -> (1 <= size ip <= 16)%nat ->
  str_all is_digit fp = true -> (size fp <= 2)%nat ->
  let t := parse_digits 0 ip * 100 + parse_digits 0 (pad_frac fp) in
  0 <= t < 10 ^ 18 /\
  match stoll ip, stoll (pad_frac fp) with
  | Ok whole, Ok frac =>
      scaled ← mul64 whole 100;
      tiyn ← add64 scaled frac;
      if tiyn <=? 0 then
        Throw (Exn std_invalid_argument
          ("parse_tiyn: amount must be strictly positive, got '" +:+ amount +:+ "'"))
      else Ok tiyn
  | Undef, _ => Undef
  | Ok _, Undef => Undef
  | _, _ => Throw (Exn std_invalid_argument ("parse_tiyn: integer overflow in '" +:+ amount +:+ "'"))
  end = if t <=? 0 then Throw (Exn std_invalid_argument
          ("parse_tiyn: amount must be strictly positive, got '" +:+ amount +:+ "'")) else Ok t.
Proof.
  intros Hi Hsi Hf Hsf t. destruct (pad_frac_digits fp Hf Hsf) as [Hp Hsp].
  pose proof (parse_digits_range _ Hi). pose proof (parse_digits_range _ Hp) as Hpr.
  rewrite Hsp in Hpr. change (10 ^ Z.of_nat 2) with 100 in Hpr.
  assert (10 ^ Z.of_nat (size ip) <= 10 ^ 16) by (apply Z.pow_le_mono_r; lia).
  assert (0 <= t < 10 ^ 18) by (unfold t; lia). split; [done|].
  rewrite !stoll_digits by (done || lia). unfold t in *. run64. done.
Qed.

Lemma digit_not_dot : is_digit "." = false.
Proof. reflexivity. Qed.

Lemma str_take_drop n s : (n <= size s)%nat -> s = str_take n s +:+ str_drop n s.
Proof.
  unfold size. revert n. induction s as [|c s IH]; intros [|n] H; simpl in *; try done; try lia.
  f_equal. apply IH. lia.
Qed.

Lemma str_find_some c s n :
  str_find c s = Some n -> (n < size s)%nat /\ str_drop n s = String c (str_drop (S n) s).
Proof.
  unfold size. revert n. induction s as [|d s IH]; intros n H; [done|]. simpl in H.
  destruct (ascii_dec c d) as [->|].
  - injection H as <-. simpl. split; [lia | by destruct s].
  - destruct (str_find c s) as [m|]; [|done]. injection H as <-.
    destruct (IH m eq_refl) as [H1 H2]. simpl. split; [lia | done].
Qed.

(** The two shapes of the text, as the code cuts it. *)
Lemma parse_cut ip fp :
  str_all is_digit ip = true -> str_all is_digit fp = true ->
  str_find "." (ip +:+ String "." fp) = Some (size ip) /\
  str_take (size ip) (ip +:+ String "." fp) = ip /\
  str_drop (S (size ip)) (ip +:+ String "." fp) = fp /\
  str_find "." ip = None /\ str_find "." fp = None.
Proof.
  intros Hi Hf.
  split; [by apply (str_find_app is_digit)|]. split; [apply str_take_app|].
  split; [|by split; eapply (str_find_none is_digit)].
  transitivity (str_drop 1 (str_drop (size ip) (ip +:+ String "." fp))).
  - clear. unfold size. induction ip; simpl; [by destruct fp | done].
  - rewrite str_drop_app. simpl. by destruct fp.
Qed.

Definition amount_shape (s ip fp : string) : Prop :=
  (s = ip /\ fp = "" \/ s = ip +:+ String "." fp) /\
  str_all is_digit ip = true /\ (1 <= size ip <= 16)%nat /\
  str_all is_digit fp = true /\ (size fp <= 2)%nat.

Definition amount_value (ip fp : string) : Z :=
  parse_digits 0 ip * 100 + parse_digits 0 (pad_frac fp).

Lemma parse_complete s ip fp :
  amount_shape s ip fp ->
  parse_tiyn s = if amount_value ip fp <=? 0 then Throw (Exn std_invalid_argument
    ("parse_tiyn: amount must be strictly positive, got '" +:+ s +:+ "'")) else Ok (amount_value ip fp).
Proof.
  intros (Hs & Hi & Hsi & Hf & Hsf).
  destruct (parse_cut ip fp Hi Hf) as (Hc1 & Hc2 & Hc3 & Hc4 & Hc5).
  destruct (parse_arith ip fp s Hi Hsi Hf Hsf) as [_ Har].
  assert (Hne : (size s =? 0)%nat = false).
  { apply Nat.eqb_neq. destruct Hs as [[-> _] | ->]; rewrite ?size_app; lia. }
  unfold parse_tiyn. rewrite Hne. destruct Hs as [[-> ->] | ->]; cbn zeta.
  - rewrite Hc4. simpl str_find. cbn iota.
    replace (2 <? size "")%nat with false by reflexivity.
    replace (size ip =? 0)%nat with false by (symmetry; apply Nat.eqb_neq; lia).
    rewrite Hi. replace (16 <? size ip)%nat with false by (symmetry; apply Nat.ltb_ge; lia).
    exact Har.
  - rewrite Hc1. cbn iota zeta. rewrite Hc2, Hc3, Hc5.
    replace (2 <? size fp)%nat with false by (symmetry; apply Nat.ltb_ge; lia).
    replace (size ip =? 0)%nat with false by (symmetry; apply Nat.eqb_neq; lia).
    rewrite Hi, Hf. replace (16 <? size ip)%nat with false by (symmetry; apply Nat.ltb_ge; lia).
    exact Har.
Qed.

Lemma parse_sound s :
  throws std_invalid_argument (parse_tiyn s) \/ exists ip fp, amount_shape s ip fp.
Proof.
  unfold parse_tiyn, throws, parse_error.
  destruct (Nat.eqb_spec (size s) 0); [left; by eexists|]. cbn zeta.
  set (ip := match str_find "." s with None => s | Some n => str_take n s end).
  set (fp := match str_find "." s with None => "" | Some n => str_drop (S n) s end).
  case_match; [left; by eexists|].
  destruct (Nat.ltb_spec 2 (size fp)); [left; by eexists|].
  destruct (Nat.eqb_spec (size ip) 0); [left; by eexists|].
  destruct (str_all is_digit ip) eqn:Hi; [|left; by eexists].
  destruct (str_all is_digit fp) eqn:Hf; [|left; by eexists]. simpl.
  destruct (Nat.ltb_spec 16 (size ip)); [left; by eexists|].
  right. exists ip, fp. repeat split; auto; try lia. unfold ip, fp.
  destruct (str_find "." s) as [k|] eqn:E; [right | by left].
  destruct (str_find_some _ _ _ E) as [Hn Hd]. rewrite <- Hd. apply str_take_drop. lia.
Qed.

Lemma amount_shape_value s ip fp : amount_shape s ip fp -> 0 <= amount_value ip fp < 10 ^ 18.
Proof. intros (_ & Hi & Hsi & Hf & Hsf). apply (parse_arith ip fp s Hi Hsi Hf Hsf). Qed.

(** ** Properties of the amount text *)

(** [parse_tiyn] accepts exactly the amounts of its grammar (one to sixteen
    digits, optionally a point and at most two more, value above zero) and
    returns their exact value; anything else is an [std::invalid_argument]; no
    input overflows [long long]. *)
Theorem parse_tiyn_spec s :
  (forall t, parse_tiyn s = Ok t <-> exists ip fp, amount_shape s ip fp /\ t = amount_value ip fp /\ 0 < t) /\
  (forall t, parse_tiyn s = Ok t -> 0 < t < 10 ^ 18) /\
  ((exists t, parse_tiyn s = Ok t) \/ throws std_invalid_argument (parse_tiyn s)).
Proof.
  destruct (parse_sound s) as [[w Hw] | (ip & fp & Hsh)].
  - rewrite Hw. split; [|split; [discriminate | right; by eexists]].
    intros t. split; [discriminate|]. intros (ip & fp & Hsh & -> & Ht).
    rewrite (parse_complete _ _ _ Hsh) in Hw. by destruct (Z.leb_spec (amount_value ip fp) 0); [lia|].
  - pose proof (amount_shape_value _ _ _ Hsh) as Hv. rewrite (parse_complete _ _ _ Hsh).
    destruct (Z.leb_spec (amount_value ip fp) 0) as [Hz|Hz].
    + split; [|split; [discriminate | right; by eexists]].
      intros t. split; [discriminate|]. intros (ip' & fp' & Hsh' & -> & Ht).
      pose proof (parse_complete _ _ _ Hsh') as E. rewrite (parse_complete _ _ _ Hsh) in E.
      destruct (Z.leb_spec (amount_value ip fp) 0); [|lia].
      by destruct (Z.leb_spec (amount_value ip' fp') 0); [lia|].
    + split; [|split; [intros t [= <-]; lia | left; by eexists]].
      intros t. split.
      * intros [= <-]. by exists ip, fp.
      * intros (ip' & fp' & Hsh' & -> & Ht).
        pose proof (parse_complete _ _ _ Hsh') as E. rewrite (parse_complete _ _ _ Hsh) in E.
        destruct (Z.leb_spec (amount_value ip fp) 0); [lia|].
        destruct (Z.leb_spec (amount_value ip' fp') 0); [lia|]. congruence.
Qed.

Lemma format_tiyn_text t :
  0 <= t -> format_tiyn t = Ok (dec (t / 100) +:+ String "." (fmt0 2 (t mod 100))).
Proof.
  intros H. unfold format_tiyn. destruct (Z.ltb_spec t 0); [lia|].
  rewrite quot_div, rem_mod by lia. by rewrite to_string_nonneg by dlia.
Qed.

Lemma format_shape t :
  0 <= t < 10 ^ 18 ->
  amount_shape (dec (t / 100) +:+ String "." (fmt0 2 (t mod 100))) (dec (t / 100)) (fmt0 2 (t mod 100)) /\
  amount_value (dec (t / 100)) (fmt0 2 (t mod 100)) = t.
Proof.
  intros H. assert (Hp : 0 <= t mod 100 < 100) by (apply Z.mod_pos_bound; lia).
  assert (Hr := fmt02_range _ Hp).
  assert (Hd : str_all is_digit (fmt0 2 (t mod 100)) = true).
  { rewrite Hr. simpl. rewrite !is_digit_digit; [done | apply Z.mod_pos_bound; lia | dlia]. }
  assert (Hs : size (fmt0 2 (t mod 100)) = 2%nat) by by rewrite Hr.
  pose proof (dec_size 16 (t / 100) ltac:(lia) ltac:(simpl; dlia)).
  split; [repeat split; auto using dec_all; lia|].
  unfold amount_value, pad_frac. rewrite Hs, parse_dec by dlia. simpl zeros. rewrite app_empty_r, Hr.
  cbn [parse_digits]. rewrite !code_digit; [dlia | apply Z.mod_pos_bound; lia | dlia].
Qed.

(** Writing an amount and reading it back is the identity on every amount
    an entry line can hold, and [format_tiyn] refuses exactly the negatives. *)
Theorem format_parse_roundtrip t :
  t < 10 ^ 18 ->
  (0 < t -> exists s, format_tiyn t = Ok s /\ parse_tiyn s = Ok t) /\
  (throws std_invalid_argument (format_tiyn t) <-> t < 0) /\
  (t = 0 -> format_tiyn t = Ok "0.00" /\ throws std_invalid_argument (parse_tiyn "0.00")).
Proof.
  intros Ht. split; [|split].
  - intros Hp. rewrite format_tiyn_text by lia. eexists. split; [reflexivity|].
    destruct (format_shape t ltac:(lia)) as [Hsh Hv].
    rewrite (parse_complete _ _ _ Hsh), Hv. by destruct (Z.leb_spec t 0); [lia|].
  - split.
    + intros [w Hw]. destruct (Z.lt_ge_cases t 0); [done|]. by rewrite format_tiyn_text in Hw.
    + intros Hn. unfold format_tiyn. destruct (Z.ltb_spec t 0); [by eexists | lia].
  - intros ->. split; [vm_compute; reflexivity | eexists; vm_compute; reflexivity].
Qed.

Lemma format_parse_roundtrip_witness :
  exists s, format_tiyn 123450 = Ok s /\ parse_tiyn s = Ok 123450.
Proof. apply (format_parse_roundtrip 123450); lia. Defined.

End Amounts.
