(* ===== verification/JournalDb.v ===== *)
(** * The journal tables

    The rows, constraints and triggers of migrations/008_accounts.sql,
    009_journal.sql and 022_qualify_journal_trigger_names.sql that the ledger
    services run against, the SQL statements of those services, and the
    transactions of src/database/Database.hpp (commit with deferred checks, or
    rollback).  What PostgreSQL itself computes (UUIDs, NUMERIC and DATE text)
    is an interface with its documented laws. *)
From Stdlib Require Import ZArith Lia Ascii String.
From stdpp Require Import sorting.
From S2P Require Import Prelude Ledger.
Open Scope string_scope.
Open Scope Z_scope.

(** What the code relies on from the database server. *)
Class Postgres := {
  gen_random_uuid : nat -> string;
  (** text to NUMERIC(18,2), in hundredths; [None]: rejected *)
  numeric_in : string -> option Z;
  numeric_out : Z -> string;
  (** text to DATE and its canonical text *)
  date_in : string -> option string;
  uuid_unique : forall m n, gen_random_uuid m = gen_random_uuid n -> m = n;
  numeric_in_exact : forall s t, Amounts.parse_tiyn s = Ok t -> numeric_in s = Some t;
  numeric_in_range : forall s t, numeric_in s = Some t -> - 10 ^ 18 < t < 10 ^ 18;
  numeric_roundtrip : forall t, - 10 ^ 18 < t < 10 ^ 18 -> numeric_in (numeric_out t) = Some t;
  date_canonical : forall s d, date_in s = Some d -> date_in d = Some d
}.

Module Db.

(** [Account]: src/ledger/Account.hpp:31-60. *)
Record Account := mkAccount {
  acc_id : string; acc_org_id : option string; code : string; name_ru : string; name_kk : string;
  acc_type : string; parent_code : option string; currency_tracked : bool
}.

(** [JournalLine]: src/ledger/JournalEntry.hpp:40-63. *)
Record JournalLine := mkLine {
  line_id : string; line_entry_id : string; account_code : string; side : string; amount : string;
  counterparty_id : option string; vat_amount : option string
}.

(** [JournalEntry]: src/ledger/JournalEntry.hpp:77-101. *)
Record JournalEntry := mkEntry {
  id : string; org_id : string; entry_date : string; description : string; status : string;
  reverses_entry_id : option string; created_by_user_id : option string; lines : list JournalLine
}.

(** [Counterparty]: src/ledger/Counterparty.hpp:27-60.  (The identifier is the key of the row.) *)
Record Counterparty := mkCounterparty {
  cp_org : string; cp_identifier : string; cp_name : string; cp_address : string; cp_iik : string; cp_bik : string; cp_kbe : string;
  cp_resident : bool; cp_vat : bool; cp_email : string; cp_created : Z
}.

(** A row of [journal_entries]: migrations/009_journal.sql. *)
Record EntryRow := mkEntryRow {
  er_org : string; er_date : string; er_desc : string; er_status : string;
  er_reverses : option string; er_user : option string; er_run : option string; er_created : Z
}.

(** A row of [journal_lines]; amounts in hundredths. *)
Record LineRow := mkLineRow {
  lr_id : string; lr_org : string; lr_entry : string; lr_account : string; lr_side : string;
  lr_amount : Z; lr_cp : option string; lr_vat : option Z; lr_created : Z
}.

#[export] Instance EntryRow_eq_dec : EqDecision EntryRow.
Proof. solve_decision. Defined.
#[export] Instance LineRow_eq_dec : EqDecision LineRow.
Proof. solve_decision. Defined.

(** The committed database. *)
Record DB := mkDB {
  db_orgs : gset string; db_users : gset string;
  db_entries : gmap string EntryRow; db_lines : list LineRow;
  db_accounts : list Account; db_counterparties : gmap string Counterparty;
  db_seq : nat; db_now : Z
}.

Definition with_entries (f : gmap string EntryRow -> gmap string EntryRow) (d : DB) : DB :=
  mkDB (db_orgs d) (db_users d) (f (db_entries d)) (db_lines d) (db_accounts d)
    (db_counterparties d) (db_seq d) (db_now d).
Definition with_lines (f : list LineRow -> list LineRow) (d : DB) : DB :=
  mkDB (db_orgs d) (db_users d) (db_entries d) (f (db_lines d)) (db_accounts d)
    (db_counterparties d) (db_seq d) (db_now d).
Definition with_accounts (f : list Account -> list Account) (d : DB) : DB :=
  mkDB (db_orgs d) (db_users d) (db_entries d) (db_lines d) (f (db_accounts d))
    (db_counterparties d) (db_seq d) (db_now d).
Definition with_counterparties (f : gmap string Counterparty -> gmap string Counterparty) (d : DB) : DB :=
  mkDB (db_orgs d) (db_users d) (db_entries d) (db_lines d) (db_accounts d)
    (f (db_counterparties d)) (db_seq d) (db_now d).
Definition next_uuid (d : DB) : DB :=
  mkDB (db_orgs d) (db_users d) (db_entries d) (db_lines d) (db_accounts d)
    (db_counterparties d) (S (db_seq d)) (db_now d).
Definition tick (d : DB) : DB :=
  mkDB (db_orgs d) (db_users d) (db_entries d) (db_lines d) (db_accounts d)
    (db_counterparties d) (db_seq d) (db_now d + 1).

(** ** Views *)

Definition lines_of (d : DB) (eid : string) : list LineRow :=
  filter (fun l => lr_entry l = eid) (db_lines d).

Definition signed (l : LineRow) : Z := if String.eqb (lr_side l) "debit" then lr_amount l else - lr_amount l.

(** The sum of [journal_entry_must_balance]. *)
Definition diff (ls : list LineRow) : Z := zsum (map signed ls).

Definition has_lines (d : DB) (eid : string) : bool :=
  match lines_of d eid with [] => false | _ => true end.

(** ** Triggers *)

Definition check_violation {A} (msg : string) : outcome A := Throw (Exn pqxx_sql_error msg).

(** [journal_entry_must_balance]: migrations/022_qualify_journal_trigger_names.sql:57-70. *)
Definition journal_entry_must_balance (d : DB) (eid : string) : bool := diff (lines_of d eid) =? 0.

(** [journal_entries_immutability]: migrations/022_qualify_journal_trigger_names.sql:73-135,
    its UPDATE branches. *)
Definition journal_entries_immutability (d : DB) (eid : string) (old new : EntryRow) : outcome unit :=
  if negb (bool_decide (er_org old ∈ db_orgs d)) then Ok tt
  else if bool_decide (is_Some (er_user old)) && bool_decide (er_user new = None)
    && match er_user old with Some u => negb (bool_decide (u ∈ db_users d)) | None => false end
    && bool_decide (new = mkEntryRow (er_org old) (er_date old) (er_desc old) (er_status old)
                            (er_reverses old) None (er_run old) (er_created old)) then Ok tt
  else if String.eqb (er_status old) "posted" then
    if String.eqb (er_status new) "reversed" && String.eqb (er_date new) (er_date old)
      && String.eqb (er_desc new) (er_desc old) && String.eqb (er_org new) (er_org old)
      && bool_decide (er_reverses new = er_reverses old) then Ok tt
    else check_violation "posted journal entries are immutable (use storno)"
  else if String.eqb (er_status old) "reversed" then
    check_violation "reversed journal entries are immutable"
  else if String.eqb (er_status old) "draft" && String.eqb (er_status new) "reversed" then
    check_violation "draft cannot be reversed (post it first)"
  else if String.eqb (er_status old) "draft" && String.eqb (er_status new) "posted"
    && negb (has_lines d eid) then
    check_violation "cannot post an entry with no lines"
  else Ok tt.

(** [journal_lines_frozen_after_post]: migrations/022_qualify_journal_trigger_names.sql:138-169,
    its INSERT branch. *)
Definition journal_lines_frozen_after_post (d : DB) (eid : string) : outcome unit :=
  match db_entries d !! eid with
  | None => Ok tt
  | Some e =>
      if String.eqb (er_status e) "draft" then Ok tt
      else check_violation ("cannot add lines to a " +:+ er_status e +:+ " entry")
  end.

(** ** Transactions *)

(** The database as one transaction sees it, and the deferred checks. *)
Record Txn := mkTxn { tx_db : DB; tx_touched : list string }.

Definition tx_map (f : DB -> DB) : st Txn unit := modify (fun t => mkTxn (f (tx_db t)) (tx_touched t)).

(** The service's view of the database: before every access other sessions may
    have committed whatever the head of [w_env] does. *)
Record World := mkWorld { w_db : DB; w_env : list (DB -> DB) }.

Definition yield : st World unit :=
  modify (fun w => match w_env w with
                   | [] => w
                   | f :: fs => mkWorld (f (w_db w)) fs
                   end).

(** [execute_read]: src/database/Database.hpp:562-587, on the committed state. *)
Definition execute_read {A} (q : DB -> A) : st World A := yield ;; gets (fun w => q (w_db w)).

(** [execute_with_]: src/database/Database.hpp:437-477.  One transaction: the
    deferred balance trigger runs at COMMIT, and any exception rolls everything
    back; the retry of a serialization failure reruns a body whose effects were
    rolled back, so one run stands for all attempts.  A connection lost during COMMIT,
    where the caller gets an exception and the transaction may be in the database once,
    is left to [Transactions.execute_write] of Connections: here, and in the services over
    it, an exception means that nothing was written. *)
Definition run_txn {A} (body : st Txn A) : st World A :=
  fun w =>
    match body (mkTxn (tick (w_db w)) []) with
    | (Ok a, t) =>
        if forallb (journal_entry_must_balance (tx_db t)) (tx_touched t)
        then (Ok a, mkWorld (tx_db t) (w_env w))
        else (check_violation "journal entry is unbalanced", w)
    | (Throw e, _) => (Throw e, w)
    | (Undef, _) => (Undef, w)
    end.

(** [execute_write]: src/database/Database.hpp:485-491. *)
Definition execute_write {A} (body : st Txn A) : st World A := yield ;; run_txn body.

(** ** Other sessions

    What a call keeps when other sessions keep [I] of the committed database and move
    it as [R] allows. *)

Definition next (w : World) : World := (yield w).2.

Lemma execute_read_eq {A} (q : DB -> A) w : execute_read q w = (Ok (q (w_db (next w))), next w).
Proof. reflexivity. Qed.

Lemma execute_write_inv {A} (body : st Txn A) w r w' :
  execute_write body w = (r, w') ->
  (exists a t, r = Ok a /\ body (mkTxn (tick (w_db (next w))) []) = (Ok a, t) /\
     Forall (fun x => journal_entry_must_balance (tx_db t) x = true) (tx_touched t) /\
     w' = mkWorld (tx_db t) (w_env (next w))) \/
  (w' = next w /\ forall a, r <> Ok a).
Proof.
  unfold execute_write, run_txn, mbind, st_bind. unfold next, yield, modify. cbn [snd].
  set (n := match w_env w with [] => _ | _ => _ end). clearbody n.
  destruct (body _) as [[a|e|] t] eqn:Hb; [|by intros [= <- <-]; right..].
  destruct (forallb _ _) eqn:Hf; [|by intros [= <- <-]; right].
  intros [= <- <-]. left. exists a, t. split; [done|]. split; [done|]. split; [|done].
  apply Forall_forall. intros x Hx. rewrite forallb_forall in Hf. apply Hf. by apply list_elem_of_In.
Qed.

Section Guarded.
Context (I : DB -> Prop) (R : DB -> DB -> Prop) `{!PreOrder R}.

Definition guarded_env (w : World) : Prop := Forall (fun f => forall d, I d -> I (f d) /\ R d (f d)) (w_env w).

(** What any access may find afterwards. *)
Definition guarded (w w' : World) : Prop := I (w_db w') /\ guarded_env w' /\ R (w_db w) (w_db w').

Definition guards {A} (m : st World A) : Prop := forall w, I (w_db w) -> guarded_env w -> guarded w (m w).2.

Lemma guarded_refl w : I (w_db w) -> guarded_env w -> guarded w w.
Proof. intros Hi He. split; [done|]. split; [done | reflexivity]. Qed.

Lemma guarded_trans w1 w2 w3 : guarded w1 w2 -> guarded w2 w3 -> guarded w1 w3.
Proof. intros (_ & _ & H12) (Hi & He & H23). split; [done|]. split; [done | by etransitivity]. Qed.

Lemma next_guarded w : I (w_db w) -> guarded_env w -> guarded w (next w).
Proof.
  intros Hi He. unfold next, yield, modify, guarded, guarded_env in *. simpl.
  destruct (w_env w) as [|f fs] eqn:E.
  - split; [done|]. split; [by rewrite E | reflexivity].
  - apply Forall_cons in He as [Hf Hfs]. destruct (Hf _ Hi). simpl. auto.
Qed.

Lemma guards_lift {A} (m : outcome A) : guards (lift m).
Proof. intros w Hi He. by apply guarded_refl. Qed.

Lemma guards_ret {A} (a : A) : guards (mret a).
Proof. apply (guards_lift (Ok a)). Qed.

Lemma guards_throw {A} c w : guards (throw c w : st World A).
Proof. apply (guards_lift (Throw (Exn c w))). Qed.

Lemma guards_bind {A B} (m : st World A) (f : A -> st World B) :
  guards m -> (forall a, guards (f a)) -> guards (m ≫= f).
Proof.
  intros Hm Hf w Hi He. specialize (Hm w Hi He). unfold mbind, st_bind.
  destruct (m w) as [[a| |] w1]; simpl in *; [|done..].
  eapply guarded_trans; [exact Hm|]. destruct Hm as (? & ? & _). by apply Hf.
Qed.

Lemma guards_read {A} (q : DB -> A) : guards (execute_read q).
Proof. intros w Hi He. rewrite execute_read_eq. by apply next_guarded. Qed.

(** A transaction that commits does so on what it found, one tick later. *)
Lemma write_guarded {A} (body : st Txn A) w : I (w_db w) -> guarded_env w ->
  (forall a t, guarded w (next w) -> body (mkTxn (tick (w_db (next w))) []) = (Ok a, t) ->
     Forall (fun x => journal_entry_must_balance (tx_db t) x = true) (tx_touched t) ->
     I (tx_db t) /\ R (w_db (next w)) (tx_db t)) ->
  guarded w (execute_write body w).2.
Proof.
  intros Hi He Hb. pose proof (next_guarded w Hi He) as Hn.
  destruct (execute_write body w) as [r w'] eqn:E. simpl.
  apply execute_write_inv in E as [(a & t & -> & Ht & Hbal & ->) | [-> _]]; [|done].
  destruct (Hb _ _ Hn Ht Hbal) as [H1 H2]. destruct Hn as (_ & Hen & Hr).
  split; [done|]. split; [done | by etransitivity].
Qed.
End Guarded.

Section Statements.
Context `{PG : Postgres}.

Definition sql_error {A} (state : string) : st Txn A := throw pqxx_sql_error state.

(** [JournalEntry::from_row]: the header columns only. *)
Definition entry_from_row (eid : string) (r : EntryRow) : JournalEntry :=
  mkEntry eid (er_org r) (er_date r) (er_desc r) (er_status r) (er_reverses r) (er_user r) [].

Definition line_from_row (r : LineRow) : JournalLine :=
  mkLine (lr_id r) (lr_entry r) (lr_account r) (lr_side r) (numeric_out (lr_amount r)) (lr_cp r)
    (numeric_out <$> lr_vat r).

(** [create_draft]: src/ledger/JournalService.hpp:253-261.  INSERT INTO journal_entries ... RETURNING. *)
Definition insert_entry (org date desc : string) (reverses user : option string) : st Txn JournalEntry :=
  d ← gets tx_db;
  match date_in date with
  | None => sql_error "22007"
  | Some day =>
      if negb (bool_decide (org ∈ db_orgs d)
               && match reverses with Some r => bool_decide (is_Some (db_entries d !! r)) | None => true end
               && match user with Some u => bool_decide (u ∈ db_users d) | None => true end)
      then sql_error "23503"
      else
        let eid := gen_random_uuid (db_seq d) in
        let row := mkEntryRow org day desc "draft" reverses user None (db_now d) in
        tx_map (fun d => with_entries <[eid := row]> (next_uuid d)) ;;
        mret (entry_from_row eid row)
  end.

(** [create_draft]: src/ledger/JournalService.hpp:265-276.  INSERT INTO journal_lines ... RETURNING: the BEFORE trigger, the CHECK
    constraints and the composite foreign key, then the deferred balance. *)
Definition insert_line (org eid account sd amt : string) (cp vat : option string) : st Txn JournalLine :=
  d ← gets tx_db;
  lift (journal_lines_frozen_after_post d eid) ;;
  match numeric_in amt, match vat with Some v => Some <$> numeric_in v | None => Some None end with
  | Some t, Some v =>
      if negb ((String.eqb sd "debit" || String.eqb sd "credit") && (0 <? t)
               && match v with Some x => 0 <=? x | None => true end) then sql_error "23514"
      else if negb (match db_entries d !! eid with Some e => String.eqb (er_org e) org | None => false end
                    && match cp with Some c => bool_decide (is_Some (db_counterparties d !! c)) | None => true end)
      then sql_error "23503"
      else
        let row := mkLineRow (gen_random_uuid (db_seq d)) org eid account sd t cp v (db_now d) in
        modify (fun t => mkTxn (with_lines (fun ls => (ls ++ [row])%list) (next_uuid (tx_db t)))
                           (eid :: tx_touched t)) ;;
        mret (line_from_row row)
  | _, _ => sql_error "22P02"
  end.

(** [post]: src/ledger/JournalService.hpp:294-303.  UPDATE journal_entries SET status = to WHERE id AND org AND status = from
    RETURNING: [None] when no row matches. *)
Definition update_status (eid org from to : string) : st Txn (option EntryRow) :=
  d ← gets tx_db;
  match db_entries d !! eid with
  | Some e =>
      if String.eqb (er_org e) org && String.eqb (er_status e) from then
        let e' := mkEntryRow (er_org e) (er_date e) (er_desc e) to (er_reverses e) (er_user e)
                    (er_run e) (er_created e) in
        lift (journal_entries_immutability d eid e e') ;;
        tx_map (with_entries <[eid := e']>) ;;
        mret (Some e')
      else mret None
  | None => mret None
  end.

(** [find_in_org]: src/tenancy/OrgScoped.hpp:48-59.  [OrgCrudBase::find_in_org] on journal_entries: src/tenancy/OrgScoped.hpp:48-59. *)
Definition find_in_org (eid org : string) (d : DB) : option JournalEntry :=
  match db_entries d !! eid with
  | Some e => if String.eqb (er_org e) org then Some (entry_from_row eid e) else None
  | None => None
  end.

(** ORDER BY created_at, id. *)
Definition line_le (a b : LineRow) : Prop :=
  lr_created a < lr_created b \/ lr_created a = lr_created b /\ String.leb (lr_id a) (lr_id b) = true.

#[export] Instance line_le_dec : RelDecision line_le.
Proof. intros a b. unfold line_le. apply _. Defined.

(** [JournalRepository::load_lines]: src/ledger/JournalRepository.hpp:74-86. *)
Definition load_lines (eid : string) (d : DB) : list JournalLine :=
  map line_from_row (merge_sort line_le (lines_of d eid)).

(** [AccountRepository::find_visible]: src/ledger/AccountRepository.hpp:92-102. *)
Definition find_visible (org : string) (c : string) (d : DB) : option Account :=
  List.find (fun a => match acc_org_id a with None => true | Some o => String.eqb o org end
                      && String.eqb (code a) c) (db_accounts d).

(** [find_in_org]: src/tenancy/OrgScoped.hpp:48-59.  [CounterpartyRepository::find_in_org], as the existence test the journal uses. *)
Definition counterparty_in_org (c org : string) (d : DB) : bool :=
  match db_counterparties d !! c with Some p => String.eqb (cp_org p) org | None => false end.

End Statements.
End Db.

(** ** A server that satisfies the interface

    The laws of [Postgres] can be met: unary UUIDs, NUMERIC(18,2) text
    through the amount grammar, dates taken verbatim. *)
Module Reference.
Import Amounts.

Fixpoint uuid_text (n : nat) : string :=
  match n with O => "u" | S m => String "u" (uuid_text m) end.

Definition read_numeric (s : string) : option Z :=
  match parse_tiyn s with
  | Ok t => Some t
  | _ =>
      if String.eqb s "0.00" then Some 0
      else match s with
           | String "-" r => match parse_tiyn r with Ok t => Some (- t) | _ => None end
           | _ => None
           end
  end.

Definition write_abs (t : Z) : string := dec (t / 100) +:+ String "." (fmt0 2 (t mod 100)).

Definition write_numeric (t : Z) : string :=
  if t <? 0 then String "-" (write_abs (- t)) else write_abs t.

Definition read_date (s : string) : option string := if String.eqb s "" then None else Some s.

Lemma uuid_text_inj m n : uuid_text m = uuid_text n -> m = n.
Proof.
  assert (forall k, uuid_text k <> "") as Hne by by intros [|k].
  revert n. induction m as [|m IH]; intros [|n] H; simpl in H; try done.
  - injection H as H. by destruct (Hne n).
  - injection H as H. by destruct (Hne m).
  - f_equal. apply IH. by injection H.
Qed.

Lemma parse_range s t : parse_tiyn s = Ok t -> 0 < t < 10 ^ 18 /\ exists c r, s = String c r /\ is_digit c = true.
Proof.
  intros H. destruct (parse_sound s) as [[w Hw] | (ip & fp & Hsh)]; [congruence|].
  rewrite (parse_complete _ _ _ Hsh) in H. pose proof (amount_shape_value _ _ _ Hsh).
  destruct (Z.leb_spec (amount_value ip fp) 0); [discriminate|]. injection H as <-. split; [lia|].
  destruct Hsh as (Hs & Hd & Hsi & _). unfold size in Hsi. destruct ip as [|c ip]; [simpl in Hsi; lia|].
  simpl in Hd. apply andb_true_iff in Hd as [Hc _].
  destruct Hs as [[-> _] | ->]; [by exists c, ip | by eexists c, _].
Qed.

Lemma parse_write t : 0 < t < 10 ^ 18 -> parse_tiyn (write_abs t) = Ok t.
Proof.
  intros H. destruct (format_shape t ltac:(lia)) as [Hsh Hv]. unfold write_abs.
  rewrite (parse_complete _ _ _ Hsh), Hv. by destruct (Z.leb_spec t 0); [lia|].
Qed.

#[refine, export] Instance server : Postgres := {
  gen_random_uuid := uuid_text;
  numeric_in := read_numeric;
  numeric_out := write_numeric;
  date_in := read_date
}.
Proof.
  - exact uuid_text_inj.
  - intros s t H. unfold read_numeric. by rewrite H.
  - intros s t. unfold read_numeric. destruct (parse_tiyn s) as [u|e|] eqn:E.
    { intros [= <-]. apply parse_range in E as [? _]. lia. }
    all: case_match; [intros [= <-]; lia|].
    all: destruct s as [|c r]; [discriminate|]; destruct (ascii_dec c "-") as [->|Hc].
    all: try (destruct (parse_tiyn r) as [u| |] eqn:Er; [|discriminate..]; intros [= <-];
              apply parse_range in Er as [? _]; lia).
    all: destruct c as [[] [] [] [] [] [] [] []]; discriminate || (exfalso; by apply Hc).
  - intros t Ht. unfold write_numeric. destruct (Z.ltb_spec t 0) as [Hn|Hn].
    + unfold read_numeric. destruct (parse_tiyn (String "-" (write_abs (- t)))) as [u| |] eqn:E.
      { apply parse_range in E as (_ & c & r & [= <- <-] & Hc). discriminate. }
      all: simpl; rewrite parse_write by lia; f_equal; lia.
    + destruct (decide (t = 0)) as [->|]; [vm_compute; reflexivity|].
      unfold read_numeric. by rewrite parse_write by lia.
  - intros s d. unfold read_date. destruct (String.eqb_spec s ""); [discriminate|].
    intros [= <-]. by destruct (String.eqb_spec s "").
Defined.

(** Identifiers of the shape of a UUID. *)
Definition id_text (n : nat) : string :=
  if Z.of_nat n <? 10 ^ 12 then "00000000-0000-4000-8000-" +:+ pad0 12 (dec (Z.of_nat n)) else uuid_text n.

Lemma parse_zeros k s : parse_digits 0 (zeros k +:+ s) = parse_digits 0 s.
Proof. induction k; [done | exact IHk]. Qed.

Lemma id_text_inj m n : id_text m = id_text n -> m = n.
Proof.
  unfold id_text. destruct (Z.ltb_spec (Z.of_nat m) (10 ^ 12)), (Z.ltb_spec (Z.of_nat n) (10 ^ 12)); intros E.
  - apply str_app_inj_l in E. apply (f_equal (parse_digits 0)) in E. unfold pad0 in E. rewrite !parse_zeros, !parse_dec in E by lia. lia.
  - by destruct n.
  - by destruct m.
  - by apply uuid_text_inj.
Qed.

Definition uuid_server : Postgres :=
  {| gen_random_uuid := id_text; numeric_in := read_numeric; numeric_out := write_numeric; date_in := read_date;
     uuid_unique := id_text_inj; numeric_in_exact := numeric_in_exact; numeric_in_range := numeric_in_range;
     numeric_roundtrip := numeric_roundtrip; date_canonical := date_canonical |}.

End Reference.
