(* ===== verification/JournalService.v ===== *)
(** * The journal service (src/ledger/JournalService.hpp)

    [create_draft], [post] and [reverse] as programs over the journal tables
    with other sessions committing between any two accesses; the ledger
    invariant, the rely/guarantee relation of committed states, and the
    correctness of the storno. *)
From Stdlib Require Import ZArith Lia Ascii String.
From stdpp Require Import sorting.
From S2P Require Import Prelude Ledger JournalDb.
Open Scope string_scope.
Open Scope Z_scope.

Module Journal.
Import Db.

Section Service.
Context `{PG : Postgres}.

(** ** Operations *)

(** [create_draft]: src/ledger/JournalService.hpp:229-246.  The validation loop of [create_draft]: the totals so far. *)
Fixpoint validate_lines (org : string) (ls : list JournalLine) (dt ct : Z) : st World (Z * Z) :=
  match ls with
  | [] => mret (dt, ct)
  | line :: rest =>
      tiyn ← lift (Amounts.parse_tiyn (amount line));
      totals ← (if String.eqb (side line) "debit" then
                  dt' ← lift (add64 dt tiyn); mret (dt', ct)
                else if String.eqb (side line) "credit" then
                  ct' ← lift (add64 ct tiyn); mret (dt, ct')
                else throw std_invalid_argument
                       ("journal line side must be 'debit' or 'credit', got '" +:+ side line +:+ "'"));
      account ← execute_read (find_visible org (account_code line));
      (if bool_decide (account = None) then
         throw UnknownAccount
           ("account '" +:+ account_code line +:+ "' is not visible to this organization")
       else mret tt) ;;
      (match counterparty_id line with
       | None => mret tt
       | Some c =>
           found ← execute_read (counterparty_in_org c org);
           if (found : bool) then mret tt
           else throw ForeignCounterparty
                  ("counterparty '" +:+ c +:+ "' does not belong to this organization")
       end) ;;
      validate_lines org rest totals.1 totals.2
  end.

(** [create_draft]: src/ledger/JournalService.hpp:264-277.  The insertion loop shared by [create_draft] and [reverse]. *)
Fixpoint insert_lines (org eid : string) (ls : list JournalLine) : st Txn (list JournalLine) :=
  match ls with
  | [] => mret []
  | l :: rest =>
      row ← insert_line org eid (account_code l) (side l) (amount l) (counterparty_id l) (vat_amount l);
      rows ← insert_lines org eid rest;
      mret (row :: rows)
  end.

Definition with_lines_of (e : JournalEntry) (s : string) (ls : list JournalLine) : JournalEntry :=
  mkEntry (id e) (org_id e) (entry_date e) (description e) s (reverses_entry_id e)
    (created_by_user_id e) ls.

(** [create_draft]: src/ledger/JournalService.hpp:220-280. *)
Definition create_draft (org user date desc : string) (ls : list JournalLine) : st World JournalEntry :=
  if (length ls <? 2)%nat then
    throw UnbalancedEntry
      ("a journal entry needs at least 2 lines to balance, got " +:+ to_string (Z.of_nat (length ls)))
  else
    totals ← validate_lines org ls 0 0;
    if negb (totals.1 =? totals.2) then
      throw UnbalancedEntry
        ("entry is unbalanced: debit=" +:+ to_string totals.1 +:+ " tiyn, credit=" +:+
         to_string totals.2 +:+ " tiyn")
    else
      execute_write
        (entry ← insert_entry org date desc None (Some user);
         rows ← insert_lines org (id entry) ls;
         mret (with_lines_of entry (status entry) rows)).

(** [post]: src/ledger/JournalService.hpp:287-310. *)
Definition post (org eid : string) : st World (option JournalEntry) :=
  existing ← execute_read (find_in_org eid org);
  match existing with
  | None => mret None
  | Some e =>
      if negb (String.eqb (status e) "draft") then
        throw InvalidEntryState ("cannot post an entry in status '" +:+ status e +:+ "'")
      else
        updated ← execute_write (update_status eid org "draft" "posted");
        match updated with
        | None => throw InvalidEntryState "entry status changed concurrently — no longer 'draft'"
        | Some row =>
            ls ← execute_read (load_lines eid);
            mret (Some (with_lines_of (entry_from_row eid row) (er_status row) ls))
        end
  end.

(** [reverse]: src/ledger/JournalService.hpp:354-370. *)
Definition mirror (l : JournalLine) : JournalLine :=
  mkLine (line_id l) (line_entry_id l) (account_code l)
    (if String.eqb (side l) "debit" then "credit" else "debit")
    (amount l) (counterparty_id l) (vat_amount l).

(** [reverse]: src/ledger/JournalService.hpp:339-396.  The write transaction of [reverse], its four steps in order. *)
Definition storno_txn (org user : string) (original : JournalEntry) (ls : list JournalLine)
    : st Txn JournalEntry :=
  storno ← insert_entry org (entry_date original) ("Сторно: " +:+ description original)
             (Some (id original)) (Some user);
  rows ← insert_lines org (id storno) (map mirror ls);
  pr ← update_status (id storno) org "draft" "posted";
  match pr with
  | None => throw InvalidEntryState "failed to post the storno entry"
  | Some prow =>
      orr ← update_status (id original) org "posted" "reversed";
      match orr with
      | None => throw InvalidEntryState "failed to mark the original entry reversed"
      | Some _ => mret (with_lines_of storno (er_status prow) rows)
      end
  end.

(** [reverse]: src/ledger/JournalService.hpp:322-397. *)
Definition reverse (org eid user : string) : st World (option JournalEntry) :=
  found ← execute_read (find_in_org eid org);
  match found with
  | None => mret None
  | Some original =>
      if negb (String.eqb (status original) "posted") then
        throw InvalidEntryState ("cannot reverse an entry in status '" +:+ status original +:+ "'")
      else
        ls ← execute_read (load_lines eid);
        storno ← execute_write (storno_txn org user original ls);
        mret (Some storno)
  end.

(** ** The ledger invariant *)

(** A line the CHECK constraints and NUMERIC(18,2) admit. *)
Definition row_valid (r : LineRow) : Prop :=
  0 < lr_amount r < 10 ^ 18 /\ (lr_side r = "debit" \/ lr_side r = "credit") /\
  match lr_vat r with Some v => 0 <= v < 10 ^ 18 | None => True end.

Record ledger_inv (d : DB) : Prop := {
  inv_entry : forall eid e, db_entries d !! eid = Some e ->
    er_status e ∈ ["draft"; "posted"; "reversed"] /\ diff (lines_of d eid) = 0 /\
    (er_status e <> "draft" -> has_lines d eid = true);
  inv_line : forall l, l ∈ db_lines d -> row_valid l /\
    exists e, db_entries d !! lr_entry l = Some e /\ er_org e = lr_org l;
  inv_fresh : forall eid e, db_entries d !! eid = Some e ->
    exists k, (k < db_seq d)%nat /\ eid = gen_random_uuid k;
  inv_org : forall eid e, db_entries d !! eid = Some e -> er_org e ∈ db_orgs d;
  inv_date : forall eid e, db_entries d !! eid = Some e -> date_in (er_date e) = Some (er_date e)
}.

(** What one committed change may do to the books: a posted or reversed entry
    stays, with its organization, date, text, reference and lines; its status
    moves at most from posted to reversed. *)
Definition evolves (d d' : DB) : Prop :=
  forall eid e, db_entries d !! eid = Some e -> er_status e <> "draft" ->
  exists e', db_entries d' !! eid = Some e' /\
    er_org e' = er_org e /\ er_date e' = er_date e /\ er_desc e' = er_desc e /\
    er_reverses e' = er_reverses e /\
    (er_status e' = er_status e \/ er_status e = "posted" /\ er_status e' = "reversed") /\
    lines_of d' eid = lines_of d eid.

(** Other sessions keep the invariant and respect the relation. *)
Definition env_ok : World -> Prop := guarded_env ledger_inv evolves.

#[export] Instance evolves_preorder : PreOrder evolves.
Proof.
  split.
  - intros d eid e H Hs. exists e. repeat split; auto.
  - intros d1 d2 d3 H12 H23 eid e H Hs.
    destruct (H12 eid e H Hs) as (e2 & He2 & Ho & Hd & Ht & Hr & Hst & Hl).
    assert (er_status e2 <> "draft") as Hs2.
    { destruct Hst as [-> | [_ ->]]; [done | discriminate]. }
    destruct (H23 eid e2 He2 Hs2) as (e3 & He3 & Ho3 & Hd3 & Ht3 & Hr3 & Hst3 & Hl3).
    exists e3. repeat split; try congruence.
    destruct Hst as [Hst | [Hst Hst']]; destruct Hst3 as [Hst3 | [Hst3 Hst3']].
    + left. congruence.
    + right. split; congruence.
    + right. split; congruence.
    + congruence.
Qed.

(** ** One statement at a time *)

Lemma filter_entry_app (ls rs : list LineRow) x eid :
  Forall (fun r => lr_entry r = eid) rs ->
  filter (fun l => lr_entry l = x) (ls ++ rs)%list
  = if decide (x = eid) then (filter (fun l => lr_entry l = x) ls ++ rs)%list
    else filter (fun l => lr_entry l = x) ls.
Proof.
  intros H. rewrite filter_app. case_decide as Hx.
  - f_equal. induction H as [|r rs Hr H IH]; [done|]. rewrite filter_cons_True by congruence. by f_equal.
  - rewrite <- (app_nil_r (filter _ ls)) at 2. f_equal.
    induction H as [|r rs Hr H IH]; [done|]. by rewrite filter_cons_False by congruence.
Qed.

Lemma insert_entry_ok org date desc rev user t e t' :
  insert_entry org date desc rev user t = (Ok e, t') ->
  exists day, date_in date = Some day /\ org ∈ db_orgs (tx_db t) /\
    (forall r, rev = Some r -> is_Some (db_entries (tx_db t) !! r)) /\
    let eid := gen_random_uuid (db_seq (tx_db t)) in
    let row := mkEntryRow org day desc "draft" rev user None (db_now (tx_db t)) in
    e = entry_from_row eid row /\
    t' = mkTxn (with_entries <[eid := row]> (next_uuid (tx_db t))) (tx_touched t).
Proof.
  unfold insert_entry. intros H. st_inv H. injection Hs as <- <-.
  destruct (date_in date) as [day|]; [|discriminate].
  destruct (bool_decide (org ∈ db_orgs (tx_db t))) eqn:Ho; [|discriminate].
  apply bool_decide_eq_true_1 in Ho. exists day. split; [done|]. split; [done|].
  destruct (_ && _) eqn:Hc; [|discriminate]. simpl in H. injection H as <- <-. split; [|split; reflexivity].
  intros r ->. apply andb_true_iff in Hc as [Hc _]. by apply bool_decide_eq_true_1 in Hc.
Qed.

(** What an inserted line looks like. *)
Definition row_for (org eid : string) (l : JournalLine) (r : LineRow) : Prop :=
  lr_entry r = eid /\ lr_org r = org /\ lr_account r = account_code l /\ lr_side r = side l /\
  numeric_in (amount l) = Some (lr_amount r) /\ lr_cp r = counterparty_id l /\
  numeric_in <$> vat_amount l = Some <$> lr_vat r /\ row_valid r.

Lemma insert_line_ok org eid l t row t' :
  insert_line org eid (account_code l) (side l) (amount l) (counterparty_id l) (vat_amount l) t
    = (Ok row, t') ->
  exists r, row_for org eid l r /\ row = line_from_row r /\
    (exists e, db_entries (tx_db t) !! eid = Some e /\ er_org e = org /\ er_status e = "draft") /\
    t' = mkTxn (with_lines (fun ls => (ls ++ [r])%list) (next_uuid (tx_db t))) (eid :: tx_touched t).
Proof.
  unfold insert_line. intros H. st_inv H. injection Hs as <- <-. st_inv H.
  unfold lift in Hs. injection Hs as Hf <-. unfold journal_lines_frozen_after_post in Hf.
  destruct (numeric_in (amount l)) as [amt|] eqn:Hamt; [|discriminate].
  destruct (match vat_amount l with Some v => Some <$> numeric_in v | None => Some None end) as [v|] eqn:Hv;
    [|discriminate].
  destruct (String.eqb (side l) "debit" || String.eqb (side l) "credit") eqn:Hsd; [|discriminate].
  destruct (Z.ltb_spec 0 amt); [|discriminate]. simpl in H.
  destruct (match v with Some x => 0 <=? x | None => true end) eqn:Hvn; [|discriminate]. simpl in H.
  destruct (db_entries (tx_db t) !! eid) as [e|] eqn:He; [|discriminate].
  destruct (String.eqb_spec (er_org e) org) as [Ho|]; [|discriminate]. simpl in H.
  destruct (match counterparty_id l with
            | Some c => bool_decide (is_Some (db_counterparties (tx_db t) !! c)) | None => true end);
    [|discriminate]. simpl in H. injection H as <- <-.
  eexists. split; [|split; [reflexivity|split; [|reflexivity]]].
  - unfold row_for, row_valid. simpl. pose proof (numeric_in_range _ _ Hamt).
    apply orb_true_iff in Hsd. rewrite !String.eqb_eq in Hsd.
    destruct (vat_amount l) as [x|]; simpl in *; [|simplify_eq; repeat split; auto; lia].
    destruct (numeric_in x) as [y|] eqn:Hy; [|discriminate]. simpl in Hv. simplify_eq.
    pose proof (numeric_in_range _ _ Hy). repeat split; auto; lia.
  - exists e. destruct (String.eqb_spec (er_status e) "draft"); [done|discriminate].
Qed.

Lemma insert_lines_ok org eid ls : forall t rows t',
  insert_lines org eid ls t = (Ok rows, t') ->
  exists rs, Forall2 (row_for org eid) ls rs /\ rows = map line_from_row rs /\
    db_entries (tx_db t') = db_entries (tx_db t) /\ db_orgs (tx_db t') = db_orgs (tx_db t) /\
    db_lines (tx_db t') = (db_lines (tx_db t) ++ rs)%list /\
    (db_seq (tx_db t) <= db_seq (tx_db t'))%nat /\
    (ls <> [] -> eid ∈ tx_touched t') /\ (forall x, x ∈ tx_touched t -> x ∈ tx_touched t') /\
    (forall x, x ∈ tx_touched t' -> x = eid \/ x ∈ tx_touched t).
Proof.
  induction ls as [|l ls IH]; intros t rows t' H; simpl in H.
  - injection H as <- <-. exists []. repeat split; try done; try lia; [by rewrite app_nil_r | by right].
  - st_inv H. st_inv H. injection H as <- <-.
    apply insert_line_ok in Hs as (r & Hr & -> & _ & ->).
    apply IH in Hs0 as (rs & Hrs & -> & He & Ho & Hl & Hq & Ht & Hm & Hb). simpl in *.
    exists (r :: rs). split; [by constructor|]. split; [done|]. split; [done|]. split; [done|].
    split; [by rewrite Hl, <- app_assoc|]. split; [lia|].
    split; [intros _; apply Hm; by left|]. split; [intros x Hx; apply Hm; by right|].
    intros x Hx. destruct (Hb x Hx) as [|Hx']; [by left|]. apply elem_of_cons in Hx' as [|]; auto.
Qed.

Definition set_status (e : EntryRow) (s : string) : EntryRow :=
  mkEntryRow (er_org e) (er_date e) (er_desc e) s (er_reverses e) (er_user e) (er_run e) (er_created e).

Lemma update_status_ok eid org from to t r t' :
  update_status eid org from to t = (Ok r, t') ->
  (r = None /\ t' = t) \/
  exists e, db_entries (tx_db t) !! eid = Some e /\ er_org e = org /\ er_status e = from /\
    journal_entries_immutability (tx_db t) eid e (set_status e to) = Ok tt /\
    r = Some (set_status e to) /\
    t' = mkTxn (with_entries <[eid := set_status e to]> (tx_db t)) (tx_touched t).
Proof.
  unfold update_status. intros H. st_inv H. injection Hs as <- <-.
  destruct (db_entries (tx_db t) !! eid) as [e|] eqn:He; [|injection H as <- <-; by left].
  destruct (String.eqb_spec (er_org e) org) as [Ho|]; [|injection H as <- <-; by left].
  destruct (String.eqb_spec (er_status e) from) as [Hst|]; [|injection H as <- <-; by left].
  simpl in H. st_inv H. unfold lift in Hs. injection Hs as Hi <-. destruct a.
  injection H as <- <-. right. by exists e.
Qed.

(** The trigger lets a draft become posted only with lines. *)
Lemma immutability_post d eid e :
  er_org e ∈ db_orgs d -> er_status e = "draft" ->
  journal_entries_immutability d eid e (set_status e "posted") = Ok tt -> has_lines d eid = true.
Proof.
  intros Ho Hs. unfold journal_entries_immutability. rewrite bool_decide_eq_true_2 by done. cbn [negb].
  case_match eqn:Hc.
  { apply andb_true_iff in Hc as [[[H1%bool_decide_eq_true_1 H2%bool_decide_eq_true_1]%andb_true_iff _]%andb_true_iff _].
    simpl in H2. rewrite H2 in H1. by destruct H1. }
  rewrite Hs. simpl. by destruct (has_lines d eid).
Qed.

(** ** Preservation lemmas *)

Lemma fresh_no_lines d eid : ledger_inv d -> db_entries d !! eid = None -> lines_of d eid = [].
Proof.
  intros Hi He. unfold lines_of. apply elem_of_nil_inv. intros l.
  rewrite list_elem_of_filter. intros [<- Hl].
  destruct (inv_line d Hi l Hl) as (_ & e & He' & _). congruence.
Qed.

Lemma fresh_uuid d : ledger_inv d -> db_entries d !! gen_random_uuid (db_seq d) = None.
Proof.
  intros Hi. destruct (db_entries d !! _) as [e|] eqn:He; [|done].
  destruct (inv_fresh d Hi _ _ He) as (k & Hk & Heq). apply uuid_unique in Heq. lia.
Qed.

(** A new entry with its lines keeps the books. *)
Lemma new_entry_ok d d' eid row rs :
  ledger_inv d -> eid = gen_random_uuid (db_seq d) ->
  db_entries d' = <[eid := row]> (db_entries d) -> db_lines d' = (db_lines d ++ rs)%list ->
  db_orgs d' = db_orgs d -> (db_seq d < db_seq d')%nat ->
  er_org row ∈ db_orgs d -> er_status row = "draft" ->
  date_in (er_date row) = Some (er_date row) ->
  Forall (fun r => lr_entry r = eid /\ lr_org r = er_org row /\ row_valid r) rs ->
  diff rs = 0 ->
  ledger_inv d' /\ evolves d d' /\ lines_of d' eid = rs.
Proof.
  intros Hi -> He Hl Ho Hq Hro Hrs Hdate Hrows Hd. pose proof (fresh_uuid d Hi) as Hfr.
  set (eid := gen_random_uuid (db_seq d)) in *.
  assert (Hent : Forall (fun r => lr_entry r = eid) rs) by (eapply Forall_impl; [exact Hrows | by intros ? (? & _)]).
  assert (Hlo : forall x, lines_of d' x = if decide (x = eid) then rs else lines_of d x).
  { intros x. unfold lines_of. rewrite Hl, (filter_entry_app _ _ x eid Hent). case_decide; [|done].
    subst x. pose proof (fresh_no_lines d eid Hi Hfr) as Hn. unfold lines_of in Hn. by rewrite Hn. }
  split; [|split].
  - split.
    + intros x e. rewrite He, Hlo. unfold has_lines. rewrite Hlo. intros Hx.
      case_decide as Hxe.
      * subst x. rewrite lookup_insert_eq in Hx. injection Hx as <-. rewrite Hrs.
        split; [rewrite elem_of_cons; by left|]. split; [done|]. done.
      * rewrite lookup_insert_ne in Hx by done. exact (inv_entry d Hi x e Hx).
    + intros l. rewrite Hl, elem_of_app. intros [Hin|Hin].
      * destruct (inv_line d Hi l Hin) as (H1 & e & He2 & H3). split; [done|].
        exists e. rewrite He, lookup_insert_ne by congruence. done.
      * rewrite Forall_forall in Hrows. destruct (Hrows l Hin) as (H1 & H2 & H3).
        split; [done|]. exists row. rewrite He, H1, lookup_insert_eq. done.
    + intros x e. rewrite He. destruct (decide (x = eid)) as [->|Hx].
      * intros _. exists (db_seq d). done.
      * rewrite lookup_insert_ne by done. intros Hxe. destruct (inv_fresh d Hi x e Hxe) as (k & Hk & ->).
        exists k. split; [lia | done].
    + intros x e. rewrite He, Ho. destruct (decide (x = eid)) as [->|Hx].
      * rewrite lookup_insert_eq. intros [= <-]. done.
      * rewrite lookup_insert_ne by done. apply (inv_org d Hi).
    + intros x e. rewrite He. destruct (decide (x = eid)) as [->|Hx].
      * rewrite lookup_insert_eq. intros [= <-]. done.
      * rewrite lookup_insert_ne by done. apply (inv_date d Hi).
  - intros x e Hx Hs. exists e. rewrite He, lookup_insert_ne by congruence.
    rewrite Hlo. rewrite decide_False by congruence. repeat split; auto.
  - rewrite Hlo. by rewrite decide_True.
Qed.

(** A legal status change keeps the books. *)
Lemma status_change_ok d eid e to :
  ledger_inv d -> db_entries d !! eid = Some e ->
  (er_status e = "draft" /\ to = "posted" /\ has_lines d eid = true \/
   er_status e = "posted" /\ to = "reversed") ->
  let d' := with_entries <[eid := set_status e to]> d in
  ledger_inv d' /\ evolves d d'.
Proof.
  intros Hi He Hc d'.
  assert (Hlo : forall x, lines_of d' x = lines_of d x) by done.
  destruct (inv_entry d Hi eid e He) as (Hst & Hbal & Hhas). split.
  - split.
    + intros x f. unfold d'. simpl. destruct (decide (x = eid)) as [->|Hx].
      * rewrite lookup_insert_eq. intros [= <-]. simpl. rewrite Hlo. split.
        { destruct Hc as [(_ & -> & _)|(_ & ->)]; rewrite !elem_of_cons; auto. }
        split; [done|]. intros _. destruct Hc as [(_ & _ & H)|(Hp & _)]; [exact H|].
        apply Hhas. rewrite Hp. discriminate.
      * rewrite lookup_insert_ne by done. apply (inv_entry d Hi).
    + intros l Hl. destruct (inv_line d Hi l Hl) as (H1 & f & Hf & H3).
      split; [done|]. unfold d'. simpl. destruct (decide (lr_entry l = eid)) as [Hx|Hx].
      * exists (set_status e to). rewrite Hx, lookup_insert_eq. split; [done|]. simpl. congruence.
      * exists f. by rewrite lookup_insert_ne.
    + intros x f. unfold d'. simpl. destruct (decide (x = eid)) as [->|Hx].
      * intros _. exact (inv_fresh d Hi eid e He).
      * rewrite lookup_insert_ne by done. apply (inv_fresh d Hi).
    + intros x f. unfold d'. simpl. destruct (decide (x = eid)) as [->|Hx].
      * rewrite lookup_insert_eq. intros [= <-]. exact (inv_org d Hi eid e He).
      * rewrite lookup_insert_ne by done. apply (inv_org d Hi).
    + intros x f. unfold d'. simpl. destruct (decide (x = eid)) as [->|Hx].
      * rewrite lookup_insert_eq. intros [= <-]. exact (inv_date d Hi eid e He).
      * rewrite lookup_insert_ne by done. apply (inv_date d Hi).
  - intros x f Hx Hs. destruct (decide (x = eid)) as [->|Hne].
    + exists (set_status e to). unfold d'. simpl. rewrite lookup_insert_eq. simplify_eq.
      repeat split; auto. right. destruct Hc as [(Hp & _)|(Hp & ->)]; [congruence | done].
    + exists f. unfold d'. simpl. rewrite lookup_insert_ne by done. repeat split; auto.
Qed.

Lemma tick_inv d : ledger_inv d <-> ledger_inv (tick d).
Proof. split; intros [H1 H2 H3 H4 H5]; split; auto. Qed.

(** ** Database accesses of a service call *)

(** What any access may find afterwards. *)
Definition keeps : World -> World -> Prop := guarded ledger_inv evolves.
Definition safe {A} : st World A -> Prop := guards ledger_inv evolves.

Lemma next_keeps w : ledger_inv (w_db w) -> env_ok w -> keeps w (next w).
Proof. apply next_guarded, _. Qed.

Lemma keeps_trans w1 w2 w3 : keeps w1 w2 -> keeps w2 w3 -> keeps w1 w3.
Proof. apply guarded_trans, _. Qed.

Lemma safe_ret {A} (a : A) : safe (mret a).
Proof. apply guards_ret, _. Qed.

Lemma safe_lift {A} (m : outcome A) : safe (lift m).
Proof. apply guards_lift, _. Qed.

Lemma safe_throw {A} c w : safe (throw c w : st World A).
Proof. apply guards_throw, _. Qed.

Lemma safe_bind {A B} (m : st World A) (f : A -> st World B) : safe m -> (forall a, safe (f a)) -> safe (m ≫= f).
Proof. apply guards_bind, _. Qed.

Lemma safe_read {A} (q : DB -> A) : safe (execute_read q).
Proof. apply guards_read, _. Qed.

(** A transaction is safe when what it commits is. *)
Lemma safe_write {A} (body : st Txn A) :
  (forall d a t, ledger_inv d -> body (mkTxn d []) = (Ok a, t) ->
     Forall (fun x => journal_entry_must_balance (tx_db t) x = true) (tx_touched t) ->
     ledger_inv (tx_db t) /\ evolves d (tx_db t)) ->
  safe (execute_write body).
Proof.
  intros Hb w Hi He. apply write_guarded; [exact _ | done | done|]. intros a t (Hn & _) Ht Hbal.
  exact (Hb _ _ _ (proj1 (tick_inv _) Hn) Ht Hbal).
Qed.

Create HintDb safety discriminated.
#[local] Hint Resolve safe_ret safe_lift safe_throw safe_bind safe_read safe_write : safety.

Lemma rows_ok org eid ls rs :
  Forall2 (row_for org eid) ls rs ->
  Forall (fun r => lr_entry r = eid /\ lr_org r = org /\ row_valid r) rs.
Proof. induction 1 as [|l r ls rs Hr _ IH]; constructor; [|done]. unfold row_for in Hr. tauto. Qed.

(** Header and lines of a new entry, inserted in one transaction. *)
Lemma insert_both_ok d org date desc rev user ls e rows t :
  ledger_inv d ->
  (entry ← insert_entry org date desc rev user;
   rs ← insert_lines org (id entry) ls;
   mret (entry, rs)) (mkTxn d []) = (Ok (e, rows), t) ->
  exists day rs, date_in date = Some day /\
    let eid := gen_random_uuid (db_seq d) in
    let row := mkEntryRow org day desc "draft" rev user None (db_now d) in
    e = entry_from_row eid row /\ rows = map line_from_row rs /\ Forall2 (row_for org eid) ls rs /\
    db_entries (tx_db t) = <[eid := row]> (db_entries d) /\
    (ls <> [] -> eid ∈ tx_touched t) /\ lines_of (tx_db t) eid = rs /\
    db_orgs (tx_db t) = db_orgs d /\ org ∈ db_orgs d /\
    (forall r, rev = Some r -> is_Some (db_entries d !! r)) /\
    (forall x, x <> eid -> lines_of (tx_db t) x = lines_of d x) /\
    (diff rs = 0 -> ledger_inv (tx_db t) /\ evolves d (tx_db t)).
Proof.
  intros Hi H. st_inv H. st_inv H. injection H as <- <- <-. rename s0 into t.
  apply insert_entry_ok in Hs as (day & Hday & Hor & Href & He & ->). simpl in *. subst.
  apply insert_lines_ok in Hs0 as (rs & Hrs & -> & Hen & Ho & Hl & Hq & Ht & _ & _). simpl in *.
  pose proof (fresh_uuid d Hi) as Hfr.
  assert (Hlo : lines_of (tx_db t) (gen_random_uuid (db_seq d)) = rs).
  { unfold lines_of. rewrite Hl, (filter_entry_app _ _ _ (gen_random_uuid (db_seq d)))
      by (eapply Forall_impl; [exact (rows_ok _ _ _ _ Hrs) | by intros ? (? & _)]).
    rewrite decide_True by done. pose proof (fresh_no_lines d _ Hi Hfr) as Hn. unfold lines_of in Hn.
    by rewrite Hn. }
  exists day, rs. repeat (split; [done|]). split.
  { intros x Hx. unfold lines_of. rewrite Hl, (filter_entry_app _ _ _ (gen_random_uuid (db_seq d)))
      by (eapply Forall_impl; [exact (rows_ok _ _ _ _ Hrs) | by intros ? (? & _)]).
    by rewrite decide_False. }
  intros Hd. edestruct (new_entry_ok d (tx_db t) (gen_random_uuid (db_seq d)) _ rs Hi eq_refl Hen Hl Ho)
    as (H1 & H2 & _); [lia | done | done | exact (date_canonical _ _ Hday) | exact (rows_ok _ _ _ _ Hrs) | done |].
  by split.
Qed.

Lemma create_txn_ok d org user date desc ls e t :
  ledger_inv d ->
  (entry ← insert_entry org date desc None (Some user);
   rows ← insert_lines org (id entry) ls;
   mret (with_lines_of entry (status entry) rows)) (mkTxn d []) = (Ok e, t) ->
  exists day rs, date_in date = Some day /\
    let eid := gen_random_uuid (db_seq d) in
    let row := mkEntryRow org day desc "draft" None (Some user) None (db_now d) in
    e = with_lines_of (entry_from_row eid row) "draft" (map line_from_row rs) /\
    Forall2 (row_for org eid) ls rs /\
    db_entries (tx_db t) = <[eid := row]> (db_entries d) /\
    (ls <> [] -> eid ∈ tx_touched t) /\ lines_of (tx_db t) eid = rs /\
    (diff rs = 0 -> ledger_inv (tx_db t) /\ evolves d (tx_db t)).
Proof.
  intros Hi H. st_inv H. st_inv H. injection H as <- <-.
  edestruct (insert_both_ok d org date desc None (Some user) ls a a0 s0 Hi) as
    (day & rs & Hday & -> & -> & Hrs & He & Ht & Hl & _ & _ & _ & _ & Hk).
  { rewrite (st_bind_ok _ _ _ _ _ Hs). by rewrite (st_bind_ok _ _ _ _ _ Hs0). }
  exists day, rs. repeat (split; [done|]). done.
Qed.

Lemma balance_zero d x : journal_entry_must_balance d x = true -> diff (lines_of d x) = 0.
Proof. unfold journal_entry_must_balance. lia. Qed.

(** The committed lines of a transaction that inserted them balance. *)
Lemma touched_balance (ls : list JournalLine) org eid rs t :
  Forall2 (row_for org eid) ls rs -> lines_of (tx_db t) eid = rs ->
  (ls <> [] -> eid ∈ tx_touched t) ->
  Forall (fun x => journal_entry_must_balance (tx_db t) x = true) (tx_touched t) -> diff rs = 0.
Proof.
  intros Hrs Hl Ht Hb. destruct ls as [|l ls].
  - inversion Hrs. done.
  - rewrite Forall_forall in Hb. rewrite <- Hl. apply balance_zero, Hb, Ht. done.
Qed.

Lemma validate_lines_safe org ls : forall dt ct, safe (validate_lines org ls dt ct).
Proof.
  induction ls as [|l ls IH]; intros dt ct; simpl; [auto with safety|].
  apply safe_bind; [auto with safety|]. intros tiyn. apply safe_bind.
  { case_match; [|case_match]; auto 6 with safety. }
  intros totals. apply safe_bind; [auto with safety|]. intros acc.
  apply safe_bind; [case_match; auto with safety|]. intros _.
  apply safe_bind; [|intros _; apply IH].
  case_match; [|auto with safety]. apply safe_bind; [auto with safety|]. intros b. case_match; auto with safety.
Qed.

Lemma create_draft_safe org user date desc ls : safe (create_draft org user date desc ls).
Proof.
  unfold create_draft. case_match; [auto with safety|].
  apply safe_bind; [apply validate_lines_safe|]. intros [dt ct]. case_match; [auto with safety|].
  apply safe_write. intros d e t Hi Hx Hb.
  apply create_txn_ok in Hx as (day & rs & _ & _ & Hrs & _ & Ht & Hl & Hk); [|done].
  apply Hk. by eapply touched_balance.
Qed.

(** A successful status change inside a transaction. *)
Lemma update_status_keeps eid org from to t r t' :
  ledger_inv (tx_db t) -> (from = "draft" /\ to = "posted" \/ from = "posted" /\ to = "reversed") ->
  update_status eid org from to t = (Ok r, t') ->
  ledger_inv (tx_db t') /\ evolves (tx_db t) (tx_db t').
Proof.
  intros Hi Hft H. apply update_status_ok in H as [[-> ->] | (e & He & Ho & Hs & Him & -> & ->)].
  { split; [done | reflexivity]. }
  apply status_change_ok; [done..|]. destruct Hft as [[-> ->] | [-> ->]]; [left | by right].
  split; [done|]. split; [done|]. eapply immutability_post; [|done..]. exact (inv_org _ Hi _ _ He).
Qed.

Lemma post_safe org eid : safe (post org eid).
Proof.
  unfold post. apply safe_bind; [auto with safety|]. intros [e|]; [|auto with safety].
  case_match; [auto with safety|]. apply safe_bind.
  - apply safe_write. intros d r t Hi Hx _. eapply (update_status_keeps eid org "draft" "posted" (mkTxn d [])); [done | by left | exact Hx].
  - intros [row|]; [|auto with safety]. apply safe_bind; auto with safety.
Qed.

(** The committed effect of the storno transaction. *)
Lemma storno_txn_ok d org user o ls e t :
  ledger_inv d -> storno_txn org user o ls (mkTxn d []) = (Ok e, t) ->
  Forall (fun x => journal_entry_must_balance (tx_db t) x = true) (tx_touched t) ->
  exists day rs oe, date_in (entry_date o) = Some day /\
    let sid := gen_random_uuid (db_seq d) in
    let row := mkEntryRow org day ("Сторно: " +:+ description o) "draft" (Some (id o)) (Some user)
                 None (db_now d) in
    Forall2 (row_for org sid) (map mirror ls) rs /\
    db_entries d !! id o = Some oe /\ er_org oe = org /\ er_status oe = "posted" /\ sid <> id o /\
    e = with_lines_of (entry_from_row sid row) "posted" (map line_from_row rs) /\
    db_entries (tx_db t) =
      <[id o := set_status oe "reversed"]> (<[sid := set_status row "posted"]> (db_entries d)) /\
    lines_of (tx_db t) sid = rs /\ (forall x, x <> sid -> lines_of (tx_db t) x = lines_of d x) /\
    ledger_inv (tx_db t) /\ evolves d (tx_db t).
Proof.
  intros Hi H Hb. unfold storno_txn in H. st_inv H. st_inv H. st_inv H.
  destruct a1 as [prow|]; [|discriminate]. st_inv H. destruct a1 as [orow|]; [|discriminate].
  injection H as <- <-.
  edestruct (insert_both_ok d org (entry_date o) ("Сторно: " +:+ description o) (Some (id o))
               (Some user) (map mirror ls) a a0 s0 Hi) as
    (day & rs & Hday & -> & -> & Hrs & He & Ht & Hl & Ho & Hor & Href & Hlo & Hk).
  { rewrite (st_bind_ok _ _ _ _ _ Hs). by rewrite (st_bind_ok _ _ _ _ _ Hs0). }
  pose proof (fresh_uuid d Hi) as Hfr. set (sid := gen_random_uuid (db_seq d)) in *.
  assert (sid <> id o) as Hne. { intros Hx. destruct (Href _ eq_refl) as [? Hy]. congruence. }
  simpl in Hs1.
  pose proof Hs1 as Hs1'. apply update_status_ok in Hs1' as [[? _] | (f & Hf & _ & _ & _ & Hr & Hs1t)]; [done|].
  pose proof Hs2 as Hs2'. apply update_status_ok in Hs2' as [[? _] | (oe & Hoe & Hoo & Hos & _ & _ & Hs2t)]; [done|].
  rewrite He, lookup_insert_eq in Hf. injection Hf as <-. injection Hr as ->.
  rewrite Hs1t in Hoe. simpl in Hoe. rewrite lookup_insert_ne, He, lookup_insert_ne in Hoe by done.
  assert (Hd : diff rs = 0).
  { eapply (touched_balance (map mirror ls) org sid rs s2); [exact Hrs | | | exact Hb];
      subst s2; simpl; subst s1; simpl; done. }
  destruct (Hk Hd) as [Hi0 Hv0].
  destruct (update_status_keeps _ _ _ _ _ _ _ Hi0 (or_introl (conj eq_refl eq_refl)) Hs1) as [Hi1 Hv1].
  destruct (update_status_keeps _ _ _ _ _ _ _ Hi1 (or_intror (conj eq_refl eq_refl)) Hs2) as [Hi2 Hv2].
  exists day, rs, oe. repeat (split; [done|]). split; [by subst s2; simpl; subst s1; simpl; rewrite He, insert_insert_eq|].
  split; [by subst s2 s1|]. split; [by subst s2 s1|]. split; [done|].
  etransitivity; [exact Hv0|]. etransitivity; [exact Hv1 | exact Hv2].
Qed.

Lemma reverse_safe org eid user : safe (reverse org eid user).
Proof.
  unfold reverse. apply safe_bind; [auto with safety|]. intros [o|]; [|auto with safety].
  case_match; [auto with safety|]. apply safe_bind; [auto with safety|]. intros ls.
  apply safe_bind; [|auto with safety]. apply safe_write. intros d e t Hi Hx Hb.
  apply storno_txn_ok in Hx as (day & rs & oe & Hall); [|done..]. cbv zeta in Hall. tauto.
Qed.

(** ** What a storno undoes *)

(** The same account, counterparty and amounts on the other side. *)
Definition mirrors (r r' : LineRow) : Prop :=
  lr_account r' = lr_account r /\
  lr_side r' = (if String.eqb (lr_side r) "debit" then "credit" else "debit") /\
  lr_amount r' = lr_amount r /\ lr_cp r' = lr_cp r /\ lr_vat r' = lr_vat r.

(** The turnover of an account in a list of lines, debit positive. *)
Definition net (a : string) (ls : list LineRow) : Z :=
  zsum (map signed (filter (fun l => lr_account l = a) ls)).

Lemma row_for_mirror org eid r r' :
  row_valid r -> row_for org eid (mirror (line_from_row r)) r' -> mirrors r r'.
Proof.
  intros (Ha & Hs & Hv) (_ & _ & Hac & Hsd & Ham & Hcp & Hvat & _). simpl in *.
  rewrite numeric_roundtrip in Ham by lia. injection Ham as Ham.
  unfold mirrors. repeat split; try done. destruct (lr_vat r) as [v|], (lr_vat r') as [v'|]; simpl in Hvat; try done.
  rewrite numeric_roundtrip in Hvat by lia. congruence.
Qed.

Lemma net_perm a p q : p ≡ₚ q -> net a p = net a q.
Proof. intros H. unfold net. apply zsum_perm. by rewrite H. Qed.

Lemma mirrors_net a p q : Forall2 mirrors p q -> net a p + net a q = 0.
Proof.
  unfold net. induction 1 as [|r r' p q (Ha & Hs & Hm & _) _ IH]; [done|].
  rewrite !filter_cons, Ha. case_decide; [|done]. simpl.
  unfold signed at 1 3. rewrite Hs, Hm. destruct (String.eqb_spec (lr_side r) "debit"); simpl; lia.
Qed.

Lemma load_lines_spec org eid sid d rs :
  ledger_inv d -> Forall2 (row_for org sid) (map mirror (load_lines eid d)) rs ->
  exists p, p ≡ₚ lines_of d eid /\ Forall2 mirrors p rs.
Proof.
  intros Hi H. unfold load_lines in H. set (p := merge_sort line_le (lines_of d eid)) in *.
  assert (Hp : p ≡ₚ lines_of d eid) by apply merge_sort_Permutation.
  exists p. split; [done|].
  assert (Hv : Forall row_valid p).
  { rewrite Hp. apply Forall_forall. intros l Hl. apply list_elem_of_filter in Hl as [_ Hl].
    exact (proj1 (inv_line d Hi l Hl)). }
  clearbody p. clear Hp. rewrite map_map in H. revert rs H.
  induction Hv as [|r p Hr _ IH]; intros rs H; inversion H; subst; constructor; [|by apply IH].
  by eapply row_for_mirror.
Qed.

(** ** What an accepted draft is *)

Definition signed_amount (l : JournalLine) (t : Z) : Z := if String.eqb (side l) "debit" then t else - t.

Definition line_ok (l : JournalLine) (t : Z) : Prop :=
  Amounts.parse_tiyn (amount l) = Ok t /\ (side l = "debit" \/ side l = "credit").

(** The validation loop only reads, and its totals are the sums of the parsed
    amounts. *)
Lemma validate_lines_ok org ls : forall dt ct w tot w',
  validate_lines org ls dt ct w = (Ok tot, w') ->
  exists ts, Forall2 line_ok ls ts /\
    tot.1 - tot.2 = dt - ct + zsum (zip_with signed_amount ls ts).
Proof.
  induction ls as [|l ls IH]; intros dt ct w tot w' H; simpl in H.
  - injection H as <- <-. exists []. split; [constructor|]. simpl. lia.
  - st_inv H. unfold lift in Hs. injection Hs as Hp <-. st_inv H. st_inv H. st_inv H. st_inv H.
    apply IH in H as (ts & Hts & Htot). exists (a :: ts). clear Hs0 Hs1 Hs2 IH.
    assert ((side l = "debit" \/ side l = "credit") /\ a0.1 - a0.2 = dt - ct + signed_amount l a) as [Hsd Ha].
    { unfold signed_amount. destruct (String.eqb_spec (side l) "debit") as [Hd|Hd].
      - st_inv Hs. unfold lift in Hs0. injection Hs0 as Hx <-. apply i64_inv in Hx as [-> _].
        injection Hs as <- <-. simpl. split; [by left | lia].
      - destruct (String.eqb_spec (side l) "credit") as [Hc|Hc]; [|discriminate].
        st_inv Hs. unfold lift in Hs0. injection Hs0 as Hx <-. apply i64_inv in Hx as [-> _].
        injection Hs as <- <-. simpl. split; [by right | lia]. }
    split; [by constructor|]. simpl. lia.
Qed.

Lemma rows_signed org eid ls ts rs :
  Forall2 line_ok ls ts -> Forall2 (row_for org eid) ls rs ->
  map lr_amount rs = ts /\ diff rs = zsum (zip_with signed_amount ls ts).
Proof.
  intros H. revert rs. induction H as [|l t ls ts [Hp Hs] _ IH]; intros rs Hr; inversion Hr; subst; [done|].
  destruct (IH _ ltac:(eassumption)) as [Hm Hd]. match goal with H : row_for _ _ _ _ |- _ => destruct H as (_ & _ & _ & Hsd & Ham & _) end.
  rewrite (numeric_in_exact _ _ Hp) in Ham. injection Ham as ->.
  unfold diff in *. simpl. rewrite Hm, Hd. split; [done|]. unfold signed, signed_amount. by rewrite Hsd.
Qed.

(** The acceptance conditions of one line against a database. *)
Definition acceptable (org : string) (d : DB) (l : JournalLine) (t : Z) : Prop :=
  line_ok l t /\ find_visible org (account_code l) d <> None /\
  (forall c, counterparty_id l = Some c -> counterparty_in_org c org d = true) /\
  (forall v, vat_amount l = Some v -> exists x, numeric_in v = Some x /\ 0 <= x).

Lemma line_ok_pos l t : line_ok l t -> 0 < t.
Proof.
  intros [H _]. destruct (Amounts.parse_sound (amount l)) as [[w Hw] | (ip & fp & Hs)]; [congruence|].
  rewrite (Amounts.parse_complete _ _ _ Hs) in H. pose proof (Amounts.amount_shape_value _ _ _ Hs).
  destruct (Z.leb_spec (Amounts.amount_value ip fp) 0); [discriminate|]. injection H as <-. lia.
Qed.

(** One turn of the loop without other sessions and within [long long]. *)
Lemma validate_step org d l t ls dt ct :
  acceptable org d l t -> 0 <= dt -> 0 <= ct -> dt + ct + t <= I64_MAX ->
  validate_lines org (l :: ls) dt ct (mkWorld d [])
  = validate_lines org ls (dt + if String.eqb (side l) "debit" then t else 0)
      (ct + if String.eqb (side l) "debit" then 0 else t) (mkWorld d []).
Proof.
  intros (Hok & Hac & Hcp & _) Hdt Hct Hb. pose proof (line_ok_pos _ _ Hok) as Hpos. destruct Hok as [Hp Hs].
  assert (Hadd : forall x, 0 <= x -> x + t <= I64_MAX -> add64 x t = Ok (x + t)).
  { intros x ? ?. apply add64_ok. unfold I64_MIN, I64_MAX in *. lia. }
  cbn [validate_lines]. rewrite (st_bind_ok _ _ _ t (mkWorld d [])) by (unfold lift; by rewrite Hp).
  rewrite (st_bind_ok _ _ _ (dt + (if String.eqb (side l) "debit" then t else 0),
                             ct + if String.eqb (side l) "debit" then 0 else t) (mkWorld d [])).
  2: { destruct Hs as [-> | ->]; cbn [String.eqb Ascii.eqb Bool.eqb];
         rewrite st_bind_case; unfold lift; rewrite Hadd, Z.add_0_r by lia; reflexivity. }
  rewrite (st_bind_ok _ _ _ _ _ (execute_read_eq _ _)), bool_decide_eq_false_2 by done.
  rewrite (st_bind_ok _ _ _ tt (mkWorld d [])) by reflexivity.
  rewrite (st_bind_ok _ _ _ tt (mkWorld d [])); [reflexivity|].
  destruct (counterparty_id l) as [c|]; [|done].
  rewrite (st_bind_ok _ _ _ _ _ (execute_read_eq _ _)). cbn. by rewrite (Hcp c eq_refl).
Qed.

Lemma acceptable_sum org d ls ts : Forall2 (acceptable org d) ls ts -> 0 <= zsum ts.
Proof.
  intros H. apply zsum_nonneg. induction H as [|? ? ? ? (Hk & _)]; constructor; [|done].
  apply line_ok_pos in Hk. lia.
Qed.

Lemma validate_lines_accepts org d ls ts :
  Forall2 (acceptable org d) ls ts -> forall dt ct, 0 <= dt -> 0 <= ct -> dt + ct + zsum ts <= I64_MAX ->
  exists tot, validate_lines org ls dt ct (mkWorld d []) = (Ok tot, mkWorld d []).
Proof.
  induction 1 as [|l t ls ts Hl Hts IH]; intros dt ct Hdt Hct Hb; [by eexists|].
  pose proof (acceptable_sum _ _ _ _ Hts). pose proof (line_ok_pos _ _ (proj1 Hl)).
  change (zsum (t :: ts)) with (t + zsum ts) in Hb.
  rewrite (validate_step _ _ _ t) by (done || lia). apply IH; case_match; lia.
Qed.

Lemma validate_debits org d ls ts rest :
  Forall2 (acceptable org d) ls ts -> Forall (fun l => side l = "debit") ls ->
  forall dt, 0 <= dt -> dt + zsum ts <= I64_MAX ->
  validate_lines org (ls ++ rest)%list dt 0 (mkWorld d [])
  = validate_lines org rest (dt + zsum ts) 0 (mkWorld d []).
Proof.
  induction 1 as [|l t ls ts Hl Hts IH]; intros Hd dt Hdt Hb; [by rewrite Z.add_0_r|].
  apply Forall_cons in Hd as [Hd Hds].
  pose proof (acceptable_sum _ _ _ _ Hts). pose proof (line_ok_pos _ _ (proj1 Hl)).
  change (zsum (t :: ts)) with (t + zsum ts) in *.
  rewrite <- app_comm_cons, (validate_step _ _ _ t), Hd by (done || lia). simpl.
  rewrite IH by (done || lia). f_equal. lia.
Qed.

Lemma insert_line_accepts org eid l ts t e :
  acceptable org (tx_db t) l ts -> db_entries (tx_db t) !! eid = Some e -> er_org e = org ->
  er_status e = "draft" ->
  exists row t', insert_line org eid (account_code l) (side l) (amount l) (counterparty_id l) (vat_amount l) t
    = (Ok row, t').
Proof.
  intros (Hok & _ & Hcp & Hv) He Ho Hs. pose proof (line_ok_pos _ _ Hok) as Hpos. destruct Hok as [Hp Hsd].
  unfold insert_line. rewrite (st_bind_ok (gets tx_db) _ t (tx_db t) t) by reflexivity.
  rewrite (st_bind_ok _ _ t tt t) by (unfold lift, journal_lines_frozen_after_post; by rewrite He, Hs).
  rewrite (numeric_in_exact _ _ Hp), He, Ho, String.eqb_refl.
  assert ((String.eqb (side l) "debit" || String.eqb (side l) "credit") = true) as ->
    by (destruct Hsd as [-> | ->]; reflexivity).
  rewrite (proj2 (Z.ltb_lt 0 ts) Hpos).
  assert (match counterparty_id l with
          | Some c => bool_decide (is_Some (db_counterparties (tx_db t) !! c)) | None => true end = true) as ->.
  { destruct (counterparty_id l) as [c|]; [|done]. specialize (Hcp c eq_refl). unfold counterparty_in_org in Hcp.
    destruct (db_counterparties (tx_db t) !! c); [by apply bool_decide_eq_true_2 | done]. }
  destruct (vat_amount l) as [v|]; [|by repeat eexists].
  destruct (Hv v eq_refl) as (x & -> & Hx). simpl. rewrite (proj2 (Z.leb_le 0 x) Hx). by repeat eexists.
Qed.

Lemma insert_lines_accepts org eid ls ts :
  forall t e, Forall2 (acceptable org (tx_db t)) ls ts -> db_entries (tx_db t) !! eid = Some e ->
  er_org e = org -> er_status e = "draft" ->
  exists rows t', insert_lines org eid ls t = (Ok rows, t').
Proof.
  revert ts. induction ls as [|l ls IH]; intros ts t e H He Ho Hs; simpl; [by repeat eexists|].
  inversion H as [|? x ? xs Hl Hls]; subst.
  destruct (insert_line_accepts _ eid l x t e Hl He eq_refl Hs) as (row & t' & Hr).
  rewrite (st_bind_ok _ _ _ _ _ Hr). apply insert_line_ok in Hr as (r & _ & _ & _ & ->).
  edestruct (IH xs (mkTxn (with_lines (fun k => (k ++ [r])%list) (next_uuid (tx_db t))) (eid :: tx_touched t)) e)
    as (rows & t2 & H2); [exact Hls | exact He | done..|].
  rewrite (st_bind_ok _ _ _ _ _ H2). by repeat eexists.
Qed.

Lemma insert_entry_accepts org date desc user t :
  org ∈ db_orgs (tx_db t) -> user ∈ db_users (tx_db t) -> is_Some (date_in date) ->
  exists e t', insert_entry org date desc None (Some user) t = (Ok e, t').
Proof.
  intros Ho Hu [day Hd]. unfold insert_entry.
  rewrite (st_bind_ok (gets tx_db) _ t (tx_db t) t) by reflexivity.
  rewrite Hd, !bool_decide_eq_true_2 by done. by repeat eexists.
Qed.

(** What [create_draft] commits. *)
Lemma create_draft_inv org user date desc ls w e w' :
  ledger_inv (w_db w) -> env_ok w -> create_draft org user date desc ls w = (Ok e, w') ->
  (2 <= length ls)%nat /\
  exists ts d row rs, Forall2 line_ok ls ts /\ zsum (zip_with signed_amount ls ts) = 0 /\
    evolves (w_db w) d /\ date_in date = Some (er_date row) /\
    row = mkEntryRow org (er_date row) desc "draft" None (Some user) None (er_created row) /\
    e = with_lines_of (entry_from_row (id e) row) "draft" (map line_from_row rs) /\
    db_entries d !! id e = None /\ db_entries (w_db w') = <[id e := row]> (db_entries d) /\
    lines_of (w_db w') (id e) = rs /\ Forall2 (row_for org (id e)) ls rs /\ map lr_amount rs = ts.
Proof.
  intros Hi He H. unfold create_draft in H. destruct (Nat.ltb_spec (length ls) 2) as [|Hlen]; [discriminate|].
  split; [done|]. st_inv H. pose proof (validate_lines_safe org ls 0 0 w Hi He) as Hk. rewrite Hs in Hk.
  destruct Hk as (Hi1 & He1 & Hv1). apply validate_lines_ok in Hs as (ts & Hts & Htot).
  destruct (Z.eqb_spec a.1 a.2) as [Heq|]; [|discriminate]. simpl in H.
  pose proof (next_keeps _ Hi1 He1) as (Hi2 & He2 & Hv2).
  apply execute_write_inv in H as [(b & t & [= <-] & Hx & Hb & ->) | [_ Hno]]; [|by destruct (Hno e)].
  apply create_txn_ok in Hx as (day & rs & Hday & -> & Hrs & Hen & Ht & Hl & _); [|by apply tick_inv in Hi2].
  exists ts, (w_db (next s)), (mkEntryRow org day desc "draft" None (Some user) None (db_now (tick (w_db (next s))))), rs.
  split; [done|]. split; [lia|]. split; [by etransitivity|]. repeat (split; [done|]).
  split; [exact (fresh_uuid _ (proj1 (tick_inv _) Hi2))|].
  split; [exact Hen|]. split; [exact Hl|]. split; [exact Hrs|]. apply (rows_signed _ _ _ _ _ Hts Hrs).
Qed.

(** ** Properties *)

(** A request to the service, and the world after it, whatever it returned. *)
Inductive request :=
  | CreateDraft (org user date desc : string) (ls : list JournalLine)
  | Post (org eid : string)
  | Reverse (org eid user : string).

Definition serve (w : World) (r : request) : World :=
  match r with
  | CreateDraft org user date desc ls => (create_draft org user date desc ls w).2
  | Post org eid => (post org eid w).2
  | Reverse org eid user => (reverse org eid user w).2
  end.

Lemma serve_keeps w r : ledger_inv (w_db w) -> env_ok w -> keeps w (serve w r).
Proof.
  intros Hi He. destruct r; simpl;
    [by apply create_draft_safe | by apply post_safe | by apply reverse_safe].
Qed.

(** C1: Any sequence of journal requests, with the commits of other sessions
    between any two database accesses and whatever each request returns, keeps
    the books: every entry balances, a posted or reversed entry has lines, every
    line is a positive debit or credit of an entry of its own organization, and
    no posted or reversed entry or its lines is ever changed except for the move
    from posted to reversed. *)
Theorem journal_keeps_books w rs :
  ledger_inv (w_db w) -> env_ok w ->
  ledger_inv (w_db (fold_left serve rs w)) /\ evolves (w_db w) (w_db (fold_left serve rs w)).
Proof.
  revert w. induction rs as [|r rs IH]; intros w Hi He; simpl; [split; [done | reflexivity]|].
  destruct (serve_keeps w r Hi He) as (Hi' & He' & Hv).
  destruct (IH _ Hi' He') as [H1 H2]. split; [done | by etransitivity].
Qed.

(** A draft that [create_draft] returns has at least two lines whose texts
    parse to strictly positive amounts with equal debit and credit sums, and
    the committed books hold exactly that entry more: a fresh id, the requested
    header, status draft, and one row per line with the account, side, amount,
    counterparty and VAT of the request. *)
Theorem create_draft_commits_request org user date desc ls w e w' :
  ledger_inv (w_db w) -> env_ok w -> create_draft org user date desc ls w = (Ok e, w') ->
  (2 <= length ls)%nat /\
  exists ts d row, Forall2 line_ok ls ts /\ zsum (zip_with signed_amount ls ts) = 0 /\
    evolves (w_db w) d /\ db_entries d !! id e = None /\
    db_entries (w_db w') = <[id e := row]> (db_entries d) /\
    date_in date = Some (er_date row) /\
    row = mkEntryRow org (er_date row) desc "draft" None (Some user) None (er_created row) /\
    e = with_lines_of (entry_from_row (id e) row) "draft" (map line_from_row (lines_of (w_db w') (id e))) /\
    Forall2 (row_for org (id e)) ls (lines_of (w_db w') (id e)) /\
    map lr_amount (lines_of (w_db w') (id e)) = ts.
Proof.
  intros Hi He H. apply create_draft_inv in H as (Hl & ts & d & row & rs & H); [|done..].
  split; [done|]. exists ts, d, row. destruct H as (?&?&?&?&?&?&?&?&Hrs&?&?). rewrite Hrs. tauto.
Qed.

(** A request that meets the conditions is carried out. *)
Lemma create_draft_run org user date desc ls ts d :
  ledger_inv d -> (2 <= length ls)%nat -> org ∈ db_orgs d -> user ∈ db_users d ->
  is_Some (date_in date) -> Forall2 (acceptable org d) ls ts -> zsum ts <= I64_MAX ->
  zsum (zip_with signed_amount ls ts) = 0 ->
  exists r, create_draft org user date desc ls (mkWorld d []) = r /\
    match r with (Ok _, w) => w_env w = [] | _ => False end.
Proof.
  intros Hi Hlen Ho Hu Hday Hls Hmax Hbal. unfold create_draft.
  destruct (Nat.ltb_spec (length ls) 2); [lia|].
  destruct (validate_lines_accepts org d ls ts Hls 0 0) as [tot Htot]; [lia..|].
  rewrite (st_bind_ok _ _ _ _ _ Htot). pose proof Htot as Hsum.
  assert (Hts : Forall2 line_ok ls ts) by (eapply Forall2_impl; [exact Hls | by intros ?? (? & _)]).
  apply validate_lines_ok in Hsum as (ts' & Hts' & Hsum).
  assert (ts' = ts) as ->.
  { clear -Hts Hts'. revert ts' Hts'. induction Hts as [|? ? ? ? [Ha _] _ IH]; intros ts' H; inversion H; subst; [done|].
    f_equal; [|by apply IH]. match goal with H : line_ok _ _ |- _ => destruct H as [Hb _] end. congruence. }
  destruct (Z.eqb_spec tot.1 tot.2) as [_|]; [cbn [negb]|lia].
  unfold execute_write. rewrite (st_bind_ok _ _ _ tt (mkWorld d [])) by reflexivity. unfold run_txn.
  destruct (insert_entry_accepts org date desc user (mkTxn (tick d) []) Ho Hu Hday) as (e & t1 & H1).
  pose proof H1 as H1'. apply insert_entry_ok in H1' as (day & _ & _ & _ & -> & ->).
  match type of H1 with _ = (_, ?t) =>
    edestruct (insert_lines_accepts org (gen_random_uuid (db_seq d)) ls ts t) as (rows & t2 & H2) end;
    [exact Hls | simpl; apply lookup_insert_eq | done..|].
  cbn [w_db]. rewrite (st_bind_ok _ _ _ _ _ H1), (st_bind_ok _ _ _ _ _ H2). unfold mret, st_ret.
  pose proof H2 as H2'. apply insert_lines_ok in H2' as (rs & Hrs & _ & _ & _ & Hl & _ & _ & _ & Htch).
  assert (forallb (journal_entry_must_balance (tx_db t2)) (tx_touched t2) = true) as ->; [|by eexists].
  apply forallb_forall. intros x Hx. apply list_elem_of_In, Htch in Hx as [-> | Hx]; [|by apply elem_of_nil in Hx].
  unfold journal_entry_must_balance, lines_of. rewrite Hl.
  rewrite (filter_entry_app _ _ _ (gen_random_uuid (db_seq d)))
    by (eapply Forall_impl; [exact (rows_ok _ _ _ _ Hrs) | by intros ? (? & _)]).
  rewrite decide_True by done.
  pose proof (fresh_no_lines d _ Hi (fresh_uuid d Hi)) as Hn. unfold lines_of in Hn. simpl. rewrite Hn. simpl.
  apply Z.eqb_eq. destruct (rows_signed _ _ _ _ _ Hts Hrs) as [_ ->]. done.
Qed.

(** Its committed result, without other sessions. *)
Lemma create_draft_result org user date desc ls d e w' :
  ledger_inv d -> create_draft org user date desc ls (mkWorld d []) = (Ok e, w') ->
  ledger_inv (w_db w') /\ exists row, db_entries (w_db w') !! id e = Some row /\ er_org row = org /\
    er_status row = "draft" /\ er_desc row = desc /\ date_in date = Some (er_date row) /\
    Forall2 (row_for org (id e)) ls (lines_of (w_db w') (id e)).
Proof.
  intros Hi H. assert (He : env_ok (mkWorld d [])) by constructor.
  pose proof (create_draft_safe org user date desc ls (mkWorld d []) Hi He) as Hk. rewrite H in Hk.
  split; [apply Hk|]. apply create_draft_inv in H as (_ & ts & d1 & row & rs & H); [|done..].
  destruct H as (_ & _ & _ & Hdate & Hrow & _ & _ & He' & Hrs & Hf & _). exists row. rewrite He', lookup_insert_eq, Hrs.
  rewrite Hrow. simpl. repeat (split; [done|]). done.
Qed.

(** Conversely a request that meets the conditions (two lines or more, each
    acceptable, balanced, an existing organization and author, a date the server
    reads, amounts summing within [long long]) is never refused. *)
Theorem create_draft_accepts org user date desc ls ts d :
  ledger_inv d -> (2 <= length ls)%nat -> org ∈ db_orgs d -> user ∈ db_users d ->
  is_Some (date_in date) -> Forall2 (acceptable org d) ls ts -> zsum ts <= I64_MAX ->
  zsum (zip_with signed_amount ls ts) = 0 ->
  exists e d', create_draft org user date desc ls (mkWorld d []) = (Ok e, mkWorld d' []).
Proof.
  intros. edestruct (create_draft_run org user date desc ls ts d) as (r & -> & Hr); [done..|].
  destruct r as [[e| |] [d' env]]; simpl in Hr; [subst env; by exists e, d' | done..].
Qed.

Lemma rows_org org eid ls rs : Forall2 (row_for org eid) ls rs -> Forall (fun r => lr_org r = org) rs.
Proof. induction 1 as [|? ? ? ? (_ & Ho & _)]; constructor; auto. Qed.

(** What a successful [reverse] commits: [d] is the state its transaction ran on. *)
Lemma reverse_committed org eid user w e w' :
  ledger_inv (w_db w) -> env_ok w -> reverse org eid user w = (Ok (Some e), w') ->
  exists d o p, let d' := w_db w' in
    let s := mkEntryRow org (er_date o) ("Сторно: " +:+ er_desc o) "posted" (Some eid) (Some user) None
               (db_now (tick d)) in
    ledger_inv d /\ evolves (w_db w) d /\ db_entries d !! eid = Some o /\ er_status o = "posted" /\
    er_org o = org /\ id e <> eid /\ db_entries d !! id e = None /\
    db_entries d' = <[eid := set_status o "reversed"]> (<[id e := s]> (db_entries d)) /\
    p ≡ₚ lines_of d eid /\ Forall2 mirrors p (lines_of d' (id e)) /\
    Forall (fun l => lr_org l = org) (lines_of d' (id e)) /\
    (forall x, x <> id e -> lines_of d' x = lines_of d x).
Proof.
  intros Hi He H. unfold reverse in H.
  rewrite (st_bind_ok _ _ _ _ _ (execute_read_eq _ _)) in H.
  pose proof (next_keeps w Hi He) as (Hi1 & He1 & Hv1). set (w1 := next w) in *.
  unfold find_in_org in H. destruct (db_entries (w_db w1) !! eid) as [o|] eqn:Ho; [|discriminate].
  destruct (String.eqb_spec (er_org o) org) as [Horg|]; [|discriminate]. cbn [status entry_from_row] in H.
  destruct (String.eqb_spec (er_status o) "posted") as [Hpost|]; [|discriminate]. cbn [negb] in H.
  rewrite (st_bind_ok _ _ _ _ _ (execute_read_eq _ _)) in H.
  pose proof (next_keeps w1 Hi1 He1) as (Hi2 & He2 & Hv2). set (w2 := next w1) in *.
  pose proof (next_keeps w2 Hi2 He2) as (Hi3 & He3 & Hv3).
  st_inv H. unfold mret, st_ret in H. simplify_eq.
  apply execute_write_inv in Hs as [(b & t & [= <-] & Hx & Hb & ->) | [_ Hno]]; [|by destruct (Hno e)].
  set (d := w_db (next w2)) in *.
  apply storno_txn_ok in Hx as (day & rs & oe & Hday & Hrs & Hoe & Hoo & Hos & Hne & -> & Hen & Hl & Hlo & _ & _);
    [|by apply tick_inv in Hi3 |done].
  simpl in Hday, Hrs, Hoe, Hne.
  assert (Hv13 : evolves (w_db w1) d) by (by etransitivity).
  destruct (Hv13 eid o Ho) as (o' & Ho' & _ & Hdt & Hds & _ & _ & Hlin1); [congruence|].
  assert (o' = oe) as -> by (change (db_entries (tick d)) with (db_entries d) in Hoe; congruence).
  rewrite (inv_date _ Hi1 _ _ Ho) in Hday. injection Hday as <-.
  assert (Hlin : lines_of d eid = lines_of (w_db w2) eid).
  { destruct (Hv2 eid o Ho) as (o2 & Ho2 & _ & _ & _ & _ & Hst2 & _); [congruence|].
    destruct (Hv3 eid o2 Ho2) as (o3 & _ & _ & _ & _ & _ & _ & H3); [|exact H3].
    destruct Hst2 as [-> | [_ ->]]; congruence. }
  destruct (load_lines_spec _ _ _ _ _ Hi2 Hrs) as (p & Hp & Hm).
  exists d, oe, p. cbn [w_db id with_lines_of entry_from_row]. rewrite Hl.
  split; [exact Hi3|]. split; [by etransitivity|]. repeat (split; [done|]).
  split; [exact (fresh_uuid _ Hi3)|].
  split; [rewrite Hen; unfold set_status; cbn [er_org er_date er_desc er_reverses er_user er_run er_created];
          by rewrite Hdt, Hds|].
  split; [by rewrite Hlin|]. split; [done|]. split; [|exact Hlo].
  by apply (rows_org _ _ _ _ Hrs).
Qed.

(** C20: A storno that [reverse] returns undoes its original exactly: the original
    was a posted entry of the organization and is now reversed, the storno is a
    new posted entry of the same date that refers to it, its lines are the
    original's with the sides swapped, every account's turnover over the two
    entries is zero, and the transaction touches no other entry. *)
Theorem reverse_storno org eid user w e w' :
  ledger_inv (w_db w) -> env_ok w -> reverse org eid user w = (Ok (Some e), w') ->
  exists d o s p, let d' := w_db w' in
    evolves (w_db w) d /\ db_entries d !! eid = Some o /\ er_status o = "posted" /\ er_org o = org /\
    id e <> eid /\ db_entries d !! id e = None /\
    db_entries d' = <[eid := set_status o "reversed"]> (<[id e := s]> (db_entries d)) /\
    s = mkEntryRow org (er_date o) ("Сторно: " +:+ er_desc o) "posted" (Some eid) (Some user) None
          (er_created s) /\
    p ≡ₚ lines_of d' eid /\ Forall2 mirrors p (lines_of d' (id e)) /\
    (forall a, net a (lines_of d' eid) + net a (lines_of d' (id e)) = 0) /\
    (forall x, x <> id e -> lines_of d' x = lines_of d x).
Proof.
  intros Hi He H.
  destruct (reverse_committed _ _ _ _ _ _ Hi He H) as (d & o & p & _ & Hv & Ho & Hs & Hor & Hne & Hfr & Hen & Hp & Hm & _ & Hlo).
  eexists d, o, _, p. cbn zeta. rewrite (Hlo eid) by done. do 6 (split; [done|]). split; [exact Hen|].
  split; [done|]. split; [done|]. split; [done|]. split; [|exact Hlo].
  intros a. rewrite <- (net_perm a _ _ Hp). by apply mirrors_net.
Qed.

Lemma reverse_marks org eid user w e w' :
  ledger_inv (w_db w) -> env_ok w -> reverse org eid user w = (Ok (Some e), w') ->
  exists o, db_entries (w_db w') !! eid = Some o /\ er_status o = "reversed".
Proof.
  intros Hi He H. unfold reverse in H.
  rewrite (st_bind_ok _ _ _ _ _ (execute_read_eq _ _)) in H.
  pose proof (next_keeps w Hi He) as (Hi1 & He1 & _). set (w1 := next w) in *.
  unfold find_in_org in H. destruct (db_entries (w_db w1) !! eid) as [o|]; [|discriminate].
  destruct (String.eqb_spec (er_org o) org); [|discriminate]. case_match; [discriminate|].
  rewrite (st_bind_ok _ _ _ _ _ (execute_read_eq _ _)) in H.
  pose proof (next_keeps w1 Hi1 He1) as (Hi2 & He2 & _).
  pose proof (next_keeps _ Hi2 He2) as (Hi3 & _). st_inv H. unfold mret, st_ret in H. simplify_eq.
  apply execute_write_inv in Hs as [(b & t & [= <-] & Hx & Hb & ->) | [_ Hno]]; [|by destruct (Hno e)].
  apply storno_txn_ok in Hx as (day & rs & oe & _ & _ & _ & _ & _ & _ & _ & Hen & _);
    [|by apply tick_inv in Hi3 | done].
  exists (set_status oe "reversed"). cbn [w_db]. rewrite Hen. split; [apply lookup_insert_eq | done].
Qed.

(** An entry is reversed at most once: after a successful [reverse], and
    whatever the books become afterwards, no later [reverse] of the same entry
    succeeds, and the original organization's attempt is an InvalidEntryState
    that writes nothing. *)
Theorem reverse_at_most_once org eid user w e w1 w2 org' user' :
  ledger_inv (w_db w) -> env_ok w -> reverse org eid user w = (Ok (Some e), w1) ->
  ledger_inv (w_db w2) -> env_ok w2 -> evolves (w_db w1) (w_db w2) ->
  reverse org' eid user' w2 = (Ok None, next w2) \/
  exists msg, reverse org' eid user' w2 = (Throw (Exn InvalidEntryState msg), next w2).
Proof.
  intros Hi He H Hi2 He2 Hv. destruct (reverse_marks _ _ _ _ _ _ Hi He H) as (o & Ho & Hst).
  pose proof (next_keeps w2 Hi2 He2) as (_ & _ & Hv2).
  destruct ((transitivity Hv Hv2 : evolves (w_db w1) (w_db (next w2))) eid o Ho)
    as (o' & Ho' & _ & _ & _ & _ & Hst' & _); [congruence|].
  assert (er_status o' = "reversed") as Hs by (destruct Hst' as [|[]]; congruence).
  unfold reverse. rewrite (st_bind_ok _ _ _ _ _ (execute_read_eq _ _)). unfold find_in_org. rewrite Ho'.
  destruct (String.eqb (er_org o') org'); [right | by left]. cbn [status entry_from_row]. rewrite Hs.
  by eexists.
Qed.

(** What [post] must do: [w1] is the state its read sees, [w2] the one its
    compare-and-set update runs on. *)
Definition post_outcome (org eid : string) (w : World) : outcome (option JournalEntry) * World :=
  let w1 := next w in
  let w2 := next w1 in
  match find_in_org eid org (w_db w1) with
  | None => (Ok None, w1)
  | Some e =>
      if negb (String.eqb (status e) "draft") then
        (Throw (Exn InvalidEntryState ("cannot post an entry in status '" +:+ status e +:+ "'")), w1)
      else
        match db_entries (w_db w2) !! eid with
        | Some r =>
            if String.eqb (er_org r) org && String.eqb (er_status r) "draft" then
              if has_lines (w_db w2) eid then
                let w3 := next (mkWorld (with_entries <[eid := set_status r "posted"]> (tick (w_db w2)))
                                  (w_env w2)) in
                (Ok (Some (with_lines_of (entry_from_row eid r) "posted" (load_lines eid (w_db w3)))), w3)
              else (check_violation "cannot post an entry with no lines", w2)
            else (Throw (Exn InvalidEntryState "entry status changed concurrently — no longer 'draft'"),
                  mkWorld (tick (w_db w2)) (w_env w2))
        | None => (Throw (Exn InvalidEntryState "entry status changed concurrently — no longer 'draft'"),
                   mkWorld (tick (w_db w2)) (w_env w2))
        end
  end.

Lemma draft_trigger d eid r :
  er_org r ∈ db_orgs d -> er_status r = "draft" ->
  journal_entries_immutability d eid r (set_status r "posted")
  = if has_lines d eid then Ok tt else check_violation "cannot post an entry with no lines".
Proof.
  intros Ho Hs. unfold journal_entries_immutability. rewrite bool_decide_eq_true_2 by done. cbn [negb].
  assert (bool_decide (is_Some (er_user r)) && bool_decide (er_user (set_status r "posted") = None) = false) as ->.
  { simpl. destruct (er_user r); [|done]. by rewrite andb_comm. }
  rewrite Hs. simpl. by destruct (has_lines d eid).
Qed.

Lemma post_txn org eid w :
  ledger_inv (w_db w) ->
  run_txn (update_status eid org "draft" "posted") w =
  match db_entries (w_db w) !! eid with
  | Some r =>
      if String.eqb (er_org r) org && String.eqb (er_status r) "draft" then
        if has_lines (w_db w) eid then
          (Ok (Some (set_status r "posted")),
           mkWorld (with_entries <[eid := set_status r "posted"]> (tick (w_db w))) (w_env w))
        else (check_violation "cannot post an entry with no lines", w)
      else (Ok None, mkWorld (tick (w_db w)) (w_env w))
  | None => (Ok None, mkWorld (tick (w_db w)) (w_env w))
  end.
Proof.
  intros Hi. unfold run_txn, update_status, gets. rewrite st_bind_case. cbn [tx_db db_entries tick].
  destruct (db_entries (w_db w) !! eid) as [r|] eqn:Hr; [|reflexivity].
  destruct (String.eqb_spec (er_org r) org) as [Ho|]; [|reflexivity].
  destruct (String.eqb_spec (er_status r) "draft") as [Hs|]; [|reflexivity]. cbn [andb].
  change (mkEntryRow (er_org r) _ _ _ _ _ _ _) with (set_status r "posted").
  rewrite st_bind_case. unfold lift. rewrite draft_trigger by (done || exact (inv_org _ Hi _ _ Hr)).
  change (has_lines (tick (w_db w)) eid) with (has_lines (w_db w) eid).
  destruct (has_lines (w_db w) eid); reflexivity.
Qed.

(** Posting a draft with lines, without other sessions. *)
Lemma post_run org eid d r :
  ledger_inv d -> db_entries d !! eid = Some r -> er_org r = org -> er_status r = "draft" ->
  has_lines d eid = true ->
  exists e, post org eid (mkWorld d []) =
    (Ok (Some e), mkWorld (with_entries <[eid := set_status r "posted"]> (tick d)) []).
Proof.
  intros Hi Hr Ho Hs Hl. unfold post. rewrite (st_bind_ok _ _ _ _ _ (execute_read_eq _ _)).
  change (next (mkWorld d [])) with (mkWorld d []). cbn [w_db]. unfold find_in_org. rewrite Hr.
  rewrite (proj2 (String.eqb_eq _ _) Ho). cbn [entry_from_row status]. rewrite Hs. cbn [negb String.eqb Ascii.eqb Bool.eqb].
  rewrite st_bind_case. change (execute_write ?b (mkWorld d [])) with (run_txn b (mkWorld d [])).
  rewrite post_txn by done. cbn [w_db w_env]. rewrite Hr, (proj2 (String.eqb_eq _ _) Ho), Hs, Hl.
  cbn [andb String.eqb Ascii.eqb Bool.eqb]. rewrite (st_bind_ok _ _ _ _ _ (execute_read_eq _ _)). by eexists.
Qed.

(** C5: [post] returns and writes exactly what its specification says in every
    case: nothing for an entry that is missing or of another organization, an
    InvalidEntryState for one that is not a draft or stopped being one between
    the read and the update, the server's refusal for one without lines, and
    otherwise the posted entry with its lines, changing nothing but its status. *)
Theorem post_refines org eid w :
  ledger_inv (w_db w) -> env_ok w -> post org eid w = post_outcome org eid w.
Proof.
  intros Hi He. unfold post, post_outcome. rewrite (st_bind_ok _ _ _ _ _ (execute_read_eq _ _)).
  pose proof (next_keeps w Hi He) as (Hi1 & He1 & _). set (w1 := next w) in *.
  destruct (find_in_org eid org (w_db w1)) as [e|]; [|done].
  destruct (negb (String.eqb (status e) "draft")); [done|].
  pose proof (next_keeps w1 Hi1 He1) as (Hi2 & _ & _).
  rewrite st_bind_case. change (execute_write ?b w1) with (run_txn b (next w1)). rewrite post_txn by done.
  set (w2 := next w1) in *. destruct (db_entries (w_db w2) !! eid) as [r|]; [|reflexivity].
  destruct (String.eqb (er_org r) org && String.eqb (er_status r) "draft"); [|reflexivity].
  destruct (has_lines (w_db w2) eid); [|reflexivity].
  by rewrite (st_bind_ok _ _ _ _ _ (execute_read_eq _ _)).
Qed.

(** The totals of [create_draft] are unguarded signed sums: debit lines that
    are acceptable one by one, followed by one that carries the sum above the
    largest [long long], are undefined behaviour instead of an error. *)
Theorem create_draft_total_overflow org user date desc ls ts l t rest d :
  Forall2 (acceptable org d) ls ts -> Forall (fun x => side x = "debit") ls -> ls <> [] ->
  line_ok l t -> side l = "debit" -> zsum ts <= I64_MAX < zsum ts + t ->
  (create_draft org user date desc (ls ++ l :: rest) (mkWorld d [])).1 = Undef.
Proof.
  intros Hls Hds Hne [Hp _] Hd Hb. unfold create_draft.
  destruct (Nat.ltb_spec (length (ls ++ l :: rest)) 2) as [Hlen|_].
  { rewrite length_app in Hlen. destruct ls; simpl in *; [done | lia]. }
  rewrite st_bind_case, (validate_debits _ _ _ ts) by (done || lia).
  cbn [validate_lines]. rewrite (st_bind_ok _ _ _ t (mkWorld d [])) by (unfold lift; by rewrite Hp).
  rewrite Hd, Z.add_0_l. cbn [String.eqb Ascii.eqb Bool.eqb].
  assert (add64 (zsum ts) t = Undef) as Hu.
  { unfold add64, i64, in_i64. destruct (Z.leb_spec (zsum ts + t) I64_MAX); [lia|].
    by rewrite andb_false_r. }
  by rewrite !st_bind_case; unfold lift; rewrite Hu.
Qed.

End Service.

(** ** Witnesses: one organization, two accounts, an empty journal *)

Import Reference.

Definition kassa := mkAccount "a1" None "1010" "Касса" "Касса" "asset" None false.
Definition sales := mkAccount "a2" None "6010" "Доход" "Табыс" "revenue" None false.
Definition d0 : DB := mkDB {["org"]} {["user"]} ∅ [] [kassa; sales] ∅ 0 7.
Definition w0 : World := mkWorld d0 [].
Definition line (acc sd amt : string) : JournalLine := mkLine "" "" acc sd amt None None.
Definition sale : list JournalLine := [line "1010" "debit" "150.5"; line "6010" "credit" "150.50"].

Lemma d0_inv : ledger_inv d0.
Proof. split; unfold d0; simpl; intros x; [intros ? Hx | intros Hx | intros ? Hx..]; set_solver. Qed.

Lemma w0_env : env_ok w0.
Proof. constructor. Qed.

Lemma sale_ok : Forall2 (acceptable "org" d0) sale [15050; 15050].
Proof.
  assert (forall l, l ∈ sale -> acceptable "org" d0 l 15050).
  { intros l Hl. repeat (apply elem_of_cons in Hl as [-> | Hl]); [..| by apply elem_of_nil in Hl];
      (split; [split; [vm_compute; reflexivity | auto] | split; [vm_compute; discriminate | done]]). }
  repeat constructor; apply H; set_solver.
Qed.

Lemma journal_keeps_books_witness :
  ledger_inv (w_db (fold_left serve [CreateDraft "org" "user" "2026-01-31" "sale" sale; Post "org" "u"] w0)).
Proof. apply journal_keeps_books; [exact d0_inv | exact w0_env]. Defined.

Lemma ok_run {A} (p : outcome A * World) :
  match p.1 with Ok _ => true | _ => false end = true -> exists a w, p = (Ok a, w).
Proof. destruct p as [[a| |] w]; simpl; [by repeat eexists | discriminate..]. Qed.

Lemma some_run {A} (p : outcome (option A) * World) :
  match p.1 with Ok (Some _) => true | _ => false end = true -> exists a w, p = (Ok (Some a), w).
Proof. destruct p as [[[a|]| |] w]; simpl; [by repeat eexists | discriminate..]. Qed.

Lemma sale_created : exists e w', create_draft "org" "user" "2026-01-31" "sale" sale w0 = (Ok e, w').
Proof. apply ok_run. vm_compute. reflexivity. Qed.

Lemma create_draft_commits_request_witness :
  exists e w', create_draft "org" "user" "2026-01-31" "sale" sale w0 = (Ok e, w') /\
  exists ts, map lr_amount (lines_of (w_db w') (id e)) = ts.
Proof.
  destruct sale_created as (e & w' & H). exists e, w'. split; [exact H|].
  destruct (create_draft_commits_request _ _ _ _ _ w0 _ _ d0_inv w0_env H) as (_ & ts & d & row & Hall).
  exists ts. apply Hall.
Defined.

Lemma create_draft_accepts_witness :
  exists e d', create_draft "org" "user" "2026-01-31" "sale" sale (mkWorld d0 []) = (Ok e, mkWorld d' []).
Proof.
  apply (create_draft_accepts "org" "user" "2026-01-31" "sale" sale [15050; 15050] d0);
    [exact d0_inv | simpl; lia | set_solver | set_solver | by eexists | exact sale_ok | done | reflexivity].
Defined.

(** A posted sale, and its storno. *)
Definition w1 : World := serve (serve w0 (CreateDraft "org" "user" "2026-01-31" "sale" sale)) (Post "org" "u").

Lemma w1_ok : ledger_inv (w_db w1) /\ env_ok w1.
Proof.
  assert (keeps w0 w1) as (H1 & H2 & _); [|done].
  eapply keeps_trans; [apply serve_keeps; [exact d0_inv | exact w0_env]|].
  destruct (serve_keeps w0 (CreateDraft "org" "user" "2026-01-31" "sale" sale) d0_inv w0_env) as (? & ? & _).
  by apply serve_keeps.
Qed.

Lemma sale_reversed : exists e w', reverse "org" "u" "user" w1 = (Ok (Some e), w').
Proof. apply some_run. vm_compute. reflexivity. Qed.

Lemma reverse_storno_witness :
  exists e w', reverse "org" "u" "user" w1 = (Ok (Some e), w') /\
  forall a, net a (lines_of (w_db w') "u") + net a (lines_of (w_db w') (id e)) = 0.
Proof.
  destruct sale_reversed as (e & w' & H). exists e, w'. split; [exact H|]. intros a.
  destruct (reverse_storno _ _ _ w1 _ _ (proj1 w1_ok) (proj2 w1_ok) H)
    as (d & o & s & p & _ & _ & _ & _ & _ & _ & _ & _ & _ & _ & Hn & _).
  apply Hn.
Defined.

Lemma reverse_at_most_once_witness :
  exists e w', reverse "org" "u" "user" w1 = (Ok (Some e), w') /\
  (reverse "org" "u" "user" w' = (Ok None, next w') \/
   exists msg, reverse "org" "u" "user" w' = (Throw (Exn InvalidEntryState msg), next w')).
Proof.
  destruct sale_reversed as (e & w' & H). exists e, w'. split; [exact H|].
  pose proof (reverse_safe "org" "u" "user" w1 (proj1 w1_ok) (proj2 w1_ok)) as Hk. rewrite H in Hk.
  destruct Hk as (Hi & He & _).
  exact (reverse_at_most_once _ _ _ w1 _ w' w' "org" "user" (proj1 w1_ok) (proj2 w1_ok) H Hi He (reflexivity _)).
Defined.

Lemma post_refines_witness : post "org" "u" w1 = post_outcome "org" "u" w1.
Proof. apply post_refines; apply w1_ok. Defined.

(** Ten debit lines of the largest amount. *)
Lemma create_draft_total_overflow_witness :
  let big := line "1010" "debit" "9999999999999999.99" in
  (create_draft "org" "user" "2026-01-31" "x" (replicate 9 big ++ big :: [line "6010" "credit" "1"])
     (mkWorld d0 [])).1 = Undef.
Proof.
  apply (create_draft_total_overflow "org" "user" "2026-01-31" "x" _ (replicate 9 999999999999999999) _
           999999999999999999).
  - assert (acceptable "org" d0 (line "1010" "debit" "9999999999999999.99") 999999999999999999).
    { split; [split; [vm_compute; reflexivity | by left] | split; [vm_compute; discriminate | done]]. }
    by apply Forall2_replicate.
  - by apply Forall_replicate.
  - discriminate.
  - split; [vm_compute; reflexivity | by left].
  - reflexivity.
  - vm_compute. split; [discriminate | reflexivity].
Defined.

End Journal.
