(* ===== verification/Json.v ===== *)
(** * JSON documents

    What the sources do with a JSON value: members of an object (kept in key order,
    as the map behind it does), dotted paths, writing along a path, the merge of
    RFC 7396 with the law its users rely on, and the text of a value: the library's
    [dump] throws at a string that is not UTF-8 ([utf8], [clean]), its parser gives back
    what [dump] wrote and makes no value that could not be written. *)
From Stdlib Require Import ZArith Lia Ascii String.
From S2P Require Import Prelude.
Open Scope string_scope.
Open Scope Z_scope.

Module Json.

(** ** Objects *)

Fixpoint obj_get (k : string) (l : list (string * json)) : option json :=
  match l with
  | [] => None
  | (k', v) :: r => if String.eqb k k' then Some v else obj_get k r
  end.

(** [obj[k] = v]: in key order, replacing the value already there. *)
Fixpoint obj_set (k : string) (v : json) (l : list (string * json)) : list (string * json) :=
  match l with
  | [] => [(k, v)]
  | (k', v') :: r =>
      if String.eqb k k' then (k, v) :: r
      else if String.ltb k k' then (k, v) :: l
      else (k', v') :: obj_set k v r
  end.

Definition member (k : string) (j : json) : option json :=
  match j with JObject l => obj_get k l | _ => None end.

Definition contains (k : string) (j : json) : bool := match member k j with Some _ => true | None => false end.

Definition is_object (j : json) : bool := match j with JObject _ => true | _ => false end.

(** [j[k] = v] on a value: [null] becomes an object, anything else throws. *)
Definition set_member (k : string) (v j : json) : outcome json :=
  match j with
  | JObject l => Ok (JObject (obj_set k v l))
  | JNull => Ok (JObject [(k, v)])
  | _ => Throw (Exn json_type_error "cannot use operator[] with a string argument")
  end.

(** [get<long long>()] on an integer: an unsigned value above the range wraps. *)
Definition get_ll (z : Z) : Z := (z + 2 ^ 63) mod 2 ^ 64 - 2 ^ 63.

Lemma get_ll_id z : I64_MIN <= z <= I64_MAX -> get_ll z = z.
Proof. unfold I64_MIN, I64_MAX, get_ll. intros. rewrite Z.mod_small; lia. Qed.

Lemma obj_get_set k v k' l :
  obj_get k' (obj_set k v l) = if String.eqb k' k then Some v else obj_get k' l.
Proof.
  induction l as [|[k1 v1] r IH]; cbn [obj_set obj_get]; [done|].
  destruct (String.eqb_spec k k1) as [<-|Hk]; cbn [obj_get]; [by destruct (String.eqb k' k)|].
  destruct (String.ltb k k1); cbn [obj_get]; [done|]. rewrite IH.
  destruct (String.eqb_spec k' k1) as [->|?]; [|done]. by rewrite (proj2 (String.eqb_neq _ _)) by congruence.
Qed.

Lemma member_set k v k' j j' :
  set_member k v j = Ok j' -> member k' j' = if String.eqb k' k then Some v else member k' j.
Proof.
  destruct j; cbn [set_member]; [|discriminate..|]; intros [= <-]; cbn [member obj_get]; [done | apply obj_get_set].
Qed.

(** ** Reading members

    [get<T>()] and [value(key, default)]: a value of another type, or a member of
    something that is no object, is a type error. *)
Definition type_error {A} : outcome A := Throw (Exn json_type_error "type_error").

Definition get_string (j : json) : outcome string := match j with JString s => Ok s | _ => type_error end.
Definition get_bool (j : json) : outcome bool := match j with JBool b => Ok b | _ => type_error end.
Definition get_int (j : json) : outcome Z := match j with JInt z => Ok z | _ => type_error end.

Definition value {A} (get : json -> outcome A) (k : string) (default : A) (j : json) : outcome A :=
  match j with
  | JObject l => match obj_get k l with None => Ok default | Some v => get v end
  | _ => type_error
  end.
Definition value_string : string -> string -> json -> outcome string := value get_string.
Definition value_bool : string -> bool -> json -> outcome bool := value get_bool.
Definition value_int : string -> Z -> json -> outcome Z := value get_int.

(** ** Paths *)

(** The value at the end of a list of keys. *)
Fixpoint walk (j : json) (ks : list string) : option json :=
  match ks with
  | [] => Some j
  | k :: r => match member k j with Some v => walk v r | None => None end
  end.

(** Write at the end of a list of keys, making the objects in between. *)
Fixpoint set_at (ks : list string) (v j : json) : outcome json :=
  match ks with
  | [] => Ok v
  | k :: r =>
      let inner := match member k j with Some (JObject l) => JObject l | _ => JObject [] end in
      inner' ← set_at r v inner;
      set_member k inner' j
  end.

(** Two paths that part ways, neither being on the way to the other. *)
Fixpoint apart (ks qs : list string) : bool :=
  match ks, qs with
  | k :: r, q :: r' => if String.eqb k q then apart r r' else true
  | _, _ => false
  end.

Lemma apart_sym ks qs : apart ks qs = apart qs ks.
Proof.
  revert qs. induction ks as [|k r IH]; intros [|q r']; cbn [apart]; try done.
  rewrite String.eqb_sym. by destruct (String.eqb q k).
Qed.

Lemma walk_set_same ks v j j' : set_at ks v j = Ok j' -> walk j' ks = Some v.
Proof.
  revert j j'. induction ks as [|k r IH]; intros j j'; cbn [set_at walk]; [by intros [= ->]|].
  intros (inner & E1 & E2)%bind_Ok_inv. rewrite (member_set _ _ _ _ _ E2), String.eqb_refl. by eapply IH.
Qed.

(** Below what is not an object there is nothing. *)
Lemma walk_leaf j q r : is_object j = false -> walk j (q :: r) = None.
Proof. by destruct j. Qed.

Lemma walk_set_apart ks qs v j j' : apart ks qs = true -> set_at ks v j = Ok j' -> walk j' qs = walk j qs.
Proof.
  revert qs j j'. induction ks as [|k r IH]; intros [|q r'] j j'; cbn [apart set_at walk]; try done.
  intros Ha (inner & E1 & E2)%bind_Ok_inv. rewrite (member_set _ _ _ _ _ E2), String.eqb_sym.
  destruct (String.eqb_spec k q) as [->|?]; [|done].
  rewrite (IH _ _ _ Ha E1). destruct r as [|k1 r]; [done|]. destruct r' as [|q1 r']; [by destruct (k1 :: r)|].
  destruct (member q j) as [[]|]; done.
Qed.

Lemma set_at_object k r v l : exists l', set_at (k :: r) v (JObject l) = Ok (JObject l').
Proof.
  revert k l. induction r as [|k1 r IH]; intros k l.
  { cbn [set_at]. rewrite bind_ok. cbn [set_member]. by eexists. }
  set (inner := match obj_get k l with Some (JObject l0) => l0 | _ => [] end).
  destruct (IH k1 inner) as [l1 E1]. exists (obj_set k (JObject l1) l).
  change (set_at (k :: k1 :: r) v (JObject l)) with
    (inner' ← set_at (k1 :: r) v (match obj_get k l with Some (JObject l0) => JObject l0 | _ => JObject [] end);
     set_member k inner' (JObject l)).
  replace (match obj_get k l with Some (JObject l0) => JObject l0 | _ => JObject [] end) with (JObject inner)
    by (unfold inner; by destruct (obj_get k l) as [[]|]).
  by rewrite E1.
Qed.

(** Dotted paths. *)
Definition keys (path : string) : list string := pieces "." path.

Lemma keys_cons path : exists k r, keys path = k :: r.
Proof. unfold keys, pieces. destruct (split_on "." path) as [w ws]. by eexists _, _. Qed.

(** ** Merging *)

(** RFC 7396: what is not an object replaces the target; an object is merged into it
    (into the empty object when the target is none), [null] deleting a member. *)
Class MergePatch := {
  merge_patch : json -> json -> json;
  merge_patch_leaf : forall j p, is_object p = false -> merge_patch j p = p;
  merge_patch_object : forall j l, is_object (merge_patch j (JObject l)) = true;
  merge_patch_member : forall k j l, member k (merge_patch j (JObject l)) =
    match obj_get k l with
    | None => member k j
    | Some JNull => None
    | Some v => Some (merge_patch (match member k j with Some x => x | None => JNull end) v)
    end
}.

(** An implementation of the merge. *)
Definition obj_del (k : string) (l : list (string * json)) : list (string * json) :=
  List.filter (fun e => negb (String.eqb k e.1)) l.

Definition members (j : json) : list (string * json) := match j with JObject l => l | _ => [] end.

Fixpoint merge (j p : json) {struct p} : json :=
  match p with
  | JObject l =>
      JObject ((fix go (l : list (string * json)) : list (string * json) :=
                  match l with
                  | [] => members j
                  | (k, JNull) :: r => obj_del k (go r)
                  | (k, v) :: r => obj_set k (merge (match member k j with Some x => x | None => JNull end) v) (go r)
                  end) l)
  | _ => p
  end.

Lemma obj_get_del k k' l : obj_get k' (obj_del k l) = if String.eqb k' k then None else obj_get k' l.
Proof.
  induction l as [|[k1 v1] r IH]; cbn [obj_del List.filter obj_get fst]; [by destruct (String.eqb k' k)|].
  destruct (String.eqb_spec k k1) as [<-|Hk]; cbn [negb obj_get].
  - fold (obj_del k r). rewrite IH. by destruct (String.eqb k' k).
  - fold (obj_del k r). rewrite IH. destruct (String.eqb_spec k' k1) as [->|]; [|done].
    by rewrite (proj2 (String.eqb_neq _ _)) by congruence.
Qed.

#[refine, export] Instance rfc7396 : MergePatch := { merge_patch := merge }.
Proof.
  - by intros j [].
  - done.
  - intros k j l. cbn [merge member]. induction l as [|[k' v] r IH]; cbn [obj_get].
    { by destruct j. }
    destruct v; rewrite ?obj_get_del, ?obj_get_set; destruct (String.eqb_spec k k') as [->|]; (done || exact IH).
Defined.

(** ** Text *)

(** A byte of UTF-8 that continues a character, between two bounds. *)
Definition byte_in (lo hi : Z) (c : ascii) : bool := (lo <=? code c) && (code c <=? hi).
Definition tail_byte : ascii -> bool := byte_in 0x80 0xBF.

(** UTF-8 as RFC 3629 has it: no overlong form, no surrogate, nothing above U+10FFFF. *)
Fixpoint utf8 (s : string) : bool :=
  match s with
  | EmptyString => true
  | String c r =>
      if byte_in 0 0x7F c then utf8 r
      else match r with
      | EmptyString => false
      | String d r =>
          if byte_in 0xC2 0xDF c then tail_byte d && utf8 r
          else match r with
          | EmptyString => false
          | String e r =>
              if Ascii.eqb c (chr 0xE0) then byte_in 0xA0 0xBF d && tail_byte e && utf8 r
              else if Ascii.eqb c (chr 0xED) then byte_in 0x80 0x9F d && tail_byte e && utf8 r
              else if byte_in 0xE1 0xEF c then tail_byte d && tail_byte e && utf8 r
              else match r with
              | EmptyString => false
              | String f r =>
                  if Ascii.eqb c (chr 0xF0) then byte_in 0x90 0xBF d && tail_byte e && tail_byte f && utf8 r
                  else if Ascii.eqb c (chr 0xF4) then byte_in 0x80 0x8F d && tail_byte e && tail_byte f && utf8 r
                  else byte_in 0xF1 0xF3 c && tail_byte d && tail_byte e && tail_byte f && utf8 r
              end
          end
      end
  end.

Lemma utf8_ascii s : str_all (byte_in 0 0x7F) s = true -> utf8 s = true.
Proof. induction s as [|c r IH]; cbn [str_all utf8]; [done|]. intros [-> Hr]%andb_true_iff. by apply IH. Qed.

Lemma utf8_app s t : utf8 s = true -> utf8 t = true -> utf8 (s +:+ t) = true.
Proof.
  intros Hs Ht. revert Hs. induction s as [s IH] using (well_founded_induction (well_founded_ltof string String.length)).
  destruct s as [|c r]; [done|]. unfold ltof in IH. cbn [utf8 String.append].
  destruct (byte_in 0 0x7F c); [apply IH; cbn; lia|]. destruct r as [|d r]; [done|]. cbn [String.append].
  destruct (byte_in 0xC2 0xDF c); [rewrite !andb_true_iff; intros [-> Hr]; split; [done|]; apply IH; [cbn; lia | done]|].
  destruct r as [|e r]; [done|]. cbn [String.append].
  assert (Hb : forall (b : bool) u, (String.length u <= String.length r)%nat ->
    b && utf8 u = true -> b && utf8 (u +:+ t) = true).
  { intros b u Hl [-> Hu]%andb_true_iff. cbn [andb]. apply IH; [cbn; lia | done]. }
  destruct (Ascii.eqb c (chr 0xE0)); [apply Hb; cbn; lia|]. destruct (Ascii.eqb c (chr 0xED)); [apply Hb; cbn; lia|].
  destruct (byte_in 0xE1 0xEF c); [apply Hb; cbn; lia|]. destruct r as [|f r]; [done|]. cbn [String.append].
  assert (Hf : forall b : bool, b && utf8 r = true -> b && utf8 (r +:+ t) = true).
  { intros b [-> Hu]%andb_true_iff. cbn [andb]. apply IH; [cbn; lia | done]. }
  destruct (Ascii.eqb c (chr 0xF0)); [apply Hf|]. destruct (Ascii.eqb c (chr 0xF4)); apply Hf.
Qed.

(** Every text of a value is UTF-8. *)
Fixpoint clean (j : json) : bool :=
  match j with
  | JString s => utf8 s
  | JArray l => forallb clean l
  | JObject l => forallb (fun e => utf8 e.1 && clean e.2) l
  | _ => true
  end.

Lemma clean_get k l v : forallb (fun e => utf8 e.1 && clean e.2) l = true -> obj_get k l = Some v -> clean v = true.
Proof.
  induction l as [|[k' v'] l IH]; cbn [forallb obj_get fst snd]; [done|]. intros [[_ Hv]%andb_true_iff Hl]%andb_true_iff.
  destruct (String.eqb k k'); [by intros [= <-] | by apply IH].
Qed.

Lemma clean_member k j v : clean j = true -> member k j = Some v -> clean v = true.
Proof. destruct j; try done. cbn [clean member]. apply clean_get. Qed.

Definition clean_entries : list (string * json) -> bool := forallb (fun e => utf8 e.1 && clean e.2).

Lemma clean_set k v l : utf8 k = true -> clean v = true -> clean_entries l = true -> clean_entries (obj_set k v l) = true.
Proof.
  intros Hk Hv. unfold clean_entries. induction l as [|[k' v'] l IH]; cbn [obj_set forallb fst snd]; [by rewrite Hk, Hv|].
  intros [[Hk' Hv']%andb_true_iff Hl]%andb_true_iff.
  destruct (String.eqb k k'); [|destruct (String.ltb k k')]; cbn [forallb fst snd]; rewrite ?Hk, ?Hv, ?Hk', ?Hv', ?Hl; try done.
  by apply IH.
Qed.

(** The JSON library's [dump], which throws on text that is not UTF-8, and [parse],
    which refuses such text. *)
Class JsonText := {
  json_dump : json -> outcome string;
  json_parse : string -> option json;
  parse_dump : forall j s, json_dump j = Ok s -> json_parse s = Some j;
  dump_writes : forall j, clean j = true -> exists s, json_dump j = Ok s;
  dump_throws : forall j, clean j = false -> throws json_type_error (json_dump j);
  parse_clean : forall s j, json_parse s = Some j -> clean j = true
}.

(** Some text for every document, with a reader. *)
Fixpoint to_tree (j : json) : gen_tree (bool + (Z + string)) :=
  match j with
  | JNull => GenNode 0 []
  | JBool b => GenLeaf (inl b)
  | JInt z => GenLeaf (inr (inl z))
  | JString s => GenLeaf (inr (inr s))
  | JArray l => GenNode 1 (map to_tree l)
  | JObject l => GenNode 2 (map (fun e => GenNode 3 [GenLeaf (inr (inr e.1)); to_tree e.2]) l)
  end.

Fixpoint of_tree (t : gen_tree (bool + (Z + string))) : json :=
  match t with
  | GenLeaf (inl b) => JBool b
  | GenLeaf (inr (inl z)) => JInt z
  | GenLeaf (inr (inr s)) => JString s
  | GenNode 1 l => JArray (map of_tree l)
  | GenNode 2 l =>
      JObject (map (fun t => match t with
                             | GenNode 3 [GenLeaf (inr (inr k)); v] => (k, of_tree v)
                             | _ => (EmptyString, JNull)
                             end) l)
  | GenNode _ _ => JNull
  end.

Lemma of_to_tree : forall j, of_tree (to_tree j) = j.
Proof.
  fix IH 1. intros [| | | |l|l]; cbn [to_tree of_tree]; try reflexivity; f_equal; rewrite List.map_map.
  - induction l as [|j l IHl]; cbn [map]; [done | by rewrite IH, IHl].
  - induction l as [|[k v] l IHl]; cbn [map fst snd]; [done | by rewrite IH, IHl].
Qed.

Lemma to_tree_inj i j : to_tree i = to_tree j -> i = j.
Proof. intros E. by rewrite <- (of_to_tree i), E, of_to_tree. Qed.

#[export] Instance json_eq_dec : EqDecision json.
Proof. intros i j. destruct (decide (to_tree i = to_tree j)) as [E|E]; [left; by apply to_tree_inj | right; congruence]. Defined.

Fixpoint bits (p : positive) : string :=
  match p with xH => EmptyString | xO q => String "0" (bits q) | xI q => String "1" (bits q) end.
Fixpoint unbits (s : string) : option positive :=
  match s with
  | EmptyString => Some xH
  | String c r => if Ascii.eqb c "0" then xO <$> unbits r else if Ascii.eqb c "1" then xI <$> unbits r else None
  end.

Lemma unbits_bits p : unbits (bits p) = Some p.
Proof. induction p as [p IH|p IH|]; cbn [bits unbits Ascii.eqb Bool.eqb]; by rewrite ?IH. Qed.

Definition text_of (j : json) : string := bits (encode (to_tree j)).
Definition read_text (s : string) : option json := p ← unbits s; of_tree <$> decode p.

Lemma read_text_of j : read_text (text_of j) = Some j.
Proof. unfold read_text, text_of. rewrite unbits_bits. cbn [mbind option_bind]. rewrite decode_encode. cbn [fmap option_fmap option_map]. by rewrite of_to_tree. Qed.

#[refine, export] Instance tree_text : JsonText := {
  json_dump j := if clean j then Ok (text_of j) else Throw (Exn json_type_error "[json.exception.type_error.316] invalid UTF-8 byte");
  json_parse s := match read_text s with Some j => if clean j then Some j else None | None => None end }.
Proof.
  - intros j s. destruct (clean j) eqn:Ec; [|done]. intros [= <-]. by rewrite read_text_of, Ec.
  - intros j ->. by eexists.
  - intros j ->. by eexists.
  - intros s j. destruct (read_text s) as [j'|]; [|done]. destruct (clean j') eqn:Ec; [|done]. by intros [= <-].
Defined.

End Json.
