(* ===== verification/BlockCompiler.v ===== *)
(** * The template compiler

    src/docgen/Variables.hpp and src/docgen/BlockCompiler.hpp: the catalogue of
    variables, and the compilation of a list of blocks to a Typst source, the schema
    of its input, the form that collects the input and the text the result must
    print.  A block is JSON of a tenant; what the compiler reads of it with a wrong
    type throws, everything else it refuses is an [Error] value. *)
From Stdlib Require Import ZArith Lia Ascii String.
From S2P Require Import Prelude Json.
Import Json.
Open Scope string_scope.
Open Scope Z_scope.
Set Warnings "-clear-no-such-hyp".

(** ** The catalogue of variables *)

Module Variables.

(** [Source]: src/docgen/Variables.hpp:39-46. *)
Inductive Source := kOrganization | kBankAccount | kTaxRate | kEmployee | kCounterparty | kDocument.

(** [Kind]: src/docgen/Variables.hpp:52-52. *)
Inductive Kind := kText | kMoneyTiyn | kDate | kPercent.

(** [Definition]: src/docgen/Variables.hpp:54-60. *)
Record VarDef := mkVar { id : string; label_ru : string; label_kk : string; source : Source; kind : Kind }.

(** [kCatalogue]: src/docgen/Variables.hpp:64-88. *)
Definition kCatalogue : list VarDef := [
  mkVar "org.name" "Название организации" "Ұйым атауы" kOrganization kText;
  mkVar "org.bin" "БИН" "БСН" kOrganization kText;
  mkVar "org.address" "Юридический адрес" "Заңды мекенжайы" kOrganization kText;
  mkVar "org.director_name" "ФИО подписанта" "Қол қоюшының Т.А.Ә." kOrganization kText;
  mkVar "org.director_position" "Должность подписанта" "Қол қоюшының лауазымы" kOrganization kText;
  mkVar "org.vat_certificate" "Свидетельство по НДС" "ҚҚС бойынша куәлік" kOrganization kText;
  mkVar "org.iik" "ИИК (основной счёт)" "ЖСК (негізгі шот)" kBankAccount kText;
  mkVar "org.bank_name" "Банк" "Банк" kBankAccount kText;
  mkVar "org.bik" "БИК" "БСК" kBankAccount kText;
  mkVar "org.kbe" "КБе" "БСК коды" kBankAccount kText;
  mkVar "tax.vat_rate" "Ставка НДС" "ҚҚС мөлшерлемесі" kTaxRate kPercent;
  mkVar "employee.full_name" "ФИО сотрудника" "Қызметкердің Т.А.Ә." kEmployee kText;
  mkVar "employee.position" "Должность сотрудника" "Қызметкердің лауазымы" kEmployee kText;
  mkVar "employee.salary_tiyn" "Оклад сотрудника" "Қызметкердің жалақысы" kEmployee kMoneyTiyn;
  mkVar "counterparty.name" "Контрагент" "Контрагент" kCounterparty kText;
  mkVar "counterparty.identifier" "БИН/ИИН контрагента" "Контрагенттің БСН/ЖСН" kCounterparty kText;
  mkVar "counterparty.address" "Адрес контрагента" "Контрагенттің мекенжайы" kCounterparty kText;
  mkVar "doc.number" "Номер документа" "Құжат нөмірі" kDocument kText;
  mkVar "doc.date" "Дата документа" "Құжат күні" kDocument kDate].

(** [find]: src/docgen/Variables.hpp:92-98. *)
Definition find (name : string) : option VarDef := List.find (fun d => String.eqb (id d) name) kCatalogue.

(** [input_path]: src/docgen/Variables.hpp:103-105. *)
Definition input_path (d : VarDef) : string := id d.

(** [to_json]: src/docgen/Variables.hpp:110-125. *)
Definition to_json : json :=
  JArray (map (fun d =>
    JObject [("id", JString (id d));
             ("kind", JString match kind d with
                              | kMoneyTiyn => "money" | kDate => "date" | kPercent => "percent" | kText => "text"
                              end);
             ("label_kk", JString (label_kk d)); ("label_ru", JString (label_ru d))]) kCatalogue).

End Variables.

(** ** The compiler *)

Module Blocks.

Definition dq : string := String (chr 34) EmptyString.
Definition nl : string := String (chr 10) EmptyString.

(** [Compiled]: src/docgen/BlockCompiler.hpp:47-52. *)
Record Compiled := mkCompiled { source : string; schema : json; form : json; expected : string }.

(** [Error]: src/docgen/BlockCompiler.hpp:56-60. *)
Record Error := mkError { block_index : nat; code : string; message : string }.

(** [literal]: src/docgen/BlockCompiler.hpp:70-74. *)
Fixpoint escaped (raw : string) : string :=
  match raw with
  | EmptyString => EmptyString
  | String c r =>
      if Ascii.eqb c "\" || Ascii.eqb c (chr 34) then String "\" (String c (escaped r)) else String c (escaped r)
  end.

(** [literal]: src/docgen/BlockCompiler.hpp:68-77. *)
Definition literal (raw : string) : string := dq +:+ escaped raw +:+ dq.

(** [is_valid_field]: src/docgen/BlockCompiler.hpp:88-88. *)
Definition is_name_char (c : ascii) : bool :=
  let z := Prelude.code c in
  ((97 <=? z) && (z <=? 122)) || ((65 <=? z) && (z <=? 90)) || ((48 <=? z) && (z <=? 57)) || (z =? 95).

(** [is_valid_field]: src/docgen/BlockCompiler.hpp:82-93. *)
Definition is_valid_field (name : string) : bool :=
  match name with
  | EmptyString => false
  | String c _ => (size name <=? 64)%nat && negb (is_digit c) && str_all is_name_char name
  end.

(** A member that is an array with something in it. *)
Definition filled_array (k : string) (b : json) : option (list json) :=
  match member k b with Some (JArray (x :: l)) => Some (x :: l) | _ => None end.

(** The variables of [compile]. *)
Record Acc := mkAcc {
  body : string; preamble : string; labels : list string; properties : list (string * json);
  required : list json; form_fields : list json; literal_counter : nat
}.

Definition empty_acc : Acc := mkAcc "" "" [] [] [] [] 0.

Definition M (A : Type) : Type := Acc -> outcome (Error + A * Acc).
#[export] Instance M_ret : MRet M := fun A x a => Ok (inr (x, a)).
#[export] Instance M_bind : MBind M := fun A B f m a =>
  match m a with
  | Ok (inr (x, a')) => f x a'
  | Ok (inl e) => Ok (inl e)
  | Throw e => Throw e
  | Undef => Undef
  end.

Definition refuse {A} (i : nat) (c m : string) : M A := fun _ => Ok (inl (mkError i c m)).
Definition read {A} (m : outcome A) : M A := fun a => x ← m; Ok (inr (x, a)).
Definition check (ok : bool) (i : nat) (c m : string) : M unit := if ok then mret () else refuse i c m.
Definition update (f : Acc -> Acc) : M unit := fun a => Ok (inr ((), f a)).
Definition print (s : string) : M unit :=
  update (fun a => mkAcc (body a +:+ s) (preamble a) (labels a) (properties a) (required a) (form_fields a)
                     (literal_counter a)).
Definition define (s : string) : M unit :=
  update (fun a => mkAcc (body a) (preamble a +:+ s) (labels a) (properties a) (required a) (form_fields a)
                     (literal_counter a)).
Definition property (k : string) (v : json) : M unit :=
  update (fun a => mkAcc (body a) (preamble a) (labels a) (obj_set k v (properties a)) (required a) (form_fields a)
                     (literal_counter a)).
Definition require (k : string) : M unit :=
  update (fun a => mkAcc (body a) (preamble a) (labels a) (properties a) (required a ++ [JString k])%list
                     (form_fields a) (literal_counter a)).
Definition form_field (j : json) : M unit :=
  update (fun a => mkAcc (body a) (preamble a) (labels a) (properties a) (required a) (form_fields a ++ [j])%list
                     (literal_counter a)).

Definition label_name (n : nat) : string := "s" +:+ dec (Z.of_nat n).

(** [emit_label]: src/docgen/BlockCompiler.hpp:146-151. *)
Definition emit_label (text : string) : M string := fun a =>
  let name := label_name (literal_counter a) in
  Ok (inr (name, mkAcc (body a) (preamble a +:+ "#let " +:+ name +:+ " = " +:+ literal text +:+ nl)
                   (labels a ++ [text])%list (properties a) (required a) (form_fields a) (S (literal_counter a)))).

Definition type_is (t : string) : json := JObject [("type", JString t)].

Definition money_or_text (type : string) : string := if String.eqb type "integer" then "money" else "text".

(** [declare_field]: src/docgen/BlockCompiler.hpp:153-167. *)
Definition declare_field (name ru kk type : string) (is_required : bool) : M unit :=
  property name (type_is type) ;;
  (if is_required then require name else mret ()) ;;
  form_field (JObject [("field", JString name); ("label_kk", JString kk); ("label_ru", JString ru);
                       ("widget", JString (money_or_text type))]).

(** [compile]: src/docgen/BlockCompiler.hpp:175-180. *)
Definition header_block (i : nat) (b : json) : M unit :=
  title ← read (value_string "title" "" b);
  check (negb (String.eqb title "")) i "header_title_required" "a header block needs a non-empty 'title'" ;;
  name ← emit_label title;
  print ("#align(center)[#text(size: 13pt, weight: " +:+ dq +:+ "bold" +:+ dq +:+ ")[#" +:+ name +:+ "]]" +:+ nl +:+
         "#v(4mm)" +:+ nl).

(** [compile]: src/docgen/BlockCompiler.hpp:182-187. *)
Definition text_block (i : nat) (b : json) : M unit :=
  text ← read (value_string "text" "" b);
  check (negb (String.eqb text "")) i "text_required" "a text block needs a non-empty 'text'" ;;
  name ← emit_label text;
  print ("#" +:+ name +:+ nl +:+ "#v(3mm)" +:+ nl).

(** [compile]: src/docgen/BlockCompiler.hpp:195-219. *)
Definition field_row (i : nat) (row : json) : M unit :=
  label ← read (value_string "label" "" row);
  check (negb (String.eqb label "")) i "field_label_required" "every fields row needs a 'label'" ;;
  lname ← emit_label label;
  print ("  [#" +:+ lname +:+ "], ") ;;
  match member "variable" row with
  | Some v =>
      var ← read (get_string v);
      match Variables.find var with
      | None => refuse i "unknown_variable" ("no such template variable: '" +:+ var +:+ "'")
      | Some def =>
          print ("[#d.at(" +:+ literal (Variables.input_path def) +:+ ", default: " +:+ dq +:+ dq +:+ ")]," +:+ nl) ;;
          property (Variables.id def) (type_is "string")
      end
  | None =>
      field ← read (value_string "field" "" row);
      check (is_valid_field field) i "invalid_field_name"
        "field names are letters, digits and underscore, not starting with a digit" ;;
      print ("[#d." +:+ field +:+ "]," +:+ nl) ;;
      kk ← read (value_string "label_kk" label row);
      req ← read (value_bool "required" true row);
      declare_field field label kk "string" req
  end.

Fixpoint each (f : json -> M unit) (l : list json) : M unit :=
  match l with [] => mret () | x :: r => f x ;; each f r end.

(** [compile]: src/docgen/BlockCompiler.hpp:189-220. *)
Definition fields_block (i : nat) (b : json) : M unit :=
  match filled_array "rows" b with
  | None => refuse i "fields_rows_required" "a fields block needs a non-empty 'rows' array"
  | Some rows =>
      print ("#table(columns: (auto, 1fr), stroke: none, inset: 2pt," +:+ nl) ;;
      each (field_row i) rows ;;
      print (")" +:+ nl +:+ "#v(3mm)" +:+ nl)
  end.

(** [compile]: src/docgen/BlockCompiler.hpp:232-243.  The columns: their keys, header cells and widths. *)
Fixpoint table_columns (i : nat) (cols : list json) (keys : list string) (header_cells widths : string)
    : M (list string * string * string) :=
  match cols with
  | [] => mret (keys, header_cells, widths)
  | c :: rest =>
      title ← read (value_string "title" "" c);
      key ← read (value_string "key" "" c);
      check (negb (String.eqb title "" || negb (is_valid_field key))) i "table_column_invalid"
        "every column needs a 'title' and a valid 'key'" ;;
      lname ← emit_label title;
      table_columns i rest (keys ++ [key])%list (header_cells +:+ "[*#" +:+ lname +:+ "*], ")
        (widths +:+ (if String.eqb key "name" || String.eqb key "description" then "1fr, " else "auto, "))
  end.

(** [compile]: src/docgen/BlockCompiler.hpp:246-247. *)
Fixpoint cells (first : bool) (keys : list string) : string :=
  match keys with
  | [] => ""
  | k :: r => (if first then "" else ", ") +:+ "[#it.at(" +:+ literal k +:+ ", default: " +:+ dq +:+ dq +:+ ")]" +:+ cells false r
  end.

(** [compile]: src/docgen/BlockCompiler.hpp:250-252. *)
Definition item_props (keys : list string) : list (string * json) :=
  foldl (fun l k => obj_set k (type_is "string") l) [] keys.

(** [compile]: src/docgen/BlockCompiler.hpp:222-260. *)
Definition table_block (i : nat) (b : json) : M unit :=
  match filled_array "columns" b with
  | None => refuse i "table_columns_required" "a table block needs a non-empty 'columns' array"
  | Some cols =>
      items_field ← read (value_string "field" "items" b);
      check (is_valid_field items_field) i "invalid_field_name" "the table's 'field' must be a valid field name" ;;
      r ← table_columns i cols [] "" "";
      let '(keys, header_cells, widths) := r in
      print ("#table(columns: (" +:+ widths +:+ ")," +:+ nl +:+ "  " +:+ header_cells +:+ nl) ;;
      print ("  ..d." +:+ items_field +:+ ".map(it => (" +:+ cells true keys +:+ ")).flatten()" +:+ nl +:+ ")" +:+ nl +:+
             "#v(3mm)" +:+ nl) ;;
      property items_field
        (JObject [("items", JObject [("properties", JObject (item_props keys)); ("type", JString "object")]);
                  ("type", JString "array")]) ;;
      require items_field ;;
      form_field (JObject [("columns", JArray cols); ("field", JString items_field); ("label_kk", JString "Жолдар");
                           ("label_ru", JString "Позиции"); ("widget", JString "table")])
  end.

(** [compile]: src/docgen/BlockCompiler.hpp:262-284. *)
Definition totals_block (i : nat) (b : json) : M unit :=
  tiyn ← read (value_string "field" "total_tiyn" b);
  check (is_valid_field tiyn) i "invalid_field_name" "the totals 'field' must be a valid field name" ;;
  label ← read (value_string "label" "Итого к оплате" b);
  lname ← emit_label label;
  words_label ← read (value_string "words_label" "Сумма прописью" b);
  wname ← emit_label words_label;
  print ("#align(right)[#" +:+ lname +:+ ": #d.total]" +:+ nl) ;;
  print ("#" +:+ wname +:+ ": #d.total_words" +:+ nl +:+ "#v(3mm)" +:+ nl) ;;
  property tiyn (JObject [("minimum", JInt 0); ("type", JString "integer")]) ;;
  property "total" (type_is "string") ;;
  property "total_words" (type_is "string") ;;
  require tiyn ;; require "total" ;; require "total_words" ;;
  kk ← read (value_string "label_kk" label b);
  form_field (JObject [("field", JString tiyn); ("label_kk", JString kk); ("label_ru", JString label);
                       ("widget", JString "money")]).

(** [compile]: src/docgen/BlockCompiler.hpp:294-300. *)
Definition party_cell (i : nat) (party : json) : M unit :=
  title ← read match party with JString s => Ok s | _ => value_string "title" "" party end;
  check (negb (String.eqb title "")) i "signature_title_required" "every signature party needs a title" ;;
  lname ← emit_label title;
  print ("  [#" +:+ lname +:+ " #sigrule]," +:+ nl).

Definition sigrule : string := "#let sigrule = box(width: 1fr, height: 8mm, stroke: (bottom: 0.4pt))" +:+ nl.

(** [compile]: src/docgen/BlockCompiler.hpp:286-301. *)
Definition signatures_block (i : nat) (b : json) : M unit :=
  match filled_array "parties" b with
  | None => refuse i "signature_parties_required" "a signatures block needs a non-empty 'parties' array"
  | Some parties =>
      define sigrule ;;
      print ("#v(6mm)" +:+ nl +:+ "#grid(columns: (1fr,) * " +:+ to_string (Z.of_nat (length parties)) +:+
             ", gutter: 8mm," +:+ nl) ;;
      each (party_cell i) parties ;;
      print (")" +:+ nl)
  end.

(** [compile]: src/docgen/BlockCompiler.hpp:170-309. *)
Definition block (i : nat) (b : json) : M unit :=
  match member "type" b with
  | Some (JString type) =>
      if String.eqb type "header" then header_block i b
      else if String.eqb type "text" then text_block i b
      else if String.eqb type "fields" then fields_block i b
      else if String.eqb type "table" then table_block i b
      else if String.eqb type "totals" then totals_block i b
      else if String.eqb type "signatures" then signatures_block i b
      else if String.eqb type "pagebreak" then print ("#pagebreak()" +:+ nl)
      else refuse i "unknown_block_type" ("no such block type: '" +:+ type +:+ "'")
  | _ => refuse i "block_type_missing" "every block needs a string 'type'"
  end.

(** [compile]: src/docgen/BlockCompiler.hpp:169-172. *)
Fixpoint blocks_from (i : nat) (blocks : list json) : M unit :=
  match blocks with [] => mret () | b :: r => block i b ;; blocks_from (S i) r end.

Definition lines (l : list string) : string := foldr (fun s r => s +:+ nl +:+ r) "" l.

(** [compile]: src/docgen/BlockCompiler.hpp:317-329.  What every source opens with. *)
Definition prologue : string :=
  lines ["// Собран из блоков конструктором (src/docgen/BlockCompiler.hpp).";
         "// Править этот текст руками бессмысленно: источник правды — блоки,";
         "// и следующая публикация соберёт его заново.";
         "#set page(paper: " +:+ dq +:+ "a4" +:+ dq +:+ ", margin: 18mm)";
         "// overhang: Typst свешивает финальный дефис ЗА поле; hyphenate:";
         "// перенос РАЗРЫВАЕТ слово, и объявленная подпись перестаёт";
         "// находиться как непрерывный текст. Локально этот класс дефектов";
         "// не воспроизводится — метрики шрифтов различаются.";
         "#set text(font: " +:+ dq +:+ "Noto Sans" +:+ dq +:+ ", size: 9.2pt, lang: " +:+ dq +:+ "ru" +:+ dq +:+
         ", overhang: false, hyphenate: false)";
         "// Токен со слешем (№ 12/2026, шт/кг) иначе рвётся по слешу.";
         "#show regex(" +:+ dq +:+ "\\S+/\\S+" +:+ dq +:+ "): it => box(it)";
         "#let d = json(" +:+ dq +:+ "input.json" +:+ dq +:+ ")"].

(** [compile]: src/docgen/BlockCompiler.hpp:317-343. *)
Definition assemble (a : Acc) : Compiled :=
  mkCompiled (prologue +:+ preamble a +:+ nl +:+ body a)
    (JObject [("properties", JObject (properties a)); ("required", JArray (required a)); ("type", JString "object")])
    (JObject [("fields", JArray (form_fields a))])
    (lines (labels a) +:+ "margin 18mm" +:+ nl).

(** [compile]: src/docgen/BlockCompiler.hpp:127-143. *)
Definition compile (blocks : json) : outcome (Error + Compiled) :=
  match blocks with
  | JArray [] => Ok (inl (mkError 0 "blocks_empty" "a template needs at least one block"))
  | JArray l =>
      if (200 <? length l)%nat then
        Ok (inl (mkError 0 "too_many_blocks" "a template may not have more than 200 blocks"))
      else
        r ← blocks_from 0 l empty_acc;
        match r with
        | inl e => Ok (inl e)
        | inr (_, a) =>
            match labels a with
            | [] => Ok (inl (mkError 0 "no_static_labels"
                      ("a template with no static label at all cannot be gated — the content layer would have nothing " +:+
                       "to check")))
            | _ => Ok (inr (assemble a))
            end
        end
  | _ => Ok (inl (mkError 0 "blocks_not_array" "blocks must be a JSON array"))
  end.

(** ** Text of the tenant is data *)

(** A Typst string literal: up to the first bare quote, a backslash taking the
    backslash or the quote after it. *)
Fixpoint read_chars (s : string) : option (string * string) :=
  match s with
  | EmptyString => None
  | String c r =>
      if Ascii.eqb c (chr 34) then Some (EmptyString, r)
      else if Ascii.eqb c "\" then
        match r with
        | String e r' =>
            if Ascii.eqb e "\" || Ascii.eqb e (chr 34) then prod_map (String e) id <$> read_chars r' else None
        | EmptyString => None
        end
      else prod_map (String c) id <$> read_chars r
  end.

Definition read_literal (s : string) : option (string * string) :=
  match s with String c r => if Ascii.eqb c (chr 34) then read_chars r else None | EmptyString => None end.

(** A label cannot leave its quotes.  Whatever text a tenant writes, the Typst
    literal made of it reads back as exactly that text, and the reader stops exactly
    where the literal ends, whatever source follows it. *)
Theorem literal_confines raw rest : read_literal (literal raw +:+ rest) = Some (raw, rest).
Proof.
  unfold literal, dq. cbn [read_literal String.append]. replace (Ascii.eqb (chr 34) (chr 34)) with true by reflexivity.
  induction raw as [|c r IH]; [reflexivity|]. cbn [escaped].
  destruct (Ascii.eqb_spec c "\") as [->|Hb]; cbn [orb]; [|destruct (Ascii.eqb_spec c (chr 34)) as [->|Hq]];
    cbn [String.append read_chars].
  - replace (Ascii.eqb "\" (chr 34)) with false by reflexivity. cbn [Ascii.eqb orb].
    replace (Ascii.eqb "\" "\") with true by reflexivity. cbn [orb].
    by rewrite str_app_assoc in IH |- *; rewrite IH.
  - replace (Ascii.eqb "\" (chr 34)) with false by reflexivity. replace (Ascii.eqb "\" "\") with true by reflexivity.
    replace (Ascii.eqb (chr 34) "\" || Ascii.eqb (chr 34) (chr 34)) with true by reflexivity.
    by rewrite str_app_assoc in IH |- *; rewrite IH.
  - rewrite (proj2 (Ascii.eqb_neq c (chr 34)) Hq), (proj2 (Ascii.eqb_neq c "\") Hb).
    by rewrite str_app_assoc in IH |- *; rewrite IH.
Qed.

(** *** Rewriting the labels of a template *)

Definition on_string (f : string -> string) (j : json) : json := match j with JString s => JString (f s) | _ => j end.
Definition on_elements (g : json -> json) (j : json) : json := match j with JArray l => JArray (map g l) | _ => j end.
Definition on_key (k : string) (g : json -> json) (j : json) : json :=
  match j with
  | JObject l => JObject (map (fun e => (e.1, if String.eqb e.1 k then g e.2 else e.2)) l)
  | _ => j
  end.

Definition on_party (f : string -> string) (p : json) : json :=
  match p with JString _ => on_string f p | _ => on_key "title" (on_string f) p end.

(** The same block with [f] applied to every label the tenant wrote. *)
Definition relabel (f : string -> string) (b : json) : json :=
  match member "type" b with
  | Some (JString t) =>
      if String.eqb t "header" then on_key "title" (on_string f) b
      else if String.eqb t "text" then on_key "text" (on_string f) b
      else if String.eqb t "fields" then on_key "rows" (on_elements (on_key "label" (on_string f))) b
      else if String.eqb t "table" then on_key "columns" (on_elements (on_key "title" (on_string f))) b
      else if String.eqb t "totals" then on_key "words_label" (on_string f) (on_key "label" (on_string f) b)
      else if String.eqb t "signatures" then on_key "parties" (on_elements (on_party f)) b
      else b
  | _ => b
  end.

(** A rewriting that makes no label empty and fills none. *)
Definition keeps (f : string -> string) : Prop := forall s, f s = "" <-> s = "".

(** What the preamble is made of; [own] is false for a label the compiler supplied. *)
Inductive item := Let (n : nat) (text : string) (own : bool) | Sigrule.

Definition lab (f : string -> string) (own : bool) (t : string) : string := if own then f t else t.

Definition print_item (f : string -> string) (it : item) : string :=
  match it with
  | Let n t own => "#let " +:+ label_name n +:+ " = " +:+ literal (lab f own t) +:+ nl
  | Sigrule => sigrule
  end.

Definition print_items (f : string -> string) (its : list item) : string :=
  foldr (fun it r => print_item f it +:+ r) "" its.

Definition text_of (f : string -> string) (it : item) : list string :=
  match it with Let _ t own => [lab f own t] | Sigrule => [] end.

Lemma print_items_app f k l : print_items f (k ++ l)%list = print_items f k +:+ print_items f l.
Proof. induction k as [|x k IH]; cbn [print_items foldr app]; [done|]. fold (print_items f (k ++ l)%list). by rewrite IH, str_app_assoc. Qed.

(** Two runs, of a block list and of its rewriting, side by side. *)
Record sim (f : string -> string) (its : list item) (a a' : Acc) : Prop := {
  sim_body : body a' = body a;
  sim_preamble : preamble a' = print_items f its;
  sim_labels : labels a' = concat (map (text_of f) its);
  sim_properties : properties a' = properties a;
  sim_required : required a' = required a;
  sim_counter : literal_counter a' = literal_counter a;
  sim_count : length (labels a') = length (labels a)
}.

Definition tracks {A} (m : M A) (m' : (string -> string) -> M A) : Prop :=
  forall a x a1, m a = Ok (inr (x, a1)) ->
  exists its, forall f its0 a', keeps f -> sim f its0 a a' ->
  exists a1', m' f a' = Ok (inr (x, a1')) /\ sim f (its0 ++ its) a1 a1'.

Lemma tracks_bind {A B} (m : M A) m' (k : A -> M B) k' :
  tracks m m' -> (forall x, tracks (k x) (fun f => k' f x)) -> tracks (m ≫= k) (fun f => m' f ≫= k' f).
Proof.
  intros Hm Hk a y a2. unfold mbind, M_bind. destruct (m a) as [[e|[x a1]]| |] eqn:E; try discriminate. intros E2.
  destruct (Hm _ _ _ E) as [its1 H1], (Hk x _ _ _ E2) as [its2 H2]. exists (its1 ++ its2)%list. intros f its0 a' Hf Hs.
  destruct (H1 f its0 a' Hf Hs) as (a1' & E' & Hs1), (H2 f _ a1' Hf Hs1) as (a2' & E2' & Hs2).
  exists a2'. rewrite E', E2', <- (assoc_L (++)) in *. by split.
Qed.

Lemma tracks_ext {A} (m : M A) m' m'' : (forall f, m' f = m'' f) -> tracks m m'' -> tracks m m'.
Proof.
  intros E H a x a1 Ea. destruct (H _ _ _ Ea) as [its Hi]. exists its. intros f its0 a' Hf Hs.
  destruct (Hi f its0 a' Hf Hs) as (a1' & ? & ?). exists a1'. by rewrite E.
Qed.

(** A read that finds [x] here and [x' f] in the rewriting. *)
Lemma tracks_read {X B} (m : outcome X) m' (k : X -> M B) k' :
  (forall x, m = Ok x -> exists x' : (string -> string) -> X,
     (forall f, keeps f -> m' f = Ok (x' f)) /\ tracks (k x) (fun f => k' f (x' f))) ->
  tracks (read m ≫= k) (fun f => read (m' f) ≫= k' f).
Proof.
  intros H a y a2. unfold mbind, M_bind, read, outcome_bind. destruct m as [x| |] eqn:E; try discriminate. intros E2.
  destruct (H x eq_refl) as (x' & Hx & Hk), (Hk _ _ _ E2) as [its H2]. exists its. intros f its0 a' Hf Hs.
  rewrite (Hx f Hf). by apply H2.
Qed.

(** A read that does not see the labels. *)
Lemma tracks_read_same {X B} (m : outcome X) m' (k : X -> M B) k' :
  (forall f, m' f = m) -> (forall x, tracks (k x) (fun f => k' f x)) ->
  tracks (read m ≫= k) (fun f => read (m' f) ≫= k' f).
Proof. intros E H. apply tracks_read. intros x Ex. exists (fun _ => x). split; [intros f _; by rewrite E, Ex | apply H]. Qed.

Lemma tracks_ret {A} (x : A) : tracks (mret x) (fun _ => mret x).
Proof. intros a y a1 [= <- <-]. exists []. intros f its0 a' _ Hs. exists a'. by rewrite app_nil_r. Qed.

Lemma tracks_refuse {A} i c m (m' : (string -> string) -> M A) : tracks (refuse i c m) m'.
Proof. intros a y a1 [=]. Qed.

Lemma tracks_check c (c' : (string -> string) -> bool) i x y :
  (forall f, keeps f -> c = true -> c' f = true) -> tracks (check c i x y) (fun f => check (c' f) i x y).
Proof.
  intros H a z a1. destruct c; [|discriminate]. intros [= <- <-]. exists []. intros f its0 a' Hf Hs.
  exists a'. rewrite (H f Hf eq_refl), app_nil_r. by split.
Qed.

(** An update that leaves preamble, labels and the counter, and does to the rest the
    same thing. *)
Lemma tracks_update u (u' : (string -> string) -> Acc -> Acc) :
  (forall f its a a', sim f its a a' -> sim f its (u a) (u' f a')) -> tracks (update u) (fun f => update (u' f)).
Proof. intros H a x a1 [= <- <-]. exists []. intros f its0 a' _ Hs. rewrite app_nil_r. eexists. split; [done | by apply H]. Qed.

Lemma tracks_print s : tracks (print s) (fun _ => print s).
Proof. apply tracks_update. intros f its a a' []. split; cbn [body preamble labels properties required literal_counter]; congruence. Qed.

Lemma tracks_property k v : tracks (property k v) (fun _ => property k v).
Proof. apply tracks_update. intros f its a a' []. split; cbn [body preamble labels properties required literal_counter]; congruence. Qed.

Lemma tracks_require k : tracks (require k) (fun _ => require k).
Proof. apply tracks_update. intros f its a a' []. split; cbn [body preamble labels properties required literal_counter]; congruence. Qed.

Lemma tracks_form_field j (j' : (string -> string) -> json) : tracks (form_field j) (fun f => form_field (j' f)).
Proof. apply tracks_update. intros f its a a' []. split; cbn [body preamble labels properties required literal_counter]; congruence. Qed.

Lemma tracks_define : tracks (define sigrule) (fun _ => define sigrule).
Proof.
  intros a x a1 [= <- <-]. exists [Sigrule]. intros f its0 a' _ []. eexists. split; [reflexivity|].
  split; cbn [body preamble labels properties required literal_counter]; try congruence.
  - rewrite sim_preamble0, print_items_app. cbn [print_items foldr print_item]. by rewrite app_empty_r.
  - rewrite map_app, concat_app, sim_labels0. cbn [map text_of concat app]. by rewrite app_nil_r.
Qed.

Lemma tracks_emit_label t own : tracks (emit_label t) (fun f => emit_label (lab f own t)).
Proof.
  intros a x a1 [= <- <-]. exists [Let (literal_counter a) t own]. intros f its0 a' _ []. eexists.
  split; [unfold emit_label; rewrite sim_counter0; reflexivity|].
  split; cbn [body preamble labels properties required literal_counter]; try congruence.
  - rewrite sim_preamble0, print_items_app. cbn [print_items foldr print_item]. by rewrite app_empty_r.
  - rewrite map_app, concat_app, sim_labels0. by cbn [map text_of concat app].
  - by rewrite !length_app, sim_count0.
Qed.

Create HintDb tracks.
#[local] Hint Resolve tracks_ret tracks_refuse tracks_print tracks_property tracks_require tracks_form_field
  tracks_define tracks_emit_label : tracks.

Lemma tracks_each h h' (g : (string -> string) -> json -> json) l :
  (forall x, tracks (h x) (fun f => h' (g f x))) -> tracks (each h l) (fun f => each h' (map (g f) l)).
Proof. intros H. induction l as [|x l IH]; cbn [each map]; [apply tracks_ret|]. by apply tracks_bind. Qed.

Lemma member_on_key k' k g j :
  member k' (on_key k g j) = if String.eqb k' k then g <$> member k j else member k' j.
Proof.
  destruct j as [| | | | |l]; cbn [on_key member]; try (by destruct (String.eqb k' k)).
  induction l as [|[k1 v] l IH]; cbn [map obj_get fst snd]; [by destruct (String.eqb k' k)|].
  destruct (String.eqb_spec k' k1) as [->|Hne].
  - destruct (String.eqb_spec k1 k) as [->|Hk]; [by rewrite String.eqb_refl | done].
  - rewrite IH. destruct (String.eqb_spec k' k) as [->|]; [|done].
    by rewrite (proj2 (String.eqb_neq k k1)) by congruence.
Qed.

Lemma value_other {k k0} d g j : String.eqb k k0 = false -> value_string k d (on_key k0 g j) = value_string k d j.
Proof. intros E. pose proof (member_on_key k k0 g j) as H. rewrite E in H. destruct j; cbn in *; try done. by rewrite H. Qed.

Lemma value_bool_other {k k0} d g j : String.eqb k k0 = false -> value_bool k d (on_key k0 g j) = value_bool k d j.
Proof. intros E. pose proof (member_on_key k k0 g j) as H. rewrite E in H. destruct j; cbn in *; try done. by rewrite H. Qed.

(** A label read: the tenant's, rewritten, or the default, which is not. *)
Lemma value_label k d j x : value_string k d j = Ok x ->
  exists own, (own = false -> x = d) /\ forall f, value_string k d (on_key k (on_string f) j) = Ok (lab f own x).
Proof.
  intros E. destruct j as [| | | | |l]; try discriminate.
  assert (forall f, obj_get k (map (fun e => (e.1, if String.eqb e.1 k then on_string f e.2 else e.2)) l) =
                    on_string f <$> obj_get k l) as Hm.
  { intros f. pose proof (member_on_key k k (on_string f) (JObject l)) as H. cbn [on_key member] in H.
    by rewrite String.eqb_refl in H. }
  cbn [value_string value get_string on_key] in *. destruct (obj_get k l) as [v|] eqn:Ev.
  - destruct v; try discriminate. injection E as <-. exists true. split; [done|]. intros f. by rewrite Hm.
  - injection E as <-. exists false. split; [done|]. intros f. by rewrite Hm.
Qed.

Lemma lab_nonempty f own x d : keeps f -> (own = false -> x = d) ->
  negb (String.eqb x "") = true -> negb (String.eqb (lab f own x) "") = true.
Proof.
  intros Hf _ H. destruct own; cbn [lab]; [|done]. apply negb_true_iff, String.eqb_neq in H. apply negb_true_iff, String.eqb_neq.
  intros Hx. by apply H, Hf.
Qed.

Lemma filled_on_key k g b : filled_array k (on_key k (on_elements g) b) = map g <$> filled_array k b.
Proof.
  unfold filled_array. rewrite member_on_key, String.eqb_refl. destruct (member k b) as [[| | | |[|x l]|]|]; done.
Qed.

(** A label followed by the check that it is not empty. *)
Lemma tracks_label {B} k j i c m (h : string -> M B) (h' : (string -> string) -> string -> M B) :
  (forall own x, tracks (h x) (fun f => h' f (lab f own x))) ->
  tracks (x ← read (value_string k "" j); check (negb (String.eqb x "")) i c m ;; h x)
    (fun f => x ← read (value_string k "" (on_key k (on_string f) j)); check (negb (String.eqb x "")) i c m ;; h' f x).
Proof.
  intros H. apply tracks_read. intros x Ex. destruct (value_label _ _ _ _ Ex) as (own & Hd & Hv).
  exists (fun f => lab f own x). split; [by intros f _|]. apply tracks_bind; [|intros _; apply H].
  apply tracks_check. intros f Hf. by apply (lab_nonempty f own x "").
Qed.

Ltac tracks_step :=
  first [ solve [auto with tracks nocore]
        | apply tracks_bind; [solve [auto with tracks nocore] | intros _]
        | apply tracks_bind; [solve [auto with tracks nocore] | intros ?]
        | apply tracks_read_same; [intros ?; by rewrite ?value_other by reflexivity | intros ?]
        | apply tracks_bind; [apply tracks_check; by intros | intros _] ].

Lemma tracks_header i b : tracks (header_block i b) (fun f => header_block i (on_key "title" (on_string f) b)).
Proof. apply (tracks_label "title"). intros own x. repeat tracks_step. Qed.

Lemma tracks_text i b : tracks (text_block i b) (fun f => text_block i (on_key "text" (on_string f) b)).
Proof. apply (tracks_label "text"). intros own x. repeat tracks_step. Qed.

Lemma tracks_declare n ru (ru' : (string -> string) -> string) kk (kk' : (string -> string) -> string) t r :
  tracks (declare_field n ru kk t r) (fun f => declare_field n (ru' f) (kk' f) t r).
Proof. unfold declare_field. repeat tracks_step. apply tracks_bind; [destruct r; repeat tracks_step | intros ?]. repeat tracks_step. Qed.


Lemma tracks_field_row i b : tracks (field_row i b) (fun f => field_row i (on_key "label" (on_string f) b)).
Proof.
  apply (tracks_label "label"). intros own x. repeat tracks_step.
  eapply tracks_ext. { intros f. rewrite member_on_key. reflexivity. } cbv [String.eqb Ascii.eqb Bool.eqb].
  destruct (member "variable" b) as [v|].
  - apply tracks_read_same; [done|]. intros var. destruct (Variables.find var); repeat tracks_step.
  - apply tracks_read_same; [intros f; by rewrite value_other|]. intros field. repeat tracks_step.
    apply tracks_read. intros kk Ek.
    exists (fun f => match member "label_kk" b with Some _ => kk | None => lab f own x end). split.
    + intros f _. rewrite value_other by done. destruct b; try discriminate. cbn [value_string value get_string member] in *.
      by destruct (obj_get "label_kk" l) as [[]|].
    + apply tracks_read_same; [intros f; by rewrite value_bool_other|]. intros req. apply tracks_declare.
Qed.

Lemma tracks_columns i cols : forall keys hs ws,
  tracks (table_columns i cols keys hs ws)
    (fun f => table_columns i (map (on_key "title" (on_string f)) cols) keys hs ws).
Proof.
  induction cols as [|c cols IH]; intros keys hs ws; cbn [table_columns map]; [apply tracks_ret|].
  apply tracks_read. intros x Ex. destruct (value_label _ _ _ _ Ex) as (own & Hd & Hv). exists (fun f => lab f own x).
  split; [by intros f _|]. apply tracks_read_same; [intros f; by rewrite value_other|]. intros key.
  apply tracks_bind; [|intros _; apply tracks_bind; [apply tracks_emit_label | intros n; apply IH]].
  apply tracks_check. intros f Hf. rewrite !negb_orb, !andb_true_iff. intros [H ->]. split; [|done].
  by apply (lab_nonempty f own x "").
Qed.

Lemma tracks_totals i b :
  tracks (totals_block i b) (fun f => totals_block i (on_key "words_label" (on_string f) (on_key "label" (on_string f) b))).
Proof.
  unfold totals_block. apply tracks_read_same; [intros f; by rewrite !value_other|]. intros tiyn. repeat tracks_step.
  apply tracks_read. intros x Ex. destruct (value_label _ _ _ _ Ex) as (own & _ & Hv). exists (fun f => lab f own x).
  split; [intros f _; by rewrite value_other|]. repeat tracks_step.
  apply tracks_read. intros w Ew. destruct (value_label _ _ _ _ Ew) as (own' & _ & Hw). exists (fun f => lab f own' w).
  split.
  { intros f _. rewrite <- Hw. pose proof (member_on_key "words_label" "words_label" (on_string f)) as E.
    pose proof (member_on_key "words_label" "label" (on_string f) b) as E'. specialize (E b) as E1.
    specialize (E (on_key "label" (on_string f) b)). cbv [String.eqb Ascii.eqb Bool.eqb] in *. rewrite E' in E.
    destruct b; try discriminate. cbn [on_key value_string value get_string member] in *. by rewrite E, E1. }
  repeat tracks_step. apply tracks_read. intros kk Ek.
  exists (fun f => match member "label_kk" b with Some _ => kk | None => lab f own x end). split; [|repeat tracks_step].
  intros f _. rewrite !value_other by done. destruct b; try discriminate. cbn [value_string value get_string member] in *.
  by destruct (obj_get "label_kk" l) as [[]|].
Qed.

Lemma tracks_party i p : tracks (party_cell i p) (fun f => party_cell i (on_party f p)).
Proof.
  assert (forall own x, tracks (lname ← emit_label x; print ("  [#" +:+ lname +:+ " #sigrule]," +:+ nl))
    (fun f => lname ← emit_label (lab f own x); print ("  [#" +:+ lname +:+ " #sigrule]," +:+ nl))) as Hk.
  { intros own x. repeat tracks_step. }
  destruct p as [| | |s| |]; try (apply (tracks_label "title" _ i); intros; apply Hk).
  apply tracks_read. intros x [= <-]. exists (fun f => f s). split; [done|].
  apply tracks_bind; [|intros _; apply (Hk true s)]. apply tracks_check. intros f Hf. by apply (lab_nonempty f true s "").
Qed.

Lemma tracks_fields i b :
  tracks (fields_block i b) (fun f => fields_block i (on_key "rows" (on_elements (on_key "label" (on_string f))) b)).
Proof.
  unfold fields_block. eapply tracks_ext. { intros f. rewrite filled_on_key. reflexivity. }
  destruct (filled_array "rows" b) as [rows|]; cbn [fmap option_fmap option_map]; [|apply tracks_refuse].
  repeat tracks_step. apply tracks_bind; [|intros _; repeat tracks_step].
  apply (tracks_each (field_row i) (field_row i) (fun f => on_key "label" (on_string f))). apply tracks_field_row.
Qed.

Lemma tracks_table i b :
  tracks (table_block i b) (fun f => table_block i (on_key "columns" (on_elements (on_key "title" (on_string f))) b)).
Proof.
  unfold table_block. eapply tracks_ext. { intros f. rewrite filled_on_key. reflexivity. }
  destruct (filled_array "columns" b) as [cols|]; cbn [fmap option_fmap option_map]; [|apply tracks_refuse].
  apply tracks_read_same; [intros f; by rewrite value_other|]. intros items_field. repeat tracks_step.
  apply tracks_bind; [apply tracks_columns|]. intros [[keys hs] ws]. repeat tracks_step.
Qed.

Lemma tracks_signatures i b :
  tracks (signatures_block i b) (fun f => signatures_block i (on_key "parties" (on_elements (on_party f)) b)).
Proof.
  unfold signatures_block. eapply tracks_ext. { intros f. rewrite filled_on_key. reflexivity. }
  destruct (filled_array "parties" b) as [ps|]; cbn [fmap option_fmap option_map]; [|apply tracks_refuse].
  repeat tracks_step. apply tracks_bind; [|intros _; apply tracks_bind; [|intros _; repeat tracks_step]].
  - eapply tracks_ext; [intros f; rewrite length_map; reflexivity|]. apply tracks_print.
  - apply (tracks_each (party_cell i) (party_cell i) on_party). apply tracks_party.
Qed.

Lemma type_relabel f b : member "type" (relabel f b) = member "type" b.
Proof.
  unfold relabel. destruct (member "type" b) as [[]|] eqn:E; try exact E.
  repeat match goal with |- context [if ?c then _ else _] => destruct c end; rewrite ?member_on_key; exact E.
Qed.

Lemma tracks_block i b : tracks (block i b) (fun f => block i (relabel f b)).
Proof.
  eapply tracks_ext.
  { intros f. unfold block. rewrite type_relabel. unfold relabel. reflexivity. }
  unfold block. destruct (member "type" b) as [[| | |t| |]|]; try apply tracks_refuse.
  destruct (String.eqb t "header"); [apply tracks_header|]. destruct (String.eqb t "text"); [apply tracks_text|].
  destruct (String.eqb t "fields"); [apply tracks_fields|]. destruct (String.eqb t "table"); [apply tracks_table|].
  destruct (String.eqb t "totals"); [apply tracks_totals|].
  destruct (String.eqb t "signatures"); [apply tracks_signatures|].
  destruct (String.eqb t "pagebreak"); [apply tracks_print | apply tracks_refuse].
Qed.

Lemma tracks_blocks l : forall i, tracks (blocks_from i l) (fun f => blocks_from i (map (relabel f) l)).
Proof.
  induction l as [|b l IH]; intros i; cbn [blocks_from map]; [apply tracks_ret|].
  apply tracks_bind; [apply tracks_block | intros _; apply IH].
Qed.

Lemma relabel_length f (l : list json) : length (map (relabel f) l) = length l.
Proof. apply length_map. Qed.

Lemma compile_ok l c : compile (JArray l) = Ok (inr c) <->
  exists a, l <> [] /\ (length l <= 200)%nat /\ blocks_from 0 l empty_acc = Ok (inr ((), a)) /\ labels a <> [] /\ c = assemble a.
Proof.
  destruct l as [|b l]; [split; [discriminate | by intros (a & ? & _)]|].
  cbn [compile]. destruct (Nat.ltb_spec 200 (length (b :: l))) as [Hl|Hl].
  { split; [discriminate | intros (a & _ & ? & _); lia]. }
  destruct (blocks_from 0 (b :: l) empty_acc) as [[e|[[] a]]| |] eqn:E; cbn [mbind outcome_bind];
    try (split; [discriminate | by intros (a' & _ & _ & ? & _)]).
  destruct (labels a) as [|t ts] eqn:El.
  - split; [discriminate|]. intros (a' & _ & _ & [= <-] & H & _). by rewrite El in H.
  - split; [intros [= <-]; exists a; rewrite El; done|]. by intros (a' & _ & _ & [= <-] & _ & ->).
Qed.

Lemma on_key_id k g j : (forall x, g x = x) -> on_key k g j = j.
Proof.
  intros Hg. destruct j as [| | | | |l]; cbn [on_key]; try done. f_equal.
  induction l as [|[k' v] l IH]; cbn [map fst snd]; [done|]. rewrite IH. by destruct (String.eqb k' k); rewrite ?Hg.
Qed.

Lemma on_elements_id g j : (forall x, g x = x) -> on_elements g j = j.
Proof.
  intros Hg. destruct j as [| | | |l|]; cbn [on_elements]; try done. f_equal.
  induction l as [|x l IH]; cbn [map]; [done|]. by rewrite Hg, IH.
Qed.

Lemma relabel_id b : relabel (fun t => t) b = b.
Proof.
  assert (forall j, on_string (fun t => t) j = j) as Hs by (by intros []).
  assert (forall p, on_party (fun t => t) p = p) as Hp by (intros []; try done; by apply on_key_id).
  unfold relabel. destruct (member "type" b) as [[]|]; try done.
  repeat (match goal with |- context [if ?c then _ else _] => destruct c end;
    [repeat (rewrite on_key_id || rewrite on_elements_id || intros ?); auto|]). done.
Qed.

(** The labels of a compiled template, in order, as the preamble defines them. *)
Definition labels_of (f : string -> string) (its : list item) : list string := concat (map (text_of f) its).

(** What a list of preamble items and a body make. *)
Definition source_of (f : string -> string) (its : list item) (bdy : string) : string :=
  prologue +:+ print_items f its +:+ nl +:+ bdy.

(** C25: A label is never source.  The code a template compiles to does not depend on
    what its labels say: it is the fixed prologue, one [#let] per label binding the
    label's string literal, and a body that is the same, byte for byte, for every
    rewriting of the labels (one that empties none); the schema of the input is the
    same too, and the list of text the result must print is exactly the labels. *)
Theorem labels_are_data l c : compile (JArray l) = Ok (inr c) ->
  exists its bdy, source c = source_of (fun t => t) its bdy /\
  forall f, keeps f -> exists c',
    compile (JArray (map (relabel f) l)) = Ok (inr c') /\ source c' = source_of f its bdy /\
    schema c' = schema c /\ expected c' = lines (labels_of f its) +:+ "margin 18mm" +:+ nl.
Proof.
  intros (a & Hne & Hlen & E & Hl & ->)%compile_ok.
  destruct (tracks_blocks l 0 _ _ _ E) as [its H]. exists its, (body a). split.
  { destruct (H (fun t => t) [] empty_acc) as (a' & E' & [Hb Hp _ _ _ _ _]); [done | by split |].
    rewrite (map_ext _ (fun b => b) relabel_id), map_id, E in E'. injection E' as ->.
    cbn [assemble source]. by rewrite Hp. }
  intros f Hf. destruct (H f [] empty_acc Hf) as (a' & E' & [Hb Hp Hls Hpr Hr Hc Hn]); [by split|]. cbn [app] in *.
  exists (assemble a'). split.
  - apply compile_ok. exists a'. rewrite relabel_length. repeat split; [by destruct l | done | done |].
    intros E0. rewrite E0 in Hn. by destruct (labels a).
  - cbn [assemble source schema expected]. by rewrite Hb, Hp, Hpr, Hr, Hls.
Qed.

(** *** What the code reads is in the schema *)

(** A reader of Typst source, for the members [d.<name>] it takes of the input: it
    passes over comments and string literals, splits the rest into identifiers
    (letters, digits, underscore, hyphen, anything beyond ASCII), and reports the
    name after [d.], unless a parenthesis makes it the call of a method. *)
Inductive place :=
  AtPlain | InWord | AfterD | AfterDot | InMember (name : string) | AtSlash | InRemark | InString | InEscape.

Definition ident_char (c : ascii) : bool := is_name_char c || Ascii.eqb c "-" || (128 <=? Prelude.code c).

Definition from_plain (c : ascii) : place :=
  if Ascii.eqb c (chr 34) then InString
  else if Ascii.eqb c "/" then AtSlash
  else if Ascii.eqb c "d" then AfterD
  else if ident_char c then InWord
  else AtPlain.

Definition next_place (p : place) (c : ascii) : place :=
  match p with
  | AtPlain => from_plain c
  | InWord => if ident_char c then InWord else from_plain c
  | AfterD => if ident_char c then InWord else if Ascii.eqb c "." then AfterDot else from_plain c
  | AfterDot => if ident_char c then InMember (String c EmptyString) else from_plain c
  | InMember n => if ident_char c then InMember (n +:+ String c EmptyString) else from_plain c
  | AtSlash => if Ascii.eqb c "/" then InRemark else from_plain c
  | InRemark => if Ascii.eqb c (chr 10) then AtPlain else InRemark
  | InString => if Ascii.eqb c (chr 34) then AtPlain else if Ascii.eqb c "\" then InEscape else InString
  | InEscape => InString
  end.

Definition found (p : place) (c : ascii) : list string :=
  match p with InMember n => if ident_char c || Ascii.eqb c "(" then [] else [n] | _ => [] end.

Fixpoint scan (p : place) (s : string) : place * list string :=
  match s with
  | EmptyString => (p, [])
  | String c r => let '(p', ks) := scan (next_place p c) r in (p', found p c ++ ks)%list
  end.

(** The names a source reads of its input. *)
Definition reads (src : string) : list string := (scan AtPlain (src +:+ nl)).2.

Lemma scan_app p s t p' ks : scan p s = (p', ks) -> scan p (s +:+ t) = ((scan p' t).1, (ks ++ (scan p' t).2)%list).
Proof.
  revert p p' ks. induction s as [|c s IH]; intros p p' ks; cbn [scan String.append].
  - intros [= <- <-]. by destruct (scan p t).
  - destruct (scan (next_place p c) s) as [p1 k1] eqn:E. intros [= <- <-]. rewrite (IH _ _ _ E). cbn. by rewrite app_assoc.
Qed.

(** A piece of source that begins and ends in plain code. *)
Definition emits (ks : list string) (s : string) : Prop := scan AtPlain s = (AtPlain, ks).

Lemma emits_app k1 k2 s t : emits k1 s -> emits k2 t -> emits (k1 ++ k2) (s +:+ t).
Proof. intros H1 H2. unfold emits in *. rewrite (scan_app _ _ _ _ _ H1), H2. done. Qed.

Lemma emits_quiet ks s t : emits [] s -> emits ks t -> emits ks (s +:+ t).
Proof. apply (emits_app []). Qed.

Lemma scan_quiet s t : emits [] s -> scan AtPlain (s +:+ t) = scan AtPlain t.
Proof. intros H. rewrite (scan_app _ _ _ _ _ H). by destruct (scan AtPlain t). Qed.

Lemma emits_then ks s t : emits ks s -> emits [] t -> emits ks (s +:+ t).
Proof. intros H1 H2. rewrite <- (app_nil_r ks). by apply emits_app. Qed.

Lemma name_ident c : is_name_char c = true -> ident_char c = true.
Proof. unfold ident_char. by intros ->. Qed.

Lemma scan_word s : str_all ident_char s = true -> scan InWord s = (InWord, []).
Proof. induction s as [|c s IH]; [done|]. cbn [str_all scan next_place]. intros [-> Hs]%andb_true_iff. by rewrite IH. Qed.

Lemma scan_member s : forall n, str_all ident_char s = true -> scan (InMember n) s = (InMember (n +:+ s), []).
Proof.
  induction s as [|c s IH]; intros n; cbn [str_all scan next_place found]; [by rewrite app_empty_r|].
  intros [Hc Hs]%andb_true_iff. rewrite Hc, IH by done. cbn [orb app]. by rewrite str_app_assoc.
Qed.

Lemma scan_quoted c t : c <> chr 34 -> c <> "\"%char -> scan InString (String c t) = scan InString t.
Proof.
  intros Hq Hb. cbn [scan next_place found app]. rewrite (proj2 (Ascii.eqb_neq c _) Hq), (proj2 (Ascii.eqb_neq c _) Hb).
  by destruct (scan InString t).
Qed.

Lemma scan_escape c t : scan InString (String "\" (String c t)) = scan InString t.
Proof.
  cbn [scan found app]. replace (next_place InString "\") with InEscape by reflexivity. cbn [scan found app next_place].
  by destruct (scan InString t).
Qed.

(** A literal is one string to the reader, whatever is in it. *)
Lemma emits_literal raw : emits [] (literal raw).
Proof.
  assert (H : scan InString (escaped raw +:+ dq) = (AtPlain, [])).
  { induction raw as [|c r IH]; [reflexivity|]. cbn [escaped].
    destruct (Ascii.eqb_spec c "\") as [->|Hb]; cbn [orb]; [|destruct (Ascii.eqb_spec c (chr 34)) as [->|Hq]];
      cbn [String.append]; [by rewrite scan_escape | by rewrite scan_escape | by rewrite scan_quoted]. }
  unfold emits, literal. rewrite (scan_app AtPlain dq _ InString []) by reflexivity. by rewrite H.
Qed.

(** The name of a label: an identifier that is not [d]. *)
Definition word (s : string) : Prop := scan AtPlain s = (InWord, []).

Lemma digit_name c : is_digit c = true -> is_name_char c = true.
Proof. unfold is_digit, is_name_char. cbv zeta. intros ->. by rewrite !orb_true_r. Qed.

Lemma from_plain_digit c : is_digit c = true -> from_plain c = InWord.
Proof.
  intros H. unfold from_plain. rewrite (name_ident c) by (by apply digit_name).
  assert (forall x, is_digit x = false -> Ascii.eqb c x = false) as E by (intros x Hx; apply Ascii.eqb_neq; congruence).
  by rewrite !E by reflexivity.
Qed.

Lemma word_label n : word (label_name n).
Proof.
  unfold word, label_name. erewrite scan_app by reflexivity. rewrite scan_word; [done|].
  eapply str_all_impl; [|apply dec_all]. intros c H. by apply name_ident, digit_name.
Qed.

Lemma word_then w s ks : word w -> scan InWord s = (AtPlain, ks) -> emits ks (w +:+ s).
Proof. intros Hw Hs. unfold emits. by rewrite (scan_app _ _ _ _ _ Hw), Hs. Qed.

Lemma valid_names k : is_valid_field k = true -> exists c r, k = String c r /\ ident_char c = true /\ str_all ident_char r = true.
Proof.
  destruct k as [|c r]; [done|]. intros [_ H]%andb_true_iff. cbn [str_all] in H. apply andb_true_iff in H as [Hc Hr].
  exists c, r. split_and!; [done | by apply name_ident | eapply str_all_impl; [|exact Hr]; apply name_ident].
Qed.

(** A valid name after [d.], and what ends it. *)
Lemma emits_member pre k s : scan AtPlain pre = (AfterDot, []) -> is_valid_field k = true ->
  (forall n, scan (InMember n) s = (AtPlain, [n])) -> emits [k] (pre +:+ k +:+ s).
Proof.
  intros Hp (c & r & -> & Hc & Hr)%valid_names Hs. unfold emits. rewrite (scan_app _ _ _ _ _ Hp).
  cbn [String.append scan next_place]. rewrite Hc. rewrite (scan_app _ _ _ _ _ (scan_member r _ Hr)), Hs. done.
Qed.

(** What [m] adds to the body reads the names [ks]; what it adds to the preamble, nothing; its result is [Q]. *)
Definition prints {A} (ks : list string) (Q : A -> Prop) (m : M A) : Prop :=
  forall a x a1, m a = Ok (inr (x, a1)) ->
  exists s p, body a1 = body a +:+ s /\ preamble a1 = preamble a +:+ p /\ emits ks s /\ emits [] p /\ Q x.

Lemma prints_bind {A B} k1 k2 Q R (m : M A) (k : A -> M B) :
  prints k1 Q m -> (forall x, Q x -> prints k2 R (k x)) -> prints (k1 ++ k2) R (m ≫= k).
Proof.
  intros Hm Hk a y a2. unfold mbind, M_bind. destruct (m a) as [[e|[x a1]]| |] eqn:E; try discriminate. intros E2.
  destruct (Hm _ _ _ E) as (s1 & p1 & Hb1 & Hp1 & Hs1 & Hq1 & HQ), (Hk x HQ _ _ _ E2) as (s2 & p2 & Hb2 & Hp2 & Hs2 & Hq2 & HR).
  exists (s1 +:+ s2), (p1 +:+ p2). rewrite Hb2, Hb1, Hp2, Hp1, !str_app_assoc.
  split_and!; [done | done | by apply emits_app | by apply emits_quiet | done].
Qed.

Lemma prints_skip {A B} ks Q R (m : M A) (k : A -> M B) :
  prints [] Q m -> (forall x, Q x -> prints ks R (k x)) -> prints ks R (m ≫= k).
Proof. apply (prints_bind []). Qed.

Lemma prints_first {A B} ks Q R (m : M A) (k : A -> M B) :
  prints ks Q m -> (forall x, Q x -> prints [] R (k x)) -> prints ks R (m ≫= k).
Proof. intros. rewrite <- (app_nil_r ks). by eapply prints_bind. Qed.

Lemma prints_read {X B} ks R (m : outcome X) (k : X -> M B) : (forall x, m = Ok x -> prints ks R (k x)) -> prints ks R (read m ≫= k).
Proof. intros H a y a2. unfold mbind, M_bind, read, outcome_bind. destruct m as [x| |] eqn:E; try discriminate. by apply H. Qed.

Lemma prints_check {B} ks R c i x y (k : M B) : (c = true -> prints ks R k) -> prints ks R (check c i x y ;; k).
Proof. intros H a z a2. destruct c; [by apply H | discriminate]. Qed.

Lemma prints_print ks s : emits ks s -> prints ks (fun _ => True) (print s).
Proof. intros Hs a x a1 [= <- <-]. exists s, "". cbn [body preamble]. by rewrite app_empty_r. Qed.

(** A step that writes no source. *)
Lemma prints_silent {A} (Q : A -> Prop) (m : M A) :
  (forall a x a1, m a = Ok (inr (x, a1)) -> body a1 = body a /\ preamble a1 = preamble a /\ Q x) -> prints [] Q m.
Proof. intros H a x a1 E. destruct (H _ _ _ E) as (Hb & Hp & HQ). exists "", "". rewrite Hb, Hp, !app_empty_r. done. Qed.

Lemma prints_emit_label t : prints [] word (emit_label t).
Proof.
  intros a x a1 [= <- <-]. exists "", ("#let " +:+ label_name (literal_counter a) +:+ " = " +:+ literal t +:+ nl).
  cbn [body preamble]. rewrite app_empty_r. split_and!; [done | done | done | | apply word_label].
  apply (emits_quiet [] "#let "); [reflexivity|]. unfold emits. rewrite (scan_app _ _ _ _ _ (word_label _)).
  rewrite (scan_app InWord " = " _ AtPlain []) by reflexivity. by rewrite (scan_quiet _ nl (emits_literal t)).
Qed.

Lemma prints_refuse {A} ks (Q : A -> Prop) i c m : prints ks Q (refuse i c m).
Proof. intros a x a1 [=]. Qed.

Definition read_name (m : outcome string) : list string := match m with Ok k => [k] | _ => [] end.

(** The names each block puts after [d.]: its form fields, the items of its table, its two printed sums. *)
Definition row_names (row : json) : list string :=
  match member "variable" row with Some _ => [] | None => read_name (value_string "field" "" row) end.

Definition block_names (b : json) : list string :=
  match member "type" b with
  | Some (JString t) =>
      if String.eqb t "fields" then concat (map row_names (default [] (filled_array "rows" b)))
      else if String.eqb t "table" then read_name (value_string "field" "items" b)
      else if String.eqb t "totals" then ["total"; "total_words"]
      else []
  | _ => []
  end.

Definition names_of (l : list json) : list string := concat (map block_names l).

Definition anything {A} : A -> Prop := fun _ => True.

Ltac silent := apply (prints_silent anything); intros ? ? ?; first [intros [= <- <-]; done | discriminate].
Ltac prints_silently := eapply (prints_skip _ anything); [silent | intros ? _].

Lemma prints_declare n ru kk t r : prints [] anything (declare_field n ru kk t r).
Proof. unfold declare_field. prints_silently. eapply (prints_skip _ anything); [destruct r; silent | intros _ _]. silent. Qed.

(** A label in the middle of a printed line. *)
Lemma emits_label pre w post : word w -> emits [] pre -> scan InWord post = (AtPlain, []) -> emits [] (pre +:+ w +:+ post).
Proof. intros Hw Hp Hs. apply emits_quiet; [done|]. by apply word_then. Qed.

Lemma prints_row i row : prints (row_names row) anything (field_row i row).
Proof.
  unfold field_row, row_names. apply prints_read. intros label _. apply prints_check. intros _.
  eapply prints_skip; [apply prints_emit_label | intros lname Hl].
  eapply prints_skip; [apply prints_print, emits_label; done | intros _ _].
  destruct (member "variable" row) as [v|].
  - apply prints_read. intros var _. destruct (Variables.find var); [|apply prints_refuse].
    eapply prints_skip; [apply prints_print | intros _ _; silent].
    apply (emits_quiet [] "[#d.at("); [reflexivity|]. by apply emits_quiet; [apply emits_literal|].
  - destruct (value_string "field" "" row) as [field| |] eqn:E; try (intros ? ? ? [=]; fail).
    change (prints [field] anything (check (is_valid_field field) i "invalid_field_name"
      "field names are letters, digits and underscore, not starting with a digit" ;;
      print ("[#d." +:+ field +:+ "]," +:+ nl) ;;
      kk ← read (value_string "label_kk" label row);
      req ← read (value_bool "required" true row);
      declare_field field label kk "string" req)).
    apply prints_check. intros Hv. eapply prints_first; [apply prints_print, emits_member; done | intros _ _].
    apply prints_read. intros kk _. apply prints_read. intros req _. apply prints_declare.
Qed.

Lemma prints_each {f : json -> M unit} g l :
  (forall x, prints (g x) anything (f x)) -> prints (concat (map g l)) anything (each f l).
Proof.
  intros H. induction l as [|x l IH]; cbn [each map concat]; [silent|].
  eapply prints_bind; [apply H | intros _ _; exact IH].
Qed.

Lemma prints_columns i cols : forall keys hs ws, emits [] hs -> emits [] ws ->
  prints [] (fun r => emits [] r.1.2 /\ emits [] r.2) (table_columns i cols keys hs ws).
Proof.
  induction cols as [|c cols IH]; intros keys hs ws Hh Hw; cbn [table_columns]; [by apply prints_silent; intros ? ? ? [= <- <-]|].
  apply prints_read. intros title _. apply prints_read. intros key _. apply prints_check. intros _.
  eapply prints_skip; [apply prints_emit_label | intros n Hn]. apply IH.
  - apply emits_quiet; [done|]. by apply (emits_label "[*#").
  - apply emits_quiet; [done|]. by destruct (_ || _).
Qed.

Lemma emits_cells keys : forall first, emits [] (cells first keys).
Proof.
  induction keys as [|k keys IH]; intros first; cbn [cells]; [done|].
  apply emits_quiet; [by destruct first|]. apply (emits_quiet [] "[#it.at("); [reflexivity|].
  apply emits_quiet; [apply emits_literal|]. apply (emits_quiet [] ", default: "); [reflexivity|].
  apply (emits_quiet [] (dq +:+ dq +:+ ")]")); [reflexivity | apply IH].
Qed.

Lemma prints_table i b : prints (read_name (value_string "field" "items" b)) anything (table_block i b).
Proof.
  unfold table_block. destruct (filled_array "columns" b) as [cols|]; [|apply prints_refuse].
  destruct (value_string "field" "items" b) as [k| |] eqn:E; try (intros ? ? ? [=]; fail). cbn [read_name].
  intros a x a1 Ha. revert a x a1 Ha. apply (prints_read [k]). intros ? [= <-]. apply prints_check. intros Hv.
  eapply prints_skip; [by apply prints_columns | intros [[keys hs] ws] [Hh Hw]]. cbn [fst snd] in *.
  eapply prints_skip; [apply prints_print | intros _ _].
  { apply (emits_quiet [] "#table(columns: ("); [reflexivity|]. apply emits_quiet; [done|].
    apply (emits_quiet [] ("),"+:+ nl +:+ "  ")); [reflexivity|]. by apply emits_quiet. }
  eapply prints_first; [apply prints_print | intros _ _; prints_silently; prints_silently; silent].
  change (".map(it => (" +:+ ?s) with (".map(it => (" +:+ s).
  pose proof (emits_member "  ..d." k (".map(it => (" +:+ cells true keys +:+ ")).flatten()" +:+ nl +:+ ")" +:+ nl +:+ "#v(3mm)" +:+ nl)) as H.
  apply H; [reflexivity | done |]. intros n. rewrite (scan_app (InMember n) ".map(it => (" _ AtPlain [n]) by reflexivity.
  by rewrite (scan_quiet _ _ (emits_cells keys true)).
Qed.

Lemma prints_totals i b : prints ["total"; "total_words"] anything (totals_block i b).
Proof.
  unfold totals_block. apply prints_read. intros tiyn _. apply prints_check. intros _.
  apply prints_read. intros label _. eapply prints_skip; [apply prints_emit_label | intros lname Hl].
  apply prints_read. intros words _. eapply prints_skip; [apply prints_emit_label | intros wname Hw].
  apply (prints_bind ["total"] ["total_words"] anything).
  { apply prints_print. apply (emits_quiet ["total"] "#align(right)[#"); [reflexivity|]. by apply word_then. }
  intros _ _. eapply prints_first; [apply prints_print | intros _ _].
  { apply (emits_quiet ["total_words"] "#"); [reflexivity|]. by apply word_then. }
  do 6 prints_silently. apply prints_read. intros kk _. silent.
Qed.

Lemma prints_label_line pre w post : word w -> emits [] pre -> scan InWord post = (AtPlain, []) ->
  prints [] anything (print (pre +:+ w +:+ post)).
Proof. intros. by apply prints_print, emits_label. Qed.

Lemma prints_block i b : prints (block_names b) anything (block i b).
Proof.
  unfold block, block_names. destruct (member "type" b) as [[| | |t| |]|]; try apply prints_refuse.
  destruct (String.eqb_spec t "header") as [->|_].
  { apply prints_read. intros x _. apply prints_check. intros _. eapply prints_skip; [apply prints_emit_label | intros n Hn].
    by apply (prints_label_line ("#align(center)[#text(size: 13pt, weight: " +:+ dq +:+ "bold" +:+ dq +:+ ")[#")). }
  destruct (String.eqb_spec t "text") as [->|_].
  { apply prints_read. intros x _. apply prints_check. intros _. eapply prints_skip; [apply prints_emit_label | intros n Hn].
    by apply (prints_label_line "#"). }
  destruct (String.eqb t "fields").
  { unfold fields_block. destruct (filled_array "rows" b) as [rows|]; [|apply prints_refuse]. cbn [default].
    eapply prints_skip; [by apply prints_print | intros _ _].
    eapply prints_first; [apply prints_each, prints_row | intros _ _; by apply prints_print]. }
  destruct (String.eqb t "table"); [apply prints_table|]. destruct (String.eqb t "totals"); [apply prints_totals|].
  destruct (String.eqb t "signatures"); [|destruct (String.eqb t "pagebreak"); [by apply prints_print | apply prints_refuse]].
  unfold signatures_block. destruct (filled_array "parties" b) as [ps|]; [|apply prints_refuse].
  eapply (prints_skip _ anything).
  { intros a x a1 [= <- <-]. exists "", sigrule. cbn [body preamble]. by rewrite app_empty_r. }
  intros _ _. eapply prints_skip; [apply prints_print | intros _ _].
  { apply (emits_quiet [] ("#v(6mm)" +:+ nl +:+ "#grid(columns: (1fr,) * ")); [reflexivity|].
    unfold emits. rewrite to_string_nonneg by lia.
    assert (H : scan AtPlain (dec (Z.of_nat (length ps))) = (InWord, [])); [|by rewrite (scan_app _ _ _ _ _ H)].
    destruct (dec (Z.of_nat (length ps))) as [|c r] eqn:Ed; [pose proof (dec_digits_nonempty 19 (Z.of_nat (length ps))) as Hn; unfold dec in Ed; rewrite Ed in Hn; cbn in Hn; lia|].
    pose proof (dec_all (Z.of_nat (length ps))) as Hd. rewrite Ed in Hd. cbn [str_all] in Hd. apply andb_true_iff in Hd as [Hc Hr].
    cbn [scan next_place found]. rewrite (from_plain_digit c Hc), scan_word; [done|].
    eapply str_all_impl; [|exact Hr]. intros x Hx. by apply name_ident, digit_name. }
  eapply prints_first; [|intros _ _; by apply prints_print].
  replace (@nil string) with (concat (map (fun _ : json => @nil string) ps)) by (by induction ps).
  apply prints_each. intros p. apply prints_read. intros title _. apply prints_check. intros _.
  eapply prints_skip; [apply prints_emit_label | intros n Hn]. by apply (prints_label_line "  [#").
Qed.

Lemma prints_blocks l : forall i, prints (names_of l) anything (blocks_from i l).
Proof.
  induction l as [|b l IH]; intros i; cbn [blocks_from]; [silent|].
  eapply prints_bind; [apply prints_block | intros _ _; apply IH].
Qed.

(** What the source of a compiled template reads. *)
Lemma compiled_reads l c : compile (JArray l) = Ok (inr c) -> reads (source c) = names_of l.
Proof.
  intros (a & _ & _ & E & _ & ->)%compile_ok. destruct (prints_blocks l 0 _ _ _ E) as (s & p & Hb & Hp & Hs & Hq & _).
  cbn [body preamble empty_acc String.append] in *. cbn [assemble source]. rewrite Hb, Hp. unfold reads.
  enough (emits (names_of l) ((prologue +:+ p +:+ nl +:+ s) +:+ nl)) as H by (by rewrite H).
  apply emits_then; [|done]. apply emits_quiet; [vm_compute; reflexivity|]. apply emits_quiet; [done|].
  by apply emits_quiet.
Qed.

Definition declared (k : string) (a : Acc) : Prop := is_valid_field k = true /\ is_Some (obj_get k (properties a)).

(** The schema of a property as the compiler writes it: a text, an amount or a list. *)
Definition plain (v : json) : Prop :=
  member "$ref" v = None /\ member "properties" v = None /\
  exists t, member "type" v = Some (JString t) /\ t ∈ ["string"; "integer"; "array"].

Definition all_plain (a : Acc) : Prop := Forall (fun e => plain e.2) (properties a).

(** [m] declares the names [ks], forgets none and keeps the schemas plain. *)
Definition declares {A} (ks : list string) (m : M A) : Prop :=
  forall a x a1, m a = Ok (inr (x, a1)) ->
  (all_plain a -> all_plain a1) /\ forall k, k ∈ ks \/ declared k a -> declared k a1.

Lemma declares_bind {A B} k1 k2 ks (m : M A) (k : A -> M B) :
  declares k1 m -> (forall x, declares k2 (k x)) -> ks ⊆ (k1 ++ k2)%list -> declares ks (m ≫= k).
Proof.
  intros Hm Hk Hks a y a2. unfold mbind, M_bind. destruct (m a) as [[e|[x a1]]| |] eqn:E; try discriminate. intros E2.
  destruct (Hm _ _ _ E) as [Hp1 Hd1], (Hk x _ _ _ E2) as [Hp2 Hd2]. split; [auto|]. intros n Hn. apply Hd2.
  destruct Hn as [Hn|Hn]; [apply Hks, elem_of_app in Hn as [Hn|Hn]; [right; apply Hd1|]; by left | right; apply Hd1; by right].
Qed.

Lemma declares_skip {A B} ks (m : M A) (k : A -> M B) :
  declares [] m -> (forall x, declares ks (k x)) -> declares ks (m ≫= k).
Proof. intros. by apply (declares_bind [] ks). Qed.

Lemma declares_first {A B} ks (m : M A) (k : A -> M B) :
  declares ks m -> (forall x, declares [] (k x)) -> declares ks (m ≫= k).
Proof. intros. apply (declares_bind ks []); [done..|]. by rewrite app_nil_r. Qed.

Lemma declares_read {X B} ks (m : outcome X) (k : X -> M B) :
  (forall x, m = Ok x -> declares ks (k x)) -> declares ks (read m ≫= k).
Proof.
  intros H a y a2. unfold mbind, M_bind, read, outcome_bind. destruct m as [x| |] eqn:E; try discriminate. by apply H.
Qed.

Lemma declares_check {B} ks c i x y (k : M B) : (c = true -> declares ks k) -> declares ks (check c i x y ;; k).
Proof. intros H a z a2. destruct c; [by apply H | discriminate]. Qed.

Lemma declares_nothing {A} (m : M A) :
  (forall a x a1, m a = Ok (inr (x, a1)) -> properties a1 = properties a) -> declares [] m.
Proof.
  intros H a x a1 E. unfold all_plain, declared. rewrite (H _ _ _ E). split; [done|].
  intros k [Hk|?]; [by apply elem_of_nil in Hk | done].
Qed.

Lemma declares_less {A} k1 k2 (m : M A) : k2 ⊆ k1 -> declares k1 m -> declares k2 m.
Proof.
  intros H Hm a x a1 E. destruct (Hm _ _ _ E) as [? Hd]. split; [done|].
  intros k [Hk|Hk]; apply Hd; [left; by apply H | by right].
Qed.

Lemma plain_set k v l : plain v -> Forall (fun e => plain e.2) l -> Forall (fun e => plain e.2) (obj_set k v l).
Proof.
  intros Hv. induction 1 as [|[k' v'] l Hx Hl IH]; cbn [obj_set]; [by apply Forall_singleton|].
  destruct (String.eqb k k'); [by apply Forall_cons|]. destruct (String.ltb k k'); repeat (apply Forall_cons; split); done.
Qed.

Lemma declares_keep k v : plain v -> declares [] (property k v).
Proof.
  intros Hp a x a1 [= <- <-]. split; [by apply plain_set|].
  intros n [Hn|[? Hn]]; [by apply elem_of_nil in Hn|]. split; [done|]. cbn [properties].
  rewrite obj_get_set. by destruct (String.eqb n k).
Qed.

Lemma declares_property k v : plain v -> is_valid_field k = true -> declares [k] (property k v).
Proof.
  intros Hp Hv a x a1 [= <- <-]. split; [by apply plain_set|]. intros n Hn. unfold declared. cbn [properties].
  rewrite obj_get_set. destruct Hn as [->%list_elem_of_singleton|[? Hn]]; [by rewrite String.eqb_refl|].
  by destruct (String.eqb n k).
Qed.

Lemma plain_string : plain (type_is "string").
Proof. repeat split. exists "string". split; [done | apply list_elem_of_here]. Qed.
Lemma plain_amount : plain (JObject [("minimum", JInt 0); ("type", JString "integer")]).
Proof. repeat split. exists "integer". split; [done | right; apply list_elem_of_here]. Qed.
Lemma plain_array l : plain (JObject [("items", l); ("type", JString "array")]).
Proof. repeat split. exists "array". split; [done | right; right; apply list_elem_of_here]. Qed.
#[local] Hint Resolve plain_string plain_amount plain_array : tracks.

Ltac declares_leaf := first [ apply declares_keep; solve [auto with tracks nocore] | apply declares_property; [solve [auto with tracks nocore] | done]
  | apply declares_nothing; intros ? ? ?; try (intros [= <- <-]); (done || discriminate || (intros [=]; done)) ].
Lemma declares_row i row : declares (row_names row) (field_row i row).
Proof.
  unfold field_row, row_names. apply declares_read. intros label _. apply declares_check. intros _.
  apply declares_skip; [declares_leaf | intros lname].
  apply declares_skip; [declares_leaf | intros _].
  destruct (member "variable" row) as [v|].
  - apply declares_read. intros var _. destruct (Variables.find var); [|declares_leaf].
    apply declares_skip; [declares_leaf | intros _; declares_leaf].
  - destruct (value_string "field" "" row) as [field| |] eqn:E; try (intros ? ? ? [=]; fail).
    change (declares [field] (check (is_valid_field field) i "invalid_field_name"
      "field names are letters, digits and underscore, not starting with a digit" ;;
      print ("[#d." +:+ field +:+ "]," +:+ nl) ;;
      kk ← read (value_string "label_kk" label row);
      req ← read (value_bool "required" true row);
      declare_field field label kk "string" req)).
    apply declares_check. intros Hv. apply declares_skip; [declares_leaf | intros _].
    apply declares_read. intros kk _. apply declares_read. intros req _. unfold declare_field.
    apply declares_first; [declares_leaf | intros _].
    apply declares_skip; [destruct req; declares_leaf | intros _; declares_leaf].
Qed.

Lemma declares_each f g l : (forall x, declares (g x) (f x)) -> declares (concat (map g l)) (each f l).
Proof.
  intros H. induction l as [|x l IH]; cbn [each map concat]; [declares_leaf|].
  eapply declares_bind; [apply H | intros _; exact IH | done].
Qed.

Lemma declares_columns i cols : forall keys hs ws, declares [] (table_columns i cols keys hs ws).
Proof.
  induction cols as [|c cols IH]; intros keys hs ws; cbn [table_columns]; [declares_leaf|].
  apply declares_read. intros title _. apply declares_read. intros key _. apply declares_check. intros _.
  eapply (declares_bind []); [declares_leaf | intros n; apply IH | done].
Qed.

Lemma declares_table i b : declares (read_name (value_string "field" "items" b)) (table_block i b).
Proof.
  unfold table_block. destruct (filled_array "columns" b) as [cols|]; [|intros ? ? ? [=]].
  destruct (value_string "field" "items" b) as [k| |] eqn:E; try (intros ? ? ? [=]; fail). cbn [read_name].
  intros a x a1 Ha. revert a x a1 Ha. apply (declares_read [k]). intros ? [= <-]. apply declares_check. intros Hv.
  apply declares_skip; [apply declares_columns | intros [[keys hs] ws]].
  apply declares_skip; [declares_leaf | intros _].
  apply declares_skip; [declares_leaf | intros _].
  apply declares_first; [declares_leaf | intros _].
  apply declares_skip; [declares_leaf | intros _; declares_leaf].
Qed.

Lemma declares_totals i b : declares ["total"; "total_words"] (totals_block i b).
Proof.
  unfold totals_block. apply declares_read. intros tiyn _. apply declares_check. intros _.
  apply declares_read. intros label _. apply declares_skip; [declares_leaf | intros lname].
  apply declares_read. intros words _. apply declares_skip; [declares_leaf | intros wname].
  do 2 (apply declares_skip; [declares_leaf | intros _]).
  apply declares_skip; [declares_leaf | intros _].
  eapply (declares_bind ["total"] ["total_words"]); [declares_leaf | intros _ | done].
  apply declares_first; [declares_leaf | intros _].
  do 3 (apply declares_skip; [declares_leaf | intros _]).
  apply declares_read. intros kk _. declares_leaf.
Qed.

Lemma declares_label {B} k i c m j (h : string -> M B) : (forall x, declares [] (h x)) ->
  declares [] (x ← read (value_string k "" j); check (negb (String.eqb x "")) i c m ;; h x).
Proof. intros H. apply declares_read. intros x _. apply declares_check. by intros _. Qed.

Lemma declares_emit_print (s : string -> string) x : declares [] (name ← emit_label x; print (s name)).
Proof. apply declares_skip; [declares_leaf | intros n; declares_leaf]. Qed.

Lemma declares_block i b : declares (block_names b) (block i b).
Proof.
  unfold block, block_names. destruct (member "type" b) as [[| | |t| |]|]; try (intros ? ? ? [=]; fail).
  destruct (String.eqb_spec t "header") as [->|_]; [apply declares_label; intros x; apply declares_emit_print|].
  destruct (String.eqb_spec t "text") as [->|_]; [apply declares_label; intros x; apply declares_emit_print|].
  destruct (String.eqb t "fields").
  { unfold fields_block. destruct (filled_array "rows" b) as [rows|]; [|intros ? ? ? [=]]. cbn [default].
    apply declares_skip; [declares_leaf | intros _].
    apply declares_first; [apply declares_each, declares_row | intros _; declares_leaf]. }
  destruct (String.eqb t "table"); [apply declares_table|]. destruct (String.eqb t "totals"); [apply declares_totals|].
  destruct (String.eqb t "signatures"); [|destruct (String.eqb t "pagebreak"); [declares_leaf | intros ? ? ? [=]]].
  unfold signatures_block. destruct (filled_array "parties" b) as [ps|]; [|intros ? ? ? [=]].
  do 2 (apply declares_skip; [declares_leaf | intros _]).
  eapply (declares_bind [] []); [| intros _; declares_leaf | done].
  apply (declares_less (concat (map (fun _ => []) ps))); [by intros ? ?%elem_of_nil|]. apply declares_each. intros p.
  apply declares_read. intros title _. apply declares_check. intros _. apply declares_emit_print.
Qed.

Lemma declares_blocks l : forall i, declares (names_of l) (blocks_from i l).
Proof.
  induction l as [|b l IH]; intros i; cbn [blocks_from names_of map concat]; [declares_leaf|].
  eapply declares_bind; [apply declares_block | intros _; apply IH | done].
Qed.

(** The schema of a compiled template. *)
Lemma compiled_schema l c : compile (JArray l) = Ok (inr c) ->
  exists ps req, schema c = JObject [("properties", JObject ps); ("required", req); ("type", JString "object")] /\
    Forall (fun e => plain e.2) ps /\
    forall k, k ∈ names_of l -> is_valid_field k = true /\ is_Some (obj_get k ps).
Proof.
  intros (a & _ & _ & E & _ & ->)%compile_ok. destruct (declares_blocks l 0 _ _ _ E) as [Hp Hd].
  exists (properties a), (JArray (required a)). split; [done|]. split; [apply Hp, Forall_nil_2|]. intros k Hk. apply Hd. by left.
Qed.

(** C26: The code reads nothing the schema does not declare.  Whatever blocks compile, read
    the Typst source that comes out, past its comments and string literals: every name
    that follows [d.] in it (the calls of a method, [d.at] with its default, aside) is a
    valid identifier and a property of the schema the compiler gives with the source. *)
Theorem reads_are_declared l c k : compile (JArray l) = Ok (inr c) -> k ∈ reads (source c) ->
  is_valid_field k = true /\ exists ps, member "properties" (schema c) = Some (JObject ps) /\ is_Some (obj_get k ps).
Proof.
  intros E Hk. rewrite (compiled_reads _ _ E) in Hk. destruct (compiled_schema _ _ E) as (ps & req & -> & _ & H).
  destruct (H k Hk) as [Hv Hd]. split; [done|]. by exists ps.
Qed.

(** ** Concrete templates *)

Definition sample : list json := [
  JObject [("title", JString "Акт #1"); ("type", JString "header")];
  JObject [("rows", JArray [JObject [("field", JString "number"); ("label", JString "№")];
                            JObject [("label", JString "БИН"); ("variable", JString "org.bin")]]);
           ("type", JString "fields")]].

Definition sample_out : Compiled :=
  match compile (JArray sample) with Ok (inr c) => c | _ => mkCompiled "" JNull JNull "" end.

Example sample_schema : schema sample_out =
  JObject [("properties", JObject [("number", type_is "string"); ("org.bin", type_is "string")]);
           ("required", JArray [JString "number"]); ("type", JString "object")].
Proof. vm_compute. reflexivity. Qed.

(** A label that is not text is not refused: reading it throws. *)
Example ill_typed_title_throws :
  compile (JArray [JObject [("title", JInt 5); ("type", JString "header")]]) = type_error.
Proof. reflexivity. Qed.

Lemma labels_are_data_witness :
  compile (JArray sample) = Ok (inr sample_out) /\
  exists its bdy, source sample_out = source_of (fun t => t) its bdy /\
  forall f, keeps f -> exists c',
    compile (JArray (map (relabel f) sample)) = Ok (inr c') /\ source c' = source_of f its bdy /\
    schema c' = schema sample_out /\ expected c' = lines (labels_of f its) +:+ "margin 18mm" +:+ nl.
Proof.
  assert (E : compile (JArray sample) = Ok (inr sample_out)) by (vm_compute; reflexivity).
  split; [exact E|]. exact (labels_are_data sample sample_out E).
Defined.

Lemma reads_are_declared_witness :
  exists ps, member "properties" (schema sample_out) = Some (JObject ps) /\ is_Some (obj_get "number" ps).
Proof.
  apply (reads_are_declared sample sample_out "number"); [vm_compute; reflexivity|].
  replace (reads (source sample_out)) with ["number"] by (vm_compute; reflexivity). apply list_elem_of_here.
Defined.

End Blocks.
