(* ===== verification/Utils.v ===== *)
(** * Shared helpers (src/utils)

    base64url, string and timestamp helpers, retry with backoff. *)
From Stdlib Require Import ZArith Lia Ascii String.
From S2P Require Import Prelude.
Open Scope string_scope.
Open Scope Z_scope.

(** ** base64url (src/utils/Base64.hpp) *)
Module Base64.

Definition alpha : string := "ABCDEFGHIJKLMNOPQRSTUVWXYZabcdefghijklmnopqrstuvwxyz0123456789-_".

(** [alpha[i]]; every index of the code is masked to six bits. *)
Definition alpha_at (i : Z) : ascii :=
  match String.get (Z.to_nat i) alpha with Some c => c | None => "A"%char end.

Definition table (c : ascii) : Z :=
  match str_find c alpha with Some n => Z.of_nat n | None => -1 end.

Definition u32 (z : Z) : Z := z mod 2 ^ 32.

(** [while (bits >= 6)]: at most two rounds, [bits] being below 14. *)
Fixpoint drain (fuel : nat) (buf bits : Z) : string * Z :=
  match fuel with
  | O => ("", bits)
  | S f =>
      if 6 <=? bits then
        let r := drain f buf (bits - 6) in
        (String (alpha_at (Z.land (Z.shiftr buf (bits - 6)) 63)) r.1, r.2)
      else ("", bits)
  end.

Fixpoint encode_loop (s : string) (buf bits : Z) : string :=
  match s with
  | "" =>
      if 0 <? bits then String (alpha_at (Z.land (u32 (Z.shiftl buf (6 - bits))) 63)) "" else ""
  | String c rest =>
      let buf' := Z.lor (u32 (Z.shiftl buf 8)) (code c) in
      let r := drain 2 buf' (bits + 8) in
      r.1 +:+ encode_loop rest buf' r.2
  end.

(** [url_encode]: src/utils/Base64.hpp:20-37. *)
Definition url_encode (s : string) : string := encode_loop s 0 0.

Definition skipped (c : ascii) : bool :=
  Ascii.eqb c "=" || Ascii.eqb c (ascii_of_nat 10) || Ascii.eqb c (ascii_of_nat 13).

(** The loop of [url_decode] with the two checks after it. *)
Fixpoint decode_loop (s : string) (buf bits : Z) (ndigits : nat) : outcome string :=
  match s with
  | "" =>
      if (Nat.modulo ndigits 4 =? 1)%nat then Throw (Exn std_runtime_error "invalid base64url length")
      else if (0 <? bits) && negb (Z.land buf (Z.shiftl 1 bits - 1) =? 0)
      then Throw (Exn std_runtime_error "invalid base64url padding bits")
      else Ok ""
  | String c rest =>
      if skipped c then decode_loop rest buf bits ndigits
      else
        let v := table c in
        if v <? 0 then Throw (Exn std_runtime_error "invalid base64url")
        else
          let buf' := Z.lor (u32 (Z.shiftl buf 6)) v in
          if 8 <=? bits + 6 then
            out ← decode_loop rest buf' (bits + 6 - 8) (S ndigits);
            Ok (String (chr (Z.land (Z.shiftr buf' (bits + 6 - 8)) 255)) out)
          else decode_loop rest buf' (bits + 6) (S ndigits)
  end.

(** [url_decode]: src/utils/Base64.hpp:39-78. *)
Definition url_decode (s : string) : outcome string := decode_loop s 0 0 0.

Example encode_ex : url_encode "hello" = "aGVsbG8".
Proof. vm_compute. reflexivity. Qed.
Example decode_ex : url_decode "aGVsbG8=" = Ok "hello".
Proof. vm_compute. reflexivity. Qed.
Example decode_noncanonical :
  url_decode "aGVsbG9" = Throw (Exn std_runtime_error "invalid base64url padding bits").
Proof. vm_compute. reflexivity. Qed.

(** ** Arithmetic of the bit buffer *)

Lemma push_bits buf k c :
  0 <= k <= 32 -> 0 <= c < 2 ^ k ->
  Z.lor (u32 (Z.shiftl buf k)) c = (buf mod 2 ^ (32 - k)) * 2 ^ k + c.
Proof.
  intros Hk Hc. unfold u32. rewrite Z.shiftl_mul_pow2 by lia.
  replace (2 ^ 32) with (2 ^ (32 - k) * 2 ^ k) by (rewrite <- Z.pow_add_r; f_equal; lia).
  rewrite Zmult_mod_distr_r. set (m := buf mod 2 ^ (32 - k)).
  rewrite <- Z.add_lor_land. enough (Z.land (m * 2 ^ k) c = 0) as -> by lia.
  rewrite <- Z.shiftl_mul_pow2 by lia. apply Z.bits_inj'. intros n Hn.
  rewrite Z.land_spec, Z.bits_0, Z.shiftl_spec by lia.
  destruct (Z.lt_ge_cases n k); [by rewrite Z.testbit_neg_r by lia|].
  destruct (decide (c = 0)) as [->|]; [by rewrite Z.bits_0, andb_false_r|].
  rewrite (Z.bits_above_log2 c n), andb_false_r; [done | lia|].
  apply Z.log2_lt_pow2; [lia|]. apply Z.lt_le_trans with (2 ^ k); [lia|]. apply Z.pow_le_mono_r; lia.
Qed.

Lemma push8 buf c : 0 <= c < 256 -> Z.lor (u32 (Z.shiftl buf 8)) c = (buf mod 2 ^ 24) * 256 + c.
Proof. intros. rewrite push_bits by (simpl; lia). reflexivity. Qed.

Lemma push6 buf v : 0 <= v < 64 -> Z.lor (u32 (Z.shiftl buf 6)) v = (buf mod 2 ^ 26) * 64 + v.
Proof. intros. rewrite push_bits by (simpl; lia). reflexivity. Qed.

Lemma mask63 z : Z.land z 63 = z mod 64.
Proof. exact (Z.land_ones z 6 ltac:(lia)). Qed.

Lemma mask255 z : Z.land z 255 = z mod 256.
Proof. exact (Z.land_ones z 8 ltac:(lia)). Qed.

(** Shifts by the literal counts of the code, as divisions. *)
Ltac shifts :=
  repeat match goal with
  | |- context [Z.shiftr ?x ?k] =>
      let p := eval vm_compute in (2 ^ k) in
      replace (Z.shiftr x k) with (x / p) by (symmetry; apply Z.shiftr_div_pow2; lia)
  end.

Lemma table_alpha v : 0 <= v < 64 -> table (alpha_at v) = v.
Proof.
  intros H. apply Z.eqb_eq.
  apply (range_check (fun v => table (alpha_at v) =? v) 64); [vm_compute; reflexivity | lia].
Qed.

Lemma alpha_not_skipped v : 0 <= v < 64 -> skipped (alpha_at v) = false.
Proof.
  intros H. apply negb_true_iff.
  apply (range_check (fun v => negb (skipped (alpha_at v))) 64); [vm_compute; reflexivity | lia].
Qed.

(** Every byte the table accepts is the letter of its value. *)
Lemma alpha_table c : 0 <= table c -> table c < 64 /\ alpha_at (table c) = c.
Proof.
  assert (forall z, 0 <= z < Z.of_nat 256 ->
    (let c := chr z in (table c <? 0) || (table c <? 64) && Ascii.eqb (alpha_at (table c)) c) = true) as H.
  { apply range_check. vm_compute. reflexivity. }
  intros Hc. specialize (H (code c) (code_range c)). cbv zeta in H. rewrite chr_code in H.
  apply orb_true_iff in H as [H | [H1 H2]%andb_true_iff]; [lia|].
  split; [lia|]. by apply Ascii.eqb_eq.
Qed.

(** ** Three bytes are four letters *)

Definition sextets3 (a b c : Z) : list Z :=
  [a / 4; (a mod 4) * 16 + b / 16; (b mod 16) * 4 + c / 64; c mod 64].

Definition letters (vs : list Z) (tail : string) : string := foldr (fun v s => String (alpha_at v) s) tail vs.

Definition push_byte (buf : Z) (c : ascii) : Z := Z.lor (u32 (Z.shiftl buf 8)) (code c).
Definition push_sextet (buf : Z) (c : ascii) : Z := Z.lor (u32 (Z.shiftl buf 6)) (table c).

(** The rounds of the encoder by the number of pending bits. *)
Lemma encode_0 c rest buf :
  encode_loop (String c rest) buf 0
  = String (alpha_at (push_byte buf c / 4 mod 64)) (encode_loop rest (push_byte buf c) 2).
Proof.
  cbn [encode_loop]. change (0 + 8) with 8. cbv [drain]. simpl. fold (push_byte buf c).
  by rewrite mask63, Z.shiftr_div_pow2 by lia.
Qed.

Lemma encode_2 c rest buf :
  encode_loop (String c rest) buf 2
  = String (alpha_at (push_byte buf c / 16 mod 64)) (encode_loop rest (push_byte buf c) 4).
Proof.
  cbn [encode_loop]. change (2 + 8) with 10. cbv [drain]. simpl. fold (push_byte buf c).
  by rewrite mask63, Z.shiftr_div_pow2 by lia.
Qed.

Lemma encode_4 c rest buf :
  encode_loop (String c rest) buf 4
  = String (alpha_at (push_byte buf c / 64 mod 64))
      (String (alpha_at (push_byte buf c mod 64)) (encode_loop rest (push_byte buf c) 0)).
Proof.
  cbn [encode_loop]. change (4 + 8) with 12. cbv [drain]. simpl. fold (push_byte buf c).
  rewrite !mask63, !Z.shiftr_div_pow2 by lia. by rewrite Z.div_1_r.
Qed.

Lemma push_byte_val buf c : exists m, push_byte buf c = (buf + m * 2 ^ 24) * 256 + code c.
Proof.
  unfold push_byte. rewrite push8 by apply code_range. exists (- (buf / 2 ^ 24)).
  pose proof (Z.div_mod buf (2 ^ 24)). lia.
Qed.

Lemma push_sextet_val buf c :
  0 <= table c -> exists m, push_sextet buf c = (buf + m * 2 ^ 26) * 64 + table c.
Proof.
  intros H. unfold push_sextet. rewrite push6 by (pose proof (alpha_table c H); lia).
  exists (- (buf / 2 ^ 26)). pose proof (Z.div_mod buf (2 ^ 26)). lia.
Qed.

(** One to three bytes, as the letters of their sextets. *)
Lemma encode_three a b c rest buf :
  exists buf', encode_loop (String a (String b (String c rest))) buf 0
    = String (alpha_at (code a / 4)) (String (alpha_at (code a mod 4 * 16 + code b / 16))
        (String (alpha_at (code b mod 16 * 4 + code c / 64))
           (String (alpha_at (code c mod 64)) (encode_loop rest buf' 0)))).
Proof.
  rewrite encode_0, encode_2, encode_4. exists (push_byte (push_byte (push_byte buf a) b) c). pose proof (code_range a). pose proof (code_range b).
  pose proof (code_range c). set (x := push_byte buf a). set (y := push_byte x b).
  destruct (push_byte_val buf a) as [m1 E1]. fold x in E1. destruct (push_byte_val x b) as [m2 E2].
  fold y in E2. destruct (push_byte_val y c) as [m3 E3]. rewrite E3. clearbody x y.
  replace (x / 4 mod 64) with (code a / 4) by dlia.
  replace (y / 16 mod 64) with (code a mod 4 * 16 + code b / 16) by dlia.
  replace (((y + m3 * 2 ^ 24) * 256 + code c) / 64 mod 64) with (code b mod 16 * 4 + code c / 64) by dlia.
  replace (((y + m3 * 2 ^ 24) * 256 + code c) mod 64) with (code c mod 64) by dlia. reflexivity.
Qed.

Lemma encode_one a buf :
  encode_loop (String a "") buf 0
  = String (alpha_at (code a / 4)) (String (alpha_at (code a mod 4 * 16)) "").
Proof.
  rewrite encode_0. pose proof (code_range a). destruct (push_byte_val buf a) as [m E1]. rewrite E1.
  change (6 - 2) with 4. cbn [encode_loop]. simpl (0 <? 2). unfold u32.
  rewrite mask63, Z.shiftl_mul_pow2 by lia.
  replace (((buf + m * 2 ^ 24) * 256 + code a) / 4 mod 64) with (code a / 4) by dlia.
  replace ((((buf + m * 2 ^ 24) * 256 + code a) * 2 ^ (6 - 2)) mod 2 ^ 32 mod 64) with (code a mod 4 * 16) by dlia.
  reflexivity.
Qed.

Lemma encode_two a b buf :
  encode_loop (String a (String b "")) buf 0
  = String (alpha_at (code a / 4)) (String (alpha_at (code a mod 4 * 16 + code b / 16))
      (String (alpha_at (code b mod 16 * 4)) "")).
Proof.
  rewrite encode_0, encode_2. pose proof (code_range a). pose proof (code_range b).
  set (x := push_byte buf a). destruct (push_byte_val buf a) as [m1 E1]. fold x in E1.
  destruct (push_byte_val x b) as [m2 E2]. rewrite E2. clearbody x.
  cbn [encode_loop]. simpl (0 <? 4). unfold u32. rewrite mask63, Z.shiftl_mul_pow2 by lia.
  replace (x / 4 mod 64) with (code a / 4) by dlia.
  replace (((x + m2 * 2 ^ 24) * 256 + code b) / 16 mod 64) with (code a mod 4 * 16 + code b / 16) by dlia.
  replace ((((x + m2 * 2 ^ 24) * 256 + code b) * 2 ^ (6 - 4)) mod 2 ^ 32 mod 64) with (code b mod 16 * 4) by dlia.
  reflexivity.
Qed.

(** The rounds of the decoder by the number of pending bits. *)
Lemma decode_step c rest buf bits n :
  skipped c = false -> 0 <= table c ->
  decode_loop (String c rest) buf bits n =
  if 8 <=? bits + 6 then
    out ← decode_loop rest (push_sextet buf c) (bits + 6 - 8) (S n);
    Ok (String (chr (push_sextet buf c / 2 ^ (bits + 6 - 8) mod 256)) out)
  else decode_loop rest (push_sextet buf c) (bits + 6) (S n).
Proof.
  intros Hs Ht. cbn [decode_loop]. rewrite Hs. destruct (Z.ltb_spec (table c) 0); [lia|].
  cbv zeta. fold (push_sextet buf c). destruct (Z.leb_spec 8 (bits + 6)); [|done].
  by rewrite mask255, Z.shiftr_div_pow2 by lia.
Qed.

Definition sextet_char (c : ascii) : Prop := skipped c = false /\ 0 <= table c.

Lemma decode_0 c rest buf n :
  sextet_char c -> decode_loop (String c rest) buf 0 n = decode_loop rest (push_sextet buf c) 6 (S n).
Proof. intros [Hs Ht]. by rewrite decode_step. Qed.

Lemma decode_6 c rest buf n :
  sextet_char c -> decode_loop (String c rest) buf 6 n =
  (out ← decode_loop rest (push_sextet buf c) 4 (S n);
   Ok (String (chr (push_sextet buf c / 16 mod 256)) out)).
Proof. intros [Hs Ht]. by rewrite decode_step. Qed.

Lemma decode_4 c rest buf n :
  sextet_char c -> decode_loop (String c rest) buf 4 n =
  (out ← decode_loop rest (push_sextet buf c) 2 (S n);
   Ok (String (chr (push_sextet buf c / 4 mod 256)) out)).
Proof. intros [Hs Ht]. by rewrite decode_step. Qed.

Lemma decode_2 c rest buf n :
  sextet_char c -> decode_loop (String c rest) buf 2 n =
  (out ← decode_loop rest (push_sextet buf c) 0 (S n);
   Ok (String (chr (push_sextet buf c mod 256)) out)).
Proof. intros [Hs Ht]. rewrite decode_step by done. simpl (8 <=? 2 + 6). cbv iota.
  change (2 + 6 - 8) with 0. by rewrite Z.div_1_r. Qed.

(** The bytes the letters of a group complete. *)
Lemma decode_bytes a b c d buf :
  sextet_char a -> sextet_char b -> sextet_char c -> sextet_char d ->
  let x := push_sextet buf a in let y := push_sextet x b in
  let z := push_sextet y c in let w := push_sextet z d in
  y / 16 mod 256 = table a * 4 + table b / 16 /\ y mod 16 = table b mod 16 /\
  z / 4 mod 256 = table b mod 16 * 16 + table c / 4 /\ z mod 4 = table c mod 4 /\
  w mod 256 = table c mod 4 * 64 + table d.
Proof.
  intros [_ Ta] [_ Tb] [_ Tc] [_ Td] x y z w.
  destruct (alpha_table a Ta) as [La _]. destruct (alpha_table b Tb) as [Lb _].
  destruct (alpha_table c Tc) as [Lc _]. destruct (alpha_table d Td) as [Ld _].
  destruct (push_sextet_val buf a Ta) as [m1 E1]. fold x in E1.
  destruct (push_sextet_val x b Tb) as [m2 E2]. fold y in E2.
  destruct (push_sextet_val y c Tc) as [m3 E3]. fold z in E3.
  destruct (push_sextet_val z d Td) as [m4 E4]. fold w in E4.
  clearbody x y z w. split; [dlia|]. split; [dlia|]. split; [dlia|]. split; [dlia|]. dlia.
Qed.

Lemma decode_four a b c d rest buf n :
  sextet_char a -> sextet_char b -> sextet_char c -> sextet_char d ->
  exists buf', decode_loop (String a (String b (String c (String d rest)))) buf 0 n
    = (out ← decode_loop rest buf' 0 (n + 4);
       Ok (String (chr (table a * 4 + table b / 16)) (String (chr (table b mod 16 * 16 + table c / 4))
             (String (chr (table c mod 4 * 64 + table d)) out)))).
Proof.
  intros Sa Sb Sc Sd. destruct (decode_bytes a b c d buf Sa Sb Sc Sd) as (Hy & _ & Hz & _ & Hw).
  rewrite decode_0, decode_6, decode_4, decode_2 by done. rewrite Hy, Hz, Hw.
  exists (push_sextet (push_sextet (push_sextet (push_sextet buf a) b) c) d).
  replace (S (S (S (S n)))) with (n + 4)%nat by lia.
  by destruct (decode_loop rest _ 0 (n + 4)).
Qed.

(** The last, shorter groups. *)
Lemma group_length k n : (n mod 4 = 0)%nat -> ((k + n) mod 4 = k mod 4)%nat.
Proof. intros H. by rewrite Nat.Div0.add_mod, H, Nat.add_0_r, Nat.Div0.mod_mod. Qed.

Lemma decode_pair a b buf n :
  sextet_char a -> sextet_char b -> (n mod 4 = 0)%nat ->
  decode_loop (String a (String b "")) buf 0 n =
  if table b mod 16 =? 0 then Ok (String (chr (table a * 4 + table b / 16)) "")
  else Throw (Exn std_runtime_error "invalid base64url padding bits").
Proof.
  intros Sa Sb Hn. destruct (decode_bytes a b b b buf Sa Sb Sb Sb) as (Hy & Hr & _).
  rewrite decode_0, decode_6 by done. rewrite Hy. cbn [decode_loop].
  change (S (S n)) with (2 + n)%nat. rewrite group_length by done. cbn [Nat.modulo Nat.divmod Nat.sub snd Nat.eqb].
  change (Z.shiftl 1 4 - 1) with (Z.ones 4). rewrite Z.land_ones by lia. change (2 ^ 4) with 16.
  rewrite Hr. simpl (0 <? 4). by destruct (table b mod 16 =? 0).
Qed.

Lemma decode_triple a b c buf n :
  sextet_char a -> sextet_char b -> sextet_char c -> (n mod 4 = 0)%nat ->
  decode_loop (String a (String b (String c ""))) buf 0 n =
  if table c mod 4 =? 0
  then Ok (String (chr (table a * 4 + table b / 16)) (String (chr (table b mod 16 * 16 + table c / 4)) ""))
  else Throw (Exn std_runtime_error "invalid base64url padding bits").
Proof.
  intros Sa Sb Sc Hn. destruct (decode_bytes a b c c buf Sa Sb Sc Sc) as (Hy & _ & Hz & Hr & _).
  rewrite decode_0, decode_6, decode_4 by done. rewrite Hy, Hz. cbn [decode_loop].
  change (S (S (S n))) with (3 + n)%nat. rewrite group_length by done. cbn [Nat.modulo Nat.divmod Nat.sub snd Nat.eqb].
  change (Z.shiftl 1 2 - 1) with (Z.ones 2). rewrite Z.land_ones by lia. change (2 ^ 2) with 4.
  rewrite Hr. simpl (0 <? 2). by destruct (table c mod 4 =? 0).
Qed.

Lemma sextet_alpha v : 0 <= v < 64 -> sextet_char (alpha_at v).
Proof. intros H. split; [by apply alpha_not_skipped|]. rewrite table_alpha by done. lia. Qed.

Lemma str_ind3 (P : string -> Prop) :
  P "" -> (forall a, P (String a "")) -> (forall a b, P (String a (String b ""))) ->
  (forall a b c s, P s -> P (String a (String b (String c s)))) -> forall s, P s.
Proof.
  intros H0 H1 H2 H3 s. assert (H : P s /\ (forall a, P (String a s)) /\ (forall a b, P (String a (String b s)))).
  { induction s as [|c s (I0 & I1 & I2)]; [by auto|]. split; [apply I1|]. split; [intros a'; apply I2|].
    intros a b. by apply H3, I0. }
  apply H.
Qed.

Lemma str_ind4 (P : string -> Prop) :
  P "" -> (forall a, P (String a "")) -> (forall a b, P (String a (String b ""))) ->
  (forall a b c, P (String a (String b (String c "")))) ->
  (forall a b c d s, P s -> P (String a (String b (String c (String d s))))) -> forall s, P s.
Proof.
  intros H0 H1 H2 H3 H4 s.
  assert (H : P s /\ (forall a, P (String a s)) /\ (forall a b, P (String a (String b s))) /\
              (forall a b c, P (String a (String b (String c s))))).
  { induction s as [|c s (I0 & I1 & I2 & I3)]; [by auto|]. split; [apply I1|]. split; [intros a'; apply I2|].
    split; [intros a b; apply I3|]. intros a b d. by apply H4, I0. }
  apply H.
Qed.

Lemma chr_split_1 c : chr (code c / 4 * 4 + (code c mod 4 * 16) / 16) = c.
Proof. transitivity (chr (code c)); [f_equal; dlia | apply chr_code]. Qed.

Lemma decode_encode s : forall buf buf' n, (n mod 4 = 0)%nat ->
  decode_loop (encode_loop s buf 0) buf' 0 n = Ok s.
Proof.
  induction s as [|a|a b|a b c s IH] using str_ind3; intros buf buf' n Hn.
  - change (encode_loop "" buf 0) with "". unfold decode_loop. by rewrite Hn.
  - pose proof (code_range a). rewrite encode_one, decode_pair by (done || apply sextet_alpha; dlia).
    rewrite !table_alpha by dlia. replace ((code a mod 4 * 16) mod 16) with 0 by dlia. simpl (0 =? 0).
    by rewrite chr_split_1.
  - pose proof (code_range a). pose proof (code_range b).
    rewrite encode_two, decode_triple by (done || apply sextet_alpha; dlia).
    rewrite !table_alpha by dlia. replace ((code b mod 16 * 4) mod 4) with 0 by dlia. simpl (0 =? 0).
    replace (code a / 4 * 4 + (code a mod 4 * 16 + code b / 16) / 16) with (code a) by dlia.
    replace ((code a mod 4 * 16 + code b / 16) mod 16 * 16 + code b mod 16 * 4 / 4) with (code b) by dlia.
    by rewrite !chr_code.
  - pose proof (code_range a). pose proof (code_range b). pose proof (code_range c).
    destruct (encode_three a b c s buf) as [buf1 ->].
    edestruct decode_four as [buf2 ->]; [apply sextet_alpha; dlia..|].
    rewrite IH by (rewrite Nat.add_comm; by apply group_length). rewrite bind_ok, !table_alpha by dlia.
    replace (code a / 4 * 4 + (code a mod 4 * 16 + code b / 16) / 16) with (code a) by dlia.
    replace ((code a mod 4 * 16 + code b / 16) mod 16 * 16 + (code b mod 16 * 4 + code c / 64) / 4)
      with (code b) by dlia.
    replace ((code b mod 16 * 4 + code c / 64) mod 4 * 64 + code c mod 64) with (code c) by dlia.
    by rewrite !chr_code.
Qed.

(** Decoding an encoding gives the bytes back, for every byte string. *)
Theorem url_encode_decode s : url_decode (url_encode s) = Ok s.
Proof. by apply decode_encode. Qed.

(** ** Every accepted text is an encoding *)

Definition significant (c : ascii) : bool := negb (skipped c).

Lemma decode_filter s : forall buf bits n,
  decode_loop s buf bits n = decode_loop (str_filter significant s) buf bits n.
Proof.
  induction s as [|c s IH]; intros buf bits n; [done|]. cbn [decode_loop str_filter]. unfold significant at 1.
  destruct (skipped c) eqn:E; cbn [negb]; [apply IH|]. cbn [decode_loop]. rewrite E.
  by rewrite <- !IH.
Qed.

Lemma significant_filter s : str_all significant (str_filter significant s) = true.
Proof. induction s as [|c s IH]; [done|]. simpl. destruct (significant c) eqn:E; [simpl; by rewrite E|done]. Qed.

(** A letter that survives decoding has a value. *)
Lemma decode_bad c rest buf bits n s :
  significant c = true -> decode_loop (String c rest) buf bits n = Ok s -> sextet_char c.
Proof.
  unfold significant, sextet_char. intros Hc H. apply negb_true_iff in Hc. split; [done|].
  cbn [decode_loop] in H. rewrite Hc in H. destruct (Z.ltb_spec (table c) 0); [discriminate | done].
Qed.

Lemma alpha_of_table c : sextet_char c -> alpha_at (table c) = c /\ 0 <= table c < 64.
Proof. intros [_ H]. destruct (alpha_table c H). split; [done | lia]. Qed.

(** The letters of the bytes of a group of letters. *)
Lemma group_letters va vb vc vd :
  0 <= va < 64 -> 0 <= vb < 64 -> 0 <= vc < 64 -> 0 <= vd < 64 ->
  let x := va * 4 + vb / 16 in let y := vb mod 16 * 16 + vc / 4 in let z := vc mod 4 * 64 + vd in
  0 <= x < 256 /\ 0 <= y < 256 /\ 0 <= z < 256 /\
  x / 4 = va /\ x mod 4 * 16 + y / 16 = vb /\ y mod 16 * 4 + z / 64 = vc /\ z mod 64 = vd.
Proof. cbv zeta. intros. repeat split; dlia. Qed.

Lemma encode_decode t : str_all significant t = true ->
  forall buf buf' n s, (n mod 4 = 0)%nat -> decode_loop t buf 0 n = Ok s -> encode_loop s buf' 0 = t.
Proof.
  induction t as [|a|a b|a b c|a b c d t IH] using str_ind4; intros Hall buf buf' n s Hn H;
    repeat (cbn [str_all] in Hall; apply andb_true_iff in Hall as [? Hall]).
  - unfold decode_loop in H. rewrite Hn in H. by injection H as <-.
  - assert (Sa : sextet_char a) by (eapply decode_bad; eauto). rewrite decode_0 in H by done.
    unfold decode_loop in H. change (S n) with (1 + n)%nat in H. by rewrite group_length in H by done.
  - assert (Sa : sextet_char a) by (eapply decode_bad; eauto). pose proof H as H'. rewrite decode_0 in H' by done.
    assert (Sb : sextet_char b) by (eapply decode_bad; eauto). rewrite decode_pair in H by done.
    destruct (Z.eqb_spec (table b mod 16) 0) as [E|]; [|discriminate]. injection H as <-.
    destruct (alpha_of_table a Sa) as [Ea Ra]. destruct (alpha_of_table b Sb) as [Eb Rb].
    rewrite encode_one, code_chr by dlia.
    replace ((table a * 4 + table b / 16) / 4) with (table a) by dlia.
    replace ((table a * 4 + table b / 16) mod 4 * 16) with (table b) by dlia. by rewrite Ea, Eb.
  - assert (Sa : sextet_char a) by (eapply decode_bad; eauto). pose proof H as H'. rewrite decode_0 in H' by done.
    assert (Sb : sextet_char b) by (eapply decode_bad; eauto). rewrite decode_6 in H' by done.
    apply bind_Ok_inv in H' as (o & H' & _).
    assert (Sc : sextet_char c) by (eapply decode_bad; eauto). rewrite decode_triple in H by done.
    destruct (Z.eqb_spec (table c mod 4) 0) as [E|]; [|discriminate]. injection H as <-.
    destruct (alpha_of_table a Sa) as [Ea Ra]. destruct (alpha_of_table b Sb) as [Eb Rb].
    destruct (alpha_of_table c Sc) as [Ec Rc].
    destruct (group_letters _ _ _ 0 Ra Rb Rc ltac:(lia)) as (Hx & Hy & Hz & G1 & G2 & G3 & _).
    rewrite encode_two, !code_chr by done. rewrite G1, G2, Ea, Eb.
    replace ((table b mod 16 * 16 + table c / 4) mod 16 * 4) with (table c) by dlia. by rewrite Ec.
  - assert (Sa : sextet_char a) by (eapply decode_bad; eauto). pose proof H as H'. rewrite decode_0 in H' by done.
    assert (Sb : sextet_char b) by (eapply decode_bad; eauto). rewrite decode_6 in H' by done.
    apply bind_Ok_inv in H' as (o & H' & _).
    assert (Sc : sextet_char c) by (eapply decode_bad; eauto). rewrite decode_4 in H' by done.
    apply bind_Ok_inv in H' as (o' & H' & _). assert (Sd : sextet_char d) by (eapply decode_bad; eauto).
    destruct (decode_four a b c d t buf n Sa Sb Sc Sd) as [buf1 E]. rewrite E in H.
    apply bind_Ok_inv in H as (out & Ht & Hs). injection Hs as <-.
    destruct (alpha_of_table a Sa) as [Ea Ra]. destruct (alpha_of_table b Sb) as [Eb Rb].
    destruct (alpha_of_table c Sc) as [Ec Rc]. destruct (alpha_of_table d Sd) as [Ed Rd].
    destruct (group_letters _ _ _ _ Ra Rb Rc Rd) as (Hx & Hy & Hz & G1 & G2 & G3 & G4).
    edestruct encode_three as [buf2 ->]. rewrite !code_chr by done. rewrite G1, G2, G3, G4, Ea, Eb, Ec, Ed.
    do 4 f_equal. eapply IH; [exact Hall | | exact Ht]. rewrite Nat.add_comm. by apply group_length.
Qed.

(** [url_decode] accepts no second spelling of the same bytes: what it
    accepts is, padding and line ends aside, exactly the encoding of the
    result, so two accepted texts of the same bytes have the same letters. *)
Theorem url_decode_canonical t s :
  url_decode t = Ok s -> str_filter significant t = url_encode s.
Proof.
  unfold url_decode. rewrite decode_filter. intros H. symmetry.
  by apply (encode_decode _ (significant_filter t) 0 0 0 s).
Qed.

Lemma url_decode_canonical_witness : str_filter significant "aGVsbG8=" = url_encode "hello".
Proof. apply (url_decode_canonical "aGVsbG8=" "hello"). vm_compute. reflexivity. Defined.

End Base64.

(** ** Strings (src/utils/Strings.hpp) *)
Module Strings.

(** [kTrimChars]. *)
Definition trim_char (c : ascii) : bool :=
  Ascii.eqb c " " || Ascii.eqb c (ascii_of_nat 9) || Ascii.eqb c (ascii_of_nat 13) || Ascii.eqb c (ascii_of_nat 10).

Definition str_last (s : string) : option ascii :=
  match str_rev s with "" => None | String c _ => Some c end.

(** [path_is_public]: src/utils/Strings.hpp:63-74; the set as a list. *)
Definition path_is_public (public_paths : list string) (path : string) : bool :=
  existsb (String.eqb path) public_paths
  || existsb (fun p => match str_last p with
                       | Some "*"%char => String.prefix (str_take (size p - 1) p) path
                       | _ => false
                       end) public_paths.

Fixpoint find_first_not (p : ascii -> bool) (s : string) : option nat :=
  match s with
  | "" => None
  | String c r => if p c then S <$> find_first_not p r else Some O
  end.

Fixpoint find_last_not (p : ascii -> bool) (s : string) : option nat :=
  match s with
  | "" => None
  | String c r => match find_last_not p r with
                  | Some n => Some (S n)
                  | None => if p c then None else Some O
                  end
  end.

(** [trim]: src/utils/Strings.hpp:92-98. *)
Definition trim (s : string) : string :=
  match find_first_not trim_char s, find_last_not trim_char s with
  | Some a, Some b => str_take (b - a + 1) (str_drop a s)
  | _, _ => ""
  end.

(** [split_csv_vec]: src/utils/Strings.hpp:103-117.  [getline] yields no piece
    after a final separator, which the loop would drop as empty anyway. *)
Definition split_csv_vec (csv : string) : list string :=
  filter (fun t => t <> "") (map trim (pieces "," csv)).

(** [mask_email]: src/utils/Strings.hpp:132-140. *)
Definition mask_email (email : string) : string :=
  if (size email =? 0)%nat then email
  else
    let '(local, domain) :=
      match str_find "@" email with
      | None => (email, "")
      | Some n => (str_take n email, str_drop n email)
      end in
    let masked := if (1 <? size local)%nat then str_take 1 local +:+ "***" else "***" in
    masked +:+ domain.

Example mask_ex : mask_email "john.doe@example.com" = "j***@example.com".
Proof. vm_compute. reflexivity. Qed.
Example csv_ex : split_csv_vec " a, b ,,c " = ["a"; "b"; "c"].
Proof. vm_compute. reflexivity. Qed.

Lemma find_first_not_all p s : find_first_not p s = None <-> str_all p s = true.
Proof.
  induction s as [|c s IH]; simpl; [done|]. destruct (p c); simpl; [|done].
  rewrite <- IH. destruct (find_first_not p s); simpl; split; done.
Qed.

Lemma find_last_not_all p s : find_last_not p s = None <-> str_all p s = true.
Proof.
  induction s as [|c s IH]; simpl; [done|]. destruct (find_last_not p s) as [n|].
  - split; [done|]. intros [_ H]%andb_true_iff. by apply IH in H.
  - destruct (p c); simpl; [|done]. by rewrite <- IH.
Qed.

Lemma find_first_not_split p s n :
  find_first_not p s = Some n ->
  exists c, s = str_take n s +:+ String c (str_drop (S n) s) /\ str_drop n s = String c (str_drop (S n) s) /\
    str_all p (str_take n s) = true /\ p c = false.
Proof.
  revert n. induction s as [|c s IH]; intros n H; [done|]. simpl in H. destruct (p c) eqn:E.
  - destruct (find_first_not p s) as [m|]; [|done]. injection H as <-.
    destruct (IH m eq_refl) as (d & H1 & H2 & H3 & H4). exists d. simpl. rewrite E. split; [by f_equal|]. done.
  - injection H as <-. exists c. simpl. done.
Qed.

Lemma find_last_not_split p s n :
  find_last_not p s = Some n ->
  (n < size s)%nat /\ str_all p (str_drop (S n) s) = true /\
  exists c r, str_take (S n) s = str_take n s +:+ String c "" /\ p c = false /\ r = str_take n s.
Proof.
  unfold size. revert n. induction s as [|c s IH]; intros n H; [done|]. simpl in H.
  destruct (find_last_not p s) as [m|] eqn:E.
  - injection H as <-. destruct (IH m eq_refl) as (H1 & H2 & d & r & H3 & H4 & _).
    split; [simpl; lia|]. split; [exact H2|]. exists d, (str_take (S m) (String c s)).
    split; [|done]. change (str_take (S (S m)) (String c s)) with (String c (str_take (S m) s)). by rewrite H3.
  - destruct (p c) eqn:Ec; [done|]. injection H as <-. simpl. split; [lia|].
    split; [by apply find_last_not_all in E; destruct s|]. exists c, "". by destruct s.
Qed.

Lemma first_le_last p s a b :
  find_first_not p s = Some a -> find_last_not p s = Some b -> (a <= b)%nat.
Proof.
  revert a b. induction s as [|c s IH]; intros a b Ha Hb; [done|]. simpl in *. destruct (p c) eqn:E.
  - destruct (find_first_not p s) as [m|] eqn:Ef; [|done]. injection Ha as <-.
    destruct (find_last_not p s) as [k|]; [|done]. injection Hb as <-. specialize (IH m k eq_refl eq_refl). lia.
  - injection Ha as <-. lia.
Qed.

Lemma str_drop_drop m n s : str_drop m (str_drop n s) = str_drop (n + m) s.
Proof. revert n. induction s as [|c s IH]; intros [|n]; simpl; try done; try (by destruct m); apply IH. Qed.

Lemma str_take_split n s : s = str_take n s +:+ str_drop n s.
Proof. revert n. induction s as [|c s IH]; intros [|n]; simpl; try done. f_equal. apply IH. Qed.

Lemma take_drop_comm m n s : str_take m (str_drop n s) = str_drop n (str_take (n + m) s).
Proof.
  revert n. induction s as [|c s IH]; intros [|n]; simpl; try done; try (by destruct m); apply IH.
Qed.

(** No surrounding white space. *)
Definition clean (t : string) : Prop :=
  t = "" \/ (exists c r, t = String c r /\ trim_char c = false) /\
            (exists c r, t = r +:+ String c "" /\ trim_char c = false).

Lemma trim_cut s :
  exists u v, s = u +:+ (trim s +:+ v) /\ str_all trim_char u = true /\ str_all trim_char v = true /\
              clean (trim s).
Proof.
  unfold trim. destruct (find_first_not trim_char s) as [a|] eqn:Ea.
  2: { exists s, "". rewrite app_empty_r. split; [done|].
       split; [by apply find_first_not_all|]. split; [done | by left]. }
  destruct (find_last_not trim_char s) as [b|] eqn:Eb.
  2: { apply find_last_not_all, find_first_not_all in Eb. congruence. }
  pose proof (first_le_last _ _ _ _ Ea Eb) as Hab.
  destruct (find_first_not_split _ _ _ Ea) as (c & _ & Hc & Hu & Hpc).
  destruct (find_last_not_split _ _ _ Eb) as (Hb & Hv & e & r & He & Hpe & _).
  exists (str_take a s), (str_drop (S b) s).
  split. { rewrite (str_take_split a s) at 1. f_equal. rewrite (str_take_split (b - a + 1) (str_drop a s)) at 1.
    f_equal. rewrite str_drop_drop. f_equal. lia. }
  split; [done|]. split; [done|]. right. split.
  - rewrite Hc. replace (b - a + 1)%nat with (S (b - a)) by lia. by repeat eexists.
  - rewrite take_drop_comm. replace (a + (b - a + 1))%nat with (S b) by lia. rewrite He.
    exists e, (str_drop a (str_take b s)). split; [|done].
    assert (Hs : (a <= size (str_take b s))%nat).
    { unfold size in *. clear -Hab Hb. revert a b Hab Hb. induction s as [|x s IH]; intros a [|b] ? ?; simpl in *; try lia.
      destruct a as [|a]; [lia|]. specialize (IH a b). lia. }
    revert Hs. generalize (str_take b s) as t. clear. unfold size. induction a as [|a IH]; intros t Ht; [done|].
    destruct t; simpl in *; [lia|]. apply IH. lia.
Qed.

(** [trim] removes exactly the surrounding white space: the text is the
    result with only trim characters around it, and the result neither starts
    nor ends with one; so it is empty only for blank texts, and trimming again
    changes nothing. *)
Theorem trim_spec s :
  (exists u v, s = u +:+ (trim s +:+ v) /\ str_all trim_char u = true /\ str_all trim_char v = true) /\
  clean (trim s) /\ (trim s = "" <-> str_all trim_char s = true).
Proof.
  destruct (trim_cut s) as (u & v & Hs & Hu & Hv & Hc). split; [by exists u, v|]. split; [done|]. split.
  - intros E. rewrite E in Hs. rewrite Hs, str_all_app. simpl. by rewrite Hu, Hv.
  - intros Ha. rewrite Hs, !str_all_app in Ha. apply andb_true_iff in Ha as [_ [Ha _]%andb_true_iff].
    destruct Hc as [|[(c & r & E & Hn) _]]; [done|]. rewrite E in Ha. simpl in Ha. by rewrite Hn in Ha.
Qed.

Lemma str_find_at l d :
  str_all (fun c => negb (Ascii.eqb c "@")) l = true -> str_find "@" (l +:+ String "@" d) = Some (size l).
Proof. intros H. by apply (str_find_app (fun c => negb (Ascii.eqb c "@"))). Qed.

(** A masked address shows of its local part the first character at most,
    and nothing when that is all there is. *)
Theorem mask_email_hides l d :
  str_all (fun c => negb (Ascii.eqb c "@")) l = true ->
  mask_email (l +:+ String "@" d)
  = (if (1 <? size l)%nat then str_take 1 l else "") +:+ ("***@" +:+ d).
Proof.
  intros H. unfold mask_email. rewrite str_find_at by done.
  rewrite size_app. replace (size l + size (String "@" d) =? 0)%nat with false
    by (symmetry; apply Nat.eqb_neq; unfold size; simpl; lia).
  rewrite str_take_app, str_drop_app. destruct (1 <? size l)%nat; [|done]. by rewrite str_app_assoc.
Qed.

Lemma mask_email_hides_witness : mask_email ("a.b" +:+ "@x.kz") = "a***@x.kz".
Proof. apply (mask_email_hides "a.b" "x.kz"). reflexivity. Defined.

End Strings.

(** ** Timestamps (src/utils/Time.hpp) *)
Module Time.

(** The fraction skipped by the inner loop. *)
Fixpoint skip_digits (s : string) : string :=
  match s with String c r => if is_digit c then skip_digits r else s | "" => "" end.

(** [pg_to_iso8601]: src/utils/Time.hpp:35-51. *)
Definition pg_to_iso8601 (ts : string) : string :=
  if (size ts <? 19)%nat || negb (bool_decide (String.get 10 ts = Some " "%char)) then ts
  else
    let out := str_take 10 ts +:+ ("T" +:+ str_take 8 (str_drop 11 ts)) in
    let rest := str_drop 19 ts in
    let offset := match rest with String "." r => skip_digits r | _ => rest end in
    if String.eqb offset "+00" || String.eqb offset "+00:00" || String.eqb offset "Z" || String.eqb offset ""
    then out +:+ "Z" else out +:+ offset.

Example iso_ex : pg_to_iso8601 "2026-07-25 05:34:32.87643+00" = "2026-07-25T05:34:32Z".
Proof. vm_compute. reflexivity. Qed.

End Time.

(** ** Retry with backoff (src/utils/Retry.hpp) *)
Module Retry.

(** [Policy]: src/utils/Retry.hpp:40-45. *)
Record Policy := mkPolicy { max_attempts : Z; base_delay_ms : Z; max_delay_ms : Z; jitter : bool }.

(** [compute_delay_ms]: src/utils/Retry.hpp:78-92; [draw hi] is the value the
    uniform distribution on [[0, hi]] yields. *)
Definition compute_delay_ms (attempt : Z) (p : Policy) (draw : Z -> Z) : Z :=
  let shift := Z.min attempt 10 in
  let expo := Z.shiftl (base_delay_ms p) shift in
  let delay := wrap32 (Z.min (max_delay_ms p) expo) in
  if jitter p then draw (Z.max 1 delay) else delay.

Section Run.
Context {S A : Type} (fn : st S A) (is_transient : exn -> bool) (p : Policy) (draw : Z -> Z -> Z).

(** The loop of [run], the sleeps so far in [log].  The attempt counter grows
    until it reaches [max_attempts], so [max_attempts] rounds of fuel suffice. *)
Fixpoint run_loop (fuel : nat) (attempt : Z) (log : list Z) (s : S) : outcome A * S * list Z :=
  match fuel with
  | O => (Undef, s, log)
  | Datatypes.S f =>
      match fn s with
      | (Throw e, s') =>
          let attempt' := attempt + 1 in
          if (attempt' <? max_attempts p) && is_transient e then
            run_loop f attempt' (log ++ [compute_delay_ms (attempt' - 1) p (draw attempt')]) s'
          else (Throw e, s', log)
      | (r, s') => (r, s', log)
      end
  end.

(** [run]: src/utils/Retry.hpp:104-131. *)
Definition run (s : S) : outcome A * S * list Z :=
  run_loop (Datatypes.S (Z.to_nat (max_attempts p))) 0 [] s.

(** The state after [k] calls. *)
Definition calls (k : nat) (s : S) : S := Nat.iter k (fun s => (fn s).2) s.

Lemma calls_S k s : calls (Datatypes.S k) s = calls k (fn s).2.
Proof. unfold calls. by rewrite Nat.iter_succ_r. Qed.

Lemma run_loop_spec fuel : forall attempt log s,
  0 <= attempt -> (Z.to_nat (max_attempts p - attempt) < fuel)%nat ->
  exists k log', run_loop fuel attempt log s = ((fn (calls k s)).1, calls (Datatypes.S k) s, (log ++ log')%list) /\
    length log' = k /\ (k = 0%nat \/ attempt + Z.of_nat k < max_attempts p) /\
    (forall j, (j < k)%nat -> exists e, (fn (calls j s)).1 = Throw e /\ is_transient e = true) /\
    (forall e, (fn (calls k s)).1 = Throw e ->
       max_attempts p <= attempt + Z.of_nat k + 1 \/ is_transient e = false).
Proof.
  induction fuel as [|f IH]; intros attempt log s Ha Hf; [lia|]. cbn [run_loop].
  assert (Hstop : forall r, (fn s).1 = r ->
    (forall e, r = Throw e -> (attempt + 1 <? max_attempts p) && is_transient e = false) ->
    exists k log', (r, (fn s).2, log) = ((fn (calls k s)).1, calls (Datatypes.S k) s, (log ++ log')%list) /\
    length log' = k /\ (k = 0%nat \/ attempt + Z.of_nat k < max_attempts p) /\
    (forall j, (j < k)%nat -> exists e, (fn (calls j s)).1 = Throw e /\ is_transient e = true) /\
    (forall e, (fn (calls k s)).1 = Throw e ->
       max_attempts p <= attempt + Z.of_nat k + 1 \/ is_transient e = false)).
  { intros r Hr He. exists 0%nat, []. change (calls 0 s) with s. change (calls 1 s) with (fn s).2.
    rewrite app_nil_r, Hr. split; [done|]. split; [done|]. split; [by left|].
    split; [lia|]. intros e E. specialize (He e E).
    apply andb_false_iff in He as [He|He]; [left; lia | by right]. }
  destruct (fn s) as [[a|e|] s'] eqn:Es; [by apply Hstop | | by apply Hstop].
  destruct ((attempt + 1 <? max_attempts p) && is_transient e) eqn:Ec.
  2: { apply (Hstop (Throw e)); [done|]. by intros ? [= <-]. }
  clear Hstop. apply andb_true_iff in Ec as [Ec Et].
  destruct (IH (attempt + 1) (log ++ [compute_delay_ms (attempt + 1 - 1) p (draw (attempt + 1))])%list s')
    as (k & log' & Hrun & Hlen & Hk & Hall & Hlast); [lia..|].
  exists (Datatypes.S k), (compute_delay_ms (attempt + 1 - 1) p (draw (attempt + 1)) :: log').
  rewrite Hrun, <- app_assoc, !calls_S, Es. cbn [snd].
  split; [done|]. split; [simpl; lia|]. split; [right; lia|]. split.
  - intros [|j] Hj; [exists e; change (calls 0 s) with s; by rewrite Es|]. rewrite calls_S, Es. apply Hall. lia.
  - intros e' E. destruct (Hlast e' E); [left; lia | by right].
Qed.

(** [run] always returns, after [k + 1] calls with [k] sleeps between them
    and no more than [max_attempts] calls (at least one): every call but the
    last raised a transient exception, the outcome is that of the last call, and
    an exception is passed on only when it is not transient or the attempts are
    used up. *)
Theorem run_spec s :
  exists k log, run s = ((fn (calls k s)).1, calls (Datatypes.S k) s, log) /\ length log = k /\
    (k = 0%nat \/ Z.of_nat k < max_attempts p) /\
    (forall j, (j < k)%nat -> exists e, (fn (calls j s)).1 = Throw e /\ is_transient e = true) /\
    (forall e, (fn (calls k s)).1 = Throw e -> max_attempts p <= Z.of_nat k + 1 \/ is_transient e = false).
Proof.
  destruct (run_loop_spec (Datatypes.S (Z.to_nat (max_attempts p))) 0 [] s)
    as (k & log & H1 & H2 & H3 & H4 & H5); [lia..|].
  exists k, log. split; [exact H1|]. split; [exact H2|]. split; [exact H3|]. split; [exact H4|exact H5].
Qed.

End Run.

(** [is_transient_pqxx_read]: src/utils/Retry.hpp:146-159, of the SQLSTATE;
    [None] for a broken connection. *)
Definition is_transient_pqxx_read (sqlstate : option string) : bool :=
  match sqlstate with
  | None => true
  | Some ss =>
      (2 <=? size ss)%nat && bool_decide (String.get 0 ss = Some "0"%char) && bool_decide (String.get 1 ss = Some "8"%char)
      || String.eqb ss "40001" || String.eqb ss "40P01"
      || (3 <=? size ss)%nat && bool_decide (String.get 0 ss = Some "5"%char)
         && bool_decide (String.get 1 ss = Some "7"%char) && bool_decide (String.get 2 ss = Some "P"%char)
  end.

(** [is_transient_pqxx_write]: src/utils/Retry.hpp:179-186. *)
Definition is_transient_pqxx_write (sqlstate : option string) : bool :=
  match sqlstate with
  | None => false
  | Some ss => String.eqb ss "40001" || String.eqb ss "40P01"
  end.

(** With non-negative delays a backoff never sleeps longer than the cap (at
    most one millisecond when the cap is zero), and without jitter it sleeps
    exactly the base doubled per failed attempt, up to that cap. *)
Theorem compute_delay_bounds attempt p draw :
  0 <= attempt -> 0 <= base_delay_ms p < 2 ^ 31 -> 0 <= max_delay_ms p < 2 ^ 31 ->
  (forall hi, 1 <= hi -> 0 <= draw hi <= hi) ->
  0 <= compute_delay_ms attempt p draw <= Z.max 1 (max_delay_ms p) /\
  (jitter p = false ->
   compute_delay_ms attempt p draw = Z.min (max_delay_ms p) (base_delay_ms p * 2 ^ Z.min attempt 10)).
Proof.
  intros Ha Hb Hm Hd. unfold compute_delay_ms. rewrite Z.shiftl_mul_pow2 by lia.
  assert (0 < 2 ^ Z.min attempt 10) by (apply Z.pow_pos_nonneg; lia).
  assert (0 <= base_delay_ms p * 2 ^ Z.min attempt 10) by nia.
  assert (Hw : forall z, 0 <= z < 2 ^ 31 -> wrap32 z = z).
  { intros z Hz. unfold wrap32. rewrite Z.mod_small by lia. lia. }
  rewrite Hw by lia. destruct (jitter p); split; try done; [|lia].
  pose proof (Hd (Z.max 1 (Z.min (max_delay_ms p) (base_delay_ms p * 2 ^ Z.min attempt 10)))). lia.
Qed.

Lemma compute_delay_bounds_witness :
  0 <= compute_delay_ms 4 (mkPolicy 3 100 2000 true) (fun hi => hi) <= 2000.
Proof. apply (compute_delay_bounds 4 (mkPolicy 3 100 2000 true) (fun hi => hi)); simpl; try lia. Defined.

End Retry.
