(* ===== verification/Dates.v ===== *)
(** * Civil dates: the parts of [std::chrono] the code uses

    Proleptic Gregorian dates as (year, month, day); a [sys_days] is modelled
    by the civil date it denotes, adding days by walking the calendar. *)
From Stdlib Require Import ZArith Lia Ascii String.
From S2P Require Import Prelude.
Open Scope string_scope.
Open Scope Z_scope.

Record ymd := mkYmd { year : Z; month : Z; day : Z }.

#[export] Instance ymd_eq_dec : EqDecision ymd.
Proof. solve_decision. Defined.

Definition leap (y : Z) : bool :=
  (y mod 4 =? 0) && (negb (y mod 100 =? 0) || (y mod 400 =? 0)).

Definition month_days (y m : Z) : Z :=
  if m =? 2 then (if leap y then 29 else 28)
  else if (m =? 4) || (m =? 6) || (m =? 9) || (m =? 11) then 30 else 31.

Definition ok (d : ymd) : bool :=
  (1 <=? month d) && (month d <=? 12) && (1 <=? day d) && (day d <=? month_days (year d) (month d)).

Definition next_day (d : ymd) : ymd :=
  if day d <? month_days (year d) (month d) then mkYmd (year d) (month d) (day d + 1)
  else if month d =? 12 then mkYmd (year d + 1) 1 1 else mkYmd (year d) (month d + 1) 1.

(** Days before the first of a year and of a month. *)
Definition year_start (y : Z) : Z := let p := y - 1 in 365 * p + p / 4 - p / 100 + p / 400.

Definition month_start (y m : Z) : Z :=
  nth (Z.to_nat (m - 1)) [0; 31; 59; 90; 120; 151; 181; 212; 243; 273; 304; 334] 0
  + (if (2 <? m) && leap y then 1 else 0).

(** The day count of [sys_days], counted from 0001-01-01 (day 0, a Monday). *)
Definition serial (d : ymd) : Z := year_start (year d) + month_start (year d) (month d) + (day d - 1).

(** [c_encoding] of [std::chrono::weekday]: Sunday is 0. *)
Definition weekday (d : ymd) : Z := (serial d + 1) mod 7.

Definition add_days (d : ymd) (n : nat) : ymd := Nat.iter n next_day d.

(** The lexicographic order of [std::chrono::year_month_day]. *)
Definition ymd_lt (a b : ymd) : bool :=
  (year a <? year b) || (year a =? year b) &&
    ((month a <? month b) || (month a =? month b) && (day a <? day b)).

(** [std::chrono::year_month] plus a number of months. *)
Definition add_months (ym : Z * Z) (n : Z) : Z * Z :=
  let q := 12 * ym.1 + (ym.2 - 1) + n in (q / 12, q mod 12 + 1).

Example weekday_ex : weekday (mkYmd 2026 8 15) = 6.
Proof. reflexivity. Qed.
Example add_months_ex : add_months (2026, 12) 2 = (2027, 2).
Proof. reflexivity. Qed.
Example add_days_ex : add_days (mkYmd 2027 12 30) 65 = mkYmd 2028 3 4.
Proof. vm_compute. reflexivity. Qed.

(** ** Laws *)

(** The month of a date, as a case analysis on twelve. *)
Lemma month_cases m : 1 <= m <= 12 ->
  m = 1 \/ m = 2 \/ m = 3 \/ m = 4 \/ m = 5 \/ m = 6 \/ m = 7 \/ m = 8 \/ m = 9 \/ m = 10 \/ m = 11 \/ m = 12.
Proof. lia. Qed.

Ltac by_month H := destruct (month_cases _ H) as [->|[->|[->|[->|[->|[->|[->|[->|[->|[->|[->| ->]]]]]]]]]]].

Lemma leap_step y : year_start (y + 1) = year_start y + 365 + (if leap y then 1 else 0).
Proof.
  unfold year_start, leap. replace (y + 1 - 1) with y by lia. cbv zeta.
  destruct (Z.eqb_spec (y mod 4) 0), (Z.eqb_spec (y mod 100) 0), (Z.eqb_spec (y mod 400) 0); simpl; dlia.
Qed.

Lemma month_days_range y m : 28 <= month_days y m <= 31.
Proof. unfold month_days. repeat case_match; lia. Qed.

Lemma month_start_step y m : 1 <= m <= 11 -> month_start y (m + 1) = month_start y m + month_days y m.
Proof.
  intros H. assert (H' : 1 <= m <= 12) by lia. unfold month_start, month_days.
  by_month H'; try lia; destruct (leap y); reflexivity.
Qed.

Lemma month_start_12 y : month_start y 12 + month_days y 12 = 365 + (if leap y then 1 else 0).
Proof. unfold month_start, month_days. destruct (leap y); reflexivity. Qed.

(** The first of a month by its index [q = 12 * year + month - 1]. *)
Definition first_of (q : Z) : Z := serial (mkYmd (q / 12) (q mod 12 + 1) 1).

Lemma first_of_ym y m : 1 <= m <= 12 -> first_of (12 * y + (m - 1)) = year_start y + month_start y m.
Proof.
  intros H. unfold first_of, serial. simpl. replace ((12 * y + (m - 1)) / 12) with y by dlia.
  replace ((12 * y + (m - 1)) mod 12 + 1) with m by dlia. lia.
Qed.

Lemma first_of_step q : first_of (q + 1) = first_of q + month_days (q / 12) (q mod 12 + 1).
Proof.
  set (y := q / 12). set (m := q mod 12 + 1). assert (Hm : 1 <= m <= 12) by (unfold m; dlia).
  assert (Hq : q = 12 * y + (m - 1)) by (unfold y, m; dlia). rewrite Hq.
  rewrite (first_of_ym y m) by lia. destruct (Z.eq_dec m 12) as [E|E].
  - replace (12 * y + (m - 1) + 1) with (12 * (y + 1) + (1 - 1)) by lia. rewrite first_of_ym, leap_step by lia.
    rewrite E. pose proof (month_start_12 y). change (month_start (y + 1) 1) with 0. lia.
  - replace (12 * y + (m - 1) + 1) with (12 * y + (m + 1 - 1)) by lia.
    rewrite first_of_ym, month_start_step by lia. lia.
Qed.

Lemma first_of_gap q (n : nat) : first_of q + 28 * Z.of_nat n <= first_of (q + Z.of_nat n).
Proof.
  induction n as [|n IH]; [change (Z.of_nat 0) with 0; rewrite Z.mul_0_r, !Z.add_0_r; lia|].
  rewrite Nat2Z.inj_succ. replace (q + Z.succ (Z.of_nat n)) with (q + Z.of_nat n + 1) by lia.
  rewrite first_of_step. pose proof (month_days_range ((q + Z.of_nat n) / 12) ((q + Z.of_nat n) mod 12 + 1)). lia.
Qed.

Lemma first_of_mono q r : q <= r -> first_of q + 28 * (r - q) <= first_of r.
Proof.
  intros H. pose proof (first_of_gap q (Z.to_nat (r - q))) as G. rewrite Z2Nat.id in G by lia.
  by replace (q + (r - q)) with r in G by lia.
Qed.

Definition index (d : ymd) : Z := 12 * year d + (month d - 1).

Lemma serial_index d : 1 <= month d <= 12 -> serial d = first_of (index d) + (day d - 1).
Proof. intros H. unfold index. rewrite first_of_ym by lia. reflexivity. Qed.

Lemma ok_bounds d : ok d = true -> 1 <= month d <= 12 /\ 1 <= day d <= month_days (year d) (month d).
Proof. unfold ok. lia. Qed.

(** The calendar order of valid dates is the order of their day counts. *)
Lemma ymd_lt_serial a b : ok a = true -> ok b = true -> ymd_lt a b = true <-> serial a < serial b.
Proof.
  intros [Ha Da]%ok_bounds [Hb Db]%ok_bounds.
  assert (Hlt : ymd_lt a b = true <-> index a < index b \/ index a = index b /\ day a < day b).
  { unfold ymd_lt, index. rewrite orb_true_iff, !andb_true_iff, orb_true_iff, andb_true_iff. lia. }
  rewrite Hlt, !serial_index by done.
  assert (Hstep : forall d, 1 <= month d <= 12 -> day d <= month_days (year d) (month d) ->
    first_of (index d) + day d <= first_of (index d + 1)).
  { intros d Hm Hd. rewrite first_of_step. unfold index.
    replace ((12 * year d + (month d - 1)) / 12) with (year d) by dlia.
    replace ((12 * year d + (month d - 1)) mod 12 + 1) with (month d) by dlia. lia. }
  pose proof (Hstep a Ha ltac:(lia)) as Sa. pose proof (Hstep b Hb ltac:(lia)) as Sb.
  destruct (Z.lt_trichotomy (index a) (index b)) as [L|[E|L]].
  - pose proof (first_of_mono (index a + 1) (index b) ltac:(lia)). lia.
  - rewrite E. lia.
  - pose proof (first_of_mono (index b + 1) (index a) ltac:(lia)). lia.
Qed.

Lemma next_day_ok d : ok d = true -> ok (next_day d) = true /\ serial (next_day d) = serial d + 1.
Proof.
  intros [Hm Hd]%ok_bounds. unfold next_day. destruct (Z.ltb_spec (day d) (month_days (year d) (month d))) as [L|L].
  - unfold ok, serial. simpl. split; lia.
  - assert (E : day d = month_days (year d) (month d)) by lia. destruct (Z.eqb_spec (month d) 12) as [M|M].
    + unfold ok, serial. simpl. split; [done|]. rewrite leap_step, E, M.
      pose proof (month_start_12 (year d)). change (month_start (year d + 1) 1) with 0. lia.
    + unfold ok, serial. simpl. split.
      * pose proof (month_days_range (year d) (month d + 1)). lia.
      * rewrite month_start_step by lia. lia.
Qed.

Lemma add_days_ok n d : ok d = true -> ok (add_days d n) = true /\ serial (add_days d n) = serial d + Z.of_nat n.
Proof.
  intros H. induction n as [|n [IH1 IH2]]; [simpl; split; [done | lia]|].
  change (add_days d (S n)) with (next_day (add_days d n)).
  destruct (next_day_ok _ IH1) as [H1 H2]. split; [done | lia].
Qed.
