(* ===== verification/Requests.v ===== *)
(** * Requests: paths, query parameters and bodies

    src/api/RequestUtils.hpp (identifiers and paging of a query, the path under which a
    request is logged and counted) and the field validators of src/api/Validation.hpp. *)
From Stdlib Require Import ZArith Lia Ascii String.
From S2P Require Import Prelude Threads Json Dates.
Import Threads Json.
Open Scope string_scope.
Open Scope Z_scope.
Set Warnings "-clear-no-such-hyp".

Module Requests.

Definition is_xdigit (c : ascii) : bool :=
  is_digit c || ((65 <=? code c) && (code c <=? 70)) || ((97 <=? code c) && (code c <=? 102)).

Fixpoint uuid_from (i : nat) (s : string) : bool :=
  match s with
  | EmptyString => true
  | String c r =>
      (if bool_decide (i ∈ [8; 13; 18; 23]%nat) then Ascii.eqb c "-" else is_xdigit c) && uuid_from (S i) r
  end.

(** [is_uuid_segment]: src/api/RequestUtils.hpp:24-37. *)
Definition is_uuid_segment (s : string) : bool := Nat.eqb (size s) 36 && uuid_from 0 s.

(** [is_valid_uuid]: src/api/RequestUtils.hpp:44-46. *)
Definition is_valid_uuid (s : string) : bool := is_uuid_segment s.

Definition lower (c : ascii) : ascii := if (65 <=? Prelude.code c) && (Prelude.code c <=? 90) then chr (Prelude.code c + 32) else c.
Fixpoint lower_all (s : string) : string := match s with EmptyString => EmptyString | String c r => String (lower c) (lower_all r) end.

(** The text of an identifier as PostgreSQL stores it, for one that [is_valid_uuid] has let through. *)
Definition uuid_key (s : string) : string := lower_all s.

(** [parse_int]: src/api/RequestUtils.hpp:51-59. *)
Definition parse_int (s : string) (def : Z) : Z :=
  if String.eqb s "" then def else match stoi s with Ok z => z | _ => def end.

(** [clamp_int]: src/api/RequestUtils.hpp:65-72. *)
Definition clamp_int (s : string) (def lo hi : Z) : Z :=
  let v := parse_int s def in if v <? lo then lo else if hi <? v then hi else v.

(** [PageParams]: src/api/RequestUtils.hpp:79-82. *)
Record PageParams := mkPage { limit : Z; offset : Z }.

(** [parse_page_params]: src/api/RequestUtils.hpp:84-89. *)
Definition parse_page_params (limit_param offset_param : string) (default_limit max_limit : Z) : PageParams :=
  mkPage (clamp_int limit_param default_limit 1 max_limit) (clamp_int offset_param 0 0 1000000).

(** [normalize_path_for_metrics]: src/api/RequestUtils.hpp:104-114.  What stands between the slashes. *)
Definition segments (path : string) : list string := List.filter (fun s => negb (String.eqb s "")) (pieces "/" path).

(** [normalize_path_for_metrics]: src/api/RequestUtils.hpp:118-125. *)
Definition is_version_seg (s : string) : bool :=
  match s with String c (String _ _ as r) => Ascii.eqb c "v" && str_all is_digit r | _ => false end.

(** [normalize_path_for_metrics]: src/api/RequestUtils.hpp:126-126. *)
Definition base (segs : list string) : nat :=
  match segs with _ :: s :: _ => if is_version_seg s then 2 else 1 | _ => 1 end.

Definition token_verbs : list string := ["confirm"; "reset-password"; "change-email"; "join-from-invite"].

(** [normalize_path_for_metrics]: src/api/RequestUtils.hpp:131-134. *)
Definition account_token_route (segs : list string) : bool :=
  Nat.eqb (length segs) (base segs + 3) &&
  match segs with s :: _ => String.eqb s "api" | [] => false end &&
  match nth_error segs (base segs) with Some s => String.eqb s "account" | None => false end &&
  match nth_error segs (base segs + 1) with Some s => existsb (String.eqb s) token_verbs | None => false end.

(** [normalize_path_for_metrics]: src/api/RequestUtils.hpp:146-155. *)
Definition bucket (s : string) : string := if str_all is_digit s || is_uuid_segment s then ":id" else s.

(** [normalize_path_for_metrics]: src/api/RequestUtils.hpp:136-159.  From segment [k] on. *)
Fixpoint rejoin (token_at : option nat) (k : nat) (segs : list string) : string :=
  match segs with
  | [] => ""
  | s :: r => "/" +:+ (if match token_at with Some n => Nat.eqb n k | None => false end then ":token" else bucket s) +:+ rejoin token_at (S k) r
  end.

(** [normalize_path_for_metrics]: src/api/RequestUtils.hpp:102-163. *)
Definition normalize_path_for_metrics (path : string) : string :=
  let segs := segments path in
  let out := rejoin (if account_token_route segs then Some (base segs + 2)%nat else None) 0 segs in
  if String.eqb out "" then "/" else out.

Example normalize_ex : normalize_path_for_metrics "/api/v1//documents/0a1b2c3d-0000-4000-8000-00000000000f/versions/12/download-url"
  = "/api/v1/documents/:id/versions/:id/download-url".
Proof. vm_compute. reflexivity. Qed.
Example normalize_token_ex : normalize_path_for_metrics "/api/v1/account/reset-password/s3cr3t" = "/api/v1/account/reset-password/:token".
Proof. vm_compute. reflexivity. Qed.
Example normalize_root_ex : normalize_path_for_metrics "" = "/".
Proof. reflexivity. Qed.

(** ** Paging *)

Lemma clamp_range s def lo hi : lo <= hi -> lo <= clamp_int s def lo hi <= hi.
Proof. intros H. unfold clamp_int. cbv zeta. destruct (Z.ltb_spec (parse_int s def) lo); [lia|]. destruct (Z.ltb_spec hi (parse_int s def)); lia. Qed.

Lemma parse_int_dec z def : 0 <= z <= I32_MAX -> parse_int (dec z) def = z.
Proof.
  intros H. assert (0 <= z < 10 ^ 20) as Hz by (unfold I32_MAX in H; lia).
  assert (1 <= size (dec z))%nat as Hs by apply (dec_digits_nonempty 19). unfold parse_int.
  destruct (String.eqb_spec (dec z) "") as [E|_]; [rewrite E in Hs; cbn in Hs; lia|].
  unfold stoi. rewrite strtol_digits by (try apply dec_all; intros E; rewrite E in Hs; cbn in Hs; lia).
  rewrite parse_dec by done. unfold in_i32, I32_MIN, I32_MAX in *.
  by rewrite (proj2 (Z.leb_le _ _)), (proj2 (Z.leb_le _ _)) by lia.
Qed.

(** Paging is total and bounded.  Whatever the query says, the limit lies between
    1 and the maximum and the offset between 0 and a million; and a limit or offset
    within those bounds, written in decimal, is taken as it is. *)
Theorem page_params_bounded l o def max : 1 <= max ->
  let p := parse_page_params l o def max in
  1 <= limit p <= max /\ 0 <= offset p <= 1000000 /\
  (forall z, l = dec z -> 1 <= z <= max -> max <= I32_MAX -> limit p = z) /\
  (forall z, o = dec z -> 0 <= z <= 1000000 -> offset p = z).
Proof.
  intros Hm p. unfold p, parse_page_params. cbn [limit offset]. split; [by apply clamp_range|]. split; [by apply clamp_range|].
  split; intros z -> Hz; unfold clamp_int; cbv zeta.
  - intros Hi. rewrite parse_int_dec by lia. destruct (Z.ltb_spec z 1), (Z.ltb_spec max z); lia.
  - rewrite parse_int_dec by (unfold I32_MAX; lia). destruct (Z.ltb_spec z 0), (Z.ltb_spec 1000000 z); lia.
Qed.

Lemma version_kept v : is_version_seg v = true -> bucket v = v.
Proof.
  destruct v as [|c [|d r]]; [done..|]. cbn [is_version_seg]. intros [->%Ascii.eqb_eq _]%andb_true_iff. unfold bucket, is_uuid_segment.
  cbn [str_all uuid_from]. rewrite bool_decide_false by (rewrite !elem_of_cons, elem_of_nil; lia). change (is_xdigit "v") with false.
  change (is_digit "v") with false. cbn [andb orb]. by rewrite andb_false_r.
Qed.

(** A credential in a path never reaches the log.  Under the four account routes
    that carry a single-use token, with or without an API version segment and however
    many slashes the client wrote, the normalized path is the same for every token. *)
Theorem account_tokens_redacted path ver verb token :
  segments path = "api" :: ver ++ ["account"; verb; token] ->
  ver = [] \/ (exists v, ver = [v] /\ is_version_seg v = true) -> verb ∈ token_verbs ->
  normalize_path_for_metrics path = "/api" +:+ String.concat "" (map (String "/") ver) +:+ "/account/" +:+ verb +:+ "/:token".
Proof.
  intros E Hv Hverb. assert (bucket verb = verb) as Eb.
  { unfold token_verbs in Hverb. rewrite !elem_of_cons, elem_of_nil in Hverb. by destruct Hverb as [->|[->|[->|[->|[]]]]]. }
  assert (existsb (String.eqb verb) token_verbs = true) as Ex.
  { apply existsb_exists. exists verb. rewrite String.eqb_refl. by rewrite <- list_elem_of_In. }
  unfold normalize_path_for_metrics. rewrite E. destruct Hv as [->|(v & -> & Hv)].
  - cbn [app]. unfold account_token_route, base. change (is_version_seg "account") with false. cbn [length Nat.eqb Nat.add nth_error String.eqb Ascii.eqb Bool.eqb].
    rewrite Ex. cbn -[bucket]. rewrite Eb. change (bucket "api") with "api". change (bucket "account") with "account". done.
  - cbn [app]. unfold account_token_route, base. rewrite Hv. cbn [length Nat.eqb Nat.add nth_error String.eqb Ascii.eqb Bool.eqb].
    rewrite Ex. cbn -[bucket]. rewrite Eb, (version_kept v) by done.
    change (bucket "api") with "api". change (bucket "account") with "account". cbn. by rewrite ?str_app_assoc, ?app_empty_r.
Qed.

Lemma page_params_bounded_witness :
  limit (parse_page_params "200" "12" 50 200) = 200 /\ offset (parse_page_params "200" "12" 50 200) = 12.
Proof.
  destruct (page_params_bounded "200" "12" 50 200 ltac:(lia)) as (_ & _ & Hl & Ho).
  split; [apply Hl; [reflexivity | lia | unfold I32_MAX; lia] | apply Ho; [reflexivity | lia]].
Defined.

Lemma account_tokens_redacted_witness :
  normalize_path_for_metrics "/api/v1/account/confirm/0123456789" = "/api/v1/account/confirm/:token".
Proof.
  rewrite (account_tokens_redacted _ ["v1"] "confirm" "0123456789"); [reflexivity | reflexivity | right; by exists "v1" |].
  apply list_elem_of_here.
Defined.

End Requests.

(** ** Handlers and repositories

    The seams every handler goes through: the organization it works for, its answer,
    and what the errors of a repository become. *)

Module Http.

(** [ConflictError]: src/repositories/RepoErrors.hpp:48-62.  The exceptions that derive from it. *)
Definition is_conflict (c : exn_class) : bool :=
  match c with
  | DuplicateTemplateVersion | PublishedTemplateIsImmutable | DuplicateBin | DuplicateMembership | DuplicateBankAccount
  | DuplicateEmail | DuplicateRole | RoleInUse | DuplicateEmployeeIin | DuplicateCounterparty
  | DuplicateAccount | InvalidRunState | GrossSalaryOutOfRange => true
  | _ => false
  end.

(** The code of a conflict: of the three whose text is for the reader, the one of their
    class; the others are raised with their code. *)
Definition conflict_code (e : exn) : string :=
  match exn_cls e with
  | DuplicateAccount => "account_code_taken"
  | InvalidRunState => "invalid_run_state"
  | GrossSalaryOutOfRange => "gross_salary_out_of_range"
  | _ => what e
  end.

(** [translate_sql]: src/repositories/SqlErrors.hpp:27-35. *)
Definition translate_sql {W A} (translate : string -> option exn) (m : st W A) : st W A := fun d =>
  match m d with
  | (Throw e, d') =>
      match exn_cls e with
      | pqxx_sql_error => (Throw (match translate (what e) with Some e' => e' | None => e end), d')
      | _ => (Throw e, d')
      end
  | r => r
  end.

(** [OrgContext]: src/tenancy/OrgContext.hpp:24-28. *)
Record OrgContext := mkCtx { ctx_org : string; role : string; user_id : string }.

(** An HTTP answer: the status, the machine code of a refusal, the body. *)
Record Reply := mkReply { http : Z; code : string; data : json }.

Definition refusal (h : Z) (c : string) : Reply := mkReply h c JNull.

(** [with_repo_errors]: src/api/HandlerSupport.hpp:50-60.  What an exception becomes. *)
Definition repo_reply (e : exn) : Reply :=
  if is_conflict (exn_cls e) then refusal 409 (conflict_code e)
  else if bool_decide (exn_cls e = NotFoundError) then refusal 404 "not_found"
  else refusal 500 "internal_error".

(** [with_repo_errors]: src/api/HandlerSupport.hpp:48-61. *)
Definition with_repo_errors {W} (p : prog W Reply) : prog W Reply := catch (fun e => Ok (repo_reply e)) p.

Lemma repo_reply_status e : http (repo_reply e) = 409 \/ http (repo_reply e) = 404 \/ http (repo_reply e) = 500.
Proof. unfold repo_reply. repeat case_match; cbn; tauto. Qed.

Lemma with_repo_errors_202 {W} (p : prog W Reply) w rep w' : alone (with_repo_errors p) w = (Ok rep, w') -> http rep = 202 -> alone p w = (Ok rep, w').
Proof.
  unfold with_repo_errors. rewrite alone_catch. destruct (alone p w) as [[a|e|] w1]; [done | | done].
  unfold repo_reply. destruct (exn_cls e); intros [= <- <-]; discriminate.
Qed.

Definition invalid_id : Reply := refusal 400 "invalid_id".

(** The identifier of a path: refused when it is no UUID, and from there on in the database's spelling. *)
Definition with_id {W} (id : string) (k : string -> prog W Reply) : prog W Reply :=
  if negb (Requests.is_valid_uuid id) then mret invalid_id else k (Requests.uuid_key id).

Lemma with_id_quiet {W} (inv : W -> Prop) (rel : W -> W -> Prop) `{!PreOrder rel} id (k : string -> prog W Reply) w :
  (forall i, quiet inv rel (k i) w) -> quiet inv rel (with_id id k) w.
Proof. intros H. unfold with_id. case_match; [apply quiet_done | apply H]. Qed.
Definition invalid (errs : list (string * string)) (h : Z) : Reply :=
  mkReply h "validation_failed" (JObject [("errors", JArray (map (fun e => JObject [("code", JString e.2); ("field", JString e.1)]) errs))]).
Definition one_error (f c : string) : Reply := invalid [(f, c)] 422.
Definition wrapped (h : Z) (j : json) : Reply := mkReply h "" (JObject [("data", j)]).
Definition paginated (rows : list json) (total : Z) (page : Requests.PageParams) : Reply :=
  mkReply 200 "" (JObject [("data", JArray rows); ("limit", JInt (Requests.limit page)); ("offset", JInt (Requests.offset page));
                           ("total", JInt total)]).

(** The fields of a body: present and of the type. *)
Definition text_field (k : string) (body : json) : option string :=
  match member k body with Some (JString s) => Some s | _ => None end.
Definition array_field (k : string) (body : json) : option (list json) :=
  match member k body with Some (JArray l) => Some l | _ => None end.

Lemma translate_cases {W A} tr (m : st W A) d : translate_sql tr m d = m d \/
  exists e, (translate_sql tr m d).1 = Throw e /\ (translate_sql tr m d).2 = (m d).2.
Proof.
  unfold translate_sql. destruct (m d) as [[x|e|] d'] eqn:E; [by left | | by left]. destruct e as [[] w]; try (by left).
  right. by eexists.
Qed.

(** Renaming an error changes nothing in the store. *)
Lemma translate_snd {W A} tr (m : st W A) d : (translate_sql tr m d).2 = (m d).2.
Proof. by destruct (translate_cases tr m d) as [-> | (e & _ & ->)]. Qed.

Lemma translate_ok {W A} tr (m : st W A) d a d' : translate_sql tr m d = (Ok a, d') <-> m d = (Ok a, d').
Proof. unfold translate_sql. destruct (m d) as [[x|[[] w]|] d2]; cbn [exn_cls]; split; congruence. Qed.

End Http.

(** ** Field validators *)

Module Validation.

(** The accumulated errors: field and code (the messages are left out). *)
Abbreviation Errors := (list (string * string)).

(** [Errors]: src/api/Validation.hpp:57-62. *)
Definition add (field code : string) (errs : Errors) : Errors := (errs ++ [(field, code)])%list.
Definition any (errs : Errors) : bool := match errs with [] => false | _ => true end.

(** A member that is there and not null. *)
Definition present (body : json) (field : string) : option json :=
  match member field body with Some JNull => None | o => o end.

(** [require]: src/api/Validation.hpp:88-94. *)
Definition require (body : json) (field : string) (errs : Errors) : Errors :=
  match present body field with None => add field "missing" errs | Some _ => errs end.

(** [string_length]: src/api/Validation.hpp:100-113.  In bytes. *)
Definition string_length (body : json) (field : string) (min_len max_len : nat) (errs : Errors) : Errors :=
  match present body field with
  | None => errs
  | Some (JString s) =>
      if Nat.ltb (size s) min_len then add field "too_short" errs
      else if Nat.ltb max_len (size s) then add field "too_long" errs else errs
  | Some _ => add field "not_string" errs
  end.

(** [regex_match]: src/api/Validation.hpp:118-130.  The expression as the language it accepts. *)
Definition regex_match (body : json) (field : string) (re : string -> bool) (errs : Errors) : Errors :=
  match present body field with
  | None => errs
  | Some (JString s) => if re s then errs else add field "bad_format" errs
  | Some _ => add field "not_string" errs
  end.

(** [int_range]: src/api/Validation.hpp:135-148. *)
Definition int_range (body : json) (field : string) (min_val max_val : Z) (errs : Errors) : Errors :=
  match present body field with
  | None => errs
  | Some (JInt z) =>
      let v := get_ll z in
      if v <? min_val then add field "below_min" errs else if max_val <? v then add field "above_max" errs else errs
  | Some _ => add field "not_integer" errs
  end.

(** [one_of]: src/api/Validation.hpp:153-169. *)
Definition one_of (body : json) (field : string) (allowed : list string) (errs : Errors) : Errors :=
  match present body field with
  | None => errs
  | Some (JString s) => if existsb (String.eqb s) allowed then errs else add field "not_allowed" errs
  | Some _ => add field "not_string" errs
  end.

(** [opt_string]: src/api/Validation.hpp:177-181. *)
Definition opt_string (body : json) (field : string) : option string :=
  match member field body with Some (JString s) => Some s | _ => None end.

(** The inline type check of the handlers: a member that is there and is no string. *)
Definition string_if_there (body : json) (field : string) (errs : Errors) : Errors :=
  match member field body with Some (JString _) | None => errs | Some _ => add field "not_string" errs end.
Definition bool_if_there (body : json) (field : string) (errs : Errors) : Errors :=
  match member field body with Some (JBool _) | None => errs | Some _ => add field "not_boolean" errs end.

Definition int_if_there (body : json) (field : string) (errs : Errors) : Errors :=
  match member field body with Some (JInt _) | None => errs | Some _ => add field "not_integer" errs end.
Definition uuid_if_there (body : json) (field : string) (errs : Errors) : Errors :=
  match member field body with
  | None => errs
  | Some (JString s) => if Requests.is_valid_uuid s then errs else add field "bad_format" errs
  | Some _ => add field "bad_format" errs
  end.
Definition string_or_null (body : json) (field : string) (errs : Errors) : Errors :=
  match present body field with Some (JString _) | None => errs | Some _ => add field "not_string" errs end.
Definition object_or_null (body : json) (field : string) (errs : Errors) : Errors :=
  match present body field with Some (JObject _) | None => errs | Some _ => add field "not_object" errs end.

(** [uuid]: src/api/Validation.hpp:190-193. *)
Definition uuid (body : json) (field : string) (errs : Errors) : Errors := regex_match body field Requests.is_uuid_segment errs.

Definition is_alpha (c : ascii) : bool := ((65 <=? code c) && (code c <=? 90)) || ((97 <=? code c) && (code c <=? 122)).
Definition domain_char (c : ascii) : bool := is_alpha c || is_digit c || Ascii.eqb c "." || Ascii.eqb c "-".
Definition local_char (c : ascii) : bool := domain_char c || Ascii.eqb c "_" || Ascii.eqb c "%" || Ascii.eqb c "+".

(** [email]: src/api/Validation.hpp:186-186.  The texts the expression accepts: one at sign, and letters after the last dot. *)
Definition email_format (s : string) : bool :=
  match pieces "@" s with
  | [local; domain] =>
      let tld := List.last (pieces "." domain) "" in
      negb (String.eqb local "") && str_all local_char local && str_all domain_char domain &&
      str_all is_alpha tld && Nat.leb 2 (size tld) && Nat.ltb (size tld + 1) (size domain)
  | _ => false
  end.

(** [email]: src/api/Validation.hpp:183-188. *)
Definition email (body : json) (field : string) (errs : Errors) : Errors := regex_match body field email_format errs.

Example email_ex : map email_format ["a.b@c.kz"; "a@kz"; "a@b.k"; "@b.kz"; "a@@b.kz"; "a@.kz"] = [true; false; false; false; false; false].
Proof. vm_compute. reflexivity. Qed.

(** The three groups of [^(\d{4})-(\d{2})-(\d{2})$]. *)
Definition date_groups (s : string) : option (string * string * string) :=
  match s with
  | String y1 (String y2 (String y3 (String y4 (String h1 (String m1 (String m2 (String h2 (String d1 (String d2 EmptyString))))))))) =>
      let y := String y1 (String y2 (String y3 (String y4 EmptyString))) in
      let m := String m1 (String m2 EmptyString) in
      let d := String d1 (String d2 EmptyString) in
      if str_all is_digit y && str_all is_digit m && str_all is_digit d && Ascii.eqb h1 "-" && Ascii.eqb h2 "-"
      then Some (y, m, d) else None
  | _ => None
  end.

(** [is_valid_date]: src/api/Validation.hpp:207-223. *)
Definition is_valid_date (s : string) : outcome bool :=
  match date_groups s with
  | None => Ok false
  | Some (y, m, d) =>
      year ← stoi y;
      month ← stoi m;
      day ← stoi d;
      if (month <? 1) || (12 <? month) || (day <? 1) then Ok false
      else
        let leap_year := (Z.rem year 4 =? 0) && (negb (Z.rem year 100 =? 0) || (Z.rem year 400 =? 0)) in
        days ← at_ [31; 28; 31; 30; 31; 30; 31; 31; 30; 31; 30; 31] (month - 1);
        let days_in_this_month := if (month =? 2) && leap_year then 29 else days in
        Ok (day <=? days_in_this_month)
  end.

(** How a date is written. *)
Definition two (z : Z) : string := String (digit (z / 10)) (String (digit (z mod 10)) EmptyString).
Definition date_text (d : ymd) : string :=
  two (year d / 100) +:+ two (year d mod 100) +:+ "-" +:+ two (month d) +:+ "-" +:+ two (day d).

Lemma stoi_digits s : s <> "" -> str_all is_digit s = true -> (size s <= 4)%nat -> stoi s = Ok (parse_digits 0 s).
Proof.
  intros Hs H Hn. unfold stoi. rewrite strtol_digits by done. pose proof (parse_digits_range s H) as R.
  assert (10 ^ Z.of_nat (size s) <= 10 ^ 4) by (apply Z.pow_le_mono_r; lia). unfold in_i32, I32_MIN, I32_MAX.
  by rewrite (proj2 (Z.leb_le _ _)), (proj2 (Z.leb_le _ _)) by lia.
Qed.

Lemma two_digits c d : is_digit c = true -> is_digit d = true ->
  two (parse_digits 0 (String c (String d EmptyString))) = String c (String d EmptyString).
Proof.
  unfold is_digit. rewrite !andb_true_iff, !Z.leb_le. intros Hc Hd. cbn [parse_digits]. unfold two, digit.
  replace (((0 * 10 + (code c - 48)) * 10 + (code d - 48)) / 10) with (code c - 48) by dlia.
  replace (((0 * 10 + (code c - 48)) * 10 + (code d - 48)) mod 10) with (code d - 48) by dlia.
  replace (48 + (code c - 48)) with (code c) by lia. replace (48 + (code d - 48)) with (code d) by lia. by rewrite !chr_code.
Qed.

Lemma two_all z : 0 <= z < 100 -> str_all is_digit (two z) = true /\ parse_digits 0 (two z) = z.
Proof.
  intros H. unfold two. cbn [str_all parse_digits]. rewrite !is_digit_digit, !code_digit by dlia. split; [done | dlia].
Qed.

(** The check on the three numbers. *)
Lemma calendar_check y m d : 0 <= y ->
  (if (m <? 1) || (12 <? m) || (d <? 1) then Ok false
   else days ← at_ [31; 28; 31; 30; 31; 30; 31; 31; 30; 31; 30; 31] (m - 1);
        Ok (d <=? (if (m =? 2) && ((Z.rem y 4 =? 0) && (negb (Z.rem y 100 =? 0) || (Z.rem y 400 =? 0))) then 29 else days)))
  = Ok (Dates.ok (mkYmd y m d)).
Proof.
  intros Hy. rewrite !rem_mod by lia. unfold Dates.ok. cbn [year month day].
  destruct (Z.ltb_spec m 1), (Z.leb_spec 1 m); try lia; [done|]. destruct (Z.ltb_spec 12 m), (Z.leb_spec m 12); try lia; [done|].
  destruct (Z.ltb_spec d 1), (Z.leb_spec 1 d); try lia; [done|]. cbn [orb andb]. assert (1 <= m <= 12) as Hm by lia.
  unfold month_days, leap. by_month Hm; reflexivity.
Qed.

Lemma is_valid_date_numbers y1 y2 m d : 0 <= y1 < 100 -> 0 <= y2 < 100 -> 0 <= m < 100 -> 0 <= d < 100 ->
  is_valid_date (two y1 +:+ two y2 +:+ "-" +:+ two m +:+ "-" +:+ two d) = Ok (Dates.ok (mkYmd (100 * y1 + y2) m d)).
Proof.
  intros H1 H2 Hm Hd. destruct (two_all y1 H1) as [A1 P1], (two_all y2 H2) as [A2 P2], (two_all m Hm) as [A3 P3], (two_all d Hd) as [A4 P4].
  assert (parse_digits 0 (two y1 +:+ two y2) = 100 * y1 + y2) as Py.
  { rewrite parse_digits_app, P1. unfold two in P2 |- *. cbn [parse_digits] in P2 |- *. lia. }
  assert (str_all is_digit (two y1 +:+ two y2) = true) as Ay by (by rewrite str_all_app, A1, A2).
  unfold is_valid_date. assert (date_groups (two y1 +:+ two y2 +:+ "-" +:+ two m +:+ "-" +:+ two d)
    = Some (two y1 +:+ two y2, two m, two d)) as ->.
  { unfold two in *. cbn [String.append date_groups] in *. by rewrite Ay, A3, A4. }
  rewrite !stoi_digits, !bind_ok, Py, P3, P4 by (done || (unfold two; cbn; lia)). apply calendar_check. lia.
Qed.

Lemma date_text_valid d : Dates.ok d = true -> 0 <= year d <= 9999 -> is_valid_date (date_text d) = Ok true.
Proof.
  intros H Hy. destruct d as [y m d]. cbn [year] in Hy. unfold date_text. cbn [year month day].
  pose proof H as Hr. unfold Dates.ok in Hr. cbn [year month day] in Hr. pose proof (month_days_range y m).
  rewrite !andb_true_iff, !Z.leb_le in Hr. rewrite is_valid_date_numbers by dlia. rewrite <- H. do 3 f_equal. dlia.
Qed.

(** A date is accepted when it is one.  The check never throws, and it answers yes
    exactly to the texts YYYY-MM-DD of the days of the calendar, from year 0 to 9999. *)
Theorem is_valid_date_spec s :
  exists b, is_valid_date s = Ok b /\
  (b = true <-> exists d, Dates.ok d = true /\ 0 <= year d <= 9999 /\ s = date_text d).
Proof.
  assert (forall b, is_valid_date s = Ok b -> (b = true -> exists d, Dates.ok d = true /\ 0 <= year d <= 9999 /\ s = date_text d) ->
    exists b, is_valid_date s = Ok b /\ (b = true <-> exists d, Dates.ok d = true /\ 0 <= year d <= 9999 /\ s = date_text d)) as K.
  { intros b Hb Hd. exists b. split; [done|]. split; [done|]. intros (d & Hok & Hy & ->).
    rewrite date_text_valid in Hb by done. congruence. }
  destruct (date_groups s) as [[[ys ms] ds]|] eqn:E; [|apply (K false); [unfold is_valid_date; by rewrite E | done]].
  unfold date_groups in E. destruct s as [|c1 [|c2 [|c3 [|c4 [|c5 [|c6 [|c7 [|c8 [|c9 [|c10 [|]]]]]]]]]]]; try discriminate.
  cbv zeta in E. match type of E with (if ?c then _ else _) = _ => destruct c eqn:Hc end; [|discriminate].
  cbn [str_all] in Hc. rewrite !andb_true_iff, !Ascii.eqb_eq in Hc.
  destruct Hc as ((((( Y1 & Y2 & Y3 & Y4 & _) & M1 & M2 & _) & D1 & D2 & _) & ->) & ->). clear E.
  pose proof (parse_digits_range (String c1 (String c2 ""))) as R1. pose proof (parse_digits_range (String c3 (String c4 ""))) as R2.
  pose proof (parse_digits_range (String c6 (String c7 ""))) as R3. pose proof (parse_digits_range (String c9 (String c10 ""))) as R4.
  cbn [str_all] in R1, R2, R3, R4. rewrite Y1, Y2 in R1. rewrite Y3, Y4 in R2. rewrite M1, M2 in R3. rewrite D1, D2 in R4.
  pose proof (two_digits c1 c2 Y1 Y2) as T1. pose proof (two_digits c3 c4 Y3 Y4) as T2.
  pose proof (two_digits c6 c7 M1 M2) as T3. pose proof (two_digits c9 c10 D1 D2) as T4.
  set (y1 := parse_digits 0 (String c1 (String c2 ""))) in *. set (y2 := parse_digits 0 (String c3 (String c4 ""))) in *.
  set (m := parse_digits 0 (String c6 (String c7 ""))) in *. set (d := parse_digits 0 (String c9 (String c10 ""))) in *.
  change (10 ^ Z.of_nat (size (String _ (String _ "")))) with 100 in R1, R2, R3, R4.
  assert (String c1 (String c2 (String c3 (String c4 (String "-" (String c6 (String c7 (String "-" (String c9 (String c10 "")))))))))
    = two y1 +:+ two y2 +:+ "-" +:+ two m +:+ "-" +:+ two d) as Es by (by rewrite T1, T2, T3, T4).
  specialize (R1 eq_refl). specialize (R2 eq_refl). specialize (R3 eq_refl). specialize (R4 eq_refl).
  rewrite Es in K |- *. apply (K (Dates.ok (mkYmd (100 * y1 + y2) m d))); [by apply is_valid_date_numbers|].
  intros Hok. exists (mkYmd (100 * y1 + y2) m d). split; [done|]. unfold date_text. cbn [year month day].
  split; [lia|]. do 2 f_equal; [dlia|]. f_equal. dlia.
Qed.

Example year_zero_accepted : is_valid_date "0000-01-01" = Ok true.
Proof. vm_compute. reflexivity. Qed.
Example february_refused : is_valid_date "2026-02-30" = Ok false.
Proof. vm_compute. reflexivity. Qed.

End Validation.

(** ** Bodies of requests *)

Module Bodies.
Import Http.

Definition text_or (d k : string) (body : json) : string := match text_field k body with Some s => s | None => d end.

Definition required (body : json) (fields : list string) : Validation.Errors := foldl (fun errs f => Validation.require body f errs) [] fields.

(** A date the server will take. *)
Definition dated {W} (field s : string) (k : prog W Reply) : prog W Reply :=
  valid ← pure (Validation.is_valid_date s);
  if (valid : bool) then k else mret (one_error field "invalid_date").
Definition dated_opt {W} (field : string) (o : option string) (k : prog W Reply) : prog W Reply :=
  match o with Some s => dated field s k | None => k end.

Definition parsed_body {W} (parsed : option json) (k : json -> prog W Reply) : prog W Reply :=
  match parsed with None => mret (refusal 400 "invalid_json") | Some body => k body end.

End Bodies.
