(* ===== verification/TaxCalendar.v ===== *)
(** * The tax calendar (src/tax/TaxCalendar.hpp)

    Rules of [tax_deadlines] expanded into dated deadlines, and the theorem
    that the two walks over the periods miss none and repeat none. *)
From Stdlib Require Import ZArith Lia Ascii String Sorted.
From S2P Require Import Prelude Dates.
Open Scope string_scope.
Open Scope Z_scope.

Module Calendar.

(** [Deadline]: src/tax/TaxCalendar.hpp:49-55. *)
Record Deadline := mkDeadline {
  d_form : string; d_kind : string; d_period_label : string; d_due_date : string; d_days_left : Z
}.

(** [Rule]: src/tax/TaxCalendar.hpp:114-122. *)
Record Rule := mkRule {
  form : string; kind : string; period_kind : string; due_day : Z; due_month_offset : Z;
  effective_from : string
}.

(** [parse_date]: src/tax/TaxCalendar.hpp:158-164; [month] and [day] hold a byte. *)
Definition parse_date (s : string) : outcome ymd :=
  ys ← substr 0 4 s; y ← stoi ys;
  ms ← substr 5 2 s; m ← stoi ms;
  ds ← substr 8 2 s; d ← stoi ds;
  mret (mkYmd y (m mod 256) (d mod 256)).

(** [format_date]: src/tax/TaxCalendar.hpp:166-179. *)
Definition format_date (d : ymd) : string :=
  fmt0 4 (year d) +:+ ("-" +:+ (fmt0 2 (month d) +:+ ("-" +:+ fmt0 2 (day d)))).

(** [last_day_of]: src/tax/TaxCalendar.hpp:181-184. *)
Definition last_day_of (ym : Z * Z) : ymd := mkYmd ym.1 ym.2 (month_days ym.1 ym.2).

(** [days_between]: src/tax/TaxCalendar.hpp:186-188. *)
Definition days_between (a b : ymd) : Z := serial b - serial a.

(** [period_length_months]: src/tax/TaxCalendar.hpp:192-200. *)
Definition period_length_months (pk : string) : Z :=
  if String.eqb pk "month" then 1
  else if String.eqb pk "quarter" then 3
  else if String.eqb pk "half_year" then 6
  else 12.

(** [current_period_end_month]: src/tax/TaxCalendar.hpp:205-218. *)
Definition current_period_end_month (on_date : ymd) (pk : string) : Z * Z :=
  let m := month on_date in
  if String.eqb pk "month" then (year on_date, m)
  else if String.eqb pk "quarter" then (year on_date, ((m - 1) / 3 + 1) * 3)
  else if String.eqb pk "half_year" then (year on_date, if m <=? 6 then 6 else 12)
  else (year on_date, 12).

Definition weekend (d : ymd) : bool := (weekday d =? 6) || (weekday d =? 0).

Fixpoint shift_loop (fuel : nat) (d : ymd) : ymd :=
  match fuel with
  | O => d
  | S f => if weekend d then shift_loop f (next_day d) else d
  end.

(** [shift_weekend_forward]: src/tax/TaxCalendar.hpp:223-232; two days are
    enough to leave a weekend. *)
Definition shift_weekend_forward (d : ymd) : ymd := shift_loop 2 d.

Definition kRoman : list string := ["I"; "II"; "III"; "IV"].
Definition kMonthsRu : list string :=
  [""; "Январь"; "Февраль"; "Март"; "Апрель"; "Май"; "Июнь"; "Июль"; "Август"; "Сентябрь"; "Октябрь";
   "Ноябрь"; "Декабрь"].

(** [period_label]: src/tax/TaxCalendar.hpp:236-262. *)
Definition period_label (end_ym : Z * Z) (pk : string) : outcome string :=
  let '(y, m) := end_ym in
  if String.eqb pk "half_year" then
    mret ((if m =? 6 then "I полугодие " else "II полугодие ") +:+ to_string y)
  else if String.eqb pk "quarter" then
    q ← at_ kRoman (m / 3 - 1);
    mret (q +:+ (" квартал " +:+ to_string y))
  else if String.eqb pk "year" then mret (to_string y +:+ " год")
  else
    n ← at_ kMonthsRu m;
    mret (n +:+ (" " +:+ to_string y)).

Section Expand.
Context (r : Rule) (on_date horizon_end : ymd).

(** [expand_rule]: src/tax/TaxCalendar.hpp:283-287. *)
Definition due_for (end_ym : Z * Z) : ymd :=
  let due_ym := add_months end_ym (due_month_offset r) in
  shift_weekend_forward (mkYmd due_ym.1 due_ym.2 (due_day r)).

(** [expand_rule]: src/tax/TaxCalendar.hpp:288-296. *)
Definition make_deadline (end_ym : Z * Z) (due : ymd) : outcome Deadline :=
  label ← period_label end_ym (period_kind r);
  mret (mkDeadline (form r) (kind r) label (format_date due) (days_between on_date due)).

Definition end_at (i : Z) : Z * Z :=
  add_months (current_period_end_month on_date (period_kind r)) (period_length_months (period_kind r) * i).

(** [expand_rule]: src/tax/TaxCalendar.hpp:298-315.  The walk to later periods; an endless loop is undefined behaviour. *)
Fixpoint later (fuel : nat) (eff : ymd) (i : Z) : outcome (list Deadline) :=
  match fuel with
  | O => Undef
  | S f =>
      let end_ym := end_at i in
      let due := due_for end_ym in
      if ymd_lt horizon_end due then mret []
      else if ymd_lt (last_day_of end_ym) eff then later f eff (i + 1)
      else if negb (ymd_lt due on_date) then
        d ← make_deadline end_ym due; rest ← later f eff (i + 1); mret (d :: rest)
      else later f eff (i + 1)
  end.

(** [expand_rule]: src/tax/TaxCalendar.hpp:316-326.  The walk to earlier periods. *)
Fixpoint earlier (fuel : nat) (eff : ymd) (i : Z) : outcome (list Deadline) :=
  match fuel with
  | O => Undef
  | S f =>
      let end_ym := end_at i in
      if ymd_lt (last_day_of end_ym) eff then mret []
      else
        let due := due_for end_ym in
        if ymd_lt due on_date then mret []
        else if negb (ymd_lt horizon_end due) then
          d ← make_deadline end_ym due; rest ← earlier f eff (i - 1); mret (d :: rest)
        else earlier f eff (i - 1)
  end.

(** Rounds until the due date leaves the window, at a day or more per round. *)
Definition later_fuel : nat := S (Z.to_nat (serial horizon_end + 1 - serial (due_for (end_at 0)))).
Definition earlier_fuel : nat := S (Z.to_nat (serial (due_for (end_at (-1))) + 1 - serial on_date)).

(** [expand_rule]: src/tax/TaxCalendar.hpp:274-327; what it appends to [out]. *)
Definition expand_rule : outcome (list Deadline) :=
  eff ← parse_date (effective_from r);
  xs ← later later_fuel eff 0;
  ys ← earlier earlier_fuel eff (-1);
  mret (xs ++ ys)%list.

End Expand.

(** The order of [load_rules]' query, and the row it keeps per (form, kind). *)
Definition rule_before (a b : Rule) : bool :=
  String.ltb (form a) (form b) || String.eqb (form a) (form b) &&
    (String.ltb (kind a) (kind b) || String.eqb (kind a) (kind b) &&
       String.ltb (effective_from b) (effective_from a)).

Fixpoint distinct_on (rs : list Rule) : list Rule :=
  match rs with
  | [] => []
  | r :: rest =>
      r :: match distinct_on rest with
           | x :: xs => if String.eqb (form x) (form r) && String.eqb (kind x) (kind r) then xs else x :: xs
           | [] => []
           end
  end.

(** [load_rules]: src/tax/TaxCalendar.hpp:128-150, on the rows of the table. *)
Definition load_rules (table : list Rule) (on_date : string) : list Rule :=
  distinct_on (stable_sort rule_before (List.filter (fun r => negb (String.ltb on_date (effective_from r))) table)).

Fixpoint expand_all (rs : list Rule) (on_date horizon_end : ymd) : outcome (list Deadline) :=
  match rs with
  | [] => mret []
  | r :: rest =>
      xs ← expand_rule r on_date horizon_end; ys ← expand_all rest on_date horizon_end; mret (xs ++ ys)%list
  end.

(** [upcoming]: src/tax/TaxCalendar.hpp:98-110. *)
Definition upcoming (table : list Rule) (on_date : string) (horizon_days : Z) : outcome (list Deadline) :=
  let rules := load_rules table on_date in
  on ← parse_date on_date;
  let horizon_end := add_days on (Z.to_nat horizon_days) in
  out ← expand_all rules on horizon_end;
  mret (stable_sort (fun a b => String.ltb (d_due_date a) (d_due_date b)) out).

(** The seeded rules of migrations/015_tax_deadlines.sql. *)
Definition seed : list Rule :=
  [mkRule "910.00" "report" "half_year" 15 2 "2026-01-01"; mkRule "910.00" "payment" "half_year" 25 2 "2026-01-01";
   mkRule "300.00" "report" "quarter" 15 2 "2026-01-01"; mkRule "300.00" "payment" "quarter" 25 2 "2026-01-01"].

Example upcoming_ex :
  map (fun d => (d_form d, d_due_date d, d_period_label d, d_days_left d)) <$> 
    match upcoming seed "2026-08-01" 30 with Ok l => Some l | _ => None end
  = Some [("300.00", "2026-08-17", "II квартал 2026", 16); ("910.00", "2026-08-17", "I полугодие 2026", 16);
          ("300.00", "2026-08-25", "II квартал 2026", 24); ("910.00", "2026-08-25", "I полугодие 2026", 24)].
Proof. vm_compute. reflexivity. Qed.

(** ** Date facts of the walk *)

Lemma weekday_range d : 0 <= weekday d < 7.
Proof. apply Z.mod_pos_bound. lia. Qed.

Lemma weekday_next d : ok d = true -> weekday (next_day d) = (weekday d + 1) mod 7.
Proof. intros H. destruct (next_day_ok d H) as [_ E]. unfold weekday. rewrite E. dlia. Qed.

(** The shift moves at most two days, to the first day that is no weekend. *)
Lemma shift_spec d :
  ok d = true -> let s := shift_weekend_forward d in
  ok s = true /\ weekend s = false /\ serial d <= serial s <= serial d + 2 /\
  (weekend d = false -> s = d) /\
  serial s = serial d + (if weekday d =? 6 then 2 else if weekday d =? 0 then 1 else 0).
Proof.
  intros H. cbv zeta. unfold shift_weekend_forward. cbn [shift_loop]. unfold weekend.
  pose proof (weekday_range d). destruct (next_day_ok d H) as [H1 E1].
  destruct (next_day_ok _ H1) as [H2 E2]. pose proof (weekday_next d H) as W1. pose proof (weekday_next _ H1) as W2.
  set (n1 := next_day d) in *. set (n2 := next_day n1) in *. clearbody n1 n2.
  assert (W : weekday d = 6 \/ weekday d = 0 \/ weekday d <> 6 /\ weekday d <> 0) by lia.
  destruct W as [W | [W | [W W']]].
  - rewrite W in *. change ((6 + 1) mod 7) with 0 in W1. rewrite W1 in *. change ((0 + 1) mod 7) with 1 in W2.
    simpl (_ =? _). cbn [orb]. rewrite W2. repeat split; try done; lia.
  - rewrite W in *. change ((0 + 1) mod 7) with 1 in W1. rewrite W1.
    simpl (_ =? _). cbn [orb]. rewrite W1. repeat split; try done; lia.
  - rewrite (proj2 (Z.eqb_neq _ _) W), (proj2 (Z.eqb_neq _ _) W'). cbn [orb].
    rewrite (proj2 (Z.eqb_neq _ _) W), (proj2 (Z.eqb_neq _ _) W'). repeat split; try done; lia.
Qed.

Lemma ym_ok ym d : 1 <= ym.2 <= 12 -> 1 <= d <= 28 -> ok (mkYmd ym.1 ym.2 d) = true.
Proof. intros H1 H2. unfold ok. simpl. pose proof (month_days_range ym.1 ym.2). lia. Qed.

Lemma add_months_ok ym n : 1 <= (add_months ym n).2 <= 12.
Proof. unfold add_months. simpl. dlia. Qed.

Definition ym_index (ym : Z * Z) : Z := 12 * ym.1 + (ym.2 - 1).

Lemma add_months_index ym n : ym_index (add_months ym n) = ym_index ym + n.
Proof. unfold ym_index, add_months. simpl. dlia. Qed.

Lemma last_day_ok ym : 1 <= ym.2 <= 12 -> ok (last_day_of ym) = true.
Proof. intros H. unfold ok, last_day_of. simpl. pose proof (month_days_range ym.1 ym.2). lia. Qed.

Lemma last_day_serial ym : 1 <= ym.2 <= 12 -> serial (last_day_of ym) = first_of (ym_index ym + 1) - 1.
Proof.
  intros H. rewrite serial_index by done. unfold index, last_day_of, ym_index. simpl. rewrite first_of_step.
  replace ((12 * ym.1 + (ym.2 - 1)) / 12) with ym.1 by dlia.
  replace ((12 * ym.1 + (ym.2 - 1)) mod 12 + 1) with ym.2 by dlia. lia.
Qed.

Lemma period_length_pos pk : 1 <= period_length_months pk <= 12.
Proof. unfold period_length_months. repeat case_match; lia. Qed.

Section Walk.
Context (r : Rule) (on_date horizon_end eff : ymd).
Context (Hday : 1 <= due_day r <= 28) (Hon : ok on_date = true) (Hhz : ok horizon_end = true) (Heff : ok eff = true).

Local Abbreviation end_at := (end_at r on_date).
Local Abbreviation due_at i := (due_for r (end_at i)).
Local Abbreviation len := (period_length_months (period_kind r)).

Lemma end_at_ok i : 1 <= (end_at i).2 <= 12.
Proof. apply add_months_ok. Qed.

Lemma end_at_index i : ym_index (end_at i) = ym_index (end_at 0) + len * i.
Proof. unfold TaxCalendar.Calendar.end_at. rewrite !add_months_index. lia. Qed.

Lemma due_ok ym : ok (due_for r ym) = true.
Proof. apply shift_spec, ym_ok; [apply add_months_ok | done]. Qed.

Lemma due_serial ym :
  let raw := first_of (ym_index ym + due_month_offset r) + (due_day r - 1) in
  raw <= serial (due_for r ym) <= raw + 2.
Proof.
  assert (Ho : ok (mkYmd (add_months ym (due_month_offset r)).1 (add_months ym (due_month_offset r)).2 (due_day r)) = true)
    by (apply ym_ok; [apply add_months_ok | done]).
  destruct (shift_spec _ Ho) as (_ & _ & Hs & _). unfold due_for. cbv zeta.
  rewrite serial_index in Hs by apply add_months_ok.
  unfold index in Hs. cbn [year month day] in Hs. fold (ym_index (add_months ym (due_month_offset r))) in Hs.
  rewrite add_months_index in Hs. lia.
Qed.

(** Due dates grow from period to period. *)
Lemma due_mono i j : i < j -> serial (due_at i) + 26 * (j - i) <= serial (due_at j).
Proof.
  intros H. pose proof (due_serial (end_at i)) as Di. pose proof (due_serial (end_at j)) as Dj. cbv zeta in Di, Dj.
  rewrite (end_at_index i) in Di. rewrite (end_at_index j) in Dj. pose proof (period_length_pos (period_kind r)).
  pose proof (first_of_mono (ym_index (end_at 0) + len * i + due_month_offset r)
                (ym_index (end_at 0) + len * j + due_month_offset r)) as F.
  assert (len * i + (j - i) <= len * j) by nia. specialize (F ltac:(lia)). lia.
Qed.

Lemma last_mono i j : i <= j -> serial (last_day_of (end_at i)) <= serial (last_day_of (end_at j)).
Proof.
  intros H. rewrite !last_day_serial, (end_at_index i), (end_at_index j) by apply end_at_ok.
  pose proof (period_length_pos (period_kind r)).
  pose proof (first_of_mono (ym_index (end_at 0) + len * i + 1) (ym_index (end_at 0) + len * j + 1)). nia.
Qed.

(** A period that belongs to the answer. *)
Definition in_window (i : Z) : Prop :=
  serial eff <= serial (last_day_of (end_at i)) /\ serial on_date <= serial (due_at i) <= serial horizon_end.

Lemma not_before a b : ok a = true -> ok b = true -> ymd_lt a b = false <-> serial b <= serial a.
Proof. intros Ha Hb. pose proof (ymd_lt_serial a b Ha Hb). destruct (ymd_lt a b); [split; [done | lia] | split; [lia | done]]. Qed.

Definition made (k : Z) (d : Deadline) : Prop := make_deadline r on_date (end_at k) (due_at k) = Ok d.

Lemma at_total {A} (l : list A) i : 0 <= i < Z.of_nat (length l) -> exists x, at_ l i = Ok x.
Proof.
  intros H. unfold at_. destruct (Z.ltb_spec i 0); [lia|].
  destruct (l !! Z.to_nat i) eqn:E; [by eexists|]. apply lookup_ge_None in E. lia.
Qed.

(** Every period of the walk has a label: a quarter ends in a month divisible
    by three. *)
Lemma made_total k : exists d, made k d.
Proof.
  unfold made, make_deadline. enough (exists l, period_label (end_at k) (period_kind r) = Ok l) as [l ->]
    by by eexists.
  pose proof (end_at_ok k) as Hm. pose proof (end_at_index k) as Hi. unfold end_at in Hi at 2.
  rewrite add_months_index in Hi. unfold period_label. destruct (end_at k) as [y m] eqn:E. simpl in Hm.
  case_match; [by eexists|]. case_match eqn:Hq.
  - unfold current_period_end_month, period_length_months in Hi. rewrite Hq in Hi. apply String.eqb_eq in Hq.
    rewrite Hq in Hi. simpl in Hi. unfold ym_index in Hi. cbn [fst snd] in Hi.
    assert (m mod 3 = 0) by dlia. destruct (at_total kRoman (m / 3 - 1)) as [x ->]; [simpl; dlia|]. by eexists.
  - case_match; [by eexists|]. destruct (at_total kMonthsRu m) as [x ->]; [simpl; lia|]. by eexists.
Qed.

Lemma none_in (P : Z -> Prop) : (forall k, ~ P k) -> forall k, k ∈ [] <-> P k.
Proof. intros H k. rewrite elem_of_nil. split; [done | apply H]. Qed.

Lemma later_spec fuel : forall i,
  (Z.to_nat (serial horizon_end + 1 - serial (due_at i)) < fuel)%nat ->
  exists ks l, later r on_date horizon_end fuel eff i = Ok l /\ Forall2 made ks l /\
    StronglySorted Z.lt ks /\ (forall k, k ∈ ks <-> i <= k /\ in_window k).
Proof.
  induction fuel as [|f IH]; intros i Hf; [lia|]. cbn [later]. cbv zeta.
  pose proof (due_ok (end_at i)) as Hd. pose proof (last_day_ok _ (end_at_ok i)) as Hl.
  destruct (ymd_lt horizon_end (due_at i)) eqn:E1.
  { apply ymd_lt_serial in E1; [|done..]. exists [], []. split; [done|]. split; [constructor|].
    split; [constructor|]. apply none_in. intros k [Hk (_ & _ & Hw)].
    destruct (Z.eq_dec i k) as [->|]; [lia|]. pose proof (due_mono i k). lia. }
  apply not_before in E1; [|done..]. pose proof (due_mono i (i + 1) ltac:(lia)).
  destruct (IH (i + 1)) as (ks & l & Hrun & Hmade & Hsort & Hin); [lia|]. rewrite Hrun.
  assert (Hskip : ~ in_window i -> forall k, k ∈ ks <-> i <= k /\ in_window k).
  { intros Hn k. rewrite Hin. split; [intros [? ?]; split; [lia | done]|].
    intros [Hk Hw]. split; [|done]. destruct (Z.eq_dec i k) as [->|]; [done | lia]. }
  destruct (ymd_lt (last_day_of (end_at i)) eff) eqn:E2.
  { apply ymd_lt_serial in E2; [|done..]. exists ks, l. split; [done|]. split; [done|]. split; [done|].
    apply Hskip. intros [? _]. lia. }
  apply not_before in E2; [|done..]. destruct (ymd_lt (due_at i) on_date) eqn:E3; cbn [negb].
  { apply ymd_lt_serial in E3; [|done..]. exists ks, l. split; [done|]. split; [done|]. split; [done|].
    apply Hskip. intros (_ & ? & _). lia. }
  apply not_before in E3; [|done..]. destruct (made_total i) as [d Hmi]. rewrite Hmi, !bind_ok.
  exists (i :: ks), (d :: l). split; [done|]. split; [by constructor|]. split.
  - constructor; [done|]. apply Forall_forall. intros k Hk. apply Hin in Hk. lia.
  - intros k. rewrite elem_of_cons, Hin. split.
    + intros [-> | [? ?]]; [split; [lia | done]|]. split; [lia | done].
    + intros [Hk Hw]. destruct (Z.eq_dec i k); [by left | right]. split; [lia | done].
Qed.

Lemma earlier_spec fuel : forall i,
  (Z.to_nat (serial (due_at i) + 1 - serial on_date) < fuel)%nat ->
  exists ks l, earlier r on_date horizon_end fuel eff i = Ok l /\ Forall2 made ks l /\
    StronglySorted Z.gt ks /\ (forall k, k ∈ ks <-> k <= i /\ in_window k).
Proof.
  induction fuel as [|f IH]; intros i Hf; [lia|]. cbn [earlier]. cbv zeta.
  pose proof (due_ok (end_at i)) as Hd. pose proof (last_day_ok _ (end_at_ok i)) as Hl.
  assert (Hstop : (forall k, k <= i -> ~ in_window k) -> exists ks l, Ok [] = Ok l /\ Forall2 made ks l /\
    StronglySorted Z.gt ks /\ (forall k, k ∈ ks <-> k <= i /\ in_window k)).
  { intros Hn. exists [], []. split; [done|]. split; [constructor|]. split; [constructor|].
    apply none_in. intros k [Hk Hw]. by destruct (Hn k Hk). }
  destruct (ymd_lt (last_day_of (end_at i)) eff) eqn:E2.
  { apply ymd_lt_serial in E2; [|done..]. apply Hstop. intros k Hk [Hw _]. pose proof (last_mono k i Hk). lia. }
  destruct (ymd_lt (due_at i) on_date) eqn:E3.
  { apply ymd_lt_serial in E3; [|done..]. apply Hstop. intros k Hk (_ & Hw & _).
    destruct (Z.eq_dec k i) as [->|]; [lia|]. pose proof (due_mono k i). lia. }
  clear Hstop. apply not_before in E2; [|done..]. apply not_before in E3; [|done..].
  pose proof (due_mono (i - 1) i ltac:(lia)).
  destruct (IH (i - 1)) as (ks & l & Hrun & Hmade & Hsort & Hin); [lia|]. rewrite Hrun.
  destruct (ymd_lt horizon_end (due_at i)) eqn:E1; cbn [negb].
  { apply ymd_lt_serial in E1; [|done..]. exists ks, l. split; [done|]. split; [done|]. split; [done|].
    intros k. rewrite Hin. split; [intros [? ?]; split; [lia | done]|].
    intros [Hk Hw]. split; [|done]. destruct (Z.eq_dec i k) as [->|]; [destruct Hw as (_ & _ & ?); lia | lia]. }
  apply not_before in E1; [|done..]. destruct (made_total i) as [d Hmi]. rewrite Hmi, !bind_ok.
  exists (i :: ks), (d :: l). split; [done|]. split; [by constructor|]. split.
  - constructor; [done|]. apply Forall_forall. intros k Hk. apply Hin in Hk. lia.
  - intros k. rewrite elem_of_cons, Hin. split.
    + intros [-> | [? ?]]; [split; [lia | done]|]. split; [lia | done].
    + intros [Hk Hw]. destruct (Z.eq_dec i k); [by left | right]. split; [lia | done].
Qed.

End Walk.

Lemma strict_sorted_NoDup (R : Z -> Z -> Prop) l :
  (forall x, ~ R x x) -> StronglySorted R l -> NoDup l.
Proof.
  intros HR. induction 1 as [|x l _ IH Hall]; constructor; [|done]. intros Hx.
  rewrite Forall_forall in Hall. by apply (HR x), Hall.
Qed.

Lemma expand_rule_run r on hz eff :
  1 <= due_day r <= 28 -> ok on = true -> ok hz = true -> ok eff = true ->
  parse_date (effective_from r) = Ok eff ->
  exists ks l, expand_rule r on hz = Ok l /\ Forall2 (made r on) ks l /\ NoDup ks /\
    (forall k, k ∈ ks <-> in_window r on hz eff k).
Proof.
  intros Hday Hon Hhz Heff Hparse. unfold expand_rule. rewrite Hparse, bind_ok.
  destruct (later_spec r on hz eff Hday Hon Hhz Heff (later_fuel r on hz) 0)
    as (k1 & l1 & -> & H1 & S1 & I1); [unfold later_fuel; lia|].
  destruct (earlier_spec r on hz eff Hday Hon Hhz Heff (earlier_fuel r on) (-1))
    as (k2 & l2 & -> & H2 & S2 & I2); [unfold earlier_fuel; lia|].
  exists (k1 ++ k2)%list, (l1 ++ l2)%list. split; [done|]. split; [by apply Forall2_app|]. split.
  - apply NoDup_app. split; [eapply strict_sorted_NoDup; [|exact S1]; intros x; lia|]. split.
    + intros x Hx Hy. apply I1 in Hx. apply I2 in Hy. lia.
    + eapply strict_sorted_NoDup; [|exact S2]; intros x; lia.
  - intros k. rewrite elem_of_app, I1, I2. split; [tauto|].
    intros H. destruct (Z.le_gt_cases 0 k); [left | right]; (split; [lia | done]).
Qed.

(** Expanding a rule always ends and yields each deadline of the window
    exactly once: one per period, past or future, whose last day is not before
    the rule took effect and whose shifted due date is between the date asked
    about and the horizon; and no such due date is a Saturday or Sunday. *)
Theorem expand_rule_complete r on hz eff :
  1 <= due_day r <= 28 -> ok on = true -> ok hz = true -> ok eff = true ->
  parse_date (effective_from r) = Ok eff ->
  exists ks l, expand_rule r on hz = Ok l /\ NoDup ks /\
    (forall k, k ∈ ks <->
       serial eff <= serial (last_day_of (end_at r on k)) /\
       serial on <= serial (due_for r (end_at r on k)) <= serial hz) /\
    Forall2 (fun k d => d_due_date d = format_date (due_for r (end_at r on k)) /\
                        d_days_left d = serial (due_for r (end_at r on k)) - serial on /\
                        period_label (end_at r on k) (period_kind r) = Ok (d_period_label d) /\
                        weekend (due_for r (end_at r on k)) = false) ks l.
Proof.
  intros Hday Hon Hhz Heff Hparse.
  destruct (expand_rule_run r on hz eff Hday Hon Hhz Heff Hparse) as (ks & l & Hl & Hm & Hn & Hk).
  exists ks, l. split; [done|]. split; [done|]. split; [exact Hk|].
  eapply Forall2_impl; [exact Hm|]. intros k d. unfold made, make_deadline.
  destruct (period_label _ _) as [x| |]; [|discriminate..]. intros [= <-]. simpl.
  split; [done|]. split; [done|]. split; [done|]. apply shift_spec, ym_ok; [apply add_months_ok | done].
Qed.

Lemma expand_rule_complete_witness :
  exists ks l, expand_rule (mkRule "910.00" "report" "half_year" 15 2 "2026-01-01") (mkYmd 2026 8 1) (mkYmd 2026 8 31)
    = Ok l /\ NoDup (ks : list Z).
Proof.
  destruct (expand_rule_complete (mkRule "910.00" "report" "half_year" 15 2 "2026-01-01")
              (mkYmd 2026 8 1) (mkYmd 2026 8 31) (mkYmd 2026 1 1)) as (ks & l & H & Hn & _);
    [simpl; lia | reflexivity | reflexivity | reflexivity | vm_compute; reflexivity |].
  exists ks, l. split; [exact H | exact Hn].
Defined.

Definition rule_ok (r : Rule) : Prop :=
  1 <= due_day r <= 28 /\ exists eff, parse_date (effective_from r) = Ok eff /\ ok eff = true.

Lemma distinct_on_sub rs r : r ∈ distinct_on rs -> r ∈ rs.
Proof.
  induction rs as [|x rs IH]; simpl; [done|]. rewrite !elem_of_cons. intros [-> | H]; [by left|]. right. apply IH.
  destruct (distinct_on rs) as [|y ys]; [done|]. case_match; [by right | done].
Qed.

Lemma load_rules_sub table on r : r ∈ load_rules table on -> r ∈ table.
Proof.
  unfold load_rules. intros H%distinct_on_sub. rewrite stable_sort_perm in H.
  apply list_elem_of_In, List.filter_In in H as [H _]. by apply list_elem_of_In.
Qed.

Lemma expand_all_spec rs on hz :
  Forall rule_ok rs -> ok on = true -> ok hz = true ->
  exists l, expand_all rs on hz = Ok l /\
    forall d, d ∈ l <-> exists r eff k, r ∈ rs /\ parse_date (effective_from r) = Ok eff /\
                        in_window r on hz eff k /\ made r on k d.
Proof.
  intros H Hon Hhz. induction H as [|r rs (Hday & eff & Hp & He) _ (l & Hl & Hin)]; simpl.
  - exists []. split; [done|]. intros d. rewrite elem_of_nil. split; [done|].
    intros (r & ? & ? & Hr & _). by apply elem_of_nil in Hr.
  - destruct (expand_rule_run r on hz eff Hday Hon Hhz He Hp) as (ks & l1 & -> & Hm & _ & Hk).
    rewrite Hl, !bind_ok. exists (l1 ++ l)%list. split; [done|]. intros d. rewrite elem_of_app, Hin. split.
    + intros [Hd | (r' & eff' & k & Hr & Hrest)].
      * apply list_elem_of_lookup in Hd as [n Hd]. destruct (Forall2_lookup_r _ _ _ _ _ Hm Hd) as (k & Hkn & Hmk).
        exists r, eff, k. split; [by left|]. split; [done|]. split; [|done].
        apply Hk. by eapply list_elem_of_lookup_2.
      * exists r', eff', k. split; [by right | done].
    + intros (r' & eff' & k & [-> | Hr]%elem_of_cons & Hp' & Hw & Hmk).
      * left. rewrite Hp in Hp'. injection Hp' as <-. apply Hk in Hw.
        apply list_elem_of_lookup in Hw as [n Hn]. destruct (Forall2_lookup_l _ _ _ _ _ Hm Hn) as (d' & Hd & Hmd).
        unfold made in *. assert (d' = d) as -> by congruence. by eapply list_elem_of_lookup_2.
      * right. by exists r', eff', k.
Qed.

(** [upcoming] returns, in due-date order, exactly the deadlines of the rules
    in force whose due date lies within the horizon. *)
Theorem upcoming_complete table on_date on horizon_days :
  Forall rule_ok table -> parse_date on_date = Ok on -> ok on = true -> 0 <= horizon_days ->
  exists l, upcoming table on_date horizon_days = Ok l /\
    StronglySorted (fun x y => String.leb (d_due_date x) (d_due_date y) = true) l /\
    forall d, d ∈ l <-> exists r eff k, r ∈ load_rules table on_date /\ parse_date (effective_from r) = Ok eff /\
      serial eff <= serial (last_day_of (end_at r on k)) /\
      serial on <= serial (due_for r (end_at r on k)) <= serial on + horizon_days /\
      make_deadline r on (end_at r on k) (due_for r (end_at r on k)) = Ok d.
Proof.
  intros Ht Hp Hon Hh. unfold upcoming. rewrite Hp, bind_ok.
  destruct (add_days_ok (Z.to_nat horizon_days) on Hon) as [Hhz Hser]. rewrite Z2Nat.id in Hser by done.
  destruct (expand_all_spec (load_rules table on_date) on (add_days on (Z.to_nat horizon_days)))
    as (l & -> & Hin); [|done..|].
  { apply Forall_forall. intros r Hr. rewrite Forall_forall in Ht. apply Ht. by eapply load_rules_sub. }
  rewrite bind_ok. eexists. split; [reflexivity|]. split; [apply sort_by_string_sorted|].
  intros d. rewrite stable_sort_perm, Hin. unfold in_window, made. rewrite Hser.
  split; intros (r & eff & k & H1 & H2 & H3); exists r, eff, k; tauto.
Qed.

Lemma upcoming_complete_witness : exists l, upcoming seed "2026-08-01" 30 = Ok l.
Proof.
  destruct (upcoming_complete seed "2026-08-01" (mkYmd 2026 8 1) 30) as (l & H & _).
  - repeat constructor; simpl; try lia; exists (mkYmd 2026 1 1); split; vm_compute; reflexivity.
  - vm_compute. reflexivity.
  - reflexivity.
  - lia.
  - exists l. exact H.
Defined.

End Calendar.
