(* ===== verification/PayrollService.v ===== *)
(** * The payroll service (src/payroll/PayrollService.hpp)

    Runs, payslips and their state machine (draft, approved, posted) over the
    payroll tables, on top of the calculator and of the journal service. *)
From Stdlib Require Import ZArith Lia Ascii String.
From S2P Require Import Prelude PayrollCalculator Ledger JournalDb JournalService.
Open Scope string_scope.
Open Scope Z_scope.

Module Payroll.
Import Db Journal Calculator.

(** ** Tables *)

(** [Payslip]: src/payroll/Payslip.hpp:34-71. *)
Record Payslip := mkSlip {
  ps_id : string; ps_org : string; ps_run : string; ps_employee : string;
  ps_gross : Z; ps_opv : Z; ps_vosms : Z; ps_ipn : Z; ps_net : Z; ps_opvr : Z; ps_so : Z; ps_osms : Z;
  ps_social : Z; ps_created : Z
}.

(** [PayrollRun]: src/payroll/Payslip.hpp:101-141. *)
Record PayrollRun := mkRun {
  run_id : string; run_org : string; period_year : Z; period_month : Z; run_status : string;
  rates_snapshot : list (string * string); journal_entry_id : option string; payslips : list Payslip
}.

(** [Employee]: src/hr/Employee.hpp:29-70, the fields payroll reads. *)
Record Employee := mkEmployee {
  emp_id : string; emp_org : string; salary_tiyn : Z; hired_on : string; dismissed_on : option string;
  emp_deduction : bool; emp_opvr_exempt : bool; emp_status : string; emp_created : Z
}.

(** [Rate]: src/tax/TaxRate.hpp:53-76. *)
Record Rate := mkRate {
  rate_kind : string; rate_bp_of : Z; rate_region : option string; rate_from : string; rate_to : option string
}.

(** [Constant]: src/tax/TaxRate.hpp:98-121. *)
Record Constant := mkConstant {
  const_key : string; value_tiyn : Z; value_units : option Z; const_from : string; const_to : option string
}.

(** The tables payroll reads and writes; a run row carries no payslips. *)
Record PayDB := mkPayDB {
  pd_runs : list PayrollRun; pd_slips : list Payslip; pd_employees : list Employee;
  pd_rates : list Rate; pd_constants : list Constant; pd_regimes : gmap string string;
  pd_orgs : gset string; pd_seq : nat; pd_now : Z
}.

Definition with_runs (f : list PayrollRun -> list PayrollRun) (d : PayDB) : PayDB :=
  mkPayDB (f (pd_runs d)) (pd_slips d) (pd_employees d) (pd_rates d) (pd_constants d) (pd_regimes d)
    (pd_orgs d) (pd_seq d) (pd_now d).
Definition with_slips (f : list Payslip -> list Payslip) (d : PayDB) : PayDB :=
  mkPayDB (pd_runs d) (f (pd_slips d)) (pd_employees d) (pd_rates d) (pd_constants d) (pd_regimes d)
    (pd_orgs d) (pd_seq d) (pd_now d).
Definition pay_next_uuid (d : PayDB) : PayDB :=
  mkPayDB (pd_runs d) (pd_slips d) (pd_employees d) (pd_rates d) (pd_constants d) (pd_regimes d)
    (pd_orgs d) (S (pd_seq d)) (pd_now d).

(** The journal world and the payroll tables; [pw_env] as [w_env]. *)
Record PWorld := mkPW { pw_w : World; pw_p : PayDB; pw_env : list (PayDB -> PayDB) }.

Definition pay_yield : st PWorld unit :=
  modify (fun s => match pw_env s with
                   | [] => s
                   | f :: fs => mkPW (pw_w s) (f (pw_p s)) fs
                   end).

Definition pay_read {A} (q : PayDB -> A) : st PWorld A := pay_yield ;; gets (fun s => q (pw_p s)).

(** One transaction on the payroll tables: all of it or none. *)
Definition pay_txn {A} (body : st PayDB A) : st PWorld A :=
  fun s => match body (pw_p s) with
           | (Ok a, d) => (Ok a, mkPW (pw_w s) d (pw_env s))
           | (Throw e, _) => (Throw e, s)
           | (Undef, _) => (Undef, s)
           end.

Definition pay_write {A} (body : st PayDB A) : st PWorld A := pay_yield ;; pay_txn body.

Definition on_journal {A} (m : st World A) : st PWorld A :=
  fun s => let '(r, w) := m (pw_w s) in (r, mkPW w (pw_p s) (pw_env s)).

(** ** Dates of a period *)

(** [last_day_of_month]: src/payroll/PayrollService.hpp:213-223. *)
Definition last_day_of_month (y m : Z) : outcome string :=
  d ← at_ [31; 28; 31; 30; 31; 30; 31; 31; 30; 31; 30; 31] (m - 1);
  let d := if (m =? 2) && ((Z.rem y 4 =? 0) && negb (Z.rem y 100 =? 0) || (Z.rem y 400 =? 0)) then 29 else d in
  mret (fmt0 4 y +:+ ("-" +:+ (fmt0 2 m +:+ ("-" +:+ fmt0 2 d)))).

(** [first_day_of_month]: src/payroll/PayrollService.hpp:230-235. *)
Definition first_day_of_month (y m : Z) : string := fmt0 4 y +:+ ("-" +:+ (fmt0 2 m +:+ "-01")).

(** ** Reference data *)

(** ISO dates compare as text. *)
Definition date_le (a b : string) : bool := String.leb a b.

Definition in_force (from : string) (to : option string) (date : string) : bool :=
  date_le from date && match to with Some t => date_le date t | None => true end.

(** ORDER BY region NULLS LAST, effective_from DESC. *)
Definition rate_before (a b : Rate) : bool :=
  match rate_region a, rate_region b with
  | Some x, Some y => String.ltb x y || String.eqb x y && String.ltb (rate_from b) (rate_from a)
  | Some _, None => true
  | None, Some _ => false
  | None, None => String.ltb (rate_from b) (rate_from a)
  end.

(** [rate_on]: src/tax/TaxReferenceRepository.hpp:63-78. *)
Definition rate_on (kind date region : string) (d : PayDB) : option Rate :=
  head (stable_sort rate_before
    (List.filter (fun r => String.eqb (rate_kind r) kind && in_force (rate_from r) (rate_to r) date
       && match rate_region r with None => true | Some x => String.eqb x region end) (pd_rates d))).

(** [constant_on]: src/tax/TaxReferenceRepository.hpp:83-96. *)
Definition constant_on (key date : string) (d : PayDB) : option Constant :=
  head (stable_sort (fun a b => String.ltb (const_from b) (const_from a))
    (List.filter (fun c => String.eqb (const_key c) key && in_force (const_from c) (const_to c) date)
       (pd_constants d))).

Definition missing {A} (what_kind name date : string) : st PWorld A :=
  throw MissingPayrollReference
    ("payroll: no tax " +:+ (what_kind +:+ (" '" +:+ (name +:+ ("' effective on " +:+ date))))).

(** [rate_bp]: src/payroll/PayrollService.hpp:555-560. *)
Definition rate_bp (kind date : string) : st PWorld Z :=
  rate ← pay_read (rate_on kind date "");
  match rate with None => missing "rate" kind date | Some r => mret (rate_bp_of r) end.

(** [constant_tiyn]: src/payroll/PayrollService.hpp:562-567. *)
Definition constant_tiyn (key date : string) : st PWorld Z :=
  c ← pay_read (constant_on key date);
  match c with None => missing "constant" key date | Some c => mret (value_tiyn c) end.

(** [constant_units]: src/payroll/PayrollService.hpp:569-574. *)
Definition constant_units (key date : string) : st PWorld Z :=
  c ← pay_read (constant_on key date);
  match c with
  | None => missing "constant" key date
  | Some c => mret (match value_units c with Some u => u | None => 0 end)
  end.

(** [build_rates]: src/payroll/PayrollService.hpp:582-604. *)
Definition build_rates (org date : string) : st PWorld Rates :=
  ipn ← rate_bp "ipn" date;
  opv ← rate_bp "opv" date;
  opvr ← rate_bp "opvr" date;
  so ← rate_bp "so" date;
  osms ← rate_bp "osms" date;
  vosms ← rate_bp "vosms" date;
  social ← rate_bp "social_tax" date;
  mrp ← constant_tiyn "mrp" date;
  mzp ← constant_tiyn "mzp" date;
  ipn_deduction ← constant_units "ipn_deduction_mrp" date;
  opv_max ← constant_units "opv_base_max_mzp" date;
  so_min ← constant_units "so_base_min_mzp" date;
  so_max ← constant_units "so_base_max_mzp" date;
  vosms_max ← constant_units "vosms_base_max_mzp" date;
  osms_max ← constant_units "osms_base_max_mzp" date;
  regime ← pay_read (fun d => pd_regimes d !! org);
  mret (mkRates ipn opv opvr so osms vosms social mrp mzp ipn_deduction opv_max so_min so_max vosms_max
          osms_max (negb (bool_decide (regime = Some "snr_simplified")))).

Definition bool_text (b : bool) : string := if b then "true" else "false".

(** [rates_snapshot_json]: src/payroll/PayrollService.hpp:609-629; the members of the object. *)
Definition rates_snapshot_json (r : Rates) (effective_date : string) : list (string * string) :=
  [("effective_date", effective_date); ("ipn_bp", to_string (ipn_bp r)); ("opv_bp", to_string (opv_bp r));
   ("opvr_bp", to_string (opvr_bp r)); ("so_bp", to_string (so_bp r)); ("osms_bp", to_string (osms_bp r));
   ("vosms_bp", to_string (vosms_bp r)); ("social_tax_bp", to_string (social_tax_bp r));
   ("mrp_tiyn", to_string (mrp_tiyn r)); ("mzp_tiyn", to_string (mzp_tiyn r));
   ("ipn_deduction_mrp", to_string (ipn_deduction_mrp r)); ("opv_base_max_mzp", to_string (opv_base_max_mzp r));
   ("so_base_min_mzp", to_string (so_base_min_mzp r)); ("so_base_max_mzp", to_string (so_base_max_mzp r));
   ("vosms_base_max_mzp", to_string (vosms_base_max_mzp r)); ("osms_base_max_mzp", to_string (osms_base_max_mzp r));
   ("social_tax_applies", bool_text (social_tax_applies r))].

(** ** Reads *)

(** [list_employed_during]: src/hr/EmployeeRepository.hpp:193-214. *)
Definition list_employed_during (org period_start period_end : string) (d : PayDB) : list Employee :=
  stable_sort (fun a b => emp_created b <? emp_created a)
    (List.filter (fun e => String.eqb (emp_org e) org && date_le (hired_on e) period_end
       && match dismissed_on e with
          | Some x => date_le period_start x
          | None => String.eqb (emp_status e) "active"
          end) (pd_employees d)).

(** [find_by_period]: src/payroll/PayrollRepository.hpp:63-79. *)
Definition find_by_period (org : string) (y m : Z) (d : PayDB) : option PayrollRun :=
  List.find (fun r => String.eqb (run_org r) org && (period_year r =? y) && (period_month r =? m)) (pd_runs d).

(** [find_in_org]: src/tenancy/OrgScoped.hpp:48-59. *)
Definition find_run_in_org (rid org : string) (d : PayDB) : option PayrollRun :=
  List.find (fun r => String.eqb (run_id r) rid && String.eqb (run_org r) org) (pd_runs d).

(** [list_payslips]: src/payroll/PayrollRepository.hpp:150-163. *)
Definition list_payslips (run : PayrollRun) (d : PayDB) : list Payslip :=
  stable_sort (fun a b => (ps_created a <? ps_created b) || (ps_created a =? ps_created b) && String.ltb (ps_id a) (ps_id b))
    (List.filter (fun p => String.eqb (ps_run p) (run_id run) && String.eqb (ps_org p) (run_org run)) (pd_slips d)).

Section Service.
Context `{PG : Postgres}.

(** ** [calculate_run] *)

(** [calculate_run]: src/payroll/PayrollService.hpp:302-304. *)
Fixpoint screen (es : list Employee) : outcome unit :=
  match es with
  | [] => mret tt
  | e :: rest =>
      if (salary_tiyn e <? 0) || (kMaxGrossTiyn <? salary_tiyn e) then
        Throw (Exn GrossSalaryOutOfRange
          ("employee " +:+ (emp_id e +:+ (" has salary_tiyn " +:+ (to_string (salary_tiyn e) +:+
           (", above the maximum " +:+ (to_string kMaxGrossTiyn +:+
            " payroll can calculate — correct the employee card first")))))))
      else screen rest
  end.

Definition whole : st PayDB PayDB := gets (fun d => d).

Definition pay_sql {A} (state : string) : st PayDB A := throw pqxx_sql_error state.

Definition set_run (r r' : PayrollRun) (rs : list PayrollRun) : list PayrollRun :=
  map (fun x => if String.eqb (run_id x) (run_id r) then r' else x) rs.

(** [calculate_run]: src/payroll/PayrollService.hpp:323-332.  UPDATE payroll_runs SET rates_snapshot WHERE id AND org AND status = 'draft'. *)
Definition update_draft_run (rid org : string) (snap : list (string * string)) : st PayDB (option PayrollRun) :=
  d ← whole;
  match find_run_in_org rid org d with
  | Some r =>
      if String.eqb (run_status r) "draft" then
        let r' := mkRun (run_id r) (run_org r) (period_year r) (period_month r) (run_status r) snap
                    (journal_entry_id r) [] in
        modify (with_runs (set_run r r')) ;; mret (Some r')
      else mret None
  | None => mret None
  end.

(** [calculate_run]: src/payroll/PayrollService.hpp:339-347.  INSERT INTO payroll_runs: the month CHECK, the foreign key, UNIQUE (org, period). *)
Definition insert_run (org : string) (y m : Z) (snap : list (string * string)) : st PayDB PayrollRun :=
  d ← whole;
  if negb ((1 <=? m) && (m <=? 12)) then pay_sql "23514"
  else if negb (bool_decide (org ∈ pd_orgs d)) then pay_sql "23503"
  else if bool_decide (find_by_period org y m d <> None) then pay_sql "23505"
  else
    let r := mkRun (gen_random_uuid (pd_seq d)) org y m "draft" snap None [] in
    modify (fun d => with_runs (fun rs => (rs ++ [r])%list) (pay_next_uuid d)) ;; mret r.

(** [calculate_run]: src/payroll/PayrollService.hpp:358-374.  INSERT INTO payslips: the CHECK constraints, the employee's foreign key,
    UNIQUE (run, employee). *)
Definition insert_slip (org rid eid : string) (gross : Z) (res : Result) : st PayDB Payslip :=
  d ← whole;
  if negb ((0 <=? gross) && (0 <=? opv res) && (0 <=? vosms res) && (0 <=? ipn res) && (0 <=? net res)
           && (0 <=? opvr res) && (0 <=? so res) && (0 <=? osms res) && (0 <=? social_tax res))
  then pay_sql "23514"
  else if negb (existsb (fun e => String.eqb (emp_id e) eid && String.eqb (emp_org e) org) (pd_employees d))
  then pay_sql "23503"
  else if existsb (fun p => String.eqb (ps_run p) rid && String.eqb (ps_employee p) eid) (pd_slips d)
  then pay_sql "23505"
  else
    let p := mkSlip (gen_random_uuid (pd_seq d)) org rid eid gross (opv res) (vosms res) (ipn res) (net res)
               (opvr res) (so res) (osms res) (social_tax res) (pd_now d) in
    modify (fun d => with_slips (fun ps => (ps ++ [p])%list) (pay_next_uuid d)) ;; mret p.

(** [calculate_run]: src/payroll/PayrollService.hpp:350-375. *)
Fixpoint insert_slips (org rid : string) (rates : Rates) (es : list Employee) : st PayDB (list Payslip) :=
  match es with
  | [] => mret []
  | e :: rest =>
      res ← lift (calculate (mkInput (salary_tiyn e) (emp_deduction e) (emp_opvr_exempt e)) rates);
      p ← insert_slip org rid (emp_id e) (salary_tiyn e) res;
      ps ← insert_slips org rid rates rest;
      mret (p :: ps)
  end.

Definition with_payslips (r : PayrollRun) (ps : list Payslip) : PayrollRun :=
  mkRun (run_id r) (run_org r) (period_year r) (period_month r) (run_status r) (rates_snapshot r)
    (journal_entry_id r) ps.

(** [calculate_run]: src/payroll/PayrollService.hpp:316-337.  Recalculation of an existing run: the compare-and-set UPDATE, then the
    removal of its payslips. *)
Definition reset_run (rid org : string) (snap : list (string * string)) : st PayDB PayrollRun :=
  rr ← update_draft_run rid org snap;
  match rr with
  | None => throw InvalidRunState "cannot recalculate an approved payroll run"
  | Some run =>
      modify (with_slips (List.filter (fun p =>
        negb (String.eqb (ps_run p) (run_id run) && String.eqb (ps_org p) org)))) ;;
      mret run
  end.

(** [calculate_run]: src/payroll/PayrollService.hpp:314-377.  The write transaction of [calculate_run]. *)
Definition calculate_txn (org : string) (y m : Z) (rates : Rates) (snap : list (string * string))
    (es : list Employee) (existing : option PayrollRun) : st PayDB PayrollRun :=
  run ← match existing with
        | Some e => reset_run (run_id e) org snap
        | None => insert_run org y m snap
        end;
  ps ← insert_slips org (run_id run) rates es;
  mret (with_payslips run ps).

(** [calculate_run]: src/payroll/PayrollService.hpp:291-378. *)
Definition calculate_run (org : string) (y m : Z) : st PWorld PayrollRun :=
  let period_start := first_day_of_month y m in
  effective_date ← lift (last_day_of_month y m);
  rates ← build_rates org effective_date;
  employees ← pay_read (list_employed_during org period_start effective_date);
  lift (screen employees) ;;
  existing ← pay_read (find_by_period org y m);
  if match existing with Some e => String.eqb (run_status e) "approved" | None => false end then
    throw InvalidRunState "cannot recalculate an approved payroll run"
  else
    pay_write (calculate_txn org y m rates (rates_snapshot_json rates effective_date) employees existing).

(** [approve]: src/payroll/PayrollService.hpp:392-402.  UPDATE payroll_runs SET status = 'approved' WHERE id AND org AND status = 'draft'. *)
Definition approve_row (rid org : string) : st PayDB (option PayrollRun) :=
  d ← whole;
  match find_run_in_org rid org d with
  | Some r =>
      if String.eqb (run_status r) "draft" then
        let r' := mkRun (run_id r) (run_org r) (period_year r) (period_month r) "approved" (rates_snapshot r)
                    (journal_entry_id r) [] in
        modify (with_runs (set_run r r')) ;; mret (Some r')
      else mret None
  | None => mret None
  end.

(** [approve]: src/payroll/PayrollService.hpp:385-408. *)
Definition approve (org rid : string) : st PWorld (option PayrollRun) :=
  existing ← pay_read (find_run_in_org rid org);
  match existing with
  | None => mret None
  | Some e =>
      if negb (String.eqb (run_status e) "draft") then
        throw InvalidRunState ("cannot approve a payroll run in status '" +:+ (run_status e +:+ "'"))
      else
        updated ← pay_write (approve_row rid org);
        match updated with
        | None => throw InvalidRunState "run status changed concurrently — no longer 'draft'"
        | Some run => ps ← pay_read (list_payslips run); mret (Some (with_payslips run ps))
        end
  end.

(** [find_run]: src/payroll/PayrollService.hpp:414-416. *)
Definition find_run (org : string) (y m : Z) : st PWorld (option PayrollRun) := pay_read (find_by_period org y m).

(** [payslips_of]: src/payroll/PayrollService.hpp:423-428. *)
Definition payslips_of (org rid : string) : st PWorld (list Payslip) :=
  run ← pay_read (find_run_in_org rid org);
  match run with None => mret [] | Some r => pay_read (list_payslips r) end.

(** ** [post_to_journal] *)

Record Totals := mkTotals {
  gross_total : Z; opv_total : Z; vosms_total : Z; ipn_total : Z; net_total : Z; opvr_total : Z;
  so_total : Z; osms_total : Z; social_tax_total : Z
}.

(** [post_to_journal]: src/payroll/PayrollService.hpp:464-483. *)
Fixpoint total_loop (ps : list Payslip) (t : Totals) : outcome Totals :=
  match ps with
  | [] => mret t
  | p :: rest =>
      gross ← add64 (gross_total t) (ps_gross p);
      opv ← add64 (opv_total t) (ps_opv p);
      vosms ← add64 (vosms_total t) (ps_vosms p);
      ipn ← add64 (ipn_total t) (ps_ipn p);
      net ← add64 (net_total t) (ps_net p);
      opvr ← add64 (opvr_total t) (ps_opvr p);
      so ← add64 (so_total t) (ps_so p);
      osms ← add64 (osms_total t) (ps_osms p);
      social ← add64 (social_tax_total t) (ps_social p);
      total_loop rest (mkTotals gross opv vosms ipn net opvr so osms social)
  end.

(** [add_line]: src/payroll/PayrollService.hpp:542-553. *)
Definition add_line (ls : list JournalLine) (account sd : string) (tiyn : Z) : outcome (list JournalLine) :=
  if tiyn =? 0 then mret ls
  else text ← Amounts.format_tiyn tiyn; mret (ls ++ [mkLine "" "" account sd text None None])%list.

(** [post_to_journal]: src/payroll/PayrollService.hpp:485-500. *)
Definition payroll_lines (t : Totals) : outcome (list JournalLine) :=
  d1 ← add64 (gross_total t) (opvr_total t);
  d2 ← add64 d1 (so_total t);
  d3 ← add64 d2 (osms_total t);
  debit_total ← add64 d3 (social_tax_total t);
  l ← add_line [] "7210" "debit" debit_total;
  l ← add_line l "3350" "credit" (net_total t);
  l ← add_line l "3120" "credit" (ipn_total t);
  pension ← add64 (opv_total t) (opvr_total t);
  l ← add_line l "3220" "credit" pension;
  l ← add_line l "3210" "credit" (so_total t);
  medical ← add64 (osms_total t) (vosms_total t);
  l ← add_line l "3230" "credit" medical;
  add_line l "3150" "credit" (social_tax_total t).

(** [post_to_journal]: src/payroll/PayrollService.hpp:514-523.  UPDATE payroll_runs SET journal_entry_id WHERE id AND org AND journal_entry_id IS NULL. *)
Definition claim_row (rid org eid : string) : st PayDB bool :=
  d ← whole;
  match find_run_in_org rid org d with
  | Some r =>
      match journal_entry_id r with
      | None =>
          let r' := mkRun (run_id r) (run_org r) (period_year r) (period_month r) (run_status r)
                      (rates_snapshot r) (Some eid) [] in
          modify (with_runs (set_run r r')) ;; mret true
      | Some _ => mret false
      end
  | None => mret false
  end.

(** [post_to_journal]: src/payroll/PayrollService.hpp:451-527. *)
Definition post_to_journal (org rid user : string) : st PWorld string :=
  found ← pay_read (find_run_in_org rid org);
  match found with
  | None => throw NotFoundError "not found: payroll_run"
  | Some run =>
      if negb (String.eqb (run_status run) "approved") then
        throw InvalidRunState
          ("cannot post a payroll run in status '" +:+ (run_status run +:+ "' — approve it first"))
      else if bool_decide (is_Some (journal_entry_id run)) then throw InvalidRunState "already_posted"
      else
        ps ← pay_read (list_payslips run);
        (if match ps with [] => true | _ => false end then
           throw std_runtime_error "cannot post an empty payroll run to the journal — calculate it first"
         else mret tt) ;;
        totals ← lift (total_loop ps (mkTotals 0 0 0 0 0 0 0 0 0));
        ls ← lift (payroll_lines totals);
        entry_date ← lift (last_day_of_month (period_year run) (period_month run));
        entry ← on_journal (create_draft org user entry_date
          ("Начисление заработной платы за " +:+ (to_string (period_month run) +:+ ("." +:+ to_string (period_year run))))
          ls);
        on_journal (post org (Db.id entry)) ;;
        claimed ← pay_write (claim_row rid org (Db.id entry));
        if (claimed : bool) then mret (Db.id entry) else throw InvalidRunState "already_posted"
  end.

(** ** The state of the runs *)

(** A payslip as [calculate] makes it: non-negative, the gross split exactly. *)
Definition slip_ok (p : Payslip) : Prop :=
  ps_gross p = ps_net p + ps_opv p + ps_vosms p + ps_ipn p /\
  0 <= ps_gross p <= kMaxGrossTiyn /\ 0 <= ps_opv p /\ 0 <= ps_vosms p /\ 0 <= ps_ipn p /\ 0 <= ps_net p /\
  0 <= ps_opvr p /\ 0 <= ps_so p /\ 0 <= ps_osms p /\ 0 <= ps_social p.

Definition slips_of (d : PayDB) (rid : string) : list Payslip := filter (fun p => ps_run p = rid) (pd_slips d).

Record pay_inv (d : PayDB) : Prop := {
  pay_slips_ok : Forall slip_ok (pd_slips d);
  pay_runs_unique : NoDup (map run_id (pd_runs d));
  pay_run_ok : forall r, r ∈ pd_runs d ->
    run_status r ∈ ["draft"; "approved"] /\ (is_Some (journal_entry_id r) -> run_status r = "approved") /\
    1 <= period_month r <= 12;
  pay_fresh : forall r, r ∈ pd_runs d -> exists k, (k < pd_seq d)%nat /\ run_id r = gen_random_uuid k;
  pay_slip_run : forall p, p ∈ pd_slips d -> exists r, r ∈ pd_runs d /\ run_id r = ps_run p /\ run_org r = ps_org p
}.

(** What may happen to an approved run: only being linked to a journal entry,
    once. *)
Definition pay_evolves (d d' : PayDB) : Prop :=
  forall r, r ∈ pd_runs d -> run_status r = "approved" ->
  exists r', r' ∈ pd_runs d' /\ run_id r' = run_id r /\ run_org r' = run_org r /\
    period_year r' = period_year r /\ period_month r' = period_month r /\ run_status r' = "approved" /\
    rates_snapshot r' = rates_snapshot r /\
    (journal_entry_id r = None \/ journal_entry_id r' = journal_entry_id r) /\
    slips_of d' (run_id r) = slips_of d (run_id r).

#[export] Instance pay_evolves_preorder : PreOrder pay_evolves.
Proof.
  split.
  - intros d r Hr Hs. exists r. repeat split; auto.
  - intros d1 d2 d3 H12 H23 r Hr Hs.
    destruct (H12 r Hr Hs) as (r2 & Hr2 & Hi & Ho & Hy & Hm & Hst & Hsn & Hj & Hsl).
    destruct (H23 r2 Hr2 Hst) as (r3 & Hr3 & Hi3 & Ho3 & Hy3 & Hm3 & Hst3 & Hsn3 & Hj3 & Hsl3).
    exists r3. rewrite Hi in Hsl3. repeat split; try congruence.
    destruct Hj as [Hj|Hj]; [by left|]. destruct Hj3 as [Hj3|Hj3]; [left; congruence | right; congruence].
Qed.

(** Other sessions keep the tables. *)
Definition pay_env_ok (s : PWorld) : Prop :=
  Forall (fun f => forall d, pay_inv d -> pay_inv (f d) /\ pay_evolves d (f d)) (pw_env s).

Definition pay_keeps (s s' : PWorld) : Prop :=
  pay_inv (pw_p s') /\ pay_env_ok s' /\ pay_evolves (pw_p s) (pw_p s').

Definition pay_safe {A} (m : st PWorld A) : Prop :=
  forall s, pay_inv (pw_p s) -> pay_env_ok s -> pay_keeps s (m s).2.

Lemma pay_keeps_refl s : pay_inv (pw_p s) -> pay_env_ok s -> pay_keeps s s.
Proof. intros Hi He. split; [done|]. split; [done | reflexivity]. Qed.

Lemma pay_keeps_trans s1 s2 s3 : pay_keeps s1 s2 -> pay_keeps s2 s3 -> pay_keeps s1 s3.
Proof. intros (_ & _ & H12) (Hi & He & H23). split; [done|]. split; [done | by etransitivity]. Qed.

Lemma pay_safe_ret {A} (a : A) : pay_safe (mret a).
Proof. intros s Hi He. by apply pay_keeps_refl. Qed.

Lemma pay_safe_lift {A} (m : outcome A) : pay_safe (lift m).
Proof. intros s Hi He. by apply pay_keeps_refl. Qed.

Lemma pay_safe_throw {A} c w : pay_safe (throw c w : st PWorld A).
Proof. intros s Hi He. by apply pay_keeps_refl. Qed.

Lemma pay_safe_journal {A} (m : st World A) : pay_safe (on_journal m).
Proof.
  intros s Hi He. unfold on_journal. destruct (m (pw_w s)) as [r w]. simpl.
  split; [done|]. split; [done | reflexivity].
Qed.

Lemma pay_safe_bind {A B} (m : st PWorld A) (f : A -> st PWorld B) :
  pay_safe m -> (forall a, pay_safe (f a)) -> pay_safe (m ≫= f).
Proof.
  intros Hm Hf s Hi He. specialize (Hm s Hi He). rewrite st_bind_case.
  destruct (m s) as [[a| |] s1]; simpl in *; [|done..].
  eapply pay_keeps_trans; [exact Hm|]. destruct Hm as (? & ? & _). by apply Hf.
Qed.

Lemma pay_yield_keeps s : pay_inv (pw_p s) -> pay_env_ok s -> pay_keeps s (pay_yield s).2.
Proof.
  intros Hi He. unfold pay_yield, modify, pay_keeps, pay_env_ok in *. simpl.
  destruct (pw_env s) as [|f fs] eqn:E; [split; [done|]; split; [by rewrite E | reflexivity]|].
  apply Forall_cons in He as [Hf Hfs]. destruct (Hf _ Hi). simpl. auto.
Qed.

Lemma pay_safe_read {A} (q : PayDB -> A) : pay_safe (pay_read q).
Proof. intros s Hi He. exact (pay_yield_keeps s Hi He). Qed.

Lemma pay_safe_write {A} (body : st PayDB A) :
  (forall d a d', pay_inv d -> body d = (Ok a, d') -> pay_inv d' /\ pay_evolves d d') ->
  pay_safe (pay_write body).
Proof.
  intros Hb s Hi He. pose proof (pay_yield_keeps s Hi He) as Hy. unfold pay_write. rewrite st_bind_case.
  change (pay_yield s) with (@Ok unit tt, (pay_yield s).2). set (s1 := (pay_yield s).2) in *. cbv iota beta.
  unfold pay_txn. destruct (body (pw_p s1)) as [[a| |] d'] eqn:E; [|done..].
  eapply pay_keeps_trans; [exact Hy|]. destruct Hy as (Hi1 & He1 & _). destruct (Hb _ _ _ Hi1 E).
  split; [done|]. split; done.
Qed.

Create HintDb payroll discriminated.
#[local] Hint Resolve pay_safe_ret pay_safe_lift pay_safe_throw pay_safe_journal pay_safe_bind pay_safe_read : payroll.

(** ** One statement at a time *)

Lemma find_run_in rid org d r :
  find_run_in_org rid org d = Some r -> r ∈ pd_runs d /\ run_id r = rid /\ run_org r = org.
Proof.
  unfold find_run_in_org. intros H. apply List.find_some in H as [Hin [H1 H2]%andb_true_iff].
  apply String.eqb_eq in H1, H2. split; [by apply list_elem_of_In | done].
Qed.

Lemma find_run_unique rid org d r :
  NoDup (map run_id (pd_runs d)) -> r ∈ pd_runs d -> run_id r = rid -> run_org r = org ->
  find_run_in_org rid org d = Some r.
Proof.
  unfold find_run_in_org. intros Hn Hin <- <-. induction (pd_runs d) as [|x l IH]; [by apply elem_of_nil in Hin|].
  apply NoDup_cons in Hn as [Hx Hn]. simpl. destruct (String.eqb_spec (run_id x) (run_id r)) as [E|E]; simpl.
  - apply elem_of_cons in Hin as [-> | Hin]; [by rewrite String.eqb_refl|].
    exfalso. apply Hx. rewrite E. by apply list_elem_of_fmap_2.
  - apply elem_of_cons in Hin as [-> | Hin]; [done | by apply IH].
Qed.

(** Replacing one run by a new version of it. *)
Lemma set_run_spec rs r r' :
  NoDup (map run_id rs) -> r ∈ rs -> run_id r' = run_id r ->
  map run_id (set_run r r' rs) = map run_id rs /\
  (forall x, x ∈ set_run r r' rs <-> x = r' \/ x ∈ rs /\ run_id x <> run_id r).
Proof.
  intros Hn Hin Hid. unfold set_run. split.
  - rewrite map_map. apply map_ext. intros x. by destruct (String.eqb_spec (run_id x) (run_id r)); congruence.
  - intros x. rewrite list_elem_of_In, in_map_iff. split.
    + intros (y & Hy & Hiny). apply list_elem_of_In in Hiny. destruct (String.eqb_spec (run_id y) (run_id r)); subst; auto.
    + intros [-> | [Hx Hne]].
      * exists r. rewrite String.eqb_refl. split; [done | by apply list_elem_of_In].
      * exists x. destruct (String.eqb_spec (run_id x) (run_id r)); [done|]. split; [done | by apply list_elem_of_In].
Qed.

Lemma run_unique d x r : pay_inv d -> x ∈ pd_runs d -> r ∈ pd_runs d -> run_id x = run_id r -> x = r.
Proof.
  intros Hi Hx Hin E. pose proof (pay_runs_unique d Hi) as Hn.
  apply list_elem_of_lookup in Hx as [i Hx]. apply list_elem_of_lookup in Hin as [j Hj].
  assert (i = j) as ->; [|congruence].
  eapply (NoDup_lookup (map run_id (pd_runs d))); [done | | ]; rewrite list_lookup_fmap;
    [rewrite Hx | rewrite Hj]; simpl; [reflexivity | by rewrite E].
Qed.

(** A new version of one run with its payslips untouched. *)
Lemma update_run_keeps d r r' :
  pay_inv d -> r ∈ pd_runs d -> run_id r' = run_id r -> run_org r' = run_org r ->
  period_year r' = period_year r -> period_month r' = period_month r ->
  run_status r' ∈ ["draft"; "approved"] -> (is_Some (journal_entry_id r') -> run_status r' = "approved") ->
  (run_status r = "approved" -> run_status r' = "approved" /\ rates_snapshot r' = rates_snapshot r /\
     (journal_entry_id r = None \/ journal_entry_id r' = journal_entry_id r)) ->
  pay_inv (with_runs (set_run r r') d) /\ pay_evolves d (with_runs (set_run r r') d).
Proof.
  intros Hi Hin Hid Ho Hy Hm Hst Hj Hap.
  destruct (set_run_spec (pd_runs d) r r' (pay_runs_unique d Hi) Hin Hid) as [Hmap Hel].
  pose proof (fun x => run_unique d x r Hi) as Huniq.
  split.
  - split.
    + exact (pay_slips_ok d Hi).
    + simpl. rewrite Hmap. exact (pay_runs_unique d Hi).
    + intros x Hx. simpl in Hx. apply Hel in Hx as [-> | [Hx _]]; [|exact (pay_run_ok d Hi x Hx)].
      split; [done|]. split; [done|]. rewrite Hm. apply (pay_run_ok d Hi r Hin).
    + intros x Hx. simpl in *. apply Hel in Hx as [-> | [Hx _]]; [rewrite Hid; exact (pay_fresh d Hi r Hin)|].
      exact (pay_fresh d Hi x Hx).
    + intros p Hp. destruct (pay_slip_run d Hi p Hp) as (x & Hx & E1 & E2).
      destruct (String.eqb_spec (run_id x) (run_id r)) as [E|E].
      * rewrite (Huniq x Hx Hin E) in *. exists r'. simpl. split; [apply Hel; by left|]. split; congruence.
      * exists x. simpl. split; [apply Hel; right; done|]. done.
  - intros x Hx Hs. destruct (String.eqb_spec (run_id x) (run_id r)) as [E|E].
    + rewrite (Huniq x Hx Hin E) in *. destruct (Hap Hs) as (H1 & H2 & H3). exists r'.
      split; [simpl; apply Hel; by left|]. repeat split; try congruence.
    + exists x. split; [simpl; apply Hel; right; done|]. repeat split; auto.
Qed.

(** ** Insertion of payslips *)

(** The payslip of an employee under given rates. *)
Definition slip_for (org rid : string) (rates : Rates) (e : Employee) (p : Payslip) : Prop :=
  ps_org p = org /\ ps_run p = rid /\ ps_employee p = emp_id e /\ ps_gross p = salary_tiyn e /\
  calculate (mkInput (salary_tiyn e) (emp_deduction e) (emp_opvr_exempt e)) rates
    = Ok (mkResult (ps_opv p) (ps_vosms p) (ps_ipn p) (ps_net p) (ps_opvr p) (ps_so p) (ps_osms p) (ps_social p)
            (ps_gross p + ps_opvr p + ps_so p + ps_osms p + ps_social p)) /\
  slip_ok p.

Lemma insert_slip_ok org rid e rates res d p d' :
  calculate (mkInput (salary_tiyn e) (emp_deduction e) (emp_opvr_exempt e)) rates = Ok res ->
  insert_slip org rid (emp_id e) (salary_tiyn e) res d = (Ok p, d') ->
  slip_for org rid rates e p /\ d' = with_slips (fun ps => (ps ++ [p])%list) (pay_next_uuid d).
Proof.
  intros Hc H. unfold insert_slip in H. rewrite (st_bind_ok whole _ d d d) in H by reflexivity.
  destruct (_ && _) eqn:Hnn in H; [|discriminate]. cbn [negb] in H.
  destruct (existsb _ (pd_employees d)); [|discriminate]. cbn [negb] in H.
  destruct (existsb _ (pd_slips d)); [discriminate|].
  rewrite (st_bind_ok _ _ _ tt (with_slips (fun ps => (ps ++ [mkSlip (gen_random_uuid (pd_seq d)) org rid (emp_id e)
    (salary_tiyn e) (opv res) (vosms res) (ipn res) (net res) (opvr res) (so res) (osms res) (social_tax res)
    (pd_now d)])%list) (pay_next_uuid d))) in H by reflexivity.
  injection H as <- <-. split; [|reflexivity]. unfold slip_for, slip_ok. simpl.
  pose proof (calculate_inv _ _ _ Hc) as (Hg & Hn & He). simpl in *.
  split; [done|]. split; [done|]. split; [done|]. split; [done|]. split; [|lia].
  rewrite Hc. f_equal. rewrite <- He. by destruct res.
Qed.

Lemma insert_slips_ok org rid rates es : forall d ps d',
  insert_slips org rid rates es d = (Ok ps, d') ->
  Forall2 (slip_for org rid rates) es ps /\ pd_runs d' = pd_runs d /\ pd_slips d' = (pd_slips d ++ ps)%list /\
  (pd_seq d <= pd_seq d')%nat.
Proof.
  induction es as [|e es IH]; intros d ps d' H; simpl in H.
  - injection H as <- <-. rewrite app_nil_r. auto.
  - st_inv H. unfold lift in Hs. injection Hs as Hc <-. st_inv H. st_inv H. injection H as <- <-.
    apply (insert_slip_ok _ _ _ rates) in Hs as [Hp ->]; [|done].
    apply IH in Hs0 as (Hps & Hr & Hsl & Hq). simpl in *. split; [by constructor|]. split; [done|].
    rewrite Hsl, <- app_assoc. split; [done | lia].
Qed.

Lemma slips_for_run org rid rates es ps :
  Forall2 (slip_for org rid rates) es ps -> Forall (fun p => ps_run p = rid /\ ps_org p = org /\ slip_ok p) ps.
Proof. induction 1 as [|e p es ps Hp _ IH]; constructor; [|done]. unfold slip_for in Hp. tauto. Qed.

(** Payslips of one run replaced (or added) in the tables. *)
Lemma new_slips_keep d d' r ps :
  pay_inv d -> r ∈ pd_runs d -> run_status r = "draft" ->
  Forall (fun p => ps_run p = run_id r /\ ps_org p = run_org r /\ slip_ok p) ps ->
  pd_runs d' = pd_runs d -> (pd_seq d <= pd_seq d')%nat ->
  pd_slips d' = (List.filter (fun p => negb (String.eqb (ps_run p) (run_id r) && String.eqb (ps_org p) (run_org r)))
                   (pd_slips d) ++ ps)%list ->
  pay_inv d' /\ pay_evolves d d' /\ slips_of d' (run_id r) = ps.
Proof.
  intros Hi Hin Hst Hps Hr Hq Hsl.
  pose proof (fun x => run_unique d x r Hi) as Huniq.
  assert (Hsub : forall p, p ∈ List.filter (fun p => negb (String.eqb (ps_run p) (run_id r) && String.eqb (ps_org p) (run_org r)))
                   (pd_slips d) -> p ∈ pd_slips d /\ ps_run p <> run_id r).
  { intros p Hp. apply list_elem_of_In, List.filter_In in Hp as [Hp Hne]. apply list_elem_of_In in Hp. split; [done|].
    intros E. destruct (pay_slip_run d Hi p Hp) as (x & Hx & E1 & E2). rewrite (Huniq x Hx Hin) in * by congruence.
    rewrite E, <- E2, !String.eqb_refl in Hne. discriminate. }
  assert (Hother : forall x, x <> run_id r -> slips_of d' x = slips_of d x).
  { intros x Hx. unfold slips_of. rewrite Hsl, filter_app.
    assert (filter (fun p => ps_run p = x) ps = []) as ->.
    { clear -Hps Hx. induction Hps as [|p ps (E & _) _ IH]; [done|]. by rewrite filter_cons_False by congruence. }
    rewrite app_nil_r. clear -Hx. induction (pd_slips d) as [|p l IH]; [done|]. simpl.
    destruct (String.eqb_spec (ps_run p) (run_id r)) as [E|E]; simpl.
    - destruct (String.eqb (ps_org p) (run_org r)); simpl; by rewrite ?filter_cons_False by congruence.
    - rewrite !filter_cons. by rewrite IH. }
  split; [|split].
  - split.
    + rewrite Hsl. apply Forall_app. split.
      * apply Forall_forall. intros p Hp. apply Hsub in Hp as [Hp _].
        exact (proj1 (Forall_forall _ _) (pay_slips_ok d Hi) p Hp).
      * eapply Forall_impl; [exact Hps|]. by intros p (_ & _ & ?).
    + rewrite Hr. exact (pay_runs_unique d Hi).
    + rewrite Hr. exact (pay_run_ok d Hi).
    + rewrite Hr. intros x Hx. destruct (pay_fresh d Hi x Hx) as (k & Hk & E). exists k. split; [lia | done].
    + rewrite Hr, Hsl. intros p [Hp|Hp]%elem_of_app; [apply Hsub in Hp as [Hp _]; exact (pay_slip_run d Hi p Hp)|].
      rewrite Forall_forall in Hps. destruct (Hps p Hp) as (E1 & E2 & _). exists r. done.
  - intros x Hx Hs. exists x. rewrite Hr. repeat split; auto. apply Hother. intros E.
    rewrite (Huniq x Hx Hin E) in Hs. congruence.
  - unfold slips_of. rewrite Hsl, filter_app.
    assert (filter (fun p => ps_run p = run_id r) ps = ps) as ->.
    { clear -Hps. induction Hps as [|p ps (E & _) _ IH]; [done|]. rewrite filter_cons_True by done. by f_equal. }
    assert (filter (fun p => ps_run p = run_id r)
      (List.filter (fun p => negb (String.eqb (ps_run p) (run_id r) && String.eqb (ps_org p) (run_org r))) (pd_slips d)) = [])
      as ->; [|done].
    apply elem_of_nil_inv. intros p. rewrite list_elem_of_filter. intros [E Hp]. by apply Hsub in Hp as [_ ?].
Qed.

(** A draft header without payslips, as either branch leaves it. *)
Definition fresh_header (d d1 : PayDB) (org : string) (snap : list (string * string)) (r : PayrollRun) : Prop :=
  pay_inv d1 /\ pay_evolves d d1 /\ r ∈ pd_runs d1 /\ run_status r = "draft" /\ run_org r = org /\
  rates_snapshot r = snap /\ payslips r = [] /\ Forall (fun p => ps_run p <> run_id r) (pd_slips d1).

Lemma reset_run_ok org snap rid d r d1 :
  pay_inv d -> reset_run rid org snap d = (Ok r, d1) -> fresh_header d d1 org snap r /\
  exists r0, r0 ∈ pd_runs d /\ run_id r0 = rid /\ run_id r = rid /\ period_year r = period_year r0 /\
    period_month r = period_month r0.
Proof.
  intros Hi Hrun. unfold reset_run in Hrun. st_inv Hrun. unfold update_draft_run in Hs. rewrite (st_bind_ok whole _ d d d) in Hs by reflexivity.
  destruct (find_run_in_org rid org d) as [r0|] eqn:Hf; [|injection Hs as <- <-; discriminate].
  apply find_run_in in Hf as (Hin & Hid & Ho).
  destruct (String.eqb_spec (run_status r0) "draft") as [Hst|]; [|injection Hs as <- <-; discriminate].
  set (r1 := mkRun _ _ _ _ _ snap _ []) in Hs.
  destruct (update_run_keeps d r0 r1 Hi Hin eq_refl eq_refl eq_refl eq_refl) as [Hi1 Hv1].
  { simpl. rewrite Hst. by left. } { exact (proj1 (proj2 (pay_run_ok d Hi r0 Hin))). }
  { simpl. rewrite Hst. discriminate. }
  unfold mbind, st_bind, modify, mret, st_ret in Hs. injection Hs as <- <-. unfold mbind, st_bind, modify, mret, st_ret in Hrun.
  injection Hrun as <- <-.
  assert (Hin1 : r1 ∈ pd_runs (with_runs (set_run r0 r1) d)).
  { simpl. apply set_run_spec; [exact (pay_runs_unique d Hi) | done | done | by left]. }
  edestruct (new_slips_keep _ (with_slips (List.filter (fun p =>
     negb (String.eqb (ps_run p) (run_id r1) && String.eqb (ps_org p) org))) (with_runs (set_run r0 r1) d)) r1 [] Hi1 Hin1)
    as (Hi2 & Hv2 & Hsl); [exact Hst | constructor | reflexivity | reflexivity | simpl; by rewrite Ho, app_nil_r |].
  split; [|by exists r0]. split; [exact Hi2|]. split; [by etransitivity|]. split; [exact Hin1|]. split; [exact Hst|].
  split; [exact Ho|]. split; [done|]. split; [done|].
  apply Forall_forall. intros p Hp E. apply (elem_of_nil p). rewrite <- Hsl. unfold slips_of.
  apply list_elem_of_filter. done.
Qed.

Lemma insert_run_ok org y m snap d r d1 :
  pay_inv d -> insert_run org y m snap d = (Ok r, d1) ->
  fresh_header d d1 org snap r /\ period_year r = y /\ period_month r = m.
Proof.
  intros Hi Hrun. unfold insert_run in Hrun. rewrite (st_bind_ok whole _ d d d) in Hrun by reflexivity.
  destruct (_ && _) eqn:Hm in Hrun; [|discriminate]. cbn [negb] in Hrun.
  destruct (bool_decide (org ∈ pd_orgs d)); [|discriminate]. cbn [negb] in Hrun.
  destruct (bool_decide _); [discriminate|]. unfold mbind, st_bind, modify, mret, st_ret in Hrun.
  injection Hrun as <- <-. split; [|done].
  assert (Hfr : forall x, x ∈ pd_runs d -> run_id x <> gen_random_uuid (pd_seq d)).
  { intros x Hx E. destruct (pay_fresh d Hi x Hx) as (k & Hk & E'). rewrite E in E'. apply uuid_unique in E'. lia. }
  split; [|split].
  + split; simpl.
    * exact (pay_slips_ok d Hi).
    * rewrite map_app. apply NoDup_app. split; [exact (pay_runs_unique d Hi)|]. split; [|apply NoDup_singleton].
      intros x Hx%list_elem_of_In Hy. apply in_map_iff in Hx as (z & <- & Hz). apply list_elem_of_In in Hz.
      apply list_elem_of_singleton in Hy. by apply (Hfr z).
    * intros x [Hx|Hx]%elem_of_app; [exact (pay_run_ok d Hi x Hx)|].
      apply list_elem_of_singleton in Hx as ->. simpl. split; [by left|]. split; [by intros [? ?]|].
      apply andb_true_iff in Hm. lia.
    * intros x [Hx|Hx]%elem_of_app.
      { destruct (pay_fresh d Hi x Hx) as (k & Hk & E). exists k. split; [lia | done]. }
      apply list_elem_of_singleton in Hx as ->. exists (pd_seq d). split; [lia | done].
    * intros p Hp. destruct (pay_slip_run d Hi p Hp) as (x & Hx & E). exists x. split; [apply elem_of_app; by left | done].
  + intros x Hx Hs. exists x. simpl. split; [apply elem_of_app; by left|]. repeat split; auto.
  + simpl. split; [apply elem_of_app; right; by apply list_elem_of_singleton|]. repeat split; try done.
    apply Forall_forall. intros p Hp E. destruct (pay_slip_run d Hi p Hp) as (x & Hx & E1 & _).
    apply (Hfr x Hx). congruence.
Qed.

(** The committed effect of [calculate_run]'s transaction. *)
Lemma calculate_txn_ok org y m rates snap es existing d run d' :
  pay_inv d -> calculate_txn org y m rates snap es existing d = (Ok run, d') ->
  pay_inv d' /\ pay_evolves d d' /\ Forall2 (slip_for org (run_id run) rates) es (payslips run) /\
  slips_of d' (run_id run) = payslips run /\ run_status run = "draft" /\ run_org run = org /\
  rates_snapshot run = snap /\ with_payslips run [] ∈ pd_runs d' /\
  match existing with
  | Some e => exists r0, r0 ∈ pd_runs d /\ run_id r0 = run_id e /\ run_id run = run_id e /\
                period_year run = period_year r0 /\ period_month run = period_month r0
  | None => period_year run = y /\ period_month run = m
  end.
Proof.
  intros Hi H. unfold calculate_txn in H. apply st_bind_Ok in H as (r & d1 & Hrun & H).
  assert (H1 : fresh_header d d1 org snap r /\
    match existing with
    | Some e => exists r0, r0 ∈ pd_runs d /\ run_id r0 = run_id e /\ run_id r = run_id e /\
                  period_year r = period_year r0 /\ period_month r = period_month r0
    | None => period_year r = y /\ period_month r = m
    end).
  { destruct existing as [e|]; [by apply reset_run_ok | by apply insert_run_ok]. }
  destruct H1 as [(Hi1 & Hv1 & Hin & Hst & Ho & Hsn & Hps & Hno) Hex].
  st_inv H. injection H as <- <-. apply insert_slips_ok in Hs as (Hf2 & Hr & Hsl & Hq).
  edestruct (new_slips_keep d1 s r a) as (Hi2 & Hv2 & Hsl2); [exact Hi1 | exact Hin | exact Hst | | exact Hr | exact Hq | |].
  { rewrite Ho. by eapply slips_for_run. }
  { rewrite Hsl. f_equal. clear -Hno. induction Hno as [|p l Hp _ IH]; [done|]. simpl.
    destruct (String.eqb_spec (ps_run p) (run_id r)); [done|]. simpl. by f_equal. }
  cbn [with_payslips run_id run_status run_org rates_snapshot payslips period_year period_month].
  split; [exact Hi2|]. split; [by etransitivity|]. split; [exact Hf2|]. split; [exact Hsl2|].
  split; [exact Hst|]. split; [exact Ho|]. split; [exact Hsn|]. split; [|exact Hex].
  rewrite Hr. destruct r. simpl in Hps. by subst.
Qed.

Lemma pay_safe_rate kind date : pay_safe (rate_bp kind date).
Proof. unfold rate_bp, missing. apply pay_safe_bind; [auto with payroll|]. intros [r|]; auto with payroll. Qed.

Lemma pay_safe_constant key date : pay_safe (constant_tiyn key date) /\ pay_safe (constant_units key date).
Proof.
  unfold constant_tiyn, constant_units, missing.
  split; (apply pay_safe_bind; [auto with payroll|]; intros [c|]; auto with payroll).
Qed.

Lemma pay_safe_rates org date : pay_safe (build_rates org date).
Proof.
  unfold build_rates. do 7 (apply pay_safe_bind; [apply pay_safe_rate|]; intros ?).
  do 2 (apply pay_safe_bind; [apply pay_safe_constant|]; intros ?).
  do 6 (apply pay_safe_bind; [apply pay_safe_constant|]; intros ?).
  apply pay_safe_bind; auto with payroll.
Qed.

Lemma calculate_run_safe org y m : pay_safe (calculate_run org y m).
Proof.
  unfold calculate_run. apply pay_safe_bind; [auto with payroll|]. intros eff.
  apply pay_safe_bind; [apply pay_safe_rates|]. intros rates.
  apply pay_safe_bind; [auto with payroll|]. intros es.
  apply pay_safe_bind; [auto with payroll|]. intros _.
  apply pay_safe_bind; [auto with payroll|]. intros ex.
  destruct (match ex with Some e => _ | None => false end); [auto with payroll|].
  apply pay_safe_write. intros d run d' Hi Hx. apply calculate_txn_ok in Hx; [tauto | done].
Qed.

Lemma approve_safe org rid : pay_safe (approve org rid).
Proof.
  unfold approve. apply pay_safe_bind; [auto with payroll|]. intros [e|]; [|auto with payroll].
  case_match; [auto with payroll|]. apply pay_safe_bind.
  - apply pay_safe_write. intros d r d' Hi Hx. unfold approve_row in Hx.
    rewrite (st_bind_ok whole _ d d d) in Hx by reflexivity.
    destruct (find_run_in_org rid org d) as [r0|] eqn:Hf; [|injection Hx as <- <-; split; [done | reflexivity]].
    apply find_run_in in Hf as (Hin & _ & _).
    destruct (String.eqb_spec (run_status r0) "draft") as [Hst|]; [|injection Hx as <- <-; split; [done | reflexivity]].
    unfold mbind, st_bind, modify, mret, st_ret in Hx. injection Hx as <- <-.
    apply update_run_keeps; auto. simpl. rewrite !elem_of_cons. auto.
  - intros [r|]; [|auto with payroll]. apply pay_safe_bind; auto with payroll.
Qed.

(** A call that is safe once the run is approved. *)
Definition approved_in (rid org : string) (d : PayDB) : Prop :=
  exists r, r ∈ pd_runs d /\ run_id r = rid /\ run_org r = org /\ run_status r = "approved".

Lemma approved_stable rid org d d' : approved_in rid org d -> pay_evolves d d' -> approved_in rid org d'.
Proof.
  intros (r & Hr & Hi & Ho & Hs) H. destruct (H r Hr Hs) as (r' & ? & ? & ? & _ & _ & ? & _).
  exists r'. repeat split; congruence.
Qed.

Definition safe_when {A} (rid org : string) (m : st PWorld A) : Prop :=
  forall s, pay_inv (pw_p s) -> pay_env_ok s -> approved_in rid org (pw_p s) -> pay_keeps s (m s).2.

Lemma safe_when_bind {A B} rid org (m : st PWorld A) (f : A -> st PWorld B) :
  pay_safe m -> (forall a, safe_when rid org (f a)) -> safe_when rid org (m ≫= f).
Proof.
  intros Hm Hf s Hi He Ha. specialize (Hm s Hi He). rewrite st_bind_case.
  destruct (m s) as [[a| |] s1]; simpl in *; [|done..].
  eapply pay_keeps_trans; [exact Hm|]. destruct Hm as (? & ? & ?). apply Hf; auto. by eapply approved_stable.
Qed.

Lemma safe_when_seq {A B} rid org (m : st PWorld A) (f : A -> st PWorld B) :
  safe_when rid org m -> (forall a, pay_safe (f a)) -> safe_when rid org (m ≫= f).
Proof.
  intros Hm Hf s Hi He Ha. specialize (Hm s Hi He Ha). rewrite st_bind_case.
  destruct (m s) as [[a| |] s1]; simpl in *; [|done..].
  eapply pay_keeps_trans; [exact Hm|]. destruct Hm as (? & ? & ?). by apply Hf.
Qed.

Lemma claim_safe rid org eid : safe_when rid org (pay_write (claim_row rid org eid)).
Proof.
  intros s Hi He Ha. pose proof (pay_yield_keeps s Hi He) as Hy. unfold pay_write. rewrite st_bind_case.
  change (pay_yield s) with (@Ok unit tt, (pay_yield s).2). set (s1 := (pay_yield s).2) in *. cbv iota beta.
  assert (Ha1 : approved_in rid org (pw_p s1)) by (eapply approved_stable; [exact Ha | apply Hy]).
  destruct Hy as (Hi1 & He1 & Hv1). unfold pay_txn, claim_row.
  rewrite (st_bind_ok whole _ (pw_p s1) (pw_p s1) (pw_p s1)) by reflexivity.
  destruct Ha1 as (r & Hr & Hid & Ho & Hst).
  rewrite (find_run_unique rid org _ r (pay_runs_unique _ Hi1) Hr Hid Ho).
  destruct (journal_entry_id r) eqn:Hj; [by split|]. unfold mbind, st_bind, modify, mret, st_ret. simpl.
  eapply pay_keeps_trans; [split; [exact Hi1|]; split; [exact He1 | exact Hv1]|].
  destruct (update_run_keeps (pw_p s1) r (mkRun (run_id r) (run_org r) (period_year r) (period_month r) (run_status r)
    (rates_snapshot r) (Some eid) []) Hi1 Hr eq_refl eq_refl eq_refl eq_refl) as [H1 H2];
    [rewrite Hst; simpl; rewrite !elem_of_cons; auto | done | simpl; auto | by split].
Qed.

Lemma post_to_journal_safe org rid user : pay_safe (post_to_journal org rid user).
Proof.
  unfold post_to_journal. intros s Hi He. rewrite st_bind_case.
  pose proof (pay_yield_keeps s Hi He) as Hy.
  change (pay_read (find_run_in_org rid org) s)
    with (Ok (find_run_in_org rid org (pw_p (pay_yield s).2)), (pay_yield s).2).
  set (s1 := (pay_yield s).2) in *. cbv iota beta. eapply pay_keeps_trans; [exact Hy|].
  destruct Hy as (Hi1 & He1 & _).
  destruct (find_run_in_org rid org (pw_p s1)) as [r|] eqn:Hf; [|by apply pay_keeps_refl].
  apply find_run_in in Hf as (Hin & Hid & Ho).
  destruct (String.eqb_spec (run_status r) "approved") as [Hst|]; [|by apply pay_keeps_refl]. cbn [negb].
  case_match; [by apply pay_keeps_refl|].
  assert (Ha : approved_in rid org (pw_p s1)) by by exists r.
  revert s1 Hi1 He1 Hin Ha. intros s1 Hi1 He1 _ Ha. clear -Hi1 He1 Ha.
  match goal with |- pay_keeps s1 (?m s1).2 => enough (H : safe_when rid org m) by by apply H end.
  apply safe_when_bind; [auto with payroll|]. intros ps.
  apply safe_when_bind; [destruct ps; auto with payroll|]. intros _.
  do 3 (apply safe_when_bind; [auto with payroll|]; intros ?).
  do 2 (apply safe_when_bind; [auto with payroll|]; intros ?).
  apply safe_when_seq; [apply claim_safe | intros []; auto with payroll].
Qed.

(** ** The journal entry of a run *)

Definition sum_of (f : Payslip -> Z) (ps : list Payslip) : Z := zsum (map f ps).

(** What the employer pays for the run. *)
Definition cost (ps : list Payslip) : Z :=
  sum_of ps_gross ps + sum_of ps_opvr ps + sum_of ps_so ps + sum_of ps_osms ps + sum_of ps_social ps.

(** The seven lines of the file header, before the zero ones are dropped. *)
Definition all_lines (ps : list Payslip) : list (string * string * Z) :=
  [("7210", "debit", cost ps); ("3350", "credit", sum_of ps_net ps); ("3120", "credit", sum_of ps_ipn ps);
   ("3220", "credit", sum_of ps_opv ps + sum_of ps_opvr ps); ("3210", "credit", sum_of ps_so ps);
   ("3230", "credit", sum_of ps_osms ps + sum_of ps_vosms ps); ("3150", "credit", sum_of ps_social ps)].

Definition expected_lines (ps : list Payslip) : list (string * string * Z) :=
  filter (fun x => x.2 <> 0) (all_lines ps).

Definition text_line (x : string * string * Z) : JournalLine :=
  mkLine "" "" x.1.1 x.1.2 (Reference.write_abs x.2) None None.

Lemma sum_nonneg (f : Payslip -> Z) ps : Forall (fun p => 0 <= f p) ps -> 0 <= sum_of f ps.
Proof. unfold sum_of. intros H. apply zsum_nonneg. induction H; constructor; auto. Qed.

Lemma slips_nonneg ps :
  Forall slip_ok ps ->
  0 <= sum_of ps_net ps /\ 0 <= sum_of ps_opv ps /\ 0 <= sum_of ps_vosms ps /\ 0 <= sum_of ps_ipn ps /\
  0 <= sum_of ps_opvr ps /\ 0 <= sum_of ps_so ps /\ 0 <= sum_of ps_osms ps /\ 0 <= sum_of ps_social ps /\
  sum_of ps_gross ps = sum_of ps_net ps + sum_of ps_opv ps + sum_of ps_vosms ps + sum_of ps_ipn ps.
Proof.
  intros H. repeat split; try (apply sum_nonneg; eapply Forall_impl; [exact H|]; unfold slip_ok; intros p ?; lia).
  unfold sum_of. induction H as [|p ps Hp _ IH]; [done|]. simpl. unfold slip_ok in Hp. lia.
Qed.

(** The totals do not overflow when the cost of the run fits. *)
Lemma total_loop_ok ps : forall t,
  Forall slip_ok ps ->
  0 <= gross_total t -> 0 <= opv_total t -> 0 <= vosms_total t -> 0 <= ipn_total t -> 0 <= net_total t ->
  0 <= opvr_total t -> 0 <= so_total t -> 0 <= osms_total t -> 0 <= social_tax_total t ->
  opv_total t <= gross_total t -> vosms_total t <= gross_total t -> ipn_total t <= gross_total t ->
  net_total t <= gross_total t ->
  gross_total t + opvr_total t + so_total t + osms_total t + social_tax_total t + cost ps <= I64_MAX ->
  total_loop ps t = Ok (mkTotals (gross_total t + sum_of ps_gross ps) (opv_total t + sum_of ps_opv ps)
    (vosms_total t + sum_of ps_vosms ps) (ipn_total t + sum_of ps_ipn ps) (net_total t + sum_of ps_net ps)
    (opvr_total t + sum_of ps_opvr ps) (so_total t + sum_of ps_so ps) (osms_total t + sum_of ps_osms ps)
    (social_tax_total t + sum_of ps_social ps)).
Proof.
  induction ps as [|p ps IH]; intros t H; intros.
  - destruct t. simpl. unfold sum_of. simpl. by rewrite !Z.add_0_r.
  - apply Forall_cons in H as [Hp Hps]. pose proof (slips_nonneg ps Hps) as (?&?&?&?&?&?&?&?&?).
    assert (Hc : cost (p :: ps) = ps_gross p + ps_opvr p + ps_so p + ps_osms p + ps_social p + cost ps)
      by (unfold cost, sum_of; simpl; lia).
    rewrite Hc in *. unfold cost in *. destruct Hp as (Hg & ?). cbn [total_loop].
    run64. rewrite IH by (cbn [gross_total opv_total vosms_total ipn_total net_total opvr_total so_total osms_total
      social_tax_total]; first [done | unfold cost; lia]).
    cbn [gross_total opv_total vosms_total ipn_total net_total opvr_total so_total osms_total social_tax_total].
    f_equal. unfold sum_of. simpl. f_equal; lia.
Qed.

Lemma add_line_ok ls a sd t :
  0 <= t -> add_line ls a sd t = Ok (ls ++ map text_line (filter (fun x => x.2 <> 0) [(a, sd, t)]))%list.
Proof.
  intros H. unfold add_line. destruct (Z.eqb_spec t 0) as [->|Hn].
  - rewrite filter_cons_False by (simpl; auto). simpl. by rewrite app_nil_r.
  - rewrite Amounts.format_tiyn_text, bind_ok by done. rewrite filter_cons_True by done. done.
Qed.

Lemma payroll_lines_ok ps :
  Forall slip_ok ps -> cost ps <= I64_MAX ->
  payroll_lines (mkTotals (sum_of ps_gross ps) (sum_of ps_opv ps) (sum_of ps_vosms ps) (sum_of ps_ipn ps)
    (sum_of ps_net ps) (sum_of ps_opvr ps) (sum_of ps_so ps) (sum_of ps_osms ps) (sum_of ps_social ps))
  = Ok (map text_line (expected_lines ps)).
Proof.
  intros H Hc. pose proof (slips_nonneg ps H) as (?&?&?&?&?&?&?&?&?). unfold cost in Hc. unfold payroll_lines.
  cbn [gross_total opv_total vosms_total ipn_total net_total opvr_total so_total osms_total social_tax_total].
  repeat (first [step64 | rewrite add_line_ok by lia]).
  unfold expected_lines. fold (cost ps). symmetry.
  assert (Hsplit : forall x l, filter (fun x : string * string * Z => x.2 <> 0) (x :: l)
    = (filter (fun x : string * string * Z => x.2 <> 0) [x] ++ filter (fun x : string * string * Z => x.2 <> 0) l)%list).
  { intros x l. exact (filter_app _ [x] l). }
  unfold all_lines. do 6 rewrite (Hsplit _ (_ :: _)). rewrite !map_app, <- !app_assoc. reflexivity.
Qed.

Lemma drop_zero_lines (f : string * string * Z -> Z) l :
  (forall x, x.2 = 0 -> f x = 0) -> zsum (map f (filter (fun x => x.2 <> 0) l)) = zsum (map f l).
Proof.
  intros Hf. induction l as [|x l IH]; [done|]. rewrite filter_cons. case_decide as Hx; simpl; rewrite IH; [done|].
  rewrite (Hf x); [lia|]. destruct (Z.eq_dec x.2 0); [done | by destruct Hx].
Qed.

Definition sg (x : string * string * Z) : Z := if String.eqb x.1.2 "debit" then x.2 else - x.2.

(** The payroll entry balances, whatever lines were dropped. *)
Lemma expected_balance ps :
  Forall slip_ok ps ->
  zsum (map sg (expected_lines ps)) = 0 /\ zsum (map (fun x => x.2) (expected_lines ps)) = 2 * cost ps /\
  Forall (fun x => 0 < x.2 <= cost ps /\ (x.1.2 = "debit" \/ x.1.2 = "credit") /\
            x.1.1 ∈ ["7210"; "3350"; "3120"; "3220"; "3210"; "3230"; "3150"]) (expected_lines ps).
Proof.
  intros H. pose proof (slips_nonneg ps H) as (?&?&?&?&?&?&?&?&Hg). unfold expected_lines.
  split; [|split].
  - rewrite drop_zero_lines by (unfold sg; intros x ->; by case_match). unfold all_lines, cost. cbn. lia.
  - rewrite drop_zero_lines by done. unfold all_lines, cost. cbn. lia.
  - apply Forall_forall. intros x [Hx Hin]%list_elem_of_filter. unfold all_lines, cost in *. rewrite !elem_of_cons in Hin.
    destruct Hin as [->|[->|[->|[->|[->|[->|[->|Hin]]]]]]]; simpl in *;
      [split; [lia | rewrite !elem_of_cons; tauto].. | by apply elem_of_nil in Hin].
Qed.

Lemma zip_signed ls : zip_with signed_amount (map text_line ls) (map (fun x => x.2) ls) = map sg ls.
Proof. induction ls as [|x ls IH]; [done|]. simpl. by rewrite IH. Qed.

Lemma expected_two ps : Forall slip_ok ps -> 0 < cost ps -> (2 <= length (expected_lines ps))%nat.
Proof.
  intros H Hc. destruct (expected_balance ps H) as (Hb & Hs & Hall).
  destruct (expected_lines ps) as [|x [|y l]]; simpl in *; [lia | | lia].
  apply Forall_cons in Hall as [(Hx & Hd & _) _]. unfold sg in Hb. destruct Hd as [Hd|Hd]; rewrite Hd in Hb; simpl in Hb; lia.
Qed.

(** The seven accounts of the entry are in the chart. *)
Definition chart_ok (org : string) (d : DB) : Prop :=
  forall a, a ∈ ["7210"; "3350"; "3120"; "3220"; "3210"; "3230"; "3150"] -> find_visible org a d <> None.

Lemma lines_acceptable org d ls :
  chart_ok org d ->
  Forall (fun x => 0 < x.2 < 10 ^ 18 /\ (x.1.2 = "debit" \/ x.1.2 = "credit") /\
            x.1.1 ∈ ["7210"; "3350"; "3120"; "3220"; "3210"; "3230"; "3150"]) ls ->
  Forall2 (acceptable org d) (map text_line ls) (map (fun x => x.2) ls).
Proof.
  intros Hch. induction 1 as [|x ls (Hx & Hd & Ha) _ IH]; simpl; constructor; [|done].
  split; [split; [by apply Reference.parse_write | done]|]. split; [by apply Hch | done].
Qed.

(** The rows the journal holds for those lines. *)
Lemma rows_are_lines org eid ls rs :
  Forall (fun x => 0 < x.2 < 10 ^ 18 /\ (x.1.2 = "debit" \/ x.1.2 = "credit") /\
            x.1.1 ∈ ["7210"; "3350"; "3120"; "3220"; "3210"; "3230"; "3150"]) ls ->
  Forall2 (row_for org eid) (map text_line ls) rs ->
  map (fun l => (lr_account l, lr_side l, lr_amount l)) rs = ls.
Proof.
  intros H. revert rs. induction H as [|x ls (Hx & _) _ IH]; intros rs Hf; inversion Hf; subst; [done|].
  simpl. f_equal; [|by apply IH]. match goal with H : row_for _ _ _ _ |- _ => destruct H as (_ & _ & Ha & Hs & Hm & _) end.
  simpl in *. rewrite (numeric_in_exact _ x.2) in Hm by (by apply Reference.parse_write).
  injection Hm as <-. rewrite Ha, Hs. by destruct x as [[? ?] ?].
Qed.

Lemma list_payslips_perm d r : pay_inv d -> r ∈ pd_runs d -> list_payslips r d ≡ₚ slips_of d (run_id r).
Proof.
  intros Hi Hr. unfold list_payslips. rewrite stable_sort_perm. unfold slips_of.
  assert (E : forall l, (forall p, p ∈ l -> p ∈ pd_slips d) ->
    List.filter (fun p => String.eqb (ps_run p) (run_id r) && String.eqb (ps_org p) (run_org r)) l
    = filter (fun p => ps_run p = run_id r) l).
  { induction l as [|p l IH]; intros Hl; [done|]. simpl. rewrite filter_cons.
    rewrite IH by (intros q Hq; apply Hl; by right).
    destruct (String.eqb_spec (ps_run p) (run_id r)) as [E|E]; simpl.
    - rewrite decide_True by done. destruct (pay_slip_run d Hi p) as (x & Hx & E1 & E2); [apply Hl; by left|].
      rewrite (run_unique d x r Hi Hx Hr) in E2 by congruence. by rewrite <- E2, String.eqb_refl.
    - by rewrite decide_False. }
  by rewrite E.
Qed.

Lemma sum_of_perm f ps qs : ps ≡ₚ qs -> sum_of f ps = sum_of f qs.
Proof. intros H. unfold sum_of. apply zsum_perm. by rewrite H. Qed.

Lemma slips_of_ok d rid : pay_inv d -> Forall slip_ok (slips_of d rid).
Proof.
  intros Hi. apply Forall_forall. intros p [_ Hp]%list_elem_of_filter.
  exact (proj1 (Forall_forall _ _) (pay_slips_ok d Hi) p Hp).
Qed.

Lemma expected_lines_perm ps qs : ps ≡ₚ qs -> expected_lines ps = expected_lines qs /\ cost ps = cost qs.
Proof.
  intros H. unfold expected_lines, all_lines, cost. rewrite !(sum_of_perm _ _ _ H). done.
Qed.

(** The journal side of posting a run: draft, then posted, with those lines. *)
Lemma journal_posts org user day desc ls d :
  ledger_inv d -> org ∈ db_orgs d -> user ∈ db_users d -> is_Some (date_in day) -> chart_ok org d ->
  (2 <= length ls)%nat -> zsum (map sg ls) = 0 -> zsum (map (fun x => x.2) ls) <= I64_MAX ->
  Forall (fun x => 0 < x.2 < 10 ^ 18 /\ (x.1.2 = "debit" \/ x.1.2 = "credit") /\
            x.1.1 ∈ ["7210"; "3350"; "3120"; "3220"; "3210"; "3230"; "3150"]) ls ->
  exists e d1 d2 pe row, create_draft org user day desc (map text_line ls) (mkWorld d []) = (Ok e, mkWorld d1 []) /\
    post org (Db.id e) (mkWorld d1 []) = (Ok pe, mkWorld d2 []) /\ ledger_inv d2 /\
    db_entries d2 !! Db.id e = Some row /\ er_status row = "posted" /\ er_org row = org /\ er_desc row = desc /\
    date_in day = Some (er_date row) /\
    map (fun l => (lr_account l, lr_side l, lr_amount l)) (lines_of d2 (Db.id e)) = ls.
Proof.
  intros Hi Ho Hu Hday Hch Hlen Hbal Hmax Hall.
  edestruct (create_draft_run org user day desc (map text_line ls) (map (fun x => x.2) ls) d) as (r & Hr & Hok);
    [done | by rewrite length_map | done | done | done | by apply lines_acceptable | done | by rewrite zip_signed |].
  destruct r as [[e| |] [d1 env]]; simpl in Hok; [subst env | done..].
  pose proof (create_draft_result _ _ _ _ _ _ _ _ Hi Hr) as (Hi1 & row & Hrow & Hro & Hst & Hdesc & Hdate & Hrs).
  simpl in Hi1, Hrow, Hrs. pose proof (rows_are_lines _ _ _ _ Hall Hrs) as Hlines.
  assert (Hhas : has_lines d1 (Db.id e) = true).
  { unfold has_lines. destruct (lines_of d1 (Db.id e)); [simpl in Hlines; subst ls; simpl in Hlen; lia | done]. }
  destruct (post_run org (Db.id e) d1 row Hi1 Hrow Hro Hst Hhas) as (pe & Hpost).
  exists e, d1, (with_entries <[Db.id e := set_status row "posted"]> (tick d1)), (Some pe), (set_status row "posted").
  split; [done|]. split; [done|]. split.
  { pose proof (post_safe org (Db.id e) (mkWorld d1 []) Hi1 ltac:(constructor)) as Hk. rewrite Hpost in Hk. apply Hk. }
  split; [simpl; apply lookup_insert_eq|]. repeat (split; [done|]). exact Hlines.
Qed.

(** A run is posted at most once: when its link is set, [post_to_journal]
    is refused with "already_posted" before the journal is touched. *)
Theorem post_to_journal_once org rid user w p r eid :
  pay_inv p -> r ∈ pd_runs p -> run_id r = rid -> run_org r = org -> journal_entry_id r = Some eid ->
  post_to_journal org rid user (mkPW w p []) = (Throw (Exn InvalidRunState "already_posted"), mkPW w p []).
Proof.
  intros Hi Hr Hid Ho Hj. unfold post_to_journal. rewrite (st_bind_ok _ _ (mkPW w p []) (find_run_in_org rid org p) (mkPW w p [])) by reflexivity.
  rewrite (find_run_unique rid org p r (pay_runs_unique p Hi) Hr Hid Ho).
  destruct (pay_run_ok p Hi r Hr) as (_ & Ha & _). rewrite Ha by (rewrite Hj; by eexists).
  cbn [negb String.eqb Ascii.eqb Bool.eqb]. rewrite Hj. rewrite bool_decide_eq_true_2 by by eexists. done.
Qed.

(** C6: Posting an approved run that has not been posted before, with at least one
    payslip and a cost above zero that fits an amount, succeeds when no other session is
    at work and the organization, the author, the date and the seven accounts are in
    place: it makes one posted journal entry on the last day of the period whose lines
    are exactly the non-zero ones of the documented layout, debits equal to credits, and
    links the run to it.  From then on posting the run again, by anyone and whatever has
    become of the books, is refused with "already_posted" and changes nothing. *)
Theorem post_to_journal_posts org rid user d p r day :
  ledger_inv d -> pay_inv p -> org ∈ db_orgs d -> user ∈ db_users d -> chart_ok org d ->
  r ∈ pd_runs p -> run_id r = rid -> run_org r = org -> run_status r = "approved" -> journal_entry_id r = None ->
  last_day_of_month (period_year r) (period_month r) = Ok day -> is_Some (date_in day) ->
  slips_of p rid <> [] -> 0 < cost (slips_of p rid) < 10 ^ 18 ->
  exists eid d' p' row r', post_to_journal org rid user (mkPW (mkWorld d []) p []) = (Ok eid, mkPW (mkWorld d' []) p' []) /\
    db_entries d' !! eid = Some row /\ er_status row = "posted" /\ er_org row = org /\
    date_in day = Some (er_date row) /\
    map (fun l => (lr_account l, lr_side l, lr_amount l)) (lines_of d' eid) = expected_lines (slips_of p rid) /\
    zsum (map sg (expected_lines (slips_of p rid))) = 0 /\
    r' ∈ pd_runs p' /\ run_id r' = rid /\ journal_entry_id r' = Some eid /\
    (forall user2 w2, post_to_journal org rid user2 (mkPW w2 p' []) = (Throw (Exn InvalidRunState "already_posted"), mkPW w2 p' [])).
Proof.
  intros Hi Hp Ho Hu Hch Hr Hid Hro Hst Hj Hday Hdate Hne Hcost.
  pose proof (list_payslips_perm p r Hp Hr) as Hperm. rewrite Hid in Hperm.
  pose proof (expected_lines_perm _ _ Hperm) as [He Hc].
  pose proof (slips_of_ok p rid Hp) as Hslips.
  assert (Hls : Forall slip_ok (list_payslips r p)) by by rewrite Hperm.
  pose proof (expected_balance _ Hslips) as (Hbal & Hsum & Hall).
  destruct (journal_posts org user day ("Начисление заработной платы за " +:+ (to_string (period_month r) +:+
      ("." +:+ to_string (period_year r)))) (expected_lines (slips_of p rid)) d)
    as (e & d1 & d2 & pe & row & Hcreate & Hpost & _ & Hrow & Hrst & Hrorg & _ & Hrdate & Hlines);
    [done | done | done | done | done | by apply expected_two; [|lia] | done | unfold I64_MAX; lia
    | eapply Forall_impl; [exact Hall | simpl; intros x (? & ? & ?); split; [lia | done]] |].
  set (s0 := mkPW (mkWorld d []) p []).
  assert (Hfind : find_run_in_org rid org p = Some r) by (apply find_run_unique; auto; apply (pay_runs_unique p Hp)).
  set (r' := mkRun (run_id r) (run_org r) (period_year r) (period_month r) (run_status r) (rates_snapshot r)
               (Some (Db.id e)) []).
  exists (Db.id e), d2, (with_runs (set_run r r') p), row, r'.
  assert (post_to_journal org rid user s0 = (Ok (Db.id e), mkPW (mkWorld d2 []) (with_runs (set_run r r') p) [])) as Hrun.
  { unfold post_to_journal. rewrite (st_bind_ok _ _ s0 (Some r) s0) by (unfold pay_read; simpl; by rewrite <- Hfind).
    rewrite Hst. cbn [negb String.eqb Ascii.eqb Bool.eqb]. rewrite Hj. rewrite bool_decide_eq_false_2 by by intros [].
    rewrite (st_bind_ok _ _ s0 (list_payslips r p) s0) by reflexivity.
    rewrite (st_bind_ok _ _ s0 tt s0).
    2: { destruct (list_payslips r p); [|reflexivity]. by apply Permutation_nil_l in Hperm. }
    rewrite (st_bind_ok _ _ s0 _ s0) by (unfold lift; rewrite total_loop_ok;
      [reflexivity | exact Hls | simpl; lia.. | rewrite Hc; unfold I64_MAX; simpl; lia]).
    cbn [gross_total opv_total vosms_total ipn_total net_total opvr_total so_total osms_total social_tax_total].
    rewrite !Z.add_0_l.
    rewrite (st_bind_ok _ _ s0 _ s0) by (unfold lift; rewrite payroll_lines_ok;
      [reflexivity | exact Hls | rewrite Hc; unfold I64_MAX; lia]).
    rewrite He. rewrite (st_bind_ok _ _ s0 day s0) by (unfold lift; by rewrite Hday).
    rewrite (st_bind_ok _ _ s0 e (mkPW (mkWorld d1 []) p [])) by (unfold on_journal, s0; cbn [pw_w pw_p pw_env]; by rewrite Hcreate).
    rewrite (st_bind_ok _ _ _ pe (mkPW (mkWorld d2 []) p [])) by (unfold on_journal; cbn [pw_w pw_p pw_env]; by rewrite Hpost).
    rewrite (st_bind_ok _ _ _ true (mkPW (mkWorld d2 []) (with_runs (set_run r r') p) [])); [reflexivity|].
    unfold pay_write. rewrite (st_bind_ok pay_yield _ _ tt (mkPW (mkWorld d2 []) p [])) by reflexivity.
    unfold pay_txn, claim_row. cbn [pw_p]. rewrite (st_bind_ok whole _ p p p) by reflexivity. by rewrite Hfind, Hj. }
  assert (r' ∈ pd_runs (with_runs (set_run r r') p)) as Hr'.
  { simpl. apply set_run_spec; [exact (pay_runs_unique p Hp) | done | done | by left]. }
  split; [exact Hrun|]. repeat (split; [done|]). intros user2 w2.
  pose proof (post_to_journal_safe org rid user s0 Hp ltac:(constructor)) as K. rewrite Hrun in K.
  apply (post_to_journal_once org rid user2 w2 _ r' (Db.id e)); [apply K | done..].
Qed.

(** ** The run state machine *)

Inductive pay_request :=
  | CalculateRun (org : string) (y m : Z)
  | Approve (org rid : string)
  | PostToJournal (org rid user : string).

Definition pay_serve (s : PWorld) (q : pay_request) : PWorld :=
  match q with
  | CalculateRun org y m => (calculate_run org y m s).2
  | Approve org rid => (approve org rid s).2
  | PostToJournal org rid user => (post_to_journal org rid user s).2
  end.

Lemma pay_serve_keeps s q : pay_inv (pw_p s) -> pay_env_ok s -> pay_keeps s (pay_serve s q).
Proof.
  intros Hi He. destruct q; simpl;
    [by apply calculate_run_safe | by apply approve_safe | by apply post_to_journal_safe].
Qed.

(** C4: Whatever payroll requests are served, failed ones included, with other
    sessions in between: every stored payslip splits its gross exactly into net
    and withholdings with no negative part, only approved runs are linked to the
    journal, and an approved run never changes again: neither its period, its
    rates nor its payslips, nor the entry it is linked to. *)
Theorem payroll_keeps_approved s qs :
  pay_inv (pw_p s) -> pay_env_ok s ->
  pay_inv (pw_p (fold_left pay_serve qs s)) /\ pay_evolves (pw_p s) (pw_p (fold_left pay_serve qs s)).
Proof.
  revert s. induction qs as [|q qs IH]; intros s Hi He; simpl; [split; [done | reflexivity]|].
  destruct (pay_serve_keeps s q Hi He) as (Hi' & He' & Hv).
  destruct (IH _ Hi' He') as [H1 H2]. split; [done | by etransitivity].
Qed.

Lemma pay_read_quiet {A} (q : PayDB -> A) s : pw_env s = [] -> pay_read q s = (Ok (q (pw_p s)), s).
Proof. destruct s as [w d e]. simpl. intros ->. reflexivity. Qed.

(** A call that only reads, when no other session commits. *)
Definition quiet {A} (m : st PWorld A) : Prop := forall s, pw_env s = [] -> (m s).2 = s.

Lemma pay_quiet_read {A} (q : PayDB -> A) : quiet (pay_read q).
Proof. intros s H. by rewrite pay_read_quiet. Qed.

Lemma pay_quiet_bind {A B} (m : st PWorld A) (f : A -> st PWorld B) : quiet m -> (forall a, quiet (f a)) -> quiet (m ≫= f).
Proof.
  intros Hm Hf s H. specialize (Hm s H). rewrite st_bind_case. destruct (m s) as [[a| |] s1]; simpl in *; subst; [|done..].
  by apply Hf.
Qed.

Lemma quiet_rates org date : quiet (build_rates org date).
Proof.
  assert (Hr : forall k, quiet (rate_bp k date)).
  { intros k. apply pay_quiet_bind; [apply pay_quiet_read|]. by intros [r|] s H. }
  assert (Ht : forall k, quiet (constant_tiyn k date)).
  { intros k. apply pay_quiet_bind; [apply pay_quiet_read|]. by intros [r|] s H. }
  assert (Hu : forall k, quiet (constant_units k date)).
  { intros k. apply pay_quiet_bind; [apply pay_quiet_read|]. by intros [r|] s H. }
  unfold build_rates. do 15 (apply pay_quiet_bind; [first [apply Hr | apply Ht | apply Hu]|]; intros ?).
  apply pay_quiet_bind; [apply pay_quiet_read|]. by intros x s H.
Qed.

(** A run that [calculate_run] returns holds, for the requested period, one
    payslip per employee employed during it, computed by [calculate] under the
    rates in force on its last day, which are what the stored snapshot says; the
    tables hold exactly these payslips for the run, whether it is new or
    recalculated. *)
Theorem calculate_run_pays_everyone org y m w p run s' :
  pay_inv p -> calculate_run org y m (mkPW w p []) = (Ok run, s') ->
  exists day rates, last_day_of_month y m = Ok day /\ build_rates org day (mkPW w p []) = (Ok rates, mkPW w p []) /\
    Forall2 (slip_for org (run_id run) rates) (list_employed_during org (first_day_of_month y m) day p) (payslips run) /\
    slips_of (pw_p s') (run_id run) = payslips run /\ with_payslips run [] ∈ pd_runs (pw_p s') /\
    rates_snapshot run = rates_snapshot_json rates day /\ run_status run = "draft" /\ run_org run = org /\
    period_year run = y /\ period_month run = m.
Proof.
  intros Hi H. unfold calculate_run in H. cbv zeta in H. set (s0 := mkPW w p []) in *.
  apply st_bind_Ok in H as (day & s1 & Hd & H). unfold lift in Hd. injection Hd as Hd <-.
  apply st_bind_Ok in H as (rates & s1 & Hrates & H). pose proof (quiet_rates org day s0 eq_refl) as Hq.
  rewrite Hrates in Hq. simpl in Hq. subst s1.
  rewrite (st_bind_ok _ _ _ _ _ (pay_read_quiet _ s0 eq_refl)) in H.
  apply st_bind_Ok in H as ([] & s1 & Hscr & H). unfold lift in Hscr. injection Hscr as _ <-.
  rewrite (st_bind_ok _ _ _ _ _ (pay_read_quiet _ s0 eq_refl)) in H. cbn [pw_p s0] in H.
  destruct (match find_by_period org y m p with Some e => _ | None => false end); [discriminate|].
  unfold pay_write in H. rewrite (st_bind_ok pay_yield _ s0 tt s0) in H by reflexivity. unfold pay_txn in H.
  cbn [pw_p s0 pw_w pw_env] in H.
  destruct (calculate_txn _ _ _ _ _ _ _ p) as [[r| |] d'] eqn:Hx; [|discriminate..]. injection H as <- <-.
  apply calculate_txn_ok in Hx as (_ & _ & Hf & Hsl & Hst & Ho & Hsn & Hin & Hper); [|done].
  exists day, rates. repeat (split; [done|]).
  destruct (find_by_period org y m p) as [e|] eqn:Hfp; [|done].
  unfold find_by_period in Hfp. apply List.find_some in Hfp as [Hine Hc]. apply list_elem_of_In in Hine.
  rewrite !andb_true_iff, !Z.eqb_eq in Hc. destruct Hc as [[_ Hy] Hm].
  destruct Hper as (r0 & Hr0 & Hid & _ & -> & ->). by rewrite (run_unique p r0 e Hi Hr0 Hine Hid).
Qed.

End Service.

(** ** Witnesses: one employee, the rates of 2026 *)

Import Reference.

Definition chart : list Account :=
  map (fun c => mkAccount c None c c c "liability" None false) ["7210"; "3350"; "3120"; "3220"; "3210"; "3230"; "3150"].

Definition books : DB := mkDB {["org"]} {["user"]} ∅ [] chart ∅ 0 7.

Lemma books_inv : ledger_inv books.
Proof. split; unfold books; simpl; intros x; [intros ? Hx | intros Hx | intros ? Hx..]; set_solver. Qed.

Definition rate (k : string) (bp : Z) : Rate := mkRate k bp None "2026-01-01" None.
Definition const (k : string) (t : Z) (u : option Z) : Constant := mkConstant k t u "2026-01-01" None.

Definition payday : PayDB :=
  mkPayDB [] [] [mkEmployee "e1" "org" 50000000 "2026-01-05" None true false "active" 1]
    [rate "ipn" 1000; rate "opv" 1000; rate "opvr" 350; rate "so" 500; rate "osms" 300; rate "vosms" 200;
     rate "social_tax" 600]
    [const "mrp" 432500 None; const "mzp" 8500000 None; const "ipn_deduction_mrp" 0 (Some 30);
     const "opv_base_max_mzp" 0 (Some 50); const "so_base_min_mzp" 0 (Some 1); const "so_base_max_mzp" 0 (Some 7);
     const "vosms_base_max_mzp" 0 (Some 20); const "osms_base_max_mzp" 0 (Some 40)]
    ∅ {["org"]} 0 7.

Definition pay0 : PWorld := mkPW (mkWorld books []) payday [].

Lemma payday_inv : pay_inv payday.
Proof. split; simpl; [by apply Forall_nil | by apply NoDup_nil | intros x Hx; by apply elem_of_nil in Hx..]. Qed.

Lemma payroll_keeps_approved_witness :
  pay_inv (pw_p (fold_left pay_serve [CalculateRun "org" 2026 1; Approve "org" "u"; PostToJournal "org" "u" "user"] pay0)).
Proof. apply payroll_keeps_approved; [exact payday_inv | constructor]. Defined.

Definition pay1 : PWorld := fold_left pay_serve [CalculateRun "org" 2026 1; Approve "org" "u"] pay0.

Lemma pay1_inv : pay_inv (pw_p pay1).
Proof.
  destruct (pay_serve_keeps pay0 (CalculateRun "org" 2026 1) payday_inv ltac:(constructor)) as (Hi & He & _).
  exact (proj1 (pay_serve_keeps _ (Approve "org" "u") Hi He)).
Qed.

Lemma run_ok {A} (p : outcome A * PWorld) :
  match p.1 with Ok _ => true | _ => false end = true -> exists a s, p = (Ok a, s).
Proof. destruct p as [[a| |] s]; simpl; [by repeat eexists | discriminate..]. Qed.

Lemma calculate_run_pays_everyone_witness :
  exists run s', calculate_run "org" 2026 1 pay0 = (Ok run, s') /\ period_month run = 1.
Proof.
  assert (H : exists run s', calculate_run "org" 2026 1 pay0 = (Ok run, s')) by (apply run_ok; vm_compute; reflexivity).
  destruct H as (run & s' & H). exists run, s'. split; [exact H|].
  destruct (calculate_run_pays_everyone "org" 2026 1 (mkWorld books []) payday run s' payday_inv H)
    as (day & rates & _ & _ & _ & _ & _ & _ & _ & _ & _ & Hm).
  exact Hm.
Defined.

Definition january : PayrollRun :=
  mkRun "u" "org" 2026 1 "approved"
    (rates_snapshot_json (mkRates 1000 1000 350 500 300 200 600 432500 8500000 30 50 1 7 20 40 true) "2026-01-31")
    None [].

Lemma pay1_runs : pd_runs (pw_p pay1) = [january].
Proof. vm_compute. reflexivity. Qed.

Lemma pay1_run : january ∈ pd_runs (pw_p pay1).
Proof. rewrite pay1_runs. by left. Qed.

Lemma pay1_cost : cost (slips_of (pw_p pay1) "u") = 58140000.
Proof. vm_compute. reflexivity. Qed.

Lemma books_chart : chart_ok "org" books.
Proof. intros a Ha. rewrite !elem_of_cons in Ha. destruct Ha as [->|[->|[->|[->|[->|[->|[->|Ha]]]]]]]; [discriminate..|by apply elem_of_nil in Ha]. Qed.

Lemma post_to_journal_posts_witness :
  exists eid d' p', post_to_journal "org" "u" "user" (mkPW (mkWorld books []) (pw_p pay1) []) =
    (Ok eid, mkPW (mkWorld d' []) p' []).
Proof.
  destruct (post_to_journal_posts "org" "u" "user" books (pw_p pay1) january "2026-01-31")
    as (eid & d' & p' & row & r' & H & _);
    [exact books_inv | exact pay1_inv | set_solver | set_solver | exact books_chart | exact pay1_run
    | reflexivity | reflexivity | reflexivity | reflexivity | reflexivity | by eexists
    | intros E; pose proof pay1_cost as C; rewrite E in C; discriminate
    | rewrite pay1_cost; lia |].
  exists eid, d', p'. exact H.
Defined.

Lemma post_to_journal_once_witness :
  exists p r, r ∈ pd_runs p /\ post_to_journal "org" "u" "user" (mkPW (mkWorld books []) p []) =
    (Throw (Exn InvalidRunState "already_posted"), mkPW (mkWorld books []) p []).
Proof.
  set (r := mkRun "u" "org" 2026 1 "approved" [] (Some "e") []).
  set (p := mkPayDB [r] [] [] [] [] ∅ {["org"]} 1 7).
  assert (Hp : pay_inv p).
  { split; simpl; [by apply Forall_nil | by apply NoDup_singleton | | | intros x Hx; by apply elem_of_nil in Hx];
      intros x ->%list_elem_of_singleton; simpl.
    - rewrite !elem_of_cons. split; [auto|]. split; [done | lia].
    - exists 0%nat. split; [lia | reflexivity]. }
  exists p, r. split; [by left|].
  apply (post_to_journal_once "org" "u" "user" (mkWorld books []) p r "e" Hp); [by left | reflexivity..].
Defined.

End Payroll.
