(* ===== verification/TaxService.v ===== *)
(** * Tax calculations

    src/tax/TaxService.hpp, src/tax/TaxCalculation.hpp and
    src/tax/TaxCalculationRepository.hpp: the simplified-declaration tax (СНР)
    of a half-year, the VAT balance of a quarter, the registration-threshold
    alerts, and the table that keeps one row per organization, kind and period.
    Income and VAT are sums over the posted lines of the journal, so the last
    section relates them to [Journal.reverse]. *)
From Stdlib Require Import ZArith Lia Ascii String.
From S2P Require Import Prelude Ledger JournalDb JournalService PayrollCalculator PayrollService.
Open Scope string_scope.
Open Scope Z_scope.

Module Tax.
Import Db Journal Payroll.

(** ** Reading snapshots *)

Definition member (key : string) (l : list (string * json)) : option json :=
  snd <$> List.find (fun kv => String.eqb (fst kv) key) l.

(** [nlohmann::json::value(key, 0LL)]: the default when the key is absent, a
    conversion error when the member is no number or the value no object. *)
Definition value_ll (key : string) (j : json) : outcome Z :=
  match j with
  | JObject l =>
      match member key l with
      | None => Ok 0
      | Some (JInt z) => Ok z
      | Some (JBool b) => Ok (if b then 1 else 0)
      | Some _ => Throw (Exn json_type_error "type must be number")
      end
  | _ => Throw (Exn json_type_error "cannot use value() with a non-object")
  end.

(** ** The table of calculations *)

Definition kSnrSimplified : string := "snr_simplified".
Definition kVat : string := "vat".

(** [Calculation]: src/tax/TaxCalculation.hpp:45-78. *)
Record Calculation := mkCalc {
  calc_id : string; calc_org : string; kind : string; period_from : string; period_to : string;
  computed_at : Z; input_snapshot : json; result_snapshot : json; total_tiyn : Z
}.

Record TaxDB := mkTaxDB { td_calcs : list Calculation; td_orgs : gset string; td_seq : nat; td_now : Z }.

(** The tables behind the service: journal and reference data ([PWorld]), and
    [tax_calculations], which other sessions may change before every access. *)
Record TWorld := mkTW { tw_p : PWorld; tw_t : TaxDB; tw_env : list (TaxDB -> TaxDB) }.

Definition tax_yield : st TWorld unit :=
  modify (fun s => match tw_env s with
                   | [] => s
                   | f :: fs => mkTW (tw_p s) (f (tw_t s)) fs
                   end).

(** One transaction on [tax_calculations]: all of it or none. *)
Definition tax_txn {A} (body : st TaxDB A) : st TWorld A :=
  fun s => match body (tw_t s) with
           | (Ok a, t) => (Ok a, mkTW (tw_p s) t (tw_env s))
           | (Throw e, _) => (Throw e, s)
           | (Undef, _) => (Undef, s)
           end.

Definition tax_write {A} (body : st TaxDB A) : st TWorld A := tax_yield ;; tax_txn body.

Definition tax_read {A} (q : TaxDB -> A) : st TWorld A := tax_yield ;; gets (fun s => q (tw_t s)).

Definition on_payroll {A} (m : st PWorld A) : st TWorld A :=
  fun s => let '(r, p) := m (tw_p s) in (r, mkTW p (tw_t s) (tw_env s)).

(** A read whose SQL may fail. *)
Definition read_or_fail {A} (q : DB -> outcome A) : st World A := r ← execute_read q; lift r.

Definition sql_fail {A} (state : string) : outcome A := Throw (Exn pqxx_sql_error state).

Definition same_period (org k from to : string) (c : Calculation) : bool :=
  String.eqb (calc_org c) org && String.eqb (kind c) k && String.eqb (period_from c) from
  && String.eqb (period_to c) to.

Section Service.
Context `{PG : Postgres}.

(** [upsert]: src/tax/TaxCalculationRepository.hpp:54-82.  INSERT ... ON CONFLICT (org_id, kind, period_from, period_to) DO UPDATE: the
    DATE input, the CHECK constraints of the proposed row, the conflicting row
    rewritten in place, or a new one. *)
Definition upsert (org k from to : string) (input result : json) (total : Z) : st TaxDB Calculation :=
  d ← gets (fun d => d);
  match date_in from, date_in to with
  | Some f, Some t =>
      if negb ((String.eqb k "snr_simplified" || String.eqb k "vat") && date_le f t)
      then throw pqxx_sql_error "23514"
      else
        match List.find (same_period org k f t) (td_calcs d) with
        | Some old =>
            let c := mkCalc (calc_id old) (calc_org old) (kind old) (period_from old) (period_to old)
                       (td_now d) input result total in
            modify (fun d => mkTaxDB (map (fun x => if same_period org k f t x then c else x) (td_calcs d))
                               (td_orgs d) (td_seq d) (td_now d)) ;;
            mret c
        | None =>
            if negb (bool_decide (org ∈ td_orgs d)) then throw pqxx_sql_error "23503"
            else
              let c := mkCalc (gen_random_uuid (td_seq d)) org k f t (td_now d) input result total in
              modify (fun d => mkTaxDB (td_calcs d ++ [c])%list (td_orgs d) (S (td_seq d)) (td_now d)) ;;
              mret c
        end
  | _, _ => throw pqxx_sql_error "22007"
  end.

(** [find_by_period]: src/tax/TaxCalculationRepository.hpp:159-177. *)
Definition find_calc (org k from to : string) : st TWorld (option Calculation) :=
  match date_in from, date_in to with
  | Some f, Some t => tax_read (fun d => List.find (same_period org k f t) (td_calcs d))
  | _, _ => throw pqxx_sql_error "22007"
  end.

(** ** Sums over the journal *)

(** [kIncomeAccounts]: src/tax/TaxService.hpp:310-310. *)
Definition kIncomeAccounts : list string := ["6010"; "6110"; "6250"; "6290"].
(** [kVatDeductibleAccounts]: src/tax/TaxService.hpp:312-312. *)
Definition kVatDeductibleAccounts : list string := ["1330"; "7010"; "7210"].

(** The JOIN and WHERE of the aggregate: a line of the organization on one of
    the accounts and on the side, of a posted entry of the same organization
    dated in the closed period. *)
Definition counted (org : string) (accounts : list string) (sd f t : string) (d : DB) (l : LineRow) : bool :=
  String.eqb (lr_org l) org
  && match db_entries d !! lr_entry l with
     | Some e => String.eqb (er_org e) (lr_org l) && String.eqb (er_status e) "posted"
                 && date_le f (er_date e) && date_le (er_date e) t
     | None => false
     end
  && String.eqb (lr_side l) sd && existsb (String.eqb (lr_account l)) accounts.

Definition column (vat_only : bool) (l : LineRow) : Z :=
  if vat_only then match lr_vat l with Some v => v | None => 0 end else lr_amount l.

(** The sum of the column over the counted lines, in tiyn: the stored NUMERIC
    has two decimals, so ROUND(column * 100) is its hundredths. *)
Definition turnover (org : string) (accounts : list string) (sd f t : string) (vat_only : bool) (d : DB) : Z :=
  zsum (map (column vat_only) (List.filter (counted org accounts sd f t d) (db_lines d))).

(** [sum_line_amount_tiyn]: src/tax/TaxService.hpp:371-394.  The ::bigint cast fails out of range. *)
Definition sum_line_amount_tiyn (org : string) (accounts : list string) (sd from to : string) (vat_only : bool)
    : st TWorld Z :=
  on_payroll (on_journal (read_or_fail (fun d =>
    match date_in from, date_in to with
    | Some f, Some t =>
        let sum := turnover org accounts sd f t vat_only d in
        if in_i64 sum then Ok sum else sql_fail "22003"
    | _, _ => sql_fail "22007"
    end))).

(** ** Calculations *)

(** [apply_bp]: src/tax/TaxService.hpp:332-332. *)
Definition apply_bp (base bp : Z) : outcome Z :=
  p ← mul64 base bp; q ← add64 p 5000; mret (Z.quot q 10000).

Definition strings (l : list string) : json := JArray (map JString l).

(** [calculate_snr]: src/tax/TaxService.hpp:129-167. *)
Definition calculate_snr (org half_year_start half_year_end : string) : st TWorld Calculation :=
  income_tiyn ← sum_line_amount_tiyn org kIncomeAccounts "credit" half_year_start half_year_end false;
  rate ← on_payroll (pay_read (rate_on "snr_simplified" half_year_end ""));
  match rate with
  | None => throw MissingTaxReference ("no snr_simplified rate in force on " +:+ half_year_end)
  | Some r =>
      tax_tiyn ← lift (apply_bp income_tiyn (rate_bp_of r));
      tax_write (upsert org kSnrSimplified half_year_start half_year_end
        (JObject [("period_from", JString half_year_start); ("period_to", JString half_year_end);
                  ("rate_bp", JInt (rate_bp_of r)); ("rate_effective_from", JString (rate_from r));
                  ("income_accounts", strings kIncomeAccounts)])
        (JObject [("income_tiyn", JInt income_tiyn); ("rate_bp", JInt (rate_bp_of r));
                  ("tax_tiyn", JInt tax_tiyn)])
        tax_tiyn)
  end.

(** [calculate_vat]: src/tax/TaxService.hpp:197-241. *)
Definition calculate_vat (org quarter_start quarter_end : string) : st TWorld Calculation :=
  accrued_tiyn ← sum_line_amount_tiyn org kIncomeAccounts "credit" quarter_start quarter_end true;
  deductible_tiyn ← sum_line_amount_tiyn org kVatDeductibleAccounts "debit" quarter_start quarter_end true;
  balance_tiyn ← lift (sub64 accrued_tiyn deductible_tiyn);
  income_tiyn ← sum_line_amount_tiyn org kIncomeAccounts "credit" quarter_start quarter_end false;
  vat_rate ← on_payroll (pay_read (rate_on "vat" quarter_end ""));
  tax_write (upsert org kVat quarter_start quarter_end
    (JObject ([("period_from", JString quarter_start); ("period_to", JString quarter_end);
               ("income_accounts", strings kIncomeAccounts);
               ("deductible_accounts", strings kVatDeductibleAccounts)]
              ++ match vat_rate with Some r => [("vat_rate_bp", JInt (rate_bp_of r))] | None => [] end)%list)
    (JObject [("accrued_tiyn", JInt accrued_tiyn); ("deductible_tiyn", JInt deductible_tiyn);
              ("balance_tiyn", JInt balance_tiyn); ("income_tiyn", JInt income_tiyn)])
    balance_tiyn).

(** ** Threshold alerts *)

(** [Alert]: src/tax/TaxService.hpp:99-104. *)
Record Alert := mkAlert { alert_kind : string; message : string; current_tiyn : Z; threshold_tiyn : Z }.

(** [subtract_one_year]: src/tax/TaxService.hpp:341-348. *)
Definition subtract_one_year (date : string) : outcome string :=
  if (size date <? 4)%nat then
    Throw (Exn std_invalid_argument ("subtract_one_year: malformed date '" +:+ date +:+ "'"))
  else
    ys ← substr 0 4 date;
    y ← stoi ys;
    mret (pad0 4 (to_string (y - 1)) +:+ str_drop 4 date).

(** [is_near_or_over]: src/tax/TaxService.hpp:314-322. *)
Definition is_near_or_over (current threshold : Z) : outcome bool :=
  a ← mul64 current 10; b ← mul64 threshold 9; mret (b <=? a).

Definition vat_alert (income threshold : Z) : Alert :=
  mkAlert "vat_registration"
    ("12-month income (" +:+ to_string income +:+
     " tiyn) is approaching or over the VAT registration threshold (" +:+ to_string threshold +:+
     " tiyn) — НК РК ст.99 п.4 пп.2 / ст.101 п.3") income threshold.

Definition snr_alert (income threshold : Z) : Alert :=
  mkAlert "snr_limit"
    ("12-month income (" +:+ to_string income +:+
     " tiyn) is approaching or over the SNR simplified-declaration income limit (" +:+ to_string threshold +:+
     " tiyn) — НК РК ст.722") income threshold.

Definition alert_if (b : bool) (a : Alert) : list Alert := if b then [a] else [].

(** [threshold_alerts]: src/tax/TaxService.hpp:264-302. *)
Definition threshold_alerts (org on_date : string) : st TWorld (list Alert) :=
  period_from ← lift (subtract_one_year on_date);
  income_tiyn ← sum_line_amount_tiyn org kIncomeAccounts "credit" period_from on_date false;
  vat_threshold ← on_payroll (pay_read (constant_on "vat_threshold_tenge" on_date));
  match vat_threshold with
  | None => throw MissingTaxReference ("no vat_threshold_tenge constant in force on " +:+ on_date)
  | Some v =>
      near_vat ← lift (is_near_or_over income_tiyn (value_tiyn v));
      mrp ← on_payroll (pay_read (constant_on "mrp" on_date));
      snr_limit_mrp ← on_payroll (pay_read (constant_on "snr_income_limit_mrp" on_date));
      match mrp, (match snr_limit_mrp with Some c => value_units c | None => None end) with
      | Some m, Some units =>
          snr_threshold ← lift (mul64 (value_tiyn m) units);
          near_snr ← lift (is_near_or_over income_tiyn snr_threshold);
          mret (alert_if near_vat (vat_alert income_tiyn (value_tiyn v))
                ++ alert_if near_snr (snr_alert income_tiyn snr_threshold))%list
      | _, _ => throw MissingTaxReference ("no mrp / snr_income_limit_mrp constant in force on " +:+ on_date)
      end
  end.

(** ** The table keeps one row per organization, kind and period *)

Definition calc_key (c : Calculation) : string * string * string * string :=
  (calc_org c, kind c, period_from c, period_to c).

Definition tax_inv (d : TaxDB) : Prop := NoDup (map calc_key (td_calcs d)).

(** What [c] leaves of the table: it is the only row of its key, every other row
    is as it was, and a row it replaces keeps its id. *)
Definition filed (c : Calculation) (d d' : TaxDB) : Prop :=
  let same := same_period (calc_org c) (kind c) (period_from c) (period_to c) in
  List.filter same (td_calcs d') = [c] /\
  List.filter (fun x => negb (same x)) (td_calcs d') = List.filter (fun x => negb (same x)) (td_calcs d) /\
  (forall x, x ∈ td_calcs d -> same x = true -> calc_id c = calc_id x) /\
  tax_inv d'.

Lemma same_period_key org k f t c : same_period org k f t c = true <-> calc_key c = (org, k, f, t).
Proof.
  unfold same_period, calc_key. rewrite !andb_true_iff, !String.eqb_eq. split; [intros [[[-> ->] ->] ->] | intros [= -> -> -> ->]]; auto.
Qed.

(** Rewriting the one row of a key in place. *)
Lemma replace_row (P : Calculation -> bool) k c l :
  (forall x, P x = true <-> calc_key x = k) -> calc_key c = k -> NoDup (map calc_key l) ->
  let l' := map (fun x => if P x then c else x) l in
  List.filter P l' = (if existsb P l then [c] else []) /\
  List.filter (fun x => negb (P x)) l' = List.filter (fun x => negb (P x)) l /\
  map calc_key l' = map calc_key l.
Proof.
  intros HP Hc Hn. pose proof (proj2 (HP c) Hc) as Pc. induction l as [|x l IH]; [done|].
  simpl in *. apply NoDup_cons in Hn as [Hx Hn]. destruct (IH Hn) as (I1 & I2 & I3).
  destruct (P x) eqn:Px; simpl; rewrite ?Pc, ?Px; simpl; rewrite ?I1, ?I2, ?I3; [|done].
  apply HP in Px. rewrite Hc, Px. split; [|done].
  assert (existsb P l = false) as ->; [|done].
  apply not_true_iff_false. intros (y & Hy & Py)%existsb_exists. apply Hx.
  rewrite Px, <- (proj1 (HP y) Py). apply elem_of_map. exists y. by rewrite list_elem_of_In.
Qed.

Lemma find_existsb {A} (P : A -> bool) l :
  existsb P l = match List.find P l with Some _ => true | None => false end.
Proof. induction l as [|x l IH]; [done|]. simpl. by destruct (P x). Qed.

Lemma filter_none {A} (P : A -> bool) l :
  existsb P l = false -> List.filter P l = [] /\ List.filter (fun x => negb (P x)) l = l.
Proof.
  induction l as [|x l IH]; [done|]. simpl. intros [-> H]%orb_false_iff. destruct (IH H) as [-> ->]. done.
Qed.

(** An accepted [upsert] files exactly its row. *)
Lemma upsert_files org k from to f t input result total d :
  tax_inv d -> org ∈ td_orgs d -> k = kSnrSimplified \/ k = kVat ->
  date_in from = Some f -> date_in to = Some t -> date_le f t = true ->
  exists c d', upsert org k from to input result total d = (Ok c, d') /\ filed c d d' /\
    c = mkCalc (calc_id c) org k f t (td_now d) input result total.
Proof.
  intros Hi Ho Hk Hf Ht Hle. unfold upsert, gets. rewrite st_bind_case, Hf, Ht, Hle.
  replace (String.eqb k "snr_simplified" || String.eqb k "vat") with true by (by destruct Hk as [-> | ->]).
  cbn [andb negb]. pose proof (same_period_key org k f t) as HP. set (P := same_period org k f t) in *.
  pose proof (find_existsb P (td_calcs d)) as Hex. destruct (List.find P (td_calcs d)) as [old|] eqn:E.
  - apply find_some in E as [Hin Po]. pose proof (proj1 (HP old) Po) as Hold. injection Hold as Ho1 Ho2 Ho3 Ho4.
    rewrite Ho1, Ho2, Ho3, Ho4. set (c := mkCalc _ _ _ _ _ _ _ _ _).
    destruct (replace_row P _ c (td_calcs d) HP eq_refl Hi) as (F1 & F2 & F3). rewrite Hex in F1.
    eexists c, _. split; [reflexivity|]. split; [|done]. split; [exact F1|]. split; [exact F2|].
    split; [|unfold tax_inv; cbn [td_calcs]; by rewrite F3].
    intros x Hx Px. change (same_period _ _ _ _) with P in Px. apply HP in Px. apply list_elem_of_In in Hin.
    enough (x = old) as -> by done. apply (nodup_key_inj calc_key (td_calcs d)); auto. rewrite Px. symmetry. by apply HP.
  - rewrite bool_decide_eq_true_2 by done. cbn [negb]. set (c := mkCalc _ _ _ _ _ _ _ _ _).
    assert (Pc : P c = true) by by apply HP. destruct (filter_none P _ Hex) as [F1 F2].
    eexists c, _. split; [reflexivity|]. split; [|done]. unfold filed. cbn zeta. change (same_period (calc_org c) _ _ _) with P.
    cbn [td_calcs]. rewrite !List.filter_app. simpl. rewrite Pc, F1, F2. simpl. rewrite app_nil_r.
    split; [done|]. split; [done|]. split.
    { intros x Hx Px. assert (existsb P (td_calcs d) = true); [|congruence].
      apply existsb_exists. exists x. by rewrite <- list_elem_of_In. }
    unfold tax_inv. cbn [td_calcs]. rewrite map_app. apply NoDup_app. split; [exact Hi|].
    split; [|by apply NoDup_singleton]. intros key Hkey Hc. apply list_elem_of_singleton in Hc as ->.
    apply elem_of_map in Hkey as (x & Hx & Hxin). assert (existsb P (td_calcs d) = true); [|congruence].
    apply existsb_exists. exists x. rewrite <- list_elem_of_In. split; [done|]. by apply HP.
Qed.

(** ** The calculations, without other sessions *)

Definition alone (s : TWorld) : Prop :=
  tw_env s = [] /\ pw_env (tw_p s) = [] /\ w_env (pw_w (tw_p s)) = [].
Definition ledger (s : TWorld) : DB := w_db (pw_w (tw_p s)).
Definition reference (s : TWorld) : PayDB := pw_p (tw_p s).
Definition with_tax (s : TWorld) (d : TaxDB) : TWorld := mkTW (tw_p s) d (tw_env s).

Lemma alone_ref {A} (q : PayDB -> A) s :
  alone s -> on_payroll (pay_read q) s = (Ok (q (reference s)), s).
Proof.
  intros (_ & Hp & _). destruct s as [[w p pe] t te]. cbn in Hp. subst pe.
  unfold on_payroll, pay_read. rewrite st_bind_case. reflexivity.
Qed.

Lemma alone_write {A} (body : st TaxDB A) s : alone s -> tax_write body s = tax_txn body s.
Proof.
  intros (Ht & _). destruct s as [p t te]. cbn in Ht. subst te.
  unfold tax_write. rewrite st_bind_case. reflexivity.
Qed.

Lemma alone_sum org accounts sd from to vat_only f t s :
  alone s -> date_in from = Some f -> date_in to = Some t ->
  0 <= turnover org accounts sd f t vat_only (ledger s) <= I64_MAX ->
  sum_line_amount_tiyn org accounts sd from to vat_only s
  = (Ok (turnover org accounts sd f t vat_only (ledger s)), s).
Proof.
  intros (_ & _ & Hw) Hf Ht Hr. destruct s as [[[d we] p pe] t0 te]. cbn in Hw. subst we.
  unfold sum_line_amount_tiyn, on_payroll, on_journal, read_or_fail. cbn [tw_p pw_w].
  rewrite (st_bind_ok _ _ _ _ _ (execute_read_eq _ _)). cbn [next yield modify w_env snd w_db].
  unfold lift. rewrite Hf, Ht. cbn [ledger w_db pw_w tw_p] in Hr.
  unfold in_i64. rewrite (proj2 (Z.leb_le _ _)), (proj2 (Z.leb_le _ _)) by (unfold I64_MIN in *; lia). done.
Qed.

Lemma alone_file org k from to f t input result total s :
  alone s -> tax_inv (tw_t s) -> org ∈ td_orgs (tw_t s) -> k = kSnrSimplified \/ k = kVat ->
  date_in from = Some f -> date_in to = Some t -> date_le f t = true ->
  exists c d', tax_write (upsert org k from to input result total) s = (Ok c, with_tax s d') /\
    filed c (tw_t s) d' /\ c = mkCalc (calc_id c) org k f t (td_now (tw_t s)) input result total.
Proof.
  intros Ha Hi Ho Hk Hf Ht Hle. rewrite alone_write by done.
  destruct (upsert_files org k from to f t input result total _ Hi Ho Hk Hf Ht Hle) as (c & d' & Hu & Hd & Hc).
  exists c, d'. unfold tax_txn. rewrite Hu. done.
Qed.

(** [x] is the integer nearest to [n / 10000], ties upwards. *)
Definition nearest_bp (x n : Z) : Prop := 10000 * x - 5000 <= n < 10000 * x + 5000.

Lemma apply_bp_ok base bp :
  0 <= base -> 0 <= bp -> base * bp + 5000 <= I64_MAX ->
  exists x, apply_bp base bp = Ok x /\ nearest_bp x (base * bp).
Proof.
  intros H1 H2 H3. unfold apply_bp. assert (0 <= base * bp) by nia. run64.
  eexists. split; [reflexivity|]. rewrite quot_div by lia. unfold nearest_bp. dlia.
Qed.

(** C21: The simplified-declaration tax.  Without other sessions, and as long as
    the rate is in force on the period's end and the product fits, [calculate_snr]
    succeeds; the tax is the posted credit turnover of the revenue accounts in the
    period times the rate, rounded to the nearest tiyn; the result becomes the
    only row of its organization, kind and period (replacing in place, with its
    id, one computed before); no other row, no entry and no rate changes. *)
Theorem calculate_snr_files org from to f t r s :
  alone s -> tax_inv (tw_t s) -> org ∈ td_orgs (tw_t s) ->
  date_in from = Some f -> date_in to = Some t -> date_le f t = true ->
  rate_on "snr_simplified" to "" (reference s) = Some r -> 0 <= rate_bp_of r ->
  let income := turnover org kIncomeAccounts "credit" f t false (ledger s) in
  0 <= income <= I64_MAX -> income * rate_bp_of r + 5000 <= I64_MAX ->
  exists c d', calculate_snr org from to s = (Ok c, with_tax s d') /\
    nearest_bp (total_tiyn c) (income * rate_bp_of r) /\
    value_ll "income_tiyn" (result_snapshot c) = Ok income /\
    value_ll "rate_bp" (result_snapshot c) = Ok (rate_bp_of r) /\
    (calc_org c, kind c, period_from c, period_to c) = (org, kSnrSimplified, f, t) /\
    filed c (tw_t s) d'.
Proof.
  intros Ha Hi Ho Hf Ht Hle Hr Hbp income Hin Hmul. unfold calculate_snr.
  rewrite (st_bind_ok _ _ _ _ _ (alone_sum _ kIncomeAccounts _ _ _ false f t s Ha Hf Ht Hin)). fold income.
  rewrite (st_bind_ok _ _ _ _ _ (alone_ref _ s Ha)), Hr.
  destruct (apply_bp_ok income (rate_bp_of r) (proj1 Hin) Hbp Hmul) as (x & Hx & Hn).
  rewrite (st_bind_ok _ _ s x s) by (unfold lift; by rewrite Hx).
  edestruct (alone_file org kSnrSimplified from to f t) as (c & d' & -> & Hd & Hc); eauto.
  exists c, d'. split; [reflexivity|]. rewrite Hc at 1 2 3 4 5 6 7. cbn [total_tiyn result_snapshot]. done.
Qed.

(** VAT of a quarter.  Without other sessions, the balance filed is the VAT of
    the posted credit lines on the revenue accounts minus the VAT of the posted
    debit lines on the deductible accounts, whatever its sign and whether or not a
    VAT rate is in force; the snapshot carries the three figures and the revenue
    turnover, and the table changes as for the simplified declaration. *)
Theorem calculate_vat_files org from to f t s :
  alone s -> tax_inv (tw_t s) -> org ∈ td_orgs (tw_t s) ->
  date_in from = Some f -> date_in to = Some t -> date_le f t = true ->
  let accrued := turnover org kIncomeAccounts "credit" f t true (ledger s) in
  let deductible := turnover org kVatDeductibleAccounts "debit" f t true (ledger s) in
  let income := turnover org kIncomeAccounts "credit" f t false (ledger s) in
  0 <= accrued <= I64_MAX -> 0 <= deductible <= I64_MAX -> 0 <= income <= I64_MAX ->
  exists c d', calculate_vat org from to s = (Ok c, with_tax s d') /\
    total_tiyn c = accrued - deductible /\
    value_ll "accrued_tiyn" (result_snapshot c) = Ok accrued /\
    value_ll "deductible_tiyn" (result_snapshot c) = Ok deductible /\
    value_ll "income_tiyn" (result_snapshot c) = Ok income /\
    (calc_org c, kind c, period_from c, period_to c) = (org, kVat, f, t) /\
    filed c (tw_t s) d'.
Proof.
  intros Ha Hi Ho Hf Ht Hle accrued deductible income H1 H2 H3. unfold calculate_vat.
  rewrite (st_bind_ok _ _ _ _ _ (alone_sum _ kIncomeAccounts _ _ _ true f t s Ha Hf Ht H1)). fold accrued.
  rewrite (st_bind_ok _ _ _ _ _ (alone_sum _ kVatDeductibleAccounts _ _ _ true f t s Ha Hf Ht H2)). fold deductible.
  rewrite (st_bind_ok _ _ s (accrued - deductible) s) by (unfold lift; by rewrite sub64_ok by bound64).
  rewrite (st_bind_ok _ _ _ _ _ (alone_sum _ kIncomeAccounts _ _ _ false f t s Ha Hf Ht H3)). fold income.
  rewrite (st_bind_ok _ _ _ _ _ (alone_ref _ s Ha)).
  edestruct (alone_file org kVat from to f t) as (c & d' & -> & Hd & Hc); eauto.
  exists c, d'. split; [reflexivity|]. rewrite Hc at 1 2 3 4 5 6 7 8. cbn [total_tiyn result_snapshot]. done.
Qed.

Lemma near_ok current threshold :
  0 <= current -> 10 * current <= I64_MAX -> 0 <= threshold -> 9 * threshold <= I64_MAX ->
  is_near_or_over current threshold = Ok (9 * threshold <=? 10 * current).
Proof.
  intros. unfold is_near_or_over. run64. unfold mret, outcome_ret. f_equal. apply eq_iff_eq_true. rewrite !Z.leb_le. lia.
Qed.

Lemma in_alert_if b a x : x ∈ alert_if b a <-> x = a /\ b = true.
Proof.
  destruct b; simpl; rewrite ?list_elem_of_singleton, ?elem_of_nil; [|by split; [|intros [_ ?]]].
  split; [auto | by intros []].
Qed.

(** The threshold alerts.  Without other sessions, an alert is raised for
    exactly those of the two thresholds (VAT registration; MRP times the number
    of MRP for the simplified declaration) of which the posted revenue of the
    window reaches 90%, and it reports that revenue and the whole threshold; the
    window opens on the day one year before, itself counted. *)
Theorem threshold_alerts_fire org day from f t v m l u s :
  alone s -> subtract_one_year day = Ok from -> date_in from = Some f -> date_in day = Some t ->
  constant_on "vat_threshold_tenge" day (reference s) = Some v ->
  constant_on "mrp" day (reference s) = Some m ->
  constant_on "snr_income_limit_mrp" day (reference s) = Some l -> value_units l = Some u ->
  let income := turnover org kIncomeAccounts "credit" f t false (ledger s) in
  let limit := value_tiyn m * u in
  0 <= income -> 10 * income <= I64_MAX -> 0 <= value_tiyn v -> 9 * value_tiyn v <= I64_MAX ->
  0 <= limit -> 9 * limit <= I64_MAX ->
  exists alerts, threshold_alerts org day s = (Ok alerts, s) /\
    forall a, a ∈ alerts <->
      a = vat_alert income (value_tiyn v) /\ 9 * value_tiyn v <= 10 * income \/
      a = snr_alert income limit /\ 9 * limit <= 10 * income.
Proof.
  intros Ha Hy Hf Ht Hv Hm Hl Hu income limit. intros. unfold threshold_alerts.
  rewrite (st_bind_ok _ _ s from s) by (unfold lift; by rewrite Hy).
  rewrite (st_bind_ok _ _ _ _ _ (alone_sum org kIncomeAccounts "credit" _ _ false f t s Ha Hf Ht ltac:(fold income; lia))).
  fold income. rewrite (st_bind_ok _ _ _ _ _ (alone_ref _ s Ha)), Hv.
  rewrite (st_bind_ok _ _ s (9 * value_tiyn v <=? 10 * income) s) by (unfold lift; by rewrite near_ok).
  rewrite (st_bind_ok _ _ _ _ _ (alone_ref _ s Ha)), Hm.
  rewrite (st_bind_ok _ _ _ _ _ (alone_ref _ s Ha)), Hl, Hu.
  rewrite (st_bind_ok _ _ s limit s) by (unfold lift; fold limit; by rewrite mul64_ok by bound64).
  rewrite (st_bind_ok _ _ s (9 * limit <=? 10 * income) s) by (unfold lift; by rewrite near_ok).
  eexists. split; [reflexivity|]. intros a. by rewrite elem_of_app, !in_alert_if, !Z.leb_le.
Qed.

(** ** What a storno does to the taxes *)

Definition part (accounts : list string) (sd : string) (vat_only : bool) (ls : list LineRow) : Z :=
  zsum (map (column vat_only)
    (List.filter (fun l => String.eqb (lr_side l) sd && existsb (String.eqb (lr_account l)) accounts) ls)).

Definition within (f t day : string) : bool := date_le f day && date_le day t.

Definition other_side (sd : string) : string := if String.eqb sd "debit" then "credit" else "debit".

(** Lines of one posted entry count when its date is in the period. *)
Lemma counted_part org accounts sd f t vat_only d eid e ls :
  db_entries d !! eid = Some e -> er_org e = org -> er_status e = "posted" ->
  (forall l, l ∈ ls -> lr_entry l = eid /\ lr_org l = org) ->
  zsum (map (column vat_only) (List.filter (counted org accounts sd f t d) ls))
  = if within f t (er_date e) then part accounts sd vat_only ls else 0.
Proof.
  intros He Ho Hs Hls. unfold part. rewrite !zsum_filter.
  destruct (within f t (er_date e)) eqn:Hw; [|transitivity (zsum (map (fun _ : LineRow => 0) ls))].
  1,2: apply zsum_ext; intros l Hl; destruct (Hls l Hl) as [He' Ho']; unfold counted; rewrite He', He, Ho', Ho, Hs.
  1,2: rewrite !String.eqb_refl; unfold within in Hw; cbn [andb]; rewrite Hw; done.
  clear. unfold zsum. induction ls; simpl; lia.
Qed.

Lemma part_perm accounts sd vat_only p q : p ≡ₚ q -> part accounts sd vat_only p = part accounts sd vat_only q.
Proof. intros H. unfold part. rewrite !zsum_filter. apply zsum_perm. by rewrite H. Qed.

Lemma mirrors_part accounts sd vat_only p q :
  sd = "debit" \/ sd = "credit" -> Forall (fun l => lr_side l = "debit" \/ lr_side l = "credit") p ->
  Forall2 mirrors p q -> part accounts sd vat_only q = part accounts (other_side sd) vat_only p.
Proof.
  intros Hsd Hp. induction 1 as [|r r' p q (Ha & Hs & Hm & _ & Hv) _ IH]; [done|].
  apply Forall_cons in Hp as [Hr Hp]. specialize (IH Hp). unfold part in *. rewrite !zsum_filter in *. simpl.
  rewrite Ha, Hs, IH. f_equal. assert (column vat_only r' = column vat_only r) as ->.
  { unfold column. by rewrite Hm, Hv. }
  by destruct Hsd as [-> | ->], Hr as [-> | ->].
Qed.

(** Other entries count as before a storno. *)
Lemma counted_others org accounts sd f t (d d' : DB) ls :
  (forall l, l ∈ ls -> db_entries d' !! lr_entry l = db_entries d !! lr_entry l) ->
  List.filter (counted org accounts sd f t d') ls = List.filter (counted org accounts sd f t d) ls.
Proof.
  intros H. induction ls as [|l ls IH]; [done|]. simpl. rewrite IH by (intros; apply H; by right).
  unfold counted. by rewrite (H l) by left.
Qed.

Lemma counted_reversed org accounts sd f t (d : DB) eid e ls :
  db_entries d !! eid = Some e -> er_status e = "reversed" -> (forall l, l ∈ ls -> lr_entry l = eid) ->
  List.filter (counted org accounts sd f t d) ls = [].
Proof.
  intros He Hs H. induction ls as [|l ls IH]; [done|]. simpl. rewrite IH by (intros; apply H; by right).
  unfold counted. rewrite (H l) by left. rewrite He, Hs. by destruct (String.eqb (lr_org l) org), (String.eqb (er_org e) (lr_org l)).
Qed.

(** The lines split into those of one entry and the others. *)
Lemma lines_split (d : DB) eid :
  db_lines d ≡ₚ (lines_of d eid ++ filter (fun l => lr_entry l <> eid) (db_lines d))%list.
Proof.
  unfold lines_of. induction (db_lines d) as [|l ls IH]; [done|]. rewrite !filter_cons.
  destruct (decide (lr_entry l = eid)); [rewrite decide_False by (by intros Hn; apply Hn)|rewrite decide_True by done].
  - simpl. by rewrite <- IH.
  - by rewrite <- Permutation_middle, <- IH.
Qed.

Lemma in_lines_of (d : DB) eid l : l ∈ lines_of d eid -> lr_entry l = eid /\ l ∈ db_lines d.
Proof. intros H. by apply list_elem_of_filter in H. Qed.

(** After a storno the lines are those before it and the storno's own. *)
Lemma storno_lines (d d' : DB) sid :
  lines_of d sid = [] -> (forall x, x <> sid -> lines_of d' x = lines_of d x) ->
  db_lines d' ≡ₚ (db_lines d ++ lines_of d' sid)%list.
Proof.
  intros Hn Ho. apply (classes_perm lr_entry). intros x. rewrite filter_app.
  change (lines_of d' x = (lines_of d x ++ filter (fun l => lr_entry l = x) (lines_of d' sid))%list).
  destruct (decide (x = sid)) as [-> | Hx].
  - rewrite Hn. simpl. symmetry. unfold lines_of. rewrite list_filter_filter.
    apply list_filter_iff. intros l. tauto.
  - rewrite (Ho x Hx). assert (filter (fun l => lr_entry l = x) (lines_of d' sid) = []) as ->.
    { apply elem_of_nil_inv. intros l [? [? _]%in_lines_of]%list_elem_of_filter. congruence. }
    by rewrite app_nil_r.
Qed.

Lemma turnover_app org accounts sd f t vat_only d p q :
  db_lines d ≡ₚ (p ++ q)%list ->
  turnover org accounts sd f t vat_only d
  = zsum (map (column vat_only) (List.filter (counted org accounts sd f t d) p))
    + zsum (map (column vat_only) (List.filter (counted org accounts sd f t d) q)).
Proof.
  intros H. unfold turnover. rewrite !zsum_filter, <- zsum_map_app. apply zsum_perm. by rewrite H.
Qed.

(** A storno takes its original out of every tax base of its period, and puts
    the original's lines back on the other side: after [reverse], the turnover of
    any accounts on one side, over any period, is what it was, less the entry's own
    part on that side and plus its part on the other side when its date falls in
    the period.  A plain sale so leaves no income behind; a debit on a revenue
    account comes back as income. *)
Theorem storno_turnover org eid user w e w' :
  ledger_inv (w_db w) -> env_ok w -> reverse org eid user w = (Ok (Some e), w') ->
  exists d o, evolves (w_db w) d /\ db_entries d !! eid = Some o /\
  forall accounts sd f t vat_only, sd = "debit" \/ sd = "credit" ->
    turnover org accounts sd f t vat_only (w_db w')
    = turnover org accounts sd f t vat_only d
      + (if within f t (er_date o)
         then part accounts (other_side sd) vat_only (lines_of d eid) - part accounts sd vat_only (lines_of d eid)
         else 0).
Proof.
  intros Hi He H.
  destruct (reverse_committed _ _ _ _ _ _ Hi He H)
    as (d & o & p & Hid & Hv & Ho & Hs & Hor & Hne & Hfr & Hen & Hp & Hm & Hso & Hlo).
  exists d, o. split; [done|]. split; [done|]. intros accounts sd f t vat_only Hsd. set (d' := w_db w') in *.
  pose proof (fresh_no_lines d _ Hid Hfr) as Hno.
  set (others := filter (fun l => lr_entry l <> eid) (db_lines d)).
  rewrite (turnover_app _ _ _ _ _ _ d _ _ (lines_split d eid)). fold others.
  assert (db_lines d' ≡ₚ ((lines_of d eid ++ others) ++ lines_of d' (id e))%list) as Hl'.
  { etransitivity; [exact (storno_lines d d' (id e) Hno Hlo)|]. apply Permutation_app_tail, lines_split. }
  rewrite (turnover_app _ _ _ _ _ _ d' _ _ Hl'), List.filter_app, zsum_map_app.
  rewrite (counted_reversed _ _ _ _ _ d' eid (set_status o "reversed") (lines_of d eid));
    [|rewrite Hen; apply lookup_insert_eq | done | by intros l [? _]%in_lines_of].
  rewrite (counted_others _ _ _ _ _ d d' others).
  2: { intros l [Hl Hin]%list_elem_of_filter. rewrite Hen, !lookup_insert_ne; try done.
       intros Hx. assert (l ∈ lines_of d (id e)) as Hc by by apply list_elem_of_filter. rewrite Hno in Hc. by apply elem_of_nil in Hc. }
  rewrite (counted_part org accounts sd f t vat_only d eid o (lines_of d eid) Ho Hor Hs).
  2: { intros l [<- Hin]%in_lines_of. split; [done|]. destruct (inv_line d Hid l Hin) as (_ & e0 & He0 & <-). congruence. }
  erewrite (counted_part org accounts sd f t vat_only d' (id e) _ (lines_of d' (id e)));
    [|rewrite Hen, lookup_insert_ne by done; apply lookup_insert_eq | done | done |].
  2: { intros l Hl. rewrite Forall_forall in Hso. split; [apply (in_lines_of _ _ _ Hl) | by apply Hso]. }
  cbn [er_date]. rewrite (mirrors_part accounts sd vat_only p) by (try done; rewrite Hp; apply Forall_forall;
    intros l [_ Hin]%in_lines_of; apply (inv_line d Hid l Hin)).
  rewrite (part_perm _ (other_side sd) _ _ _ Hp). cbn [map zsum foldr]. destruct (within f t (er_date o)); lia.
Qed.
End Service.
(** ** Witnesses: the posted sale of the journal's witnesses, a rate, two limits *)

Import Reference.

Definition limits : PayDB :=
  mkPayDB [] [] [] [mkRate "snr_simplified" 300 None "2026-01-01" None]
    [mkConstant "vat_threshold_tenge" 16000 None "2026-01-01" None; mkConstant "mrp" 432500 None "2026-01-01" None;
     mkConstant "snr_income_limit_mrp" 0 (Some 600000) "2026-01-01" None] ∅ {["org"]} 0 0.

Definition office : TWorld := mkTW (mkPW w1 limits []) (mkTaxDB [] {["org"]} 0 9) [].

Lemma office_alone : alone office.
Proof. repeat split; vm_compute; reflexivity. Qed.

Lemma office_inv : tax_inv (tw_t office).
Proof. constructor. Qed.

Lemma office_income : turnover "org" kIncomeAccounts "credit" "2026-01-01" "2026-06-30" false (ledger office) = 15050.
Proof. vm_compute. reflexivity. Qed.

Lemma calculate_snr_files_witness :
  exists c d', calculate_snr "org" "2026-01-01" "2026-06-30" office = (Ok c, with_tax office d') /\
    nearest_bp (total_tiyn c) (15050 * 300).
Proof.
  destruct (calculate_snr_files "org" "2026-01-01" "2026-06-30" "2026-01-01" "2026-06-30"
              (mkRate "snr_simplified" 300 None "2026-01-01" None) office) as (c & d' & H1 & H2 & _);
    [exact office_alone | exact office_inv | set_solver | reflexivity | reflexivity | reflexivity | reflexivity
    | cbn [rate_bp_of]; lia | rewrite office_income; bound64 | rewrite office_income; cbn [rate_bp_of]; bound64 |].
  exists c, d'. split; [exact H1|]. rewrite office_income in H2. exact H2.
Defined.

Lemma calculate_vat_files_witness :
  exists c d', calculate_vat "org" "2026-01-01" "2026-03-31" office = (Ok c, with_tax office d').
Proof.
  destruct (calculate_vat_files "org" "2026-01-01" "2026-03-31" "2026-01-01" "2026-03-31" office)
    as (c & d' & H1 & _);
    [exact office_alone | exact office_inv | set_solver | reflexivity | reflexivity | reflexivity
    | vm_compute; split; discriminate | vm_compute; split; discriminate | vm_compute; split; discriminate |].
  exists c, d'. exact H1.
Defined.

Lemma threshold_alerts_fire_witness :
  exists alerts, threshold_alerts "org" "2026-12-31" office = (Ok alerts, office) /\
    vat_alert 15050 16000 ∈ alerts.
Proof.
  assert (E : turnover "org" kIncomeAccounts "credit" "2025-12-31" "2026-12-31" false (ledger office) = 15050)
    by (vm_compute; reflexivity).
  destruct (threshold_alerts_fire "org" "2026-12-31" "2025-12-31" "2025-12-31" "2026-12-31"
              (mkConstant "vat_threshold_tenge" 16000 None "2026-01-01" None)
              (mkConstant "mrp" 432500 None "2026-01-01" None)
              (mkConstant "snr_income_limit_mrp" 0 (Some 600000) "2026-01-01" None) 600000 office)
    as (alerts & H1 & H2); rewrite ?E; cbn [value_tiyn];
    [exact office_alone | reflexivity | reflexivity | reflexivity | reflexivity | reflexivity | reflexivity
    | reflexivity | bound64 | bound64 | bound64 | bound64 | bound64 | bound64 |].
  exists alerts. split; [exact H1|]. apply H2. left. rewrite E. split; [reflexivity | cbn [value_tiyn]; lia].
Defined.

Lemma storno_turnover_witness :
  exists e w' d, reverse "org" "u" "user" w1 = (Ok (Some e), w') /\
    turnover "org" ["6010"] "credit" "2026-01-01" "2026-06-30" false (w_db w')
    = turnover "org" ["6010"] "credit" "2026-01-01" "2026-06-30" false d
      + (if within "2026-01-01" "2026-06-30" "2026-01-31"
         then part ["6010"] "debit" false (lines_of d "u") - part ["6010"] "credit" false (lines_of d "u") else 0).
Proof.
  destruct sale_reversed as (e & w' & H).
  destruct (storno_turnover _ _ _ w1 _ _ (proj1 w1_ok) (proj2 w1_ok) H) as (d & o & Hv & Ho & Ht).
  exists e, w', d. split; [exact H|]. rewrite (Ht ["6010"] "credit") by (by right).
  destruct (Hv "u" (mkEntryRow "org" "2026-01-31" "sale" "posted" None (Some "user") None 8)) as (o' & Ho' & _ & Hd & _);
    [vm_compute; reflexivity | discriminate |].
  rewrite Ho in Ho'. injection Ho' as ->. rewrite Hd. reflexivity.
Defined.

End Tax.
