(* ===== verification/TaxForms.v ===== *)
(** * Tax form documents

    src/tax/FnoXml.hpp, src/tax/Fno910.hpp and src/tax/Fno300.hpp: the XML of the
    half-year СНР declaration (910.00) and of the quarterly VAT declaration
    (300.00), rounded to whole tenge.  A small reader of XML elements states what
    a document says independently of how the text was put together. *)
From Stdlib Require Import ZArith Lia Ascii String.
From S2P Require Import Prelude TaxService.
Open Scope string_scope.
Open Scope Z_scope.

Module Forms.
Import Tax.

(** [OrgInfo]: src/tax/FnoXml.hpp:57-63. *)
Record OrgInfo := mkOrgInfo {
  org_id : string; bin : string; name : string; tax_period_year : string; tax_period_half : string
}.

Definition dq : ascii := chr 34.
Definition quoted (s : string) : string := String dq (s +:+ String dq EmptyString).

(** [escape]: src/tax/FnoXml.hpp:90-115. *)
Fixpoint escape (text : string) : string :=
  match text with
  | EmptyString => EmptyString
  | String c r =>
      if Ascii.eqb c "&" then "&amp;" +:+ escape r
      else if Ascii.eqb c "<" then "&lt;" +:+ escape r
      else if Ascii.eqb c ">" then "&gt;" +:+ escape r
      else if Ascii.eqb c dq then "&quot;" +:+ escape r
      else if Ascii.eqb c "'" then "&apos;" +:+ escape r
      else String c (escape r)
  end.

(** [round_half_up_to_tenge]: src/tax/FnoXml.hpp:134-142. *)
Definition round_half_up_to_tenge (tiyn : Z) : Z :=
  let q := Z.quot tiyn 100 in
  let r := Z.rem tiyn 100 in
  if 50 <=? r then q + 1 else if r <=? -50 then q - 1 else q.

(** [tenge_amount]: src/tax/FnoXml.hpp:146-148. *)
Definition tenge_amount (tiyn : Z) : string := to_string (round_half_up_to_tenge tiyn).

(** [field]: src/tax/FnoXml.hpp:155-157. *)
Definition field (name value : string) : string :=
  "<field name=" +:+ quoted name +:+ ">" +:+ escape value +:+ "</field>".

(** [field]: src/tax/FnoXml.hpp:163-165. *)
Definition field_int (name : string) (numeric_value : Z) : string := field name (to_string numeric_value).

(** [identity_fields]: src/tax/FnoXml.hpp:179-181. *)
Definition identity_fields (org : OrgInfo) : string :=
  field "iin" (bin org) +:+ field "rnn" (bin org) +:+ field "payer_name1" (name org).

(** An element with text, as the summaries build them. *)
Definition elem (tag value : string) : string := "<" +:+ tag +:+ ">" +:+ value +:+ "</" +:+ tag +:+ ">".

Definition invalid {A} (w : string) : outcome A := Throw (Exn std_invalid_argument w).

Definition wrong_kind (form expected got : string) : string :=
  form +:+ "::build_xml: expected Calculation.kind='" +:+ expected +:+ "', got '" +:+ got +:+ "'".

Definition wrong_org (form calc_org org : string) : string :=
  form +:+ "::build_xml: calculation belongs to organization '" +:+ calc_org +:+
  "' but the supplied OrgInfo identifies '" +:+ org +:+
  "' — refusing to emit a filing that mixes two organizations' data".

Definition xml_decl : string := "<?xml version=" +:+ quoted "1.0" +:+ " encoding=" +:+ quoted "UTF-8" +:+ "?>".

Definition fno_open (form_code form_version bin : string) : string :=
  "<fno code=" +:+ quoted form_code +:+ " version=" +:+ quoted form_version +:+ " formatVersion=" +:+ quoted "1" +:+
  " schemaValidated=" +:+ quoted "false" +:+ " bin=" +:+ quoted (escape bin) +:+ ">".

Definition form_of (form_name sheet_name sheet : string) : string :=
  "<form name=" +:+ quoted form_name +:+ "><sheetGroup><sheet name=" +:+ quoted sheet_name +:+ ">" +:+ sheet +:+
  "</sheet></sheetGroup></form>".

Definition summary_of (body : string) : string :=
  "<calcSummary xmlns=" +:+ quoted "urn:cyber-accountant:fno-summary" +:+ ">" +:+ body +:+ "</calcSummary>".

Module Fno910.

(** [build_xml]: src/tax/Fno910.hpp:129-203. *)
Definition build_910_xml (calc : Calculation) (org : OrgInfo) : outcome string :=
  if negb (String.eqb (kind calc) kSnrSimplified) then invalid (wrong_kind "Fno910" kSnrSimplified (kind calc))
  else if negb (String.eqb (calc_org calc) (org_id org)) then
    invalid (wrong_org "Fno910" (calc_org calc) (org_id org))
  else
    income_tiyn ← value_ll "income_tiyn" (result_snapshot calc);
    rate_bp ← value_ll "rate_bp" (result_snapshot calc);
    let sheet := identity_fields org +:+ field "period_year" (tax_period_year org)
      +:+ field "period_half_year" (tax_period_half org) +:+ field "currency_code" "KZT"
      +:+ field "dt_regular" "true" +:+ field_int "field_910_00_001" (round_half_up_to_tenge income_tiyn) in
    let summary := summary_of (elem "incomeTenge" (tenge_amount income_tiyn) +:+ elem "rateBp" (to_string rate_bp)
      +:+ elem "taxTenge" (tenge_amount (total_tiyn calc)) +:+ elem "periodFrom" (escape (period_from calc))
      +:+ elem "periodTo" (escape (period_to calc))) in
    mret (xml_decl +:+ fno_open "910.00" "27" (bin org) +:+ form_of "form_910_00" "page_910_00_01" sheet
          +:+ summary +:+ "</fno>").

End Fno910.

Module Fno300.

(** [quarter_from_period_from]: src/tax/Fno300.hpp:243-248. *)
Definition quarter_from_period_from (period_from : string) : outcome Z :=
  if (size period_from <? 7)%nat then
    invalid ("Fno300::build_xml: malformed period_from '" +:+ period_from +:+ "'")
  else
    ms ← substr 5 2 period_from;
    month ← stoi ms;
    mret (Z.quot (month - 1) 3 + 1).

(** [build_xml]: src/tax/Fno300.hpp:135-234. *)
Definition build_300_xml (calc : Calculation) (org : OrgInfo) : outcome string :=
  if negb (String.eqb (kind calc) kVat) then invalid (wrong_kind "Fno300" kVat (kind calc))
  else if negb (String.eqb (calc_org calc) (org_id org)) then
    invalid (wrong_org "Fno300" (calc_org calc) (org_id org))
  else
    accrued_tiyn ← value_ll "accrued_tiyn" (result_snapshot calc);
    deductible_tiyn ← value_ll "deductible_tiyn" (result_snapshot calc);
    let balance_tiyn := total_tiyn calc in
    let to_pay_tiyn := if 0 <? balance_tiyn then balance_tiyn else 0 in
    to_refund_tiyn ← (if balance_tiyn <? 0 then i64 (- balance_tiyn) else mret 0);
    quarter ← quarter_from_period_from (period_from calc);
    let sheet := identity_fields org +:+ field "period_year" (tax_period_year org)
      +:+ field "period_quarter" (to_string quarter) +:+ field "currency_code" "KZT"
      +:+ field "dt_regular" "true"
      +:+ field_int "field_300_00_012" (round_half_up_to_tenge accrued_tiyn)
      +:+ field_int "field_300_00_023" (round_half_up_to_tenge deductible_tiyn)
      +:+ field_int "field_300_00_030_01" (round_half_up_to_tenge to_pay_tiyn)
      +:+ field_int "field_300_00_030_02" (round_half_up_to_tenge to_refund_tiyn) in
    let summary := summary_of (elem "accruedTenge" (tenge_amount accrued_tiyn)
      +:+ elem "deductibleTenge" (tenge_amount deductible_tiyn) +:+ elem "balanceTenge" (tenge_amount balance_tiyn)
      +:+ elem "toPayTenge" (tenge_amount to_pay_tiyn) +:+ elem "toRefundTenge" (tenge_amount to_refund_tiyn)
      +:+ elem "periodFrom" (escape (period_from calc)) +:+ elem "periodTo" (escape (period_to calc))) in
    mret (xml_decl +:+ fno_open "300.00" "29" (bin org) +:+ form_of "form_300_00" "page_300_00_01" sheet
          +:+ summary +:+ "</fno>").

End Fno300.

(** ** A reader of XML elements *)

(** What follows a prefix. *)
Fixpoint strip (pre s : string) : option string :=
  match pre, s with
  | EmptyString, _ => Some s
  | String a pre', String b s' => if Ascii.eqb a b then strip pre' s' else None
  | String _ _, EmptyString => None
  end.

Definition entity (w : string) : string :=
  let try (pre : string) (c : ascii) (k : string) :=
    match strip pre w with Some r => String c r | None => k end in
  try "amp;" "&"%char (try "lt;" "<"%char (try "gt;" ">"%char (try "quot;" dq (try "apos;" "'"%char (String "&" w))))).

(** Text with its entity references replaced. *)
Definition unescape (s : string) : string :=
  match pieces "&" s with
  | [] => EmptyString
  | w :: ws => w +:+ foldr String.append EmptyString (map entity ws)
  end.

(** A document as its tags, each with the text that follows it; [None] when a
    [<] is not closed by exactly one [>] or text precedes the first tag. *)
Definition cut (piece : string) : option (string * string) :=
  match pieces ">" piece with [tag; text] => Some (tag, unescape text) | _ => None end.

Definition markup (s : string) : option (list (string * string)) :=
  match pieces "<" s with EmptyString :: ps => mapM cut ps | _ => None end.

Fixpoint before_space (s : string) : string :=
  match s with
  | String c r => if Ascii.eqb c " " then EmptyString else String c (before_space r)
  | EmptyString => EmptyString
  end.

(** Every element is closed, innermost first. *)
Fixpoint nested (opened : list string) (l : list (string * string)) : bool :=
  match l with
  | [] => match opened with [] => true | _ => false end
  | (String c t as tag, _) :: r =>
      if Ascii.eqb c "?" then nested opened r
      else if Ascii.eqb c "/" then
        match opened with o :: os => String.eqb o t && nested os r | [] => false end
      else nested (before_space tag :: opened) r
  | (EmptyString, _) :: _ => false
  end.

(** The fields of the form: name and value. *)
Definition field_tag : string := "field name=".
Fixpoint fields (l : list (string * string)) : list (string * string) :=
  match l with
  | [] => []
  | (tag, text) :: r =>
      match strip field_tag tag with
      | Some q => (str_rev (str_drop 1 (str_rev (str_drop 1 q))), text) :: fields r
      | None => fields r
      end
  end.

(** The text of the first element with a given tag. *)
Definition content (tag : string) (l : list (string * string)) : option string :=
  snd <$> List.find (fun e => String.eqb (fst e) tag) l.

(** *** Reading back what was rendered *)

Definition render (l : list (string * string)) : string :=
  foldr (fun e s => "<" +:+ fst e +:+ ">" +:+ escape (snd e) +:+ s) EmptyString l.

Definition no_angle (c : ascii) : bool := negb (Ascii.eqb c "<") && negb (Ascii.eqb c ">").

Lemma escape_clean s : str_all no_angle (escape s) = true.
Proof.
  induction s as [|c s IH]; [done|]. cbn [escape].
  destruct (Ascii.eqb c "&"); [rewrite str_all_app, IH; reflexivity|].
  destruct (Ascii.eqb c "<") eqn:E1; [rewrite str_all_app, IH; reflexivity|].
  destruct (Ascii.eqb c ">") eqn:E2; [rewrite str_all_app, IH; reflexivity|].
  destruct (Ascii.eqb c dq); [rewrite str_all_app, IH; reflexivity|].
  destruct (Ascii.eqb c "'"); [rewrite str_all_app, IH; reflexivity|].
  cbn [str_all]. unfold no_angle at 1. rewrite E1, E2, IH. reflexivity.
Qed.

Lemma unescape_amp pre r :
  str_all (fun c => negb (Ascii.eqb c "&")) pre = true ->
  unescape (String "&" (pre +:+ escape r)) =
    let '(w, ws) := split_on "&" (escape r) in
    entity (pre +:+ w) +:+ foldr String.append EmptyString (map entity ws).
Proof.
  intros H. unfold unescape, pieces. cbn [split_on]. rewrite split_on_app by done.
  by destruct (split_on "&" (escape r)) as [w ws].
Qed.

Lemma unescape_escape s : unescape (escape s) = s.
Proof.
  induction s as [|c s IH]; [reflexivity|]. cbn [escape].
  assert (Hpre : forall pre c0, str_all (fun c => negb (Ascii.eqb c "&")) pre = true ->
    (forall w, entity (pre +:+ w) = String c0 w) -> unescape (String "&" (pre +:+ escape s)) = String c0 s).
  { intros pre c0 Hp Hc. rewrite unescape_amp by done. unfold unescape in IH.
    unfold pieces in IH. destruct (split_on "&" (escape s)) as [w ws]. rewrite Hc. cbn [String.append].
    by rewrite IH. }
  repeat match goal with |- context [Ascii.eqb c ?d] => destruct (Ascii.eqb_spec c d) as [-> | ?] end;
    [ exact (Hpre "amp;" "&"%char eq_refl (fun w => eq_refl)) | exact (Hpre "lt;" "<"%char eq_refl (fun w => eq_refl))
    | exact (Hpre "gt;" ">"%char eq_refl (fun w => eq_refl)) | exact (Hpre "quot;" dq eq_refl (fun w => eq_refl))
    | exact (Hpre "apos;" "'"%char eq_refl (fun w => eq_refl)) |].
  unfold unescape, pieces in *. cbn [split_on]. destruct (split_on "&" (escape s)) as [w ws].
  destruct (ascii_dec c "&"); [done|]. cbn [String.append]. by rewrite IH.
Qed.

Lemma cut_piece tag text :
  str_all no_angle tag = true -> cut (tag +:+ String ">" (escape text)) = Some (tag, text).
Proof.
  intros H. unfold cut.
  assert (forall w, str_all no_angle w = true -> str_all (fun c => negb (Ascii.eqb c ">")) w = true) as Hw.
  { intros w. apply str_all_impl. by intros c [_ ?]%andb_true_iff. }
  rewrite pieces_cons by auto. rewrite pieces_one by auto using escape_clean. by rewrite unescape_escape.
Qed.

Lemma markup_render l : Forall (fun e => str_all no_angle (fst e) = true) l -> markup (render l) = Some l.
Proof.
  assert (forall w, str_all no_angle w = true -> str_all (fun c => negb (Ascii.eqb c "<")) w = true) as Hw.
  { intros w. apply str_all_impl. by intros c [? _]%andb_true_iff. }
  assert (forall tag text, str_all no_angle tag = true ->
    str_all (fun c => negb (Ascii.eqb c "<")) (tag +:+ String ">" (escape text)) = true) as Hlt.
  { intros tag text Ht. rewrite str_all_app, (Hw _ Ht). cbn [str_all]. by rewrite (Hw _ (escape_clean _)). }
  assert (forall l, Forall (fun e => str_all no_angle (fst e) = true) l -> forall tag text,
    str_all no_angle tag = true ->
    mapM cut (pieces "<" ((tag +:+ String ">" (escape text)) +:+ render l)) = Some ((tag, text) :: l)) as H.
  { induction l0 as [|[tag' text'] l0 IH]; intros Hl tag text Ht.
    - cbn [render foldr]. rewrite app_empty_r, pieces_one; [cbn [mapM]; by rewrite cut_piece | by apply Hlt].
    - apply Forall_cons in Hl as [Ht' Hl]. specialize (IH Hl tag' text' Ht').
      change (render ((tag', text') :: l0)) with (String "<" (tag' +:+ ">" +:+ escape text' +:+ render l0)).
      rewrite pieces_cons by (by apply Hlt).
      cbn [mapM]. rewrite cut_piece by done.
      rewrite !str_app_assoc in IH. cbn [String.append] in IH. cbn [String.append]. by rewrite IH. }
  destruct l as [|[tag text] l]; intros Hl; [reflexivity|]. apply Forall_cons in Hl as [Ht Hl].
  unfold markup. change (render ((tag, text) :: l)) with (EmptyString +:+ String "<" (tag +:+ ">" +:+ escape text +:+ render l)).
  rewrite pieces_cons by done. specialize (H l Hl tag text Ht).
  rewrite !str_app_assoc in H. cbn [String.append] in H. exact H.
Qed.

(** *** The documents as trees *)

Definition field_tags (fs : list (string * string)) : list (string * string) :=
  flat_map (fun f => [(field_tag +:+ quoted (fst f), snd f); ("/field", "")]) fs.

Definition elem_tags (es : list (string * string)) : list (string * string) :=
  flat_map (fun e => [e; ("/" +:+ fst e, "")]) es.

(** The document of a form: its fields and the elements of its summary. *)
Definition document (form_code form_version bin form sheet : string) (fs es : list (string * string))
    : list (string * string) :=
  ([("?xml version=" +:+ quoted "1.0" +:+ " encoding=" +:+ quoted "UTF-8" +:+ "?", "");
    ("fno code=" +:+ quoted form_code +:+ " version=" +:+ quoted form_version +:+ " formatVersion=" +:+ quoted "1" +:+
     " schemaValidated=" +:+ quoted "false" +:+ " bin=" +:+ quoted (escape bin), "");
    ("form name=" +:+ quoted form, ""); ("sheetGroup", ""); ("sheet name=" +:+ quoted sheet, "")]
   ++ field_tags fs
   ++ [("/sheet", ""); ("/sheetGroup", ""); ("/form", "");
       ("calcSummary xmlns=" +:+ quoted "urn:cyber-accountant:fno-summary", "")]
   ++ elem_tags es
   ++ [("/calcSummary", ""); ("/fno", "")])%list.

Definition cat : list string -> string := foldr String.append EmptyString.

Lemma render_app l k : render (l ++ k) = render l +:+ render k.
Proof.
  induction l as [|e l IH]; [done|].
  change (render ((e :: l) ++ k)) with ("<" +:+ fst e +:+ ">" +:+ escape (snd e) +:+ render (l ++ k)).
  change (render (e :: l)) with ("<" +:+ fst e +:+ ">" +:+ escape (snd e) +:+ render l).
  rewrite IH, !str_app_assoc. done.
Qed.

Lemma render_fields fs : render (field_tags fs) = cat (map (fun f => field (fst f) (snd f)) fs).
Proof.
  induction fs as [|f fs IH]; [done|]. unfold field_tags in *. cbn [flat_map map cat foldr].
  by rewrite render_app, IH.
Qed.

Lemma render_elems es : render (elem_tags es) = cat (map (fun e => elem (fst e) (escape (snd e))) es).
Proof.
  induction es as [|e es IH]; [done|]. unfold elem_tags in *. cbn [flat_map map cat foldr].
  by rewrite render_app, IH.
Qed.

Lemma render_document form_code form_version bin form sheet fs es :
  render (document form_code form_version bin form sheet fs es)
  = xml_decl +:+ fno_open form_code form_version bin
    +:+ form_of form sheet (cat (map (fun f => field (fst f) (snd f)) fs))
    +:+ summary_of (cat (map (fun e => elem (fst e) (escape (snd e))) es)) +:+ "</fno>".
Proof.
  unfold document. rewrite !render_app, render_fields, render_elems.
  unfold xml_decl, fno_open, form_of, summary_of. cbn [render foldr fst snd escape].
  rewrite !str_app_assoc. cbn [String.append]. reflexivity.
Qed.

(** ** What the forms say *)

Definition plain (c : ascii) : bool :=
  negb (Ascii.eqb c "&" || Ascii.eqb c "<" || Ascii.eqb c ">" || Ascii.eqb c dq || Ascii.eqb c "'").

Lemma escape_plain s : str_all plain s = true -> escape s = s.
Proof.
  induction s as [|c s IH]; [done|]. cbn [str_all escape]. unfold plain at 1.
  destruct (Ascii.eqb c "&"), (Ascii.eqb c "<"), (Ascii.eqb c ">"), (Ascii.eqb c dq), (Ascii.eqb c "'");
    cbn; try discriminate. intros H. by rewrite IH.
Qed.

Lemma digit_plain c : is_digit c = true -> plain c = true.
Proof.
  intros H. unfold plain. rewrite !digit_not by (done || reflexivity). reflexivity.
Qed.

Lemma escape_to_string z : escape (to_string z) = to_string z.
Proof.
  apply escape_plain. unfold to_string.
  assert (H : forall n, str_all plain (dec n) = true).
  { intros n. eapply str_all_impl; [exact digit_plain | apply dec_all]. }
  destruct (z <? 0); [cbn [str_all]; by rewrite H | apply H].
Qed.

(** [r] is the whole number of tenge nearest to [t] tiyn, ties away from zero. *)
Definition nearest_tenge (r t : Z) : Prop :=
  2 * Z.abs (100 * r - t) <= 100 /\ (2 * Z.abs (100 * r - t) = 100 -> Z.abs t < Z.abs (100 * r)).

Lemma round_nearest t : nearest_tenge (round_half_up_to_tenge t) t.
Proof.
  unfold nearest_tenge, round_half_up_to_tenge.
  pose proof (Z.quot_rem' t 100) as E.
  destruct (Z.le_gt_cases 0 t) as [Hs|Hs];
    [pose proof (Z.rem_bound_pos t 100 Hs) as Hr; pose proof (Z.quot_pos t 100 Hs) as Hq
    |pose proof (fun _ : 0 < 100 => Z.rem_bound_pos_neg t 100 ltac:(lia) ltac:(lia)) as Hr; pose proof (Z.quot_pos (- t) 100 ltac:(lia)) as Hq;
     rewrite Z.quot_opp_l in Hq by lia];
    generalize dependent (Z.quot t 100); generalize dependent (Z.rem t 100); intros r Hr q E Hq;
    specialize (Hr ltac:(lia)); specialize (Hq ltac:(lia));
    destruct (Z.leb_spec 50 r), (Z.leb_spec r (-50)); lia.
Qed.

(** The XML of a rendered document reads back as its fields and elements. *)
Lemma document_reads form_code form_version bin form sheet fs es :
  Forall (fun e => str_all no_angle (fst e) = true)
    (document form_code form_version EmptyString form sheet fs es) ->
  markup (render (document form_code form_version bin form sheet fs es))
  = Some (document form_code form_version bin form sheet fs es).
Proof.
  intros H. apply markup_render. unfold document in *. cbn [app] in *.
  apply Forall_cons in H as [H1 H]. apply Forall_cons in H as [H2 H].
  apply Forall_cons. split; [exact H1|]. apply Forall_cons. split; [|exact H]. cbn [fst] in *.
  rewrite !str_all_app in *. unfold quoted in *. cbn [str_all] in *. rewrite !str_all_app in *.
  rewrite escape_clean. cbn [escape str_all] in H2. exact H2.
Qed.

(** The 910.00 declaration says what was calculated, for any text in it.  For
    a simplified-declaration calculation of the same organization, [build_xml]
    succeeds; the result is a well-nested XML document whose form fields are the
    organization's identifier (twice), name, period, currency, regular kind and
    the income in whole tenge, and whose summary holds income, rate, tax and
    period; amounts are rounded to the nearest tenge, ties away from zero, and no
    character of a name can add or break markup. *)
Theorem fno910_document calc org income rate :
  kind calc = kSnrSimplified -> calc_org calc = org_id org ->
  value_ll "income_tiyn" (result_snapshot calc) = Ok income ->
  value_ll "rate_bp" (result_snapshot calc) = Ok rate ->
  exists xml l i x, Fno910.build_910_xml calc org = Ok xml /\ markup xml = Some l /\ nested [] l = true /\
    nearest_tenge i income /\ nearest_tenge x (total_tiyn calc) /\
    fields l = [("iin", bin org); ("rnn", bin org); ("payer_name1", name org);
                ("period_year", tax_period_year org); ("period_half_year", tax_period_half org);
                ("currency_code", "KZT"); ("dt_regular", "true"); ("field_910_00_001", to_string i)] /\
    map (fun t => content t l) ["incomeTenge"; "rateBp"; "taxTenge"; "periodFrom"; "periodTo"]
    = map Some [to_string i; to_string rate; to_string x; period_from calc; period_to calc].
Proof.
  intros Hk Ho Hi Hr. unfold Fno910.build_910_xml.
  rewrite (proj2 (String.eqb_eq _ _) Hk), (proj2 (String.eqb_eq _ _) Ho). cbn [negb]. rewrite Hi, Hr.
  pose (i := round_half_up_to_tenge income). pose (x := round_half_up_to_tenge (total_tiyn calc)).
  pose (l := document "910.00" "27" (bin org) "form_910_00" "page_910_00_01"
    [("iin", bin org); ("rnn", bin org); ("payer_name1", name org); ("period_year", tax_period_year org);
     ("period_half_year", tax_period_half org); ("currency_code", "KZT"); ("dt_regular", "true");
     ("field_910_00_001", to_string i)]
    [("incomeTenge", to_string i); ("rateBp", to_string rate); ("taxTenge", to_string x);
     ("periodFrom", period_from calc); ("periodTo", period_to calc)]).
  exists (render l), l, i, x. split; [|split; [apply document_reads; repeat constructor|]].
  2: { split; [reflexivity|]. split; [apply round_nearest|]. split; [apply round_nearest|]. split; reflexivity. }
  unfold l. rewrite render_document. cbn [mbind outcome_bind]. unfold mret, outcome_ret.
  cbn [map fst snd cat foldr]. rewrite !escape_to_string, !app_empty_r.
  unfold identity_fields, field_int, tenge_amount. rewrite !(str_app_assoc (field _ _)). reflexivity.
Qed.

(** The 300.00 declaration says what was calculated.  For a VAT calculation of
    the same organization with a readable quarter and a balance above the least
    [long long], [build_xml] succeeds; the document is well nested and its fields
    are the organization's, the quarter, the accrued and deductible VAT, the amount
    to pay and the amount to refund, of which one is zero and whose difference is
    the balance, each in whole tenge rounded from its own amount. *)
Theorem fno300_document calc org accrued deductible quarter :
  kind calc = kVat -> calc_org calc = org_id org ->
  value_ll "accrued_tiyn" (result_snapshot calc) = Ok accrued ->
  value_ll "deductible_tiyn" (result_snapshot calc) = Ok deductible ->
  Fno300.quarter_from_period_from (period_from calc) = Ok quarter ->
  I64_MIN < total_tiyn calc <= I64_MAX ->
  exists xml l a d pay refund p q r, Fno300.build_300_xml calc org = Ok xml /\
    markup xml = Some l /\ nested [] l = true /\
    pay - refund = total_tiyn calc /\ 0 <= pay /\ 0 <= refund /\ (pay = 0 \/ refund = 0) /\
    nearest_tenge a accrued /\ nearest_tenge d deductible /\ nearest_tenge p pay /\ nearest_tenge q refund /\
    nearest_tenge r (total_tiyn calc) /\
    fields l = [("iin", bin org); ("rnn", bin org); ("payer_name1", name org);
                ("period_year", tax_period_year org); ("period_quarter", to_string quarter);
                ("currency_code", "KZT"); ("dt_regular", "true");
                ("field_300_00_012", to_string a); ("field_300_00_023", to_string d);
                ("field_300_00_030_01", to_string p); ("field_300_00_030_02", to_string q)] /\
    map (fun t => content t l)
      ["accruedTenge"; "deductibleTenge"; "balanceTenge"; "toPayTenge"; "toRefundTenge"; "periodFrom"; "periodTo"]
    = map Some [to_string a; to_string d; to_string r; to_string p; to_string q; period_from calc; period_to calc].
Proof.
  intros Hk Ho Ha Hd Hq Hb. unfold Fno300.build_300_xml.
  rewrite (proj2 (String.eqb_eq _ _) Hk), (proj2 (String.eqb_eq _ _) Ho). cbn [negb]. rewrite Ha, Hd, Hq.
  set (pay := if 0 <? total_tiyn calc then total_tiyn calc else 0).
  pose (refund := if total_tiyn calc <? 0 then - total_tiyn calc else 0).
  assert ((if total_tiyn calc <? 0 then i64 (- total_tiyn calc) else mret 0) = Ok refund) as ->.
  { unfold refund. destruct (Z.ltb_spec (total_tiyn calc) 0); [apply i64_ok; bound64 | reflexivity]. }
  set (a := round_half_up_to_tenge accrued). set (d := round_half_up_to_tenge deductible).
  pose (p := round_half_up_to_tenge pay). pose (q := round_half_up_to_tenge refund).
  pose (r := round_half_up_to_tenge (total_tiyn calc)).
  pose (l := document "300.00" "29" (bin org) "form_300_00" "page_300_00_01"
    [("iin", bin org); ("rnn", bin org); ("payer_name1", name org); ("period_year", tax_period_year org);
     ("period_quarter", to_string quarter); ("currency_code", "KZT"); ("dt_regular", "true");
     ("field_300_00_012", to_string a); ("field_300_00_023", to_string d);
     ("field_300_00_030_01", to_string p); ("field_300_00_030_02", to_string q)]
    [("accruedTenge", to_string a); ("deductibleTenge", to_string d); ("balanceTenge", to_string r);
     ("toPayTenge", to_string p); ("toRefundTenge", to_string q);
     ("periodFrom", period_from calc); ("periodTo", period_to calc)]).
  exists (render l), l, a, d, pay, refund, p, q, r.
  split; [|split; [apply document_reads; repeat constructor|split; [reflexivity|]]].
  - unfold l. rewrite render_document. cbn [mbind outcome_bind]. unfold mret, outcome_ret.
    cbn [map fst snd cat foldr]. rewrite !escape_to_string, !app_empty_r.
    unfold identity_fields, field_int, tenge_amount. rewrite !(str_app_assoc (field _ _)). reflexivity.
  - subst pay refund. do 4 (split; [destruct (Z.ltb_spec 0 (total_tiyn calc)), (Z.ltb_spec (total_tiyn calc) 0); lia|]).
    repeat (split; [apply round_nearest|]). split; reflexivity.
Qed.

(** The refund is negated without a guard: a VAT calculation whose balance is
    the least [long long] makes [build_xml] undefined behaviour, whatever else it
    holds, although every rounding of the document takes care of that value. *)
Theorem fno300_least_balance calc org accrued deductible :
  kind calc = kVat -> calc_org calc = org_id org ->
  value_ll "accrued_tiyn" (result_snapshot calc) = Ok accrued ->
  value_ll "deductible_tiyn" (result_snapshot calc) = Ok deductible ->
  total_tiyn calc = I64_MIN -> Fno300.build_300_xml calc org = Undef.
Proof.
  intros Hk Ho Ha Hd Ht. unfold Fno300.build_300_xml.
  rewrite (proj2 (String.eqb_eq _ _) Hk), (proj2 (String.eqb_eq _ _) Ho). cbn [negb]. by rewrite Ha, Hd, Ht.
Qed.

(** No filing mixes two organizations: a form is produced only for a
    calculation of its own kind and of the organization it is issued for. *)
Theorem fno_one_tenant calc org :
  match Fno910.build_910_xml calc org with
  | Ok _ => kind calc = kSnrSimplified /\ calc_org calc = org_id org | _ => True end /\
  match Fno300.build_300_xml calc org with
  | Ok _ => kind calc = kVat /\ calc_org calc = org_id org | _ => True end.
Proof.
  unfold Fno910.build_910_xml, Fno300.build_300_xml.
  split; destruct (String.eqb_spec (kind calc) kSnrSimplified), (String.eqb_spec (kind calc) kVat),
    (String.eqb_spec (calc_org calc) (org_id org)); cbn [negb]; try done; by case_match.
Qed.

(** ** Witnesses *)

Definition llp : OrgInfo := mkOrgInfo "org" "123456789012" "ТОО <A & B>" "2026" "1".

Definition snr_2026 : Calculation :=
  mkCalc "c" "org" kSnrSimplified "2026-01-01" "2026-06-30" 9 JNull
    (JObject [("income_tiyn", JInt 15050); ("rate_bp", JInt 300); ("tax_tiyn", JInt 452)]) 452.

Definition vat_2026 (balance : Z) : Calculation :=
  mkCalc "c" "org" kVat "2026-04-01" "2026-06-30" 9 JNull
    (JObject [("accrued_tiyn", JInt 1250); ("deductible_tiyn", JInt 4349)]) balance.

Lemma fno910_document_witness :
  exists xml l, Fno910.build_910_xml snr_2026 llp = Ok xml /\ markup xml = Some l /\
    content "periodTo" l = Some "2026-06-30".
Proof.
  destruct (fno910_document snr_2026 llp 15050 300) as (xml & l & i & x & H1 & H2 & _ & _ & _ & _ & H3);
    [reflexivity | reflexivity | reflexivity | reflexivity |].
  exists xml, l. split; [exact H1|]. split; [exact H2|]. by injection H3.
Defined.

Lemma fno300_document_witness :
  exists xml p q, Fno300.build_300_xml (vat_2026 (-3099)) llp = Ok xml /\ p - q = -3099.
Proof.
  destruct (fno300_document (vat_2026 (-3099)) llp 1250 4349 2)
    as (xml & l & a & d & p & q & _ & _ & _ & H1 & _ & _ & H2 & _);
    [reflexivity | reflexivity | reflexivity | reflexivity | reflexivity | cbn [total_tiyn vat_2026]; bound64 |].
  exists xml, p, q. split; [exact H1 | exact H2].
Defined.

Lemma fno300_least_balance_witness : Fno300.build_300_xml (vat_2026 I64_MIN) llp = Undef.
Proof. apply (fno300_least_balance _ _ 1250 4349); reflexivity. Defined.

End Forms.
