(* ===== verification/Jobs.v ===== *)
(** * The job queue

    src/jobs/Job.hpp and src/jobs/Jobs.hpp: jobs kept in Redis as a blob per id,
    live queues per type, processing lists per worker, a dead-letter queue, a
    delayed set for retries, leases, and the listing indexes.  Every Redis command
    is one atomic step, before which other clients may act, and which may be
    refused, executed without its answer arriving, or never sent because the
    process died; a text that is not UTF-8 cannot be written (the JSON library's [dump]
    throws).  Redis keys are grouped by their prefix (a job type named
    [_all] would make the key of its dead-letter list that of the index set, and
    is left out); a blob is the [Job] its JSON text parses to. *)
From Stdlib Require Import ZArith Lia Ascii String.
From S2P Require Import Prelude Json.
Open Scope string_scope.
Open Scope Z_scope.
Set Warnings "-clear-no-such-hyp".

Module Jobs.

(** [Job]: src/jobs/Job.hpp:47-98. *)
Record Job := mkJob {
  id : string; type : string; payload : json; status : string; result : json; error : string;
  worker_id : string; trace_id : string; traceparent : string;
  retry_count : Z; max_retries : Z; created_at : Z; updated_at : Z
}.

(** [to_json]: src/jobs/Job.hpp:64-78. *)
Definition job_json (j : Job) : json :=
  JObject [("created_at", JInt (created_at j)); ("error", JString (error j)); ("id", JString (id j)); ("max_retries", JInt (max_retries j));
           ("payload", payload j); ("result", result j); ("retry_count", JInt (retry_count j)); ("status", JString (status j));
           ("trace_id", JString (trace_id j)); ("traceparent", JString (traceparent j)); ("type", JString (type j));
           ("updated_at", JInt (updated_at j)); ("worker_id", JString (worker_id j))].

(** [dump] of it returns: every text in it is UTF-8. *)
Definition writable (j : Job) : bool := Json.clean (job_json j).

(** The keys of Job.hpp, grouped: [job:], [jobs:queue:], [jobs:processing:],
    [jobs:dlq:], [jobs:dlq:_all], [jobs:delayed], [jobs:leases], [jobs:index]
    (the key "") and [jobs:index:].  A list's head is its left end; a blob has
    the second it expires, if any; sorted sets map a member to its score. *)
Record Redis := mkRedis {
  blobs : gmap string (Job * option Z); queues : gmap string (list string);
  procs : gmap string (list string); dlqs : gmap string (list string); dlq_all : gset string;
  delayed : gmap string Z; leases : gmap string Z; indexes : gmap string (gmap string Z)
}.

Definition lst (m : gmap string (list string)) (k : string) : list string := default [] (m !! k).
Definition set_blobs f (r : Redis) : Redis :=
  mkRedis (f (blobs r)) (queues r) (procs r) (dlqs r) (dlq_all r) (delayed r) (leases r) (indexes r).
Definition set_queue (t : string) f (r : Redis) : Redis :=
  mkRedis (blobs r) (<[t := f (lst (queues r) t)]> (queues r)) (procs r) (dlqs r) (dlq_all r) (delayed r)
    (leases r) (indexes r).
Definition set_proc (w : string) f (r : Redis) : Redis :=
  mkRedis (blobs r) (queues r) (<[w := f (lst (procs r) w)]> (procs r)) (dlqs r) (dlq_all r) (delayed r)
    (leases r) (indexes r).
Definition set_dlq (t : string) f (r : Redis) : Redis :=
  mkRedis (blobs r) (queues r) (procs r) (<[t := f (lst (dlqs r) t)]> (dlqs r)) (dlq_all r) (delayed r)
    (leases r) (indexes r).
Definition set_dlq_all f (r : Redis) : Redis :=
  mkRedis (blobs r) (queues r) (procs r) (dlqs r) (f (dlq_all r)) (delayed r) (leases r) (indexes r).
Definition set_delayed f (r : Redis) : Redis :=
  mkRedis (blobs r) (queues r) (procs r) (dlqs r) (dlq_all r) (f (delayed r)) (leases r) (indexes r).
Definition set_leases f (r : Redis) : Redis :=
  mkRedis (blobs r) (queues r) (procs r) (dlqs r) (dlq_all r) (delayed r) (f (leases r)) (indexes r).
Definition set_index (k : string) f (r : Redis) : Redis :=
  mkRedis (blobs r) (queues r) (procs r) (dlqs r) (dlq_all r) (delayed r) (leases r)
    (<[k := f (default ∅ (indexes r !! k))]> (indexes r)).

(** ** Commands and their fates *)

Inductive fate := Served | Refused | Unanswered | Died.
Record event := mkEvent { others : Redis -> Redis; outcome_of : fate }.

(** The client's view: the store, what happens at each of its commands, the
    supply of UUIDs, the clock in milliseconds. *)
Record JW := mkJW { redis : Redis; events : list event; uuids : nat; now_ms : Z }.

Definition refuse {A} (s : JW) : outcome A * JW := (Throw (Exn redis_error "connection failed"), s).

Definition cmd {A} (f : Redis -> A * Redis) : st JW A := fun s =>
  match events s with
  | [] => let '(a, r) := f (redis s) in (Ok a, mkJW r [] (uuids s) (now_ms s))
  | e :: es =>
      let r0 := others e (redis s) in
      let '(a, r) := f r0 in
      match outcome_of e with
      | Served => (Ok a, mkJW r es (uuids s) (now_ms s))
      | Refused => refuse (mkJW r0 es (uuids s) (now_ms s))
      | Unanswered => refuse (mkJW r es (uuids s) (now_ms s))
      | Died => (Throw (Exn process_death "killed"), mkJW r0 es (uuids s) (now_ms s))
      end
  end.

(** [try { m } catch (...) { h }]: death of the process is not an exception. *)
Definition catch {A} (m h : st JW A) : st JW A := fun s =>
  match m s with
  | (Throw e, s') => if bool_decide (exn_cls e = process_death) then (Throw e, s') else h s'
  | r => r
  end.

Definition best_effort (m : st JW unit) : st JW unit := catch m (mret tt).

Definition write (f : Redis -> Redis) : st JW unit := cmd (fun r => (tt, f r)).

Definition without (x : string) (l : list string) : list string := filter (fun y => y <> x) l.

Definition pop_right (l : list string) : option (string * list string) :=
  match rev l with [] => None | x :: r => Some (x, rev r) end.

Definition redis_get (i : string) : st JW (option Job) := cmd (fun r => (fst <$> blobs r !! i, r)).
(** [to_json().dump()], which throws on text that is not UTF-8; the store keeps the job
    the text parses to. *)
Definition dumped (j : Job) : st JW unit :=
  if writable j then mret tt else throw json_type_error "[json.exception.type_error.316] invalid UTF-8 byte".
Definition redis_set (i : string) (j : Job) : st JW unit := dumped j ;; write (set_blobs <[i := (j, None)]>).
Definition lpush_queue (t i : string) : st JW unit := write (set_queue t (cons i)).
Definition lrem_proc (w i : string) : st JW unit := write (set_proc w (without i)).
Definition zrem_delayed (i : string) : st JW bool :=
  cmd (fun r => (bool_decide (is_Some (delayed r !! i)), set_delayed (delete i) r)).
Definition zrem_lease (i : string) : st JW bool :=
  cmd (fun r => (bool_decide (is_Some (leases r !! i)), set_leases (delete i) r)).

(** ZRANGEBYSCORE set 0 now: members by score, then by name. *)
Definition due (now : Z) (z : gmap string Z) : list string :=
  map fst (stable_sort (fun a b => (a.2 <? b.2) || (a.2 =? b.2) && String.ltb a.1 b.1)
             (List.filter (fun e => (0 <=? e.2) && (e.2 <=? now)) (map_to_list z))).

Definition clock : st JW Z := gets now_ms.
(** [now_epoch]: src/jobs/Job.hpp:148-150. *)
Definition now_epoch : st JW Z := gets (fun s => Z.quot (now_ms s) 1000).

(** ** The queue's configuration *)

(** [JobQueue]: src/jobs/Jobs.hpp:43-62. *)
Record JobQueue := mkQueue {
  initialized : bool; result_ttl : Z; default_max_retries : Z;
  retry_backoff_base_ms : Z; retry_backoff_max_ms : Z; visibility_timeout_ms : Z
}.

(** [set_retry_backoff]: src/jobs/Jobs.hpp:82-85. *)
Definition set_retry_backoff (base_ms max_ms : Z) (q : JobQueue) : JobQueue :=
  mkQueue (initialized q) (result_ttl q) (default_max_retries q) (if base_ms <? 0 then 0 else base_ms)
    (if max_ms <? base_ms then base_ms else max_ms) (visibility_timeout_ms q).

(** [set_visibility_timeout]: src/jobs/Jobs.hpp:91-91. *)
Definition set_visibility_timeout (sec : Z) (q : JobQueue) : outcome JobQueue :=
  ms ← (if sec <=? 0 then mret 0 else mul64 sec 1000);
  mret (mkQueue (initialized q) (result_ttl q) (default_max_retries q) (retry_backoff_base_ms q)
          (retry_backoff_max_ms q) ms).

(** A signed 64-bit value of the low 64 bits. *)
Definition wrap64 (z : Z) : Z := (z + 2 ^ 63) mod 2 ^ 64 - 2 ^ 63.

(** [backoff_delay_ms_]: src/jobs/Jobs.hpp:854-864. *)
Definition backoff_delay_ms (q : JobQueue) (retry_count : Z) : Z :=
  if retry_backoff_base_ms q <=? 0 then 0
  else
    let shift := if 0 <? retry_count then retry_count - 1 else 0 in
    let shift := if 30 <? shift then 30 else shift in
    let delay := wrap64 (Z.shiftl (retry_backoff_base_ms q) shift) in
    if (delay <=? 0) || (retry_backoff_max_ms q <? delay) then retry_backoff_max_ms q else delay.

Definition with_status (s : string) (j : Job) : Job :=
  mkJob (id j) (type j) (payload j) s (result j) (error j) (worker_id j) (trace_id j) (traceparent j)
    (retry_count j) (max_retries j) (created_at j) (updated_at j).
Definition with_error (e : string) (j : Job) : Job :=
  mkJob (id j) (type j) (payload j) (status j) (result j) e (worker_id j) (trace_id j) (traceparent j)
    (retry_count j) (max_retries j) (created_at j) (updated_at j).
Definition with_worker (w : string) (j : Job) : Job :=
  mkJob (id j) (type j) (payload j) (status j) (result j) (error j) w (trace_id j) (traceparent j)
    (retry_count j) (max_retries j) (created_at j) (updated_at j).
Definition with_retries (n : Z) (j : Job) : Job :=
  mkJob (id j) (type j) (payload j) (status j) (result j) (error j) (worker_id j) (trace_id j) (traceparent j)
    n (max_retries j) (created_at j) (updated_at j).
Definition with_result (x : json) (j : Job) : Job :=
  mkJob (id j) (type j) (payload j) (status j) x (error j) (worker_id j) (trace_id j) (traceparent j)
    (retry_count j) (max_retries j) (created_at j) (updated_at j).
Definition touched (now : Z) (j : Job) : Job :=
  mkJob (id j) (type j) (payload j) (status j) (result j) (error j) (worker_id j) (trace_id j) (traceparent j)
    (retry_count j) (max_retries j) (created_at j) now.

(** [generate_uuid] of libuuid: distinct on every call. *)
Class UuidSource := {
  generate_uuid : nat -> string;
  generate_uuid_inj : forall m n, generate_uuid m = generate_uuid n -> m = n;
  generate_uuid_utf8 : forall n, Json.utf8 (generate_uuid n) = true
}.

Definition new_uuid `{UuidSource} : st JW string := fun s =>
  (Ok (generate_uuid (uuids s)), mkJW (redis s) (events s) (S (uuids s)) (now_ms s)).

(** [check_initialized]: src/jobs/Jobs.hpp:834-838. *)
Definition check_initialized (q : JobQueue) : st JW unit :=
  if initialized q then mret tt else throw std_runtime_error "JobQueue not initialized".

Definition not_found {A} (i : string) : st JW A := throw std_runtime_error ("Job not found: " +:+ i).

Section Queue.
Context `{UuidSource} (q : JobQueue).

(** ** Submitting and picking *)

(** [submit]: src/jobs/Jobs.hpp:148-184. *)
Definition submit (ty : string) (body : json) (retries : Z) (current_traceparent : string) : st JW Job :=
  check_initialized q ;;
  i ← new_uuid;
  now ← now_epoch;
  let job := mkJob i ty body "pending" JNull "" "" "" current_traceparent 0
               (if 0 <=? retries then retries else default_max_retries q) now now in
  redis_set i job ;;
  lpush_queue ty i ;;
  best_effort (write (set_index "" <[i := now]>) ;; write (set_index ty <[i := now]>)) ;;
  mret job.

(** [clear_lease_]: src/jobs/Jobs.hpp:843-849. *)
Definition clear_lease (i : string) : st JW unit :=
  if visibility_timeout_ms q <=? 0 then mret tt else best_effort (zrem_lease i ;; mret tt).

(** BRPOPLPUSH; the wait for an element is in the events of other clients. *)
Definition brpoplpush (t w : string) : st JW (option string) :=
  cmd (fun r => match pop_right (lst (queues r) t) with
                | None => (None, r)
                | Some (x, rest) => (Some x, set_proc w (cons x) (set_queue t (fun _ => rest) r))
                end).

(** BRPOP over several keys: the first that is not empty. *)
Definition brpop (ts : list string) : st JW (option (string * string)) :=
  cmd (fun r => match List.find (fun t => match lst (queues r) t with [] => false | _ => true end) ts with
                | None => (None, r)
                | Some t => match pop_right (lst (queues r) t) with
                            | None => (None, r)
                            | Some (x, rest) => (Some (t, x), set_queue t (fun _ => rest) r)
                            end
                end).

(** [pick]: src/jobs/Jobs.hpp:248-281.  The job whose id was popped becomes the worker's. *)
Definition claim (worker i : string) : st JW (option Job) :=
  data ← redis_get i;
  match data with
  | None => best_effort (lrem_proc worker i) ;; mret None
  | Some j =>
      now ← now_epoch;
      let job := touched now (with_worker worker (with_status "processing" j)) in
      redis_set (id job) job ;;
      (if 0 <? visibility_timeout_ms q then
         ms ← clock; best_effort (write (set_leases <[id job := ms + visibility_timeout_ms q]>))
       else mret tt) ;;
      mret (Some job)
  end.

(** [pick]: src/jobs/Jobs.hpp:215-221.  One type: the id moves in one command. *)
Definition pick_one (t worker : string) : st JW (option Job) :=
  moved ← brpoplpush t worker;
  match moved with None => mret None | Some i => claim worker i end.

(** [pick]: src/jobs/Jobs.hpp:222-246.  Several types: pop, record, or put back. *)
Definition pick_many (types : list string) (worker : string) : st JW (option Job) :=
  popped ← brpop types;
  match popped with
  | None => mret None
  | Some (t, i) =>
      recorded ← catch (write (set_proc worker (fun l => (l ++ [i])%list)) ;; mret true)
                       (best_effort (write (set_queue t (fun l => (l ++ [i])%list))) ;; mret false);
      match recorded with true => claim worker i | false => mret None end
  end.

(** [pick]: src/jobs/Jobs.hpp:202-282. *)
Definition pick (types : list string) (worker : string) : st JW (option Job) :=
  check_initialized q ;;
  match types with [t] => pick_one t worker | _ => pick_many types worker end.

(** ** The end of an attempt *)

(** Take the id off its worker's processing list. *)
Definition release (j : Job) (i : string) : st JW unit :=
  if String.eqb (worker_id j) "" then mret tt else best_effort (lrem_proc (worker_id j) i).

(** [complete]: src/jobs/Jobs.hpp:287-311. *)
Definition complete (i : string) (res : json) : st JW unit :=
  check_initialized q ;;
  data ← redis_get i;
  match data with
  | None => not_found i
  | Some j =>
      now ← now_epoch;
      let job := touched now (with_result res (with_status "completed" j)) in
      dumped job ;;
      write (set_blobs <[i := (job, Some (now + result_ttl q))]>) ;;
      release job i ;;
      clear_lease i
  end.

(** [fail]: src/jobs/Jobs.hpp:316-366. *)
Definition fail (i err : string) : st JW unit :=
  check_initialized q ;;
  data ← redis_get i;
  match data with
  | None => not_found i
  | Some j =>
      retries ← lift (i32 (retry_count j + 1));
      now ← now_epoch;
      let job := touched now (with_retries retries j) in
      release job i ;;
      clear_lease i ;;
      if retry_count job <? max_retries job then
        let job := with_error err (with_status "pending" job) in
        redis_set i job ;;
        let delay_ms := backoff_delay_ms q (retry_count job) in
        if 0 <? delay_ms then
          ms ← clock; write (set_delayed <[i := ms + delay_ms]>)
        else lpush_queue (type job) i
      else
        let job := with_error err (with_status "dead" job) in
        redis_set i job ;;
        write (set_dlq (type job) (cons i)) ;;
        write (set_dlq_all (union {[i]}))
  end.

(** [dead_letter]: src/jobs/Jobs.hpp:374-399. *)
Definition dead_letter (i err : string) : st JW unit :=
  check_initialized q ;;
  data ← redis_get i;
  match data with
  | None => not_found i
  | Some j =>
      now ← now_epoch;
      let job := touched now j in
      release job i ;;
      clear_lease i ;;
      let job := with_error err (with_status "dead" job) in
      write (set_dlq (type job) (cons i)) ;;
      write (set_dlq_all (union {[i]})) ;;
      redis_set i job
  end.

(** [requeue_from_dlq]: src/jobs/Jobs.hpp:426-453. *)
Definition requeue_from_dlq (i : string) : st JW bool :=
  check_initialized q ;;
  data ← redis_get i;
  match data with
  | None => mret false
  | Some j =>
      if negb (String.eqb (status j) "dead") then mret false
      else
        write (set_dlq (type j) (without i)) ;;
        write (set_dlq_all (fun s => s ∖ {[i]})) ;;
        now ← now_epoch;
        redis_set i (touched now (with_error "" (with_retries 0 (with_status "pending" j)))) ;;
        lpush_queue (type j) i ;;
        mret true
  end.

(** [cancel]: src/jobs/Jobs.hpp:679-715. *)
Definition cancel (i : string) : st JW bool :=
  check_initialized q ;;
  data ← redis_get i;
  match data with
  | None => mret false
  | Some j =>
      if String.eqb (status j) "completed" || String.eqb (status j) "dead" || String.eqb (status j) "failed"
      then mret false
      else
        now ← now_epoch;
        let job := touched now (with_error "cancelled" (with_status "failed" j)) in
        dumped job ;;
        write (set_blobs <[i := (job, Some (now + result_ttl q))]>) ;;
        write (set_queue (type job) (without i)) ;;
        (if String.eqb (status j) "processing" && negb (String.eqb (worker_id job) "")
         then lrem_proc (worker_id job) i else mret tt) ;;
        clear_lease i ;;
        mret true
  end.

(** ** The periodic passes *)

(** [recover_processing]: src/jobs/Jobs.hpp:557-578.  One pass over the snapshot of the list. *)
Fixpoint recover_loop (ids : list string) (recovered : Z) : st JW Z :=
  match ids with
  | [] => mret recovered
  | i :: rest =>
      n ← catch
        (data ← redis_get i;
         match data with
         | None => mret recovered
         | Some j =>
             now ← now_epoch;
             redis_set i (touched now (with_worker "" (with_status "pending" j))) ;;
             lpush_queue (type j) i ;;
             mret (recovered + 1)
         end)
        (mret recovered);
      recover_loop rest n
  end.

(** [recover_processing]: src/jobs/Jobs.hpp:540-586. *)
Definition recover_processing (worker : string) : st JW Z :=
  check_initialized q ;;
  if String.eqb worker "" then mret 0
  else
    ids ← catch (l ← cmd (fun r => (lst (procs r) worker, r)); mret (Some l)) (mret None);
    match ids with
    | None => mret 0
    | Some ids =>
        n ← recover_loop ids 0;
        best_effort (write (set_proc worker (fun _ => []))) ;;
        mret n
    end.

(** [promote_due_jobs]: src/jobs/Jobs.hpp:609-622. *)
Fixpoint promote_loop (ids : list string) (moved : Z) : st JW Z :=
  match ids with
  | [] => mret moved
  | i :: rest =>
      n ← catch
        (removed ← zrem_delayed i;
         match removed with
         | false => mret moved
         | true =>
             data ← redis_get i;
             match data with
             | None => mret moved
             | Some j => lpush_queue (type j) i ;; mret (moved + 1)
             end
         end)
        (mret moved);
      promote_loop rest n
  end.

(** [promote_due_jobs]: src/jobs/Jobs.hpp:594-624. *)
Definition promote_due_jobs : st JW Z :=
  if negb (initialized q) || (retry_backoff_base_ms q <=? 0) then mret 0
  else
    now ← clock;
    ids ← catch (l ← cmd (fun r => (due now (delayed r), r)); mret (Some l)) (mret None);
    match ids with None => mret 0 | Some ids => promote_loop ids 0 end.

(** [reap_expired_leases]: src/jobs/Jobs.hpp:649-658. *)
Fixpoint reap_loop (ids : list string) (reaped : Z) : st JW Z :=
  match ids with
  | [] => mret reaped
  | i :: rest =>
      n ← catch
        (removed ← zrem_lease i;
         match removed with
         | false => mret reaped
         | true => fail i "visibility timeout exceeded" ;; mret (reaped + 1)
         end)
        (mret reaped);
      reap_loop rest n
  end.

(** [reap_expired_leases]: src/jobs/Jobs.hpp:635-660. *)
Definition reap_expired_leases : st JW Z :=
  if negb (initialized q) || (visibility_timeout_ms q <=? 0) then mret 0
  else
    now ← clock;
    ids ← catch (l ← cmd (fun r => (due now (leases r), r)); mret (Some l)) (mret None);
    match ids with None => mret 0 | Some ids => reap_loop ids 0 end.

(** ** Inspection *)

(** [get_status]: src/jobs/Jobs.hpp:665-674. *)
Definition get_status (i : string) : st JW (option Job) := check_initialized q ;; redis_get i.

(** [set_trace_id]: src/jobs/Jobs.hpp:787-799. *)
Definition set_trace_id (i trace : string) : st JW unit :=
  check_initialized q ;;
  data ← redis_get i;
  match data with
  | None => mret tt
  | Some j =>
      best_effort
        (now ← now_epoch;
         redis_set i (touched now (mkJob (id j) (type j) (payload j) (status j) (result j) (error j)
                        (worker_id j) trace (traceparent j) (retry_count j) (max_retries j) (created_at j)
                        (updated_at j))))
  end.

(** ** Where a job is *)

(** Everything the store says about one id. *)
Definition same_slice (i : string) (r r' : Redis) : Prop :=
  blobs r' !! i = blobs r !! i /\
  (forall t, i ∈ lst (queues r') t <-> i ∈ lst (queues r) t) /\
  (forall w, i ∈ lst (procs r') w <-> i ∈ lst (procs r) w) /\
  (forall t, i ∈ lst (dlqs r') t <-> i ∈ lst (dlqs r) t) /\
  (i ∈ dlq_all r' <-> i ∈ dlq_all r) /\ delayed r' !! i = delayed r !! i /\ leases r' !! i = leases r !! i.

#[export] Instance same_slice_preorder i : PreOrder (same_slice i).
Proof.
  split; [by repeat split|]. intros r1 r2 r3 (A1 & A2 & A3 & A4 & A5 & A6 & A7) (B1 & B2 & B3 & B4 & B5 & B6 & B7).
  split; [congruence|]. split; [intros; by rewrite B2|]. split; [intros; by rewrite B3|].
  split; [intros; by rewrite B4|]. split; [by rewrite B5|]. split; congruence.
Qed.

(** The one place an id can be at. *)
Inductive spot :=
| Nowhere
| OnQueue (t : string)
| Parked
| OnProc (w : string)
| OnDlq (t : string).

(** [i] is at the spot and nowhere else; only a processing job may have a lease. *)
Record at_spot (i : string) (s : spot) (r : Redis) : Prop := {
  at_queue : forall t, i ∈ lst (queues r) t <-> s = OnQueue t;
  at_proc : forall w, i ∈ lst (procs r) w <-> s = OnProc w;
  at_dlq : forall t, i ∈ lst (dlqs r) t <-> s = OnDlq t;
  at_all : i ∈ dlq_all r <-> exists t, s = OnDlq t;
  at_delayed : is_Some (delayed r !! i) <-> s = Parked;
  at_lease : is_Some (leases r !! i) -> exists w, s = OnProc w
}.

(** What the status says about the spot. *)
Definition belongs (j : Job) (s : spot) : Prop :=
  match s with
  | Nowhere => status j = "completed" \/ status j = "failed"
  | OnQueue t => status j = "pending" /\ t = type j
  | Parked => status j = "pending"
  | OnProc w => status j = "processing" /\ w = worker_id j /\ w <> ""
  | OnDlq t => status j = "dead" /\ t = type j
  end.

Definition open_status (j : Job) : Prop := status j = "pending" \/ status j = "processing".

(** The bookkeeping of one id: its job is where its status says, keeps its id, has
    an attempt left while it is open, expires only when it is over, and can be written
    again. *)
Record kept (i : string) (j : Job) (ttl : option Z) (s : spot) : Prop := {
  k_id : id j = i;
  k_belongs : belongs j s;
  k_ttl : is_Some ttl -> s = Nowhere;
  k_budget : open_status j -> 0 <= retry_count j < Z.max 1 (max_retries j);
  k_max : max_retries j <= I32_MAX;
  k_writable : writable j = true
}.

#[global] Arguments writable : simpl never.

(** What can be written, text by text. *)
Lemma writable_parts j : writable j =
  Json.utf8 (error j) && (Json.utf8 (id j) && (Json.clean (payload j) && (Json.clean (result j) && (Json.utf8 (status j) &&
    (Json.utf8 (trace_id j) && (Json.utf8 (traceparent j) && (Json.utf8 (type j) && Json.utf8 (worker_id j)))))))).
Proof.
  unfold writable, job_json. cbn [Json.clean forallb fst snd].
  repeat match goal with |- context [Json.utf8 (String ?c ?r)] => change (Json.utf8 (String c r)) with true end.
  cbn [andb]. by rewrite !andb_true_r.
Qed.

(** [wr]: what is written of a writable job can be. *)
Ltac wr :=
  lazymatch goal with
  | H : writable ?j = true |- writable _ = true =>
      rewrite writable_parts in H |- *;
      cbn [error id payload result status trace_id traceparent type worker_id touched with_status with_error with_worker
           with_retries with_result];
      rewrite !andb_true_iff in H |- *; destruct H as (? & ? & ? & ? & ? & ? & ? & ? & ?);
      repeat split; first [assumption | reflexivity]
  end.


Definition job_ok (r : Redis) (i : string) : Prop :=
  exists s, at_spot i s r /\
    match blobs r !! i with None => s = Nowhere | Some (j, ttl) => kept i j ttl s end.

(** The queue's invariant; [n] UUIDs have been drawn. *)
Record jobs_inv (r : Redis) (n : nat) : Prop := {
  inv_job : forall i, job_ok r i;
  inv_nodup : forall t, NoDup (lst (queues r) t);
  inv_procs : forall w, NoDup (lst (procs r) w);
  inv_new : forall k, (n <= k)%nat -> blobs r !! generate_uuid k = None;
  inv_leases : visibility_timeout_ms q <= 0 -> leases r = ∅
}.

(** *** Steps that concern one id *)

Lemma lst_insert m k l k' : lst (<[k := l]> m) k' = if decide (k = k') then l else lst m k'.
Proof.
  unfold lst. destruct (decide (k = k')) as [->|]; [by rewrite lookup_insert_eq | by rewrite lookup_insert_ne].
Qed.

Lemma in_without x y l : x ∈ without y l <-> x ∈ l /\ x <> y.
Proof. unfold without. rewrite list_elem_of_filter. tauto. Qed.

Lemma job_ok_slice i r r' : same_slice i r r' -> job_ok r i -> job_ok r' i.
Proof.
  intros (A1 & A2 & A3 & A4 & A5 & A6 & A7) (s & [C1 C2 C3 C4 C5 C6] & Hk). exists s. rewrite A1. split; [|done].
  split; intros.
  - by rewrite A2.
  - by rewrite A3.
  - by rewrite A4.
  - by rewrite A5.
  - by rewrite A6.
  - apply C6. by rewrite <- A7.
Qed.

Lemma slice_blob i x v r : x <> i -> same_slice x r (set_blobs <[i := v]> r).
Proof. intros. repeat split; cbn; auto. by rewrite lookup_insert_ne. Qed.

Lemma slice_queue x t f r : (forall l, x ∈ f l <-> x ∈ l) -> same_slice x r (set_queue t f r).
Proof. intros H'. repeat split; cbn; auto; rewrite lst_insert; case_decide; subst; rewrite ?H'; auto. Qed.

Lemma slice_proc x w f r : (forall l, x ∈ f l <-> x ∈ l) -> same_slice x r (set_proc w f r).
Proof. intros H'. repeat split; cbn; auto; rewrite lst_insert; case_decide; subst; rewrite ?H'; auto. Qed.

Lemma slice_dlq x t f r : (forall l, x ∈ f l <-> x ∈ l) -> same_slice x r (set_dlq t f r).
Proof. intros H'. repeat split; cbn; auto; rewrite lst_insert; case_decide; subst; rewrite ?H'; auto. Qed.

Lemma slice_all x f r : (forall l, x ∈ f l <-> x ∈ l) -> same_slice x r (set_dlq_all f r).
Proof. intros H'. repeat split; cbn; auto; by rewrite H'. Qed.

Lemma slice_delayed x f r : (forall m, f m !! x = m !! x) -> same_slice x r (set_delayed f r).
Proof. intros H'. repeat split; cbn; auto. Qed.

Lemma slice_leases x f r : (forall m, f m !! x = m !! x) -> same_slice x r (set_leases f r).
Proof. intros H'. repeat split; cbn; auto. Qed.

Lemma slice_index x k f r : same_slice x r (set_index k f r).
Proof. by repeat split. Qed.

Lemma cons_other (x i : string) l : x <> i -> x ∈ i :: l <-> x ∈ l.
Proof. rewrite elem_of_cons. tauto. Qed.
Lemma without_other (x i : string) l : x <> i -> x ∈ without i l <-> x ∈ l.
Proof. rewrite in_without. tauto. Qed.
Lemma snoc_other (x i : string) l : x <> i -> x ∈ (l ++ [i])%list <-> x ∈ l.
Proof. rewrite elem_of_app, list_elem_of_singleton. tauto. Qed.

(** [slices]: one id's steps leave every other id alone. *)
Ltac slices :=
  lazymatch goal with
  | |- same_slice _ ?r ?r => reflexivity
  | |- same_slice _ _ (if _ then _ else _) => case_match; slices
  | |- same_slice _ _ (set_blobs _ ?r) => transitivity r; [slices | by apply slice_blob]
  | |- same_slice _ _ (set_queue _ _ ?r) =>
      transitivity r; [slices | apply slice_queue; intros; by first [apply cons_other | apply without_other | apply snoc_other]]
  | |- same_slice _ _ (set_proc _ _ ?r) =>
      transitivity r; [slices | apply slice_proc; intros; by first [apply cons_other | apply without_other | apply snoc_other]]
  | |- same_slice _ _ (set_dlq _ _ ?r) =>
      transitivity r; [slices | apply slice_dlq; intros; by first [apply cons_other | apply without_other]]
  | |- same_slice _ _ (set_dlq_all _ ?r) => transitivity r; [slices | apply slice_all; set_solver]
  | |- same_slice _ _ (set_delayed _ ?r) =>
      transitivity r; [slices | apply slice_delayed; intros; by first [apply lookup_insert_ne | apply lookup_delete_ne]]
  | |- same_slice _ _ (set_leases _ ?r) =>
      transitivity r; [slices | apply slice_leases; intros; by first [apply lookup_insert_ne | apply lookup_delete_ne]]
  | |- same_slice _ _ (set_index _ _ ?r) => transitivity r; [slices | apply slice_index]
  end.

Definition lists_nodup (r : Redis) : Prop :=
  (forall t, NoDup (lst (queues r) t)) /\ (forall w, NoDup (lst (procs r) w)).

(** A step that concerns one id, old or the next new one. *)
Lemma inv_step i r r' n n' :
  jobs_inv r n -> (n <= n')%nat -> (forall k, (n' <= k)%nat -> generate_uuid k <> i) ->
  (forall x, x <> i -> same_slice x r r') -> job_ok r' i -> lists_nodup r' ->
  (visibility_timeout_ms q <= 0 -> leases r' = leases r) -> jobs_inv r' n'.
Proof.
  intros [I1 I2 I3 I4 I5] Hle Hk Hs Hj [N1 N2] Hl. split; [|done|done| |intros; rewrite Hl; auto].
  - intros x. destruct (decide (x = i)) as [->|Hx]; [done|]. by apply (job_ok_slice x r r'); [apply Hs|].
  - intros k Hn. destruct (Hs (generate_uuid k) (Hk k Hn)) as [-> _]. apply I4. lia.
Qed.

Lemma inv_not_new r n i v : jobs_inv r n -> blobs r !! i = Some v -> forall k, (n <= k)%nat -> generate_uuid k <> i.
Proof. intros Hi Hv k Hk <-. rewrite (inv_new _ _ Hi k Hk) in Hv. done. Qed.

Lemma nodup_lists r n : jobs_inv r n -> lists_nodup r.
Proof. intros Hi. split; [apply (inv_nodup _ _ Hi) | apply (inv_procs _ _ Hi)]. Qed.

(** [one i]: discharge the side conditions of a step on a known id. *)
Ltac one Hi Hb :=
  eapply inv_step; [exact Hi | reflexivity | exact (inv_not_new _ _ _ _ Hi Hb) | | | | ].

(** A client alone on a healthy connection. *)
Definition calm (r : Redis) (u : nat) (m : Z) : JW := mkJW r [] u m.

(** The store after the id left its worker's list and its lease was dropped. *)
Definition released (j : Job) (i : string) (r : Redis) : Redis :=
  let r1 := if String.eqb (worker_id j) "" then r else set_proc (worker_id j) (without i) r in
  if visibility_timeout_ms q <=? 0 then r1 else set_leases (delete i) r1.

Lemma slice_released j i r x : x <> i -> same_slice x r (released j i r).
Proof. intros Hx. unfold released. cbn zeta. slices. Qed.

Definition failed_job (j : Job) (err : string) (now : Z) : Job :=
  let j := touched now (with_retries (retry_count j + 1) j) in
  with_error err (with_status (if retry_count j <? max_retries j then "pending" else "dead") j).

Lemma failed_writable j err now : writable j = true -> Json.utf8 err = true -> writable (failed_job j err now) = true.
Proof. intros Hj He. unfold failed_job. cbn zeta. case_match; wr. Qed.

(** What [fail] makes of the store. *)
Definition failed (j : Job) (i err : string) (m : Z) (r : Redis) : Redis :=
  let j' := failed_job j err (Z.quot m 1000) in
  let r := set_blobs <[i := (j', None)]> (released j i r) in
  if retry_count j + 1 <? max_retries j then
    let d := backoff_delay_ms q (retry_count j + 1) in
    if 0 <? d then set_delayed <[i := m + d]> r else set_queue (type j) (cons i) r
  else set_dlq_all (union {[i]}) (set_dlq (type j) (cons i) r).

Ltac unroll :=
  cbv [mbind st_bind mret st_ret check_initialized redis_get redis_set dumped release clear_lease best_effort catch
       lpush_queue lrem_proc zrem_lease zrem_delayed write cmd events redis uuids now_ms lift throw gets
       modify calm clock now_epoch not_found].

Lemma fail_run i err j ttl r u m :
  initialized q = true -> blobs r !! i = Some (j, ttl) -> in_i32 (retry_count j + 1) = true ->
  writable (failed_job j err (Z.quot m 1000)) = true ->
  fail i err (calm r u m) = (Ok tt, calm (failed j i err m r) u m).
Proof.
  intros Hq Hb Hr. unfold fail, failed, failed_job, released. unroll. rewrite Hq, Hb.
  cbv [fmap option_fmap option_map fst i32]. rewrite Hr.
  cbn [retry_count max_retries touched with_retries worker_id type with_error with_status].
  destruct (retry_count j + 1 <? max_retries j); intros Hw;
    destruct (String.eqb (worker_id j) ""), (visibility_timeout_ms q <=? 0), (0 <? backoff_delay_ms q (retry_count j + 1));
    cbn [fst snd] in *; by rewrite Hw.
Qed.

(** *** Moving one id *)

Lemma spot_blobs i s f r : at_spot i s r -> at_spot i s (set_blobs f r).
Proof. intros [C1 C2 C3 C4 C5 C6]. by split. Qed.

Lemma spot_to_queue i t f r :
  (forall l, i ∈ f l) -> at_spot i Nowhere r -> at_spot i (OnQueue t) (set_queue t f r).
Proof.
  intros Hf [C1 C2 C3 C4 C5 C6]. split; cbn; intros.
  - rewrite lst_insert. case_decide; subst; [naive_solver|]. rewrite C1. naive_solver.
  - rewrite C2. naive_solver.
  - rewrite C3. naive_solver.
  - rewrite C4. naive_solver.
  - rewrite C5. naive_solver.
  - naive_solver.
Qed.

Lemma spot_to_dlq i t r :
  at_spot i Nowhere r -> at_spot i (OnDlq t) (set_dlq_all (union {[i]}) (set_dlq t (cons i) r)).
Proof.
  intros [C1 C2 C3 C4 C5 C6]. split; cbn; intros.
  - rewrite C1. naive_solver.
  - rewrite C2. naive_solver.
  - rewrite lst_insert. case_decide; subst; [rewrite elem_of_cons; naive_solver|]. rewrite C3. naive_solver.
  - rewrite elem_of_union, elem_of_singleton. naive_solver.
  - rewrite C5. naive_solver.
  - naive_solver.
Qed.

Lemma spot_to_delayed i z r : at_spot i Nowhere r -> at_spot i Parked (set_delayed <[i := z]> r).
Proof.
  intros [C1 C2 C3 C4 C5 C6]. split; cbn; intros.
  - rewrite C1. naive_solver.
  - rewrite C2. naive_solver.
  - rewrite C3. naive_solver.
  - rewrite C4. naive_solver.
  - rewrite lookup_insert_eq. naive_solver.
  - naive_solver.
Qed.

Lemma spot_to_proc i w f r :
  (forall l, i ∈ f l) -> at_spot i Nowhere r -> at_spot i (OnProc w) (set_proc w f r).
Proof.
  intros Hf [C1 C2 C3 C4 C5 C6]. split; cbn; intros.
  - rewrite C1. naive_solver.
  - rewrite lst_insert. case_decide; subst; [naive_solver|]. rewrite C2. naive_solver.
  - rewrite C3. naive_solver.
  - rewrite C4. naive_solver.
  - rewrite C5. naive_solver.
  - naive_solver.
Qed.

Lemma spot_from_queue i t f r :
  (forall l, l = lst (queues r) t -> i ∉ f l) -> at_spot i (OnQueue t) r -> at_spot i Nowhere (set_queue t f r).
Proof.
  intros Hf [C1 C2 C3 C4 C5 C6]. split; cbn; intros.
  - rewrite lst_insert. case_decide; subst; [naive_solver|]. rewrite C1. naive_solver.
  - rewrite C2. naive_solver.
  - rewrite C3. naive_solver.
  - rewrite C4. naive_solver.
  - rewrite C5. naive_solver.
  - naive_solver.
Qed.

Lemma spot_from_delayed i r : at_spot i Parked r -> at_spot i Nowhere (set_delayed (delete i) r).
Proof.
  intros [C1 C2 C3 C4 C5 C6]. split; cbn; intros.
  - rewrite C1. naive_solver.
  - rewrite C2. naive_solver.
  - rewrite C3. naive_solver.
  - rewrite C4. naive_solver.
  - rewrite lookup_delete_eq. naive_solver.
  - naive_solver.
Qed.

Lemma spot_from_dlq i t r :
  at_spot i (OnDlq t) r -> at_spot i Nowhere (set_dlq_all (fun s => s ∖ {[i]}) (set_dlq t (without i) r)).
Proof.
  intros [C1 C2 C3 C4 C5 C6]. split; cbn; intros.
  - rewrite C1. naive_solver.
  - rewrite C2. naive_solver.
  - rewrite lst_insert. case_decide; subst; [rewrite in_without; naive_solver|]. rewrite C3. naive_solver.
  - rewrite elem_of_difference, elem_of_singleton. naive_solver.
  - rewrite C5. naive_solver.
  - naive_solver.
Qed.

Lemma spot_lease i w z r : at_spot i (OnProc w) r -> at_spot i (OnProc w) (set_leases <[i := z]> r).
Proof. intros [C1 C2 C3 C4 C5 C6]. split; cbn; eauto. Qed.

Lemma spot_unlease i s r : at_spot i s r -> at_spot i s (set_leases (delete i) r).
Proof.
  intros [C1 C2 C3 C4 C5 C6]. split; cbn; auto. rewrite lookup_delete_eq. by intros [? ?].
Qed.

Lemma spot_from_proc i w f r :
  (forall l, i ∉ f l) -> leases r !! i = None -> at_spot i (OnProc w) r -> at_spot i Nowhere (set_proc w f r).
Proof.
  intros Hf Hl [C1 C2 C3 C4 C5 C6]. split; cbn; intros.
  - rewrite C1. naive_solver.
  - rewrite lst_insert. case_decide; subst; [naive_solver|]. rewrite C2. naive_solver.
  - rewrite C3. naive_solver.
  - rewrite C4. naive_solver.
  - rewrite C5. naive_solver.
  - rewrite Hl in *. by destruct H0.
Qed.


Lemma spot_released i j r :
  worker_id j <> "" -> (visibility_timeout_ms q <= 0 -> leases r = ∅) -> at_spot i (OnProc (worker_id j)) r ->
  at_spot i Nowhere (released j i r).
Proof.
  intros Hw Hl Ha. unfold released. cbn zeta. destruct (String.eqb_spec (worker_id j) "") as [|_]; [done|].
  assert (Hf : forall l, i ∉ without i l) by (intros l; rewrite in_without; tauto).
  destruct (Z.leb_spec (visibility_timeout_ms q) 0) as [Hv|Hv].
  - apply spot_from_proc; [done | by rewrite Hl | done].
  - change (at_spot i Nowhere (set_proc (worker_id j) (without i) (set_leases (delete i) r))).
    apply spot_from_proc; [done | apply lookup_delete_eq | by apply spot_unlease].
Qed.

Lemma without_nodup i l : NoDup l -> NoDup (without i l).
Proof. intros. by apply NoDup_filter. Qed.

Lemma nodup_queue t f r :
  lists_nodup r -> NoDup (f (lst (queues r) t)) -> lists_nodup (set_queue t f r).
Proof. intros [N1 N2] Hf. split; [|done]. intros t'. cbn. rewrite lst_insert. case_decide; subst; auto. Qed.

Lemma nodup_proc w f r :
  lists_nodup r -> NoDup (f (lst (procs r) w)) -> lists_nodup (set_proc w f r).
Proof. intros [N1 N2] Hf. split; [done|]. intros w'. cbn. rewrite lst_insert. case_decide; subst; auto. Qed.

Lemma nodup_released j i r : lists_nodup r -> lists_nodup (released j i r).
Proof.
  intros Hn. unfold released. cbn zeta.
  assert (lists_nodup (set_proc (worker_id j) (without i) r)) by (apply nodup_proc; [done | by apply without_nodup, Hn]).
  by destruct (String.eqb (worker_id j) ""), (visibility_timeout_ms q <=? 0).
Qed.

Lemma released_other j i r :
  blobs (released j i r) = blobs r /\ (visibility_timeout_ms q <= 0 -> leases (released j i r) = leases r).
Proof.
  unfold released. cbn zeta.
  destruct (String.eqb (worker_id j) ""), (Z.leb_spec (visibility_timeout_ms q) 0); repeat split; lia.
Qed.

(** What the invariant knows of a job. *)
Lemma inv_at r n i j ttl :
  jobs_inv r n -> blobs r !! i = Some (j, ttl) -> exists s, at_spot i s r /\ kept i j ttl s.
Proof. intros Hi Hb. destruct (inv_job _ _ Hi i) as (s & Hs & Hk). rewrite Hb in Hk. eauto. Qed.

Lemma inv_writable r n i j ttl : jobs_inv r n -> blobs r !! i = Some (j, ttl) -> writable j = true.
Proof. intros Hi Hb. destruct (inv_at _ _ _ _ _ Hi Hb) as (s & _ & Hk). apply (k_writable _ _ _ _ Hk). Qed.

(** Whatever is anywhere has a job. *)
Lemma inv_somewhere r n i s :
  jobs_inv r n -> at_spot i s r -> s <> Nowhere -> exists j ttl, blobs r !! i = Some (j, ttl) /\ kept i j ttl s.
Proof.
  intros Hi Ha Hs. destruct (inv_job _ _ Hi i) as (s' & Ha' & Hk).
  assert (s' = s) as ->.
  { destruct s as [|t| |w|t]; [done|..].
    - by apply (at_queue _ _ _ Ha'), (at_queue _ _ _ Ha).
    - by apply (at_delayed _ _ _ Ha'), (at_delayed _ _ _ Ha).
    - by apply (at_proc _ _ _ Ha'), (at_proc _ _ _ Ha).
    - by apply (at_dlq _ _ _ Ha'), (at_dlq _ _ _ Ha). }
  destruct (blobs r !! i) as [[j ttl]|]; [eauto | done].
Qed.

Lemma inv_processing r n i j ttl :
  jobs_inv r n -> blobs r !! i = Some (j, ttl) -> status j = "processing" ->
  at_spot i (OnProc (worker_id j)) r /\ worker_id j <> "" /\ kept i j ttl (OnProc (worker_id j)).
Proof.
  intros Hi Hb Hs. destruct (inv_at _ _ _ _ _ Hi Hb) as (s & Ha & Hk). pose proof (k_belongs _ _ _ _ Hk) as Hbe.
  destruct s; cbn in Hbe; [destruct Hbe; congruence|destruct Hbe; congruence|congruence| |destruct Hbe; congruence].
  destruct Hbe as (_ & -> & Hw). auto.
Qed.

Lemma not_queued i s r t : at_spot i s r -> s <> OnQueue t -> i ∉ lst (queues r) t.
Proof. intros Ha Hs Hin. by apply Hs, (at_queue _ _ _ Ha). Qed.

Lemma not_held i s r w : at_spot i s r -> s <> OnProc w -> i ∉ lst (procs r) w.
Proof. intros Ha Hs Hin. by apply Hs, (at_proc _ _ _ Ha). Qed.

(** A failed attempt keeps the invariant. *)
Lemma failed_keeps i err m r n j ttl : Json.utf8 err = true ->
  jobs_inv r n -> blobs r !! i = Some (j, ttl) -> status j = "processing" -> jobs_inv (failed j i err m r) n.
Proof.
  intros He Hi Hb Hs. destruct (inv_processing _ _ _ _ _ Hi Hb Hs) as (Ha & Hw & Hk).
  pose proof (k_budget _ _ _ _ Hk (or_intror Hs)) as Hr. pose proof (k_writable _ _ _ _ Hk).
  pose proof (spot_released i j r Hw (inv_leases _ _ Hi) Ha) as Hn.
  pose proof (nodup_released j i r (nodup_lists _ _ Hi)) as Hd.
  destruct (released_other j i r) as [E1 E2].
  assert (Hslice : forall x, x <> i -> same_slice x r (released j i r)) by (intros; by apply slice_released).
  unfold failed, failed_job. cbn zeta. cbn [type touched with_retries retry_count max_retries].
  set (r1 := released j i r) in *.
  destruct (Z.ltb_spec (retry_count j + 1) (max_retries j)) as [Hlt|Hge];
    [destruct (Z.ltb_spec 0 (backoff_delay_ms q (retry_count j + 1)))|];
    (one Hi Hb; [intros x Hx; transitivity r1; [auto | slices] | | | by cbn]).
  - exists Parked. split; [by apply spot_to_delayed, spot_blobs|]. cbn. rewrite lookup_insert_eq.
    split; cbn; [apply (k_id _ _ _ _ Hk) | done | by intros [? ?] | lia | apply (k_max _ _ _ _ Hk) | wr].
  - exact Hd.
  - exists (OnQueue (type j)). split; [apply spot_to_queue; [by left | by apply spot_blobs]|]. cbn.
    rewrite lookup_insert_eq. split; cbn; [apply (k_id _ _ _ _ Hk) | done | by intros [? ?] | lia | apply (k_max _ _ _ _ Hk) | wr].
  - apply nodup_queue; [exact Hd|]. constructor; [by eapply (not_queued _ _ _ _ Hn) | apply Hd].
  - exists (OnDlq (type j)). split; [by apply spot_to_dlq, spot_blobs|]. cbn. rewrite lookup_insert_eq.
    split; cbn; [apply (k_id _ _ _ _ Hk) | done | by intros [? ?] | by intros [?|?] | apply (k_max _ _ _ _ Hk) | wr].
  - exact Hd.
Qed.

(** ** Every operation, alone on a healthy connection *)

Definition good {A} (P : Redis -> Prop) (op : st JW A) : Prop :=
  forall r u m, jobs_inv r u -> P r ->
  exists a r' u', op (calm r u m) = (Ok a, calm r' u' m) /\ jobs_inv r' u'.

Definition processing (i : string) (r : Redis) : Prop :=
  exists j ttl, blobs r !! i = Some (j, ttl) /\ status j = "processing".

Context (Hq : initialized q = true).

Lemma fail_good i err : Json.utf8 err = true -> good (processing i) (fail i err).
Proof.
  intros He r u m Hi (j & ttl & Hb & Hs). destruct (inv_processing _ _ _ _ _ Hi Hb Hs) as (_ & _ & Hk).
  exists tt, (failed j i err m r), u. split; [|by eapply failed_keeps].
  apply (fail_run _ _ _ ttl); [done | done | | by apply failed_writable; [apply (k_writable _ _ _ _ Hk)|]].
  pose proof (k_budget _ _ _ _ Hk (or_intror Hs)). pose proof (k_max _ _ _ _ Hk).
  unfold in_i32. rewrite (proj2 (Z.leb_le _ _)), (proj2 (Z.leb_le _ _)); [done | bound64..].
Qed.

(** What a request to submit a job holds can be written. *)
Definition texts_ok (ty : string) (body : json) (tp : string) : bool := Json.utf8 ty && (Json.clean body && Json.utf8 tp).

Lemma submitted_writable n ty body tp c mr now :
  texts_ok ty body tp = writable (mkJob (generate_uuid n) ty body "pending" JNull "" "" "" tp c mr now now).
Proof.
  rewrite writable_parts. cbn [error id payload result status trace_id traceparent type worker_id Json.clean].
  rewrite generate_uuid_utf8. unfold texts_ok. cbn. destruct (Json.utf8 ty), (Json.clean body), (Json.utf8 tp); done.
Qed.

Lemma submit_good ty body retries tp :
  retries <= I32_MAX -> default_max_retries q <= I32_MAX -> texts_ok ty body tp = true -> good (fun _ => True) (submit ty body retries tp).
Proof.
  intros H1 H2 H3 r u m Hi _. set (i := generate_uuid u). set (mr := if 0 <=? retries then retries else default_max_retries q).
  pose (j := mkJob i ty body "pending" JNull "" "" "" tp 0 mr (Z.quot m 1000) (Z.quot m 1000)).
  exists j, (set_index ty <[i := Z.quot m 1000]> (set_index "" <[i := Z.quot m 1000]>
              (set_queue ty (cons i) (set_blobs <[i := (j, None)]> r)))), (S u).
  assert (Hw : writable j = true) by (etransitivity; [symmetry; apply submitted_writable | exact H3]).
  split; [unfold submit, new_uuid; unroll; rewrite Hq; fold i mr; fold j; by rewrite Hw|].
  assert (Hn : at_spot i Nowhere r).
  { destruct (inv_job _ _ Hi i) as (s & Ha & Hk). unfold i in Hk. rewrite (inv_new _ _ Hi) in Hk by done. by subst. }
  eapply (inv_step i); [exact Hi | lia | | intros x Hx; slices | | | by cbn].
  - intros k Hk Hx. apply generate_uuid_inj in Hx. lia.
  - exists (OnQueue ty). split.
    { eapply (spot_to_queue i ty (cons i)) in Hn; [|by left]. destruct Hn. by split. }
    cbn. rewrite lookup_insert_eq. split; cbn; [done | done | by intros [? ?] | lia | unfold mr; case_match; lia | exact Hw].
  - apply (nodup_queue ty (cons i) r (nodup_lists _ _ Hi)). constructor; [by eapply (not_queued _ _ _ _ Hn) | apply (inv_nodup _ _ Hi)].
Qed.

Lemma pop_right_spec l x rest : pop_right l = Some (x, rest) -> l = (rest ++ [x])%list.
Proof.
  unfold pop_right. destruct (rev l) as [|y k] eqn:E; [done|]. intros [= <- <-].
  rewrite <- (rev_involutive l), E. reflexivity.
Qed.

(** A popped id: its job was pending on that queue, and now is nowhere. *)
Lemma popped r n t x rest :
  jobs_inv r n -> pop_right (lst (queues r) t) = Some (x, rest) ->
  exists j ttl, blobs r !! x = Some (j, ttl) /\ kept x j ttl (OnQueue t) /\
    at_spot x Nowhere (set_queue t (fun _ => rest) r) /\ NoDup rest /\
    forall y, y <> x -> y ∈ rest <-> y ∈ lst (queues r) t.
Proof.
  intros Hi Hp. apply pop_right_spec in Hp. pose proof (inv_nodup _ _ Hi t) as Hn. rewrite Hp in Hn.
  apply NoDup_app in Hn as (Hn & Hd & _). assert (Hx : x ∈ lst (queues r) t).
  { rewrite Hp. apply elem_of_app. right. by left. }
  destruct (inv_job _ _ Hi x) as (s & Ha & _). pose proof (proj1 (at_queue _ _ _ Ha t) Hx) as ->.
  destruct (inv_somewhere _ _ _ _ Hi Ha) as (j & ttl & Hb & Hk); [done|].
  exists j, ttl. split; [done|]. split; [done|]. split.
  - apply (spot_from_queue _ t); [|done]. intros _ _ Hin. by apply (Hd x Hin), list_elem_of_singleton.
  - split; [done|]. intros y Hy. rewrite Hp, snoc_other; done.
Qed.

(** The store after a worker took the popped id; [f] pushes it on the list. *)
Definition claimed (t x worker : string) (rest : list string) (j : Job) (f : list string -> list string) (m : Z)
    (r : Redis) : Redis :=
  let j' := touched (Z.quot m 1000) (with_worker worker (with_status "processing" j)) in
  let r1 := set_blobs <[x := (j', None)]> (set_proc worker f (set_queue t (fun _ => rest) r)) in
  if 0 <? visibility_timeout_ms q then set_leases <[x := m + visibility_timeout_ms q]> r1 else r1.

(** A push of [x] on a list that does not have it. *)
Record pushes (x : string) (f : list string -> list string) : Prop := {
  push_other : forall y l, y <> x -> y ∈ f l <-> y ∈ l;
  push_in : forall l, x ∈ f l;
  push_nodup : forall l, (x ∉ l) -> NoDup l -> NoDup (f l)
}.

Lemma claimed_slice t x worker rest j f m r n z :
  jobs_inv r n -> pop_right (lst (queues r) t) = Some (x, rest) -> pushes x f -> z <> x ->
  same_slice z r (claimed t x worker rest j f m r).
Proof.
  intros Hi Hp Hf Hz. destruct (popped _ _ _ _ _ Hi Hp) as (_ & _ & _ & _ & _ & _ & Hy).
  transitivity (set_proc worker f (set_queue t (fun _ => rest) r)); [|unfold claimed; cbn zeta; slices].
  transitivity (set_queue t (fun _ => rest) r).
  - repeat split; cbn; auto; rewrite lst_insert; case_decide; subst; rewrite ?Hy; auto.
  - apply slice_proc. intros l. by apply (push_other _ _ Hf).
Qed.

Lemma claimed_keeps t x worker rest j ttl f m r n : Json.utf8 worker = true ->
  jobs_inv r n -> pop_right (lst (queues r) t) = Some (x, rest) -> blobs r !! x = Some (j, ttl) -> worker <> "" ->
  pushes x f -> jobs_inv (claimed t x worker rest j f m r) n.
Proof.
  intros Hu Hi Hp Hb Hw Hf. destruct (popped _ _ _ _ _ Hi Hp) as (j0 & ttl0 & Hb0 & Hk & Hn & Hr & _).
  rewrite Hb in Hb0. injection Hb0 as <- <-. pose proof (k_writable _ _ _ _ Hk).
  pose proof (nodup_queue t (fun _ => rest) r (nodup_lists _ _ Hi) Hr) as Hl.
  assert (Hlp : lists_nodup (set_proc worker f (set_queue t (fun _ => rest) r))).
  { apply nodup_proc; [done|]. apply (push_nodup _ _ Hf); [by eapply (not_held _ _ _ _ Hn) | apply Hl]. }
  pose proof (k_belongs _ _ _ _ Hk) as [Hst _]. pose proof (k_budget _ _ _ _ Hk (or_introl Hst)) as Hbu.
  one Hi Hb; [intros z Hz; by eapply claimed_slice | | by unfold claimed; cbn zeta; case_match
             | unfold claimed; cbn zeta; destruct (Z.ltb_spec 0 (visibility_timeout_ms q)); cbn; lia || done].
  exists (OnProc worker). unfold claimed. cbn zeta.
  destruct (0 <? visibility_timeout_ms q);
    (split; [first [apply spot_lease, spot_blobs | apply spot_blobs]; apply spot_to_proc; [apply (push_in _ _ Hf) | exact Hn] |];
     cbn; rewrite lookup_insert_eq; split; cbn; [apply (k_id _ _ _ _ Hk) | done | by intros [? ?] | done | apply (k_max _ _ _ _ Hk) | wr]).
Qed.

Definition taken_by (worker : string) (m : Z) (j : Job) : Job := touched (Z.quot m 1000) (with_worker worker (with_status "processing" j)).

Lemma taken_writable worker m j : writable j = true -> Json.utf8 worker = true -> writable (taken_by worker m j) = true.
Proof. intros ? ?. unfold taken_by. wr. Qed.

Lemma claim_run t x worker rest j ttl f m r u :
  blobs r !! x = Some (j, ttl) -> id j = x -> writable (taken_by worker m j) = true ->
  claim worker x (calm (set_proc worker f (set_queue t (fun _ => rest) r)) u m)
  = (Ok (Some (touched (Z.quot m 1000) (with_worker worker (with_status "processing" j)))),
     calm (claimed t x worker rest j f m r) u m).
Proof.
  intros Hb Hid Hw. unfold claim, claimed. unroll. cbn [blobs set_proc set_queue]. rewrite Hb.
  cbv [fmap option_fmap option_map fst]. unfold taken_by in Hw. rewrite Hw. cbn [id touched with_worker with_status]. rewrite Hid.
  by destruct (0 <? visibility_timeout_ms q).
Qed.

Lemma snoc_nodup (x : string) l : (x ∉ l) -> NoDup l -> NoDup (l ++ [x])%list.
Proof.
  intros Hx Hl. apply NoDup_app. split; [done|]. split; [|by apply NoDup_singleton].
  intros y Hy Hyx. apply list_elem_of_singleton in Hyx. by subst.
Qed.

Lemma pushes_cons x : pushes x (cons x).
Proof. split; [intros; by apply cons_other | by left | by constructor]. Qed.
Lemma pushes_snoc x : pushes x (fun l => (l ++ [x])%list).
Proof. split; [intros; by apply snoc_other | intros l; apply elem_of_app; right; by left | by apply snoc_nodup]. Qed.

(** A pick finds nothing, or a pending job whose id it moves to the worker's list. *)
Lemma pick_cases types worker r u m : Json.utf8 worker = true -> jobs_inv r u ->
  pick types worker (calm r u m) = (Ok None, calm r u m) \/
  exists t x rest j ttl f, pop_right (lst (queues r) t) = Some (x, rest) /\ blobs r !! x = Some (j, ttl) /\ id j = x /\ pushes x f /\
    t ∈ types /\ pick types worker (calm r u m) = (Ok (Some (taken_by worker m j)), calm (claimed t x worker rest j f m r) u m).
Proof.
  intros Hu Hi. unfold pick, check_initialized. rewrite Hq, st_bind_case. cbn [mret st_ret].
  assert (Hc : forall t x rest f, pop_right (lst (queues r) t) = Some (x, rest) -> exists j ttl, blobs r !! x = Some (j, ttl) /\ id j = x /\
    claim worker x (calm (set_proc worker f (set_queue t (fun _ => rest) r)) u m)
      = (Ok (Some (taken_by worker m j)), calm (claimed t x worker rest j f m r) u m)).
  { intros t x rest f Hp. destruct (popped _ _ _ _ _ Hi Hp) as (j & ttl & Hb & Hk & _). pose proof (k_id _ _ _ _ Hk).
    exists j, ttl. split; [done|]. split; [done|]. apply (claim_run _ _ _ _ _ ttl); [done | done|].
    apply taken_writable; [apply (k_writable _ _ _ _ Hk) | done]. }
  assert (Hm : forall types, pick_many types worker (calm r u m) = (Ok None, calm r u m) \/
    exists t x rest j ttl f, pop_right (lst (queues r) t) = Some (x, rest) /\ blobs r !! x = Some (j, ttl) /\ id j = x /\ pushes x f /\
      t ∈ types /\ pick_many types worker (calm r u m) = (Ok (Some (taken_by worker m j)), calm (claimed t x worker rest j f m r) u m)).
  { intros ts. unfold pick_many. rewrite st_bind_case. unfold brpop, cmd. cbn [events calm redis uuids now_ms].
    destruct (List.find _ ts) as [t|] eqn:Ef; [|by left]. apply find_some in Ef as [Ht _].
    destruct (pop_right (lst (queues r) t)) as [[x rest]|] eqn:Hp; [|by left]. right.
    destruct (Hc t x rest (fun l => (l ++ [x])%list) Hp) as (j & ttl & Hb & Hid & E).
    exists t, x, rest, j, ttl, (fun l => (l ++ [x])%list). split; [done|]. split; [done|]. split; [done|]. split; [apply pushes_snoc|].
    split; [by apply list_elem_of_In | exact E]. }
  destruct types as [|t [|t2 ts]]; [apply Hm | | apply Hm].
  unfold pick_one. rewrite st_bind_case. unfold brpoplpush, cmd. cbn [events calm redis uuids now_ms].
  destruct (pop_right (lst (queues r) t)) as [[x rest]|] eqn:Hp; [|by left]. right.
  destruct (Hc t x rest (cons x) Hp) as (j & ttl & Hb & Hid & E).
  exists t, x, rest, j, ttl, (cons x). split; [done|]. split; [done|]. split; [done|]. split; [apply pushes_cons|]. split; [by left | exact E].
Qed.

Lemma pick_good types worker : worker <> "" -> Json.utf8 worker = true -> good (fun _ => True) (pick types worker).
Proof.
  intros Hw Hu r u m Hi _. destruct (pick_cases types worker r u m Hu Hi) as [->|(t & x & rest & j & ttl & f & Hp & Hb & _ & Hf & _ & ->)];
    [by exists None, r, u|]. eexists _, _, u. split; [reflexivity|]. by eapply claimed_keeps.
Qed.

(** The end of an attempt, in terms of [released]. *)
Lemma release_run j i r u m :
  (release j i ;; clear_lease i) (calm r u m) = (Ok tt, calm (released j i r) u m).
Proof.
  unfold released. unroll. cbn zeta. by destruct (String.eqb (worker_id j) ""), (visibility_timeout_ms q <=? 0).
Qed.

Lemma released_blob_comm j i f r : released j i (set_blobs f r) = set_blobs f (released j i r).
Proof. unfold released. cbn zeta. by destruct (String.eqb (worker_id j) ""), (visibility_timeout_ms q <=? 0). Qed.

(** What [complete] makes of the store. *)
Definition completed (j : Job) (i : string) (res : json) (m : Z) (r : Redis) : Redis :=
  let job := touched (Z.quot m 1000) (with_result res (with_status "completed" j)) in
  released job i (set_blobs <[i := (job, Some (Z.quot m 1000 + result_ttl q))]> r).

Lemma complete_run i res j ttl r u m : blobs r !! i = Some (j, ttl) -> writable j = true -> Json.clean res = true ->
  complete i res (calm r u m) = (Ok tt, calm (completed j i res m r) u m).
Proof.
  intros Hb Hw Hr. unfold completed. cbn zeta. set (job := touched (Z.quot m 1000) (with_result res (with_status "completed" j))).
  assert (Hj : writable job = true) by (unfold job; wr).
  unfold complete. unroll. rewrite Hq, Hb. cbv [fmap option_fmap option_map fst]. fold job. rewrite Hj.
  change (match (release job i ;; clear_lease i) (calm (set_blobs <[i := (job, Some (Z.quot m 1000 + result_ttl q))]> r) u m)
          with r => r end = (Ok tt, calm (released job i (set_blobs <[i := (job, Some (Z.quot m 1000 + result_ttl q))]> r)) u m)).
  by rewrite release_run.
Qed.

Lemma complete_good i res : Json.clean res = true -> good (processing i) (complete i res).
Proof.
  intros Hres r u m Hi (j & ttl & Hb & Hs). destruct (inv_processing _ _ _ _ _ Hi Hb Hs) as (Ha & Hw & Hk).
  pose proof (k_writable _ _ _ _ Hk).
  exists tt, (completed j i res m r), u. split; [by eapply complete_run|]. unfold completed. cbn zeta.
  set (job := touched (Z.quot m 1000) (with_result res (with_status "completed" j))).
  rewrite released_blob_comm. pose proof (spot_released i job r Hw (inv_leases _ _ Hi) Ha) as Hn.
  one Hi Hb; [intros x Hx; transitivity (released job i r); [by apply slice_released | slices] | | |].
  - exists Nowhere. split; [by apply spot_blobs|]. cbn. rewrite lookup_insert_eq.
    split; cbn; [apply (k_id _ _ _ _ Hk) | auto | done | by intros [?|?] | apply (k_max _ _ _ _ Hk) | wr].
  - apply (nodup_released _ _ _ (nodup_lists _ _ Hi)).
  - apply released_other.
Qed.

(** What [dead_letter] makes of the store. *)
Definition buried (j : Job) (i err : string) (m : Z) (r : Redis) : Redis :=
  let job := touched (Z.quot m 1000) j in
  set_blobs <[i := (with_error err (with_status "dead" job), None)]>
    (set_dlq_all (union {[i]}) (set_dlq (type j) (cons i) (released job i r))).

Lemma dead_letter_run i err j ttl r u m : blobs r !! i = Some (j, ttl) -> writable j = true -> Json.utf8 err = true ->
  dead_letter i err (calm r u m) = (Ok tt, calm (buried j i err m r) u m).
Proof.
  intros Hb Hw He. unfold dead_letter, buried, released. cbn zeta. set (job := touched (Z.quot m 1000) j).
  assert (Hj : writable (with_error err (with_status "dead" job)) = true) by (unfold job; wr). unroll. rewrite Hq, Hb.
  cbv [fmap option_fmap option_map fst]. fold job. rewrite Hj. by destruct (String.eqb (worker_id job) ""), (visibility_timeout_ms q <=? 0).
Qed.

Lemma dead_letter_good i err : Json.utf8 err = true -> good (processing i) (dead_letter i err).
Proof.
  intros He r u m Hi (j & ttl & Hb & Hs). destruct (inv_processing _ _ _ _ _ Hi Hb Hs) as (Ha & Hw & Hk).
  pose proof (k_writable _ _ _ _ Hk).
  exists tt, (buried j i err m r), u. split; [by eapply dead_letter_run|]. unfold buried. cbn zeta.
  set (job0 := touched (Z.quot m 1000) j).
  pose proof (spot_released i job0 r Hw (inv_leases _ _ Hi) Ha) as Hn.
  one Hi Hb; [intros x Hx; transitivity (released job0 i r); [by apply slice_released | slices] | | |].
  - exists (OnDlq (type j)). split; [by apply spot_blobs, spot_to_dlq|]. cbn. rewrite lookup_insert_eq.
    split; cbn; [apply (k_id _ _ _ _ Hk) | done | by intros [? ?] | by intros [?|?] | apply (k_max _ _ _ _ Hk) | wr].
  - apply (nodup_released _ _ _ (nodup_lists _ _ Hi)).
  - apply (released_other job0 i r).
Qed.

Lemma requeue_good i : good (fun _ => True) (requeue_from_dlq i).
Proof.
  intros r u m Hi _. unfold requeue_from_dlq. unroll. rewrite Hq.
  destruct (blobs r !! i) as [[j ttl]|] eqn:Hb; cbv [fmap option_fmap option_map fst]; [|by exists false, r, u].
  destruct (String.eqb_spec (status j) "dead") as [Hs|]; cbn [negb]; [|by exists false, r, u].
  destruct (inv_at _ _ _ _ _ Hi Hb) as (s & Ha & Hk). pose proof (k_belongs _ _ _ _ Hk) as Hbe.
  destruct s; cbn in Hbe; [destruct Hbe; congruence|destruct Hbe; congruence|congruence|destruct Hbe; congruence|].
  destruct Hbe as (_ & ->). set (job := touched (Z.quot m 1000) (with_error "" (with_retries 0 (with_status "pending" j)))).
  pose proof (k_writable _ _ _ _ Hk). assert (Hj : writable job = true) by (unfold job; wr). rewrite Hj.
  exists true, (set_queue (type j) (cons i) (set_blobs <[i := (job, None)]>
                 (set_dlq_all (fun s => s ∖ {[i]}) (set_dlq (type j) (without i) r)))), u. split; [reflexivity|].
  pose proof (spot_from_dlq _ _ _ Ha) as Hn.
  one Hi Hb; [intros x Hx; slices | | | by cbn].
  - exists (OnQueue (type j)). split; [by apply spot_to_queue; [left | apply spot_blobs]|]. cbn. rewrite lookup_insert_eq.
    split; cbn; [apply (k_id _ _ _ _ Hk) | done | by intros [? ?] | lia | apply (k_max _ _ _ _ Hk) | wr].
  - apply (nodup_queue (type j) (cons i) r (nodup_lists _ _ Hi)). constructor; [by eapply (not_queued _ _ _ _ Ha) | apply (inv_nodup _ _ Hi)].
Qed.

Lemma requeue_refused i r u m : (forall j ttl, blobs r !! i = Some (j, ttl) -> status j <> "dead") ->
  requeue_from_dlq i (calm r u m) = (Ok false, calm r u m).
Proof.
  intros Hn. unfold requeue_from_dlq. unroll. rewrite Hq. destruct (blobs r !! i) as [[j ttl]|]; cbv [fmap option_fmap option_map fst]; [|done].
  by rewrite (proj2 (String.eqb_neq _ _) (Hn j ttl eq_refl)).
Qed.

Lemma spot_off_queue i t w r : at_spot i (OnProc w) r -> at_spot i (OnProc w) (set_queue t (without i) r).
Proof.
  intros [C1 C2 C3 C4 C5 C6]. split; cbn; auto. intros t'. rewrite lst_insert.
  case_decide; [rewrite in_without; split; [tauto | done] | apply C1].
Qed.

(** A job that is over leaves the books. *)
Lemma over_keeps i j ttl job exp r r2 n :
  jobs_inv r n -> blobs r !! i = Some (j, ttl) -> id job = i -> max_retries job = max_retries j ->
  status job = "completed" \/ status job = "failed" -> at_spot i Nowhere r2 -> blobs r2 !! i = Some (job, exp) ->
  (forall x, x <> i -> same_slice x r r2) -> lists_nodup r2 ->
  (visibility_timeout_ms q <= 0 -> leases r2 = leases r) -> writable job = true -> jobs_inv r2 n.
Proof.
  intros Hi Hb Hid Hm Hs Hn Hb2 Hsl Hl Hle Hwr. destruct (inv_at _ _ _ _ _ Hi Hb) as (s & _ & Hk).
  one Hi Hb; [exact Hsl | | exact Hl | exact Hle]. exists Nowhere. split; [done|]. rewrite Hb2.
  split; [done | done | done | | rewrite Hm; apply (k_max _ _ _ _ Hk) | done].
  destruct Hs as [Hs|Hs]; intros [E|E]; congruence.
Qed.

(** [cancel] looks on the queue and on the worker's list, not in the delayed set. *)
Lemma cancel_good i : good (fun r => delayed r !! i = None) (cancel i).
Proof.
  intros r u m Hi Hd. unfold cancel. rewrite st_bind_case. unfold check_initialized. rewrite Hq. cbn [mret st_ret].
  rewrite st_bind_case. unfold redis_get, cmd. cbn [events calm redis uuids now_ms].
  destruct (blobs r !! i) as [[j ttl]|] eqn:Hb; cbv [fmap option_fmap option_map fst]; [|by exists false, r, u].
  destruct (inv_at _ _ _ _ _ Hi Hb) as (s & Ha & Hk). pose proof (k_belongs _ _ _ _ Hk) as Hbe.
  set (job := touched (Z.quot m 1000) (with_error "cancelled" (with_status "failed" j))).
  pose proof (k_writable _ _ _ _ Hk). assert (Hj : writable job = true) by (unfold job; wr).
  pose (exp := Some (Z.quot m 1000 + result_ttl q)).
  pose (r1 := set_queue (type j) (without i) (set_blobs <[i := (job, exp)]> r)).
  assert (Hl1 : lists_nodup r1) by (apply nodup_queue; [apply (nodup_lists _ _ Hi) | apply without_nodup, (inv_nodup _ _ Hi)]).
  assert (Hsl : forall x, x <> i -> same_slice x r r1) by (intros x Hx; unfold r1; slices).
  destruct s as [|t| |w|t]; cbn in Hbe.
  - destruct Hbe as [-> | ->]; by exists false, r, u.
  - destruct Hbe as [Hs ->]. rewrite Hs. cbn [orb andb String.eqb Ascii.eqb Bool.eqb].
    assert (Hn : at_spot i Nowhere r1).
    { apply (spot_from_queue _ (type j)); [|by apply spot_blobs]. intros l _. rewrite in_without. tauto. }
    exists true, (if visibility_timeout_ms q <=? 0 then r1 else set_leases (delete i) r1), u. split.
    { unroll. fold job. rewrite Hj. by destruct (visibility_timeout_ms q <=? 0). }
    destruct (Z.leb_spec (visibility_timeout_ms q) 0);
      refine (over_keeps i j ttl job exp r _ u Hi Hb (k_id _ _ _ _ Hk) eq_refl (or_intror eq_refl) _ _ _ _ _ Hj); try done.
    + by apply lookup_insert_eq.
    + by apply spot_unlease.
    + by apply lookup_insert_eq.
    + intros x Hx. transitivity r1; [auto | slices].
    + lia.
  - destruct (proj2 (at_delayed _ _ _ Ha) eq_refl) as [z Hz]. congruence.
  - destruct Hbe as (Hs & -> & Hw). rewrite Hs. cbn [orb andb String.eqb Ascii.eqb Bool.eqb].
    exists true, (released job i r1), u. split.
    { unfold released. unroll. fold job. rewrite Hj. cbn [worker_id job touched with_error with_status].
      destruct (String.eqb_spec (worker_id j) ""); [done|]. cbn zeta. by destruct (visibility_timeout_ms q <=? 0). }
    destruct (released_other job i r1) as [E1 E2].
    refine (over_keeps i j ttl job exp r _ u Hi Hb (k_id _ _ _ _ Hk) eq_refl (or_intror eq_refl) _ _ _ _ E2 Hj).
    + apply spot_released; [done | apply (inv_leases _ _ Hi) | by apply spot_off_queue, spot_blobs].
    + rewrite E1. by apply lookup_insert_eq.
    + intros x Hx. transitivity r1; [auto | by apply slice_released].
    + by apply nodup_released.
  - destruct Hbe as [-> _]. by exists false, r, u.
Qed.

(** *** Passes over several ids *)

Lemma catch_ok {A} (op h : st JW A) s a s' : op s = (Ok a, s') -> catch op h s = (Ok a, s').
Proof. unfold catch. by intros ->. Qed.

(** One id goes from the delayed set back to its queue, if it is still there. *)
Definition promote_one (i : string) (moved : Z) : st JW Z :=
  removed ← zrem_delayed i;
  match removed with
  | false => mret moved
  | true =>
      data ← redis_get i;
      match data with None => mret moved | Some j => lpush_queue (type j) i ;; mret (moved + 1) end
  end.

Lemma promote_one_good i moved : good (fun _ => True) (promote_one i moved).
Proof.
  intros r u m Hi _. unfold promote_one. rewrite st_bind_case. unfold zrem_delayed, cmd. cbn [events calm redis uuids now_ms].
  destruct (inv_job _ _ Hi i) as (s & Ha & Hk). destruct (delayed r !! i) as [z|] eqn:Ez.
  - rewrite bool_decide_eq_true_2 by done. assert (s = Parked) as -> by (apply (at_delayed _ _ _ Ha); eauto).
    destruct (blobs r !! i) as [[j ttl]|] eqn:Hb; [|done]. unroll. cbn [blobs set_delayed]. rewrite Hb.
    cbv [fmap option_fmap option_map fst]. pose proof (k_belongs _ _ _ _ Hk) as Hs. cbn in Hs.
    exists (moved + 1), (set_queue (type j) (cons i) (set_delayed (delete i) r)), u. split; [reflexivity|].
    pose proof (spot_from_delayed _ _ Ha) as Hn.
    one Hi Hb; [intros x Hx; slices | | | by cbn].
    + exists (OnQueue (type j)). split; [by apply spot_to_queue; [left|]|]. cbn. rewrite Hb. split; cbn; try apply Hk; try done.
      intros ?%(k_ttl _ _ _ _ Hk). done.
    + apply (nodup_queue _ _ _ (nodup_lists _ _ Hi)). constructor; [by eapply (not_queued _ _ _ _ Ha) | apply (inv_nodup _ _ Hi)].
  - rewrite bool_decide_eq_false_2 by by intros [? ?].
    exists moved, (set_delayed (delete i) r), u. split; [reflexivity|].
    assert (E : delete i (delayed r) = delayed r) by by apply delete_id.
    unfold set_delayed. rewrite E. by destruct r.
Qed.

Lemma promote_loop_good ids : forall moved, good (fun _ => True) (promote_loop ids moved).
Proof.
  induction ids as [|i ids IH]; intros moved r u m Hi _; [by exists moved, r, u|].
  cbn [promote_loop]. destruct (promote_one_good i moved r u m Hi I) as (n & r1 & u1 & E & Hi1).
  rewrite (st_bind_ok _ _ _ n (calm r1 u1 m)) by by apply catch_ok. by apply IH.
Qed.

Lemma promote_good : good (fun _ => True) promote_due_jobs.
Proof.
  intros r u m Hi _. unfold promote_due_jobs. case_match; [by exists 0, r, u|].
  rewrite !st_bind_case. unfold clock, gets. cbn [calm now_ms]. rewrite st_bind_case.
  rewrite (catch_ok _ _ _ (Some (due m (delayed r))) (calm r u m)) by reflexivity. by apply promote_loop_good.
Qed.

(** One expired lease is reclaimed by running its job through [fail]. *)
Definition reap_one (i : string) (reaped : Z) : st JW Z :=
  removed ← zrem_lease i;
  match removed with
  | false => mret reaped
  | true => fail i "visibility timeout exceeded" ;; mret (reaped + 1)
  end.

Lemma reap_one_good i reaped : good (fun _ => True) (reap_one i reaped).
Proof.
  intros r u m Hi _. unfold reap_one. rewrite st_bind_case. unfold zrem_lease, cmd. cbn [events calm redis uuids now_ms].
  destruct (inv_job _ _ Hi i) as (s & Ha & Hk). destruct (leases r !! i) as [z|] eqn:Ez.
  - rewrite bool_decide_eq_true_2 by done. destruct (at_lease _ _ _ Ha) as [w ->]; [eauto|].
    destruct (blobs r !! i) as [[j ttl]|] eqn:Hb; [|done]. destruct (k_belongs _ _ _ _ Hk) as (Hs & -> & Hw).
    assert (Hi1 : jobs_inv (set_leases (delete i) r) u).
    { one Hi Hb; [intros x Hx; slices | | apply (nodup_lists _ _ Hi) |].
      - exists (OnProc (worker_id j)). split; [by apply spot_unlease|]. cbn. by rewrite Hb.
      - intros Hv. cbn. rewrite (inv_leases _ _ Hi Hv). apply delete_empty. }
    destruct (fail_good i "visibility timeout exceeded" eq_refl (set_leases (delete i) r) u m Hi1) as (t & r2 & u2 & E & Hi2).
    { exists j, ttl. done. }
    destruct t. change (mkJW (set_leases (delete i) r) [] u m) with (calm (set_leases (delete i) r) u m).
    rewrite (st_bind_ok _ _ _ _ _ E). by exists (reaped + 1), r2, u2.
  - rewrite bool_decide_eq_false_2 by by intros [? ?].
    exists reaped, (set_leases (delete i) r), u. split; [reflexivity|].
    assert (E : delete i (leases r) = leases r) by by apply delete_id.
    unfold set_leases. rewrite E. by destruct r.
Qed.

Lemma reap_loop_good ids : forall reaped, good (fun _ => True) (reap_loop ids reaped).
Proof.
  induction ids as [|i ids IH]; intros n r u m Hi _; [by exists n, r, u|].
  cbn [reap_loop]. destruct (reap_one_good i n r u m Hi I) as (n1 & r1 & u1 & E & Hi1).
  rewrite (st_bind_ok _ _ _ n1 (calm r1 u1 m)) by by apply catch_ok. by apply IH.
Qed.

Lemma reap_good : good (fun _ => True) reap_expired_leases.
Proof.
  intros r u m Hi _. unfold reap_expired_leases. case_match; [by exists 0, r, u|].
  rewrite !st_bind_case. unfold clock, gets. cbn [calm now_ms]. rewrite st_bind_case.
  rewrite (catch_ok _ _ _ (Some (due m (leases r))) (calm r u m)) by reflexivity. by apply reap_loop_good.
Qed.

(** The ids of a worker's list go back to their queues; the list is dropped last,
    so the invariant holds of the list's unread rest. *)
Definition unread (w : string) (ids : list string) (r : Redis) : Redis := set_proc w (fun _ => ids) r.

Lemma recover_loop_keeps w ids : w <> "" -> visibility_timeout_ms q <= 0 -> forall n r u m,
  jobs_inv (unread w ids r) u ->
  exists n' r', recover_loop ids n (calm r u m) = (Ok n', calm r' u m) /\ jobs_inv (unread w [] r') u.
Proof.
  intros Hw Hv. induction ids as [|i ids IH]; intros n r u m Hi; [by exists n, r|].
  destruct (inv_job _ _ Hi i) as (s & Ha & Hk).
  assert (s = OnProc w) as -> by (apply (at_proc _ _ _ Ha); cbn; rewrite lst_insert, decide_True by done; by left).
  cbn [unread set_proc blobs] in Hk. destruct (blobs r !! i) as [[j ttl]|] eqn:Hb; [|done].
  set (job := touched (Z.quot m 1000) (with_worker "" (with_status "pending" j))).
  pose proof (k_writable _ _ _ _ Hk). assert (Hj : writable job = true) by (unfold job; wr).
  set (r1 := set_queue (type j) (cons i) (set_blobs <[i := (job, None)]> r)).
  assert (Hi1 : jobs_inv (unread w ids r1) u).
  { assert (Hb' : blobs (unread w (i :: ids) r) !! i = Some (j, ttl)) by done.
    assert (Hnd : NoDup (i :: ids)).
    { pose proof (inv_procs _ _ Hi w) as Hp. cbn in Hp. by rewrite lst_insert, decide_True in Hp. }
    apply NoDup_cons in Hnd as [Hni Hnd].
    assert (Hn : at_spot i Nowhere (unread w ids r)).
    { pose proof (spot_from_proc i w (fun _ => ids) (unread w (i :: ids) r)) as H'.
      unfold unread, set_proc in *. cbn [procs] in *. rewrite insert_insert_eq in H'. apply H'; [done | | exact Ha].
      pose proof (inv_leases _ _ Hi Hv) as El. cbn in El. cbn. by rewrite El. }
    pose proof (k_belongs _ _ _ _ Hk) as (Hs & _ & _). pose proof (k_budget _ _ _ _ Hk (or_intror Hs)) as Hbu.
    pose proof (nodup_lists _ _ Hi) as [N1 N2].
    one Hi Hb'.
    - intros x Hx. transitivity (unread w ids r).
      + repeat split; cbn; auto; rewrite !lst_insert; case_decide; rewrite ?elem_of_cons; naive_solver.
      + change (unread w ids r1) with (set_queue (type j) (cons i) (set_blobs <[i := (job, None)]> (unread w ids r))). slices.
    - exists (OnQueue (type j)).
      change (unread w ids r1) with (set_queue (type j) (cons i) (set_blobs <[i := (job, None)]> (unread w ids r))).
      split; [by apply spot_to_queue; [left | apply spot_blobs]|]. cbn. rewrite lookup_insert_eq.
      split; cbn; [apply (k_id _ _ _ _ Hk) | done | by intros [? ?] | done | apply (k_max _ _ _ _ Hk) | wr].
    - split; intros k; cbn; rewrite ?lst_insert; case_decide; subst; auto.
      + constructor; [by eapply (not_queued _ _ _ _ Ha) | apply N1].
      + specialize (N2 k). cbn in N2. by rewrite lst_insert, decide_False in N2.
    - done. }
  cbn [recover_loop]. rewrite (st_bind_ok _ _ _ (n + 1) (calm r1 u m)); [by apply IH|].
  apply catch_ok. unroll. rewrite Hb. cbv [fmap option_fmap option_map fst]. fold job. by rewrite Hj.
Qed.

(** A recovery leaves the worker's list empty. *)
Lemma recover_run w r u m : visibility_timeout_ms q <= 0 -> w <> "" -> jobs_inv r u ->
  exists n r1, recover_processing w (calm r u m) = (Ok n, calm (unread w [] r1) u m) /\ jobs_inv (unread w [] r1) u.
Proof.
  intros Hv Hw Hi. unfold recover_processing. rewrite st_bind_case. unfold check_initialized. rewrite Hq. cbn [mret st_ret].
  destruct (String.eqb_spec w "") as [|_]; [done|].
  rewrite st_bind_case. rewrite (catch_ok _ _ _ (Some (lst (procs r) w)) (calm r u m)) by reflexivity.
  destruct (recover_loop_keeps w (lst (procs r) w) Hw Hv 0 r u m) as (n & r1 & E & Hi1).
  { destruct Hi as [I1 I2 I3 I4 I5]. split; auto.
    - intros i. apply (job_ok_slice i r); [|done]. repeat split; cbn; auto; rewrite lst_insert; case_decide; by subst.
    - intros w'. cbn. rewrite lst_insert. case_decide; auto. }
  rewrite (st_bind_ok _ _ _ _ _ E). by exists n, r1.
Qed.

Lemma recover_good w : visibility_timeout_ms q <= 0 -> good (fun _ => True) (recover_processing w).
Proof.
  intros Hv r u m Hi _. destruct (decide (w = "")) as [->|Hw].
  - exists 0, r, u. split; [|done]. unfold recover_processing. rewrite st_bind_case. unfold check_initialized. by rewrite Hq.
  - destruct (recover_run w r u m Hv Hw Hi) as (n & r1 & E & Hi1). by exists n, (unread w [] r1), u.
Qed.

(** A trace id is written on the blob and nowhere else. *)
Definition traced (trace : string) (m : Z) (j : Job) : Job :=
  touched (Z.quot m 1000) (mkJob (id j) (type j) (payload j) (status j) (result j) (error j) (worker_id j) trace (traceparent j)
                             (retry_count j) (max_retries j) (created_at j) (updated_at j)).

Lemma trace_found i trace j ttl r u m : blobs r !! i = Some (j, ttl) ->
  set_trace_id i trace (calm r u m) =
  (Ok tt, calm (if writable (traced trace m j) then set_blobs <[i := (traced trace m j, None)]> r else r) u m).
Proof.
  intros Hb. unfold set_trace_id. unroll. rewrite Hq, Hb. cbv [fmap option_fmap option_map fst].
  fold (traced trace m j). by destruct (writable (traced trace m j)).
Qed.

Lemma trace_run i trace r u m : exists f, set_trace_id i trace (calm r u m) = (Ok tt, calm (set_blobs f r) u m) /\
  (jobs_inv r u -> jobs_inv (set_blobs f r) u).
Proof.
  destruct (blobs r !! i) as [[j ttl]|] eqn:Hb.
  - destruct (writable (traced trace m j)) eqn:Hw.
    2: { exists (fun b => b). rewrite (trace_found _ _ _ _ _ _ _ Hb), Hw. by destruct r. }
    eexists. rewrite (trace_found _ _ _ _ _ _ _ Hb), Hw. split; [done|]. intros Hi. destruct (inv_at _ _ _ _ _ Hi Hb) as (s & Ha & Hk).
    one Hi Hb; [intros x Hx; by apply slice_blob | | exact (nodup_lists _ _ Hi) | done].
    exists s. split; [by apply spot_blobs|]. cbn. rewrite lookup_insert_eq. destruct Hk as [K1 K2 K3 K4 K5 K6].
    split; cbn; [done | by destruct s | by intros [? ?] | done | done | done].
  - exists (fun b => b). unfold set_trace_id. unroll. rewrite Hq, Hb. by destruct r.
Qed.

(** The end of an attempt: the job is no longer in progress. *)
Definition settles (i : string) (op : st JW unit) : Prop := forall r u m, jobs_inv r u -> processing i r ->
  exists r' j' ttl, op (calm r u m) = (Ok tt, calm r' u m) /\ jobs_inv r' u /\ blobs r' !! i = Some (j', ttl) /\ status j' <> "processing".

Lemma settles_run i op (f : Job -> Z -> Redis -> Redis) : good (processing i) op ->
  (forall j ttl r u m, jobs_inv r u -> blobs r !! i = Some (j, ttl) -> status j = "processing" -> op (calm r u m) = (Ok tt, calm (f j m r) u m)) ->
  (forall j m r, exists j' ttl, blobs (f j m r) !! i = Some (j', ttl) /\ status j' <> "processing") -> settles i op.
Proof.
  intros Hg Hrun Hst r u m Hi Hp. destruct (Hg r u m Hi Hp) as (a & r' & u' & E & Hi'). destruct Hp as (j & ttl & Hb & Hs).
  rewrite (Hrun j ttl) in E by done. injection E as _ <- <-. destruct (Hst j m r) as (j' & ttl' & Hb' & Hs').
  exists (f j m r), j', ttl'. split; [by apply (Hrun j ttl)|]. done.
Qed.

Lemma complete_settles i res : Json.clean res = true -> settles i (complete i res).
Proof.
  intros Hres. apply (settles_run _ _ (fun j m r => completed j i res m r)); [by apply complete_good | intros; by eapply complete_run; [|by eapply inv_writable|] |].
  intros j m r. eexists _, _. split; [unfold completed; cbn zeta; rewrite (proj1 (released_other _ _ _)); apply lookup_insert_eq | done].
Qed.

Lemma dead_letter_settles i err : Json.utf8 err = true -> settles i (dead_letter i err).
Proof.
  intros He. apply (settles_run _ _ (fun j m r => buried j i err m r)); [by apply dead_letter_good | intros; by eapply dead_letter_run; [|by eapply inv_writable|] |].
  intros j m r. eexists _, _. split; [apply lookup_insert_eq | done].
Qed.

Lemma fail_settles i err : Json.utf8 err = true -> settles i (fail i err).
Proof.
  intros He. apply (settles_run _ _ (fun j m r => failed j i err m r)); [by apply fail_good | |].
  - intros j ttl r u m Hi Hb Hs. eapply fail_run; [done | exact Hb | | by apply failed_writable; [by eapply inv_writable|]].
    destruct (inv_processing _ _ _ _ _ Hi Hb Hs) as (_ & _ & Hk). pose proof (k_budget _ _ _ _ Hk (or_intror Hs)). pose proof (k_max _ _ _ _ Hk).
    unfold in_i32. rewrite (proj2 (Z.leb_le _ _)), (proj2 (Z.leb_le _ _)); [done | bound64..].
  - intros j m r. exists (failed_job j err (Z.quot m 1000)), None. unfold failed. cbn zeta.
    split; [repeat case_match; cbn; apply lookup_insert_eq |]. cbn. by case_match.
Qed.

(** ** Histories *)

(** What clients ask for, one operation at a time; [Wait] lets time pass, and
    blobs whose time has come expire. *)
Inductive request :=
| Submit (ty : string) (body : json) (retries : Z) (tp : string)
| Pick (types : list string) (worker : string)
| Complete (i : string) (res : json)
| Fail_ (i err : string)
| DeadLetter (i err : string)
| Requeue (i : string)
| Cancel (i : string)
| Recover (worker : string)
| Promote
| Reap
| Wait (ms : Z).

Definition alive (now : Z) (e : string * (Job * option Z)) : bool :=
  match e.2.2 with Some t => now <? t | None => true end.

Definition expire (now : Z) (r : Redis) : Redis := set_blobs (filter (fun e => alive now e = true)) r.

Definition perform (x : request) (s : JW) : JW :=
  match x with
  | Submit ty body retries tp => (submit ty body retries tp s).2
  | Pick types worker => (pick types worker s).2
  | Complete i res => (complete i res s).2
  | Fail_ i err => (fail i err s).2
  | DeadLetter i err => (dead_letter i err s).2
  | Requeue i => (requeue_from_dlq i s).2
  | Cancel i => (cancel i s).2
  | Recover worker => (recover_processing worker s).2
  | Promote => (promote_due_jobs s).2
  | Reap => (reap_expired_leases s).2
  | Wait ms => mkJW (expire (Z.quot (now_ms s + ms) 1000) (redis s)) (events s) (uuids s) (now_ms s + ms)
  end.

(** No type has the name of the index of the dead; a worker has a name and reports on jobs in progress, of a failure in UTF-8; a job
    waiting out its backoff is not cancelled; a list is recovered only when no leases are
    given. *)
Definition allowed (x : request) (r : Redis) : Prop :=
  match x with
  | Submit ty _ retries _ => retries <= I32_MAX /\ ty <> "_all"
  | Pick _ worker => worker <> "" /\ Json.utf8 worker = true
  | Complete i _ => processing i r
  | Fail_ i err | DeadLetter i err => processing i r /\ Json.utf8 err = true
  | Cancel i => delayed r !! i = None
  | Recover _ => visibility_timeout_ms q <= 0
  | Requeue _ | Promote | Reap | Wait _ => True
  end.

Fixpoint follows (s : JW) (xs : list request) : Prop :=
  match xs with [] => True | x :: rest => allowed x (redis s) /\ follows (perform x s) rest end.

Lemma expire_keeps now r n : jobs_inv r n -> jobs_inv (expire now r) n.
Proof.
  intros [I1 I2 I3 I4 I5]. split; auto.
  - intros i. destruct (I1 i) as (s & Ha & Hk). exists s. split; [by apply spot_blobs|]. cbn.
    destruct (blobs r !! i) as [[j ttl]|] eqn:Hb.
    + destruct (alive now (i, (j, ttl))) eqn:Hd.
      * by rewrite (map_lookup_filter_Some_2 _ _ _ (j, ttl)).
      * rewrite map_lookup_filter_None_2; [apply (k_ttl _ _ _ _ Hk); by destruct ttl|].
        right. intros x Hx. rewrite Hb in Hx. injection Hx as <-. by rewrite Hd.
    + rewrite map_lookup_filter_None_2; [done | by left].
  - intros k Hk. apply map_lookup_filter_None_2. left. by apply I4.
Qed.

(** What cannot be written is refused before anything is done. *)
Definition not_utf8 {A} : outcome A := Throw (Exn json_type_error "[json.exception.type_error.316] invalid UTF-8 byte").

Lemma submit_refused ty body retries tp r u m : texts_ok ty body tp = false ->
  submit ty body retries tp (calm r u m) = (not_utf8, calm r (S u) m).
Proof.
  intros Ht. unfold submit, new_uuid. unroll. rewrite Hq.
  match goal with |- context [writable ?j] => assert (writable j = false) as -> end; [|done].
  etransitivity; [symmetry; apply submitted_writable | exact Ht].
Qed.

Lemma complete_refused i res j ttl r u m : blobs r !! i = Some (j, ttl) -> Json.clean res = false ->
  complete i res (calm r u m) = (not_utf8, calm r u m).
Proof.
  intros Hb Hr. unfold complete. unroll. rewrite Hq, Hb. cbv [fmap option_fmap option_map fst].
  match goal with |- context [writable ?j] => assert (writable j = false) as -> end; [|done].
  rewrite writable_parts. cbn [result touched with_result]. rewrite Hr. by rewrite !andb_false_r.
Qed.

Lemma inv_more r n n' : (n <= n')%nat -> jobs_inv r n -> jobs_inv r n'.
Proof. intros Hn [I1 I2 I3 I4 I5]. split; auto. intros k Hk. apply I4. lia. Qed.

Lemma perform_keeps x s :
  default_max_retries q <= I32_MAX -> events s = [] -> jobs_inv (redis s) (uuids s) -> allowed x (redis s) ->
  events (perform x s) = [] /\ jobs_inv (redis (perform x s)) (uuids (perform x s)).
Proof.
  intros Hd He Hi Hx. destruct s as [r ev u m]. cbn in *. subst ev.
  assert (Hg : forall A (op : st JW A) P, good P op -> P r ->
    events (op (calm r u m)).2 = [] /\ jobs_inv (redis (op (calm r u m)).2) (uuids (op (calm r u m)).2)).
  { intros A op P Hop Hp. destruct (Hop r u m Hi Hp) as (a & r' & u' & -> & Hi'). done. }
  destruct x; cbn in Hx |- *.
  - destruct Hx as [Hx _]. destruct (texts_ok ty body tp) eqn:Ht; [apply (Hg _ _ _ (submit_good ty body retries tp Hx Hd Ht) I)|].
    pose proof (submit_refused ty body retries tp r u m Ht) as E. unfold calm in E. rewrite E. split; [done|]. cbn [snd redis uuids calm]. apply (inv_more _ u); [lia | done].
  - destruct Hx as [Hw Hu]. apply (Hg _ _ _ (pick_good types worker Hw Hu) I).
  - destruct (Json.clean res) eqn:Ec; [apply (Hg _ _ _ (complete_good i res Ec) Hx)|].
    destruct Hx as (j & ttl & Hb & _).
    pose proof (complete_refused i res j ttl r u m Hb Ec) as E. unfold calm in E. by rewrite E.
  - destruct Hx as [Hx He]. apply (Hg _ _ _ (fail_good i err He) Hx).
  - destruct Hx as [Hx He]. apply (Hg _ _ _ (dead_letter_good i err He) Hx).
  - apply (Hg _ _ _ (requeue_good i) I).
  - apply (Hg _ _ _ (cancel_good i) Hx).
  - apply (Hg _ _ _ (recover_good worker Hx) I).
  - apply (Hg _ _ _ promote_good I).
  - apply (Hg _ _ _ reap_good I).
  - split; [done|]. by apply expire_keeps.
Qed.

(** The empty queue, and what a history keeps. *)
Lemma nothing_inv m : jobs_inv (mkRedis ∅ ∅ ∅ ∅ ∅ ∅ ∅ ∅) (uuids (mkJW (mkRedis ∅ ∅ ∅ ∅ ∅ ∅ ∅ ∅) [] 0 m)).
Proof.
  split; cbn; [|intros; constructor|intros; constructor|done|done]. intros i. exists Nowhere. split; [|done].
  split; cbn; [..|intros [? ?]; done].
  - intros t. unfold lst. rewrite lookup_empty. split; [by intros ?%elem_of_nil | done].
  - intros w. unfold lst. rewrite lookup_empty. split; [by intros ?%elem_of_nil | done].
  - intros t. unfold lst. rewrite lookup_empty. split; [by intros ?%elem_of_nil | done].
  - split; [set_solver | by intros [? ?]].
  - rewrite lookup_empty. split; [by intros [? ?] | done].
Qed.

Lemma follows_inv xs s : default_max_retries q <= I32_MAX -> jobs_inv (redis s) (uuids s) -> events s = [] -> follows s xs ->
  let s' := fold_left (fun s x => perform x s) xs s in jobs_inv (redis s') (uuids s').
Proof.
  intros Hd. revert s. induction xs as [|x xs IH]; intros s H0 He Hf; [exact H0|]. destruct Hf as [Hx Hf].
  destruct (perform_keeps x s Hd He H0 Hx) as [He' Hi']. cbn [fold_left]. by apply IH.
Qed.

(** C7: No job is lost or duplicated.  Along every history of whole operations on a
    healthy connection (no command fails and no process dies inside an operation) in
    which no type is called [_all], workers have names in UTF-8 and report on jobs in progress, the texts of
    failures are UTF-8 (what cannot be written otherwise, a payload or a result, is
    refused and changes nothing), jobs in backoff are not cancelled and lists are
    recovered only when no leases are given, every job stays where its status says and nowhere
    else: pending on its queue (once) or in the delayed set, processing on its
    worker's list, dead in the dead-letter queue and its index; open jobs keep an
    attempt, only finished ones expire, and no id is without its job. *)
Theorem job_bookkeeping xs m :
  default_max_retries q <= I32_MAX ->
  let s := mkJW (mkRedis ∅ ∅ ∅ ∅ ∅ ∅ ∅ ∅) [] 0 m in
  follows s xs -> let s' := fold_left (fun s x => perform x s) xs s in jobs_inv (redis s') (uuids s').
Proof. intros Hd s Hf. by apply follows_inv; [|apply nothing_inv|..]. Qed.

(** ** Crashes and lost connections *)

(** Nobody else acts; commands may meet any fate. *)
Definition undisturbed (s : JW) : Prop := Forall (fun e => forall r, others e r = r) (events s).

(** The job exists and is on a queue or on a worker's list. *)
Definition reachable (x : string) (r : Redis) : Prop :=
  is_Some (blobs r !! x) /\ ((exists t, x ∈ lst (queues r) t) \/ (exists w, x ∈ lst (procs r) w)).

Definition preserves {A} (x : string) (op : st JW A) : Prop :=
  forall s, undisturbed s -> reachable x (redis s) ->
  undisturbed (op s).2 /\ reachable x (redis (op s).2).

Lemma preserves_bind {A B} x (op : st JW A) (f : A -> st JW B) :
  preserves x op -> (forall a, preserves x (f a)) -> preserves x (op ≫= f).
Proof.
  intros H1 H2 s Hu Hr. rewrite st_bind_case. destruct (H1 s Hu Hr) as [Hu1 Hr1].
  destruct (op s) as [[a| |] s1]; cbn in *; [by apply H2 | done..].
Qed.

Lemma preserves_ret {A} x (a : A) : preserves x (mret a : st JW A).
Proof. by intros s. Qed.

Lemma preserves_catch {A} x (op h : st JW A) : preserves x op -> preserves x h -> preserves x (catch op h).
Proof.
  intros H1 H2 s Hu Hr. unfold catch. destruct (H1 s Hu Hr) as [Hu1 Hr1].
  destruct (op s) as [[a|e|] s1]; cbn in *; [done | | done]. case_bool_decide; [done | by apply H2].
Qed.

(** A command is safe when its effect is. *)
Lemma preserves_cmd {A} x (f : Redis -> A * Redis) :
  (forall r, reachable x r -> reachable x (f r).2) -> preserves x (cmd f).
Proof.
  intros Hf s Hu Hr. unfold cmd. destruct (events s) as [|e es] eqn:E.
  - specialize (Hf _ Hr). destruct (f (redis s)) as [a r]. split; [constructor | exact Hf].
  - unfold undisturbed in Hu. rewrite E in Hu. apply Forall_cons in Hu as [He Hu]. rewrite He.
    specialize (Hf _ Hr). destruct (f (redis s)) as [a r]. by destruct (outcome_of e).
Qed.

Lemma get_missing i s s' : undisturbed s -> redis_get i s = (Ok None, s') -> blobs (redis s') !! i = None /\ undisturbed s'.
Proof.
  unfold redis_get, cmd. intros Hu. destruct (events s) as [|e es] eqn:E.
  - destruct (blobs (redis s) !! i) as [[j t]|] eqn:Hb; cbn; intros [= <-]; (split; [exact Hb | constructor]).
  - unfold undisturbed in Hu. rewrite E in Hu. apply Forall_cons in Hu as [He Hu]. rewrite He.
    destruct (blobs (redis s) !! i) as [[j t]|] eqn:Hb, (outcome_of e); cbn; intros [= <-]; done.
Qed.

(** A push on a queue or a list, and a blob, keep what is there. *)
Lemma reachable_blob x i v r : reachable x r -> reachable x (set_blobs <[i := v]> r).
Proof.
  intros [Hb Hl]. split; [|done]. cbn. destruct (decide (i = x)) as [->|];
    [rewrite lookup_insert_eq; eauto | by rewrite lookup_insert_ne].
Qed.

Lemma reachable_proc x w f r : (forall y l, y ∈ l -> y ∈ f l) -> reachable x r -> reachable x (set_proc w f r).
Proof.
  intros Hf [Hb Hl]. split; [done|]. destruct Hl as [Hl|[w' Hw]]; [by left|]. right. exists w'. cbn.
  rewrite lst_insert. case_decide; subst; auto.
Qed.

Lemma reachable_remove x w i r : x <> i -> reachable x r -> reachable x (set_proc w (without i) r).
Proof.
  intros Hx [Hb Hl]. split; [done|]. destruct Hl as [Hl|[w' Hw]]; [by left|]. right. exists w'. cbn.
  rewrite lst_insert. case_decide; subst; auto. by apply without_other.
Qed.

Lemma claim_preserves x worker i : preserves x (claim worker i).
Proof.
  clear Hq. intros s Hu Hr. unfold claim. rewrite st_bind_case.
  assert (Hget : preserves x (redis_get i)) by by apply preserves_cmd.
  destruct (Hget s Hu Hr) as [Hu1 Hr1]. destruct (redis_get i s) as [[[j|]| |] s1] eqn:E; cbn [snd] in *; try done.
  - apply (preserves_bind x now_epoch); [by intros ? | intros now | done | done].
    apply preserves_bind; [apply preserves_bind; [unfold dumped; case_match; by intros ? | intros _; apply preserves_cmd; intros; by apply reachable_blob]|intros _].
    apply preserves_bind; [|intros; apply preserves_ret].
    destruct (0 <? visibility_timeout_ms q); [|apply preserves_ret].
    apply preserves_bind; [by intros ?|]. intros ms. apply preserves_catch; [by apply preserves_cmd | apply preserves_ret].
  - apply get_missing in E as [Hno _]; [|done]. assert (x <> i) by (intros ->; destruct Hr1 as [[? ?] _]; congruence).
    apply preserves_bind; [| intros; apply preserves_ret | done | done].
    apply preserves_catch; [apply preserves_cmd; intros; by apply reachable_remove | apply preserves_ret].
Qed.

(** A worker's death never loses a job while it is being picked.  When a worker
    takes the next job of one type, whatever becomes of each of its commands
    (refused, executed without an answer, never sent because the process died),
    every existing job that was on a queue or on a worker's list still is. *)
Theorem pick_survives_death x t worker s :
  undisturbed s -> reachable x (redis s) -> reachable x (redis (pick [t] worker s).2).
Proof.
  clear Hq. intros Hu Hr. enough (preserves x (pick [t] worker)) as H1 by by apply H1.
  unfold pick. apply preserves_bind; [unfold check_initialized; case_match; by intros ?|intros _].
  apply preserves_bind; [|intros [i|]; [apply claim_preserves | apply preserves_ret]].
  apply preserves_cmd. intros r Hx. destruct (pop_right (lst (queues r) t)) as [[y rest]|] eqn:Hp; [|done].
  apply pop_right_spec in Hp. destruct Hx as [Hb Hl]. split; [done|]. cbn [snd].
  destruct (decide (x = y)) as [->|Hxy].
  { right. exists worker. cbn. rewrite lst_insert, decide_True by done. by left. }
  destruct Hl as [[t' Ht]|[w Hw]].
  - left. exists t'. cbn. rewrite lst_insert. case_decide as Hd; [|done]. subst t'. rewrite Hp in Ht.
    by apply snoc_other in Ht.
  - right. exists w. cbn. rewrite lst_insert. case_decide; [|done]. right. by subst.
Qed.

(** A worker's death can lose a job that has just failed.  [fail] takes the job
    off its worker's list before it puts it anywhere else: if the process dies in
    between, the job is on no queue, no list, not delayed and not dead, so no
    recovery pass will ever find it, while its blob still says processing. *)
Theorem fail_loses_job_at_death i err r u m j ttl :
  jobs_inv r u -> blobs r !! i = Some (j, ttl) -> status j = "processing" -> visibility_timeout_ms q <= 0 ->
  Json.utf8 err = true ->
  let kill := [mkEvent (fun r => r) Served; mkEvent (fun r => r) Served; mkEvent (fun r => r) Died] in
  exists s', fail i err (mkJW r kill u m) = (Throw (Exn process_death "killed"), s') /\
    at_spot i Nowhere (redis s') /\ blobs (redis s') !! i = Some (j, ttl).
Proof.
  intros Hi Hb Hs Hv He kill. destruct (inv_processing _ _ _ _ _ Hi Hb Hs) as (Ha & Hw & Hk).
  pose proof (failed_writable j err (Z.quot m 1000) (k_writable _ _ _ _ Hk) He) as Hwr. revert Hwr. unfold failed_job.
  cbn [retry_count max_retries touched with_retries]. intros Hwr.
  pose proof (k_budget _ _ _ _ Hk (or_intror Hs)). pose proof (k_max _ _ _ _ Hk).
  exists (mkJW (released j i r) [] u m). split.
  - unfold fail, released. unroll. rewrite Hq. cbv [kill others outcome_of]. rewrite Hb.
    cbv [fmap option_fmap option_map fst]. rewrite i32_ok by bound64.
    cbn [worker_id touched with_retries retry_count max_retries].
    destruct (String.eqb_spec (worker_id j) "") as [|_]; [done|]. rewrite (proj2 (Z.leb_le _ _) Hv).
    destruct (retry_count j + 1 <? max_retries j); cbn [fst snd]; by rewrite Hwr.
  - split; [by apply spot_released; [| apply (inv_leases _ _ Hi)|]|]. cbn. by rewrite (proj1 (released_other j i r)).
Qed.

(** A failure that is not told in UTF-8 strands its job.  [fail] takes the job off its
    worker's list and drops its lease before it makes the text it stores, which throws:
    the job still says processing, and is on no queue, no list, not delayed and not dead.
    [dead_letter] leaves it in the dead-letter queue saying the same, where a requeue
    refuses it. *)
Theorem unwritable_failure_strands i err r u m j ttl :
  jobs_inv r u -> blobs r !! i = Some (j, ttl) -> status j = "processing" -> Json.utf8 err = false ->
  (exists r', fail i err (calm r u m) = (not_utf8, calm r' u m) /\ at_spot i Nowhere r' /\ blobs r' !! i = Some (j, ttl)) /\
  (exists r', dead_letter i err (calm r u m) = (not_utf8, calm r' u m) /\ at_spot i (OnDlq (type j)) r' /\
     requeue_from_dlq i (calm r' u m) = (Ok false, calm r' u m)).
Proof.
  intros Hi Hb Hs He. destruct (inv_processing _ _ _ _ _ Hi Hb Hs) as (Ha & Hw & Hk).
  pose proof (k_budget _ _ _ _ Hk (or_intror Hs)). pose proof (k_max _ _ _ _ Hk).
  assert (Hno : forall s j', writable (with_error err (with_status s j')) = false).
  { intros s j'. rewrite writable_parts. cbn [error with_error]. by rewrite He. }
  pose proof (spot_released i j r Hw (inv_leases _ _ Hi) Ha) as Hn. split.
  - exists (released j i r). split; [|split; [done | by rewrite (proj1 (released_other j i r))]].
    unfold fail, released. unroll. rewrite Hq, Hb. cbv [fmap option_fmap option_map fst]. rewrite i32_ok by bound64.
    cbn [retry_count max_retries touched with_retries worker_id type]. rewrite !Hno.
    by destruct (String.eqb (worker_id j) ""), (visibility_timeout_ms q <=? 0), (retry_count j + 1 <? max_retries j).
  - exists (set_dlq_all (union {[i]}) (set_dlq (type j) (cons i) (released j i r))). split; [|split; [by apply spot_to_dlq|]].
    + unfold dead_letter, released. unroll. rewrite Hq, Hb. cbv [fmap option_fmap option_map fst].
      cbn [worker_id touched type with_error with_status]. rewrite !Hno.
      by destruct (String.eqb (worker_id j) ""), (visibility_timeout_ms q <=? 0).
    + apply requeue_refused. intros j' ttl'. cbn. rewrite (proj1 (released_other j i r)), Hb. intros [= <- _]. congruence.
Qed.

(** ** Two ways a job runs again *)

Lemma due_one now i z : 0 <= z <= now -> due now {[i := z]} = [i].
Proof.
  intros H1. unfold due. rewrite map_to_list_singleton. cbn [List.filter snd].
  rewrite (proj2 (Z.leb_le _ _)), (proj2 (Z.leb_le _ _)) by lia. done.
Qed.

(** Cancelling a job that waits out its backoff does not stop it.  [cancel]
    answers yes and marks it failed, but leaves it in the delayed set; the next
    promotion puts it back on its queue, and a worker of its type takes it and
    runs it. *)
Theorem cancelled_job_runs i j ttl r u m m' z worker :
  jobs_inv r u -> blobs r !! i = Some (j, ttl) -> delayed r = {[i := z]} -> 0 <= z <= m' ->
  0 < retry_backoff_base_ms q -> lst (queues r) (type j) = [] -> worker <> "" -> Json.utf8 worker = true ->
  exists r1 r2 r3 j3,
    cancel i (calm r u m) = (Ok true, calm r1 u m) /\
    (exists jc t, blobs r1 !! i = Some (jc, t) /\ status jc = "failed" /\ error jc = "cancelled") /\
    promote_due_jobs (calm r1 u m') = (Ok 1, calm r2 u m') /\ i ∈ lst (queues r2) (type j) /\
    pick [type j] worker (calm r2 u m') = (Ok (Some j3), calm r3 u m') /\
    id j3 = i /\ status j3 = "processing".
Proof.
  intros Hi Hb Hd Hz Hbase Hempty Hw Hu. destruct (inv_at _ _ _ _ _ Hi Hb) as (s & Ha & Hk).
  assert (s = Parked) as -> by (apply (at_delayed _ _ _ Ha); rewrite Hd, lookup_singleton_eq; eauto).
  pose proof (k_belongs _ _ _ _ Hk) as Hs. cbn in Hs.
  set (jc := touched (Z.quot m 1000) (with_error "cancelled" (with_status "failed" j))).
  pose proof (k_writable _ _ _ _ Hk). assert (Hj : writable jc = true) by (unfold jc; wr).
  set (exp := Some (Z.quot m 1000 + result_ttl q)).
  pose (r0 := set_queue (type j) (without i) (set_blobs <[i := (jc, exp)]> r)).
  pose (r1 := if visibility_timeout_ms q <=? 0 then r0 else set_leases (delete i) r0).
  assert (E1 : blobs r1 !! i = Some (jc, exp)) by (unfold r1; case_match; cbn; apply lookup_insert_eq).
  assert (E2 : delayed r1 = {[i := z]}) by (unfold r1; by case_match).
  assert (E3 : lst (queues r1) (type j) = []).
  { unfold r1. case_match; cbn; by rewrite lst_insert, decide_True, Hempty by done. }
  pose (r2 := set_queue (type j) (cons i) (set_delayed (delete i) r1)).
  assert (E4 : lst (queues r2) (type j) = [i]) by (cbn; by rewrite lst_insert, decide_True, E3 by done).
  exists r1, r2, (claimed (type j) i worker [] jc (cons i) m' r2),
    (touched (Z.quot m' 1000) (with_worker worker (with_status "processing" jc))).
  split. { unfold cancel. unroll. rewrite Hq, Hb. cbv [fmap option_fmap option_map fst]. rewrite Hs.
           cbn [orb andb String.eqb Ascii.eqb Bool.eqb]. fold jc. rewrite Hj. unfold r1. by destruct (visibility_timeout_ms q <=? 0). }
  split; [by exists jc, exp|]. split.
  { unfold promote_due_jobs. rewrite Hq, (proj2 (Z.leb_gt _ _)) by lia. cbn [negb orb].
    rewrite st_bind_case. unfold clock, gets. cbn [calm now_ms]. rewrite st_bind_case.
    rewrite (catch_ok _ _ _ (Some [i]) (calm r1 u m')) by (unroll; by rewrite E2, due_one).
    cbn [promote_loop]. rewrite (st_bind_ok _ _ _ 1 (calm r2 u m')); [done|]. apply catch_ok. unroll. rewrite E2, lookup_singleton_eq.
    rewrite bool_decide_eq_true_2 by done. cbn [blobs set_delayed]. rewrite E1. reflexivity. }
  split; [rewrite E4; by left|]. split; [|split; [apply (k_id _ _ _ _ Hk) | done]].
  unfold pick, check_initialized. rewrite Hq, st_bind_case. cbn [mret st_ret]. unfold pick_one. rewrite st_bind_case.
  unfold brpoplpush, cmd. cbn [events calm redis uuids now_ms]. rewrite E4. cbn [pop_right rev app].
  apply (claim_run _ _ _ _ _ exp); [done | apply (k_id _ _ _ _ Hk) | by apply taken_writable].
Qed.

(** A recovered job can run twice.  [recover_processing] puts a job of a
    restarted worker back on its queue but leaves its lease; when the lease
    expires before another worker takes the job, the reaper charges it a failed
    attempt and queues it a second time (when no backoff is configured). *)
Theorem recovered_job_queued_twice i j ttl w r u m m' z :
  jobs_inv r u -> blobs r !! i = Some (j, ttl) -> lst (procs r) w = [i] -> leases r = {[i := z]} ->
  w <> "" -> 0 < visibility_timeout_ms q -> 0 <= z <= m' -> retry_backoff_base_ms q <= 0 ->
  lst (queues r) (type j) = [] -> retry_count j + 1 < max_retries j ->
  exists r1 r2, recover_processing w (calm r u m) = (Ok 1, calm r1 u m) /\
    lst (queues r1) (type j) = [i] /\
    reap_expired_leases (calm r1 u m') = (Ok 1, calm r2 u m') /\
    lst (queues r2) (type j) = [i; i] /\
    exists j2 t, blobs r2 !! i = Some (j2, t) /\ retry_count j2 = retry_count j + 1.
Proof.
  intros Hi Hb Hp Hl Hw Hv Hz Hbo Hempty Hr. destruct (inv_at _ _ _ _ _ Hi Hb) as (s & Ha & Hk).
  pose proof (k_max _ _ _ _ Hk).
  assert (s = OnProc w) as -> by (apply (at_proc _ _ _ Ha); rewrite Hp; by left).
  pose proof (k_belongs _ _ _ _ Hk) as (Hs & Hjw & _). pose proof (k_budget _ _ _ _ Hk (or_intror Hs)).
  pose (job := touched (Z.quot m 1000) (with_worker "" (with_status "pending" j))).
  pose proof (k_writable _ _ _ _ Hk). assert (Hj : writable job = true) by (unfold job; wr).
  pose (r1 := set_proc w (fun _ => []) (set_queue (type j) (cons i) (set_blobs <[i := (job, None)]> r))).
  assert (E0 : blobs r1 !! i = Some (job, None)) by (cbn; apply lookup_insert_eq).
  assert (E1 : lst (queues r1) (type j) = [i]) by (cbn; by rewrite lst_insert, decide_True, Hempty by done).
  exists r1, (failed job i "visibility timeout exceeded" m' (set_leases (delete i) r1)).
  split. { unfold recover_processing. rewrite st_bind_case. unfold check_initialized. rewrite Hq. cbn [mret st_ret].
    destruct (String.eqb_spec w "") as [|_]; [done|]. rewrite st_bind_case.
    rewrite (catch_ok _ _ _ (Some [i]) (calm r u m)) by (unroll; by rewrite Hp). cbn [recover_loop].
    unroll. rewrite Hb. cbv [fmap option_fmap option_map fst]. fold job. by rewrite Hj. }
  split; [exact E1|]. split.
  { unfold reap_expired_leases. rewrite Hq, (proj2 (Z.leb_gt _ _)) by lia. cbn [negb orb].
    rewrite st_bind_case. unfold clock, gets. cbn [calm now_ms]. rewrite st_bind_case.
    rewrite (catch_ok _ _ _ (Some [i]) (calm r1 u m')) by (unroll; cbn [leases r1 set_proc set_queue set_blobs]; by rewrite Hl, due_one).
    cbn [reap_loop]. rewrite (st_bind_ok _ _ _ 1 (calm (failed job i "visibility timeout exceeded" m' (set_leases (delete i) r1)) u m')); [done|].
    apply catch_ok. rewrite st_bind_case. unfold zrem_lease, cmd. cbn [events calm redis uuids now_ms leases r1 set_proc set_queue set_blobs].
    rewrite Hl, lookup_singleton_eq, bool_decide_eq_true_2 by done.
    change (mkJW ?x [] u m') with (calm x u m').
    rewrite (st_bind_ok _ _ _ tt (calm (failed job i "visibility timeout exceeded" m' (set_leases (delete i) r1)) u m')); [done|].
    apply (fail_run _ _ _ None); [done | exact E0 | | by apply failed_writable].
    unfold in_i32. cbn. rewrite (proj2 (Z.leb_le _ _)), (proj2 (Z.leb_le _ _)); [done | bound64..]. }
  assert (E2 : backoff_delay_ms q (retry_count job + 1) = 0) by (unfold backoff_delay_ms; by rewrite (proj2 (Z.leb_le _ _))).
  unfold failed. cbn zeta. rewrite E2. cbn [Z.ltb Z.compare]. rewrite (proj2 (Z.ltb_lt _ _)) by exact Hr.
  unfold released. cbn zeta. cbn [worker_id job touched with_worker String.eqb]. rewrite (proj2 (Z.leb_gt _ _)) by lia.
  cbn [queues set_queue set_blobs set_leases r1 type job touched with_worker with_status].
  split; [|eexists _, _; split; [apply lookup_insert_eq | done]].
  rewrite lst_insert, decide_True by done. f_equal. exact E1.
Qed.

(** Backoff.  With a positive base, the delay after the [n]-th failure is
    positive and never above the configured maximum (raised to the base when it
    is smaller), and as long as the base shifted by 30 fits it is exactly the base
    doubled [n - 1] times, at most 30, capped at the maximum; with no base the job
    is requeued at once. *)
Theorem backoff_grows base limit n :
  let q' := set_retry_backoff base limit q in
  (base <= 0 -> backoff_delay_ms q' n = 0) /\
  (0 < base -> 0 < backoff_delay_ms q' n <= Z.max base limit) /\
  (0 < base -> 1 <= n -> base * 2 ^ 30 <= I64_MAX ->
   backoff_delay_ms q' n = Z.min (base * 2 ^ Z.min (n - 1) 30) (Z.max base limit)).
Proof.
  intros q'. assert (Eb : retry_backoff_base_ms q' = Z.max 0 base) by (cbn; destruct (Z.ltb_spec base 0); lia).
  assert (Em : retry_backoff_max_ms q' = Z.max base limit) by (cbn; destruct (Z.ltb_spec limit base); lia).
  unfold backoff_delay_ms. rewrite Eb, Em. split; [intros; by rewrite (proj2 (Z.leb_le _ _)) by lia|].
  split; intros Hb; rewrite (proj2 (Z.leb_gt _ _)) by lia; cbn zeta.
  - match goal with |- context [(?d <=? 0) || _] => generalize d; intros x end.
    destruct (Z.leb_spec x 0), (Z.ltb_spec (Z.max base limit) x); cbn [orb]; lia.
  - intros Hn Hfit. rewrite (proj2 (Z.ltb_lt 0 n)) by lia.
    assert ((if 30 <? n - 1 then 30 else n - 1) = Z.min (n - 1) 30) as -> by (destruct (Z.ltb_spec 30 (n - 1)); lia).
    set (k := Z.min (n - 1) 30). assert (0 <= k <= 30) by lia. rewrite Z.max_r by lia.
    rewrite Z.shiftl_mul_pow2 by lia. assert (2 ^ k <= 2 ^ 30) by (apply Z.pow_le_mono_r; lia).
    assert (0 < 2 ^ k) by (apply Z.pow_pos_nonneg; lia). set (d := base * 2 ^ k). assert (0 < d <= base * 2 ^ 30) by (unfold d; nia).
    assert (wrap64 d = d) as ->.
    { unfold wrap64. rewrite Z.mod_small; [lia|]. unfold I64_MAX in Hfit. lia. }
    destruct (Z.leb_spec d 0), (Z.ltb_spec (Z.max base limit) d); cbn [orb]; lia.
Qed.
End Queue.

(** ** Witnesses: two workers, one type, backoff and leases on or off *)

Fixpoint tally (n : nat) : string := match n with O => "j" | S m => String "j" (tally m) end.

Lemma tally_inj m n : tally m = tally n -> m = n.
Proof.
  assert (forall k, tally k <> "") as Hne by by intros [|k].
  revert n. induction m as [|m IH]; intros [|n] H; cbn in H; try done.
  - injection H as H. by destruct (Hne n).
  - injection H as H. by destruct (Hne m).
  - f_equal. apply IH. by injection H.
Qed.

Lemma tally_utf8 n : Json.utf8 (tally n) = true.
Proof. apply Json.utf8_ascii. by induction n. Qed.

#[export] Instance tally_source : UuidSource :=
  {| generate_uuid := tally; generate_uuid_inj := tally_inj; generate_uuid_utf8 := tally_utf8 |}.

Definition plain_queue : JobQueue := mkQueue true 86400 3 0 60000 0.
Definition patient_queue : JobQueue := mkQueue true 86400 3 1000 60000 0.
Definition leasing_queue : JobQueue := mkQueue true 86400 3 0 60000 30000.
Definition nothing (m : Z) : JW := mkJW (mkRedis ∅ ∅ ∅ ∅ ∅ ∅ ∅ ∅) [] 0 m.

Definition week : list request :=
  [Submit "mail" JNull (-1) ""; Pick ["mail"] "w1"; Fail_ "j" "timeout"; Wait 5000; Promote;
   Pick ["mail"; "report"] "w2"; Complete "j" JNull].

Lemma week_follows : follows patient_queue (nothing 1000000) week.
Proof.
  repeat split; try (vm_compute; discriminate); eexists _, _; split; vm_compute; reflexivity.
Qed.

Lemma job_bookkeeping_witness :
  let s' := fold_left (fun s x => perform patient_queue x s) week (nothing 1000000) in
  jobs_inv patient_queue (redis s') (uuids s').
Proof.
  apply (job_bookkeeping patient_queue eq_refl week 1000000); [vm_compute; discriminate | exact week_follows].
Defined.

(** One mail job, taken by [w1]; then the same after a failure. *)
Definition taken (q : JobQueue) : JW :=
  fold_left (fun s x => perform q x s) [Submit "mail" JNull (-1) ""; Pick ["mail"] "w1"] (nothing 1000000).
Definition resting : JW := perform patient_queue (Fail_ "j" "timeout") (taken patient_queue).

Lemma taken_inv q :
  q = plain_queue \/ q = leasing_queue -> jobs_inv q (redis (taken q)) (uuids (taken q)).
Proof.
  intros [-> | ->]; (apply follows_inv; [reflexivity | vm_compute; discriminate | by apply nothing_inv | done |]);
    repeat split; try (vm_compute; discriminate).
Qed.

Lemma resting_inv : jobs_inv patient_queue (redis resting) (uuids resting).
Proof.
  apply (follows_inv patient_queue eq_refl
    [Submit "mail" JNull (-1) ""; Pick ["mail"] "w1"; Fail_ "j" "timeout"]); [vm_compute; discriminate | by apply nothing_inv | done |].
  repeat split; try (vm_compute; discriminate). eexists _, _; split; vm_compute; reflexivity.
Qed.

Definition mail_job (s : string) (retries : Z) (err : string) : Job :=
  mkJob "j" "mail" JNull s JNull err "w1" "" "" retries 3 1000 1000.

Lemma pick_survives_death_witness :
  reachable "j" (redis (pick plain_queue ["mail"] "w2"
    (mkJW (redis (taken plain_queue)) [mkEvent (fun r => r) Unanswered] 1 1000000)).2).
Proof.
  apply pick_survives_death.
  - repeat constructor.
  - split; [eexists; vm_compute; reflexivity|]. right. exists "w1". by apply list_elem_of_In; left.
Defined.

Lemma fail_loses_job_at_death_witness :
  exists s', fail plain_queue "j" "boom"
    (mkJW (redis (taken plain_queue)) [mkEvent (fun r => r) Served; mkEvent (fun r => r) Served;
       mkEvent (fun r => r) Died] 1 1000000) = (Throw (Exn process_death "killed"), s') /\
    at_spot "j" Nowhere (redis s').
Proof.
  destruct (fail_loses_job_at_death plain_queue eq_refl "j" "boom" (redis (taken plain_queue)) 1 1000000
              (mail_job "processing" 0 "") None) as (s' & H1 & H2 & _);
    [exact (taken_inv _ (or_introl eq_refl)) | vm_compute; reflexivity | reflexivity | vm_compute; discriminate | reflexivity |].
  exists s'. split; [exact H1 | exact H2].
Defined.

(** A lone continuation byte. *)
Lemma unwritable_failure_strands_witness :
  exists r', fail plain_queue "j" (String (chr 0x80) "") (calm (redis (taken plain_queue)) 1 1000000)
    = (not_utf8, calm r' 1 1000000) /\ at_spot "j" Nowhere r'.
Proof.
  destruct (unwritable_failure_strands plain_queue eq_refl "j" (String (chr 0x80) "") (redis (taken plain_queue)) 1 1000000
              (mail_job "processing" 0 "") None) as [(r' & H1 & H2 & _) _];
    [exact (taken_inv _ (or_introl eq_refl)) | vm_compute; reflexivity | reflexivity | reflexivity |].
  exists r'. split; [exact H1 | exact H2].
Defined.

Lemma cancelled_job_runs_witness :
  exists r1 r2 r3 j3, cancel patient_queue "j" (calm (redis resting) 1 1000000) = (Ok true, calm r1 1 1000000) /\
    promote_due_jobs patient_queue (calm r1 1 1001000) = (Ok 1, calm r2 1 1001000) /\
    pick patient_queue ["mail"] "w2" (calm r2 1 1001000) = (Ok (Some j3), calm r3 1 1001000) /\ id j3 = "j".
Proof.
  destruct (cancelled_job_runs patient_queue eq_refl "j" (mail_job "pending" 1 "timeout") None (redis resting) 1
              1000000 1001000 1001000 "w2") as (r1 & r2 & r3 & j3 & H1 & _ & H2 & _ & H3 & H4 & _);
    [exact resting_inv | vm_compute; reflexivity | vm_compute; reflexivity | lia | reflexivity | reflexivity | discriminate | reflexivity |].
  exists r1, r2, r3, j3. split; [exact H1|]. split; [exact H2|]. split; [exact H3 | exact H4].
Defined.

Lemma recovered_job_queued_twice_witness :
  exists r1 r2, recover_processing leasing_queue "w1" (calm (redis (taken leasing_queue)) 1 1000000)
      = (Ok 1, calm r1 1 1000000) /\
    reap_expired_leases leasing_queue (calm r1 1 1030000) = (Ok 1, calm r2 1 1030000) /\
    lst (queues r2) "mail" = ["j"; "j"].
Proof.
  destruct (recovered_job_queued_twice leasing_queue eq_refl "j" (mail_job "processing" 0 "") None "w1"
              (redis (taken leasing_queue)) 1 1000000 1030000 1030000) as (r1 & r2 & H1 & _ & H2 & H3 & _);
    [exact (taken_inv _ (or_intror eq_refl)) | vm_compute; reflexivity | vm_compute; reflexivity | vm_compute; reflexivity
    | discriminate | reflexivity | lia | vm_compute; discriminate | reflexivity | reflexivity |].
  exists r1, r2. split; [exact H1|]. split; [exact H2 | exact H3].
Defined.

Lemma backoff_grows_witness :
  backoff_delay_ms (set_retry_backoff 1000 60000 plain_queue) 3 = Z.min (1000 * 2 ^ Z.min 2 30) 60000.
Proof. apply (backoff_grows plain_queue 1000 60000 3); [lia | lia | vm_compute; discriminate]. Defined.

End Jobs.
