(* ===== verification/Agent.v ===== *)
(** * The agent

    src/tenancy/OrgPermissions.hpp, src/agent/AutonomyPolicy.hpp,
    src/agent/ToolRegistry.hpp, src/agent/AgentRepository.hpp and
    src/agent/Orchestrator.hpp: the role matrix, the autonomy policies, the one
    way to execute a tool, the log of runs, steps and approvals, and the loop
    between the model and the tools.  The model, the tools' handlers and the rest
    of the system ([D]) are arbitrary.  What the log cannot hold is refused the way the
    code meets it: a JSON value that is not UTF-8 throws in [dump], one with a zero
    byte is refused by [jsonb], a text that is not UTF-8 by the server's encoding. *)
From Stdlib Require Import ZArith Lia Ascii String.
From S2P Require Import Prelude Json Money JournalDb.
Open Scope string_scope.
Open Scope Z_scope.
Set Warnings "-clear-no-such-hyp".

Module Agent.

(** ** The role matrix *)

(** [kRoles]: src/tenancy/OrgPermissions.hpp:69-70. *)
Definition kRoles : list string := ["owner"; "accountant"; "hr"; "viewer"; "agent"].

(** [MatrixRow]: src/tenancy/OrgPermissions.hpp:76-79.  A missing column is [nullptr]. *)
Record MatrixRow := mkRow { row_resource : string; grants : list string }.

(** [kMatrix]: src/tenancy/OrgPermissions.hpp:85-121. *)
Definition kMatrix : list MatrixRow :=
  [mkRow "employees" ["rw"; "rw"; "rw"; "r"; "rw"];
   mkRow "hr_docs" ["rw"; "rw"; "rw"; "r"; "rw"];
   mkRow "payroll" ["rw"; "rw"; ""; "r"; "rw"];
   mkRow "payroll_posting" ["rw"; "rw"; ""; ""; "rw"];
   mkRow "journal" ["rw"; "rw"; ""; "r"; "rw"];
   mkRow "counterparties" ["rw"; "rw"; ""; "r"; "rw"];
   mkRow "documents" ["rw"; "rw"; ""; "r"; "rw"];
   mkRow "tax" ["rw"; "rw"; ""; "r"; "rw"];
   mkRow "members" ["rw"; ""; ""; ""; ""];
   mkRow "requisites" ["rw"; "r"; ""; "r"; "r"];
   mkRow "templates" ["rw"; "rw"; ""; "r"; "rw"];
   mkRow "hr_templates" ["rw"; "rw"; "rw"; "r"; "rw"]].

(** [role_index]: src/tenancy/OrgPermissions.hpp:125-131. *)
Fixpoint role_index_in (roles : list string) (role : string) : nat :=
  match roles with
  | [] => 0
  | r :: rest => if String.eqb role r then 0 else S (role_index_in rest role)
  end.
Definition role_index (role : string) : nat := role_index_in kRoles role.

(** [grant_for]: src/tenancy/OrgPermissions.hpp:142-152. *)
Definition grant_for (rows : list MatrixRow) (role resource : string) : option string :=
  let r := role_index role in
  if (r =? length kRoles)%nat then None
  else match List.find (fun row => String.eqb resource (row_resource row)) rows with
       | Some row => grants row !! r
       | None => None
       end.

(** [allows]: src/tenancy/OrgPermissions.hpp:178-188. *)
Definition allows (role resource action : string) : bool :=
  match grant_for kMatrix role resource with
  | None => false
  | Some granted =>
      if String.eqb action "read" then negb (String.eqb granted "")
      else if String.eqb action "write" then match str_find "w" granted with Some _ => true | None => false end
      else false
  end.

(** ** Autonomy policies *)

(** [Mode]: src/agent/AutonomyPolicy.hpp:33-33. *)
Inductive Mode := kAuto | kApprove | kForbid.

#[export] Instance Mode_eq_dec : EqDecision Mode.
Proof. solve_decision. Defined.

(** [mode_name]: src/agent/AutonomyPolicy.hpp:35-45. *)
Definition mode_name (m : Mode) : string :=
  match m with kAuto => "auto" | kApprove => "approve" | kForbid => "forbid" end.

(** [parse_mode]: src/agent/AutonomyPolicy.hpp:47-55. *)
Definition parse_mode (s : string) : option Mode :=
  if String.eqb s "auto" then Some kAuto
  else if String.eqb s "approve" then Some kApprove
  else if String.eqb s "forbid" then Some kForbid
  else None.

(** [Policy]: src/agent/AutonomyPolicy.hpp:58-67. *)
Record Policy := mkPolicy {
  pol_action : string; pol_mode : Mode; max_amount_tiyn : option Z; counterparty_allowlist : list string;
  pol_doc_type : option string; require_prior_approval : bool
}.

(** [Action]: src/agent/AutonomyPolicy.hpp:70-81. *)
Record Action := mkAction {
  act_name : string; amount_tiyn : option Z; counterparty_id : option string; act_doc_type : option string;
  has_prior_approval : bool
}.

(** [Decision]: src/agent/AutonomyPolicy.hpp:83-89. *)
Record Decision := mkDecision { mode : Mode; reason : string }.

Definition mode_int (m : Mode) : Z := match m with kAuto => 0 | kApprove => 1 | kForbid => 2 end.

(** [strictest_of]: src/agent/AutonomyPolicy.hpp:95-97. *)
Definition strictest_of (a b : Mode) : Mode := if mode_int b <=? mode_int a then a else b.

(** One check of the chain: when it fails the mode drops and the reason changes. *)
Definition lower (fails : bool) (why : string) (d : Decision) : Decision :=
  if fails then mkDecision (strictest_of (mode d) kApprove) why else d.

Definition listed (l : list string) (c : option string) : bool :=
  match c with Some x => existsb (String.eqb x) l | None => false end.

(** [evaluate]: src/agent/AutonomyPolicy.hpp:131-142.  An action without an amount does not pass a limit. *)
Definition check_amount (p : Policy) (action : Action) (d : Decision) : Decision :=
  match max_amount_tiyn p, amount_tiyn action with
  | Some _, None => lower true "у действия нет суммы, а политика задаёт предел — проверить человеку" d
  | Some limit, Some amount => lower (limit <? amount) "сумма превышает предел политики" d
  | None, _ => d
  end.

(** [evaluate]: src/agent/AutonomyPolicy.hpp:144-154. *)
Definition check_counterparty (p : Policy) (action : Action) (d : Decision) : Decision :=
  match counterparty_allowlist p with
  | [] => d
  | l => lower (negb (listed l (counterparty_id action)))
           (match counterparty_id action with
            | Some _ => "контрагент не в белом списке политики"
            | None => "у действия нет контрагента, а политика задаёт белый список"
            end) d
  end.

(** [evaluate]: src/agent/AutonomyPolicy.hpp:156-159. *)
Definition check_doc_type (p : Policy) (action : Action) (d : Decision) : Decision :=
  match pol_doc_type p, act_doc_type action with
  | Some a, Some b => lower (negb (String.eqb a b)) "тип документа не тот, для которого задана политика" d
  | _, _ => d
  end.

(** [evaluate]: src/agent/AutonomyPolicy.hpp:116-167. *)
Definition evaluate (policy : option Policy) (action : Action) : Decision :=
  match policy with
  | None =>
      mkDecision kApprove ("для действия '" +:+ act_name action +:+
        "' политика не задана — по умолчанию требуется одобрение")
  | Some p =>
      match pol_mode p with
      | kForbid => mkDecision kForbid ("действие '" +:+ act_name action +:+ "' запрещено политикой организации")
      | kApprove => mkDecision kApprove ("политика для '" +:+ act_name action +:+ "' требует одобрения")
      | kAuto =>
          let d := mkDecision kAuto ("политика разрешает '" +:+ act_name action +:+ "' автоматически") in
          let d := check_amount p action d in
          let d := check_counterparty p action d in
          let d := check_doc_type p action d in
          lower (require_prior_approval p && negb (has_prior_approval action))
            "политика разрешает автоматически только повторение уже одобренного действия" d
      end
  end.

(** ** The log: runs, steps, approvals, policies *)

(** [Run]: src/agent/AgentRepository.hpp:35-47. *)
Record Run := mkRun {
  run_id : string; run_org : string; trigger : string; started_by : option string; run_status : string;
  summary : string; input_tokens : Z; output_tokens : Z; cost_tiyn : Z; run_error : option string; run_created : Z
}.

(** [Step]: src/agent/AgentRepository.hpp:49-59. *)
Record Step := mkStep {
  step_run : string; seq : Z; step_kind : string; tool : option string; payload : json;
  policy_decision : option string; policy_reason : option string
}.

(** [ApprovalRequest]: src/agent/AgentRepository.hpp:61-72. *)
Record ApprovalRequest := mkApproval {
  ap_id : string; ap_org : string; ap_run : option string; ap_action : string; ap_payload : json;
  ap_diff : string; ap_status : string; decided_by : option string; comment : string
}.

(** A row of [autonomy_policies]: migrations/029_agent_foundation.sql. *)
Record PolicyRow := mkPolicyRow {
  pr_org : string; pr_action : string; pr_mode : string; pr_max : option Z; pr_allow : option string;
  pr_doc : option string; pr_prior : bool
}.

Record AgentDB := mkADB {
  a_runs : list Run; a_steps : list Step; a_policies : list PolicyRow; a_approvals : list ApprovalRequest;
  a_orgs : gset string; a_users : gset string; a_seq : nat; a_now : Z
}.

Definition set_runs f (d : AgentDB) : AgentDB :=
  mkADB (f (a_runs d)) (a_steps d) (a_policies d) (a_approvals d) (a_orgs d) (a_users d) (a_seq d) (a_now d).
Definition set_steps f (d : AgentDB) : AgentDB :=
  mkADB (a_runs d) (f (a_steps d)) (a_policies d) (a_approvals d) (a_orgs d) (a_users d) (a_seq d) (a_now d).
Definition set_approvals f (d : AgentDB) : AgentDB :=
  mkADB (a_runs d) (a_steps d) (a_policies d) (f (a_approvals d)) (a_orgs d) (a_users d) (a_seq d) (a_now d).
Definition next_id (d : AgentDB) : AgentDB :=
  mkADB (a_runs d) (a_steps d) (a_policies d) (a_approvals d) (a_orgs d) (a_users d) (S (a_seq d)) (a_now d).

(** [parse_uuid_array]: src/agent/AgentRepository.hpp:366-383. *)
Fixpoint parse_uuid_chars (raw cur : string) : list string :=
  match raw with
  | EmptyString => if String.eqb cur "" then [] else [cur]
  | String c rest =>
      if Ascii.eqb c "{" || Ascii.eqb c "}" || Ascii.eqb c (chr 34) then parse_uuid_chars rest cur
      else if Ascii.eqb c "," then
        (if String.eqb cur "" then [] else [cur]) ++ parse_uuid_chars rest EmptyString
      else parse_uuid_chars rest (cur +:+ String c EmptyString)
  end.
Definition parse_uuid_array (raw : string) : list string := parse_uuid_chars raw EmptyString.

(** The server's choice of a row under LIMIT 1 without ORDER BY, and the text form of
    timestamps. *)
Class Platform := {
  any_row : list PolicyRow -> option PolicyRow;
  timestamptz_in : string -> option Z;
  any_row_in : forall l x, any_row l = Some x -> x ∈ l;
  any_row_some : forall l, l <> [] -> is_Some (any_row l)
}.

(** *** Texts and values the tables hold *)

(** A [std::string] as the driver sends it to a text column: up to its first zero byte. *)
Fixpoint c_str (s : string) : string :=
  match s with
  | EmptyString => EmptyString
  | String c r => if Ascii.eqb c (chr 0) then EmptyString else String c (c_str r)
  end.

Definition no_nul (s : string) : bool := str_all (fun c => negb (Ascii.eqb c (chr 0))) s.

Fixpoint no_nul_in (j : json) : bool :=
  match j with
  | JString s => no_nul s
  | JArray l => forallb no_nul_in l
  | JObject l => forallb (fun e => no_nul e.1 && no_nul_in e.2) l
  | _ => true
  end.

(** A text that any column holds as it is, and a value that any [jsonb] column holds. *)
Definition legible (s : string) : bool := Json.utf8 s && no_nul s.
Definition storable (j : json) : bool := Json.clean j && no_nul_in j.

Lemma c_str_id s : no_nul s = true -> c_str s = s.
Proof.
  induction s as [|c r IH]; [done|]. cbn [c_str]. intros [Hc Hr]%andb_true_iff. apply negb_true_iff in Hc as ->. by rewrite IH.
Qed.

Lemma legible_app s t : legible s = true -> legible t = true -> legible (s +:+ t) = true.
Proof.
  intros [Hs Ns]%andb_true_iff [Ht Nt]%andb_true_iff. unfold legible, no_nul in *.
  by rewrite Json.utf8_app, str_all_app, Ns, Nt.
Qed.

Lemma legible_number z : legible (to_string z) = true.
Proof.
  assert (H : forall n, legible (dec n) = true).
  { intros n. apply andb_true_iff. split; [apply Json.utf8_ascii|]; (eapply str_all_impl; [|apply dec_all]);
      intros c [H1%Z.leb_le H2%Z.leb_le]%andb_true_iff.
    - apply andb_true_iff. split; apply Z.leb_le; lia.
    - apply negb_true_iff, Ascii.eqb_neq. intros ->. by apply H1. }
  unfold to_string. destruct (z <? 0); [|apply H]. change (String "-" ?t) with ("-" +:+ t). by apply legible_app.
Qed.

Lemma storable_string s : legible s = true -> storable (JString s) = true.
Proof. done. Qed.

Lemma storable_object k v l :
  legible k = true -> storable v = true -> storable (JObject l) = true -> storable (JObject ((k, v) :: l)) = true.
Proof.
  unfold storable, legible. cbn [Json.clean no_nul_in forallb fst snd].
  intros [-> ->]%andb_true_iff [-> ->]%andb_true_iff [-> ->]%andb_true_iff. done.
Qed.

Lemma storable_array l : Forall (fun j => storable j = true) l -> storable (JArray l) = true.
Proof.
  unfold storable. cbn [Json.clean no_nul_in]. induction 1 as [|j l Hj Hl IH]; [done|]. cbn [forallb].
  apply andb_true_iff in Hj as [-> ->]. exact IH.
Qed.

Section System.
Context `{PG : Postgres} `{PL : Platform} `{JT : Json.JsonText} {D : Type}.

(** The agent's tables and the rest of the world. *)
Definition State : Type := AgentDB * D.

(** One statement on the agent's tables. *)
Definition on_db {A} (f : AgentDB -> outcome (A * AgentDB)) : st State A := fun s =>
  match f s.1 with
  | Ok (a, d) => (Ok a, (d, s.2))
  | Throw e => (Throw e, s)
  | Undef => (Undef, s)
  end.

Definition sql_state {A} (state : string) : outcome A := Throw (Exn pqxx_sql_error state).

(** A parameter of a text column, and of a [jsonb] column. *)
Definition text_param (s : string) : outcome string := if Json.utf8 (c_str s) then Ok (c_str s) else sql_state "22021".
Definition text_opt (o : option string) : outcome (option string) :=
  match o with Some s => t ← text_param s; mret (Some t) | None => mret None end.
Definition jsonb_param (j : json) : outcome json :=
  _ ← Json.json_dump j;
  if no_nul_in j then Ok j else sql_state "22P05".

Lemma text_param_ok s : legible s = true -> text_param s = Ok s.
Proof. intros [Hu Hn]%andb_true_iff. unfold text_param. by rewrite (c_str_id _ Hn), Hu. Qed.

Lemma text_opt_ok o : (forall s, o = Some s -> legible s = true) -> text_opt o = Ok o.
Proof. intros H. destruct o as [s|]; [|done]. cbn [text_opt]. by rewrite text_param_ok by auto. Qed.

Lemma jsonb_param_ok j : storable j = true -> jsonb_param j = Ok j.
Proof.
  intros [Hc Hn]%andb_true_iff. unfold jsonb_param. destruct (Json.dump_writes j Hc) as [s ->].
  cbn [mbind outcome_bind]. by rewrite Hn.
Qed.

(** [start_run]: src/agent/AgentRepository.hpp:77-87. *)
Definition start_run (org trig : string) (by_user : option string) : st State Run :=
  on_db (fun d =>
    if negb (bool_decide (trig ∈ ["chat"; "schedule"; "event"])) then sql_state "23514"
    else if negb (bool_decide (org ∈ a_orgs d)
                  && match by_user with Some u => bool_decide (u ∈ a_users d) | None => true end)
    then sql_state "23503"
    else
      let r := mkRun (gen_random_uuid (a_seq d)) org trig by_user "running" "" 0 0 0 None (a_now d) in
      Ok (r, set_runs (fun rs => (rs ++ [r])%list) (next_id d))).

Definition is_run (org rid : string) (r : Run) : bool := String.eqb (run_id r) rid && String.eqb (run_org r) org.

(** [finish_run]: src/agent/AgentRepository.hpp:91-107. *)
Definition finish_run (org rid stat summ : string) (err : option string) : st State bool :=
  on_db (fun d =>
    summ ← text_param summ; err ← text_opt err;
    if negb (bool_decide (stat ∈ ["running"; "succeeded"; "failed"; "awaiting_approval"; "budget_exceeded"]))
       && existsb (is_run org rid) (a_runs d) then sql_state "23514"
    else
      Ok (existsb (is_run org rid) (a_runs d),
          set_runs (map (fun r => if is_run org rid r then
            mkRun (run_id r) (run_org r) (trigger r) (started_by r) stat summ (input_tokens r) (output_tokens r)
              (cost_tiyn r) err (run_created r) else r)) d)).

(** [add_usage]: src/agent/AgentRepository.hpp:112-129.  BIGINT arithmetic fails out of range. *)
Definition add_usage (org rid : string) (input output cost : Z) : st State bool :=
  on_db (fun d =>
    if forallb (fun r => in_i64 (input_tokens r + input) && in_i64 (output_tokens r + output)
                         && in_i64 (cost_tiyn r + cost)) (List.filter (is_run org rid) (a_runs d)) then
      Ok (existsb (is_run org rid) (a_runs d),
          set_runs (map (fun r => if is_run org rid r then
            mkRun (run_id r) (run_org r) (trigger r) (started_by r) (run_status r) (summary r)
              (input_tokens r + input) (output_tokens r + output) (cost_tiyn r + cost) (run_error r) (run_created r)
            else r)) d)
    else sql_state "22003").

(** [find_run]: src/agent/AgentRepository.hpp:131-141. *)
Definition find_run (org rid : string) : st State (option Run) :=
  on_db (fun d => Ok (List.find (is_run org rid) (a_runs d), d)).

Definition spent (org : string) (since : Z) (d : AgentDB) : Z :=
  zsum (map cost_tiyn (List.filter (fun r => String.eqb (run_org r) org && (since <=? run_created r)) (a_runs d))).

(** [cost_since]: src/agent/AgentRepository.hpp:144-153. *)
Definition cost_since (org since_iso : string) : st State Z :=
  on_db (fun d =>
    match timestamptz_in since_iso with
    | None => sql_state "22007"
    | Some since =>
        let total := spent org since d in
        if in_i64 total then Ok (total, d) else Throw (Exn std_out_of_range "conversion")
    end).

Definition last_seq (rid : string) (ss : list Step) : Z :=
  foldr Z.max 0 (map seq (List.filter (fun x => String.eqb (step_run x) rid) ss)).

(** [append_step]: src/agent/AgentRepository.hpp:159-179. *)
Definition append_step (rid k : string) (body : json) (tl decision why : option string) : st State Step :=
  on_db (fun d =>
    body ← jsonb_param body; tl ← text_opt tl; why ← text_opt why;
    if negb (bool_decide (k ∈ ["prompt"; "model_reply"; "tool_call"; "tool_result"; "error"])
             && match decision with Some x => bool_decide (x ∈ ["auto"; "approve"; "forbid"]) | None => true end)
    then sql_state "23514"
    else if negb (existsb (fun r => String.eqb (run_id r) rid) (a_runs d)) then sql_state "23503"
    else
      let x := mkStep rid (last_seq rid (a_steps d) + 1) k tl body decision why in
      Ok (x, set_steps (fun l => (l ++ [x])%list) d)).

(** [list_steps]: src/agent/AgentRepository.hpp:181-191. *)
Definition list_steps (rid : string) : st State (list Step) :=
  on_db (fun d => Ok (stable_sort (fun a b => seq a <? seq b)
                        (List.filter (fun x => String.eqb (step_run x) rid) (a_steps d)), d)).

Definition policies_for (org action : string) (rows : list PolicyRow) : list PolicyRow :=
  List.filter (fun p => String.eqb (pr_org p) org && String.eqb (pr_action p) action) rows.

Definition policy_of (row : PolicyRow) : Policy :=
  mkPolicy (pr_action row) (match parse_mode (pr_mode row) with Some m => m | None => kApprove end) (pr_max row)
    (match pr_allow row with Some raw => parse_uuid_array raw | None => [] end) (pr_doc row) (pr_prior row).

(** [find_policy]: src/agent/AgentRepository.hpp:199-226. *)
Definition find_policy (org action : string) : st State (option Policy) :=
  on_db (fun d => Ok (policy_of <$> any_row (policies_for org action (a_policies d)), d)).

(** [request_approval]: src/agent/AgentRepository.hpp:229-246. *)
Definition request_approval (org : string) (rid : option string) (action : string) (body : json) (diff : string)
    : st State ApprovalRequest :=
  on_db (fun d =>
    body ← jsonb_param body; action ← text_param action; diff ← text_param diff;
    if negb (bool_decide (org ∈ a_orgs d)
             && match rid with Some r => existsb (fun x => String.eqb (run_id x) r) (a_runs d) | None => true end)
    then sql_state "23503"
    else
      let a := mkApproval (gen_random_uuid (a_seq d)) org rid action body diff "pending" None "" in
      Ok (a, set_approvals (fun l => (l ++ [a])%list) (next_id d))).

Definition is_pending (org aid : string) (a : ApprovalRequest) : bool :=
  String.eqb (ap_id a) aid && String.eqb (ap_org a) org && String.eqb (ap_status a) "pending".

(** [decide]: src/agent/AgentRepository.hpp:251-271.  [ck_approval_decided_together] holds for approved and rejected only. *)
Definition decide_request (org aid stat by_user note : string) : st State (option ApprovalRequest) :=
  on_db (fun d =>
    match List.find (is_pending org aid) (a_approvals d) with
    | None => Ok (None, d)
    | Some a =>
        if negb (bool_decide (stat ∈ ["approved"; "rejected"])) then sql_state "23514"
        else if negb (bool_decide (by_user ∈ a_users d)) then sql_state "23503"
        else
          let a' := mkApproval (ap_id a) (ap_org a) (ap_run a) (ap_action a) (ap_payload a) (ap_diff a) stat
                      (Some by_user) note in
          Ok (Some a', set_approvals (map (fun x => if is_pending org aid x then a' else x)) d)
    end).

(** [has_prior_approval]: src/agent/AgentRepository.hpp:290-299. *)
Definition prior_approval (org action : string) : st State bool :=
  on_db (fun d => Ok (existsb (fun a => String.eqb (ap_org a) org && String.eqb (ap_action a) action
                                        && String.eqb (ap_status a) "approved") (a_approvals d), d)).

(** ** Tools *)

(** [ToolSpec]: src/agent/ToolRegistry.hpp:48-60. *)
Record ToolSpec := mkSpec {
  spec_name : string; resource : string; spec_action : string; spec_summary : string; carries_amount : bool
}.

(** [ToolContext]: src/agent/ToolRegistry.hpp:63-70. *)
Record ToolContext := mkCtx { ctx_org : string; ctx_run : string; role : string }.

Inductive Status := kExecuted | kNeedsApproval | kRefused.

(** [ToolOutcome]: src/agent/ToolRegistry.hpp:73-84. *)
Record ToolOutcome := mkOutcome {
  out_status : Status; out_result : json; out_reason : string; policy_mode : option Mode
}.

(** A handler wraps a domain service: any effect on the rest of the world. *)
Definition ToolHandler : Type := ToolContext -> json -> st D json.

(** [Entry]: src/agent/ToolRegistry.hpp:157-161. *)
Record Entry := mkEntry { spec : ToolSpec; handler : ToolHandler; extractor : option (json -> outcome Action) }.

Definition ToolRegistry : Type := gmap string Entry.

(** [add]: src/agent/ToolRegistry.hpp:100-103.  [emplace] keeps the tool already there. *)
Definition add (sp : ToolSpec) (h : ToolHandler) (ex : option (json -> outcome Action)) (reg : ToolRegistry)
    : ToolRegistry :=
  match reg !! spec_name sp with Some _ => reg | None => <[spec_name sp := mkEntry sp h ex]> reg end.

(** [knows]: src/agent/ToolRegistry.hpp:105-105. *)
Definition knows (n : string) (reg : ToolRegistry) : bool := bool_decide (is_Some (reg !! n)).

Definition on_world {A} (m : st D A) : st State A := fun s => let '(r, w) := m s.2 in (r, (s.1, w)).

Definition no_action : Action := mkAction "" None None None false.

Definition named (n : string) (a : Action) : Action :=
  mkAction n (amount_tiyn a) (counterparty_id a) (act_doc_type a) (has_prior_approval a).

Definition empty_object : json := JObject [].

(** [execute]: src/agent/ToolRegistry.hpp:120-154. *)
Definition execute (reg : ToolRegistry) (ctx : ToolContext) (n : string) (args : json)
    (load_policy : string -> string -> st State (option Policy)) : st State ToolOutcome :=
  match reg !! n with
  | None => mret (mkOutcome kRefused empty_object ("инструмент '" +:+ n +:+ "' не существует") None)
  | Some entry =>
      if negb (allows (role ctx) (resource (spec entry)) (spec_action (spec entry))) then
        mret (mkOutcome kRefused empty_object
          ("роли '" +:+ role ctx +:+ "' не разрешён доступ '" +:+ spec_action (spec entry) +:+ "' к '" +:+
           resource (spec entry) +:+ "'") None)
      else
        raw ← lift (match extractor entry with Some f => f args | None => Ok no_action end);
        let action := named n raw in
        policy ← load_policy (ctx_org ctx) n;
        let decision := evaluate policy action in
        match mode decision with
        | kForbid => mret (mkOutcome kRefused empty_object (reason decision) (Some (mode decision)))
        | kApprove => mret (mkOutcome kNeedsApproval empty_object (reason decision) (Some (mode decision)))
        | kAuto =>
            result ← on_world (handler entry ctx args);
            mret (mkOutcome kExecuted result (reason decision) (Some (mode decision)))
        end
  end.

(** ** The loop *)

(** [ModelReply]: src/agent/ModelClient.hpp:50-59. *)
Record ModelReply := mkReply {
  text : string; tool_calls : list (string * json); in_tokens : Z; out_tokens : Z; stop_reason : string
}.

(** [RunLimits]: src/agent/Orchestrator.hpp:45-54. *)
Record RunLimits := mkLimits { budget_tiyn : option Z; period_start : string; max_model_calls : Z }.

(** [RunResult]: src/agent/Orchestrator.hpp:56-64. *)
Record RunResult := mkResult {
  res_run : string; res_status : string; res_summary : string; approval_id : option string
}.

(** [status_name]: src/agent/Orchestrator.hpp:68-78. *)
Definition status_name (x : Status) : string :=
  match x with kExecuted => "executed" | kNeedsApproval => "needs_approval" | kRefused => "refused" end.

Definition get_member (k : string) (args : json) : option json :=
  match args with JObject l => snd <$> List.find (fun e => String.eqb (fst e) k) l | _ => None end.

(** [human_diff]: src/agent/Orchestrator.hpp:90-99. *)
Definition human_diff (action : string) (args : json) : outcome string :=
  amount ← match get_member "amount_tiyn" args with
           | Some (JInt z) => a ← Format.format_tiyn_ru z; mret (", сумма " +:+ a +:+ " ₸")
           | _ => mret ""
           end;
  mret (action +:+ amount
        +:+ match get_member "counterparty_name" args with Some (JString x) => ", контрагент " +:+ x | _ => "" end
        +:+ match get_member "doc_type" args with Some (JString x) => ", документ " +:+ x | _ => "" end).

Definition why_json (why : string) : json := JObject [("reason", JString why)].

(** The error path of every early end: a step, the run's end, the result. *)
Definition end_with (org rid stat why : string) : st State RunResult :=
  append_step rid "error" (why_json why) None None None ;;
  finish_run org rid stat why (Some why) ;;
  mret (mkResult rid stat why None).

(** [run]: src/agent/Orchestrator.hpp:176-204.  The calls of one reply: results, or the end of the run. *)
Fixpoint tool_loop (reg : ToolRegistry) (ctx : ToolContext) (calls : list (string * json)) (results : list json)
    : st State (RunResult + list json) :=
  match calls with
  | [] => mret (inr results)
  | (n, args) :: rest =>
      o ← execute reg ctx n args (fun _ action => find_policy (ctx_org ctx) action);
      append_step (ctx_run ctx) "tool_call"
        (JObject [("args", args); ("status", JString (status_name (out_status o)))])
        (Some n) (mode_name <$> policy_mode o) (Some (out_reason o)) ;;
      match out_status o with
      | kNeedsApproval =>
          diff ← lift (human_diff n args);
          req ← request_approval (ctx_org ctx) (Some (ctx_run ctx)) n args diff;
          finish_run (ctx_org ctx) (ctx_run ctx) "awaiting_approval" (out_reason o) None ;;
          mret (inl (mkResult (ctx_run ctx) "awaiting_approval" (out_reason o) (Some (ap_id req))))
      | _ =>
          tool_loop reg ctx rest
            (results ++ [JObject [("tool", JString n); ("status", JString (status_name (out_status o)));
                                  ("result", out_result o); ("reason", JString (out_reason o))]])%list
      end
  end.

Definition message (who body : string) : json := JObject [("role", JString who); ("content", JString body)].

(** [run]: src/agent/Orchestrator.hpp:150-166.  The model's answer, or why there is none; what is
    no [std::exception] is not caught. *)
Definition ask (call_model : json -> json -> st D ModelReply) (messages tools : json) : st State (string + ModelReply) :=
  fun s => match on_world (call_model messages tools) s with
           | (Ok r, s') => (Ok (inr r), s')
           | (Throw e, s') =>
               if bool_decide (exn_cls e = NotConfigured) then (Ok (inl (what e)), s')
               else if bool_decide (exn_cls e = not_std) then (Throw e, s')
               else (Ok (inl ("обращение к модели не удалось: " +:+ what e)), s')
           | (Undef, s') => (Undef, s')
           end.

(** [run]: src/agent/Orchestrator.hpp:144-209.  At most [calls] more calls of the model: the end of the run, or its final text. *)
Fixpoint model_loop (reg : ToolRegistry) (ctx : ToolContext) (call_model : json -> json -> st D ModelReply)
    (tools : json) (calls : nat) (messages : list json) : st State (RunResult + string) :=
  match calls with
  | O => mret (inr EmptyString)
  | S calls' =>
      asked ← ask call_model (JArray messages) tools;
      match asked with
      | inl why => r ← end_with (ctx_org ctx) (ctx_run ctx) "failed" why; mret (inl r)
      | inr reply =>
          add_usage (ctx_org ctx) (ctx_run ctx) (in_tokens reply) (out_tokens reply) 0 ;;
          append_step (ctx_run ctx) "model_reply"
            (JObject [("text", JString (text reply)); ("tool_calls", JInt (Z.of_nat (length (tool_calls reply))));
                      ("stop_reason", JString (stop_reason reply))]) None None None ;;
          match tool_calls reply with
          | [] => mret (inr (text reply))
          | _ =>
              done ← tool_loop reg ctx (tool_calls reply) [];
              match done with
              | inl r => mret (inl r)
              | inr results =>
                  dumped ← lift (Json.json_dump (JArray results));
                  append_step (ctx_run ctx) "tool_result" (JArray results) None None None ;;
                  model_loop reg ctx call_model tools calls'
                    (messages ++ [message "assistant" (text reply); message "user" dumped])%list
              end
          end
      end
  end.

(** [run]: src/agent/Orchestrator.hpp:207-218.  What the loop left: an answer, or nothing. *)
Definition conclude (org rid : string) (limits : RunLimits) (final_text : string) : st State RunResult :=
  if String.eqb final_text "" then
    end_with org rid "failed"
      ("прогон остановлен: достигнут предел обращений к модели (" +:+ to_string (max_model_calls limits) +:+ ")")
  else
    finish_run org rid "succeeded" final_text None ;;
    mret (mkResult rid "succeeded" final_text None).

(** [run]: src/agent/Orchestrator.hpp:130-219.  The run itself, within the budget. *)
Definition run_funded (reg : ToolRegistry) (org trig : string) (by_user : option string) (user_message : string)
    (call_model : json -> json -> st D ModelReply) (tools : json) (limits : RunLimits) : st State RunResult :=
  row ← start_run org trig by_user;
  append_step (run_id row) "prompt" (JObject [("text", JString user_message)]) None None None ;;
  ended ← model_loop reg (mkCtx org (run_id row) "agent") call_model tools (Z.to_nat (max_model_calls limits))
            [message "user" user_message];
  match ended with
  | inl r => mret r
  | inr final_text => conclude org (run_id row) limits final_text
  end.

(** [run]: src/agent/Orchestrator.hpp:106-219. *)
Definition run (reg : ToolRegistry) (org trig : string) (by_user : option string) (user_message : string)
    (call_model : json -> json -> st D ModelReply) (tools : json) (limits : RunLimits) : st State RunResult :=
  over ← match budget_tiyn limits with
         | None => mret None
         | Some budget =>
             total ← cost_since org (period_start limits);
             mret (if budget <=? total then Some (total, budget) else None)
         end;
  match over with
  | Some (total, budget) =>
      row ← start_run org trig by_user;
      end_with org (run_id row) "budget_exceeded"
        ("бюджет организации исчерпан: потрачено " +:+ to_string total +:+ " тиын при пределе " +:+ to_string budget)
  | None => run_funded reg org trig by_user user_message call_model tools limits
  end.

(** ** When the agent may act alone *)

Lemma lower_auto fails why d : mode (lower fails why d) = kAuto <-> fails = false /\ mode d = kAuto.
Proof.
  unfold lower, strictest_of. destruct fails; [|tauto].
  destruct (mode d); cbn; split; [discriminate | intros [? _]; discriminate |..]; (discriminate || intros [? _]; discriminate).
Qed.

Lemma lower_not_forbid fails why d : mode d <> kForbid -> mode (lower fails why d) <> kForbid.
Proof. unfold lower, strictest_of. destruct fails; [|done]. by destruct (mode d). Qed.

Lemma lower_reason fails why d : why <> "" -> reason d <> "" -> reason (lower fails why d) <> "".
Proof. by destruct fails. Qed.

Lemma listed_in l c : listed l c = true <-> exists x, c = Some x /\ x ∈ l.
Proof.
  unfold listed. destruct c as [x|]; [|split; [done | by intros (? & ? & _)]].
  rewrite existsb_exists. split.
  - intros (y & Hy & ->%String.eqb_eq). exists y. by rewrite list_elem_of_In.
  - intros (y & [= ->] & Hy). exists y. rewrite <- list_elem_of_In. split; [done | apply String.eqb_refl].
Qed.

Lemma amount_auto p a d :
  mode (check_amount p a d) = kAuto <->
  (forall limit, max_amount_tiyn p = Some limit -> exists amount, amount_tiyn a = Some amount /\ amount <= limit) /\
  mode d = kAuto.
Proof.
  unfold check_amount. destruct (max_amount_tiyn p) as [limit|]; [destruct (amount_tiyn a) as [amount|]|];
    rewrite ?lower_auto, ?Z.ltb_ge; naive_solver.
Qed.

Lemma counterparty_auto p a d :
  mode (check_counterparty p a d) = kAuto <->
  (counterparty_allowlist p <> [] -> exists c, counterparty_id a = Some c /\ c ∈ counterparty_allowlist p) /\
  mode d = kAuto.
Proof.
  unfold check_counterparty. destruct (counterparty_allowlist p) as [|c l] eqn:E; [naive_solver|].
  rewrite lower_auto, negb_false_iff, listed_in. naive_solver.
Qed.

Lemma doc_type_auto p a d :
  mode (check_doc_type p a d) = kAuto <->
  (forall t t', pol_doc_type p = Some t -> act_doc_type a = Some t' -> t = t') /\ mode d = kAuto.
Proof.
  unfold check_doc_type. destruct (pol_doc_type p) as [t|], (act_doc_type a) as [t'|]; [|naive_solver..].
  rewrite lower_auto, negb_false_iff, String.eqb_eq. naive_solver.
Qed.

(** No check forbids, and every check explains itself. *)
Lemma checks_sane p a d :
  mode d <> kForbid -> reason d <> "" ->
  let d' := check_doc_type p a (check_counterparty p a (check_amount p a d)) in
  mode d' <> kForbid /\ reason d' <> "".
Proof.
  intros H1 H2. cbn zeta.
  assert (A : mode (check_amount p a d) <> kForbid /\ reason (check_amount p a d) <> "").
  { unfold check_amount. destruct (max_amount_tiyn p), (amount_tiyn a); auto;
      (split; [by apply lower_not_forbid | by apply lower_reason]). }
  assert (B : mode (check_counterparty p a (check_amount p a d)) <> kForbid /\
              reason (check_counterparty p a (check_amount p a d)) <> "").
  { unfold check_counterparty. destruct (counterparty_allowlist p); [done|].
    split; [apply lower_not_forbid, A | apply lower_reason; [by destruct (counterparty_id a) | apply A]]. }
  unfold check_doc_type. destruct (pol_doc_type p), (act_doc_type a); auto.
  split; [apply lower_not_forbid, B | by apply lower_reason; [|apply B]].
Qed.

(** Autonomy is never given by default.  An action is automatic exactly when a
    policy for it exists and says so, its amount is known and within the policy's
    limit if there is one, its counterparty is known and on the allowlist unless
    that is empty, its document type is not different from the policy's, and it
    has been approved before if the policy asks for that; it is forbidden exactly
    when the policy forbids it; every verdict carries a reason. *)
Theorem evaluate_auto_iff policy a :
  (mode (evaluate policy a) = kAuto <->
   exists p, policy = Some p /\ pol_mode p = kAuto /\
     (forall limit, max_amount_tiyn p = Some limit -> exists amount, amount_tiyn a = Some amount /\ amount <= limit) /\
     (counterparty_allowlist p <> [] -> exists c, counterparty_id a = Some c /\ c ∈ counterparty_allowlist p) /\
     (forall t t', pol_doc_type p = Some t -> act_doc_type a = Some t' -> t = t') /\
     (require_prior_approval p = true -> has_prior_approval a = true)) /\
  (mode (evaluate policy a) = kForbid <-> exists p, policy = Some p /\ pol_mode p = kForbid) /\
  reason (evaluate policy a) <> "".
Proof.
  destruct policy as [p|]; cbn [evaluate mode reason];
    [|split; [|split]; [split; [discriminate | by intros (p & E & _)] | split; [discriminate | by intros (p & E & _)] | discriminate]].
  destruct (pol_mode p) eqn:Em; cbn [mode reason];
    [|split; [|split]; [split; [discriminate | intros (p' & [= <-] & E & _); congruence]
      | split; [discriminate | intros (p' & [= <-] & E); congruence] | discriminate]
     |split; [|split]; [split; [discriminate | intros (p' & [= <-] & E & _); congruence]
      | split; [by exists p | done] | discriminate]].
  set (d0 := mkDecision kAuto _). assert (A0 : mode d0 = kAuto) by done. assert (R0 : reason d0 <> "") by discriminate.
  clearbody d0. destruct (checks_sane p a d0) as [N1 N2]; [by rewrite A0 | done|].
  split; [|split; [|apply lower_reason; [discriminate | done]]].
  - rewrite lower_auto, doc_type_auto, counterparty_auto, amount_auto.
    rewrite A0. clear -Em. split.
    + intros (Hp & Ht & Hc & Ha & _). exists p. repeat (split; [done|]).
      intros E. rewrite E in Hp. by destruct (has_prior_approval a).
    + intros (p' & [= <-] & _ & Ha & Hc & Ht & Hp). repeat (split; [|done || clear Hp]); [|done..].
      destruct (require_prior_approval p); [by rewrite Hp | done].
  - split; [intros Hf; exfalso; revert Hf; by apply lower_not_forbid | intros (p' & [= <-] & E); congruence].
Qed.

(** ** What a run may touch *)

(** What the log keeps while a run writes it: the policies, the money spent, the
    steps already written. *)
Definition logged (d d' : AgentDB) : Prop :=
  a_policies d' = a_policies d /\ (forall org since, spent org since d' = spent org since d) /\
  exists new, a_steps d' = (a_steps d ++ new)%list.

(** One event of a run: the log, the model, or a tool that the agent's role and a
    policy of the organization allow. *)
Inductive event (reg : ToolRegistry) (org : string) (call_model : json -> json -> st D ModelReply)
    (s s' : State) : Prop :=
| e_log : logged s.1 s'.1 -> s'.2 = s.2 -> event reg org call_model s s'
| e_model messages tools : s' = (s.1, (call_model messages tools s.2).2) -> event reg org call_model s s'
| e_tool n entry args a row rid :
    reg !! n = Some entry ->
    allows "agent" (resource (spec entry)) (spec_action (spec entry)) = true ->
    row ∈ policies_for org n (a_policies s.1) ->
    (match extractor entry with Some f => f args | None => Ok no_action end) = Ok a ->
    mode (evaluate (Some (policy_of row)) (named n a)) = kAuto ->
    s' = (s.1, (handler entry (mkCtx org rid "agent") args s.2).2) ->
    event reg org call_model s s'.

Definition obeys (T : State -> State -> Prop) {A} (m : st State A) : Prop := forall s, T s (m s).2.

Section Obeys.
Context (T : State -> State -> Prop) `{!PreOrder T}.

Lemma obeys_ret {A} (a : A) : obeys T (mret a).
Proof. by intros s. Qed.

Lemma obeys_lift {A} (o : outcome A) : obeys T (lift o).
Proof. by intros s. Qed.

Lemma obeys_bind {A B} (m : st State A) (f : A -> st State B) :
  obeys T m -> (forall a, obeys T (f a)) -> obeys T (m ≫= f).
Proof.
  intros Hm Hf s. specialize (Hm s). rewrite st_bind_case.
  destruct (m s) as [[a| |] s1]; cbn [snd] in *; [|done..]. etrans; [exact Hm | apply Hf].
Qed.

Lemma obeys_on_db {A} (f : AgentDB -> outcome (A * AgentDB)) :
  (forall d w a d', f d = Ok (a, d') -> T (d, w) (d', w)) -> obeys T (on_db f).
Proof.
  intros H [d w]. unfold on_db. cbn [fst snd]. destruct (f d) as [[a d']| |] eqn:E; cbn [snd]; [|done..].
  by apply (H d w a d').
Qed.
End Obeys.

Lemma logged_refl d : logged d d.
Proof. split_and!; [done.. | exists []]. by rewrite app_nil_r. Qed.

(** A run's row rewritten at the same cost. *)
Lemma logged_runs d (f : Run -> Run) :
  (forall r, run_org (f r) = run_org r /\ run_created (f r) = run_created r /\ cost_tiyn (f r) = cost_tiyn r) ->
  logged d (set_runs (map f) d).
Proof.
  intros H. split_and!; [done | | exists []; by rewrite app_nil_r].
  intros org since. unfold spent. cbn [set_runs a_runs].
  induction (a_runs d) as [|r l IH]; [done|]. cbn [map List.filter]. destruct (H r) as (-> & -> & Hc).
  destruct (_ && _); cbn [map zsum foldr]; [|exact IH]. rewrite Hc. f_equal. exact IH.
Qed.

Lemma event_log reg org call_model d d' w : logged d d' -> event reg org call_model (d, w) (d', w).
Proof. intros H. by apply e_log. Qed.

Section Run.
Context (reg : ToolRegistry) (org : string) (call_model : json -> json -> st D ModelReply).
Let T := rtc (event reg org call_model).
Let T_pre : PreOrder T := _.

Lemma log_once {A} (f : AgentDB -> outcome (A * AgentDB)) :
  (forall d a d', f d = Ok (a, d') -> logged d d') -> obeys T (on_db f).
Proof. intros H. apply obeys_on_db; [apply _|]. intros d w a d' E. apply rtc_once, event_log. by eapply H. Qed.

Lemma start_run_log o trig by_user : obeys T (start_run o trig by_user).
Proof.
  apply log_once. intros d a d'. destruct (negb _); [discriminate|]. destruct (negb _); [discriminate|].
  intros [= _ <-]. split_and!; [done | | exists []; by rewrite app_nil_r].
  intros o' since. unfold spent. cbn [set_runs next_id a_runs].
  rewrite List.filter_app, zsum_map_app. cbn [List.filter]. destruct (_ && _); cbn; lia.
Qed.

Lemma finish_run_log o rid stat summ err : obeys T (finish_run o rid stat summ err).
Proof.
  apply log_once. intros d a d'. destruct (text_param summ) as [t| |]; try discriminate. cbn [mbind outcome_bind].
  destruct (text_opt err) as [t'| |]; try discriminate. cbn [mbind outcome_bind].
  destruct (_ && _); [discriminate|]. intros [= _ <-]. apply logged_runs. intros r. by destruct (is_run o rid r).
Qed.

(** The cost written after every call is zero. *)
Lemma add_usage_log o rid input output : obeys T (add_usage o rid input output 0).
Proof.
  apply log_once. intros d a d'. destruct (forallb _ _); [|discriminate]. intros [= _ <-].
  apply logged_runs. intros r. destruct (is_run o rid r); [|done]. cbn. by rewrite Z.add_0_r.
Qed.

Lemma append_step_log rid k body tl decision why : obeys T (append_step rid k body tl decision why).
Proof.
  apply log_once. intros d a d'. destruct (jsonb_param body) as [j| |]; try discriminate. cbn [mbind outcome_bind].
  destruct (text_opt tl) as [t| |]; try discriminate. cbn [mbind outcome_bind].
  destruct (text_opt why) as [t'| |]; try discriminate. cbn [mbind outcome_bind].
  destruct (negb _); [discriminate|]. destruct (negb _); [discriminate|].
  intros [= _ <-]. split_and!; [done.. | by eexists].
Qed.

Lemma request_approval_log o rid action body diff : obeys T (request_approval o rid action body diff).
Proof.
  apply log_once. intros d a d'. destruct (jsonb_param body) as [j| |]; try discriminate. cbn [mbind outcome_bind].
  destruct (text_param action) as [t| |]; try discriminate. cbn [mbind outcome_bind].
  destruct (text_param diff) as [t'| |]; try discriminate. cbn [mbind outcome_bind]. destruct (negb _); [discriminate|].
  intros [= _ <-]. split_and!; [done.. | exists []; by rewrite app_nil_r].
Qed.

Lemma ask_moves messages tools : obeys T (ask call_model messages tools).
Proof.
  intros s. transitivity (s.1, (call_model messages tools s.2).2).
  - apply rtc_once. by apply (e_model _ _ _ _ _ messages tools).
  - unfold ask, on_world. destruct (call_model messages tools s.2) as [[r|e|] w]; cbn; [done | | done].
    by repeat case_bool_decide.
Qed.

(** A handler runs only for the agent's role and under an [auto] verdict. *)
Lemma execute_moves rid n args :
  obeys T (execute reg (mkCtx org rid "agent") n args (fun _ action => find_policy org action)).
Proof.
  intros s. unfold execute. destruct (reg !! n) as [entry|] eqn:En; [|by apply (obeys_ret T)].
  destruct (allows _ _ _) eqn:Ea; cbn [negb]; [|by apply (obeys_ret T)].
  rewrite st_bind_case. unfold lift at 1. destruct (match extractor entry with Some f => _ | None => _ end) as [a| |] eqn:Ex;
    cbn [snd]; [|done..].
  rewrite (st_bind_ok _ _ s (policy_of <$> any_row (policies_for org n (a_policies s.1))) s)
    by (unfold find_policy, on_db; by destruct s).
  cbv zeta. destruct (mode _) eqn:Em; [|by apply (obeys_ret T)..].
  apply rtc_once. destruct (any_row _) as [row|] eqn:Er; [|discriminate]. apply any_row_in in Er.
  apply (e_tool _ _ _ _ _ n entry args a row rid); [done.. |].
  rewrite st_bind_case. unfold on_world. cbn [mret st_ret].
  by destruct (handler entry (mkCtx org rid "agent") args s.2) as [[| |] w].
Qed.

Ltac moves :=
  lazymatch goal with
  | |- obeys _ (mret _) => apply (obeys_ret T)
  | |- obeys _ (lift _) => apply (obeys_lift T)
  | |- obeys _ (_ ≫= _) => apply (obeys_bind T); [|intros]
  | |- obeys _ (start_run _ _ _) => apply start_run_log
  | |- obeys _ (finish_run _ _ _ _ _) => apply finish_run_log
  | |- obeys _ (add_usage _ _ _ _ 0) => apply add_usage_log
  | |- obeys _ (append_step _ _ _ _ _ _) => apply append_step_log
  | |- obeys _ (request_approval _ _ _ _ _) => apply request_approval_log
  | |- obeys _ (ask _ _ _) => apply ask_moves
  | |- obeys _ (execute _ _ _ _ _) => apply execute_moves
  | |- obeys _ (match ?x with _ => _ end) => destruct x
  end.

Lemma end_with_moves rid stat why : obeys T (end_with org rid stat why).
Proof. unfold end_with. repeat moves. Qed.

Lemma tool_loop_moves rid calls results : obeys T (tool_loop reg (mkCtx org rid "agent") calls results).
Proof.
  revert results. induction calls as [|[n args] rest IH]; intros results; cbn [tool_loop ctx_org ctx_run];
    repeat (apply IH || moves).
Qed.

Lemma model_loop_moves rid tools calls messages :
  obeys T (model_loop reg (mkCtx org rid "agent") call_model tools calls messages).
Proof.
  revert messages. induction calls as [|calls IH]; intros messages; cbn [model_loop ctx_org ctx_run]; [apply (obeys_ret T)|].
  repeat (apply end_with_moves || apply tool_loop_moves || apply IH || moves).
Qed.

Lemma run_moves trig by_user msg tools limits :
  obeys T (run reg org trig by_user msg call_model tools limits).
Proof.
  unfold run, run_funded, conclude. apply (obeys_bind T).
  - destruct (budget_tiyn limits) as [budget|]; [|moves]. moves; [|moves]. apply log_once. intros d a d'.
    destruct (timestamptz_in _); [|discriminate]. cbv zeta. case_match; [|discriminate]. intros [= _ <-]. apply logged_refl.
  - intros [[total budget]|]; repeat (apply end_with_moves || apply model_loop_moves || moves).
Qed.
End Run.

Lemma logged_trans d d1 d2 : logged d d1 -> logged d1 d2 -> logged d d2.
Proof.
  intros (P1 & C1 & n1 & E1) (P2 & C2 & n2 & E2). split_and!; [congruence | intros; by rewrite C2, C1 |].
  exists (n1 ++ n2)%list. by rewrite E2, E1, app_assoc.
Qed.

(** The events of a run, added up. *)
Lemma events_logged reg org call_model s s' : rtc (event reg org call_model) s s' -> logged s.1 s'.1.
Proof.
  induction 1 as [s|s s1 s2 H _ IH]; [apply logged_refl|]. eapply logged_trans; [|exact IH].
  destruct H as [H _ | messages tools -> | n entry args a row rid _ _ _ _ _ ->]; [exact H | apply logged_refl..].
Qed.

(** One change of the rest of the world during a run, under the policies [rows]. *)
Inductive world_step (reg : ToolRegistry) (org : string) (call_model : json -> json -> st D ModelReply)
    (rows : list PolicyRow) (w w' : D) : Prop :=
| w_model messages tools : w' = (call_model messages tools w).2 -> world_step reg org call_model rows w w'
| w_tool n entry args a row rid :
    reg !! n = Some entry ->
    allows "agent" (resource (spec entry)) (spec_action (spec entry)) = true ->
    row ∈ policies_for org n rows ->
    (match extractor entry with Some f => f args | None => Ok no_action end) = Ok a ->
    mode (evaluate (Some (policy_of row)) (named n a)) = kAuto ->
    w' = (handler entry (mkCtx org rid "agent") args w).2 ->
    world_step reg org call_model rows w w'.

Lemma events_world reg org call_model s s' :
  rtc (event reg org call_model) s s' -> rtc (world_step reg org call_model (a_policies s.1)) s.2 s'.2.
Proof.
  induction 1 as [s|s s1 s2 H H' IH]; [done|].
  assert (HP : a_policies s1.1 = a_policies s.1) by (apply (events_logged reg org call_model), rtc_once, H).
  rewrite HP in IH. destruct H as [_ <- | messages tools -> | n entry args a row rid Hn Ha Hr Hx Hm ->]; [exact IH |..];
    (eapply rtc_l; [|exact IH]); cbn [snd] in *.
  - by apply (w_model _ _ _ _ _ _ messages tools).
  - by apply (w_tool _ _ _ _ _ _ n entry args a row rid).
Qed.

(** C15: Whatever the model asks for and however the run ends, the world outside
    the agent's log changes only by calling the model and by handlers of
    registered tools that the matrix grants to the role "agent" and for which a
    policy row of this very organization evaluates the call to "auto"; the
    policies themselves are untouched and the steps already logged stay. *)
Theorem run_confined reg org trig by_user msg call_model tools limits s :
  let s' := (run reg org trig by_user msg call_model tools limits s).2 in
  rtc (world_step reg org call_model (a_policies s.1)) s.2 s'.2 /\
  a_policies s'.1 = a_policies s.1 /\ exists new, a_steps s'.1 = (a_steps s.1 ++ new)%list.
Proof.
  pose proof (run_moves reg org call_model trig by_user msg tools limits s) as H. cbn zeta.
  pose proof (events_logged _ _ _ _ _ H) as (HP & _ & HS). by split_and!; [apply events_world | |].
Qed.

(** The budget never moves: whatever a run does and however many calls of the
    model it makes, the money every organization has spent since any moment is
    what it was before the run. *)
Theorem run_costs_nothing reg org trig by_user msg call_model tools limits s org' since :
  spent org' since (run reg org trig by_user msg call_model tools limits s).2.1 = spent org' since s.1.
Proof. apply (events_logged reg org call_model), run_moves. Qed.

(** ** A run ends *)

(** [m] returns from every state in [P], with a result and a state in [Q]. *)
Definition returns {A} (P : State -> Prop) (m : st State A) (Q : A -> State -> Prop) : Prop :=
  forall s, P s -> exists a s', m s = (Ok a, s') /\ Q a s'.

Lemma returns_ret {A} (P : State -> Prop) (a : A) (Q : A -> State -> Prop) :
  (forall s, P s -> Q a s) -> returns P (mret a) Q.
Proof. intros H s Hs. exists a, s. auto. Qed.

Lemma returns_bind {A B} P (m : st State A) R (f : A -> st State B) Q :
  returns P m R -> (forall a, returns (R a) (f a) Q) -> returns P (m ≫= f) Q.
Proof.
  intros Hm Hf s Hs. destruct (Hm s Hs) as (a & s1 & E & HR). rewrite (st_bind_ok _ _ _ _ _ E). by apply Hf.
Qed.

Lemma returns_weaken {A} (P P' : State -> Prop) (m : st State A) Q :
  returns P' m Q -> (forall s, P s -> P' s) -> returns P m Q.
Proof. intros H HP s Hs. by apply H, HP. Qed.

Lemma returns_pre {A} (P : State -> Prop) X (m : st State A) Q :
  (X -> returns P m Q) -> returns (fun s => X /\ P s) m Q.
Proof. intros H s [HX Hs]. by apply H. Qed.

Section Ends.
Context (reg : ToolRegistry) (org rid : string) (call_model : json -> json -> st D ModelReply).
Let ctx := mkCtx org rid "agent".

(** Tokens one call of the model may report. *)
Definition max_reply_tokens : Z := 2 ^ 40.

(** The run is there, in its organization, after [k] calls of the model. *)
Definition running (k : Z) (s : State) : Prop :=
  org ∈ a_orgs s.1 /\
  exists r, List.filter (is_run org rid) (a_runs s.1) = [r] /\ in_i64 (cost_tiyn r) = true /\
    0 <= input_tokens r <= k * max_reply_tokens /\ 0 <= output_tokens r <= k * max_reply_tokens.

(** The run has ended and its row says how. *)
Definition ended (r : RunResult) (s : State) : Prop :=
  res_run r = rid /\ res_status r ∈ ["succeeded"; "failed"; "awaiting_approval"; "budget_exceeded"] /\
  exists row, List.filter (is_run org rid) (a_runs s.1) = [row] /\ run_status row = res_status r /\
    summary row = res_summary r.

Lemma running_exists k s : running k s -> existsb (fun r => String.eqb (run_id r) rid) (a_runs s.1) = true.
Proof.
  intros (_ & r & E & _). apply existsb_exists. exists r.
  assert (Hin : In r (List.filter (is_run org rid) (a_runs s.1))) by (rewrite E; by left).
  apply filter_In in Hin as [Hin H]. split; [done|]. unfold is_run in H. by apply andb_true_iff in H as [H _].
Qed.

Lemma filter_rewrite (f : Run -> Run) l :
  (forall r, run_id (f r) = run_id r /\ run_org (f r) = run_org r) ->
  List.filter (is_run org rid) (map (fun r => if is_run org rid r then f r else r) l) =
  map f (List.filter (is_run org rid) l).
Proof.
  intros H. induction l as [|r l IH]; [done|]. cbn [map List.filter]. rewrite IH.
  destruct (is_run org rid r) eqn:E; [|by rewrite E].
  assert (E' : is_run org rid (f r) = true) by (unfold is_run in *; destruct (H r) as [-> ->]; exact E). by rewrite E'.
Qed.

Lemma append_step_returns k kd body tl decision why :
  kd ∈ ["prompt"; "model_reply"; "tool_call"; "tool_result"; "error"] ->
  (forall x, decision = Some x -> x ∈ ["auto"; "approve"; "forbid"]) ->
  storable body = true -> (forall x, tl = Some x -> legible x = true) -> (forall x, why = Some x -> legible x = true) ->
  returns (running k) (append_step rid kd body tl decision why) (fun _ => running k).
Proof.
  intros Hk Hd Hb Ht Hw [d w] Hs. unfold append_step, on_db. cbn [fst snd]. pose proof (running_exists _ _ Hs) as He.
  cbn [fst] in He. rewrite jsonb_param_ok, !text_opt_ok by done. cbn [mbind outcome_bind].
  rewrite (bool_decide_true _ Hk), He. cbn [andb negb].
  replace (match decision with Some x => _ | None => true end) with true
    by (destruct decision; [by rewrite bool_decide_true; auto | done]).
  cbn [negb]. eexists _, _. split; [reflexivity | exact Hs].
Qed.

Lemma finish_run_returns k stat summ err ap :
  stat ∈ ["succeeded"; "failed"; "awaiting_approval"; "budget_exceeded"] ->
  legible summ = true -> (forall x, err = Some x -> legible x = true) ->
  returns (running k) (finish_run org rid stat summ err) (fun _ => ended (mkResult rid stat summ ap)).
Proof.
  intros Hst Hl He [d w] (_ & row & E & _). unfold finish_run, on_db. cbn [fst snd] in *.
  rewrite text_param_ok, text_opt_ok by done. cbn [mbind outcome_bind].
  rewrite bool_decide_true by set_solver. cbn [negb andb]. eexists _, _. split; [reflexivity|].
  split_and!; [done | done |]. cbn [fst set_runs a_runs].
  rewrite (filter_rewrite (fun r => mkRun _ _ _ _ _ _ _ _ _ _ _)) by done. rewrite E. eexists. by split_and!.
Qed.

Lemma add_usage_returns k input output :
  0 <= k < 2 ^ 20 -> 0 <= input <= max_reply_tokens -> 0 <= output <= max_reply_tokens ->
  returns (running k) (add_usage org rid input output 0) (fun _ => running (k + 1)).
Proof.
  intros Hk Hi Ho [d w] (HO & row & E & Hc & Hin & Hout). unfold add_usage, on_db. cbn [fst snd] in *.
  rewrite E. cbn [forallb]. rewrite Z.add_0_r, Hc.
  assert (HB : forall x y, 0 <= x <= k * max_reply_tokens -> 0 <= y <= max_reply_tokens -> in_i64 (x + y) = true).
  { intros x y Hx Hy. unfold in_i64. rewrite andb_true_iff, !Z.leb_le. unfold max_reply_tokens, I64_MIN, I64_MAX in *. nia. }
  rewrite !HB by done. cbn [andb]. eexists _, _. split; [reflexivity|]. split; [done|]. cbn [fst set_runs a_runs].
  rewrite (filter_rewrite (fun r => mkRun _ _ _ _ _ _ _ _ _ _ _)) by done. rewrite E. cbn [map].
  eexists. split; [reflexivity|]. cbn [cost_tiyn input_tokens output_tokens]. rewrite Z.add_0_r. split; [exact Hc|]. lia.
Qed.

Lemma end_with_returns k stat why :
  stat ∈ ["succeeded"; "failed"; "awaiting_approval"; "budget_exceeded"] -> legible why = true ->
  returns (running k) (end_with org rid stat why) ended.
Proof.
  intros H Hw. unfold end_with. apply (returns_bind _ _ (fun _ => running k)).
  - apply append_step_returns; [set_solver | done | | done | done]. by apply storable_object.
  - intros ?. eapply returns_bind; [apply (finish_run_returns k stat why (Some why) None); [done | done | by intros x [= <-]]|].
    intros ?. by apply returns_ret.
Qed.

(** What is asked of the registered tools and of the model: handlers return what [jsonb] holds, every
    text that reaches the log is legible, and the model throws no more than exceptions do. *)
Definition tools_return : Prop :=
  forall n entry c args w, reg !! n = Some entry ->
    legible (resource (spec entry)) = true /\ legible (spec_action (spec entry)) = true /\
    (exists j w', handler entry c args w = (Ok j, w') /\ storable j = true) /\
    (exists a, match extractor entry with Some f => f args | None => Ok no_action end = Ok a).

Definition call_fits (c : string * json) : Prop :=
  legible c.1 = true /\ storable c.2 = true /\ exists t, human_diff c.1 c.2 = Ok t /\ legible t = true.

Definition reply_fits (reply : ModelReply) : Prop :=
  0 <= in_tokens reply <= max_reply_tokens /\ 0 <= out_tokens reply <= max_reply_tokens /\
  legible (text reply) = true /\ legible (stop_reason reply) = true /\ Forall call_fits (tool_calls reply).

Definition model_answers : Prop :=
  forall messages tools w,
    match (call_model messages tools w).1 with
    | Ok reply => reply_fits reply
    | Throw e => exn_cls e <> not_std /\ legible (what e) = true
    | Undef => False
    end.

Lemma evaluate_legible policy a : legible (act_name a) = true -> legible (reason (evaluate policy a)) = true.
Proof.
  intros Ha. assert (HL : forall b why d, legible why = true -> legible (reason d) = true -> legible (reason (lower b why d)) = true)
    by (by intros [] ? ?).
  assert (HN : forall pre post, legible pre = true -> legible post = true -> legible (pre +:+ act_name a +:+ post) = true)
    by (intros; by apply legible_app, legible_app).
  unfold evaluate. destruct policy as [p|]; [|by apply HN]. destruct (pol_mode p); [|by apply HN..].
  apply HL; [done|]. set (d0 := mkDecision kAuto _). assert (H0 : legible (reason d0) = true) by (by apply HN). clearbody d0.
  assert (HA : legible (reason (check_amount p a d0)) = true).
  { unfold check_amount. destruct (max_amount_tiyn p), (amount_tiyn a); [apply HL; done.. | done | done]. }
  assert (HC : legible (reason (check_counterparty p a (check_amount p a d0))) = true).
  { unfold check_counterparty. destruct (counterparty_allowlist p); [done|]. apply HL; [by destruct (counterparty_id a) | done]. }
  unfold check_doc_type. destruct (pol_doc_type p), (act_doc_type a); [by apply HL | done..].
Qed.

Definition noted (o : ToolOutcome) : Prop := legible (out_reason o) = true /\ storable (out_result o) = true.

Lemma execute_returns k n args :
  tools_return -> legible n = true ->
  returns (running k) (execute reg ctx n args (fun _ action => find_policy (ctx_org ctx) action)) (fun o s => noted o /\ running k s).
Proof.
  intros HT Hn s Hs. unfold execute. destruct (reg !! n) as [entry|] eqn:En.
  2: { eexists _, _. split; [reflexivity|]. split; [|done]. split; [|done]. by apply legible_app, legible_app. }
  destruct (HT n entry ctx args s.2 En) as (Hr & Hac & (j & w' & Hh & Hj) & a & Ha).
  destruct (allows _ _ _); cbn [negb].
  2: { eexists _, _. split; [reflexivity|]. split; [|done]. split; [|done]. cbn [out_reason role ctx]. repeat apply legible_app; done. }
  rewrite Ha. rewrite (st_bind_ok _ _ s a s) by done. cbv zeta.
  rewrite (st_bind_ok _ _ s (policy_of <$> any_row (policies_for org n (a_policies s.1))) s)
    by (unfold find_policy, on_db; by destruct s).
  pose proof (evaluate_legible (policy_of <$> any_row (policies_for org n (a_policies s.1))) (named n a) Hn) as HE.
  destruct (mode _); [| by eexists _, _..].
  rewrite (st_bind_ok _ _ s j (s.1, w')) by (unfold on_world; by rewrite Hh). by eexists _, _.
Qed.

Definition all_noted (results : list json) : Prop := Forall (fun j => storable j = true) results.

Lemma result_storable n o : legible n = true -> noted o ->
  storable (JObject [("tool", JString n); ("status", JString (status_name (out_status o))); ("result", out_result o);
                     ("reason", JString (out_reason o))]) = true.
Proof.
  intros Hn [Hr Hj]. repeat apply storable_object; try done. by destruct (out_status o).
Qed.

Lemma tool_loop_returns k calls results :
  tools_return -> Forall call_fits calls -> all_noted results ->
  returns (running k) (tool_loop reg ctx calls results)
    (fun r s => match r with inl r => ended r s | inr rs => all_noted rs /\ running k s end).
Proof.
  intros HT. revert results. induction calls as [|[n args] rest IH]; intros results HF HA; cbn [tool_loop].
  { by apply returns_ret. }
  apply Forall_cons in HF as [(Hn & Hargs & t & Ht & Hlt) HF]. cbn [fst snd] in *.
  eapply returns_bind; [by apply execute_returns|]. intros o. apply returns_pre. intros Ho.
  pose proof (result_storable n o Hn Ho) as HR. destruct Ho as [Hwhy Hj].
  eapply returns_bind.
  { apply append_step_returns; [set_solver | | | by intros x [= <-] | by intros x [= <-]].
    - destruct (policy_mode o) as [[]|]; cbn; intros x [=<-]; set_solver.
    - repeat apply storable_object; try done. by destruct (out_status o). }
  intros ?. assert (HA' : all_noted (results ++ [JObject [("tool", JString n); ("status", JString (status_name (out_status o)));
    ("result", out_result o); ("reason", JString (out_reason o))]])%list) by (apply Forall_app; split; [done | by apply Forall_singleton]).
  destruct (out_status o); [by apply IH | | by apply IH].
  apply (returns_bind _ _ (fun diff s => t = diff /\ running k s));
    [intros s Hs; exists t, s; split; [by rewrite Ht | exact (conj eq_refl Hs)]|]. intros diff. apply returns_pre. intros <-.
  eapply (returns_bind _ _ (fun _ => running k)).
  { intros [d w] Hs. unfold request_approval, on_db. cbn [fst snd ctx_org ctx_run ctx].
    rewrite jsonb_param_ok, !text_param_ok by done. cbn [mbind outcome_bind].
    pose proof (running_exists _ _ Hs) as He. cbn [fst] in He. rewrite He, bool_decide_true by apply Hs. cbn [andb negb].
    eexists _, _. split; [reflexivity|]. exact Hs. }
  intros req. eapply returns_bind; [by apply (finish_run_returns k "awaiting_approval" (out_reason o) None (Some (ap_id req))); [set_solver|..]|].
  intros ?. by apply returns_ret.
Qed.

(** What is asked of the model comes back as a reply that fits, or as a reason that can be logged. *)
Lemma ask_returns k messages tools :
  model_answers ->
  returns (running k) (ask call_model messages tools)
    (fun r s => match r with inl why => legible why = true | inr reply => reply_fits reply end /\ running k s).
Proof.
  intros HM s Hs. specialize (HM messages tools s.2). unfold ask, on_world.
  destruct (call_model messages tools s.2) as [[reply|e|] w]; cbn [fst] in HM; [by eexists _, _ | | done].
  destruct HM as [Hc Hl]. case_bool_decide; [by eexists _, _|]. rewrite bool_decide_false by done.
  eexists _, _. split; [reflexivity|]. split; [|done]. by apply legible_app.
Qed.

Lemma model_loop_returns tools calls :
  tools_return -> model_answers -> forall k messages, 0 <= k -> k + Z.of_nat calls <= 2 ^ 20 ->
  returns (running k) (model_loop reg ctx call_model tools calls messages)
    (fun r s => match r with inl r => ended r s | inr t => legible t = true /\ exists k', running k' s end).
Proof.
  intros HT HM. induction calls as [|calls IH]; intros k messages H0 Hk; cbn [model_loop].
  { apply returns_ret. intros s Hs. split; [done | by exists k]. }
  eapply returns_bind; [by apply ask_returns|]. intros [why|reply]; apply returns_pre.
  - intros Hwhy. eapply returns_bind; [apply (end_with_returns k "failed" why); [set_solver | done]|].
    intros r. by apply returns_ret.
  - intros (Hin & Hout & Htx & Hst & HF). eapply returns_bind; [apply add_usage_returns; lia || done|]. intros ?.
    eapply returns_bind; [apply append_step_returns; [set_solver | done | | done | done]; by repeat apply storable_object|]. intros ?.
    destruct (tool_calls reply) as [|c cs] eqn:Ec; [apply returns_ret; intros s Hs; split; [done | by exists (k + 1)]|]. rewrite <- Ec in *.
    eapply returns_bind; [apply (tool_loop_returns _ _ [] HT HF); constructor|]. intros [r|results]; [by apply returns_ret|].
    apply returns_pre. intros HA. pose proof (storable_array results HA) as Hs.
    destruct (Json.dump_writes (JArray results)) as [dumped Ed]; [by apply andb_true_iff in Hs as [? _]|].
    eapply (returns_bind _ _ (fun _ => running (k + 1))); [intros s Hs'; exists dumped, s; by rewrite Ed|]. intros ?.
    eapply returns_bind; [by apply append_step_returns; [set_solver|..]|]. intros ?. apply IH; lia.
Qed.

Lemma conclude_returns k limits final_text : legible final_text = true ->
  returns (running k) (conclude org rid limits final_text) ended.
Proof.
  intros Hl. unfold conclude. destruct (String.eqb _ _).
  - apply (end_with_returns k "failed"); [set_solver|]. by apply legible_app, legible_app; [|apply legible_number|].
  - eapply returns_bind; [apply (finish_run_returns k "succeeded" final_text None None); [set_solver | done | done]|].
    intros ?. by apply returns_ret.
Qed.

(** The run can be recorded, under the number [rid]. *)
Definition can_start (trig : string) (by_user : option string) (s : State) : Prop :=
  trig ∈ ["chat"; "schedule"; "event"] /\ org ∈ a_orgs s.1 /\ (forall u, by_user = Some u -> u ∈ a_users s.1) /\
  (forall r, r ∈ a_runs s.1 -> run_id r <> rid) /\ rid = gen_random_uuid (a_seq s.1).

Lemma start_run_returns trig by_user :
  returns (can_start trig by_user) (start_run org trig by_user) (fun row s => run_id row = rid /\ running 0 s).
Proof.
  intros [d w] (Htrig & Horg & Hby & Hfresh & Hid). unfold start_run, on_db. cbn [fst snd] in *.
  rewrite (bool_decide_true _ Htrig), (bool_decide_true _ Horg). cbn [negb andb].
  replace (match by_user with Some u => _ | None => true end) with true
    by (destruct by_user; [by rewrite bool_decide_true; auto | done]).
  cbn [negb]. eexists _, _. split; [reflexivity|]. split; [done|]. split; [done|].
  eexists. cbn [set_runs next_id a_runs fst]. rewrite List.filter_app.
  replace (List.filter _ (a_runs d)) with (@nil Run).
  - cbn [List.filter]. unfold is_run at 1. cbn [run_id run_org]. rewrite <- Hid, !String.eqb_refl. by split_and!.
  - symmetry. induction (a_runs d) as [|r l IH]; [done|]. cbn [List.filter]. unfold is_run at 1.
    rewrite (proj2 (String.eqb_neq _ _) (Hfresh r (list_elem_of_here _ _))). cbn [andb].
    apply IH. intros r' Hr'. apply Hfresh. by right.
Qed.

Lemma run_funded_returns trig by_user msg tools limits :
  tools_return -> model_answers -> max_model_calls limits <= 2 ^ 20 -> legible msg = true ->
  returns (can_start trig by_user) (run_funded reg org trig by_user msg call_model tools limits) ended.
Proof.
  intros HT HM Hmax Hmsg. unfold run_funded. eapply returns_bind; [apply start_run_returns|].
  intros row. apply returns_pre. intros ->.
  eapply returns_bind; [apply append_step_returns; [set_solver | done | | done | done]; by apply storable_object|]. intros ?.
  eapply returns_bind; [apply (model_loop_returns tools _ HT HM 0); lia|].
  intros [r|final_text]; [by apply returns_ret|]. intros s [Hl [k Hk]]. by apply (conclude_returns k limits).
Qed.
End Ends.

(** C28: Every run ends whose texts can be logged.  Let the registered tools return
    values that [jsonb] takes (no byte that is not UTF-8, no zero byte), the model
    answer or throw a [std::exception], with texts, tool names, arguments and error
    messages of that kind (with at most 2^40 tokens a call, at most 2^20 calls, and
    amounts that can be printed), the message of the user be such a text, and the run
    be recordable at all (a known organization and user, a trigger the schema has, a
    readable period, statements of the agent's tables that do not fail for other reasons).
    Then the run returns, with one of its four final statuses, and its row, the
    only one with its number, carries that status and that summary: nothing stays
    "running". *)
Theorem run_finishes reg org trig by_user msg call_model tools limits s :
  tools_return reg -> model_answers call_model -> can_start org (gen_random_uuid (a_seq s.1)) trig by_user s ->
  (forall budget, budget_tiyn limits = Some budget ->
     exists since, timestamptz_in (period_start limits) = Some since /\ in_i64 (spent org since s.1) = true) ->
  max_model_calls limits <= 2 ^ 20 -> legible msg = true ->
  exists r s', run reg org trig by_user msg call_model tools limits s = (Ok r, s') /\
    ended org (gen_random_uuid (a_seq s.1)) r s'.
Proof.
  intros HT HM HS Hbudget Hmax Hmsg. unfold run.
  assert (HB : exists over, match budget_tiyn limits with
                 | None => mret None
                 | Some budget => total ← cost_since org (period_start limits);
                                  mret (if budget <=? total then Some (total, budget) else None)
                 end s = (Ok over, s)).
  { destruct (budget_tiyn limits) as [b|]; [|by eexists]. destruct (Hbudget b eq_refl) as (since & E1 & E2).
    rewrite (st_bind_ok _ _ s (spent org since s.1) s); [by eexists|].
    unfold cost_since, on_db. rewrite E1. cbv zeta. rewrite E2. by destruct s. }
  destruct HB as (over & EB). rewrite (st_bind_ok _ _ _ _ _ EB).
  destruct over as [[total budget]|]; [|by apply run_funded_returns].
  refine (returns_bind _ _ _ _ _ (start_run_returns org _ trig by_user) _ s HS). intros row.
  apply returns_pre. intros ->. apply end_with_returns; [set_solver|].
  by repeat apply legible_app; try apply legible_number.
Qed.
End System.

(** ** A run at work *)

Import Reference.
#[local] Existing Instance Json.tree_text.

(** A server that returns the first row. *)
#[refine, export] Instance first_row : Platform := {
  any_row l := head l; timestamptz_in _ := Some 0
}.
Proof.
  - intros [|x l] y; [done|]. intros [= <-]. by left.
  - intros [|x l]; [done|]. by eexists.
Defined.

(** The world: how many entries are posted; the model posts once, then answers. *)
Definition post_entry : ToolHandler (D := Z) := fun _ _ w => (Ok (JInt (w + 1)), w + 1).
Definition read_action (args : json) : outcome Action :=
  match get_member "amount_tiyn" args with
  | Some (JInt z) => Ok (mkAction "" (Some z) None None false)
  | _ => Ok no_action
  end.
Definition post_registry : ToolRegistry (D := Z) :=
  add (mkSpec "journal.post" "journal" "write" "" true) post_entry
    (Some read_action) ∅.
Definition post_then_answer (messages tools : json) : st Z ModelReply := fun w =>
  match messages with
  | JArray [_] => (Ok (mkReply "" [("journal.post", JObject [("amount_tiyn", JInt 150000)])] 10 5 "tool_use"), w)
  | _ => (Ok (mkReply "Готово" [] 20 5 "end_turn"), w)
  end.
Definition agent_db (limit : Z) : AgentDB :=
  mkADB [] [] [mkPolicyRow "org" "journal.post" "auto" (Some limit) None None false] [] {["org"]} ∅ 0 100.
Definition post_run (limit : Z) : outcome RunResult * State :=
  run post_registry "org" "chat" None "Проведи" post_then_answer (JArray []) (mkLimits (Some 1) "2026-07-01" 8)
    (agent_db limit, 0).

Example posts_within_limit :
  (post_run 200000).1 = Ok (mkResult (gen_random_uuid 0) "succeeded" "Готово" None) /\ (post_run 200000).2.2 = 1.
Proof. by vm_compute. Qed.

Example asks_above_limit :
  (exists why ap, (post_run 100000).1 = Ok (mkResult (gen_random_uuid 0) "awaiting_approval" why ap)) /\
  (post_run 100000).2.2 = 0.
Proof. vm_compute. split; [by eexists _, _ | done]. Qed.

(** A reply with a zero byte in it: [jsonb] refuses the step, the run throws, and its row stays as it was begun. *)
Example nul_leaves_running :
  let '(r, s) := run (D := Z) ∅ "org" "chat" None "Проведи" (fun _ _ w => (Ok (mkReply (String (chr 0) "") [] 1 1 "end_turn"), w))
    (JArray []) (mkLimits None "" 8) (agent_db 0, 0) in
  r = Throw (Exn pqxx_sql_error "22P05") /\ map run_status (a_runs s.1) = ["running"].
Proof. vm_compute. by split. Qed.

Lemma run_finishes_witness :
  exists r s', post_run 200000 = (Ok r, s') /\ ended "org" (gen_random_uuid 0) r s'.
Proof.
  apply (run_finishes post_registry "org" "chat" None "Проведи" post_then_answer (JArray [])
           (mkLimits (Some 1) "2026-07-01" 8) (agent_db 200000, 0)).
  - intros n entry c args w. change post_registry with (<["journal.post" := mkEntry (mkSpec "journal.post" "journal" "write" "" true) post_entry (Some read_action)]> (∅ : ToolRegistry)).
    intros [[<- <-]|[_ H]]%(lookup_insert_Some (M := gmap string)); [|discriminate].
    split; [done|]. split; [done|]. split; [by eexists _, _|]. cbn [extractor]. unfold read_action. destruct (get_member _ args) as [[]|]; by eexists.
  - intros messages tools w. unfold post_then_answer, reply_fits, max_reply_tokens.
    assert (H : call_fits ("journal.post", JObject [("amount_tiyn", JInt 150000)]))
      by (split; [done|]; split; [done|]; eexists; split; vm_compute; reflexivity).
    destruct messages as [| | | |[|m [|m' l]]|]; cbn [fst in_tokens out_tokens tool_calls text stop_reason];
      (split; [lia | split; [lia|]]); (split; [done|]); (split; [done|]);
      first [exact (Forall_nil_2 _) | exact (Forall_cons_2 _ _ _ H (Forall_nil_2 _))].
  - split_and!; [set_solver.. | done].
  - intros budget _. exists 0. split; [done | by vm_compute].
  - cbn. lia.
  - reflexivity.
Defined.
End Agent.
