(* ===== verification/InputPolicy.v ===== *)
(** * What a client may put into a document

    src/docgen/InputPolicy.hpp with the override allowlist of
    src/api/Validation.hpp: which amounts the server derives from integers of tiyn,
    whose requisites it writes, and which fields of a server-built form a caller may
    override; the two entry points that apply them
    (src/api/DocgenController.hpp, src/api/LedgerDocumentsController.hpp). *)
From Stdlib Require Import ZArith Lia Ascii String.
From S2P Require Import Prelude Money Json.
Import Json.
Open Scope string_scope.
Open Scope Z_scope.
Set Warnings "-clear-no-such-hyp".

Module InputPolicy.

(** [generate_slugs]: src/docgen/InputPolicy.hpp:43-46. *)
Definition generate_slugs : list string := ["invoice"; "avr"; "waybill"; "tax_invoice"; "reconciliation"].

Definition is_one_of (s : string) (l : list string) : bool := existsb (String.eqb s) l.

(** [input_is_caller_authored]: src/docgen/InputPolicy.hpp:51-54. *)
Definition input_is_caller_authored (slug : string) : bool := is_one_of slug generate_slugs.

(** [owning_endpoint]: src/docgen/InputPolicy.hpp:61-71. *)
Definition owning_endpoint (slug : string) : string :=
  if String.eqb slug "payslip" then "POST /api/v1/payroll-runs/{id}/payslips/{employee_id}/generate-document"
  else if String.eqb slug "fno_910" || String.eqb slug "fno_300" then "POST /api/v1/tax/filings"
  else if String.eqb slug "hr_order" then "POST /api/v1/hr-orders/{id}/generate-document"
  else if String.eqb slug "labor_contract" then "POST /api/v1/labor-contracts/{id}/generate-document"
  else "".

(** [DerivedAmount]: src/docgen/InputPolicy.hpp:75-107. *)
Record DerivedAmount := mkDerived {
  tiyn_path : string; amount_path : string; words_path : string;
  components : list (string * string); optional_parts : list (string * string)
}.

(** [derived_amount_for]: src/docgen/InputPolicy.hpp:109-125. *)
Definition derived_amount_for (slug : string) : option DerivedAmount :=
  if String.eqb slug "invoice" || String.eqb slug "avr" then
    Some (mkDerived "total_tiyn" "total" "total_words" [] [("vat_tiyn", "vat_amount")])
  else if String.eqb slug "waybill" then Some (mkDerived "total_tiyn" "total" "total_words" [] [])
  else if String.eqb slug "tax_invoice" then
    Some (mkDerived "totals.with_vat_tiyn" "totals.with_vat" "total_words"
            [("totals.amount_tiyn", "totals.amount"); ("totals.vat_tiyn", "totals.vat")] [])
  else None.

(** [editable_fields]: src/docgen/InputPolicy.hpp:131-144. *)
Definition editable_fields (slug : string) : list string :=
  if String.eqb slug "fno_910" || String.eqb slug "fno_300" then ["director"; "accountant"]
  else if String.eqb slug "hr_order" then ["director"; "reason"; "details"]
  else if String.eqb slug "labor_contract" then
    ["work_schedule"; "probation_months"; "employer.director"; "employer.address"; "employee.address"]
  else [].

(** [at_path]: src/docgen/InputPolicy.hpp:148-162. *)
Definition at_path (obj : json) (path : string) : option json := walk obj (keys path).

(** [set_path]: src/docgen/InputPolicy.hpp:165-175. *)
Definition set_path (obj : json) (path : string) (value : json) : outcome json := set_at (keys path) value obj.

(** [Error]: src/api/Validation.hpp:48-52.  A refusal: the field, the code and the message of the 422. *)
Record Error := mkError { field : string; err_code : string; message : string }.

(** [read_tiyn]: src/docgen/InputPolicy.hpp:181-209. *)
Definition read_tiyn (input : json) (path : string) : Error + Z :=
  match at_path input path with
  | None =>
      inl (mkError ("input." +:+ path) "missing"
             ("'" +:+ path +:+ "' is required — money is carried as an integer number of tiyn"))
  | Some (JInt z) =>
      let value := get_ll z in
      if (value <? 0) || (Words.kMaxTiyn <? value) then
        inl (mkError ("input." +:+ path) "out_of_range"
               ("'" +:+ path +:+ "' must be between 0 and " +:+ to_string Words.kMaxTiyn +:+ " tiyn inclusive"))
      else inr value
  | Some _ =>
      inl (mkError ("input." +:+ path) "not_integer" ("'" +:+ path +:+ "' must be an integer number of tiyn"))
  end.

(** [apply_derived_amount]: src/docgen/InputPolicy.hpp:329-343.  The first string of the server that the client sent. *)
Fixpoint overridden (input : json) (paths : list string) : option Error :=
  match paths with
  | [] => None
  | p :: rest =>
      match at_path input p with
      | Some _ =>
          Some (mkError ("input." +:+ p) "not_allowed_override"
                  ("'" +:+ p +:+ "' is formatted by the server from the integer tiyn fields and may not be " +:+
                   "supplied by the client"))
      | None => overridden input rest
      end
  end.

(** [apply_derived_amount]: src/docgen/InputPolicy.hpp:348-355. *)
Fixpoint read_all (input : json) (parts : list (string * string)) : Error + list Z :=
  match parts with
  | [] => inr []
  | c :: rest =>
      match read_tiyn input c.1 with
      | inl e => inl e
      | inr v => match read_all input rest with inl e => inl e | inr vs => inr (v :: vs) end
      end
  end.

(** [apply_derived_amount]: src/docgen/InputPolicy.hpp:366-371.  The breakdown as the refusal prints it. *)
Fixpoint spell_parts (first : bool) (parts : list (string * string)) (vs : list Z) : string :=
  match parts, vs with
  | c :: rest, v :: vs' =>
      (if first then "" else " + ") +:+ c.1 +:+ " (" +:+ to_string v +:+ ")" +:+ spell_parts false rest vs'
  | _, _ => ""
  end.

(** [apply_derived_amount]: src/docgen/InputPolicy.hpp:360-378.  The breakdown gives the total. *)
Definition check_total (d : DerivedAmount) (total : Z) (vs : list Z) : option Error :=
  match components d with
  | [] => None
  | _ =>
      let sum := zsum vs in
      if sum =? total then None
      else Some (mkError ("input." +:+ tiyn_path d) "inconsistent_total"
                   (spell_parts true (components d) vs +:+ " = " +:+ to_string sum +:+
                    " tiyn, which does not equal " +:+ tiyn_path d +:+ " (" +:+ to_string total +:+ ")"))
  end.

(** [apply_derived_amount]: src/docgen/InputPolicy.hpp:382-399.  The optional parts that were sent, none above the total. *)
Fixpoint read_optional (input : json) (d : DerivedAmount) (total : Z) (parts : list (string * string))
    : Error + list (string * Z) :=
  match parts with
  | [] => inr []
  | p :: rest =>
      match at_path input p.1 with
      | None => read_optional input d total rest
      | Some _ =>
          match read_tiyn input p.1 with
          | inl e => inl e
          | inr v =>
              if total <? v then
                inl (mkError ("input." +:+ p.1) "exceeds_total"
                       ("'" +:+ p.1 +:+ "' (" +:+ to_string v +:+ " tiyn) is larger than " +:+ tiyn_path d +:+
                        " (" +:+ to_string total +:+
                        " tiyn) — a part of the amount due cannot exceed the amount due"))
              else match read_optional input d total rest with
                   | inl e => inl e
                   | inr vs => inr ((p.2, v) :: vs)
                   end
          end
      end
  end.

(** [apply_derived_amount]: src/docgen/InputPolicy.hpp:403-406.  Each amount printed at its path. *)
Fixpoint print_all (input : json) (vs : list (string * Z)) : outcome json :=
  match vs with
  | [] => mret input
  | (p, v) :: rest =>
      s ← Format.format_tiyn_ru v;
      input ← set_path input p (JString s);
      print_all input rest
  end.

(** [apply_derived_amount]: src/docgen/InputPolicy.hpp:329-333. *)
Definition server_written (d : DerivedAmount) : list string :=
  amount_path d :: words_path d :: map snd (components d) ++ map snd (optional_parts d).

(** [apply_derived_amount]: src/docgen/InputPolicy.hpp:315-408. *)
Definition apply_derived_amount (slug : string) (input : json) : outcome (Error + json) :=
  match derived_amount_for slug with
  | None => mret (inr input)
  | Some d =>
      match overridden input (server_written d) with
      | Some e => mret (inl e)
      | None =>
          match read_tiyn input (tiyn_path d) with
          | inl e => mret (inl e)
          | inr total =>
              match read_all input (components d) with
              | inl e => mret (inl e)
              | inr vs =>
                  match check_total d total vs with
                  | Some e => mret (inl e)
                  | None =>
                      match read_optional input d total (optional_parts d) with
                      | inl e => mret (inl e)
                      | inr opts =>
                          s ← Format.format_tiyn_ru total;
                          out ← set_path input (amount_path d) (JString s);
                          w ← Words.to_words_ru total;
                          out ← set_path out (words_path d) (JString w);
                          out ← print_all out (zip (map snd (components d)) vs);
                          out ← print_all out opts;
                          mret (inr out)
                      end
                  end
              end
          end
      end
  end.

(** [SellerRequisites]: src/docgen/InputPolicy.hpp:235-244. *)
Record SellerRequisites := mkSeller {
  sr_name : string; identifier : string; address : string; iik : string; bank : string; bik : string; kbe : string;
  vat_certificate : string
}.

(** [seller_is_the_organization]: src/docgen/InputPolicy.hpp:251-253. *)
Definition seller_is_the_organization (slug : string) : bool :=
  is_one_of slug ["invoice"; "avr"; "waybill"; "tax_invoice"].

(** A requisite that is known. *)
Definition known (k v : string) : list (string * json) := if String.eqb v "" then [] else [(k, JString v)].

(** [apply_seller_requisites]: src/docgen/InputPolicy.hpp:291-310.  The party in the order it is filled. *)
Definition party_fields (slug : string) (s : SellerRequisites) : list (string * json) :=
  [("name", JString (sr_name s)); ("identifier", JString (identifier s))] ++
  known "address" (address s) ++ known "iik" (iik s) ++ known "bank" (bank s) ++ known "bik" (bik s) ++
  known "kbe" (kbe s) ++ (if String.eqb slug "tax_invoice" then known "vat_certificate" (vat_certificate s) else []).

Definition party (slug : string) (s : SellerRequisites) : json :=
  JObject (foldl (fun l e => obj_set e.1 e.2 l) [] (party_fields slug s)).

(** [apply_seller_requisites]: src/docgen/InputPolicy.hpp:273-313. *)
Definition apply_seller_requisites (slug : string) (input : json) (s : SellerRequisites) : outcome (Error + json) :=
  if negb (seller_is_the_organization slug) then mret (inr input)
  else if contains "seller" input then
    mret (inl (mkError "input.seller" "not_allowed_override"
                 ("'seller' is filled in by the server from the organization's own requisites and may not be supplied " +:+
                  "by the client")))
  else
    input ← set_member "seller" (party slug s) input;
    mret (inr input).

(** ** The override allowlist *)

(** [validate_extra_allowlist]: src/api/Validation.hpp:367-385.  The first field that is not allowed. *)
Fixpoint validate_extra_allowlist (extra : json) (allowed : list string) (prefix : string) : option Error :=
  match extra with
  | JObject l =>
      (fix members (l : list (string * json)) : option Error :=
         match l with
         | [] => None
         | (k, v) :: rest =>
             let path := if String.eqb prefix "" then k else prefix +:+ "." +:+ k in
             let refused :=
               match v with
               | JObject (_ :: _) => validate_extra_allowlist v allowed path
               | _ =>
                   if is_one_of path allowed then None
                   else Some (mkError path "not_allowed_override"
                                "this field is derived from stored data and cannot be overridden")
               end in
             match refused with Some e => Some e | None => members rest end
         end) l
  | _ => None
  end.

(** [merge_allowed_extra]: src/api/Validation.hpp:403-411.  Every caller has checked that the body is an object. *)
Definition merge_allowed_extra `{MergePatch} (input : json) (extra : list (string * json)) (allowed : list string)
    : Error + json :=
  match validate_extra_allowlist (JObject extra) allowed "" with
  | Some e => inl e
  | None => inr (merge_patch input (JObject extra))
  end.

(** ** The two entry points *)

(** [generate]: src/api/DocgenController.hpp:254-291.  The input of a new document; [unsupported_template] names the owner. *)
Definition generate_input (slug : string) (client_input : list (string * json)) (seller : SellerRequisites)
    : outcome (Error + json) :=
  if negb (input_is_caller_authored slug) then
    let owner := owning_endpoint slug in
    let where_to := if String.eqb owner "" then "no endpoint generates it"
                    else "use " +:+ owner +:+ ", which holds the authoritative data for it" in
    mret (inl (mkError "template_slug" "unsupported_template"
                 ("template '" +:+ slug +:+ "' is not generated through this endpoint — " +:+ where_to)))
  else
    derived ← apply_derived_amount slug (JObject client_input);
    match derived with
    | inl e => mret (inl e)
    | inr input => apply_seller_requisites slug input seller
    end.

(** [createVersion]: src/api/LedgerDocumentsController.hpp:742-771.  The input of the next version. *)
Definition version_input `{MergePatch} (slug : string) (previous : option json) (client_input : list (string * json))
    (seller : SellerRequisites) : outcome (Error + json) :=
  if input_is_caller_authored slug then
    derived ← apply_derived_amount slug (JObject client_input);
    match derived with
    | inl e => mret (inl e)
    | inr input => apply_seller_requisites slug input seller
    end
  else
    mret (merge_allowed_extra (match previous with Some p => p | None => JObject [] end) client_input
            (editable_fields slug)).

(** ** Amounts *)

(** The client sent [v] tiyn at [p]: an integer between 0 and kMaxTiyn. *)
Definition amount_at (input : json) (p : string) (v : Z) : Prop :=
  exists z, at_path input p = Some (JInt z) /\ get_ll z = v /\ 0 <= v <= Words.kMaxTiyn.

Lemma read_tiyn_inr input p v : read_tiyn input p = inr v <-> amount_at input p v.
Proof.
  unfold read_tiyn, amount_at. destruct (at_path input p) as [j|]; [|split; [done | by intros (z & ? & _)]].
  destruct j; try (split; [done | by intros (z' & ? & _)]). cbv zeta.
  destruct (Z.ltb_spec (get_ll z) 0), (Z.ltb_spec Words.kMaxTiyn (get_ll z)); cbn [orb];
    (split; [(intros [= <-]; by exists z) || done | intros (z' & [= <-] & <- & ?); (done || lia)]).
Qed.

Lemma read_tiyn_inl input p e v : read_tiyn input p = inl e -> ~ amount_at input p v.
Proof. intros E H. apply read_tiyn_inr in H. congruence. Qed.

Lemma amount_at_range input p v : amount_at input p v -> 0 <= v <= Words.kMaxTiyn.
Proof. by intros (z & _ & _ & ?). Qed.

Lemma amount_at_inj input p v v' : amount_at input p v -> amount_at input p v' -> v = v'.
Proof. rewrite <- !read_tiyn_inr. congruence. Qed.

Lemma read_all_inr input parts vs :
  read_all input parts = inr vs <-> Forall2 (fun c v => amount_at input c.1 v) parts vs.
Proof.
  revert vs. induction parts as [|c rest IH]; intros vs; cbn [read_all].
  { split; [by intros [= <-] | by intros ->%Forall2_nil_inv_l]. }
  destruct (read_tiyn input c.1) as [e|v] eqn:E.
  { split; [done|]. intros (v & vs' & Hv & _ & ->)%Forall2_cons_inv_l. by destruct (read_tiyn_inl _ _ _ _ E Hv). }
  apply read_tiyn_inr in E. destruct (read_all input rest) as [e|vs'].
  - split; [done|]. intros (v' & vs' & _ & H & ->)%Forall2_cons_inv_l. by apply IH in H.
  - split.
    + intros [= <-]. constructor; [done | by apply IH].
    + intros (v' & vs'' & Hv & H & ->)%Forall2_cons_inv_l. apply IH in H as [= ->].
      by rewrite (amount_at_inj _ _ _ _ E Hv).
Qed.

Lemma overridden_none input paths : overridden input paths = None <-> Forall (fun p => at_path input p = None) paths.
Proof.
  induction paths as [|p rest IH]; cbn [overridden]; [by split|].
  rewrite Forall_cons. destruct (at_path input p); [by split; [|intros []] | by rewrite IH; split; [|intros []]].
Qed.

(** What the policy asks of the amounts of a document. *)
Definition amounts_agree (d : DerivedAmount) (input : json) (total : Z) (vs : list Z) : Prop :=
  Forall (fun p => at_path input p = None) (server_written d) /\
  amount_at input (tiyn_path d) total /\
  Forall2 (fun c v => amount_at input c.1 v) (components d) vs /\ (components d <> [] -> zsum vs = total) /\
  Forall (fun p => at_path input p.1 <> None -> exists v, amount_at input p.1 v /\ v <= total) (optional_parts d).

Lemma check_total_none d total vs : check_total d total vs = None <-> (components d <> [] -> zsum vs = total).
Proof.
  unfold check_total. destruct (components d); [by split|]. cbv zeta.
  destruct (Z.eqb_spec (zsum vs) total); [by split|]. split; [done | intros H; by destruct n; apply H].
Qed.

(** The parts that were sent, with what they hold. *)
Definition sent_parts (input : json) (parts : list (string * string)) : list (string * Z) :=
  omap (fun p => match read_tiyn input p.1 with inr v => Some (p.2, v) | inl _ => None end) parts.

Lemma read_optional_spec input d total parts :
  match read_optional input d total parts with
  | inr opts => opts = sent_parts input parts /\
      Forall (fun p => at_path input p.1 <> None -> exists v, amount_at input p.1 v /\ v <= total) parts
  | inl _ => ~ Forall (fun p => at_path input p.1 <> None -> exists v, amount_at input p.1 v /\ v <= total) parts
  end.
Proof.
  induction parts as [|p rest IH]; cbn [read_optional]; [done|]. unfold sent_parts. cbn [omap list_omap].
  destruct (at_path input p.1) as [j|] eqn:Ep.
  - destruct (read_tiyn input p.1) as [e|v] eqn:E.
    { intros [H _]%Forall_cons. destruct H as (v & Hv & _); [congruence|]. by destruct (read_tiyn_inl _ _ _ _ E Hv). }
    apply read_tiyn_inr in E. destruct (Z.ltb_spec total v).
    { intros [H' _]%Forall_cons. destruct H' as (v' & Hv & ?); [congruence|]. rewrite (amount_at_inj _ _ _ _ E Hv) in *. lia. }
    destruct (read_optional input d total rest) as [e|opts].
    + by intros [_ H']%Forall_cons.
    + destruct IH as [-> HF]. split; [done|]. constructor; [|done]. intros _. by exists v.
  - assert (Er : exists e, read_tiyn input p.1 = inl e) by (unfold read_tiyn; rewrite Ep; by eexists).
    destruct Er as [e ->]. destruct (read_optional input d total rest) as [e'|opts].
    + by intros [_ H']%Forall_cons.
    + destruct IH as [-> HF]. split; [done|]. by constructor.
Qed.

(** The strings the server writes, one after another. *)
Fixpoint write_all (ws : list (string * json)) (j : json) : outcome json :=
  match ws with
  | [] => Ok j
  | (p, v) :: rest => j ← set_path j p v; write_all rest j
  end.

Definition apart_paths (p q : string) : bool := apart (keys p) (keys q).

(** No two of the paths are on the way to one another. *)
Fixpoint all_apart (ps : list string) : bool :=
  match ps with [] => true | p :: rest => forallb (apart_paths p) rest && all_apart rest end.

Lemma write_all_spec ws l :
  all_apart (map fst ws) = true ->
  exists l', write_all ws (JObject l) = Ok (JObject l') /\
    Forall (fun w => at_path (JObject l') w.1 = Some w.2) ws /\
    (forall qs, Forall (fun w => apart (keys w.1) qs = true) ws -> walk (JObject l') qs = walk (JObject l) qs).
Proof.
  revert l. induction ws as [|[p v] rest IH]; intros l Ha; cbn [write_all].
  { by exists l. }
  cbn [map all_apart fst] in Ha. apply andb_true_iff in Ha as [Hp Ha].
  unfold set_path. destruct (keys_cons p) as (k & r & Ek). destruct (set_at_object k r v l) as [l1 E1].
  rewrite Ek, E1, bind_ok. destruct (IH l1 Ha) as (l' & E' & HF & HU). exists l'. split; [exact E'|].
  rewrite <- Ek in E1. split.
  - constructor; [|exact HF]. cbn [fst snd]. unfold at_path. rewrite HU; [by eapply walk_set_same|].
    rewrite forallb_forall in Hp. apply List.Forall_forall. intros w Hw. rewrite apart_sym.
    apply Hp, in_map, Hw.
  - intros qs [Hq HF']%Forall_cons. rewrite (HU qs HF'). by eapply walk_set_apart.
Qed.

Lemma print_ok v : 0 <= v <= Words.kMaxTiyn -> exists s, Format.format_tiyn_ru v = Ok s.
Proof. intros H. rewrite Format.format_in_range by lia. by eexists. Qed.

(** [out] shows [v] tiyn at [p], as the server prints it. *)
Definition printed (out : json) (p : string) (v : Z) : Prop :=
  exists s, Format.format_tiyn_ru v = Ok s /\ at_path out p = Some (JString s).

Definition print_of (pv : string * Z) (w : string * json) : Prop :=
  w.1 = pv.1 /\ exists s, Format.format_tiyn_ru pv.2 = Ok s /\ w.2 = JString s.

Lemma print_all_writes pvs :
  Forall (fun pv => 0 <= pv.2 <= Words.kMaxTiyn) pvs ->
  exists ws, Forall2 print_of pvs ws /\ forall j, print_all j pvs = write_all ws j.
Proof.
  induction 1 as [|[p v] rest Hv _ (ws & HF & E)]; [by exists []|]. cbn [snd] in Hv.
  destruct (print_ok v Hv) as [s Es]. exists ((p, JString s) :: ws). split.
  - constructor; [|done]. split; [done|]. by exists s.
  - intros j. cbn [print_all write_all]. rewrite Es, bind_ok. by destruct (set_path j p (JString s)); cbn.
Qed.

Lemma write_all_app ws1 ws2 j : write_all (ws1 ++ ws2) j = (j ← write_all ws1 j; write_all ws2 j).
Proof.
  revert j. induction ws1 as [|[p v] rest IH]; intros j; cbn [write_all app]; [done|].
  by destruct (set_path j p v); cbn.
Qed.

Lemma print_of_paths pvs ws : Forall2 print_of pvs ws -> map fst ws = map fst pvs.
Proof. induction 1 as [|pv w ? ? [H _] _ IH]; cbn [map]; congruence. Qed.

Lemma print_of_printed out pvs ws :
  Forall2 print_of pvs ws -> Forall (fun w => at_path out w.1 = Some w.2) ws ->
  Forall (fun pv => printed out pv.1 pv.2) pvs.
Proof.
  induction 1 as [|pv w ? ? (E & s & Es & Ev) _ IH]; intros HF; constructor.
  - apply Forall_cons in HF as [HF _]. exists s. split; [done|]. by rewrite <- E, HF, Ev.
  - apply IH. by apply Forall_cons in HF as [_ HF].
Qed.

(** What the server writes below the total when it accepts: the parts, in figures. *)
Definition figures (d : DerivedAmount) (input : json) (vs : list Z) : list (string * Z) :=
  zip (map snd (components d)) vs ++ sent_parts input (optional_parts d).

Lemma figures_range d input total vs :
  amounts_agree d input total vs -> Forall (fun pv => 0 <= pv.2 <= Words.kMaxTiyn) (figures d input vs).
Proof.
  intros (_ & _ & Hc & _ & _). unfold figures. apply Forall_app_2.
  - induction Hc as [|c v cs vs' Hv _ IH]; cbn [map zip_with]; constructor; [by eapply amount_at_range | exact IH].
  - unfold sent_parts. induction (optional_parts d) as [|p rest IH]; cbn [omap list_omap]; [constructor|].
    destruct (read_tiyn input p.1) as [e|v] eqn:E; [exact IH|]. constructor; [|exact IH].
    apply read_tiyn_inr in E. by eapply amount_at_range.
Qed.

(** The paths of the tables never meet. *)
Lemma figures_apart slug d input vs :
  derived_amount_for slug = Some d -> length vs = length (components d) ->
  all_apart (amount_path d :: words_path d :: map fst (figures d input vs)) = true /\
  Forall (fun p => p ∈ server_written d) (map fst (figures d input vs)).
Proof.
  unfold derived_amount_for. intros Hd Hl. unfold figures, sent_parts.
  destruct (_ || _); [|destruct (String.eqb _ _); [|destruct (String.eqb _ _); [|done]]]; injection Hd as <-;
    cbn [components optional_parts length] in *.
  - destruct vs; [|done]. cbn [omap list_omap fst snd].
    destruct (read_tiyn input "vat_tiyn"); split; [done | | done |]; repeat constructor; set_solver.
  - destruct vs; [|done]. split; [done|]. repeat constructor; set_solver.
  - destruct vs as [|v1 [|v2 [|]]]; [done..| |done]. split; [done|]. repeat constructor; set_solver.
Qed.

(** The document shows the amounts the client gave as integers and nothing else of its making:
    the total in figures and in words, the parts in figures, everything else (but for the
    paths [more]) as sent. *)
Definition shows (d : DerivedAmount) (more : list string) (input out : json) (total : Z) (vs : list Z) : Prop :=
  printed out (amount_path d) total /\
  (exists w, Words.to_words_ru total = Ok w /\ Words.read_ru w = Some total /\
     at_path out (words_path d) = Some (JString w)) /\
  Forall (fun pv => printed out pv.1 pv.2) (figures d input vs) /\
  (forall qs, Forall (fun p => apart (keys p) qs = true) (server_written d ++ more) -> walk out qs = walk input qs).

Lemma derive_writes slug d l total vs :
  derived_amount_for slug = Some d -> amounts_agree d (JObject l) total vs ->
  exists l', (s ← Format.format_tiyn_ru total;
     out ← set_path (JObject l) (amount_path d) (JString s);
     w ← Words.to_words_ru total;
     out ← set_path out (words_path d) (JString w);
     out ← print_all out (zip (map snd (components d)) vs);
     out ← print_all out (sent_parts (JObject l) (optional_parts d));
     mret (inr out : Error + json)) = Ok (inr (JObject l')) /\ shows d [] (JObject l) (JObject l') total vs.
Proof.
  intros Hd Ha. pose proof (figures_range _ _ _ _ Ha) as HR. destruct Ha as (_ & Ht & Hc & _ & _).
  apply Forall2_length in Hc. destruct (figures_apart slug d (JObject l) vs Hd (eq_sym Hc)) as [HA HS].
  apply amount_at_range in Ht. destruct (print_ok total Ht) as [s Es].
  destruct (Words.to_words_ru_in_range total Ht) as (w & Ew & Hw).
  unfold figures in HR. apply Forall_app in HR as [HR1 HR2].
  destruct (print_all_writes _ HR1) as (ws1 & HF1 & E1). destruct (print_all_writes _ HR2) as (ws2 & HF2 & E2).
  set (ws := (amount_path d, JString s) :: (words_path d, JString w) :: ws1 ++ ws2).
  assert (Hpaths : map fst ws = amount_path d :: words_path d :: map fst (figures d (JObject l) vs)).
  { unfold ws, figures. cbn [map fst]. by rewrite !map_app, (print_of_paths _ _ HF1), (print_of_paths _ _ HF2). }
  rewrite <- Hpaths in HA. destruct (write_all_spec ws l HA) as (l' & EW & HW & HU). exists l'. split.
  - rewrite Es, bind_ok. cbn [write_all ws] in EW. apply bind_Ok_inv in EW as (j1 & -> & EW). rewrite bind_ok, Ew, bind_ok.
    apply bind_Ok_inv in EW as (j2 & -> & EW). rewrite bind_ok, E1. rewrite write_all_app in EW.
    apply bind_Ok_inv in EW as (j3 & -> & EW). by rewrite bind_ok, E2, EW.
  - apply Forall_cons in HW as [W1 HW]. apply Forall_cons in HW as [W2 HW]. apply Forall_app in HW as [W3 W4].
    split_and!; [by exists s | by exists w | |].
    + unfold figures. apply Forall_app_2; [by eapply print_of_printed | by eapply print_of_printed].
    + intros qs Hq. rewrite app_nil_r in Hq. apply HU. apply Forall_map with (P := fun p => apart (keys p) qs = true) (f := fst).
      rewrite Hpaths. rewrite Forall_forall in Hq. constructor; [apply Hq; set_solver|]. constructor; [apply Hq; set_solver|].
      eapply Forall_impl; [exact HS|]. auto.
Qed.

(** Either the amounts agree and the document shows them, or the request is refused. *)
Lemma derived_spec slug d l :
  derived_amount_for slug = Some d ->
  (exists e, apply_derived_amount slug (JObject l) = Ok (inl e) /\ forall total vs, ~ amounts_agree d (JObject l) total vs) \/
  (exists total vs l', apply_derived_amount slug (JObject l) = Ok (inr (JObject l')) /\
     amounts_agree d (JObject l) total vs /\ shows d [] (JObject l) (JObject l') total vs).
Proof.
  intros Hd. unfold apply_derived_amount. rewrite Hd. set (input := JObject l).
  destruct (overridden input (server_written d)) as [e|] eqn:EO.
  { left. exists e. split; [done|]. intros total vs (H & _). apply overridden_none in H. congruence. }
  apply overridden_none in EO. destruct (read_tiyn input (tiyn_path d)) as [e|total] eqn:ET.
  { left. exists e. split; [done|]. intros total vs (_ & H & _). by destruct (read_tiyn_inl _ _ _ _ ET H). }
  apply read_tiyn_inr in ET. destruct (read_all input (components d)) as [e|vs] eqn:EV.
  { left. exists e. split; [done|]. intros total' vs (_ & _ & H & _). apply read_all_inr in H. congruence. }
  apply read_all_inr in EV. destruct (check_total d total vs) as [e|] eqn:EC.
  { left. exists e. split; [done|]. intros total' vs' (_ & HT & HV & HS & _). apply read_all_inr in HV, EV.
    rewrite EV in HV. injection HV as <-. rewrite (amount_at_inj _ _ _ _ HT ET) in HS.
    pose proof (proj2 (check_total_none _ _ _) HS). congruence. }
  pose proof (proj1 (check_total_none _ _ _) EC) as HC. pose proof (read_optional_spec input d total (optional_parts d)) as HO.
  destruct (read_optional input d total (optional_parts d)) as [e|opts].
  { left. exists e. split; [done|]. intros total' vs' (_ & HT & _ & _ & HF).
    by rewrite (amount_at_inj _ _ _ _ HT ET) in HF. }
  destruct HO as [-> HF]. right. exists total, vs.
  assert (HA : amounts_agree d input total vs) by (by split_and!).
  destruct (derive_writes slug d l total vs Hd HA) as (l' & E & HSh). by exists l'.
Qed.

Lemma shows_seller slug d input out v out' total vs :
  derived_amount_for slug = Some d -> length vs = length (components d) ->
  shows d [] input out total vs -> set_member "seller" v out = Ok out' -> shows d ["seller"] input out' total vs.
Proof.
  intros Hd Hl (H1 & (w & Ew & Rw & Hw) & H3 & H4) E.
  assert (HU : forall qs, apart ["seller"] qs = true -> walk out' qs = walk out qs)
    by (intros qs Hq; by apply (walk_set_apart ["seller"] qs v out)).
  assert (HS : Forall (fun p => apart ["seller"] (keys p) = true) (server_written d)).
  { unfold derived_amount_for in Hd.
    destruct (_ || _); [|destruct (String.eqb _ _); [|destruct (String.eqb _ _); [|done]]]; injection Hd as <-;
      repeat constructor. }
  assert (HP : forall p x, p ∈ server_written d -> printed out p x -> printed out' p x).
  { intros p x Hp (s & Es & Hs). exists s. split; [done|]. unfold at_path. rewrite HU; [exact Hs|].
    rewrite Forall_forall in HS. by apply HS. }
  destruct (figures_apart slug d input vs Hd Hl) as [_ HF]. split_and!.
  - apply HP; [left | exact H1].
  - exists w. split_and!; [done..|]. unfold at_path. rewrite HU; [exact Hw|]. rewrite Forall_forall in HS.
    apply HS. right. left.
  - rewrite Forall_map in HF. rewrite Forall_forall in H3, HF |- *. intros pv Hpv. apply HP; [by apply HF | by apply H3].
  - intros qs [Hq1 Hq2]%Forall_app. apply Forall_cons in Hq2 as [Hq2 _]. rewrite HU by exact Hq2.
    apply H4. by rewrite app_nil_r.
Qed.

(** The derivation leaves the seller alone. *)
Lemma seller_as_sent slug d input out total vs :
  derived_amount_for slug = Some d -> shows d [] input out total vs -> member "seller" out = member "seller" input.
Proof.
  intros Hd (_ & _ & _ & HU). specialize (HU ["seller"]). cbn [walk] in HU.
  enough (Forall (fun p => apart (keys p) ["seller"] = true) (server_written d ++ [])) as HF.
  { specialize (HU HF). by destruct (member "seller" out), (member "seller" input). }
  unfold derived_amount_for in Hd.
  destruct (_ || _); [|destruct (String.eqb _ _); [|destruct (String.eqb _ _); [|done]]]; injection Hd as <-;
    repeat constructor.
Qed.

(** The forms with amounts are exactly those whose seller is the organization. *)
Lemma seller_iff_amounts slug :
  seller_is_the_organization slug = match derived_amount_for slug with Some _ => true | None => false end.
Proof.
  unfold seller_is_the_organization, derived_amount_for, is_one_of. cbn [existsb].
  destruct (String.eqb slug "invoice"), (String.eqb slug "avr"), (String.eqb slug "waybill"), (String.eqb slug "tax_invoice");
    reflexivity.
Qed.

(** C22: A primary document cannot lie about its amounts.  What the entry point for
    new documents accepts is a primary form; if the form carries amounts, the total
    and every part came as integers of tiyn, the parts of a breakdown add up to the
    total and no optional part exceeds it, none of the printed strings and no seller
    came from the client, and the document shows exactly those amounts (the total in
    figures and in words that read back as the total, the parts in figures) and the
    organization's own requisites, with everything else as sent; a form without
    amounts is as sent.  Editing such a document goes through the same checks. *)
Theorem generate_input_honest `{MergePatch} slug client seller out :
  generate_input slug client seller = Ok (inr out) ->
  slug ∈ generate_slugs /\
  match derived_amount_for slug with
  | Some d =>
      (exists total vs, amounts_agree d (JObject client) total vs /\ shows d ["seller"] (JObject client) out total vs) /\
      member "seller" (JObject client) = None /\ member "seller" out = Some (party slug seller)
  | None => out = JObject client
  end /\
  (forall previous, version_input slug previous client seller = generate_input slug client seller).
Proof.
  unfold generate_input, version_input. destruct (input_is_caller_authored slug) eqn:EA; [|discriminate].
  cbn [negb]. intros E. split.
  { unfold input_is_caller_authored, is_one_of in EA. apply existsb_exists in EA as (x & Hx & ->%String.eqb_eq).
    by apply list_elem_of_In. }
  split; [|done]. apply bind_Ok_inv in E as (derived & E1 & E2). destruct derived as [e|input]; [discriminate|].
  unfold apply_seller_requisites in E2. rewrite seller_iff_amounts in E2.
  destruct (derived_amount_for slug) as [d|] eqn:Hd; cbn [negb] in E2.
  - destruct (derived_spec slug d client Hd) as [(e & E & _)|(total & vs & l' & E & HA & HS)]; [congruence|].
    rewrite E in E1. injection E1 as <-. unfold contains in E2.
    destruct (member "seller" (JObject l')) eqn:EM; [discriminate|].
    apply bind_Ok_inv in E2 as (out' & E2 & [= ->]).
    pose proof (Forall2_length _ _ _ (proj1 (proj2 (proj2 HA)))) as Hl.
    pose proof (shows_seller slug d (JObject client) (JObject l') _ out total vs Hd (eq_sym Hl) HS E2) as HS'.
    split; [by exists total, vs|]. split; [|by rewrite (member_set _ _ _ _ _ E2)].
    by rewrite <- (seller_as_sent slug d _ _ _ _ Hd HS).
  - unfold apply_derived_amount in E1. rewrite Hd in E1. injection E1 as <-. by injection E2 as <-.
Qed.

(** The amounts are accepted exactly when they agree: for a form that carries
    amounts, the derivation succeeds when no printed string was sent, the total and
    the declared parts are integers between 0 and kMaxTiyn, a breakdown adds up to
    the total and an optional part that is there does not exceed it; it refuses
    otherwise, and it never throws. *)
Theorem apply_derived_amount_decides slug d client :
  derived_amount_for slug = Some d ->
  ((exists out, apply_derived_amount slug (JObject client) = Ok (inr out)) <->
   exists total vs, amounts_agree d (JObject client) total vs) /\
  ((exists e, apply_derived_amount slug (JObject client) = Ok (inl e)) <->
   ~ exists total vs, amounts_agree d (JObject client) total vs).
Proof.
  intros Hd. destruct (derived_spec slug d client Hd) as [(e & E & HN)|(total & vs & l' & E & HA & _)]; rewrite E.
  - split; split; [by intros (? & ?) | intros (total & vs & HA); by destruct (HN total vs)
      | intros _ (total & vs & HA); by destruct (HN total vs) | intros _; by exists e].
  - split; split; [intros _; by exists total, vs | intros _; by eexists | by intros (? & ?)
      | intros HN; destruct HN; by exists total, vs].
Qed.

(** ** Overrides *)

(** The path as the allowlist spells it, below [prefix]. *)
Definition spell_step (prefix k : string) : string := if String.eqb prefix "" then k else prefix +:+ "." +:+ k.
Definition spell (prefix : string) (ks : list string) : string := foldl spell_step prefix ks.

Lemma validate_members l allowed prefix k v :
  validate_extra_allowlist (JObject l) allowed prefix = None -> (k, v) ∈ l ->
  match v with
  | JObject (_ :: _) => validate_extra_allowlist v allowed (spell_step prefix k) = None
  | _ => spell_step prefix k ∈ allowed
  end.
Proof.
  cbn [validate_extra_allowlist]. induction l as [|[k' v'] rest IH]; intros HV Hin; [by apply not_elem_of_nil in Hin|].
  cbv zeta in HV. fold (spell_step prefix k') in HV.
  apply elem_of_cons in Hin as [[= -> ->]|Hin].
  - destruct v' as [| | | | |[|e l']];
      try (destruct (is_one_of (spell_step prefix k') allowed) eqn:E; [|discriminate];
           apply existsb_exists in E as (x & Hx & ->%String.eqb_eq); by apply list_elem_of_In).
    by destruct (validate_extra_allowlist (JObject (e :: l')) allowed (spell_step prefix k')).
  - apply IH; [|exact Hin]. by destruct (match v' with JObject (_ :: _) => _ | _ => _ end).
Qed.

(** An object that passes names at least one allowed path. *)
Lemma allowed_leaf : forall v allowed prefix, match v with
  | JObject (e :: l) => validate_extra_allowlist v allowed prefix = None -> exists ks, ks <> [] /\ spell prefix ks ∈ allowed
  | _ => True end.
Proof.
  fix IH 1. intros [| | | | |[|[k v] l]] allowed prefix; try exact I. intros HV.
  pose proof (validate_members _ _ _ k v HV (list_elem_of_here _ _)) as H.
  specialize (IH v allowed (spell_step prefix k)).
  destruct v as [| | | | |[|e l']]; try (exists [k]; by split).
  destruct (IH H) as (ks & _ & Hks). exists (k :: ks). by split.
Qed.

Lemma obj_get_in k l v : obj_get k l = Some v -> (k, v) ∈ l.
Proof.
  induction l as [|[k' v'] r IH]; cbn [obj_get]; [done|].
  destruct (String.eqb_spec k k') as [<-|]; [intros [= ->]; left | right; auto].
Qed.

(** Merging what passed changes no path that the allowlist does not name. *)
Lemma merge_keeps `{MergePatch} allowed qs : forall l prefix j,
  validate_extra_allowlist (JObject l) allowed prefix = None -> qs <> [] ->
  (forall ks, apart ks qs = false -> ks <> [] -> spell prefix ks ∉ allowed) ->
  walk (merge_patch j (JObject l)) qs = walk j qs.
Proof.
  induction qs as [|q r IH]; intros l prefix j HV Hne Hno; [done|]. cbn [walk]. rewrite merge_patch_member.
  destruct (obj_get q l) as [v|] eqn:Eq; [|done]. pose proof (validate_members _ _ _ _ _ HV (obj_get_in _ _ _ Eq)) as Hv.
  assert (Hq : apart [q] (q :: r) = false) by (cbn [apart]; by rewrite String.eqb_refl).
  destruct v as [| | | | |[|e l']]; try (by destruct (Hno [q] Hq)).
  destruct r as [|q' r'].
  - destruct (allowed_leaf (JObject (e :: l')) allowed (spell_step prefix q) Hv) as (ks & _ & Hks).
    destruct (Hno (q :: ks)); [cbn [apart]; rewrite String.eqb_refl; by destruct ks | done | exact Hks].
  - rewrite (IH (e :: l') (spell_step prefix q)); [|exact Hv | done |].
    + by destruct (member q j).
    + intros ks Hks Hk. apply (Hno (q :: ks)); [|done]. cbn [apart]. by rewrite String.eqb_refl.
Qed.

(** A path that no allowed one lies on the way to, at, or below. *)
Definition clear_of (allowed qs : list string) : bool :=
  forallb (fun n => negb (is_one_of (spell "" (take n qs)) allowed)) (seq 1 (length qs)) &&
  forallb (fun a => negb (String.prefix (spell "" qs) a)) allowed && forallb (fun q => negb (String.eqb q "")) qs && match qs with [] => false | _ => true end.

Lemma apart_cases ks : forall qs, apart ks qs = false -> (exists r, qs = ks ++ r)%list \/ (exists r, ks = qs ++ r)%list.
Proof.
  induction ks as [|k ks IH]; intros qs; [left; by exists qs|]. destruct qs as [|q qs]; [right; by exists (k :: ks)|]. cbn [apart].
  destruct (String.eqb_spec k q) as [->|]; [|done]. intros [[r ->]|[r ->]]%IH; [left | right]; by exists r.
Qed.

Lemma prefix_app p t : String.prefix p (p +:+ t) = true.
Proof. induction p as [|c p IH]; [by destruct t|]. cbn. by destruct (ascii_dec c c). Qed.

Lemma spell_extends r : forall p, p <> "" -> exists t, spell p r = p +:+ t.
Proof.
  induction r as [|k r IH]; intros p Hp; [exists ""; by rewrite app_empty_r|]. cbn [spell foldl]. unfold spell_step at 2.
  rewrite (proj2 (String.eqb_neq _ _) Hp). destruct (IH (p +:+ "." +:+ k)) as [t E]; [by destruct p|]. exists ("." +:+ k +:+ t).
  unfold spell in E. rewrite E. by rewrite !str_app_assoc.
Qed.

Lemma clear_apart allowed qs ks : clear_of allowed qs = true -> apart ks qs = false -> ks <> [] -> spell "" ks ∉ allowed.
Proof.
  intros [[[H1 H2]%andb_true_iff H3]%andb_true_iff H4]%andb_true_iff Ha Hk Hin. assert (qs <> []) as Hq by by destruct qs. rewrite forallb_forall in H1, H2. apply apart_cases in Ha as [[r ->]|[r ->]].
  - assert (In (length ks) (seq 1 (length (ks ++ r)%list))) as Hl by (apply in_seq; rewrite length_app; destruct ks; [done | cbn; lia]).
    specialize (H1 _ Hl). rewrite take_app_length in H1. apply negb_true_iff in H1. unfold is_one_of in H1.
    assert (existsb (String.eqb (spell "" ks)) allowed = true); [|congruence].
    apply existsb_exists. exists (spell "" ks). split; [by apply list_elem_of_In | apply String.eqb_refl].
  - unfold spell in Hin. rewrite foldl_app in Hin. fold (spell "" qs) in Hin. assert (spell "" qs <> "") as Hne.
    { destruct qs as [|q qs]; [done|]. cbn [forallb] in H3. apply andb_true_iff in H3 as [H3%negb_true_iff%String.eqb_neq _].
      change (spell "" (q :: qs)) with (spell q qs). destruct (spell_extends qs q H3) as [t ->]. by destruct q. }
    destruct (spell_extends r _ Hne) as [t E]. unfold spell at 1 in E. rewrite E in Hin. apply list_elem_of_In in Hin. specialize (H2 _ Hin).
    by rewrite prefix_app in H2.
Qed.

(** A merge that passes changes nothing on a clear path. *)
Lemma merge_clear `{MergePatch} allowed qs input l out : clear_of allowed qs = true ->
  merge_allowed_extra input l allowed = inr out -> walk out qs = walk input qs.
Proof.
  intros Hc E. unfold merge_allowed_extra in E. destruct (validate_extra_allowlist (JObject l) allowed "") eqn:EV; [discriminate|]. injection E as <-.
  assert (qs <> []) as Hq by (destruct qs; [by apply andb_true_iff in Hc as [_ ?] | done]). apply (merge_keeps allowed qs l "" input EV); [exact Hq|]. intros ks Ha Hk. by eapply clear_apart.
Qed.

(** A server-built form changes only where the table says.  When the next version
    of a form that the server builds (a payslip, a declaration, an order, a contract)
    is accepted, every value of the previous version is still there, unless its path
    lies on the way to, or below, a path the form's allowlist names; the same holds
    for every form built with the allowlist merge. *)
Theorem overrides_confined `{MergePatch} slug previous client seller out qs :
  input_is_caller_authored slug = false ->
  version_input slug (Some previous) client seller = Ok (inr out) ->
  (forall ks, apart ks qs = false -> ks <> [] -> spell "" ks ∉ editable_fields slug) -> qs <> [] ->
  walk out qs = walk previous qs.
Proof.
  unfold version_input, merge_allowed_extra. intros -> E Hno Hne.
  destruct (validate_extra_allowlist (JObject client) (editable_fields slug) "") eqn:EV; [discriminate|].
  injection E as <-. by eapply merge_keeps.
Qed.

(** ** Documents at work *)

Definition our_seller : SellerRequisites := mkSeller "ТОО Ромашка" "990340000012" "" "KZ86125KZT5004100100" "" "" "" "".

Definition invoice_request : list (string * json) :=
  [("items", JArray []); ("total_tiyn", JInt 112000); ("vat_tiyn", JInt 12000)].

Example invoice_shown :
  exists out, generate_input "invoice" invoice_request our_seller = Ok (inr out) /\
    at_path out "total" = Some (JString "1 120,00") /\ at_path out "vat_amount" = Some (JString "120,00") /\
    at_path out "seller.iik" = Some (JString "KZ86125KZT5004100100").
Proof. vm_compute. by eexists. Qed.

Example forged_string_refused :
  exists msg, generate_input "invoice" (("vat_amount", JString "999 999,00") :: invoice_request) our_seller =
    Ok (inl (mkError "input.vat_amount" "not_allowed_override" msg)).
Proof. vm_compute. by eexists. Qed.

(** An empty edit of an invoice is refused: the stored input is not the base of a primary form. *)
Example empty_edit_refused previous :
  exists msg, version_input "invoice" previous [] our_seller = Ok (inl (mkError "input.total_tiyn" "missing" msg)).
Proof. vm_compute. by eexists. Qed.

Lemma generate_input_honest_witness :
  exists out, generate_input "invoice" invoice_request our_seller = Ok (inr out) /\
    (exists total vs, amounts_agree (mkDerived "total_tiyn" "total" "total_words" [] [("vat_tiyn", "vat_amount")])
       (JObject invoice_request) total vs).
Proof.
  eexists. assert (E : generate_input "invoice" invoice_request our_seller = Ok (inr _)) by (vm_compute; reflexivity).
  split; [exact E|].
  destruct (generate_input_honest "invoice" invoice_request our_seller _ E) as (_ & ((total & vs & HA & _) & _) & _).
  by exists total, vs.
Defined.

Lemma apply_derived_amount_decides_witness :
  exists e, apply_derived_amount "tax_invoice"
    (JObject [("totals", JObject [("amount_tiyn", JInt 100); ("vat_tiyn", JInt 12); ("with_vat_tiyn", JInt 113)])]) = Ok (inl e) /\
    ~ exists total vs, amounts_agree (mkDerived "totals.with_vat_tiyn" "totals.with_vat" "total_words"
            [("totals.amount_tiyn", "totals.amount"); ("totals.vat_tiyn", "totals.vat")] [])
        (JObject [("totals", JObject [("amount_tiyn", JInt 100); ("vat_tiyn", JInt 12); ("with_vat_tiyn", JInt 113)])]) total vs.
Proof.
  eexists. split; [vm_compute; reflexivity|].
  apply (apply_derived_amount_decides "tax_invoice" _ _ eq_refl). eexists. vm_compute. reflexivity.
Defined.

Lemma overrides_confined_witness :
  exists out, version_input "fno_910" (Some (JObject [("balance", JString "1,00"); ("director", JString "А")]))
    [("director", JString "Б")] our_seller = Ok (inr out) /\ walk out ["balance"] = Some (JString "1,00").
Proof.
  eexists. assert (E : version_input "fno_910" (Some (JObject [("balance", JString "1,00"); ("director", JString "А")]))
    [("director", JString "Б")] our_seller = Ok (inr _)) by (vm_compute; reflexivity).
  split; [exact E|]. rewrite (overrides_confined "fno_910" _ _ _ _ ["balance"] eq_refl E); [done| |done].
  intros [|k ks] Hk Hne Hin; [done|]. cbn [apart] in Hk. destruct (String.eqb_spec k "balance") as [->|]; [|done].
  revert Hin. change (editable_fields "fno_910") with ["director"; "accountant"].
  assert (HP : forall ks p c s, p = String c s -> c = "b"%char -> exists s', spell p ks = String c s').
  { clear. induction ks as [|k ks IH]; intros p c s -> ->; [by exists s|]. cbn [spell foldl spell_step]. by eapply IH. }
  destruct (HP ks "balance" "b"%char _ eq_refl eq_refl) as [s' Es].
  intros Hin. change (spell "" ("balance" :: ks)) with (spell "balance" ks) in Hin. rewrite Es in Hin.
  apply elem_of_cons in Hin as [|Hin]; [done|]. apply elem_of_cons in Hin as [|Hin]; [done|]. by apply not_elem_of_nil in Hin.
Defined.

End InputPolicy.
