(* ===== verification/RateLimit.v ===== *)
(** * The request rate limiter

    src/security/RateLimit.hpp: the sliding window in Redis (the Lua script and the
    call around it, its whitelist and its fallbacks), and how a request's identity
    is read behind proxies.  The store is a map of sorted sets, each with the time it
    expires; every process has its own request counter.  A check reads the clock, draws
    its number and runs the script: three steps, between which the other threads of the
    process take theirs ([step], [run]). *)
From Stdlib Require Import ZArith Lia Ascii String.
From S2P Require Import Prelude Text Utils.
Open Scope string_scope.
Open Scope Z_scope.
Set Warnings "-clear-no-such-hyp".

Module RateLimit.

(** [Scope]: src/security/RateLimit.hpp:46-46. *)
Inductive Scope := Ip | IpOrUser.

(** [parse_scope]: src/security/RateLimit.hpp:48-53. *)
Definition parse_scope (s : string) : Scope := if String.eqb s "ip" then Ip else IpOrUser.

(** [Config]: src/security/RateLimit.hpp:55-72. *)
Record Config := mkConfig {
  enabled : bool; requests : Z; window_sec : Z; protected_requests : Z; protected_window_sec : Z; scope : Scope;
  trust_proxy : bool; trusted_proxy_count : Z; fail_open : bool; whitelist : list string;
  public_paths : list string; protected_paths : list string
}.

(** [Decision]: src/security/RateLimit.hpp:74-78. *)
Record Decision := mkDecision { allowed : bool; remaining : Z; retry_after_sec : Z }.

(** A sorted set, and when its key expires on the server's clock. *)
Abbreviation ZSet := (gmap string Z).
Abbreviation Store := (gmap string (ZSet * Z)).

Definition live (s : Store) (key : string) (redis_ms : Z) : ZSet :=
  match s !! key with Some (z, deadline) => if deadline <=? redis_ms then ∅ else z | None => ∅ end.

(** The lowest score of a sorted set. *)
Definition oldest (z : ZSet) (now : Z) : Z :=
  match map_to_list z with [] => now | (_, v) :: r => foldr Z.min v (map snd r) end.

(** [kSlidingWindowLua]: src/security/RateLimit.hpp:90-116.  The reply is [(allowed, count, retry_after_ms)]. *)
Definition kSlidingWindowLua (key : string) (now window limit : Z) (member : string) (redis_ms : Z) (s : Store)
    : (Z * Z * Z) * Store :=
  let z := filter (fun e => ~ (0 <= e.2 <= now - window)) (live s key redis_ms) in
  let count := Z.of_nat (map_size z) in
  if limit <=? count then
    let retry_after_ms := oldest z now + window - now in
    ((0, count, if retry_after_ms <? 1 then 1 else retry_after_ms),
     match s !! key with Some (_, deadline) => <[key := (z, deadline)]> s | None => s end)
  else ((1, count + 1, 0), <[key := (<[member := now]> z, redis_ms + (window + 1000))]> s).

(** What may go wrong with one call. *)
Inductive Fault := NoFault | Unreachable (why : string) | ReplyLost (why : string).

(** The circumstances of one check: the process, both clocks, the cache. *)
Record Env := mkEnv { pid : nat; now_ms : Z; redis_ms : Z; cache_up : bool; fault : Fault }.

Record World := mkWorld { store : Store; counters : gmap nat Z }.

Definition counter_of (w : World) (p : nat) : Z := default 0 (counters w !! p).

(** [check_window]: src/security/RateLimit.hpp:159-163.  Process, then request: unique within a process. *)
Definition member_of (now counter : Z) : string := to_string now +:+ ":" +:+ to_string counter.

(** [fallback_]: src/security/RateLimit.hpp:186-193. *)
Definition fallback_ (cfg : Config) (reqs : Z) : Decision :=
  if fail_open cfg then mkDecision true reqs 0 else mkDecision false 0 1.

(** [check_window]: src/security/RateLimit.hpp:142-151. *)
Definition whitelisted (cfg : Config) (identity : string) : bool :=
  existsb (String.eqb identity) (whitelist cfg)
  || match str_find ":" identity with
     | Some colon => existsb (String.eqb (str_drop (S colon) identity)) (whitelist cfg)
     | None => false
     end.

(** [check_window]: src/security/RateLimit.hpp:140-154.  The answers that need no Redis. *)
Definition unasked (cfg : Config) (identity : string) (reqs : Z) (env : Env) : option Decision :=
  if negb (enabled cfg) then Some (mkDecision true reqs 0)
  else if whitelisted cfg identity then Some (mkDecision true reqs 0)
  else if negb (cache_up env) then Some (fallback_ cfg reqs)
  else None.

(** [check_window]: src/security/RateLimit.hpp:161-163.  [counter.fetch_add(1)]. *)
Definition next_number (p : nat) (w : World) : Z * World :=
  let c := counter_of w p in (c, mkWorld (store w) (<[p := (c + 1) mod 2 ^ 64]> (counters w))).

(** [check_window]: src/security/RateLimit.hpp:165-183.  The EVAL, for a reading of the clock and a number taken before. *)
Definition eval_window (cfg : Config) (identity : string) (reqs wsec : Z) (key_prefix : string) (now number : Z)
    (env : Env) (w : World) : Decision * World :=
  match fault env with
  | Unreachable _ => (fallback_ cfg reqs, w)
  | f =>
      let '(reply, s') := kSlidingWindowLua (key_prefix +:+ identity) now (wsec * 1000) reqs
                            (member_of now number) (redis_ms env) (store w) in
      let w2 := mkWorld s' (counters w) in
      match f with
      | ReplyLost _ => (fallback_ cfg reqs, w2)
      | _ =>
          let '(flag, count_after, retry_ms) := reply in
          let ok := flag =? 1 in
          (mkDecision ok (Z.max 0 (reqs - count_after))
             (if ok then 0 else Z.max 1 (Z.quot (retry_ms + 999) 1000)), w2)
      end
  end.

(** [check_window]: src/security/RateLimit.hpp:139-184.  With nobody else in between. *)
Definition check_window (cfg : Config) (identity : string) (reqs wsec : Z) (key_prefix : string) (env : Env)
    (w : World) : Decision * World :=
  match unasked cfg identity reqs env with
  | Some d => (d, w)
  | None =>
      let '(number, w1) := next_number (pid env) w in
      eval_window cfg identity reqs wsec key_prefix (now_ms env) number env w1
  end.

(** [check]: src/security/RateLimit.hpp:125-127. *)
Definition check_general (cfg : Config) (identity : string) : Env -> World -> Decision * World :=
  check_window cfg identity (requests cfg) (window_sec cfg) "rl:sw:".

(** [check_protected]: src/security/RateLimit.hpp:134-136. *)
Definition check_protected (cfg : Config) (identity : string) : Env -> World -> Decision * World :=
  check_window cfg identity (protected_requests cfg) (protected_window_sec cfg) "rl:auth:".

(** ** Who is asking *)

(** The parts of a request the limiter reads; the user of the authenticated principal. *)
Record Request := mkRequest {
  path : string; is_options : bool; x_real_ip : string; x_forwarded_for : string; peer : string; subject : option string
}.

(** [client_ip]: src/security/RateLimit.hpp:284-301.  The addresses of an X-Forwarded-For header, blanks dropped. *)
Definition hops_of (xff : string) : list string :=
  List.filter (fun hop => negb (String.eqb hop "")) (map Strings.trim (pieces "," xff)).

(** [client_ip]: src/security/RateLimit.hpp:270-311. *)
Definition client_ip (req : Request) (trust : bool) (count : Z) : string :=
  if negb trust then peer req
  else if negb (String.eqb (x_real_ip req) "") then x_real_ip req
  else if String.eqb (x_forwarded_for req) "" then peer req
  else
    let hops := hops_of (x_forwarded_for req) in
    match hops with
    | [] => peer req
    | _ =>
        let idx := Z.of_nat (length hops) - count in
        nth (Z.to_nat (if idx <? 0 then 0 else idx)) hops ""
    end.

(** [identity_for]: src/security/RateLimit.hpp:332-340. *)
Definition identity_for (req : Request) (cfg : Config) : string :=
  let ip := client_ip req (trust_proxy cfg) (trusted_proxy_count cfg) in
  let user := match subject req with Some u => u | None => "" end in
  match scope cfg with
  | Ip => "ip:" +:+ ip
  | IpOrUser => if String.eqb user "" then "ip:" +:+ ip else "user:" +:+ user
  end.

(** [ip_identity]: src/security/RateLimit.hpp:346-348. *)
Definition ip_identity (req : Request) (cfg : Config) : string :=
  "ip:" +:+ client_ip req (trust_proxy cfg) (trusted_proxy_count cfg).

(** [register_rate_limit]: src/api/Middleware.hpp:180-217.  [None]: the request was not counted at all. *)
Definition advice (cfg : Config) (req : Request) (env : Env) (w : World) : option Decision * World :=
  if is_options req then (None, w)
  else
    let is_protected := Strings.path_is_public (protected_paths cfg) (path req) in
    if negb is_protected && Strings.path_is_public (public_paths cfg) (path req) then (None, w)
    else
      let '(d, w') := if is_protected then check_protected cfg (ip_identity req cfg) env w
                      else check_general cfg (identity_for req cfg) env w in
      (Some d, w').

(** ** The window *)

Section Window.
Context (K : string) (L W δ D : Z).

(** Grants of the key in the half-open window that ends at [U]: as long as the limiter's,
    less what its scripts come late. *)
Definition in_window (U : Z) (G : list (string * Z)) : list (string * Z) :=
  filter (fun e => U - (W - D) < e.2 <= U) G.

(** The store follows the grants [G] (member and time), of readings up to [T] and of scripts up
    to [R] on the server's clock: every grant that is younger than the window is in the set, the
    key outlives its members, and no window holds more than [L] grants. *)
Record tracks (s : Store) (G : list (string * Z)) (T R : Z) : Prop := {
  t_distinct : NoDup G.*1;
  t_recent : forall m t, (m, t) ∈ G -> t <= T /\ ((exists z d, s !! K = Some (z, d) /\ z !! m = Some t) \/ t <= T - W);
  t_lives : forall z d m t, s !! K = Some (z, d) -> z !! m = Some t -> t <= T /\ t <= R + δ + 1000 /\ t + W <= d + δ;
  t_cap : forall U, Z.of_nat (length (in_window U G)) <= Z.max 0 L
}.

Lemma tracks_frame s s' G T T' R R' : tracks s G T R -> T <= T' -> R <= R' -> s' !! K = s !! K -> tracks s' G T' R'.
Proof.
  intros [H1 H2 H3 H4] HT HR HK. split; [done | | | done].
  - intros m t Hm. destruct (H2 m t Hm) as [Ht [(z & d & E & Hz)|Ho]]; (split; [lia|]); [left | right; lia].
    exists z, d. by rewrite HK.
  - intros z d m t Hz Hm. rewrite HK in Hz. destruct (H3 z d m t Hz Hm). lia.
Qed.

Lemma tracks_init T R : tracks ∅ [] T R.
Proof.
  split; [constructor | by intros m t ?%not_elem_of_nil | by intros z d m t ?%lookup_empty_Some |].
  intros U. cbn. lia.
Qed.

(** The members a check counts. *)
Definition fresh_set (s : Store) (now rt : Z) : ZSet := filter (fun e => ~ (0 <= e.2 <= now - W)) (live s K rt).

Lemma recent_kept s G T R now rt m t :
  tracks s G T R -> now - rt >= δ -> (m, t) ∈ G -> now - W < t -> T - W < t -> fresh_set s now rt !! m = Some t.
Proof.
  intros HT Hsk Hm Ht HTn. destruct (t_recent _ _ _ _ HT m t Hm) as [_ [(z & d & E & Hz)|]]; [|lia].
  destruct (t_lives _ _ _ _ HT z d m t E Hz) as (_ & _ & Hd).
  unfold fresh_set, live. rewrite E. destruct (Z.leb_spec d rt); [lia|].
  apply map_lookup_filter_Some. cbn [snd]. split; [done | lia].
Qed.

(** The grants in a window that ends now, or a little later, are among the members counted. *)
Lemma window_counted s G T R now rt :
  tracks s G T R -> now - rt >= δ -> 0 <= D -> T - D <= now ->
  (length (filter (fun e => (now - (W - D) < e.2)%Z) G) <= map_size (fresh_set s now rt))%nat.
Proof.
  intros HT Hsk HD HTn. set (F := filter (fun e => now - (W - D) < e.2) G).
  assert (HN : NoDup F.*1).
  { eapply sublist_NoDup; [apply HT | apply fmap_sublist, sublist_filter]. }
  rewrite <- (length_fmap fst F), <- (size_list_to_set (C := gset string) F.*1 HN).
  etrans; [|apply Nat.eq_le_incl, (size_dom (D := gset string))]. apply subseteq_size.
  intros m Hm. rewrite elem_of_list_to_set in Hm. apply list_elem_of_fmap in Hm as ([m' t] & -> & Hm).
  apply list_elem_of_filter in Hm as [Ht Hm]. cbn [snd fst] in *. apply elem_of_dom.
  exists t. eapply recent_kept; [done | lia | done | lia | lia].
Qed.

Lemma window_app U G m t :
  in_window U (G ++ [(m, t)]) = (in_window U G ++ if decide (U - (W - D) < t <= U) then [(m, t)] else [])%list.
Proof. unfold in_window. rewrite filter_app. done. Qed.

Lemma window_later U now G : now <= U -> sublist (in_window U G) (filter (fun e => (now - (W - D) < e.2)%Z) G).
Proof.
  intros HU. unfold in_window. induction G as [|e G IH]; [done|]. rewrite !filter_cons.
  destruct (decide (U - (W - D) < e.2 <= U)), (decide (now - (W - D) < e.2)); [by apply sublist_skip | lia | by apply sublist_cons | done].
Qed.

(** One run of the script: a grant is recorded, a refusal changes nothing that matters. *)
Lemma script_tracks s G T R now rt m reply s' :
  tracks s G T R -> 0 <= D -> T - D <= now -> R <= rt -> 0 <= now -> δ <= now - rt <= δ + 1000 -> m ∉ G.*1 ->
  kSlidingWindowLua K now W L m rt s = (reply, s') ->
  tracks s' (if reply.1.1 =? 1 then (G ++ [(m, now)])%list else G) (Z.max T now) rt.
Proof.
  intros HT HD HTn HR Hn Hsk Hm. unfold kSlidingWindowLua. fold (fresh_set s now rt). cbv zeta.
  pose proof (window_counted s G T R now rt HT ltac:(lia) HD HTn) as Hcount.
  assert (Hlives : forall m' t, fresh_set s now rt !! m' = Some t ->
    t <= Z.max T now /\ t <= rt + δ + 1000 /\ exists z d, s !! K = Some (z, d) /\ z !! m' = Some t).
  { intros m' t [H _]%map_lookup_filter_Some. unfold live in H. destruct (s !! K) as [[z d]|] eqn:E; [|done].
    destruct (d <=? rt); [done|]. destruct (t_lives _ _ _ _ HT z d m' t E H) as (? & ? & ?). split_and!; [lia | lia|]. by exists z, d. }
  destruct (Z.leb_spec L (Z.of_nat (map_size (fresh_set s now rt)))) as [HL|HL]; intros [= <- <-]; cbn [fst snd Z.eqb Pos.eqb].
  - split; [apply HT | | | apply HT].
    + intros m' t Hin. destruct (t_recent _ _ _ _ HT m' t Hin) as [Ht Ho]. split; [lia|].
      destruct (decide (t <= Z.max T now - W)); [by right | left].
      pose proof (recent_kept _ _ _ _ now rt m' t HT ltac:(lia) Hin ltac:(lia) ltac:(lia)) as Hz.
      destruct (Hlives m' t Hz) as (_ & _ & z & d & E & _). rewrite E. exists (fresh_set s now rt), d.
      split; [apply lookup_insert_eq | done].
    + intros z d m' t Hz Hm'. destruct (s !! K) as [[z0 d0]|] eqn:E; [|congruence].
      rewrite lookup_insert_eq in Hz. injection Hz as <- <-. destruct (Hlives m' t Hm') as (Ht & Ht' & z & d & E' & Hz).
      injection E' as <- <-. destruct (t_lives _ _ _ _ HT z0 d0 m' t E Hz) as (_ & _ & ?). by split_and!.
  - split.
    + rewrite fmap_app. apply NoDup_app. split; [apply HT|]. split; [|apply NoDup_singleton].
      intros x Hx ->%list_elem_of_singleton. by apply Hm.
    + intros m' t [Hin | [= -> ->]%list_elem_of_singleton]%elem_of_app.
      * destruct (t_recent _ _ _ _ HT m' t Hin) as [Ht _]. split; [lia|].
        destruct (decide (t <= Z.max T now - W)); [by right | left]. eexists _, _. rewrite lookup_insert_eq. split; [reflexivity|].
        rewrite lookup_insert_ne; [exact (recent_kept _ _ _ _ now rt m' t HT ltac:(lia) Hin ltac:(lia) ltac:(lia))|].
        intros <-. apply Hm. apply list_elem_of_fmap. by exists (m, t).
      * split; [lia|]. left. eexists _, _. rewrite lookup_insert_eq. split; [reflexivity|]. by rewrite lookup_insert_eq.
    + intros z d m' t Hz Hm'. rewrite lookup_insert_eq in Hz. injection Hz as <- <-.
      apply lookup_insert_Some in Hm' as [[_ <-] | [_ Hm']]; [lia|]. destruct (Hlives m' t Hm') as (? & ? & _). lia.
    + intros U. rewrite window_app, length_app. destruct (decide (U - (W - D) < now <= U)) as [HU|HU]; cbn [length].
      * pose proof (sublist_length _ _ (window_later U now G (proj2 HU))). lia.
      * pose proof (t_cap _ _ _ _ HT U). lia.
Qed.

End Window.
(** ** A process at work *)

(** One check, by either tier. *)
Record Call := mkCall { c_protected : bool; c_identity : string; c_env : Env }.

Definition tier_limit (cfg : Config) (tier : bool) : Z := if tier then protected_requests cfg else requests cfg.
Definition tier_sec (cfg : Config) (tier : bool) : Z := if tier then protected_window_sec cfg else window_sec cfg.
Definition tier_window (cfg : Config) (tier : bool) : Z := tier_sec cfg tier * 1000.
Definition tier_prefix (tier : bool) : string := if tier then "rl:auth:" else "rl:sw:".
Definition tier_key (tier : bool) (identity : string) : string := tier_prefix tier +:+ identity.

Definition check_call (cfg : Config) (c : Call) : World -> Decision * World :=
  (if c_protected c then check_protected else check_general) cfg (c_identity c) (c_env c).

Lemma check_call_window cfg c w :
  check_call cfg c w = check_window cfg (c_identity c) (tier_limit cfg (c_protected c)) (tier_sec cfg (c_protected c))
    (tier_prefix (c_protected c)) (c_env c) w.
Proof. unfold check_call. by destruct (c_protected c). Qed.

(** Checks one after the other, none begun before the last one's answer. *)
Fixpoint serve (cfg : Config) (w : World) (calls : list Call) : list (Call * Decision) * World :=
  match calls with
  | [] => ([], w)
  | c :: rest => let '(d, w1) := check_call cfg c w in let '(log, w2) := serve cfg w1 rest in ((c, d) :: log, w2)
  end.

(** [check_window]: src/security/RateLimit.hpp:139-184.  How far a thread is with its check: it has
    read the clock, then it has its number, then the script has answered. *)
Inductive Phase := Came | Clocked (now : Z) | Numbered (now number : Z) | Answered (d : Decision).

(** [check_window]: src/security/RateLimit.hpp:139-184.  The next step of a thread. *)
Definition step (cfg : Config) (c : Call) (ph : Phase) (w : World) : Phase * World :=
  match ph with
  | Came =>
      match unasked cfg (c_identity c) (tier_limit cfg (c_protected c)) (c_env c) with
      | Some d => (Answered d, w)
      | None => (Clocked (now_ms (c_env c)), w)
      end
  | Clocked now => let '(n, w1) := next_number (pid (c_env c)) w in (Numbered now n, w1)
  | Numbered now n =>
      let '(d, w1) := eval_window cfg (c_identity c) (tier_limit cfg (c_protected c)) (tier_sec cfg (c_protected c))
                        (tier_prefix (c_protected c)) now n (c_env c) w in (Answered d, w1)
  | Answered d => (Answered d, w)
  end.

(** Threads taking their steps in the order of [order]; the log has the answers as they came. *)
Fixpoint run (cfg : Config) (order : list nat) (w : World) (ths : list (Call * Phase))
    : list (Call * Decision) * (World * list (Call * Phase)) :=
  match order with
  | [] => ([], (w, ths))
  | i :: rest =>
      match ths !! i with
      | None | Some (_, Answered _) => run cfg rest w ths
      | Some (c, ph) =>
          let '(ph', w1) := step cfg c ph w in
          let '(log, end_) := run cfg rest w1 (<[i := (c, ph')]> ths) in
          ((match ph' with Answered d => [(c, d)] | _ => [] end ++ log)%list, end_)
      end
  end.

Definition came (calls : list Call) : list (Call * Phase) := map (fun c => (c, Came)) calls.

(** Three steps with nobody in between are the check. *)
Lemma step_three cfg c w d w' :
  check_call cfg c w = (d, w') ->
  let next pw := step cfg c pw.1 pw.2 in next (next (next (Came, w))) = (Answered d, w').
Proof.
  rewrite check_call_window. unfold check_window. cbn [step fst snd].
  destruct (unasked _ _ _ _); [by intros [= -> ->]|]. cbn [step fst snd next_number]. by intros ->.
Qed.

(** The script is asked. *)
Definition asks (cfg : Config) (c : Call) : bool := enabled cfg && negb (whitelisted cfg (c_identity c)) && cache_up (c_env c).

(** The request went through because the script said so. *)
Definition counted (cfg : Config) (c : Call) (d : Decision) : bool :=
  allowed d && asks cfg c && match fault (c_env c) with NoFault => true | _ => false end.

Definition same_bucket (tier : bool) (identity : string) (c : Call) : bool :=
  Bool.eqb (c_protected c) tier && String.eqb (c_identity c) identity.

(** The times at which one identity was let through by one tier. *)
Definition grants (cfg : Config) (tier : bool) (identity : string) (log : list (Call * Decision)) : list Z :=
  map (fun e => now_ms (c_env e.1)) (List.filter (fun e => same_bucket tier identity e.1 && counted cfg e.1 e.2) log).

(** The scripts of a log: their readings of the clock are up to [D] older than the newest one
    before; the server's clock goes on, and is [δ] apart from theirs, up to a second. *)
Fixpoint timely (cfg : Config) (δ D T R : Z) (log : list (Call * Decision)) : Prop :=
  match log with
  | [] => True
  | (c, _) :: rest =>
      if asks cfg c then
        T - D <= now_ms (c_env c) /\ 0 <= now_ms (c_env c) <= I64_MAX /\ R <= redis_ms (c_env c) /\
        δ <= now_ms (c_env c) - redis_ms (c_env c) <= δ + 1000 /\
        timely cfg δ D (Z.max T (now_ms (c_env c))) (redis_ms (c_env c)) rest
      else timely cfg δ D T R rest
  end.

Lemma member_inj n c n' c' :
  0 <= n <= I64_MAX -> 0 <= n' <= I64_MAX -> 0 <= c < 2 ^ 64 -> 0 <= c' < 2 ^ 64 ->
  member_of n c = member_of n' c' -> c = c'.
Proof.
  unfold I64_MAX, member_of. intros Hn Hn' Hc Hc' E. rewrite !to_string_nonneg in E by lia.
  assert (Hf : forall x t, str_find ":" (dec x +:+ String ":" t) = Some (size (dec x)))
    by (intros x t; apply (str_find_app is_digit); [apply dec_all | done]).
  change (":" +:+ ?t) with (String ":" t) in E.
  pose proof (f_equal (str_find ":") E) as E1. rewrite !Hf in E1. injection E1 as E1.
  pose proof (f_equal (str_drop (size (dec n))) E) as E2. rewrite str_drop_app, E1, str_drop_app in E2.
  injection E2 as E2. apply dec_inj in E2; lia.
Qed.

Lemma tier_key_inj tier tier' id id' : tier_key tier id = tier_key tier' id' -> tier = tier' /\ id = id'.
Proof.
  unfold tier_key. destruct tier, tier'; cbn [String.append]; intros [=]; by subst.
Qed.

(** The script leaves the other keys alone. *)
Lemma script_frame key now window limit m rt s reply s' K :
  kSlidingWindowLua key now window limit m rt s = (reply, s') -> K <> key -> s' !! K = s !! K.
Proof.
  unfold kSlidingWindowLua. cbv zeta. destruct (limit <=? _); intros [= <- <-] HK.
  - destruct (s !! key) as [[z d]|]; [by rewrite lookup_insert_ne by congruence | done].
  - by rewrite lookup_insert_ne by congruence.
Qed.

Section Run.
Context (cfg : Config) (p : nat) (δ D : Z) (tier : bool) (identity : string).
Let K := tier_key tier identity.
Let L := tier_limit cfg tier.
Let W := tier_window cfg tier.

(** Every number was drawn by this process: those in the set, and those still on their way, each once. *)
Record drawn (w : World) (ths : list (Call * Phase)) (G : list (string * Z)) : Prop := {
  d_used : forall m, m ∈ G.*1 -> exists n c, 0 <= n <= I64_MAX /\ 0 <= c < counter_of w p /\ m = member_of n c /\
             (forall i x now, ths !! i = Some (x, Numbered now c) -> False);
  d_pending : forall i x now c, ths !! i = Some (x, Numbered now c) -> 0 <= c < counter_of w p;
  d_once : forall i j x y now now' c, ths !! i = Some (x, Numbered now c) -> ths !! j = Some (y, Numbered now' c) -> i = j;
  d_asks : forall i x ph, ths !! i = Some (x, ph) -> pid (c_env x) = p /\
             match ph with Came => True | Answered _ => True
             | Clocked now | Numbered now _ => now = now_ms (c_env x) /\ asks cfg x = true end
}.

Definition follows (w : World) (ths : list (Call * Phase)) (G : list (string * Z)) (T R : Z) : Prop :=
  tracks K L W δ D (store w) G T R /\ drawn w ths G.

Lemma next_counter w :
  0 <= counter_of w p -> counter_of w p + 1 < 2 ^ 64 ->
  next_number p w = (counter_of w p, (next_number p w).2) /\ store (next_number p w).2 = store w /\
  counter_of (next_number p w).2 p = counter_of w p + 1.
Proof.
  intros. split_and!; [done..|]. unfold next_number, counter_of at 1. cbn [counters snd]. rewrite lookup_insert_eq.
  cbn [default from_option]. apply Z.mod_small. lia.
Qed.

(** A thread that is not numbered moves on without a number. *)
Lemma drawn_moves w ths G i c ph ph' :
  drawn w ths G -> ths !! i = Some (c, ph) ->
  match ph' with Numbered _ _ => False | Clocked now => now = now_ms (c_env c) /\ asks cfg c = true | _ => True end ->
  drawn w (<[i := (c, ph')]> ths) G.
Proof.
  intros [H1 H2 H3 H4] Hi Hp.
  assert (HN : forall j x now n, <[i := (c, ph')]> ths !! j = Some (x, Numbered now n) -> ths !! j = Some (x, Numbered now n)).
  { intros j x now n [(-> & [= -> ->] & _) | [_ ?]]%list_lookup_insert_Some; [destruct Hp | done]. }
  split.
  - intros m Hm. destruct (H1 m Hm) as (n & k & ? & ? & ? & Hx). exists n, k. do 3 (split; [done|]). intros; by eapply Hx, HN.
  - intros; by eapply H2, HN.
  - intros j j' x y now now' k Hx%HN Hy%HN. by eapply H3.
  - intros j x ph0 [(<- & [= <- <-] & _) | [_ ?]]%list_lookup_insert_Some; [|by eapply H4].
    destruct (H4 i c ph Hi) as [? _]. split; [done|]. by destruct ph'.
Qed.

Lemma drawn_numbered w ths G i c now :
  0 <= counter_of w p -> counter_of w p + 1 < 2 ^ 64 -> drawn w ths G -> ths !! i = Some (c, Clocked now) ->
  drawn (next_number p w).2 (<[i := (c, Numbered now (counter_of w p))]> ths) G.
Proof.
  intros Hc0 Hc1 [H1 H2 H3 H4] Hi. destruct (next_counter w Hc0 Hc1) as (_ & _ & Hn). split.
  - intros m Hm. destruct (H1 m Hm) as (n & k & ? & ? & ? & Hx). exists n, k. rewrite Hn. do 3 (split; [done || lia|]).
    intros j x now' [(_ & [= _ _ ?] & _) | [_ ?]]%list_lookup_insert_Some; [lia | by eapply Hx].
  - intros j x now' k. rewrite Hn. intros [(_ & [= _ _ <-] & _) | [_ Hj]]%list_lookup_insert_Some; [lia|].
    pose proof (H2 _ _ _ _ Hj). lia.
  - intros j j' x y now1 now2 k [(<- & [= _ _ E] & _) | [_ Hj]]%list_lookup_insert_Some
      [(<- & [= _ _ E'] & _) | [_ Hj']]%list_lookup_insert_Some; [done | | | by eapply H3].
    + pose proof (H2 _ _ _ _ Hj'). lia.
    + pose proof (H2 _ _ _ _ Hj). lia.
  - intros j x ph0 [(<- & [= <- <-] & _) | [_ ?]]%list_lookup_insert_Some; [by destruct (H4 i c _ Hi) | by eapply H4].
Qed.

(** The script run for some thread, seen from one bucket. *)
Lemma script_follows ths i c w G T R n d w' :
  T - D <= now_ms (c_env c) -> 0 <= D -> 0 <= now_ms (c_env c) <= I64_MAX -> R <= redis_ms (c_env c) ->
  δ <= now_ms (c_env c) - redis_ms (c_env c) <= δ + 1000 -> counter_of w p < 2 ^ 64 ->
  follows w ths G T R -> ths !! i = Some (c, Numbered (now_ms (c_env c)) n) ->
  eval_window cfg (c_identity c) (tier_limit cfg (c_protected c)) (tier_sec cfg (c_protected c))
    (tier_prefix (c_protected c)) (now_ms (c_env c)) n (c_env c) w = (d, w') ->
  counter_of w' p = counter_of w p /\
  exists more, follows w' (<[i := (c, Answered d)]> ths) (G ++ more) (Z.max T (now_ms (c_env c))) (redis_ms (c_env c)) /\
    (same_bucket tier identity c && counted cfg c d = true -> more.*2 = [now_ms (c_env c)]).
Proof.
  intros HT HD Hn HR Hsk Hc1 [Ht Hd] Hi. pose proof (drawn_moves w ths G i c _ (Answered d) Hd Hi I) as Hd'.
  unfold eval_window, counted. destruct (fault (c_env c)) eqn:Ef.
  2: { intros [= <- <-]. split; [done|]. exists []. rewrite app_nil_r. split; [|by rewrite !andb_false_r].
       split; [|done]. eapply tracks_frame; [exact Ht | lia | done | done]. }
  all: fold (tier_key (c_protected c) (c_identity c)); fold (tier_window cfg (c_protected c));
    destruct (kSlidingWindowLua _ _ _ _ _ _ _) as [reply s'] eqn:ES; intros E.
  all: assert (w' = mkWorld s' (counters w) /\ (fault (c_env c) = NoFault -> allowed d = (reply.1.1 =? 1))) as [-> Hal]
    by (rewrite Ef; destruct reply as [[flag cnt] retry]; injection E as <- <-; by split).
  all: split; [done|]; destruct (decide (tier_key (c_protected c) (c_identity c) = K)) as [HK|HK].
  all: try (exists []; rewrite app_nil_r; split;
    [ split; [|by destruct Hd' as [? ? ? ?]]; (eapply tracks_frame; [exact Ht | lia | done|]); (eapply script_frame; [exact ES | congruence])
    | unfold same_bucket; intros [[E1%Bool.eqb_prop E2%String.eqb_eq]%andb_true_iff _]%andb_true_iff; destruct HK; unfold K; by rewrite E1, E2 ]).
  all: destruct (tier_key_inj _ _ _ _ HK) as [E1 E2]; rewrite E1, E2 in ES; pose proof (d_pending _ _ _ Hd _ _ _ _ Hi) as Hnb;
    (assert (Hm : member_of (now_ms (c_env c)) n ∉ G.*1);
     [ intros Hm; destruct (d_used _ _ _ Hd _ Hm) as (n0 & k & Hn0 & Hk & E' & Hx);
       apply member_inj in E' as <-; [by eapply Hx | lia..] |]);
    pose proof (script_tracks K L W δ D _ G T R _ _ _ _ _ Ht HD HT HR (proj1 Hn) Hsk Hm ES) as HT';
    destruct (Z.eqb_spec reply.1.1 1) as [Hr|Hr].
  all: try (exists []; rewrite app_nil_r; split; [by split; [exact HT' | destruct Hd' as [? ? ? ?]] |
    intros [_ [[Ha _]%andb_true_iff Hf]%andb_true_iff]%andb_true_iff; first [discriminate Hf | rewrite Hal in Ha by done; discriminate Ha] ]).
  all: exists [(member_of (now_ms (c_env c)) n, now_ms (c_env c))]; split; [split; [exact HT'|] | done];
    destruct Hd' as [H1 H2 H3 H4]; split; [|done..]; intros m; rewrite fmap_app;
    intros [Hin | ->%list_elem_of_singleton]%elem_of_app; [by apply H1|]; exists (now_ms (c_env c)), n;
    do 3 (split; [done || lia|]); intros j x now' [(_ & [=] & _) | [Hij Hj]]%list_lookup_insert_Some;
    by eapply Hij, (d_once _ _ _ Hd).
Qed.

Lemma unasked_spec c d :
  unasked cfg (c_identity c) (tier_limit cfg (c_protected c)) (c_env c) = Some d -> asks cfg c = false.
Proof. unfold unasked, asks. destruct (enabled cfg), (whitelisted cfg (c_identity c)), (cache_up (c_env c)); done. Qed.

Lemma unasked_none c :
  unasked cfg (c_identity c) (tier_limit cfg (c_protected c)) (c_env c) = None -> asks cfg c = true.
Proof. unfold unasked, asks. destruct (enabled cfg), (whitelisted cfg (c_identity c)), (cache_up (c_env c)); done. Qed.

Lemma grants_cons c d log :
  grants cfg tier identity ((c, d) :: log) =
  ((if same_bucket tier identity c && counted cfg c d then [now_ms (c_env c)] else []) ++ grants cfg tier identity log)%list.
Proof. unfold grants. cbn [List.filter fst snd]. by destruct (same_bucket tier identity c && counted cfg c d). Qed.

Lemma run_follows order : forall w ths G T R past,
  0 <= D -> timely cfg δ D T R (run cfg order w ths).1 -> 0 <= counter_of w p ->
  counter_of w p + Z.of_nat (length order) < 2 ^ 64 -> follows w ths G T R -> sublist past G.*2 ->
  exists G' T' R', tracks K L W δ D (store (run cfg order w ths).2.1) G' T' R' /\
    sublist (past ++ grants cfg tier identity (run cfg order w ths).1)%list G'.*2.
Proof.
  induction order as [|i rest IH]; intros w ths G T R past HD Ho Hc0 Hc1 HF HS; cbn [run] in *.
  { exists G, T, R. rewrite app_nil_r. split; [apply HF | done]. }
  cbn [length] in Hc1. destruct (ths !! i) as [[c ph]|] eqn:Hi; [|eapply IH; eauto; lia].
  destruct HF as [Ht Hd]. destruct (d_asks _ _ _ Hd _ _ _ Hi) as [Hp Hph].
  assert (G0 : forall ph' w1, store w1 = store w -> counter_of w p <= counter_of w1 p <= counter_of w p + 1 ->
    drawn w1 (<[i := (c, ph')]> ths) G -> follows w1 (<[i := (c, ph')]> ths) G T R).
  { intros ph' w1 Es _ Hd'. split; [by rewrite Es | done]. }
  destruct ph as [|now|now n|d]; cbn [step] in *.
  - destruct (unasked cfg _ _ _) as [d|] eqn:EU.
    + pose proof (unasked_spec c d EU) as Ha. specialize (IH w (<[i := (c, Answered d)]> ths) G T R past HD).
      destruct (run cfg rest w _) as [log end_]. cbn [fst snd app timely] in *. rewrite Ha in Ho.
      rewrite grants_cons. unfold counted. rewrite Ha, andb_false_r, andb_false_r. cbn [app]. apply IH; [done | done | lia | | done].
      apply G0; [done | lia|]. by eapply drawn_moves.
    + pose proof (unasked_none c EU) as Ha. specialize (IH w (<[i := (c, Clocked (now_ms (c_env c)))]> ths) G T R past HD).
      destruct (run cfg rest w _) as [log end_]. apply IH; [done | done | lia | | done]. apply G0; [done | lia|]. by eapply drawn_moves.
  - destruct Hph as [-> Ha]. rewrite Hp in *. destruct (next_counter w Hc0 ltac:(lia)) as (E & Es & En).
    pose proof (drawn_numbered w ths G i c _ Hc0 ltac:(lia) Hd Hi) as Hd'.
    rewrite E in Ho |- *. clear E. set (w1 := (next_number p w).2) in *. clearbody w1.
    specialize (IH w1 (<[i := (c, Numbered (now_ms (c_env c)) (counter_of w p))]> ths) G T R past HD).
    destruct (run cfg rest w1 _) as [log end_]. apply IH; [done | lia | lia | | done]. apply G0; [done | lia | done].
  - destruct Hph as [-> Ha]. destruct (eval_window _ _ _ _ _ _ _ _ _) as [d w1] eqn:EV.
    specialize (IH w1 (<[i := (c, Answered d)]> ths)). destruct (run cfg rest w1 _) as [log end_]. cbn [fst snd app timely] in *.
    rewrite Ha in Ho. destruct Ho as (HT & Hn & HR & Hsk & Ho).
    destruct (script_follows ths i c w G T R n d w1 HT HD Hn HR Hsk ltac:(lia) (conj Ht Hd) Hi EV) as (Ec & more & HF & Hmore).
    rewrite grants_cons, app_assoc. eapply IH; [done | exact Ho | lia | lia | exact HF|].
    rewrite fmap_app. apply sublist_app; [exact HS|].
    destruct (same_bucket tier identity c && counted cfg c d); [by rewrite Hmore | apply sublist_nil_l].
  - eapply IH; eauto; [lia | by split].
Qed.
End Run.

Lemma window_sublist ts U W D (G : list (string * Z)) :
  sublist ts G.*2 -> (length (filter (fun t => (U - (W - D) < t <= U)%Z) ts) <= length (in_window W D U G))%nat.
Proof.
  intros HS. assert (E : forall G : list (string * Z), filter (fun t => (U - (W - D) < t <= U)%Z) G.*2 = (in_window W D U G).*2).
  { clear. intros G. induction G as [|e G IH]; [done|]. unfold in_window in *. cbn [fmap list_fmap]. rewrite !filter_cons.
    repeat case_decide; cbn [fmap list_fmap]; (congruence || by f_equal). }
  rewrite <- (length_fmap snd), <- E. clear E. induction HS as [|t l1 l2 _ IH|t l1 l2 _ IH]; [done | |];
    rewrite !filter_cons; case_decide; cbn [length]; lia.
Qed.

Definition idle : World := mkWorld ∅ ∅.

(** Failing closed, nothing passes that the script has not counted, but for those who are never asked. *)
Lemma step_closed cfg c ph w d w' :
  enabled cfg = true -> whitelisted cfg (c_identity c) = false -> fail_open cfg = false ->
  match ph with Numbered _ _ => asks cfg c = true | Answered _ => False | _ => True end ->
  step cfg c ph w = (Answered d, w') -> allowed d = true -> counted cfg c d = true.
Proof.
  intros He Hw Hf Hph. destruct ph as [|now|now n|]; cbn [step].
  - unfold unasked. rewrite He, Hw. cbn [negb]. destruct (cache_up (c_env c)); cbn [negb]; [done|].
    intros [= <- _]. unfold fallback_. by rewrite Hf.
  - by destruct (next_number _ _).
  - unfold eval_window, counted, fallback_. rewrite Hph, Hf. destruct (fault (c_env c)).
    + destruct (kSlidingWindowLua _ _ _ _ _ _ _) as [[[flag cnt] retry] s']. intros [= <- _]. cbn. by intros ->.
    + by intros [= <- _].
    + destruct (kSlidingWindowLua _ _ _ _ _ _ _) as [[[flag cnt] retry] s']. by intros [= <- _].
  - done.
Qed.

Definition asked_threads (cfg : Config) (ths : list (Call * Phase)) : Prop :=
  forall i c now, ths !! i = Some (c, Clocked now) \/ (exists n, ths !! i = Some (c, Numbered now n)) -> asks cfg c = true.

Lemma step_asked cfg ths i c ph w ph' w' :
  asked_threads cfg ths -> ths !! i = Some (c, ph) -> step cfg c ph w = (ph', w') ->
  asked_threads cfg (<[i := (c, ph')]> ths).
Proof.
  intros HA Hi ES j x now [[(<- & E & _) | [_ H]]%list_lookup_insert_Some | [n [(<- & E & _) | [_ H]]%list_lookup_insert_Some]].
  2: eapply HA; by left.
  3: eapply HA; right; by eexists.
  all: injection E as <- ->; destruct ph as [|now0|now0 n0|]; cbn [step] in ES.
  all: try (destruct (unasked cfg _ _ _) eqn:EU; [discriminate|]; by eapply unasked_none).
  all: try (by destruct (next_number _ _)); try (by destruct (eval_window _ _ _ _ _ _ _ _ _)); try done.
  eapply HA. by left.
Qed.

Lemma run_closed cfg order : forall w ths,
  enabled cfg = true -> fail_open cfg = false -> asked_threads cfg ths ->
  Forall (fun e => allowed e.2 = true -> whitelisted cfg (c_identity e.1) = true \/ counted cfg e.1 e.2 = true) (run cfg order w ths).1.
Proof.
  induction order as [|i rest IH]; intros w ths He Hf HA; cbn [run]; [constructor|].
  destruct (ths !! i) as [[c ph]|] eqn:Hi; [|by apply IH].
  assert (HG : match ph with Answered _ => True | _ => let '(ph', w1) := step cfg c ph w in
    let '(log, end_) := run cfg rest w1 (<[i := (c, ph')]> ths) in
    Forall (fun e => allowed e.2 = true -> whitelisted cfg (c_identity e.1) = true \/ counted cfg e.1 e.2 = true)
      (match ph' with Answered d => [(c, d)] | _ => [] end ++ log)%list end).
  { destruct (step cfg c ph w) as [ph' w1] eqn:ES. pose proof (step_asked _ _ _ _ _ _ _ _ HA Hi ES) as HA'.
    specialize (IH w1 _ He Hf HA'). destruct (run cfg rest w1 _) as [log end_]. cbn [fst] in IH. destruct ph as [|now|now n|d0]; try done.
    all: destruct ph' as [| | |d]; cbn [app]; try exact IH; apply Forall_cons_2; [|exact IH]; cbn [fst snd]; intros Hal.
    all: destruct (whitelisted cfg (c_identity c)) eqn:Ew; [by left | right]; eapply step_closed; [done.. | | exact ES | done]; try done.
    eapply HA. right. by eexists. }
  destruct ph as [|now|now n|d0]; [..|by apply IH]; destruct (step cfg c _ w) as [ph' w1], (run cfg rest w1 _) as [log end_]; exact HG.
Qed.

Lemma came_lookup calls i c ph : came calls !! i = Some (c, ph) -> ph = Came /\ c ∈ calls.
Proof.
  unfold came. change (map ?f calls) with (f <$> calls). intros [x [[= -> ->] Hx]]%list_lookup_fmap_Some. split; [done|]. by eapply list_elem_of_lookup_2.
Qed.

(** C23: The sliding window is a cap.  In one process of any number of threads, each
    of which reads the clock, draws its number and runs the script as three steps that
    interleave in any order with those of the others, whatever calls fail: let no
    script carry a reading of the clock that is more than [D] milliseconds older than
    one a script carried before it (0 when they arrive in the order of their
    readings), and let the clock be apart from the server's, which does not run
    backwards, by the same time up to a second, the script's way included.  Then no window of the configured
    length less [D], wherever it ends, holds more grants of the script to one identity
    of one tier than the limit.  And when the limiter fails closed, every request it
    lets through is such a grant or one of a whitelisted identity, which is not counted. *)
Theorem window_cap cfg p δ D R order calls tier identity U :
  enabled cfg = true -> 0 <= D -> Forall (fun c => pid (c_env c) = p) calls -> Z.of_nat (length order) < 2 ^ 64 ->
  let log := (run cfg order idle (came calls)).1 in
  timely cfg δ D 0 R log ->
  Z.of_nat (length (filter (fun t => (U - (tier_window cfg tier - D) < t <= U)%Z) (grants cfg tier identity log)))
    <= Z.max 0 (tier_limit cfg tier) /\
  (fail_open cfg = false ->
   Forall (fun e => allowed e.2 = true -> whitelisted cfg (c_identity e.1) = true \/ counted cfg e.1 e.2 = true) log).
Proof.
  intros He HD Hp Hn log Ho. split.
  2: { intros Hf. apply run_closed; [done..|]. intros i c now [H | [n H]]; by apply came_lookup in H as [? _]. }
  assert (HF : follows cfg p δ D tier identity idle (came calls) [] 0 R).
  { split; [apply tracks_init|]. split; [by intros m ?%not_elem_of_nil | | |].
    - by intros i x now c [? _]%came_lookup.
    - by intros i j x y now now' c [? _]%came_lookup.
    - intros i x ph [-> Hx]%came_lookup. split; [|done]. rewrite Forall_forall in Hp. by apply Hp. }
  destruct (run_follows cfg p δ D tier identity order idle (came calls) [] 0 R [] HD Ho ltac:(done) ltac:(done) HF (sublist_nil_l _))
    as (G & T & R' & HT & HS). cbn [app] in HS.
  etrans; [|apply (t_cap _ _ _ _ _ _ _ _ _ HT U)]. apply inj_le, window_sublist, HS.
Qed.

(** ** Retrying *)

(** The set behind a key stays within its limit, with times that are no less than zero. *)
Definition bounded (cfg : Config) (s : Store) : Prop :=
  forall tier id z d, s !! tier_key tier id = Some (z, d) ->
    Z.of_nat (map_size z) <= Z.max 0 (tier_limit cfg tier) /\ (forall m t, z !! m = Some t -> 0 <= t).

Lemma live_bounded cfg s tier id rt :
  bounded cfg s -> Z.of_nat (map_size (live s (tier_key tier id) rt)) <= Z.max 0 (tier_limit cfg tier) /\
    (forall m t, live s (tier_key tier id) rt !! m = Some t -> 0 <= t).
Proof.
  intros H. unfold live. destruct (s !! tier_key tier id) as [[z d]|] eqn:E; [destruct (d <=? rt)|]; [|by eapply H|];
    (split; [replace (map_size (∅ : ZSet)) with 0%nat by reflexivity; lia | by intros m t ?%lookup_empty_Some]).
Qed.

Lemma script_bounded cfg s tier id now W m rt reply s' :
  bounded cfg s -> 0 <= now ->
  kSlidingWindowLua (tier_key tier id) now W (tier_limit cfg tier) m rt s = (reply, s') -> bounded cfg s'.
Proof.
  intros HB Hn. unfold kSlidingWindowLua. cbv zeta. destruct (live_bounded cfg s tier id rt HB) as [HL HP].
  set (z := filter _ (live s (tier_key tier id) rt)).
  assert (Hz : (map_size z <= map_size (live s (tier_key tier id) rt))%nat) by apply map_size_filter.
  assert (Hz' : forall m t, z !! m = Some t -> 0 <= t) by (intros m' t [H _]%map_lookup_filter_Some; by eapply HP).
  destruct (Z.leb_spec (tier_limit cfg tier) (Z.of_nat (map_size z))); intros [= _ <-] tier' id' z' d'.
  - destruct (s !! tier_key tier id) as [[z0 d0]|] eqn:E; [|by apply HB].
    intros [[HK [= <- <-]] | [_ H']]%lookup_insert_Some; [|by eapply HB].
    destruct (tier_key_inj _ _ _ _ HK) as [<- <-]. split; [lia | exact Hz'].
  - intros [[HK [= <- <-]] | [_ H']]%lookup_insert_Some; [|by eapply HB].
    destruct (tier_key_inj _ _ _ _ HK) as [<- <-]. split.
    + assert (HI : (map_size (<[m := now]> z) <= S (map_size z))%nat)
        by (etrans; [apply Nat.eq_le_incl, map_size_insert|]; destruct (z !! m); [apply Nat.le_succ_diag_r | apply Nat.le_refl]). lia.
    + intros m' t [[_ <-] | [_ H']]%lookup_insert_Some; [done | by eapply Hz'].
Qed.

Lemma check_bounded cfg c w :
  bounded cfg (store w) -> 0 <= now_ms (c_env c) -> bounded cfg (store (check_call cfg c w).2).
Proof.
  intros HB Hn. rewrite check_call_window. unfold check_window, eval_window.
  destruct (unasked _ _ _ _); [done|]. cbn [next_number]. fold (tier_key (c_protected c) (c_identity c)).
  destruct (fault (c_env c)); try done;
    destruct (kSlidingWindowLua _ _ _ _ _ _ _) as [[[flag cnt] retry] s'] eqn:E; cbn [snd store] in *;
    by eapply script_bounded.
Qed.

Lemma serve_bounded cfg calls : forall w,
  Forall (fun c => 0 <= now_ms (c_env c)) calls -> bounded cfg (store w) -> bounded cfg (store (serve cfg w calls).2).
Proof.
  induction calls as [|c rest IH]; intros w Ho HB; cbn [serve]; [done|].
  apply Forall_cons in Ho as [H0 Ho]. pose proof (check_bounded cfg c w HB H0) as HB1.
  destruct (check_call cfg c w) as [d w1]. specialize (IH w1 Ho HB1). by destruct (serve cfg w1 rest).
Qed.

Lemma oldest_in z now : (exists m, z !! m = Some (oldest z now)) \/ z = ∅.
Proof.
  unfold oldest. destruct (map_to_list z) as [|[m v] r] eqn:E; [right; by apply map_to_list_empty_iff|]. left.
  assert (HI : forall e, e ∈ (m, v) :: r -> z !! e.1 = Some e.2).
  { intros [m' v'] He. rewrite <- E in He. by apply elem_of_map_to_list in He. }
  clear E. assert (HE : exists e, e ∈ (m, v) :: r /\ e.2 = foldr Z.min v (map snd r)).
  { induction r as [|e r IH]; cbn [map foldr]; [exists (m, v); by split; [left|]|].
    destruct (Z.min_spec e.2 (foldr Z.min v (map snd r))) as [[_ ->] | [_ ->]].
    - exists e. split; [right; left | done].
    - destruct IH as (x & Hx & E'); [intros x Hx; apply HI; set_solver|]. exists x. split; [set_solver | done]. }
  destruct HE as (e & He & <-). exists e.1. by apply HI.
Qed.

(** After a refusal, the time it names brings the count below the limit. *)
Lemma script_retry cfg tier id now now' W m m' rt rt' s s' cnt retry :
  bounded cfg s -> 1 <= tier_limit cfg tier -> 
  kSlidingWindowLua (tier_key tier id) now W (tier_limit cfg tier) m rt s = ((0, cnt, retry), s') ->
  now + retry <= now' -> (kSlidingWindowLua (tier_key tier id) now' W (tier_limit cfg tier) m' rt' s').1.1.1 = 1.
Proof.
  intros HB HL. unfold kSlidingWindowLua. cbv zeta. destruct (live_bounded cfg s tier id rt HB) as [Hs HP].
  set (z := filter _ (live s (tier_key tier id) rt)).
  assert (Hz : (map_size z <= map_size (live s (tier_key tier id) rt))%nat) by apply map_size_filter.
  destruct (Z.leb_spec (tier_limit cfg tier) (Z.of_nat (map_size z))) as [Hc|]; [|discriminate].
  intros [= _ <- <-] Hn. destruct (oldest_in z now) as [(m0 & H0) | Hemp].
  2: { rewrite Hemp in Hc. replace (map_size (∅ : ZSet)) with 0%nat in Hc by reflexivity. lia. }
  set (o := oldest z now) in *.
  assert (Ho : 0 <= o <= now' - W).
  { split; [apply map_lookup_filter_Some in H0 as [H0 _]; by eapply HP|]. destruct (Z.ltb_spec (o + W - now) 1); lia. }
  assert (HK : exists d, s !! tier_key tier id = Some (live s (tier_key tier id) rt, d)).
  { apply map_lookup_filter_Some in H0 as [H0 _]. unfold live in *. destruct (s !! tier_key tier id) as [[z0 d]|]; [|done].
    destruct (d <=? rt); [done|]. by exists d. }
  destruct HK as [d HK]. rewrite HK. set (s' := <[tier_key tier id := (z, d)]> s).
  assert (HF : (map_size (filter (fun e : string * Z => (~ (0 <= e.2 <= now' - W))%Z) (live s' (tier_key tier id) rt')) < map_size z)%nat).
  { unfold live, s'. rewrite lookup_insert_eq. destruct (d <=? rt').
    - apply Nat.lt_le_trans with (m := S 0); [apply Nat.lt_succ_diag_r|]. lia.
    - eapply Nat.le_lt_trans; [apply (map_subseteq_size _ (delete m0 z))|].
      + apply map_subseteq_spec. intros k v [Hk Hv]%map_lookup_filter_Some. apply lookup_delete_Some. split; [|done].
        intros <-. rewrite H0 in Hk. injection Hk as <-. by apply Hv.
      + rewrite map_size_delete_Some by (by eexists). assert (map_size z <> 0%nat) by lia. apply Nat.lt_pred_l. exact H. }
  rewrite (proj2 (Z.leb_gt _ _)); [done|]. lia.
Qed.

Lemma script_flag key now W L m rt s : (kSlidingWindowLua key now W L m rt s).1.1.1 ∈ [0; 1].
Proof. unfold kSlidingWindowLua. cbv zeta. destruct (L <=? _); cbn; set_solver. Qed.

(** Retry-After is honest.  When the script refuses a call of a working limiter,
    the answer names at least one second, and after waiting that long the same
    identity is let through, on whichever process, if nothing of its own came in
    between. *)
Theorem retry_after_honest cfg before c c' :
  enabled cfg = true -> 1 <= tier_limit cfg (c_protected c) -> Forall (fun x => 0 <= now_ms (c_env x)) before ->
  cache_up (c_env c) = true -> fault (c_env c) = NoFault -> cache_up (c_env c') = true -> fault (c_env c') = NoFault ->
  c_protected c' = c_protected c -> c_identity c' = c_identity c ->
  let '(d, w') := check_call cfg c (serve cfg idle before).2 in
  allowed d = false ->
  1 <= retry_after_sec d /\
  (now_ms (c_env c) + 1000 * retry_after_sec d <= now_ms (c_env c') -> allowed (check_call cfg c' w').1 = true).
Proof.
  intros He HL Ho Hu Hf Hu' Hf' Hp Hi.
  assert (HB : bounded cfg (store (serve cfg idle before).2))
    by (apply serve_bounded; [exact Ho | by intros tier id z d [=]]).
  set (w := (serve cfg idle before).2) in *. rewrite check_call_window. unfold check_window, unasked, eval_window.
  rewrite He, Hu, Hf. cbn [negb]. destruct (whitelisted cfg (c_identity c)) eqn:Hw; [done|]. unfold next_number. cbn [store counters].
  fold (tier_key (c_protected c) (c_identity c)) (tier_window cfg (c_protected c)).
  pose proof (script_flag (tier_key (c_protected c) (c_identity c)) (now_ms (c_env c))
    (tier_window cfg (c_protected c)) (tier_limit cfg (c_protected c))
    (member_of (now_ms (c_env c)) (counter_of w (pid (c_env c)))) (redis_ms (c_env c)) (store w)) as HF.
  destruct (kSlidingWindowLua _ _ _ _ _ _ _) as [[[flag cnt] retry] s'] eqn:ES. cbn [fst] in HF. cbn [allowed retry_after_sec].
  intros Hd. rewrite Hd. assert (flag = 0) as -> by (apply Z.eqb_neq in Hd; set_solver). split; [lia|]. intros Hn.
  rewrite check_call_window. unfold check_window, unasked, eval_window. rewrite He, Hu', Hf', Hp, Hi, Hw. cbn [negb]. unfold next_number.
  cbn [store counters]. fold (tier_key (c_protected c) (c_identity c)) (tier_window cfg (c_protected c)).
  pose proof (script_retry cfg (c_protected c) (c_identity c) _ (now_ms (c_env c')) _ _
    (member_of (now_ms (c_env c')) (counter_of (mkWorld s' (<[pid (c_env c) := (counter_of w (pid (c_env c)) + 1) mod 2 ^ 64]>
       (counters w))) (pid (c_env c')))) _ (redis_ms (c_env c')) _ _ _ _ HB HL ES) as HR.
  destruct (kSlidingWindowLua _ (now_ms (c_env c')) _ _ _ _ s') as [[[flag' cnt'] retry'] s'']. cbn [fst] in HR.
  rewrite HR; [done|]. assert (retry <= 1000 * Z.max 1 (Z.quot (retry + 999) 1000)); [|lia].
  destruct (Z.leb_spec retry 0); [lia|]. rewrite quot_div by lia. pose proof (Z.div_mod (retry + 999) 1000 ltac:(lia)).
  pose proof (Z.mod_pos_bound (retry + 999) 1000 ltac:(lia)). lia.
Qed.

(** ** Addresses behind proxies *)

(** An address as a proxy writes it. *)
Definition plain (c : ascii) : bool := negb (Strings.trim_char c) && negb (Ascii.eqb c ",").
Definition address (a : string) : Prop := a <> "" /\ str_all plain a = true.

(** The header once each of the proxies has appended the address it saw. *)
Definition forwarded (sent : string) (addrs : list string) : string :=
  foldl (fun acc a => acc +:+ ", " +:+ a) sent addrs.

Lemma find_last_all (p : ascii -> bool) a :
  a <> "" -> str_all (fun c => negb (p c)) a = true -> Strings.find_last_not p a = Some (size a - 1)%nat.
Proof.
  induction a as [|c a IH]; [done|]. cbn [str_all Strings.find_last_not]. intros _ [Hc Ha]%andb_true_iff.
  destruct a as [|c' a']; [cbn [Strings.find_last_not]; by apply negb_true_iff in Hc as ->|].
  rewrite IH by done. f_equal. unfold size. cbn. lia.
Qed.

Lemma trim_blank a : address a -> Strings.trim (" " +:+ a) = a.
Proof.
  intros [Hne Ha]. assert (Ht : str_all (fun c => negb (Strings.trim_char c)) a = true).
  { eapply str_all_impl; [|exact Ha]. by intros c [? _]%andb_true_iff. }
  unfold Strings.trim. cbn [String.append Strings.find_first_not Strings.find_last_not].
  change (Strings.trim_char " ") with true. cbv iota. rewrite (find_last_all _ a Hne Ht).
  assert (HF : Strings.find_first_not Strings.trim_char a = Some 0%nat).
  { destruct a as [|c a]; [done|]. cbn [Strings.find_first_not str_all] in *.
    apply andb_true_iff in Ht as [Hc _]. by apply negb_true_iff in Hc as ->. }
  rewrite HF. cbn [fmap option_fmap option_map str_drop].
  replace (S (size a - 1) - 1 + 1)%nat with (size a); [|destruct a; [done|]; unfold size; cbn; lia].
  rewrite <- (app_empty_r a) at 2. by rewrite str_take_app.
Qed.

Lemma hops_forwarded sent addrs : Forall address addrs -> hops_of (forwarded sent addrs) = (hops_of sent ++ addrs)%list.
Proof.
  revert sent. induction addrs as [|a rest IH]; intros sent HF; cbn [forwarded foldl]; [by rewrite app_nil_r|].
  apply Forall_cons in HF as [Ha HF]. fold (forwarded (sent +:+ ", " +:+ a) rest). rewrite IH by done.
  change (sent +:+ ", " +:+ a) with (sent +:+ String "," (" " +:+ a)). unfold hops_of at 1.
  rewrite pieces_app, map_app, List.filter_app. fold (hops_of sent).
  rewrite (pieces_one "," (" " +:+ a)).
  - cbn [map]. rewrite trim_blank by done. cbn [List.filter].
    rewrite (proj2 (String.eqb_neq a "")) by apply Ha. cbn [negb]. by rewrite <- app_assoc.
  - cbn [String.append str_all]. destruct Ha as [_ Ha]. eapply str_all_impl; [|exact Ha].
    by intros c [_ ?]%andb_true_iff.
Qed.

(** The address cannot be forged.  Behind as many trusted proxies as the
    configuration says, each appending the address it was called from, the address
    the limiter (and the audit log) sees is the one the outermost proxy saw, whatever
    X-Forwarded-For the client has sent along, provided the proxies leave no
    X-Real-IP of the client; without trusted proxies no header counts. *)
Theorem client_ip_unspoofable req sent outer inner :
  Forall address (outer :: inner) -> x_real_ip req = "" -> x_forwarded_for req = forwarded sent (outer :: inner) ->
  client_ip req true (Z.of_nat (length (outer :: inner))) = outer /\ client_ip req false 1 = peer req.
Proof.
  intros HF Hr Hx. split; [|done]. unfold client_ip. rewrite Hr, Hx. cbn [negb String.eqb].
  pose proof (hops_forwarded sent (outer :: inner) HF) as HH.
  destruct (String.eqb_spec (forwarded sent (outer :: inner)) "") as [E|_].
  { rewrite E in HH. by destruct (hops_of sent). }
  rewrite HH. destruct (hops_of sent ++ outer :: inner)%list eqn:EL; [by destruct (hops_of sent)|]. rewrite <- EL.
  rewrite length_app, Nat2Z.inj_add, Z.add_simpl_r. destruct (Z.ltb_spec (Z.of_nat (length (hops_of sent))) 0); [lia|].
  rewrite Nat2Z.id. rewrite app_nth2 by lia. by rewrite Nat.sub_diag.
Qed.

(** ** The limiter at work *)

Definition tight : Config :=
  mkConfig true 2 60 2 60 IpOrUser true 1 false [] ["/health"] ["/api/v1/auth/*"].

Definition call_at (p : nat) (t : Z) (id : string) : Call := mkCall false id (mkEnv p t t true NoFault).

Example third_refused :
  map (fun e => allowed e.2) (serve tight idle [call_at 0 1000 "ip:a"; call_at 0 2000 "ip:a"; call_at 0 3000 "ip:a";
                                               call_at 0 61000 "ip:a"]).1 = [true; true; false; true].
Proof. vm_compute. reflexivity. Qed.

(** Two processes share members: each starts its counter at zero, and in the same
    millisecond their first requests are one entry of the set. *)
Example replicas_share_members :
  map (fun e => allowed e.2) (serve tight idle [call_at 0 1000 "ip:a"; call_at 1 1000 "ip:a"; call_at 0 1000 "ip:a"]).1
  = [true; true; true].
Proof. vm_compute. reflexivity. Qed.

(** Scripts out of the order of their readings: the later reading is counted first and clears
    the set of what the earlier one would still have met, so that three pass in a window of two. *)
Definition late : list Call := [call_at 0 1000 "ip:a"; call_at 0 1001 "ip:a";
  mkCall false "ip:a" (mkEnv 0 60999 61001 true NoFault); call_at 0 61001 "ip:a"].
Definition late_order : list nat := [0; 0; 0; 1; 1; 1; 2; 2; 3; 3; 3; 2]%nat.

Example late_script_exceeds :
  filter (fun t => (60999 - 60000 < t <= 60999)%Z) (grants tight false "ip:a" (run tight late_order idle (came late)).1)
  = [1000; 1001; 60999].
Proof. vm_compute. reflexivity. Qed.

Lemma window_cap_witness :
  Z.of_nat (length (filter (fun t => (60999 - (60000 - 2) < t <= 60999)%Z)
    (grants tight false "ip:a" (run tight late_order idle (came late)).1))) <= 2.
Proof.
  refine (proj1 (window_cap tight 0%nat (-2) 2 1000 late_order late false "ip:a" 60999 _ _ _ _ _)); [done | done | | done |].
  - repeat constructor.
  - vm_compute. repeat (split; [done|]). done.
Defined.

Lemma retry_after_honest_witness :
  (check_call tight (call_at 0 3000 "ip:a") (serve tight idle [call_at 0 1000 "ip:a"; call_at 0 2000 "ip:a"]).2).1
    = mkDecision false 0 58 /\
  allowed (check_call tight (call_at 7 61000 "ip:a")
    (check_call tight (call_at 0 3000 "ip:a") (serve tight idle [call_at 0 1000 "ip:a"; call_at 0 2000 "ip:a"]).2).2).1 = true.
Proof.
  assert (E : check_call tight (call_at 0 3000 "ip:a") (serve tight idle [call_at 0 1000 "ip:a"; call_at 0 2000 "ip:a"]).2
    = (mkDecision false 0 58, (check_call tight (call_at 0 3000 "ip:a")
        (serve tight idle [call_at 0 1000 "ip:a"; call_at 0 2000 "ip:a"]).2).2)) by (vm_compute; reflexivity).
  pose proof (retry_after_honest tight [call_at 0 1000 "ip:a"; call_at 0 2000 "ip:a"] (call_at 0 3000 "ip:a")
    (call_at 7 61000 "ip:a")) as H.
  rewrite E in H. rewrite E. split; [reflexivity|].
  assert (HO : Forall (fun x => 0 <= now_ms (c_env x)) [call_at 0 1000 "ip:a"; call_at 0 2000 "ip:a"]) by (by repeat constructor).
  refine (proj2 (H eq_refl _ HO eq_refl eq_refl eq_refl eq_refl eq_refl eq_refl eq_refl) _); cbn; lia.
Defined.

Lemma client_ip_unspoofable_witness :
  client_ip (mkRequest "/" false "" "6.6.6.6, evil, 203.0.113.7, 10.0.0.2" "10.0.0.3" None) true 2 = "203.0.113.7".
Proof.
  apply (client_ip_unspoofable (mkRequest "/" false "" "6.6.6.6, evil, 203.0.113.7, 10.0.0.2" "10.0.0.3" None)
           "6.6.6.6, evil" "203.0.113.7" ["10.0.0.2"]); [|done|done].
  repeat constructor; discriminate.
Defined.

End RateLimit.
