(* ===== verification/Idempotency.v ===== *)
(** * Idempotent requests

    src/security/Idempotency.hpp over the calls of src/cache/Cache.hpp it makes: the
    key of an entry, what the middleware answers before the handler (replay,
    conflict, in progress) and stores after it, the lock in between, first as whole
    calls, then as the commands of many requests interleaved in time. *)
From Stdlib Require Import ZArith Lia Ascii String.
From S2P Require Import Prelude Json.
Import Json.
Open Scope string_scope.
Open Scope Z_scope.
Set Warnings "-clear-no-such-hyp".

(** OpenSSL's digest, the name of a method. *)
Inductive Method := Get | Head | Post | Put | Delete | Patch | Options.

Definition hex_digit (c : ascii) : bool := is_digit c || ((97 <=? code c) && (code c <=? 102)).
Definition capital (c : ascii) : bool := (65 <=? code c) && (code c <=? 90).

Class Platform := {
  sha256_hex : string -> string;
  method_string : Method -> string;
  sha256_shape : forall s, size (sha256_hex s) = 64%nat /\ str_all hex_digit (sha256_hex s) = true;
  method_capital : forall m, exists c r, method_string m = String c r /\ str_all capital (String c r) = true
}.

Module Idempotency.

(** [Config]: src/security/Idempotency.hpp:44-53. *)
Record Config := mkConfig {
  enabled : bool; ttl_sec : Z; max_body_bytes : Z; max_response_bytes : Z; lock_ttl_sec : Z
}.

(** [is_mutating]: src/security/Idempotency.hpp:57-59. *)
Definition is_mutating (m : Method) : bool := match m with Post | Put | Delete | Patch => true | _ => false end.

(** What the middleware reads of a request: the principal is the subject stamped by the authentication. *)
Record Request := mkRequest {
  method : Method; path : string; idem_key : string; req_body : string; subject : option string; peer_ip : string
}.

(** The cookies of a response ([addCookie]) are kept apart from its headers. *)
Record Response := mkResponse {
  status : Z; content_type : string; headers : list (string * string); cookies : list (string * string); body : string
}.

(** ** The cache *)

(** Values with the time they expire, on the server's clock, in milliseconds. *)
Abbreviation Store := (gmap string (string * option Z)).

Inductive Fault := NoFault | Unreachable | ReplyLost.

Definition live (key : string) (now : Z) (s : Store) : option string :=
  match s !! key with
  | Some (v, Some deadline) => if deadline <=? now then None else Some v
  | Some (v, None) => Some v
  | None => None
  end.

(** [get]: src/cache/Cache.hpp:291-303. *)
Definition cache_get (f : Fault) (key : string) (now : Z) : st Store (option string) :=
  gets (fun s => match f with NoFault => live key now s | _ => None end).

(** [set]: src/cache/Cache.hpp:259-272. *)
Definition cache_set (f : Fault) (key value : string) (ttl : Z) (now : Z) : st Store bool := fun s =>
  let s' := <[key := (value, if 0 <? ttl then Some (now + ttl * 1000) else None)]> s in
  match f with NoFault => (Ok true, s') | ReplyLost => (Ok false, s') | Unreachable => (Ok false, s) end.

(** [set_nx]: src/cache/Cache.hpp:281-289. *)
Definition cache_set_nx (f : Fault) (key value : string) (ttl_ms now : Z) : st Store bool := fun s =>
  let free := match live key now s with None => true | Some _ => false end in
  let s' := if free then <[key := (value, Some (now + ttl_ms))]> s else s in
  match f with NoFault => (Ok free, s') | ReplyLost => (Ok false, s') | Unreachable => (Ok false, s) end.

(** [del]: src/cache/Cache.hpp:305-313. *)
Definition cache_del (f : Fault) (key : string) : st Store Z := fun s =>
  match f with
  | NoFault => (Ok (match s !! key with Some _ => 1 | None => 0 end), delete key s)
  | ReplyLost => (Ok 0, delete key s)
  | Unreachable => (Ok 0, s)
  end.

Section Middleware.
Context `{PL : Platform} `{JT : JsonText}.

(** [cache_key]: src/security/Idempotency.hpp:64-72. *)
Definition cache_key (principal meth pth key : string) : string :=
  "idemp:" +:+ principal +:+ ":" +:+ meth +:+ ":" +:+ sha256_hex pth +:+ ":" +:+ key.

(** [lock_key]: src/security/Idempotency.hpp:74-76. *)
Definition lock_key (ck : string) : string := ck +:+ ":lock".

(** [pre_handle]: src/security/Idempotency.hpp:230-234.  The caller the entry belongs to. *)
Definition principal_of (r : Request) : string :=
  match subject r with
  | Some p => if String.eqb p "" then "anon:" +:+ peer_ip r else p
  | None => "anon:" +:+ peer_ip r
  end.

Definition key_of (r : Request) : string := cache_key (principal_of r) (method_string (method r)) (path r) (idem_key r).
Definition hash_of (r : Request) : string := sha256_hex (req_body r).

(** The text members of an object, in its order. *)
Definition string_members (j : option json) : list (string * string) :=
  match j with
  | Some (JObject l) => omap (fun e => match e.2 with JString s => Some (e.1, s) | _ => None end) l
  | _ => []
  end.

(** [make_replay_response]: src/security/Idempotency.hpp:156-179. *)
Definition make_replay_response (stored : json) : outcome Response :=
  code ← value_int "status" 200 stored;
  ct ← value_string "content_type" "application/json" stored;
  b ← value_string "body" "" stored;
  mret (mkResponse code ct (string_members (member "headers" stored) ++ [("X-Idempotent-Replayed", "true")])%list [] b).

(** [read_stored_entry]: src/security/Idempotency.hpp:184-200.  A corrupt entry is dropped. *)
Definition read_stored_entry (f : Fault) (ck : string) (now : Z) : st Store (option json) :=
  cached ← cache_get f ck now;
  match cached with
  | None => mret None
  | Some text =>
      match json_parse text with
      | Some j => mret (Some j)
      | None => cache_del f ck ;; mret None
      end
  end.

(** What a request gets without its handler. *)
Inductive Answer := Replayed (r : Response) | KeyConflict | InProgress (retry_after : Z) | BodyTooLarge.

(** [pre_handle]: src/security/Idempotency.hpp:237-242.  The answer of a stored entry, if there is one. *)
Definition read_phase (f : Fault) (ck hash : string) (now : Z) : st Store (option Answer) :=
  stored ← read_stored_entry f ck now;
  match stored with
  | None => mret None
  | Some j =>
      h ← lift (value_string "req_hash" "" j);
      if String.eqb h hash then
        (r ← lift (make_replay_response j); mret (Some (Replayed r)))
      else mret (Some KeyConflict)
  end.

(** [pre_handle]: src/security/Idempotency.hpp:249-257. *)
Definition lock_phase (cfg : Config) (f : Fault) (ck hash : string) (now : Z) : st Store bool :=
  cache_set_nx f (lock_key ck) hash (lock_ttl_sec cfg * 1000) now.

(** The request goes on untracked, is answered, or goes on under its lock. *)
Inductive PreResult := Pass | Answered (a : Answer) | Tracked (ck hash lk : string).

(** [pre_handle]: src/security/Idempotency.hpp:204-279. *)
Definition pre_handle (cfg : Config) (cache_up : bool) (f1 f2 f3 : Fault) (r : Request) (now : Z) : st Store PreResult :=
  if negb (enabled cfg) || negb (is_mutating (method r)) || String.eqb (idem_key r) "" || negb cache_up then mret Pass
  else if max_body_bytes cfg <? Z.of_nat (size (req_body r)) then mret (Answered BodyTooLarge)
  else
    first ← read_phase f1 (key_of r) (hash_of r) now;
    match first with
    | Some a => mret (Answered a)
    | None =>
        got ← lock_phase cfg f2 (key_of r) (hash_of r) now;
        match got with
        | true => mret (Tracked (key_of r) (hash_of r) (lock_key (key_of r)))
        | false =>
            again ← read_phase f3 (key_of r) (hash_of r) now;
            match again with
            | Some a => mret (Answered a)
            | None => mret (Answered (InProgress (Z.max 1 (lock_ttl_sec cfg))))
            end
        end
    end.

(** [std::tolower] in the "C" locale, over a name. *)
Definition lower_char (c : ascii) : ascii := if capital c then chr (code c + 32) else c.
Fixpoint lower (s : string) : string := match s with EmptyString => "" | String c r => String (lower_char c) (lower r) end.

(** [post_handle]: src/security/Idempotency.hpp:354-363.  Hop-by-hop and generated headers are not stored. *)
Definition kSkip : list string := ["content-length"; "date"; "server"; "connection"; "transfer-encoding"; "content-type"].
Definition kept (h : string * string) : bool := negb (existsb (String.eqb (lower h.1)) kSkip).
Definition stored_headers (hs : list (string * string)) : list (string * json) :=
  foldl (fun l h => if kept h then obj_set h.1 (JString h.2) l else l) [] hs.

(** [post_handle]: src/security/Idempotency.hpp:367-374. *)
Definition entry_of (hash : string) (resp : Response) : json :=
  JObject [("body", JString (body resp));
           ("content_type", JString (if String.eqb (content_type resp) "" then "application/json" else content_type resp));
           ("headers", JObject (stored_headers (headers resp)));
           ("req_hash", JString hash);
           ("status", JInt (status resp))].

(** [post_handle]: src/security/Idempotency.hpp:336-378.  Only a small enough success is stored. *)
Definition store_phase (cfg : Config) (f : Fault) (ck hash : string) (resp : Response) (now : Z) : st Store unit :=
  if (status resp <? 200) || (300 <=? status resp) then mret tt
  else if max_response_bytes cfg <? Z.of_nat (size (body resp)) then mret tt
  else
    match json_dump (entry_of hash resp) with
    | Ok text => cache_set f ck text (ttl_sec cfg) now ;; mret tt
    | _ => mret tt
    end.

(** [post_handle]: src/security/Idempotency.hpp:310-334.  Compare-and-delete of the lock, in one script. *)
Definition release_phase (f : Fault) (lk owner : string) (now : Z) : st Store unit := fun s =>
  match f with
  | Unreachable => (Ok tt, s)
  | _ => (Ok tt, if bool_decide (live lk now s = Some owner) then delete lk s else s)
  end.

(** [post_handle]: src/security/Idempotency.hpp:286-379. *)
Definition post_handle (cfg : Config) (cache_up : bool) (f1 f2 : Fault) (tracked : PreResult) (resp : Response) (now : Z)
    : st Store unit :=
  if negb (enabled cfg) || negb cache_up then mret tt
  else match tracked with
       | Tracked ck hash lk =>
           store_phase cfg f1 ck hash resp now ;; (if String.eqb lk "" then mret tt else release_phase f2 lk hash now)
       | _ => mret tt
       end.


(** ** Replay *)

Lemma obj_get_headers k hs : NoDup hs.*1 ->
  obj_get k (stored_headers hs) =
  match List.find (fun h => String.eqb k h.1) hs with Some h => if kept h then Some (JString h.2) else None | None => None end.
Proof.
  unfold stored_headers. intros HN.
  assert (H : forall l, obj_get k (foldl (fun l h => if kept h then obj_set h.1 (JString h.2) l else l) l hs) =
    match List.find (fun h => String.eqb k h.1) hs with
    | Some h => if kept h then Some (JString h.2) else obj_get k l | None => obj_get k l end); [|by rewrite H].
  induction hs as [|h hs IH]; intros l; [done|]. cbn [foldl List.find]. inversion HN as [|? ? Hh HN']; subst.
  rewrite (IH HN'). destruct (String.eqb_spec k h.1) as [->|Hk].
  - replace (List.find (fun x => String.eqb h.1 x.1) hs) with (@None (string * string)).
    + destruct (kept h); [by rewrite obj_get_set, String.eqb_refl | done].
    + symmetry. destruct (List.find _ hs) as [x|] eqn:E; [|done]. apply find_some in E as [Hx E%String.eqb_eq].
      destruct Hh. apply list_elem_of_fmap. exists x. by rewrite list_elem_of_In.
  - assert (E : obj_get k (if kept h then obj_set h.1 (JString h.2) l else l) = obj_get k l).
    { destruct (kept h); [|done]. rewrite obj_get_set. by apply String.eqb_neq in Hk as ->. }
    by rewrite E.
Qed.

(** The value of a header of a response. *)
Definition header (k : string) (hs : list (string * string)) : option string :=
  snd <$> List.find (fun h => String.eqb k h.1) hs.

Lemma header_members k l :
  (forall k' v, (k', v) ∈ l -> exists s, v = JString s) ->
  header k (string_members (Some (JObject l))) = match obj_get k l with Some (JString s) => Some s | _ => None end.
Proof.
  intros H. unfold header. cbn [string_members]. induction l as [|[k' v] r IH]; [done|].
  destruct (H k' v (list_elem_of_here _ _)) as [s ->]. cbn [omap list_omap List.find obj_get fst snd].
  destruct (String.eqb k k'); [done|]. apply IH. intros k2 v2 H2. eapply H. by right.
Qed.

Lemma obj_set_all (P : json -> Prop) k v l :
  P v -> (forall k' v', (k', v') ∈ l -> P v') -> forall k' v', (k', v') ∈ obj_set k v l -> P v'.
Proof.
  intros Hv. induction l as [|[k1 v1] r IH]; intros H k' v' Hin; cbn [obj_set] in Hin.
  - apply list_elem_of_singleton in Hin. by injection Hin as _ ->.
  - destruct (String.eqb k k1); [|destruct (String.ltb k k1)].
    + apply elem_of_cons in Hin as [[= _ ->] | Hin]; [done|]. eapply H. by right.
    + apply elem_of_cons in Hin as [[= _ ->] | Hin]; [done|]. by eapply H.
    + apply elem_of_cons in Hin as [[= _ ->] | Hin]; [eapply H; by left|]. eapply IH; [|exact Hin].
      intros k2 v2 H2. eapply H. by right.
Qed.

Lemma stored_headers_text hs k v : (k, v) ∈ stored_headers hs -> exists s, v = JString s.
Proof.
  unfold stored_headers.
  assert (H : forall l, (forall k' v', (k', v') ∈ l -> exists s, v' = JString s) ->
    (k, v) ∈ foldl (fun l h => if kept h then obj_set h.1 (JString h.2) l else l) l hs -> exists s, v = JString s).
  { induction hs as [|h hs IH]; intros l Hl; cbn [foldl]; [by apply Hl|]. apply IH. destruct (kept h); [|done].
    apply obj_set_all; [by exists h.2 | done]. }
  apply H. by intros k' v' ?%not_elem_of_nil.
Qed.

(** What comes back is what was sent, hop-by-hop headers and cookies apart, and says so. *)
Definition replays (resp again : Response) : Prop :=
  status again = status resp /\ body again = body resp /\ cookies again = [] /\
  content_type again = (if String.eqb (content_type resp) "" then "application/json" else content_type resp) /\
  header "X-Idempotent-Replayed" (headers again) <> None /\
  (forall k, k <> "X-Idempotent-Replayed" -> header k (headers again) =
     match List.find (fun h => String.eqb k h.1) (headers resp) with
     | Some h => if kept h then Some h.2 else None | None => None end).

Lemma header_snoc k hs k' v :
  header k (hs ++ [(k', v)])%list = match header k hs with Some x => Some x | None => if String.eqb k k' then Some v else None end.
Proof.
  unfold header. induction hs as [|h hs IH]; cbn [app List.find fst snd]; [by destruct (String.eqb k k')|].
  by destruct (String.eqb k h.1).
Qed.

Lemma replay_of_entry hash resp :
  NoDup (headers resp).*1 ->
  exists again, make_replay_response (entry_of hash resp) = Ok again /\ replays resp again.
Proof.
  intros HN. unfold make_replay_response, entry_of. cbn [value_int value_string value get_int get_string obj_get member String.eqb Ascii.eqb Bool.eqb].
  rewrite !bind_ok. eexists. split; [reflexivity|]. unfold replays. cbn [status content_type headers cookies body].
  split; [done|]. split; [done|]. split; [done|]. split; [done|]. split.
  - rewrite header_snoc, String.eqb_refl. by destruct (header _ _).
  - intros k Hk. rewrite header_snoc, (proj2 (String.eqb_neq _ _) Hk), header_members by apply stored_headers_text.
    rewrite obj_get_headers by done. destruct (List.find _ (headers resp)) as [h|]; [|done]. by destruct (kept h).
Qed.

(** A small success whose texts are UTF-8. *)
Definition storable (cfg : Config) (hash : string) (resp : Response) : Prop :=
  200 <= status resp < 300 /\ Z.of_nat (size (body resp)) <= max_response_bytes cfg /\
  NoDup (headers resp).*1 /\ clean (entry_of hash resp) = true.

Lemma lock_key_ne ck : lock_key ck <> ck.
Proof.
  unfold lock_key. intros E. apply (f_equal size) in E. rewrite size_app in E. unfold size in E at 2. cbn in E. lia.
Qed.

Lemma store_phase_ok cfg ck hash resp now s :
  storable cfg hash resp -> 0 < ttl_sec cfg ->
  exists text, json_dump (entry_of hash resp) = Ok text /\
    store_phase cfg NoFault ck hash resp now s = (Ok tt, <[ck := (text, Some (now + ttl_sec cfg * 1000))]> s).
Proof.
  intros ([H1 H2] & Hb & _ & Hc) Ht. destruct (dump_writes _ Hc) as [text E]. exists text. split; [done|]. unfold store_phase.
  destruct (Z.ltb_spec (status resp) 200), (Z.leb_spec 300 (status resp)); try lia. cbn [orb].
  destruct (Z.ltb_spec (max_response_bytes cfg) (Z.of_nat (size (body resp)))); [lia|].
  rewrite E. unfold cache_set. cbn. destruct (Z.ltb_spec 0 (ttl_sec cfg)); [done | lia].
Qed.

Lemma read_phase_entry ck hash resp text deadline now s :
  json_dump (entry_of hash resp) = Ok text -> NoDup (headers resp).*1 -> s !! ck = Some (text, Some deadline) ->
  now < deadline -> forall hash', exists answer, read_phase NoFault ck hash' now s = (Ok (Some answer), s) /\
    if String.eqb hash hash' then exists again, answer = Replayed again /\ replays resp again else answer = KeyConflict.
Proof.
  intros E HN Hs Hn hash'. unfold read_phase, read_stored_entry, cache_get.
  destruct (replay_of_entry hash resp HN) as (again & Ea & Hr).
  exists (if String.eqb hash hash' then Replayed again else KeyConflict).
  split; [|destruct (String.eqb hash hash'); [by exists again | done]].
  rewrite (st_bind_ok _ _ s (Some (entry_of hash resp)) s).
  - rewrite (st_bind_ok _ _ s hash s) by done. destruct (String.eqb hash hash'); [|done].
    by rewrite (st_bind_ok _ _ s again s) by (unfold lift; by rewrite Ea).
  - rewrite (st_bind_ok _ _ s (Some text) s).
    + by rewrite (parse_dump _ _ E).
    + unfold gets, live. rewrite Hs. destruct (Z.leb_spec deadline now); [lia | done].
Qed.

(** C24: A retry gets the first answer back.  Once a tracked request has succeeded with a
    response small enough to keep and in UTF-8, and the cache has taken its entry, then
    until the entry expires or is changed the same request (same caller, method, path and
    key), on a cache that answers, is answered: with the same body, with that response,
    status, body, content type and every end-to-end header but none of its cookies, marked
    as replayed; with a body of another digest, with a refusal as a conflict.  The handler
    is not reached in either case.  (A cache that fails lets the request through.) *)
Theorem retry_is_replayed cfg r hash resp r' s s2 t t' :
  enabled cfg = true -> 0 < ttl_sec cfg -> storable cfg hash resp ->
  is_mutating (method r') = true -> idem_key r' <> "" -> Z.of_nat (size (req_body r')) <= max_body_bytes cfg ->
  key_of r' = key_of r -> t <= t' < t + ttl_sec cfg * 1000 ->
  let s1 := (post_handle cfg true NoFault NoFault (Tracked (key_of r) hash (lock_key (key_of r))) resp t s).2 in
  s2 !! key_of r = s1 !! key_of r ->
  exists answer, pre_handle cfg true NoFault NoFault NoFault r' t' s2 = (Ok (Answered answer), s2) /\
    if String.eqb hash (hash_of r') then exists again, answer = Replayed again /\ replays resp again
    else answer = KeyConflict.
Proof.
  intros He Ht HS Hm Hk Hb HK Hn. cbn zeta. unfold post_handle. rewrite He. cbn [negb orb].
  destruct (store_phase_ok cfg (key_of r) hash resp t s HS Ht) as (text & E & ES). rewrite (st_bind_ok _ _ _ _ _ ES).
  set (s1 := <[key_of r := _]> s). set (m := if String.eqb (lock_key (key_of r)) "" then mret tt else release_phase NoFault (lock_key (key_of r)) hash t).
  assert (H1 : (m s1).2 !! key_of r = Some (text, Some (t + ttl_sec cfg * 1000))).
  { assert (H0 : s1 !! key_of r = Some (text, Some (t + ttl_sec cfg * 1000))) by apply lookup_insert_eq.
    unfold m. destruct (String.eqb _ _); [exact H0|]. unfold release_phase. cbn [snd].
    case_bool_decide; [|exact H0]. rewrite lookup_delete_ne by apply lock_key_ne. exact H0. }
  intros Hs2. rewrite H1 in Hs2.
  destruct (read_phase_entry (key_of r) hash resp text _ t' _ E (proj1 (proj2 (proj2 HS))) Hs2 ltac:(lia) (hash_of r')) as (a & Ea & Ha).
  exists a. split; [|exact Ha]. unfold pre_handle. rewrite He, Hm, (proj2 (String.eqb_neq _ _) Hk). cbn [negb orb].
  destruct (Z.ltb_spec (max_body_bytes cfg) (Z.of_nat (size (req_body r')))); [lia|].
  rewrite HK. by rewrite (st_bind_ok _ _ _ _ _ Ea).
Qed.


(** ** Many requests at once *)

Section System.
Context (cfg : Config) (reqs : nat -> Request).

(** Where a tracked request is: before its first read, its lock, its second read; in its
    handler or about to release the lock (since when it has held it); answered. *)
Inductive Phase := Start | Locking | Rereading | Handling (since : Z) | Releasing (since : Z) | Done (a : option Answer).

(** [w_runs]: the requests whose handlers have been started, in order. *)
Record World := mkWorld { w_now : Z; w_store : Store; w_phase : gmap nat Phase; w_runs : list nat }.

Definition phase (w : World) (i : nat) : Phase := default Start (w_phase w !! i).

Definition held (p : Phase) : option Z := match p with Handling t | Releasing t => Some t | _ => None end.
Definition in_flight (w : World) (i : nat) : Prop := is_Some (held (phase w i)).

Definition move (w : World) (i : nat) (p : Phase) (s : Store) : World :=
  mkWorld (w_now w) s (<[i := p]> (w_phase w)) (w_runs w ++ match p with Handling _ => [i] | _ => [] end)%list.

Definition CK (i : nat) : string := key_of (reqs i).
Definition HK (i : nat) : string := hash_of (reqs i).

(** A read that does not answer leads on. *)
Definition after_read (a : option Answer) (next : Phase) : Phase := match a with Some a => Done (Some a) | None => next end.

(** One command of one request, or time passing.  No handler outlives its lock. *)
Inductive step (w : World) : World -> Prop :=
| s_tick d : 0 < d ->
    (forall i since, held (phase w i) = Some since -> w_now w + d < since + lock_ttl_sec cfg * 1000) ->
    step w (mkWorld (w_now w + d) (w_store w) (w_phase w) (w_runs w))
| s_read i f a s : phase w i = Start ->
    read_phase f (CK i) (HK i) (w_now w) (w_store w) = (Ok a, s) -> step w (move w i (after_read a Locking) s)
| s_lock i f got s : phase w i = Locking ->
    lock_phase cfg f (CK i) (HK i) (w_now w) (w_store w) = (Ok got, s) ->
    step w (move w i (if got then Handling (w_now w) else Rereading) s)
| s_reread i f a s : phase w i = Rereading ->
    read_phase f (CK i) (HK i) (w_now w) (w_store w) = (Ok a, s) ->
    step w (move w i (after_read a (Done (Some (InProgress (Z.max 1 (lock_ttl_sec cfg)))))) s)
| s_finish i f resp since s : phase w i = Handling since ->
    store_phase cfg f (CK i) (HK i) resp (w_now w) (w_store w) = (Ok tt, s) -> step w (move w i (Releasing since) s)
| s_release i f since s : phase w i = Releasing since ->
    release_phase f (lock_key (CK i)) (HK i) (w_now w) (w_store w) = (Ok tt, s) -> step w (move w i (Done None) s).

Definition reachable (t : Z) (w : World) : Prop := rtc step (mkWorld t ∅ ∅ []) w.

(** The phases of one request, run at one moment, are [pre_handle] and [post_handle]. *)
Lemma pre_handle_phases f1 f2 f3 r now s :
  enabled cfg = true -> is_mutating (method r) = true -> idem_key r <> "" ->
  Z.of_nat (size (req_body r)) <= max_body_bytes cfg ->
  pre_handle cfg true f1 f2 f3 r now s =
    (first ← read_phase f1 (key_of r) (hash_of r) now;
     match first with
     | Some a => mret (Answered a)
     | None =>
         got ← lock_phase cfg f2 (key_of r) (hash_of r) now;
         match got with
         | true => mret (Tracked (key_of r) (hash_of r) (lock_key (key_of r)))
         | false =>
             again ← read_phase f3 (key_of r) (hash_of r) now;
             match again with
             | Some a => mret (Answered a)
             | None => mret (Answered (InProgress (Z.max 1 (lock_ttl_sec cfg))))
             end
         end
     end) s.
Proof.
  intros He Hm Hk Hb. unfold pre_handle. rewrite He, Hm, (proj2 (String.eqb_neq _ _) Hk). cbn [negb orb].
  by destruct (Z.ltb_spec (max_body_bytes cfg) (Z.of_nat (size (req_body r)))); [lia|].
Qed.

(** *** Exclusion *)

(** Keys that do not meet: no entry of one request is the lock of another. *)
Definition keys_apart : Prop := forall i j, CK i <> lock_key (CK j).

Definition locked (w : World) : Prop :=
  (forall i since, held (phase w i) = Some since ->
     w_store w !! lock_key (CK i) = Some (HK i, Some (since + lock_ttl_sec cfg * 1000)) /\
     since <= w_now w < since + lock_ttl_sec cfg * 1000) /\
  (forall i j, in_flight w i -> in_flight w j -> CK i = CK j -> i = j).

Lemma lock_key_inj ck ck' : lock_key ck = lock_key ck' -> ck = ck'.
Proof.
  unfold lock_key. revert ck'. induction ck as [|c ck IH]; intros [|c' ck'] E; cbn [String.append] in E.
  - done.
  - apply (f_equal size) in E. cbn in E. unfold size in E. cbn in E. fold (size (ck' +:+ ":lock")) in E.
    rewrite size_app in E. unfold size in E. cbn in E. lia.
  - apply (f_equal size) in E. unfold size in E. cbn in E. fold (size (ck +:+ ":lock")) in E.
    rewrite size_app in E. unfold size in E. cbn in E. lia.
  - injection E as -> E. by rewrite (IH _ E).
Qed.

(** [keeps K m]: the call leaves the key [K] alone. *)
Definition keeps {A} (K : string) (m : st Store A) : Prop := forall s, (m s).2 !! K = s !! K.

Lemma keeps_bind {A B} K (m : st Store A) (f : A -> st Store B) :
  keeps K m -> (forall a, keeps K (f a)) -> keeps K (m ≫= f).
Proof.
  intros Hm Hf s. rewrite st_bind_case. specialize (Hm s). destruct (m s) as [[a| |] s1]; cbn [snd] in *; [|done..].
  by rewrite (Hf a s1).
Qed.

Lemma keeps_set K f key v ttl now : K <> key -> keeps K (cache_set f key v ttl now).
Proof. intros HK s. unfold cache_set. destruct f; cbn [snd]; by rewrite ?lookup_insert_ne by congruence. Qed.

Lemma keeps_del K f key : K <> key -> keeps K (cache_del f key).
Proof. intros HK s. unfold cache_del. destruct f; cbn [snd]; by rewrite ?lookup_delete_ne by congruence. Qed.

(** Reading and storing touch the entry's key alone, locking and releasing the lock's. *)
Lemma keeps_read K f ck hash now : K <> ck -> keeps K (read_phase f ck hash now).
Proof.
  intros HK. unfold read_phase, read_stored_entry. apply keeps_bind.
  - apply keeps_bind; [done|]. intros [text|]; [|done]. destruct (json_parse text); [done|].
    by apply keeps_bind; [apply keeps_del|].
  - intros [j|]; [|done]. apply keeps_bind; [done|]. intros h. destruct (String.eqb h hash); [|done]. by apply keeps_bind.
Qed.

Lemma keeps_store K f ck hash resp now : K <> ck -> keeps K (store_phase cfg f ck hash resp now).
Proof.
  intros HK. unfold store_phase. destruct (_ || _); [done|]. destruct (_ <? _); [done|].
  destruct (json_dump _); [|done..]. by apply keeps_bind; [apply keeps_set|].
Qed.

Lemma keeps_lock K f ck hash now : K <> lock_key ck -> keeps K (lock_phase cfg f ck hash now).
Proof.
  intros HK s. unfold lock_phase, cache_set_nx. destruct (match live _ _ s with None => true | _ => false end);
    destruct f; cbn [snd]; by rewrite ?lookup_insert_ne by congruence.
Qed.

Lemma keeps_release K f lk owner now : K <> lk -> keeps K (release_phase f lk owner now).
Proof.
  intros HK s. unfold release_phase. destruct f; [case_bool_decide| |case_bool_decide]; cbn [snd];
    by rewrite ?lookup_delete_ne by congruence.
Qed.

Lemma phase_move w i p s j : phase (move w i p s) j = if decide (j = i) then p else phase w j.
Proof.
  unfold phase, move. cbn [w_phase]. destruct (decide (j = i)) as [->|Hj]; [by rewrite lookup_insert_eq|].
  by rewrite lookup_insert_ne by congruence.
Qed.

(** A move that leaves the lock of every other request in flight alone, and whose own request
    comes to hold its lock or holds none. *)
Lemma locked_move w i p s :
  locked w ->
  (forall j since, j <> i -> held (phase w j) = Some since -> s !! lock_key (CK j) = w_store w !! lock_key (CK j)) ->
  (forall since, held p = Some since ->
     s !! lock_key (CK i) = Some (HK i, Some (since + lock_ttl_sec cfg * 1000)) /\
     since <= w_now w < since + lock_ttl_sec cfg * 1000) ->
  (is_Some (held p) -> forall j, j <> i -> in_flight w j -> CK j <> CK i) ->
  locked (move w i p s).
Proof.
  intros [HL HU] Hs Hp Hx. split.
  - intros j since. rewrite phase_move. destruct (decide (j = i)) as [->|Hj]; [apply Hp|]. intros Hh.
    cbn [move w_store w_now]. rewrite (Hs j since Hj Hh). by apply HL.
  - intros j k. unfold in_flight. rewrite !phase_move.
    destruct (decide (j = i)) as [->|Hj], (decide (k = i)) as [->|Hk]; [done | | |].
    + intros Hi Hk' E. by destruct (Hx Hi k Hk Hk').
    + intros Hj' Hi E. by destruct (Hx Hi j Hj Hj').
    + by apply HU.
Qed.

(** The lock is taken only when nobody of the key is in flight. *)
Lemma lock_phase_spec w i f got s :
  locked w -> lock_phase cfg f (CK i) (HK i) (w_now w) (w_store w) = (Ok got, s) ->
  (forall j since, j <> i -> held (phase w j) = Some since -> s !! lock_key (CK j) = w_store w !! lock_key (CK j)) /\
  (got = true -> s !! lock_key (CK i) = Some (HK i, Some (w_now w + lock_ttl_sec cfg * 1000)) /\
     forall j, j <> i -> in_flight w j -> CK j <> CK i).
Proof.
  intros [HL _] E.
  assert (HB : forall j since, held (phase w j) = Some since -> CK j = CK i -> got = false /\ s = w_store w).
  { intros j since Hs HC. destruct (HL j since Hs) as [E1 E2]. rewrite HC in E1.
    unfold lock_phase, cache_set_nx, live in E. rewrite E1 in E.
    destruct (Z.leb_spec (since + lock_ttl_sec cfg * 1000) (w_now w)); [lia|]. destruct f; by injection E as <- <-. }
  split.
  - intros j since Hj Hs. destruct (decide (CK j = CK i)) as [HC|HC]; [by destruct (HB j since Hs HC) as [_ ->]|].
    change s with ((Ok got, s).2). rewrite <- E. apply keeps_lock. by intros ?%lock_key_inj.
  - intros ->. split.
    + unfold lock_phase, cache_set_nx in E. destruct f; [|discriminate..]. injection E as E <-. rewrite E. apply lookup_insert_eq.
    + intros j _ [since Hs] HC. by destruct (HB j since Hs HC).
Qed.

Lemma step_locked w w' : 0 < lock_ttl_sec cfg -> keys_apart -> locked w -> step w w' -> locked w'.
Proof.
  intros Httl HA HL H. destruct H as [d Hd Ht | i f a s Hi E | i f got s Hi E | i f a s Hi E | i f resp since s Hi E | i f since s Hi E].
  - destruct HL as [HL HU]. split; [|exact HU]. intros i since Hi. destruct (HL i since Hi). split; [done|].
    specialize (Ht i since Hi). cbn [w_now]. lia.
  - assert (HN : held (after_read a Locking) = None) by by destruct a. apply locked_move; [done | | by rewrite HN | rewrite HN; by intros []].
    intros j since Hj _. change s with ((Ok a, s).2). rewrite <- E. apply keeps_read. by apply not_eq_sym, HA.
  - destruct (lock_phase_spec w i f got s HL E) as [HF HC]. apply locked_move; [done | exact HF | |].
    + intros since. destruct got; [|discriminate]. intros [= <-]. split; [by apply HC | lia].
    + destruct got; [|by intros []]. intros _. by apply HC.
  - assert (HN : held (after_read a (Done (Some (InProgress (Z.max 1 (lock_ttl_sec cfg)))))) = None) by by destruct a.
    apply locked_move; [done | | by rewrite HN | rewrite HN; by intros []].
    intros j since Hj _. change s with ((Ok a, s).2). rewrite <- E. apply keeps_read. by apply not_eq_sym, HA.
  - destruct (proj1 HL i since) as [E1 E2]; [by rewrite Hi|].
    assert (HF : forall j, s !! lock_key (CK j) = w_store w !! lock_key (CK j)).
    { intros j. change s with ((Ok tt, s).2). rewrite <- E. apply keeps_store. by apply not_eq_sym, HA. }
    apply locked_move; [done | intros j since' _ _; apply HF | |].
    + intros since' [= <-]. by rewrite HF.
    + intros _ j Hj Hin HC. apply Hj, HL; [done | by exists since; rewrite Hi | done].
  - apply locked_move; [done | | done | by intros []].
    intros j since' Hj Hh. change s with ((Ok tt, s).2). rewrite <- E. apply keeps_release.
    intros HC%lock_key_inj. apply Hj, HL; [by exists since' | by exists since; rewrite Hi | done].
Qed.

(** C16: One handler at a time.  However the commands of the requests interleave and
    whichever of them fail or lose their reply, as long as no handler outlives its
    lock and no request's key is that of another followed by ":lock" (the name of the
    other's lock: [lock_is_an_entry] below), at no moment are two requests with one key (same caller, method, path and
    key) in their handlers or between handler and release, and the one that is holds
    an unexpired lock with its own digest. *)
Theorem handlers_exclude t w i j :
  0 < lock_ttl_sec cfg -> keys_apart -> reachable t w ->
  in_flight w i -> in_flight w j -> CK i = CK j ->
  i = j /\ live (lock_key (CK i)) (w_now w) (w_store w) = Some (HK i).
Proof.
  intros Httl HA HR Hi Hj HC. assert (HL : locked w).
  { revert HR. unfold reachable. intros HR. assert (H0 : locked (mkWorld t ∅ ∅ [])).
    { split; [by intros k since | by intros k k' []]. }
    induction HR as [|w1 w2 w3 H12 _ IH]; [done|]. by apply IH; [..|eapply step_locked]. }
  split; [by apply HL|]. destruct Hi as [since Hs]. destruct (proj1 HL i since Hs) as [E1 E2].
  unfold live. rewrite E1. destruct (Z.leb_spec (since + lock_ttl_sec cfg * 1000) (w_now w)); [lia | done].
Qed.

(** The lock does not close the race it is there for.  Of two identical requests
    that both read before either has stored, the one that takes the lock after the
    other has stored its success and released it does not look again: its handler
    runs too, with the first answer in the store, no command having failed and no
    lock having expired. *)
Theorem double_processing t resp :
  0 < lock_ttl_sec cfg -> 0 < ttl_sec cfg -> reqs 0%nat = reqs 1%nat -> storable cfg (HK 0) resp ->
  exists w, reachable t w /\ w_runs w = [0; 1]%nat /\ phase w 1 = Handling t /\ w_now w = t /\
    exists text, live (CK 1) t (w_store w) = Some text /\ json_dump (entry_of (HK 1) resp) = Ok text.
Proof.
  intros Hl Ht HE HS. assert (HC : CK 1 = CK 0) by (unfold CK; by rewrite HE).
  assert (HH : HK 1 = HK 0) by (unfold HK; by rewrite HE).
  set (lk := lock_key (CK 0)). set (S1 := <[lk := (HK 0, Some (t + lock_ttl_sec cfg * 1000))]> (∅ : Store)).
  destruct (store_phase_ok cfg (CK 0) (HK 0) resp t S1 HS Ht) as (text & ET & ES).
  set (S2 := <[CK 0 := (text, Some (t + ttl_sec cfg * 1000))]> S1) in ES.
  set (S3 := delete lk S2). set (S4 := <[lk := (HK 0, Some (t + lock_ttl_sec cfg * 1000))]> S3).
  assert (Hne : lk <> CK 0) by apply lock_key_ne.
  set (w0 := mkWorld t ∅ ∅ []). set (w1 := move w0 0 Locking ∅). set (w2 := move w1 1 Locking ∅).
  set (w3 := move w2 0 (Handling t) S1). set (w4 := move w3 0 (Releasing t) S2). set (w5 := move w4 0 (Done None) S3).
  set (w6 := move w5 1 (Handling t) S4).
  assert (Hread : forall i, read_phase NoFault (CK i) (HK i) t ∅ = (Ok None, ∅)) by done.
  assert (E1 : step w0 w1) by by apply (s_read w0 0 NoFault None).
  assert (E2 : step w1 w2) by by apply (s_read w1 1 NoFault None).
  assert (E3 : step w2 w3) by by apply (s_lock w2 0 NoFault true).
  assert (E4 : step w3 w4) by (apply (s_finish w3 0 NoFault resp t); [done | exact ES]).
  assert (E5 : step w4 w5).
  { apply (s_release w4 0 NoFault t); [done|]. unfold release_phase, live. cbn [w4 move w_store w_now w3 w2 w1 w0].
    unfold S2. rewrite lookup_insert_ne by apply not_eq_sym, lock_key_ne. unfold S1. rewrite lookup_insert_eq.
    destruct (Z.leb_spec (t + lock_ttl_sec cfg * 1000) t); [lia|]. by rewrite bool_decide_true. }
  assert (E6 : step w5 w6).
  { apply (s_lock w5 1 NoFault true); [done|]. unfold lock_phase, cache_set_nx, live. rewrite HC, HH. fold lk.
    cbn [w5 w4 move w_store w_now w3 w2 w1 w0]. unfold S3 at 1 2. by rewrite lookup_delete_eq. }
  exists w6. split; [repeat (eapply rtc_l; [eassumption|]); apply rtc_refl|]. split; [done|]. split; [done|]. split; [done|].
  exists text. rewrite HC, HH. split; [|exact ET]. unfold live. cbn [w6 move w_store]. unfold S4, S3, S2.
  rewrite lookup_insert_ne, lookup_delete_ne, lookup_insert_eq by exact Hne.
  destruct (Z.leb_spec (t + ttl_sec cfg * 1000) t); [lia | done].
Qed.

End System.

(** A key with ":lock" at its end is the lock of the key without: the requests that carry them
    read each other's entry and lock. *)
Lemma lock_is_an_entry r k :
  lock_key (key_of (mkRequest (method r) (path r) k (req_body r) (subject r) (peer_ip r))) =
  key_of (mkRequest (method r) (path r) (k +:+ ":lock") (req_body r) (subject r) (peer_ip r)).
Proof.
  unfold lock_key, key_of, cache_key, principal_of. cbn [method path idem_key subject peer_ip]. by rewrite !str_app_assoc.
Qed.

(** ** Callers apart *)

Definition not_colon (c : ascii) : bool := negb (Ascii.eqb c ":").

(** Text as it stands for an address, IPv4 or IPv6. *)
Definition address_char (c : ascii) : bool := hex_digit c || Ascii.eqb c ":" || Ascii.eqb c ".".

(** A subject: an identifier in the usual form, with no colon, which no address begins with. *)
Definition well_named (r : Request) : Prop :=
  (forall p, subject r = Some p -> str_all not_colon p = true) /\ str_all address_char (peer_ip r) = true.

(** Text of one alphabet up to the first character outside it. *)
Lemma span_inj (p : ascii -> bool) a b c d s t :
  str_all p a = true -> str_all p b = true -> p c = false -> p d = false ->
  a +:+ String c s = b +:+ String d t -> a = b /\ String c s = String d t.
Proof.
  intros Ha Hb Hc Hd. revert b Hb. induction a as [|x a IH]; intros [|y b] Hb E; cbn [String.append str_all] in *.
  - done.
  - injection E as -> _. by rewrite Hc in Hb.
  - injection E as -> _. by rewrite Hd in Ha.
  - injection E as -> E. apply andb_true_iff in Ha as [_ Ha], Hb as [_ Hb].
    destruct (IH Ha b Hb E) as [-> ->]. done.
Qed.

Lemma colon_inj a b s t :
  str_all not_colon a = true -> str_all not_colon b = true -> a +:+ String ":" s = b +:+ String ":" t -> a = b /\ s = t.
Proof. intros Ha Hb E. destruct (span_inj not_colon a b ":" ":" s t Ha Hb eq_refl eq_refl E) as [-> [= ->]]. done. Qed.

Lemma capital_facts c : capital c = true -> address_char c = false /\ not_colon c = true.
Proof.
  unfold capital, address_char, not_colon, hex_digit, is_digit. intros H.
  destruct (Ascii.eqb_spec c ":") as [->|]; [by vm_compute in H|]. destruct (Ascii.eqb_spec c ".") as [->|]; [by vm_compute in H|].
  split; [|done]. lia.
Qed.

Lemma method_no_colon m : str_all not_colon (method_string m) = true.
Proof.
  destruct (method_capital m) as (c & r & -> & H). eapply str_all_impl; [|exact H]. by intros x [_ ?]%capital_facts.
Qed.

Lemma sha_no_colon s : str_all not_colon (sha256_hex s) = true.
Proof.
  eapply str_all_impl; [|apply sha256_shape]. intros c. unfold not_colon, hex_digit, is_digit.
  destruct (Ascii.eqb_spec c ":") as [->|]; [by vm_compute | done].
Qed.

(** What follows the principal. *)
Lemma tail_inj m pth k m' pth' k' :
  method_string m +:+ ":" +:+ sha256_hex pth +:+ ":" +:+ k = method_string m' +:+ ":" +:+ sha256_hex pth' +:+ ":" +:+ k' ->
  method_string m = method_string m' /\ sha256_hex pth = sha256_hex pth' /\ k = k'.
Proof.
  cbn [String.append]. intros E. apply colon_inj in E as [-> E]; [|apply method_no_colon..].
  apply colon_inj in E as [-> ->]; [done | apply sha_no_colon..].
Qed.

Lemma anon_inj ip ip' x y :
  str_all address_char ip = true -> str_all address_char ip' = true ->
  (exists c s, x = String c s /\ capital c = true) -> (exists c s, y = String c s /\ capital c = true) ->
  ip +:+ String ":" x = ip' +:+ String ":" y -> ip = ip' /\ x = y.
Proof.
  intros Hi Hi' (c & s & -> & Hc) (d & t & -> & Hd) E.
  change (ip +:+ (":" +:+ String c s) = ip' +:+ (":" +:+ String d t)) in E. rewrite <- !str_app_assoc in E.
  destruct (span_inj address_char (ip +:+ ":") (ip' +:+ ":") c d s t) as [E1 E2];
    [by rewrite str_all_app, Hi | by rewrite str_all_app, Hi' | by apply capital_facts | by apply capital_facts | exact E|].
  split; [|exact E2]. apply (f_equal str_rev) in E1. rewrite !str_rev_app in E1. apply str_app_inj_l in E1.
  by rewrite <- (str_rev_involutive ip), E1, str_rev_involutive.
Qed.

(** The key behind the principal begins with the name of the method. *)
Definition tail_of (r : Request) : string :=
  method_string (method r) +:+ ":" +:+ sha256_hex (path r) +:+ ":" +:+ idem_key r.

Lemma tail_capital r : exists c s, tail_of r = String c s /\ capital c = true.
Proof.
  unfold tail_of. destruct (method_capital (method r)) as (c & z & -> & [Hc _]%andb_true_iff).
  by eexists c, _.
Qed.

Lemma principal_shape r : well_named r ->
  str_all not_colon (principal_of r) = true \/
  principal_of r = "anon:" +:+ peer_ip r /\ str_all address_char (peer_ip r) = true.
Proof.
  intros [Hs Hi]. unfold principal_of. destruct (subject r) as [p|]; [destruct (String.eqb p "")|]; [by right | left; by apply Hs | by right].
Qed.

Lemma anon_not_named p ip x y :
  str_all not_colon p = true -> str_all address_char ip = true -> (exists c s, x = String c s /\ capital c = true) ->
  p +:+ String ":" x <> ("anon:" +:+ ip) +:+ String ":" y.
Proof.
  intros Hp Hi (c & s & -> & Hc) E. change (p +:+ String ":" (String c s) = "anon" +:+ String ":" (ip +:+ String ":" y)) in E.
  apply colon_inj in E as [_ E]; [|done..]. destruct (capital_facts c Hc) as [H1 H2].
  destruct ip as [|d ip]; cbn [String.append] in E; injection E as -> _; [done|]. cbn [str_all] in Hi. by rewrite H1 in Hi.
Qed.

(** Callers are kept apart.  Two requests share an entry only if they come from
    the same caller (the same subject, or both anonymous from the same address),
    with the same method, the same digest of the path and the same key, whatever
    characters the key holds, provided subjects hold no colon. *)
Theorem callers_isolated r r' :
  well_named r -> well_named r' -> key_of r = key_of r' ->
  principal_of r = principal_of r' /\ method_string (method r) = method_string (method r') /\
  sha256_hex (path r) = sha256_hex (path r') /\ idem_key r = idem_key r'.
Proof.
  intros Hw Hw' E. unfold key_of, cache_key in E.
  change (("idemp:" +:+ (principal_of r +:+ String ":" (tail_of r))) = ("idemp:" +:+ (principal_of r' +:+ String ":" (tail_of r')))) in E.
  apply str_app_inj_l in E. destruct (tail_capital r) as (c & z & Hc & Hz), (tail_capital r') as (c' & z' & Hc' & Hz').
  enough (principal_of r = principal_of r' /\ tail_of r = tail_of r') as [-> ?%tail_inj] by done.
  assert (HX : exists c s, tail_of r = String c s /\ capital c = true) by eauto.
  assert (HX' : exists c s, tail_of r' = String c s /\ capital c = true) by eauto. clear Hc Hz Hc' Hz'.
  destruct (principal_shape r Hw) as [HP | [HP Hi]], (principal_shape r' Hw') as [HP' | [HP' Hi']].
  - by apply colon_inj.
  - rewrite HP' in E. by destruct (anon_not_named _ _ _ _ HP Hi' HX E).
  - rewrite HP in E. symmetry in E. by destruct (anon_not_named _ _ _ _ HP' Hi HX' E).
  - rewrite HP, HP' in *.
    change ("anon:" +:+ (peer_ip r +:+ String ":" (tail_of r)) = "anon:" +:+ (peer_ip r' +:+ String ":" (tail_of r'))) in E.
    apply str_app_inj_l in E. by destruct (anon_inj _ _ _ _ Hi Hi' HX HX' E) as [-> ->].
Qed.

End Middleware.

(** ** The middleware at work *)

(** A digest that keeps the length of a text modulo sixteen. *)
Definition nibble (n : nat) : ascii := default "0"%char (String.get n "0123456789abcdef").
Fixpoint zeros (n : nat) (tail : string) : string := match n with O => tail | S k => String "0" (zeros k tail) end.
Definition toy_digest (s : string) : string := zeros 63 (String (nibble (Nat.modulo (size s) 16)) "").

#[refine, export] Instance toy_platform : Platform := {
  sha256_hex := toy_digest;
  method_string m := match m with
    | Get => "GET" | Head => "HEAD" | Post => "POST" | Put => "PUT" | Delete => "DELETE" | Patch => "PATCH"
    | Options => "OPTIONS" end
}.
Proof.
  - intros s. unfold toy_digest. pose proof (Nat.mod_upper_bound (size s) 16 ltac:(lia)) as H.
    revert H. generalize (Nat.modulo (size s) 16). intros n Hn. do 16 (destruct n as [|n]; [by vm_compute|]). lia.
  - intros []; by eexists _, _.
Defined.

Definition settings : Config := mkConfig true 86400 1048576 262144 30.
Definition payment (b : string) : Request := mkRequest Post "/api/v1/journal" "k1" b (Some "u1") "10.0.0.1".
Definition created : Response := mkResponse 201 "" [("Location", "/api/v1/journal/7"); ("Date", "now")] [] "ok".

Lemma created_storable h : utf8 h = true -> storable settings h created.
Proof.
  intros Hh. split; [cbn; lia|]. split; [by vm_compute|]. split; [repeat constructor; set_solver|].
  unfold entry_of. cbn [clean forallb fst snd]. rewrite Hh. reflexivity.
Qed.

Definition after_first : Store := (post_handle settings true NoFault NoFault
  (Tracked (key_of (payment "a")) (hash_of (payment "a")) (lock_key (key_of (payment "a")))) created 0 ∅).2.

(** The cookies of a first answer, such as those of a login, are not in its replay. *)
Example cookies_lost : make_replay_response (entry_of "h" (mkResponse 200 "" [("X-A", "1")] [("__Host-access", "t")] "ok")) =
  Ok (mkResponse 200 "application/json" [("X-A", "1"); ("X-Idempotent-Replayed", "true")] [] "ok").
Proof. reflexivity. Qed.

Lemma retry_is_replayed_witness :
  exists s, (exists again, pre_handle settings true NoFault NoFault NoFault (payment "a") 5000 s = (Ok (Answered (Replayed again)), s) /\
    replays created again) /\
    pre_handle settings true NoFault NoFault NoFault (payment "bb") 5000 s = (Ok (Answered KeyConflict), s).
Proof.
  exists after_first.
  destruct (retry_is_replayed settings (payment "a") (hash_of (payment "a")) created (payment "a") ∅ after_first 0 5000)
    as (a1 & E1 & H1); [done | done | by apply created_storable | done | done | done | done | cbn; lia | reflexivity |].
  destruct (retry_is_replayed settings (payment "a") (hash_of (payment "a")) created (payment "bb") ∅ after_first 0 5000)
    as (a2 & E2 & H2); [done | done | by apply created_storable | done | done | done | done | cbn; lia | reflexivity |].
  rewrite String.eqb_refl in H1. destruct H1 as (again & -> & HR).
  replace (String.eqb (hash_of (payment "a")) (hash_of (payment "bb"))) with false in H2 by reflexivity. rewrite H2 in E2.
  split; [by exists again | exact E2].
Defined.

Lemma double_processing_witness :
  exists w, reachable settings (fun _ => payment "a") 0 w /\ w_runs w = [0; 1]%nat.
Proof.
  destruct (double_processing settings (fun _ => payment "a") 0 created) as (w & HR & E & _);
    [done | done | done | by apply created_storable | by exists w].
Defined.

Lemma handlers_exclude_witness :
  exists w, reachable settings (fun _ => payment "a") 0 w /\ in_flight w 0 /\
    live (lock_key (key_of (payment "a"))) (w_now w) (w_store w) = Some (hash_of (payment "a")).
Proof.
  assert (HR : exists w, reachable settings (fun _ => payment "a") 0 w /\ in_flight w 0).
  { eexists. split.
    - eapply rtc_l; [by apply (s_read _ _ _ 0%nat NoFault None ∅)|].
      eapply rtc_l; [by apply (s_lock _ _ _ 0%nat NoFault true)|]. apply rtc_refl.
    - by eexists. }
  destruct HR as (w & HR & Hf). exists w. split; [exact HR|]. split; [exact Hf|].
  apply (handlers_exclude settings (fun _ => payment "a") 0 w 0%nat 0%nat); [done | | exact HR | exact Hf | exact Hf | done].
  intros i j. apply not_eq_sym, lock_key_ne.
Defined.

Lemma callers_isolated_witness :
  key_of (payment "a") = key_of (payment "b") /\ principal_of (payment "a") = principal_of (payment "b").
Proof.
  split; [reflexivity|].
  apply (callers_isolated (payment "a") (payment "b")); [| |reflexivity];
    (split; [by intros p [= <-] | reflexivity]).
Defined.

End Idempotency.
