(* ===== verification/Templates.v ===== *)
(** * Document templates

    src/docgen/TemplateRegistry.hpp (the templates on disk, and the filling of the
    fields a caller omitted), src/docgen/DocumentTemplateRepository.hpp with the
    trigger of migrations/028_template_cascade_carveout.sql (the templates of
    organizations), the handlers of src/api/TemplatesController.hpp, the publishing
    job of src/docgen/PublishJob.hpp and the rendering both kinds go through
    (src/docgen/RenderJob.hpp).  The Typst engine and the JSON-schema validator are
    an interface. *)
From Stdlib Require Import ZArith Lia Ascii String.
From stdpp Require Import relations sorting.
From S2P Require Import Prelude Money JournalDb Json BlockCompiler Threads Agent Requests.
Import Json Threads Http.
Open Scope string_scope.
Open Scope Z_scope.
Set Warnings "-clear-no-such-hyp".

(** What is outside: the validator of JSON schemas, and the Typst binary (its answer
    may differ from run to run). *)
Class Renderer := {
  schema_error : json -> json -> option string;
  typst_compile : nat -> string -> json -> option string
}.

(** ** Templates on disk *)

Module Registry.

(** [TemplateInfo]: src/docgen/TemplateRegistry.hpp:55-63. *)
Record TemplateInfo := mkInfo { slug : string; version : Z; version_str : string; source : string; schema : json }.

(** A [vN] directory: its [template.typ], and its [schema.json] when it parses. *)
Record VersionDir := mkDir { template_typ : option string; schema_json : option (option json) }.

(** The tree below the root: a slug's entries in the order the directory lists them,
    [None] for one that is not a directory. *)
Abbreviation Tree := (gmap string (list (string * option VersionDir))).

Definition lower (c : ascii) : bool := (97 <=? Prelude.code c) && (Prelude.code c <=? 122).

(** [is_valid_slug]: src/docgen/TemplateRegistry.hpp:186-197. *)
Definition is_valid_slug (s : string) : bool :=
  match s with
  | EmptyString => false
  | String c _ => lower c && str_all (fun c => lower c || is_digit c || Ascii.eqb c "_" || Ascii.eqb c "-") s
  end.

(** [parse_version]: src/docgen/TemplateRegistry.hpp:341-353. *)
Definition parse_version (name : string) : option Z :=
  match name with
  | String c (String d r) =>
      if Ascii.eqb c "v" && str_all is_digit (String d r) then
        match stoi (String d r) with Ok n => Some n | _ => None end
      else None
  | _ => None
  end.

(** [latest]: src/docgen/TemplateRegistry.hpp:99-109. *)
Fixpoint best (entries : list (string * option VersionDir)) (best_version : Z) (found : option (string * VersionDir))
    : Z * option (string * VersionDir) :=
  match entries with
  | [] => (best_version, found)
  | (name, Some d) :: r =>
      match parse_version name with
      | Some v => if best_version <? v then best r v (Some (name, d)) else best r best_version found
      | None => best r best_version found
      end
  | (_, None) :: r => best r best_version found
  end.

(** [load]: src/docgen/TemplateRegistry.hpp:355-381. *)
Definition load (s version_str : string) (v : Z) (d : VersionDir) : outcome TemplateInfo :=
  match template_typ d with
  | None => Throw (Exn std_runtime_error ("template registry: missing template.typ for " +:+ s +:+ "/" +:+ version_str))
  | Some src =>
      match schema_json d with
      | None => Throw (Exn std_runtime_error ("template registry: missing schema.json for " +:+ s +:+ "/" +:+ version_str))
      | Some None =>
          Throw (Exn std_runtime_error ("template registry: malformed schema.json for " +:+ s +:+ "/" +:+ version_str))
      | Some (Some sch) => Ok (mkInfo s v version_str src sch)
      end
  end.

(** [latest]: src/docgen/TemplateRegistry.hpp:90-114. *)
Definition latest (tree : Tree) (s : string) : outcome (option TemplateInfo) :=
  if negb (is_valid_slug s) then Ok None
  else match tree !! s with
       | None => Ok None
       | Some entries =>
           match best entries (-1) None with
           | (v, Some (name, d)) => info ← load s name v d; Ok (Some info)
           | (_, None) => Ok None
           end
       end.

(** [list]: src/docgen/TemplateRegistry.hpp:167-171. *)
Fixpoint latest_of (tree : Tree) (slugs : list string) : outcome (list TemplateInfo) :=
  match slugs with
  | [] => Ok []
  | s :: r =>
      info ← latest tree s;
      rest ← latest_of tree r;
      Ok (match info with Some i => i :: rest | None => rest end)
  end.

(** [list]: src/docgen/TemplateRegistry.hpp:149-172. *)
Definition list_ (tree : Tree) : outcome (list TemplateInfo) :=
  latest_of tree (stable_sort String.ltb (List.filter is_valid_slug (map fst (map_to_list tree)))).

(** [resolve_ref]: src/docgen/TemplateRegistry.hpp:274-285. *)
Definition resolve_ref (root node : json) : outcome json :=
  match member "$ref" node with
  | None => Ok node
  | Some (JString ref) =>
      if String.eqb (str_take 14 ref) "#/definitions/" then
        match member "definitions" root with
        | Some defs => Ok (match member (str_drop 14 ref) defs with Some n => n | None => node end)
        | None => Ok node
        end
      else Ok node
  | Some _ => type_error
  end.

(** The walk of a schema with references need not end: [None] is running out of fuel. *)
Definition walked (A : Type) : Type := option (outcome A).
Definition wbind {A B} (m : walked A) (f : A -> walked B) : walked B :=
  match m with
  | None => None
  | Some (Ok a) => f a
  | Some (Throw e) => Some (Throw e)
  | Some Undef => Some Undef
  end.

(** [fill_object]: src/docgen/TemplateRegistry.hpp:325-333. *)
Fixpoint fill_props (default_for : json -> walked json) (fill : json -> json -> walked json)
    (props : list (string * json)) (value : list (string * json)) : walked (list (string * json)) :=
  match props with
  | [] => Some (Ok value)
  | (key, sub) :: rest =>
      match obj_get key value with
      | None => wbind (default_for sub) (fun v => fill_props default_for fill rest (obj_set key v value))
      | Some (JObject o) =>
          wbind (fill sub (JObject o)) (fun v => fill_props default_for fill rest (obj_set key v value))
      | Some _ => fill_props default_for fill rest value
      end
  end.

(** [default_for]: src/docgen/TemplateRegistry.hpp:297-314. *)
Definition default_for (fill_object : json -> json -> walked json) (root node_in : json) : walked json :=
  wbind (Some (resolve_ref root node_in)) (fun node =>
    wbind (Some (value_string "type" "" node)) (fun type =>
      if String.eqb type "object" then fill_object node (JObject [])
      else if String.eqb type "array" then Some (Ok (JArray []))
      else if String.eqb type "string" then Some (Ok (JString ""))
      else Some (Ok JNull))).

(** [fill_object]: src/docgen/TemplateRegistry.hpp:321-335. *)
Fixpoint fill_object (fuel : nat) (root node_in value : json) : walked json :=
  match fuel with
  | O => None
  | S fuel' =>
      let fill := fill_object fuel' root in
      wbind (Some (resolve_ref root node_in)) (fun node =>
        match value, member "properties" node with
        | JObject l, Some (JObject props) =>
            wbind (fill_props (default_for fill root) fill props l) (fun l' => Some (Ok (JObject l')))
        | _, _ => Some (Ok value)
        end)
  end.

(** [normalize_input]: src/docgen/TemplateRegistry.hpp:253-257. *)
Definition normalize_input (fuel : nat) (sch input : json) : walked json :=
  match input with JObject _ => fill_object fuel sch sch input | _ => Some (Ok input) end.

(** ** The filling of omitted fields *)

(** A path of properties a schema declares, through its definitions. *)
Inductive on_schema (root : json) : json -> list string -> Prop :=
| on_here node : on_schema root node []
| on_member node n' props k sub ks :
    resolve_ref root node = Ok n' -> member "properties" n' = Some (JObject props) -> (k, sub) ∈ props ->
    on_schema root sub ks -> on_schema root node (k :: ks).

(** The value has every member on the path, as far as it is made of objects. *)
Fixpoint holds (v : json) (ks : list string) : Prop :=
  match ks with
  | [] => True
  | k :: r => exists w, member k v = Some w /\ (is_object w = true -> holds w r)
  end.

(** References lead to definitions that are not references. *)
Definition flat (root : json) : Prop :=
  forall defs k n, member "definitions" root = Some defs -> member k defs = Some n -> member "$ref" n = None.

(** Nothing of [v] is lost in [v']: the values are the same, the objects still objects. *)
Definition same (w w' : json) : Prop := if is_object w then is_object w' = true else w' = w.
Definition grows (v v' : json) : Prop :=
  forall ks w, walk v ks = Some w -> exists w', walk v' ks = Some w' /\ same w w'.

Lemma same_refl w : same w w.
Proof. unfold same. by destruct (is_object w) eqn:E. Qed.

Lemma same_trans u v w : same u v -> same v w -> same u w.
Proof. unfold same. destruct (is_object u) eqn:Eu; [intros ->; done|]. intros ->. by rewrite Eu. Qed.

#[local] Instance grows_preorder : PreOrder grows.
Proof.
  split; [intros v ks w H; exists w; split; [done | apply same_refl]|].
  intros u v w H1 H2 ks x Hx. destruct (H1 _ _ Hx) as (y & Hy & S1), (H2 _ _ Hy) as (z & Hz & S2).
  exists z. split; [done | by eapply same_trans].
Qed.

Lemma grows_object v v' : grows v v' -> is_object v = true -> is_object v' = true.
Proof. intros H E. destruct (H [] v eq_refl) as (w & [= <-] & S). unfold same in S. by rewrite E in S. Qed.

Lemma grows_leaf v : is_object v = false -> grows v v.
Proof. reflexivity. Qed.

Lemma grows_member k v v' w : grows v v' -> member k v = Some w -> exists w', member k v' = Some w' /\ grows w w'.
Proof.
  intros H E. destruct (H [k] w) as (w' & E' & _). { cbn [walk]. by rewrite E. }
  cbn [walk] in E'. destruct (member k v') as [x|] eqn:Ex; [|done]. injection E' as ->. exists w'. split; [done|].
  intros ks y Hy. destruct (H (k :: ks) y) as (z & Hz & S). { cbn [walk]. by rewrite E. }
  cbn [walk] in Hz. rewrite Ex in Hz. by exists z.
Qed.

Lemma grows_not_object v v' : grows v v' -> is_object v' = true -> is_object v = true.
Proof.
  intros H E. destruct (H [] v eq_refl) as (w & [= <-] & S). unfold same in S. destruct (is_object v) eqn:Ev; [done|].
  subst. congruence.
Qed.

Lemma holds_grows ks : forall v v', grows v v' -> holds v ks -> holds v' ks.
Proof.
  induction ks as [|k r IH]; intros v v' H; cbn [holds]; [done|]. intros (w & E & Hw).
  destruct (grows_member _ _ _ _ H E) as (w' & E' & Hg). exists w'. split; [done|]. intros Ho.
  by apply (IH w), Hw, (grows_not_object w w').
Qed.

(** Setting a member that is new, or to something grown from what was there. *)
Lemma grows_set k v l :
  (forall w, obj_get k l = Some w -> grows w v) -> grows (JObject l) (JObject (obj_set k v l)).
Proof.
  intros H [|q r] w; cbn [walk].
  { intros [= <-]. by exists (JObject (obj_set k v l)). }
  cbn [member]. rewrite obj_get_set. destruct (String.eqb_spec q k) as [->|Hne].
  - destruct (obj_get k l) as [x|] eqn:E; [|done]. intros Hw. by apply (H x).
  - intros Hw. exists w. split; [done | apply same_refl].
Qed.

Lemma wbind_ok {A B} (m : walked A) (f : A -> walked B) b :
  wbind m f = Some (Ok b) -> exists a, m = Some (Ok a) /\ f a = Some (Ok b).
Proof. destruct m as [[a| |]|]; try discriminate. by exists a. Qed.

Section Filled.
Context (root : json) (Hflat : flat root).

Lemma resolve_twice node n' : resolve_ref root node = Ok n' -> resolve_ref root n' = Ok n'.
Proof.
  unfold resolve_ref at 1. destruct (member "$ref" node) as [[| | |ref| |]|] eqn:E; try discriminate.
  - destruct (String.eqb (str_take 14 ref) "#/definitions/") eqn:E1; [|intros [= <-]; unfold resolve_ref; by rewrite E, E1].
    destruct (member "definitions" root) as [defs|] eqn:E2; [|intros [= <-]; unfold resolve_ref; by rewrite E, E1, E2].
    destruct (member (str_drop 14 ref) defs) as [n|] eqn:E3; intros [= <-].
    + unfold resolve_ref. by rewrite (Hflat defs _ _ E2 E3).
    + unfold resolve_ref. by rewrite E, E1, E2, E3.
  - intros [= <-]. unfold resolve_ref. by rewrite E.
Qed.

Lemma on_schema_resolved node n' ks : resolve_ref root node = Ok n' -> on_schema root node ks <-> on_schema root n' ks.
Proof.
  intros E. pose proof (resolve_twice _ _ E) as E2.
  split; (intros H; destruct H as [|? n'' props k sub ks' Hr Hp Hk Ho]; [constructor|]); econstructor; try eassumption; congruence.
Qed.

(** What a filling of the value [v] to [v'] for a node must do. *)
Definition fills (node v v' : json) : Prop :=
  grows v v' /\ (is_object v = true -> forall ks, on_schema root node ks -> holds v' ks).

Lemma default_fills fill node v' :
  (forall n v v', fill n v = Some (Ok v') -> fills n v v') ->
  default_for fill root node = Some (Ok v') ->
  is_object v' = true -> forall ks, on_schema root node ks -> holds v' ks.
Proof.
  intros Hf Hd Ho ks Hk. unfold default_for in Hd. apply wbind_ok in Hd as (n & Er & Hd). injection Er as Er.
  apply wbind_ok in Hd as (t & _ & H).
  repeat case_match; try (injection H as <-; discriminate).
  apply (on_schema_resolved _ _ _ Er) in Hk. by apply (Hf _ _ _ H).
Qed.

Lemma props_fill default fill props : forall l l',
  (forall n v', default n = Some (Ok v') -> is_object v' = true -> forall ks, on_schema root n ks -> holds v' ks) ->
  (forall n v v', fill n v = Some (Ok v') -> fills n v v') ->
  fill_props default fill props l = Some (Ok l') ->
  grows (JObject l) (JObject l') /\
  forall k sub ks, (k, sub) ∈ props -> on_schema root sub ks -> holds (JObject l') (k :: ks).
Proof.
  induction props as [|[key sub] props IH]; intros l l' Hd Hf; cbn [fill_props].
  { intros [= <-]. split; [reflexivity|]. by intros k sub ks ?%elem_of_nil. }
  assert (forall v m, grows (JObject l) (JObject m) -> obj_get key m = Some v ->
    (forall ks, is_object v = true -> on_schema root sub ks -> holds v ks) ->
    fill_props default fill props m = Some (Ok l') ->
    grows (JObject l) (JObject l') /\
    forall k sub0 ks, (k, sub0) ∈ (key, sub) :: props -> on_schema root sub0 ks -> holds (JObject l') (k :: ks)) as Hnext.
  { intros v m Hg Hm Hv H. destruct (IH _ _ Hd Hf H) as [Hg2 Hr]. split; [by etrans|].
    intros k sub0 ks [[= -> ->]|Hin]%elem_of_cons Ho; [|by eapply Hr].
    apply (holds_grows _ _ _ Hg2). cbn [holds member]. exists v. split; [done|]. intros. by apply Hv. }
  destruct (obj_get key l) as [[| | | | |o]|] eqn:E; try (intros H; eapply (Hnext _ l); [reflexivity | exact E | by intros | exact H]).
  - intros (v & Hv & H)%wbind_ok. destruct (Hf _ _ _ Hv) as [Hg Hh].
    apply (Hnext v (obj_set key v l)); [| by rewrite obj_get_set, String.eqb_refl | intros; by apply Hh | done].
    apply grows_set. rewrite E. by intros w [= <-].
  - intros (v & Hv & H)%wbind_ok.
    apply (Hnext v (obj_set key v l)); [| by rewrite obj_get_set, String.eqb_refl | intros; by apply (Hd _ _ Hv) | done].
    apply grows_set. rewrite E. by intros w [=].
Qed.

Lemma fill_fills n : forall node v v', fill_object n root node v = Some (Ok v') -> fills node v v'.
Proof.
  induction n as [|n IH]; intros node v v'; cbn [fill_object]; [done|].
  intros H0. apply wbind_ok in H0 as (n' & Er & H). injection Er as Er.
  assert (v' = v -> (forall l, member "properties" n' = Some (JObject l) -> is_object v = false) -> fills node v v') as Hsame.
  { intros -> Hp. split; [reflexivity|]. intros Ho ks Hk. destruct Hk as [|? n'' props k sub ks' Hr Hm _ _]; [done|].
    rewrite Er in Hr. injection Hr as <-. by rewrite (Hp _ Hm) in Ho. }
  destruct v as [| | | | |l]; try (injection H as <-; by apply Hsame).
  destruct (member "properties" n') as [[| | | | |props]|] eqn:Ep; try (injection H as <-; apply Hsame; [done | congruence]).
  apply wbind_ok in H as (l' & H & [= <-]).
  destruct (props_fill _ _ _ _ _ (fun node v' => default_fills _ node v' IH) IH H) as [Hg Hh].
  split; [done|]. intros _ ks Hk. destruct Hk as [|? n'' props' k sub ks' Hr Hm Hin Ho]; [done|].
  rewrite Er in Hr. injection Hr as <-. rewrite Ep in Hm. injection Hm as <-. by eapply Hh.
Qed.

End Filled.

(** The filling completes the input and changes nothing in it.  When a schema's
    references lead to definitions that are no references themselves, the normalized
    input has every member on every path of properties the schema declares (as far as
    the caller's own values are objects), every value the caller sent is still there
    unchanged, and every object still an object. *)
Theorem normalize_completes fuel sch l v :
  flat sch -> normalize_input fuel sch (JObject l) = Some (Ok v) ->
  grows (JObject l) v /\ forall ks, on_schema sch sch ks -> holds v ks.
Proof. intros Hf H. destruct (fill_fills sch Hf fuel _ _ _ H) as [Hg Hh]. split; [done|]. by apply Hh. Qed.

(** ** Compiled templates *)

Lemma plain_resolves root v : Blocks.plain v -> resolve_ref root v = Ok v.
Proof. intros (H & _). unfold resolve_ref. by rewrite H. Qed.

Lemma plain_default fill root v : Blocks.plain v -> exists w, default_for fill root v = Some (Ok w).
Proof.
  intros Hp. unfold default_for. rewrite (plain_resolves _ _ Hp). cbn [wbind]. destruct Hp as (_ & _ & t & Ht & Hin).
  destruct v as [| | | | |l]; try discriminate. cbn [member] in Ht. unfold value_string, value. rewrite Ht. cbn [wbind].
  rewrite !elem_of_cons, elem_of_nil in Hin. destruct Hin as [->|[->|[->|[]]]]; by eexists.
Qed.

Lemma plain_fill n root v o : Blocks.plain v -> fill_object (S n) root v (JObject o) = Some (Ok (JObject o)).
Proof. intros Hp. cbn [fill_object]. rewrite (plain_resolves _ _ Hp). cbn [wbind]. destruct Hp as (_ & -> & _). done. Qed.

Lemma fill_object_S n root node l : fill_object (S n) root node (JObject l) =
  wbind (Some (resolve_ref root node)) (fun node' =>
    match member "properties" node' with
    | Some (JObject props) =>
        wbind (fill_props (default_for (fill_object n root) root) (fill_object n root) props l)
          (fun l' => Some (Ok (JObject l')))
    | _ => Some (Ok (JObject l))
    end).
Proof. done. Qed.

Lemma plain_props n root props : Forall (fun e => Blocks.plain e.2) props -> forall l,
  exists l', fill_props (default_for (fill_object (S n) root) root) (fill_object (S n) root) props l = Some (Ok l').
Proof.
  induction 1 as [|[k sub] props Hp _ IH]; intros l; cbn [fill_props]; [by eexists|]. cbn [snd] in Hp.
  destruct (obj_get k l) as [[| | | | |o]|]; try apply IH.
  - rewrite (plain_fill n root sub o Hp). apply IH.
  - destruct (plain_default (fill_object (S n) root) root sub Hp) as [w ->]. apply IH.
Qed.

(** A compiled template is never short of data.  For every list of blocks that
    compiles and every object a caller sends, the filling of the input ends (a depth of
    two is enough), and the result has every member that the compiled code reads by
    name: the engine's "dictionary does not contain key" cannot happen.  What the
    caller sent is all still there. *)
Theorem compiled_never_short blocks c n l :
  Blocks.compile (JArray blocks) = Ok (inr c) ->
  exists v, normalize_input (S (S n)) (Blocks.schema c) (JObject l) = Some (Ok v) /\
    (forall k, k ∈ Blocks.reads (Blocks.source c) -> contains k v = true) /\ grows (JObject l) v.
Proof.
  intros Hc. rewrite (Blocks.compiled_reads _ _ Hc). revert Hc. intros (ps & req & -> & Hps & Hk)%Blocks.compiled_schema. set (sch := JObject _).
  destruct (plain_props n sch ps Hps l) as [l' E].
  assert (fill_object (S (S n)) sch sch (JObject l) = Some (Ok (JObject l'))) as Hn.
  { rewrite (fill_object_S (S n)). replace (resolve_ref sch sch) with (Ok sch) by reflexivity. cbn [wbind].
    replace (member "properties" sch) with (Some (JObject ps)) by reflexivity. by rewrite E. }
  exists (JObject l'). split; [done|].
  destruct (fill_fills sch ltac:(by intros defs k m [=]) _ _ _ _ Hn) as [Hg Hh]. split; [|done].
  intros k Hin. destruct (Hk k Hin) as [_ [sub Hsub]].
  destruct (Hh eq_refl [k]) as (w & Hw & _).
  { eapply (on_member sch sch sch ps k sub); [done..| | constructor].
    clear -Hsub. induction ps as [|[k' v] ps IH]; [done|]. cbn [obj_get] in Hsub.
    destruct (String.eqb_spec k k') as [->|]; [injection Hsub as ->; apply list_elem_of_here | right; by apply IH]. }
  unfold contains. by rewrite Hw.
Qed.

(** A definition that contains itself: the filling of a missing value goes round for ever. *)
Definition cyclic : json :=
  JObject [("definitions", JObject [("node", JObject [
              ("properties", JObject [("child", JObject [("$ref", JString "#/definitions/node")])]);
              ("type", JString "object")])]);
           ("properties", JObject [("root", JObject [("$ref", JString "#/definitions/node")])])].

Lemma cyclic_child_never n : fill_object n cyclic (JObject [
  ("properties", JObject [("child", JObject [("$ref", JString "#/definitions/node")])]); ("type", JString "object")])
  (JObject []) = None.
Proof. induction n as [|n IH]; [done|]. cbn. unfold default_for. cbn. by rewrite IH. Qed.

Lemma recursive_schema_never n : normalize_input n cyclic (JObject []) = None.
Proof. destruct n as [|n]; [done|]. cbn. unfold default_for. cbn. by rewrite cyclic_child_never. Qed.

(** ** Concrete inputs *)

Definition party_schema : json :=
  JObject [("definitions", JObject [("party", JObject [
              ("properties", JObject [("address", JObject [("type", JString "string")]);
                                      ("name", JObject [("type", JString "string")])]);
              ("type", JString "object")])]);
           ("properties", JObject [("buyer", JObject [("$ref", JString "#/definitions/party")]);
                                   ("seller", JObject [("$ref", JString "#/definitions/party")])])].

Definition buyer_only : list (string * json) := [("buyer", JObject [("name", JString "ТОО")])].

Definition normalized : json :=
  JObject [("buyer", JObject [("address", JString ""); ("name", JString "ТОО")]);
           ("seller", JObject [("address", JString ""); ("name", JString "")])].

Lemma party_schema_flat : flat party_schema.
Proof.
  intros defs k n [= <-]. cbn [member obj_get]. destruct (String.eqb k "party"); [|done]. by intros [= <-].
Qed.

Lemma normalize_completes_witness :
  normalize_input 4 party_schema (JObject buyer_only) = Some (Ok normalized) /\
  grows (JObject buyer_only) normalized /\ forall ks, on_schema party_schema party_schema ks -> holds normalized ks.
Proof.
  assert (E : normalize_input 4 party_schema (JObject buyer_only) = Some (Ok normalized)) by reflexivity.
  split; [exact E|]. exact (normalize_completes 4 party_schema buyer_only normalized party_schema_flat E).
Defined.

Lemma compiled_never_short_witness :
  exists v, normalize_input 2 (Blocks.schema Blocks.sample_out) (JObject []) = Some (Ok v) /\
    (forall k, k ∈ Blocks.reads (Blocks.source Blocks.sample_out) -> contains k v = true) /\ grows (JObject []) v.
Proof. apply (compiled_never_short Blocks.sample Blocks.sample_out 0 []). vm_compute. reflexivity. Defined.

End Registry.

(** ** Templates of organizations *)

Module OrgTemplates.

(** [DocumentTemplate]: src/docgen/DocumentTemplate.hpp:38-61. *)
Record DocumentTemplate := mkTemplate {
  org_id : option string; slug : string; version : Z; mode : string; blocks : option json; source : string;
  schema : json; form : json; expected : option string; status : string; created_by : option string
}.

#[export] Instance template_eq_dec : EqDecision DocumentTemplate.
Proof. solve_decision. Defined.

(** [is_platform_template]: src/docgen/DocumentTemplate.hpp:60-60. *)
Definition is_platform_template (t : DocumentTemplate) : bool := match org_id t with None => true | Some _ => false end.

(** [to_json]: src/docgen/DocumentTemplate.hpp:90-106.  (Two time stamps left out.) *)
Definition to_json (id : string) (t : DocumentTemplate) : json :=
  let text o := match o with Some s => JString s | None => JNull end in
  JObject [("blocks", match blocks t with Some b => b | None => JNull end); ("expected", text (expected t));
           ("form", form t); ("id", JString id); ("mode", JString (mode t)); ("org_id", text (org_id t));
           ("schema", schema t); ("slug", JString (slug t)); ("source", JString (source t));
           ("status", JString (status t)); ("version", JInt (version t))].

(** The table, and the rows its foreign keys point to. *)
Record DB := mkDB { rows : gmap string DocumentTemplate; orgs : gset string; users : gset string; seq : nat }.

Definition with_row (id : string) (t : DocumentTemplate) (d : DB) : DB := mkDB (<[id := t]> (rows d)) (orgs d) (users d) (seq d).

Definition sql_error {A} (state : string) : outcome A := Throw (Exn pqxx_sql_error state).

(** The columns no update of a published row may change. *)
Definition content (t : DocumentTemplate) : DocumentTemplate :=
  mkTemplate (org_id t) (slug t) (version t) (mode t) (blocks t) (source t) (schema t) (form t) (expected t) "" None.

(** [document_templates_immutability]: migrations/028_template_cascade_carveout.sql:55-101.  Its UPDATE branches. *)
Definition document_templates_immutability (d : DB) (old new : DocumentTemplate) : outcome unit :=
  if match org_id old with Some o => negb (bool_decide (o ∈ orgs d)) | None => false end then Ok ()
  else if String.eqb (status old) "published" then
    if match created_by old, created_by new with
       | Some u, None => negb (bool_decide (u ∈ users d)) | _, _ => false end
       && bool_decide (content new = content old) && String.eqb (status new) (status old) then Ok ()
    else if String.eqb (status new) "archived" && bool_decide (content new = content old) then Ok ()
    else sql_error "23001"
  else Ok ().

(** The CHECK constraints of the table. *)
Definition row_checks (t : DocumentTemplate) : bool :=
  bool_decide (status t ∈ ["draft"; "published"; "archived"]) &&
  match mode t, blocks t with
  | "blocks", Some _ => true | "source", None => true | _, _ => false
  end.

Definition taken : exn := Exn DuplicateTemplateVersion "template_version_taken".
Definition immutable : exn := Exn PublishedTemplateIsImmutable "template_published_immutable".

Section Repository.
Context `{PG : Postgres}.

(** [NULLS LAST], then the newest version. *)
Definition resolve_lt (a b : string * DocumentTemplate) : bool :=
  match org_id a.2, org_id b.2 with
  | Some _, None => true
  | None, Some _ => false
  | _, _ => version b.2 <? version a.2
  end.

Definition visible (org s : string) (t : DocumentTemplate) : bool :=
  String.eqb (slug t) s && String.eqb (status t) "published" &&
  match org_id t with Some o => String.eqb o org | None => true end.

(** [resolve]: src/docgen/DocumentTemplateRepository.hpp:61-75. *)
Definition resolve (org s : string) : st DB (option DocumentTemplate) := gets (fun d =>
  snd <$> head (stable_sort resolve_lt (List.filter (fun e => visible org s e.2) (map_to_list (rows d))))).

Definition list_lt (a b : string * DocumentTemplate) : bool :=
  if String.eqb (slug a.2) (slug b.2) then resolve_lt a b else String.ltb (slug a.2) (slug b.2).

(** [list_visible]: src/docgen/DocumentTemplateRepository.hpp:80-93. *)
Definition list_visible (org : string) : st DB (list (string * DocumentTemplate)) := gets (fun d =>
  stable_sort list_lt (List.filter (fun e =>
    match org_id e.2 with Some o => String.eqb o org | None => String.eqb (status e.2) "published" end)
    (map_to_list (rows d)))).

(** [find_in_org]: src/docgen/DocumentTemplateRepository.hpp:102-112. *)
Definition find_in_org (org id : string) : st DB (option DocumentTemplate) := gets (fun d =>
  match rows d !! id with
  | Some t => if bool_decide (org_id t = Some org) then Some t else None
  | None => None
  end).

(** [next_version]: src/docgen/DocumentTemplateRepository.hpp:117-126. *)
Definition next_version (org : option string) (s : string) : st DB Z := gets (fun d =>
  foldr (fun e m => if bool_decide (org_id e.2 = org) && String.eqb (slug e.2) s then Z.max (version e.2) m else m)
    0 (map_to_list (rows d)) + 1).

Definition version_taken (d : DB) (t : DocumentTemplate) : bool :=
  existsb (fun e => bool_decide (org_id e.2 = org_id t) && String.eqb (slug e.2) (slug t) && (version e.2 =? version t))
    (map_to_list (rows d)).

(** [create]: src/docgen/DocumentTemplateRepository.hpp:128-155. *)
Definition create (draft : DocumentTemplate) (by_user : option string) : st DB (string * DocumentTemplate) :=
  translate_sql (fun ss => if String.eqb ss "23505" then Some taken else None) (fun d =>
    let t := mkTemplate (org_id draft) (slug draft) (version draft) (mode draft) (blocks draft) (source draft)
               (schema draft) (form draft) (expected draft)
               (if String.eqb (status draft) "" then "draft" else status draft) by_user in
    let id := gen_random_uuid (seq d) in
    if negb (row_checks t) then (sql_error "23514", d)
    else if version_taken d t then (sql_error "23505", d)
    else if match org_id t with Some o => negb (bool_decide (o ∈ orgs d)) | None => false end
         || match by_user with Some u => negb (bool_decide (u ∈ users d)) | None => false end
    then (sql_error "23503", d)
    else (Ok (id, t), mkDB (<[id := t]> (rows d)) (orgs d) (users d) (S (seq d)))).

(** An UPDATE of one row of an organization: the trigger, then the checks. *)
Definition update_row (org id : string) (f : DocumentTemplate -> DocumentTemplate) : st DB (option DocumentTemplate) := fun d =>
  match rows d !! id with
  | Some t =>
      if bool_decide (org_id t = Some org) then
        match document_templates_immutability d t (f t) with
        | Ok _ => if row_checks (f t) then (Ok (Some (f t)), with_row id (f t) d) else (sql_error "23514", d)
        | Throw e => (Throw e, d)
        | Undef => (Undef, d)
        end
      else (Ok None, d)
  | None => (Ok None, d)
  end.

Definition frozen_row (ss : string) : option exn := if String.eqb ss "23001" then Some immutable else None.

Definition with_patch (patch t : DocumentTemplate) : DocumentTemplate :=
  mkTemplate (org_id t) (slug t) (version t) (mode t) (blocks patch) (source patch) (schema patch) (form patch)
    (expected patch) (status t) (created_by t).

(** [update_draft]: src/docgen/DocumentTemplateRepository.hpp:165-192. *)
Definition update_draft (org id : string) (patch : DocumentTemplate) : st DB (option DocumentTemplate) :=
  translate_sql frozen_row (update_row org id (with_patch patch)).

Definition with_status (stat : string) (t : DocumentTemplate) : DocumentTemplate :=
  mkTemplate (org_id t) (slug t) (version t) (mode t) (blocks t) (source t) (schema t) (form t) (expected t) stat
    (created_by t).

(** [set_status]: src/docgen/DocumentTemplateRepository.hpp:196-218. *)
Definition set_status (org id stat : string) : st DB (option DocumentTemplate) :=
  translate_sql frozen_row (update_row org id (with_status stat)).

End Repository.

(** ** The handlers *)

(** [resource_for]: src/api/TemplatesController.hpp:299-302. *)
Definition resource_for (s : string) : string :=
  if String.eqb (str_take 3 s) "hr_" || String.eqb s "labor_contract" || String.eqb s "payslip"
  then "hr_templates" else "templates".

Definition may_write (ctx : OrgContext) (s : string) : bool := Agent.allows (role ctx) (resource_for s) "write".

Section Handlers.
Context `{PG : Postgres} `{RD : Renderer}.

(** [createTemplate]: src/api/TemplatesController.hpp:124-135. *)
Definition draft_of (ctx : OrgContext) (s : string) (v : Z) (bs : list json) (c : Blocks.Compiled) : DocumentTemplate :=
  mkTemplate (Some (ctx_org ctx)) s v "blocks" (Some (JArray bs)) (Blocks.source c) (Blocks.schema c) (Blocks.form c)
    (Some (Blocks.expected c)) "draft" None.

(** [createTemplate]: src/api/TemplatesController.hpp:83-140. *)
Definition createTemplate (ctx : OrgContext) (body : json) : prog DB Reply :=
  match text_field "slug" body, array_field "blocks" body with
  | Some s, Some bs =>
      if negb (may_write ctx s) then mret (refusal 403 "org_role_denied")
      else if negb (Registry.is_valid_slug s) then mret (refusal 422 "invalid_slug")
      else
        compiled ← pure (Blocks.compile (JArray bs));
        match compiled with
        | inl err => mret (refusal 422 (Blocks.code err))
        | inr c =>
            with_repo_errors (
              v ← atomic (next_version (Some (ctx_org ctx)) s);
              created ← atomic (create (draft_of ctx s v bs c)
                                  (if String.eqb (user_id ctx) "" then None else Some (user_id ctx)));
              mret (mkReply 201 "" (to_json created.1 created.2)))
        end
  | _, _ => mret (refusal 400 "validation_failed")
  end.

(** [patchTemplate]: src/api/TemplatesController.hpp:184-189. *)
Definition patched (t : DocumentTemplate) (bs : list json) (c : Blocks.Compiled) : DocumentTemplate :=
  mkTemplate (org_id t) (slug t) (version t) (mode t) (Some (JArray bs)) (Blocks.source c) (Blocks.schema c)
    (Blocks.form c) (Some (Blocks.expected c)) (status t) (created_by t).

(** [patchTemplate]: src/api/TemplatesController.hpp:145-198. *)
Definition patchTemplate (ctx : OrgContext) (id : string) (body : json) : prog DB Reply :=
  with_id id (fun id => match array_field "blocks" body with
  | None => mret (refusal 400 "validation_failed")
  | Some bs =>
      with_repo_errors (
        current ← atomic (find_in_org (ctx_org ctx) id);
        match current with
        | None => mret (refusal 404 "not_found")
        | Some t =>
            if negb (may_write ctx (slug t)) then mret (refusal 403 "org_role_denied")
            else
              compiled ← pure (Blocks.compile (JArray bs));
              match compiled with
              | inl err => mret (refusal 422 (Blocks.code err))
              | inr c =>
                  updated ← atomic (update_draft (ctx_org ctx) id (patched t bs c));
                  match updated with
                  | None => mret (refusal 404 "not_found")
                  | Some u => mret (mkReply 200 "" (to_json id u))
                  end
              end
        end)
  end).

(** [publishTemplate]: src/api/TemplatesController.hpp:203-248.  [queued] is the id of the
    job, or nothing when the queue cannot be reached. *)
Definition publishTemplate (ctx : OrgContext) (id : string) (queued : option string) : prog DB Reply :=
  with_id id (fun id => with_repo_errors (
    current ← atomic (find_in_org (ctx_org ctx) id);
    match current with
    | None => mret (refusal 404 "not_found")
    | Some t =>
        if negb (may_write ctx (slug t)) then mret (refusal 403 "org_role_denied")
        else if negb (String.eqb (status t) "draft") then mret (refusal 422 "not_a_draft")
        else match queued with
             | None => mret (refusal 503 "publish_not_queued")
             | Some job => mret (mkReply 202 "" (JObject [("job_id", JString job); ("template_id", JString id)]))
             end
    end)).

(** [archiveTemplate]: src/api/TemplatesController.hpp:253-285. *)
Definition archiveTemplate (ctx : OrgContext) (id : string) : prog DB Reply :=
  with_id id (fun id => with_repo_errors (
    current ← atomic (find_in_org (ctx_org ctx) id);
    match current with
    | None => mret (refusal 404 "not_found")
    | Some t =>
        if negb (may_write ctx (slug t)) then mret (refusal 403 "org_role_denied")
        else
          archived ← atomic (set_status (ctx_org ctx) id "archived");
          match archived with
          | None => mret (refusal 404 "not_found")
          | Some u => mret (mkReply 200 "" (to_json id u))
          end
    end)).

(** ** The publishing job *)

(** [fixture_from_schema]: src/docgen/PublishJob.hpp:58-73. *)
Fixpoint fixture_props (props : list (string * json)) (input : list (string * json)) : outcome (list (string * json)) :=
  match props with
  | [] => Ok input
  | (k, v) :: rest =>
      type ← value_string "type" "string" v;
      let value :=
        if String.eqb type "integer" then JInt 123456
        else if String.eqb type "array" then
          JArray [JObject match member "items" v with
                          | Some items =>
                              match member "properties" items with
                              | Some (JObject cols) => foldl (fun row c => obj_set c.1 (JString "проверка") row) [] cols
                              | _ => []
                              end
                          | None => []
                          end]
        else JString "проверка" in
      fixture_props rest (obj_set k value input)
  end.

(** [fixture_from_schema]: src/docgen/PublishJob.hpp:53-80. *)
Definition fixture_from_schema (sch : json) : outcome json :=
  match member "properties" sch with
  | None => Ok (JObject [])
  | Some props =>
      input ← fixture_props (members props) [];
      match obj_get "total_tiyn" input with
      | Some (JInt tiyn) =>
          total ← Format.format_tiyn_ru (get_ll tiyn);
          words ← Words.to_words_ru (get_ll tiyn);
          Ok (JObject (obj_set "total_words" (JString words) (obj_set "total" (JString total) input)))
      | Some _ => type_error
      | None => Ok (JObject input)
      end
  end.

(** A filling that never ends overflows the stack. *)
Definition filled {A} (m : Registry.walked A) : outcome A := match m with Some r => r | None => Undef end.

Definition runtime_error {A} (m : string) : outcome A := Throw (Exn std_runtime_error m).

(** The refusals of the job, less their human-readable message. *)
Definition not_published (id error_code : string) (index : option nat) : json :=
  JObject ([("error_code", JString error_code)] ++
           match index with Some i => [("block_index", JInt (Z.of_nat i))] | None => [] end ++
           [("published", JBool false); ("template_id", JString id)])%list.

(** [publish_template]: src/docgen/PublishJob.hpp:110-126. *)
Definition recompiled (id : string) (t : DocumentTemplate) : outcome (json + DocumentTemplate) :=
  if String.eqb (mode t) "blocks" then
    match blocks t with
    | None => runtime_error ("publish: block template " +:+ id +:+ " has no blocks")
    | Some b =>
        compiled ← Blocks.compile b;
        match compiled with
        | inl err => Ok (inl (not_published id (Blocks.code err) (Some (Blocks.block_index err))))
        | inr c =>
            Ok (inr (mkTemplate (org_id t) (slug t) (version t) (mode t) (blocks t) (Blocks.source c) (Blocks.schema c)
                       (Blocks.form c) (Some (Blocks.expected c)) (status t) (created_by t)))
        end
    end
  else Ok (inr t).

(** [publish_template]: src/docgen/PublishJob.hpp:128-152.  The gate: a fixture made of the
    schema satisfies it, and the engine makes a PDF of it. *)
Definition gate (fuel run : nat) (id : string) (t : DocumentTemplate) : outcome (option json) :=
  fixture ← fixture_from_schema (schema t);
  match schema_error (schema t) fixture with
  | Some _ => Ok (Some (not_published id "generated_fixture_rejected" None))
  | None =>
      match filled (Registry.normalize_input fuel (schema t) fixture) with
      | Ok normalized =>
          match typst_compile run (source t) normalized with
          | Some (String _ _) => Ok None
          | _ => Ok (Some (not_published id "render_failed" None))
          end
      | Throw _ => Ok (Some (not_published id "render_failed" None))
      | Undef => Undef
      end
  end.

(** [publish_template]: src/docgen/PublishJob.hpp:96-163. *)
Definition publish_template (fuel run : nat) (org id : string) : prog DB json :=
  tpl ← atomic (find_in_org org id);
  match tpl with
  | None => pure (runtime_error ("publish: no template " +:+ id +:+ " in org " +:+ org))
  | Some t =>
      if negb (String.eqb (status t) "draft") then
        pure (runtime_error ("publish: template " +:+ id +:+ " is not a draft"))
      else
        r ← pure (recompiled id t);
        match r with
        | inl refused => mret refused
        | inr updated =>
            verdict ← pure (gate fuel run id updated);
            match verdict with
            | Some refused => mret refused
            | None =>
                (if String.eqb (mode t) "blocks" then
                   saved ← atomic (update_draft org id updated);
                   match saved with
                   | None => pure (runtime_error ("publish: template " +:+ id +:+ " vanished between compile and save"))
                   | Some _ => mret ()
                   end
                 else mret ()) ;;
                done_ ← atomic (set_status org id "published");
                match done_ with
                | None => pure (runtime_error ("publish: template " +:+ id +:+ " vanished before publish"))
                | Some _ => mret (JObject [("published", JBool true); ("template_id", JString id)])
                end
            end
        end
  end.

End Handlers.

(** ** What the programs keep *)

Section Invariants.
Context `{PG : Postgres} `{RD : Renderer}.

(** A row made of blocks holds what its blocks compile to. *)
Definition compiled_row (t : DocumentTemplate) : Prop :=
  mode t = "blocks" -> exists b c, blocks t = Some b /\ Blocks.compile b = Ok (inr c) /\
    source t = Blocks.source c /\ schema t = Blocks.schema c /\ form t = Blocks.form c /\
    expected t = Some (Blocks.expected c).

Definition key (t : DocumentTemplate) : option string * string * Z := (org_id t, slug t, version t).

Record good (d : DB) : Prop := {
  good_compiled : forall id t, rows d !! id = Some t -> compiled_row t;
  good_ids : forall id t, rows d !! id = Some t -> exists n, (n < seq d)%nat /\ id = gen_random_uuid n;
  good_keys : forall i j t u, rows d !! i = Some t -> rows d !! j = Some u -> key t = key u -> i = j
}.

(** Rows stay, and keep their owner, name, version and mode. *)
Definition evolves (d d' : DB) : Prop :=
  forall id t, rows d !! id = Some t -> exists t', rows d' !! id = Some t' /\ key t' = key t /\ mode t' = mode t.

#[local] Instance evolves_preorder : PreOrder evolves.
Proof.
  split; [by intros d id t H; exists t|]. intros a b c H1 H2 id t H.
  destruct (H1 _ _ H) as (u & Hu & ? & ?), (H2 _ _ Hu) as (v & Hv & ? & ?). exists v. split; [done|]. split; congruence.
Qed.

(** What an UPDATE can do. *)
Lemma update_row_cases org id f d :
  update_row org id f d = (Ok None, d) \/
  (exists e, (update_row org id f d).1 = Throw e /\ (update_row org id f d).2 = d) \/
  exists t, rows d !! id = Some t /\ org_id t = Some org /\ document_templates_immutability d t (f t) = Ok () /\
    row_checks (f t) = true /\ update_row org id f d = (Ok (Some (f t)), with_row id (f t) d).
Proof.
  unfold update_row. destruct (rows d !! id) as [t|]; [|by left]. case_bool_decide as Ho; [|by left]. right.
  destruct (document_templates_immutability d t (f t)) as [[]|e|] eqn:E; [|left; by eexists|].
  - destruct (row_checks (f t)) eqn:Ec; [right; by exists t | left; by eexists].
  - exfalso. revert E. unfold document_templates_immutability, sql_error. repeat case_match; discriminate.
Qed.

Lemma with_row_keeps id t t' d : good d -> rows d !! id = Some t -> key t' = key t -> mode t' = mode t ->
  (compiled_row t -> compiled_row t') -> good (with_row id t' d) /\ evolves d (with_row id t' d).
Proof.
  intros [Hc Hi Hk] Ht Hkey Hm Hr. assert (is_Some (rows d !! id)) as Hs by by eexists.
  split; [split|]; unfold with_row; cbn [rows seq].
  - intros j u [[<- <-]|[_ Hu]]%lookup_insert_Some; [by apply Hr, (Hc id) | by apply (Hc j)].
  - intros j u [[<- _]|[_ Hu]]%lookup_insert_Some; [by apply (Hi _ t) | by apply (Hi j u)].
  - intros i j u v [[<- <-]|[? Hu]]%lookup_insert_Some [[<- <-]|[? Hv]]%lookup_insert_Some; [done|..]; intros E.
    + apply (Hk id j t v); congruence.
    + apply (Hk i id u t); congruence.
    + by apply (Hk i j u v).
  - intros j u Hu. destruct (decide (id = j)) as [<-|Hne].
    + rewrite Ht in Hu. injection Hu as <-. exists t'. cbn [rows]. by rewrite lookup_insert_eq.
    + exists u. cbn [rows]. by rewrite lookup_insert_ne.
Qed.

Lemma update_keeps tr org id f d : good d ->
  (forall t, rows d !! id = Some t -> org_id t = Some org -> key (f t) = key t /\ mode (f t) = mode t /\ (compiled_row t -> compiled_row (f t))) ->
  let d' := (translate_sql tr (update_row org id f) d).2 in good d' /\ evolves d d'.
Proof.
  intros Hg Hf. cbv zeta. rewrite translate_snd.
  destruct (update_row_cases org id f d) as [->|[(e & _ & ->)|(t & Ht & Ho & _ & _ & ->)]]; [done..|].
  destruct (Hf t Ht Ho) as (? & ? & ?). by apply (with_row_keeps id t).
Qed.

Lemma template_status_keeps org id stat d : good d -> let d' := (set_status org id stat d).2 in good d' /\ evolves d d'.
Proof. intros Hg. apply update_keeps; [done|]. by intros t _ _. Qed.

Lemma update_draft_keeps org id patch d : good d -> compiled_row patch ->
  (forall t, rows d !! id = Some t -> mode t = mode patch) ->
  let d' := (update_draft org id patch d).2 in good d' /\ evolves d d'.
Proof.
  intros Hg Hp Hm. apply update_keeps; [done|]. intros t Ht _. split; [done|]. split; [done|]. intros _ E. cbn [mode] in E.
  apply Hp. by rewrite <- (Hm t Ht).
Qed.

Lemma template_create_keeps draft u d : good d -> compiled_row draft ->
  let d' := (create draft u d).2 in good d' /\ evolves d d'.
Proof.
  intros Hg Hd. pose proof Hg as [Hc Hi Hk]. cbv zeta. unfold create.
  rewrite translate_snd.
  destruct (row_checks _); cbn [negb]; [|done]. destruct (version_taken d _) eqn:Ev; [done|].
  match goal with |- context [if ?c then (sql_error "23503", d) else _] => destruct c end; [done|]. cbn [snd].
  assert (rows d !! gen_random_uuid (seq d) = None) as Hfresh.
  { destruct (rows d !! _) as [t|] eqn:E; [|done]. destruct (Hi _ _ E) as (n & Hn & Hu).
    apply uuid_unique in Hu. lia. }
  split; [split|]; cbn [rows seq].
  - intros j t [[<- <-]|[_ Ht]]%lookup_insert_Some; [exact Hd | by apply (Hc j)].
  - intros j t [[<- _]|[_ Ht]]%lookup_insert_Some; [by exists (seq d); split; [lia|]|].
    destruct (Hi _ _ Ht) as (n & Hn & ->). exists n. split; [lia | done].
  - assert (forall j t, rows d !! j = Some t -> key t = key draft -> False) as Hno.
    { intros j t Ht [= E1 E2 E3]. apply not_true_iff_false in Ev. apply Ev, existsb_exists. exists (j, t).
      split; [by apply list_elem_of_In, elem_of_map_to_list|]. cbn [snd org_id slug version].
      rewrite E1, E2, E3, bool_decide_true, String.eqb_refl, Z.eqb_refl; done. }
    intros i j t v [[<- <-]|[? Ht]]%lookup_insert_Some [[<- <-]|[? Hv]]%lookup_insert_Some E; [done|..].
    + exfalso. by apply (Hno j v).
    + exfalso. by apply (Hno i t).
    + by apply (Hk i j t v).
  - intros j t Ht. exists t. cbn [rows]. rewrite lookup_insert_ne by congruence. done.
Qed.

Abbreviation quietly := (quiet good evolves).

Lemma compile_row bs c (t : DocumentTemplate) : Blocks.compile (JArray bs) = Ok (inr c) ->
  blocks t = Some (JArray bs) -> source t = Blocks.source c -> schema t = Blocks.schema c -> form t = Blocks.form c ->
  expected t = Some (Blocks.expected c) -> compiled_row t.
Proof. intros E ? ? ? ? ? _. by exists (JArray bs), c. Qed.

Lemma createTemplate_quiet ctx body d : quietly (createTemplate ctx body) d.
Proof.
  unfold createTemplate. destruct (text_field "slug" body) as [s|]; [|done].
  destruct (array_field "blocks" body) as [l|]; [|done]. destruct (negb (may_write ctx s)); [done|].
  destruct (negb (Registry.is_valid_slug s)); [done|]. apply (quiet_pure good evolves). intros [err|c] E; [done|].
  apply quiet_catch, (quiet_read good evolves). intros d1 _ _. apply (quiet_step good evolves). intros d2 r d3 _ Hg Ec.
  destruct (template_create_keeps (draft_of ctx s (foldr (fun e m => if bool_decide (org_id e.2 = Some (ctx_org ctx)) && String.eqb (slug e.2) s
    then Z.max (version e.2) m else m) 0 (map_to_list (rows d1)) + 1) l c)
    (if String.eqb (user_id ctx) "" then None else Some (user_id ctx)) d2 Hg) as [? ?].
  { by eapply compile_row. }
  unfold next_version in Ec. rewrite Ec in *. split; [done|]. split; [done|]. by intros a _.
Qed.

Lemma evolves_row d d' id t u : evolves d d' -> rows d !! id = Some t -> rows d' !! id = Some u -> mode u = mode t.
Proof. intros H Ht Hu. destruct (H _ _ Ht) as (v & Hv & _ & ?). congruence. Qed.

Lemma patchTemplate_quiet ctx id body d : quietly (patchTemplate ctx id body) d.
Proof.
  unfold patchTemplate. apply (with_id_quiet good evolves). clear id. intros id. destruct (array_field "blocks" body) as [bs|]; [|done]. apply quiet_catch, (quiet_read good evolves). intros d1 _ _.
  destruct (rows d1 !! id) as [t|] eqn:Et; [|done]. case_bool_decide; [|done].
  destruct (negb (may_write ctx (slug t))); [done|]. apply (quiet_pure good evolves). intros [err|c] Ec; [done|].
  apply (quiet_step good evolves). intros d2 r d3 H2 Hg E.
  destruct (update_draft_keeps (ctx_org ctx) id (patched t bs c) d2 Hg) as [? ?].
  { by eapply compile_row. } { intros u Hu. by rewrite (evolves_row _ _ _ _ _ H2 Et Hu). }
  rewrite E in *. split; [done|]. split; [done|]. by intros [u|] _.
Qed.

Lemma publishTemplate_quiet ctx id queued d : quietly (publishTemplate ctx id queued) d.
Proof. unfold publishTemplate. apply (with_id_quiet good evolves). clear id. intros id. apply quiet_catch, (quiet_read good evolves). intros d1 _ _. by repeat case_match. Qed.

Lemma archiveTemplate_quiet ctx id d : quietly (archiveTemplate ctx id) d.
Proof.
  unfold archiveTemplate. apply (with_id_quiet good evolves). clear id. intros id. apply quiet_catch, (quiet_read good evolves). intros d1 _ _.
  destruct (rows d1 !! id) as [t|] eqn:Et; [|done]. case_bool_decide; [|done].
  destruct (negb (may_write ctx (slug t))); [done|]. apply (quiet_step good evolves). intros d2 r d3 _ Hg E.
  destruct (template_status_keeps (ctx_org ctx) id "archived" d2 Hg) as [? ?]. rewrite E in *.
  split; [done|]. split; [done|]. by intros [u|] _.
Qed.

(** What the job saves is what its blocks compile to. *)
Lemma recompiled_row id t u : recompiled id t = Ok (inr u) -> mode u = mode t /\ compiled_row u.
Proof.
  unfold recompiled. destruct (String.eqb_spec (mode t) "blocks") as [Em|Em].
  - destruct (blocks t) as [b|] eqn:Eb; [|discriminate]. intros ([err|c] & Ec & H)%bind_Ok_inv; [discriminate|].
    injection H as <-. split; [done|]. intros _. by exists b, c.
  - intros [= <-]. split; [done|]. by intros ?.
Qed.

Lemma publish_quiet fuel run org id d : quietly (publish_template fuel run org id) d.
Proof.
  unfold publish_template. apply (quiet_read good evolves). intros d1 _ _. destruct (rows d1 !! id) as [t|] eqn:Et; [|done].
  case_bool_decide; [|done]. destruct (negb (String.eqb (status t) "draft")); [done|].
  apply (quiet_pure good evolves). intros [refused|updated] Er; [done|]. apply (quiet_pure good evolves). intros [refused|] _; [done|].
  apply recompiled_row in Er as [Em Hr]. apply (quiet_bind good evolves).
  - destruct (String.eqb (mode t) "blocks"); [|done]. apply (quiet_step good evolves). intros d2 r d3 H2 Hg E.
    destruct (update_draft_keeps org id updated d2 Hg Hr) as [? ?].
    { intros u Hu. by rewrite Em, (evolves_row _ _ _ _ _ H2 Et Hu). }
    rewrite E in *. split; [done|]. split; [done|]. by intros [u|] _.
  - intros _ d2. apply (quiet_step good evolves). intros d3 r d4 _ Hg E. destruct (template_status_keeps org id "published" d3 Hg) as [? ?].
    rewrite E in *. split; [done|]. split; [done|]. by intros [u|] _.
Qed.

(** The requests and jobs that write templates. *)
Inductive request (d : DB) : prog DB () -> Prop :=
| request_create ctx body : request d (void (createTemplate ctx body))
| request_patch ctx id body : request d (void (patchTemplate ctx id body))
| request_publish ctx id queued : request d (void (publishTemplate ctx id queued))
| request_archive ctx id : request d (void (archiveTemplate ctx id))
| job_publish fuel run org id : request d (void (publish_template fuel run org id)).

Lemma template_request_quiet d p : request d p -> quietly p d.
Proof.
  intros [ctx body|ctx id body|ctx id queued|ctx id|fuel run org id]; apply (quiet_bind good evolves); try done.
  - apply createTemplate_quiet.
  - apply patchTemplate_quiet.
  - apply publishTemplate_quiet.
  - apply archiveTemplate_quiet.
  - apply publish_quiet.
Qed.

(** C17: A template is what its blocks say.  Start with a table whose block templates
    hold what their blocks compile to and whose versions are distinct; let any number
    of the five handlers and jobs run, their transactions interleaved in any order.
    At every moment each block template (draft, published or archived) still holds
    exactly the source, schema, form and labels its blocks compile to, no two rows
    share owner, name and version, and no row has vanished or changed owner, name,
    version or mode. *)
Theorem template_is_its_blocks d d' ts : good d -> rtc (turn request) (d, []) (d', ts) ->
  (forall id t, rows d' !! id = Some t -> compiled_row t) /\
  (forall i j t u, rows d' !! i = Some t -> rows d' !! j = Some u -> key t = key u -> i = j) /\ evolves d d'.
Proof.
  intros Hg Hs. destruct (pool_keeps good evolves request) with (s := (d, [] : list (prog DB ()))) (s' := (d', ts))
    as ([Hc _ Hk] & He & _); [|done..]. intros w p _. apply template_request_quiet.
Qed.

(** The row is still there with the same content, published or archived. *)
Definition kept (id : string) (t : DocumentTemplate) (d : DB) : Prop :=
  exists t', rows d !! id = Some t' /\ content t' = content t /\ (status t' = "published" \/ status t' = "archived").

Definition org_lives (d : DB) (t : DocumentTemplate) : Prop :=
  match org_id t with Some o => o ∈ orgs d | None => True end.

Lemma published_update d t u : status t = "published" -> org_lives d t ->
  document_templates_immutability d t u = Ok () ->
  content u = content t /\ (status u = "published" \/ status u = "archived").
Proof.
  unfold document_templates_immutability, org_lives. intros Hs Ho.
  assert (match org_id t with Some o => negb (bool_decide (o ∈ orgs d)) | None => false end = false) as ->.
  { destruct (org_id t); [|done]. by rewrite bool_decide_true. }
  rewrite Hs. cbn [String.eqb Ascii.eqb Bool.eqb].
  match goal with |- context [if ?a && ?b && ?c then _ else _] => destruct (a && b && c) eqn:E1 end.
  { intros _. apply andb_true_iff in E1 as [[_ E1%bool_decide_eq_true]%andb_true_iff E2%String.eqb_eq]. auto. }
  match goal with |- context [if ?a && ?b then _ else _] => destruct (a && b) eqn:E2 end; [|discriminate].
  intros _. apply andb_true_iff in E2 as [E2%String.eqb_eq E3%bool_decide_eq_true]. auto.
Qed.

Lemma published_kept id t d tr org i f : rows d !! id = Some t -> status t = "published" -> org_lives d t ->
  kept id t (translate_sql tr (update_row org i f) d).2.
Proof.
  intros Ht Hs Ho. rewrite translate_snd.
  destruct (update_row_cases org i f d) as [->|[(e & _ & ->)|(u & Hu & _ & Hi & _ & ->)]]; [exists t; auto.. |].
  unfold with_row, kept. cbn [snd rows]. destruct (decide (i = id)) as [->|Hne].
  - rewrite Ht in Hu. injection Hu as <-. destruct (published_update d t (f t) Hs Ho Hi) as [? ?].
    exists (f t). by rewrite lookup_insert_eq.
  - exists t. rewrite lookup_insert_ne by done. auto.
Qed.

(** What is published stays as it was published.  No write of the repository, on
    this row or another, with whatever arguments, changes the owner, name, version,
    mode, blocks, source, schema, form or labels of a published row of a living
    organization; all it can do is archive it. *)
Theorem published_frozen d id t : good d -> rows d !! id = Some t -> status t = "published" -> org_lives d t ->
  (forall org i patch, kept id t (update_draft org i patch d).2) /\
  (forall org i stat, kept id t (set_status org i stat d).2) /\
  (forall draft u, kept id t (create draft u d).2).
Proof.
  intros Hg Ht Hs Ho. split; [intros; by apply published_kept|]. split; [intros; by apply published_kept|].
  intros draft u. unfold create.
  rewrite translate_snd.
  assert (kept id t d) as Hk by (exists t; auto).
  destruct (negb _); [done|]. destruct (version_taken d _); [done|].
  match goal with |- context [if ?c then (sql_error "23503", d) else _] => destruct c end; [done|].
  exists t. cbn [snd rows]. destruct (good_ids d Hg id t Ht) as (n & Hn & ->).
  rewrite lookup_insert_ne by (intros E%uuid_unique; lia). auto.
Qed.

Lemma update_ok tr org id f t d : rows d !! id = Some t -> org_id t = Some org ->
  document_templates_immutability d t (f t) = Ok () -> row_checks (f t) = true ->
  translate_sql tr (update_row org id f) d = (Ok (Some (f t)), with_row id (f t) d).
Proof. intros Ht Ho Hi Hc. unfold translate_sql, update_row. by rewrite Ht, bool_decide_true, Hi, Hc. Qed.

Lemma archive_allowed d t stat : org_lives d t -> (status t = "published" -> stat = "archived") ->
  document_templates_immutability d t (with_status stat t) = Ok ().
Proof.
  intros Ho Hs. unfold document_templates_immutability, org_lives in *.
  assert (match org_id t with Some o => negb (bool_decide (o ∈ orgs d)) | None => false end = false) as ->.
  { destruct (org_id t); [|done]. by rewrite bool_decide_true. }
  destruct (String.eqb_spec (status t) "published") as [E|_]; [|done]. rewrite (Hs E).
  match goal with |- (if ?c then _ else _) = _ => destruct c end; [done|].
  cbn [with_status status]. by rewrite bool_decide_true.
Qed.

(** Archiving thaws a template.  A published version that documents were rendered
    from can be rewritten through the API: its owner archives it and then edits it as
    a draft; both requests succeed, and the archived version now holds the source the
    new blocks compile to. *)
Theorem archived_is_rewritten ctx path t d bs c body : Requests.is_valid_uuid path = true ->
  let id := Requests.uuid_key path in
  rows d !! id = Some t -> org_id t = Some (ctx_org ctx) -> ctx_org ctx ∈ orgs d -> mode t = "blocks" ->
  is_Some (blocks t) -> may_write ctx (slug t) = true ->
  array_field "blocks" body = Some bs -> Blocks.compile (JArray bs) = Ok (inr c) ->
  exists d1 d2 t1 t2,
    alone (archiveTemplate ctx path) d = (Ok (mkReply 200 "" (to_json id t1)), d1) /\
    alone (patchTemplate ctx path body) d1 = (Ok (mkReply 200 "" (to_json id t2)), d2) /\
    rows d2 !! id = Some t2 /\ status t2 = "archived" /\ slug t2 = slug t /\ version t2 = version t /\
    source t2 = Blocks.source c.
Proof.
  intros Hid id Ht Ho Horg Hm [b Hb] Hw Hbs Hc.
  set (t1 := with_status "archived" t). set (d1 := with_row id t1 d). set (t2 := with_patch (patched t1 bs c) t1).
  assert (rows d1 !! id = Some t1) as Ht1 by (unfold d1, with_row; cbn [rows]; by rewrite lookup_insert_eq).
  exists d1, (with_row id t2 d1), t1, t2. split; [|split].
  - unfold archiveTemplate, with_id, with_repo_errors. rewrite Hid. cbn [negb]. fold id. rewrite alone_catch.
    rewrite (alone_step (find_in_org (ctx_org ctx) id) _ d (Some t) d)
      by (unfold find_in_org, gets; by rewrite Ht, bool_decide_true).
    cbn match. rewrite Hw. cbn [negb].
    rewrite (alone_step (set_status (ctx_org ctx) id "archived") _ d (Some t1) d1); [done|].
    apply (update_ok frozen_row (ctx_org ctx) id (with_status "archived") t d Ht Ho);
      [|unfold row_checks; cbn [with_status status mode blocks]; by rewrite Hm, Hb].
    apply archive_allowed; [|done]. unfold org_lives. by rewrite Ho.
  - unfold patchTemplate, with_id, with_repo_errors. rewrite Hid. cbn [negb]. fold id. rewrite Hbs, alone_catch.
    rewrite (alone_step (find_in_org (ctx_org ctx) id) _ d1 (Some t1) d1)
      by (unfold find_in_org, gets; by rewrite Ht1, bool_decide_true).
    cbn match. replace (may_write ctx (slug t1)) with true by (symmetry; exact Hw). cbn [negb].
    rewrite alone_bind, alone_pure, Hc. cbn match.
    rewrite (alone_step (update_draft (ctx_org ctx) id (patched t1 bs c)) _ d1 (Some t2) (with_row id t2 d1)); [done|].
    apply (update_ok frozen_row (ctx_org ctx) id (with_patch (patched t1 bs c)) t1 d1 Ht1 Ho);
      [|unfold row_checks; cbn; by rewrite Hm].
    unfold document_templates_immutability. cbn [status t1 with_status]. by case_match.
  - unfold with_row. cbn [rows]. by rewrite lookup_insert_eq.
Qed.

(** [t] is a choice at least as good as [u] for an organization. *)
Definition preferred (t u : DocumentTemplate) : Prop :=
  match org_id t, org_id u with
  | Some _, None => True
  | None, Some _ => False
  | _, _ => version u <= version t
  end.

Lemma resolve_sorted l : StronglySorted (fun x y => preferred x.2 y.2) (stable_sort resolve_lt l).
Proof.
  assert (sorted_by resolve_lt (stable_sort resolve_lt l)) as H.
  { apply stable_sort_sorted; intros [] **; unfold resolve_lt in *; repeat case_match; cbn [snd] in *;
      try done; rewrite ?Z.ltb_lt, ?Z.ltb_ge in *; lia. }
  revert H. unfold sorted_by. generalize (stable_sort resolve_lt l) as k. induction 1 as [|x k _ IH Hall]; constructor; [done|].
  eapply Forall_impl; [exact Hall|]. intros y Hy. cbn beta in *. unfold resolve_lt, preferred in *.
  repeat case_match; try done; apply Z.ltb_ge in Hy; lia.
Qed.

(** The right template is found.  A document of an organization is rendered with a
    published template of that name, its own or the platform's, never another's: with
    its own before the platform's, and with the highest version among those; nothing
    is found exactly when there is none. *)
Theorem resolve_spec org s d :
  exists r, resolve org s d = (Ok r, d) /\
  match r with
  | None => forall id t, rows d !! id = Some t -> visible org s t = false
  | Some t => (exists id, rows d !! id = Some t) /\ visible org s t = true /\
      forall id u, rows d !! id = Some u -> visible org s u = true -> preferred t u
  end.
Proof.
  eexists. split; [reflexivity|].
  set (l := List.filter (fun e => visible org s e.2) (map_to_list (rows d))).
  assert (forall id t, (id, t) ∈ stable_sort resolve_lt l <-> rows d !! id = Some t /\ visible org s t = true) as Hl.
  { intros id t. rewrite stable_sort_perm. unfold l. rewrite list_elem_of_In, filter_In, <- list_elem_of_In, elem_of_map_to_list. done. }
  pose proof (resolve_sorted l) as Hs. destruct (stable_sort resolve_lt l) as [|[i t] k]; cbn [head fmap option_fmap option_map].
  - intros id t Ht. destruct (visible org s t) eqn:E; [|done]. by pose proof (proj2 (Hl id t) (conj Ht E)) as ?%elem_of_nil.
  - destruct (proj1 (Hl i t)) as [Ht Hv]; [apply list_elem_of_here|]. split; [by exists i|]. split; [done|].
    intros id u Hu Hvu. pose proof (proj2 (Hl id u) (conj Hu Hvu)) as [[= -> ->]|Hin]%elem_of_cons.
    + unfold preferred. cbn [snd]. destruct (org_id t); apply Z.le_refl.
    + inversion Hs as [|? ? _ Hall]. subst. by apply (proj1 (Forall_forall _ _) Hall (id, u)).
Qed.

End Invariants.

(** ** A concrete installation *)

Module Example.
Import JournalDb.Reference.
#[local] Existing Instance uuid_server.

Definition the_id : string := id_text 0.

(** An engine that takes only a template with a [number]. *)
#[local] Instance picky : Renderer := {
  schema_error _ _ := None;
  typst_compile _ _ input := if contains "number" input then Some "%PDF" else None
}.

Definition good_blocks : list json := Blocks.sample.
Definition bad_blocks : list json := [JObject [("text", JString "?"); ("type", JString "text")]].

Definition compiled (bs : list json) : Blocks.Compiled :=
  match Blocks.compile (JArray bs) with Ok (inr c) => c | _ => Blocks.sample_out end.

Definition row (stat : string) (bs : list json) : DocumentTemplate :=
  mkTemplate (Some "org") "act" 1 "blocks" (Some (JArray bs)) (Blocks.source (compiled bs)) (Blocks.schema (compiled bs))
    (Blocks.form (compiled bs)) (Some (Blocks.expected (compiled bs))) stat None.

Definition table (stat : string) : DB := mkDB {[the_id := row stat good_blocks]} {["org"]} ∅ 1.

Definition owner : OrgContext := mkCtx "org" "owner" "someone".
Definition body (bs : list json) : json := JObject [("blocks", JArray bs)].

Lemma table_good stat : good (table stat).
Proof.
  assert (forall id t, rows (table stat) !! id = Some t -> id = the_id /\ t = row stat good_blocks) as Hone.
  { intros id t H. unfold table in H. cbn [rows] in H. by apply lookup_singleton_Some in H as [<- <-]. }
  split.
  - intros id t [-> ->]%Hone _. exists (JArray good_blocks), (compiled good_blocks).
    split; [done|]. split; [vm_compute; reflexivity | done].
  - intros id t [-> ->]%Hone. exists 0%nat. split; [cbn; lia | done].
  - intros i j t u [-> _]%Hone [-> _]%Hone _. done.
Qed.

(** The gate can be walked round.  While the publishing job of a good template is
    between saving it and publishing it, another request edits the draft: the job then
    publishes blocks that no engine has ever been asked about, and that the gate
    refuses. *)
Theorem gate_is_bypassed :
  exists d ts t, rtc (turn request) (table "draft", []) (d, ts) /\
    rows d !! the_id = Some t /\ status t = "published" /\ blocks t = Some (JArray bad_blocks) /\
    gate 2 0 the_id (row "draft" good_blocks) = Ok None /\
    gate 2 0 the_id t = Ok (Some (not_published the_id "render_failed" None)).
Proof.
  set (s := schedule [0; 0; 1; 1; 0]%nat (table "draft",
    [void (publish_template 2 0 "org" the_id); void (patchTemplate owner the_id (body bad_blocks))])).
  exists s.1, s.2, (with_status "published" (with_patch (row "draft" bad_blocks) (row "draft" good_blocks))).
  split.
  - eapply rtc_l; [apply turn_enter, (job_publish _ 2 0 "org" the_id)|].
    eapply rtc_l; [apply turn_enter, (request_patch _ owner the_id (body bad_blocks))|].
    rewrite <- surjective_pairing. apply schedule_turns.
  - split; [|split; [|split; [|split]]]; vm_compute; reflexivity.
Qed.

Lemma template_is_its_blocks_witness :
  let s := schedule [0; 0; 0]%nat (table "draft", [void (publish_template 2 0 "org" the_id)]) in
  (exists t, rows s.1 !! the_id = Some t /\ status t = "published") /\
  (forall id t, rows s.1 !! id = Some t -> compiled_row t) /\
  (forall i j t u, rows s.1 !! i = Some t -> rows s.1 !! j = Some u -> key t = key u -> i = j) /\ evolves (table "draft") s.1.
Proof.
  intros s. split; [eexists; split; vm_compute; reflexivity|].
  apply (template_is_its_blocks (table "draft") s.1 s.2 (table_good "draft")).
  eapply rtc_l; [apply turn_enter, (job_publish _ 2 0 "org" the_id)|]. rewrite <- surjective_pairing. apply schedule_turns.
Defined.

Lemma published_frozen_witness :
  (forall org i patch, kept the_id (row "published" good_blocks) (update_draft org i patch (table "published")).2) /\
  (forall org i stat, kept the_id (row "published" good_blocks) (set_status org i stat (table "published")).2) /\
  (forall draft u, kept the_id (row "published" good_blocks) (create draft u (table "published")).2).
Proof.
  apply (published_frozen (table "published") the_id (row "published" good_blocks)); [apply table_good | done | done |].
  change ("org" ∈ ({["org"]} : gset string)). by apply elem_of_singleton.
Defined.

Lemma archived_is_rewritten_witness :
  exists d1 d2 t1 t2,
    alone (archiveTemplate owner the_id) (table "published") = (Ok (mkReply 200 "" (to_json the_id t1)), d1) /\
    alone (patchTemplate owner the_id (body bad_blocks)) d1 = (Ok (mkReply 200 "" (to_json the_id t2)), d2) /\
    rows d2 !! the_id = Some t2 /\ status t2 = "archived" /\ slug t2 = "act" /\ version t2 = 1 /\
    source t2 = Blocks.source (compiled bad_blocks).
Proof.
  apply (archived_is_rewritten owner the_id (row "published" good_blocks) (table "published") bad_blocks
           (compiled bad_blocks) (body bad_blocks)); done.
Defined.

End Example.

End OrgTemplates.

(** ** Rendering *)

Module Render.
Import OrgTemplates.

Definition cut_line (s : string) : string :=
  (fix go (s : string) : string :=
     match s with
     | EmptyString => EmptyString
     | String c r => if Ascii.eqb c (chr 10) || Ascii.eqb c (chr 13) then EmptyString else String c (go r)
     end) s.

(** The words of a line, as [>>] reads them. *)
Fixpoint tokens (s cur : string) : list string :=
  match s with
  | EmptyString => if String.eqb cur "" then [] else [cur]
  | String c r =>
      if is_space c then (if String.eqb cur "" then tokens r "" else cur :: tokens r "")
      else tokens r (cur +:+ String c "")
  end.

Definition starts_with_digit (s : string) : bool := match s with String c _ => is_digit c | EmptyString => false end.

(** [engine_name]: src/docgen/TemplateRegistry.hpp:49-51. *)
Definition engine_name : string := "typst".

(** [typst_descriptor]: src/docgen/RenderJob.hpp:223-236. *)
Definition typst_descriptor (version_output : string) : string :=
  match List.find starts_with_digit (tokens (cut_line version_output) "") with
  | Some t => engine_name +:+ " " +:+ t
  | None => engine_name
  end.

(** [engine_version]: src/docgen/RenderJob.hpp:274-286.  The output of [typst --version], when it runs. *)
Definition engine_version (output : option string) : string :=
  match output with Some out => typst_descriptor out | None => engine_name end.

Example descriptor_ex : typst_descriptor "typst 0.15.1 (9dfd3a08)" = "typst 0.15.1".
Proof. reflexivity. Qed.

Section Render.
Context `{PG : Postgres} `{RD : Renderer}.
Context (tree : Registry.Tree) (version_output : option string).

(** [render_and_compile]: src/docgen/RenderJob.hpp:325-330. *)
Definition compile_with (fuel run : nat) (sch : json) (src : string) (input : json) : outcome (string * string) :=
  match schema_error sch input with
  | Some err => runtime_error ("docgen: schema validation failed: " +:+ err)
  | None =>
      normalized ← filled (Registry.normalize_input fuel sch input);
      match typst_compile run src normalized with
      | Some pdf => Ok (pdf, engine_version version_output)
      | None => runtime_error "docgen: typst compile failed"
      end
  end.

(** [render_and_compile]: src/docgen/RenderJob.hpp:334-348. *)
Definition builtin (fuel run : nat) (s : string) (input : json) : outcome (string * string) :=
  found ← Registry.latest tree s;
  match found with
  | None => runtime_error ("docgen: no template found for slug '" +:+ s +:+ "'")
  | Some info => compile_with fuel run (Registry.schema info) (Registry.source info) input
  end.

(** [render_and_compile]: src/docgen/RenderJob.hpp:311-349. *)
Definition render_and_compile (fuel run : nat) (s : string) (input : json) (org : string) : prog DB (string * string) :=
  if String.eqb org "" then pure (builtin fuel run s input)
  else
    custom ← atomic (resolve org s);
    match custom with
    | Some t => pure (compile_with fuel run (schema t) (source t) input)
    | None => pure (builtin fuel run s input)
    end.

End Render.

End Render.
