(* ===== verification/Documents.v ===== *)
(** * Documents and their versions

    src/files/FileKeys.hpp (where a file is stored), src/ledger/Document.hpp,
    src/ledger/DocumentVersion.hpp and src/ledger/DocumentRepository.hpp with the
    tables of migrations/010_documents.sql, 018_document_versions.sql,
    019_document_voiding.sql and 023_payroll_doc_type.sql.  Every repository call is one
    transaction; what each keeps of the history of a document is proved here, and used
    by the jobs and handlers of DocumentFlow. *)
From Stdlib Require Import ZArith Lia Ascii String.
From stdpp Require Import relations sorting.
From S2P Require Import Prelude JournalDb Json InputPolicy Threads Agent Requests Templates.
Import Json Threads Http.
Open Scope string_scope.
Open Scope Z_scope.
Set Warnings "-clear-no-such-hyp".

(** ** Keys of stored files *)

Module Files.

Definition safe_char (c : ascii) : bool :=
  let z := Prelude.code c in
  ((65 <=? z) && (z <=? 90)) || ((97 <=? z) && (z <=? 122)) || ((48 <=? z) && (z <=? 57)) ||
  Ascii.eqb c "." || Ascii.eqb c "_" || Ascii.eqb c "-".

Fixpoint replace_unsafe (s : string) : string :=
  match s with
  | EmptyString => EmptyString
  | String c r => String (if safe_char c then c else "_"%char) (replace_unsafe r)
  end.

(** [sanitize_filename]: src/files/FileKeys.hpp:26-37. *)
Definition sanitize_filename (filename : string) : string :=
  if String.eqb filename "" then "file" else replace_unsafe filename.

(** [org_key]: src/files/FileKeys.hpp:58-60. *)
Definition org_key (uuid org_id kind filename : string) : string :=
  "org/" +:+ org_id +:+ "/" +:+ kind +:+ "/" +:+ uuid +:+ "-" +:+ sanitize_filename filename.

(** [version_key]: src/files/FileKeys.hpp:96-102. *)
Definition version_key (org_id kind version_id filename : string) : string :=
  "org/" +:+ sanitize_filename org_id +:+ "/" +:+ sanitize_filename kind +:+ "/" +:+ sanitize_filename version_id +:+
  "/" +:+ sanitize_filename filename.

Lemma replace_unsafe_safe s : str_all safe_char (replace_unsafe s) = true.
Proof.
  induction s as [|c s IH]; cbn [replace_unsafe str_all]; [done|]. rewrite IH, andb_true_r.
  by destruct (safe_char c) eqn:E.
Qed.

Lemma replace_unsafe_id s : str_all safe_char s = true -> replace_unsafe s = s.
Proof.
  induction s as [|c s IH]; cbn [replace_unsafe str_all]; [done|]. intros [-> H]%andb_true_iff. by rewrite IH.
Qed.

Lemma sanitize_safe s : str_all safe_char (sanitize_filename s) = true.
Proof. unfold sanitize_filename. destruct (String.eqb s ""); [done | apply replace_unsafe_safe]. Qed.

Lemma sanitize_id s : s <> "" -> str_all safe_char s = true -> sanitize_filename s = s.
Proof. intros Hs H. unfold sanitize_filename. rewrite (proj2 (String.eqb_neq s "") Hs). by apply replace_unsafe_id. Qed.

Definition no_slash (c : ascii) : bool := negb (Ascii.eqb c "/").

Lemma sanitize_no_slash s : str_all no_slash (sanitize_filename s) = true.
Proof.
  apply (str_all_impl safe_char no_slash); [|apply sanitize_safe]. intros c.
  unfold no_slash. by destruct (Ascii.eqb_spec c "/") as [->|].
Qed.

Lemma version_key_pieces o k v f : pieces "/" (version_key o k v f) =
  ["org"; sanitize_filename o; sanitize_filename k; sanitize_filename v; sanitize_filename f].
Proof.
  unfold version_key. transitivity (pieces "/" ("org" +:+ String "/" (sanitize_filename o +:+ String "/"
    (sanitize_filename k +:+ String "/" (sanitize_filename v +:+ String "/" (sanitize_filename f)))))); [done|].
  rewrite (pieces_cons "/" "org") by done. rewrite (pieces_cons "/" (sanitize_filename o)) by apply sanitize_no_slash.
  rewrite (pieces_cons "/" (sanitize_filename k)) by apply sanitize_no_slash.
  rewrite (pieces_cons "/" (sanitize_filename v)) by apply sanitize_no_slash.
  by rewrite (pieces_one "/") by apply sanitize_no_slash.
Qed.

(** A version's file is nobody else's.  The key of a version's file is five path
    segments, [org], owner, kind, version and name, each free of slashes whatever the
    arguments: so two keys are equal only if every sanitized argument is, and with
    identifiers of letters, digits and dashes, as UUIDs are, distinct versions (and
    distinct organizations) never share an object. *)
Theorem version_key_separates o k v f :
  pieces "/" (version_key o k v f) =
    ["org"; sanitize_filename o; sanitize_filename k; sanitize_filename v; sanitize_filename f] /\
  forall o' k' v' f', version_key o k v f = version_key o' k' v' f' ->
    sanitize_filename o = sanitize_filename o' /\ sanitize_filename v = sanitize_filename v' /\
    (v <> "" -> v' <> "" -> str_all safe_char v = true -> str_all safe_char v' = true -> v = v').
Proof.
  split; [apply version_key_pieces|]. intros o' k' v' f' E. pose proof (version_key_pieces o k v f) as P.
  rewrite E, version_key_pieces in P. injection P as Eo Ek Ev Ef. split; [done|]. split; [done|].
  intros H1 H2 S1 S2. by rewrite <- (sanitize_id v), <- (sanitize_id v').
Qed.

(** Sanitizing leaves the dots: an owner of two dots is a segment that climbs. *)
Example version_key_climbs : version_key ".." "generated" "v" "a.pdf" = "org/../generated/v/a.pdf".
Proof. reflexivity. Qed.

End Files.

(** ** The tables and the store *)

Module Documents.

(** A row of [documents]. *)
Record DocRow := mkDoc {
  d_org : string; d_type : string; d_source : string; d_status : string; d_counterparty : option string;
  d_slug : option string; d_current : option string; d_voided : option (Z * string * string); d_created : Z
}.

(** A row of [document_versions]. *)
Record VerRow := mkVer {
  v_org : string; v_doc : string; v_no : Z; v_s3_key : option string; v_checksum : option string;
  v_mime : option string; v_size : option Z; v_template : option string; v_engine : option string;
  v_snapshot : option json; v_user : option string
}.

(** The database and the object storage.  [links] are the rows of [document_entries]
    (organization, document, entry), [entries] the journal entries with their
    organization and status, [held] the documents an HR order or a tax filing names. *)
Record Store := mkStore {
  docs : gmap string DocRow; vers : gmap string VerRow; links : list (string * string * string);
  entries : gmap string (string * string); held : gset string; parties : gmap string string; orgs : gset string;
  seq : nat; now : Z; objects : gmap string string; templates : OrgTemplates.DB; queue : list json
}.

Definition with_docs (f : gmap string DocRow -> gmap string DocRow) (w : Store) : Store :=
  mkStore (f (docs w)) (vers w) (links w) (entries w) (held w) (parties w) (orgs w) (seq w) (now w) (objects w) (templates w) (queue w).
Definition with_vers (f : gmap string VerRow -> gmap string VerRow) (w : Store) : Store :=
  mkStore (docs w) (f (vers w)) (links w) (entries w) (held w) (parties w) (orgs w) (seq w) (now w) (objects w) (templates w) (queue w).
Definition with_links (f : list (string * string * string) -> list (string * string * string)) (w : Store) : Store :=
  mkStore (docs w) (vers w) (f (links w)) (entries w) (held w) (parties w) (orgs w) (seq w) (now w) (objects w) (templates w) (queue w).
Definition with_objects (f : gmap string string -> gmap string string) (w : Store) : Store :=
  mkStore (docs w) (vers w) (links w) (entries w) (held w) (parties w) (orgs w) (seq w) (now w) (f (objects w)) (templates w) (queue w).
Definition with_queue (f : list json -> list json) (w : Store) : Store :=
  mkStore (docs w) (vers w) (links w) (entries w) (held w) (parties w) (orgs w) (seq w) (now w) (objects w) (templates w) (f (queue w)).
Definition with_templates (t : OrgTemplates.DB) (w : Store) : Store :=
  mkStore (docs w) (vers w) (links w) (entries w) (held w) (parties w) (orgs w) (seq w) (now w) (objects w) t (queue w).
Definition next_ids (n : nat) (w : Store) : Store :=
  mkStore (docs w) (vers w) (links w) (entries w) (held w) (parties w) (orgs w) (n + seq w)%nat (now w + 1) (objects w) (templates w) (queue w).

(** What other subsystems do: journal entries, HR orders and filings, organizations
    and counterparties come and go, templates change, and time passes. *)
Definition elsewhere (e : gmap string (string * string)) (h : gset string) (p : gmap string string) (o : gset string)
    (n : Z) (t : OrgTemplates.DB) (w : Store) : Store :=
  mkStore (docs w) (vers w) (links w) e h p o (seq w) n (objects w) t (queue w).

(** Which documents are named by rows elsewhere. *)
Definition hold_only (h : gset string) (w : Store) : Store := elsewhere (entries w) h (parties w) (orgs w) (now w) (templates w) w.

(** The versions of a document and the newest number among them. *)
Definition versions_of (w : Store) (id : string) : list (string * VerRow) :=
  List.filter (fun e => String.eqb (v_doc e.2) id) (map_to_list (vers w)).

Definition max_no (w : Store) (id : string) : Z := foldr (fun e m => Z.max (v_no e.2) m) 0 (versions_of w id).

(** [Document]: src/ledger/Document.hpp:54-86.  The row, its current version and the
    number of the newest one. *)
Record Document := mkDocument { doc_id : string; doc : DocRow; file : option VerRow; latest_version_no : Z }.

(** [from_row]: src/ledger/Document.hpp:89-129.  Through the join of
    DocumentRepository.hpp, which reads the file from the current version. *)
Definition document (w : Store) (id : string) (r : DocRow) : Document :=
  mkDocument id r (d_current r ≫= fun v => vers w !! v) (max_no w id).

Definition s3_key (d : Document) : option string := file d ≫= v_s3_key.
Definition input_snapshot (d : Document) : option json := file d ≫= v_snapshot.

Definition opt {A} (f : A -> json) (o : option A) : json := match o with Some a => f a | None => JNull end.

(** [to_json]: src/ledger/Document.hpp:132-155.  (Time stamps left out.) *)
Definition document_json (d : Document) : json :=
  JObject [("checksum_sha256", opt JString (file d ≫= v_checksum)); ("counterparty_id", opt JString (d_counterparty (doc d)));
           ("current_version_id", opt JString (d_current (doc d))); ("doc_type", JString (d_type (doc d)));
           ("id", JString (doc_id d)); ("input_snapshot", opt id (input_snapshot d));
           ("latest_version_no", JInt (latest_version_no d)); ("mime", opt JString (file d ≫= v_mime));
           ("org_id", JString (d_org (doc d))); ("s3_key", opt JString (s3_key d));
           ("size_bytes", opt JInt (file d ≫= v_size)); ("source", JString (d_source (doc d)));
           ("status", JString (d_status (doc d))); ("template_slug", opt JString (d_slug (doc d)));
           ("template_version", opt JString (file d ≫= v_template));
           ("void_reason", opt (fun x => JString x.2) (d_voided (doc d)));
           ("voided_by_user_id", opt (fun x => JString x.1.2) (d_voided (doc d)))].

(** [to_json]: src/ledger/DocumentVersion.hpp:93-114.  The snapshot stays inside. *)
Definition version_json (vid : string) (v : VerRow) : json :=
  JObject [("checksum_sha256", opt JString (v_checksum v)); ("created_by_user_id", opt JString (v_user v));
           ("document_id", JString (v_doc v)); ("id", JString vid); ("mime", opt JString (v_mime v));
           ("render_engine", opt JString (v_engine v)); ("s3_key", opt JString (v_s3_key v));
           ("size_bytes", opt JInt (v_size v)); ("template_version", opt JString (v_template v));
           ("version_no", JInt (v_no v))].

(** ** The repository *)

Definition sql_error {A} (state : string) : st Store A := throw pqxx_sql_error state.

Definition doc_types : list string :=
  ["invoice"; "avr"; "waybill"; "tax_invoice"; "reconciliation"; "power_of_attorney"; "incoming"; "bank_statement"; "hr";
   "payroll"; "fno"; "other"].
Definition statuses : list string := ["inbox"; "recognized"; "linked"; "archived"; "draft"; "final"; "sent"].

(** The row of a document, of the organization. *)
Definition find_row (org id : string) (w : Store) : option DocRow :=
  match docs w !! id with Some r => if String.eqb (d_org r) org then Some r else None | None => None end.

(** [UPDATE documents SET ... WHERE id = $1 AND org_id = $2 AND ... RETURNING id] *)
Definition update_doc (org id : string) (cond : DocRow -> bool) (f : DocRow -> DocRow) : st Store bool := fun w =>
  match find_row org id w with
  | Some r => if cond r then (Ok true, with_docs (insert id (f r)) w) else (Ok false, w)
  | None => (Ok false, w)
  end.

Definition set_current (vid : string) (r : DocRow) : DocRow :=
  mkDoc (d_org r) (d_type r) (d_source r) (d_status r) (d_counterparty r) (d_slug r) (Some vid) (d_voided r) (d_created r).
Definition set_stat (s : string) (r : DocRow) : DocRow :=
  mkDoc (d_org r) (d_type r) (d_source r) s (d_counterparty r) (d_slug r) (d_current r) (d_voided r) (d_created r).
Definition set_void (x : Z * string * string) (r : DocRow) : DocRow :=
  mkDoc (d_org r) (d_type r) (d_source r) (d_status r) (d_counterparty r) (d_slug r) (d_current r) (Some x) (d_created r).

Section Repository.
Context `{PG : Postgres}.

(** [create]: src/ledger/DocumentRepository.hpp:150-188. *)
Definition create (org doc_type src stat : string) (counterparty slug tver : option string) (snap : option json)
    (user : option string) : st Store Document := fun w =>
  let did := gen_random_uuid (seq w) in
  let vid := gen_random_uuid (S (seq w)) in
  let r := mkDoc org doc_type src stat counterparty slug None None (now w) in
  let v := mkVer org did 1 None None None None tver None snap user in
  if negb (bool_decide (doc_type ∈ doc_types) && bool_decide (src ∈ ["generated"; "uploaded"; "email"]) &&
           bool_decide (stat ∈ statuses)) then sql_error "23514" w
  else if negb (bool_decide (org ∈ orgs w)) ||
          match counterparty with Some c => negb (bool_decide (is_Some (parties w !! c))) | None => false end
  then sql_error "23503" w
  else
    let w' := next_ids 2 (with_vers (insert vid v) (with_docs (insert did r) w)) in
    (Ok (document w' did r), w').

(** The newest version of a document. *)
Definition newest (w : Store) (id : string) : option (string * VerRow) :=
  List.find (fun e => v_no e.2 =? max_no w id) (versions_of w id).

(** [set_pending_upload]: src/ledger/DocumentRepository.hpp:230-263. *)
Definition set_pending_upload (org id key mime : string) : st Store bool := fun w =>
  match find_row org id w, newest w id with
  | Some r, Some (vid, v) =>
      if String.eqb (d_status r) "draft" && String.eqb (v_org v) org then
        let v' := mkVer (v_org v) (v_doc v) (v_no v) (Some key) (v_checksum v) (Some mime) (v_size v) (v_template v)
                    (v_engine v) (v_snapshot v) (v_user v) in
        (Ok true, with_docs (insert id (set_current vid r)) (with_vers (insert vid v') w))
      else (Ok false, w)
  | _, _ => (Ok false, w)
  end.

(** The rows a listing selects. *)
Definition selected (org : string) (doc_type stat : option string) (r : DocRow) : bool :=
  String.eqb (d_org r) org &&
  match doc_type with Some t => String.eqb (d_type r) t | None => true end &&
  match stat with Some s => String.eqb (d_status r) s | None => true end.

Definition newer (a b : string * DocRow) : bool := d_created b.2 <? d_created a.2.

Definition selection (org : string) (doc_type stat : option string) (w : Store) : list (string * DocRow) :=
  List.filter (fun e => selected org doc_type stat e.2) (map_to_list (docs w)).

(** [list_filtered]: src/ledger/DocumentRepository.hpp:276-299. *)
Definition list_filtered (org : string) (doc_type stat : option string) (limit offset : nat) : st Store (list Document) :=
  gets (fun w => map (fun e => document w e.1 e.2)
                   (take limit (drop offset (stable_sort newer (selection org doc_type stat w))))).

(** [count_filtered]: src/ledger/DocumentRepository.hpp:308-321. *)
Definition count_filtered (org : string) (doc_type stat : option string) : st Store Z :=
  gets (fun w => Z.of_nat (length (selection org doc_type stat w))).

(** [add_version]: src/ledger/DocumentRepository.hpp:352-383. *)
Definition add_version (org id : string) (snap : option json) (tver user : option string) : st Store (string * VerRow) := fun w =>
  match find_row org id w with
  | None => throw NotFoundError "document" w
  | Some r =>
      let vid := gen_random_uuid (seq w) in
      let no := max_no w id + 1 in
      if in_i32 no then
        let v := mkVer (d_org r) id no None None None None tver None snap user in
        (Ok (vid, v), next_ids 1 (with_vers (insert vid v) w))
      else sql_error "22003" w
  end.

Definition older (a b : string * VerRow) : bool := v_no a.2 <? v_no b.2.

Definition versions_in (org id : string) (w : Store) : list (string * VerRow) :=
  List.filter (fun e => String.eqb (v_org e.2) org) (versions_of w id).

(** [list_versions]: src/ledger/DocumentRepository.hpp:389-402. *)
Definition list_versions (org id : string) : st Store (list (string * VerRow)) :=
  gets (fun w => stable_sort older (versions_in org id w)).

(** [find_version]: src/ledger/DocumentRepository.hpp:405-419. *)
Definition find_version (org id : string) (no : Z) : st Store (option (string * VerRow)) :=
  gets (fun w => List.find (fun e => v_no e.2 =? no) (versions_in org id w)).

(** [latest_version]: src/ledger/DocumentRepository.hpp:429-443. *)
Definition latest_version (org id : string) : st Store (option (string * VerRow)) :=
  gets (fun w => head (stable_sort (fun a b => older b a) (versions_in org id w))).

(** [VersionRenderState]: src/ledger/DocumentRepository.hpp:79-85. *)
Inductive VersionRenderState := kMissing | kRenderable | kAlreadyRendered | kSuperseded | kVoidedDoc.

(** [version_render_state]: src/ledger/DocumentRepository.hpp:460-499. *)
Definition render_state (org id vid : string) (w : Store) : VersionRenderState :=
  match vers w !! vid with
  | None => kMissing
  | Some v =>
      match docs w !! v_doc v with
      | None => kMissing
      | Some r =>
          if negb (String.eqb (v_doc v) id && String.eqb (v_org v) org) then kMissing
          else if bool_decide (is_Some (d_voided r)) then kVoidedDoc
          else if negb (v_no v =? max_no w (v_doc v)) then kSuperseded
          else if bool_decide (is_Some (v_s3_key v)) then kAlreadyRendered
          else kRenderable
      end
  end.
Definition version_render_state (org id vid : string) : st Store VersionRenderState := gets (render_state org id vid).

(** [set_version_file]: src/ledger/DocumentRepository.hpp:519-541. *)
Definition set_version_file (org vid key checksum mime : string) (size_bytes : Z) (engine : option string) : st Store bool :=
  fun w =>
    match vers w !! vid with
    | Some v =>
        if String.eqb (v_org v) org then
          (Ok true, with_vers (insert vid (mkVer (v_org v) (v_doc v) (v_no v) (Some key) (Some checksum) (Some mime)
                      (Some size_bytes) (v_template v) (match engine with Some e => Some e | None => v_engine v end)
                      (v_snapshot v) (v_user v))) w)
        else (Ok false, w)
    | None => (Ok false, w)
    end.

(** The EXISTS of [set_current_version]: a version of this document and organization, the newest. *)
Definition publishable (org id vid : string) (w : Store) : bool :=
  match vers w !! vid with
  | Some v => String.eqb (v_org v) org && String.eqb (v_doc v) id && (v_no v =? max_no w id)
  | None => false
  end.

(** [set_current_version]: src/ledger/DocumentRepository.hpp:573-588. *)
Definition set_current_version (org id vid : string) : st Store bool := fun w =>
  update_doc org id (fun _ => publishable org id vid w) (set_current vid) w.

(** [set_status]: src/ledger/DocumentRepository.hpp:596-602. *)
Definition set_status (org id stat : string) : st Store bool := fun w =>
  match find_row org id w with
  | Some _ => if bool_decide (stat ∈ statuses) then update_doc org id (fun _ => true) (set_stat stat) w else sql_error "23514" w
  | None => (Ok false, w)
  end.

(** [set_status_if]: src/ledger/DocumentRepository.hpp:617-630. *)
Definition set_status_if (org id from to : string) : st Store bool := fun w =>
  match find_row org id w with
  | Some r =>
      if String.eqb (d_status r) from then
        if bool_decide (to ∈ statuses) then update_doc org id (fun _ => true) (set_stat to) w else sql_error "23514" w
      else (Ok false, w)
  | None => (Ok false, w)
  end.

(** [link_entry]: src/ledger/DocumentRepository.hpp:661-667.  The INSERT with its keys. *)
Definition insert_link (org did eid : string) : st Store bool := fun w =>
  if match docs w !! did with Some r => String.eqb (d_org r) org | None => false end &&
     match entries w !! eid with Some e => String.eqb e.1 org | None => false end then
    if existsb (fun l => String.eqb l.1.2 did && String.eqb l.2 eid) (links w) then sql_error "23505" w
    else (Ok true, with_links (fun l => l ++ [(org, did, eid)])%list w)
  else sql_error "23503" w.

(** [link_entry]: src/ledger/DocumentRepository.hpp:659-674. *)
Definition link_entry (org did eid : string) : st Store bool := fun w =>
  match insert_link org did eid w with
  | (Throw e, w') =>
      if String.eqb (what e) "23503" || String.eqb (what e) "23505" then (Ok false, w') else (Throw e, w')
  | r => r
  end.

(** [list_for_entry]: src/ledger/DocumentRepository.hpp:681-697. *)
Definition list_for_entry (org eid : string) : st Store (list Document) :=
  gets (fun w => map (fun e => document w e.1 e.2) (stable_sort newer (omap (fun l : string * string * string =>
    if String.eqb l.1.1 org && String.eqb l.2 eid then pair l.1.2 <$> docs w !! l.1.2 else None) (links w)))).

(** The statuses of the entries linked to a document. *)
Definition linked_statuses (org id : string) (w : Store) : list string :=
  omap (fun l : string * string * string =>
          if String.eqb l.1.2 id && String.eqb l.1.1 org then snd <$> entries w !! l.2 else None) (links w).

Definition is_posted (status : string) : bool := String.eqb status "posted" || String.eqb status "reversed".

(** [posted_link_exists]: src/ledger/DocumentRepository.hpp:810-819. *)
Definition posted_link_exists (org id : string) (w : Store) : bool := existsb is_posted (linked_statuses org id w).

(** [has_posted_entry_link]: src/ledger/DocumentRepository.hpp:708-711. *)
Definition has_posted_entry_link (org id : string) : st Store bool := gets (posted_link_exists org id).

(** [DeleteOutcome]: src/ledger/DocumentRepository.hpp:90-96. *)
Inductive DeleteOutcome := kDeleted | kNotFound | kHasPostedEntries | kReferenced | kVoided.

(** [remove]: src/ledger/DocumentRepository.hpp:752-764.  The locked row, and whether it is voided. *)
Definition lock_document (org id : string) (w : Store) : option bool :=
  (fun r => bool_decide (is_Some (d_voided r))) <$> find_row org id w.

(** [linked_posted_entry_exists_locked]: src/ledger/DocumentRepository.hpp:856-870. *)
Fixpoint any_posted (statuses : list string) : bool :=
  match statuses with
  | [] => false
  | s :: r => if String.eqb s "posted" || String.eqb s "reversed" then true else any_posted r
  end.

(** [remove]: src/ledger/DocumentRepository.hpp:769-777.  The DELETE with its cascades, or the foreign key in its way. *)
Definition delete_document (org id : string) (w : Store) : DeleteOutcome * Store :=
  match find_row org id w with
  | None => (kNotFound, w)
  | Some _ =>
      if bool_decide (id ∈ held w) then (kReferenced, w)
      else (kDeleted, with_links (List.filter (fun l => negb (String.eqb l.1.2 id)))
                        (with_vers (filter (fun e : string * VerRow => v_doc e.2 <> id)) (with_docs (delete id) w)))
  end.

(** [remove]: src/ledger/DocumentRepository.hpp:741-778.  (One
    transaction: the document is locked first, then the linked entries.) *)
Definition remove (org id : string) : st Store DeleteOutcome := fun w =>
  match lock_document org id w with
  | None => (Ok kNotFound, w)
  | Some true => (Ok kVoided, w)
  | Some false =>
      if any_posted (linked_statuses org id w) then (Ok kHasPostedEntries, w)
      else let '(out, w') := delete_document org id w in (Ok out, w')
  end.

(** [void_document]: src/ledger/DocumentRepository.hpp:786-800. *)
Definition void_document (org id user reason : string) : st Store bool := fun w =>
  update_doc org id (fun r => negb (bool_decide (is_Some (d_voided r)))) (set_void (now w, user, reason)) w.

(** [find_in_org]: src/tenancy/OrgScoped.hpp:48-59. *)
Definition find_in_org (id org : string) : st Store (option Document) :=
  gets (fun w => document w id <$> find_row org id w).

End Repository.

(** ** What every program keeps *)

Section Invariant.
Context `{PG : Postgres}.

(** The newest number, as the table determines it. *)
Definition is_max (w : Store) (id : string) (m : Z) : Prop :=
  0 <= m /\ (forall vid v, vers w !! vid = Some v -> v_doc v = id -> v_no v <= m) /\
  (m = 0 \/ exists vid v, vers w !! vid = Some v /\ v_doc v = id /\ v_no v = m).

Lemma in_versions w id vid v : In (vid, v) (versions_of w id) <-> vers w !! vid = Some v /\ v_doc v = id.
Proof.
  unfold versions_of. rewrite filter_In, <- list_elem_of_In, elem_of_map_to_list. cbn [snd]. by rewrite String.eqb_eq.
Qed.

Lemma max_no_is_max w id : is_max w id (max_no w id).
Proof.
  unfold is_max.
  assert (forall l : list (string * VerRow), 0 <= foldr (fun e m => Z.max (v_no e.2) m) 0 l /\
    (forall e, In e l -> v_no e.2 <= foldr (fun e m => Z.max (v_no e.2) m) 0 l) /\
    (foldr (fun e m => Z.max (v_no e.2) m) 0 l = 0 \/ exists e, In e l /\ v_no e.2 = foldr (fun e m => Z.max (v_no e.2) m) 0 l)) as H.
  { induction l as [|e l (H0 & H1 & H2)]; cbn [foldr]; [repeat split; [lia | done | by left]|].
    split; [lia|]. split; [intros e' [->|He']; [lia | specialize (H1 _ He'); lia]|].
    destruct (Z.max_spec (v_no e.2) (foldr (fun e m => Z.max (v_no e.2) m) 0 l)) as [[_ ->]|[_ ->]].
    - destruct H2 as [H2|(e' & ? & ?)]; [by left | right; exists e'; cbn; auto].
    - right. exists e. cbn; auto. }
  destruct (H (versions_of w id)) as (H0 & H1 & H2). split; [done|]. split.
  - intros vid v Hv Hd. apply (H1 (vid, v)). by apply in_versions.
  - destruct H2 as [H2|([vid v] & Hi & Hm)]; [by left | right]. exists vid, v. apply in_versions in Hi as [? ?]. auto.
Qed.

Lemma is_max_inj w id m m' : is_max w id m -> is_max w id m' -> m = m'.
Proof.
  assert (forall a b, is_max w id a -> is_max w id b -> a <= b) as H; [|intros H1 H2; apply Z.le_antisymm; by apply H].
  intros a b (_ & _ & [->|(vid & v & Hv & Hd & <-)]) (Hb & H & _); [done|]. by apply (H vid).
Qed.

Lemma max_no_ge w id vid v : vers w !! vid = Some v -> v_doc v = id -> v_no v <= max_no w id.
Proof. destruct (max_no_is_max w id) as (_ & H & _). apply H. Qed.

Lemma newest_spec w id vid v : newest w id = Some (vid, v) -> vers w !! vid = Some v /\ v_doc v = id /\ v_no v = max_no w id.
Proof. intros E%List.find_some. cbn [snd] in E. destruct E as [[? ?]%in_versions ?%Z.eqb_eq]. auto. Qed.

(** What never changes in a row. *)
Definition doc_head (r : DocRow) := (d_org r, d_type r, d_source r, d_counterparty r, d_slug r, d_created r).
Definition ver_head (v : VerRow) := (v_org v, v_doc v, v_no v, v_template v, v_snapshot v, v_user v).

(** The number of the version a document shows; zero when it shows none. *)
Definition shown_no (w : Store) (r : DocRow) : Z :=
  match d_current r ≫= fun vid => vers w !! vid with Some v => v_no v | None => 0 end.

Record good (w : Store) : Prop := mkGood {
  good_doc_ids : forall id r, docs w !! id = Some r -> exists n, (n < seq w)%nat /\ id = gen_random_uuid n;
  good_ver_ids : forall vid v, vers w !! vid = Some v -> exists n, (n < seq w)%nat /\ vid = gen_random_uuid n;
  good_fk : forall vid v, vers w !! vid = Some v -> exists r, docs w !! v_doc v = Some r /\ d_org r = v_org v;
  good_nos : forall i j u v, vers w !! i = Some u -> vers w !! j = Some v -> v_doc u = v_doc v -> v_no u = v_no v -> i = j;
  good_pos : forall vid v, vers w !! vid = Some v -> 1 <= v_no v;
  good_dense : forall id r n, docs w !! id = Some r -> n = 1 \/ 1 <= n <= max_no w id ->
    exists vid v, vers w !! vid = Some v /\ v_doc v = id /\ v_no v = n;
  good_current : forall id r vid, docs w !! id = Some r -> d_current r = Some vid ->
    exists v, vers w !! vid = Some v /\ v_doc v = id /\ is_Some (v_s3_key v);
  good_links : forall l, l ∈ links w -> exists r, docs w !! l.1.2 = Some r /\ d_org r = l.1.1
}.

(** How a store may change while nobody looks.  Rows are named by the number their
    identifier was drawn with. *)
Record evolves (w w' : Store) : Prop := mkEvolves {
  ev_seq : (seq w <= seq w')%nat;
  ev_doc : forall n r, (n < seq w)%nat -> docs w !! gen_random_uuid n = Some r ->
    (docs w' !! gen_random_uuid n = None /\ d_voided r = None) \/
    exists r', docs w' !! gen_random_uuid n = Some r' /\ doc_head r' = doc_head r /\
      (forall x, d_voided r = Some x -> d_voided r' = Some x) /\ shown_no w r <= shown_no w' r';
  ev_gone : forall n, (n < seq w)%nat -> docs w !! gen_random_uuid n = None -> docs w' !! gen_random_uuid n = None;
  ev_ver : forall n m v, (n < seq w)%nat -> (m < seq w)%nat -> vers w !! gen_random_uuid n = Some v ->
    v_doc v = gen_random_uuid m ->
    (vers w' !! gen_random_uuid n = None /\ docs w' !! gen_random_uuid m = None) \/
    exists v', vers w' !! gen_random_uuid n = Some v' /\ ver_head v' = ver_head v /\ (is_Some (v_s3_key v) -> is_Some (v_s3_key v'));
  ev_ver_gone : forall n, (n < seq w)%nat -> vers w !! gen_random_uuid n = None -> vers w' !! gen_random_uuid n = None;
  ev_objects : forall key, is_Some (objects w !! key) -> is_Some (objects w' !! key)
}.

Lemma head_doc v v' : ver_head v' = ver_head v -> v_doc v' = v_doc v /\ v_no v' = v_no v /\ v_org v' = v_org v.
Proof. unfold ver_head. intros [= ? ? ? ? ? ?]. auto. Qed.

#[export] Instance evolves_preorder : PreOrder evolves.
Proof.
  split.
  - intros w. constructor; [lia | | done | | done | done].
    + intros n r _ Hr. right. exists r. repeat split; [done..|lia].
    + intros n m v _ _ Hv _. right. by exists v.
  - intros w1 w2 w3 [S1 D1 G1 V1 H1 O1] [S2 D2 G2 V2 H2 O2]. constructor; [lia | | | | | auto].
    + intros n r Hn Hr. destruct (D1 n r Hn Hr) as [[Hg Hv]|(r' & Hr' & Hh & Hv & Hs)].
      * left. split; [apply G2; [lia | done] | done].
      * destruct (D2 n r') as [[Hg Hv']|(r'' & Hr'' & Hh' & Hv' & Hs')]; [lia | done | |].
        -- left. split; [done|]. destruct (d_voided r) as [x|]; [by rewrite (Hv x) in Hv' | done].
        -- right. exists r''. repeat split; [done | by rewrite Hh' | auto | lia].
    + intros n Hn Hr. apply G2; [lia | by apply G1].
    + intros n m v Hn Hm Hv Hd. destruct (V1 n m v Hn Hm Hv Hd) as [[Hg Hg']|(v' & Hv' & Hh & Hk)].
      * left. split; [apply H2 | apply G2]; (lia || done).
      * destruct (head_doc _ _ Hh) as (Ed & _). destruct (V2 n m v') as [?|(v'' & Hv'' & Hh' & Hk')]; [lia | lia | done | congruence | by left|].
        right. exists v''. repeat split; [done | by rewrite Hh' | auto].
    + intros n Hn Hv. apply H2; [lia | by apply H1].
Qed.

(** A step keeps the invariant and moves as expected. *)
Definition steps (w w' : Store) : Prop := good w' /\ evolves w w'.

Lemma max_no_vers w w' id : vers w' = vers w -> max_no w' id = max_no w id.
Proof. intros E. unfold max_no, versions_of. by rewrite E. Qed.

Lemma shown_vers w w' r : vers w' = vers w -> shown_no w' r = shown_no w r.
Proof. intros E. unfold shown_no. by rewrite E. Qed.

(** The tables are not touched. *)
Lemma frame_good w w' : good w -> docs w' = docs w -> vers w' = vers w -> links w' = links w -> (seq w <= seq w')%nat -> good w'.
Proof.
  intros [G1 G2 G3 G4 G5 G6 G7 G8] Ed Ev El Es. constructor; rewrite ?Ed, ?Ev, ?El; try done.
  - intros id r Hr. destruct (G1 _ _ Hr) as (n & ? & ?). exists n. split; [lia | done].
  - intros id r Hr. destruct (G2 _ _ Hr) as (n & ? & ?). exists n. split; [lia | done].
  - intros id r n. rewrite (max_no_vers w w') by done. apply G6.
Qed.

Lemma frame_steps w w' : good w -> docs w' = docs w -> vers w' = vers w -> links w' = links w -> (seq w <= seq w')%nat ->
  (forall key, is_Some (objects w !! key) -> is_Some (objects w' !! key)) -> steps w w'.
Proof.
  intros G Ed Ev El Es Eo. split.
  - by apply (frame_good w).
  - constructor; rewrite ?Ed, ?Ev; [lia | | done | | done | done].
    + intros n r _ Hr. right. exists r. rewrite (shown_vers w w') by done. repeat split; [done..|lia].
    + intros n m v _ _ Hv _. right. by exists v.
Qed.

(** An object is put away. *)
Lemma put_steps w key bytes : good w -> steps w (with_objects (insert key bytes) w).
Proof.
  intros G. apply frame_steps; [done..|]. intros k [b Hk]. cbn [objects with_objects].
  destruct (decide (k = key)) as [->|]; [by rewrite lookup_insert_eq; eexists | rewrite lookup_insert_ne by done; by exists b].
Qed.

Lemma insert_ver_max w vid v v' id : vers w !! vid = Some v -> ver_head v' = ver_head v ->
  max_no (with_vers (insert vid v') w) id = max_no w id.
Proof.
  intros Hv Hh. destruct (head_doc _ _ Hh) as (Ed & En & _). apply (is_max_inj (with_vers (insert vid v') w) id); [apply max_no_is_max|].
  destruct (max_no_is_max w id) as (H0 & H1 & H2). split; [done|]. cbn [vers with_vers]. split.
  - intros j u. destruct (decide (j = vid)) as [->|Hj].
    + rewrite lookup_insert_eq. intros [= <-] Hd. rewrite En. apply (H1 vid v Hv). congruence.
    + rewrite lookup_insert_ne by done. apply H1.
  - destruct H2 as [H2|(j & u & Hu & Hd & Hn)]; [by left | right]. destruct (decide (j = vid)) as [->|Hj].
    + exists vid, v'. rewrite lookup_insert_eq. rewrite Hv in Hu. injection Hu as <-. repeat split; [congruence | lia].
    + exists j, u. by rewrite lookup_insert_ne.
Qed.

(** A version's file is written. *)
Lemma file_steps w vid v v' : good w -> vers w !! vid = Some v -> ver_head v' = ver_head v ->
  (is_Some (v_s3_key v) -> is_Some (v_s3_key v')) -> steps w (with_vers (insert vid v') w).
Proof.
  intros [G1 G2 G3 G4 G5 G6 G7 G8] Hv Hh Hk. destruct (head_doc _ _ Hh) as (Ed & En & Eo).
  assert (forall j u', (with_vers (insert vid v') w).(vers) !! j = Some u' ->
    exists u, vers w !! j = Some u /\ ver_head u' = ver_head u /\ (is_Some (v_s3_key u) -> is_Some (v_s3_key u'))) as Hold.
  { intros j u'. cbn [vers with_vers]. destruct (decide (j = vid)) as [->|Hj].
    - rewrite lookup_insert_eq. intros [= <-]. by exists v.
    - rewrite lookup_insert_ne by done. intros Hu. by exists u'. }
  assert (forall j u, vers w !! j = Some u -> exists u', (with_vers (insert vid v') w).(vers) !! j = Some u' /\
    ver_head u' = ver_head u /\ (is_Some (v_s3_key u) -> is_Some (v_s3_key u'))) as Hnew.
  { intros j u Hu. cbn [vers with_vers]. destruct (decide (j = vid)) as [->|Hj].
    - exists v'. rewrite lookup_insert_eq. rewrite Hv in Hu. by injection Hu as <-.
    - exists u. by rewrite lookup_insert_ne. }
  split.
  - constructor.
    + exact G1.
    + intros j u' Hu'. destruct (Hold _ _ Hu') as (u & Hu & _). by apply (G2 j u).
    + intros j u' Hu'. destruct (Hold _ _ Hu') as (u & Hu & (-> & _ & ->)%head_doc & _). by apply (G3 j u).
    + intros i j u' v0' Hu' Hv0'. destruct (Hold _ _ Hu') as (u & Hu & (-> & -> & _)%head_doc & _).
      destruct (Hold _ _ Hv0') as (v0 & Hv0 & (-> & -> & _)%head_doc & _). by apply (G4 i j u v0).
    + intros j u' Hu'. destruct (Hold _ _ Hu') as (u & Hu & (_ & -> & _)%head_doc & _). by apply (G5 j u).
    + intros id r n Hr. rewrite (insert_ver_max w vid v v') by done. intros Hn. destruct (G6 id r n Hr Hn) as (j & u & Hu & Hd & Hno).
      destruct (Hnew _ _ Hu) as (u' & Hu' & (E1 & E2 & _)%head_doc & _). exists j, u'. repeat split; [done | congruence | lia].
    + intros id r j Hr Hc. destruct (G7 id r j Hr Hc) as (u & Hu & Hd & Hs).
      destruct (Hnew _ _ Hu) as (u' & Hu' & (E1 & _)%head_doc & Hs'). exists u'. repeat split; [done | congruence | auto].
    + exact G8.
  - constructor; [done | | done | | | done].
    + intros n r _ Hr. right. exists r. repeat split; [done | done |]. unfold shown_no.
      destruct (d_current r) as [j|]; cbn [mbind option_bind]; [|lia]. destruct (vers w !! j) as [u|] eqn:Hu.
      * destruct (Hnew _ _ Hu) as (u' & -> & (_ & -> & _)%head_doc & _). lia.
      * destruct (vers (with_vers (insert vid v') w) !! j) as [u'|] eqn:Hu'; [|done]. destruct (Hold _ _ Hu') as (u & ? & _). congruence.
    + intros n m u _ _ Hu _. right. by apply Hnew.
    + intros n _ Hu. destruct (vers (with_vers (insert vid v') w) !! gen_random_uuid n) as [u'|] eqn:Hu'; [|done]. destruct (Hold _ _ Hu') as (u & ? & _). congruence.
Qed.

(** A document may show its newest version, once that has a file. *)
Definition next_row (w : Store) (id : string) (r r' : DocRow) : Prop :=
  doc_head r' = doc_head r /\ (forall x, d_voided r = Some x -> d_voided r' = Some x) /\
  (d_current r' = d_current r \/ exists vid v, d_current r' = Some vid /\ vers w !! vid = Some v /\ v_doc v = id /\
     is_Some (v_s3_key v) /\ v_no v = max_no w id).

Lemma head_org r r' : doc_head r' = doc_head r -> d_org r' = d_org r.
Proof. unfold doc_head. by intros [= ? ? ? ? ? ?]. Qed.

Lemma row_steps w id r r' : good w -> docs w !! id = Some r -> next_row w id r r' -> steps w (with_docs (insert id r') w).
Proof.
  intros G Hr (Hh & Hv & Hc). pose proof (head_org _ _ Hh) as Ho. pose proof G as [G1 G2 G3 G4 G5 G6 G7 G8].
  assert (forall j u', (with_docs (insert id r') w).(docs) !! j = Some u' -> (j = id /\ u' = r') \/ docs w !! j = Some u') as Hold.
  { intros j u'. cbn [docs with_docs]. destruct (decide (j = id)) as [->|Hj].
    - rewrite lookup_insert_eq. intros [= <-]. by left.
    - rewrite lookup_insert_ne by done. auto. }
  assert (forall j u, docs w !! j = Some u -> exists u', (with_docs (insert id r') w).(docs) !! j = Some u' /\ d_org u' = d_org u) as Hnew.
  { intros j u Hu. cbn [docs with_docs]. destruct (decide (j = id)) as [->|Hj].
    - exists r'. rewrite lookup_insert_eq. rewrite Hr in Hu. by injection Hu as <-.
    - exists u. by rewrite lookup_insert_ne. }
  split.
  - constructor; [| exact G2 | | exact G4 | exact G5 | | |].
    + intros j u' Hu'. destruct (Hold _ _ Hu') as [[-> ->]|Hu]; by eapply G1.
    + intros j u Hu. destruct (G3 j u Hu) as (d & Hd & E). destruct (Hnew _ _ Hd) as (d' & ? & ?). exists d'. split; [done | congruence].
    + intros j u' n Hu'. destruct (Hold _ _ Hu') as [[-> ->]|Hu]; by eapply G6.
    + intros j u' vid Hu' Hc'. destruct (Hold _ _ Hu') as [[-> ->]|Hu]; [|by apply (G7 j u')].
      destruct Hc as [Hc|(vid' & v & Hc & Hv' & Hd & Hs & _)]; [apply (G7 id r); congruence|].
      rewrite Hc in Hc'. injection Hc' as <-. by exists v.
    + intros l Hl. destruct (G8 l Hl) as (d & Hd & E). destruct (Hnew _ _ Hd) as (d' & ? & ?). exists d'. split; [done | congruence].
  - constructor; [done | | | |done | done].
    + intros n u _ Hu. right. cbn [docs with_docs]. destruct (decide (gen_random_uuid n = id)) as [E|Hj].
      * rewrite E, lookup_insert_eq. exists r'. rewrite E, Hr in Hu. injection Hu as <-. split; [done|]. split; [done|]. split; [done|].
        rewrite (shown_vers w (with_docs (insert id r') w)) by done. unfold shown_no.
        destruct Hc as [->|(vid & v & -> & Hv' & Hd & _ & Hm)]; [lia|]. cbn [mbind option_bind]. rewrite Hv', Hm.
        destruct (d_current r) as [c|] eqn:Ec; cbn [mbind option_bind]; [|apply max_no_is_max].
        destruct (G7 id r c Hr Ec) as (u & Hu & Hd' & _). rewrite Hu. by apply (max_no_ge w id c).
      * rewrite lookup_insert_ne by done. exists u. rewrite (shown_vers w (with_docs (insert id r') w)) by done. repeat split; [done..|lia].
    + intros n _ Hn. cbn [docs with_docs]. rewrite lookup_insert_ne; [done | intros E; congruence].
    + intros n m v _ _ Hv' _. right. by exists v.
Qed.

Lemma fresh_ver w n : good w -> (seq w <= n)%nat -> vers w !! gen_random_uuid n = None.
Proof.
  intros G Hn. destruct (_ !! _) as [v|] eqn:E; [|done]. destruct (good_ver_ids w G _ _ E) as (m & Hm & Eq%uuid_unique). lia.
Qed.

Lemma fresh_doc w n : good w -> (seq w <= n)%nat -> docs w !! gen_random_uuid n = None.
Proof.
  intros G Hn. destruct (_ !! _) as [v|] eqn:E; [|done]. destruct (good_doc_ids w G _ _ E) as (m & Hm & Eq%uuid_unique). lia.
Qed.

Lemma insert_new_max w vid v m : vers w !! vid = None -> v_no v = max_no w (v_doc v) + 1 ->
  max_no (with_vers (insert vid v) (next_ids m w)) (v_doc v) = max_no w (v_doc v) + 1 /\
  forall id, id <> v_doc v -> max_no (with_vers (insert vid v) (next_ids m w)) id = max_no w id.
Proof.
  intros Hv Hno. split.
  - eapply is_max_inj; [apply max_no_is_max|]. destruct (max_no_is_max w (v_doc v)) as (H0 & H1 & _).
    split; [lia|]. cbn [vers with_vers next_ids]. split.
    + intros j u. destruct (decide (j = vid)) as [->|Hj]; [rewrite lookup_insert_eq; intros [= <-] _; lia|].
      rewrite lookup_insert_ne by done. intros Hu Hd. specialize (H1 j u Hu Hd). lia.
    + right. exists vid, v. by rewrite lookup_insert_eq.
  - intros id Hid. eapply is_max_inj; [apply max_no_is_max|]. destruct (max_no_is_max w id) as (H0 & H1 & H2).
    split; [done|]. cbn [vers with_vers next_ids]. split.
    + intros j u. destruct (decide (j = vid)) as [->|Hj]; [rewrite lookup_insert_eq; intros [= <-] Hd; congruence|].
      rewrite lookup_insert_ne by done. apply H1.
    + destruct H2 as [H2|(j & u & Hu & Hd)]; [by left | right]. exists j, u. rewrite lookup_insert_ne; [done | congruence].
Qed.

(** A version is appended. *)
Lemma append_steps w id r v : good w -> docs w !! id = Some r -> v_doc v = id -> v_org v = d_org r ->
  v_no v = max_no w id + 1 -> steps w (with_vers (insert (gen_random_uuid (seq w)) v) (next_ids 1 w)).
Proof.
  intros G Hr Hd Ho Hno. pose proof (fresh_ver w (seq w) G (le_n _)) as Hf.
  destruct (insert_new_max w (gen_random_uuid (seq w)) v 1 Hf) as [M1 M2]; [by rewrite Hd|]. rewrite Hd in M1, M2.
  set (vid := gen_random_uuid (seq w)) in *. set (w' := with_vers _ _) in *. pose proof G as [G1 G2 G3 G4 G5 G6 G7 G8].
  assert (forall j u, vers w' !! j = Some u <-> (j = vid /\ u = v) \/ vers w !! j = Some u) as Hw'.
  { intros j u. unfold w'. cbn [vers with_vers next_ids]. rewrite lookup_insert_Some. split.
    - intros [[<- <-]|[_ ?]]; auto.
    - intros [[-> ->]|Hu]; [by left|]. right. split; [congruence | done]. }
  assert (seq w' = S (seq w)) as Es by done. assert (docs w' = docs w) as Edocs by done.
  assert (0 <= max_no w id) by apply max_no_is_max. split.
  - constructor; rewrite ?Edocs, ?Es.
    + intros j u Hu. destruct (G1 _ _ Hu) as (n & ? & ?). exists n. split; [lia | done].
    + intros j u [[-> ->]|Hu]%Hw'; [exists (seq w); split; [lia | done]|]. destruct (G2 _ _ Hu) as (n & ? & ?). exists n. split; [lia | done].
    + intros j u [[-> ->]|Hu]%Hw'; [exists r; by rewrite Hd | by apply (G3 j)].
    + intros i j u u2 [[-> ->]|Hu]%Hw' [[-> ->]|Hu2]%Hw' Ed En; [done | | | by apply (G4 i j u u2)].
      * pose proof (max_no_ge w id j u2 Hu2 ltac:(congruence)). lia.
      * pose proof (max_no_ge w id i u Hu ltac:(congruence)). lia.
    + intros j u [[-> ->]|Hu]%Hw'; [lia | by apply (G5 j)].
    + intros j d n Hj Hn. destruct (decide (j = id)) as [->|Hne].
      * rewrite M1 in Hn. destruct (decide (n = max_no w id + 1)) as [->|Hn']; [exists vid, v; split; [apply Hw'; by left | done]|].
        destruct (G6 id d n Hj) as (k & u & Hu & ? & ?); [lia|]. exists k, u. split; [apply Hw'; by right | done].
      * rewrite M2 in Hn by done. destruct (G6 j d n Hj Hn) as (k & u & Hu & ? & ?). exists k, u. split; [apply Hw'; by right | done].
    + intros j d c Hj Hc. destruct (G7 j d c Hj Hc) as (u & Hu & ? & ?). exists u. split; [apply Hw'; by right | done].
    + exact G8.
  - constructor; rewrite ?Edocs, ?Es; [lia | | done | | | done].
    + intros n d _ Hn. right. exists d. repeat split; [done | done |]. unfold shown_no.
      destruct (d_current d) as [c|] eqn:Ec; cbn [mbind option_bind]; [|lia]. destruct (G7 _ d c Hn Ec) as (u & Hu & _).
      rewrite Hu. replace (vers w' !! c) with (Some u) by (symmetry; apply Hw'; by right). lia.
    + intros n m u _ _ Hu _. right. exists u. split; [apply Hw'; by right | done].
    + intros n Hn Hu. destruct (vers w' !! gen_random_uuid n) as [u|] eqn:E; [|done].
      apply Hw' in E as [[E%uuid_unique _]|E]; [lia | congruence].
Qed.

Lemma no_versions w id : good w -> docs w !! id = None -> max_no w id = 0.
Proof.
  intros G Hn. destruct (max_no_is_max w id) as (_ & _ & [?|(vid & v & Hv & <- & _)]); [done|].
  destruct (good_fk w G _ _ Hv) as (r & ? & _). congruence.
Qed.

(** A document is born with its first version. *)
Lemma birth_steps w r v : good w -> d_current r = None -> v_doc v = gen_random_uuid (seq w) -> v_org v = d_org r -> v_no v = 1 ->
  steps w (next_ids 2 (with_vers (insert (gen_random_uuid (S (seq w))) v) (with_docs (insert (gen_random_uuid (seq w)) r) w))).
Proof.
  intros G Hc Hd Ho Hno. set (did := gen_random_uuid (seq w)) in *. set (vid := gen_random_uuid (S (seq w))).
  assert (docs w !! did = None) as Fd by (by apply fresh_doc). assert (vers w !! vid = None) as Fv by (apply fresh_ver; [done | lia]).
  pose proof (no_versions w did G Fd) as M0. set (w' := next_ids _ _).
  assert (max_no w' did = 1 /\ forall id, id <> did -> max_no w' id = max_no w id) as [M1 M2].
  { destruct (insert_new_max w vid v 2 Fv) as [M1 M2]; [by rewrite Hd, M0, Hno|]. rewrite Hd, M0 in M1. rewrite Hd in M2.
    split; [|intros id Hid; rewrite <- (M2 id Hid)]; [rewrite (max_no_vers (with_vers (insert vid v) (next_ids 2 w)) w') by done; exact M1 | by apply max_no_vers]. }
  pose proof G as [G1 G2 G3 G4 G5 G6 G7 G8].
  assert (forall j u, vers w' !! j = Some u <-> (j = vid /\ u = v) \/ vers w !! j = Some u) as Hw'.
  { intros j u. unfold w'. cbn [vers with_vers with_docs next_ids]. rewrite lookup_insert_Some. split.
    - intros [[<- <-]|[_ ?]]; auto.
    - intros [[-> ->]|Hu]; [by left|]. right. split; [congruence | done]. }
  assert (forall j u, docs w' !! j = Some u <-> (j = did /\ u = r) \/ docs w !! j = Some u) as Hd'.
  { intros j u. unfold w'. cbn [docs with_vers with_docs next_ids]. rewrite lookup_insert_Some. split.
    - intros [[<- <-]|[_ ?]]; auto.
    - intros [[-> ->]|Hu]; [by left|]. right. split; [congruence | done]. }
  assert (seq w' = S (S (seq w))) as Es by done. split.
  - constructor; rewrite ?Es.
    + intros j u [[-> ->]|Hu]%Hd'; [exists (seq w); split; [lia | done]|]. destruct (G1 _ _ Hu) as (n & ? & ?). exists n. split; [lia | done].
    + intros j u [[-> ->]|Hu]%Hw'; [exists (S (seq w)); split; [lia | done]|]. destruct (G2 _ _ Hu) as (n & ? & ?). exists n. split; [lia | done].
    + intros j u [[-> ->]|Hu]%Hw'; [exists r; rewrite Hd; split; [apply Hd'; by left | done]|].
      destruct (G3 j u Hu) as (d & ? & ?). exists d. split; [apply Hd'; by right | done].
    + intros i j u u2 [[-> ->]|Hu]%Hw' [[-> ->]|Hu2]%Hw' Ed En; [done | | | by apply (G4 i j u u2)].
      * destruct (G3 j u2 Hu2) as (d & Hd2 & _). congruence.
      * destruct (G3 i u Hu) as (d & Hd2 & _). congruence.
    + intros j u [[-> ->]|Hu]%Hw'; [lia | by apply (G5 j)].
    + intros j d n [[-> ->]|Hj]%Hd' Hn.
      * exists vid, v. repeat split; [apply Hw'; by left | done | lia].
      * rewrite M2 in Hn by congruence. destruct (G6 j d n Hj Hn) as (k & u & Hu & ? & ?). exists k, u. split; [apply Hw'; by right | done].
    + intros j d c [[-> ->]|Hj]%Hd' Hcur; [congruence|]. destruct (G7 j d c Hj Hcur) as (u & Hu & ? & ?). exists u. split; [apply Hw'; by right | done].
    + intros l Hl. destruct (G8 l Hl) as (d & ? & ?). exists d. split; [apply Hd'; by right | done].
  - constructor; rewrite ?Es; [lia | | | | | done].
    + intros n d _ Hn. right. exists d. repeat split; [apply Hd'; by right | done |]. unfold shown_no.
      destruct (d_current d) as [c|] eqn:Ec; cbn [mbind option_bind]; [|lia]. destruct (G7 _ d c Hn Ec) as (u & Hu & _).
      rewrite Hu. replace (vers w' !! c) with (Some u) by (symmetry; apply Hw'; by right). lia.
    + intros n Hn Hu. destruct (docs w' !! gen_random_uuid n) as [u|] eqn:E; [|done].
      apply Hd' in E as [[E%uuid_unique _]|E]; [lia | congruence].
    + intros n m u _ _ Hu _. right. exists u. split; [apply Hw'; by right | done].
    + intros n Hn Hu. destruct (vers w' !! gen_random_uuid n) as [u|] eqn:E; [|done].
      apply Hw' in E as [[E%uuid_unique _]|E]; [lia | congruence].
Qed.

(** A document that is not voided goes with its versions and links. *)
Lemma delete_steps w id r : good w -> docs w !! id = Some r -> d_voided r = None ->
  steps w (with_links (List.filter (fun l => negb (String.eqb l.1.2 id)))
             (with_vers (filter (fun e : string * VerRow => v_doc e.2 <> id)) (with_docs (delete id) w))).
Proof.
  intros G Hr Hv. set (w' := with_links _ _). pose proof G as [G1 G2 G3 G4 G5 G6 G7 G8].
  assert (forall j u, vers w' !! j = Some u <-> vers w !! j = Some u /\ v_doc u <> id) as Hw'.
  { intros j u. unfold w'. cbn [vers with_vers with_docs with_links]. by rewrite map_lookup_filter_Some. }
  assert (forall j u, docs w' !! j = Some u <-> docs w !! j = Some u /\ j <> id) as Hd'.
  { intros j u. unfold w'. cbn [docs with_vers with_docs with_links]. rewrite lookup_delete_Some. naive_solver. }
  assert (forall l, l ∈ links w' <-> l ∈ links w /\ l.1.2 <> id) as Hl'.
  { intros l. unfold w'. cbn [links with_links]. rewrite !list_elem_of_In, filter_In, negb_true_iff, String.eqb_neq. done. }
  assert (forall j, j <> id -> max_no w' j = max_no w j) as M.
  { intros j Hj. eapply is_max_inj; [apply max_no_is_max|]. destruct (max_no_is_max w j) as (H0 & H1 & H2). split; [done|]. split.
    - intros k u [Hu _]%Hw'. by apply (H1 k u).
    - destruct H2 as [?|(k & u & Hu & <- & Hn)]; [by left|]. right. exists k, u. split; [by apply Hw' | done]. }
  assert (forall j, docs w' !! j = None <-> docs w !! j = None \/ j = id) as Hn'.
  { intros j. rewrite !eq_None_not_Some. unfold is_Some. setoid_rewrite Hd'. destruct (decide (j = id)); naive_solver. }
  assert (forall j, docs w !! j = None -> docs w' !! j = None) as Hd0 by (intros j ?; apply Hn'; by left).
  assert (forall j u, vers w !! j = Some u -> v_doc u = id -> vers w' !! j = None) as Hv0.
  { intros j u Hu Hd. destruct (vers w' !! j) as [u'|] eqn:E; [|done]. apply Hw' in E as [E Hne]. congruence. }
  assert (seq w' = seq w) as Es by done. split.
  - constructor; rewrite ?Es.
    + intros j u [Hu _]%Hd'. by eapply G1.
    + intros j u [Hu _]%Hw'. by eapply G2.
    + intros j u [Hu Hne]%Hw'. destruct (G3 j u Hu) as (d & ? & ?). exists d. split; [by apply Hd' | done].
    + intros i j u u2 [Hu _]%Hw' [Hu2 _]%Hw'. by apply (G4 i j u u2).
    + intros j u [Hu _]%Hw'. by apply (G5 j).
    + intros j d n [Hj Hne]%Hd' Hn. rewrite M in Hn by done. destruct (G6 j d n Hj Hn) as (k & u & Hu & <- & ?). exists k, u. by rewrite Hw'.
    + intros j d c [Hj Hne]%Hd' Hc. destruct (G7 j d c Hj Hc) as (u & Hu & <- & ?). exists u. by rewrite Hw'.
    + intros l [Hl Hne]%Hl'. destruct (G8 l Hl) as (d & ? & ?). exists d. by rewrite Hd'.
  - constructor; rewrite ?Es; [lia | | intros n _; apply Hd0 | | | done].
    + intros n d _ Hn. destruct (decide (gen_random_uuid n = id)) as [E|Hne].
      * left. split; [apply Hn'; by right | congruence].
      * right. exists d. split; [by apply Hd'|]. repeat split; [done..|]. unfold shown_no.
        destruct (d_current d) as [c|] eqn:Ec; cbn [mbind option_bind]; [|lia]. destruct (G7 _ d c Hn Ec) as (u & Hu & Hdoc & _).
        rewrite Hu. replace (vers w' !! c) with (Some u) by (symmetry; apply Hw'; split; [done | congruence]). lia.
    + intros n m u _ _ Hu Hd. destruct (decide (v_doc u = id)) as [E|Hne].
      * left. split; [by eapply Hv0 | apply Hn'; right; congruence].
      * right. exists u. split; [by apply Hw' | done].
    + intros n _ Hu. destruct (vers w' !! gen_random_uuid n) as [u|] eqn:E; [apply Hw' in E as [? _]; congruence | done].
Qed.

(** A link to a document of the organization. *)
Lemma link_steps w org id eid r : good w -> docs w !! id = Some r -> d_org r = org ->
  steps w (with_links (fun l => l ++ [(org, id, eid)])%list w).
Proof.
  intros [G1 G2 G3 G4 G5 G6 G7 G8] Hr Ho. split.
  - constructor; try done. cbn [links with_links]. intros l [Hl| ->%list_elem_of_singleton]%elem_of_app; [by apply G8|]. by exists r.
  - constructor; [done | | done | | done | done].
    + intros n d _ Hn. right. exists d. repeat split; [done..|]. rewrite (shown_vers w (with_links _ w)) by done. lia.
    + intros n m v _ _ Hv _. right. by exists v.
Qed.

(** ** What every operation keeps *)

Definition keeps {A} (m : st Store A) : Prop := forall w, good w -> steps w (m w).2.

Lemma steps_refl w : good w -> steps w w.
Proof. intros G. split; [done | reflexivity]. Qed.

Lemma find_row_Some org id w r : find_row org id w = Some r <-> docs w !! id = Some r /\ d_org r = org.
Proof.
  unfold find_row. destruct (docs w !! id) as [r'|]; [|naive_solver]. destruct (String.eqb_spec (d_org r') org); naive_solver.
Qed.

Lemma gets_keeps {A} (f : Store -> A) : keeps (gets f).
Proof. intros w G. by apply steps_refl. Qed.

Lemma create_keeps org ty src stat cp slug tver snap user : keeps (create org ty src stat cp slug tver snap user).
Proof.
  intros w G. unfold create. destruct (negb _); [by apply steps_refl|]. destruct (_ || _); [by apply steps_refl|].
  cbn [snd]. by apply birth_steps.
Qed.

Lemma update_doc_keeps org id cond f : (forall r, doc_head (f r) = doc_head r /\ d_current (f r) = d_current r /\
    forall x, cond r = true -> d_voided r = Some x -> d_voided (f r) = Some x) -> keeps (update_doc org id cond f).
Proof.
  intros Hf w G. unfold update_doc. destruct (find_row org id w) as [r|] eqn:E; [|by apply steps_refl].
  apply find_row_Some in E as [Hr _]. destruct (cond r) eqn:Ec; [|by apply steps_refl]. cbn [snd].
  destruct (Hf r) as (H1 & H2 & H3). apply (row_steps w id r); [done | done|]. split; [done|]. split; [auto | by left].
Qed.

Lemma set_stat_keeps org id cond s : keeps (update_doc org id cond (set_stat s)).
Proof. by apply update_doc_keeps. Qed.

Lemma set_status_keeps org id s : keeps (set_status org id s).
Proof.
  intros w G. unfold set_status. destruct (find_row org id w); [|by apply steps_refl].
  destruct (bool_decide _); [by apply set_stat_keeps | by apply steps_refl].
Qed.

Lemma set_status_if_keeps org id from to : keeps (set_status_if org id from to).
Proof.
  intros w G. unfold set_status_if. destruct (find_row org id w) as [r|]; [|by apply steps_refl].
  destruct (String.eqb _ _); [|by apply steps_refl]. destruct (bool_decide _); [by apply set_stat_keeps | by apply steps_refl].
Qed.

Lemma void_document_keeps org id user reason : keeps (void_document org id user reason).
Proof.
  intros w G. unfold void_document. apply update_doc_keeps; [|done]. intros r. split; [done|]. split; [done|].
  intros x Hc Hv. by rewrite Hv in Hc.
Qed.

Lemma set_version_file_keeps org vid key sum mime n engine : keeps (set_version_file org vid key sum mime n engine).
Proof.
  intros w G. unfold set_version_file. destruct (vers w !! vid) as [v|] eqn:E; [|by apply steps_refl].
  destruct (String.eqb _ _); [|by apply steps_refl]. cbn [snd]. by apply (file_steps w vid v).
Qed.

Lemma set_pending_upload_keeps org id key mime : keeps (set_pending_upload org id key mime).
Proof.
  intros w G. unfold set_pending_upload. destruct (find_row org id w) as [r|] eqn:E; [|by apply steps_refl].
  destruct (newest w id) as [[vid v]|] eqn:En; [|by apply steps_refl]. destruct (_ && _); [|by apply steps_refl].
  cbn [snd]. apply find_row_Some in E as [Hr _]. destruct (newest_spec _ _ _ _ En) as (Hv & Hd & Hn).
  match goal with |- steps w (with_docs _ (with_vers (insert vid ?v') w)) => set (v2 := v') end.
  destruct (file_steps w vid v v2 G Hv) as [G' E']; [done | by eexists|].
  destruct (row_steps (with_vers (insert vid v2) w) id r (set_current vid r)) as [G2 E2]; [done | done | |].
  - split; [done|]. split; [done|]. right. exists vid, v2. cbn [vers with_vers]. rewrite lookup_insert_eq.
    repeat split; [done | by eexists|]. rewrite (insert_ver_max w vid v v2) by done. done.
  - split; [done | by etrans].
Qed.

Lemma add_version_keeps org id snap tver user : keeps (add_version org id snap tver user).
Proof.
  intros w G. unfold add_version. destruct (find_row org id w) as [r|] eqn:E; [|by apply steps_refl].
  apply find_row_Some in E as [Hr _]. cbv zeta. destruct (in_i32 _); [|by apply steps_refl]. cbn [snd]. by apply (append_steps w id r).
Qed.

Lemma link_entry_keeps org did eid : keeps (link_entry org did eid).
Proof.
  intros w G. unfold link_entry, insert_link. destruct (docs w !! did) as [r|] eqn:E; [|by apply steps_refl].
  destruct (String.eqb_spec (d_org r) org) as [Ho|]; [|by apply steps_refl]. cbn [andb].
  destruct (match entries w !! eid with Some _ => _ | None => _ end); [|by apply steps_refl].
  destruct (existsb _ _); [by apply steps_refl|]. cbn [snd]. by apply (link_steps w org did eid r).
Qed.

Lemma remove_keeps org id : keeps (remove org id).
Proof.
  intros w G. unfold remove, lock_document, delete_document. destruct (find_row org id w) as [r|] eqn:E; [|by apply steps_refl].
  apply find_row_Some in E as [Hr _]. cbn [fmap option_fmap option_map]. destruct (d_voided r) eqn:Ev; [by apply steps_refl|].
  rewrite bool_decide_false by (by intros [? ?]). destruct (any_posted _); [by apply steps_refl|].
  destruct (bool_decide (id ∈ held w)); [by apply steps_refl|]. cbn [snd]. by apply (delete_steps w id r).
Qed.

(** The pointer moves to the newest version, which must have its file. *)
Lemma set_current_version_steps org id vid w : good w ->
  (forall v, vers w !! vid = Some v -> is_Some (v_s3_key v)) -> steps w (set_current_version org id vid w).2.
Proof.
  intros G Hk. unfold set_current_version, update_doc, publishable. destruct (find_row org id w) as [r|] eqn:E; [|by apply steps_refl].
  apply find_row_Some in E as [Hr _]. destruct (vers w !! vid) as [v|] eqn:Ev; [|by apply steps_refl].
  destruct (String.eqb (v_org v) org); [|by apply steps_refl]. destruct (String.eqb_spec (v_doc v) id) as [Hd|]; [|by apply steps_refl].
  cbn [andb]. destruct (Z.eqb_spec (v_no v) (max_no w id)) as [Hm|]; [|by apply steps_refl]. cbn [snd].
  apply (row_steps w id r); [done | done|]. split; [done|]. split; [done|]. right. exists vid, v.
  split_and!; [done | done | done | by apply Hk | done].
Qed.

(** A file once stored stays with its version. *)
Lemma file_stays w w' vid v : good w -> evolves w w' -> vers w !! vid = Some v -> is_Some (v_s3_key v) ->
  forall v', vers w' !! vid = Some v' -> is_Some (v_s3_key v').
Proof.
  intros G [_ _ _ HV _] Hv Hk v' Hv'. destruct (good_ver_ids w G _ _ Hv) as (n & Hn & ->).
  destruct (good_fk w G _ _ Hv) as (r & Hr & _). destruct (good_doc_ids w G _ _ Hr) as (m & Hm & Ed).
  destruct (HV n m v Hn Hm Hv Ed) as [[? _]|(u & Hu & _ & Hs)]; [congruence|]. rewrite Hu in Hv'. injection Hv' as <-. auto.
Qed.

(** The newest version is the one with the highest number. *)
Lemma latest_is_newest w org id r : good w -> docs w !! id = Some r -> d_org r = org ->
  exists vid v, latest_version org id w = (Ok (Some (vid, v)), w) /\ vers w !! vid = Some v /\ v_doc v = id /\
    v_org v = org /\ v_no v = max_no w id.
Proof.
  intros G Hr Ho. destruct (good_dense w G id r (max_no w id) Hr) as (vid & v & Hv & Hd & Hn).
  { destruct (good_dense w G id r 1 Hr) as (j & u & Hu & Hud & Hun); [by left|]. pose proof (max_no_ge w id j u Hu Hud). lia. }
  assert (forall j u, In (j, u) (versions_in org id w) <-> vers w !! j = Some u /\ v_doc u = id /\ v_org u = org) as Hin.
  { intros j u. unfold versions_in. rewrite filter_In, in_versions. cbn [snd]. rewrite String.eqb_eq. tauto. }
  destruct (good_fk w G vid v Hv) as (r' & Hr' & Hro). rewrite Hd, Hr in Hr'. injection Hr' as <-.
  unfold latest_version, gets. set (l := stable_sort _ (versions_in org id w)).
  assert (l ≡ₚ versions_in org id w) as Hp by apply stable_sort_perm.
  assert (sorted_by (fun a b : string * VerRow => older b a) l) as Hs.
  { apply stable_sort_sorted; unfold older; intros; rewrite ?Z.ltb_lt, ?Z.ltb_ge in *; lia. }
  assert (In (vid, v) l) as Hvl by (rewrite Hp; apply Hin; split_and!; [done | done | congruence]).
  destruct l as [|[j u] l]; [done|]. assert (In (j, u) (versions_in org id w)) as Hj by (rewrite <- Hp; by left).
  apply Hin in Hj as (Hu & Hud & Huo). exists j, u. split_and!; [done..|].
  pose proof (max_no_ge w id j u Hu Hud) as Hle. destruct Hvl as [[= -> ->]|Hvl]; [done|].
  apply StronglySorted_inv in Hs as [_ Hs]. rewrite Forall_forall in Hs. specialize (Hs (vid, v)).
  rewrite list_elem_of_In in Hs. specialize (Hs Hvl). unfold older in Hs. cbn [snd] in Hs. rewrite Z.ltb_ge in Hs. lia.
Qed.

End Invariant.

Create HintDb documents.
#[export] Hint Resolve create_keeps set_status_keeps set_status_if_keeps void_document_keeps set_version_file_keeps
  set_pending_upload_keeps add_version_keeps link_entry_keeps remove_keeps : documents.
#[export] Hint Extern 2 (keeps _) => apply gets_keeps : documents.

End Documents.
