(* ===== verification/DocumentFlow.v ===== *)
(** * Documents at work: handlers and the render job

    The render job of src/docgen/RenderJob.hpp and the handlers of
    src/api/LedgerDocumentsController.hpp and src/api/DocgenController.hpp, as programs
    of repository calls whose turns interleave; what any number of them keeps, and what
    single runs and races of two do. *)
From Stdlib Require Import ZArith Lia Ascii String.
From stdpp Require Import relations sorting.
From S2P Require Import Prelude JournalDb Json Utils InputPolicy Threads BlockCompiler Agent Requests Templates Documents.
Import Json Threads Http OrgTemplates Requests Documents.
Open Scope string_scope.
Open Scope Z_scope.
Set Warnings "-clear-no-such-hyp".

Module DocumentFlow.

Section Flow.
Context `{PG : Postgres} `{RD : Renderer} `{MP : MergePatch}.
Context (tree : Registry.Tree) (version_output : option string) (sha256_hex : string -> string).

(** ** The render job *)

(** [payload.at(k).get<std::string>()] and [payload.value(k, default)]. *)
Definition at_string (k : string) (payload : json) : outcome string :=
  match payload with
  | JObject l => match obj_get k l with
                 | None => Throw (Exn json_out_of_range k)
                 | Some j => get_string j
                 end
  | _ => type_error
  end.
Definition value_json (k : string) (default payload : json) : outcome json :=
  match payload with JObject l => Ok (match obj_get k l with Some j => j | None => default end) | _ => type_error end.

Definition skipped (id vid reason : string) : json :=
  JObject [("document_id", JString id); ("skipped", JString reason); ("version_id", JString vid)].

(** [process_job]: src/docgen/RenderJob.hpp:437-440. *)
Definition reason_of (s : VersionRenderState) : string :=
  match s with
  | kMissing => "missing" | kVoidedDoc => "voided" | kAlreadyRendered => "already_rendered"
  | kSuperseded | kRenderable => "superseded"
  end.

(** [process_job]: src/docgen/RenderJob.hpp:398-430.  The version of a payload that names none. *)
Definition legacy_target (org id : string) : prog Store (json + string) :=
  latest ← atomic (latest_version org id);
  match latest with
  | None => pure (runtime_error ("docgen: no version found for document " +:+ id +:+ " in org " +:+ org))
  | Some (vid, v) =>
      if negb (v_no v =? 1) || bool_decide (is_Some (v_s3_key v)) then
        mret (inl (skipped id vid (if negb (v_no v =? 1) then "superseded" else "already_rendered")))
      else mret (inr vid)
  end.

Definition put (key bytes : string) (up : bool) : st Store () :=
  if up then modify (with_objects (insert key bytes)) else throw std_runtime_error "storage: put failed".

(** [process_job]: src/docgen/RenderJob.hpp:445-509.  Storing, publishing, closing the draft. *)
Definition store_and_publish (org id vid s : string) (pdf engine : string) (up : bool) : prog Store json :=
  let checksum := sha256_hex pdf in
  let key := Files.version_key org "generated" vid (s +:+ ".pdf") in
  let size_bytes := Z.of_nat (size pdf) in
  _ ← atomic (put key pdf up);
  stored ← atomic (set_version_file org vid key checksum "application/pdf" size_bytes (Some engine));
  if negb stored then
    pure (runtime_error ("docgen: set_version_file found no version " +:+ vid +:+ " in org " +:+ org))
  else
    shown ← atomic (set_current_version org id vid);
    if negb shown then mret (skipped id vid "superseded")
    else
      _ ← atomic (set_status_if org id "draft" "final");
      mret (JObject [("checksum_sha256", JString checksum); ("document_id", JString id); ("key", JString key);
                     ("render_engine", JString engine); ("size_bytes", JInt size_bytes); ("slug", JString s);
                     ("version_id", JString vid)]).

(** [process_job]: src/docgen/RenderJob.hpp:367-510.  [run] numbers the run of the engine; [up]: the storage answers. *)
Definition process_job (fuel run : nat) (up : bool) (payload : json) : prog Store json :=
  org ← pure (at_string "org_id" payload);
  id ← pure (at_string "document_id" payload);
  s ← pure (at_string "slug" payload);
  input ← pure (value_json "input" (JObject []) payload);
  named ← pure (value_string "version_id" "" payload);
  rendered ← zoom templates with_templates (Render.render_and_compile tree version_output fuel run s input org);
  target ← (if String.eqb named "" then legacy_target org id else mret (inr named));
  match target with
  | inl skip => mret skip
  | inr vid =>
      state ← atomic (version_render_state org id vid);
      match state with
      | kRenderable => store_and_publish org id vid s rendered.1 rendered.2 up
      | _ => mret (skipped id vid (reason_of state))
      end
  end.

(** ** Access *)

Definition kHrDocType : string := "hr".
Definition kPayrollDocType : string := "payroll".

(** [resource_for]: src/api/LedgerDocumentsController.hpp:1079-1085. *)
Definition resource_of (doc_type : string) : string :=
  if String.eqb doc_type kPayrollDocType then "payroll"
  else if String.eqb doc_type kHrDocType then "hr_docs" else "documents".

(** [ensure_document_access]: src/api/LedgerDocumentsController.hpp:1100-1110. *)
Definition ensure_document_access (ctx : OrgContext) (r : DocRow) (action : string) : bool :=
  Agent.allows (role ctx) (resource_of (d_type r)) action.

Definition denied : Reply := refusal 403 "org_role_denied".

(** [API_REQUIRE_ORG_PERM]: src/api/Guards.hpp:106-114. *)
Definition permitted {W} (ctx : OrgContext) (resource action : string) (k : prog W Reply) : prog W Reply :=
  if Agent.allows (role ctx) resource action then k else mret denied.
(** The document of the path, when it is the organization's and the role may act on it. *)
Definition with_document (ctx : OrgContext) (id action : string) (k : Document -> prog Store Reply) : prog Store Reply :=
  found ← atomic (find_in_org id (ctx_org ctx));
  match found with
  | None => mret (refusal 404 "not_found")
  | Some d => if ensure_document_access ctx (doc d) action then k d else mret denied
  end.

(** ** Reading *)

(** [list]: src/api/LedgerDocumentsController.hpp:287-359. *)
Definition list_documents (ctx : OrgContext) (type_param status_param limit_param offset_param : string) : prog Store Reply :=
  let may_read_all := Agent.allows (role ctx) "documents" "read" in
  let may_read_hr := Agent.allows (role ctx) "hr_docs" "read" in
  if negb may_read_all && negb may_read_hr then mret denied
  else
    let errs := ((if negb (String.eqb type_param "") && negb (bool_decide (type_param ∈ doc_types))
                  then [("type", "not_allowed")] else []) ++
                 (if negb (String.eqb status_param "") && negb (bool_decide (status_param ∈ statuses))
                  then [("status", "not_allowed")] else []))%list in
    if Validation.any errs then mret (invalid errs 422)
    else
      let filter_of p := if String.eqb p "" then None else Some p in
      let type_filter := if may_read_all then filter_of type_param else Some kHrDocType in
      let page := parse_page_params limit_param offset_param 50 200 in
      with_repo_errors (
        rows ← atomic (list_filtered (ctx_org ctx) type_filter (filter_of status_param) (Z.to_nat (limit page)) (Z.to_nat (offset page)));
        total ← atomic (count_filtered (ctx_org ctx) type_filter (filter_of status_param));
        mret (paginated (map document_json rows) total page)).

(** [get]: src/api/LedgerDocumentsController.hpp:364-382. *)
Definition get_document (ctx : OrgContext) (id : string) : prog Store Reply :=
  with_id id (fun id => with_repo_errors (with_document ctx id "read" (fun d => mret (mkReply 200 "" (JObject [("data", document_json d)]))))).

(** A signed link to a key, when the backend signs. *)
Definition signed_link (presign : option (string -> string)) (key : option string) : Reply :=
  match key with
  | None | Some "" => refusal 409 "no_file"
  | Some k => match presign with
              | None => refusal 503 "presign_unsupported"
              | Some sign => mkReply 200 "" (JObject [("url", JString (sign k))])
              end
  end.

(** [downloadUrl]: src/api/LedgerDocumentsController.hpp:399-430. *)
Definition downloadUrl (presign : option (string -> string)) (ctx : OrgContext) (id : string) : prog Store Reply :=
  with_id id (fun id => with_repo_errors (with_document ctx id "read" (fun d => mret (signed_link presign (s3_key d))))).

(** [listVersions]: src/api/LedgerDocumentsController.hpp:635-658. *)
Definition listVersions (ctx : OrgContext) (id : string) : prog Store Reply :=
  with_id id (fun id => with_repo_errors (with_document ctx id "read" (fun _ =>
    rows ← atomic (list_versions (ctx_org ctx) id);
    mret (mkReply 200 "" (JObject [("data", JArray (map (fun e => version_json e.1 e.2) rows))]))))).

(** [parse_version_no]: src/api/LedgerDocumentsController.hpp:1040-1052. *)
Definition parse_version_no (s : string) : outcome (option Z) :=
  if String.eqb s "" || Nat.ltb 9 (size s) then Ok None
  else if negb (str_all is_digit s) then Ok None
  else value ← stoi s; Ok (if value <=? 0 then None else Some value).

(** [versionDownloadUrl]: src/api/LedgerDocumentsController.hpp:825-867. *)
Definition versionDownloadUrl (presign : option (string -> string)) (ctx : OrgContext) (id no_param : string) : prog Store Reply :=
  with_id id (fun id =>
    no ← pure (parse_version_no no_param);
    match no with
    | None => mret (refusal 400 "invalid_version")
    | Some n =>
        with_repo_errors (with_document ctx id "read" (fun _ =>
          version ← atomic (find_version (ctx_org ctx) id n);
          match version with
          | None => mret (refusal 404 "not_found")
          | Some (_, v) => mret (signed_link presign (v_s3_key v))
          end))
    end).

(** ** Writing *)

(** [Jobs::submit] of a render: what it appends to the queue, when the queue answers. *)
Definition submit_render (queued : bool) (payload : json) : st Store bool :=
  if queued then (fun w => (Ok true, with_queue (fun q => q ++ [payload])%list w)) else mret false.

Definition render_payload (org id vid s : string) (input : json) : json :=
  JObject [("document_id", JString id); ("input", input); ("org_id", JString org); ("slug", JString s); ("version_id", JString vid)].

(** An optional identifier of a body: absent, null, or the text of a UUID. *)
Definition optional_uuid (body : json) (field : string) (errs : Validation.Errors) : Validation.Errors :=
  match Validation.present body field with
  | None => errs
  | Some (JString s) => if is_valid_uuid s then errs else Validation.add field "bad_format" errs
  | Some _ => Validation.add field "bad_format" errs
  end.
Definition input_object (body : json) (errs : Validation.Errors) : Validation.Errors :=
  match member "input" body with
  | Some j => if is_object j then errs else Validation.add "input" "not_object" errs
  | None => errs
  end.
Definition client_input (body : json) : list (string * json) := match member "input" body with Some (JObject l) => l | _ => [] end.

(** [generate]: src/api/DocgenController.hpp:322-380.  From the document to the answer. *)
Definition create_and_enqueue (queued : bool) (org s tver : string) (counterparty entry : option string) (input : json) : prog Store Reply :=
  created ← atomic (create org s "generated" "draft" counterparty (Some s) (Some tver) (Some input) None);
  _ ← match entry with Some e => void (atomic (link_entry org (doc_id created) e)) | None => mret () end;
  first_version ← atomic (latest_version org (doc_id created));
  render_queued ← atomic (submit_render queued
    (render_payload org (doc_id created) (match first_version with Some v => v.1 | None => "" end) s input));
  mret (mkReply 202 "" (JObject [("document_id", JString (doc_id created)); ("render_queued", JBool render_queued)])).

Definition owned_counterparty (org id : string) (w : Store) : bool := bool_decide (parties w !! id = Some org).
Definition owned_entry (org id : string) (w : Store) : bool :=
  match entries w !! id with Some e => String.eqb e.1 org | None => false end.

(** A reference of the body, when there is one, belongs to the organization. *)
Definition check_reference (owned : string -> Store -> bool) (ref : option string) (refused : Reply) (k : prog Store Reply) : prog Store Reply :=
  match ref with
  | None => k
  | Some x => mine ← atomic (gets (owned x)); if (mine : bool) then k else mret refused
  end.

(** [generate]: src/api/DocgenController.hpp:191-381.  [seller]: what load_seller reads;
    [jobs_ready], [queued]: the queue is configured, and answers. *)
Definition generate (ctx : OrgContext) (jobs_ready queued : bool) (seller : InputPolicy.SellerRequisites) (parsed : option json)
    : prog Store Reply :=
  if negb (Agent.allows (role ctx) "documents" "write") then mret denied
  else match parsed with
  | None => mret (refusal 400 "invalid_json")
  | Some body =>
      let errs := optional_uuid body "link_entry_id" (optional_uuid body "counterparty_id" (input_object body
                    (Validation.string_if_there body "template_slug" (Validation.require body "template_slug" [])))) in
      match errs, text_field "template_slug" body with
      | [], Some s =>
          found ← pure (Registry.latest tree s);
          match found with
          | None => mret (one_error "template_slug" "unknown_template")
          | Some info =>
              r ← pure (InputPolicy.generate_input s (client_input body) seller);
              match r with
              | inl e => mret (one_error (InputPolicy.field e) (InputPolicy.err_code e))
              | inr input =>
                  match schema_error (Registry.schema info) input with
                  | Some _ => mret (one_error "input" "schema_validation_failed")
                  | None =>
                      let counterparty := Validation.opt_string body "counterparty_id" in
                      let entry := Validation.opt_string body "link_entry_id" in
                      check_reference (owned_counterparty (ctx_org ctx)) counterparty (one_error "counterparty_id" "foreign_counterparty") (
                      check_reference (owned_entry (ctx_org ctx)) entry (one_error "link_entry_id" "foreign_journal_entry") (
                      if negb jobs_ready then mret (refusal 503 "jobs_disabled")
                      else with_repo_errors (
                        create_and_enqueue queued (ctx_org ctx) s (Registry.version_str info) counterparty entry input)))
                  end
              end
          end
      | _, _ => mret (invalid errs 400)
      end
  end.

(** [createVersion]: src/api/LedgerDocumentsController.hpp:741-813.  The edit, once the document may be edited. *)
Definition append_and_enqueue (ctx : OrgContext) (jobs_ready queued : bool) (seller : InputPolicy.SellerRequisites)
    (id s : string) (previous : option json) (sent : list (string * json)) : prog Store Reply :=
  r ← pure (InputPolicy.version_input s previous sent seller);
  match r with
  | inl e => mret (one_error (InputPolicy.field e) (InputPolicy.err_code e))
  | inr input =>
      found ← pure (Registry.latest tree s);
      match found with
      | None => mret (refusal 500 "internal_error")
      | Some info =>
          match schema_error (Registry.schema info) input with
          | Some _ => mret (one_error "input" "schema_validation_failed")
          | None =>
              if negb jobs_ready then mret (refusal 503 "jobs_disabled")
              else
                version ← atomic (add_version (ctx_org ctx) id (Some input) (Some (Registry.version_str info)) (Some (user_id ctx)));
                render_queued ← atomic (submit_render queued (render_payload (ctx_org ctx) id version.1 s input));
                mret (mkReply 202 "" (JObject [("document_id", JString id); ("render_queued", JBool render_queued);
                                               ("version_id", JString version.1); ("version_no", JInt (v_no version.2))]))
          end
      end
  end.

(** [createVersion]: src/api/LedgerDocumentsController.hpp:668-816.  [parsed]: the body, an absent one read as an empty object. *)
Definition createVersion (ctx : OrgContext) (jobs_ready queued : bool) (seller : InputPolicy.SellerRequisites) (id : string)
    (parsed : option json) : prog Store Reply :=
  with_id id (fun id => match parsed with
  | Some (JObject _ as body) =>
      match input_object body [] with
      | _ :: _ => mret (invalid [("input", "not_object")] 400)
      | [] =>
          with_repo_errors (with_document ctx id "write" (fun d =>
            match d_slug (doc d) with
            | Some (String _ _ as s) =>
                if negb (String.eqb (d_source (doc d)) "generated") then mret (refusal 409 "not_editable")
                else if bool_decide (is_Some (d_voided (doc d))) then mret (refusal 409 "document_voided")
                else
                  previous ← atomic (latest_version (ctx_org ctx) id);
                  match previous with
                  | None => mret (refusal 500 "internal_error")
                  | Some (_, v) => append_and_enqueue ctx jobs_ready queued seller id s (v_snapshot v) (client_input body)
                  end
            | _ => mret (refusal 409 "not_editable")
            end))
      end
  | _ => mret (refusal 400 "invalid_json")
  end).

Fixpoint climbs (s : string) : bool :=
  match s with String c r => (Ascii.eqb c "." && match r with String d _ => Ascii.eqb d "." | _ => false end) || climbs r | _ => false end.

(** [is_plain_filename]: src/api/LedgerDocumentsController.hpp:1129-1141. *)
Definition is_plain_filename (s : string) : bool :=
  match s with
  | EmptyString => false
  | String c _ =>
      negb (Nat.ltb 255 (size s)) && negb (Ascii.eqb c ".") && negb (climbs s) &&
      str_all (fun c => negb ((Prelude.code c <? 32) || Ascii.eqb c "/" || Ascii.eqb c "\")) s
  end.

(** [startUpload]: src/api/LedgerDocumentsController.hpp:437-515.  [uuid]: the random part of the key. *)
Definition startUpload (presign : option (string -> string)) (uuid : string) (ctx : OrgContext) (parsed : option json) : prog Store Reply :=
  if negb (Agent.allows (role ctx) "documents" "write") then mret denied
  else match parsed with
  | None => mret (refusal 400 "invalid_json")
  | Some body =>
      let errs := Validation.string_if_there body "doc_type" (Validation.string_if_there body "mime"
                    (Validation.string_if_there body "filename" (Validation.require body "doc_type"
                      (Validation.require body "mime" (Validation.require body "filename" []))))) in
      match errs, text_field "filename" body, text_field "mime" body, text_field "doc_type" body with
      | [], Some filename, Some mime, Some doc_type =>
          let semantic := Validation.one_of body "doc_type" doc_types
                            (if is_plain_filename filename then [] else [("filename", "invalid_filename")]) in
          if Validation.any semantic then mret (invalid semantic 422)
          else match presign with
          | None => mret (refusal 503 "presign_unsupported")
          | Some sign =>
              let key := Files.org_key uuid (ctx_org ctx) "inbox" filename in
              with_repo_errors (
                created ← atomic (create (ctx_org ctx) doc_type "uploaded" "draft" None None None
                            (Some (JObject [("original_filename", JString filename)])) None);
                _ ← atomic (set_pending_upload (ctx_org ctx) (doc_id created) key mime);
                fresh ← atomic (find_in_org (doc_id created) (ctx_org ctx));
                mret (mkReply 201 "" (JObject [("data", document_json (match fresh with Some d => d | None => created end));
                                               ("upload_url", JString (sign key))])))
          end
      | _, _, _, _ => mret (invalid errs 400)
      end
  end.

Definition is_sha256_hex (s : string) : bool :=
  Nat.eqb (size s) 64 && str_all (fun c => is_digit c || ((97 <=? Prelude.code c) && (Prelude.code c <=? 102))) s.

(** [confirmUpload]: src/api/LedgerDocumentsController.hpp:573-625. *)
Definition confirm_found (ctx : OrgContext) (id checksum : string) (size_bytes : Z) : prog Store Reply :=
  found ← atomic (find_in_org id (ctx_org ctx));
  match found with
  | None => mret (refusal 404 "not_found")
  | Some d =>
      if negb (String.eqb (d_source (doc d)) "uploaded") || negb (String.eqb (d_status (doc d)) "draft") then
        mret (refusal 409 "invalid_state")
      else match s3_key d with
      | None | Some "" => mret (refusal 409 "no_pending_upload")
      | Some key =>
          there ← atomic (gets (fun w => bool_decide (is_Some (objects w !! key))));
          if negb there then mret (refusal 409 "object_missing")
          else match d_current (doc d) with
          | None => mret (refusal 409 "no_pending_upload")
          | Some vid =>
              _ ← atomic (set_version_file (ctx_org ctx) vid key checksum (match file d ≫= v_mime with Some m => m | None => "" end)
                            size_bytes None);
              _ ← atomic (set_status (ctx_org ctx) id "final");
              fresh ← atomic (find_in_org id (ctx_org ctx));
              mret (mkReply 200 "" (JObject [("data", document_json (match fresh with Some f => f | None => d end))]))
          end
      end
  end.

(** [confirmUpload]: src/api/LedgerDocumentsController.hpp:522-626.  [storage]: one is configured. *)
Definition confirmUpload (storage : bool) (ctx : OrgContext) (id : string) (parsed : option json) : prog Store Reply :=
  if negb (Agent.allows (role ctx) "documents" "write") then mret denied
  else with_id id (fun id => match parsed with
  | None => mret (refusal 400 "invalid_json")
  | Some body =>
      let integer_if_there errs := match member "size_bytes" body with
                                   | Some (JInt _) | None => errs | Some _ => Validation.add "size_bytes" "not_integer" errs end in
      let errs := Validation.string_if_there body "checksum_sha256" (integer_if_there
                    (Validation.require body "checksum_sha256" (Validation.require body "size_bytes" []))) in
      match errs, member "size_bytes" body, text_field "checksum_sha256" body with
      | [], Some (JInt n), Some checksum =>
          let semantic := Validation.regex_match body "checksum_sha256" is_sha256_hex
                            (Validation.int_range body "size_bytes" 0 (10 * 1024 * 1024 * 1024) []) in
          if Validation.any semantic then mret (invalid semantic 422)
          else if negb storage then mret (refusal 503 "storage_unavailable")
          else with_repo_errors (confirm_found ctx id checksum (get_ll n))
      | _, _, _ => mret (invalid errs 400)
      end
  end).

(** [remove]: src/api/LedgerDocumentsController.hpp:884-950.  (The audit record left out.) *)
Definition remove_handler (ctx : OrgContext) (id : string) : prog Store Reply :=
  with_id id (fun id => with_repo_errors (with_document ctx id "write" (fun _ =>
    out ← atomic (remove (ctx_org ctx) id);
    mret match out with
         | kDeleted => mkReply 204 "" JNull
         | kNotFound => refusal 404 "not_found"
         | kHasPostedEntries => refusal 409 "document_has_posted_entries"
         | kReferenced => refusal 409 "document_referenced"
         | kVoided => refusal 409 "document_voided"
         end))).

(** [voidDocument]: src/api/LedgerDocumentsController.hpp:960-1031.  (The audit record left out.) *)
Definition voidDocument (ctx : OrgContext) (id : string) (parsed : option json) : prog Store Reply :=
  with_id id (fun id => match parsed with
  | None => mret (refusal 400 "invalid_json")
  | Some body =>
      let errs := Validation.string_if_there body "reason" (Validation.require body "reason" []) in
      match errs, text_field "reason" body with
      | [], Some text =>
          let semantic := Validation.string_length body "reason" 1 1000 [] in
          if Validation.any semantic then mret (invalid semantic 422)
          else
            let reason := Strings.trim text in
            if String.eqb reason "" then mret (one_error "reason" "blank")
            else with_repo_errors (with_document ctx id "write" (fun d =>
              if bool_decide (is_Some (d_voided (doc d))) then mret (refusal 409 "already_voided")
              else
                done_ ← atomic (void_document (ctx_org ctx) id (user_id ctx) reason);
                if negb done_ then mret (refusal 409 "already_voided")
                else
                  fresh ← atomic (find_in_org id (ctx_org ctx));
                  match fresh with
                  | None => mret (refusal 404 "not_found")
                  | Some f => mret (mkReply 200 "" (JObject [("data", document_json f)]))
                  end))
      | _, _ => mret (invalid errs 400)
      end
  end).

(** ** What every program keeps *)

Abbreviation quietly := (quiet good evolves).

Lemma quiet_keeps {A B} (m : st Store A) (k : A -> prog Store B) w :
  keeps m -> (forall a w', quietly (k a) w') -> quietly (atomic m ≫= k) w.
Proof. apply quiet_call; exact _. Qed.

Lemma put_keeps key bytes up : keeps (put key bytes up).
Proof. intros w G. destruct up; [by apply put_steps | by apply steps_refl]. Qed.

Lemma submit_keeps queued payload : keeps (submit_render queued payload).
Proof. intros w G. destruct queued; [by apply frame_steps | by apply steps_refl]. Qed.

Lemma zoom_quiet {A} (p : prog OrgTemplates.DB A) w : quietly (zoom templates with_templates p) w.
Proof.
  revert w. induction p as [r|next k IH]; intros w; [done|]. intros w1 _ G.
  destruct (frame_steps w1 (with_templates (next (templates w1)) w1)) as [G' E']; [done..|]. split; [done|]. split; [done|]. apply IH.
Qed.

Hint Resolve put_keeps submit_keeps : documents.

(** Case analysis down to the repository calls, each of which keeps the invariant. *)
Ltac quietly_on :=
  repeat first
    [ apply quiet_done
    | apply quiet_keeps; [solve [eauto with documents] | intros ? ?]
    | apply quiet_pure; intros ? _
    | progress cbv beta
    | case_match ].

Lemma store_and_publish_quiet org id vid s pdf engine up w : quietly (store_and_publish org id vid s pdf engine up) w.
Proof.
  unfold store_and_publish. cbv zeta. apply quiet_keeps; [apply put_keeps|]. intros _ w0. apply quiet_step.
  intros w1 r w2 _ G E. destruct (set_version_file_keeps org vid (Files.version_key org "generated" vid (s +:+ ".pdf")) (sha256_hex pdf)
    "application/pdf" (Z.of_nat (size pdf)) (Some engine) w1 G) as [G2 E2]. rewrite E in G2, E2. split; [done|]. split; [done|].
  intros [|] ->; [|done]. cbn [negb]. apply quiet_step. intros w3 r w4 R3 G3 E4.
  assert (steps w3 w4) as [G4 R4].
  { replace w4 with (set_current_version org id vid w3).2 by (by rewrite E4). apply set_current_version_steps; [done|].
    unfold set_version_file in E. destruct (vers w1 !! vid) as [v|] eqn:Ev; [|by injection E].
    destruct (String.eqb (v_org v) org); [|by injection E]. injection E as <-.
    eapply file_stays; [exact G2 | exact R3 | cbn [vers with_vers]; apply lookup_insert_eq | by eexists]. }
  split; [done|]. split; [done|]. intros [|] ->; cbn [negb]; quietly_on.
Qed.

Lemma process_job_quiet fuel run up payload w : quietly (process_job fuel run up payload) w.
Proof.
  unfold process_job. do 5 (apply quiet_pure; intros ? _). apply quiet_bind; [apply _ | apply zoom_quiet|]. intros rendered w1.
  apply quiet_bind; [apply _ | unfold legacy_target; quietly_on|]. intros [skip|vid] w2; [done|].
  apply quiet_keeps; [eauto with documents|]. intros [] w3; try done. apply store_and_publish_quiet.
Qed.

Lemma create_and_enqueue_quiet queued org s tver cp e input w : quietly (create_and_enqueue queued org s tver cp e input) w.
Proof.
  unfold create_and_enqueue. apply quiet_keeps; [eauto with documents|]. intros created w1.
  apply quiet_bind; [apply _ | destruct e; [unfold void; quietly_on | done]|]. intros _ w2. quietly_on.
Qed.

Lemma check_reference_quiet owned ref refused k w : (forall w', quietly k w') -> quietly (check_reference owned ref refused k) w.
Proof. intros Hk. unfold check_reference. destruct ref; [|apply Hk]. apply quiet_keeps; [eauto with documents|]. intros [] w1; [apply Hk | done]. Qed.

Lemma generate_quiet ctx jobs_ready queued seller parsed w : quietly (generate ctx jobs_ready queued seller parsed) w.
Proof.
  unfold generate. cbv zeta. do 4 (case_match; [done || idtac | done || idtac]). apply quiet_pure; intros found _. destruct found as [info|]; [|done].
  apply quiet_pure; intros [e|input] _; [done|]. destruct (schema_error _ _); [done|].
  apply check_reference_quiet. intros w1. apply check_reference_quiet. intros w2. destruct (negb jobs_ready); [done|].
  apply quiet_catch. apply create_and_enqueue_quiet.
Qed.

Lemma with_document_quiet ctx id action k w : (forall d w', quietly (k d) w') -> quietly (with_document ctx id action k) w.
Proof. intros Hk. unfold with_document. quietly_on. apply Hk. Qed.

Lemma createVersion_quiet ctx jobs_ready queued seller id parsed w : quietly (createVersion ctx jobs_ready queued seller id parsed) w.
Proof.
  unfold createVersion, with_id. repeat case_match; try done. apply quiet_catch. apply with_document_quiet. intros d w1.
  unfold append_and_enqueue. quietly_on.
Qed.

Lemma startUpload_quiet presign uuid ctx parsed w : quietly (startUpload presign uuid ctx parsed) w.
Proof. unfold startUpload. repeat case_match; try done; apply quiet_catch; quietly_on. Qed.

Lemma confirmUpload_quiet storage ctx id parsed w : quietly (confirmUpload storage ctx id parsed) w.
Proof.
  unfold confirmUpload, with_id. cbv zeta. repeat case_match; try done; apply quiet_catch; unfold confirm_found; quietly_on.
Qed.

Lemma remove_handler_quiet ctx id w : quietly (remove_handler ctx id) w.
Proof. unfold remove_handler, with_id. case_match; [done|]. apply quiet_catch. apply with_document_quiet. intros d w1. quietly_on. Qed.

Lemma voidDocument_quiet ctx id parsed w : quietly (voidDocument ctx id parsed) w.
Proof.
  unfold voidDocument, with_id. repeat case_match; try done. cbv zeta. repeat case_match; try done.
  apply quiet_catch. apply with_document_quiet. intros d w1. quietly_on.
Qed.

(** Who may start what: the handlers for any caller, jobs with any payload, links from
    the journal, and the rest of the program. *)
Inductive request : Store -> prog Store () -> Prop :=
| request_generate w ctx jr q seller parsed : request w (void (generate ctx jr q seller parsed))
| request_version w ctx jr q seller id parsed : request w (void (createVersion ctx jr q seller id parsed))
| request_upload w presign uuid ctx parsed : request w (void (startUpload presign uuid ctx parsed))
| request_confirm w storage ctx id parsed : request w (void (confirmUpload storage ctx id parsed))
| request_remove w ctx id : request w (void (remove_handler ctx id))
| request_void w ctx id parsed : request w (void (voidDocument ctx id parsed))
| request_job w fuel run up payload : request w (void (process_job fuel run up payload))
| request_link w org did eid : request w (void (atomic (link_entry org did eid)))
| request_elsewhere w e h p o n t : request w (atomic (modify (elsewhere e h p o n t))).

Lemma elsewhere_keeps e h p o n t : keeps (modify (elsewhere e h p o n t)).
Proof. intros w G. by apply frame_steps. Qed.

Lemma request_quiet w p : request w p -> quietly p w.
Proof.
  assert (forall A (p : prog Store A) w, quietly p w -> quietly (void p) w) as Hvoid.
  { intros A q w1 Hq. apply quiet_bind; [apply _ | done | done]. }
  assert (forall A (m : st Store A) w, keeps m -> quietly (atomic m) w) as Hone.
  { intros A m w0 Hm. apply quiet_last. intros w1 _ G. by apply Hm. }
  intros []; [apply Hvoid.. | by apply Hone, elsewhere_keeps].
  - apply generate_quiet.
  - apply createVersion_quiet.
  - apply startUpload_quiet.
  - apply confirmUpload_quiet.
  - apply remove_handler_quiet.
  - apply voidDocument_quiet.
  - apply process_job_quiet.
  - apply Hone, link_entry_keeps.
Qed.

(** C2: The history of a document is kept.  From a well-formed store, let any number of
    uploads, edits, voidings, deletions and render jobs (for whatever payload, run as
    often as the queue likes) interleave their calls in any order, with the rest of the
    program changing entries, orders, templates and the clock at will.  At every moment
    each document has a first version and its numbers run 1, 2, ... without gap or
    double, what it shows is a version of its own that has a file, and links stay inside
    the organization; and compared with the start no document changed its owner, type,
    source or template, none that was voided is gone or no longer voided, none shows an
    older version than it did, no version changed its owner, number, input or author or
    lost its file, and versions go only with their document. *)
Theorem history_kept w w' ts : good w -> rtc (turn request) (w, []) (w', ts) -> good w' /\ evolves w w'.
Proof.
  intros G Hs. destruct (pool_keeps good evolves request) with (s := (w, [] : list (prog Store ()))) (s' := (w', ts))
    as (G' & E & _); [|done..]. intros w1 p _. apply request_quiet.
Qed.

(** ** The render job on its own *)

(** The version after the render, and the document that shows it. *)
Definition rendered_version (key pdf engine : string) (v : VerRow) : VerRow :=
  mkVer (v_org v) (v_doc v) (v_no v) (Some key) (Some (sha256_hex pdf)) (Some "application/pdf") (Some (Z.of_nat (size pdf)))
    (v_template v) (Some engine) (v_snapshot v) (v_user v).
Definition shown_document (vid : string) (r : DocRow) : DocRow :=
  if String.eqb (d_status r) "draft" then set_stat "final" (set_current vid r) else set_current vid r.

Lemma insert_twice (id : string) (r r' : DocRow) w :
  with_docs (insert id r') (with_docs (insert id r) w) = with_docs (insert id r') w.
Proof. unfold with_docs. cbn [docs vers links entries held parties orgs seq now objects templates queue]. by rewrite insert_insert_eq. Qed.

Lemma publish_spec org id vid s pdf engine r v w : let key := Files.version_key org "generated" vid (s +:+ ".pdf") in
  docs w !! id = Some r -> d_org r = org -> vers w !! vid = Some v -> v_org v = org -> v_doc v = id -> v_no v = max_no w id ->
  exists out, alone (store_and_publish org id vid s pdf engine true) w =
    (Ok out, with_docs (insert id (shown_document vid r)) (with_vers (insert vid (rendered_version key pdf engine v))
               (with_objects (insert key pdf) w))) /\
    member "version_id" out = Some (JString vid) /\ member "skipped" out = None.
Proof.
  intros key Hr <- Hv Hvo Hd Hn. unfold store_and_publish. cbv zeta. fold key.
  set (v' := rendered_version key pdf engine v). set (w1 := with_objects (insert key pdf) w).
  set (w2 := with_vers (insert vid v') w1). set (w3 := with_docs (insert id (set_current vid r)) w2).
  assert (publishable (d_org r) id vid w2 = true) as Hp.
  { unfold publishable, w2. cbn [vers with_vers]. rewrite lookup_insert_eq. unfold v'. cbn [v_org v_doc v_no rendered_version].
    rewrite Hvo, Hd, !String.eqb_refl. cbn [andb]. apply Z.eqb_eq. rewrite (insert_ver_max w1 vid v) by done. rewrite Hn. by apply max_no_vers. }
  assert (find_row (d_org r) id w2 = Some r) as Hf2 by (by apply find_row_Some).
  assert (find_row (d_org r) id w3 = Some (set_current vid r)) as Hf3.
  { apply find_row_Some. split; [|done]. unfold w3. cbn [docs with_docs]. apply lookup_insert_eq. }
  eexists. split.
  - rewrite (alone_step _ _ w () w1) by done.
    rewrite (alone_step _ _ w1 true w2) by (unfold set_version_file; change (vers w1) with (vers w); by rewrite Hv, (proj2 (String.eqb_eq _ _) Hvo)).
    cbn [negb]. rewrite (alone_step _ _ w2 true w3) by (unfold set_current_version, update_doc; by rewrite Hf2, Hp). cbn [negb].
    unfold shown_document. destruct (String.eqb (d_status r) "draft") eqn:Es.
    + rewrite (alone_step _ _ w3 true (with_docs (insert id (set_stat "final" (set_current vid r))) w3)).
      * cbn [alone mret prog_ret]. unfold w3. rewrite insert_twice. reflexivity.
      * unfold set_status_if, update_doc. rewrite Hf3. cbn [d_status set_current]. rewrite Es. by rewrite bool_decide_true by (apply list_elem_of_In; cbn; tauto).
    + rewrite (alone_step _ _ w3 false w3); [reflexivity|]. unfold set_status_if. rewrite Hf3. cbn [d_status set_current]. by rewrite Es.
  - by split.
Qed.

Lemma ret_bind {A B} (a : A) (k : A -> prog Store B) : (mret a ≫= k) = k a.
Proof. done. Qed.

(** The payload of a render that the handlers queue, read back. *)
Lemma payload_fields org id vid s input :
  at_string "org_id" (render_payload org id vid s input) = Ok org /\ at_string "document_id" (render_payload org id vid s input) = Ok id /\
  at_string "slug" (render_payload org id vid s input) = Ok s /\ value_json "input" (JObject []) (render_payload org id vid s input) = Ok input /\
  value_string "version_id" "" (render_payload org id vid s input) = Ok vid.
Proof. repeat split. Qed.

Lemma render_alone fuel run s input org w :
  alone (zoom templates with_templates (Render.render_and_compile tree version_output fuel run s input org)) w =
  ((alone (Render.render_and_compile tree version_output fuel run s input org) (templates w)).1, w).
Proof.
  rewrite alone_zoom; [|by intros [] [].. | by intros []|].
  - destruct (alone _ (templates w)) as [r t] eqn:E. cbn [fst].
    assert (t = templates w) as ->; [|by destruct w].
    unfold Render.render_and_compile in E. destruct (String.eqb org ""); [by injection E|].
    rewrite alone_bind, alone_atomic in E. cbn [OrgTemplates.resolve gets] in E. by destruct (snd <$> _) in E; injection E.
  - by intros [].
Qed.

(** C18: A render lands on its version or nowhere.  Take the payload a handler queued and
    run the job alone.  If the template renders and the version is the newest of its
    document, not voided and still without file, then afterwards the version holds the
    object stored under its own key with the checksum and size of exactly those bytes
    and the engine that made them, the document shows it, a draft is final, and nothing
    else changed; if the version is missing, superseded, already rendered or of a
    voided document, nothing changes at all and the job says why; and if the template
    does not render, the job throws and nothing changes. *)
Theorem render_job_spec fuel run w org id vid s input : good w -> vid <> "" ->
  let key := Files.version_key org "generated" vid (s +:+ ".pdf") in
  let '(out, w') := alone (process_job fuel run true (render_payload org id vid s input)) w in
  match (alone (Render.render_and_compile tree version_output fuel run s input org) (templates w)).1 with
  | Ok (pdf, engine) =>
      match render_state org id vid w with
      | kRenderable => exists r v res, docs w !! id = Some r /\ vers w !! vid = Some v /\ out = Ok res /\ member "skipped" res = None /\
          w' = with_docs (insert id (shown_document vid r)) (with_vers (insert vid (rendered_version key pdf engine v))
                 (with_objects (insert key pdf) w))
      | state => out = Ok (skipped id vid (reason_of state)) /\ w' = w
      end
  | Throw e => out = Throw e /\ w' = w
  | Undef => out = Undef /\ w' = w
  end.
Proof.
  intros G Hvid key. destruct (alone (process_job _ _ _ _) w) as [out w'] eqn:E.
  destruct (payload_fields org id vid s input) as (F1 & F2 & F3 & F4 & F5).
  unfold process_job in E. rewrite F1, pure_ok, F2, pure_ok, F3, pure_ok, F4, pure_ok, F5, pure_ok in E.
  rewrite alone_bind, render_alone in E. destruct (alone (Render.render_and_compile _ _ _ _ _ _ _) _) as [[[pdf engine]|e|] t]; cbn [fst] in E |- *;
    [|by injection E as <- <-..].
  rewrite (proj2 (String.eqb_neq vid "") Hvid), ret_bind in E.
  rewrite (alone_step _ _ w (render_state org id vid w) w) in E by done.
  destruct (render_state org id vid w) eqn:Es; try (injection E as <- <-; by split).
  unfold render_state in Es. destruct (vers w !! vid) as [v|] eqn:Hv; [|done]. destruct (docs w !! v_doc v) as [r|] eqn:Hr; [|done].
  destruct (String.eqb_spec (v_doc v) id) as [Hd|]; [|done]. destruct (String.eqb_spec (v_org v) org) as [Ho|]; [|done]. cbn [andb negb] in Es.
  destruct (bool_decide _); [done|]. destruct (Z.eqb_spec (v_no v) (max_no w (v_doc v))) as [Hn|]; [|done].
  destruct (good_fk w G vid v Hv) as (r' & Hr' & Hro). rewrite Hr in Hr'. injection Hr' as <-. subst id.
  destruct (publish_spec org (v_doc v) vid s pdf engine r v w) as (res & Hres & _ & Hs); [done | congruence | done..|].
  cbn [fst snd] in E. rewrite Hres in E. injection E as <- <-. by exists r, v, res.
Qed.

(** ** What the handlers queue *)

Lemma check_reference_202 owned ref refused k w rep w' : http refused <> 202 ->
  alone (check_reference owned ref refused k) w = (Ok rep, w') -> http rep = 202 -> alone k w = (Ok rep, w').
Proof.
  intros Hr E H. destruct ref as [x|]; [|done]. apply step_Ok in E as (mine & w1 & [= <- <-] & E). destruct (owned x w); [done|].
  by injection E as <- <-.
Qed.

(** A queued render asks for a stored version: the newest of a document of the
    template, not voided, without file, whose input is the one of the payload. *)
Definition asks (w : Store) (payload : json) (org id : string) : Prop :=
  exists vid s input v r, payload = render_payload org id vid s input /\ docs w !! id = Some r /\ d_slug r = Some s /\
    vers w !! vid = Some v /\ v_snapshot v = Some input /\ render_state org id vid w = kRenderable.

Lemma renderable_version w org id vid v r : docs w !! id = Some r -> d_voided r = None -> vers w !! vid = Some v -> v_doc v = id ->
  v_org v = org -> v_no v = max_no w id -> v_s3_key v = None -> render_state org id vid w = kRenderable.
Proof.
  intros Hr Hv E Hd Ho Hn Hk. unfold render_state. rewrite E, Hd, Hr, Ho, !String.eqb_refl, Hv, Hk, Hn, Z.eqb_refl. cbn [andb negb].
  by rewrite !bool_decide_false by (by intros [? ?]).
Qed.

Lemma link_entry_frame org did eid w : docs (link_entry org did eid w).2 = docs w /\ vers (link_entry org did eid w).2 = vers w /\
  queue (link_entry org did eid w).2 = queue w.
Proof.
  unfold link_entry, insert_link. destruct (_ && _); [|done]. by destruct (existsb _ _).
Qed.

Lemma submit_frame q payload w : submit_render q payload w = (Ok q, with_queue (fun l => l ++ (if q then [payload] else []))%list w).
Proof. destruct q; [done|]. unfold submit_render, with_queue. cbn. rewrite app_nil_r. by destruct w. Qed.

Lemma create_and_enqueue_spec q org s tver cp e input w rep w' : good w ->
  alone (create_and_enqueue q org s tver cp e input) w = (Ok rep, w') ->
  exists id r p, docs w !! id = None /\ docs w' !! id = Some r /\ d_status r = "draft" /\ d_source r = "generated" /\
    data rep = JObject [("document_id", JString id); ("render_queued", JBool q)] /\ asks w' p org id /\
    queue w' = (queue w ++ if q then [p] else [])%list.
Proof.
  intros G E. unfold create_and_enqueue in E. apply step_Ok in E as (created & w1 & Ec & E).
  pose proof (create_keeps org s "generated" "draft" cp (Some s) (Some tver) (Some input) None w G) as [G1 _]. rewrite Ec in G1.
  unfold create in Ec. destruct (negb _); [discriminate|]. destruct (_ || _); [discriminate|].
  set (did := gen_random_uuid (seq w)) in *. set (r := mkDoc _ _ _ _ _ _ _ _ _) in *. injection Ec as <- Ew1. cbn [snd doc_id document] in *.
  rewrite alone_bind in E. assert (exists w2, alone (match e with Some x => void (atomic (link_entry org did x)) | None => mret () end) w1 =
    (Ok (), w2) /\ good w2 /\ docs w2 = docs w1 /\ vers w2 = vers w1 /\ queue w2 = queue w1) as (w2 & Ee & G2 & Ed & Ev & Eq).
  { destruct e as [x|]; [|by exists w1]. unfold void. rewrite alone_bind, alone_atomic. pose proof (link_entry_frame org did x w1) as (F1 & F2 & F3).
    pose proof (link_entry_keeps org did x w1 G1) as [G2 _]. assert (exists b, (link_entry org did x w1).1 = Ok b) as [b Hb].
    { unfold link_entry, insert_link. destruct (_ && _); [destruct (existsb _ _)|]; by eexists. }
    destruct (link_entry org did x w1) as [o w2]. cbn [fst snd] in *. subst o. by exists w2. }
  cbn [doc_id document] in E. fold did in E. rewrite Ee in E. clear Ee.
  assert (docs w2 !! did = Some r) as Hr by (rewrite Ed, <- Ew1; cbn [docs with_docs with_vers next_ids]; apply lookup_insert_eq).
  destruct (latest_is_newest w2 org did r G2 Hr eq_refl) as (vid & v & El & Hv & Hd & Ho & Hn).
  rewrite (alone_step _ _ _ _ _ El) in E. rewrite (alone_step _ _ _ _ _ (submit_frame _ _ _)) in E. cbn [alone mret prog_ret] in E.
  injection E as <- <-. exists did, r, (render_payload org did vid s input). split_and!; [by apply fresh_doc | done..| | by cbn; rewrite Eq, <- Ew1].
  assert (v_snapshot v = Some input /\ v_s3_key v = None) as [Hsn Hk].
  { rewrite Ev, <- Ew1 in Hv. cbn [vers with_docs with_vers next_ids] in Hv. apply lookup_insert_Some in Hv as [[_ <-]|[_ Hv]]; [done|].
    destruct (good_fk w G vid v Hv) as (r0 & Hr0 & _). pose proof (fresh_doc w (seq w) G (le_n _)) as F. fold did in F. rewrite Hd in Hr0. congruence. }
  exists vid, s, input, v, r. split_and!; [done..|]. by apply (renderable_version _ org did vid v r).
Qed.

Lemma generate_asks ctx jr q seller parsed w rep w' : good w -> alone (generate ctx jr q seller parsed) w = (Ok rep, w') -> http rep = 202 ->
  exists id r p, docs w !! id = None /\ docs w' !! id = Some r /\ d_status r = "draft" /\ d_source r = "generated" /\
    data rep = JObject [("document_id", JString id); ("render_queued", JBool q)] /\ asks w' p (ctx_org ctx) id /\
    queue w' = (queue w ++ if q then [p] else [])%list.
Proof.
  intros G E H. unfold generate in E. destruct (negb _); [by injection E as <- <-|]. destruct parsed as [body|]; [|by injection E as <- <-].
  cbv zeta in E. match type of E with alone (match ?x with [] => _ | _ :: _ => _ end) _ = _ => destruct x; [|by injection E as <- <-] end.
  destruct (text_field _ _) as [s|]; [|by injection E as <- <-]. destruct (Registry.latest tree s) as [[info|]|e|]; [ | by injection E as <- <- | discriminate..].
  rewrite pure_ok in E. destruct (InputPolicy.generate_input _ _ _) as [[err|input]|e|]; [by injection E as <- <- | | discriminate..].
  rewrite pure_ok in E. destruct (schema_error _ _); [by injection E as <- <-|].
  apply check_reference_202 in E; [|done..]. apply check_reference_202 in E; [|done..]. destruct (negb jr); [by injection E as <- <-|].
  apply with_repo_errors_202 in E; [|done]. by eapply create_and_enqueue_spec.
Qed.

Lemma with_document_202 ctx id action k w rep w' : alone (with_document ctx id action k) w = (Ok rep, w') -> http rep = 202 ->
  exists r, docs w !! id = Some r /\ d_org r = ctx_org ctx /\ ensure_document_access ctx r action = true /\
    alone (k (document w id r)) w = (Ok rep, w').
Proof.
  intros E H. unfold with_document in E. apply step_Ok in E as (found & w1 & [= <- <-] & E).
  destruct (find_row (ctx_org ctx) id w) as [r|] eqn:Ef; cbn [fmap option_fmap option_map] in E; [|by injection E as <- <-].
  apply find_row_Some in Ef as [? ?]. change (doc (document w id r)) with r in E.
  destruct (ensure_document_access ctx r action) eqn:Ea; [|by injection E as <- <-]. by exists r.
Qed.

Lemma append_spec ctx jr q seller id s previous sent w rep w' r : good w -> docs w !! id = Some r -> d_org r = ctx_org ctx ->
  d_slug r = Some s -> d_voided r = None ->
  alone (append_and_enqueue ctx jr q seller id s previous sent) w = (Ok rep, w') -> http rep = 202 ->
  exists p, docs w' = docs w /\ (forall j u, vers w !! j = Some u -> vers w' !! j = Some u) /\ max_no w' id = max_no w id + 1 /\
    member "version_no" (data rep) = Some (JInt (max_no w id + 1)) /\ asks w' p (ctx_org ctx) id /\
    queue w' = (queue w ++ if q then [p] else [])%list.
Proof.
  intros G Hr Ho Hs Hv E H. unfold append_and_enqueue in E.
  destruct (InputPolicy.version_input _ _ _ _) as [[err|input]|e|]; [by injection E as <- <- | | discriminate..].
  rewrite pure_ok in E. destruct (Registry.latest tree s) as [[info|]|e|]; [ | by injection E as <- <- | discriminate..].
  rewrite pure_ok in E. destruct (schema_error _ _); [by injection E as <- <-|]. destruct (negb jr); [by injection E as <- <-|].
  apply step_Ok in E as ([vid v] & w1 & Ea & E). rewrite (alone_step _ _ _ _ _ (submit_frame _ _ _)) in E.
  cbn [alone mret prog_ret fst snd] in E. injection E as <- <-. unfold add_version in Ea.
  rewrite (proj2 (find_row_Some _ _ _ _) (conj Hr Ho)) in Ea. cbv zeta in Ea. destruct (in_i32 _); [|discriminate].
  set (v' := mkVer _ _ _ _ _ _ _ _ _ _ _) in Ea. injection Ea as <- <- <-. set (vid := gen_random_uuid (seq w)).
  pose proof (fresh_ver w (seq w) G (le_n _)) as Hf. destruct (insert_new_max w vid v' 1 Hf eq_refl) as [M _].
  set (w1 := next_ids _ _). assert (max_no w1 id = max_no w id + 1) as M1 by (etrans; [by apply max_no_vers | exact M]).
  exists (render_payload (ctx_org ctx) id vid s input).
  assert (forall l, max_no (with_queue l w1) id = max_no w id + 1) as M2 by (intros l; etrans; [by apply max_no_vers | exact M1]).
  split_and!; [done | | apply M2 | done | | done].
  - intros j u Hu. cbn [vers with_queue w1 with_vers next_ids]. rewrite lookup_insert_ne; [done|]. intros Ej. rewrite <- Ej in Hu. fold vid in Hf. congruence.
  - exists vid, s, input, v', r. split_and!; [done..| cbn; apply lookup_insert_eq | done |].
    apply (renderable_version _ _ id vid v' r); [done | done | cbn; apply lookup_insert_eq | done | done | by rewrite M2 | done].
Qed.

Lemma createVersion_asks ctx jr q seller path parsed w rep w' : good w ->
  alone (createVersion ctx jr q seller path parsed) w = (Ok rep, w') -> http rep = 202 ->
  let id := Requests.uuid_key path in
  exists p r, docs w !! id = Some r /\ d_org r = ctx_org ctx /\ d_source r = "generated" /\ d_voided r = None /\
    ensure_document_access ctx r "write" = true /\
    docs w' = docs w /\ (forall j u, vers w !! j = Some u -> vers w' !! j = Some u) /\ max_no w' id = max_no w id + 1 /\
    member "version_no" (data rep) = Some (JInt (max_no w id + 1)) /\ asks w' p (ctx_org ctx) id /\
    queue w' = (queue w ++ if q then [p] else [])%list.
Proof.
  intros G E H. unfold createVersion, with_id in E. destruct (negb _); [by injection E as <- <-|].
  destruct parsed as [[]|]; try (by injection E as <- <-). destruct (input_object _ []); [|by injection E as <- <-].
  apply with_repo_errors_202 in E; [|done]. apply with_document_202 in E as (r & Hr & Ho & Hacc & E); [|done].
  cbn [doc document] in E. destruct (d_slug r) as [[|c s]|] eqn:Es; [by injection E as <- <- | | by injection E as <- <-].
  destruct (String.eqb_spec (d_source r) "generated") as [Hsrc|]; [|by injection E as <- <-]. cbn [negb] in E.
  destruct (d_voided r) eqn:Ev; [by injection E as <- <-|]. rewrite bool_decide_false in E by (by intros [? ?]).
  apply step_Ok in E as (previous & w1 & [= <- <-] & E). destruct (head _) as [[pv v]|]; [|by injection E as <- <-].
  destruct (append_spec ctx jr q seller (Requests.uuid_key path) (String c s) (v_snapshot v) (client_input (JObject l)) w rep w' r G Hr Ho Es Ev E H) as (p & Hp).
  by exists p, r.
Qed.

(** C19: What is queued is what is stored.  When a request to generate a document is
    accepted, there is one new draft of the organization; when an edit is accepted, an
    existing generated document that is not voided, of a type the role may write, has
    one version more and everything older is as it was.  In both cases, when the queue
    answered, exactly one render is queued, and it names the newest version of that
    very document, whose stored input is the input it carries: a render that starts
    now is not refused.  When the queue did not answer nothing is queued and the reply
    says so. *)
Theorem queued_is_stored ctx jr q seller parsed w rep w' : good w -> http rep = 202 ->
  (alone (generate ctx jr q seller parsed) w = (Ok rep, w') ->
   exists id r p, docs w !! id = None /\ docs w' !! id = Some r /\ d_status r = "draft" /\ d_source r = "generated" /\
     data rep = JObject [("document_id", JString id); ("render_queued", JBool q)] /\ asks w' p (ctx_org ctx) id /\
     queue w' = (queue w ++ if q then [p] else [])%list) /\
  (forall path, alone (createVersion ctx jr q seller path parsed) w = (Ok rep, w') ->
   let id := Requests.uuid_key path in
   exists p r, docs w !! id = Some r /\ d_org r = ctx_org ctx /\ d_source r = "generated" /\ d_voided r = None /\
     ensure_document_access ctx r "write" = true /\
     docs w' = docs w /\ (forall j u, vers w !! j = Some u -> vers w' !! j = Some u) /\ max_no w' id = max_no w id + 1 /\
     member "version_no" (data rep) = Some (JInt (max_no w id + 1)) /\ asks w' p (ctx_org ctx) id /\
     queue w' = (queue w ++ if q then [p] else [])%list).
Proof. intros G H. split; [intros E; by eapply generate_asks | intros id E; by eapply createVersion_asks]. Qed.

(** ** Who sees what *)

Lemma reads_everything role : Agent.allows role "documents" "read" = true -> forall ty, Agent.allows role (resource_of ty) "read" = true.
Proof.
  intros H ty. unfold Agent.allows, Agent.grant_for, resource_of in *.
  destruct (Agent.role_index role) as [|[|[|[|[|n]]]]]; try discriminate; by destruct (String.eqb ty kPayrollDocType), (String.eqb ty kHrDocType).
Qed.

Lemma reads_staff role : Agent.allows role "documents" "read" = false -> Agent.allows role "hr_docs" "read" = true ->
  forall ty, Agent.allows role (resource_of ty) "read" = String.eqb ty kHrDocType.
Proof.
  intros H1 H2 ty. unfold Agent.allows, Agent.grant_for, resource_of in *.
  destruct (Agent.role_index role) as [|[|[|[|[|n]]]]]; try done; try discriminate.
  all: destruct (String.eqb_spec ty kPayrollDocType) as [->|]; [done|]; by destruct (String.eqb ty kHrDocType).
Qed.

Lemma list_ok ctx ty st l o w rep w' : alone (list_documents ctx ty st l o) w = (Ok rep, w') -> http rep = 200 ->
  let tf := if Agent.allows (role ctx) "documents" "read" then (if String.eqb ty "" then None else Some ty) else Some kHrDocType in
  let sf := if String.eqb st "" then None else Some st in
  let page := parse_page_params l o 50 200 in
  (Agent.allows (role ctx) "documents" "read" = true \/ Agent.allows (role ctx) "hr_docs" "read" = true) /\ w' = w /\
  exists rows, rows = take (Z.to_nat (limit page)) (drop (Z.to_nat (offset page)) (stable_sort newer (selection (ctx_org ctx) tf sf w))) /\
    data rep = JObject [("data", JArray (map (fun e => document_json (document w e.1 e.2)) rows)); ("limit", JInt (limit page));
                        ("offset", JInt (offset page)); ("total", JInt (Z.of_nat (length (selection (ctx_org ctx) tf sf w))))].
Proof.
  intros E H. unfold list_documents in E. cbv zeta in E |- *.
  destruct (Agent.allows (role ctx) "documents" "read") eqn:E1, (Agent.allows (role ctx) "hr_docs" "read") eqn:E2; cbn [negb andb] in E;
    try (by injection E as <- <-);
    (destruct (Validation.any _); [by injection E as <- <-|]; cbn in E; injection E as <- <-;
     split; [auto|]; split; [done|]; eexists; split; [reflexivity|]; cbn [data]; by rewrite map_map).
Qed.

Lemma elem_slice {A} (x : A) n m l : x ∈ take n (drop m l) -> x ∈ l.
Proof.
  intros H. rewrite <- (take_drop m l). apply elem_of_app. right. rewrite <- (take_drop n (drop m l)). apply elem_of_app. by left.
Qed.

(** The documents of the organization that the caller may open one by one. *)
Definition readable (ctx : OrgContext) (w : Store) : list (string * DocRow) :=
  List.filter (fun e => String.eqb (d_org e.2) (ctx_org ctx) && ensure_document_access ctx e.2 "read") (map_to_list (docs w)).

Lemma selection_readable ctx tf sf w : selection (ctx_org ctx) tf sf w ⊆ selection (ctx_org ctx) tf None w.
Proof.
  intros e. unfold selection. rewrite !list_elem_of_In, !filter_In. intros [? H]. split; [done|]. unfold selected in *.
  rewrite andb_true_r. by apply andb_true_iff in H as [? _].
Qed.

Lemma selection_access ctx tf w : Agent.allows (role ctx) "documents" "read" = true \/ Agent.allows (role ctx) "hr_docs" "read" = true ->
  let tf' := if Agent.allows (role ctx) "documents" "read" then tf else Some kHrDocType in
  selection (ctx_org ctx) tf' None w = List.filter (fun e => match tf with
      | Some t => if Agent.allows (role ctx) "documents" "read" then String.eqb (d_type e.2) t else true | None => true end) (readable ctx w).
Proof.
  intros H. cbv zeta. unfold selection, readable. induction (map_to_list (docs w)) as [|e l IH]; [done|]. cbn [List.filter].
  unfold selected, ensure_document_access in *. rewrite andb_true_r. destruct (String.eqb (d_org e.2) (ctx_org ctx)); cbn [andb]; [|exact IH].
  destruct (Agent.allows (role ctx) "documents" "read") eqn:E.
  - rewrite (reads_everything _ E). cbn [List.filter]. rewrite IH. by destruct tf.
  - destruct H as [?|H]; [done|]. rewrite (reads_staff _ E H). destruct (String.eqb (d_type e.2) kHrDocType); cbn [List.filter]; rewrite IH; by destruct tf.
Qed.

(** C27: The registry shows what its reader may open.  Whatever filters and page a caller
    asks for, every document in the answer is of the caller's organization and is one
    the same role may open on its own, whose matrix resource depends on its type; and
    without filters the answer is the requested page of exactly those documents, newest
    first, with their number as the total, so that the count gives nothing away. *)
Theorem list_is_access ctx ty st l o w rep w' : alone (list_documents ctx ty st l o) w = (Ok rep, w') -> http rep = 200 ->
  let page := parse_page_params l o 50 200 in
  w' = w /\ exists rows total,
    data rep = JObject [("data", JArray (map (fun e => document_json (document w e.1 e.2)) rows)); ("limit", JInt (limit page));
                        ("offset", JInt (offset page)); ("total", JInt total)] /\
    (forall e, e ∈ rows -> e ∈ readable ctx w) /\
    (ty = "" -> st = "" -> total = Z.of_nat (length (readable ctx w)) /\
       rows = take (Z.to_nat (limit page)) (drop (Z.to_nat (offset page)) (stable_sort newer (readable ctx w)))).
Proof.
  intros E H. destruct (list_ok _ _ _ _ _ _ _ _ E H) as (Hr & -> & rows & -> & Hd). cbv zeta. split; [done|].
  eexists _, _. split; [exact Hd|]. split.
  - intros e He%elem_slice. rewrite stable_sort_perm in He. apply selection_readable in He.
    pose proof (selection_access ctx (if String.eqb ty "" then None else Some ty) w Hr) as HS. cbv zeta in HS. rewrite HS in He.
    by apply list_elem_of_In, filter_In in He as [He%list_elem_of_In _].
  - intros -> ->. cbn [String.eqb]. pose proof (selection_access ctx None w Hr) as HS. cbv zeta in HS. rewrite HS.
    assert (forall k : list (string * DocRow), List.filter (fun _ => true) k = k) as Hid by (induction k; cbn; congruence).
    by rewrite Hid.
Qed.

End Flow.

(** ** Races *)

Module Example.
Import JournalDb.Reference.

#[local] Existing Instance uuid_server.

(** An engine that stamps every PDF with the run that made it. *)
#[local] Instance stamping : Renderer := { schema_error _ _ := None; typst_compile run _ _ := Some ("%PDF run " +:+ dec (Z.of_nat run)) }.

Definition disk : Registry.Tree := {["invoice" := [("v1", Some (Registry.mkDir (Some "= Invoice") (Some (Some (JObject [])))))]]}.
Definition digest (s : string) : string := "sha256 of " +:+ s.
Definition empty_store : Store :=
  mkStore ∅ ∅ [] ∅ ∅ ∅ {["org"]} 0 0 ∅ (OrgTemplates.mkDB ∅ {["org"]} ∅ 0) [].
Definition clerk : OrgContext := mkCtx "org" "accountant" "someone".
Definition asked : json := JObject [("input", JObject InputPolicy.invoice_request); ("template_slug", JString "invoice")].
Definition the_doc : string := id_text 0.
Definition the_version : string := id_text 1.

Definition making : prog Store () := void (generate disk clerk true true InputPolicy.our_seller (Some asked)).
Definition payload : json := match queue (alone making empty_store).2 with p :: _ => p | [] => JNull end.
Definition rendering (run : nat) : prog Store () := void (process_job disk None digest 1 run true payload).
Definition voiding : prog Store () := void (voidDocument clerk the_doc (Some (JObject [("reason", JString "duplicate")]))).

Abbreviation started := (request disk None digest).

Lemma start_making w : started w making.
Proof. exact (request_generate disk None digest w clerk true true InputPolicy.our_seller (Some asked)). Qed.
Lemma start_rendering run w : started w (rendering run).
Proof. exact (request_job disk None digest w 1 run true payload). Qed.
Lemma start_voiding w : started w voiding.
Proof. exact (request_void disk None digest w clerk the_doc (Some (JObject [("reason", JString "duplicate")]))). Qed.

Lemma run_reaches (order : list nat) (l : list (prog Store ())) : Forall (fun p => forall w, started w p) l ->
  rtc (turn started) (empty_store, []) (schedule order (empty_store, l)).
Proof. intros H. apply schedule_reached. eapply Forall_impl; [exact H | auto]. Qed.

Lemma empty_good : good empty_store.
Proof.
  split; unfold empty_store; cbn [docs vers links]; intros *; rewrite ?lookup_empty; try done. by intros ?%elem_of_nil.
Qed.

(** What the document shows at the end of a run, as a decision. *)
Definition shows (P : DocRow -> VerRow -> string -> bool) (w : Store) : bool :=
  match docs w !! the_doc, vers w !! the_version with
  | Some r, Some v => match v_s3_key v with
                      | Some key => match objects w !! key with Some bytes => P r v bytes | None => false end
                      | None => false
                      end
  | _, _ => false
  end.

Lemma shows_inv P w : shows P w = true -> exists r v key bytes, docs w !! the_doc = Some r /\ vers w !! the_version = Some v /\
  v_s3_key v = Some key /\ objects w !! key = Some bytes /\ P r v bytes = true.
Proof.
  unfold shows. destruct (docs w !! the_doc) as [r|]; [|done]. destruct (vers w !! the_version) as [v|]; [|done].
  destruct (v_s3_key v) as [key|] eqn:Ek; [|done]. destruct (objects w !! key) as [bytes|] eqn:Eb; [|done]. intros H. by exists r, v, key, bytes.
Qed.

Definition published (r : DocRow) : bool := String.eqb (d_status r) "final" && bool_decide (d_current r = Some the_version).

Lemma published_inv r : published r = true -> d_status r = "final" /\ d_current r = Some the_version.
Proof. intros [H1%String.eqb_eq H2%bool_decide_eq_true]%andb_true_iff. done. Qed.

(** Delivered twice, a render can leave a file that fails its own checksum.  The queue
    hands a job out again when its lease runs out; two runs of the same render that
    both passed the check before either stored anything each overwrite the one object
    and then the one row, in either order, and when the orders differ the document
    shows, as final, a file whose stored checksum is not the one of its bytes. *)
Theorem double_render_corrupts :
  exists w ts r v key bytes, rtc (turn started) (empty_store, []) (w, ts) /\
    docs w !! the_doc = Some r /\ d_status r = "final" /\ d_current r = Some the_version /\ vers w !! the_version = Some v /\
    v_s3_key v = Some key /\ objects w !! key = Some bytes /\ v_checksum v <> Some (digest bytes).
Proof.
  set (s := schedule [0; 0; 0; 1; 1; 2; 2; 1; 2; 2; 1; 1; 1; 2; 2]%nat (empty_store, [making; rendering 1; rendering 2])).
  assert (shows (fun r v bytes => published r && negb (bool_decide (v_checksum v = Some (digest bytes)))) s.1 = true) as H
    by (vm_compute; reflexivity).
  apply shows_inv in H as (r & v & key & bytes & Hr & Hv & Hk & Ho & [[? ?]%published_inv Hc]%andb_true_iff).
  apply negb_true_iff, bool_decide_eq_false in Hc.
  exists s.1, s.2, r, v, key, bytes. split; [|by split_and!]. rewrite <- surjective_pairing. apply run_reaches.
  repeat apply Forall_cons_2; auto using start_making, start_rendering, Forall_nil_2.
Qed.

(** Voiding does not stop a render already under way.  A job that looked at the
    document just before it was voided goes on to store the file, publish it and close
    the draft: the voided document, which had no file, now shows one and is final. *)
Theorem voided_is_published :
  exists w1 ts1 r1 w2 ts2 r2 v, rtc (turn started) (empty_store, []) (w1, ts1) /\ rtc (turn started) (w1, ts1) (w2, ts2) /\
    docs w1 !! the_doc = Some r1 /\ is_Some (d_voided r1) /\ d_current r1 = None /\ d_status r1 = "draft" /\
    docs w2 !! the_doc = Some r2 /\ d_voided r2 = d_voided r1 /\ d_current r2 = Some the_version /\ d_status r2 = "final" /\
    vers w2 !! the_version = Some v /\ is_Some (v_s3_key v).
Proof.
  set (l := [making; rendering 1; voiding]). set (s1 := schedule [0; 0; 0; 1; 1; 2; 2; 2]%nat (empty_store, l)).
  set (s2 := schedule [1; 1; 1; 1]%nat s1).
  assert (match docs s1.1 !! the_doc with
          | Some r1 => String.eqb (d_status r1) "draft" && bool_decide (d_current r1 = None) && bool_decide (d_voided r1 <> None) &&
              shows (fun r2 v _ => published r2 && bool_decide (d_voided r2 = d_voided r1)) s2.1
          | None => false end = true) as H by (vm_compute; reflexivity).
  destruct (docs s1.1 !! the_doc) as [r1|] eqn:Hr1; [|done].
  apply andb_true_iff in H as [[[Hs%String.eqb_eq Hc%bool_decide_eq_true]%andb_true_iff Hv1%bool_decide_eq_true]%andb_true_iff H].
  apply shows_inv in H as (r2 & v & key & bytes & Hr2 & Hv & Hk & _ & [[Hst Hcu]%published_inv Hvo]%andb_true_iff).
  apply bool_decide_eq_true in Hvo.
  exists s1.1, s1.2, r1, s2.1, s2.2, r2, v. rewrite <- !surjective_pairing. split.
  { apply run_reaches. repeat apply Forall_cons_2; auto using start_making, start_rendering, start_voiding, Forall_nil_2. }
  split; [apply schedule_turns|]. split_and!; [exact Hr1 | by apply not_eq_None_Some | exact Hc | exact Hs | exact Hr2 | exact Hvo
    | exact Hcu | exact Hst | exact Hv | by exists key].
Qed.

Lemma history_kept_witness :
  let s := schedule [0; 0; 0; 1; 1; 1; 1; 1; 1]%nat (empty_store, [making; rendering 1]) in
  (exists r, docs s.1 !! the_doc = Some r /\ d_status r = "final") /\ good s.1 /\ evolves empty_store s.1.
Proof.
  intros s. split; [eexists; split; vm_compute; reflexivity|]. apply (history_kept disk None digest empty_store s.1 s.2 empty_good).
  rewrite <- surjective_pairing. apply run_reaches. repeat apply Forall_cons_2; auto using start_making, start_rendering, Forall_nil_2.
Defined.

(** The store after a document has been made. *)
Definition made : Store := (schedule [0; 0; 0]%nat (empty_store, [making])).1.

Lemma made_good : good made.
Proof.
  refine (proj1 (pool_keeps good evolves started (fun w p _ Hp => request_quiet disk None digest w p Hp) (empty_store, [])
    (schedule [0; 0; 0]%nat (empty_store, [making])) _ empty_good (Forall_nil_2 _))).
  apply run_reaches. apply Forall_cons_2; [exact start_making | apply Forall_nil_2].
Qed.

Definition the_input : json := match member "input" payload with Some i => i | None => JNull end.

Lemma render_job_spec_witness :
  exists res, (alone (process_job disk None digest 1 7 true (render_payload "org" the_doc the_version "invoice" the_input)) made).1 = Ok res /\
    member "skipped" res = None.
Proof.
  pose proof (render_job_spec disk None digest 1 7 made "org" the_doc the_version "invoice" the_input made_good ltac:(discriminate)) as H.
  cbv zeta in H. destruct (alone (process_job _ _ _ _ _ _ _) made) as [out w'].
  assert ((alone (Render.render_and_compile disk None 1 7 "invoice" the_input "org") (templates made)).1 = Ok ("%PDF run 7", "typst")) as E1
    by (vm_compute; reflexivity).
  assert (render_state "org" the_doc the_version made = kRenderable) as E2 by (vm_compute; reflexivity).
  rewrite E1, E2 in H. destruct H as (r & v & res & _ & _ & -> & Hs & _). exists res. split; [reflexivity | exact Hs].
Defined.

Lemma queued_is_stored_witness :
  exists id r, docs (alone (generate disk clerk true true InputPolicy.our_seller (Some asked)) empty_store).2 !! id = Some r /\
    d_status r = "draft".
Proof.
  assert (match (alone (generate disk clerk true true InputPolicy.our_seller (Some asked)) empty_store).1 with
          | Ok rep => http rep =? 202 | _ => false end = true) as H by (vm_compute; reflexivity).
  destruct (alone (generate disk clerk true true InputPolicy.our_seller (Some asked)) empty_store) as [[rep|e|] w'] eqn:E; try discriminate.
  cbn [fst snd] in *. apply Z.eqb_eq in H.
  destruct (proj1 (queued_is_stored disk clerk true true InputPolicy.our_seller (Some asked) empty_store rep w' empty_good H) E)
    as (id & r & p & _ & Hr & Hs & _). by exists id, r.
Defined.

Lemma list_is_access_witness :
  exists rep, alone (list_documents clerk "" "" "" "") made = (Ok rep, made) /\ member "total" (data rep) = Some (JInt 1).
Proof.
  assert (match (alone (list_documents clerk "" "" "" "") made).1 with Ok rep => http rep =? 200 | _ => false end = true) as H
    by (vm_compute; reflexivity).
  destruct (alone (list_documents clerk "" "" "" "") made) as [[rep|e|] w'] eqn:E; try discriminate.
  cbn [fst] in H. apply Z.eqb_eq in H. destruct (list_is_access clerk "" "" "" "" made rep w' E H) as (-> & rows & total & Hd & _ & Ht).
  exists rep. split; [done|]. rewrite Hd. destruct (Ht eq_refl eq_refl) as [-> _].
  assert (length (readable clerk made) = 1%nat) as -> by (vm_compute; reflexivity). reflexivity.
Defined.

End Example.

End DocumentFlow.
