(* ===== verification/Auth.v ===== *)
(** * Credentials

    src/security/Jwt.hpp (signed access and refresh tokens), src/security/Tokens.hpp
    (the single-purpose tokens of account mails), src/security/Auth.hpp (what a token
    says about its bearer, and the guards), src/security/ApiKeys.hpp,
    src/security/Csrf.hpp, the reading of cookies of src/security/SessionCookies.hpp and
    the authentication middleware of src/api/Middleware.hpp.  The hashes are OpenSSL's,
    an interface here. *)
From Stdlib Require Import ZArith Lia Ascii String.
From S2P Require Import Prelude Json Utils.
Import Json.
Open Scope string_scope.
Open Scope Z_scope.
Set Warnings "-clear-no-such-hyp".

(** What OpenSSL computes. *)
Class Crypto := { hmac_sha256 : string -> string -> string; sha256 : string -> string }.

(** ** Parts of a token *)

(** The text before and after the first dot. *)
Definition cut_dot (s : string) : option (string * string) :=
  n ← str_find "." s; Some (str_take n s, str_drop (S n) s).

Definition no_dot (c : ascii) : bool := negb (Ascii.eqb c ".").

Lemma cut_dot_app a b : str_all no_dot a = true -> cut_dot (a +:+ String "." b) = Some (a, b).
Proof.
  intros H. unfold cut_dot. rewrite (str_find_app no_dot "." a b) by done. cbn [mbind option_bind].
  rewrite str_take_app. do 2 f_equal. change (S (size a)) with (1 + size a)%nat. rewrite Nat.add_comm.
  rewrite <- Strings.str_drop_drop. by rewrite str_drop_app.
Qed.

Lemma cut_dot_inv s a b : cut_dot s = Some (a, b) -> s = a +:+ String "." b /\ str_all no_dot a = true.
Proof.
  unfold cut_dot. revert a b. induction s as [|c s IH]; intros a b; cbn [str_find]; [done|].
  destruct (ascii_dec "." c) as [<-|Hc]; cbn [mbind option_bind str_take str_drop].
  - intros [= <- <-]. by destruct s.
  - destruct (str_find "." s) as [n|] eqn:E; cbn [fmap option_fmap option_map mbind option_bind] in *; [|done].
    intros [= <- <-]. destruct (IH _ _ eq_refl) as [Es Ha]. split; [cbn [str_take str_drop String.append]; by f_equal|].
    cbn [str_take str_all]. rewrite Ha, andb_true_r. unfold no_dot. destruct (Ascii.eqb_spec c "."); [congruence | done].
Qed.

(** What is skipped by the decoder may be appended. *)
Lemma decode_skipped s c buf bits n : Base64.skipped c = true ->
  Base64.decode_loop (s +:+ String c "") buf bits n = Base64.decode_loop s buf bits n.
Proof.
  intros Hc. rewrite (Base64.decode_filter (s +:+ _)), (Base64.decode_filter s). f_equal.
  rewrite str_filter_app. cbn [str_filter]. unfold Base64.significant at 2. rewrite Hc. cbn [negb]. by rewrite app_empty_r.
Qed.

(** The letters of an encoding. *)
Lemma drain_letters fuel buf bits : str_all no_dot (Base64.drain fuel buf bits).1 = true.
Proof.
  revert bits. induction fuel as [|f IH]; intros bits; cbn [Base64.drain]; [done|].
  destruct (6 <=? bits); [|done]. specialize (IH (bits - 6)). destruct (Base64.drain f buf (bits - 6)) as [s k].
  cbn [fst str_all] in *. rewrite IH, andb_true_r. set (v := Z.land _ 63).
  assert (0 <= v < 64) as Hv by (unfold v; rewrite Base64.mask63; apply Z.mod_pos_bound; lia).
  pose proof (Base64.table_alpha v Hv) as T. unfold no_dot. destruct (Ascii.eqb_spec (Base64.alpha_at v) ".") as [E|]; [|done].
  rewrite E in T. change (Base64.table ".") with (-1) in T. lia.
Qed.

Lemma encode_no_dot s : str_all no_dot (Base64.url_encode s) = true.
Proof.
  unfold Base64.url_encode. generalize 0 at 1. generalize 0. induction s as [|c s IH]; intros bits buf; cbn [Base64.encode_loop].
  - destruct (0 <? bits); [|done]. pose proof (drain_letters 1 (Base64.u32 (Z.shiftl buf (6 - bits))) 6) as H. cbn [Base64.drain Z.leb] in H.
    exact H.
  - rewrite str_all_app, drain_letters. apply IH.
Qed.

(** ** Signed tokens (src/security/Jwt.hpp) *)

Module Jwt.

Section Jwt.
Context `{CR : Crypto} `{TX : JsonText}.

(** [json::parse(url_decode(s))], with every failure the same. *)
Definition parsed (s : string) : option json := match Base64.url_decode s with Ok t => json_parse t | _ => None end.

(** [verify_hs256_jwt]: src/security/Jwt.hpp:28-77. *)
Definition verify_hs256_jwt (token secret : string) : outcome (string + json) :=
  match cut_dot token with
  | None => Ok (inl "malformed_token")
  | Some (header_b64, rest) =>
      match cut_dot rest with
      | None => Ok (inl "malformed_token")
      | Some (payload_b64, sig_b64) =>
          match parsed header_b64 with
          | None => Ok (inl "malformed_header")
          | Some header =>
              alg ← value_string "alg" "" header;
              typ ← (if String.eqb alg "HS256" then value_string "typ" "JWT" header else Ok "");
              if negb (String.eqb alg "HS256") || negb (String.eqb typ "JWT") then Ok (inl "unsupported_alg")
              else if String.eqb secret "" then Ok (inl "no_secret")
              else
                let expected_sig := hmac_sha256 secret (header_b64 +:+ "." +:+ payload_b64) in
                match Base64.url_decode sig_b64 with
                | Ok actual_sig =>
                    if negb (String.eqb expected_sig actual_sig) then Ok (inl "bad_signature")
                    else match parsed payload_b64 with
                         | None => Ok (inl "malformed_payload")
                         | Some claims => Ok (inr claims)
                         end
                | _ => Ok (inl "malformed_signature")
                end
          end
      end
  end.

(** [issue_hs256_jwt]: src/security/Jwt.hpp:86-95. *)
Definition issue_hs256_jwt (claims : json) (secret : string) : outcome string :=
  if String.eqb secret "" then Throw (Exn std_invalid_argument "secret must be non-empty")
  else
    header ← json_dump (JObject [("alg", JString "HS256"); ("typ", JString "JWT")]);
    payload ← json_dump claims;
    let signing_input := Base64.url_encode header +:+ "." +:+ Base64.url_encode payload in
    Ok (signing_input +:+ "." +:+ Base64.url_encode (hmac_sha256 secret signing_input)).

(** What was issued verifies, with its claims. *)
Lemma issued_verifies claims secret token : issue_hs256_jwt claims secret = Ok token ->
  verify_hs256_jwt token secret = Ok (inr claims).
Proof.
  unfold issue_hs256_jwt. destruct (String.eqb_spec secret "") as [|Hs]; [done|].
  intros (header & Hh & (payload & Hp & [= <-])%bind_Ok_inv)%bind_Ok_inv.
  set (h := Base64.url_encode header). set (p := Base64.url_encode payload). unfold verify_hs256_jwt.
  rewrite !str_app_assoc. cbn [String.append].
  rewrite cut_dot_app, cut_dot_app by apply encode_no_dot. unfold parsed.
  unfold h at 1. rewrite Base64.url_encode_decode, (parse_dump _ _ Hh). cbn [value_string value get_string obj_get String.eqb Ascii.eqb Bool.eqb].
  rewrite !bind_ok. cbn [String.eqb Ascii.eqb Bool.eqb negb orb]. rewrite (proj2 (String.eqb_neq _ _) Hs), Base64.url_encode_decode.
  rewrite String.eqb_refl. cbn [negb]. unfold p. by rewrite Base64.url_encode_decode, (parse_dump _ _ Hp).
Qed.

(** What verifies is signed: it has the three parts, an HS256 header and the signature
    of the first two under the secret. *)
Lemma verified_signed token secret claims : verify_hs256_jwt token secret = Ok (inr claims) ->
  exists h p s, token = h +:+ "." +:+ p +:+ "." +:+ s /\ str_all no_dot h = true /\ str_all no_dot p = true /\
    Base64.url_decode s = Ok (hmac_sha256 secret (h +:+ "." +:+ p)) /\ parsed p = Some claims /\ secret <> "".
Proof.
  unfold verify_hs256_jwt. destruct (cut_dot token) as [[h rest]|] eqn:E1; [|done].
  destruct (cut_dot rest) as [[p s]|] eqn:E2; [|done]. apply cut_dot_inv in E1 as [-> Hh]. apply cut_dot_inv in E2 as [-> Hp].
  destruct (parsed h) as [header|]; [|done]. intros (alg & _ & (typ & _ & H)%bind_Ok_inv)%bind_Ok_inv.
  destruct (_ || _); [done|]. destruct (String.eqb_spec secret "") as [|Hs]; [done|].
  destruct (Base64.url_decode s) as [sig| |] eqn:E3; [|done..]. destruct (String.eqb_spec (hmac_sha256 secret (h +:+ "." +:+ p)) sig) as [<-|]; [|done].
  cbn [negb] in H. destruct (parsed p) as [c|] eqn:E4; [|done]. injection H as <-. by exists h, p, s.
Qed.

End Jwt.

(** A header that is JSON but no object, in a token signed by nobody, is not refused:
    the verification throws. *)
Theorem forged_header_throws `{CR : Crypto} `{TX : JsonText} header text rest secret :
  is_object header = false -> json_dump header = Ok text -> str_find "." rest <> None ->
  throws json_type_error (verify_hs256_jwt (Base64.url_encode text +:+ "." +:+ rest) secret).
Proof.
  intros Ho Hd Hr. unfold verify_hs256_jwt. change ("." +:+ rest) with (String "." rest). rewrite cut_dot_app by apply encode_no_dot.
  unfold cut_dot. destruct (str_find "." rest) as [n|]; [|done]. cbn [mbind option_bind]. unfold parsed.
  rewrite Base64.url_encode_decode, (parse_dump _ _ Hd). destruct header; [by eexists..|done].
Qed.

End Jwt.

(** ** Mailed tokens (src/security/Tokens.hpp) *)

Module Tokens.

(** [Purpose]: src/security/Tokens.hpp:45-51. *)
Inductive Purpose := Confirm | ResetPassword | ChangeEmail | Invite | Preview.

#[export] Instance Purpose_eq_dec : EqDecision Purpose.
Proof. solve_decision. Defined.

(** [purpose_string]: src/security/Tokens.hpp:53-67. *)
Definition purpose_string (p : Purpose) : string :=
  match p with
  | Confirm => "confirm" | ResetPassword => "reset" | ChangeEmail => "change_email" | Invite => "invite" | Preview => "preview"
  end.

#[export] Instance purpose_string_inj : Inj (=) (=) purpose_string.
Proof. by intros [] []. Qed.

Definition reserved : list string := ["sub"; "purpose"; "iat"; "exp"].

Section Tokens.
Context `{CR : Crypto} `{TX : JsonText}.

(** [derive_key]: src/security/Tokens.hpp:75-77. *)
Definition derive_key (master : string) (p : Purpose) : string := hmac_sha256 master ("tokens:" +:+ purpose_string p).

(** [issue]: src/security/Tokens.hpp:102-111.  The claims, the caller's own written last. *)
Definition payload (sub : string) (p : Purpose) (iat exp : Z) (extra : json) : json :=
  JObject (foldl (fun l e => obj_set e.1 e.2 l)
    [("exp", JInt exp); ("iat", JInt iat); ("purpose", JString (purpose_string p)); ("sub", JString sub)] (members extra)).

(** [issue]: src/security/Tokens.hpp:92-117. *)
Definition issue (master sub : string) (p : Purpose) (now ttl : Z) (extra : json) : outcome string :=
  if String.eqb master "" then Throw (Exn std_invalid_argument "master_secret must be set")
  else
    exp ← add64 now ttl;
    text ← json_dump (payload sub p now exp extra);
    let payload_b64 := Base64.url_encode text in
    Ok (payload_b64 +:+ "." +:+ Base64.url_encode (hmac_sha256 (derive_key master p) payload_b64)).

(** [verify]: src/security/Tokens.hpp:199-209.  The claims that are not the canonical ones. *)
Definition extras (claims : json) : json := JObject (List.filter (fun e => negb (existsb (String.eqb e.1) reserved)) (members claims)).

(** [verify]: src/security/Tokens.hpp:172-212.  What the signed claims say. *)
Definition verify_claims (now : Z) (p : Purpose) (claims : json) : string + (string * json) :=
  if negb (bool_decide (member "purpose" claims = Some (JString (purpose_string p)))) then inl "wrong_purpose"
  else match member "exp" claims with
  | Some (JInt exp) =>
      if get_ll exp <? now then inl "expired"
      else match member "sub" claims with
           | Some (JString sub) => inr (sub, extras claims)
           | _ => inl "no_sub"
           end
  | _ => inl "no_exp"
  end.

(** [verify]: src/security/Tokens.hpp:132-213. *)
Definition verify (master token : string) (now : Z) (expected : Purpose) : string + (string * json) :=
  if String.eqb master "" then inl "no_secret"
  else match cut_dot token with
  | None => inl "malformed"
  | Some (payload_b64, sig_b64) =>
      match Base64.url_decode sig_b64, Base64.url_decode payload_b64 with
      | Ok actual_sig, Ok payload_raw =>
          if negb (String.eqb (hmac_sha256 (derive_key master expected) payload_b64) actual_sig) then inl "invalid_signature"
          else match json_parse payload_raw with
               | None => inl "malformed"
               | Some claims => verify_claims now expected claims
               end
      | _, _ => inl "malformed"
      end
  end.

(** A member nobody overwrites. *)
Lemma foldl_set_get k (l : list (string * json)) : forall base, obj_get k l = None ->
  obj_get k (foldl (fun l e => obj_set e.1 e.2 l) base l) = obj_get k base.
Proof.
  induction l as [|[k' v] l IH]; intros base; cbn [obj_get foldl]; [done|]. destruct (String.eqb_spec k k') as [|Hk]; [done|].
  intros H. rewrite IH by done. cbn [fst snd]. by rewrite obj_get_set, (proj2 (String.eqb_neq _ _) Hk).
Qed.

Lemma payload_member k sub p iat exp extra : member k extra = None ->
  member k (payload sub p iat exp extra) =
  obj_get k [("exp", JInt exp); ("iat", JInt iat); ("purpose", JString (purpose_string p)); ("sub", JString sub)].
Proof. intros H. unfold payload. cbn [member]. apply foldl_set_get. by destruct extra. Qed.

(** What an issued token is when it is opened for any purpose: its claims, or a
    signature that does not match. *)
Lemma issued_opens master sub p now ttl extra token now' q : issue master sub p now ttl extra = Ok token ->
  verify master token now' q = verify_claims now' q (payload sub p now (now + ttl) extra) \/
  q <> p /\ verify master token now' q = inl "invalid_signature".
Proof.
  unfold issue. destruct (String.eqb_spec master "") as [|Hm]; [done|].
  intros (exp & [-> _]%i64_inv & (text & Hd & [= <-])%bind_Ok_inv)%bind_Ok_inv. unfold verify. rewrite (proj2 (String.eqb_neq _ _) Hm).
  change ("." +:+ ?s) with (String "." s). rewrite cut_dot_app by apply encode_no_dot. rewrite !Base64.url_encode_decode, (parse_dump _ _ Hd).
  destruct (String.eqb_spec (hmac_sha256 (derive_key master q) (Base64.url_encode text))
    (hmac_sha256 (derive_key master p) (Base64.url_encode text))) as [E|E]; [by left|]. right. split; [congruence | done].
Qed.

Lemma foldl_set_in k v (l : list (string * json)) : forall base, NoDup l.*1 -> obj_get k l = Some v ->
  obj_get k (foldl (fun l e => obj_set e.1 e.2 l) base l) = Some v.
Proof.
  induction l as [|[k' v'] l IH]; intros base Hn; cbn [obj_get foldl]; [done|]. apply NoDup_cons in Hn as [Hk Hn].
  destruct (String.eqb_spec k k') as [->|Hne].
  - intros [= ->]. rewrite foldl_set_get; cbn [fst snd]; [by rewrite obj_get_set, String.eqb_refl|].
    clear IH Hn. cbn [fst] in Hk. induction l as [|[k1 v1] l IH]; cbn [obj_get]; [done|].
    destruct (String.eqb_spec k' k1) as [->|]; [destruct Hk; apply list_elem_of_here|]. apply IH. intros H. apply Hk. by apply list_elem_of_further.
  - by apply IH.
Qed.

Lemma obj_get_filter (P : string -> bool) k (l : list (string * json)) :
  obj_get k (List.filter (fun e => P e.1) l) = if P k then obj_get k l else None.
Proof.
  induction l as [|[k' v] l IH]; cbn [List.filter obj_get fst]; [by destruct (P k)|].
  destruct (P k') eqn:E; cbn [obj_get]; rewrite IH; destruct (String.eqb_spec k k') as [->|]; rewrite ?E; done.
Qed.

(** C31: A mailed token says what it was issued for.  Until it expires, opening it for
    its purpose gives back the subject and the caller's claims, whatever the text of
    either; opening it for any other purpose, at any time, fails. *)
Theorem mailed_token_roundtrip master sub p now ttl extra token : issue master sub p now ttl extra = Ok token ->
  NoDup (members extra).*1 -> (forall k, k ∈ reserved -> member k extra = None) ->
  (forall now', now' <= get_ll (now + ttl) -> exists more, verify master token now' p = inr (sub, more) /\
     forall k v, member k extra = Some v -> member k more = Some v) /\
  (forall now' q, q <> p -> exists e, verify master token now' q = inl e).
Proof.
  intros Hi Hn Hr. assert (forall k, existsb (String.eqb k) reserved = true -> member k extra = None) as Hr'.
  { intros k (x & Hx & ->%String.eqb_eq)%existsb_exists. by apply Hr, list_elem_of_In. }
  split.
  - intros now' Hnow. exists (extras (payload sub p now (now + ttl) extra)). split.
    + destruct (issued_opens _ _ _ _ _ _ _ now' p Hi) as [->|[? _]]; [|done]. unfold verify_claims.
      rewrite !payload_member by by apply Hr'. cbn [obj_get String.eqb Ascii.eqb Bool.eqb]. rewrite bool_decide_eq_true_2 by done. cbn [negb].
      by rewrite (proj2 (Z.ltb_ge _ _)) by done.
    + intros k v Hk. unfold extras. cbn [member]. rewrite (obj_get_filter (fun x => negb (existsb (String.eqb x) reserved))).
      destruct (existsb (String.eqb k) reserved) eqn:E; [by rewrite (Hr' _ E) in Hk|]. cbn [negb]. unfold payload. cbn [members].
      apply foldl_set_in; [done|]. by destruct extra.
  - intros now' q Hq. destruct (issued_opens _ _ _ _ _ _ _ now' q Hi) as [->|[_ ->]]; [|by eexists]. unfold verify_claims.
    rewrite payload_member by by apply Hr'. cbn [obj_get String.eqb Ascii.eqb Bool.eqb]. rewrite bool_decide_eq_false_2; [by eexists|].
    intros [= ?%(inj _)]. congruence.
Qed.

(** The signature may be spelled with padding or a line end after it: the text is
    another, what it opens to is the same. *)
Lemma padded_verifies master token now p c : Base64.skipped c = true -> cut_dot token <> None ->
  verify master (token +:+ String c "") now p = verify master token now p.
Proof.
  intros Hc Ht. unfold verify. destruct (cut_dot token) as [[a b]|] eqn:E; [|done]. apply cut_dot_inv in E as [-> Ha].
  rewrite str_app_assoc. cbn [String.append]. rewrite cut_dot_app by done. unfold Base64.url_decode. by rewrite decode_skipped.
Qed.

End Tokens.

End Tokens.

(** ** Who is calling (src/security/Auth.hpp) *)

Module Auth.

(** [AuthMode]: src/security/Auth.hpp:46-46. *)
Inductive AuthMode := None_ | Bearer | Jwt_.

#[export] Instance AuthMode_eq_dec : EqDecision AuthMode.
Proof. solve_decision. Defined.

(** [kAdminPermissionBits]: src/security/Auth.hpp:54-54. *)
Definition kAdminPermissionBits : Z := 0x40000000.

(** [CookieConfig]: src/security/SessionCookies.hpp:25-46.  What the requests of a session depend on. *)
Record CookieConfig := mkCookies {
  enabled : bool; access_name : string; refresh_name : string; access_ttl_sec : Z; refresh_ttl_sec : Z;
  refresh_revocation_prefix : string
}.

(** [AuthConfig]: src/security/Auth.hpp:56-76. *)
Record AuthConfig := mkAuthConfig {
  mode : AuthMode; bearer_token : string; jwt_secret : string; jwt_issuer : string; jwt_audience : string;
  jwt_leeway_sec : Z; jwt_roles_claim : string; jwt_scopes_claim : string; public_paths : list string; cookies : CookieConfig
}.

(** [AuthPrincipal]: src/security/Auth.hpp:78-88. *)
Record AuthPrincipal := mkPrincipal {
  subject : string; roles : list string; scopes : list string; org : string; raw_claims : json
}.

(** [parse_mode]: src/security/Auth.hpp:212-218. *)
Definition parse_mode (s : string) : AuthMode :=
  if String.eqb s "jwt" then Jwt_ else if String.eqb s "bearer" then Bearer else None_.

(** [load_config_from_global]: src/security/Auth.hpp:248-261.  The configurations the process starts with. *)
Definition boots (cfg : AuthConfig) : bool :=
  match mode cfg with
  | Jwt_ => (32 <=? size (jwt_secret cfg))%nat
  | Bearer => negb (String.eqb (bearer_token cfg) "")
  | None_ => true
  end.

Fixpoint blanks (s : string) : string :=
  match s with EmptyString => EmptyString | String c r => String (if is_space c then " "%char else c) (blanks r) end.

(** [extract_string_array]: src/security/Auth.hpp:92-107. *)
Definition extract_string_array (node : json) : list string :=
  match node with
  | JArray l => omap (fun v => match v with JString s => Some s | _ => None end) l
  | JString s => List.filter (fun w => negb (String.eqb w "")) (pieces " " (blanks s))
  | _ => []
  end.

Definition strings_of (k : string) (claims : json) : list string :=
  match member k claims with Some node => extract_string_array node | None => [] end.

(** [verify_jwt]: src/security/Auth.hpp:140-156.  The two ends of the validity. *)
Definition check_times (cfg : AuthConfig) (now : Z) (claims : json) : outcome (option string) :=
  expired ← match member "exp" claims with
            | Some (JInt exp) => (last ← add64 (get_ll exp) (jwt_leeway_sec cfg); Ok (last <? now))
            | _ => Ok false
            end;
  if (expired : bool) then Ok (Some "token_expired")
  else
    early ← match member "nbf" claims with
            | Some (JInt nbf) => (soon ← add64 now (jwt_leeway_sec cfg); Ok (soon <? get_ll nbf))
            | _ => Ok false
            end;
    Ok (if (early : bool) then Some "token_not_yet_valid" else None).

(** [verify_jwt]: src/security/Auth.hpp:162-174. *)
Definition audience_ok (cfg : AuthConfig) (claims : json) : bool :=
  match member "aud" claims with
  | Some (JString a) => String.eqb a (jwt_audience cfg)
  | Some (JArray l) => existsb (fun a => match a with JString s => String.eqb s (jwt_audience cfg) | _ => false end) l
  | _ => false
  end.

(** [verify_jwt]: src/security/Auth.hpp:130-195.  What signed claims make of their bearer. *)
Definition principal_from (cfg : AuthConfig) (now : Z) (claims : json) : outcome (string + AuthPrincipal) :=
  typ ← value_string "typ" "" claims;
  if String.eqb typ "refresh" then Ok (inl "wrong_token_type")
  else
    times ← check_times cfg now claims;
    match times with
    | Some err => Ok (inl err)
    | None =>
        issuer ← (if String.eqb (jwt_issuer cfg) "" then Ok "" else value_string "iss" "" claims);
        if negb (String.eqb issuer (jwt_issuer cfg)) then Ok (inl "bad_issuer")
        else if negb (String.eqb (jwt_audience cfg) "") && negb (audience_ok cfg claims) then Ok (inl "bad_audience")
        else
          sub ← value_string "sub" "" claims;
          org ← value_string "org" "" claims;
          Ok (inr (mkPrincipal sub (strings_of (jwt_roles_claim cfg) claims) (strings_of (jwt_scopes_claim cfg) claims) org claims))
    end.

Section Requests.
Context `{CR : Crypto} `{TX : JsonText}.

(** [verify_jwt]: src/security/Auth.hpp:124-196. *)
Definition verify_jwt (cfg : AuthConfig) (now : Z) (token : string) : outcome (string + AuthPrincipal) :=
  r ← Jwt.verify_hs256_jwt token (jwt_secret cfg);
  match r with inl err => Ok (inl err) | inr claims => principal_from cfg now claims end.

(** A request as the guards see it. *)
Record Request := mkRequest {
  verb : string; path : string; authorization : string; x_api_key : string; cookie : string -> string
}.

(** The text after a scheme, when the header has it. *)
Definition after_scheme (scheme header : string) : option string :=
  if (size scheme <? size header)%nat && String.prefix scheme header then Some (str_drop (size scheme) header) else None.

(** [extract_access_token]: src/security/SessionCookies.hpp:58-70. *)
Definition extract_access_token (req : Request) (c : CookieConfig) : string :=
  if enabled c && negb (String.eqb (cookie req (access_name c)) "") then cookie req (access_name c)
  else match after_scheme "Bearer " (authorization req) with Some t => t | None => "" end.

(** [extract_refresh_token]: src/security/SessionCookies.hpp:72-76. *)
Definition extract_refresh_token (req : Request) (c : CookieConfig) : string :=
  if enabled c then cookie req (refresh_name c) else "".

(** [kPrefix]: src/security/ApiKeys.hpp:29-29. *)
Definition kPrefix : string := "cpk_".

(** [extract_key]: src/security/ApiKeys.hpp:49-63. *)
Definition extract_key (req : Request) : string :=
  if negb (String.eqb (x_api_key req) "") then x_api_key req
  else
    let keyed scheme := match after_scheme scheme (authorization req) with
                        | Some tok => if String.prefix kPrefix tok then Some tok else None
                        | None => None
                        end in
    match keyed "Bearer ", keyed "ApiKey " with Some t, _ | None, Some t => t | None, None => "" end.

(** A row of [api_keys] with the permissions of its user's role, by the hash of the key. *)
Record KeyRow := mkKey { k_user : string; k_permissions : Z; k_revoked : bool }.

(** [authenticate]: src/security/ApiKeys.hpp:82-118.  [up]: the database answers.  (The stamp of the last use left out.) *)
Definition authenticate_key (keys : gmap string KeyRow) (up : bool) (req : Request) : option AuthPrincipal :=
  let key := extract_key req in
  if String.eqb key "" || negb up then None
  else match keys !! (sha256 key) with
  | Some k =>
      if k_revoked k then None
      else Some (mkPrincipal (k_user k) [] [] ""
                   (JObject [("permissions", JInt (k_permissions k)); ("sub", JString (k_user k))]))
  | None => None
  end.

(** What the middleware decides: to let the request through, with or without an
    identity, or a 401 with its code. *)
Inductive Verdict := Pass (p : option AuthPrincipal) | Unauthorized (code : string).

(** [register_auth]: src/api/Middleware.hpp:116-172.  Where the module is initialized. *)
Definition authenticate (cfg : AuthConfig) (keys : gmap string KeyRow) (up : bool) (now : Z) (req : Request) : outcome Verdict :=
  match mode cfg with
  | None_ => Ok (Pass None)
  | m =>
      if String.eqb (verb req) "OPTIONS" || Strings.path_is_public (public_paths cfg) (path req) then Ok (Pass None)
      else if bool_decide (m = Bearer) then
        Ok (if String.eqb (authorization req) ("Bearer " +:+ bearer_token cfg) then Pass None else Unauthorized "invalid_token")
      else if negb (String.eqb (extract_key req) "") then
        Ok match authenticate_key keys up req with Some p => Pass (Some p) | None => Unauthorized "invalid_api_key" end
      else
        let token := extract_access_token req (cookies cfg) in
        if String.eqb token "" then Ok (Unauthorized "missing_token")
        else
          r ← verify_jwt cfg now token;
          Ok match r with inl err => Unauthorized err | inr p => Pass (Some p) end
  end.

End Requests.

(** ** Guards *)

(** A refusal: its status and code. *)
Definition Guard : Type := option (Z * string).

(** [None]: the module is not initialized. *)
Definition auth_off (cfg : option AuthConfig) : bool :=
  match cfg with None => true | Some c => bool_decide (mode c = None_) end.

(** [has_any_role]: src/security/Auth.hpp:365-374. *)
Definition has_any_role (p : option AuthPrincipal) (wanted : list string) : bool :=
  match p with None => false | Some p => existsb (fun w => bool_decide (w ∈ roles p)) wanted end.

(** [require_any_role]: src/security/Auth.hpp:388-395. *)
Definition require_any_role (cfg : option AuthConfig) (p : option AuthPrincipal) (wanted : list string) : Guard :=
  if auth_off cfg || has_any_role p wanted then None else Some (403, "forbidden").

(** [require_confirmed]: src/security/Auth.hpp:405-417. *)
Definition require_confirmed (cfg : option AuthConfig) (p : option AuthPrincipal) : outcome Guard :=
  if auth_off cfg then Ok None
  else match p with
  | None => Ok (Some (401, "unauthorized"))
  | Some p => (confirmed ← value_bool "confirmed" false (raw_claims p);
               Ok (if (confirmed : bool) then None else Some (403, "email_unconfirmed")))
  end.

(** [current_permissions]: src/security/Auth.hpp:432-444. *)
Definition current_permissions (p : option AuthPrincipal) : Z :=
  match p with
  | None => 0
  | Some p => match member "permissions" (raw_claims p) with Some (JInt v) => get_ll v mod 2 ^ 32 | _ => 0 end
  end.

(** [current_user_can]: src/security/Auth.hpp:446-455. *)
Definition current_user_can (p : option AuthPrincipal) (perm : Z) : bool :=
  let have := current_permissions p in
  if Z.land have kAdminPermissionBits =? kAdminPermissionBits then true else Z.land have perm =? perm.

(** [require_permission]: src/security/Auth.hpp:465-471. *)
Definition require_permission (cfg : option AuthConfig) (p : option AuthPrincipal) (perm : Z) : Guard :=
  if auth_off cfg || current_user_can p perm then None else Some (403, "forbidden").

(** [require_admin]: src/security/Auth.hpp:473-475. *)
Definition require_admin (cfg : option AuthConfig) (p : option AuthPrincipal) : Guard :=
  require_permission cfg p kAdminPermissionBits.

(** [passes]: src/security/Csrf.hpp:36-47. *)
Definition csrf_passes (unsafe_method : bool) (access_cookie token_cookie token_header : string) : bool :=
  if negb unsafe_method || String.eqb access_cookie "" then true
  else if String.eqb token_cookie "" || String.eqb token_header "" then false
  else String.eqb token_cookie token_header.

(** [register_csrf]: src/api/Middleware.hpp:254-263. *)
Definition csrf (access_cookie cookie_name header : string) (req : Request) : Guard :=
  let unsafe := bool_decide (verb req ∈ ["POST"; "PUT"; "PATCH"; "DELETE"]) in
  if csrf_passes unsafe (cookie req access_cookie) (cookie req cookie_name) header then None else Some (403, "csrf_failed").

(** The sentinel bit decides. *)
Lemma admin_bit have : (Z.land have kAdminPermissionBits =? kAdminPermissionBits) = Z.testbit have 30.
Proof.
  change kAdminPermissionBits with (2 ^ 30). destruct (Z.testbit have 30) eqn:E.
  - apply Z.eqb_eq, Z.bits_inj'. intros n Hn. rewrite Z.land_spec, Z.pow2_bits_eqb by lia.
    destruct (Z.eqb_spec 30 n) as [<-|]; [by rewrite E | by rewrite andb_false_r].
  - apply Z.eqb_neq. intros H. apply (f_equal (fun z => Z.testbit z 30)) in H.
    rewrite Z.land_spec, E, Z.pow2_bits_true in H by lia. done.
Qed.

(** An administrator is exactly a bearer of the sentinel bit.  Where authentication is on,
    the guard of the administrative routes lets a request through if and only if bit 30
    of the permissions its credential carries is set; no combination of the other 31
    bits will do, and for any other permission without that bit the guard asks for
    every one of its bits, or the sentinel. *)
Theorem admin_is_sentinel cfg p perm : mode cfg <> None_ -> 0 <= perm < 2 ^ 32 -> Z.testbit perm 30 = false ->
  (require_admin (Some cfg) p = None <-> Z.testbit (current_permissions p) 30 = true) /\
  (require_permission (Some cfg) p perm = None <->
     Z.testbit (current_permissions p) 30 = true \/
     forall n, 0 <= n -> Z.testbit perm n = true -> Z.testbit (current_permissions p) n = true).
Proof.
  intros Hm Hp Hb. unfold require_admin, require_permission, auth_off. rewrite bool_decide_eq_false_2 by done. cbn [orb].
  unfold current_user_can. rewrite !admin_bit. set (have := current_permissions p).
  assert ((Z.land have perm =? perm) = true <-> forall n, 0 <= n -> Z.testbit perm n = true -> Z.testbit have n = true) as Hl.
  { rewrite Z.eqb_eq. split.
    - intros E n Hn Ht. rewrite <- E, Z.land_spec in Ht. by apply andb_true_iff in Ht as [? _].
    - intros H. apply Z.bits_inj'. intros n Hn. rewrite Z.land_spec. destruct (Z.testbit perm n) eqn:E; [|by rewrite andb_false_r].
      by rewrite (H n Hn E). }
  destruct (Z.testbit have 30); [split; split; auto|]. split; [by split|]. rewrite <- Hl. destruct (Z.land have perm =? perm).
  - split; auto.
  - split; [done|]. by intros [|].
Qed.

(** ** What the middleware lets through *)

Section Middleware.
Context `{CR : Crypto} `{TX : JsonText}.

(** The claims are a bearer's, not a refresh token's, and still valid. *)
Definition current (cfg : AuthConfig) (now : Z) (claims : json) : Prop :=
  member "typ" claims <> Some (JString "refresh") /\
  (forall exp, member "exp" claims = Some (JInt exp) -> now <= get_ll exp + jwt_leeway_sec cfg) /\
  (forall nbf, member "nbf" claims = Some (JInt nbf) -> get_ll nbf <= now + jwt_leeway_sec cfg) /\
  (jwt_issuer cfg <> "" -> member "iss" claims = Some (JString (jwt_issuer cfg))) /\
  (jwt_audience cfg <> "" -> audience_ok cfg claims = true).

Lemma value_string_inv k d j s : value_string k d j = Ok s ->
  is_object j = true /\ (member k j = Some (JString s) \/ member k j = None /\ s = d).
Proof.
  destruct j as [| | | | |l]; [done..|]. unfold value_string, value. cbn [member is_object].
  destruct (obj_get k l) as [[]|]; try done; cbn [get_string]; intros [= ->]; auto.
Qed.

Lemma times_current cfg now claims : check_times cfg now claims = Ok None ->
  (forall exp, member "exp" claims = Some (JInt exp) -> now <= get_ll exp + jwt_leeway_sec cfg) /\
  (forall nbf, member "nbf" claims = Some (JInt nbf) -> get_ll nbf <= now + jwt_leeway_sec cfg).
Proof.
  unfold check_times. intros (expired & He & H)%bind_Ok_inv. destruct expired; [done|].
  apply bind_Ok_inv in H as (early & Hn & H). destruct early; [done|]. split.
  - intros exp E. rewrite E in He. apply bind_Ok_inv in He as (last & [-> _]%i64_inv & He). injection He as He%Z.ltb_ge. done.
  - intros nbf E. rewrite E in Hn. apply bind_Ok_inv in Hn as (soon & [-> _]%i64_inv & Hn). injection Hn as Hn%Z.ltb_ge. done.
Qed.

Lemma principal_current cfg now claims p : principal_from cfg now claims = Ok (inr p) ->
  current cfg now claims /\ raw_claims p = claims /\
  (member "sub" claims = Some (JString (subject p)) \/ subject p = "") /\
  (member "org" claims = Some (JString (org p)) \/ org p = "").
Proof.
  unfold principal_from. intros (typ & Ht & H)%bind_Ok_inv. destruct (String.eqb_spec typ "refresh") as [|Hr]; [done|].
  apply bind_Ok_inv in H as ([err|] & Hc & H); [done|]. apply bind_Ok_inv in H as (issuer & Hi & H).
  destruct (String.eqb_spec issuer (jwt_issuer cfg)) as [->|]; [|done]. cbn [negb] in H.
  destruct (negb (String.eqb (jwt_audience cfg) "") && negb (audience_ok cfg claims)) eqn:Ha; [done|].
  apply bind_Ok_inv in H as (sub & Hs & (o & Ho & [= <-])%bind_Ok_inv). cbn [raw_claims subject org].
  apply times_current in Hc as [He Hn]. apply value_string_inv in Hs as [_ Hs], Ho as [_ Ho], Ht as [_ Ht].
  split; [|split; [done|]; split; [destruct Hs as [|[_ ->]]; auto | destruct Ho as [|[_ ->]]; auto]].
  split; [intros E; destruct Ht as [Ht|[Ht _]]; congruence|]. split; [done|]. split; [done|]. split.
  - intros Hj. rewrite (proj2 (String.eqb_neq _ _) Hj) in Hi. apply value_string_inv in Hi as [_ [Hi|[_ Hi]]]; congruence.
  - intros Hj. rewrite (proj2 (String.eqb_neq _ _) Hj) in Ha. by destruct (audience_ok cfg claims).
Qed.

(** C30: Nobody passes without a credential.  In the mode for sessions and keys, a request
    that is no preflight and whose path is not public goes on to its handler only with
    an identity: that of a stored key that is not revoked, found by the hash of what
    the request carries, or that of the claims of a text signed under the secret, which
    is no refresh token, is not past its end or before its beginning, and is from the
    configured issuer for the configured audience. *)
Theorem nobody_passes_without_credential cfg keys up now req p : mode cfg = Jwt_ -> verb req <> "OPTIONS" ->
  Strings.path_is_public (public_paths cfg) (path req) = false -> authenticate cfg keys up now req = Ok (Pass p) ->
  exists who, p = Some who /\
  ((exists k, keys !! (sha256 (extract_key req)) = Some k /\ k_revoked k = false /\ subject who = k_user k /\ org who = "") \/
   (exists h pl s, extract_access_token req (cookies cfg) = h +:+ "." +:+ pl +:+ "." +:+ s /\
      Base64.url_decode s = Ok (hmac_sha256 (jwt_secret cfg) (h +:+ "." +:+ pl)) /\ Jwt.parsed pl = Some (raw_claims who) /\
      current cfg now (raw_claims who) /\
      (member "sub" (raw_claims who) = Some (JString (subject who)) \/ subject who = "") /\
      (member "org" (raw_claims who) = Some (JString (org who)) \/ org who = ""))).
Proof.
  intros Hm Hv Hp. unfold authenticate. rewrite Hm, (proj2 (String.eqb_neq _ _) Hv), Hp. cbn [orb]. rewrite bool_decide_eq_false_2 by done.
  destruct (negb (String.eqb (extract_key req) "")) eqn:Ek.
  - unfold authenticate_key. apply negb_true_iff in Ek. rewrite Ek. cbn [orb]. destruct up; cbn [negb]; [|done].
    destruct (keys !! (sha256 (extract_key req))) as [k|] eqn:E; [|done]. destruct (k_revoked k) eqn:Er; [done|].
    intros [= <-]. eexists. split; [done|]. left. by exists k.
  - destruct (String.eqb (extract_access_token req (cookies cfg)) ""); [done|]. intros (r & Hr & H)%bind_Ok_inv.
    destruct r as [|who]; [done|]. injection H as <-. exists who. split; [done|]. right. unfold verify_jwt in Hr.
    apply bind_Ok_inv in Hr as ([|claims] & Hc & Hr); [done|]. apply Jwt.verified_signed in Hc as (h & pl & s & -> & _ & _ & Hs & Hpl & _).
    apply principal_current in Hr as (Hcur & Hraw & Hsub & Horg). rewrite Hraw. by exists h, pl, s.
Qed.

End Middleware.

(** ** Witnesses *)

Module Example.

(** Some functions for the hashes. *)
#[local] Instance plain_crypto : Crypto := { hmac_sha256 k m := k +:+ "|" +:+ m; sha256 s := "#" +:+ s }.

Definition secret : string := "0123456789abcdef0123456789abcdef".
Definition cfg : AuthConfig :=
  mkAuthConfig Jwt_ "" secret "" "" 30 "roles" "scope" [] (mkCookies true "a" "r" 900 604800 "auth:refresh:").
Definition claims : json := JObject [("exp", JInt 1000); ("permissions", JInt 255); ("sub", JString "u")].
Definition token : string := match Jwt.issue_hs256_jwt claims secret with Ok t => t | _ => "" end.
Definition who : AuthPrincipal := mkPrincipal "u" [] [] "" claims.
Definition req : Request := mkRequest "GET" "/api/v1/tax/rates" ("Bearer " +:+ token) "" (fun _ => "").

Definition mailed : string :=
  match Tokens.issue secret "u" Tokens.ChangeEmail 100 3600 (JObject [("new_email", JString "a@b.kz")]) with Ok t => t | _ => "" end.
Lemma mailed_issued : Tokens.issue secret "u" Tokens.ChangeEmail 100 3600 (JObject [("new_email", JString "a@b.kz")]) = Ok mailed.
Proof. reflexivity. Qed.

Lemma token_issued : Jwt.issue_hs256_jwt claims secret = Ok token.
Proof. reflexivity. Qed.

Lemma req_token : extract_access_token req (cookies cfg) = token.
Proof. vm_compute. reflexivity. Qed.

Lemma req_passes : authenticate cfg ∅ true 500 req = Ok (Pass (Some who)).
Proof.
  unfold authenticate. cbn [mode cfg]. change (String.eqb (verb req) "OPTIONS" || Strings.path_is_public (public_paths cfg) (path req)) with false.
  rewrite bool_decide_eq_false_2 by done. assert (extract_key req = "") as -> by (vm_compute; reflexivity). cbn [String.eqb negb].
  rewrite req_token. assert (String.eqb token "" = false) as -> by (vm_compute; reflexivity). unfold verify_jwt.
  change (jwt_secret cfg) with secret. by rewrite (Jwt.issued_verifies _ _ _ token_issued).
Qed.

End Example.

#[local] Existing Instance Example.plain_crypto.

Lemma admin_is_sentinel_witness : require_admin (Some Example.cfg) (Some Example.who) <> None.
Proof.
  intros H. destruct (admin_is_sentinel Example.cfg (Some Example.who) 2) as [[A _] _]; [discriminate | lia | reflexivity |].
  specialize (A H). discriminate A.
Defined.

Lemma nobody_passes_without_credential_witness : exists who, Some Example.who = Some who /\ current Example.cfg 500 (raw_claims who).
Proof.
  destruct (nobody_passes_without_credential Example.cfg ∅ true 500 Example.req (Some Example.who)) as (who & Hw & [(k & Hk & _)|(h & pl & s & H)]).
  - reflexivity.
  - discriminate.
  - reflexivity.
  - exact Example.req_passes.
  - discriminate Hk.
  - exists who. split; [exact Hw | apply H].
Defined.

End Auth.

#[local] Existing Instance Auth.Example.plain_crypto.

Lemma mailed_token_roundtrip_witness :
  exists more, Tokens.verify Auth.Example.secret Auth.Example.mailed 200 Tokens.ChangeEmail = inr ("u", more) /\
    member "new_email" more = Some (JString "a@b.kz").
Proof.
  destruct (Tokens.mailed_token_roundtrip Auth.Example.secret "u" Tokens.ChangeEmail 100 3600
    (JObject [("new_email", JString "a@b.kz")]) Auth.Example.mailed Auth.Example.mailed_issued) as [H _].
  - apply NoDup_singleton.
  - intros k Hk. unfold Tokens.reserved in Hk. rewrite !elem_of_cons, elem_of_nil in Hk. by destruct Hk as [->|[->|[->|[->|[]]]]].
  - destruct (H 200) as (more & E & M); [vm_compute; discriminate|]. exists more. split; [exact E | apply M; reflexivity].
Defined.
