(* ===== verification/Tenancy.v ===== *)
(** * Organizations

    src/tenancy/: organizations with the requisites printed in documents, their members
    and bank accounts, with the tables of migrations/006_organizations.sql,
    017_hr_role.sql, 025_org_requisites.sql and 026_org_vat_certificate.sql; the guards
    of src/tenancy/OrgContext.hpp and the handlers of src/api/OrganizationsController.hpp
    (but switching, which mints a token) and src/api/BankAccountsController.hpp. *)
From Stdlib Require Import ZArith Lia Ascii String.
From stdpp Require Import relations sorting.
From S2P Require Import Prelude JournalDb Json Threads Agent Requests Auth.
Import Json Threads Http Requests.
Open Scope string_scope.
Open Scope Z_scope.
Set Warnings "-clear-no-such-hyp".

Module Tenancy.

(** ** The tables *)

(** [Organization]: src/tenancy/Organization.hpp:22-39.  (The identifier is the key of the row.) *)
Record Organization := mkOrganization {
  bin : string; name : string; tax_regime : string; vat_payer : bool; o_status : string;
  legal_address : string; director_name : string; director_position : string; vat_certificate : string; o_created : Z
}.

(** [to_json]: src/tenancy/Organization.hpp:62-77.  (Time stamps left out.) *)
Definition organization_json (id : string) (o : Organization) : json :=
  JObject [("bin", JString (bin o)); ("director_name", JString (director_name o));
           ("director_position", JString (director_position o)); ("id", JString id);
           ("legal_address", JString (legal_address o)); ("name", JString (name o)); ("status", JString (o_status o));
           ("tax_regime", JString (tax_regime o)); ("vat_certificate", JString (vat_certificate o)); ("vat_payer", JBool (vat_payer o))].

(** [is_valid_role]: src/tenancy/Organization.hpp:84-86. *)
Definition is_valid_role (r : string) : bool :=
  String.eqb r "owner" || String.eqb r "accountant" || String.eqb r "hr" || String.eqb r "viewer".

(** [OrgMember]: src/tenancy/OrgMember.hpp:18-24.  The row of an organization and a user, which UNIQUE (org_id, user_id) makes its key. *)
Record OrgMember := mkMember { m_id : string; m_role : string; m_created : Z }.

(** [to_json]: src/tenancy/OrgMember.hpp:39-48. *)
Definition member_json (key : string * string) (m : OrgMember) : json :=
  JObject [("id", JString (m_id m)); ("org_id", JString key.1); ("role", JString (m_role m)); ("user_id", JString key.2)].

(** [BankAccount]: src/tenancy/BankAccount.hpp:26-36. *)
Record BankAccount := mkAccount {
  a_org : string; iik : string; bank_name : string; bik : string; kbe : string; currency : string; is_primary : bool; a_created : Z
}.

(** [to_json]: src/tenancy/BankAccount.hpp:56-69. *)
Definition account_json (id : string) (a : BankAccount) : json :=
  JObject [("bank_name", JString (bank_name a)); ("bik", JString (bik a)); ("currency", JString (currency a)); ("id", JString id);
           ("iik", JString (iik a)); ("is_primary", JBool (is_primary a)); ("kbe", JString (kbe a)); ("org_id", JString (a_org a))].

(** [Role]: src/domain/Role.hpp:47-52.  The row under its identifier. *)
Record Role := mkRole { r_name : string; r_permissions : Z; r_default : bool }.

(** [User]: src/domain/User.hpp:22-38.  The row under its identifier; the role joined to it is looked up in the table of roles. *)
Record User := mkUser {
  email : string; password_hash : option string; first_name : option string; last_name : option string;
  confirmed : bool; role_id : Z; u_created : Z
}.

(** [ApiKey]: src/domain/ApiKey.hpp:16-23.  The row under its identifier, with the hash of the key. *)
Record ApiKey := mkApiKey { key_user : string; key_name : string; key_hash : string; key_prefix : string; key_revoked : option Z; key_created : Z }.

(** The database.  Identifiers stand in the text PostgreSQL prints them in. *)
Record DB := mkDB {
  orgs : gmap string Organization; members_of : gmap (string * string) OrgMember; accounts : gmap string BankAccount;
  users : gmap string User; roles : gmap Z Role; keys : gmap string ApiKey; seq : nat; now : Z
}.

Definition with_orgs (f : gmap string Organization -> gmap string Organization) (d : DB) : DB :=
  mkDB (f (orgs d)) (members_of d) (accounts d) (users d) (roles d) (keys d) (seq d) (now d).
Definition with_members (f : gmap (string * string) OrgMember -> gmap (string * string) OrgMember) (d : DB) : DB :=
  mkDB (orgs d) (f (members_of d)) (accounts d) (users d) (roles d) (keys d) (seq d) (now d).
Definition with_accounts (f : gmap string BankAccount -> gmap string BankAccount) (d : DB) : DB :=
  mkDB (orgs d) (members_of d) (f (accounts d)) (users d) (roles d) (keys d) (seq d) (now d).
Definition with_users (f : gmap string User -> gmap string User) (d : DB) : DB :=
  mkDB (orgs d) (members_of d) (accounts d) (f (users d)) (roles d) (keys d) (seq d) (now d).
Definition with_roles (f : gmap Z Role -> gmap Z Role) (d : DB) : DB :=
  mkDB (orgs d) (members_of d) (accounts d) (users d) (f (roles d)) (keys d) (seq d) (now d).
Definition with_keys (f : gmap string ApiKey -> gmap string ApiKey) (d : DB) : DB :=
  mkDB (orgs d) (members_of d) (accounts d) (users d) (roles d) (f (keys d)) (seq d) (now d).
Definition next_id (d : DB) : DB := mkDB (orgs d) (members_of d) (accounts d) (users d) (roles d) (keys d) (S (seq d)) (now d + 1).

Definition sql_error {A} (state : string) : st DB A := throw pqxx_sql_error state.

(** Characters of UTF-8 text: a byte that continues one belongs to the character before it. *)
Definition continues (c : ascii) : bool := (128 <=? Prelude.code c) && (Prelude.code c <? 192).
Fixpoint chars (s : string) : nat :=
  match s with EmptyString => O | String c r => if continues c then chars r else S (chars r) end.
Fixpoint cut_chars (n : nat) (s : string) : string * string :=
  match s with
  | EmptyString => (EmptyString, EmptyString)
  | String c r =>
      if continues c then let '(a, b) := cut_chars n r in (String c a, b)
      else match n with O => (EmptyString, s) | S n' => let '(a, b) := cut_chars n' r in (String c a, b) end
  end.

Definition spaces (s : string) : bool := str_all (fun c => Ascii.eqb c " ") s.
Fixpoint blank (n : nat) : string := match n with O => EmptyString | S m => String " " (blank m) end.

(** A text stored as VARCHAR(n) or as CHAR(n), which is padded: beyond [n] characters only spaces, which are dropped. *)
Definition varchar_in (n : nat) (s : string) : option string :=
  let '(a, b) := cut_chars n s in if spaces b then Some a else None.
Definition char_in (n : nat) (s : string) : option string := (fun a => a +:+ blank (n - chars a)) <$> varchar_in n s.

Example char_ex : (char_in 3 "KZT ", char_in 3 "KZ", char_in 3 "KZTT", chars "тг", varchar_in 2 "тг") = (Some "KZT", Some "KZ ", None, 2%nat, Some "тг").
Proof. vm_compute. reflexivity. Qed.

(** How PostgreSQL folds the case of a CITEXT, and reads a UUID, in other spellings too. *)
Class PgText := {
  ci : string -> string;
  uuid_in : string -> option string;
  uuid_in_valid : forall s, is_valid_uuid s = true -> uuid_in s = Some (uuid_key s)
}.

Section Repositories.
Context `{PG : Postgres} `{CI : PgText}.

(** ** Organizations *)

Definition taken : exn := Exn DuplicateBin "bin_taken".

(** [create]: src/tenancy/OrganizationRepository.hpp:55-78. *)
Definition create_org (b nm regime : string) (vat : bool) : st DB (string * Organization) :=
  translate_sql (fun ss => if String.eqb ss "23505" then Some taken else None) (fun d =>
    match char_in 12 b with
    | None => sql_error "22001" d
    | Some b12 =>
        let id := gen_random_uuid (seq d) in
        let o := mkOrganization b12 nm regime vat "active" "" "" "Директор" "" (now d) in
        if negb (String.eqb regime "snr_simplified" || String.eqb regime "standard") then sql_error "23514" d
        else if existsb (fun e => String.eqb (bin e.2) b12) (map_to_list (orgs d)) then sql_error "23505" d
        else (Ok (id, o), next_id (with_orgs (insert id o) d))
    end).

(** [update_status]: src/tenancy/OrganizationRepository.hpp:87-92. *)
Definition update_status (id stat : string) : st DB bool := fun d =>
  match orgs d !! id with
  | Some o =>
      if bool_decide (stat ∈ ["active"; "suspended"; "archived"]) then
        (Ok true, with_orgs (insert id (mkOrganization (bin o) (name o) (tax_regime o) (vat_payer o) stat (legal_address o)
                                          (director_name o) (director_position o) (vat_certificate o) (o_created o))) d)
      else sql_error "23514" d
  | None => (Ok false, d)
  end.

(** [update_requisites]: src/tenancy/OrganizationRepository.hpp:106-123. *)
Definition update_requisites (id address director position certificate : string) : st DB bool := fun d =>
  match orgs d !! id with
  | Some o =>
      (Ok true, with_orgs (insert id (mkOrganization (bin o) (name o) (tax_regime o) (vat_payer o) (o_status o) address director
                                        position certificate (o_created o))) d)
  | None => (Ok false, d)
  end.

(** [find]: src/repositories/CrudBase.hpp:56-64.  Of an organization. *)
Definition find_org (id : string) : st DB (option Organization) := gets (fun d => orgs d !! id).

Definition newer_org (a b : string * Organization) : bool := o_created b.2 <? o_created a.2.

(** [list]: src/repositories/CrudBase.hpp:66-76. *)
Definition list_orgs (limit offset : nat) : st DB (list (string * Organization)) :=
  gets (fun d => take limit (drop offset (stable_sort newer_org (map_to_list (orgs d))))).

(** [count]: src/repositories/CrudBase.hpp:78-83. *)
Definition count_orgs : st DB Z := gets (fun d => Z.of_nat (base.size (orgs d))).

(** ** Members *)

(** [find_membership]: src/tenancy/OrgMemberRepository.hpp:77-87. *)
Definition find_membership (org user : string) : st DB (option OrgMember) := gets (fun d => members_of d !! (org, user)).

Definition older_member (a b : (string * string) * OrgMember) : bool := m_created a.2 <? m_created b.2.

Definition memberships (P : string * string -> bool) (d : DB) : list ((string * string) * OrgMember) :=
  stable_sort older_member (List.filter (fun e => P e.1) (map_to_list (members_of d))).

(** [list_for_user]: src/tenancy/OrgMemberRepository.hpp:90-101. *)
Definition list_for_user (user : string) : st DB (list ((string * string) * OrgMember)) :=
  gets (memberships (fun k => String.eqb k.2 user)).

(** [list_members]: src/tenancy/OrgMemberRepository.hpp:104-114. *)
Definition list_members (org : string) : st DB (list ((string * string) * OrgMember)) :=
  gets (memberships (fun k => String.eqb k.1 org)).

(** [list_members_with_email]: src/tenancy/OrgMemberRepository.hpp:126-139. *)
Definition list_members_with_email (org : string) : st DB (list (string * string * string)) := gets (fun d =>
  omap (fun e : (string * string) * OrgMember => (fun u => (e.1.2, email u, m_role e.2)) <$> users d !! e.1.2)
    (memberships (fun k => String.eqb k.1 org) d)).

(** [find_by_email]: src/repositories/UserRepository.hpp:81-88.  With the role joined; the column folds case. *)
Definition find_by_email (address : string) : st DB (option (string * User * Role)) := gets (fun d =>
  e ← List.find (fun e => String.eqb (ci (email e.2)) (ci address)) (map_to_list (users d));
  r ← roles d !! role_id e.2;
  Some (e, r)).

Definition member_exists : exn := Exn DuplicateMembership "membership_exists".

(** [add]: src/tenancy/OrgMemberRepository.hpp:146-164. *)
Definition add (org user r : string) : st DB OrgMember :=
  translate_sql (fun ss => if String.eqb ss "23505" then Some member_exists else None) (fun d =>
    let m := mkMember (gen_random_uuid (seq d)) r (now d) in
    if negb (is_valid_role r) then sql_error "23514" d
    else if bool_decide (is_Some (members_of d !! (org, user))) then sql_error "23505" d
    else if negb (bool_decide (is_Some (orgs d !! org)) && bool_decide (is_Some (users d !! user))) then sql_error "23503" d
    else (Ok m, next_id (with_members (insert (org, user) m) d))).

(** [set_role]: src/tenancy/OrgMemberRepository.hpp:171-179. *)
Definition set_role (org user r : string) : st DB bool := fun d =>
  match members_of d !! (org, user) with
  | Some m => if is_valid_role r then (Ok true, with_members (insert (org, user) (mkMember (m_id m) r (m_created m))) d)
              else sql_error "23514" d
  | None => (Ok false, d)
  end.

(** [remove]: src/tenancy/OrgMemberRepository.hpp:182-188. *)
Definition remove_member (org user : string) : st DB bool := fun d =>
  match members_of d !! (org, user) with
  | Some _ => (Ok true, with_members (delete (org, user)) d)
  | None => (Ok false, d)
  end.

(** ** Bank accounts *)

Definition iik_taken : exn := Exn DuplicateBankAccount "bank_account_iik_taken".
Definition on_iik (ss : string) : option exn := if String.eqb ss "23505" then Some iik_taken else None.

Definition unset_primary (a : BankAccount) : BankAccount :=
  mkAccount (a_org a) (iik a) (bank_name a) (bik a) (kbe a) (currency a) false (a_created a).

(** [clear_primary]: src/tenancy/BankAccountRepository.hpp:156-164.  Every primary account of the organization but [keep]. *)
Definition clear_primary (org : string) (keep : option string) (l : gmap string BankAccount) : gmap string BankAccount :=
  map_imap (fun id a => Some (if String.eqb (a_org a) org && is_primary a && negb (bool_decide (keep = Some id))
                              then unset_primary a else a)) l.

(** UNIQUE (org_id, iik), and the unique index on (org_id) WHERE is_primary. *)
Definition clashes (a b : BankAccount) : bool :=
  String.eqb (a_org a) (a_org b) && (String.eqb (iik a) (iik b) || is_primary a && is_primary b).
Definition free (id : string) (a : BankAccount) (l : gmap string BankAccount) : bool :=
  negb (existsb (fun e => negb (String.eqb e.1 id) && clashes a e.2) (map_to_list l)).

Definition currency_of (draft : BankAccount) : string := if String.eqb (currency draft) "" then "KZT" else currency draft.

(** [create]: src/tenancy/BankAccountRepository.hpp:59-83. *)
Definition create_account (org : string) (draft : BankAccount) : st DB (string * BankAccount) :=
  translate_sql on_iik (fun d =>
    let cleared := if is_primary draft then clear_primary org None (accounts d) else accounts d in
    match char_in 3 (currency_of draft) with
    | None => sql_error "22001" d
    | Some cur =>
        let id := gen_random_uuid (seq d) in
        let a := mkAccount org (iik draft) (bank_name draft) (bik draft) (kbe draft) cur (is_primary draft) (now d) in
        if negb (free id a cleared) then sql_error "23505" d
        else if negb (bool_decide (is_Some (orgs d !! org))) then sql_error "23503" d
        else (Ok (id, a), next_id (with_accounts (fun _ => <[id := a]> cleared) d))
    end).

(** [update]: src/tenancy/BankAccountRepository.hpp:91-118. *)
Definition update_account (org id : string) (patch : BankAccount) : st DB (option BankAccount) :=
  translate_sql on_iik (fun d =>
    let cleared := if is_primary patch then clear_primary org (Some id) (accounts d) else accounts d in
    match cleared !! id with
    | Some old =>
        if String.eqb (a_org old) org then
          match char_in 3 (currency_of patch) with
          | None => sql_error "22001" d
          | Some cur =>
              let a := mkAccount org (iik patch) (bank_name patch) (bik patch) (kbe patch) cur (is_primary patch) (a_created old) in
              if free id a cleared then (Ok (Some a), with_accounts (fun _ => <[id := a]> cleared) d) else sql_error "23505" d
          end
        else (Ok None, with_accounts (fun _ => cleared) d)
    | None => (Ok None, with_accounts (fun _ => cleared) d)
    end).

(** [remove]: src/tenancy/BankAccountRepository.hpp:124-130. *)
Definition remove_account (org id : string) : st DB bool := fun d =>
  match accounts d !! id with
  | Some a => if String.eqb (a_org a) org then (Ok true, with_accounts (delete id) d) else (Ok false, d)
  | None => (Ok false, d)
  end.

Definition of_org (org : string) (d : DB) : list (string * BankAccount) :=
  List.filter (fun e => String.eqb (a_org e.2) org) (map_to_list (accounts d)).

(** [find_primary]: src/tenancy/BankAccountRepository.hpp:139-148. *)
Definition find_primary (org : string) : st DB (option (string * BankAccount)) :=
  gets (fun d => head (List.filter (fun e => is_primary e.2) (of_org org d))).

(** [find_in_org]: src/tenancy/OrgScoped.hpp:48-59.  Of an account. *)
Definition find_account (id org : string) : st DB (option BankAccount) := gets (fun d =>
  match accounts d !! id with Some a => if String.eqb (a_org a) org then Some a else None | None => None end).

Definition account_lt (a b : string * BankAccount) : bool :=
  if Bool.eqb (is_primary a.2) (is_primary b.2) then a_created b.2 <? a_created a.2 else is_primary a.2.

(** [list_in_org]: src/tenancy/OrgScoped.hpp:61-74.  The primary account first. *)
Definition list_accounts (org : string) (limit offset : nat) : st DB (list (string * BankAccount)) :=
  gets (fun d => take limit (drop offset (stable_sort account_lt (of_org org d)))).

(** [count_in_org]: src/tenancy/OrgScoped.hpp:76-83. *)
Definition count_accounts (org : string) : st DB Z := gets (fun d => Z.of_nat (length (of_org org d))).

(** ** Who may *)

(** [org_context_of]: src/tenancy/OrgContext.hpp:37-47. *)
Definition org_context_of (who : option Auth.AuthPrincipal) : prog DB (option OrgContext) :=
  match who with
  | Some p =>
      if String.eqb (Auth.subject p) "" || String.eqb (Auth.org p) "" then mret None
      else
        m ← atomic (find_membership (Auth.org p) (Auth.subject p));
        mret (match m with Some m => Some (mkCtx (Auth.org p) (m_role m) (Auth.subject p)) | None => None end)
  | None => mret None
  end.

Definition stopped (g : Z * string) : Reply := refusal g.1 g.2.

(** [require_admin_or_org_owner]: src/api/OrganizationsController.hpp:608-613. *)
Definition require_admin_or_org_owner (cfg : option Auth.AuthConfig) (who : option Auth.AuthPrincipal) (org : string)
    : prog DB Auth.Guard :=
  ctx ← org_context_of who;
  match ctx with
  | Some c => if String.eqb (ctx_org c) org && String.eqb (role c) "owner" then mret None else mret (Auth.require_admin cfg who)
  | None => mret (Auth.require_admin cfg who)
  end.

(** The guard of the member routes, then the handler. *)
Definition gated (cfg : option Auth.AuthConfig) (who : option Auth.AuthPrincipal) (org : string) (k : prog DB Reply) : prog DB Reply :=
  g ← require_admin_or_org_owner cfg who org;
  match g with Some e => mret (stopped e) | None => k end.

(** The guards of an organization's route: the membership, then the matrix. *)
Definition org_scoped (who : option Auth.AuthPrincipal) (resource action : string) (k : OrgContext -> prog DB Reply) : prog DB Reply :=
  ctx ← org_context_of who;
  match ctx with
  | None => mret (refusal 403 "forbidden")
  | Some c => if Agent.allows (role c) resource action then k c else mret (refusal 403 "org_role_denied")
  end.

(** ** Handlers *)

(** [updateRequisites], [createOrganization]: the fields of a body, once checked. *)
Definition field_string (k : string) (body : json) : outcome string :=
  match member k body with Some j => get_string j | None => type_error end.

Definition is_bin (s : string) : bool := Nat.eqb (size s) 12 && str_all is_digit s.

(** [createOrganization]: src/api/OrganizationsController.hpp:142-183.  The row, then its owner, whose failure is only logged. *)
Definition provision (who : option Auth.AuthPrincipal) (b regime : string) (vat : bool) (body : json) : prog DB Reply :=
  with_repo_errors (
    nm ← pure (field_string "name" body);
    created ← atomic (create_org b nm regime vat);
    _ ← match who with
        | Some p => catch (fun _ => Ok tt) (void (atomic (add created.1 (Auth.subject p) "owner")))
        | None => mret tt
        end;
    mret (wrapped 201 (organization_json created.1 created.2))).

(** [createOrganization]: src/api/OrganizationsController.hpp:98-184.  (Audit records left out, here and below.) *)
Definition createOrganization (cfg : option Auth.AuthConfig) (who : option Auth.AuthPrincipal) (parsed : option json) : prog DB Reply :=
  match Auth.require_admin cfg who, parsed with
  | Some e, _ => mret (stopped e)
  | None, None => mret (refusal 400 "invalid_json")
  | None, Some body =>
      let errs := Validation.one_of body "tax_regime" ["snr_simplified"; "standard"]
                    (Validation.bool_if_there body "vat_payer" (Validation.string_if_there body "bin"
                      (Validation.require body "name" (Validation.require body "bin" [])))) in
      if Validation.any errs then mret (invalid errs 400)
      else
        b ← pure (field_string "bin" body);
        if negb (is_bin b) then mret (one_error "bin" "invalid_bin")
        else
          regime ← pure (value_string "tax_regime" "snr_simplified" body);
          vat ← pure (value_bool "vat_payer" false body);
          provision who b regime vat body
  end.

(** [listOrganizations]: src/api/OrganizationsController.hpp:190-203. *)
Definition listOrganizations (cfg : option Auth.AuthConfig) (who : option Auth.AuthPrincipal) (limit_param offset_param : string)
    : prog DB Reply :=
  match Auth.require_admin cfg who with
  | Some e => mret (stopped e)
  | None =>
      let page := parse_page_params limit_param offset_param 50 200 in
      with_repo_errors (
        rows ← atomic (list_orgs (Z.to_nat (limit page)) (Z.to_nat (offset page)));
        total ← atomic count_orgs;
        mret (paginated (map (fun e => organization_json e.1 e.2) rows) total page))
  end.

Definition listed (rows : list json) : Reply := wrapped 200 (JArray rows).

Definition with_role (r : string) (j : json) : json := match j with JObject l => JObject (obj_set "role" (JString r) l) | _ => j end.

(** [mine]: src/api/OrganizationsController.hpp:217-224.  One read for each membership. *)
Fixpoint annotated (ms : list ((string * string) * OrgMember)) : prog DB (list json) :=
  match ms with
  | [] => mret []
  | e :: r =>
      found ← atomic (find_org e.1.1);
      rest ← annotated r;
      mret match found with Some o => with_role (m_role e.2) (organization_json e.1.1 o) :: rest | None => rest end
  end.

(** [mine]: src/api/OrganizationsController.hpp:209-227. *)
Definition mine (who : option Auth.AuthPrincipal) : prog DB Reply :=
  match who with
  | None => mret (refusal 401 "unauthorized")
  | Some p => with_repo_errors (ms ← atomic (list_for_user (Auth.subject p)); rows ← annotated ms; mret (listed rows))
  end.

(** [to_json]: src/tenancy/OrgMemberRepository.hpp:63-70. *)
Definition roster_json (e : string * string * string) : json :=
  JObject [("email", JString e.1.2); ("role", JString e.2); ("user_id", JString e.1.1)].

(** [listMembers]: src/api/OrganizationsController.hpp:325-345. *)
Definition listMembers (cfg : option Auth.AuthConfig) (who : option Auth.AuthPrincipal) (id : string) : prog DB Reply :=
  gated cfg who id (
    if negb (is_valid_uuid id) then mret invalid_id
    else with_repo_errors (roster ← atomic (list_members_with_email (uuid_key id)); mret (listed (map roster_json roster)))).

(** The role of a body, one of the four. *)
Definition role_field (body : json) : option string :=
  match member "role" body with Some (JString r) => if is_valid_role r then Some r else None | _ => None end.
Definition bad_role : Reply := invalid [("role", "not_allowed")] 400.

(** [addMember]: src/api/OrganizationsController.hpp:415-426. *)
Definition add_to (id user r : string) : prog DB Reply :=
  with_repo_errors (created ← atomic (add id user r); mret (wrapped 201 (member_json (id, user) created))).

(** [addMember]: src/api/OrganizationsController.hpp:358-427. *)
Definition addMember (cfg : option Auth.AuthConfig) (who : option Auth.AuthPrincipal) (id : string) (parsed : option json) : prog DB Reply :=
  gated cfg who id (
    if negb (is_valid_uuid id) then mret invalid_id
    else match parsed with
    | None => mret (refusal 400 "invalid_json")
    | Some body =>
        match Validation.present body "user_id", Validation.present body "email" with
        | Some _, Some _ => mret (invalid [("email", "mutually_exclusive")] 400)
        | _, by_email =>
            let errs := match by_email with
                        | Some _ => Validation.email body "email" (Validation.require body "role" [])
                        | None => Validation.uuid body "user_id" (Validation.require body "user_id" (Validation.require body "role" []))
                        end in
            if Validation.any errs then mret (invalid errs 400)
            else match role_field body, by_email with
            | None, _ => mret bad_role
            | Some r, Some j =>
                address ← pure (get_string j);
                found ← atomic (find_by_email address);
                match found with
                | None => mret (refusal 404 "user_not_found")
                | Some u => add_to (uuid_key id) u.1.1 r
                end
            | Some r, None => user ← pure (field_string "user_id" body); add_to (uuid_key id) (uuid_key user) r
            end
        end
    end).

(** [count_owners]: src/api/OrganizationsController.hpp:618-626. *)
Definition count_owners (id : string) : prog DB nat :=
  ms ← atomic (list_members id);
  mret (length (List.filter (fun e : (string * string) * OrgMember => String.eqb (m_role e.2) "owner") ms)).

(** Unless the target holds the last ownership, which [loses] it. *)
Definition unless_last (id : string) (loses : bool) (code : string) (k : prog DB Reply) : prog DB Reply :=
  if loses then n ← count_owners id; if Nat.leb n 1 then mret (refusal 409 code) else k else k.

(** [updateMemberRole]: src/api/OrganizationsController.hpp:470-491.  The member read back is dereferenced unlooked. *)
Definition change_role (id user new_role : string) : prog DB Reply :=
  with_repo_errors (
    target ← atomic (find_membership id user);
    match target with
    | None => mret (refusal 404 "not_found")
    | Some m =>
        unless_last id (String.eqb (m_role m) "owner" && negb (String.eqb new_role "owner")) "last_owner" (
          _ ← atomic (set_role id user new_role);
          fresh ← atomic (find_membership id user);
          match fresh with Some f => mret (wrapped 200 (member_json (id, user) f)) | None => pure Undef end)
    end).

(** [updateMemberRole]: src/api/OrganizationsController.hpp:442-492. *)
Definition updateMemberRole (cfg : option Auth.AuthConfig) (who : option Auth.AuthPrincipal) (id user : string) (parsed : option json)
    : prog DB Reply :=
  gated cfg who id (
    if negb (is_valid_uuid id) || negb (is_valid_uuid user) then mret invalid_id
    else match parsed with
    | None => mret (refusal 400 "invalid_json")
    | Some body =>
        let errs := Validation.require body "role" [] in
        if Validation.any errs then mret (invalid errs 400)
        else match role_field body with None => mret bad_role | Some r => change_role (uuid_key id) (uuid_key user) r end
    end).

(** [removeMember]: src/api/OrganizationsController.hpp:513-527. *)
Definition expel (id user : string) : prog DB Reply :=
  with_repo_errors (
    target ← atomic (find_membership id user);
    match target with
    | None => mret (refusal 404 "not_found")
    | Some m =>
        unless_last id (String.eqb (m_role m) "owner") "last_owner" (
          _ ← atomic (remove_member id user);
          mret (mkReply 200 "" (JObject [("message", JString "Member removed")])))
    end).

(** [removeMember]: src/api/OrganizationsController.hpp:500-528. *)
Definition removeMember (cfg : option Auth.AuthConfig) (who : option Auth.AuthPrincipal) (id user : string) : prog DB Reply :=
  gated cfg who id (if negb (is_valid_uuid id) || negb (is_valid_uuid user) then mret invalid_id else expel (uuid_key id) (uuid_key user)).

(** [updateRequisites]: src/api/OrganizationsController.hpp:543-595. *)
Definition updateRequisites (cfg : option Auth.AuthConfig) (who : option Auth.AuthPrincipal) (id : string) (parsed : option json)
    : prog DB Reply :=
  gated cfg who id (
    if negb (is_valid_uuid id) then mret invalid_id
    else match parsed with
    | None => mret (refusal 400 "invalid_json")
    | Some body =>
        let text f errs := Validation.string_if_there body f (Validation.require body f errs) in
        let errs := Validation.string_if_there body "vat_certificate"
                      (text "director_position" (text "director_name" (text "legal_address" []))) in
        if Validation.any errs then mret (invalid errs 400)
        else
          address ← pure (field_string "legal_address" body);
          director ← pure (field_string "director_name" body);
          position ← pure (field_string "director_position" body);
          certificate ← pure (value_string "vat_certificate" "" body);
          with_repo_errors (
            written ← atomic (update_requisites (uuid_key id) address director position certificate);
            if negb written then mret (refusal 404 "not_found")
            else
              updated ← atomic (find_org (uuid_key id));
              mret match updated with Some o => wrapped 200 (organization_json (uuid_key id) o) | None => refusal 404 "not_found" end)
    end).

(** *** Bank accounts *)

(** [listBankAccounts]: src/api/BankAccountsController.hpp:51-65. *)
Definition listBankAccounts (who : option Auth.AuthPrincipal) (limit_param offset_param : string) : prog DB Reply :=
  org_scoped who "requisites" "read" (fun ctx =>
    let page := parse_page_params limit_param offset_param 50 200 in
    with_repo_errors (
      rows ← atomic (list_accounts (ctx_org ctx) (Z.to_nat (limit page)) (Z.to_nat (offset page)));
      total ← atomic (count_accounts (ctx_org ctx));
      mret (paginated (map (fun e => account_json e.1 e.2) rows) total page))).

(** [validate_and_fill], [apply_patch]: the types of the members that are there. *)
Definition account_types (body : json) (errs : Validation.Errors) : Validation.Errors :=
  Validation.bool_if_there body "is_primary"
    (fold_left (fun errs f => Validation.string_if_there body f errs) ["iik"; "bank_name"; "bik"; "kbe"; "currency"] errs).

(** [validate_and_fill]: src/api/BankAccountsController.hpp:156-180. *)
Definition validate_and_fill (body : json) : outcome (Validation.Errors + BankAccount) :=
  let errs := account_types body (Validation.require body "bank_name" (Validation.require body "iik" [])) in
  if Validation.any errs then Ok (inl errs)
  else
    number ← field_string "iik" body;
    bank ← field_string "bank_name" body;
    code ← value_string "bik" "" body;
    beneficiary ← value_string "kbe" "" body;
    cur ← value_string "currency" "KZT" body;
    prim ← value_bool "is_primary" false body;
    Ok (inr (mkAccount "" number bank code beneficiary cur prim 0)).

Definition text_or (k : string) (old : string) (body : json) : string :=
  match member k body with Some (JString s) => s | _ => old end.
Definition flag_or (k : string) (old : bool) (body : json) : bool :=
  match member k body with Some (JBool b) => b | _ => old end.

(** [apply_patch]: src/api/BankAccountsController.hpp:185-213. *)
Definition apply_patch (body : json) (a : BankAccount) : Validation.Errors + BankAccount :=
  let errs := account_types body [] in
  if Validation.any errs then inl errs
  else inr (mkAccount (a_org a) (text_or "iik" (iik a) body) (text_or "bank_name" (bank_name a) body) (text_or "bik" (bik a) body)
              (text_or "kbe" (kbe a) body) (text_or "currency" (currency a) body) (flag_or "is_primary" (is_primary a) body) (a_created a)).

(** [createBankAccount]: src/api/BankAccountsController.hpp:70-86. *)
Definition createBankAccount (who : option Auth.AuthPrincipal) (parsed : option json) : prog DB Reply :=
  org_scoped who "requisites" "write" (fun ctx =>
    match parsed with
    | None => mret (refusal 400 "invalid_json")
    | Some body =>
        filled ← pure (validate_and_fill body);
        match filled with
        | inl errs => mret (invalid errs 400)
        | inr draft => with_repo_errors (
            created ← atomic (create_account (ctx_org ctx) draft); mret (wrapped 201 (account_json created.1 created.2)))
        end
    end).

(** [patchBankAccount]: src/api/BankAccountsController.hpp:105-124. *)
Definition patch_found (org id : string) (body : json) : prog DB Reply :=
  with_repo_errors (
    current ← atomic (find_account id org);
    match current with
    | None => mret (refusal 404 "not_found")
    | Some a =>
        match apply_patch body a with
        | inl errs => mret (invalid errs 400)
        | inr patch =>
            updated ← atomic (update_account org id patch);
            mret match updated with Some u => wrapped 200 (account_json id u) | None => refusal 404 "not_found" end
        end
    end).

(** [patchBankAccount]: src/api/BankAccountsController.hpp:91-125. *)
Definition patchBankAccount (who : option Auth.AuthPrincipal) (id : string) (parsed : option json) : prog DB Reply :=
  org_scoped who "requisites" "write" (fun ctx =>
    if negb (is_valid_uuid id) then mret invalid_id
    else match parsed with None => mret (refusal 400 "invalid_json") | Some body => patch_found (ctx_org ctx) (uuid_key id) body end).

(** [deleteBankAccount]: src/api/BankAccountsController.hpp:130-148. *)
Definition deleteBankAccount (who : option Auth.AuthPrincipal) (id : string) : prog DB Reply :=
  org_scoped who "requisites" "write" (fun ctx =>
    if negb (is_valid_uuid id) then mret invalid_id
    else with_repo_errors (
      gone ← atomic (remove_account (ctx_org ctx) (uuid_key id));
      mret (if (gone : bool) then mkReply 200 "" (JObject [("deleted", JBool true)]) else refusal 404 "not_found"))).

(** A request of these controllers. *)
Inductive request :=
| CreateOrg (cfg : option Auth.AuthConfig) (who : option Auth.AuthPrincipal) (body : option json)
| ListOrgs (cfg : option Auth.AuthConfig) (who : option Auth.AuthPrincipal) (limit offset : string)
| Mine (who : option Auth.AuthPrincipal)
| ListMembers (cfg : option Auth.AuthConfig) (who : option Auth.AuthPrincipal) (id : string)
| AddMember (cfg : option Auth.AuthConfig) (who : option Auth.AuthPrincipal) (id : string) (body : option json)
| UpdateRole (cfg : option Auth.AuthConfig) (who : option Auth.AuthPrincipal) (id user : string) (body : option json)
| RemoveMember (cfg : option Auth.AuthConfig) (who : option Auth.AuthPrincipal) (id user : string)
| UpdateRequisites (cfg : option Auth.AuthConfig) (who : option Auth.AuthPrincipal) (id : string) (body : option json)
| ListAccounts (who : option Auth.AuthPrincipal) (limit offset : string)
| CreateAccount (who : option Auth.AuthPrincipal) (body : option json)
| PatchAccount (who : option Auth.AuthPrincipal) (id : string) (body : option json)
| DeleteAccount (who : option Auth.AuthPrincipal) (id : string).

Definition serve (r : request) : prog DB Reply :=
  match r with
  | CreateOrg cfg who body => createOrganization cfg who body
  | ListOrgs cfg who l o => listOrganizations cfg who l o
  | Mine who => mine who
  | ListMembers cfg who id => listMembers cfg who id
  | AddMember cfg who id body => addMember cfg who id body
  | UpdateRole cfg who id user body => updateMemberRole cfg who id user body
  | RemoveMember cfg who id user => removeMember cfg who id user
  | UpdateRequisites cfg who id body => updateRequisites cfg who id body
  | ListAccounts who l o => listBankAccounts who l o
  | CreateAccount who body => createBankAccount who body
  | PatchAccount who id body => patchBankAccount who id body
  | DeleteAccount who id => deleteBankAccount who id
  end.

(** ** What every request keeps *)

Definition distinct (l : gmap string BankAccount) : Prop :=
  forall i j a b, l !! i = Some a -> l !! j = Some b -> i <> j -> clashes a b = false.

(** UNIQUE (name) of the roles, and the unique index on the default one. *)
Definition role_clashes (a b : Role) : bool := String.eqb (r_name a) (r_name b) || r_default a && r_default b.

(** Accounts of existing organizations, with at most one primary and distinct numbers
    in each; memberships with a role of the matrix, of existing users and organizations;
    distinct BINs; users with distinct addresses and a role that exists, roles with
    distinct names and at most one of them the default; keys of existing users, under
    distinct hashes; identifiers not yet given out are free. *)
Record good (d : DB) : Prop := {
  accounts_owned : forall i a, accounts d !! i = Some a -> is_Some (orgs d !! a_org a);
  accounts_distinct : distinct (accounts d);
  members_valid : forall k m, members_of d !! k = Some m -> is_valid_role (m_role m) = true /\ is_Some (orgs d !! k.1) /\ is_Some (users d !! k.2);
  bins_distinct : forall i j a b, orgs d !! i = Some a -> orgs d !! j = Some b -> i <> j -> bin a <> bin b;
  emails_distinct : forall i j a b, users d !! i = Some a -> users d !! j = Some b -> i <> j -> ci (email a) <> ci (email b);
  users_have_roles : forall i u, users d !! i = Some u -> is_Some (roles d !! role_id u);
  roles_distinct : forall i j a b, roles d !! i = Some a -> roles d !! j = Some b -> i <> j -> role_clashes a b = false;
  keys_owned : forall i k, keys d !! i = Some k -> is_Some (users d !! key_user k);
  keys_distinct : forall i j a b, keys d !! i = Some a -> keys d !! j = Some b -> i <> j -> key_hash a <> key_hash b;
  fresh_ids : forall n, (seq d <= n)%nat -> orgs d !! gen_random_uuid n = None /\ accounts d !! gen_random_uuid n = None;
  fresh_people : forall n, (seq d <= n)%nat ->
    users d !! gen_random_uuid n = None /\ keys d !! gen_random_uuid n = None /\ roles d !! Z.of_nat n = None
}.

Definition tenant (l : gmap string BankAccount) (id : string) : option string := a_org <$> l !! id.

(** Organizations stay, under their BIN; an account stays with its organization until it is removed for good. *)
Record evolves (d d' : DB) : Prop := {
  ids_grow : (seq d <= seq d')%nat;
  orgs_stay : forall id o, orgs d !! id = Some o -> exists o', orgs d' !! id = Some o' /\ bin o' = bin o;
  accounts_stay : forall id, (forall n, (seq d <= n)%nat -> id <> gen_random_uuid n) ->
    tenant (accounts d') id = None \/ tenant (accounts d') id = tenant (accounts d) id
}.

#[export] Instance evolves_pre : PreOrder evolves.
Proof.
  split.
  - intros d. constructor; [lia | eauto | by right].
  - intros d1 d2 d3 H1 H2. constructor.
    + pose proof (ids_grow _ _ H1). pose proof (ids_grow _ _ H2). lia.
    + intros id o Ho. destruct (orgs_stay _ _ H1 _ _ Ho) as (o2 & Ho2 & ?), (orgs_stay _ _ H2 _ _ Ho2) as (o3 & ? & ?).
      exists o3. split; [done|]. congruence.
    + intros id Hid. pose proof (ids_grow _ _ H1).
      destruct (accounts_stay _ _ H2 id) as [->| ->]; [intros n Hn; apply Hid; lia | by left|]. by apply H1.
Qed.

Definition keeps {A} (m : st DB A) : Prop := forall d, good d -> good (m d).2 /\ evolves d (m d).2.

Lemma keeps_refl d : good d -> good d /\ evolves d d.
Proof. done. Qed.

Lemma clashes_sym a b : clashes a b = clashes b a.
Proof.
  unfold clashes. rewrite (String.eqb_sym (a_org a)), (String.eqb_sym (iik a)). do 2 f_equal. apply andb_comm.
Qed.

Lemma clashes_unset a b : clashes a b = false -> clashes (unset_primary a) b = false.
Proof.
  unfold clashes. cbn [a_org iik is_primary unset_primary andb]. destruct (String.eqb (a_org a) (a_org b)); [|done]. cbn [andb].
  by destruct (String.eqb (iik a) (iik b)).
Qed.

Definition cleared (org : string) (keep : option string) (id : string) (a : BankAccount) : BankAccount :=
  if String.eqb (a_org a) org && is_primary a && negb (bool_decide (keep = Some id)) then unset_primary a else a.

Lemma clear_primary_lookup org keep l id : clear_primary org keep l !! id = cleared org keep id <$> l !! id.
Proof. unfold clear_primary. rewrite map_lookup_imap. by destruct (l !! id). Qed.

Lemma cleared_org org keep id a : a_org (cleared org keep id a) = a_org a.
Proof. unfold cleared. by case_match. Qed.

Lemma cleared_clashes org keep i j a b : clashes a b = false -> clashes (cleared org keep i a) (cleared org keep j b) = false.
Proof.
  unfold cleared. intros H. assert (forall c, clashes a (if (c : bool) then unset_primary b else b) = false) as Hb.
  { intros [|]; [|done]. rewrite clashes_sym in *. by apply clashes_unset. }
  case_match; [by apply clashes_unset|]; apply Hb.
Qed.

Lemma cleared_distinct org keep l : distinct l -> distinct (clear_primary org keep l).
Proof.
  intros H i j a b. rewrite !clear_primary_lookup. destruct (l !! i) as [a'|] eqn:Ea, (l !! j) as [b'|] eqn:Eb; try discriminate.
  cbn [fmap option_fmap option_map]. intros [= <-] [= <-] Hij. eapply cleared_clashes, H; eassumption.
Qed.

Lemma cleared_tenant org keep l id : tenant (clear_primary org keep l) id = tenant l id.
Proof. unfold tenant. rewrite clear_primary_lookup. destruct (l !! id); [|done]. cbn [fmap option_fmap option_map]. by rewrite cleared_org. Qed.

Lemma free_spec id a l : free id a l = true <-> forall j b, l !! j = Some b -> j <> id -> clashes a b = false.
Proof.
  unfold free. rewrite negb_true_iff, <- not_true_iff_false, existsb_exists. split.
  - intros H j b Hj Hn. apply not_true_iff_false. intros C. apply H. exists (j, b).
    rewrite <- list_elem_of_In, elem_of_map_to_list. cbn [fst snd]. by rewrite (proj2 (String.eqb_neq _ _)), C.
  - intros H ([j b] & Hj%list_elem_of_In%elem_of_map_to_list & [Hn C]%andb_true_iff). cbn [fst snd] in *.
    rewrite (H j b) in C; [done..|]. intros ->. by rewrite String.eqb_refl in Hn.
Qed.

Lemma insert_distinct id a l : distinct l -> free id a l = true -> distinct (<[id := a]> l).
Proof.
  intros H F i j x y Hx Hy Hij. rewrite free_spec in F. apply lookup_insert_Some in Hx as [[<- <-]|[Hi Hx]].
  - apply lookup_insert_Some in Hy as [[<- <-]|[Hj Hy]]; [done|]. by apply (F j).
  - apply lookup_insert_Some in Hy as [[<- <-]|[Hj Hy]]; [rewrite clashes_sym; by apply (F i) | by eapply H].
Qed.

(** Writing the accounts. *)
Lemma accounts_written d l k t : (seq d <= k)%nat -> good d -> distinct l ->
  (forall i a, l !! i = Some a -> is_Some (orgs d !! a_org a)) ->
  (forall n, (k <= n)%nat -> l !! gen_random_uuid n = None) ->
  (forall id, (forall n, (seq d <= n)%nat -> id <> gen_random_uuid n) -> tenant l id = None \/ tenant l id = tenant (accounts d) id) ->
  let d' := mkDB (orgs d) (members_of d) l (users d) (roles d) (keys d) k t in good d' /\ evolves d d'.
Proof.
  intros Hk G D O F T d'. split; constructor; cbn [accounts orgs members_of users roles keys seq d']; try apply G; try done.
  - intros n Hn. split; [apply G; lia | by apply F].
  - intros n Hn. apply G. lia.
  - eauto.
Qed.

Lemma tenant_owned d l : good d -> (forall id, tenant l id = None \/ tenant l id = tenant (accounts d) id) ->
  forall i a, l !! i = Some a -> is_Some (orgs d !! a_org a).
Proof.
  intros G T i a Hi. unfold tenant in T. specialize (T i). rewrite Hi in T. destruct T as [|T]; [done|].
  destruct (accounts d !! i) as [b|] eqn:Eb; [|done]. injection T as ->. by eapply accounts_owned.
Qed.

(** Accounts only change or go, no new one. *)
Lemma accounts_rewritten d l : good d -> distinct l -> (forall id, tenant l id = None \/ tenant l id = tenant (accounts d) id) ->
  let d' := with_accounts (fun _ => l) d in good d' /\ evolves d d'.
Proof.
  intros G D T. apply (accounts_written d l (seq d) (now d)); [done..| by apply tenant_owned | | auto].
  intros n Hn. destruct (T (gen_random_uuid n)) as [H|H]; unfold tenant in H; [|rewrite (proj2 (fresh_ids d G n Hn)) in H];
    by destruct (l !! gen_random_uuid n).
Qed.

Lemma create_account_keeps org draft : keeps (create_account org draft).
Proof.
  intros d G. unfold create_account. rewrite translate_snd. cbv zeta. destruct (char_in 3 _) as [cur|]; [|by apply keeps_refl].
  set (l := if is_primary draft then _ else _). assert (distinct l /\ forall id, tenant l id = tenant (accounts d) id) as [D T].
  { unfold l. destruct (is_primary draft); [split; [by apply cleared_distinct, G | apply cleared_tenant] | split; [apply G | done]]. }
  set (a := mkAccount _ _ _ _ _ _ _ _). destruct (free _ a l) eqn:F; [cbn [negb]|by apply keeps_refl].
  destruct (bool_decide_reflect (is_Some (orgs d !! org))) as [Ho|Ho]; [cbn [negb snd]|by apply keeps_refl].
  apply (accounts_written d (<[gen_random_uuid (seq d) := a]> l) (S (seq d)) (now d + 1)); [lia | done | by apply insert_distinct | ..].
  - intros i b [[<- <-]|[_ Hi]]%lookup_insert_Some; [exact Ho|]. eapply (tenant_owned d l); [done | by right; apply T | exact Hi].
  - intros n Hn. rewrite lookup_insert_ne by (intros C%uuid_unique; lia). specialize (T (gen_random_uuid n)). unfold tenant in T.
    rewrite (proj2 (fresh_ids d G n ltac:(lia))) in T. by destruct (l !! gen_random_uuid n).
  - intros id Hid. right. rewrite <- T. unfold tenant. rewrite lookup_insert_ne; [done|]. intros C. by apply (Hid (seq d)).
Qed.

Lemma update_account_keeps org id patch : keeps (update_account org id patch).
Proof.
  intros d G. unfold update_account. rewrite translate_snd. cbv zeta.
  set (l := if is_primary patch then _ else _). assert (distinct l /\ forall i, tenant l i = tenant (accounts d) i) as [D T].
  { unfold l. destruct (is_primary patch); [split; [by apply cleared_distinct, G | apply cleared_tenant] | split; [apply G | done]]. }
  assert (good (with_accounts (fun _ => l) d) /\ evolves d (with_accounts (fun _ => l) d)) as Hl by (apply accounts_rewritten; auto).
  destruct (l !! id) as [old|] eqn:El; [|done]. destruct (String.eqb_spec (a_org old) org) as [<-|]; [|done].
  destruct (char_in 3 _) as [cur|]; [|by apply keeps_refl]. case_match eqn:F; [cbn [snd]|by apply keeps_refl].
  apply accounts_rewritten; [done | by apply insert_distinct|]. intros i. right. rewrite <- T. unfold tenant.
  destruct (decide (i = id)) as [->|]; [by rewrite lookup_insert_eq, El | by rewrite lookup_insert_ne].
Qed.

Lemma remove_account_keeps org id : keeps (remove_account org id).
Proof.
  intros d G. unfold remove_account. destruct (accounts d !! id) as [a|]; [|by apply keeps_refl].
  destruct (String.eqb (a_org a) org); [cbn [snd]|by apply keeps_refl]. apply accounts_rewritten; [done|..].
  - intros i j x y [_ Hx]%lookup_delete_Some [_ Hy]%lookup_delete_Some. by eapply (accounts_distinct d G).
  - intros i. unfold tenant. destruct (decide (i = id)) as [->|]; [left; by rewrite lookup_delete_eq | right; by rewrite lookup_delete_ne].
Qed.

(** Writing the members. *)
Lemma members_written d f n : good d -> (n = seq d \/ n = S (seq d)) ->
  (forall k m, f (members_of d) !! k = Some m ->
     members_of d !! k = Some m \/ is_valid_role (m_role m) = true /\ is_Some (orgs d !! k.1) /\ is_Some (users d !! k.2)) ->
  forall t, let d' := mkDB (orgs d) (f (members_of d)) (accounts d) (users d) (roles d) (keys d) n t in good d' /\ evolves d d'.
Proof.
  intros G Hn H t d'. split; constructor; cbn [accounts orgs members_of users roles keys seq d']; try apply G; try lia; eauto.
  - intros k m Hk. destruct (H k m Hk) as [Hm|Hm]; [by apply G | done].
  - intros i Hi. apply G. lia.
  - intros i Hi. apply G. lia.
Qed.

Lemma add_keeps org user r : keeps (add org user r).
Proof.
  intros d G. unfold add. rewrite translate_snd. cbv zeta. destruct (is_valid_role r) eqn:Er; [cbn [negb]|by apply keeps_refl].
  case_bool_decide; [by apply keeps_refl|]. destruct (bool_decide_reflect (is_Some (orgs d !! org))) as [Ho|]; [|by apply keeps_refl].
  destruct (bool_decide_reflect (is_Some (users d !! user))) as [Hu|]; [|by apply keeps_refl]. cbn [andb negb snd].
  apply (members_written d (insert (org, user) _)); [done | by right|]. intros k m [[<- <-]|[_ Hk]]%lookup_insert_Some; [by right | by left].
Qed.

Lemma set_role_keeps org user r : keeps (set_role org user r).
Proof.
  intros d G. unfold set_role. destruct (members_of d !! (org, user)) as [m|] eqn:Em; [|by apply keeps_refl].
  destruct (is_valid_role r) eqn:Er; [cbn [snd]|by apply keeps_refl]. destruct (members_valid d G _ _ Em) as (_ & Ho & Hu).
  apply (members_written d (insert (org, user) _)); [done | by left|]. intros k x [[<- <-]|[_ Hk]]%lookup_insert_Some; [by right | by left].
Qed.

Lemma remove_member_keeps org user : keeps (remove_member org user).
Proof.
  intros d G. unfold remove_member. destruct (members_of d !! (org, user)) as [m|] eqn:Em; [cbn [snd]|by apply keeps_refl].
  apply (members_written d (delete (org, user))); [done | by left|]. intros k x [_ Hk]%lookup_delete_Some. by left.
Qed.

(** Writing one organization under its identifier and BIN. *)
Lemma org_rewritten d id o o' : good d -> orgs d !! id = Some o -> bin o' = bin o ->
  good (with_orgs (insert id o') d) /\ evolves d (with_orgs (insert id o') d).
Proof.
  intros G Ho Hb. assert (forall i, is_Some (orgs d !! i) -> is_Some (<[id := o']> (orgs d) !! i)) as Hs.
  { intros i H. destruct (decide (i = id)) as [->|]; [by rewrite lookup_insert_eq | by rewrite lookup_insert_ne]. }
  assert (forall i x, <[id := o']> (orgs d) !! i = Some x -> exists y, orgs d !! i = Some y /\ bin y = bin x) as Hk.
  { intros i x [[<- <-]|[_ H]]%lookup_insert_Some; eauto. }
  split; constructor; cbn [accounts orgs members_of users roles keys seq with_orgs]; eauto; try apply G.
  - intros i a Hi. by apply Hs, (accounts_owned d G i).
  - intros k m Hm. destruct (members_valid d G _ _ Hm) as (? & ? & ?). eauto.
  - intros i j a b Ha Hb'. destruct (Hk _ _ Ha) as (a' & Ha' & <-), (Hk _ _ Hb') as (b' & Hb2 & <-). by apply G.
  - intros n Hn. destruct (fresh_ids d G n Hn) as [F1 F2]. split; [|done]. rewrite lookup_insert_ne; [done|]. intros ->. congruence.
  - intros i x Hi. destruct (decide (i = id)) as [->|]; [rewrite lookup_insert_eq; exists o'; split; [done | congruence] | rewrite lookup_insert_ne by done; eauto].
Qed.

Lemma update_requisites_keeps id a n p c : keeps (update_requisites id a n p c).
Proof.
  intros d G. unfold update_requisites. destruct (orgs d !! id) as [o|] eqn:Eo; [cbn [snd]|by apply keeps_refl]. by eapply org_rewritten.
Qed.

Lemma org_status_keeps id s : keeps (update_status id s).
Proof.
  intros d G. unfold update_status. destruct (orgs d !! id) as [o|] eqn:Eo; [|by apply keeps_refl].
  case_match; [cbn [snd]|by apply keeps_refl]. by eapply org_rewritten.
Qed.

Lemma create_org_keeps b nm regime vat : keeps (create_org b nm regime vat).
Proof.
  intros d G. unfold create_org. rewrite translate_snd. destruct (char_in 12 b) as [b12|]; [cbv zeta|by apply keeps_refl].
  case_match; [by apply keeps_refl|]. destruct (existsb _ _) eqn:E; [by apply keeps_refl|]. cbn [snd]. set (o := mkOrganization _ _ _ _ _ _ _ _ _ _).
  assert (forall i x, orgs d !! i = Some x -> bin x <> b12) as Hb.
  { intros i x Hi C. apply not_true_iff_false in E. apply E, existsb_exists. exists (i, x).
    rewrite <- list_elem_of_In, elem_of_map_to_list. cbn [snd]. by rewrite C, String.eqb_refl. }
  destruct (fresh_ids d G (seq d) (le_n _)) as [Hf _].
  assert (forall i x, orgs d !! i = Some x -> <[gen_random_uuid (seq d) := o]> (orgs d) !! i = Some x) as Hs.
  { intros i x Hi. rewrite lookup_insert_ne; [done|]. intros <-. congruence. }
  split; constructor; cbn [accounts orgs members_of users roles keys seq with_orgs next_id]; try apply G.
  - intros i a Hi. destruct (accounts_owned d G i a Hi) as [x Hx]. eauto.
  - intros k m Hm. destruct (members_valid d G _ _ Hm) as (? & [x Hx] & ?). eauto.
  - intros i j x y [[<- <-]|[_ Hx]]%lookup_insert_Some [[<- <-]|[_ Hy]]%lookup_insert_Some Hij; [done|..].
    + intros C. by eapply Hb.
    + by eapply Hb.
    + by eapply (bins_distinct d G).
  - intros n Hn. destruct (fresh_ids d G n ltac:(lia)) as [F1 F2]. split; [|done]. rewrite lookup_insert_ne; [done|]. intros C%uuid_unique. lia.
  - intros n Hn. apply G. lia.
  - lia.
  - intros i x Hi. exists x. eauto.
  - by right.
Qed.

Lemma read_keeps {A} (f : DB -> A) : keeps (gets f).
Proof. intros d G. by apply keeps_refl. Qed.

Create HintDb tenancy.
#[local] Hint Resolve create_account_keeps update_account_keeps remove_account_keeps add_keeps set_role_keeps remove_member_keeps
  update_requisites_keeps create_org_keeps : tenancy.
#[local] Hint Extern 2 (keeps _) => refine (read_keeps _) : tenancy.

Abbreviation quietly := (quiet good evolves).

Lemma quiet_kept {A B} (m : st DB A) (k : A -> prog DB B) d : keeps m -> (forall a d', quietly (k a) d') -> quietly (atomic m ≫= k) d.
Proof. apply quiet_call; exact _. Qed.

(** Case analysis down to the repository calls, each of which keeps the invariant. *)
Ltac quietly_on :=
  repeat first
    [ apply quiet_done
    | apply quiet_catch
    | apply quiet_kept; [solve [eauto with tenancy] | intros ? ?]
    | apply quiet_pure; intros ? _
    | progress cbv beta
    | case_match ].

Lemma gated_quiet cfg who id k d : (forall d', quietly k d') -> quietly (gated cfg who id k) d.
Proof.
  intros Hk. unfold gated, require_admin_or_org_owner, org_context_of. apply quiet_bind; [exact _| |intros [e|] d'; [done | apply Hk]].
  apply quiet_bind; [exact _ | |intros [c|] d'; quietly_on]. quietly_on.
Qed.

Lemma org_scoped_quiet who res act k d : (forall c d', quietly (k c) d') -> quietly (org_scoped who res act k) d.
Proof.
  intros Hk. unfold org_scoped, org_context_of. apply quiet_bind; [exact _ | quietly_on|]. intros [c|] d'; [case_match; [apply Hk|] |]; done.
Qed.

Lemma unless_last_quiet id loses code k d : (forall d', quietly k d') -> quietly (unless_last id loses code k) d.
Proof.
  intros Hk. unfold unless_last, count_owners. destruct loses; [|done].
  apply quiet_bind; [exact _ | quietly_on | intros n d'; case_match; [done | apply Hk]].
Qed.

Lemma annotated_quiet ms d : quietly (annotated ms) d.
Proof.
  revert d. induction ms as [|e r IH]; intros d; cbn [annotated]; [done|]. apply quiet_kept; [eauto with tenancy|]. intros found d'.
  apply quiet_bind; [exact _ | apply IH | done].
Qed.

Lemma provision_quiet who b regime vat body d : quietly (provision who b regime vat body) d.
Proof.
  unfold provision, with_repo_errors. apply quiet_catch, quiet_pure. intros nm _. apply quiet_kept; [eauto with tenancy|]. intros created d'.
  apply quiet_bind; [exact _ | | done]. unfold void. quietly_on.
Qed.

Lemma serve_quiet r d : quietly (serve r) d.
Proof.
  destruct r; cbn [serve].
  - unfold createOrganization. cbv zeta.
    repeat first [apply provision_quiet | apply quiet_done | apply quiet_pure; intros ? _ | progress cbv beta | case_match].
  - unfold listOrganizations, with_repo_errors. quietly_on.
  - unfold mine, with_repo_errors. quietly_on. apply quiet_bind; [exact _ | apply annotated_quiet | done].
  - apply gated_quiet. intros d'. unfold with_repo_errors. quietly_on.
  - apply gated_quiet. intros d'. unfold add_to, with_repo_errors. quietly_on.
  - apply gated_quiet. intros d'. unfold change_role, with_repo_errors. quietly_on. apply unless_last_quiet. intros d2. quietly_on.
  - apply gated_quiet. intros d'. unfold expel, with_repo_errors. quietly_on. apply unless_last_quiet. intros d2. quietly_on.
  - apply gated_quiet. intros d'. unfold with_repo_errors. quietly_on.
  - apply org_scoped_quiet. intros c d'. unfold with_repo_errors. quietly_on.
  - apply org_scoped_quiet. intros c d'. unfold with_repo_errors. quietly_on.
  - apply org_scoped_quiet. intros c d'. unfold patch_found, with_repo_errors. quietly_on.
  - apply org_scoped_quiet. intros c d'. unfold with_repo_errors. quietly_on.
Qed.

(** C32: Members and requisites stay consistent.  From a well-formed database, however the
    turns of any requests to the organization and bank-account routes interleave, an
    organization never has two primary accounts or one account number twice, an account
    never changes hands, memberships carry a role of the matrix and join a user and an
    organization that exist, and no organization is lost, changes its BIN or shares it. *)
Theorem tenancy_kept d d' ps :
  good d -> rtc (turn (fun _ p => exists r, p = serve r)) (d, []) (d', ps) ->
  evolves d d' /\
  (forall i j a b, accounts d' !! i = Some a -> accounts d' !! j = Some b -> a_org a = a_org b ->
     (is_primary a = true /\ is_primary b = true) \/ iik a = iik b -> i = j) /\
  (forall k m, members_of d' !! k = Some m -> is_valid_role (m_role m) = true /\ is_Some (orgs d' !! k.1) /\ is_Some (users d' !! k.2)) /\
  (forall i j a b, orgs d' !! i = Some a -> orgs d' !! j = Some b -> bin a = bin b -> i = j).
Proof.
  intros G H. destruct (pool_keeps good evolves (fun _ p => exists r, p = serve r)) with (s := (d, []) : DB * list (prog DB Reply)) (s' := (d', ps))
    as (G' & E & _); [intros w p _ (r & ->); apply serve_quiet | done | done | by constructor|]. cbn [fst snd] in *.
  split; [done|]. split; [|split; [apply G'|]].
  - intros i j a b Hi Hj Ho Hc. destruct (decide (i = j)) as [|Hn]; [done|]. pose proof (accounts_distinct d' G' i j a b Hi Hj Hn) as F.
    unfold clashes in F. rewrite Ho, String.eqb_refl in F. cbn [andb] in F. apply orb_false_iff in F as [F1%String.eqb_neq F2].
    destruct Hc as [[Ha Hb]|?]; [by rewrite Ha, Hb in F2 | done].
  - intros i j a b Hi Hj Hb. destruct (decide (i = j)); [done|]. by destruct (bins_distinct d' G' i j a b).
Qed.

(** ** The last owner *)

Definition owned (id : string) (d : DB) : Prop := exists u m, members_of d !! (id, u) = Some m /\ m_role m = "owner".

Definition is_owner (e : (string * string) * OrgMember) : bool := String.eqb (m_role e.2) "owner".

Lemma memberships_elem P d k m : (k, m) ∈ memberships P d <-> P k = true /\ members_of d !! k = Some m.
Proof.
  unfold memberships. rewrite stable_sort_perm, list_elem_of_In, filter_In, <- list_elem_of_In, elem_of_map_to_list. cbn [fst]. tauto.
Qed.

Lemma memberships_nodup P d : NoDup (memberships P d).
Proof. unfold memberships. rewrite stable_sort_perm. apply NoDup_ListNoDup, List.NoDup_filter, NoDup_ListNoDup, NoDup_map_to_list. Qed.

(** Two owners or more: one besides any given member. *)
Lemma another_owner id d u : (1 < length (List.filter is_owner (memberships (fun k => String.eqb k.1 id) d)))%nat ->
  exists v m, v <> u /\ members_of d !! (id, v) = Some m /\ m_role m = "owner".
Proof.
  set (l := List.filter _ _). assert (NoDup l) as N by (apply NoDup_ListNoDup, List.NoDup_filter, NoDup_ListNoDup, memberships_nodup).
  assert (forall e, e ∈ l -> e.1.1 = id /\ members_of d !! e.1 = Some e.2 /\ m_role e.2 = "owner") as Hl.
  { intros [k m]. unfold l. rewrite list_elem_of_In, filter_In, <- list_elem_of_In, memberships_elem. unfold is_owner. cbn [fst snd].
    rewrite !String.eqb_eq. tauto. }
  destruct l as [|[[o1 u1] m1] [|[[o2 u2] m2] r]]; cbn [length]; [lia..|]. intros _.
  destruct (Hl ((o1, u1), m1)) as (E1 & L1 & R1); [apply list_elem_of_here|]. destruct (Hl ((o2, u2), m2)) as (E2 & L2 & R2); [do 2 constructor|].
  cbn [fst snd] in *. subst o1 o2. destruct (decide (u1 = u)) as [->|]; [|by exists u1, m1]. exists u2, m2. split; [|done].
  intros ->. apply NoDup_cons in N as [N _]. apply N. assert (m1 = m2) as -> by congruence. apply list_elem_of_here.
Qed.

Definition untouched {A} (m : st DB A) : Prop := forall d, members_of (m d).2 = members_of d.

Lemma untouched_owned {A} id (m : st DB A) d : untouched m -> owned id d -> owned id (m d).2.
Proof. intros H (u & x & Hu & Hx). exists u, x. by rewrite H. Qed.

Lemma read_untouched {A} (f : DB -> A) : untouched (gets f).
Proof. done. Qed.
Lemma create_account_untouched org draft : untouched (create_account org draft).
Proof. intros d. unfold create_account. rewrite translate_snd. cbv zeta. by repeat case_match. Qed.
Lemma update_account_untouched org id patch : untouched (update_account org id patch).
Proof. intros d. unfold update_account. rewrite translate_snd. cbv zeta. by repeat case_match. Qed.
Lemma remove_account_untouched org id : untouched (remove_account org id).
Proof. intros d. unfold remove_account. by repeat case_match. Qed.
Lemma update_requisites_untouched id a n p c : untouched (update_requisites id a n p c).
Proof. intros d. unfold update_requisites. by repeat case_match. Qed.
Lemma create_org_untouched b nm regime vat : untouched (create_org b nm regime vat).
Proof. intros d. unfold create_org. rewrite translate_snd. cbv zeta. by repeat case_match. Qed.

Lemma add_owned id org user r d : owned id d -> owned id (add org user r d).2.
Proof.
  intros (u & m & Hu & Hm). unfold add. rewrite translate_snd. cbv zeta. destruct (negb _); [by exists u, m|].
  case_bool_decide as Hn; [by exists u, m|]. destruct (negb _); [by exists u, m|]. exists u, m. split; [|done]. cbn [snd members_of with_members next_id].
  rewrite lookup_insert_ne; [done|]. intros [= -> ->]. apply Hn. by exists m.
Qed.

#[local] Hint Resolve create_account_untouched update_account_untouched remove_account_untouched update_requisites_untouched
  create_org_untouched : tenancy.
#[local] Hint Extern 2 (untouched _) => refine (read_untouched _) : tenancy.

Ltac owned_on :=
  repeat first
    [ apply stays_done
    | apply stays_catch
    | apply stays_call; [intros ? ?; first [solve [apply untouched_owned; eauto with tenancy] | solve [apply add_owned; assumption]] | intros ?]
    | apply stays_pure; intros ?
    | progress cbv beta
    | case_match ].

Lemma gated_stays P cfg who id k : stays P k -> stays P (gated cfg who id k).
Proof.
  intros Hk. unfold gated, require_admin_or_org_owner. apply stays_bind; [|intros [e|]; [apply stays_done | exact Hk]].
  apply stays_bind; [unfold org_context_of | intros [c|]; [case_match|]; apply stays_done]. repeat case_match; try apply stays_done.
  apply stays_read. intros m. apply stays_done.
Qed.

Lemma org_scoped_stays P who res act k : (forall c, stays P (k c)) -> stays P (org_scoped who res act k).
Proof.
  intros Hk. unfold org_scoped. apply stays_bind; [|intros [c|]; [case_match; [apply Hk|] |]; apply stays_done]. unfold org_context_of.
  repeat case_match; try apply stays_done. apply stays_read. intros m. apply stays_done.
Qed.

Lemma count_owners_alone {A} id (k : nat -> prog DB A) d :
  alone (count_owners id ≫= k) d = alone (k (length (List.filter is_owner (memberships (fun k => String.eqb k.1 id) d)))) d.
Proof. reflexivity. Qed.

(** The guard against the last owner: past it, another owner is left. *)
Lemma unless_last_owned o user m loses code k d : members_of d !! (o, user) = Some m ->
  (forall d, (exists v x, v <> user /\ members_of d !! (o, v) = Some x /\ m_role x = "owner") -> owned o (alone k d).2) ->
  (m_role m = "owner" -> loses = false -> owned o (alone k d).2) -> owned o d ->
  owned o (alone (unless_last o loses code k) d).2.
Proof.
  intros Hm Hk Hl (v & x & Hv & Hx). unfold unless_last. destruct loses.
  - rewrite count_owners_alone. destruct (Nat.leb_spec (length (List.filter is_owner (memberships (fun k => String.eqb k.1 o) d))) 1) as [|H];
      [by exists v, x|]. by apply Hk, another_owner.
  - destruct (decide (v = user)) as [->|Hn]; [apply Hl; congruence|]. apply Hk. eauto.
Qed.

Definition owned_beside (id : string) (key : string * string) (d : DB) : Prop :=
  exists v x, (id, v) <> key /\ members_of d !! (id, v) = Some x /\ m_role x = "owner".

Lemma set_role_owned id o user r d : owned_beside id (o, user) d -> owned id (set_role o user r d).2.
Proof.
  intros (v & x & Hv & Hx & Hr). exists v, x. split; [|done]. unfold set_role. destruct (members_of d !! (o, user)); [|done].
  destruct (is_valid_role r); [|done]. cbn [snd members_of with_members]. rewrite lookup_insert_ne; [done | congruence].
Qed.

Lemma set_owner_owned o user d m : members_of d !! (o, user) = Some m -> owned o (set_role o user "owner" d).2.
Proof. intros Hm. unfold set_role. rewrite Hm. change (is_valid_role "owner") with true. eexists user, _. cbn [snd members_of with_members]. by rewrite lookup_insert_eq. Qed.

Lemma remove_member_owned id o user d : owned_beside id (o, user) d -> owned id (remove_member o user d).2.
Proof.
  intros (v & x & Hv & Hx & Hr). exists v, x. split; [|done]. unfold remove_member. destruct (members_of d !! (o, user)); [|done].
  cbn [snd members_of with_members]. rewrite lookup_delete_ne; [done | congruence].
Qed.

(** A write of a member behind the guard, then reads. *)
Lemma guarded_write_owned {A} id o user m loses code (w : st DB A) (k : A -> prog DB Reply) d :
  members_of d !! (o, user) = Some m ->
  (forall i d, owned_beside i (o, user) d -> owned i (w d).2) ->
  (m_role m = "owner" -> loses = false -> owned o (w d).2) ->
  (forall a, stays (owned id) (k a)) ->
  owned id d -> owned id (alone (unless_last o loses code (atomic w ≫= k)) d).2.
Proof.
  intros Hm Hw Hl Hk Hd. assert (forall d, owned id (w d).2 -> owned id (alone (atomic w ≫= k) d).2) as Hs.
  { intros d' H'. rewrite alone_bind, alone_atomic. destruct (w d') as [[a|e|] d2]; cbn [snd] in *; [by apply Hk | done..]. }
  destruct (decide (id = o)) as [->|Hn].
  - eapply unless_last_owned; [exact Hm | | |done].
    + intros d' (v & x & Hv & Hx & Hr). apply Hs, Hw. exists v, x. split; [congruence | done].
    + intros Hr Hf. apply Hs, Hl; done.
  - assert (owned id (alone (atomic w ≫= k) d).2) as H'.
    { apply Hs, Hw. destruct Hd as (v & x & Hx & Hr). exists v, x. split; [congruence | done]. }
    unfold unless_last. destruct loses; [|done]. rewrite count_owners_alone. case_match; [exact Hd | exact H'].
Qed.

Lemma change_role_stays id o user r : stays (owned id) (change_role o user r).
Proof.
  unfold change_role, with_repo_errors. apply stays_catch. intros d Hd.
  rewrite (alone_step (find_membership o user) _ d (members_of d !! (o, user)) d) by reflexivity.
  destruct (members_of d !! (o, user)) as [m|] eqn:Em; [|done]. eapply guarded_write_owned; [exact Em | intros; by apply set_role_owned | | |done].
  - intros -> [Ef|Ef]%andb_false_iff; [done|]. apply negb_false_iff, String.eqb_eq in Ef as ->. by eapply set_owner_owned.
  - intros a. apply stays_read. intros [f|]; apply stays_done.
Qed.

Lemma expel_stays id o user : stays (owned id) (expel o user).
Proof.
  unfold expel, with_repo_errors. apply stays_catch. intros d Hd.
  rewrite (alone_step (find_membership o user) _ d (members_of d !! (o, user)) d) by reflexivity.
  destruct (members_of d !! (o, user)) as [m|] eqn:Em; [|done].
  eapply guarded_write_owned; [exact Em | intros; by apply remove_member_owned | by intros -> | intros a; apply stays_done | done].
Qed.

Lemma annotated_stays P ms : stays P (annotated ms).
Proof.
  induction ms as [|e r IH]; cbn [annotated]; [apply stays_done|]. apply stays_read. intros found. apply stays_bind; [exact IH|].
  intros rest. apply stays_done.
Qed.

Lemma provision_stays id who b regime vat body : stays (owned id) (provision who b regime vat body).
Proof.
  unfold provision, with_repo_errors. apply stays_catch, stays_pure. intros nm.
  apply stays_call; [intros d Hd; apply untouched_owned; auto with tenancy|]. intros created.
  apply stays_bind; [|intros _; apply stays_done]. destruct who; [|apply stays_done]. apply stays_catch. unfold void. owned_on.
Qed.

(** C36: An organization keeps an owner.  Whatever request to the organization and
    bank-account routes is served, whoever sends it and whatever it answers, an
    organization that had an owner still has one, so long as no other request comes
    between its steps. *)
Theorem last_owner_kept r id d : owned id d -> owned id (alone (serve r) d).2.
Proof.
  revert d. change (stays (owned id) (serve r)). destruct r; cbn [serve].
  - unfold createOrganization. cbv zeta.
    repeat first [apply provision_stays | apply stays_done | apply stays_pure; intros ? | progress cbv beta | case_match].
  - unfold listOrganizations, with_repo_errors. owned_on.
  - unfold mine, with_repo_errors. owned_on. apply stays_bind; [apply annotated_stays | intros rows; apply stays_done].
  - apply gated_stays. unfold with_repo_errors. owned_on.
  - apply gated_stays. unfold add_to, with_repo_errors. owned_on.
  - apply gated_stays. cbv zeta. repeat case_match; first [apply change_role_stays | apply stays_done].
  - apply gated_stays. case_match; [apply stays_done | apply expel_stays].
  - apply gated_stays. unfold with_repo_errors. owned_on.
  - apply org_scoped_stays. intros c. unfold with_repo_errors. owned_on.
  - apply org_scoped_stays. intros c. unfold with_repo_errors. owned_on.
  - apply org_scoped_stays. intros c. unfold patch_found, with_repo_errors. owned_on.
  - apply org_scoped_stays. intros c. unfold with_repo_errors. owned_on.
Qed.

(** ** Who is let in *)

Definition is_org_owner (who : option Auth.AuthPrincipal) (id : string) (d : DB) : bool :=
  match who with
  | Some p =>
      negb (String.eqb (Auth.subject p) "" || String.eqb (Auth.org p) "") && String.eqb (Auth.org p) id &&
      match members_of d !! (id, Auth.subject p) with Some m => String.eqb (m_role m) "owner" | None => false end
  | None => false
  end.

Lemma alone_context who d (k : option OrgContext -> prog DB Reply) : alone (org_context_of who ≫= k) d =
  alone (k (p ← who; if String.eqb (Auth.subject p) "" || String.eqb (Auth.org p) "" then None
            else m ← members_of d !! (Auth.org p, Auth.subject p); Some (mkCtx (Auth.org p) (m_role m) (Auth.subject p)))) d.
Proof.
  destruct who as [p|]; [|done]. cbn [mbind option_bind org_context_of]. destruct (_ || _); [done|]. rewrite alone_bind.
  erewrite alone_step by done. cbn [alone mret prog_ret]. by destruct (members_of d !! _).
Qed.

(** The management of an organization is its owner's, whose token must be scoped to it,
    or an administrator's: anyone else gets the refusal of the guard, and nothing changes. *)
Theorem management_gate cfg who id k d :
  alone (gated cfg who id k) d =
  if is_org_owner who id d then alone k d
  else match Auth.require_admin cfg who with None => alone k d | Some e => (Ok (stopped e), d) end.
Proof.
  unfold gated, require_admin_or_org_owner. rewrite alone_bind.
  assert (forall g : Auth.Guard, alone (match g with Some e => mret (stopped e) | None => k end) d =
            match g with None => alone k d | Some e => (Ok (stopped e), d) end) as Hg by (by intros [e|]).
  assert (alone (ctx ← org_context_of who;
                 match ctx with
                 | Some c => if String.eqb (ctx_org c) id && String.eqb (role c) "owner" then mret None else mret (Auth.require_admin cfg who)
                 | None => mret (Auth.require_admin cfg who)
                 end) d = (Ok (if is_org_owner who id d then None else Auth.require_admin cfg who), d)) as ->.
  { destruct who as [p|]; [|done]. cbn [org_context_of is_org_owner]. destruct (_ || _); [done|]. cbn [negb andb].
    rewrite alone_bind. erewrite alone_step by done. cbn [alone mret prog_ret]. destruct (String.eqb_spec (Auth.org p) id) as [->|Hn]; cbn [andb].
    - destruct (members_of d !! (id, Auth.subject p)) as [m|]; [|done]. cbn [ctx_org role]. rewrite String.eqb_refl. cbn [andb].
      by destruct (String.eqb (m_role m) "owner").
    - destruct (members_of d !! _) as [m|]; [|done]. cbn [ctx_org role]. by rewrite (proj2 (String.eqb_neq _ _)). }
  rewrite Hg. by destruct (is_org_owner who id d).
Qed.

(** ** The primary account *)

(** A new primary account takes the place of the old one: an owner's well-formed request
    is refused only for a number the organization has already, and afterwards the new
    account is the one documents are filled from, every other left as it was but for the flag. *)
Theorem primary_moves p m body draft cur d :
  good d -> Auth.subject p <> "" -> Auth.org p <> "" -> is_Some (orgs d !! Auth.org p) ->
  members_of d !! (Auth.org p, Auth.subject p) = Some m -> m_role m = "owner" ->
  validate_and_fill body = Ok (inr draft) -> is_primary draft = true -> char_in 3 (currency_of draft) = Some cur ->
  (forall j b, accounts d !! j = Some b -> a_org b = Auth.org p -> iik b <> iik draft) ->
  exists id a d', alone (createBankAccount (Some p) (Some body)) d = (Ok (wrapped 201 (account_json id a)), d') /\
    accounts d !! id = None /\ iik a = iik draft /\ find_primary (Auth.org p) d' = (Ok (Some (id, a)), d') /\
    forall j b, accounts d !! j = Some b -> accounts d' !! j = Some (if String.eqb (a_org b) (Auth.org p) && is_primary b then unset_primary b else b).
Proof.
  intros G Hs Ho Hx Hm Hr Hv Hp Hc Hi. set (id := gen_random_uuid (seq d)).
  set (a := mkAccount (Auth.org p) (iik draft) (bank_name draft) (bik draft) (kbe draft) cur (is_primary draft) (now d)).
  set (l := clear_primary (Auth.org p) None (accounts d)). set (d' := next_id (with_accounts (fun _ => <[id := a]> l) d)).
  assert (forall j b, accounts d !! j = Some b -> l !! j = Some (if String.eqb (a_org b) (Auth.org p) && is_primary b then unset_primary b else b)) as Hl.
  { intros j b Hj. unfold l. rewrite clear_primary_lookup, Hj. unfold cleared. cbn [fmap option_fmap option_map]. by rewrite bool_decide_false, andb_true_r. }
  assert (free id a l = true) as Hf.
  { apply free_spec. intros j b Hj _. unfold l in Hj. rewrite clear_primary_lookup in Hj. destruct (accounts d !! j) as [b0|] eqn:Ej; [|discriminate].
    specialize (Hl j b0 Ej). unfold l in Hl. rewrite clear_primary_lookup, Ej, Hj in Hl. injection Hl as ->. unfold clashes. cbn [a_org a iik is_primary].
    destruct (String.eqb_spec (a_org b0) (Auth.org p)) as [E|E]; cbn [andb].
    - set (b1 := if is_primary b0 then _ else _).
      assert (iik b1 = iik b0 /\ is_primary b1 = false) as [-> ->] by (unfold b1; by destruct (is_primary b0) eqn:Eb).
      rewrite (proj2 (String.eqb_neq (iik draft) (iik b0))), andb_false_r; [apply andb_false_r|]. by intros C%eq_sym%(Hi j b0 Ej E).
    - by rewrite (proj2 (String.eqb_neq _ _)) by congruence. }
  assert (create_account (Auth.org p) draft d = (Ok (id, a), d')) as Ecr.
  { unfold create_account. apply translate_ok. cbv zeta. rewrite Hc. fold id a. rewrite Hp. fold l. by rewrite Hf, (bool_decide_true _ Hx). }
  assert (accounts d !! id = None) as Hid by (by apply G).
  assert (accounts d' !! id = Some a) as Ha by apply lookup_insert_eq.
  exists id, a, d'. split; [|split; [done|]; split; [done|]; split].
  - unfold createBankAccount, org_scoped. rewrite alone_context. cbn [mbind option_bind].
    rewrite (proj2 (String.eqb_neq _ _) Hs), (proj2 (String.eqb_neq _ _) Ho), Hm. cbn [orb mbind option_bind role ctx_org]. rewrite Hr.
    change (Agent.allows "owner" "requisites" "write") with true. cbn iota. rewrite Hv. cbn [pure mbind prog_bind prog_bind_].
    unfold with_repo_errors. rewrite alone_catch. change (prog_bind_ ?k ?m) with (m ≫= k). by rewrite (alone_step _ _ _ _ _ Ecr).
  - unfold find_primary, gets. do 2 f_equal. destruct (create_account_keeps (Auth.org p) draft d G) as [G' _]. rewrite Ecr in G'. cbn [snd] in G'.
    set (L := List.filter _ _). assert (forall e, e ∈ L <-> accounts d' !! e.1 = Some e.2 /\ a_org e.2 = Auth.org p /\ is_primary e.2 = true) as HL.
    { intros [j b]. unfold L, of_org. rewrite list_elem_of_In, !filter_In, <- list_elem_of_In, elem_of_map_to_list, String.eqb_eq. cbn [fst snd]. tauto. }
    destruct L as [|[j b] r]; [exfalso; apply (not_elem_of_nil (id, a)), HL; done|]. cbn [head].
    destruct (proj1 (HL (j, b)) (list_elem_of_here _ _)) as (Hj & Hb1 & Hb2). cbn [fst snd] in *.
    destruct (decide (j = id)) as [->|Hn]; [congruence|]. pose proof (accounts_distinct d' G' j id b a Hj Ha Hn) as F.
    unfold clashes in F. cbn [a_org a is_primary] in F. by rewrite Hb1, Hb2, Hp, String.eqb_refl, orb_true_r in F.
  - intros j b Hj. cbn [accounts d' next_id with_accounts]. rewrite lookup_insert_ne by congruence. by apply Hl.
Qed.

End Repositories.

(** ** Runs *)

Module Example.
Import JournalDb.Reference.
#[local] Existing Instance uuid_server.

#[refine] Instance ascii_text : PgText := { ci := lower_all; uuid_in s := if is_valid_uuid s then Some (uuid_key s) else None }.
Proof. by intros s ->. Defined.

Definition the_org : string := id_text 0.
Definition anna : string := id_text 1.
Definition boris : string := id_text 2.
Definition account_a : string := id_text 3.
Definition account_b : string := id_text 4.

Definition user_of (address : string) : User := mkUser address None None None true 1 0.
Definition account_of (number : string) (prim : bool) : BankAccount := mkAccount the_org number "Bank" "" "" "KZT" prim 0.
Definition store : DB :=
  mkDB {[the_org := mkOrganization "123456789012" "TOO" "snr_simplified" false "active" "" "" "" "" 0]}
    {[(the_org, anna) := mkMember (id_text 5) "owner" 1; (the_org, boris) := mkMember (id_text 6) "owner" 2]}
    {[account_a := account_of "KZ01" true; account_b := account_of "KZ02" false]}
    {[anna := user_of "anna@b.kz"; boris := user_of "boris@b.kz"]} {[1 := mkRole "User" 1 true]} ∅ 10 100.

Definition by_user (u : string) : option Auth.AuthPrincipal := Some (Auth.mkPrincipal u [] [] the_org JNull).

Definition owners (d : DB) : nat := length (List.filter is_owner (map_to_list (members_of d))).
Definition primaries (d : DB) : list string := map fst (List.filter (fun e => is_primary e.2) (map_to_list (accounts d))).
Definition statuses (ps : list (prog DB Reply)) : list Z := map (fun p => match p with Done (Ok r) => http r | _ => 0 end) ps.
Definition run (order : list nat) (rs : list request) : DB * list (prog DB Reply) := schedule order (store, map serve rs).

Definition set_primary (b : bool) : option json := Some (JObject [("is_primary", JBool b)]).

(** Two owners step down at the same time: each counts two. *)
Example owners_race :
  let '(d, ps) := run [0; 1; 0; 1; 0; 1; 0; 1]%nat [RemoveMember None (by_user anna) the_org anna; RemoveMember None (by_user boris) the_org boris] in
  (owners d, statuses ps) = (0%nat, [200; 200]).
Proof. vm_compute. reflexivity. Qed.

(** An account made primary is deleted between the two steps of the request: the old
    primary has lost its flag, though the answer is 404. *)
Example primary_lost :
  let '(d, ps) := run [0; 0; 1; 1; 0]%nat [PatchAccount (by_user anna) account_b (set_primary true); DeleteAccount (by_user boris) account_b] in
  (primaries d, statuses ps) = ([], [404; 200]).
Proof. vm_compute. reflexivity. Qed.

(** A change of the name of the bank writes back the flag it read, and takes the primary
    account back from the one made primary meanwhile. *)
Example flag_written_back :
  let '(d, ps) := run [0; 0; 1; 1; 1; 0]%nat
    [PatchAccount (by_user anna) account_a (Some (JObject [("bank_name", JString "New")])); PatchAccount (by_user boris) account_b (set_primary true)] in
  (primaries d, statuses ps) = ([account_a], [200; 200]).
Proof. vm_compute. reflexivity. Qed.

(** A member removed while the role is changed: the answer dereferences nothing. *)
Example role_of_nobody :
  let '(_, ps) := run [0; 0; 0; 0; 1; 1; 1; 1; 0; 0]%nat
    [UpdateRole None (by_user anna) the_org boris (Some (JObject [("role", JString "hr")])); RemoveMember None (by_user anna) the_org boris] in
  ps !! 0%nat = Some (Done Undef).
Proof. vm_compute. reflexivity. Qed.

(** An unknown user is a foreign key error, and an internal one for the client. *)
Example unknown_user : (alone (serve (AddMember None (by_user anna) the_org
  (Some (JObject [("role", JString "hr"); ("user_id", JString (id_text 7))])))) store).1 = Ok (refusal 500 "internal_error").
Proof. vm_compute. reflexivity. Qed.

Lemma store_good : good store.
Proof.
  assert (forall n, (10 <= n)%nat -> forall k, (k < 10)%nat -> id_text k <> id_text n) as Hid by (intros n Hn k Hk E%id_text_inj; lia).
  constructor; cbn [accounts orgs members_of users roles keys seq store].
  - intros i a [[<- <-]|[_ [<- <-]%lookup_singleton_Some]]%lookup_insert_Some; by eexists.
  - intros i j a b [[<- <-]|[_ [<- <-]%lookup_singleton_Some]]%lookup_insert_Some [[<- <-]|[_ [<- <-]%lookup_singleton_Some]]%lookup_insert_Some; done.
  - intros k m [[<- <-]|[_ [<- <-]%lookup_singleton_Some]]%lookup_insert_Some; (split; [done|]; split; by eexists).
  - intros i j a b [<- _]%lookup_singleton_Some [<- _]%lookup_singleton_Some. done.
  - intros i j a b [[<- <-]|[_ [<- <-]%lookup_singleton_Some]]%lookup_insert_Some [[<- <-]|[_ [<- <-]%lookup_singleton_Some]]%lookup_insert_Some; done.
  - intros i u [[<- <-]|[_ [<- <-]%lookup_singleton_Some]]%lookup_insert_Some; by eexists.
  - intros i j a b [<- _]%lookup_singleton_Some [<- _]%lookup_singleton_Some. done.
  - intros i k H. by rewrite lookup_empty in H.
  - intros i j a b H. by rewrite lookup_empty in H.
  - intros n Hn. split; [apply lookup_singleton_ne, Hid; [done | lia]|].
    rewrite lookup_insert_ne by (apply Hid; [done | lia]). apply lookup_singleton_ne, Hid; [done | lia].
  - intros n Hn. split; [|split; [apply lookup_empty | apply lookup_singleton_ne; lia]].
    rewrite lookup_insert_ne by (apply Hid; [done | lia]). apply lookup_singleton_ne, Hid; [done | lia].
Qed.

(** Two members of the organization at work. *)
Lemma run_reached order rs : rtc (turn (fun _ p => exists r, p = serve r)) (store, []) ((run order rs).1, (run order rs).2).
Proof. rewrite <- surjective_pairing. apply schedule_reached. induction rs; constructor; eauto. Qed.

Lemma tenancy_kept_witness : evolves store (run [0; 0; 1; 1; 0]%nat
  [PatchAccount (by_user anna) account_b (set_primary true); DeleteAccount (by_user boris) account_b]).1.
Proof. exact (proj1 (tenancy_kept store _ _ store_good (run_reached _ _))). Defined.

Lemma last_owner_kept_witness : owned the_org (alone (serve (RemoveMember None (by_user anna) the_org anna)) store).2.
Proof. apply last_owner_kept. exists anna, (mkMember (id_text 5) "owner" 1). split; reflexivity. Defined.

End Example.


End Tenancy.
