(* ===== verification/Accounts.v ===== *)
(** * Accounts and sessions

    Users, roles and API keys (src/domain/, src/repositories/ over the tables of
    migrations/001_users_and_roles.sql, 002_used_tokens.sql and 005_api_keys.sql), the
    session store (src/security/SessionStore.hpp), and the handlers of
    src/api/AuthController.hpp, AccountController.hpp, AdminController.hpp and
    ApiKeyController.hpp with the switching of src/api/OrganizationsController.hpp, as
    programs whose steps interleave. *)
From Stdlib Require Import ZArith Lia Ascii String.
From stdpp Require Import relations sorting.
From S2P Require Import Prelude JournalDb Json Utils Threads Agent Requests Auth Tenancy.
Import Json Threads Http Requests Tenancy.
Open Scope string_scope.
Open Scope Z_scope.
Set Warnings "-clear-no-such-hyp".

Module Accounts.

(** ** Users *)

Definition or_null (o : option string) : json := match o with Some s => JString s | None => JNull end.

(** [to_json]: src/domain/Role.hpp:69-76. *)
Definition role_json (id : Z) (r : Role) : json :=
  JObject [("id", JInt id); ("is_default", JBool (r_default r)); ("name", JString (r_name r)); ("permissions", JInt (r_permissions r))].

(** [full_name]: src/domain/User.hpp:58-67. *)
Definition full_name (u : User) : string :=
  let text o := match o with Some s => s | None => "" end in
  let out := text (first_name u) +:+ (match first_name u, last_name u with Some _, Some _ => " " | _, _ => "" end) +:+ text (last_name u) in
  if String.eqb out "" then email u else out.

(** [to_json]: src/domain/User.hpp:83-98.  (Time stamps left out.) *)
Definition user_json (id : string) (u : User) (r : option Role) : json :=
  let fields := [("confirmed", JBool (confirmed u)); ("email", JString (email u)); ("first_name", or_null (first_name u));
                 ("full_name", JString (full_name u)); ("id", JString id); ("last_name", or_null (last_name u));
                 ("role_id", JInt (role_id u))] in
  JObject (match r with Some r => obj_set "role" (role_json (role_id u) r) fields | None => fields end).

(** A user as a query returns it: the identifier, the row, the role joined to it. *)
Definition Loaded : Type := string * User * Role.
Definition loaded_json (l : Loaded) : json := user_json l.1.1 l.1.2 (Some l.2).

Section Repositories.
Context `{PG : Postgres} `{TX : PgText}.

Definition joined (id : string) (d : DB) : option Loaded := u ← users d !! id; r ← roles d !! role_id u; Some (id, u, r).

(** [find]: src/repositories/UserRepository.hpp:71-79. *)
Definition find_user (id : string) : st DB (option Loaded) := gets (joined id).

Definition newer_user (a b : Loaded) : bool := u_created b.1.2 <? u_created a.1.2.

(** [list]: src/repositories/UserRepository.hpp:90-100. *)
Definition list_users (limit offset : nat) : st DB (list Loaded) := gets (fun d =>
  take limit (drop offset (stable_sort newer_user (omap (fun e => joined e.1 d) (map_to_list (users d)))))).

(** [count]: src/repositories/UserRepository.hpp:287-292. *)
Definition count_users : st DB Z := gets (fun d => Z.of_nat (base.size (users d))).

Definition email_taken : exn := Exn DuplicateEmail "email_taken".
Definition on_email (ss : string) : option exn := if String.eqb ss "23505" then Some email_taken else None.
Definition user_gone : exn := Exn NotFoundError "user".

(** UNIQUE (email), whatever the case. *)
Definition email_free (id address : string) (d : DB) : bool :=
  negb (existsb (fun e => negb (String.eqb e.1 id) && String.eqb (ci (email e.2)) (ci address)) (map_to_list (users d))).

(** A nullable VARCHAR(64). *)
Definition name_in (o : option string) : option (option string) :=
  match o with None => Some None | Some s => Some <$> varchar_in 64 s end.

(** [create]: src/repositories/UserRepository.hpp:109-138. *)
Definition create_user (address : string) (hash first last : option string) (rid : Z) (conf : bool) : st DB (string * User) :=
  translate_sql on_email (fun d =>
    match name_in first, name_in last with
    | Some f, Some l =>
        let id := gen_random_uuid (seq d) in
        let u := mkUser address hash f l conf rid (now d) in
        if negb (email_free id address d) then sql_error "23505" d
        else if negb (bool_decide (is_Some (roles d !! rid))) then sql_error "23503" d
        else (Ok (id, u), next_id (with_users (insert id u) d))
    | _, _ => sql_error "22001" d
    end).

(** UPDATE users SET ... WHERE id = $: the row written, or the exception when there is none. *)
Definition set_user (id : string) (f : User -> User) : st DB () := fun d =>
  match users d !! id with Some u => (Ok tt, with_users (insert id (f u)) d) | None => (Throw user_gone, d) end.

(** [update_password_hash]: src/repositories/UserRepository.hpp:140-147. *)
Definition update_password_hash (id h : string) : st DB () :=
  set_user id (fun u => mkUser (email u) (Some h) (first_name u) (last_name u) (confirmed u) (role_id u) (u_created u)).

(** [mark_confirmed]: src/repositories/UserRepository.hpp:157-162. *)
Definition mark_confirmed (id : string) : st DB bool := fun d =>
  match users d !! id with
  | Some u => (Ok true, with_users (insert id (mkUser (email u) (password_hash u) (first_name u) (last_name u) true (role_id u) (u_created u))) d)
  | None => (Ok false, d)
  end.

(** [redeem_invite]: src/repositories/UserRepository.hpp:174-183. *)
Definition redeem_invite (id h : string) : st DB bool := fun d =>
  match users d !! id with
  | Some u =>
      if negb (confirmed u) && negb (bool_decide (is_Some (password_hash u))) then
        (Ok true, with_users (insert id (mkUser (email u) (Some h) (first_name u) (last_name u) true (role_id u) (u_created u))) d)
      else (Ok false, d)
  | None => (Ok false, d)
  end.

(** [change_email]: src/repositories/UserRepository.hpp:189-203. *)
Definition change_email (id address : string) : st DB () :=
  translate_sql on_email (fun d =>
    match users d !! id with
    | Some u =>
        if email_free id address d then
          (Ok tt, with_users (insert id (mkUser address (password_hash u) (first_name u) (last_name u) (confirmed u) (role_id u) (u_created u))) d)
        else sql_error "23505" d
    | None => (Throw user_gone, d)
    end).

Definition coalesce {A} (new : option A) (old : A) : A := match new with Some a => a | None => old end.
Definition coalesce_o {A} (new old : option A) : option A := match new with Some a => Some a | None => old end.

(** [update_names]: src/repositories/UserRepository.hpp:209-225. *)
Definition update_names (id : string) (first last : option string) : st DB () := fun d =>
  match users d !! id with
  | Some u =>
      match name_in first, name_in last with
      | Some f, Some l => (Ok tt, with_users (insert id (mkUser (email u) (password_hash u) (coalesce_o f (first_name u)) (coalesce_o l (last_name u))
                                                          (confirmed u) (role_id u) (u_created u))) d)
      | _, _ => sql_error "22001" d
      end
  | None => (Throw user_gone, d)
  end.

(** [change_role]: src/repositories/UserRepository.hpp:266-273. *)
Definition change_user_role (id : string) (rid : Z) : st DB () := fun d =>
  match users d !! id with
  | Some u =>
      if bool_decide (is_Some (roles d !! rid)) then
        (Ok tt, with_users (insert id (mkUser (email u) (password_hash u) (first_name u) (last_name u) (confirmed u) rid (u_created u))) d)
      else sql_error "23503" d
  | None => (Throw user_gone, d)
  end.

(** [admin_update]: src/repositories/UserRepository.hpp:235-264. *)
Definition admin_update (id : string) (address : option string) (rid : option Z) (first last : option string) : st DB () :=
  translate_sql on_email (fun d =>
    match users d !! id with
    | Some u =>
        match name_in first, name_in last with
        | Some f, Some l =>
            let u' := mkUser (coalesce address (email u)) (password_hash u) (coalesce_o f (first_name u)) (coalesce_o l (last_name u))
                        (confirmed u) (coalesce rid (role_id u)) (u_created u) in
            if negb (email_free id (email u') d) then sql_error "23505" d
            else if negb (bool_decide (is_Some (roles d !! role_id u'))) then sql_error "23503" d
            else (Ok tt, with_users (insert id u') d)
        | _, _ => sql_error "22001" d
        end
    | None => (Throw user_gone, d)
    end).

(** [remove]: src/repositories/UserRepository.hpp:275-282.  ON DELETE CASCADE takes the memberships and the keys along. *)
Definition remove_user (id : string) : st DB () := fun d =>
  match users d !! id with
  | Some _ =>
      (Ok tt, with_keys (filter (fun e => key_user e.2 <> id)) (with_members (filter (fun e => e.1.2 <> id)) (with_users (delete id) d)))
  | None => (Throw user_gone, d)
  end.

(** ** Roles *)

Definition role_exists : exn := Exn DuplicateRole "role_exists".
Definition role_gone : exn := Exn NotFoundError "role".
Definition role_in_use : exn := Exn RoleInUse "role_in_use".

(** [find]: src/repositories/CrudBase.hpp:56-64.  Of a role. *)
Definition find_role (id : Z) : st DB (option Role) := gets (fun d => roles d !! id).

(** [list]: src/repositories/CrudBase.hpp:66-76.  Of the roles, in the order of their identifiers. *)
Definition list_roles (limit : nat) : st DB (list (Z * Role)) :=
  gets (fun d => take limit (stable_sort (fun a b => a.1 <? b.1) (map_to_list (roles d)))).

Definition defaults (d : DB) : list (Z * Role) := List.filter (fun e => r_default e.2) (map_to_list (roles d)).

(** [find_default]: src/repositories/RoleRepository.hpp:60-69. *)
Definition find_default : st DB (option (Z * Role)) := gets (fun d => head (defaults d)).

(** [find_by_name]: src/repositories/RoleRepository.hpp:46-54. *)
Definition find_role_by_name (nm : string) : st DB (option (Z * Role)) :=
  gets (fun d => List.find (fun e => String.eqb (r_name e.2) nm) (map_to_list (roles d))).

Definition undefault (keep : option Z) (l : gmap Z Role) : gmap Z Role :=
  map_imap (fun id r => Some (if r_default r && negb (bool_decide (keep = Some id)) then mkRole (r_name r) (r_permissions r) false else r)) l.

(** No role but [id] stands in the way of this one. *)
Definition role_free (id : Z) (r : Role) (l : gmap Z Role) : bool :=
  negb (existsb (fun e => negb (Z.eqb e.1 id) && role_clashes r e.2) (map_to_list l)).

Definition on_role_name (ss : string) : option exn := if String.eqb ss "23505" then Some role_exists else None.

(** [create]: src/repositories/RoleRepository.hpp:78-97.  Identifiers of a SERIAL are drawn from the counter. *)
Definition create_role (nm : string) (permissions : Z) (is_default : bool) : st DB (Z * Role) :=
  translate_sql on_role_name (fun d =>
    let l := if is_default then undefault None (roles d) else roles d in
    match varchar_in 64 nm with
    | None => sql_error "22001" d
    | Some n =>
        let id := Z.of_nat (seq d) in
        let r := mkRole n permissions is_default in
        if role_free id r l then (Ok (id, r), next_id (with_roles (fun _ => <[id := r]> l) d)) else sql_error "23505" d
    end).

(** [update]: src/repositories/RoleRepository.hpp:104-135. *)
Definition update_role (id : Z) (nm : option string) (permissions : option Z) (is_default : option bool) : st DB Role :=
  translate_sql on_role_name (fun d =>
    let l := if coalesce is_default false then undefault (Some id) (roles d) else roles d in
    match l !! id with
    | None => (Throw role_gone, d)
    | Some old =>
        match (match nm with None => Some None | Some s => Some <$> varchar_in 64 s end) with
        | None => sql_error "22001" d
        | Some n =>
            let r := mkRole (coalesce n (r_name old)) (coalesce permissions (r_permissions old)) (coalesce is_default (r_default old)) in
            if role_free id r l then (Ok r, with_roles (fun _ => <[id := r]> l) d) else sql_error "23505" d
        end
    end).

(** [remove]: src/repositories/RoleRepository.hpp:142-156. *)
Definition remove_role (id : Z) : st DB () :=
  translate_sql (fun ss => if String.eqb ss "23503" then Some role_in_use else None) (fun d =>
    match roles d !! id with
    | None => (Throw role_gone, d)
    | Some _ => if existsb (fun e => Z.eqb (role_id e.2) id) (map_to_list (users d)) then sql_error "23503" d
                else (Ok tt, with_roles (delete id) d)
    end).

(** ** API keys *)

(** [to_json]: src/domain/ApiKey.hpp:41-49.  (The time stamps as whether there is one.) *)
Definition key_json (id : string) (k : ApiKey) : json :=
  JObject [("id", JString id); ("name", JString (key_name k)); ("prefix", JString (key_prefix k));
           ("revoked_at", match key_revoked k with Some z => JInt z | None => JNull end)].

(** [create]: src/repositories/ApiKeyRepository.hpp:25-40. *)
Definition create_key (user nm hash prefix : string) : st DB (string * ApiKey) := fun d =>
  let id := gen_random_uuid (seq d) in
  let k := mkApiKey user nm hash prefix None (now d) in
  if existsb (fun e => String.eqb (key_hash e.2) hash) (map_to_list (keys d)) then sql_error "23505" d
  else if negb (bool_decide (is_Some (users d !! user))) then sql_error "23503" d
  else (Ok (id, k), next_id (with_keys (insert id k) d)).

(** [list_for_user]: src/repositories/ApiKeyRepository.hpp:42-53. *)
Definition list_keys (user : string) : st DB (list (string * ApiKey)) := gets (fun d =>
  stable_sort (fun a b => key_created b.2 <? key_created a.2) (List.filter (fun e => String.eqb (key_user e.2) user) (map_to_list (keys d)))).

(** [revoke]: src/repositories/ApiKeyRepository.hpp:57-66. *)
Definition revoke_key (id user : string) : st DB bool := fun d =>
  match uuid_in id with
  | None => sql_error "22P02" d
  | Some i =>
      match keys d !! i with
      | Some k =>
          if String.eqb (key_user k) user && negb (bool_decide (is_Some (key_revoked k))) then
            (Ok true, with_keys (insert i (mkApiKey (key_user k) (key_name k) (key_hash k) (key_prefix k) (Some (now d)) (key_created k))) d)
          else (Ok false, d)
      | None => (Ok false, d)
      end
  end.

(** [authenticate]: src/security/ApiKeys.hpp:88-100.  The rows the query finds, by the hash of the key. *)
Definition key_rows (d : DB) : gmap string Auth.KeyRow :=
  list_to_map (omap (fun e : string * ApiKey =>
    l ← joined (key_user e.2) d;
    Some (key_hash e.2, Auth.mkKey (key_user e.2) (r_permissions l.2) (bool_decide (is_Some (key_revoked e.2))))) (map_to_list (keys d))).

End Repositories.

(** ** Passwords and random texts *)

(** What libsodium promises: a salted hash (the number of the draw is its salt) verifies
    against its password and is shorter than its buffer; and random texts of some bytes,
    never the same twice. *)
Class Secrets := {
  argon2id : nat -> string -> string;
  argon2id_verify : string -> string -> bool;
  random_hex : nat -> nat -> string;
  argon2id_verifies : forall n p, argon2id_verify p (argon2id n p) = true;
  argon2id_size : forall n p, (0 < size (argon2id n p) < 128)%nat;
  random_hex_fresh : forall m n k, (0 < k)%nat -> random_hex m k = random_hex n k -> m = n;
  random_hex_utf8 : forall n k, utf8 (random_hex n k) = true
}.

(** [verify]: src/security/Password.hpp:75-86. *)
Definition verify_password `{SC : Secrets} (plaintext stored : string) : bool :=
  if String.eqb plaintext "" || String.eqb stored "" then false
  else if Nat.leb 128 (size stored) then false
  else argon2id_verify plaintext stored.

(** ** The store *)

Record Mail := mkMail { mail_to : string; mail_kind : string; mail_token : string }.

(** The database; [used_tokens], a hash and the time its record expires; the refresh tokens that are live, with
    the time their key expires, and the set of them that each user has, with its time;
    whether Redis, the queue and the mail server answer; jobs queued and mails sent;
    the clock, and how many random texts have been drawn. *)
Record World := mkWorld {
  db : DB; used : gmap string Z; live : gmap string Z; indexed : gmap string (gset string * option Z);
  redis_up : bool; queue_up : bool; smtp_up : bool; mail_jobs : list json; outbox : list Mail; clock : Z; draws : nat
}.

Definition with_db (d : DB) (w : World) : World :=
  mkWorld d (used w) (live w) (indexed w) (redis_up w) (queue_up w) (smtp_up w) (mail_jobs w) (outbox w) (clock w) (draws w).
Definition with_used (u : gmap string Z) (w : World) : World :=
  mkWorld (db w) u (live w) (indexed w) (redis_up w) (queue_up w) (smtp_up w) (mail_jobs w) (outbox w) (clock w) (draws w).
Definition with_live (f : gmap string Z -> gmap string Z) (w : World) : World :=
  mkWorld (db w) (used w) (f (live w)) (indexed w) (redis_up w) (queue_up w) (smtp_up w) (mail_jobs w) (outbox w) (clock w) (draws w).
Definition with_indexed (f : gmap string (gset string * option Z) -> gmap string (gset string * option Z)) (w : World) : World :=
  mkWorld (db w) (used w) (live w) (f (indexed w)) (redis_up w) (queue_up w) (smtp_up w) (mail_jobs w) (outbox w) (clock w) (draws w).
Definition with_jobs (l : list json) (w : World) : World :=
  mkWorld (db w) (used w) (live w) (indexed w) (redis_up w) (queue_up w) (smtp_up w) l (outbox w) (clock w) (draws w).
Definition with_outbox (l : list Mail) (w : World) : World :=
  mkWorld (db w) (used w) (live w) (indexed w) (redis_up w) (queue_up w) (smtp_up w) (mail_jobs w) l (clock w) (draws w).
Definition drawn (w : World) : World :=
  mkWorld (db w) (used w) (live w) (indexed w) (redis_up w) (queue_up w) (smtp_up w) (mail_jobs w) (outbox w) (clock w) (S (draws w)).

(** A transaction on the database. *)
Definition sql {A} (m : st DB A) : st World A := fun w => let '(r, d) := m (db w) in (r, with_db d w).

Definition now_s : st World Z := gets clock.

(** ** The session store *)

Section Sessions.
(** [cache_ready]: the cache is initialized. *)
Context (cache_ready : bool).

Definition redis_error {A} : st World A := throw std_runtime_error "redis".

(** SET of a live marker, SADD and EXPIRE of the user's set, SMEMBERS, DEL; keys are named by what follows the prefix. *)
Definition set_live (jti : string) (ttl : Z) : st World bool := fun w =>
  if redis_up w then (Ok true, with_live (insert jti (clock w + ttl)) w) else (Ok false, w).
Definition expired (e : option Z) (t : Z) : bool := match e with Some e => e <=? t | None => false end.
Definition members_now (sub : string) (w : World) : gset string * option Z :=
  match indexed w !! sub with Some (s, e) => if expired e (clock w) then (∅, None) else (s, e) | None => (∅, None) end.
Definition sadd (sub jti : string) : st World () := fun w =>
  if redis_up w then (Ok tt, with_indexed (insert sub (let '(s, e) := members_now sub w in ({[jti]} ∪ s, e))) w) else redis_error w.
Definition expire_set (sub : string) (ttl : Z) : st World () := fun w =>
  if redis_up w then (Ok tt, with_indexed (insert sub ((members_now sub w).1, Some (clock w + ttl))) w) else redis_error w.
Definition smembers (sub : string) : st World (gset string) := fun w =>
  if redis_up w then (Ok (members_now sub w).1, w) else redis_error w.
Definition del_live (jti : string) : st World () := fun w => (Ok tt, if redis_up w then with_live (delete jti) w else w).
Definition del_set (sub : string) : st World () := fun w =>
  if redis_up w then (Ok tt, with_indexed (delete sub) w) else redis_error w.

Definition swallow {A} (a : A) (p : prog World A) : prog World A := catch (fun _ => Ok a) p.

(** [record]: src/security/SessionStore.hpp:39-54. *)
Definition record (sub jti : string) (ttl : Z) : prog World bool :=
  if negb cache_ready then mret false
  else
    written ← atomic (set_live jti ttl);
    if negb written then mret false
    else _ ← swallow tt (_ ← atomic (sadd sub jti); atomic (expire_set sub ttl)); mret true.

Definition is_live_in (w : World) (jti : string) : bool :=
  match live w !! jti with Some e => negb (e <=? clock w) | None => false end.

(** [is_live]: src/security/SessionStore.hpp:56-64. *)
Definition is_live (jti : string) : prog World bool :=
  if cache_ready then atomic (gets (fun w => redis_up w && is_live_in w jti)) else mret false.

(** [revoke_jti]: src/security/SessionStore.hpp:66-71. *)
Definition revoke_jti (jti : string) : prog World () := if cache_ready then atomic (del_live jti) else mret tt.

(** [revoke_all]: src/security/SessionStore.hpp:88-92. *)
Fixpoint del_each (jtis : list string) : prog World () :=
  match jtis with [] => mret tt | j :: r => _ ← atomic (del_live j); del_each r end.

(** [revoke_all]: src/security/SessionStore.hpp:81-95. *)
Definition revoke_all (sub : string) : prog World () :=
  if negb cache_ready then mret tt
  else swallow tt (jtis ← atomic (smembers sub); _ ← del_each (elements jtis); atomic (del_set sub)).

End Sessions.

Section Handlers.
Context `{PG : Postgres} `{TP : PgText} `{SC : Secrets} `{CR : Crypto} `{TX : JsonText}.
(** [cfg]: the configuration, with authentication initialized; [via_jobs]: mails go through the queue. *)
Context (cfg : Auth.AuthConfig) (cache_ready via_jobs : bool).

(** [hash]: src/security/Password.hpp:52-68. *)
Definition hash_password (plaintext : string) : prog World string :=
  if String.eqb plaintext "" then pure (Throw (Exn std_invalid_argument "password must be non-empty"))
  else atomic (fun w => (Ok (argon2id (draws w) plaintext), drawn w)).

(** [make_jti]: src/api/AuthController.hpp:294-294. *)
Definition make_jti : st World string := fun w => (Ok (random_hex (draws w) 16), drawn w).

(** ** Mails (src/email/AccountEmails.hpp) *)

Inductive Kind := MailConfirm | MailReset | MailChange | MailInvite.

(** [send_confirm], [send_reset], [send_change_email], [send_invite]: src/email/AccountEmails.hpp:185-199. *)
Definition kind_text (k : Kind) : string :=
  match k with MailConfirm => "confirm" | MailReset => "reset_password" | MailChange => "change_email" | MailInvite => "invite" end.
Definition kind_of (s : string) : option Kind :=
  if String.eqb s "confirm" then Some MailConfirm else if String.eqb s "reset_password" then Some MailReset
  else if String.eqb s "change_email" then Some MailChange else if String.eqb s "invite" then Some MailInvite else None.
Definition purpose_of (k : Kind) : Tokens.Purpose :=
  match k with MailConfirm => Tokens.Confirm | MailReset => Tokens.ResetPassword | MailChange => Tokens.ChangeEmail | MailInvite => Tokens.Invite end.
Definition mail_ttl (k : Kind) : Z := match k with MailConfirm | MailInvite => 24 * 7 * 3600 | MailReset | MailChange => 3600 end.

Definition send (m : Mail) : st World () := fun w =>
  if smtp_up w then (Ok tt, with_outbox (outbox w ++ [m])%list w) else throw std_runtime_error "SMTP send failed" w.

(** [deliver_now]: src/email/AccountEmails.hpp:111-142.  The mail carries the token of its link. *)
Definition deliver_now (k : Kind) (id : string) (u : User) (new_email : string) : prog World () :=
  t ← atomic now_s;
  token ← pure (Tokens.issue (Auth.jwt_secret cfg) id (purpose_of k) t (mail_ttl k)
                  (match k with MailChange => JObject [("new_email", JString new_email)] | _ => JObject [] end));
  atomic (send (mkMail (match k with MailChange => new_email | _ => email u end) (kind_text k) token)).

(** [dispatch]: src/email/AccountEmails.hpp:161-163. *)
Definition mail_payload (k : Kind) (id new_email : string) : json :=
  let fields := [("kind", JString (kind_text k)); ("user_id", JString id)] in
  JObject (if String.eqb new_email "" then fields else obj_set "new_email" (JString new_email) fields).

Definition submit_mail (payload : json) : st World bool := fun w =>
  if queue_up w then (Ok true, with_jobs (mail_jobs w ++ [payload])%list w) else (Ok false, w).

(** [dispatch]: src/email/AccountEmails.hpp:158-181. *)
Definition dispatch (k : Kind) (id : string) (u : User) (new_email : string) : prog World () :=
  queued ← (if via_jobs then atomic (submit_mail (mail_payload k id new_email)) else mret false);
  if (queued : bool) then mret tt else swallow tt (deliver_now k id u new_email).

Definition at_text (k : string) (payload : json) : outcome string :=
  match payload with
  | JObject l => match obj_get k l with Some j => get_string j | None => Throw (Exn json_out_of_range k) end
  | _ => type_error
  end.

(** [process_job]: src/email/AccountEmailWorker.hpp:29-46. *)
Definition process_mail (payload : json) : prog World json :=
  kind ← pure (at_text "kind" payload);
  id ← pure (at_text "user_id" payload);
  user ← atomic (sql (find_user id));
  match user with
  | None => mret (JObject [("kind", JString kind); ("skipped", JString "user_not_found"); ("user_id", JString id)])
  | Some l =>
      new_email ← pure (value_string "new_email" "" payload);
      match kind_of kind with
      | None => pure (Throw (Exn std_runtime_error "unknown account email kind"))
      | Some k =>
          _ ← deliver_now k id l.1.2 new_email;
          mret (JObject [("sent", JString kind); ("to", JString (match k with MailChange => new_email | _ => email l.1.2 end))])
      end
  end.

(** ** Sessions (src/api/AuthController.hpp) *)

Record Session := mkSession { access : string; refresh_token : string }.

(** Insertion of an initializer list: a key already there stays. *)
Definition emplace (k : string) (v : json) (l : list (string * json)) : list (string * json) :=
  match obj_get k l with Some _ => l | None => obj_set k v l end.

(** [mint_session]: src/api/AuthController.hpp:310-354.  The claims of an access token, which [switchOrg] writes too. *)
Definition access_claims (l : Loaded) (t until : Z) (org : option string) : json :=
  let base := emplace (Auth.jwt_roles_claim cfg) (JArray [JString (r_name l.2)])
    [("confirmed", JBool (confirmed l.1.2)); ("exp", JInt until); ("iat", JInt t); ("permissions", JInt (r_permissions l.2));
     ("sub", JString l.1.1); ("typ", JString "access")] in
  let base := match org with Some o => obj_set "org" (JString o) base | None => base end in
  let base := if String.eqb (Auth.jwt_issuer cfg) "" then base else obj_set "iss" (JString (Auth.jwt_issuer cfg)) base in
  JObject (if String.eqb (Auth.jwt_audience cfg) "" then base else obj_set "aud" (JString (Auth.jwt_audience cfg)) base).

(** [mint_session]: src/api/AuthController.hpp:355-362. *)
Definition refresh_claims (id jti : string) (t until : Z) : json :=
  JObject [("exp", JInt until); ("iat", JInt t); ("jti", JString jti); ("sub", JString id); ("typ", JString "refresh")].

(** [mint_session]: src/api/AuthController.hpp:302-380. *)
Definition mint_session (l : Loaded) : prog World (option Session) :=
  if String.eqb (Auth.jwt_secret cfg) "" then mret None
  else
    t ← atomic now_s;
    until ← pure (add64 t (Auth.access_ttl_sec (Auth.cookies cfg)));
    memberships ← atomic (sql (list_for_user l.1.1));
    jti ← atomic make_jti;
    last ← pure (add64 t (Auth.refresh_ttl_sec (Auth.cookies cfg)));
    a ← pure (Jwt.issue_hs256_jwt (access_claims l t until (match memberships with [e] => Some e.1.1 | _ => None end)) (Auth.jwt_secret cfg));
    r ← pure (Jwt.issue_hs256_jwt (refresh_claims l.1.1 jti t last) (Auth.jwt_secret cfg));
    if negb cache_ready then mret (Some (mkSession a r))
    else
      recorded ← record cache_ready l.1.1 jti (Auth.refresh_ttl_sec (Auth.cookies cfg));
      mret (if (recorded : bool) then Some (mkSession a r) else None).

(** An answer, and the session cookies it sets: access and refresh, an empty refresh
    leaving that cookie as it is, both empty clearing them. *)
Definition Answer : Type := Reply * option (string * string).
Definition plain (r : Reply) : Answer := (r, None).

(** [with_repo_errors] around a handler that may set cookies, and the catch of every exception of the account handlers. *)
Definition guarded (p : prog World Answer) : prog World Answer := catch (fun e => Ok (plain (repo_reply e))) p.
Definition guarded_all (p : prog World Answer) : prog World Answer := catch (fun _ => Ok (plain (refusal 500 "internal_error"))) p.

Definition message (s : string) : Answer := plain (mkReply 200 "" (JObject [("message", JString s)])).

Definition checked (parsed : option json) (errs_of : json -> Validation.Errors) (k : json -> prog World Answer) : prog World Answer :=
  match parsed with
  | None => mret (plain (refusal 400 "invalid_json"))
  | Some body => if Validation.any (errs_of body) then mret (plain (invalid (errs_of body) 400)) else k body
  end.

Definition password_field (field : string) (body : json) (errs : Validation.Errors) : Validation.Errors :=
  Validation.string_length body field 8 128 errs.

(** [registerUser]: src/api/AuthController.hpp:71-116. *)
Definition registerUser (parsed : option json) : prog World Answer :=
  checked parsed (fun body => password_field "password" body (Validation.email body "email"
                    (Validation.require body "password" (Validation.require body "email" [])))) (fun body =>
    address ← pure (field_string "email" body);
    password ← pure (field_string "password" body);
    default ← atomic (sql find_default);
    match default with
    | None => mret (plain (refusal 503 "misconfigured"))
    | Some (rid, r) => guarded (
        hash ← hash_password password;
        created ← atomic (sql (create_user address (Some hash) (Validation.opt_string body "first_name")
                                 (Validation.opt_string body "last_name") rid false));
        _ ← dispatch MailConfirm created.1 created.2 "";
        mret (plain (mkReply 201 "" (JObject [("user", user_json created.1 created.2 (Some r))]))))
    end).

Definition bad_credentials : Answer := plain (refusal 401 "invalid_credentials").

(** [login]: src/api/AuthController.hpp:126-179.  The fixed hash that equalizes the time stands for a check that answers nothing. *)
Definition login (parsed : option json) : prog World Answer :=
  checked parsed (fun body => Validation.require body "password" (Validation.require body "email" [])) (fun body =>
    address ← pure (field_string "email" body);
    password ← pure (field_string "password" body);
    user ← atomic (sql (find_by_email address));
    match user with
    | None => mret bad_credentials
    | Some (id, u, r) =>
        match password_hash u with
        | None => mret bad_credentials
        | Some hash =>
            if negb (verify_password password hash) then mret bad_credentials
            else
              session ← mint_session (id, u, r);
              mret match session with
                   | None => plain (refusal 503 "session_unavailable")
                   | Some s => (mkReply 200 "" (JObject [("user", user_json id u (Some r))]), Some (access s, refresh_token s))
                   end
        end
    end).

(** [revoke_refresh]: src/api/AuthController.hpp:390-398. *)
Definition revoke_refresh (token : string) : prog World () :=
  r ← pure (Jwt.verify_hs256_jwt token (Auth.jwt_secret cfg));
  match r with
  | inl _ => mret tt
  | inr claims => jti ← pure (value_string "jti" "" claims); if String.eqb jti "" then mret tt else revoke_jti cache_ready jti
  end.

(** [logout]: src/api/AuthController.hpp:187-196. *)
Definition logout (req : Auth.Request) : prog World Answer :=
  let token := Auth.extract_refresh_token req (Auth.cookies cfg) in
  _ ← (if String.eqb token "" then mret tt else revoke_refresh token);
  mret (mkReply 200 "" (JObject [("message", JString "logged out")]), Some ("", "")).

(** [refresh]: src/api/AuthController.hpp:229-255.  From the liveness check on. *)
Definition rotate (token sub jti : string) : prog World Answer :=
  alive ← is_live cache_ready jti;
  if negb alive then mret (plain (refusal 401 "revoked"))
  else
    user ← atomic (sql (find_user sub));
    match user with
    | None => _ ← revoke_refresh token; mret (plain (refusal 401 "user_gone"))
    | Some l =>
        _ ← revoke_jti cache_ready jti;
        session ← mint_session l;
        mret match session with
             | None => plain (refusal 503 "session_unavailable")
             | Some s => (mkReply 200 "" (JObject [("user", loaded_json l)]), Some (access s, refresh_token s))
             end
    end.

(** [refresh]: src/api/AuthController.hpp:205-256. *)
Definition refresh (req : Auth.Request) : prog World Answer :=
  let token := Auth.extract_refresh_token req (Auth.cookies cfg) in
  if String.eqb token "" then mret (plain (refusal 401 "missing_refresh"))
  else
    r ← pure (Jwt.verify_hs256_jwt token (Auth.jwt_secret cfg));
    match r with
    | inl err => mret (plain (refusal 401 err))
    | inr claims =>
        typ ← pure (value_string "typ" "" claims);
        if negb (String.eqb typ "refresh") then mret (plain (refusal 401 "not_a_refresh"))
        else
          sub ← pure (value_string "sub" "" claims);
          jti ← pure (value_string "jti" "" claims);
          if String.eqb sub "" || String.eqb jti "" then mret (plain (refusal 401 "malformed_claims"))
          else rotate token sub jti
    end.

(** A program of the organizations, on the database of this store. *)
Definition on_db {A} (p : prog DB A) : prog World A := zoom db with_db p.

(** [me]: src/api/AuthController.hpp:266-286. *)
Definition me (who : option Auth.AuthPrincipal) : prog World Answer :=
  match who with
  | None => mret (plain (refusal 401 "missing_principal"))
  | Some p =>
      user ← atomic (sql (find_user (Auth.subject p)));
      match user with
      | None => mret (plain (refusal 404 "not_found"))
      | Some l =>
          ctx ← on_db (org_context_of who);
          mret (plain (mkReply 200 "" (JObject [("org_role", match ctx with Some c => JString (role c) | None => JNull end);
                                                ("user", loaded_json l)])))
      end
  end.

Definition unauthenticated : Answer := plain (refusal 401 "unauthorized").
Definition as_principal (who : option Auth.AuthPrincipal) (k : Auth.AuthPrincipal -> prog World Answer) : prog World Answer :=
  match who with None => mret unauthenticated | Some p => k p end.

(** [switchOrg]: src/api/OrganizationsController.hpp:247-318. *)
Definition switchOrg (who : option Auth.AuthPrincipal) (id : string) : prog World Answer :=
  as_principal who (fun p =>
    if negb (is_valid_uuid id) then mret (plain invalid_id)
    else guarded (
      m ← atomic (sql (find_membership (uuid_key id) (Auth.subject p)));
      match m with
      | None => mret (plain (refusal 403 "not_a_member"))
      | Some _ =>
          user ← atomic (sql (find_user (Auth.subject p)));
          match user with
          | None => mret (plain (refusal 401 "user_gone"))
          | Some l =>
              if String.eqb (Auth.jwt_secret cfg) "" then mret (plain (refusal 503 "session_unavailable"))
              else
                t ← atomic now_s;
                until ← pure (add64 t (Auth.access_ttl_sec (Auth.cookies cfg)));
                a ← pure (Jwt.issue_hs256_jwt (access_claims l t until (Some id)) (Auth.jwt_secret cfg));
                mret (mkReply 200 "" (JObject [("access", JString a)]), Some (a, ""))
          end
      end)).

(** ** Account self-service (src/api/AccountController.hpp) *)

Definition invalid_token : Answer := plain (refusal 400 "invalid_token").

(** [consume_once]: src/api/AccountController.hpp:389-405. *)
Definition consume_once (token : string) (ttl_sec : Z) : st World bool := fun w =>
  let hash := sha256 token in
  match used w !! hash with Some _ => (Ok false, w) | None => (Ok true, with_used (<[hash := clock w + ttl_sec]> (used w)) w) end.

(** [register_token_reaper_]: src/core/Core.hpp:588-603. *)
Definition reap_used_tokens : st World () := fun w =>
  (Ok tt, with_used (filter (fun e => clock w <= e.2) (used w)) w).

(** The token of a path, opened for its purpose. *)
Definition opened (token : string) (p : Tokens.Purpose) (k : string -> json -> prog World Answer) : prog World Answer :=
  t ← atomic now_s;
  match Tokens.verify (Auth.jwt_secret cfg) token t p with
  | inl _ => mret invalid_token
  | inr (sub, extra) => k sub extra
  end.

Definition once (token : string) (ttl_sec : Z) (k : prog World Answer) : prog World Answer :=
  first ← atomic (consume_once token ttl_sec); if (first : bool) then k else mret invalid_token.

(** [resendConfirm]: src/api/AccountController.hpp:68-87. *)
Definition resendConfirm (who : option Auth.AuthPrincipal) : prog World Answer :=
  as_principal who (fun p => guarded_all (
    user ← atomic (sql (find_user (Auth.subject p)));
    match user with
    | None => mret (plain (refusal 404 "not_found"))
    | Some l =>
        if confirmed l.1.2 then mret (message "already confirmed")
        else _ ← dispatch MailConfirm l.1.1 l.1.2 ""; mret (message "confirmation email sent")
    end)).

(** [confirm]: src/api/AccountController.hpp:95-122. *)
Definition confirm (token : string) : prog World Answer :=
  opened token Tokens.Confirm (fun sub _ => once token (7 * 24 * 3600) (guarded_all (
    done_ ← atomic (sql (mark_confirmed sub));
    mret (if (done_ : bool) then message "Account confirmed" else plain (refusal 404 "not_found"))))).

(** [requestReset]: src/api/AccountController.hpp:131-161. *)
Definition requestReset (parsed : option json) : prog World Answer :=
  checked parsed (fun body => Validation.email body "email" (Validation.require body "email" [])) (fun body =>
    address ← pure (field_string "email" body);
    _ ← swallow tt (user ← atomic (sql (find_by_email address));
                    match user with Some l => dispatch MailReset l.1.1 l.1.2 "" | None => mret tt end);
    mret (message "If that email is registered, a reset link is on its way.")).

Definition new_password_errors (body : json) : Validation.Errors :=
  password_field "new_password" body (Validation.require body "new_password" []).

(** [applyReset]: src/api/AccountController.hpp:168-202. *)
Definition applyReset (token : string) (parsed : option json) : prog World Answer :=
  checked parsed new_password_errors (fun body =>
    opened token Tokens.ResetPassword (fun sub _ => once token 3600 (guarded (
      password ← pure (field_string "new_password" body);
      hash ← hash_password password;
      _ ← atomic (sql (update_password_hash sub hash));
      _ ← revoke_all cache_ready sub;
      mret (message "Password updated"))))).

(** [requestChangeEmail]: src/api/AccountController.hpp:211-242. *)
Definition requestChangeEmail (who : option Auth.AuthPrincipal) (parsed : option json) : prog World Answer :=
  as_principal who (fun p =>
    checked parsed (fun body => Validation.require body "password" (Validation.email body "new_email" (Validation.require body "new_email" []))) (fun body =>
      guarded_all (
        user ← atomic (sql (find_user (Auth.subject p)));
        match user with
        | None => mret bad_credentials
        | Some l =>
            match password_hash l.1.2 with
            | None => mret bad_credentials
            | Some hash =>
                password ← pure (field_string "password" body);
                if negb (verify_password password hash) then mret bad_credentials
                else
                  address ← pure (field_string "new_email" body);
                  _ ← dispatch MailChange l.1.1 l.1.2 address;
                  mret (message "Confirmation email sent to the new address.")
            end
        end))).

(** [applyChangeEmail]: src/api/AccountController.hpp:250-285. *)
Definition applyChangeEmail (token : string) : prog World Answer :=
  opened token Tokens.ChangeEmail (fun sub extra =>
    match member "new_email" extra with
    | Some (JString address) =>
        taken ← atomic (sql (find_by_email address));
        if match taken with Some l => negb (String.eqb l.1.1 sub) | None => false end then mret (plain (refusal 409 "email_taken"))
        else once token 3600 (guarded (_ ← atomic (sql (change_email sub address)); mret (message "Email updated")))
    | _ => mret invalid_token
    end).

(** [joinFromInvite]: src/api/AccountController.hpp:294-328. *)
Definition joinFromInvite (token : string) (parsed : option json) : prog World Answer :=
  checked parsed new_password_errors (fun body =>
    opened token Tokens.Invite (fun sub _ => guarded (
      password ← pure (field_string "new_password" body);
      hash ← hash_password password;
      redeemed ← atomic (sql (redeem_invite sub hash));
      if negb redeemed then mret invalid_token
      else _ ← revoke_all cache_ready sub; mret (message "Account ready")))).

(** [changePassword]: src/api/AccountController.hpp:339-374. *)
Definition changePassword (who : option Auth.AuthPrincipal) (parsed : option json) : prog World Answer :=
  as_principal who (fun p =>
    checked parsed (fun body => password_field "new_password" body (Validation.require body "new_password" (Validation.require body "old_password" []))) (fun body =>
      guarded_all (
        user ← atomic (sql (find_user (Auth.subject p)));
        match user with
        | None => mret bad_credentials
        | Some l =>
            match password_hash l.1.2 with
            | None => mret bad_credentials
            | Some hash =>
                old ← pure (field_string "old_password" body);
                if negb (verify_password old hash) then mret bad_credentials
                else
                  password ← pure (field_string "new_password" body);
                  new_hash ← hash_password password;
                  _ ← atomic (sql (update_password_hash l.1.1 new_hash));
                  _ ← revoke_all cache_ready l.1.1;
                  mret (message "Password updated")
            end
        end))).

(** ** Administration (src/api/AdminController.hpp) *)

Definition as_admin (who : option Auth.AuthPrincipal) (k : prog World Answer) : prog World Answer :=
  match Auth.require_admin (Some cfg) who with Some e => mret (plain (stopped e)) | None => k end.

Definition is_self (who : option Auth.AuthPrincipal) (id : string) : bool :=
  match who with Some p => String.eqb (Auth.subject p) id | None => false end.

Definition data_answer (h : Z) (j : json) : Answer := plain (wrapped h j).

(** [get<int>()] and the cast to [uint32_t]. *)
Definition get_i32 (z : Z) : Z := (z + 2 ^ 31) mod 2 ^ 32 - 2 ^ 31.
Definition to_u32 (z : Z) : Z := z mod 2 ^ 32.
Definition int_field (k : string) (body : json) : option Z := match member k body with Some (JInt z) => Some z | _ => None end.
Definition bool_field (k : string) (body : json) : option bool := match member k body with Some (JBool b) => Some b | _ => None end.

(** [listUsers]: src/api/AdminController.hpp:64-77. *)
Definition listUsers (who : option Auth.AuthPrincipal) (limit_param offset_param : string) : prog World Answer :=
  as_admin who (
    let page := parse_page_params limit_param offset_param 50 200 in
    guarded (
      rows ← atomic (sql (list_users (Z.to_nat (limit page)) (Z.to_nat (offset page))));
      total ← atomic (sql count_users);
      mret (plain (paginated (map loaded_json rows) total page)))).

(** [createUser], [inviteUser]: the role of the body, or the default one. *)
Definition requested_role (body : json) : st DB (option (Z * Role)) :=
  match int_field "role_id" body with
  | Some z => let id := get_i32 z in found ← find_role id; mret ((fun r => (id, r)) <$> (found : option Role))
  | None => find_default
  end.

(** [createUser]: src/api/AdminController.hpp:79-122. *)
Definition createUser (who : option Auth.AuthPrincipal) (parsed : option json) : prog World Answer :=
  as_admin who (checked parsed (fun body => password_field "password" body (Validation.email body "email"
                                  (Validation.require body "password" (Validation.require body "email" [])))) (fun body =>
    r ← atomic (sql (requested_role body));
    match r with
    | None => mret (plain (refusal 400 "invalid_role"))
    | Some (rid, r) => guarded (
        password ← pure (field_string "password" body);
        hash ← hash_password password;
        address ← pure (field_string "email" body);
        created ← atomic (sql (create_user address (Some hash) (Validation.opt_string body "first_name")
                                 (Validation.opt_string body "last_name") rid true));
        mret (data_answer 201 (user_json created.1 created.2 (Some r))))
    end)).

(** [inviteUser]: src/api/AdminController.hpp:124-161. *)
Definition inviteUser (who : option Auth.AuthPrincipal) (parsed : option json) : prog World Answer :=
  as_admin who (checked parsed (fun body => Validation.email body "email" (Validation.require body "email" [])) (fun body =>
    r ← atomic (sql (requested_role body));
    match r with
    | None => mret (plain (refusal 400 "invalid_role"))
    | Some (rid, r) => guarded (
        address ← pure (field_string "email" body);
        created ← atomic (sql (create_user address None (Validation.opt_string body "first_name")
                                 (Validation.opt_string body "last_name") rid false));
        _ ← dispatch MailInvite created.1 created.2 "";
        mret (data_answer 201 (user_json created.1 created.2 (Some r))))
    end)).

(** [getUser]: src/api/AdminController.hpp:163-180. *)
Definition getUser (who : option Auth.AuthPrincipal) (id : string) : prog World Answer :=
  as_admin who (
    if negb (is_valid_uuid id) then mret (plain invalid_id)
    else guarded (
      user ← atomic (sql (find_user (uuid_key id)));
      mret match user with Some l => data_answer 200 (loaded_json l) | None => plain (refusal 404 "not_found") end)).

(** [updateUser]: src/api/AdminController.hpp:226-244.  The patch, then the row read back. *)
Definition patch_user (id : string) (address : option string) (rid : option Z) (first last : option string) : prog World Answer :=
  _ ← (match address, rid, first, last with
       | None, None, None, None => mret tt
       | _, _, _, _ => atomic (sql (admin_update id address rid first last))
       end);
  fresh ← atomic (sql (find_user id));
  mret match fresh with Some l => data_answer 200 (loaded_json l) | None => plain (refusal 404 "not_found") end.

(** [updateUser]: src/api/AdminController.hpp:182-246. *)
Definition updateUser (who : option Auth.AuthPrincipal) (id : string) (parsed : option json) : prog World Answer :=
  as_admin who (
    if negb (is_valid_uuid id) then mret (plain invalid_id)
    else match parsed with
    | None => mret (plain (refusal 400 "invalid_json"))
    | Some body =>
        let address := text_field "email" body in
        let errs := match address with Some _ => Validation.email body "email" [] | None => [] end in
        guarded (
          if Validation.any errs then mret (plain (invalid errs 400))
          else
            let patch rid := patch_user (uuid_key id) address rid (Validation.opt_string body "first_name") (Validation.opt_string body "last_name") in
            match int_field "role_id" body with
            | None => patch None
            | Some z =>
                if is_self who id then mret (plain (refusal 400 "self_role_change"))
                else
                  found ← atomic (sql (find_role (get_i32 z)));
                  match found with
                  | None => mret (plain (refusal 400 "invalid_role"))
                  | Some _ => patch (Some (get_i32 z))
                  end
            end)
    end).

(** [deleteUser]: src/api/AdminController.hpp:248-270. *)
Definition deleteUser (who : option Auth.AuthPrincipal) (id : string) : prog World Answer :=
  as_admin who (
    if negb (is_valid_uuid id) then mret (plain invalid_id)
    else if is_self who id then mret (plain (refusal 400 "self_delete"))
    else guarded (_ ← atomic (sql (remove_user (uuid_key id))); mret (message "User deleted"))).

(** [listRoles]: src/api/AdminController.hpp:272-285. *)
Definition listRoles (who : option Auth.AuthPrincipal) : prog World Answer :=
  as_admin who (guarded (rows ← atomic (sql (list_roles 1000)); mret (plain (listed (map (fun e => role_json e.1 e.2) rows))))).

(** [createRole]: src/api/AdminController.hpp:287-311. *)
Definition createRole (who : option Auth.AuthPrincipal) (parsed : option json) : prog World Answer :=
  as_admin who (checked parsed (fun body =>
      let errs := Validation.string_length body "name" 1 64 (Validation.require body "name" []) in
      match int_field "permissions" body with Some _ => errs | None => Validation.add "permissions" "invalid_type" errs end) (fun body =>
    is_default ← pure (value_bool "is_default" false body);
    guarded (
      nm ← pure (field_string "name" body);
      created ← atomic (sql (create_role nm (to_u32 (coalesce (int_field "permissions" body) 0)) is_default));
      mret (data_answer 201 (role_json created.1 created.2))))).

(** [updateRole]: src/api/AdminController.hpp:313-345. *)
Definition updateRole (who : option Auth.AuthPrincipal) (id_str : string) (parsed : option json) : prog World Answer :=
  as_admin who (
    let id := parse_int id_str (-1) in
    if id <=? 0 then mret (plain invalid_id)
    else match parsed with
    | None => mret (plain (refusal 400 "invalid_json"))
    | Some body =>
        match text_field "name" body, int_field "permissions" body, bool_field "is_default" body with
        | None, None, None => mret (plain (refusal 400 "empty_patch"))
        | nm, perms, d => guarded (
            updated ← atomic (sql (update_role id nm (to_u32 <$> perms) d));
            mret (data_answer 200 (role_json id updated)))
        end
    end).

(** [deleteRole]: src/api/AdminController.hpp:347-371. *)
Definition deleteRole (who : option Auth.AuthPrincipal) (id_str : string) : prog World Answer :=
  as_admin who (
    let id := parse_int id_str (-1) in
    if id <=? 0 then mret (plain invalid_id)
    else guarded (
      existing ← atomic (sql (find_role id));
      if match existing with Some r => r_default r | None => false end then mret (plain (refusal 400 "default_role_protected"))
      else _ ← atomic (sql (remove_role id)); mret (message "Role deleted"))).

(** ** API keys (src/api/ApiKeyController.hpp) *)

Definition as_owner (who : option Auth.AuthPrincipal) (k : string -> prog World Answer) : prog World Answer :=
  match who with
  | Some p => if String.eqb (Auth.subject p) "" then mret unauthenticated else k (Auth.subject p)
  | None => mret unauthenticated
  end.

(** [list]: src/api/ApiKeyController.hpp:36-44. *)
Definition listKeys (who : option Auth.AuthPrincipal) : prog World Answer :=
  as_owner who (fun owner =>
    rows ← atomic (sql (list_keys owner));
    mret (plain (mkReply 200 "" (JObject [("data", JArray (map (fun e => key_json e.1 e.2) rows)); ("total", JInt (Z.of_nat (length rows)))])))).

(** [generate]: src/security/ApiKeys.hpp:38-44.  The key; its hash and its first characters follow from it. *)
Definition generate_key : st World string := fun w => (Ok (Auth.kPrefix +:+ random_hex (draws w) 32), drawn w).

(** [create]: src/api/ApiKeyController.hpp:46-67. *)
Definition createKey (who : option Auth.AuthPrincipal) (parsed : option json) : prog World Answer :=
  as_owner who (fun owner => checked parsed (fun body => Validation.require body "name" []) (fun body =>
    plaintext ← atomic generate_key;
    nm ← pure (field_string "name" body);
    created ← atomic (sql (create_key owner nm (sha256 plaintext) (str_take 12 plaintext)));
    mret (plain (mkReply 201 "" (match key_json created.1 created.2 with
                                 | JObject l => JObject (obj_set "key" (JString plaintext) l) | j => j end))))).

(** [remove]: src/api/ApiKeyController.hpp:69-81. *)
Definition removeKey (who : option Auth.AuthPrincipal) (id : string) : prog World Answer :=
  as_owner who (fun owner =>
    gone ← atomic (sql (revoke_key id owner));
    mret (if (gone : bool) then message "API key revoked" else plain (refusal 404 "not_found"))).

End Handlers.

(** ** What every repository call keeps *)

Section Kept.
Context `{PG : Postgres} `{TP : PgText}.

Lemma email_free_spec id address d : email_free id address d = true <->
  forall j b, users d !! j = Some b -> j <> id -> ci (email b) <> ci address.
Proof.
  unfold email_free. rewrite negb_true_iff, <- not_true_iff_false, existsb_exists. split.
  - intros H j b Hj Hn C. apply H. exists (j, b). rewrite <- list_elem_of_In, elem_of_map_to_list. cbn [fst snd].
    by rewrite (proj2 (String.eqb_neq _ _)), C, String.eqb_refl.
  - intros H ([j b] & Hj%list_elem_of_In%elem_of_map_to_list & [Hn C]%andb_true_iff). cbn [fst snd] in *.
    apply String.eqb_eq in C. apply (H j b Hj); [|done]. intros ->. by rewrite String.eqb_refl in Hn.
Qed.

(** Writing a user, new or not. *)
Lemma user_written d id u k t : good d -> (seq d <= k)%nat -> (forall n, (k <= n)%nat -> id <> gen_random_uuid n) ->
  email_free id (email u) d = true -> is_Some (roles d !! role_id u) ->
  let d' := mkDB (orgs d) (members_of d) (accounts d) (<[id := u]> (users d)) (roles d) (keys d) k t in good d' /\ evolves d d'.
Proof.
  intros G Hk Hid He Hr d'. rewrite email_free_spec in He.
  assert (forall i, is_Some (users d !! i) -> is_Some (<[id := u]> (users d) !! i)) as Hs.
  { intros i H. destruct (decide (i = id)) as [->|]; [by rewrite lookup_insert_eq | by rewrite lookup_insert_ne]. }
  split; constructor; cbn [accounts orgs members_of users roles keys seq d']; try apply G; try done.
  - intros key m Hm. destruct (members_valid d G _ _ Hm) as (? & ? & ?). auto.
  - intros i j a b [[<- <-]|[Hi Ha]]%lookup_insert_Some [[<- <-]|[Hj Hb]]%lookup_insert_Some Hij; [done|..].
    + intros C. by apply (He j b).
    + by apply (He i a).
    + by apply (emails_distinct d G i j).
  - intros i x [[<- <-]|[_ Hi]]%lookup_insert_Some; [done | by eapply users_have_roles].
  - intros i x Hi. by eapply Hs, keys_owned.
  - intros n Hn. apply G. lia.
  - intros n Hn. destruct (fresh_people d G n ltac:(lia)) as (? & ? & ?). split; [|done].
    rewrite lookup_insert_ne; [done | by apply Hid].
  - eauto.
  - by right.
Qed.

Lemma old_user d id u n : good d -> users d !! id = Some u -> (seq d <= n)%nat -> id <> gen_random_uuid n.
Proof. intros G Hu Hn ->. destruct (fresh_people d G n Hn). congruence. Qed.

Lemma create_user_keeps address hash first last rid conf : keeps (create_user address hash first last rid conf).
Proof.
  intros d G. unfold create_user. rewrite translate_snd. destruct (name_in first) as [f|], (name_in last) as [l|]; try by apply keeps_refl.
  cbv zeta. destruct (email_free _ address d) eqn:Ef; [cbn [negb]|by apply keeps_refl].
  destruct (bool_decide_reflect (is_Some (roles d !! rid))) as [Hr|]; [cbn [negb snd]|by apply keeps_refl].
  apply (user_written d _ _ (S (seq d)) (now d + 1)); [done | lia | intros n Hn C%uuid_unique; lia | done | done].
Qed.

(** Writing a user that is there, under its address and role. *)
Lemma user_rewritten d id u u' : good d -> users d !! id = Some u -> email u' = email u -> role_id u' = role_id u ->
  good (with_users (insert id u') d) /\ evolves d (with_users (insert id u') d).
Proof.
  intros G Hu He Hr. apply (user_written d id u' (seq d) (now d)); [done | done | intros n; by eapply old_user | |rewrite Hr; by eapply users_have_roles].
  rewrite email_free_spec, He. intros j b Hj Hn. by apply (emails_distinct d G j id b u).
Qed.

Lemma set_user_keeps id f : (forall u, email (f u) = email u /\ role_id (f u) = role_id u) -> keeps (set_user id f).
Proof.
  intros Hf d G. unfold set_user. destruct (users d !! id) as [u|] eqn:Eu; [cbn [snd]|by apply keeps_refl].
  destruct (Hf u). by eapply user_rewritten.
Qed.

Lemma update_password_hash_keeps id h : keeps (update_password_hash id h).
Proof. by apply set_user_keeps. Qed.

Lemma mark_confirmed_keeps id : keeps (mark_confirmed id).
Proof.
  intros d G. unfold mark_confirmed. destruct (users d !! id) as [u|] eqn:Eu; [cbn [snd]|by apply keeps_refl]. by eapply user_rewritten.
Qed.

Lemma redeem_invite_keeps id h : keeps (redeem_invite id h).
Proof.
  intros d G. unfold redeem_invite. destruct (users d !! id) as [u|] eqn:Eu; [|by apply keeps_refl].
  case_match; [cbn [snd]|by apply keeps_refl]. by eapply user_rewritten.
Qed.

Lemma change_email_keeps id address : keeps (change_email id address).
Proof.
  intros d G. unfold change_email. rewrite translate_snd. destruct (users d !! id) as [u|] eqn:Eu; [|by apply keeps_refl].
  case_match eqn:E; [cbn [snd]|by apply keeps_refl].
  apply (user_written d id _ (seq d) (now d)); [done | done | intros n; by eapply old_user | done | exact (users_have_roles d G id u Eu)].
Qed.

Lemma update_names_keeps id first last : keeps (update_names id first last).
Proof.
  intros d G. unfold update_names. destruct (users d !! id) as [u|] eqn:Eu; [|by apply keeps_refl].
  destruct (name_in first), (name_in last); try by apply keeps_refl. cbn [snd]. by eapply user_rewritten.
Qed.

Lemma change_user_role_keeps id rid : keeps (change_user_role id rid).
Proof.
  intros d G. unfold change_user_role. destruct (users d !! id) as [u|] eqn:Eu; [|by apply keeps_refl].
  case_bool_decide; [cbn [snd]|by apply keeps_refl].
  apply (user_written d id _ (seq d) (now d)); [done | done | intros n; by eapply old_user | |done].
  rewrite email_free_spec. intros j b Hj Hn. by apply (emails_distinct d G j id b u).
Qed.

Lemma admin_update_keeps id address rid first last : keeps (admin_update id address rid first last).
Proof.
  intros d G. unfold admin_update. rewrite translate_snd. destruct (users d !! id) as [u|] eqn:Eu; [|by apply keeps_refl].
  destruct (name_in first), (name_in last); try by apply keeps_refl. cbv zeta. case_match eqn:E; [by apply keeps_refl|].
  destruct (bool_decide_reflect (is_Some (roles d !! role_id (mkUser (coalesce address (email u)) (password_hash u)
    (coalesce_o o (first_name u)) (coalesce_o o0 (last_name u)) (confirmed u) (coalesce rid (role_id u)) (u_created u))))) as [Hr|];
    [cbn [negb snd]|by apply keeps_refl].
  apply (user_written d id _ (seq d) (now d)); [done | done | intros n; by eapply old_user | by apply negb_false_iff | done].
Qed.

Lemma remove_user_keeps id : keeps (remove_user id).
Proof.
  intros d G. unfold remove_user. destruct (users d !! id) as [u|] eqn:Eu; [cbn [snd]|by apply keeps_refl].
  assert (forall i, i <> id -> is_Some (users d !! i) -> is_Some (delete id (users d) !! i)) as Hs by (intros i Hi H; by rewrite lookup_delete_ne).
  split; constructor; cbn [accounts orgs members_of users roles keys seq with_keys with_members with_users]; try apply G; eauto.
  - intros k m [Hm Hk]%map_lookup_filter_Some. destruct (members_valid d G _ _ Hm) as (? & ? & ?). auto.
  - intros i j a b [_ Ha]%lookup_delete_Some [_ Hb]%lookup_delete_Some. by eapply emails_distinct.
  - intros i x [_ Hx]%lookup_delete_Some. by eapply users_have_roles.
  - intros i k [Hk Hn]%map_lookup_filter_Some. apply Hs; [done|]. by eapply keys_owned.
  - intros i j a b [Ha _]%map_lookup_filter_Some [Hb _]%map_lookup_filter_Some. by eapply keys_distinct.
  - intros n Hn. destruct (fresh_people d G n Hn) as (F1 & F2 & F3). split; [|split; [|done]].
    + destruct (decide (gen_random_uuid n = id)) as [->|]; [apply lookup_delete_eq | by rewrite lookup_delete_ne].
    + apply map_lookup_filter_None. by left.
Qed.

Lemma role_clashes_sym a b : role_clashes a b = role_clashes b a.
Proof. unfold role_clashes. by rewrite (String.eqb_sym (r_name a)), (andb_comm (r_default a)). Qed.

Lemma role_free_spec id r l : role_free id r l = true <-> forall j b, l !! j = Some b -> j <> id -> role_clashes r b = false.
Proof.
  unfold role_free. rewrite negb_true_iff, <- not_true_iff_false, existsb_exists. split.
  - intros H j b Hj Hn. apply not_true_iff_false. intros C. apply H. exists (j, b).
    rewrite <- list_elem_of_In, elem_of_map_to_list. cbn [fst snd]. by rewrite (proj2 (Z.eqb_neq _ _)), C.
  - intros H ([j b] & Hj%list_elem_of_In%elem_of_map_to_list & [Hn C]%andb_true_iff). cbn [fst snd] in *.
    rewrite (H j b) in C; [done..|]. intros ->. by rewrite Z.eqb_refl in Hn.
Qed.

Definition undefaulted (keep : option Z) (id : Z) (r : Role) : Role :=
  if r_default r && negb (bool_decide (keep = Some id)) then mkRole (r_name r) (r_permissions r) false else r.

Lemma undefault_lookup keep l id : undefault keep l !! id = undefaulted keep id <$> l !! id.
Proof. unfold undefault. rewrite map_lookup_imap. by destruct (l !! id). Qed.

Lemma undefaulted_name keep i a : r_name (undefaulted keep i a) = r_name a.
Proof. unfold undefaulted. by case_match. Qed.
Lemma undefaulted_flag keep i a : r_default (undefaulted keep i a) = r_default a && bool_decide (keep = Some i).
Proof. unfold undefaulted. destruct (r_default a) eqn:E, (bool_decide (keep = Some i)); cbn [andb negb r_default]; by rewrite ?E. Qed.

(** A flag cleared makes no new clash. *)
Lemma undefaulted_clashes keep i j a b : role_clashes a b = false -> role_clashes (undefaulted keep i a) (undefaulted keep j b) = false.
Proof.
  unfold role_clashes. rewrite !undefaulted_name, !undefaulted_flag. intros [-> H]%orb_false_iff. cbn [orb].
  destruct (r_default a), (r_default b); try discriminate H; cbn [andb]; by rewrite ?andb_false_r.
Qed.

Definition roles_apart (l : gmap Z Role) : Prop := forall i j a b, l !! i = Some a -> l !! j = Some b -> i <> j -> role_clashes a b = false.

Lemma undefault_apart keep l : roles_apart l -> roles_apart (undefault keep l).
Proof.
  intros H i j a b. rewrite !undefault_lookup. destruct (l !! i) as [a'|] eqn:Ea, (l !! j) as [b'|] eqn:Eb; try discriminate.
  cbn [fmap option_fmap option_map]. intros [= <-] [= <-] Hij. eapply undefaulted_clashes, H; eassumption.
Qed.

Lemma insert_apart id r l : roles_apart l -> role_free id r l = true -> roles_apart (<[id := r]> l).
Proof.
  intros H F. rewrite role_free_spec in F. intros i j x y [[<- <-]|[Hi Hx]]%lookup_insert_Some [[<- <-]|[Hj Hy]]%lookup_insert_Some Hij; [done|..].
  - by apply (F j).
  - rewrite role_clashes_sym. by apply (F i).
  - by eapply H.
Qed.

(** Writing the roles, none of which goes. *)
Lemma roles_written d l k t : good d -> (seq d <= k)%nat -> roles_apart l -> (forall i, is_Some (roles d !! i) -> is_Some (l !! i)) ->
  (forall n, (k <= n)%nat -> l !! Z.of_nat n = None) ->
  let d' := mkDB (orgs d) (members_of d) (accounts d) (users d) l (keys d) k t in good d' /\ evolves d d'.
Proof.
  intros G Hk Hl Hs Hf d'. split; constructor; cbn [accounts orgs members_of users roles keys seq d']; try apply G; try done.
  - intros i u Hu. by eapply Hs, users_have_roles.
  - intros n Hn. apply G. lia.
  - intros n Hn. destruct (fresh_people d G n ltac:(lia)) as (? & ? & _). auto.
  - eauto.
  - by right.
Qed.

Lemma undefault_some keep l i : is_Some (undefault keep l !! i) <-> is_Some (l !! i).
Proof. rewrite undefault_lookup. destruct (l !! i); split; [by eexists..|done|done]. Qed.

Lemma cleared_roles (c : bool) keep d : good d ->
  let l := if c then undefault keep (roles d) else roles d in roles_apart l /\ forall i, is_Some (l !! i) <-> is_Some (roles d !! i).
Proof.
  intros G l. unfold l. destruct c; [|split; [exact (roles_distinct d G) | done]].
  split; [apply undefault_apart; exact (roles_distinct d G) | intros i; apply undefault_some].
Qed.

Lemma fresh_role d n : good d -> (seq d <= n)%nat -> roles d !! Z.of_nat n = None.
Proof. intros G Hn. by destruct (fresh_people d G n Hn) as (_ & _ & ?). Qed.

Lemma create_role_keeps nm permissions is_default : keeps (create_role nm permissions is_default).
Proof.
  intros d G. unfold create_role. rewrite translate_snd. cbv zeta. destruct (varchar_in 64 nm) as [n|]; [|by apply keeps_refl].
  destruct (cleared_roles is_default None d G) as [Hl Hs]. set (l := if is_default then _ else _) in *.
  case_match eqn:F; [cbn [snd]|by apply keeps_refl].
  apply (roles_written d _ (S (seq d)) (now d + 1)); [done | lia | by apply insert_apart | ..].
  - intros i Hi. cbn [roles with_roles]. destruct (decide (i = Z.of_nat (seq d))) as [->|]; [by rewrite lookup_insert_eq | rewrite lookup_insert_ne by done; by apply Hs].
  - intros m Hm. cbn [roles with_roles]. rewrite lookup_insert_ne by lia. apply eq_None_not_Some. rewrite Hs, (fresh_role d m G) by lia. by intros [? ?].
Qed.

Lemma update_role_keeps id nm permissions is_default : keeps (update_role id nm permissions is_default).
Proof.
  intros d G. unfold update_role. rewrite translate_snd. cbv zeta. destruct (cleared_roles (coalesce is_default false) (Some id) d G) as [Hl Hs].
  set (l := if coalesce is_default false then _ else _) in *. destruct (l !! id) as [old|] eqn:El; [|by apply keeps_refl].
  destruct (match nm with None => Some None | Some s => Some <$> varchar_in 64 s end) as [n|]; [|by apply keeps_refl]. case_match eqn:F; [cbn [snd]|by apply keeps_refl].
  apply (roles_written d _ (seq d) (now d)); [done | done | by apply insert_apart | ..].
  - intros i Hi. cbn [roles with_roles]. destruct (decide (i = id)) as [->|]; [by rewrite lookup_insert_eq | rewrite lookup_insert_ne by done; by apply Hs].
  - intros m Hm. cbn [roles with_roles]. rewrite lookup_insert_ne; [apply eq_None_not_Some; rewrite Hs, (fresh_role d m G) by lia; by intros [? ?]|].
    intros ->. assert (is_Some (roles d !! Z.of_nat m)) as [x Hx] by (apply Hs; by eexists). by rewrite (fresh_role d m G) in Hx by lia.
Qed.

Lemma remove_role_keeps id : keeps (remove_role id).
Proof.
  intros d G. unfold remove_role. rewrite translate_snd. destruct (roles d !! id) as [r|]; [|by apply keeps_refl].
  destruct (existsb _ _) eqn:E; [by apply keeps_refl|]. cbn [snd].
  split; constructor; cbn [accounts orgs members_of users roles keys seq with_roles]; try apply G; eauto.
  - intros i u Hu. rewrite lookup_delete_ne; [by eapply users_have_roles|]. intros Hid. apply not_true_iff_false in E. apply E, existsb_exists.
    exists (i, u). rewrite <- list_elem_of_In, elem_of_map_to_list. cbn [snd]. by rewrite <- Hid, Z.eqb_refl.
  - intros i j a b [_ Ha]%lookup_delete_Some [_ Hb]%lookup_delete_Some. by eapply roles_distinct.
  - intros n Hn. destruct (fresh_people d G n Hn) as (F1 & F2 & F3). split; [done|]. split; [done|].
    destruct (decide (Z.of_nat n = id)) as [->|]; [apply lookup_delete_eq | by rewrite lookup_delete_ne].
Qed.

(** Writing a key, new or not. *)
Lemma key_written d id x k t : good d -> (seq d <= k)%nat -> (forall n, (k <= n)%nat -> id <> gen_random_uuid n) ->
  (forall j y, keys d !! j = Some y -> j <> id -> key_hash x <> key_hash y) -> is_Some (users d !! key_user x) ->
  let d' := mkDB (orgs d) (members_of d) (accounts d) (users d) (roles d) (<[id := x]> (keys d)) k t in good d' /\ evolves d d'.
Proof.
  intros G Hk Hid Hx Hu d'. split; constructor; cbn [accounts orgs members_of users roles keys seq d']; try apply G; try done.
  - intros i y [[<- <-]|[_ Hi]]%lookup_insert_Some; [done | by eapply keys_owned].
  - intros i j a b [[<- <-]|[Hi Ha]]%lookup_insert_Some [[<- <-]|[Hj Hb]]%lookup_insert_Some Hij; [done|..].
    + by apply (Hx j b).
    + intros C. by apply (Hx i a).
    + by apply (keys_distinct d G i j).
  - intros n Hn. apply G. lia.
  - intros n Hn. destruct (fresh_people d G n ltac:(lia)) as (? & ? & ?). split; [done|]. split; [|done].
    rewrite lookup_insert_ne; [done | by apply Hid].
  - eauto.
  - by right.
Qed.

Lemma create_key_keeps user nm hash prefix : keeps (create_key user nm hash prefix).
Proof.
  intros d G. unfold create_key. cbv zeta. destruct (existsb _ _) eqn:E; [by apply keeps_refl|].
  destruct (bool_decide_reflect (is_Some (users d !! user))) as [Hu|]; [cbn [negb snd]|by apply keeps_refl].
  apply (key_written d _ _ (S (seq d)) (now d + 1)); [done | lia | intros n Hn C%uuid_unique; lia | | done].
  intros j y Hj _ C. apply not_true_iff_false in E. apply E, existsb_exists. exists (j, y).
  rewrite <- list_elem_of_In, elem_of_map_to_list. cbn [snd key_hash] in *. by rewrite C, String.eqb_refl.
Qed.

Lemma revoke_key_keeps id user : keeps (revoke_key id user).
Proof.
  intros d G. unfold revoke_key. destruct (uuid_in id) as [i|]; [|by apply keeps_refl]. destruct (keys d !! i) as [k|] eqn:Ek; [|by apply keeps_refl].
  case_match; [cbn [snd]|by apply keeps_refl].
  apply (key_written d i _ (seq d) (now d)); [done | done | | | exact (keys_owned d G i k Ek)].
  - intros n Hn ->. destruct (fresh_people d G n Hn) as (_ & ? & _). congruence.
  - intros j y Hj Hn. apply (keys_distinct d G i j k y); congruence.
Qed.

End Kept.

(** ** Requests and turns *)

Section Service.
Context `{PG : Postgres} `{TP : PgText} `{SC : Secrets} `{CR : Crypto} `{TX : JsonText}.
Context (cfg : Auth.AuthConfig) (cache_ready via_jobs : bool).

(** A request to the routes of these controllers, and of the organizations'. *)
Inductive request :=
| Register (body : option json) | Login (body : option json) | Logout (req : Auth.Request) | Refresh (req : Auth.Request)
| Me (who : option Auth.AuthPrincipal) | Switch (who : option Auth.AuthPrincipal) (id : string)
| ResendConfirm (who : option Auth.AuthPrincipal) | Confirm (token : string)
| RequestReset (body : option json) | ApplyReset (token : string) (body : option json)
| RequestChangeEmail (who : option Auth.AuthPrincipal) (body : option json) | ApplyChangeEmail (token : string)
| JoinFromInvite (token : string) (body : option json) | ChangePassword (who : option Auth.AuthPrincipal) (body : option json)
| ListUsers (who : option Auth.AuthPrincipal) (limit offset : string) | CreateUser (who : option Auth.AuthPrincipal) (body : option json)
| InviteUser (who : option Auth.AuthPrincipal) (body : option json) | GetUser (who : option Auth.AuthPrincipal) (id : string)
| UpdateUser (who : option Auth.AuthPrincipal) (id : string) (body : option json) | DeleteUser (who : option Auth.AuthPrincipal) (id : string)
| ListRoles (who : option Auth.AuthPrincipal) | CreateRole (who : option Auth.AuthPrincipal) (body : option json)
| UpdateRole (who : option Auth.AuthPrincipal) (id : string) (body : option json) | DeleteRole (who : option Auth.AuthPrincipal) (id : string)
| ListKeys (who : option Auth.AuthPrincipal) | CreateKey (who : option Auth.AuthPrincipal) (body : option json)
| RemoveKey (who : option Auth.AuthPrincipal) (id : string)
| Organizations (r : Tenancy.request).

Definition handle (r : request) : prog World Answer :=
  match r with
  | Register b => registerUser cfg via_jobs b | Login b => login cfg cache_ready b
  | Logout q => logout cfg cache_ready q | Refresh q => refresh cfg cache_ready q
  | Me who => me who | Switch who id => switchOrg cfg who id
  | ResendConfirm who => resendConfirm cfg via_jobs who | Confirm t => confirm cfg t
  | RequestReset b => requestReset cfg via_jobs b | ApplyReset t b => applyReset cfg cache_ready t b
  | RequestChangeEmail who b => requestChangeEmail cfg via_jobs who b | ApplyChangeEmail t => applyChangeEmail cfg t
  | JoinFromInvite t b => joinFromInvite cfg cache_ready t b | ChangePassword who b => changePassword cache_ready who b
  | ListUsers who l o => listUsers cfg who l o | CreateUser who b => createUser cfg who b
  | InviteUser who b => inviteUser cfg via_jobs who b | GetUser who id => getUser cfg who id
  | UpdateUser who id b => updateUser cfg who id b | DeleteUser who id => deleteUser cfg who id
  | ListRoles who => listRoles cfg who | CreateRole who b => createRole cfg who b
  | UpdateRole who id b => updateRole cfg who id b | DeleteRole who id => deleteRole cfg who id
  | ListKeys who => listKeys who | CreateKey who b => createKey who b | RemoveKey who id => removeKey who id
  | Organizations r => r ← on_db (serve r); mret (plain r)
  end.

(** What may run: requests, mail jobs, the reaper of expired records, and whatever leaves
    the database alone (time passing, outages, keys that expire, queues that drain). *)
Inductive entered : World -> prog World () -> Prop :=
| enter_request w r : entered w (void (handle r))
| enter_mail w payload : entered w (void (process_mail cfg payload))
| enter_reaper w : entered w (atomic reap_used_tokens)
| enter_outside w f : (forall w', db (f w') = db w' /\ used (f w') = used w' /\ clock w' <= clock (f w')) -> entered w (Step f (fun _ => mret tt)).

(** The invariant of the database, and records of used tokens staying until they expire. *)
Definition sound (w : World) : Prop := good (db w).
Definition keeps_records (w w' : World) : Prop :=
  clock w <= clock w' /\ forall h e, used w !! h = Some e -> used w' !! h = Some e \/ e < clock w'.
Definition onward (w w' : World) : Prop := evolves (db w) (db w') /\ keeps_records w w'.

#[local] Instance keeps_records_pre : PreOrder keeps_records.
Proof.
  split; [intros w; split; [lia | intros h e; by left]|]. intros w1 w2 w3 [T1 H1] [T2 H2]. split; [lia|]. intros h e H.
  destruct (H1 h e H) as [H'|]; [by apply H2 | right; lia].
Qed.

#[local] Instance onward_pre : PreOrder onward.
Proof. split; [by intros w | intros w1 w2 w3 [H1 H2] [H3 H4]; split; by etrans]. Qed.

Definition calm {A} (m : st World A) : Prop := forall w, sound w -> sound (m w).2 /\ onward w (m w).2.

Lemma sql_calm {A} (m : st DB A) : keeps m -> calm (sql m).
Proof.
  intros H w G. destruct (H (db w) G) as [G' E]. unfold sql. destruct (m (db w)) as [r d]. cbn [snd db with_db] in *. split; [done|]. split; [done|].
  split; [cbn; lia | intros h e; by left].
Qed.

(** A call that does not touch the database. *)
Lemma aside_calm {A} (m : st World A) : (forall w, db (m w).2 = db w /\ used (m w).2 = used w /\ clock (m w).2 = clock w) -> calm m.
Proof.
  intros H w G. destruct (H w) as (E & U & C). unfold sound, onward, keeps_records. rewrite E, U, C. split; [exact G|]. split; [reflexivity|].
  split; [lia | intros h e; by left].
Qed.

Lemma read_calm {A} (f : World -> A) : calm (gets f).
Proof. apply aside_calm. by intros w. Qed.
Lemma set_live_calm jti ttl : calm (set_live jti ttl).
Proof. apply aside_calm. intros w. unfold set_live. by destruct (redis_up w). Qed.
Lemma sadd_calm sub jti : calm (sadd sub jti).
Proof. apply aside_calm. intros w. unfold sadd. by destruct (redis_up w). Qed.
Lemma expire_set_calm sub ttl : calm (expire_set sub ttl).
Proof. apply aside_calm. intros w. unfold expire_set. by destruct (redis_up w). Qed.
Lemma smembers_calm sub : calm (smembers sub).
Proof. apply aside_calm. intros w. unfold smembers. by destruct (redis_up w). Qed.
Lemma del_live_calm jti : calm (del_live jti).
Proof. apply aside_calm. intros w. cbn [del_live snd]. by destruct (redis_up w). Qed.
Lemma del_set_calm sub : calm (del_set sub).
Proof. apply aside_calm. intros w. unfold del_set. by destruct (redis_up w). Qed.
Lemma make_jti_calm : calm make_jti.
Proof. apply aside_calm. by intros w. Qed.
Lemma generate_key_calm : calm generate_key.
Proof. apply aside_calm. by intros w. Qed.
Lemma send_calm m : calm (send m).
Proof. apply aside_calm. intros w. unfold send. by destruct (smtp_up w). Qed.
Lemma submit_mail_calm p : calm (submit_mail p).
Proof. apply aside_calm. intros w. unfold submit_mail. by destruct (queue_up w). Qed.
Lemma consume_once_calm t ttl : calm (consume_once t ttl).
Proof.
  intros w G. unfold consume_once. cbv zeta. case_match eqn:E; [done|]. unfold sound, onward. cbn [snd db used clock with_used].
  split; [done|]. split; [done|]. split; [cbn [clock with_used]; lia|]. intros h e Hh. left. cbn [used with_used].
  rewrite lookup_insert_ne; [done | congruence].
Qed.

Lemma reap_calm : calm reap_used_tokens.
Proof.
  intros w G. split; [done|]. split; [done|]. split; [cbn; lia|]. intros h e Hh. cbn. destruct (decide (clock w <= e)).
  - left. by apply map_lookup_filter_Some.
  - right. lia.
Qed.

Lemma requested_role_keeps body : keeps (requested_role body).
Proof. intros d G. unfold requested_role. destruct (int_field "role_id" body); [|by apply keeps_refl]. by apply keeps_refl. Qed.

Create HintDb accounts.
#[local] Hint Resolve sql_calm set_live_calm sadd_calm expire_set_calm smembers_calm del_live_calm del_set_calm make_jti_calm
  generate_key_calm send_calm submit_mail_calm consume_once_calm requested_role_keeps
  create_user_keeps update_password_hash_keeps mark_confirmed_keeps redeem_invite_keeps change_email_keeps admin_update_keeps
  remove_user_keeps create_role_keeps update_role_keeps remove_role_keeps create_key_keeps revoke_key_keeps : accounts.
#[local] Hint Extern 3 (keeps _) => refine (read_keeps _) : accounts.
#[local] Hint Extern 3 (calm _) => refine (read_calm _) : accounts.

Abbreviation calmly := (quiet sound onward).

Lemma quiet_calm {A B} (m : st World A) (k : A -> prog World B) w : calm m -> (forall a w', calmly (k a) w') -> calmly (atomic m ≫= k) w.
Proof. apply quiet_call; exact _. Qed.

Lemma quiet_once {A} (m : st World A) w : calm m -> calmly (atomic m) w.
Proof. intros H. apply quiet_last. intros w1 _. apply H. Qed.

Ltac calmly_on :=
  repeat first
    [ apply quiet_done
    | apply quiet_catch
    | apply quiet_calm; [solve [eauto with accounts] | intros ? ?]
    | apply quiet_once; solve [eauto with accounts]
    | apply quiet_pure; intros ? _
    | progress cbv beta
    | case_match ].

Lemma on_db_calm {A} (p : prog DB A) w : quiet good evolves p (db w) -> calmly (on_db p) w.
Proof.
  unfold on_db. revert w. induction p as [r|next k IH]; intros w; [done|]. intros Hp w1 [Hw _] G.
  destruct (Hp (db w1) Hw G) as (G' & E' & Hk). split; [exact G'|]. split; [split; [exact E' | split; [cbn; lia | intros h e; by left]]|]. by apply IH.
Qed.

Lemma deliver_now_calm k id u e w : calmly (deliver_now cfg k id u e) w.
Proof. unfold deliver_now. calmly_on. Qed.

Lemma dispatch_calm k id u e w : calmly (dispatch cfg via_jobs k id u e) w.
Proof.
  unfold dispatch, swallow. apply quiet_bind; [exact _ | destruct via_jobs; calmly_on|]. intros [|] w'; [done|].
  apply quiet_catch, deliver_now_calm.
Qed.

Lemma revoke_all_calm sub w : calmly (revoke_all cache_ready sub) w.
Proof.
  unfold revoke_all, swallow. destruct cache_ready; [cbn [negb] | done]. apply quiet_catch, quiet_calm; [eauto with accounts|]. intros js w1.
  apply quiet_bind; [exact _ | | intros _ w2; calmly_on]. revert w1. induction (elements js) as [|j r IH]; intros w1; cbn [del_each]; [done|].
  apply quiet_calm; [eauto with accounts|]. intros _ w2. apply IH.
Qed.

Lemma revoke_jti_calm jti w : calmly (revoke_jti cache_ready jti) w.
Proof. unfold revoke_jti. calmly_on. Qed.

Lemma hash_password_calm p w : calmly (hash_password p) w.
Proof. unfold hash_password. case_match; [done|]. apply quiet_once, aside_calm. by intros w1. Qed.

Lemma mint_session_calm l w : calmly (mint_session cfg cache_ready l) w.
Proof.
  unfold mint_session. case_match; [done|]. apply quiet_calm; [eauto with accounts|]. intros t w1. apply quiet_pure; intros t1 _.
  apply quiet_calm; [apply sql_calm, read_keeps|]. intros ms w2. apply quiet_calm; [eauto with accounts|]. intros jti w3.
  do 3 (apply quiet_pure; intros ? _). case_match; [done|]. apply quiet_bind; [exact _ | | done]. unfold record, swallow.
  case_match; [done|]. apply quiet_calm; [eauto with accounts|]. intros [|] w4; cbn [negb]; [|done].
  apply quiet_bind; [exact _ | | done]. calmly_on.
Qed.

Lemma guarded_calm p w : calmly p w -> calmly (guarded p) w.
Proof. apply quiet_catch. Qed.
Lemma guarded_all_calm p w : calmly p w -> calmly (guarded_all p) w.
Proof. apply quiet_catch. Qed.

Lemma checked_calm parsed errs k w : (forall body, calmly (k body) w) -> calmly (checked parsed errs k) w.
Proof. intros Hk. unfold checked. repeat case_match; [done | apply Hk | done]. Qed.

Lemma opened_calm t p k w : (forall sub extra w', calmly (k sub extra) w') -> calmly (opened cfg t p k) w.
Proof. intros Hk. unfold opened. apply quiet_calm; [eauto with accounts|]. intros now w1. case_match; [done|]. case_match. apply Hk. Qed.

Lemma once_calm t ttl k w : (forall w', calmly k w') -> calmly (once t ttl k) w.
Proof. intros Hk. unfold once. apply quiet_calm; [eauto with accounts|]. intros [|] w1; [apply Hk | done]. Qed.

(** Down to the calls, and the programs above. *)
Ltac serve_on :=
  repeat first
    [ apply quiet_done
    | apply guarded_calm | apply guarded_all_calm | apply quiet_catch
    | apply checked_calm; intros ? | apply opened_calm; intros ? ? ? | apply once_calm; intros ?
    | apply quiet_calm; [solve [eauto with accounts] | intros ? ?]
    | apply quiet_once; solve [eauto with accounts]
    | apply quiet_pure; intros ? _
    | apply dispatch_calm | apply revoke_all_calm | apply revoke_jti_calm | apply mint_session_calm | apply hash_password_calm
    | apply quiet_bind; [exact _ | solve [apply dispatch_calm | apply revoke_all_calm | apply revoke_jti_calm | apply mint_session_calm
                                         | apply hash_password_calm | apply deliver_now_calm] | intros ? ?]
    | progress cbv beta iota zeta
    | case_match ].

Lemma revoke_refresh_calm t w : calmly (revoke_refresh cfg cache_ready t) w.
Proof. unfold revoke_refresh. serve_on. Qed.

Lemma rotate_calm t sub jti w : calmly (rotate cfg cache_ready t sub jti) w.
Proof.
  unfold rotate. apply quiet_bind; [exact _ | unfold is_live; serve_on|]. intros [|] w1; cbn [negb]; [|done].
  apply quiet_calm; [eauto with accounts|]. intros [l|] w2; [serve_on|].
  apply quiet_bind; [exact _ | apply revoke_refresh_calm | done].
Qed.

Lemma patch_user_calm id address rid first last w : calmly (patch_user id address rid first last) w.
Proof.
  unfold patch_user. apply quiet_bind; [exact _| |intros _ w1; serve_on].
  assert (calmly (atomic (sql (admin_update id address rid first last))) w) by (apply quiet_once; eauto with accounts).
  by repeat case_match.
Qed.

Lemma session_calm r w : match r with
  | Register _ | Login _ | Logout _ | Refresh _ | Me _ | Switch _ _ | Organizations _ => calmly (handle r) w
  | _ => True end.
Proof.
  destruct r; try done; cbn [handle].
  - unfold registerUser. serve_on.
  - unfold login. serve_on.
  - unfold logout. apply quiet_bind; [exact _ | case_match; [done | apply revoke_refresh_calm] | done].
  - unfold refresh. cbv zeta. case_match; [done|]. apply quiet_pure; intros [e|claims] _; [done|]. do 1 (apply quiet_pure; intros ? _).
    case_match; [done|]. do 2 (apply quiet_pure; intros ? _). case_match; [done | apply rotate_calm].
  - unfold me. case_match; [|done]. apply quiet_calm; [eauto with accounts|]. intros [l|] w1; [|done].
    apply quiet_bind; [exact _ | | done]. apply on_db_calm. unfold org_context_of. case_match; [done|]. apply quiet_kept; [apply read_keeps | done].
  - unfold switchOrg, as_principal. serve_on.
  - apply quiet_bind; [exact _ | apply on_db_calm, serve_quiet | done].
Qed.

Lemma account_calm r w : match r with
  | ResendConfirm _ | Confirm _ | RequestReset _ | ApplyReset _ _ | RequestChangeEmail _ _ | ApplyChangeEmail _ | JoinFromInvite _ _
  | ChangePassword _ _ => calmly (handle r) w
  | _ => True end.
Proof.
  destruct r; try done; cbn [handle].
  - unfold resendConfirm, as_principal. serve_on.
  - unfold confirm. serve_on.
  - unfold requestReset, swallow. apply checked_calm. intros b. apply quiet_pure; intros address _.
    apply quiet_bind; [exact _ | serve_on | done].
  - unfold applyReset. serve_on.
  - unfold requestChangeEmail, as_principal. serve_on.
  - unfold applyChangeEmail. serve_on.
  - unfold joinFromInvite. serve_on.
  - unfold changePassword, as_principal. serve_on.
Qed.

Lemma as_admin_calm who k w : calmly k w -> calmly (as_admin cfg who k) w.
Proof. intros Hk. unfold as_admin. case_match; [apply quiet_done | exact Hk]. Qed.

Lemma handle_calm r w : calmly (handle r) w.
Proof.
  pose proof (session_calm r w). pose proof (account_calm r w). destruct r; try assumption; cbn [handle].
  - unfold listUsers. apply as_admin_calm. serve_on.
  - unfold createUser. apply as_admin_calm. serve_on.
  - unfold inviteUser. apply as_admin_calm. serve_on.
  - unfold getUser. apply as_admin_calm. serve_on.
  - unfold updateUser. apply as_admin_calm. cbv zeta. destruct (negb (is_valid_uuid id)); [done|]. destruct body as [b|]; [|done].
    apply guarded_calm. destruct (Validation.any _); [done|]. destruct (int_field "role_id" b) as [z|]; [|apply patch_user_calm].
    destruct (is_self who id); [done|]. apply quiet_calm; [eauto with accounts|]. intros [x|] w1; [apply patch_user_calm | done].
  - unfold deleteUser. apply as_admin_calm. serve_on.
  - unfold listRoles. apply as_admin_calm. serve_on.
  - unfold createRole. apply as_admin_calm. serve_on.
  - unfold updateRole. apply as_admin_calm. cbv zeta. destruct (_ <=? 0); [done|]. destruct body as [b|]; [|done].
    destruct (text_field "name" b), (int_field "permissions" b), (bool_field "is_default" b); serve_on.
  - unfold deleteRole. apply as_admin_calm. cbv zeta. case_match; [done|]. apply guarded_calm, quiet_calm; [eauto with accounts|]. intros x w1.
    destruct (match x with Some r => r_default r | None => false end); [done|]. serve_on.
  - unfold listKeys, as_owner. serve_on.
  - unfold createKey, as_owner. serve_on.
  - unfold removeKey, as_owner. serve_on.
Qed.

Lemma one_default d : good d -> (length (defaults d) <= 1)%nat.
Proof.
  intros G. assert (NoDup (defaults d)) as N by (apply NoDup_ListNoDup, List.NoDup_filter, NoDup_ListNoDup, NoDup_map_to_list).
  assert (forall e, e ∈ defaults d -> roles d !! e.1 = Some e.2 /\ r_default e.2 = true) as H.
  { intros [i r]. unfold defaults. rewrite list_elem_of_In, filter_In, <- list_elem_of_In, elem_of_map_to_list. done. }
  destruct (defaults d) as [|[i a] [|[j b] l]]; cbn [length]; [lia..|].
  destruct (H (i, a)) as [Ha Hda]; [apply list_elem_of_here|]. destruct (H (j, b)) as [Hb Hdb]; [do 2 constructor|]. cbn [fst snd] in *.
  destruct (decide (i = j)) as [->|Hij].
  - apply NoDup_cons in N as [N _]. destruct N. assert (a = b) as -> by congruence. apply list_elem_of_here.
  - pose proof (roles_distinct d G i j a b Ha Hb Hij) as C. unfold role_clashes in C. by rewrite Hda, Hdb, orb_true_r in C.
Qed.

Lemma process_mail_calm payload w : calmly (process_mail cfg payload) w.
Proof. unfold process_mail. serve_on. Qed.

Lemma void_calm {A} (p : prog World A) w : calmly p w -> calmly (void p) w.
Proof. intros Hp. unfold void. apply quiet_bind; [exact _ | exact Hp | intros a w1; apply quiet_done]. Qed.

Lemma entered_calm w p : entered w p -> calmly p w.
Proof.
  intros [w0 r | w0 payload | w0 | w0 f Hf].
  - apply void_calm, handle_calm.
  - apply void_calm, process_mail_calm.
  - apply quiet_once, reap_calm.
  - intros w1 _ G. destruct (Hf w1) as (E & U & T). unfold sound, onward, keeps_records in *. rewrite E, U. split; [done|]. split; [|done]. split; [reflexivity|]. split; [exact T | intros h e; by left].
Qed.

(** *** Links *)

(** The token of a request that follows a link of a confirmation, a reset or a change of address. *)
Definition bears (r : request) : option string :=
  match r with Confirm t => Some t | ApplyReset t _ => Some t | ApplyChangeEmail t => Some t | _ => None end.

(** How long the record of its use is kept: the term of the link. *)
Definition kept_for (r : request) : Z := match r with Confirm _ => 7 * 24 * 3600 | _ => 3600 end.

(** A program that does nothing before it has recorded [hash] as used: from any store the
    others may have left, each of its steps changes nothing at all, until the one that
    records [hash], where it was not recorded; and a program that ends without recording
    it does not answer 200. *)
Fixpoint records_first (hash : string) (ttl : Z) (p : prog World Answer) : Prop :=
  match p with
  | Done r => forall a, r = Ok a -> http a.1 <> 200
  | Step next k => forall w, (next w = w /\ records_first hash ttl (k w)) \/
                             (used w !! hash = None /\ next w = with_used (<[hash := clock w + ttl]> (used w)) w)
  end.

Lemma first_read {A} hash ttl (f : World -> A) k : (forall a, records_first hash ttl (k a)) -> records_first hash ttl (atomic (gets f) ≫= k).
Proof. intros Hk w. left. split; [done | apply Hk]. Qed.

Lemma first_once t ttl k : records_first (sha256 t) ttl (once t ttl k).
Proof.
  intros w. cbn [once atomic mbind prog_bind prog_bind_]. unfold consume_once. cbv zeta. case_match eqn:Hu; [left | by right].
  split; [done|]. by intros a [= <-].
Qed.

Lemma first_opened t ttl p k : (forall sub extra, records_first (sha256 t) ttl (k sub extra)) -> records_first (sha256 t) ttl (opened cfg t p k).
Proof. intros Hk. apply first_read. intros now. case_match; [by intros a [= <-]|]. case_match. apply Hk. Qed.

Lemma first_checked hash ttl parsed errs k : (forall body, records_first hash ttl (k body)) -> records_first hash ttl (checked parsed errs k).
Proof. intros Hk. unfold checked. repeat case_match; [by intros a [= <-] | apply Hk | by intros a [= <-]]. Qed.

Lemma links_record_first r token : bears r = Some token -> records_first (sha256 token) (kept_for r) (handle r).
Proof.
  destruct r; try done; intros [= <-]; cbn [handle kept_for].
  - unfold confirm. apply first_opened. intros sub extra. apply first_once.
  - unfold applyReset. apply first_checked. intros b. apply first_opened. intros sub extra. apply first_once.
  - unfold applyChangeEmail. apply first_opened. intros sub extra. destruct (member "new_email" extra) as [[]|]; try by intros a [= <-].
    intros w. left. split; [by destruct w|]. cbn -[once find_by_email]. destruct (sql _ w).1 as [x|e|]; [|done|done].
    match goal with |- records_first _ _ (if ?b then _ else _) => destruct b end; [by intros a [= <-] | apply first_once].
Qed.

(** Nothing changes, and no success. *)
Definition fruitless (r : request) (w : World) : Prop :=
  (alone (handle r) w).2 = w /\ forall a, (alone (handle r) w).1 = Ok a -> http a.1 <> 200.

Lemma recorded_fruitless r token w : bears r = Some token -> is_Some (used w !! sha256 token) -> fruitless r w.
Proof.
  intros H%links_record_first [e Hu]. unfold fruitless. revert H. generalize (handle r) (kept_for r). intros p ttl. revert w Hu.
  induction p as [x|next k IH]; intros w Hu; cbn [records_first alone]; [done|]. intros H.
  destruct (H w) as [[-> Hk]|[Hn _]]; [by apply IH | congruence].
Qed.

(** A link of the program that is past its term opens nothing. *)
Lemma expired_fruitless r token sub p iat ttl extra w : bears r = Some token ->
  Tokens.issue (Auth.jwt_secret cfg) sub p iat ttl extra = Ok token -> member "exp" extra = None -> get_ll (iat + ttl) < clock w -> fruitless r w.
Proof.
  intros Hr Hi He Hc. assert (forall q, exists err, Tokens.verify (Auth.jwt_secret cfg) token (clock w) q = inl err) as V.
  { intros q. destruct (Tokens.issued_opens _ _ _ _ _ _ _ (clock w) q Hi) as [->|[_ ->]]; [|by eexists]. unfold Tokens.verify_claims.
    case_match; [by eexists|]. rewrite (Tokens.payload_member _ _ _ _ _ _ He). cbn [obj_get String.eqb Ascii.eqb Bool.eqb].
    rewrite (proj2 (Z.ltb_lt _ _)) by done. by eexists. }
  assert (forall q k, alone (opened cfg token q k) w = (Ok invalid_token, w)) as O.
  { intros q k. destruct (V q) as [err E]. cbn [opened atomic alone mbind prog_bind prog_bind_ now_s gets fst snd]. by rewrite E. }
  destruct r; try done; injection Hr as ->; unfold fruitless; cbn [handle].
  - unfold confirm. rewrite O. split; [done|]. by intros a [= <-].
  - unfold applyReset, checked. repeat case_match; try (split; [done|]; by intros a [= <-]). rewrite O. split; [done|]. by intros a [= <-].
  - unfold applyChangeEmail. rewrite O. split; [done|]. by intros a [= <-].
Qed.

(** C37: Identities stay consistent.  From a well-formed database, let requests to the
    session, account, administration, key and organization routes, mail jobs, outages,
    the reaper of expired records and the passing of time interleave in any way: no two
    users ever share an address in any case, every user has a role that exists, at most
    one role is the default, memberships and keys belong to users that exist.  And a
    confirmation, reset or change-of-address link is for one use of its text: wherever
    the other requests are, a request that follows it changes nothing whatever before the
    step in which it records that text as used, takes that step only where the text is
    not recorded, and does not answer 200 without it; and whoever follows a recorded text
    later changes nothing and gets no 200, until the record expires, and, when the link
    was issued by this program with a term that ends no later than the record, for good
    (another spelling of the same link is another text, see [reset_link_replayed]). *)
Theorem accounts_kept w w1 ps1 w2 ps2 : good (db w) -> rtc (turn entered) (w, []) (w1, ps1) -> rtc (turn entered) (w1, ps1) (w2, ps2) ->
  (forall i j a b, users (db w2) !! i = Some a -> users (db w2) !! j = Some b -> ci (email a) = ci (email b) -> i = j) /\
  (forall i u, users (db w2) !! i = Some u -> is_Some (roles (db w2) !! role_id u)) /\
  (length (defaults (db w2)) <= 1)%nat /\
  (forall k m, members_of (db w2) !! k = Some m -> is_valid_role (m_role m) = true /\ is_Some (users (db w2) !! k.2)) /\
  (forall i k, keys (db w2) !! i = Some k -> is_Some (users (db w2) !! key_user k)) /\
  (forall r token, bears r = Some token ->
     records_first (sha256 token) (kept_for r) (handle r) /\
     forall until, used w1 !! sha256 token = Some until ->
       (clock w2 <= until -> fruitless r w2) /\
       (forall sub p iat ttl extra, Tokens.issue (Auth.jwt_secret cfg) sub p iat ttl extra = Ok token -> member "exp" extra = None ->
          get_ll (iat + ttl) <= until -> fruitless r w2)).
Proof.
  intros G H1 H2. destruct (pool_keeps sound onward entered (fun w p _ => entered_calm w p) (w, []) (w1, ps1) H1) as (G1 & _ & Q1); [exact G | by constructor|].
  destruct (pool_keeps sound onward entered (fun w p _ => entered_calm w p) (w1, ps1) (w2, ps2) H2 G1 Q1) as (G2 & [_ [T U]] & _). cbn [fst snd] in *.
  unfold sound in G2. split; [|split; [apply G2|split; [|split; [|split; [apply G2|]]]]].
  - intros i j a b Ha Hb Hc. destruct (decide (i = j)); [done|]. by destruct (emails_distinct _ G2 i j a b).
  - by apply one_default.
  - intros k m Hm. destruct (members_valid _ G2 k m Hm) as (? & _ & ?). done.
  - intros r token Hr. split; [by apply links_record_first|]. intros e Ht.
    assert (e < clock w2 \/ fruitless r w2) as [Hlate|Hf]; [| | by split].
    { destruct (U _ _ Ht) as [Hu|]; [right; by eapply recorded_fruitless | by left]. }
    split; [lia|]. intros sub p iat ttl extra Hi He Hu. eapply expired_fruitless; [done | done | done | lia].
Qed.

End Service.

(** ** Examples *)

Module Example.
Import JournalDb.Reference Tenancy.Example.
#[export] Existing Instances uuid_server ascii_text tree_text Auth.Example.plain_crypto.

Lemma id_text_utf8 n : utf8 (id_text n) = true.
Proof.
  unfold id_text. case_match; [|apply utf8_ascii; clear; by induction n]. apply utf8_app; [reflexivity|]. apply utf8_ascii.
  apply (str_all_impl is_digit); [|apply pad0_all, dec_all].
  intros c [H1%Z.leb_le H2%Z.leb_le]%andb_true_iff. apply andb_true_iff. split; apply Z.leb_le; lia.
Qed.

(** A hash that keeps the beginning of the password, and texts that count. *)
#[refine, export] Instance counting : Secrets := {
  argon2id _ p := str_take 100 (String "$" p); argon2id_verify p h := String.eqb h (str_take 100 (String "$" p));
  random_hex n _ := id_text n
}.
Proof.
  - intros n p. apply String.eqb_refl.
  - intros n p. change (0 < S (size (str_take 99 p)) < 128)%nat. pose proof (str_take_le 99 p). lia.
  - intros m n _ _. apply id_text_inj.
  - intros n _. apply id_text_utf8.
Defined.

Definition cfg : Auth.AuthConfig := Auth.Example.cfg.
Definition with_password : DB := (update_password_hash anna (argon2id 0 "old password") Tenancy.Example.store).2.
Definition with_admin : DB := (create_role "Administrator" Auth.kAdminPermissionBits false with_password).2.
Definition opening : DB := (change_user_role boris 10 with_admin).2.
Definition start : World := mkWorld opening ∅ ∅ ∅ true true true [] [] 1000 0.

Lemma start_good : good (db start).
Proof. apply change_user_role_keeps, create_role_keeps, update_password_hash_keeps, store_good. Qed.

Definition admin : option Auth.AuthPrincipal :=
  Some (Auth.mkPrincipal boris [] [] "" (JObject [("permissions", JInt Auth.kAdminPermissionBits); ("sub", JString boris)])).
Definition answers (ps : list (prog World Answer)) : list (Z * string) :=
  map (fun p => match p with Done (Ok a) => (http a.1, code a.1) | Done (Throw _) => (0, "thrown") | _ => (0, "") end) ps.
Definition run (order : list nat) (w : World) (rs : list request) : World * list (prog World Answer) :=
  schedule order (w, map (handle cfg true true) rs).

Lemma void_runs order w rs :
  rtc (turn (entered cfg true true)) (w, []) (schedule order (w, map (fun r => void (handle cfg true true r)) rs)).
Proof. apply schedule_reached. induction rs; constructor; [constructor | done]. Qed.

(** Two people register with one address, in two spellings, at once. *)
Definition both : list request :=
  map (fun a => Register (Some (JObject [("email", JString a); ("password", JString "long enough")]))) ["new@b.kz"; "New@b.kz"].
Definition later : World * list (prog World ()) := schedule [0; 1; 0; 1; 0; 1; 0; 1]%nat (start, map (fun r => void (handle cfg true true r)) both).

(** Somebody follows a reset link. *)
Definition link : string :=
  match Tokens.issue (Auth.jwt_secret cfg) anna Tokens.ResetPassword 900 3600 (JObject []) with Ok t => t | _ => "" end.
Definition following : request := ApplyReset link (Some (JObject [("new_password", JString "another one")])).
Definition followed : World * list (prog World ()) :=
  schedule (repeat 0 20)%nat (start, map (fun r => void (handle cfg true true r)) [following]).

Lemma accounts_kept_witness :
  ((length (defaults (db later.1)) <= 1)%nat /\ base.size (users (db later.1)) = 3%nat) /\
  (used followed.1 !! sha256 link = Some 4600 /\ fruitless cfg true true following followed.1).
Proof.
  split.
  - split; [|vm_compute; reflexivity].
    assert (rtc (turn (entered cfg true true)) (start, []) (later.1, later.2)) as H by (rewrite <- surjective_pairing; exact (void_runs _ _ _)).
    exact (proj1 (proj2 (proj2 (accounts_kept cfg true true start start [] later.1 later.2 start_good (rtc_refl _ _) H)))).
  - assert (used followed.1 !! sha256 link = Some 4600) as E by (vm_compute; reflexivity). split; [exact E|].
    assert (rtc (turn (entered cfg true true)) (start, []) (followed.1, followed.2)) as H by (rewrite <- surjective_pairing; exact (void_runs _ _ _)).
    destruct (accounts_kept cfg true true start followed.1 followed.2 followed.1 followed.2 start_good H (rtc_refl _ _)) as (_ & _ & _ & _ & _ & L).
    apply (L following link eq_refl) with (until := 4600); [exact E|].
    assert ((clock followed.1 <=? 4600) = true) as T by (vm_compute; reflexivity). apply Z.leb_le. exact T.
Defined.

End Example.

End Accounts.
