(* ===== verification/Sessions.v ===== *)
(** * What sessions promise

    The laws of the handlers of accounts when nothing interferes: what signing in
    gives, what a refresh token is good for and how often, what a new password ends;
    and, by concrete schedules, what happens when they race. *)
From Stdlib Require Import ZArith Lia Ascii String.
From stdpp Require Import relations sorting.
From S2P Require Import Prelude JournalDb Json Utils Threads Agent Requests Auth Tenancy Accounts.
Import Json Threads Http Requests Tenancy Accounts.
Open Scope string_scope.
Open Scope Z_scope.
Set Warnings "-clear-no-such-hyp".

Module Sessions.

Section Laws.
Context `{PG : Postgres} `{TP : PgText} `{SC : Secrets} `{CR : Crypto} `{TX : JsonText}.
Context (cfg : Auth.AuthConfig) (cache_ready via_jobs : bool).

(** ** Claims *)

Lemma obj_get_emplace k k' v l : obj_get k (emplace k' v l) =
  match obj_get k l with Some x => Some x | None => if String.eqb k k' then Some v else None end.
Proof.
  unfold emplace. destruct (obj_get k' l) eqn:E.
  - destruct (obj_get k l) eqn:E'; [done|]. destruct (String.eqb_spec k k'); [congruence | done].
  - rewrite obj_get_set. destruct (String.eqb_spec k k') as [->|]; [by rewrite E | by destruct (obj_get k l)].
Qed.

(** The claims written last, over what is there. *)
Definition late : list string := ["org"; "iss"; "aud"].

Lemma access_claim k l t until org : k ∉ late -> member k (access_claims cfg l t until org) =
  match obj_get k [("confirmed", JBool (confirmed l.1.2)); ("exp", JInt until); ("iat", JInt t); ("permissions", JInt (r_permissions l.2));
                   ("sub", JString l.1.1); ("typ", JString "access")] with
  | Some v => Some v
  | None => if String.eqb k (Auth.jwt_roles_claim cfg) then Some (JArray [JString (r_name l.2)]) else None
  end.
Proof.
  intros H. unfold late in H. rewrite !elem_of_cons in H. assert (forall k', k' ∈ late -> String.eqb k k' = false) as N.
  { intros k' Hk'. apply String.eqb_neq. intros ->. unfold late in Hk'. rewrite !elem_of_cons in Hk'. tauto. }
  unfold access_claims. rewrite <- obj_get_emplace. generalize (emplace (Auth.jwt_roles_claim cfg) (JArray [JString (r_name l.2)])
    [("confirmed", JBool (confirmed l.1.2)); ("exp", JInt until); ("iat", JInt t); ("permissions", JInt (r_permissions l.2));
     ("sub", JString l.1.1); ("typ", JString "access")]). intros base. unfold member.
  destruct org, (String.eqb (Auth.jwt_issuer cfg) ""), (String.eqb (Auth.jwt_audience cfg) ""); rewrite ?obj_get_set, ?N by (unfold late; set_solver); done.
Qed.

(** The names the service keeps for its own claims. *)
Definition own_claims : list string := ["confirmed"; "exp"; "iat"; "permissions"; "sub"; "typ"; "org"; "iss"; "aud"].

Lemma late_claim k l t until org : Auth.jwt_roles_claim cfg ∉ own_claims -> k ∈ late -> member k (access_claims cfg l t until org) =
  if String.eqb k "org" then JString <$> org
  else if String.eqb k "iss" then (if String.eqb (Auth.jwt_issuer cfg) "" then None else Some (JString (Auth.jwt_issuer cfg)))
  else (if String.eqb (Auth.jwt_audience cfg) "" then None else Some (JString (Auth.jwt_audience cfg))).
Proof.
  intros Hr Hk. unfold access_claims. set (base := emplace _ _ _). assert (obj_get k base = None) as Hb.
  { unfold base. rewrite obj_get_emplace. unfold late in Hk. rewrite !elem_of_cons, elem_of_nil in Hk.
    assert (String.eqb k (Auth.jwt_roles_claim cfg) = false) as ->
      by (apply String.eqb_neq; intros E; apply Hr; rewrite <- E; unfold own_claims; rewrite !elem_of_cons; tauto).
    by destruct Hk as [->|[->|[->|[]]]]. }
  unfold late in Hk. rewrite !elem_of_cons, elem_of_nil in Hk. unfold member.
  destruct Hk as [->|[->|[->|[]]]]; destruct org, (String.eqb (Auth.jwt_issuer cfg) ""), (String.eqb (Auth.jwt_audience cfg) "");
    rewrite ?obj_get_set; cbn [String.eqb Ascii.eqb Bool.eqb]; done.
Qed.

(** What the access token of a session opens to. *)
Definition bearer (l : Loaded) (t until : Z) (org : option string) : Auth.AuthPrincipal :=
  let claims := access_claims cfg l t until org in
  Auth.mkPrincipal l.1.1 [r_name l.2] (Auth.strings_of (Auth.jwt_scopes_claim cfg) claims) (match org with Some o => o | None => "" end) claims.

Lemma access_opens l t until org a at_ : Auth.jwt_roles_claim cfg ∉ own_claims ->
  Jwt.issue_hs256_jwt (access_claims cfg l t until org) (Auth.jwt_secret cfg) = Ok a ->
  I64_MIN <= until <= I64_MAX -> I64_MIN <= until + Auth.jwt_leeway_sec cfg <= I64_MAX -> at_ <= until + Auth.jwt_leeway_sec cfg ->
  Auth.verify_jwt cfg at_ a = Ok (inr (bearer l t until org)).
Proof.
  intros Hr Hi Hu Hl Hat. unfold Auth.verify_jwt. rewrite (Jwt.issued_verifies _ _ _ Hi), bind_ok. unfold Auth.principal_from.
  set (claims := access_claims cfg l t until org).
  assert (forall k d, value_string k d claims = match member k claims with None => Ok d | Some v => get_string v end) as Hv.
  { intros k d. assert (is_object claims = true) as Ho by reflexivity. revert Ho. clearbody claims. by destruct claims. }
  assert (Auth.check_times cfg at_ claims = Ok None) as Htimes.
  { unfold Auth.check_times, claims. rewrite !access_claim by (unfold late; set_solver).
    destruct (String.eqb "nbf" (Auth.jwt_roles_claim cfg)); cbn [obj_get String.eqb Ascii.eqb Bool.eqb];
      by rewrite get_ll_id, (add64_ok until), !bind_ok, (proj2 (Z.ltb_ge _ at_)) by done. }
  assert ((if String.eqb (Auth.jwt_issuer cfg) "" then Ok "" else value_string "iss" "" claims) = Ok (Auth.jwt_issuer cfg)) as Hiss.
  { rewrite Hv. unfold claims. rewrite late_claim by (done || (unfold late; set_solver)). cbn [String.eqb Ascii.eqb Bool.eqb].
    by destruct (String.eqb_spec (Auth.jwt_issuer cfg) "") as [->|]. }
  assert (negb (String.eqb (Auth.jwt_audience cfg) "") && negb (Auth.audience_ok cfg claims) = false) as Haud.
  { unfold Auth.audience_ok, claims. rewrite late_claim by (done || (unfold late; set_solver)). cbn [String.eqb Ascii.eqb Bool.eqb].
    destruct (String.eqb (Auth.jwt_audience cfg) ""); cbn [negb andb]; [done|]. by rewrite String.eqb_refl. }
  assert (Auth.strings_of (Auth.jwt_roles_claim cfg) claims = [r_name l.2]) as Hroles.
  { unfold Auth.strings_of, claims. rewrite access_claim by (intros H; apply Hr; unfold late, own_claims in *; set_solver). rewrite String.eqb_refl.
    unfold own_claims in Hr. rewrite !elem_of_cons in Hr. cbn [obj_get]. do 6 (rewrite (proj2 (String.eqb_neq _ _)) by tauto). done. }
  assert (value_string "typ" "" claims = Ok "access") as -> by by rewrite Hv; unfold claims; rewrite access_claim by (unfold late; set_solver).
  assert (value_string "sub" "" claims = Ok l.1.1) as -> by by rewrite Hv; unfold claims; rewrite access_claim by (unfold late; set_solver).
  assert (value_string "org" "" claims = Ok match org with Some o => o | None => "" end) as ->
    by (rewrite Hv; unfold claims; rewrite late_claim by (done || (unfold late; set_solver)); by destruct org).
  rewrite bind_ok. cbn [String.eqb Ascii.eqb Bool.eqb]. rewrite Htimes, bind_ok, Hiss, bind_ok, String.eqb_refl. cbn [negb]. rewrite Haud, !bind_ok.
  unfold bearer. fold claims. by rewrite Hroles.
Qed.

(** ** Minting *)

Context (Hsecret : Auth.jwt_secret cfg <> "").

Lemma issue_total claims : clean claims = true -> exists t, Jwt.issue_hs256_jwt claims (Auth.jwt_secret cfg) = Ok t.
Proof.
  intros Hc. unfold Jwt.issue_hs256_jwt. rewrite (proj2 (String.eqb_neq _ _) Hsecret).
  destruct (dump_writes (JObject [("alg", JString "HS256"); ("typ", JString "JWT")]) eq_refl) as [h ->].
  rewrite bind_ok. destruct (dump_writes claims Hc) as [p ->]. by eexists.
Qed.

(** The organization of the access token: the only one the user belongs to. *)
Definition only_org (id : string) (d : DB) : option string :=
  match memberships (fun k => String.eqb k.2 id) d with [e] => Some e.1.1 | _ => None end.

(** The texts of a user that go into the claims are UTF-8, as every text of the database. *)
Definition in_utf8 (l : Loaded) (d : DB) : Prop :=
  utf8 l.1.1 = true /\ utf8 (r_name l.2) = true /\ forall o, only_org l.1.1 d = Some o -> utf8 o = true.

Lemma access_clean l t until org : utf8 (Auth.jwt_roles_claim cfg) && utf8 (Auth.jwt_issuer cfg) && utf8 (Auth.jwt_audience cfg) = true ->
  utf8 l.1.1 = true -> utf8 (r_name l.2) = true -> (forall o, org = Some o -> utf8 o = true) -> clean (access_claims cfg l t until org) = true.
Proof.
  intros [[Hr Hi]%andb_true_iff Ha]%andb_true_iff Hs Hn Ho. unfold access_claims. cbn [clean]. fold clean_entries.
  set (base := [("confirmed", _); _; _; _; _; _]).
  assert (Hb : clean_entries (emplace (Auth.jwt_roles_claim cfg) (JArray [JString (r_name l.2)]) base) = true).
  { assert (clean_entries base = true) by (unfold clean_entries, base; cbn [forallb fst snd clean]; rewrite Hs; reflexivity).
    unfold emplace. case_match; [done|]. apply clean_set; [done | cbn [clean forallb]; by rewrite Hn | done]. }
  destruct org as [o|]; [pose proof (clean_set "org" (JString o) _ eq_refl (Ho o eq_refl) Hb) as Hb'; clear Hb; rename Hb' into Hb|];
    destruct (String.eqb (Auth.jwt_issuer cfg) ""), (String.eqb (Auth.jwt_audience cfg) ""); repeat (apply clean_set; [done | done |]); exact Hb.
Qed.

Lemma refresh_clean id n k t until : utf8 id = true -> clean (refresh_claims id (random_hex n k) t until) = true.
Proof. intros Hi. unfold refresh_claims. cbn [clean forallb fst snd]. rewrite Hi, random_hex_utf8. reflexivity. Qed.

Definition next_jti (w : World) : string := random_hex (draws w) 16.
Definition refresh_ttl : Z := Auth.refresh_ttl_sec (Auth.cookies cfg).
Definition access_ttl : Z := Auth.access_ttl_sec (Auth.cookies cfg).

(** The store after a session has been recorded. *)
Definition recorded (id : string) (w : World) : World :=
  with_indexed (insert id ({[next_jti w]} ∪ (members_now id w).1, Some (clock w + refresh_ttl)))
    (with_live (insert (next_jti w) (clock w + refresh_ttl)) (drawn w)).

Definition timely (w : World) : Prop := I64_MIN <= clock w + access_ttl <= I64_MAX /\ I64_MIN <= clock w + refresh_ttl <= I64_MAX.

Lemma members_now_drawn id w f : members_now id (with_live f (drawn w)) = members_now id w.
Proof. done. Qed.

Lemma record_alone id w : cache_ready = true -> redis_up w = true ->
  alone (record cache_ready id (next_jti w) refresh_ttl) (drawn w) = (Ok true, recorded id w).
Proof.
  intros -> Hr. unfold record. cbn [negb]. rewrite (alone_step _ _ _ true (with_live (insert (next_jti w) (clock w + refresh_ttl)) (drawn w)))
    by (unfold set_live; cbn [redis_up drawn]; by rewrite Hr). cbn [negb]. rewrite alone_bind. unfold swallow. rewrite alone_catch.
  set (w1 := with_live _ _). set (s := (members_now id w).1). set (e := (members_now id w).2).
  rewrite (alone_step _ _ _ tt (with_indexed (insert id ({[next_jti w]} ∪ s, e)) w1)).
  2:{ unfold sadd. cbn [redis_up with_live drawn w1]. rewrite Hr. unfold w1. rewrite members_now_drawn. unfold s, e. by destruct (members_now id w). }
  rewrite alone_atomic. unfold expire_set. cbn [redis_up with_indexed with_live drawn w1]. rewrite Hr.
  assert (members_now id (with_indexed (insert id ({[next_jti w]} ∪ s, e)) w1) = ({[next_jti w]} ∪ s, e)) as ->.
  { unfold members_now at 1. cbn [indexed with_indexed with_live drawn w1 clock]. rewrite lookup_insert_eq.
    assert (expired e (clock w) = false) as ->; [|done]. unfold e, members_now. destruct (indexed w !! id) as [[s0 e0]|]; [|done].
    by destruct (expired e0 (clock w)) eqn:E. }
  cbn [alone fst]. unfold recorded, with_indexed. cbn [indexed clock with_live drawn w1]. by rewrite insert_insert_eq.
Qed.

Context (Hnames : utf8 (Auth.jwt_roles_claim cfg) && utf8 (Auth.jwt_issuer cfg) && utf8 (Auth.jwt_audience cfg) = true).

Lemma mint_alone l w : in_utf8 l (db w) -> timely w -> cache_ready = true -> redis_up w = true ->
  exists a r, alone (mint_session cfg cache_ready l) w = (Ok (Some (mkSession a r)), recorded l.1.1 w) /\
    Jwt.issue_hs256_jwt (access_claims cfg l (clock w) (clock w + access_ttl) (only_org l.1.1 (db w))) (Auth.jwt_secret cfg) = Ok a /\
    Jwt.issue_hs256_jwt (refresh_claims l.1.1 (next_jti w) (clock w) (clock w + refresh_ttl)) (Auth.jwt_secret cfg) = Ok r.
Proof.
  intros (Hl1 & Hl2 & Hl3) [H1 H2] Hc Hr.
  destruct (issue_total (access_claims cfg l (clock w) (clock w + access_ttl) (only_org l.1.1 (db w)))) as [a Ha]; [by apply access_clean|].
  destruct (issue_total (refresh_claims l.1.1 (next_jti w) (clock w) (clock w + refresh_ttl))) as [r Hrt]; [by apply refresh_clean|]. exists a, r. split; [|done].
  unfold mint_session. rewrite (proj2 (String.eqb_neq _ _) Hsecret). rewrite (alone_step _ _ w (clock w) w) by done.
  fold access_ttl refresh_ttl. rewrite (add64_ok (clock w) access_ttl), pure_ok by done.
  rewrite (alone_step _ _ w (memberships (fun k => String.eqb k.2 l.1.1) (db w)) w) by (unfold sql; cbn; by destruct w).
  rewrite (alone_step _ _ w (next_jti w) (drawn w)) by done. rewrite (add64_ok (clock w) refresh_ttl), pure_ok by done.
  fold (only_org l.1.1 (db w)). rewrite Ha, pure_ok, Hrt, pure_ok, Hc. cbn [negb]. rewrite alone_bind. rewrite <- Hc. by rewrite record_alone.
Qed.



(** ** What a session serves *)

(** The session is open in this store: its access token is the user's until it expires,
    with the leeway, and says the role and the organization of the moment; its refresh
    token is one that is live and on the user's list. *)
Record serves (l : Loaded) (w w' : World) (a r : string) : Prop := mkServes {
  serves_access : forall at_, at_ <= clock w + access_ttl + Auth.jwt_leeway_sec cfg ->
    Auth.verify_jwt cfg at_ a = Ok (inr (bearer l (clock w) (clock w + access_ttl) (only_org l.1.1 (db w))));
  serves_refresh : Jwt.verify_hs256_jwt r (Auth.jwt_secret cfg) = Ok (inr (refresh_claims l.1.1 (next_jti w) (clock w) (clock w + refresh_ttl)));
  serves_live : is_live_in w' (next_jti w) = true;
  serves_listed : next_jti w ∈ (members_now l.1.1 w').1
}.

(** The configuration of a service in use: a claim of its own for the roles, a cache, and
    a clock within range. *)
Record configured : Prop := mkConfigured {
  own_roles_claim : Auth.jwt_roles_claim cfg ∉ own_claims;
  has_cache : cache_ready = true;
  refresh_lasts : 0 < refresh_ttl
}.

Definition in_time (w : World) : Prop :=
  timely w /\ I64_MIN <= clock w + access_ttl + Auth.jwt_leeway_sec cfg <= I64_MAX.

Lemma recorded_live id w : 0 < refresh_ttl ->
  is_live_in (recorded id w) (next_jti w) = true /\ next_jti w ∈ (members_now id (recorded id w)).1.
Proof.
  intros H. unfold is_live_in, members_now, recorded. cbn [live clock with_indexed with_live drawn indexed]. rewrite !lookup_insert_eq.
  unfold expired. rewrite (proj2 (Z.leb_gt _ _)) by lia. split; [done | set_solver].
Qed.

Lemma recorded_others id w jti : jti <> next_jti w -> is_live_in (recorded id w) jti = is_live_in w jti.
Proof. intros H. unfold is_live_in, recorded. cbn [live clock with_indexed with_live drawn]. by rewrite lookup_insert_ne by congruence. Qed.

Lemma mint_serves l w : in_utf8 l (db w) -> configured -> in_time w -> redis_up w = true ->
  exists a r, alone (mint_session cfg cache_ready l) w = (Ok (Some (mkSession a r)), recorded l.1.1 w) /\ serves l w (recorded l.1.1 w) a r.
Proof.
  intros Hl8 [Hr Hc Hp] [Ht Hl] Hu. destruct (mint_alone l w Hl8 Ht Hc Hu) as (a & r & E & Ha & Hrt). exists a, r. split; [done|].
  destruct (recorded_live l.1.1 w Hp) as [H1 H2]. split; [|by apply Jwt.issued_verifies | done..].
  intros at_ Hat. apply access_opens; try done. apply Ht.
Qed.

Lemma sql_reads {A} (f : DB -> A) w : sql (gets f) w = (Ok (f (db w)), w).
Proof. by destruct w. Qed.

(** The user of an address and a password. *)
Definition credentials_of (address password : string) (d : DB) : option Loaded :=
  match (find_by_email address d).1 with
  | Ok (Some l) => match password_hash l.1.2 with Some h => if verify_password password h then Some l else None | None => None end
  | _ => None
  end.

Lemma checked_ok body errs k : errs body = [] -> checked (Some body) errs k = k body.
Proof. intros E. unfold checked. by rewrite E. Qed.

Lemma required body f s errs : member f body = Some (JString s) -> Validation.require body f errs = errs.
Proof. intros E. unfold Validation.require, Validation.present. by rewrite E. Qed.

Lemma text_of_field f body s : member f body = Some (JString s) -> field_string f body = Ok s.
Proof. intros E. unfold field_string. by rewrite E. Qed.

(** Signing in takes the password, and says nothing without it.  With a valid address and
    password, the answer is 200 with two tokens: the access token is accepted as that
    user, with the role the database has now, until it expires, and the refresh token is
    live and on the user's list; everything else in the store is as it was.  In every
    other case, be the address unknown, the account without a password or the password
    wrong, the answer is one and the same and the store is untouched. *)
Theorem login_opens_session body address password w : configured -> in_time w -> redis_up w = true ->
  member "email" body = Some (JString address) -> member "password" body = Some (JString password) ->
  (forall l, credentials_of address password (db w) = Some l -> in_utf8 l (db w)) ->
  match credentials_of address password (db w) with
  | Some l => exists a r, alone (login cfg cache_ready (Some body)) w =
                (Ok (mkReply 200 "" (JObject [("user", loaded_json l)]), Some (a, r)), recorded l.1.1 w) /\ serves l w (recorded l.1.1 w) a r
  | None => alone (login cfg cache_ready (Some body)) w = (Ok bad_credentials, w)
  end.
Proof.
  intros Hc Ht Hu He Hp H8. unfold login. rewrite checked_ok by by rewrite (required _ "email" address), (required _ "password" password).
  rewrite (text_of_field "email" _ address), pure_ok, (text_of_field "password" _ password), pure_ok by done.
  revert H8. unfold credentials_of, find_by_email. intros H8. rewrite (alone_step _ _ _ _ _ (sql_reads _ w)). revert H8. unfold gets. cbn [fst].
  destruct (List.find _ _ ≫= _) as [[[id u] r]|]; [|done]. cbn [fst snd]. destruct (password_hash u) as [h|]; [|done].
  destruct (verify_password password h); cbn [negb]; [|done]. intros H8. destruct (mint_serves (id, u, r) w (H8 _ eq_refl) Hc Ht Hu) as (a & rt & E & S).
  exists a, rt. split; [|done]. rewrite alone_bind, E. reflexivity.
Qed.

(** ** Refresh tokens *)

Lemma is_live_alone w jti : cache_ready = true -> redis_up w = true -> alone (is_live cache_ready jti) w = (Ok (is_live_in w jti), w).
Proof. intros Hc Hu. unfold is_live. rewrite Hc, alone_atomic. unfold gets. by rewrite Hu. Qed.

Lemma revoke_jti_alone w jti : cache_ready = true -> redis_up w = true -> alone (revoke_jti cache_ready jti) w = (Ok tt, with_live (delete jti) w).
Proof. intros Hc Hu. unfold revoke_jti. rewrite Hc, alone_atomic. unfold del_live. by rewrite Hu. Qed.

(** What a request to refresh comes down to when its token is signed. *)
Lemma refresh_rotates req w sub jti t until : sub <> "" -> jti <> "" -> Auth.extract_refresh_token req (Auth.cookies cfg) <> "" ->
  Jwt.verify_hs256_jwt (Auth.extract_refresh_token req (Auth.cookies cfg)) (Auth.jwt_secret cfg) = Ok (inr (refresh_claims sub jti t until)) ->
  alone (refresh cfg cache_ready req) w = alone (rotate cfg cache_ready (Auth.extract_refresh_token req (Auth.cookies cfg)) sub jti) w.
Proof.
  intros Hs Hj Ht Hv. unfold refresh. cbv zeta. rewrite (proj2 (String.eqb_neq _ _) Ht), Hv, pure_ok.
  unfold refresh_claims, value_string, value. cbn [obj_get String.eqb Ascii.eqb Bool.eqb get_string]. rewrite !pure_ok.
  cbn [String.eqb Ascii.eqb Bool.eqb negb]. by rewrite (proj2 (String.eqb_neq _ _) Hs), (proj2 (String.eqb_neq _ _) Hj).
Qed.

(** C38: A refresh token is good once, one request after another.  With Redis up and nothing
    else under way (two requests at the same moment both pass, as [two_refreshes] below
    shows), and texts in UTF-8 as the database keeps them: presented while it is live and
    its user exists, it gives a new session of that user and is dead from then on; and
    whenever it is not live, be it for having been used, for a logout, for a new password
    or for its age, the answer is 401 and nothing is changed. *)
Theorem refresh_once req w l jti t until : configured -> in_utf8 l (db w) -> in_time w -> redis_up w = true -> l.1.1 <> "" -> jti <> "" ->
  Auth.extract_refresh_token req (Auth.cookies cfg) <> "" ->
  Jwt.verify_hs256_jwt (Auth.extract_refresh_token req (Auth.cookies cfg)) (Auth.jwt_secret cfg) = Ok (inr (refresh_claims l.1.1 jti t until)) ->
  (is_live_in w jti = true -> (exists n, (n < draws w)%nat /\ jti = random_hex n 16) -> joined l.1.1 (db w) = Some l ->
   exists a r w', alone (refresh cfg cache_ready req) w = (Ok (mkReply 200 "" (JObject [("user", loaded_json l)]), Some (a, r)), w') /\
     serves l w w' a r /\ is_live_in w' jti = false) /\
  (forall w2, redis_up w2 = true -> is_live_in w2 jti = false -> alone (refresh cfg cache_ready req) w2 = (Ok (plain (refusal 401 "revoked")), w2)).
Proof.
  intros Hc H8 Ht Hu Hs Hj Hx Hv. split.
  - intros Hl (n & Hn & Ej) Hd. rewrite (refresh_rotates _ _ _ _ _ _ Hs Hj Hx Hv). unfold rotate.
    rewrite alone_bind, is_live_alone, Hl by (done || apply Hc). cbn [negb]. unfold find_user.
    rewrite (alone_step _ _ _ _ _ (sql_reads _ w)), Hd. rewrite alone_bind, revoke_jti_alone by (done || apply Hc).
    set (w1 := with_live (delete jti) w). destruct (mint_serves l w1 H8 Hc Ht Hu) as (a & r & E & S).
    exists a, r, (recorded l.1.1 w1). rewrite alone_bind, E. split; [done|]. split.
    + destruct S as [S1 S2 S3 S4]. by constructor.
    + rewrite recorded_others.
      * unfold is_live_in, w1. cbn [live with_live]. by rewrite lookup_delete_eq.
      * intros E'. rewrite Ej in E'. apply random_hex_fresh in E'; [|lia]. cbn in E'. lia.
  - intros w2 Hu2 Hd. rewrite (refresh_rotates _ _ _ _ _ _ Hs Hj Hx Hv). unfold rotate.
    by rewrite alone_bind, is_live_alone, Hd by (done || apply Hc).
Qed.

End Laws.

(** ** A new password *)

Section Passwords.
Context `{PG : Postgres} `{TP : PgText} `{SC : Secrets} `{CR : Crypto} `{TX : JsonText}.
Context (cfg : Auth.AuthConfig) (cache_ready : bool).

Definition deleted (jtis : list string) (l : gmap string Z) : gmap string Z := foldl (fun l j => delete j l) l jtis.

Lemma deleted_lookup jtis j : forall l, deleted jtis l !! j = if bool_decide (j ∈ jtis) then None else l !! j.
Proof.
  induction jtis as [|i r IH]; intros l; cbn [deleted foldl]; [done|]. unfold deleted in IH. rewrite IH. case_bool_decide as H1.
  - by rewrite bool_decide_eq_true_2 by by apply list_elem_of_further.
  - destruct (decide (j = i)) as [->|Hj].
    + rewrite bool_decide_eq_true_2 by apply list_elem_of_here. apply lookup_delete_eq.
    + rewrite lookup_delete_ne, bool_decide_eq_false_2; [done | by intros [|]%elem_of_cons | congruence].
Qed.

Lemma del_each_alone jtis : forall w, redis_up w = true -> alone (del_each jtis) w = (Ok tt, with_live (deleted jtis) w).
Proof.
  induction jtis as [|j r IH]; intros w Hu; cbn [del_each]; [by destruct w|].
  rewrite (alone_step _ _ w tt (with_live (delete j) w)) by (unfold del_live; by rewrite Hu). by rewrite IH.
Qed.

(** Every refresh token on the user's list is dead, and the list is gone. *)
Definition evicted (sub : string) (w : World) : World :=
  with_indexed (delete sub) (with_live (deleted (elements (members_now sub w).1)) w).

Lemma revoke_all_alone sub w : cache_ready = true -> redis_up w = true -> alone (revoke_all cache_ready sub) w = (Ok tt, evicted sub w).
Proof.
  intros Hc Hu. unfold revoke_all, swallow. rewrite Hc. cbn [negb]. rewrite alone_catch.
  rewrite (alone_step _ _ w (members_now sub w).1 w) by (unfold smembers; by rewrite Hu).
  rewrite alone_bind, del_each_alone by done. rewrite alone_atomic. unfold del_set. cbn [redis_up with_live]. by rewrite Hu.
Qed.

Lemma evicted_dead sub w jti : jti ∈ (members_now sub w).1 -> is_live_in (evicted sub w) jti = false.
Proof.
  intros H. unfold is_live_in, evicted. cbn [live with_indexed with_live].
  by rewrite deleted_lookup, bool_decide_eq_true_2 by by apply elem_of_elements.
Qed.

Lemma hashed_verifies n p : p <> "" -> verify_password p (argon2id n p) = true.
Proof.
  intros Hp. unfold verify_password. rewrite (proj2 (String.eqb_neq _ _) Hp). cbn [orb]. pose proof (argon2id_size n p) as [H1 H2].
  destruct (String.eqb_spec (argon2id n p) "") as [E|]; [rewrite E in H1; cbn in H1; lia|]. rewrite (proj2 (Nat.leb_gt _ _)) by lia. apply argon2id_verifies.
Qed.

(** A password of the length the handlers ask for. *)
Definition good_password (p : string) : Prop := (8 <= size p <= 128)%nat.

Lemma new_password_fine body p : member "new_password" body = Some (JString p) -> good_password p -> new_password_errors body = [].
Proof.
  intros E [H1 H2]. unfold new_password_errors, password_field, Validation.string_length, Validation.present. rewrite (required _ _ p), E by done.
  by rewrite (proj2 (Nat.ltb_ge _ _) H1), (proj2 (Nat.ltb_ge _ _) H2).
Qed.

(** The store once a password is set by a link. *)
Definition with_hash (h : string) (u : User) : User :=
  mkUser (email u) (Some h) (first_name u) (last_name u) (confirmed u) (role_id u) (u_created u).
Definition after_reset (token sub : string) (u : User) (password : string) (w : World) : World :=
  evicted sub (with_db (with_users (insert sub (with_hash (argon2id (draws w) password) u)) (db w)) (drawn (with_used (<[sha256 token := clock w + 3600]> (used w)) w))).

Lemma reset_alone token body password w sub extra u : cache_ready = true -> redis_up w = true ->
  member "new_password" body = Some (JString password) -> good_password password ->
  Tokens.verify (Auth.jwt_secret cfg) token (clock w) Tokens.ResetPassword = inr (sub, extra) -> used w !! sha256 token = None ->
  users (db w) !! sub = Some u ->
  alone (applyReset cfg cache_ready token (Some body)) w = (Ok (message "Password updated"), after_reset token sub u password w).
Proof.
  intros Hc Hu Hb Hg Hv Hn Hs. unfold applyReset. rewrite checked_ok by by eapply new_password_fine. unfold opened.
  rewrite (alone_step _ _ w (clock w) w) by done. rewrite Hv. unfold once.
  rewrite (alone_step _ _ w true (with_used (<[sha256 token := clock w + 3600]> (used w)) w)) by (unfold consume_once; cbv zeta; by rewrite Hn).
  unfold guarded. rewrite alone_catch, (text_of_field _ _ password), pure_ok by done. unfold hash_password.
  rewrite (proj2 (String.eqb_neq _ _)) by (intros ->; destruct Hg; cbn in *; lia).
  set (w1 := with_used _ w). rewrite (alone_step _ _ w1 (argon2id (draws w) password) (drawn w1)) by done. set (h := argon2id _ _).
  rewrite (alone_step _ _ (drawn w1) tt (with_db (with_users (insert sub (with_hash h u)) (db w)) (drawn w1)))
    by (unfold sql, update_password_hash, set_user; cbn [db drawn w1 with_used]; by rewrite Hs).
  by rewrite alone_bind, revoke_all_alone by done.
Qed.

(** A reset link sets the password and ends the sessions.  Used once, it makes the new
    password the one that is accepted for its user, leaves no refresh token on the user's
    list live, and touches no other user, no membership and no API key; used again it is
    refused, and nothing changes. *)
Theorem reset_evicts token body password w sub extra u : cache_ready = true -> redis_up w = true ->
  member "new_password" body = Some (JString password) -> good_password password ->
  Tokens.verify (Auth.jwt_secret cfg) token (clock w) Tokens.ResetPassword = inr (sub, extra) -> used w !! sha256 token = None ->
  users (db w) !! sub = Some u ->
  exists w' h, alone (applyReset cfg cache_ready token (Some body)) w = (Ok (message "Password updated"), w') /\
    users (db w') = <[sub := with_hash h u]> (users (db w)) /\ verify_password password h = true /\
    (forall jti, jti ∈ (members_now sub w).1 -> is_live_in w' jti = false) /\
    members_of (db w') = members_of (db w) /\ keys (db w') = keys (db w) /\
    (forall w2, used w' ⊆ used w2 -> clock w2 = clock w -> alone (applyReset cfg cache_ready token (Some body)) w2 = (Ok invalid_token, w2)).
Proof.
  intros Hc Hu Hb Hg Hv Hn Hs. exists (after_reset token sub u password w), (argon2id (draws w) password).
  split; [by eapply reset_alone|]. split; [done|].
  split; [apply hashed_verifies; intros ->; destruct Hg; cbn in *; lia|]. split; [intros jti Hj; by apply evicted_dead|].
  split; [done|]. split; [done|]. intros w2 Hused Hclock. unfold applyReset. rewrite checked_ok by by eapply new_password_fine. unfold opened.
  rewrite (alone_step _ _ w2 (clock w2) w2) by done. rewrite Hclock, Hv. unfold once.
  rewrite (alone_step _ _ w2 false w2); [done|]. unfold consume_once. cbv zeta.
  rewrite (lookup_weaken (used (after_reset token sub u password w)) (used w2) (sha256 token) (clock w + 3600)); [done | | exact Hused].
  unfold after_reset. cbn. apply lookup_insert_eq.
Qed.

(** One reset link, two passwords.  The link is remembered by the hash of its text, and
    its signature may be followed by a character the decoder skips: with an equals sign
    at its end, the text is another and the token the same, so that a link already used
    sets the password once more. *)
Theorem reset_link_replayed token c body password body2 password2 w sub extra u : cache_ready = true -> redis_up w = true ->
  member "new_password" body = Some (JString password) -> good_password password ->
  member "new_password" body2 = Some (JString password2) -> good_password password2 ->
  Tokens.verify (Auth.jwt_secret cfg) token (clock w) Tokens.ResetPassword = inr (sub, extra) -> users (db w) !! sub = Some u ->
  Base64.skipped c = true -> used w !! sha256 token = None -> used w !! sha256 (token +:+ String c "") = None -> sha256 (token +:+ String c "") <> sha256 token ->
  exists w1 w2 h, alone (applyReset cfg cache_ready token (Some body)) w = (Ok (message "Password updated"), w1) /\
    alone (applyReset cfg cache_ready (token +:+ String c "") (Some body2)) w1 = (Ok (message "Password updated"), w2) /\
    users (db w2) !! sub = Some (with_hash h u) /\ verify_password password2 h = true.
Proof.
  intros Hc Hu Hb Hg Hb2 Hg2 Hv Hs Hk Hn Hn2 Hne. set (w1 := after_reset token sub u password w).
  exists w1, (after_reset (token +:+ String c "") sub (with_hash (argon2id (draws w) password) u) password2 w1), (argon2id (draws w1) password2).
  split; [by eapply reset_alone|]. split; [|split; [|apply hashed_verifies; intros ->; destruct Hg2; cbn in *; lia]].
  - eapply reset_alone; try done.
    + cbn [clock]. rewrite Tokens.padded_verifies; [exact Hv | done|]. intros E. unfold Tokens.verify in Hv. rewrite E in Hv.
      by destruct (String.eqb (Auth.jwt_secret cfg) "").
    + unfold w1, after_reset. cbn. by rewrite lookup_insert_ne.
    + unfold w1, after_reset. cbn. apply lookup_insert_eq.
  - unfold after_reset at 1. cbn. by rewrite lookup_insert_eq.
Qed.

End Passwords.

(** ** Examples: requests that race *)

Module Example.
Import JournalDb.Reference Tenancy.Example Accounts.Example.

Definition password_body (old new : string) : option json := Some (JObject [("new_password", JString new); ("old_password", JString old)]).
Definition login_body (address password : string) : option json := Some (JObject [("email", JString address); ("password", JString password)]).

(** Anna has a session: a refresh token that is live and on her list. *)
Definition token_id : string := id_text 0.
Definition signed_in : World := with_indexed (insert anna ({[token_id]}, Some 2000)) (with_live (insert token_id 2000) (drawn start)).

(** The refresh tokens that are live, and how many Anna's list holds. *)
Definition live_now (w : World) : list string := List.filter (is_live_in w) (map fst (map_to_list (live w))).
Definition on_list (w : World) : nat := base.size (members_now anna w).1.

Definition rotating : prog World Answer := rotate cfg true "" anna token_id.
Definition changing (old new : string) : prog World Answer := handle cfg true true (ChangePassword (by_user anna) (password_body old new)).
Definition signing_in (password : string) : prog World Answer := handle cfg true true (Login (login_body "Anna@b.kz" password)).

(** One refresh token presented twice at the same time: each request finds it live before
    the other has revoked it, and there are two sessions. *)
Example two_refreshes :
  let '(w, ps) := schedule [0; 1; 0; 1; 0; 1; 0; 1; 0; 1; 0; 1; 0; 1; 0; 1; 0; 1; 0; 1]%nat (signed_in, [rotating; rotating]) in
  (answers ps, length (live_now w), on_list w) = ([(200, ""); (200, "")], 2%nat, 3%nat).
Proof. vm_compute. reflexivity. Qed.

(** A refresh under way when the password changes: the new session outlives the change. *)
Example refresh_survives :
  let '(w, ps) := schedule ([0; 0]%nat ++ repeat 1%nat 12 ++ repeat 0%nat 12)%list (signed_in, [rotating; changing "old password" "new password"]) in
  (answers ps, length (live_now w)) = ([(200, ""); (200, "")], 1%nat).
Proof. vm_compute. reflexivity. Qed.

(** A login that has checked the old password when it changes gets its session. *)
Example login_survives :
  let '(w, ps) := schedule ([0]%nat ++ repeat 1%nat 12 ++ repeat 0%nat 12)%list (signed_in, [signing_in "old password"; changing "old password" "new password"]) in
  (answers ps, length (live_now w)) = ([(200, ""); (200, "")], 1%nat).
Proof. vm_compute. reflexivity. Qed.

(** A session recorded after the list was read, and before it was deleted, is on no list:
    the next change of the password does not end it either. *)
Example session_unlisted :
  let '(w, ps) := schedule (repeat 0%nat 4 ++ repeat 1%nat 12 ++ repeat 0%nat 12)%list (signed_in, [changing "old password" "new password"; signing_in "new password"]) in
  let w2 := (alone (changing "new password" "newer password") w).2 in
  (answers ps, on_list w2, length (live_now w2)) = ([(200, ""); (200, "")], 0%nat, 1%nat).
Proof. vm_compute. reflexivity. Qed.

(** The default role may not be deleted, but it may cease to be the default: nobody can
    register then. *)
Example default_role_lost :
  let w := (alone (handle cfg true true (UpdateRole admin "1" (Some (JObject [("is_default", JBool false)])))) start).2 in
  answers (map (fun r => Done (alone (handle cfg true true r) w).1)
    [DeleteRole admin "1"; Register (login_body "new@b.kz" "long enough")]) = [(409, "role_in_use"); (503, "misconfigured")].
Proof. vm_compute. reflexivity. Qed.

(** An administrator may not delete their own account, unless its identifier is spelled
    in capitals. *)
Definition carol : string := "0000000c-0000-4000-8000-000000000000".
Definition carols : World := with_db (with_users (insert carol (user_of "carol@b.kz")) (db start)) start.
Definition as_carol : option Auth.AuthPrincipal :=
  Some (Auth.mkPrincipal carol [] [] "" (JObject [("permissions", JInt Auth.kAdminPermissionBits)])).
Example deletes_itself :
  answers (map (fun id => Done (alone (handle cfg true true (DeleteUser as_carol id)) carols).1)
    [carol; "0000000C-0000-4000-8000-000000000000"]) = [(400, "self_delete"); (200, "")].
Proof. vm_compute. reflexivity. Qed.

(** Bodies of another type, and a path that is no identifier, end in an exception that
    the handler does not catch. *)
Example uncaught :
  answers (map (fun r => Done (alone (handle cfg true true r) start).1)
    [Login (Some (JObject [("email", JInt 1); ("password", JString "x")]));
     CreateRole admin (Some (JObject [("is_default", JInt 1); ("name", JString "x"); ("permissions", JInt 1)]));
     CreateKey (by_user anna) (Some (JObject [("name", JInt 1)])); RemoveKey (by_user anna) "x"])
  = [(0, "thrown"); (0, "thrown"); (0, "thrown"); (0, "thrown")].
Proof. vm_compute. reflexivity. Qed.

Lemma secret_set : Auth.jwt_secret cfg <> "".
Proof. done. Qed.

Lemma well_configured : configured cfg true.
Proof. constructor; [|done|done]. unfold own_claims. rewrite !elem_of_cons, elem_of_nil. cbn. intros H. by repeat destruct H as [H|H]. Qed.

Lemma start_in_time : in_time cfg start.
Proof. unfold in_time, timely, access_ttl, refresh_ttl, I64_MIN, I64_MAX. cbn. lia. Qed.

Definition the_anna : Loaded :=
  (anna, with_hash (argon2id 0 "old password") (user_of "anna@b.kz"), mkRole "User" 1 true).

Lemma anna_utf8 : in_utf8 the_anna (db start).
Proof.
  split; [vm_compute; reflexivity|]. split; [vm_compute; reflexivity|].
  assert (match only_org (the_anna.1.1) (db start) with Some o => utf8 o | None => true end = true) as H by (vm_compute; reflexivity).
  intros o E. rewrite E in H. exact H.
Qed.

Lemma login_opens_session_witness :
  (exists a r, alone (login cfg true (login_body "Anna@b.kz" "old password")) start =
     (Ok (mkReply 200 "" (JObject [("user", loaded_json the_anna)]), Some (a, r)), recorded cfg anna start)) /\
  alone (login cfg true (login_body "Anna@b.kz" "guess")) start = (Ok bad_credentials, start).
Proof.
  pose proof (fun p => login_opens_session cfg true secret_set eq_refl
    (JObject [("email", JString "Anna@b.kz"); ("password", JString p)]) "Anna@b.kz" p start well_configured start_in_time eq_refl eq_refl eq_refl) as H.
  split; [|refine (H "guess" _); intros l E; assert (credentials_of "Anna@b.kz" "guess" (db start) = None) as N by (vm_compute; reflexivity); congruence].
  specialize (H "old password").
  assert (credentials_of "Anna@b.kz" "old password" (db start) = Some the_anna) as E by (vm_compute; reflexivity).
  rewrite E in H. destruct H as (a & r & H & _); [|exists a, r; exact H]. intros l El. injection El as <-. exact anna_utf8.
Defined.

Definition refresh_text : string :=
  match Jwt.issue_hs256_jwt (refresh_claims anna token_id 900 2000) (Auth.jwt_secret cfg) with Ok t => t | _ => "" end.
Definition refreshing : Auth.Request := Auth.mkRequest "POST" "/api/v1/auth/refresh" "" "" (fun k => if String.eqb k "r" then refresh_text else "").

Lemma refresh_once_witness : exists a r w', alone (refresh cfg true refreshing) signed_in =
  (Ok (mkReply 200 "" (JObject [("user", loaded_json the_anna)]), Some (a, r)), w') /\ is_live_in w' token_id = false.
Proof.
  destruct (refresh_once cfg true secret_set eq_refl refreshing signed_in the_anna token_id 900 2000 well_configured anna_utf8) as [H _].
  - exact start_in_time.
  - reflexivity.
  - discriminate.
  - discriminate.
  - discriminate.
  - apply Jwt.issued_verifies. reflexivity.
  - destruct H as (a & r & w' & E & _ & D); [vm_compute; reflexivity | exists 0%nat; split; [apply Nat.lt_0_1 | reflexivity] | vm_compute; reflexivity |].
    exists a, r, w'. split; [exact E | exact D].
Defined.

Definition reset_text : string :=
  match Tokens.issue (Auth.jwt_secret cfg) anna Tokens.ResetPassword 900 3600 (JObject []) with Ok t => t | _ => "" end.

Lemma reset_text_opens : exists more, Tokens.verify (Auth.jwt_secret cfg) reset_text 1000 Tokens.ResetPassword = inr (anna, more).
Proof.
  destruct (Tokens.issued_opens (Auth.jwt_secret cfg) anna Tokens.ResetPassword 900 3600 (JObject []) reset_text 1000 Tokens.ResetPassword) as [E|[N _]];
    [reflexivity | | done]. eexists. rewrite E. reflexivity.
Qed.

Definition new_password (p : string) : json := JObject [("new_password", JString p)].
Definition the_user : User := with_hash (argon2id 0 "old password") (user_of "anna@b.kz").

Lemma reset_evicts_witness : exists w', alone (applyReset cfg true reset_text (Some (new_password "new password"))) signed_in = (Ok (message "Password updated"), w') /\
  is_live_in w' token_id = false.
Proof.
  destruct reset_text_opens as [more V].
  destruct (reset_evicts cfg true reset_text (new_password "new password") "new password" signed_in anna more the_user) as (w' & h & E & _ & _ & D & _).
  - reflexivity.
  - reflexivity.
  - reflexivity.
  - unfold good_password. cbn. lia.
  - exact V.
  - apply lookup_empty.
  - vm_compute. reflexivity.
  - exists w'. split; [exact E|]. apply D. vm_compute. reflexivity.
Defined.

Lemma reset_link_replayed_witness : exists w1 w2,
  alone (applyReset cfg true reset_text (Some (new_password "new password"))) signed_in = (Ok (message "Password updated"), w1) /\
  alone (applyReset cfg true (reset_text +:+ "=") (Some (new_password "other password"))) w1 = (Ok (message "Password updated"), w2).
Proof.
  destruct reset_text_opens as [more V].
  destruct (reset_link_replayed cfg true reset_text "=" (new_password "new password") "new password" (new_password "other password") "other password"
    signed_in anna more the_user) as (w1 & w2 & h & E1 & E2 & _).
  - reflexivity.
  - reflexivity.
  - reflexivity.
  - unfold good_password. cbn. lia.
  - reflexivity.
  - unfold good_password. cbn. lia.
  - exact V.
  - vm_compute. reflexivity.
  - reflexivity.
  - apply lookup_empty.
  - apply lookup_empty.
  - intros E. apply (f_equal size) in E. change (size ("#" +:+ (reset_text +:+ "=")) = size ("#" +:+ reset_text)) in E.
    rewrite !size_app in E. cbn in E. lia.
  - exists w1, w2. split; [exact E1 | exact E2].
Defined.

End Example.

End Sessions.
