(* ===== verification/Filings.v ===== *)
(** * Tax filings

    src/tax/TaxFiling.hpp, src/tax/TaxFilingRepository.hpp (the table of
    migrations/016_tax_filings.sql) and the handlers of src/api/TaxController.hpp: the
    reference data, the calculations, and the filing of a form, which puts the XML of a
    stored calculation into the object storage and queues the printed form of the same
    figures. *)
From Stdlib Require Import ZArith Lia Ascii String.
From stdpp Require Import relations sorting.
From S2P Require Import Prelude Money JournalDb PayrollService Json Utils Threads Dates Agent Requests TaxCalendar TaxService TaxForms.
From S2P Require Import InputPolicy Templates Documents DocumentFlow Tenancy.
Import Json Threads Http Requests Documents.
Open Scope string_scope.
Open Scope Z_scope.
Set Warnings "-clear-no-such-hyp".

Module Filings.

(** ** The form of a calculation *)

(** [FilingKind]: src/tax/TaxFiling.hpp:30-33. *)
Definition kFno910 : string := "910.00".
Definition kFno300 : string := "300.00".

(** [FilingStatus]: src/tax/TaxFiling.hpp:37-41. *)
Definition kDraft : string := "draft".
Definition kGenerated : string := "generated".
Definition kSubmittedManually : string := "submitted_manually".

(** [allowed_calculation_kinds]: src/api/TaxController.hpp:249-252. *)
Definition allowed_calculation_kinds : list string := [Tax.kSnrSimplified; Tax.kVat].

(** [allowed_filing_kinds]: src/api/TaxController.hpp:254-257. *)
Definition allowed_filing_kinds : list string := [kFno910; kFno300].

(** [fno_910_allowed_extra_fields]: src/api/TaxController.hpp:267-274. *)
Definition fno_910_allowed_extra_fields : list string := ["director"; "accountant"].

(** [fno_300_allowed_extra_fields]: src/api/TaxController.hpp:289-295. *)
Definition fno_300_allowed_extra_fields : list string := ["director"; "accountant"].

(** [is_allowed]: src/api/TaxController.hpp:865-870. *)
Definition is_allowed (v : string) (allowed : list string) : bool := existsb (String.eqb v) allowed.

(** [is_year]: src/api/TaxController.hpp:873-881. *)
Definition is_year (s : string) : bool := Nat.eqb (size s) 4 && str_all is_digit s.

Definition is_910 (k : string) : bool := String.eqb k kFno910.

(** [expected_calculation_kind]: src/api/TaxController.hpp:928-931. *)
Definition expected_calculation_kind (k : string) : string := if is_910 k then Tax.kSnrSimplified else Tax.kVat.

(** [form_slug_fragment]: src/api/TaxController.hpp:934-936. *)
Definition form_slug_fragment (k : string) : string := if is_910 k then "910" else "300".

(** [allowed_extra_fields_for]: src/api/TaxController.hpp:977-980. *)
Definition allowed_extra_fields_for (k : string) : list string :=
  if is_910 k then fno_910_allowed_extra_fields else fno_300_allowed_extra_fields.

(** [month_of]: src/api/TaxController.hpp:1134-1138. *)
Definition month_of (iso_date : string) : Z :=
  if (size iso_date <? 7)%nat then 1 else parse_int (str_take 2 (str_drop 5 iso_date)) 1.

(** [half_of]: src/api/TaxController.hpp:1128-1128. *)
Definition half_of (iso_date : string) : Z := if month_of iso_date <=? 6 then 1 else 2.

(** [quarter_of]: src/api/TaxController.hpp:1131-1131. *)
Definition quarter_of (iso_date : string) : Z := Z.quot (month_of iso_date - 1) 3 + 1.

(** [iso_to_ddmmyyyy]: src/api/TaxController.hpp:1143-1147. *)
Definition iso_to_ddmmyyyy (iso : string) : string :=
  if Nat.eqb (size iso) 10 then str_take 2 (str_drop 8 iso) +:+ "." +:+ str_take 2 (str_drop 5 iso) +:+ "." +:+ str_take 4 iso else iso.

(** [while (frac_str.size() > 1 && frac_str.back() == '0') frac_str.pop_back()]. *)
Fixpoint trim_zeros (rev_digits : string) : string :=
  match rev_digits with
  | String c (String _ _ as r) => if Ascii.eqb c "0" then trim_zeros r else rev_digits
  | s => s
  end.

(** [format_bp_percent]: src/api/TaxController.hpp:1111-1125. *)
Definition format_bp_percent (rate_bp : Z) : string :=
  let whole := Z.quot rate_bp 100 in
  let frac := Z.abs (Z.rem rate_bp 100) in
  if frac =? 0 then to_string whole
  else to_string whole +:+ "." +:+ (if frac <? 10 then "0" else "") +:+ str_rev (trim_zeros (str_rev (to_string frac))).

Example format_bp_percent_ex : map format_bp_percent [400; 350; 1625; 1605; 5; 0] = ["4"; "3.5"; "16.25"; "16.05"; "0.05"; "0"].
Proof. vm_compute. reflexivity. Qed.

(** Why a stored calculation cannot be printed: a figure it lacks, or an amount too large. *)
Inductive Unfit := MissingKey (key : string) | AmountOutOfRange.

(** [snapshot_int]: src/api/TaxController.hpp:992-1000. *)
Definition snapshot_int (calc : Tax.Calculation) (key : string) : Unfit + Z :=
  match member key (Tax.result_snapshot calc) with Some (JInt z) => inr (get_ll z) | _ => inl (MissingKey key) end.

(** [spell_out_tiyn]: src/api/TaxController.hpp:1095-1106. *)
Definition spell_out_tiyn (magnitude : Z) : outcome (Unfit + string) :=
  match Words.to_words_ru magnitude with
  | Throw e => if bool_decide (exn_cls e = std_out_of_range) then Ok (inl AmountOutOfRange) else Throw e
  | Ok s => Ok (inr s)
  | Undef => Undef
  end.

Definition write_all (l base : list (string * json)) : list (string * json) := foldl (fun acc e => obj_set e.1 e.2 acc) base l.

(** What every form starts with. *)
Definition form_base (o : Tenancy.Organization) (today : string) : list (string * json) :=
  [("org", JObject [("bin", JString (Tenancy.bin o)); ("name", JString (Tenancy.name o))]); ("signed_on", JString (iso_to_ddmmyyyy today))].

Definition period_json (key : string) (ordinal : Z) (calc : Tax.Calculation) : json :=
  JObject [(key, JString (to_string ordinal)); ("year", JString (str_take 4 (Tax.period_from calc)))].

Definition on_unfit {A B} (m : Unfit + A) (k : A -> outcome (Unfit + B)) : outcome (Unfit + B) :=
  match m with inl u => Ok (inl u) | inr a => k a end.

(** [build_form_input]: src/api/TaxController.hpp:1020-1049.  The simplified declaration. *)
Definition input_910 (calc : Tax.Calculation) (o : Tenancy.Organization) (today : string) : outcome (Unfit + json) :=
  on_unfit (snapshot_int calc "income_tiyn") (fun income_tiyn =>
  on_unfit (snapshot_int calc "rate_bp") (fun rate_bp =>
    income ← Format.format_tiyn_ru income_tiyn;
    tax ← Format.format_tiyn_ru (Tax.total_tiyn calc);
    words ← spell_out_tiyn (Tax.total_tiyn calc);
    on_unfit words (fun words =>
      Ok (inr (JObject (write_all
        [("period", period_json "half" (half_of (Tax.period_from calc)) calc); ("income_tenge", JString income);
         ("rate_percent", JString (format_bp_percent rate_bp)); ("tax_tenge", JString tax); ("tax_words", JString words)]
        (form_base o today))))))).

(** [build_form_input]: src/api/TaxController.hpp:1050-1082.  The VAT declaration; the magnitude of the balance overflows at the least value. *)
Definition input_300 (calc : Tax.Calculation) (o : Tenancy.Organization) (today : string) : outcome (Unfit + json) :=
  on_unfit (snapshot_int calc "accrued_tiyn") (fun accrued_tiyn =>
  on_unfit (snapshot_int calc "deductible_tiyn") (fun deductible_tiyn =>
  on_unfit (snapshot_int calc "balance_tiyn") (fun balance_tiyn =>
  on_unfit (snapshot_int calc "income_tiyn") (fun income_tiyn =>
    sales ← Format.format_tiyn_ru income_tiyn;
    charged ← Format.format_tiyn_ru accrued_tiyn;
    credited ← Format.format_tiyn_ru deductible_tiyn;
    magnitude ← (if balance_tiyn <? 0 then i64 (- balance_tiyn) else Ok balance_tiyn);
    balance ← Format.format_tiyn_ru magnitude;
    words ← spell_out_tiyn magnitude;
    on_unfit words (fun words =>
      Ok (inr (JObject (write_all
        [("period", period_json "quarter" (quarter_of (Tax.period_from calc)) calc); ("sales_tenge", JString sales);
         ("vat_charged_tenge", JString charged); ("vat_credited_tenge", JString credited); ("balance_tenge", JString balance);
         ("balance_kind", JString (if balance_tiyn <? 0 then "to_refund" else "to_pay")); ("balance_words", JString words)]
        (form_base o today))))))))).

(** [build_form_input]: src/api/TaxController.hpp:1020-1082. *)
Definition build_form_input (k : string) : Tax.Calculation -> Tenancy.Organization -> string -> outcome (Unfit + json) :=
  if is_910 k then input_910 else input_300.

(** [org_info_for]: src/api/TaxController.hpp:947-964. *)
Definition org_info_for (k : string) (calc : Tax.Calculation) (id : string) (o : Tenancy.Organization) : Forms.OrgInfo :=
  Forms.mkOrgInfo id (Tenancy.bin o) (Tenancy.name o) (str_take 4 (Tax.period_from calc))
    (to_string (if is_910 k then half_of (Tax.period_from calc) else quarter_of (Tax.period_from calc))).

(** [build_form_xml]: src/api/TaxController.hpp:966-973. *)
Definition build_form_xml (k : string) (calc : Tax.Calculation) (id : string) (o : Tenancy.Organization) : outcome string :=
  let info := org_info_for k calc id o in
  if is_910 k then Forms.Fno910.build_910_xml calc info else Forms.Fno300.build_300_xml calc info.

(** ** The store *)

(** [Filing]: src/tax/TaxFiling.hpp:43-55. *)
Record Filing := mkFiling {
  f_org : string; f_kind : string; f_from : string; f_to : string; f_status : string; f_calculation : string;
  f_xml : option string; f_document : option string; f_validated : bool; f_created : Z
}.

(** [to_json]: src/tax/TaxFiling.hpp:78-93.  (Time stamps left out.) *)
Definition filing_json (id : string) (f : Filing) : json :=
  let text o := match o with Some s => JString s | None => JNull end in
  JObject [("calculation_id", JString (f_calculation f)); ("document_id", text (f_document f)); ("id", JString id);
           ("kind", JString (f_kind f)); ("org_id", JString (f_org f)); ("period_from", JString (f_from f));
           ("period_to", JString (f_to f)); ("schema_validated", JBool (f_validated f)); ("status", JString (f_status f));
           ("xml_s3_key", text (f_xml f))].

(** [to_json]: src/tax/TaxCalculation.hpp:80-92.  (The time of the calculation left out.) *)
Definition calculation_json (c : Tax.Calculation) : json :=
  JObject [("id", JString (Tax.calc_id c)); ("input_snapshot", Tax.input_snapshot c); ("kind", JString (Tax.kind c));
           ("org_id", JString (Tax.calc_org c)); ("period_from", JString (Tax.period_from c)); ("period_to", JString (Tax.period_to c));
           ("result_snapshot", Tax.result_snapshot c); ("total_tiyn", JInt (Tax.total_tiyn c))].

(** [to_json]: src/tax/TaxService.hpp:106-113. *)
Definition alert_json (a : Tax.Alert) : json :=
  JObject [("current_tiyn", JInt (Tax.current_tiyn a)); ("kind", JString (Tax.alert_kind a)); ("message", JString (Tax.message a));
           ("threshold_tiyn", JInt (Tax.threshold_tiyn a))].

(** [to_json]: src/tax/TaxCalendar.hpp:57-65. *)
Definition deadline_json (d : Calendar.Deadline) : json :=
  JObject [("days_left", JInt (Calendar.d_days_left d)); ("due_date", JString (Calendar.d_due_date d)); ("form", JString (Calendar.d_form d));
           ("kind", JString (Calendar.d_kind d)); ("period_label", JString (Calendar.d_period_label d))].

(** [to_json]: src/tax/TaxRate.hpp:78-88.  (The identifier and the note left out.) *)
Definition rate_json (r : Payroll.Rate) : json :=
  JObject [("effective_from", JString (Payroll.rate_from r)); ("effective_to", match Payroll.rate_to r with Some s => JString s | None => JNull end);
           ("kind", JString (Payroll.rate_kind r)); ("rate_bp", JInt (Payroll.rate_bp_of r));
           ("region", match Payroll.rate_region r with Some s => JString s | None => JNull end)].

(** [to_json]: src/tax/TaxRate.hpp:123-133.  (The identifier and the note left out.) *)
Definition constant_json (c : Payroll.Constant) : json :=
  JObject [("effective_from", JString (Payroll.const_from c)); ("effective_to", match Payroll.const_to c with Some s => JString s | None => JNull end);
           ("key", JString (Payroll.const_key c)); ("value_tiyn", JInt (Payroll.value_tiyn c));
           ("value_units", match Payroll.value_units c with Some z => JInt z | None => JNull end)].

(** The documents with the object storage and the queue; the calculations with the
    journal and the reference data behind them; the filings; the organizations; the
    deadlines' rules; the clock, as a time and as a date. *)
Record World := mkWorld {
  docs_store : Store; tax : Tax.TWorld; filings : gmap string Filing; companies : gmap string Tenancy.Organization;
  deadlines : list Calendar.Rule; f_seq : nat; f_now : Z; today : string
}.

Definition with_store (s : Store) (w : World) : World :=
  mkWorld s (tax w) (filings w) (companies w) (deadlines w) (f_seq w) (f_now w) (today w).
Definition with_tax (t : Tax.TWorld) (w : World) : World :=
  mkWorld (docs_store w) t (filings w) (companies w) (deadlines w) (f_seq w) (f_now w) (today w).
Definition with_filings (f : gmap string Filing -> gmap string Filing) (w : World) : World :=
  mkWorld (docs_store w) (tax w) (f (filings w)) (companies w) (deadlines w) (f_seq w) (f_now w) (today w).
Definition next_filing (w : World) : World :=
  mkWorld (docs_store w) (tax w) (filings w) (companies w) (deadlines w) (S (f_seq w)) (f_now w + 1) (today w).

(** Calls on the parts. *)
Definition on_docs {A} (m : st Store A) : st World A := fun w => let '(r, s) := m (docs_store w) in (r, with_store s w).
Definition on_tax {A} (m : st Tax.TWorld A) : st World A := fun w => let '(r, t) := m (tax w) in (r, with_tax t w).

Definition calculations (w : World) : list Tax.Calculation := Tax.td_calcs (Tax.tw_t (tax w)).
Definition reference (w : World) : Payroll.PayDB := Payroll.pw_p (Tax.tw_p (tax w)).

Section Repository.
Context `{PG : Postgres}.

(** The document a filing names may not be deleted from then on. *)
Definition hold (o : option string) (s : Store) : Store :=
  match o with
  | Some d => hold_only ({[d]} ∪ held s) s
  | None => s
  end.

Definition same_calc (id org : string) (c : Tax.Calculation) : bool := String.eqb (Tax.calc_id c) id && String.eqb (Tax.calc_org c) org.

(** [find_in_org]: src/tenancy/OrgScoped.hpp:48-59.  Of a calculation. *)
Definition find_calculation (id org : string) : st World (option Tax.Calculation) :=
  gets (fun w => List.find (same_calc id org) (calculations w)).

(** [create]: src/tax/TaxFilingRepository.hpp:58-85. *)
Definition create_filing (org k from to status calculation : string) (xml document : option string) (validated : bool)
    : st World (string * Filing) := fun w =>
  match date_in from, date_in to with
  | Some f, Some t =>
      if negb (is_allowed k allowed_filing_kinds && is_allowed status [kDraft; kGenerated; kSubmittedManually] && Payroll.date_le f t)
      then throw pqxx_sql_error "23514" w
      else if negb (existsb (same_calc calculation org) (calculations w)) ||
              match document with
              | Some d => negb (bool_decide (is_Some (find_row org d (docs_store w))))
              | None => false
              end ||
              negb (bool_decide (is_Some (companies w !! org)))
      then throw pqxx_sql_error "23503" w
      else
        let id := gen_random_uuid (f_seq w) in
        let row := mkFiling org k f t status calculation xml document validated (f_now w) in
        (Ok (id, row), next_filing (with_store (hold document (docs_store w)) (with_filings (insert id row) w)))
  | _, _ => throw pqxx_sql_error "22007" w
  end.

Definition wanted (org : string) (k : option string) (f : Filing) : bool :=
  String.eqb (f_org f) org && match k with Some k => String.eqb (f_kind f) k | None => true end.
Definition selected_filings (org : string) (k : option string) (w : World) : list (string * Filing) :=
  List.filter (fun e => wanted org k e.2) (map_to_list (filings w)).
Definition newer_filing (a b : string * Filing) : bool := f_created b.2 <? f_created a.2.

(** [list_filtered]: src/tax/TaxFilingRepository.hpp:90-110. *)
Definition list_filings (org : string) (k : option string) (limit offset : nat) : st World (list (string * Filing)) :=
  gets (fun w => take limit (drop offset (stable_sort newer_filing (selected_filings org k w)))).

(** [count_filtered]: src/tax/TaxFilingRepository.hpp:113-119. *)
Definition count_filings (org : string) (k : option string) : st World Z := gets (fun w => Z.of_nat (length (selected_filings org k w))).

(** [find_in_org]: src/tenancy/OrgScoped.hpp:48-59.  Of a filing. *)
Definition find_filing (id org : string) : st World (option Filing) :=
  gets (fun w => match filings w !! id with Some f => if String.eqb (f_org f) org then Some f else None | None => None end).

(** EXTRACT(YEAR FROM period_from), of a date as the server writes it. *)
Definition year_of (d : string) : Z := parse_digits 0 (str_take 4 d).
Definition wanted_calc (org : string) (k year : option string) (c : Tax.Calculation) : bool :=
  String.eqb (Tax.calc_org c) org && match k with Some k => String.eqb (Tax.kind c) k | None => true end &&
  match year with Some y => year_of (Tax.period_from c) =? parse_digits 0 y | None => true end.
Definition calc_before (a b : Tax.Calculation) : bool :=
  String.ltb (Tax.period_from b) (Tax.period_from a) || String.eqb (Tax.period_from a) (Tax.period_from b) && String.ltb (Tax.kind a) (Tax.kind b).

(** [list_filtered]: src/tax/TaxCalculationRepository.hpp:105-128. *)
Definition list_calcs (org : string) (k year : option string) (limit offset : nat) : st World (list Tax.Calculation) :=
  gets (fun w => take limit (drop offset (stable_sort calc_before (List.filter (wanted_calc org k year) (calculations w))))).

(** [count_filtered]: src/tax/TaxCalculationRepository.hpp:133-146. *)
Definition count_calcs (org : string) (k year : option string) : st World Z :=
  gets (fun w => Z.of_nat (length (List.filter (wanted_calc org k year) (calculations w)))).

(** DISTINCT ON: the first of the rows with one key, in a list sorted by the key. *)
Fixpoint distinct_on {A} (same : A -> A -> bool) (l : list A) : list A :=
  match l with
  | x :: r => x :: match r with y :: _ => if same x y then List.tl (distinct_on same r) else distinct_on same r | [] => [] end
  | [] => []
  end.
End Repository.

(** ** Handlers (src/api/TaxController.hpp) *)

Section Handlers.
Context `{PG : Postgres} `{RD : Renderer} `{MP : MergePatch}.
Context (tree : Registry.Tree).

Definition permitted (ctx : OrgContext) (action : string) (k : prog World Reply) : prog World Reply :=
  DocumentFlow.permitted ctx "tax" action k.

(** [parse_on_date]: src/api/TaxController.hpp:887-901. *)
Definition parse_on_date (param : string) (k : string -> prog World Reply) : prog World Reply :=
  if String.eqb param "" then (day ← atomic (gets today); k day)
  else
    valid ← pure (Validation.is_valid_date param);
    if (valid : bool) then k param else mret (one_error "on" "invalid_date").

Definition region_before (a b : option string) : bool :=
  match a, b with Some x, Some y => String.ltb x y | Some _, None => true | None, _ => false end.
Definition rate_listed_before (a b : Payroll.Rate) : bool :=
  String.ltb (Payroll.rate_kind a) (Payroll.rate_kind b) ||
  String.eqb (Payroll.rate_kind a) (Payroll.rate_kind b) &&
  (region_before (Payroll.rate_region a) (Payroll.rate_region b) ||
   bool_decide (Payroll.rate_region a = Payroll.rate_region b) && String.ltb (Payroll.rate_from b) (Payroll.rate_from a)).
Definition same_rate (a b : Payroll.Rate) : bool :=
  String.eqb (Payroll.rate_kind a) (Payroll.rate_kind b) && bool_decide (Payroll.rate_region a = Payroll.rate_region b).

(** [list_rates_on]: src/tax/TaxReferenceRepository.hpp:104-118. *)
Definition list_rates_on (date : string) : st World (list Payroll.Rate) := gets (fun w =>
  distinct_on same_rate (stable_sort rate_listed_before
    (List.filter (fun r => Payroll.in_force (Payroll.rate_from r) (Payroll.rate_to r) date) (Payroll.pd_rates (reference w))))).

Definition constant_listed_before (a b : Payroll.Constant) : bool :=
  String.ltb (Payroll.const_key a) (Payroll.const_key b) ||
  String.eqb (Payroll.const_key a) (Payroll.const_key b) && String.ltb (Payroll.const_from b) (Payroll.const_from a).

(** [list_constants_on]: src/tax/TaxReferenceRepository.hpp:121-135. *)
Definition list_constants_on (date : string) : st World (list Payroll.Constant) := gets (fun w =>
  distinct_on (fun a b => String.eqb (Payroll.const_key a) (Payroll.const_key b)) (stable_sort constant_listed_before
    (List.filter (fun c => Payroll.in_force (Payroll.const_from c) (Payroll.const_to c) date) (Payroll.pd_constants (reference w))))).

(** [listRates]: src/api/TaxController.hpp:305-326. *)
Definition listRates (ctx : OrgContext) (on_param : string) : prog World Reply :=
  permitted ctx "read" (parse_on_date on_param (fun on => with_repo_errors (
    rates ← atomic (list_rates_on on);
    constants ← atomic (list_constants_on on);
    mret (wrapped 200 (JObject [("constants", JArray (map constant_json constants)); ("on", JString on);
                                ("rates", JArray (map rate_json rates))]))))).

Definition listed (rows : list json) : Reply := mkReply 200 "" (JObject [("data", JArray rows)]).

(** [listDeadlines]: src/api/TaxController.hpp:332-351. *)
Definition listDeadlines (ctx : OrgContext) (on_param horizon_param : string) : prog World Reply :=
  permitted ctx "read" (parse_on_date on_param (fun on =>
    let horizon_days := clamp_int horizon_param 90 1 3650 in
    with_repo_errors (
      due ← atomic (fun w => (Calendar.upcoming (deadlines w) on horizon_days, w));
      mret (listed (map deadline_json due))))).

(** [catch (const MissingTaxReference&)]. *)
Definition missing_reference (field : string) (p : prog World Reply) : prog World Reply :=
  catch (fun e => if bool_decide (exn_cls e = MissingTaxReference) then Ok (one_error field "missing_tax_reference") else Throw e) p.

(** [listAlerts]: src/api/TaxController.hpp:358-379. *)
Definition listAlerts (ctx : OrgContext) (on_param : string) : prog World Reply :=
  permitted ctx "read" (parse_on_date on_param (fun on => with_repo_errors (missing_reference "on" (
    alerts ← atomic (on_tax (Tax.threshold_alerts (ctx_org ctx) on));
    mret (listed (map alert_json alerts)))))).

(** [createCalculation]: src/api/TaxController.hpp:398-411. *)
Definition calculation_errors (body : json) : Validation.Errors :=
  Validation.string_if_there body "period_to" (Validation.string_if_there body "period_from" (Validation.string_if_there body "kind"
    (Validation.require body "period_to" (Validation.require body "period_from" (Validation.require body "kind" []))))).

(** [createCalculation]: src/api/TaxController.hpp:415-433. *)
Definition period_errors (body : json) (from to : string) (from_ok to_ok : bool) : Validation.Errors :=
  let errs := Validation.one_of body "kind" allowed_calculation_kinds [] in
  let errs := if from_ok then errs else Validation.add "period_from" "invalid_date" errs in
  let errs := if to_ok then errs else Validation.add "period_to" "invalid_date" errs in
  if from_ok && to_ok && String.ltb to from then Validation.add "period_to" "before_period_from" errs else errs.

(** [createCalculation]: src/api/TaxController.hpp:390-448. *)
Definition createCalculation (ctx : OrgContext) (parsed : option json) : prog World Reply :=
  permitted ctx "write" (match parsed with
  | None => mret (refusal 400 "invalid_json")
  | Some body =>
      match calculation_errors body, text_field "kind" body, text_field "period_from" body, text_field "period_to" body with
      | [], Some k, Some from, Some to =>
          from_ok ← pure (Validation.is_valid_date from);
          to_ok ← pure (Validation.is_valid_date to);
          match period_errors body from to from_ok to_ok with
          | [] => with_repo_errors (missing_reference "period_to" (
                    calc ← atomic (on_tax (if String.eqb k Tax.kSnrSimplified then Tax.calculate_snr (ctx_org ctx) from to
                                           else Tax.calculate_vat (ctx_org ctx) from to));
                    mret (wrapped 200 (calculation_json calc))))
          | errs => mret (invalid errs 422)
          end
      | errs, _, _, _ => mret (invalid errs 400)
      end
  end).

(** An optional filter of a query: absent when empty. *)
Definition filter_param (param : string) : option string := if String.eqb param "" then None else Some param.

(** [listCalculations]: src/api/TaxController.hpp:456-492. *)
Definition listCalculations (ctx : OrgContext) (kind_param year_param limit_param offset_param : string) : prog World Reply :=
  permitted ctx "read" (
    let errs := if String.eqb kind_param "" || is_allowed kind_param allowed_calculation_kinds then []
                else Validation.add "kind" "not_allowed" [] in
    let errs := if String.eqb year_param "" || is_year year_param then errs else Validation.add "year" "not_integer" errs in
    if Validation.any errs then mret (invalid errs 422)
    else
      let page := parse_page_params limit_param offset_param 50 200 in
      with_repo_errors (
        rows ← atomic (list_calcs (ctx_org ctx) (filter_param kind_param) (filter_param year_param) (Z.to_nat (limit page)) (Z.to_nat (offset page)));
        total ← atomic (count_calcs (ctx_org ctx) (filter_param kind_param) (filter_param year_param));
        mret (paginated (map calculation_json rows) total page))).

(** [createFiling]: src/api/TaxController.hpp:510-524. *)
Definition filing_errors (body : json) : Validation.Errors :=
  let errs := Validation.string_if_there body "kind" (Validation.require body "calculation_id" (Validation.require body "kind" [])) in
  let errs := match member "calculation_id" body with
              | None => errs
              | Some (JString s) => if is_valid_uuid s then errs else Validation.add "calculation_id" "bad_format" errs
              | Some _ => Validation.add "calculation_id" "bad_format" errs
              end in
  match member "document_input" body with
  | None | Some JNull | Some (JObject _) => errs
  | Some _ => Validation.add "document_input" "not_object" errs
  end.

Definition document_input (body : json) : list (string * json) :=
  match member "document_input" body with Some (JObject l) => l | _ => [] end.

(** [createFiling]: src/api/TaxController.hpp:563-563. *)
Definition slug_of (k : string) : string := if is_910 k then "fno_910" else "fno_300".

(** [createFiling]: src/api/TaxController.hpp:570-606.  The input of the printed form: the
    figures of the calculation with the fields the caller may give, as the template's
    schema wants them. *)
Definition prepared (k : string) (calc : Tax.Calculation) (o : Tenancy.Organization) (body : json) (day : string)
    : outcome (Reply + (Registry.TemplateInfo * json)) :=
  base_input ← build_form_input k calc o day;
  match base_input with
  | inl AmountOutOfRange => Ok (inl (one_error "calculation_id" "amount_out_of_range"))
  | inl (MissingKey _) => Ok (inl (one_error "calculation_id" "incomplete_calculation"))
  | inr base =>
      match InputPolicy.merge_allowed_extra base (document_input body) (allowed_extra_fields_for k) with
      | inl e => Ok (inl (one_error (InputPolicy.field e) (InputPolicy.err_code e)))
      | inr input =>
          info ← Registry.latest tree (slug_of k);
          Ok match info with
             | None => inl (refusal 500 "internal_error")
             | Some info =>
                 match schema_error (Registry.schema info) input with
                 | Some _ => inl (one_error "document_input" "schema_validation_failed")
                 | None => inr (info, input)
                 end
             end
      end
  end.

(** [createFiling]: src/api/TaxController.hpp:627-633. *)
Definition rendered_xml (k : string) (calc : Tax.Calculation) (id : string) (o : Tenancy.Organization) : outcome (option string) :=
  match build_form_xml k calc id o with
  | Throw e => if bool_decide (exn_cls e = std_invalid_argument) then Ok None else Throw e
  | Ok s => Ok (Some s)
  | Undef => Undef
  end.

(** [createFiling]: src/api/TaxController.hpp:634-637. *)
Definition xml_key_of (uuid org k : string) (calc : Tax.Calculation) : string :=
  Files.org_key uuid org "generated"
    ("fno_" +:+ form_slug_fragment k +:+ "_" +:+ Tax.period_from calc +:+ "_" +:+ Tax.period_to calc +:+ ".xml").

(** [createFiling]: src/api/TaxController.hpp:683-733.  The rows, then the render. *)
Definition file_form (queued : bool) (ctx : OrgContext) (k : string) (calc : Tax.Calculation) (calculation_id : string)
    (info : Registry.TemplateInfo) (input : json) (xml_key : option string) : prog World Reply :=
  document ← atomic (on_docs (create (ctx_org ctx) "fno" "generated" "draft" None (Some (Registry.slug info))
                                (Some (Registry.version_str info)) (Some input) None));
  filing ← atomic (create_filing (ctx_org ctx) k (Tax.period_from calc) (Tax.period_to calc)
                     (match xml_key with Some _ => kGenerated | None => kDraft end) calculation_id xml_key (Some (doc_id document)) false);
  first_version ← atomic (on_docs (latest_version (ctx_org ctx) (doc_id document)));
  render_queued ← atomic (on_docs (DocumentFlow.submit_render queued
    (DocumentFlow.render_payload (ctx_org ctx) (doc_id document) (match first_version with Some v => v.1 | None => "" end) (slug_of k) input)));
  mret (mkReply 202 "" (JObject [("filing_id", JString filing.1); ("render_queued", JBool render_queued);
                                 ("xml_ready", JBool (bool_decide (is_Some xml_key)))])).

(** [createFiling]: src/api/TaxController.hpp:546-649.  From the stored calculation on. *)
Definition file_calculation (storage jobs_ready up queued : bool) (uuid : string) (ctx : OrgContext) (k calculation_id : string)
    (body : json) (calc : Tax.Calculation) : prog World Reply :=
  if negb (String.eqb (Tax.kind calc) (expected_calculation_kind k)) then mret (one_error "kind" "kind_mismatch")
  else
    org ← atomic (gets (fun w => companies w !! ctx_org ctx));
    match org with
    | None => mret (refusal 500 "internal_error")
    | Some o =>
        day ← atomic (gets today);
        ready ← pure (prepared k calc o body day);
        match ready with
        | inl refused => mret refused
        | inr (info, input) =>
            if negb storage then mret (refusal 503 "storage_unavailable")
            else if negb jobs_ready then mret (refusal 503 "jobs_disabled")
            else
              xml ← pure (rendered_xml k calc (ctx_org ctx) o);
              match xml with
              | None => mret (one_error "calculation_id" "unrenderable_calculation")
              | Some xml =>
                  let xml_key := xml_key_of uuid (ctx_org ctx) k calc in
                  stored ← catch (fun _ => Ok false) (_ ← atomic (on_docs (DocumentFlow.put xml_key xml up)); mret true);
                  with_repo_errors (file_form queued ctx k calc calculation_id info input (if (stored : bool) then Some xml_key else None))
              end
        end
    end.

(** [createFiling]: src/api/TaxController.hpp:503-735.  [storage], [jobs_ready]: configured;
    [up], [queued]: answering; [uuid]: the random part of the key. *)
Definition createFiling (storage jobs_ready up queued : bool) (uuid : string) (ctx : OrgContext) (parsed : option json) : prog World Reply :=
  permitted ctx "write" (match parsed with
  | None => mret (refusal 400 "invalid_json")
  | Some body =>
      match filing_errors body, text_field "kind" body, text_field "calculation_id" body with
      | [], Some k, Some calculation_id =>
          if negb (is_allowed k allowed_filing_kinds) then mret (one_error "kind" "not_allowed")
          else
            calc ← atomic (find_calculation (Requests.uuid_key calculation_id) (ctx_org ctx));
            match calc with
            | None => mret (one_error "calculation_id" "foreign_calculation")
            | Some calc => file_calculation storage jobs_ready up queued uuid ctx k (Requests.uuid_key calculation_id) body calc
            end
      | errs, _, _ => mret (invalid errs 400)
      end
  end).

(** [listFilings]: src/api/TaxController.hpp:740-764. *)
Definition listFilings (ctx : OrgContext) (kind_param limit_param offset_param : string) : prog World Reply :=
  permitted ctx "read" (
    if negb (String.eqb kind_param "" || is_allowed kind_param allowed_filing_kinds) then mret (one_error "kind" "not_allowed")
    else
      let page := parse_page_params limit_param offset_param 50 200 in
      with_repo_errors (
        rows ← atomic (list_filings (ctx_org ctx) (filter_param kind_param) (Z.to_nat (limit page)) (Z.to_nat (offset page)));
        total ← atomic (count_filings (ctx_org ctx) (filter_param kind_param));
        mret (paginated (map (fun e => filing_json e.1 e.2) rows) total page))).

(** [getFiling]: src/api/TaxController.hpp:769-788. *)
Definition getFiling (ctx : OrgContext) (id : string) : prog World Reply :=
  permitted ctx "read" (
    if negb (is_valid_uuid id) then mret invalid_id
    else with_repo_errors (
      found ← atomic (find_filing (Requests.uuid_key id) (ctx_org ctx));
      mret match found with Some f => wrapped 200 (filing_json (Requests.uuid_key id) f) | None => refusal 404 "not_found" end)).

(** [filingDownloadUrl]: src/api/TaxController.hpp:853-860.  [presign]: of the S3 backend, when that is the storage. *)
Definition link_to (presign : option (string -> string)) (artifact key : string) : Reply :=
  match presign with
  | None => refusal 503 "presign_unsupported"
  | Some sign => mkReply 200 "" (JObject [("artifact", JString artifact); ("key", JString key); ("url", JString (sign key))])
  end.

Definition not_empty (o : option string) : option string := match o with Some (String c r) => Some (String c r) | _ => None end.

(** [filingDownloadUrl]: src/api/TaxController.hpp:801-862. *)
Definition filingDownloadUrl (presign : option (string -> string)) (ctx : OrgContext) (id artifact_param : string) : prog World Reply :=
  permitted ctx "read" (
    if negb (is_valid_uuid id) then mret invalid_id
    else
      let artifact := if String.eqb artifact_param "" then "xml" else artifact_param in
      if negb (String.eqb artifact "xml" || String.eqb artifact "pdf") then mret (one_error "artifact" "not_allowed")
      else with_repo_errors (
        found ← atomic (find_filing (Requests.uuid_key id) (ctx_org ctx));
        match found with
        | None => mret (refusal 404 "not_found")
        | Some f =>
            if String.eqb artifact "xml" then
              mret match not_empty (f_xml f) with Some key => link_to presign artifact key | None => refusal 409 "no_xml" end
            else match f_document f with
            | None => mret (refusal 409 "no_document")
            | Some d =>
                document ← atomic (on_docs (find_in_org d (ctx_org ctx)));
                mret match document with
                     | None => refusal 409 "no_document"
                     | Some document =>
                         match not_empty (s3_key document) with Some key => link_to presign artifact key | None => refusal 409 "not_rendered" end
                     end
            end
        end)).

End Handlers.

(** ** Stored calculations *)

(** A calculation as the service leaves it: its figures are whole numbers in range, the
    total is the tax or the balance, and its dates are as the server writes them. *)
Definition whole (key : string) (c : Tax.Calculation) (z : Z) : Prop :=
  member key (Tax.result_snapshot c) = Some (JInt z) /\ I64_MIN <= z <= I64_MAX.

Section Coherent.
Context `{PG : Postgres}.

Definition figures (c : Tax.Calculation) : Prop :=
  (Tax.kind c = Tax.kSnrSimplified /\ (exists income, whole "income_tiyn" c income) /\ (exists rate, member "rate_bp" (Tax.result_snapshot c) = Some (JInt rate)) /\
   I64_MIN <= Tax.total_tiyn c <= I64_MAX) \/
  (Tax.kind c = Tax.kVat /\ (exists accrued, whole "accrued_tiyn" c accrued) /\ (exists deductible, whole "deductible_tiyn" c deductible) /\
   whole "balance_tiyn" c (Tax.total_tiyn c) /\ (exists income, whole "income_tiyn" c income)).

Definition coherent (c : Tax.Calculation) : Prop :=
  figures c /\ date_in (Tax.period_from c) = Some (Tax.period_from c) /\ date_in (Tax.period_to c) = Some (Tax.period_to c).

(** What a recalculation does not change. *)
Definition calc_head (c : Tax.Calculation) :=
  (Tax.calc_id c, Tax.calc_org c, Tax.kind c, Tax.period_from c, Tax.period_to c).

(** The rows stay, whatever becomes of their figures. *)
Definition stable (d d' : Tax.TaxDB) : Prop := forall c, c ∈ Tax.td_calcs d -> exists c', c' ∈ Tax.td_calcs d' /\ calc_head c' = calc_head c.

#[export] Instance stable_pre : PreOrder stable.
Proof.
  split; [intros d c Hc; by exists c|]. intros d1 d2 d3 H1 H2 c Hc. destruct (H1 c Hc) as (c1 & H & E).
  destruct (H2 c1 H) as (c2 & H' & E'). exists c2. split; [done | congruence].
Qed.

Definition calcs_ok (d : Tax.TaxDB) : Prop := Tax.tax_inv d /\ Forall coherent (Tax.td_calcs d).

(** The table, and the sessions that may change it meanwhile, which keep to the same. *)
Definition tax_ok (t : Tax.TWorld) : Prop :=
  calcs_ok (Tax.tw_t t) /\ Forall (fun f => forall d, calcs_ok d -> calcs_ok (f d) /\ stable d (f d)) (Tax.tw_env t).

Definition tax_moves (t t' : Tax.TWorld) : Prop := tax_ok t' /\ stable (Tax.tw_t t) (Tax.tw_t t').

(** A computation on the tax tables that keeps them so; [P] is known of its result. *)
Definition tax_keeps {A} (m : st Tax.TWorld A) (P : A -> Prop) : Prop :=
  forall t, tax_ok t -> tax_moves t (m t).2 /\ match (m t).1 with Ok a => P a | _ => True end.

Lemma tax_bind {A B} (m : st Tax.TWorld A) (k : A -> st Tax.TWorld B) P Q :
  tax_keeps m P -> (forall a, P a -> tax_keeps (k a) Q) -> tax_keeps (m ≫= k) Q.
Proof.
  intros Hm Hk t Ht. unfold mbind, st_bind. destruct (Hm t Ht) as [M HP]. destruct (m t) as [[a|e|] t1]; cbn [fst snd] in *; [|done..].
  destruct (Hk a HP t1) as [[O S] HQ]; [apply M|]. split; [split; [done | etrans; [apply M | done]] | done].
Qed.

Lemma tax_still {A} (m : st Tax.TWorld A) P : (forall t, Tax.tw_t (m t).2 = Tax.tw_t t /\ Tax.tw_env (m t).2 = Tax.tw_env t) ->
  (forall t, match (m t).1 with Ok a => P a | _ => True end) -> tax_keeps m P.
Proof. intros H HP t [O E]. destruct (H t) as [H1 H2]. split; [|exact (HP t)]. unfold tax_moves, tax_ok. by rewrite H1, H2. Qed.

Lemma tax_payroll {A} (m : st Payroll.PWorld A) (P : A -> Prop) :
  (forall p, match (m p).1 with Ok a => P a | _ => True end) -> tax_keeps (Tax.on_payroll m) P.
Proof.
  intros HP. apply tax_still; intros t; unfold Tax.on_payroll; specialize (HP (Tax.tw_p t)); by destruct (m (Tax.tw_p t)).
Qed.

Lemma tax_lift {A} (m : outcome A) (P : A -> Prop) : match m with Ok a => P a | _ => True end -> tax_keeps (lift m) P.
Proof. intros H. by apply tax_still. Qed.

Lemma tax_throw {A} c s (P : A -> Prop) : tax_keeps (throw c s) P.
Proof. by apply tax_still. Qed.

Lemma tax_yields : tax_keeps Tax.tax_yield (fun _ => True).
Proof.
  intros [p t [|f env]] [O E]; (split; [|done]); [done|]. cbn. apply Forall_cons in E as [Hf E]. destruct (Hf t O) as [O' S]. split; [by split | done].
Qed.

(** The figures a row of this kind must have. *)
Definition fits (k : string) (result : json) (total : Z) : Prop := forall id org f t at_ input,
  figures (Tax.mkCalc id org k f t at_ input result total).

Lemma upsert_keeps org k from to input result total : fits k result total -> forall d, calcs_ok d ->
  calcs_ok (Tax.upsert org k from to input result total d).2 /\ stable d (Tax.upsert org k from to input result total d).2.
Proof.
  intros F d [O1 O2]. assert (calcs_ok d /\ stable d d) as Same by done. unfold Tax.upsert, gets. rewrite st_bind_case.
  destruct (date_in from) as [f|] eqn:Ef; [|done]. destruct (date_in to) as [t|] eqn:Et; [|done]. destruct (negb _); [done|].
  pose proof (date_canonical _ _ Ef) as Ef'. pose proof (date_canonical _ _ Et) as Et'.
  pose proof (Tax.find_existsb (Tax.same_period org k f t) (Tax.td_calcs d)) as Hex.
  destruct (List.find (Tax.same_period org k f t) (Tax.td_calcs d)) as [old|] eqn:E.
  - apply find_some in E as [Hin Hold]. pose proof (proj1 (Tax.same_period_key _ _ _ _ _) Hold) as Key. pose proof Key as Key'.
    injection Key' as E1 E2 E3 E4. rewrite E1, E2, E3, E4. unfold modify. rewrite st_bind_case. cbn [fst snd].
    set (c := Tax.mkCalc _ _ _ _ _ _ _ _ _).
    destruct (Tax.replace_row (Tax.same_period org k f t) (org, k, f, t) c (Tax.td_calcs d)) as (_ & _ & Hk);
      [apply Tax.same_period_key | done | done|]. split; [split|].
    + unfold Tax.tax_inv. cbn [Tax.td_calcs mret st_ret snd]. by rewrite Hk.
    + cbn [Tax.td_calcs mret st_ret snd]. apply Forall_map, Forall_forall. intros x Hx. cbn beta.
      destruct (Tax.same_period org k f t x); [split; [apply F | done] | by apply (proj1 (Forall_forall _ _) O2)].
    + intros x Hx. exists (if Tax.same_period org k f t x then c else x). split; [cbn [Tax.td_calcs mret st_ret snd]; apply elem_of_map; by exists x|].
      destruct (Tax.same_period org k f t x) eqn:Ex; [|done]. apply list_elem_of_In in Hin. apply Tax.same_period_key in Ex.
      assert (x = old) as -> by (apply (nodup_key_inj Tax.calc_key (Tax.td_calcs d)); [done.. | congruence]).
      unfold calc_head, c. cbn. by rewrite E1, E2, E3, E4.
  - destruct (negb _); [done|]. unfold modify. rewrite st_bind_case. cbn [fst snd]. destruct (Tax.filter_none _ _ Hex) as [F1 _]. split; [split|].
    + unfold Tax.tax_inv. cbn [Tax.td_calcs mret st_ret snd]. rewrite map_app. apply NoDup_app. split; [done|]. split; [|apply NoDup_singleton].
      intros key Hkey Hc. apply list_elem_of_singleton in Hc as ->. apply elem_of_map in Hkey as (x & Hx & Hxin).
      assert (x ∈ List.filter (Tax.same_period org k f t) (Tax.td_calcs d)) as Hf; [|by rewrite F1 in Hf; apply not_elem_of_nil in Hf].
      apply list_elem_of_In, filter_In. split; [by apply list_elem_of_In | by apply Tax.same_period_key].
    + cbn [Tax.td_calcs mret st_ret snd]. apply Forall_app. split; [done|]. apply Forall_singleton. split; [apply F | done].
    + intros x Hx. exists x. split; [|done]. cbn [Tax.td_calcs mret st_ret snd]. apply elem_of_app. by left.
Qed.

Lemma tax_files org k from to input result total : fits k result total ->
  tax_keeps (Tax.tax_write (Tax.upsert org k from to input result total)) (fun _ => True).
Proof.
  intros F. apply tax_bind with (fun _ => True); [apply tax_yields|]. intros _ _ t [O E]. unfold Tax.tax_txn.
  destruct (upsert_keeps org k from to input result total F _ O) as [O' S].
  destruct (Tax.upsert org k from to input result total (Tax.tw_t t)) as [[c|e|] d]; cbn [fst snd] in *; (split; [split; [by split | done || reflexivity] | done]).
Qed.

Lemma sum_whole org accounts sd from to v :
  tax_keeps (Tax.sum_line_amount_tiyn org accounts sd from to v) (fun z => I64_MIN <= z <= I64_MAX).
Proof.
  unfold Tax.sum_line_amount_tiyn. apply tax_payroll. intros p. unfold Payroll.on_journal, Tax.read_or_fail, Db.execute_read, gets, Db.yield, modify.
  rewrite !st_bind_case. destruct (date_in from), (date_in to); try done. unfold lift. destruct (in_i64 _) eqn:E; [|done].
  cbn. unfold in_i64 in E. apply andb_true_iff in E as [H1%Z.leb_le H2%Z.leb_le]. done.
Qed.

Lemma apply_bp_range base bp : match Tax.apply_bp base bp with Ok z => I64_MIN <= z <= I64_MAX | _ => True end.
Proof.
  destruct (Tax.apply_bp base bp) as [z| |] eqn:E; [|done..]. unfold Tax.apply_bp in E.
  apply bind_Ok_inv in E as (p & _ & (q & [-> H]%i64_inv & [= <-])%bind_Ok_inv). unfold I64_MIN, I64_MAX in *.
  pose proof (Z.quot_rem' (p + 5000) 10000). pose proof (Z.rem_bound_abs (p + 5000) 10000). lia.
Qed.

Lemma calculate_snr_keeps org from to : tax_keeps (Tax.calculate_snr org from to) (fun _ => True).
Proof.
  unfold Tax.calculate_snr. apply tax_bind with (fun z => I64_MIN <= z <= I64_MAX); [apply sum_whole|]. intros income Hi.
  apply tax_bind with (fun _ => True); [apply tax_payroll; intros p; by case_match|]. intros [rate|] _; [|apply tax_throw].
  apply tax_bind with (fun z => I64_MIN <= z <= I64_MAX); [apply tax_lift, apply_bp_range|]. intros tax Ht.
  apply tax_files. intros id o f t at_ input. left. repeat split; try (eexists; reflexivity); cbn; [|lia..]. exists income. by split.
Qed.

Lemma calculate_vat_keeps org from to : tax_keeps (Tax.calculate_vat org from to) (fun _ => True).
Proof.
  unfold Tax.calculate_vat. apply tax_bind with (fun z => I64_MIN <= z <= I64_MAX); [apply sum_whole|]. intros accrued Ha.
  apply tax_bind with (fun z => I64_MIN <= z <= I64_MAX); [apply sum_whole|]. intros deductible Hd.
  apply tax_bind with (fun z => I64_MIN <= z <= I64_MAX).
  { apply tax_lift. destruct (sub64 accrued deductible) as [z| |] eqn:E; [by apply i64_inv in E as [-> ?] | done..]. }
  intros balance Hb. apply tax_bind with (fun z => I64_MIN <= z <= I64_MAX); [apply sum_whole|]. intros income Hi.
  apply tax_bind with (fun _ => True); [apply tax_payroll; intros p; by case_match|]. intros rate _.
  apply tax_files. intros id o f t at_ input. right. split; [done|]. unfold whole. cbn.
  split; [by exists accrued|]. split; [by exists deductible|]. split; [done | by exists income].
Qed.

Lemma threshold_alerts_keeps org on : tax_keeps (Tax.threshold_alerts org on) (fun _ => True).
Proof.
  unfold Tax.threshold_alerts. apply tax_bind with (fun _ => True); [apply tax_lift; by case_match|]. intros from _.
  apply tax_bind with (fun z => I64_MIN <= z <= I64_MAX); [apply sum_whole|]. intros income _.
  apply tax_bind with (fun _ => True); [apply tax_payroll; intros p; by case_match|]. intros [v|] _; [|apply tax_throw].
  apply tax_bind with (fun _ => True); [apply tax_lift; by case_match|]. intros near _.
  apply tax_bind with (fun _ => True); [apply tax_payroll; intros p; by case_match|]. intros mrp _.
  apply tax_bind with (fun _ => True); [apply tax_payroll; intros p; by case_match|]. intros limit _.
  destruct mrp as [m|], (match limit with Some c => Payroll.value_units c | None => None end) as [units|]; try apply tax_throw.
  apply tax_bind with (fun _ => True); [apply tax_lift; by case_match|]. intros threshold _.
  apply tax_bind with (fun _ => True); [apply tax_lift; by case_match|]. intros near2 _. by apply tax_still.
Qed.

End Coherent.

(** ** Filings stay with their calculations *)

Section Kept.
Context `{PG : Postgres} `{RD : Renderer} `{MP : MergePatch}.
Context (tree : Registry.Tree) (version_output : option string) (sha256_hex : string -> string).

(** A calculation with this identity, organization, kind and period is in the table. *)
Definition on_file (w : World) (head : string * string * string * string * string) : Prop :=
  exists c, c ∈ calculations w /\ calc_head c = head.

(** The storage has an object under the key, if there is one. *)
Definition put_away (w : World) (key : option string) : Prop :=
  forall k, key = Some k -> is_Some (objects (docs_store w) !! k).

(** What a filing says: the form of a calculation of its own organization and kind, for
    the calculation's period; generated when its XML is in the storage under the key it
    names, a draft when it names none. *)
Definition filed_from (w : World) (f : Filing) : Prop :=
  is_allowed (f_kind f) allowed_filing_kinds = true /\
  on_file w (f_calculation f, f_org f, expected_calculation_kind (f_kind f), f_from f, f_to f) /\
  put_away w (f_xml f) /\
  f_status f = (match f_xml f with Some _ => kGenerated | None => kDraft end) /\ f_validated f = false.

Record sound (w : World) : Prop := mkSound {
  sound_docs : good (docs_store w);
  sound_tax : tax_ok (tax w);
  sound_fresh : forall id f, filings w !! id = Some f -> exists n, (n < f_seq w)%nat /\ id = gen_random_uuid n;
  sound_filings : forall id f, filings w !! id = Some f -> filed_from w f
}.

(** Documents move as documents do, calculations stay, and so does every filing. *)
Record onward (w w' : World) : Prop := mkOnward {
  onward_docs : evolves (docs_store w) (docs_store w');
  onward_tax : stable (Tax.tw_t (tax w)) (Tax.tw_t (tax w'));
  onward_filings : forall id f, filings w !! id = Some f -> filings w' !! id = Some f;
  onward_seq : (f_seq w <= f_seq w')%nat
}.

#[export] Instance onward_pre : PreOrder onward.
Proof.
  split; [intros w; by constructor|]. intros w1 w2 w3 [D1 T1 F1 S1] [D2 T2 F2 S2]. constructor; [by etrans.. | by eauto | lia].
Qed.

Lemma on_file_later w w' h : onward w w' -> on_file w h -> on_file w' h.
Proof. intros O (c & Hc & <-). exact (onward_tax _ _ O c Hc). Qed.

Lemma put_away_later w w' k : onward w w' -> put_away w k -> put_away w' k.
Proof. intros O H key E. apply (ev_objects _ _ (onward_docs _ _ O)). by apply H. Qed.

Lemma filed_later w w' f : onward w w' -> filed_from w f -> filed_from w' f.
Proof.
  intros O (K & C & X & R). split; [done|]. split; [by apply (on_file_later w)|]. split; [by apply (put_away_later w) | done].
Qed.

Abbreviation calmly := (quiet sound onward).

Definition calm {A} (m : st World A) : Prop := forall w, sound w -> sound (m w).2 /\ onward w (m w).2.

(** Steps on one part leave the others as they are. *)
Lemma docs_calm {A} (m : st Store A) : keeps m -> calm (on_docs m).
Proof.
  intros Hm w [D T F S]. unfold on_docs. destruct (Hm _ D) as [D' E]. destruct (m (docs_store w)) as [r s]. cbn [snd] in *.
  assert (onward w (with_store s w)) as O by by constructor. split; [|done].
  constructor; [done..|]. intros id f Hf. apply (filed_later w); [done | by eapply S].
Qed.

Lemma tax_calm {A} (m : st Tax.TWorld A) P : tax_keeps m P -> calm (on_tax m).
Proof.
  intros Hm w [D T F S]. unfold on_tax. destruct (Hm _ T) as [[T' E] _]. destruct (m (tax w)) as [r t]. cbn [snd] in *.
  assert (onward w (with_tax t w)) as O by (constructor; done). split; [|done]. constructor; [done | done | done|].
  intros id f Hf. apply (filed_later w); [done | by eapply S].
Qed.

Lemma filing_read_calm {A} (f : World -> A) : calm (gets f).
Proof. by intros w. Qed.

Lemma calm_call {A B} (m : st World A) (k : A -> prog World B) w : calm m -> (forall a w', calmly (k a) w') -> calmly (atomic m ≫= k) w.
Proof. intros Hm. by apply quiet_call. Qed.

Lemma calm_once {A} (m : st World A) w : calm m -> calmly (atomic m) w.
Proof. intros Hm. apply quiet_last. intros w1 _ S. by apply Hm. Qed.

(** A filing written for a calculation that is on file. *)
Lemma create_filing_calm w org k from to xml document calculation : sound w ->
  is_allowed k allowed_filing_kinds = true -> on_file w (calculation, org, expected_calculation_kind k, from, to) -> put_away w xml ->
  date_in from = Some from -> date_in to = Some to ->
  let m := create_filing org k from to (match xml with Some _ => kGenerated | None => kDraft end) calculation xml document false in
  sound (m w).2 /\ onward w (m w).2.
Proof.
  intros G Hk Hc Hx Hf Ht m. assert (sound w /\ onward w w) as Same by done. unfold m, create_filing. rewrite Hf, Ht.
  destruct (negb _); [done|]. destruct (_ || _); [done|]. cbn [snd].
  set (id := gen_random_uuid (f_seq w)). set (row := mkFiling org k from to _ calculation xml document false (f_now w)).
  assert (good (hold document (docs_store w)) /\ evolves (docs_store w) (hold document (docs_store w))) as [D E].
  { destruct document; [apply frame_steps; [apply G | done | done | done | done | done] | split; [apply G | done]]. }
  assert (filings w !! id = None) as N.
  { destruct (filings w !! id) as [f|] eqn:Ef; [|done]. destruct (sound_fresh _ G _ _ Ef) as (n & Hn & En). apply uuid_unique in En. lia. }
  assert (onward w (next_filing (with_store (hold document (docs_store w)) (with_filings (insert id row) w)))) as O.
  { constructor; cbn; [done | done | | lia]. intros i f Hi. rewrite lookup_insert_ne; [done|]. intros <-. congruence. }
  split; [|done]. constructor; cbn.
  - done.
  - apply G.
  - intros i f [[<- <-]|[_ Hi]]%lookup_insert_Some; [exists (f_seq w); split; [lia | done]|].
    destruct (sound_fresh _ G _ _ Hi) as (n & ? & ?). exists n. split; [lia | done].
  - intros i f [[<- <-]|[_ Hi]]%lookup_insert_Some; [|by apply (filed_later w), (sound_filings _ G i f)].
    split; [done|]. split; [exact Hc|]. split; [exact (put_away_later _ _ _ O Hx) | done].
Qed.

Lemma docs_zoom {A} (p : prog Store A) w : quiet good evolves p (docs_store w) -> calmly (zoom docs_store with_store p) w.
Proof.
  revert w. induction p as [r|next k IH]; intros w; cbn [zoom quiet ok]; [done|]. intros H w1 O G.
  destruct (H (docs_store w1)) as (D & E & K); [apply O | apply G|].
  assert (onward w1 (with_store (next (docs_store w1)) w1)) as O1 by by constructor. split; [|split; [done|]].
  - constructor; [done | apply G | apply G|]. intros id f Hf. apply (filed_later w1); [done | exact (sound_filings _ G id f Hf)].
  - by apply IH.
Qed.

Lemma filing_void_calm {A} (p : prog World A) w : calmly p w -> calmly (void p) w.
Proof. intros Hp. unfold void. apply quiet_bind; [exact _ | exact Hp | intros a w1; apply quiet_done]. Qed.

Lemma permitted_calm ctx a k w : calmly k w -> calmly (permitted ctx a k) w.
Proof. intros Hk. unfold permitted, DocumentFlow.permitted. by case_match. Qed.

Lemma repo_calm p w : calmly p w -> calmly (with_repo_errors p) w.
Proof. apply quiet_catch. Qed.

Lemma parse_on_date_calm param k w : (forall d w', calmly (k d) w') -> calmly (parse_on_date param k) w.
Proof.
  intros Hk. unfold parse_on_date. case_match; [by apply calm_call; [apply filing_read_calm|]|]. apply quiet_pure. intros [] _; [apply Hk | done].
Qed.

Lemma missing_reference_calm field p w : calmly p w -> calmly (missing_reference field p) w.
Proof. apply quiet_catch. Qed.

(** The handlers that only read, and the one that calculates. *)
Ltac calm_on := repeat first
  [ done | apply permitted_calm | apply repo_calm | apply missing_reference_calm
  | apply parse_on_date_calm; intros ? ? | apply calm_call; [first [apply filing_read_calm | apply docs_calm, gets_keeps]|]; intros ? ? | case_match ].

Lemma file_form_calm queued ctx k calc info input key w :
  is_allowed k allowed_filing_kinds = true -> Tax.calc_org calc = ctx_org ctx -> Tax.kind calc = expected_calculation_kind k ->
  coherent calc -> on_file w (calc_head calc) -> put_away w key -> calmly (file_form queued ctx k calc (Tax.calc_id calc) info input key) w.
Proof.
  intros Hk Ho Hkind (_ & Hf & Ht) Hc Hx. unfold file_form. apply quiet_step. intros w1 r w2 O1 G1 E1.
  pose proof (docs_calm _ (create_keeps (ctx_org ctx) "fno" "generated" "draft" None (Some (Registry.slug info)) (Some (Registry.version_str info)) (Some input) None) w1 G1) as H1.
  rewrite E1 in H1. destruct H1 as [G2 O2]. split; [done|]. split; [done|]. intros d _.
  apply quiet_step. intros w3 r3 w4 O3 G3 E3.
  assert (on_file w3 (Tax.calc_id calc, ctx_org ctx, expected_calculation_kind k, Tax.period_from calc, Tax.period_to calc)) as Hc3.
  { apply (on_file_later w); [by do 2 (etrans; [eassumption|])|]. rewrite <- Hkind, <- Ho. exact Hc. }
  assert (put_away w3 key) as Hx3 by (apply (put_away_later w); [by do 2 (etrans; [eassumption|]) | done]).
  pose proof (create_filing_calm w3 (ctx_org ctx) k _ _ key (Some (doc_id d)) (Tax.calc_id calc) G3 Hk Hc3 Hx3 Hf Ht) as H3. cbv zeta in H3.
  rewrite E3 in H3. destruct H3 as [G4 O4]. split; [done|]. split; [done|]. intros f _.
  apply calm_call; [apply docs_calm, gets_keeps|]. intros v w5. apply calm_call; [|done].
  unfold DocumentFlow.submit_render. destruct queued; [|apply docs_calm, gets_keeps].
  apply docs_calm. intros s G. by apply frame_steps.
Qed.

Lemma file_calculation_calm st jr up q uuid ctx k body calc w :
  is_allowed k allowed_filing_kinds = true -> Tax.calc_org calc = ctx_org ctx -> coherent calc -> on_file w (calc_head calc) ->
  calmly (file_calculation tree st jr up q uuid ctx k (Tax.calc_id calc) body calc) w.
Proof.
  intros Hk Ho Hc Hf. unfold file_calculation. destruct (String.eqb_spec (Tax.kind calc) (expected_calculation_kind k)) as [Hkind|]; [|done]. cbn [negb].
  apply quiet_read; [exact _|]. intros w1 O1 G1. destruct (companies w1 !! ctx_org ctx) as [o|]; [|done].
  apply quiet_read; [exact _|]. intros w2 O2 G2. apply quiet_pure. intros [refused|[info input]] _; [done|]. destruct (negb st); [done|]. destruct (negb jr); [done|].
  apply quiet_pure. intros [xml|] _; [|done]. apply ok_bind, ok_catch. apply ok_bind, ok_atomic. intros w3 r w4 O3 G3 E.
  assert (calm (on_docs (DocumentFlow.put (xml_key_of uuid (ctx_org ctx) k calc) xml up))) as Cp.
  { apply docs_calm. intros s G. unfold DocumentFlow.put. destruct up; [by apply put_steps | done]. }
  destruct (Cp w3 G3) as [G4 O4]. rewrite E in G4, O4. split; [done|]. split; [done|].
  assert (on_file w4 (calc_head calc)) as Hf4 by by apply (on_file_later w); [do 3 (etrans; [eassumption|])|].
  unfold on_docs, DocumentFlow.put in E. destruct up; cbn in E; injection E as <- <-.
  - apply repo_calm, file_form_calm; try done. intros x [= <-]. cbn. rewrite lookup_insert_eq. by eexists.
  - by apply repo_calm, file_form_calm.
Qed.

Lemma createFiling_calm st jr up q uuid ctx parsed w : calmly (createFiling tree st jr up q uuid ctx parsed) w.
Proof.
  unfold createFiling. apply permitted_calm. destruct parsed as [body|]; [|done]. destruct (filing_errors body) as [|e errs]; [|done].
  destruct (text_field "kind" body) as [k|], (text_field "calculation_id" body) as [id|]; try done.
  destruct (is_allowed k allowed_filing_kinds) eqn:Hk; [|done]. cbn [negb]. apply quiet_read; [exact _|]. intros w1 O G.
  destruct (List.find _ _) as [calc|] eqn:E; [|done]. apply find_some in E as [Hin Hs%andb_true_iff]. rewrite !String.eqb_eq in Hs.
  destruct Hs as [<- Ho]. apply list_elem_of_In in Hin. apply file_calculation_calm; [done | done | | by exists calc].
  exact (proj1 (Forall_forall _ _) (proj2 (proj1 (sound_tax _ G))) calc Hin).
Qed.

(** A request to the routes of this controller. *)
Inductive request :=
| ListRates (ctx : OrgContext) (on : string) | ListDeadlines (ctx : OrgContext) (on horizon : string) | ListAlerts (ctx : OrgContext) (on : string)
| CreateCalculation (ctx : OrgContext) (body : option json)
| ListCalculations (ctx : OrgContext) (k year limit offset : string)
| CreateFiling (storage jobs_ready up queued : bool) (uuid : string) (ctx : OrgContext) (body : option json)
| ListFilings (ctx : OrgContext) (k limit offset : string) | GetFiling (ctx : OrgContext) (id : string)
| FilingDownloadUrl (presign : option (string -> string)) (ctx : OrgContext) (id artifact : string).

Definition handle (r : request) : prog World Reply :=
  match r with
  | ListRates ctx on => listRates ctx on | ListDeadlines ctx on h => listDeadlines ctx on h | ListAlerts ctx on => listAlerts ctx on
  | CreateCalculation ctx b => createCalculation ctx b
  | ListCalculations ctx k y l o => listCalculations ctx k y l o
  | CreateFiling st jr up q uuid ctx b => createFiling tree st jr up q uuid ctx b
  | ListFilings ctx k l o => listFilings ctx k l o | GetFiling ctx id => getFiling ctx id
  | FilingDownloadUrl pr ctx id a => filingDownloadUrl pr ctx id a
  end.

(** What may run: these requests, everything that runs on documents, and whatever leaves
    documents and filings alone and calculations where they are (the rest of the
    accounting, other sessions, time). *)
Inductive entered : World -> prog World () -> Prop :=
| enter_request w r : entered w (void (handle r))
| enter_documents w p : DocumentFlow.request tree version_output sha256_hex (docs_store w) p -> entered w (zoom docs_store with_store p)
| enter_outside w f : (forall w', docs_store (f w') = docs_store w' /\ filings (f w') = filings w' /\ f_seq (f w') = f_seq w' /\
                        (tax_ok (tax w') -> tax_moves (tax w') (tax (f w')))) -> entered w (Step f (fun _ => mret tt)).

Lemma filing_handle_calm r w : calmly (handle r) w.
Proof.
  destruct r; cbn [handle].
  - unfold listRates. calm_on.
  - unfold listDeadlines. apply permitted_calm, parse_on_date_calm. intros d w1. cbv zeta. apply repo_calm, calm_call; [by intros w2|]. done.
  - unfold listAlerts. apply permitted_calm, parse_on_date_calm. intros d w1. apply repo_calm, missing_reference_calm, calm_call; [|done].
    eapply tax_calm, threshold_alerts_keeps.
  - unfold createCalculation. apply permitted_calm. destruct body as [b|]; [|done]. destruct (calculation_errors b); [|done].
    destruct (text_field "kind" b), (text_field "period_from" b), (text_field "period_to" b); try done.
    apply quiet_pure. intros from_ok _. apply quiet_pure. intros to_ok _. destruct (period_errors _ _ _ _ _); [|done].
    apply repo_calm, missing_reference_calm, calm_call; [|done].
    case_match; [eapply tax_calm, calculate_snr_keeps | eapply tax_calm, calculate_vat_keeps].
  - unfold listCalculations. apply permitted_calm. cbv zeta. destruct (Validation.any _); [done|]. calm_on.
  - apply createFiling_calm.
  - unfold listFilings. calm_on.
  - unfold getFiling. calm_on.
  - unfold filingDownloadUrl. apply permitted_calm. destruct (negb _); [done|]. cbv zeta. destruct (negb _); [done|]. calm_on.
Qed.

Lemma filing_entered_calm w p : entered w p -> calmly p w.
Proof.
  intros [w0 r | w0 q Hq | w0 f Hf].
  - apply filing_void_calm, filing_handle_calm.
  - apply docs_zoom. by eapply DocumentFlow.request_quiet.
  - intros w1 _ G. destruct (Hf w1) as (E1 & E2 & E3 & T). destruct (T (sound_tax _ G)) as [T1 T2].
    assert (onward w1 (f w1)) as O by (constructor; [by rewrite E1 | done | by rewrite E2 | by rewrite E3]).
    split; [|done]. constructor; [rewrite E1; apply G | done | rewrite E2, E3; apply G|]. rewrite E2. intros id x Hx.
    apply (filed_later w1); [done | exact (sound_filings _ G _ _ Hx)].
Qed.

(** C33: Filings stay true to their calculations.  From a consistent store, let filings,
    calculations, uploads, renders, edits and the rest of the accounting interleave in any
    way: at every moment each filing names a stored calculation of its own organization,
    of the kind its form is made from and of its own period; a filing marked generated
    names a key under which the storage has an object, every other one is a draft and
    names none; none is marked as validated against a schema; no filing is ever
    changed or lost, nothing that was put into the storage disappears, and
    recalculating a period leaves its calculation in place. *)
Theorem filings_kept w w' ps : sound w -> rtc (turn entered) (w, []) (w', ps) ->
  (forall id f, filings w' !! id = Some f -> filed_from w' f) /\
  (forall id f, filings w !! id = Some f -> filings w' !! id = Some f) /\
  (forall key, is_Some (objects (docs_store w) !! key) -> is_Some (objects (docs_store w') !! key)) /\
  stable (Tax.tw_t (tax w)) (Tax.tw_t (tax w')) /\ Forall coherent (calculations w') /\
  good (docs_store w') /\ evolves (docs_store w) (docs_store w').
Proof.
  intros G H. destruct (pool_keeps sound onward entered (fun w p _ => filing_entered_calm w p) (w, []) (w', ps) H) as (G' & O & _); [exact G | by constructor|].
  cbn [fst snd] in *. split; [apply G'|]. split; [apply O|]. split; [apply (ev_objects _ _ (onward_docs _ _ O))|]. split; [apply O|]. split; [exact (proj2 (proj1 (sound_tax _ G')))|]. split; [apply G' | apply O].
Qed.

End Kept.

(** ** Rates in print *)

(** A rate as the forms print it, read back: the percents and, after the point, their hundredths. *)
Definition hundredths (f : string) : Z := if Nat.eqb (size f) 1 then 10 * parse_digits 0 f else parse_digits 0 f.
Definition read_percent (s : string) : option Z :=
  match pieces "." s with
  | [w] => Some (100 * parse_digits 0 w)
  | [w; f] => Some (100 * parse_digits 0 w + hundredths f)
  | _ => None
  end.

Definition not_point (c : ascii) : bool := negb (Ascii.eqb c ".").

(** The text of every number of hundredths. *)
Lemma fractions_read : forallb (fun n => let f := Z.of_nat n in
  let s := (if f <? 10 then "0" else "") +:+ str_rev (trim_zeros (str_rev (to_string f))) in
  (hundredths s =? f) && str_all not_point s) (List.seq 1 99) = true.
Proof. vm_compute. reflexivity. Qed.

Lemma digits_pointless s : str_all is_digit s = true -> str_all not_point s = true.
Proof.
  induction s as [|c s IH]; cbn [str_all]; [done|]. intros [Hc Hs]%andb_true_iff. rewrite (IH Hs), andb_true_r. unfold not_point.
  by destruct (Ascii.eqb_spec c ".") as [->|].
Qed.

(** What the forms print of a rate says the rate. *)
Theorem format_bp_percent_roundtrip bp : 0 <= bp <= I64_MAX -> read_percent (format_bp_percent bp) = Some bp.
Proof.
  intros [H HM]. unfold format_bp_percent. cbv zeta. rewrite quot_div, rem_mod by lia.
  assert (0 <= bp mod 100 < 100) as Hf by (apply Z.mod_pos_bound; lia). rewrite Z.abs_eq by lia.
  assert (0 <= bp / 100) as Hw by dlia. rewrite (to_string_nonneg (bp / 100)) by done.
  pose proof (digits_pointless _ (dec_all (bp / 100))) as D. unfold read_percent. destruct (Z.eqb_spec (bp mod 100) 0) as [E|E].
  - rewrite pieces_one by done. rewrite parse_dec by (unfold I64_MAX in *; dlia). f_equal. dlia.
  - pose proof (proj1 (forallb_forall _ _) fractions_read (Z.to_nat (bp mod 100))) as K. cbv beta zeta in K. rewrite Z2Nat.id in K by lia.
    apply andb_true_iff in K as [K1%Z.eqb_eq K2]; [|apply in_seq; lia].
    set (s := (if bp mod 100 <? 10 then "0" else "") +:+ _) in *. change ("." +:+ s) with (String "." s).
    rewrite pieces_cons, pieces_one by done. rewrite parse_dec, K1 by (unfold I64_MAX in *; dlia). f_equal. dlia.
Qed.

(** ** What is printed is what is filed *)

(** An amount in print, and in words. *)
Definition printed (t : Z) (j : option json) : Prop := exists s, j = Some (JString s) /\ parse_digits 0 (str_filter is_digit s) = t.
Definition spelled (t : Z) (j : option json) : Prop := exists s, j = Some (JString s) /\ Words.read_ru s = Some t.

Lemma format_prints t s : t <= I64_MAX -> Format.format_tiyn_ru t = Ok s -> 0 <= t /\ printed t (Some (JString s)).
Proof.
  intros Ht E. assert (0 <= t) as H0. { unfold Format.format_tiyn_ru in E. destruct (Z.ltb_spec t 0); [done | lia]. }
  split; [done|]. destruct (Format.format_tiyn_ru_roundtrip t) as (s' & E' & R); [lia|]. exists s. split; [done|]. congruence.
Qed.

Lemma spelled_out t s : spell_out_tiyn t = Ok (inr s) -> spelled t (Some (JString s)).
Proof.
  unfold spell_out_tiyn. intros E. assert (0 <= t <= Words.kMaxTiyn) as H.
  { unfold Words.to_words_ru, Words.words_range_error in E. destruct (Z.ltb_spec t 0); [done|]. destruct (Z.ltb_spec Words.kMaxTiyn t); [done | lia]. }
  destruct (Words.to_words_ru_in_range t H) as (s' & E' & R). rewrite E' in E. injection E as <-. by exists s'.
Qed.

Lemma tax_member key l : Tax.member key l = obj_get key l.
Proof.
  unfold Tax.member. induction l as [|[k v] l IH]; cbn [List.find fst obj_get]; [done|]. rewrite String.eqb_sym. by destruct (String.eqb key k).
Qed.

Lemma value_whole key j z : member key j = Some (JInt z) -> Tax.value_ll key j = Ok z.
Proof. destruct j; [done..|]. cbn [member Tax.value_ll]. rewrite tax_member. by intros ->. Qed.

Lemma snapshot_whole key c z : whole key c z -> snapshot_int c key = inr z.
Proof. intros [E H]. unfold snapshot_int. by rewrite E, get_ll_id. Qed.

Lemma snapshot_raw key c z : member key (Tax.result_snapshot c) = Some (JInt z) -> snapshot_int c key = inr (get_ll z).
Proof. intros E. unfold snapshot_int. by rewrite E. Qed.

Lemma quarter_agrees c q : Forms.Fno300.quarter_from_period_from (Tax.period_from c) = Ok q -> q = quarter_of (Tax.period_from c).
Proof.
  unfold Forms.Fno300.quarter_from_period_from, quarter_of, month_of. destruct (Nat.ltb_spec (size (Tax.period_from c)) 7); [done|].
  unfold substr. destruct (Nat.leb_spec 5 (size (Tax.period_from c))); [|lia]. rewrite bind_ok. intros (m & Hm & [= <-])%bind_Ok_inv.
  unfold parse_int. rewrite Hm. destruct (String.eqb_spec (str_take 2 (str_drop 5 (Tax.period_from c))) "") as [E|]; [by rewrite E in Hm | done].
Qed.

Section Printed.
Context `{PG : Postgres}.

(** A rate in print, in percent. *)
Definition rated (bp : Z) (j : option json) : Prop :=
  exists s, j = Some (JString s) /\ (0 <= bp <= I64_MAX -> read_percent s = Some bp).

Lemma format_rates bp : rated bp (Some (JString (format_bp_percent (get_ll bp)))).
Proof. eexists. split; [reflexivity|]. intros H. rewrite get_ll_id; [by apply format_bp_percent_roundtrip | unfold I64_MIN, I64_MAX in *; lia]. Qed.

(** What both forms say in print of the organization, the period and the day. *)
Definition says_whose (period : string) (ordinal : Z) (c : Tax.Calculation) (o : Tenancy.Organization) (day : string) (j : json) : Prop :=
  walk j ["org"; "bin"] = Some (JString (Tenancy.bin o)) /\ walk j ["org"; "name"] = Some (JString (Tenancy.name o)) /\
  walk j ["period"; period] = Some (JString (to_string ordinal)) /\
  walk j ["period"; "year"] = Some (JString (str_take 4 (Tax.period_from c))) /\
  walk j ["signed_on"] = Some (JString (iso_to_ddmmyyyy day)).

(** The simplified declaration: everything in print, every field of the form in the XML, and its summary. *)
Definition says_910 (c : Tax.Calculation) (o : Tenancy.Organization) (day : string) (j : json) (l : list (string * string)) : Prop :=
  exists income rate i x, whole "income_tiyn" c income /\ member "rate_bp" (Tax.result_snapshot c) = Some (JInt rate) /\
    says_whose "half" (half_of (Tax.period_from c)) c o day j /\
    printed income (walk j ["income_tenge"]) /\ rated rate (walk j ["rate_percent"]) /\
    printed (Tax.total_tiyn c) (walk j ["tax_tenge"]) /\ spelled (Tax.total_tiyn c) (walk j ["tax_words"]) /\
    Forms.nearest_tenge i income /\ Forms.nearest_tenge x (Tax.total_tiyn c) /\
    Forms.fields l = [("iin", Tenancy.bin o); ("rnn", Tenancy.bin o); ("payer_name1", Tenancy.name o);
      ("period_year", str_take 4 (Tax.period_from c)); ("period_half_year", to_string (half_of (Tax.period_from c)));
      ("currency_code", "KZT"); ("dt_regular", "true"); ("field_910_00_001", to_string i)] /\
    map (fun t => Forms.content t l) ["incomeTenge"; "rateBp"; "taxTenge"; "periodFrom"; "periodTo"]
    = map Some [to_string i; to_string rate; to_string x; Tax.period_from c; Tax.period_to c].

(** The VAT declaration, with the balance on the side it falls on. *)
Definition says_300 (c : Tax.Calculation) (o : Tenancy.Organization) (day : string) (j : json) (l : list (string * string)) : Prop :=
  exists accrued deductible sales pay refund a d p q r,
    whole "accrued_tiyn" c accrued /\ whole "deductible_tiyn" c deductible /\ whole "income_tiyn" c sales /\
    whole "balance_tiyn" c (Tax.total_tiyn c) /\
    says_whose "quarter" (quarter_of (Tax.period_from c)) c o day j /\
    printed sales (walk j ["sales_tenge"]) /\
    printed accrued (walk j ["vat_charged_tenge"]) /\ printed deductible (walk j ["vat_credited_tenge"]) /\
    printed (Z.abs (Tax.total_tiyn c)) (walk j ["balance_tenge"]) /\ spelled (Z.abs (Tax.total_tiyn c)) (walk j ["balance_words"]) /\
    walk j ["balance_kind"] = Some (JString (if Tax.total_tiyn c <? 0 then "to_refund" else "to_pay")) /\
    pay - refund = Tax.total_tiyn c /\ 0 <= pay /\ 0 <= refund /\ (pay = 0 \/ refund = 0) /\
    Forms.nearest_tenge a accrued /\ Forms.nearest_tenge d deductible /\ Forms.nearest_tenge p pay /\
    Forms.nearest_tenge q refund /\ Forms.nearest_tenge r (Tax.total_tiyn c) /\
    Forms.fields l = [("iin", Tenancy.bin o); ("rnn", Tenancy.bin o); ("payer_name1", Tenancy.name o);
      ("period_year", str_take 4 (Tax.period_from c)); ("period_quarter", to_string (quarter_of (Tax.period_from c)));
      ("currency_code", "KZT"); ("dt_regular", "true");
      ("field_300_00_012", to_string a); ("field_300_00_023", to_string d);
      ("field_300_00_030_01", to_string p); ("field_300_00_030_02", to_string q)] /\
    map (fun t => Forms.content t l)
      ["accruedTenge"; "deductibleTenge"; "balanceTenge"; "toPayTenge"; "toRefundTenge"; "periodFrom"; "periodTo"]
    = map Some [to_string a; to_string d; to_string r; to_string p; to_string q; Tax.period_from c; Tax.period_to c].

Definition says (k : string) := if is_910 k then says_910 else says_300.

(** An input that agrees with another but for the signatures says the same. *)
Definition but_signatures (j j' : json) : Prop :=
  forall field rest, field ∉ [""; "director"; "accountant"] -> walk j' (field :: rest) = walk j (field :: rest).

Lemma says_signed k c o day j j' l : but_signatures j j' -> says k c o day j l -> says k c o day j' l.
Proof.
  intros E. assert (forall f r, forallb (fun n => negb (String.eqb f n)) [""; "director"; "accountant"] = true -> walk j' (f :: r) = walk j (f :: r)) as E'.
  { intros f r H. apply E. intros Hin. rewrite forallb_forall in H. apply list_elem_of_In in Hin. specialize (H f Hin). by rewrite String.eqb_refl in H. }
  unfold says, says_910, says_300, says_whose. destruct (is_910 k); by rewrite !E' by reflexivity.
Qed.

Lemma declaration_910 c id o day base : coherent c -> Tax.kind c = Tax.kSnrSimplified -> Tax.calc_org c = id ->
  input_910 c o day = Ok (inr base) ->
  exists xml l, build_form_xml kFno910 c id o = Ok xml /\ Forms.markup xml = Some l /\ Forms.nested [] l = true /\ says_910 c o day base l.
Proof.
  intros [[(Hk & (income & Hi) & (rate & Hr) & Ht)|(Hk & _)] _] Hkind Ho E; [|rewrite Hk in Hkind; discriminate].
  unfold input_910 in E. rewrite (snapshot_whole _ _ _ Hi), (snapshot_raw _ _ _ Hr) in E. cbn [on_unfit] in E.
  apply bind_Ok_inv in E as (si & Ei & (st & Et & (words & Ew & E)%bind_Ok_inv)%bind_Ok_inv). destruct words as [|words]; [done|].
  cbn [on_unfit] in E. injection E as <-.
  destruct (Forms.fno910_document c (org_info_for kFno910 c id o) income rate) as (xml & l & i & x & Hx & Hm & Hn & Hin & Hxn & Hf & Hc);
    [done | by rewrite Ho | by apply value_whole, Hi | by apply value_whole|].
  exists xml, l. split; [done|]. split; [done|]. split; [done|]. exists income, rate, i, x. split; [done|]. split; [done|]. split; [done|].
  split; [apply (format_prints _ _ (proj2 (proj2 Hi)) Ei)|]. split; [apply format_rates|].
  split; [apply (format_prints _ _ (proj2 Ht) Et)|]. split; [by apply spelled_out in Ew|]. split; [done|]. split; [done|]. by split.
Qed.

Lemma declaration_300 c id o day base xml : coherent c -> Tax.kind c = Tax.kVat -> Tax.calc_org c = id ->
  input_300 c o day = Ok (inr base) -> build_form_xml kFno300 c id o = Ok xml ->
  exists l, Forms.markup xml = Some l /\ Forms.nested [] l = true /\ says_300 c o day base l.
Proof.
  intros [[(Hk & _)|(Hk & (a & Ha) & (d & Hd) & Hb & (i & Hi))] _] Hkind Ho E Hx; [rewrite Hk in Hkind; discriminate|].
  unfold input_300 in E. rewrite (snapshot_whole _ _ _ Ha), (snapshot_whole _ _ _ Hd), (snapshot_whole _ _ _ Hb), (snapshot_whole _ _ _ Hi) in E.
  cbn [on_unfit] in E. apply bind_Ok_inv in E as (si & Ei & (sa & Ea & (sd & Ed & (m & Em & E)%bind_Ok_inv)%bind_Ok_inv)%bind_Ok_inv).
  apply bind_Ok_inv in E as (sb & Eb & (words & Ew & E)%bind_Ok_inv). destruct words as [|words]; [done|]. cbn [on_unfit] in E. injection E as <-.
  assert (m = Z.abs (Tax.total_tiyn c) /\ I64_MIN < Tax.total_tiyn c <= I64_MAX /\ m <= I64_MAX) as (-> & Hb' & Hm).
  { destruct Hb as [_ Hb]. unfold I64_MIN, I64_MAX in *. destruct (Z.ltb_spec (Tax.total_tiyn c) 0); [|injection Em as <-; lia].
    apply i64_inv in Em as [-> Hr]. unfold I64_MIN, I64_MAX in *. lia. }
  assert (exists q, Forms.Fno300.quarter_from_period_from (Tax.period_from c) = Ok q) as [q Hq].
  { unfold build_form_xml in Hx. cbn [is_910 kFno300] in Hx. change (is_910 "300.00") with false in Hx. unfold Forms.Fno300.build_300_xml in Hx.
    destruct (negb _); [done|]. destruct (negb _); [done|]. apply bind_Ok_inv in Hx as (x1 & _ & (x2 & _ & (x3 & _ & (q & Hq & _)%bind_Ok_inv)%bind_Ok_inv)%bind_Ok_inv).
    by exists q. }
  destruct (Forms.fno300_document c (org_info_for kFno300 c id o) a d q) as (xml' & l & ia & id' & pay & refund & p & r & b & Hx' & Hml & Hn & Hpr & Hp0 & Hr0 & Hor & Hna & Hnd & Hnp & Hnr & Hnb & Hf & Hc);
    [done | by rewrite Ho | by apply value_whole, Ha | by apply value_whole, Hd | done | done|].
  assert (xml' = xml) as -> by (unfold build_form_xml in Hx; change (is_910 kFno300) with false in Hx; cbv iota in Hx; congruence).
  apply quarter_agrees in Hq as ->. exists l. split; [done|]. split; [done|]. exists a, d, i, pay, refund, ia, id', p, r, b.
  do 4 (split; [done|]). split; [done|]. split; [apply (format_prints _ _ (proj2 (proj2 Hi)) Ei)|].
  split; [apply (format_prints _ _ (proj2 (proj2 Ha)) Ea)|]. split; [apply (format_prints _ _ (proj2 (proj2 Hd)) Ed)|].
  split; [apply (format_prints _ _ Hm Eb)|]. split; [by apply spelled_out in Ew|]. split; [done|]. do 9 (split; [done|]). by split.
Qed.

End Printed.

(** ** Filing a form, on its own *)

Section Filed.
Context `{PG : Postgres} `{RD : Renderer} `{MP : MergePatch}.
Context (tree : Registry.Tree).

Lemma alone_reads {A B} (f : World -> A) (k : A -> prog World B) w : alone (atomic (gets f) ≫= k) w = alone (k (f w)) w.
Proof. done. Qed.

Lemma alone_computes {A B} (m : outcome A) (k : A -> prog World B) w r w' : alone (pure m ≫= k) w = (Ok r, w') ->
  exists a, m = Ok a /\ alone (k a) w = (Ok r, w').
Proof. destruct m as [a|e|]; [by exists a | done..]. Qed.

(** The calculation behind a filing, and all that was made of it. *)
Record Prepared (w : World) (ctx : OrgContext) (body : json) (k : string) (c : Tax.Calculation) (o : Tenancy.Organization)
    (info : Registry.TemplateInfo) (base input : json) (xml : string) : Prop := mkPrepared {
  prep_kind : text_field "kind" body = Some k;
  prep_form : is_allowed k allowed_filing_kinds = true;
  prep_calc : c ∈ calculations w;
  prep_org : Tax.calc_org c = ctx_org ctx;
  prep_pair : Tax.kind c = expected_calculation_kind k;
  prep_company : companies w !! ctx_org ctx = Some o;
  prep_base : build_form_input k c o (today w) = Ok (inr base);
  prep_merge : InputPolicy.merge_allowed_extra base (document_input body) (allowed_extra_fields_for k) = inr input;
  prep_info : Registry.latest tree (slug_of k) = Ok (Some info);
  prep_schema : schema_error (Registry.schema info) input = None;
  prep_xml : build_form_xml k c (ctx_org ctx) o = Ok xml
}.

Lemma prepared_inv k c o body day info input : prepared tree k c o body day = Ok (inr (info, input)) ->
  exists base, build_form_input k c o day = Ok (inr base) /\
    InputPolicy.merge_allowed_extra base (document_input body) (allowed_extra_fields_for k) = inr input /\
    Registry.latest tree (slug_of k) = Ok (Some info) /\ schema_error (Registry.schema info) input = None.
Proof.
  unfold prepared. intros ([u|base] & Hb & H)%bind_Ok_inv; [by destruct u|]. exists base. split; [done|].
  destruct (InputPolicy.merge_allowed_extra _ _ _) as [e|inp]; [done|]. apply bind_Ok_inv in H as ([i|] & Hi & H); [|done].
  destruct (schema_error (Registry.schema i) inp) eqn:Es; [done|]. injection H as <- <-. done.
Qed.

(** The store once the XML is put away. *)
Definition stored_xml (up : bool) (key xml : string) (w : World) : World :=
  if up then with_store (with_objects (insert key xml) (docs_store w)) w else w.

(** A request to file ends at once, leaving everything as it was, or gets as far as the rows. *)
Lemma filing_cases st jr up q uuid ctx body rep w w' :
  alone (createFiling tree st jr up q uuid ctx (Some body)) w = (Ok rep, w') ->
  (w' = w /\ http rep <> 202) \/
  exists k c o info base input xml, Prepared w ctx body k c o info base input xml /\
    let key := xml_key_of uuid (ctx_org ctx) k c in
    alone (with_repo_errors (file_form q ctx k c (Tax.calc_id c) info input (if up then Some key else None))) (stored_xml up key xml w) = (Ok rep, w').
Proof.
  unfold createFiling, permitted, DocumentFlow.permitted. destruct (Agent.allows _ _ _); [|by intros [= <- <-]; left].
  destruct (filing_errors body) as [|e errs]; [|by intros [= <- <-]; left].
  destruct (text_field "kind" body) as [k|] eqn:Ek, (text_field "calculation_id" body) as [id|]; try (by intros [= <- <-]; left).
  destruct (is_allowed k allowed_filing_kinds) eqn:Hk; cbn [negb]; [|by intros [= <- <-]; left]. unfold find_calculation. rewrite alone_reads.
  destruct (List.find _ _) as [c|] eqn:E; [|by intros [= <- <-]; left]. apply find_some in E as [Hin Hs%andb_true_iff]. rewrite !String.eqb_eq in Hs.
  destruct Hs as [<- Ho]. apply list_elem_of_In in Hin. unfold file_calculation.
  destruct (String.eqb_spec (Tax.kind c) (expected_calculation_kind k)) as [Hkind|]; [|by intros [= <- <-]; left]. cbn [negb]. rewrite alone_reads.
  destruct (companies w !! ctx_org ctx) as [o|] eqn:Eo; [|by intros [= <- <-]; left]. rewrite alone_reads.
  intros (ready & Hready & H)%alone_computes. destruct ready as [refused|[info input]].
  { injection H as <- <-. left. split; [done|]. intros H202. unfold prepared in Hready.
    apply bind_Ok_inv in Hready as ([u|b] & _ & H); [by destruct u; injection H as H; rewrite <- H in H202|].
    destruct (InputPolicy.merge_allowed_extra _ _ _); [by injection H as H; rewrite <- H in H202|]. apply bind_Ok_inv in H as ([i|] & _ & H); [|by injection H as H; rewrite <- H in H202].
    destruct (schema_error _ _); [injection H as H; by rewrite <- H in H202 | done]. }
  destruct (negb st); [by injection H as <- <-; left|]. destruct (negb jr); [by injection H as <- <-; left|].
  apply alone_computes in H as (ox & Hx & H). destruct ox as [xml|]; [|by injection H as <- <-; left]. right.
  destruct (prepared_inv _ _ _ _ _ _ _ Hready) as (base & Hb & Hm & Hi & Hsc).
  exists k, c, o, info, base, input, xml. split.
  - constructor; try done. unfold rendered_xml in Hx. destruct (build_form_xml _ _ _ _) as [x|e|]; [by injection Hx as -> | by case_match | done].
  - cbv zeta. rewrite alone_bind, alone_catch, alone_bind, alone_atomic in H. unfold on_docs, DocumentFlow.put in H. by destruct up.
Qed.


(** C35: A refused filing leaves no trace.  A request to file that is answered with 400,
    403, 422 or 503, whatever in it is wrong and whatever is out of order, changes nothing: no XML, no document,
    no filing and no render of it is left behind. *)
Theorem refused_filing_leaves_nothing st jr up q uuid ctx body rep w w' :
  alone (createFiling tree st jr up q uuid ctx (Some body)) w = (Ok rep, w') -> In (http rep) [400; 403; 422; 503] -> w' = w.
Proof.
  intros [[-> _]|(k & c & o & info & base & input & xml & _ & H)]%filing_cases Hc; [done|]. exfalso. cbv zeta in H.
  unfold with_repo_errors in H. rewrite alone_catch in H. destruct (alone (file_form _ _ _ _ _ _ _ _) _) as [[r|e|] w2] eqn:E; [|..|done].
  - injection H as -> _. unfold file_form in E. rewrite alone_bind in E. destruct (alone (atomic _) _) as [[d|e|] w3]; [|done..].
    rewrite alone_bind in E. destruct (alone (atomic _) _) as [[f|e|] w4]; [|done..].
    rewrite alone_bind in E. destruct (alone (atomic _) _) as [[v|e|] w5]; [|done..].
    rewrite alone_bind in E. destruct (alone (atomic _) _) as [[b|e|] w6]; [|done..]. injection E as <- _. cbn in Hc. lia.
  - injection H as <- _. destruct (repo_reply_status e) as [E'|[E'|E']]; rewrite E' in Hc; cbn in Hc; lia.
Qed.

(** The rows a filing leaves, and the render it queues. *)
Lemma file_form_spec q ctx k c info input key w rep w' : good (docs_store w) -> date_in (Tax.period_from c) = Some (Tax.period_from c) ->
  date_in (Tax.period_to c) = Some (Tax.period_to c) ->
  alone (file_form q ctx k c (Tax.calc_id c) info input key) w = (Ok rep, w') ->
  exists id d vid v, http rep = 202 /\ id = gen_random_uuid (f_seq w) /\
    filings w' = <[id := mkFiling (ctx_org ctx) k (Tax.period_from c) (Tax.period_to c) (match key with Some _ => kGenerated | None => kDraft end)
                          (Tax.calc_id c) key (Some d) false (f_now w)]> (filings w) /\
    docs (docs_store w) !! d = None /\ is_Some (find_row (ctx_org ctx) d (docs_store w')) /\ d ∈ held (docs_store w') /\
    vers (docs_store w') !! vid = Some v /\ v_doc v = d /\ v_snapshot v = Some input /\
    objects (docs_store w') = objects (docs_store w) /\ tax w' = tax w /\
    queue (docs_store w') = (queue (docs_store w) ++ if q then [DocumentFlow.render_payload (ctx_org ctx) d vid (slug_of k) input] else [])%list.
Proof.
  intros G Hf Ht E. unfold file_form in E. apply step_Ok in E as (document & w1 & E1 & E). unfold on_docs in E1.
  pose proof (create_keeps (ctx_org ctx) "fno" "generated" "draft" None (Some (Registry.slug info)) (Some (Registry.version_str info)) (Some input) None _ G) as [G1 _].
  destruct (create _ _ _ _ _ _ _ _ _ (docs_store w)) as [rd s1] eqn:Ec. injection E1 as -> <-. cbn [snd] in G1. unfold create in Ec.
  destruct (negb _); [discriminate|]. destruct (_ || _); [discriminate|]. set (did := gen_random_uuid (seq (docs_store w))) in *.
  set (r := mkDoc _ _ _ _ _ _ _ _ _) in *. injection Ec as <- Es1. cbn [doc_id Documents.document] in E.
  apply step_Ok in E as ([id f] & w2 & E2 & E). unfold create_filing in E2. rewrite Hf, Ht in E2.
  destruct (negb _); [discriminate|]. destruct (_ || _); [discriminate|]. injection E2 as <- <- <-. cbn [fst] in E.
  set (s2 := hold (Some did) s1). pose proof (frame_good s1 s2 G1 eq_refl eq_refl eq_refl (le_n _)) as G2.
  apply step_Ok in E as (first & w3 & E3 & E). unfold on_docs in E3. change (docs_store (next_filing _)) with s2 in E3.
  assert (docs s2 !! did = Some r) as Hr by (unfold s2; cbn; rewrite <- Es1; cbn; apply lookup_insert_eq).
  destruct (latest_is_newest s2 (ctx_org ctx) did r G2 Hr eq_refl) as (vid & v & El & Hv & Hd & Ho & Hn). rewrite El in E3. injection E3 as <- <-.
  apply step_Ok in E as (b & w4 & E4 & E). unfold on_docs in E4. change (docs_store (with_store s2 _)) with s2 in E4. rewrite DocumentFlow.submit_frame in E4. injection E4 as <- <-.
  injection E as <- <-. exists (gen_random_uuid (f_seq w)), did, vid, v. split; [done|]. split; [done|]. split; [done|].
  split; [by apply fresh_doc|]. split; [exists r; exact (proj2 (find_row_Some (ctx_org ctx) did s2 r) (conj Hr eq_refl))|]. split; [cbn; set_solver|].
  split; [done|]. split; [done|]. split; [|cbn; by rewrite <- Es1].
  change (vers s2) with (vers s1) in Hv. rewrite <- Es1 in Hv. cbn [vers next_ids with_vers] in Hv. apply lookup_insert_Some in Hv as [[_ <-]|[_ Hv]]; [done|].
  destruct (good_fk _ G vid v Hv) as (r0 & Hr0 & _). pose proof (fresh_doc (docs_store w) (seq (docs_store w)) G (le_n _)) as F. fold did in F.
  rewrite Hd in Hr0. congruence.
Qed.

Definition undotted (c : ascii) : bool := negb (Ascii.eqb c ".").

Lemma spell_dotted ks : forall p, p <> "" -> ks <> [] -> str_all undotted (InputPolicy.spell p ks) = false.
Proof.
  induction ks as [|k r IH]; intros p Hp Hk; [done|]. cbn [InputPolicy.spell foldl]. unfold InputPolicy.spell_step at 2.
  rewrite (proj2 (String.eqb_neq _ _) Hp). assert (str_all undotted (p +:+ "." +:+ k) = false) as D.
  { rewrite str_all_app. cbn [String.append str_all]. by rewrite andb_false_r. }
  destruct r as [|k' r]; [done|]. apply IH; [by destruct p | done].
Qed.

(** No path of a field the caller may not give is one of those allowed. *)
Lemma extra_apart k field rest ks : field ∉ [""; "director"; "accountant"] -> apart ks (field :: rest) = false -> ks <> [] ->
  InputPolicy.spell "" ks ∉ allowed_extra_fields_for k.
Proof.
  intros Hf Ha Hk. assert (allowed_extra_fields_for k = ["director"; "accountant"]) as -> by (unfold allowed_extra_fields_for; by destruct (is_910 k)).
  rewrite !elem_of_cons, elem_of_nil in Hf. destruct ks as [|x ks]; [done|]. cbn [apart] in Ha. destruct (String.eqb_spec x field) as [->|]; [|done].
  change (InputPolicy.spell "" (field :: ks)) with (InputPolicy.spell field ks). destruct ks as [|y ks].
  - change (InputPolicy.spell field []) with field. rewrite !elem_of_cons, elem_of_nil. tauto.
  - assert (field <> "") as Hne by tauto. pose proof (spell_dotted (y :: ks) field Hne) as D. specialize (D ltac:(done)). intros H.
    rewrite !elem_of_cons, elem_of_nil in H. by destruct H as [E|[E|[]]]; rewrite E in D.
Qed.

(** What an accepted filing leaves behind. *)
Lemma accepted_spec st jr up q uuid ctx body rep w w' : sound w ->
  alone (createFiling tree st jr up q uuid ctx (Some body)) w = (Ok rep, w') -> http rep = 202 ->
  exists k c o info base input xml id d vid v, Prepared w ctx body k c o info base input xml /\ coherent c /\ but_signatures base input /\
    filings w !! id = None /\
    let key := xml_key_of uuid (ctx_org ctx) k c in
    filings w' = <[id := mkFiling (ctx_org ctx) k (Tax.period_from c) (Tax.period_to c) (if up then kGenerated else kDraft)
                          (Tax.calc_id c) (if up then Some key else None) (Some d) false (f_now w)]> (filings w) /\
    objects (docs_store w') = (if up then <[key := xml]> (objects (docs_store w)) else objects (docs_store w)) /\
    docs (docs_store w) !! d = None /\ vers (docs_store w') !! vid = Some v /\ v_doc v = d /\ v_snapshot v = Some input /\
    queue (docs_store w') = (queue (docs_store w) ++ if q then [DocumentFlow.render_payload (ctx_org ctx) d vid (slug_of k) input] else [])%list.
Proof.
  intros G [[_ N]|(k & c & o & info & base & input & xml & P & E)]%filing_cases H; [done|]. cbv zeta in E.
  apply with_repo_errors_202 in E; [|done].
  assert (coherent c) as C by exact (proj1 (Forall_forall _ _) (proj2 (proj1 (sound_tax _ G))) c (prep_calc _ _ _ _ _ _ _ _ _ _ P)).
  assert (good (docs_store (stored_xml up (xml_key_of uuid (ctx_org ctx) k c) xml w))) as G1.
  { unfold stored_xml. destruct up; [|apply G]. exact (proj1 (put_steps (docs_store w) (xml_key_of uuid (ctx_org ctx) k c) xml (sound_docs _ G))). }
  apply file_form_spec in E as (id & d & vid & v & _ & -> & F & D & _ & _ & V1 & V2 & V3 & O & _ & Q); [|done | apply C | apply C].
  exists k, c, o, info, base, input, xml, (gen_random_uuid (f_seq w)), d, vid, v. split; [done|]. split; [done|]. split; [|split; [|by destruct up]]; last first.
  { destruct (filings w !! _) as [f|] eqn:Ef; [|done]. destruct (sound_fresh _ G _ _ Ef) as (n & Hn & En). apply uuid_unique in En. destruct up; simpl in En; lia. }
  intros field rest Hfield. pose proof (prep_merge _ _ _ _ _ _ _ _ _ _ P) as M.
  unfold InputPolicy.merge_allowed_extra in M. destruct (InputPolicy.validate_extra_allowlist _ _ _) eqn:EV; [done|]. injection M as <-.
  apply (InputPolicy.merge_keeps (allowed_extra_fields_for k) (field :: rest) (document_input body) "" base EV); [done|]. intros ks Hks Hne. exact (extra_apart k field rest ks Hfield Hks Hne).
Qed.

(** What is filed is the stored calculation, once.  An accepted filing leaves one
    filing more, for a calculation of the caller's organization of the kind the form is
    made from: over its period, with the XML built from it under the filing's key when
    the storage answered, and with a new document whose stored input is what the render
    it queues will print.  That input is the form of the same calculation in every field
    but the two signatures a caller may give, and passes the schema of the template. *)
Theorem filing_is_its_calculation st jr up q uuid ctx body rep w w' : sound w ->
  alone (createFiling tree st jr up q uuid ctx (Some body)) w = (Ok rep, w') -> http rep = 202 ->
  exists k c o info base input xml id d vid v, c ∈ calculations w /\ Tax.calc_org c = ctx_org ctx /\ Tax.kind c = expected_calculation_kind k /\
    companies w !! ctx_org ctx = Some o /\ build_form_input k c o (today w) = Ok (inr base) /\ build_form_xml k c (ctx_org ctx) o = Ok xml /\
    but_signatures base input /\ Registry.latest tree (slug_of k) = Ok (Some info) /\ schema_error (Registry.schema info) input = None /\
    let key := xml_key_of uuid (ctx_org ctx) k c in
    filings w' = <[id := mkFiling (ctx_org ctx) k (Tax.period_from c) (Tax.period_to c) (if up then kGenerated else kDraft)
                          (Tax.calc_id c) (if up then Some key else None) (Some d) false (f_now w)]> (filings w) /\
    objects (docs_store w') = (if up then <[key := xml]> (objects (docs_store w)) else objects (docs_store w)) /\
    docs (docs_store w) !! d = None /\ vers (docs_store w') !! vid = Some v /\ v_doc v = d /\ v_snapshot v = Some input /\
    queue (docs_store w') = (queue (docs_store w) ++ if q then [DocumentFlow.render_payload (ctx_org ctx) d vid (slug_of k) input] else [])%list.
Proof.
  intros G E H. destruct (accepted_spec _ _ _ _ _ _ _ _ _ _ G E H) as (k & c & o & info & base & input & xml & id & d & vid & v & P & _ & S & _ & F).
  destruct P. by exists k, c, o, info, base, input, xml, id, d, vid, v.
Qed.

(** C34: The printed form, the XML and the queued render say the same.  Whatever
    calculation an accepted filing is made from (its storage answering, nobody else at
    work meanwhile), the XML it puts away is well formed, and the input its document
    keeps and the render it queues will print state what the XML states: the
    turnover, the tax and the taxes charged and credited to the tiyn in print and to the
    nearest tenge in every field and summary element of the XML, the tax or the balance
    in words as well, a balance on the side its sign says, a rate that is not negative in
    percent and in hundredths of one; and the same number, name, half-year or quarter and year of the
    organization and the period on both. *)
Theorem printed_is_filed st q uuid ctx body rep w w' : sound w ->
  alone (createFiling tree st true true q uuid ctx (Some body)) w = (Ok rep, w') -> http rep = 202 ->
  exists id f v vid c o input key xml l, filings w' !! id = Some f /\ filings w !! id = None /\
    c ∈ calculations w /\ Tax.calc_id c = f_calculation f /\ Tax.calc_org c = f_org f /\ companies w !! f_org f = Some o /\
    f_document f = Some (v_doc v) /\ vers (docs_store w') !! vid = Some v /\ v_snapshot v = Some input /\
    f_xml f = Some key /\ objects (docs_store w') !! key = Some xml /\
    queue (docs_store w') = (queue (docs_store w) ++
      if q then [DocumentFlow.render_payload (f_org f) (v_doc v) vid (slug_of (f_kind f)) input] else [])%list /\
    Forms.markup xml = Some l /\ Forms.nested [] l = true /\ says (f_kind f) c o (today w) input l.
Proof.
  intros G E H. destruct (accepted_spec _ _ _ _ _ _ _ _ _ _ G E H) as (k & c & o & info & base & input & xml & id & d & vid & v & P & C & S & N & F & O & _ & V & <- & I & Q).
  destruct P as [_ Pf Pc Po Pp Pco Pb _ _ _ Px].
  assert (exists l, Forms.markup xml = Some l /\ Forms.nested [] l = true /\ says k c o (today w) base l) as (l & M & Nl & L).
  { unfold build_form_input in Pb. unfold says. destruct (is_910 k) eqn:Ek; unfold expected_calculation_kind in Pp; rewrite Ek in Pp.
    - destruct (declaration_910 c _ o (today w) base C Pp Po Pb) as (xml' & l & Hx & L). unfold build_form_xml in Px, Hx. rewrite Ek in Px.
      change (is_910 kFno910) with true in Hx. unfold org_info_for in Px, Hx. rewrite Ek in Px. change (is_910 kFno910) with true in Hx. cbv zeta iota in Px, Hx.
      assert (xml' = xml) as -> by congruence. by exists l.
    - apply (declaration_300 c _ o (today w) base xml C Pp Po Pb). unfold build_form_xml, org_info_for in *. by rewrite Ek in Px. }
  rewrite F. eexists id, _, v, vid, c, o, input, _, xml, l. split; [apply lookup_insert_eq|]. cbn [f_calculation f_org f_document f_xml f_kind]. rewrite O.
  repeat (split; [done || apply lookup_insert_eq|]). by apply (says_signed _ _ _ _ base).
Qed.

End Filed.

(** ** Filings at work *)

Module Example.
Import JournalDb.Reference.

#[local] Existing Instance uuid_server.

(** Every input fits the schema, and every source compiles. *)
#[local] Instance printing : Renderer := { schema_error _ _ := None; typst_compile run _ _ := Some ("%PDF run " +:+ dec (Z.of_nat run)) }.

Definition form_dir : list (string * option Registry.VersionDir) := [("v1", Some (Registry.mkDir (Some "= Form") (Some (Some (JObject [])))))].
Definition disk : Registry.Tree := {["fno_910" := form_dir; "fno_300" := form_dir]}.

(** The office of the tax service, with the name and the number of its organization. *)
Definition company : Tenancy.Organization :=
  Tenancy.mkOrganization "980740000123" "TOO Alatau" "snr_simplified" true "active" "Almaty" "A. Akhmetov" "Director" "" 0.
Definition start : World :=
  mkWorld DocumentFlow.Example.empty_store Tax.office ∅ {["org" := company]} [] 0 100 "2026-07-20".
Definition clerk : OrgContext := mkCtx "org" "accountant" "someone".

Definition asked (k from to : string) : json := JObject [("kind", JString k); ("period_from", JString from); ("period_to", JString to)].
Definition calculating (k from to : string) : prog World Reply := createCalculation clerk (Some (asked k from to)).
Definition wish (extra : list (string * json)) : json :=
  JObject [("calculation_id", JString (id_text 0)); ("document_input", JObject extra); ("kind", JString kFno910)].
Definition filing (extra : list (string * json)) : prog World Reply := createFiling disk true true true true "u-1" clerk (Some (wish extra)).
Definition signatures : list (string * json) := [("accountant", JString "B. Bekova"); ("director", JString "A. Akhmetov")].

Definition calculated : World := (alone (calculating Tax.kSnrSimplified "2026-01-01" "2026-06-30") start).2.
Definition filed : World := (alone (filing signatures) calculated).2.

Definition status_of (x : outcome Reply * World) : Z := match x.1 with Ok r => http r | _ => 0 end.

Example filing_flow :
  (status_of (alone (calculating Tax.kSnrSimplified "2026-01-01" "2026-06-30") start),
   status_of (alone (filing signatures) calculated), length (map_to_list (filings filed)), length (queue (docs_store filed)),
   status_of (alone (filing [("tax_tenge", JString "0")]) calculated)) = (200, 202, 1%nat, 1%nat, 422).
Proof. vm_compute. reflexivity. Qed.

(** Once filed, the period is calculated again at another rate: the filing names the
    calculation with the new tax, while its XML keeps the old one. *)
Definition dearer : World :=
  with_tax (Tax.mkTW (Payroll.mkPW (Payroll.pw_w (Tax.tw_p (tax filed)))
                        (Payroll.mkPayDB [] [] [] [Payroll.mkRate "snr_simplified" 400 None "2026-01-01" None] (Payroll.pd_constants (reference filed)) ∅ {["org"]} 0 0) [])
                     (Tax.tw_t (tax filed)) []) filed.
Definition amended : World := (alone (calculating Tax.kSnrSimplified "2026-01-01" "2026-06-30") dearer).2.
Definition totals (w : World) : list (string * Z) := map (fun c => (Tax.calc_id c, Tax.total_tiyn c)) (calculations w).
Definition filed_taxes (w : World) : list (string * option (option string)) :=
  map (fun e => (f_calculation e.2, match f_xml e.2 with
                                    | Some key => match objects (docs_store w) !! key with
                                                  | Some xml => Some (match Forms.markup xml with Some l => Forms.content "taxTenge" l | None => None end)
                                                  | None => None end
                                    | None => None end)) (map_to_list (filings w)).

Example recalculated_after_filing :
  (totals filed, filed_taxes filed, totals amended, filed_taxes amended) =
  ([(id_text 0, 452)], [(id_text 0, Some (Some "5"))], [(id_text 0, 602)], [(id_text 0, Some (Some "5"))]).
Proof. vm_compute. reflexivity. Qed.

(** A period of two days is calculated as readily as a half-year. *)
Example two_days_calculated : status_of (alone (calculating Tax.kSnrSimplified "2026-01-03" "2026-01-04") start) = 200.
Proof. vm_compute. reflexivity. Qed.

(** A path through an empty key is spelled as the field it leads to, so it is let through. *)
Example empty_key_let_through :
  InputPolicy.validate_extra_allowlist (JObject [("", JObject [("director", JString "x")])]) fno_910_allowed_extra_fields "" = None.
Proof. vm_compute. reflexivity. Qed.

Lemma start_sound : sound start.
Proof.
  constructor; cbn.
  - exact DocumentFlow.Example.empty_good.
  - split; [split|]; constructor.
  - intros id f. by rewrite lookup_empty.
  - intros id f. by rewrite lookup_empty.
Qed.

Lemma calculated_sound : sound calculated.
Proof.
  exact (proj1 (quiet_alone sound onward (calculating Tax.kSnrSimplified "2026-01-01" "2026-06-30") start
    (filing_handle_calm disk (CreateCalculation clerk (Some (asked Tax.kSnrSimplified "2026-01-01" "2026-06-30"))) start) start_sound)).
Qed.

Lemma filings_kept_witness :
  let s := schedule [0; 0; 0; 0; 0; 0; 0; 0; 0; 0]%nat (calculated, [void (filing signatures)]) in
  length (map_to_list (filings s.1)) = 1%nat /\
  (forall id f, filings s.1 !! id = Some f -> filed_from s.1 f).
Proof.
  intros s. split; [vm_compute; reflexivity|].
  apply (proj1 (filings_kept disk None DocumentFlow.Example.digest calculated s.1 s.2 calculated_sound
    ltac:(rewrite <- surjective_pairing; apply schedule_reached; apply Forall_cons_2; [|apply Forall_nil_2]; exact (enter_request disk None DocumentFlow.Example.digest calculated (CreateFiling true true true true "u-1" clerk (Some (wish signatures))))))).
Defined.

Lemma refused_filing_leaves_nothing_witness :
  exists rep w', alone (filing [("tax_tenge", JString "0")]) calculated = (Ok rep, w') /\ http rep = 422 /\ w' = calculated.
Proof.
  destruct (alone (filing [("tax_tenge", JString "0")]) calculated) as [r w'] eqn:E.
  assert (status_of (r, w') = 422) as S by (rewrite <- E; vm_compute; reflexivity).
  destruct r as [rep|e|]; [|discriminate..]. exists rep, w'. split; [reflexivity|]. split; [exact S|].
  apply (refused_filing_leaves_nothing disk true true true true "u-1" clerk (wish [("tax_tenge", JString "0")]) rep calculated w' E).
  change (http rep = 422) in S. rewrite S. right; right; left; reflexivity.
Defined.

Lemma accepted : exists rep, alone (filing signatures) calculated = (Ok rep, filed) /\ http rep = 202.
Proof.
  assert (status_of (alone (filing signatures) calculated) = 202) as S by (vm_compute; reflexivity).
  unfold filed. destruct (alone (filing signatures) calculated) as [[rep|e|] w']; [by exists rep | discriminate..].
Qed.

Lemma filing_is_its_calculation_witness : exists id f, filings filed !! id = Some f /\ f_xml f <> None.
Proof.
  destruct accepted as (rep & E & H).
  destruct (filing_is_its_calculation disk true true true true "u-1" clerk (wish signatures) rep calculated filed calculated_sound E H)
    as (k & c & o & info & base & input & xml & id & d & vid & v & _ & _ & _ & _ & _ & _ & _ & _ & _ & F & _).
  rewrite F. exists id. eexists. split; [apply lookup_insert_eq | discriminate].
Defined.

Lemma printed_is_filed_witness : exists id f key xml, filings filed !! id = Some f /\ f_xml f = Some key /\ objects (docs_store filed) !! key = Some xml.
Proof.
  destruct accepted as (rep & E & H).
  destruct (printed_is_filed disk true true "u-1" clerk (wish signatures) rep calculated filed calculated_sound E H)
    as (id & f & v & vid & c & o & input & key & xml & l & F & _ & _ & _ & _ & _ & _ & _ & _ & K & O & _).
  exists id, f, key, xml. split; [exact F|]. split; [exact K | exact O].
Defined.

Lemma format_bp_percent_roundtrip_witness : read_percent (format_bp_percent 1605) = Some 1605.
Proof. apply format_bp_percent_roundtrip. unfold I64_MAX. lia. Defined.
End Example.

End Filings.
