(* ===== verification/Hr.v ===== *)
(** * Personnel

    src/hr/Employee.hpp, src/hr/HrDocuments.hpp, src/hr/EmployeeRepository.hpp,
    src/hr/HrRepository.hpp (the tables of migrations/012_hr.sql) and the handlers of
    src/api/EmployeesController.hpp and src/api/HrController.hpp: the roster, the orders,
    contracts and vacations that hang off it, and the documents made from them. *)
From Stdlib Require Import ZArith Lia Ascii String.
From stdpp Require Import relations sorting.
From S2P Require Import Prelude Money Ledger JournalDb PayrollService Json Utils Threads Dates Agent Requests.
From S2P Require Import InputPolicy Templates Documents DocumentFlow Tenancy.
Import Json Threads Http Requests Documents Bodies.
Open Scope string_scope.
Open Scope Z_scope.

Module Hr.

(** ** Rows *)

(** [Employee]: src/hr/Employee.hpp:29-70. *)
Record Employee := mkEmployee {
  e_org : string; iin : string; last_name : string; first_name : string; middle_name : option string; position : string;
  salary : Z; hired : string; dismissed : option string; deduction : bool; exempt : bool; payout_iik : string;
  e_status : string; e_created : Z
}.

(** [LaborContract]: src/hr/HrDocuments.hpp:32-66. *)
Record LaborContract := mkContract {
  c_org : string; c_employee : string; c_number : string; signed_on : string; c_starts : string; c_ends : option string;
  terms : option json; c_created : Z
}.

(** [HrOrder]: src/hr/HrDocuments.hpp:83-122. *)
Record HrOrder := mkOrder {
  o_org : string; o_employee : string; o_kind : string; o_number : string; issued_on : string; effective_from : string;
  effective_to : option string; payload : option json; o_document : option string; o_created : Z
}.

(** [Vacation]: src/hr/HrDocuments.hpp:141-167. *)
Record Vacation := mkVacation {
  a_org : string; a_employee : string; a_starts : string; a_ends : string; a_days : Z; a_kind : string; a_created : Z
}.

Definition text (o : option string) : json := match o with Some s => JString s | None => JNull end.
Definition value (o : option json) : json := match o with Some j => j | None => JNull end.

(** [to_json]: src/hr/Employee.hpp:72-91.  (Time stamps left out.) *)
Definition employee_json (id : string) (e : Employee) : json :=
  JObject [("dismissed_on", text (dismissed e)); ("first_name", JString (first_name e)); ("hired_on", JString (hired e)); ("id", JString id);
           ("iin", JString (iin e)); ("ipn_deduction_claimed", JBool (deduction e)); ("last_name", JString (last_name e));
           ("middle_name", text (middle_name e)); ("opvr_exempt", JBool (exempt e)); ("org_id", JString (e_org e));
           ("payout_iik", JString (payout_iik e)); ("position", JString (position e)); ("salary_tiyn", JInt (salary e));
           ("status", JString (e_status e))].

(** [to_json]: src/hr/HrDocuments.hpp:68-81.  (Time stamps left out.) *)
Definition contract_json (id : string) (c : LaborContract) : json :=
  JObject [("employee_id", JString (c_employee c)); ("ends_on", text (c_ends c)); ("id", JString id); ("number", JString (c_number c));
           ("org_id", JString (c_org c)); ("signed_on", JString (signed_on c)); ("starts_on", JString (c_starts c)); ("terms_json", value (terms c))].

(** [to_json]: src/hr/HrDocuments.hpp:124-139.  (Time stamps left out.) *)
Definition order_json (id : string) (o : HrOrder) : json :=
  JObject [("document_id", text (o_document o)); ("effective_from", JString (effective_from o)); ("effective_to", text (effective_to o));
           ("employee_id", JString (o_employee o)); ("id", JString id); ("issued_on", JString (issued_on o)); ("kind", JString (o_kind o));
           ("number", JString (o_number o)); ("org_id", JString (o_org o)); ("payload", value (payload o))].

(** [to_json]: src/hr/HrDocuments.hpp:169-181.  (Time stamps left out.) *)
Definition vacation_json (id : string) (v : Vacation) : json :=
  JObject [("days", JInt (a_days v)); ("employee_id", JString (a_employee v)); ("ends_on", JString (a_ends v)); ("id", JString id);
           ("kind", JString (a_kind v)); ("org_id", JString (a_org v)); ("starts_on", JString (a_starts v))].

(** ** The store *)

(** The four tables, the documents with the object storage and the queue, the
    organizations, and the clock of the database. *)
Record World := mkWorld {
  docs_store : Store; staff : gmap string Employee; contracts : gmap string LaborContract; orders : gmap string HrOrder;
  vacations : gmap string Vacation; companies : gmap string Tenancy.Organization; h_seq : nat; h_now : Z
}.

Definition with_store (s : Store) (w : World) : World :=
  mkWorld s (staff w) (contracts w) (orders w) (vacations w) (companies w) (h_seq w) (h_now w).
Definition with_staff (f : gmap string Employee -> gmap string Employee) (w : World) : World :=
  mkWorld (docs_store w) (f (staff w)) (contracts w) (orders w) (vacations w) (companies w) (h_seq w) (h_now w).
Definition with_contracts (f : gmap string LaborContract -> gmap string LaborContract) (w : World) : World :=
  mkWorld (docs_store w) (staff w) (f (contracts w)) (orders w) (vacations w) (companies w) (h_seq w) (h_now w).
Definition with_orders (f : gmap string HrOrder -> gmap string HrOrder) (w : World) : World :=
  mkWorld (docs_store w) (staff w) (contracts w) (f (orders w)) (vacations w) (companies w) (h_seq w) (h_now w).
Definition with_vacations (f : gmap string Vacation -> gmap string Vacation) (w : World) : World :=
  mkWorld (docs_store w) (staff w) (contracts w) (orders w) (f (vacations w)) (companies w) (h_seq w) (h_now w).
Definition next_row (w : World) : World :=
  mkWorld (docs_store w) (staff w) (contracts w) (orders w) (vacations w) (companies w) (S (h_seq w)) (h_now w + 1).

Definition on_docs {A} (m : st Store A) : st World A := fun w => let '(r, s) := m (docs_store w) in (r, with_store s w).

(** What a request says of an employee. *)
Record Draft := mkDraft {
  g_iin : string; g_last : string; g_first : string; g_middle : option string; g_position : string; g_salary : Z;
  g_deduction : bool; g_exempt : bool; g_iik : string
}.

Section Repository.
Context `{PG : Postgres}.

(** A date column that may be NULL. *)
Definition date_opt (o : option string) : option (option string) :=
  match o with None => Some None | Some s => match date_in s with Some d => Some (Some d) | None => None end end.

(** [DuplicateEmployeeIin]: src/hr/EmployeeRepository.hpp:32-36. *)
Definition iin_taken : exn := Exn DuplicateEmployeeIin "employee_iin_taken".
Definition on_taken (ss : string) : option exn := if String.eqb ss "23505" then Some iin_taken else None.

(** UNIQUE (org_id, iin), apart from the row itself. *)
Definition has_iin (org number : string) (except : option string) (w : World) : bool :=
  existsb (fun x => String.eqb (e_org x.2) org && String.eqb (iin x.2) number && negb (bool_decide (except = Some x.1))) (map_to_list (staff w)).

(** [create]: src/hr/EmployeeRepository.hpp:58-86. *)
Definition create_employee (org : string) (g : Draft) (hired_on : string) : st World (string * Employee) :=
  translate_sql on_taken (fun w =>
    match date_in hired_on with
    | None => throw pqxx_sql_error "22007" w
    | Some h =>
        if negb (0 <=? g_salary g) then throw pqxx_sql_error "23514" w
        else if has_iin org (g_iin g) None w then throw pqxx_sql_error "23505" w
        else if negb (bool_decide (is_Some (companies w !! org))) then throw pqxx_sql_error "23503" w
        else
          let id := gen_random_uuid (h_seq w) in
          let e := mkEmployee org (g_iin g) (g_last g) (g_first g) (g_middle g) (g_position g) (g_salary g) h None (g_deduction g)
                     (g_exempt g) (g_iik g) "active" (h_now w) in
          (Ok (id, e), next_row (with_staff (insert id e) w))
    end).

(** [find_in_org]: src/tenancy/OrgScoped.hpp:48-59.  Of an employee. *)
Definition employee_in (id org : string) (w : World) : option Employee :=
  match staff w !! id with Some e => if String.eqb (e_org e) org then Some e else None | None => None end.

Definition patched (g : Draft) (e : Employee) : Employee :=
  mkEmployee (e_org e) (g_iin g) (g_last g) (g_first g) (g_middle g) (g_position g) (g_salary g) (hired e) (dismissed e) (g_deduction g)
    (g_exempt g) (g_iik g) (e_status e) (e_created e).

(** [update]: src/hr/EmployeeRepository.hpp:100-131. *)
Definition update_employee (org id : string) (g : Draft) : st World (option Employee) :=
  translate_sql on_taken (fun w =>
    match employee_in id org w with
    | None => (Ok None, w)
    | Some e =>
        if negb (0 <=? g_salary g) then throw pqxx_sql_error "23514" w
        else if has_iin org (g_iin g) (Some id) w then throw pqxx_sql_error "23505" w
        else (Ok (Some (patched g e)), with_staff (insert id (patched g e)) w)
    end).

Definition dismissed_at (d : string) (e : Employee) : Employee :=
  mkEmployee (e_org e) (iin e) (last_name e) (first_name e) (middle_name e) (position e) (salary e) (hired e) (Some d) (deduction e)
    (exempt e) (payout_iik e) "dismissed" (e_created e).

(** [dismiss]: src/hr/EmployeeRepository.hpp:143-157. *)
Definition dismiss_employee (org id date : string) : st World (option Employee) := fun w =>
  match date_in date with
  | None => throw pqxx_sql_error "22007" w
  | Some d =>
      match employee_in id org w with
      | Some e => if String.eqb (e_status e) "active" then (Ok (Some (dismissed_at d e)), with_staff (insert id (dismissed_at d e)) w) else (Ok None, w)
      | None => (Ok None, w)
      end
  end.

Definition rows_of {A} (wanted : A -> bool) (before : A -> A -> bool) (m : gmap string A) : list (string * A) :=
  stable_sort (fun a b => before a.2 b.2) (List.filter (fun x => wanted x.2) (map_to_list m)).

Definition newer_employee (a b : Employee) : bool := e_created b <? e_created a.

(** [list_in_org]: src/tenancy/OrgScoped.hpp:61-74.  Of the employees. *)
Definition list_staff (org : string) (limit offset : nat) : st World (list (string * Employee)) :=
  gets (fun w => take limit (drop offset (rows_of (fun e => String.eqb (e_org e) org) newer_employee (staff w)))).

(** [count_in_org]: src/tenancy/OrgScoped.hpp:76-83.  Of the employees. *)
Definition count_staff (org : string) : st World Z :=
  gets (fun w => Z.of_nat (length (rows_of (fun e => String.eqb (e_org e) org) newer_employee (staff w)))).

(** FOREIGN KEY (employee_id, org_id). *)
Definition no_employee (id org : string) (w : World) : bool := negb (bool_decide (is_Some (employee_in id org w))).

Definition order_kinds : list string := ["hire"; "dismiss"; "vacation"; "business_trip"; "salary_change"].
Definition vacation_kinds : list string := ["annual"; "unpaid"; "sick"].
Definition one_of (k : string) (l : list string) : bool := existsb (String.eqb k) l.

(** [create_order]: src/hr/HrRepository.hpp:63-94.  Of an order without a document. *)
Definition create_order (org employee k number issued from : string) (to : option string) (details : option json) : st World (string * HrOrder) := fun w =>
  match date_in issued, date_in from, date_opt to with
  | Some i, Some f, Some t =>
      if negb (one_of k order_kinds) then throw pqxx_sql_error "23514" w
      else if no_employee employee org w then throw pqxx_sql_error "23503" w
      else
        let id := gen_random_uuid (h_seq w) in
        let o := mkOrder org employee k number i f t details None (h_now w) in
        (Ok (id, o), next_row (with_orders (insert id o) w))
  | _, _, _ => throw pqxx_sql_error "22007" w
  end.

Definition order_before (a b : HrOrder) : bool :=
  String.ltb (issued_on b) (issued_on a) || String.eqb (issued_on a) (issued_on b) && (o_created b <? o_created a).
Definition of_employee (org : string) (employee : option string) (row_org row_employee : string) : bool :=
  String.eqb row_org org && match employee with Some e => String.eqb row_employee e | None => true end.

(** [list_orders]: src/hr/HrRepository.hpp:106-126. *)
Definition list_orders (org : string) (employee : option string) (limit offset : nat) : st World (list (string * HrOrder)) :=
  gets (fun w => take limit (drop offset (rows_of (fun o => of_employee org employee (o_org o) (o_employee o)) order_before (orders w)))).

(** [count_orders]: src/hr/HrRepository.hpp:133-141. *)
Definition count_orders (org : string) (employee : option string) : st World Z :=
  gets (fun w => Z.of_nat (length (rows_of (fun o => of_employee org employee (o_org o) (o_employee o)) order_before (orders w)))).

(** [find_in_org]: src/tenancy/OrgScoped.hpp:48-59.  Of an order. *)
Definition order_in (id org : string) (w : World) : option HrOrder :=
  match orders w !! id with Some o => if String.eqb (o_org o) org then Some o else None | None => None end.

Definition naming (d : string) (o : HrOrder) : HrOrder :=
  mkOrder (o_org o) (o_employee o) (o_kind o) (o_number o) (issued_on o) (effective_from o) (effective_to o) (payload o) (Some d) (o_created o).

(** The documents the orders name, which may not be deleted. *)
Definition named (w : World) : gset string := list_to_set (omap (fun x => o_document x.2) (map_to_list (orders w))).

(** An order names another document: that one is held from then on, and the one before
    it no longer is, unless another order names it. *)
Definition rename_document (before : option string) (d : string) (w : World) : World :=
  let rest := match before with
              | Some old => if bool_decide (old ∈ named w) then held (docs_store w) else held (docs_store w) ∖ {[old]}
              | None => held (docs_store w)
              end in
  with_store (hold_only ({[d]} ∪ rest) (docs_store w)) w.

(** [attach_document]: src/hr/HrRepository.hpp:149-157. *)
Definition attach_document (org id d : string) : st World bool := fun w =>
  match order_in id org w with
  | None => (Ok false, w)
  | Some o =>
      if negb (bool_decide (is_Some (docs (docs_store w) !! d))) then throw pqxx_sql_error "23503" w
      else (Ok true, rename_document (o_document o) d (with_orders (insert id (naming d o)) w))
  end.

(** [create_contract]: src/hr/HrRepository.hpp:162-189. *)
Definition create_contract (org employee number signed starts : string) (ends : option string) (details : option json) : st World (string * LaborContract) := fun w =>
  match date_in signed, date_in starts, date_opt ends with
  | Some s, Some f, Some t =>
      if no_employee employee org w then throw pqxx_sql_error "23503" w
      else
        let id := gen_random_uuid (h_seq w) in
        let c := mkContract org employee number s f t details (h_now w) in
        (Ok (id, c), next_row (with_contracts (insert id c) w))
  | _, _, _ => throw pqxx_sql_error "22007" w
  end.

Definition contract_before (a b : LaborContract) : bool :=
  String.ltb (signed_on b) (signed_on a) || String.eqb (signed_on a) (signed_on b) && (c_created b <? c_created a).

(** [list_contracts]: src/hr/HrRepository.hpp:192-205. *)
Definition list_contracts (org employee : string) : st World (list (string * LaborContract)) :=
  gets (fun w => rows_of (fun c => of_employee org (Some employee) (c_org c) (c_employee c)) contract_before (contracts w)).

(** [find_contract]: src/api/HrController.hpp:804-814. *)
Definition contract_in (id org : string) (w : World) : option LaborContract :=
  match contracts w !! id with Some c => if String.eqb (c_org c) org then Some c else None | None => None end.

(** [create_vacation]: src/hr/HrRepository.hpp:209-229. *)
Definition create_vacation (org employee starts ends : string) (days : Z) (k : string) : st World (string * Vacation) := fun w =>
  match date_in starts, date_in ends with
  | Some s, Some e =>
      if negb ((0 <? days) && one_of k vacation_kinds && Payroll.date_le s e) then throw pqxx_sql_error "23514" w
      else if no_employee employee org w then throw pqxx_sql_error "23503" w
      else
        let id := gen_random_uuid (h_seq w) in
        let v := mkVacation org employee s e days k (h_now w) in
        (Ok (id, v), next_row (with_vacations (insert id v) w))
  | _, _ => throw pqxx_sql_error "22007" w
  end.

Definition vacation_before (a b : Vacation) : bool :=
  String.ltb (a_starts b) (a_starts a) || String.eqb (a_starts a) (a_starts b) && (a_created b <? a_created a).

(** [list_vacations]: src/hr/HrRepository.hpp:234-253. *)
Definition list_vacations (org : string) (employee : option string) (limit offset : nat) : st World (list (string * Vacation)) :=
  gets (fun w => take limit (drop offset (rows_of (fun v => of_employee org employee (a_org v) (a_employee v)) vacation_before (vacations w)))).

(** [count_vacations]: src/hr/HrRepository.hpp:257-265. *)
Definition count_vacations (org : string) (employee : option string) : st World Z :=
  gets (fun w => Z.of_nat (length (rows_of (fun v => of_employee org employee (a_org v) (a_employee v)) vacation_before (vacations w)))).
End Repository.
(** ** Employees (src/api/EmployeesController.hpp) *)

Section Handlers.
Context `{PG : Postgres} `{RD : Renderer} `{MP : MergePatch}.
Context (tree : Registry.Tree).

Abbreviation permitted := (DocumentFlow.permitted (W := World)).

(** [list]: src/api/EmployeesController.hpp:98-112. *)
Definition list_ (ctx : OrgContext) (limit_param offset_param : string) : prog World Reply :=
  permitted ctx "employees" "read" (
    let page := parse_page_params limit_param offset_param 50 200 in
    with_repo_errors (
      rows ← atomic (list_staff (ctx_org ctx) (Z.to_nat (limit page)) (Z.to_nat (offset page)));
      total ← atomic (count_staff (ctx_org ctx));
      mret (paginated (map (fun e => employee_json e.1 e.2) rows) total page))).

(** [check_common_shape]: src/api/EmployeesController.hpp:239-258. *)
Definition check_common_shape (body : json) (errs : Validation.Errors) : Validation.Errors :=
  Validation.string_if_there body "payout_iik" (Validation.bool_if_there body "opvr_exempt" (Validation.bool_if_there body "ipn_deduction_claimed"
  (Validation.string_if_there body "salary" (Validation.string_if_there body "position" (Validation.string_or_null body "middle_name"
  (Validation.string_if_there body "first_name" (Validation.string_if_there body "last_name" (Validation.string_if_there body "iin" errs)))))))).

Definition flag_field (k : string) (body : json) : bool := match member k body with Some (JBool b) => b | _ => false end.
(** [check_common_semantics]: src/api/EmployeesController.hpp:262-289. *)
Definition check_common_semantics (body : json) : outcome (Reply + Draft) :=
  let number := text_or "" "iin" body in
  valid ← KzIdentifiers.is_valid_bin_iin number;
  if negb valid then Ok (inl (one_error "iin" "invalid_iin"))
  else match Amounts.parse_tiyn (text_or "" "salary" body) with
       | Throw e => if bool_decide (exn_cls e = std_invalid_argument) then Ok (inl (one_error "salary" "invalid_salary")) else Throw e
       | Undef => Undef
       | Ok salary_tiyn =>
           Ok (inr (mkDraft number (text_or "" "last_name" body) (text_or "" "first_name" body) (text_field "middle_name" body)
                      (text_or "" "position" body) salary_tiyn (flag_field "ipn_deduction_claimed" body) (flag_field "opvr_exempt" body)
                      (text_or "" "payout_iik" body)))
       end.

Definition card_fields : list string := ["iin"; "last_name"; "first_name"; "position"; "salary"].

(** [create]: src/api/EmployeesController.hpp:117-133.  With [validate_and_fill_create], 294-322. *)
Definition create_handler (ctx : OrgContext) (parsed : option json) : prog World Reply :=
  permitted ctx "employees" "write" (parsed_body parsed (fun body =>
    match Validation.string_if_there body "hired_on" (check_common_shape body (required body (card_fields ++ ["hired_on"])%list)) with
    | [] =>
        draft ← pure (check_common_semantics body);
        match draft with
        | inl refused => mret refused
        | inr g =>
            let hired_on := text_or "" "hired_on" body in
            dated "hired_on" hired_on (with_repo_errors (
              created ← atomic (create_employee (ctx_org ctx) g hired_on);
              mret (wrapped 201 (employee_json created.1 created.2))))
        end
    | errs => mret (invalid errs 400)
    end)).

(** [get]: src/api/EmployeesController.hpp:138-155. *)
Definition get_handler (ctx : OrgContext) (id : string) : prog World Reply :=
  permitted ctx "employees" "read" (
    if negb (is_valid_uuid id) then mret invalid_id
    else with_repo_errors (
      found ← atomic (gets (employee_in (Requests.uuid_key id) (ctx_org ctx)));
      mret match found with Some e => wrapped 200 (employee_json (Requests.uuid_key id) e) | None => refusal 404 "not_found" end)).

Definition given (body : json) (f : string) : bool := match Validation.present body f with Some _ => true | None => false end.

(** [validate_and_fill_update]: src/api/EmployeesController.hpp:327-360. *)
Definition validate_and_fill_update (body : json) : outcome (Reply + Draft) :=
  if given body "hired_on" then Ok (inl (one_error "hired_on" "immutable_field"))
  else if given body "status" then Ok (inl (one_error "status" "use_dismiss_endpoint"))
  else if given body "dismissed_on" then Ok (inl (one_error "dismissed_on" "use_dismiss_endpoint"))
  else match check_common_shape body (required body card_fields) with
       | [] => check_common_semantics body
       | errs => Ok (inl (invalid errs 400))
       end.

Definition employee_reply (id : string) (o : option Employee) : Reply :=
  match o with Some e => wrapped 200 (employee_json id e) | None => refusal 404 "not_found" end.

(** [patch]: src/api/EmployeesController.hpp:162-188. *)
Definition patch_handler (ctx : OrgContext) (id : string) (parsed : option json) : prog World Reply :=
  permitted ctx "employees" "write" (
    if negb (is_valid_uuid id) then mret invalid_id
    else parsed_body parsed (fun body =>
      draft ← pure (validate_and_fill_update body);
      match draft with
      | inl refused => mret refused
      | inr g => with_repo_errors (
          updated ← atomic (update_employee (ctx_org ctx) (Requests.uuid_key id) g);
          mret (employee_reply (Requests.uuid_key id) updated))
      end)).

(** [dismiss]: src/api/EmployeesController.hpp:196-234. *)
Definition dismiss_handler (ctx : OrgContext) (id : string) (parsed : option json) : prog World Reply :=
  permitted ctx "employees" "write" (
    if negb (is_valid_uuid id) then mret invalid_id
    else parsed_body parsed (fun body =>
      match Validation.string_if_there body "dismissed_on" (required body ["dismissed_on"]) with
      | [] =>
          let dismissed_on := text_or "" "dismissed_on" body in
          dated "dismissed_on" dismissed_on (with_repo_errors (
            updated ← atomic (dismiss_employee (ctx_org ctx) (Requests.uuid_key id) dismissed_on);
            mret (employee_reply (Requests.uuid_key id) updated)))
      | errs => mret (invalid errs 400)
      end)).

(** ** Orders, contracts, vacations (src/api/HrController.hpp) *)

(** [filter_employee_id]: src/api/HrController.hpp:784-796. *)
Definition filter_employee_id (param : string) (k : option string -> prog World Reply) : prog World Reply :=
  if String.eqb param "" then k None
  else if is_valid_uuid param then k (Some (Requests.uuid_key param)) else mret (refusal 400 "invalid_employee_id").

(** [listOrders]: src/api/HrController.hpp:174-191. *)
Definition listOrders (ctx : OrgContext) (employee_param limit_param offset_param : string) : prog World Reply :=
  permitted ctx "hr_docs" "read" (filter_employee_id employee_param (fun employee =>
    let page := parse_page_params limit_param offset_param 50 200 in
    with_repo_errors (
      rows ← atomic (list_orders (ctx_org ctx) employee (Z.to_nat (limit page)) (Z.to_nat (offset page)));
      total ← atomic (count_orders (ctx_org ctx) employee);
      mret (paginated (map (fun o => order_json o.1 o.2) rows) total page)))).

(** [employee_belongs_to_org]: src/api/HrController.hpp:636-639.  With the refusal of every caller. *)
Definition with_employee (ctx : OrgContext) (employee : string) (k : prog World Reply) : prog World Reply :=
  found ← atomic (gets (employee_in employee (ctx_org ctx)));
  match found with None => mret (one_error "employee_id" "foreign_employee") | Some _ => k end.

(** [createOrder]: src/api/HrController.hpp:204-228. *)
Definition order_errors (body : json) : Validation.Errors :=
  Validation.object_or_null body "payload" (Validation.string_or_null body "effective_to" (Validation.string_if_there body "effective_from"
  (Validation.string_if_there body "issued_on" (Validation.string_if_there body "number" (Validation.string_if_there body "kind"
  (Validation.uuid_if_there body "employee_id" (required body ["employee_id"; "kind"; "number"; "issued_on"; "effective_from"]))))))).

(** [createOrder]: src/api/HrController.hpp:197-276. *)
Definition createOrder (ctx : OrgContext) (parsed : option json) : prog World Reply :=
  permitted ctx "hr_docs" "write" (parsed_body parsed (fun body =>
    match order_errors body with
    | [] =>
        let k := text_or "" "kind" body in
        if negb (one_of k order_kinds) then mret (one_error "kind" "not_allowed")
        else
          let issued := text_or "" "issued_on" body in
          dated "issued_on" issued (
            let from := text_or "" "effective_from" body in
            dated "effective_from" from (
              let to := text_field "effective_to" body in
              dated_opt "effective_to" to (
                let employee := Requests.uuid_key (text_or "" "employee_id" body) in
                with_employee ctx employee (with_repo_errors (
                  created ← atomic (create_order (ctx_org ctx) employee k (text_or "" "number" body) issued from to (Validation.present body "payload"));
                  mret (wrapped 201 (order_json created.1 created.2)))))))
    | errs => mret (invalid errs 400)
    end)).

(** [full_name]: src/api/HrController.hpp:816-821. *)
Definition full_name (e : Employee) : string :=
  last_name e +:+ " " +:+ first_name e +:+ match middle_name e with Some (String c r) => " " +:+ String c r | _ => "" end.

(** [iso_to_ddmmyyyy]: src/api/HrController.hpp:826-830. *)
Definition iso_to_ddmmyyyy (iso : string) : string :=
  if Nat.eqb (size iso) 10 then str_take 2 (str_drop 8 iso) +:+ "." +:+ str_take 2 (str_drop 5 iso) +:+ "." +:+ str_take 4 iso else iso.

(** [hr_order_allowed_extra_fields]: src/api/HrController.hpp:690-693. *)
Definition hr_order_allowed_extra_fields : list string := ["director"; "reason"; "details"].

(** [labor_contract_allowed_extra_fields]: src/api/HrController.hpp:705-709. *)
Definition labor_contract_allowed_extra_fields : list string :=
  ["work_schedule"; "probation_months"; "employer.director"; "employer.address"; "employee.address"].

Definition employer_json (o : Tenancy.Organization) : json := JObject [("bin", JString (Tenancy.bin o)); ("name", JString (Tenancy.name o))].
Definition person_json (e : Employee) : json :=
  JObject [("full_name", JString (full_name e)); ("iin", JString (iin e)); ("position", JString (position e))].

(** [generateOrderDocument]: src/api/HrController.hpp:306-318.  What is on file of an order. *)
Definition order_input (o : HrOrder) (e : Employee) (company : Tenancy.Organization) : json :=
  let base := [("effective_from", JString (iso_to_ddmmyyyy (effective_from o))); ("employee", person_json e); ("employer", employer_json company);
               ("issued_on", JString (iso_to_ddmmyyyy (issued_on o))); ("kind", JString (o_kind o)); ("number", JString (o_number o))] in
  JObject (match effective_to o with Some d => obj_set "effective_to" (JString (iso_to_ddmmyyyy d)) base | None => base end).

(** [generateContractDocument]: src/api/HrController.hpp:473-520.  What is on file of a
    contract; [None]: the salary cannot be spelled out. *)
Definition contract_input (c : LaborContract) (e : Employee) (company : Tenancy.Organization) : outcome (option json) :=
  figure ← Format.format_tiyn_ru (salary e);
  let base := [("employee", person_json e); ("employer", employer_json company); ("number", JString (c_number c));
               ("salary_tenge", JString figure); ("signed_on", JString (iso_to_ddmmyyyy (signed_on c))); ("starts_on", JString (iso_to_ddmmyyyy (c_starts c)))] in
  let base := match c_ends c with Some d => obj_set "ends_on" (JString (iso_to_ddmmyyyy d)) base | None => base end in
  match (ru ← Words.to_words_ru (salary e); kk ← Words.to_words_kk (salary e); Ok (ru, kk)) with
  | Ok (ru, kk) => Ok (Some (JObject (obj_set "salary_words_kk" (JString kk) (obj_set "salary_words" (JString ru) base))))
  | Throw x => if bool_decide (exn_cls x = std_out_of_range) then Ok None else Throw x
  | Undef => Undef
  end.

(** [finish_generate_document]: src/api/HrController.hpp:742-778.  From the creation of the document on. *)
Definition create_document (queued : bool) (doc_type org slug : string) (info : Registry.TemplateInfo) (input : json)
    (after_create : string -> prog World ()) : prog World Reply :=
  created ← atomic (on_docs (create org doc_type "generated" "draft" None (Some (Registry.slug info)) (Some (Registry.version_str info)) (Some input) None));
  _ ← after_create (doc_id created);
  first_version ← atomic (on_docs (latest_version org (doc_id created)));
  render_queued ← atomic (on_docs (DocumentFlow.submit_render queued
    (DocumentFlow.render_payload org (doc_id created) (match first_version with Some v => v.1 | None => "" end) slug input)));
  mret (mkReply 202 "" (JObject [("document_id", JString (doc_id created)); ("render_queued", JBool render_queued)])).

(** [finish_generate_document]: src/api/HrController.hpp:723-779. *)
Definition finish_generate_document (jobs_ready queued : bool) (org slug : string) (input : json) (after_create : string -> prog World ()) : prog World Reply :=
  info ← pure (Registry.latest tree slug);
  match info with
  | None => mret (refusal 500 "internal_error")
  | Some info =>
      match schema_error (Registry.schema info) input with
      | Some _ => mret (one_error "input" "schema_validation_failed")
      | None =>
          if negb jobs_ready then mret (refusal 503 "jobs_disabled")
          else with_repo_errors (create_document queued "hr" org slug info input after_create)
      end
  end.

(** [lookup_employee_and_org]: src/api/HrController.hpp:654-679. *)
Definition lookup_employee_and_org (org employee : string) (k : Employee -> Tenancy.Organization -> prog World Reply) : prog World Reply :=
  found ← atomic (gets (employee_in employee org));
  match found with
  | None => mret (refusal 500 "internal_error")
  | Some e =>
      company ← atomic (gets (fun w => companies w !! org));
      match company with None => mret (refusal 500 "internal_error") | Some o => k e o end
  end.

Definition merged (input : json) (extra : list (string * json)) (allowed : list string) (k : json -> prog World Reply) : prog World Reply :=
  match InputPolicy.merge_allowed_extra input extra allowed with
  | inl e => mret (one_error (InputPolicy.field e) (InputPolicy.err_code e))
  | inr input => k input
  end.

(** [generateOrderDocument]: src/api/HrController.hpp:282-333.  [extra]: the object of the body, empty when there is none. *)
Definition generateOrderDocument (jobs_ready queued : bool) (ctx : OrgContext) (id : string) (extra : option (list (string * json))) : prog World Reply :=
  permitted ctx "hr_docs" "write" (
    if negb (is_valid_uuid id) then mret invalid_id
    else match extra with
    | None => mret (refusal 400 "invalid_json")
    | Some extra =>
        found ← atomic (gets (order_in (Requests.uuid_key id) (ctx_org ctx)));
        match found with
        | None => mret (refusal 404 "not_found")
        | Some o =>
            lookup_employee_and_org (ctx_org ctx) (o_employee o) (fun e company =>
              merged (order_input o e company) extra hr_order_allowed_extra_fields (fun input =>
                finish_generate_document jobs_ready queued (ctx_org ctx) "hr_order" input (fun d =>
                  _ ← atomic (attach_document (ctx_org ctx) (Requests.uuid_key id) d); mret tt)))
        end
    end).

(** [listContracts]: src/api/HrController.hpp:343-364. *)
Definition listContracts (ctx : OrgContext) (employee_param : string) : prog World Reply :=
  permitted ctx "hr_docs" "read" (
    if String.eqb employee_param "" then mret (refusal 400 "missing_employee_id")
    else if negb (is_valid_uuid employee_param) then mret (refusal 400 "invalid_employee_id")
    else with_repo_errors (
      rows ← atomic (list_contracts (ctx_org ctx) (Requests.uuid_key employee_param));
      mret (mkReply 200 "" (JObject [("data", JArray (map (fun c => contract_json c.1 c.2) rows))])))).

(** [createContract]: src/api/HrController.hpp:377-398. *)
Definition contract_errors (body : json) : Validation.Errors :=
  Validation.object_or_null body "terms_json" (Validation.string_or_null body "ends_on" (Validation.string_if_there body "starts_on"
  (Validation.string_if_there body "signed_on" (Validation.string_if_there body "number"
  (Validation.uuid_if_there body "employee_id" (required body ["employee_id"; "number"; "signed_on"; "starts_on"])))))).

(** [createContract]: src/api/HrController.hpp:370-437. *)
Definition createContract (ctx : OrgContext) (parsed : option json) : prog World Reply :=
  permitted ctx "hr_docs" "write" (parsed_body parsed (fun body =>
    match contract_errors body with
    | [] =>
        let signed := text_or "" "signed_on" body in
        dated "signed_on" signed (
          let starts := text_or "" "starts_on" body in
          dated "starts_on" starts (
            let ends := text_field "ends_on" body in
            dated_opt "ends_on" ends (
              let employee := Requests.uuid_key (text_or "" "employee_id" body) in
              with_employee ctx employee (with_repo_errors (
                created ← atomic (create_contract (ctx_org ctx) employee (text_or "" "number" body) signed starts ends (Validation.present body "terms_json"));
                mret (wrapped 201 (contract_json created.1 created.2)))))))
    | errs => mret (invalid errs 400)
    end)).

(** [generateContractDocument]: src/api/HrController.hpp:444-528. *)
Definition generateContractDocument (jobs_ready queued : bool) (ctx : OrgContext) (id : string) (extra : option (list (string * json))) : prog World Reply :=
  permitted ctx "hr_docs" "write" (
    if negb (is_valid_uuid id) then mret invalid_id
    else match extra with
    | None => mret (refusal 400 "invalid_json")
    | Some extra =>
        found ← atomic (gets (contract_in (Requests.uuid_key id) (ctx_org ctx)));
        match found with
        | None => mret (refusal 404 "not_found")
        | Some c =>
            lookup_employee_and_org (ctx_org ctx) (c_employee c) (fun e company =>
              base ← pure (contract_input c e company);
              match base with
              | None => mret (refusal 422 "amount_out_of_range")
              | Some base => merged base extra labor_contract_allowed_extra_fields (fun input =>
                  finish_generate_document jobs_ready queued (ctx_org ctx) "labor_contract" input (fun _ => mret tt))
              end)
        end
    end).

(** [listVacations]: src/api/HrController.hpp:539-556. *)
Definition listVacations (ctx : OrgContext) (employee_param limit_param offset_param : string) : prog World Reply :=
  permitted ctx "hr_docs" "read" (filter_employee_id employee_param (fun employee =>
    let page := parse_page_params limit_param offset_param 50 200 in
    with_repo_errors (
      rows ← atomic (list_vacations (ctx_org ctx) employee (Z.to_nat (limit page)) (Z.to_nat (offset page)));
      total ← atomic (count_vacations (ctx_org ctx) employee);
      mret (paginated (map (fun v => vacation_json v.1 v.2) rows) total page)))).

(** [createVacation]: src/api/HrController.hpp:569-589. *)
Definition vacation_errors (body : json) : Validation.Errors :=
  Validation.string_if_there body "kind" (Validation.int_if_there body "days" (Validation.string_if_there body "ends_on"
  (Validation.string_if_there body "starts_on" (Validation.uuid_if_there body "employee_id"
  (required body ["employee_id"; "starts_on"; "ends_on"; "days"; "kind"]))))).

(** [get<int>()]: the low 32 bits. *)
Definition int_field (k : string) (body : json) : Z := match member k body with Some (JInt z) => (z + 2 ^ 31) mod 2 ^ 32 - 2 ^ 31 | _ => 0 end.

(** [createVacation]: src/api/HrController.hpp:562-633. *)
Definition createVacation (ctx : OrgContext) (parsed : option json) : prog World Reply :=
  permitted ctx "hr_docs" "write" (parsed_body parsed (fun body =>
    match vacation_errors body with
    | [] =>
        let starts := text_or "" "starts_on" body in
        dated "starts_on" starts (
          let ends := text_or "" "ends_on" body in
          dated "ends_on" ends (
            if String.ltb ends starts then mret (one_error "ends_on" "before_starts_on")
            else
              let days := int_field "days" body in
              if days <=? 0 then mret (one_error "days" "not_positive")
              else
                let k := text_or "" "kind" body in
                if negb (one_of k vacation_kinds) then mret (one_error "kind" "not_allowed")
                else
                  let employee := Requests.uuid_key (text_or "" "employee_id" body) in
                  with_employee ctx employee (with_repo_errors (
                    created ← atomic (create_vacation (ctx_org ctx) employee starts ends days k);
                    mret (wrapped 201 (vacation_json created.1 created.2))))))
    | errs => mret (invalid errs 400)
    end)).

End Handlers.
(** ** What the tables keep *)

Section Kept.
Context `{PG : Postgres} `{RD : Renderer} `{MP : MergePatch}.
Context (tree : Registry.Tree) (version_output : option string) (sha256_hex : string -> string).

(** A card: a valid number, a salary in the range of amounts, a date of dismissal exactly
    when dismissed. *)
Definition card_ok (e : Employee) : Prop :=
  KzIdentifiers.is_valid_bin_iin (iin e) = Ok true /\ 0 < salary e < 10 ^ 18 /\
  ((e_status e = "active" /\ dismissed e = None) \/ (e_status e = "dismissed" /\ is_Some (dismissed e))).

Definition draft_ok (g : Draft) : Prop := KzIdentifiers.is_valid_bin_iin (g_iin g) = Ok true /\ 0 < g_salary g < 10 ^ 18.

(** Somebody of this organization. *)
Definition employed (org id : string) (w : World) : Prop := is_Some (employee_in id org w).

Record sound (w : World) : Prop := mkSound {
  sound_docs : good (docs_store w);
  sound_ids : forall id, is_Some (staff w !! id) \/ is_Some (contracts w !! id) \/ is_Some (orders w !! id) \/ is_Some (vacations w !! id) ->
    exists n, (n < h_seq w)%nat /\ id = gen_random_uuid n;
  sound_cards : forall id e, staff w !! id = Some e -> card_ok e;
  sound_iins : forall i j e e', staff w !! i = Some e -> staff w !! j = Some e' -> e_org e = e_org e' -> iin e = iin e' -> i = j;
  sound_contracts : forall id c, contracts w !! id = Some c -> employed (c_org c) (c_employee c) w;
  sound_orders : forall id o, orders w !! id = Some o -> employed (o_org o) (o_employee o) w /\ one_of (o_kind o) order_kinds = true;
  sound_vacations : forall id v, vacations w !! id = Some v ->
    employed (a_org v) (a_employee v) w /\ 0 < a_days v /\ one_of (a_kind v) vacation_kinds = true /\ Payroll.date_le (a_starts v) (a_ends v) = true
}.

(** Of an employee, what no request changes; whoever is dismissed stays so. *)
Definition same_person (e e' : Employee) : Prop :=
  e_org e' = e_org e /\ hired e' = hired e /\ e_created e' = e_created e /\ (e_status e = "dismissed" -> e_status e' = "dismissed" /\ dismissed e' = dismissed e).

(** An order but for the document it names. *)
Definition order_head (o : HrOrder) :=
  (o_org o, o_employee o, o_kind o, o_number o, issued_on o, effective_from o, effective_to o, payload o, o_created o).

Record onward (w w' : World) : Prop := mkOnward {
  onward_docs : evolves (docs_store w) (docs_store w');
  onward_staff : forall id e, staff w !! id = Some e -> exists e', staff w' !! id = Some e' /\ same_person e e';
  onward_contracts : forall id c, contracts w !! id = Some c -> contracts w' !! id = Some c;
  onward_orders : forall id o, orders w !! id = Some o -> exists o', orders w' !! id = Some o' /\ order_head o' = order_head o /\
    (is_Some (o_document o) -> is_Some (o_document o'));
  onward_vacations : forall id v, vacations w !! id = Some v -> vacations w' !! id = Some v;
  onward_seq : (h_seq w <= h_seq w')%nat
}.

Lemma same_person_refl e : same_person e e.
Proof. by split_and!. Qed.
Hint Resolve same_person_refl : core.

#[export] Instance onward_pre : PreOrder onward.
Proof.
  split.
  - intros w. constructor; [done | by eauto | done | by eauto | done | done].
  - intros w1 w2 w3 [D1 E1 C1 O1 V1 S1] [D2 E2 C2 O2 V2 S2]. constructor; [by etrans | | by eauto | | by eauto | lia].
    + intros id e H. destruct (E1 id e H) as (e1 & H1 & A1 & B1 & F1 & K1). destruct (E2 id e1 H1) as (e2 & H2 & A2 & B2 & F2 & K2).
      exists e2. split; [done|]. split; [congruence|]. split; [congruence|]. split; [congruence|].
      intros Hd. destruct (K1 Hd) as [Hs Hx]. destruct (K2 Hs) as [Hs' Hx']. split; congruence.
    + intros id o H. destruct (O1 id o H) as (o1 & H1 & A1 & B1). destruct (O2 id o1 H1) as (o2 & H2 & A2 & B2).
      exists o2. split; [done|]. split; [congruence | auto].
Qed.

Lemma employee_in_Some id org w e : employee_in id org w = Some e <-> staff w !! id = Some e /\ e_org e = org.
Proof.
  unfold employee_in. destruct (staff w !! id) as [x|]; [|split; [done | by intros []]].
  destruct (String.eqb_spec (e_org x) org); split; [by intros [= <-] | by intros [[= <-] _] | done | by intros [[= <-] ?]].
Qed.

Lemma employed_later org id w w' : (forall id e, staff w !! id = Some e -> exists e', staff w' !! id = Some e' /\ e_org e' = e_org e) ->
  employed org id w -> employed org id w'.
Proof.
  intros H [e [He <-]%employee_in_Some]. destruct (H id e He) as (e' & He' & Ho). exists e'. by apply employee_in_Some.
Qed.

Lemma has_iin_free org number except w : has_iin org number except w = false ->
  forall id e, staff w !! id = Some e -> e_org e = org -> iin e = number -> except = Some id.
Proof.
  unfold has_iin. intros H id e He <- <-. destruct (decide (except = Some id)) as [|N]; [done|].
  assert (existsb (fun x => String.eqb (e_org x.2) (e_org e) && String.eqb (iin x.2) (iin e) && negb (bool_decide (except = Some x.1))) (map_to_list (staff w)) = true); [|congruence].
  apply existsb_exists. exists (id, e). split; [by apply list_elem_of_In, elem_of_map_to_list|]. cbn [fst snd].
  rewrite !String.eqb_refl. by rewrite bool_decide_eq_false_2.
Qed.

Abbreviation calmly := (quiet sound onward).

(** A step of a row's table keeps everything, and moves only forward. *)
Definition keeps_rows {A} (m : st World A) : Prop := forall w, sound w -> sound (m w).2 /\ onward w (m w).2.

Lemma fresh_row w : sound w -> staff w !! gen_random_uuid (h_seq w) = None /\ contracts w !! gen_random_uuid (h_seq w) = None /\
  orders w !! gen_random_uuid (h_seq w) = None /\ vacations w !! gen_random_uuid (h_seq w) = None.
Proof.
  intros G. assert (forall P, (P -> is_Some (staff w !! gen_random_uuid (h_seq w)) \/ is_Some (contracts w !! gen_random_uuid (h_seq w)) \/
    is_Some (orders w !! gen_random_uuid (h_seq w)) \/ is_Some (vacations w !! gen_random_uuid (h_seq w))) -> ~ P) as K.
  { intros P HP H. destruct (sound_ids w G _ (HP H)) as (n & Hn & E%uuid_unique). lia. }
  split_and!; apply eq_None_not_Some; apply K; tauto.
Qed.

(** A row changed in place, or a new one, in the table of employees. *)
Lemma staff_moves w id e : sound w -> card_ok e ->
  (forall j e', staff w !! j = Some e' -> e_org e' = e_org e -> iin e' = iin e -> j = id) ->
  (forall old, staff w !! id = Some old -> same_person old e) ->
  (exists n, (n < h_seq w)%nat /\ id = gen_random_uuid n) ->
  sound (with_staff (insert id e) w) /\ onward w (with_staff (insert id e) w).
Proof.
  intros [D I C U Ct Or Va] He Hu Hold Hid.
  assert (forall i x, staff w !! i = Some x -> exists x', staff (with_staff (insert id e) w) !! i = Some x' /\ same_person x x') as St.
  { intros i x Hx. cbn. destruct (decide (i = id)) as [->|N]; [exists e; rewrite lookup_insert_eq; auto | exists x; by rewrite lookup_insert_ne]. }
  assert (forall org i, employed org i w -> employed org i (with_staff (insert id e) w)) as Em.
  { intros org i. apply employed_later. intros j x Hx. destruct (St j x Hx) as (x' & Hx' & Ho & _). by exists x'. }
  split; [constructor; cbn|].
  - done.
  - intros i [[x [[<- _]|[_ Hx]]%lookup_insert_Some]|H]; [done | apply I; by left; exists x | apply I; by right].
  - intros i x [[<- <-]|[_ Hx]]%lookup_insert_Some; [done | by eapply C].
  - intros i j x y Hi Hj Ho Hn. apply lookup_insert_Some in Hi as [[<- <-]|[Ni Hi]], Hj as [[<- <-]|[Nj Hj]]; [done | | | by eapply U].
    + symmetry. by apply (Hu j y).
    + by apply (Hu i x).
  - intros i c Hc. apply Em. by eapply Ct.
  - intros i o Ho. destruct (Or i o Ho). by split; [apply Em|].
  - intros i v Hv. destruct (Va i v Hv) as (? & ?). by split; [apply Em|].
  - constructor; [done | exact St | done | by eauto | done | done].
Qed.

Lemma clock_moves w : sound w -> sound (next_row w) /\ onward w (next_row w).
Proof.
  intros [D I C U Ct Or Va]. split; [constructor; try done | constructor; try done; eauto; cbn; lia].
  intros id H. destruct (I id H) as (n & ? & ?). exists n. cbn. split; [lia | done].
Qed.

Lemma two_moves w w1 w2 : sound w1 /\ onward w w1 -> (sound w1 -> sound w2 /\ onward w1 w2) -> sound w2 /\ onward w w2.
Proof. intros [G1 O1] H. destruct (H G1) as [G2 O2]. split; [done | by etrans]. Qed.

Lemma same_keeps w : sound w -> sound w /\ onward w w.
Proof. by split. Qed.
Hint Resolve same_keeps : core.

Lemma create_employee_keeps org g hired_on : draft_ok g -> keeps_rows (create_employee org g hired_on).
Proof.
  intros [Hv Hs] w G. unfold create_employee. rewrite translate_snd. destruct (date_in hired_on) as [h|]; [|auto].
  destruct (negb _); [auto|]. destruct (has_iin org (g_iin g) None w) eqn:Hf; [auto|]. destruct (negb _); [auto|]. cbn [snd].
  set (id := gen_random_uuid (h_seq w)). set (e := mkEmployee _ _ _ _ _ _ _ _ _ _ _ _ _ _).
  change (sound (with_staff (insert id e) (next_row w)) /\ onward w (with_staff (insert id e) (next_row w))).
  apply (two_moves w (next_row w)); [by apply clock_moves|]. intros G1. apply staff_moves; [done | | | | exists (h_seq w); cbn; split; [lia | done]].
  - split; [exact Hv|]. split; [exact Hs|]. by left.
  - intros j x Hj Ho Hn. pose proof (has_iin_free _ _ _ _ Hf j x Hj Ho Hn). discriminate.
  - intros old Hold. cbn in Hold. unfold id in Hold. by rewrite (proj1 (fresh_row w G)) in Hold.
Qed.

Lemma update_employee_keeps org id g : draft_ok g -> keeps_rows (update_employee org id g).
Proof.
  intros [Hv Hs] w G. unfold update_employee. rewrite translate_snd. destruct (employee_in id org w) as [e|] eqn:He; [|auto].
  apply employee_in_Some in He as [He <-]. destruct (negb _); [auto|]. destruct (has_iin _ _ _ w) eqn:Hf; [auto|]. cbn [snd].
  destruct (sound_cards w G id e He) as (_ & _ & K). apply staff_moves; [done | exact (conj Hv (conj Hs K)) | | | by apply (sound_ids w G); left; exists e].
  - intros j x Hj Ho Hn. pose proof (has_iin_free _ _ _ _ Hf j x Hj Ho Hn). congruence.
  - intros old Hold. assert (old = e) as -> by congruence. repeat split; done.
Qed.

Lemma dismiss_employee_keeps org id date : keeps_rows (dismiss_employee org id date).
Proof.
  intros w G. unfold dismiss_employee. destruct (date_in date) as [d|]; [|auto]. destruct (employee_in id org w) as [e|] eqn:He; [|auto].
  apply employee_in_Some in He as [He <-]. destruct (String.eqb_spec (e_status e) "active") as [Ha|]; [|auto]. cbn [snd].
  destruct (sound_cards w G id e He) as (Hv & Hs & _). apply staff_moves; [done | | | | by apply (sound_ids w G); left; exists e].
  - split; [exact Hv|]. split; [exact Hs|]. right. by split; [|exists d].
  - intros j x Hj Ho Hn. by apply (sound_iins w G j id x e).
  - intros old Hold. assert (old = e) as -> by congruence. split; [done|]. split; [done|]. split; [done|]. intros H. congruence.
Qed.

Lemma no_employee_false id org w : no_employee id org w = false -> employed org id w.
Proof. unfold no_employee. intros H%negb_false_iff. by apply bool_decide_eq_true in H. Qed.

(** A new order, contract or vacation of somebody of the organization. *)
Lemma order_moves w o : sound w -> employed (o_org o) (o_employee o) w -> one_of (o_kind o) order_kinds = true ->
  sound (next_row (with_orders (insert (gen_random_uuid (h_seq w)) o) w)) /\ onward w (next_row (with_orders (insert (gen_random_uuid (h_seq w)) o) w)).
Proof.
  intros G He Hk. destruct (fresh_row w G) as (_ & _ & N & _). set (id := gen_random_uuid (h_seq w)) in *.
  apply (two_moves w (next_row w)); [by apply clock_moves|]. intros [D I C U Ct Or Va]. split; [constructor; cbn; try done|].
  - intros i [H|[H|[[x [[<- _]|[_ Hx]]%lookup_insert_Some]|H]]]; [apply I; by left | apply I; by right; left | | apply I; right; right; left; by exists x | apply I; by do 3 right].
    exists (h_seq w). split; [cbn; lia | done].
  - intros i x [[<- <-]|[_ Hx]]%lookup_insert_Some; [done | by eapply Or].
  - constructor; cbn; try done; [by eauto | ]. intros i x Hx. exists x. rewrite lookup_insert_ne; [done | intros <-; congruence].
Qed.

Lemma contract_moves w c : sound w -> employed (c_org c) (c_employee c) w ->
  sound (next_row (with_contracts (insert (gen_random_uuid (h_seq w)) c) w)) /\ onward w (next_row (with_contracts (insert (gen_random_uuid (h_seq w)) c) w)).
Proof.
  intros G He. destruct (fresh_row w G) as (_ & N & _ & _). set (id := gen_random_uuid (h_seq w)) in *.
  apply (two_moves w (next_row w)); [by apply clock_moves|]. intros [D I C U Ct Or Va]. split; [constructor; cbn; try done|].
  - intros i [H|[[x [[<- _]|[_ Hx]]%lookup_insert_Some]|H]]; [apply I; by left | | apply I; right; left; by exists x | apply I; by do 2 right].
    exists (h_seq w). split; [cbn; lia | done].
  - intros i x [[<- <-]|[_ Hx]]%lookup_insert_Some; [done | by eapply Ct].
  - constructor; cbn; try done; [by eauto | | by eauto]. intros i x Hx. rewrite lookup_insert_ne; [done | intros <-; congruence].
Qed.

Lemma vacation_moves w v : sound w -> employed (a_org v) (a_employee v) w -> 0 < a_days v -> one_of (a_kind v) vacation_kinds = true ->
  Payroll.date_le (a_starts v) (a_ends v) = true ->
  sound (next_row (with_vacations (insert (gen_random_uuid (h_seq w)) v) w)) /\ onward w (next_row (with_vacations (insert (gen_random_uuid (h_seq w)) v) w)).
Proof.
  intros G He Hd Hk Hs. destruct (fresh_row w G) as (_ & _ & _ & N). set (id := gen_random_uuid (h_seq w)) in *.
  apply (two_moves w (next_row w)); [by apply clock_moves|]. intros [D I C U Ct Or Va]. split; [constructor; cbn; try done|].
  - intros i [H|[H|[H|[x [[<- _]|[_ Hx]]%lookup_insert_Some]]]]; [apply I; by left | apply I; by right; left | apply I; by right; right; left | | apply I; do 3 right; by exists x].
    exists (h_seq w). split; [cbn; lia | done].
  - intros i x [[<- <-]|[_ Hx]]%lookup_insert_Some; [by split_and! | by eapply Va].
  - constructor; cbn; try done; [by eauto | by eauto | ]. intros i x Hx. rewrite lookup_insert_ne; [done | intros <-; congruence].
Qed.

Lemma create_order_keeps org employee k number issued from to details : keeps_rows (create_order org employee k number issued from to details).
Proof.
  intros w G. unfold create_order. destruct (date_in issued), (date_in from), (date_opt to); auto.
  destruct (one_of k order_kinds) eqn:Hk; cbn [negb]; [|auto]. destruct (no_employee employee org w) eqn:He; [auto|]. cbn [snd].
  apply order_moves; [done | by apply no_employee_false | done].
Qed.

Lemma create_contract_keeps org employee number signed starts ends details : keeps_rows (create_contract org employee number signed starts ends details).
Proof.
  intros w G. unfold create_contract. destruct (date_in signed), (date_in starts), (date_opt ends); auto.
  destruct (no_employee employee org w) eqn:He; [auto|]. cbn [snd]. apply contract_moves; [done | by apply no_employee_false].
Qed.

Lemma create_vacation_keeps org employee starts ends days k : keeps_rows (create_vacation org employee starts ends days k).
Proof.
  intros w G. unfold create_vacation. destruct (date_in starts) as [s|], (date_in ends) as [e|]; auto.
  destruct (_ && _ && _) eqn:Hc; cbn [negb]; [|auto]. apply andb_true_iff in Hc as [[Hd Hk]%andb_true_iff Hs]. apply Z.ltb_lt in Hd.
  destruct (no_employee employee org w) eqn:He; [auto|]. cbn [snd]. apply vacation_moves; [done | by apply no_employee_false | done..].
Qed.

(** Steps on the documents alone. *)
Lemma docs_moves w s : sound w -> good s -> evolves (docs_store w) s -> sound (with_store s w) /\ onward w (with_store s w).
Proof. intros [D I C U Ct Or Va] Gs E. split; [by constructor | constructor; cbn; try done; eauto]. Qed.

Lemma docs_keeps {A} (m : st Store A) : keeps m -> keeps_rows (on_docs m).
Proof.
  intros Hm w G. unfold on_docs. destruct (Hm _ (sound_docs w G)) as [D E]. destruct (m (docs_store w)) as [r s]. by apply docs_moves.
Qed.

Lemma attach_keeps org id d : keeps_rows (attach_document org id d).
Proof.
  intros w G. unfold attach_document, order_in. destruct (orders w !! id) as [o|] eqn:Ho; [|auto]. destruct (String.eqb_spec (o_org o) org) as [<-|]; [|auto].
  destruct (negb _); [auto|]. cbn [snd]. apply (two_moves w (with_orders (insert id (naming d o)) w)).
  - destruct G as [D I C U Ct Or Va]. split; [constructor; cbn; try done|].
    + intros i [H|[H|[[x [[<- _]|[_ Hx]]%lookup_insert_Some]|H]]]; apply I; [by left | by right; left | by right; right; left; exists o | right; right; left; by exists x | by do 3 right].
    + intros i x [[<- <-]|[_ Hx]]%lookup_insert_Some; [exact (Or id o Ho) | by eapply Or].
    + constructor; cbn; try done; [by eauto|]. intros i x Hx. destruct (decide (i = id)) as [->|N].
      * exists (naming d o). rewrite lookup_insert_eq. assert (x = o) as -> by congruence. split_and!; [done | done | by exists d].
      * exists x. by rewrite lookup_insert_ne.
  - intros G1. unfold rename_document. destruct (frame_steps (docs_store w) (hold_only ({[d]} ∪ match o_document o with
      | Some old => if bool_decide (old ∈ named (with_orders (insert id (naming d o)) w)) then held (docs_store w) else held (docs_store w) ∖ {[old]}
      | None => held (docs_store w) end) (docs_store w)) (sound_docs w G)) as [D E]; try done. by apply docs_moves.
Qed.

Lemma gets_rows {A} (f : World -> A) : keeps_rows (gets f).
Proof. intros w G. auto. Qed.

(** ** The handlers keep them *)

Lemma rows_call {A B} (m : st World A) (k : A -> prog World B) w : keeps_rows m -> (forall a w', calmly (k a) w') -> calmly (atomic m ≫= k) w.
Proof. intros Hm. by apply quiet_call. Qed.

Lemma permitted_rows ctx r a k w : calmly k w -> calmly (DocumentFlow.permitted ctx r a k) w.
Proof. intros Hk. unfold DocumentFlow.permitted. by case_match. Qed.

Lemma repo_rows p w : calmly p w -> calmly (with_repo_errors p) w.
Proof. apply quiet_catch. Qed.

Lemma dated_rows f s k w : calmly k w -> calmly (dated f s k) w.
Proof. intros Hk. unfold dated. apply quiet_pure. by intros [] _. Qed.

Lemma dated_opt_rows f o k w : calmly k w -> calmly (dated_opt f o k) w.
Proof. intros Hk. destruct o; [by apply dated_rows | done]. Qed.

Lemma parsed_rows parsed k w : (forall body, calmly (k body) w) -> calmly (parsed_body parsed k) w.
Proof. intros Hk. destruct parsed; [apply Hk | done]. Qed.

Lemma filter_rows param k w : (forall o, calmly (k o) w) -> calmly (filter_employee_id param k) w.
Proof. intros Hk. unfold filter_employee_id. repeat case_match; (apply Hk || done). Qed.

Lemma with_employee_rows ctx e k w : (forall w', calmly k w') -> calmly (with_employee ctx e k) w.
Proof. intros Hk. apply rows_call; [apply gets_rows|]. intros [] w'; [apply Hk | done]. Qed.

Lemma merged_rows input extra allowed k w : (forall j, calmly (k j) w) -> calmly (merged input extra allowed k) w.
Proof. intros Hk. unfold merged. case_match; [done | apply Hk]. Qed.

Lemma submit_rows queued payload : keeps_rows (on_docs (DocumentFlow.submit_render queued payload)).
Proof. apply docs_keeps, DocumentFlow.submit_keeps. Qed.

Lemma create_document_rows queued ty org slug info input after w : (forall d w', calmly (after d) w') ->
  calmly (create_document queued ty org slug info input after) w.
Proof.
  intros Ha. unfold create_document. apply rows_call; [apply docs_keeps, create_keeps|]. intros d w1.
  apply quiet_bind; [exact _ | apply Ha|]. intros _ w2. apply rows_call; [apply docs_keeps, gets_keeps|]. intros v w3.
  by apply rows_call; [apply submit_rows|].
Qed.

Lemma generate_rows jobs_ready queued org slug input after w : (forall d w', calmly (after d) w') ->
  calmly (finish_generate_document tree jobs_ready queued org slug input after) w.
Proof.
  intros Ha. unfold finish_generate_document. apply quiet_pure. intros [info|] _; [|done]. destruct (schema_error _ _); [done|].
  destruct (negb _); [done|]. by apply repo_rows, create_document_rows.
Qed.

Lemma lookup_rows org e k w : (forall x o w', calmly (k x o) w') -> calmly (lookup_employee_and_org org e k) w.
Proof.
  intros Hk. apply rows_call; [apply gets_rows|]. intros [x|] w1; [|done]. apply rows_call; [apply gets_rows|]. intros [o|] w2; [apply Hk | done].
Qed.

(** What passes the checks of a card is fit for one. *)
Lemma semantics_ok body g : check_common_semantics body = Ok (inr g) -> draft_ok g.
Proof.
  unfold check_common_semantics. intros (v & Hv & H)%bind_Ok_inv. destruct v; [|done]. cbn [negb] in H.
  destruct (Amounts.parse_tiyn _) as [t|e|] eqn:E; [|by destruct (bool_decide _) | done]. injection H as <-. split; [exact Hv|].
  exact (proj1 (Reference.parse_range _ _ E)).
Qed.

(** A request to the routes of the two controllers. *)
Inductive request :=
| ListStaff (ctx : OrgContext) (limit offset : string) | CreateStaff (ctx : OrgContext) (body : option json)
| GetStaff (ctx : OrgContext) (id : string) | PatchStaff (ctx : OrgContext) (id : string) (body : option json)
| DismissStaff (ctx : OrgContext) (id : string) (body : option json)
| ListOrders (ctx : OrgContext) (employee limit offset : string) | CreateOrder (ctx : OrgContext) (body : option json)
| OrderDocument (jobs_ready queued : bool) (ctx : OrgContext) (id : string) (extra : option (list (string * json)))
| ListContracts (ctx : OrgContext) (employee : string) | CreateContract (ctx : OrgContext) (body : option json)
| ContractDocument (jobs_ready queued : bool) (ctx : OrgContext) (id : string) (extra : option (list (string * json)))
| ListVacations (ctx : OrgContext) (employee limit offset : string) | CreateVacation (ctx : OrgContext) (body : option json).

Definition handle (r : request) : prog World Reply :=
  match r with
  | ListStaff ctx l o => list_ ctx l o | CreateStaff ctx b => create_handler ctx b | GetStaff ctx id => get_handler ctx id
  | PatchStaff ctx id b => patch_handler ctx id b | DismissStaff ctx id b => dismiss_handler ctx id b
  | ListOrders ctx e l o => listOrders ctx e l o | CreateOrder ctx b => createOrder ctx b
  | OrderDocument jr q ctx id x => generateOrderDocument tree jr q ctx id x
  | ListContracts ctx e => listContracts ctx e | CreateContract ctx b => createContract ctx b
  | ContractDocument jr q ctx id x => generateContractDocument tree jr q ctx id x
  | ListVacations ctx e l o => listVacations ctx e l o | CreateVacation ctx b => createVacation ctx b
  end.

Ltac rows_on := repeat first
  [ done | apply permitted_rows | apply repo_rows | apply parsed_rows; intros ? | apply filter_rows; intros ? | apply dated_rows | apply dated_opt_rows
  | apply with_employee_rows; intros ? | apply lookup_rows; intros ??? | apply merged_rows; intros ? | apply generate_rows; intros ??
  | apply rows_call; [first [apply gets_rows | apply dismiss_employee_keeps | apply create_order_keeps | apply create_contract_keeps
                              | apply create_vacation_keeps | apply attach_keeps]|]; intros ??
  | case_match ].

Lemma handle_rows r w : calmly (handle r) w.
Proof.
  destruct r; cbn [handle].
  - unfold list_. rows_on.
  - unfold create_handler. apply permitted_rows, parsed_rows. intros b. destruct (Validation.string_if_there _ _ _); [|done].
    apply quiet_pure. intros [refused|g] Hg; [done|]. apply semantics_ok in Hg. cbv zeta. apply dated_rows, repo_rows.
    by apply rows_call; [by apply create_employee_keeps|].
  - unfold get_handler. rows_on.
  - unfold patch_handler. apply permitted_rows. destruct (negb _); [done|]. apply parsed_rows. intros b. apply quiet_pure.
    intros [refused|g] Hg; [done|]. assert (draft_ok g) as Hok.
    { unfold validate_and_fill_update in Hg. repeat (case_match; [done|]). destruct (check_common_shape _ _); [by apply semantics_ok in Hg | done]. }
    apply repo_rows. by apply rows_call; [by apply update_employee_keeps|].
  - unfold dismiss_handler. rows_on.
  - unfold listOrders. rows_on.
  - unfold createOrder. cbv zeta. rows_on.
  - unfold generateOrderDocument. rows_on.
  - unfold listContracts. rows_on.
  - unfold createContract. cbv zeta. rows_on.
  - unfold generateContractDocument. apply permitted_rows. destruct (negb _); [done|]. destruct extra as [extra|]; [|done].
    apply rows_call; [apply gets_rows|]. intros [c|] w1; [|done]. apply lookup_rows. intros e o w2. apply quiet_pure. intros [b|] _; [|done]. rows_on.
  - unfold listVacations. rows_on.
  - unfold createVacation. cbv zeta. rows_on.
Qed.

(** What may run: these requests, everything that runs on documents, and whatever leaves
    the tables of personnel alone. *)
Inductive entered : World -> prog World () -> Prop :=
| enter_request w r : entered w (void (handle r))
| enter_documents w p : DocumentFlow.request tree version_output sha256_hex (docs_store w) p -> entered w (zoom docs_store with_store p)
| enter_outside w f : (forall w', docs_store (f w') = docs_store w' /\ staff (f w') = staff w' /\ contracts (f w') = contracts w' /\
                        orders (f w') = orders w' /\ vacations (f w') = vacations w' /\ h_seq (f w') = h_seq w') -> entered w (Step f (fun _ => mret tt)).

Lemma docs_zoom_rows {A} (p : prog Store A) w : quiet good evolves p (docs_store w) -> calmly (zoom docs_store with_store p) w.
Proof.
  revert w. induction p as [r|next k IH]; intros w; cbn [zoom quiet ok]; [done|]. intros H w1 O G.
  destruct (H (docs_store w1)) as (D & E & K); [apply O | apply G|].
  destruct (docs_moves w1 (next (docs_store w1)) G D E) as [G1 O1]. split; [done|]. split; [done|]. by apply IH.
Qed.

Lemma entered_rows w p : entered w p -> calmly p w.
Proof.
  intros [w0 r | w0 q Hq | w0 f Hf].
  - unfold void. apply quiet_bind; [exact _ | apply handle_rows | intros a w1; apply quiet_done].
  - apply docs_zoom_rows. by eapply DocumentFlow.request_quiet.
  - intros w1 _ [D I C U Ct Or Va]. destruct (Hf w1) as (E1 & E2 & E3 & E4 & E5 & E6).
    assert (forall org id, employed org id w1 -> employed org id (f w1)) as Em by (intros org id; apply employed_later; rewrite E2; by eauto).
    split; [|split; [|done]].
    + constructor; rewrite ?E1, ?E2, ?E3, ?E4, ?E5, ?E6; try done.
      * intros id c Hc. apply Em. by eapply Ct.
      * intros id o Ho. destruct (Or id o Ho). by split; [apply Em|].
      * intros id v Hv. destruct (Va id v Hv). by split; [apply Em|].
    + constructor; rewrite ?E1, ?E2, ?E3, ?E4, ?E5, ?E6; try done; by eauto.
Qed.

(** C10: Personnel records stay in order.  From a consistent store, let hirings, changes,
    dismissals, orders, contracts, vacations, the documents made from them and renders
    interleave in any way: at every moment each employee has a valid number that no
    colleague has, a positive salary within the range of amounts, and a date of dismissal
    exactly when dismissed; every contract, order and vacation is of somebody of its own
    organization, of a known kind, and no vacation ends before it starts.  Nobody leaves
    the roster, changes employer or date of hire, or comes back from a dismissal; no
    contract or vacation changes, and of an order only the document it names. *)
Theorem personnel_kept w w' ps : sound w -> rtc (turn entered) (w, []) (w', ps) ->
  (forall id e, staff w' !! id = Some e -> card_ok e) /\
  (forall i j e e', staff w' !! i = Some e -> staff w' !! j = Some e' -> e_org e = e_org e' -> iin e = iin e' -> i = j) /\
  (forall id o, orders w' !! id = Some o -> employed (o_org o) (o_employee o) w' /\ one_of (o_kind o) order_kinds = true) /\
  (forall id c, contracts w' !! id = Some c -> employed (c_org c) (c_employee c) w') /\
  (forall id v, vacations w' !! id = Some v ->
    employed (a_org v) (a_employee v) w' /\ 0 < a_days v /\ one_of (a_kind v) vacation_kinds = true /\ Payroll.date_le (a_starts v) (a_ends v) = true) /\
  onward w w'.
Proof.
  intros G H. destruct (pool_keeps sound onward entered (fun w p _ => entered_rows w p) (w, []) (w', ps) H) as ([D I C U Ct Or Va] & O & _);
    [exact G | by constructor|]. by split_and!.
Qed.

End Kept.

(** ** Whom payroll pays *)

(** An employee as the payroll reads the row. *)
Definition payroll_row (x : string * Employee) : Payroll.Employee :=
  Payroll.mkEmployee x.1 (e_org x.2) (salary x.2) (hired x.2) (dismissed x.2) (deduction x.2) (exempt x.2) (e_status x.2) (e_created x.2).

(** The payroll tables over this roster. *)
Definition same_roster (p : Payroll.PayDB) (w : World) : Prop := Payroll.pd_employees p ≡ₚ map payroll_row (map_to_list (staff w)).

Definition paid (org from to id : string) (p : Payroll.PayDB) : Prop :=
  In id (map Payroll.emp_id (Payroll.list_employed_during org from to p)).

Section Paid.
Context `{PG : Postgres} `{RD : Renderer} `{MP : MergePatch}.

(** Of whom the roster has a card, the payroll pays those whose employment overlaps the period. *)
Definition overlaps (from to : string) (e : Employee) : bool :=
  Payroll.date_le (hired e) to && match dismissed e with Some d => Payroll.date_le from d | None => String.eqb (e_status e) "active" end.

Lemma paid_iff org from to id p w : same_roster p w ->
  paid org from to id p <-> exists e, staff w !! id = Some e /\ e_org e = org /\ overlaps from to e = true.
Proof.
  intros R. unfold paid, Payroll.list_employed_during. rewrite in_map_iff. split.
  - intros (x & <- & Hx). apply list_elem_of_In in Hx. rewrite stable_sort_perm in Hx. apply list_elem_of_In, filter_In in Hx as [Hx Hc].
    apply list_elem_of_In in Hx. rewrite R in Hx. apply elem_of_map in Hx as ([i e] & -> & Hi). apply elem_of_map_to_list in Hi.
    apply andb_true_iff in Hc as [[Ho%String.eqb_eq Hh]%andb_true_iff Hd]. exists e. split; [done|]. split; [done|]. unfold overlaps. cbn in Hh, Hd. by rewrite Hh, Hd.
  - intros (e & He & <- & Hov). exists (payroll_row (id, e)). split; [done|]. apply list_elem_of_In. rewrite stable_sort_perm.
    apply list_elem_of_In, filter_In. split.
    + apply list_elem_of_In. rewrite R. apply elem_of_map. exists (id, e). split; [done | by apply elem_of_map_to_list].
    + unfold overlaps in Hov. apply andb_true_iff in Hov as [H1 H2]. cbn. by rewrite String.eqb_refl, H1, H2.
Qed.

Lemma dismissal_inv ctx id body rep w w' : alone (dismiss_handler ctx id (Some body)) w = (Ok rep, w') -> http rep = 200 ->
  exists e d s, text_field "dismissed_on" body = Some s /\ date_in s = Some d /\ staff w !! Requests.uuid_key id = Some e /\ e_org e = ctx_org ctx /\
    e_status e = "active" /\ w' = with_staff (insert (Requests.uuid_key id) (dismissed_at d e)) w.
Proof.
  unfold dismiss_handler, DocumentFlow.permitted. destruct (Agent.allows _ _ _); [|by intros [= <- <-]]. destruct (negb _); [by intros [= <- <-]|].
  cbn [parsed_body]. unfold Validation.string_if_there, required. cbn [foldl]. unfold Validation.require, Validation.present.
  destruct (member "dismissed_on" body) as [j|] eqn:Ej; [|by intros [= <- <-]]. destruct j; try (by intros [= <- <-]).
  unfold dated, text_or, text_field. rewrite Ej. cbv zeta. intros H Hr.
  destruct (Validation.is_valid_date s) as [[]|e|]; [|by injection H as <- <- | done..]. rewrite pure_ok in H.
  unfold with_repo_errors in H. rewrite alone_catch in H. destruct (alone _ w) as [[r|x|] w1] eqn:E in H; [|by injection H as <- <-; destruct (repo_reply_status x) as [F|[F|F]]; rewrite F in Hr|done].
  injection H as -> ->. rewrite alone_bind, alone_atomic in E. unfold dismiss_employee in E.
  destruct (date_in s) as [d|] eqn:Ed; [|done]. destruct (employee_in _ _ w) as [e|] eqn:He; [|by injection E as <- <-].
  destruct (String.eqb_spec (e_status e) "active"); [|by injection E as <- <-]. injection E as _ <-. apply employee_in_Some in He as [He Ho].
  by exists e, d, s.
Qed.

(** C11: A dismissal ends the pay, from its date on and of nobody else.  When an employee
    is dismissed, the payroll of a period reads them exactly when they were hired by its
    end and the period starts no later than the date of dismissal; whoever else was
    paid for a period is still paid for it, and nobody new is. *)
Theorem dismissal_ends_pay ctx id body rep w w' p p' : alone (dismiss_handler ctx id (Some body)) w = (Ok rep, w') -> http rep = 200 ->
  same_roster p w -> same_roster p' w' ->
  exists e d s, text_field "dismissed_on" body = Some s /\ date_in s = Some d /\ staff w !! Requests.uuid_key id = Some e /\ e_org e = ctx_org ctx /\
    forall from to,
    (paid (ctx_org ctx) from to (Requests.uuid_key id) p' <-> Payroll.date_le (hired e) to = true /\ Payroll.date_le from d = true) /\
    (forall org other, other <> Requests.uuid_key id -> paid org from to other p' <-> paid org from to other p).
Proof.
  intros H Hr R R'. destruct (dismissal_inv _ _ _ _ _ _ H Hr) as (e & d & s & Hs & Hd & He & Ho & _ & ->).
  exists e, d, s. do 4 (split; [done|]). intros from to. split.
  - rewrite (paid_iff _ _ _ _ _ _ R'). cbn [staff with_staff]. rewrite lookup_insert_eq. split.
    + intros (x & [= <-] & _ & Hov). by apply andb_true_iff in Hov.
    + intros [H1 H2]. exists (dismissed_at d e). split; [done|]. split; [done|]. unfold overlaps. cbn. by rewrite H1, H2.
  - intros org other N. rewrite (paid_iff _ _ _ _ _ _ R), (paid_iff _ _ _ _ _ _ R'). cbn [staff with_staff]. by rewrite lookup_insert_ne.
Qed.
End Paid.

(** ** The documents *)

Section Made.
Context `{PG : Postgres} `{RD : Renderer} `{MP : MergePatch}.
Context (tree : Registry.Tree).

Definition same_documents (s s' : Store) : Prop :=
  docs s' = docs s /\ vers s' = vers s /\ links s' = links s /\ queue s' = queue s /\ seq s' = seq s.

(** The rows a document leaves, and the render it queues. *)
Lemma create_document_spec q ty org slug info input after w rep w' : good (docs_store w) ->
  (forall d w1 w2, alone (after d) w1 = (Ok tt, w2) -> same_documents (docs_store w1) (docs_store w2)) ->
  alone (create_document q ty org slug info input after) w = (Ok rep, w') ->
  exists d vid v s1 w2, http rep = 202 /\ docs (docs_store w) !! d = None /\ option_map d_type (docs (docs_store w2) !! d) = Some ty /\ vers (docs_store w') !! vid = Some v /\ v_doc v = d /\ v_snapshot v = Some input /\
    queue (docs_store w') = (queue (docs_store w) ++ if q then [DocumentFlow.render_payload org d vid slug input] else [])%list /\
    alone (after d) (with_store s1 w) = (Ok tt, w2) /\ exists s3, w' = with_store s3 w2 /\ held s3 = held (docs_store w2) /\ docs s3 = docs (docs_store w2).
Proof.
  intros G Ha E. unfold create_document in E. apply step_Ok in E as (document & w1 & E1 & E). unfold on_docs in E1.
  pose proof (create_keeps org ty "generated" "draft" None (Some (Registry.slug info)) (Some (Registry.version_str info)) (Some input) None _ G) as [G1 _].
  destruct (create _ _ _ _ _ _ _ _ _ (docs_store w)) as [rd s1] eqn:Ec. injection E1 as -> <-. cbn [snd] in G1. unfold create in Ec.
  destruct (negb _); [discriminate|]. destruct (_ || _); [discriminate|]. set (did := gen_random_uuid (seq (docs_store w))) in *.
  set (r := mkDoc _ _ _ _ _ _ _ _ _) in *. injection Ec as <- Es1. cbn [doc_id Documents.document] in E.
  rewrite alone_bind in E. destruct (alone (after did) (with_store s1 w)) as [[[]|e|] w2] eqn:E2; [|done..].
  destruct (Ha _ _ _ E2) as (Ed & Ev & El & Eq & Esq). change (docs_store (with_store s1 w)) with s1 in *.
  pose proof (frame_good s1 (docs_store w2) G1 Ed Ev El (Nat.eq_le_incl _ _ (eq_sym Esq))) as G2.
  apply step_Ok in E as (first & w3 & E3 & E). unfold on_docs in E3.
  assert (docs (docs_store w2) !! did = Some r) as Hr by (rewrite Ed, <- Es1; cbn; apply lookup_insert_eq).
  destruct (latest_is_newest (docs_store w2) org did r G2 Hr eq_refl) as (vid & v & Elv & Hv & Hd & Ho & Hn). rewrite Elv in E3. injection E3 as <- <-.
  apply step_Ok in E as (b & w4 & E4 & E). unfold on_docs in E4. change (docs_store (with_store (docs_store w2) w2)) with (docs_store w2) in E4.
  rewrite DocumentFlow.submit_frame in E4. injection E4 as <- <-. injection E as <- <-.
  exists did, vid, v, s1, w2. split; [done|]. split; [by apply fresh_doc|]. split; [by rewrite Hr|]. split; [exact Hv|]. split; [done|]. split; [|split; [cbn; rewrite Eq, <- Es1; done|]].
  - rewrite Ev, <- Es1 in Hv. cbn [vers next_ids with_vers] in Hv. apply lookup_insert_Some in Hv as [[_ <-]|[_ Hv]]; [done|].
    destruct (good_fk _ G vid v Hv) as (r0 & Hr0 & _). pose proof (fresh_doc (docs_store w) (seq (docs_store w)) G (le_n _)) as F. fold did in F.
    rewrite Hd in Hr0. congruence.
  - split; [done|]. eexists. split; [reflexivity|]. done.
Qed.

Lemma attach_frame org id d w1 b w2 : attach_document org id d w1 = (Ok b, w2) ->
  same_documents (docs_store w1) (docs_store w2) /\
  match order_in id org w1 with
  | Some o => b = true /\ orders w2 = <[id := naming d o]> (orders w1) /\ d ∈ held (docs_store w2)
  | None => b = false /\ w2 = w1
  end.
Proof.
  unfold attach_document. destruct (order_in id org w1) as [o|]; [|by intros [= <- <-]]. destruct (negb _); [done|]. intros [= <- <-].
  split; [done|]. split; [done|]. split; [done|]. cbn. set_solver.
Qed.

(** The paths on file, whatever the body of the request says. *)
Lemma merged_cases input extra allowed k w rep w' : alone (merged input extra allowed k) w = (Ok rep, w') -> http rep = 202 ->
  exists j, alone (k j) w = (Ok rep, w') /\ forall qs, InputPolicy.clear_of allowed qs = true -> walk j qs = walk input qs.
Proof.
  unfold merged. destruct (InputPolicy.merge_allowed_extra _ _ _) as [e|j] eqn:E; [by intros [= <- <-]|]. intros H _. exists j. split; [done|].
  intros qs Hq. by eapply InputPolicy.merge_clear.
Qed.

Lemma generate_cases jr q org slug input after w rep w' : alone (finish_generate_document tree jr q org slug input after) w = (Ok rep, w') -> http rep = 202 ->
  exists info, Registry.latest tree slug = Ok (Some info) /\ schema_error (Registry.schema info) input = None /\
    alone (create_document q "hr" org slug info input after) w = (Ok rep, w').
Proof.
  unfold finish_generate_document. intros H Hr. destruct (Registry.latest tree slug) as [[info|]|e|]; [| by injection H as <- <- | done..].
  rewrite pure_ok in H. destruct (schema_error _ _) eqn:Es; [by injection H as <- <-|]. destruct (negb jr); [by injection H as <- <-|].
  exists info. split; [done|]. split; [done|]. by apply with_repo_errors_202 in H.
Qed.

Lemma lookup_cases org e k w rep w' : alone (lookup_employee_and_org org e k) w = (Ok rep, w') -> http rep = 202 ->
  exists x o, employee_in e org w = Some x /\ companies w !! org = Some o /\ alone (k x o) w = (Ok rep, w').
Proof.
  unfold lookup_employee_and_org. intros H Hr. rewrite alone_bind in H. cbn [alone atomic gets fst snd] in H.
  destruct (employee_in e org w) as [x|]; [|by injection H as <- <-]. rewrite alone_bind in H. cbn [alone atomic gets fst snd] in H.
  destruct (companies w !! org) as [o|]; [|by injection H as <- <-]. by exists x, o.
Qed.

(** What both documents say of the two sides. *)
Definition parties_on (e : Employee) (o : Tenancy.Organization) (j : json) : Prop :=
  walk j ["employer"; "name"] = Some (JString (Tenancy.name o)) /\ walk j ["employer"; "bin"] = Some (JString (Tenancy.bin o)) /\
  walk j ["employee"; "full_name"] = Some (JString (full_name e)) /\ walk j ["employee"; "iin"] = Some (JString (iin e)) /\
  walk j ["employee"; "position"] = Some (JString (position e)).

(** A labour contract prints what is on file.  When a contract is accepted for
    printing, whatever fields the request adds, the input that is stored with the new
    document and queued for it has the names and numbers of the two sides as they are on
    file, the dates of the contract, and the salary of the employee three times over:
    in figures, in Russian words and in Kazakh words, each of which reads back as that salary. *)
Theorem contract_prints_its_record jr q ctx id extra w rep w' : good (docs_store w) ->
  alone (generateContractDocument tree jr q ctx id extra) w = (Ok rep, w') -> http rep = 202 ->
  exists c e o d vid v input, contract_in (Requests.uuid_key id) (ctx_org ctx) w = Some c /\ employee_in (c_employee c) (ctx_org ctx) w = Some e /\
    companies w !! ctx_org ctx = Some o /\ docs (docs_store w) !! d = None /\ vers (docs_store w') !! vid = Some v /\ v_doc v = d /\ v_snapshot v = Some input /\
    queue (docs_store w') = (queue (docs_store w) ++ if q then [DocumentFlow.render_payload (ctx_org ctx) d vid "labor_contract" input] else [])%list /\
    parties_on e o input /\ walk input ["number"] = Some (JString (c_number c)) /\
    walk input ["signed_on"] = Some (JString (iso_to_ddmmyyyy (signed_on c))) /\ walk input ["starts_on"] = Some (JString (iso_to_ddmmyyyy (c_starts c))) /\
    (exists figure, walk input ["salary_tenge"] = Some (JString figure) /\ Format.format_tiyn_ru (salary e) = Ok figure) /\
    (exists ru, walk input ["salary_words"] = Some (JString ru) /\ Words.read_ru ru = Some (salary e)) /\
    (exists kk, walk input ["salary_words_kk"] = Some (JString kk) /\ Words.read_kk kk = Some (salary e)).
Proof.
  intros G H Hr. unfold generateContractDocument, DocumentFlow.permitted in H. destruct (Agent.allows _ _ _); [|by injection H as <- <-].
  destruct (negb _); [by injection H as <- <-|]. destruct extra as [extra|]; [|by injection H as <- <-].
  rewrite alone_bind in H. cbn [alone atomic gets fst snd] in H. destruct (contract_in _ _ w) as [c|] eqn:Hc; [|by injection H as <- <-].
  apply lookup_cases in H as (e & o & He & Ho & H); [|done]. destruct (contract_input c e o) as [[base|]|x|] eqn:Eb; [|by injection H as <- <-|done..].
  rewrite pure_ok in H. apply merged_cases in H as (input & H & Hw); [|done]. apply generate_cases in H as (info & _ & _ & H); [|done].
  apply create_document_spec in H as (d & vid & v & s1 & w2 & _ & N & _ & V & D & I & Q & _); [|done | by intros ? ? ? [= <-]].
  exists c, e, o, d, vid, v, input. do 8 (split; [done|]). unfold parties_on. rewrite !Hw by (vm_compute; reflexivity).
  unfold contract_input in Eb. apply bind_Ok_inv in Eb as (figure & Ef & Eb). destruct (Words.to_words_ru (salary e)) as [ru|x|] eqn:Eru; [|cbn in Eb; by destruct (bool_decide _)|done].
  rewrite bind_ok in Eb. destruct (Words.to_words_kk (salary e)) as [kk|x|] eqn:Ekk; [|cbn in Eb; by destruct (bool_decide _)|done].
  rewrite bind_ok in Eb. injection Eb as <-.
  assert (0 <= salary e <= Words.kMaxTiyn) as Hs.
  { unfold Words.to_words_ru, Words.words_range_error in Eru. destruct (Z.ltb_spec (salary e) 0); [done|]. destruct (Z.ltb_spec Words.kMaxTiyn (salary e)); [done | lia]. }
  destruct (Words.to_words_ru_in_range _ Hs) as (ru' & E1 & R1). destruct (Words.to_words_kk_in_range _ Hs) as (kk' & E2 & R2).
  assert (ru' = ru) as -> by congruence. assert (kk' = kk) as -> by congruence.
  destruct (c_ends c); (do 4 (split; [repeat split; reflexivity|]); split; [by exists figure|]; split; [by exists ru | by exists kk]).
Qed.

(** An order prints what is on file, and from then on names the document, which may not be deleted. *)
Theorem order_prints_its_record jr q ctx id extra w rep w' : good (docs_store w) ->
  alone (generateOrderDocument tree jr q ctx id extra) w = (Ok rep, w') -> http rep = 202 ->
  exists o e company d vid v input, order_in (Requests.uuid_key id) (ctx_org ctx) w = Some o /\ employee_in (o_employee o) (ctx_org ctx) w = Some e /\
    companies w !! ctx_org ctx = Some company /\ docs (docs_store w) !! d = None /\ vers (docs_store w') !! vid = Some v /\ v_doc v = d /\ v_snapshot v = Some input /\
    queue (docs_store w') = (queue (docs_store w) ++ if q then [DocumentFlow.render_payload (ctx_org ctx) d vid "hr_order" input] else [])%list /\
    orders w' = <[Requests.uuid_key id := naming d o]> (orders w) /\ d ∈ held (docs_store w') /\
    parties_on e company input /\ walk input ["kind"] = Some (JString (o_kind o)) /\ walk input ["number"] = Some (JString (o_number o)) /\
    walk input ["issued_on"] = Some (JString (iso_to_ddmmyyyy (issued_on o))) /\
    walk input ["effective_from"] = Some (JString (iso_to_ddmmyyyy (effective_from o))).
Proof.
  intros G H Hr. unfold generateOrderDocument, DocumentFlow.permitted in H. destruct (Agent.allows _ _ _); [|by injection H as <- <-].
  destruct (negb _); [by injection H as <- <-|]. destruct extra as [extra|]; [|by injection H as <- <-].
  rewrite alone_bind in H. cbn [alone atomic gets fst snd] in H. destruct (order_in _ _ w) as [o|] eqn:Hc; [|by injection H as <- <-].
  apply lookup_cases in H as (e & company & He & Ho & H); [|done].
  apply merged_cases in H as (input & H & Hw); [|done]. apply generate_cases in H as (info & _ & _ & H); [|done].
  apply create_document_spec in H as (d & vid & v & s1 & w2 & _ & N & _ & V & D & I & Q & A & s3 & -> & Hh & _); [|done|].
  2: { intros d w1 w2 E. apply step_Ok in E as (b & w3 & E & [= <-]). by destruct (attach_frame _ _ _ _ _ _ E). }
  apply step_Ok in A as (b & w3 & A & [= <-]). apply attach_frame in A as [_ A]. change (order_in (Requests.uuid_key id) (ctx_org ctx) (with_store s1 w)) with (order_in (Requests.uuid_key id) (ctx_org ctx) w) in A.
  rewrite Hc in A. destruct A as (_ & Ao & Ah). exists o, e, company, d, vid, v, input. do 8 (split; [done|]). split; [exact Ao|]. split; [by cbn; rewrite Hh|].
  unfold parties_on. rewrite !Hw by (vm_compute; reflexivity). unfold order_input. destruct (effective_to o); repeat split; reflexivity.
Qed.
End Made.

(** ** Personnel at work *)

Module Example.
Import JournalDb.Reference.

#[local] Existing Instance uuid_server.
#[local] Instance printing : Renderer := { schema_error _ _ := None; typst_compile run _ _ := Some ("%PDF run " +:+ dec (Z.of_nat run)) }.

Definition form_dir : list (string * option Registry.VersionDir) := [("v1", Some (Registry.mkDir (Some "= Form") (Some (Some (JObject [])))))].
Definition disk : Registry.Tree := {["hr_order" := form_dir; "labor_contract" := form_dir]}.
Definition company : Tenancy.Organization :=
  Tenancy.mkOrganization "980740000123" "TOO Alatau" "snr_simplified" true "active" "Almaty" "A. Akhmetov" "Director" "" 0.
Definition start : World := mkWorld DocumentFlow.Example.empty_store ∅ ∅ ∅ ∅ {["org" := company]} 0 100.
Definition clerk : OrgContext := mkCtx "org" "hr" "someone".

Definition card : list (string * json) :=
  [("first_name", JString "Dana"); ("iin", JString "900101300017"); ("last_name", JString "Serikova"); ("opvr_exempt", JBool true);
   ("position", JString "accountant"); ("salary", JString "300000.00")].
Definition hired_card : json := JObject (obj_set "hired_on" (JString "2026-01-12") card).
Definition hiring : prog World Reply := create_handler clerk (Some hired_card).
Definition leaving (day : string) : json := JObject [("dismissed_on", JString day)].
Definition dismissing (id day : string) : prog World Reply := dismiss_handler clerk id (Some (leaving day)).
Definition terms_asked : json :=
  JObject [("employee_id", JString (id_text 0)); ("number", JString "7"); ("signed_on", JString "2026-01-12"); ("starts_on", JString "2026-01-12")].
Definition contracting : prog World Reply := createContract clerk (Some terms_asked).
Definition extra : list (string * json) := [("employer", JObject [("address", JString "Almaty"); ("director", JString "A. Akhmetov")])].
Definition printing_it (x : list (string * json)) : prog World Reply := generateContractDocument disk true true clerk (id_text 1) (Some x).

Definition hired_one : World := (alone hiring start).2.
Definition contracted : World := (alone contracting hired_one).2.
Definition printed_one : World := (alone (printing_it extra) contracted).2.
Definition status_of (x : outcome Reply * World) : Z := match x.1 with Ok r => http r | _ => 0 end.
Definition first_card (w : World) : option Employee := staff w !! id_text 0.

Example personnel_flow :
  (status_of (alone hiring start), status_of (alone contracting hired_one), status_of (alone (printing_it extra) contracted),
   status_of (alone (printing_it [("salary_words", JString "x")]) contracted), length (queue (docs_store printed_one)),
   status_of (alone hiring hired_one)) = (201, 201, 202, 422, 1%nat, 409).
Proof. vm_compute. reflexivity. Qed.

(** A PATCH that says nothing of a flag takes it away. *)
Example patch_resets_flags :
  (option_map exempt (first_card hired_one),
   option_map exempt (first_card (alone (patch_handler clerk (id_text 0) (Some (JObject (List.filter (fun e => negb (String.eqb e.1 "opvr_exempt")) card)))) hired_one).2))
  = (Some true, Some false).
Proof. vm_compute. reflexivity. Qed.

(** Of the days of a vacation only the low 32 bits are kept. *)
Definition vacation (days : Z) : prog World Reply :=
  createVacation clerk (Some (JObject [("days", JInt days); ("employee_id", JString (id_text 0)); ("ends_on", JString "2026-07-14");
                                       ("kind", JString "annual"); ("starts_on", JString "2026-07-01")])).
Example days_cut :
  (status_of (alone (vacation (2 ^ 32 + 14)) hired_one), map (fun x => a_days x.2) (map_to_list (vacations (alone (vacation (2 ^ 32 + 14)) hired_one).2))) = (201, [14]).
Proof. vm_compute. reflexivity. Qed.

(** Nobody looks whether a dismissal comes after the hiring. *)
Example dismissed_before_hired :
  option_map dismissed (first_card (alone (dismissing (id_text 0) "2025-06-30") hired_one).2) = Some (Some "2025-06-30").
Proof. vm_compute. reflexivity. Qed.

Lemma start_in_order : sound start.
Proof.
  constructor; cbn; try (intros *; rewrite ?lookup_empty; done).
  - exact DocumentFlow.Example.empty_good.
  - intros id. rewrite !lookup_empty. by intros [[? ?]|[[? ?]|[[? ?]|[? ?]]]].
Qed.

Lemma contracted_in_order : sound contracted.
Proof.
  destruct (quiet_alone sound onward hiring start (handle_rows disk (CreateStaff clerk (Some hired_card)) start) start_in_order) as [G _].
  exact (proj1 (quiet_alone sound onward contracting hired_one (handle_rows disk (CreateContract clerk (Some terms_asked)) hired_one) G)).
Qed.

Lemma personnel_kept_witness :
  let s := schedule [0; 0; 0; 0; 0; 0]%nat (contracted, [void (dismissing (id_text 0) "2026-03-31")]) in
  option_map e_status (first_card s.1) = Some "dismissed" /\ (forall id e, staff s.1 !! id = Some e -> card_ok e).
Proof.
  intros s. split; [vm_compute; reflexivity|].
  apply (proj1 (personnel_kept disk None DocumentFlow.Example.digest contracted s.1 s.2 contracted_in_order
    ltac:(rewrite <- surjective_pairing; apply schedule_reached; apply Forall_cons_2; [|apply Forall_nil_2];
          exact (enter_request disk None DocumentFlow.Example.digest contracted (DismissStaff clerk (id_text 0) (Some (leaving "2026-03-31"))))))).
Defined.

Definition roster_of (w : World) : Payroll.PayDB := Payroll.mkPayDB [] [] (map payroll_row (map_to_list (staff w))) [] [] ∅ {["org"]} 0 0.

Lemma dismissal_ends_pay_witness :
  exists rep w', alone (dismissing (id_text 0) "2026-03-31") contracted = (Ok rep, w') /\
    (paid "org" "2026-03-01" "2026-03-31" (id_text 0) (roster_of w') <-> True) /\ ~ paid "org" "2026-04-01" "2026-04-30" (id_text 0) (roster_of w').
Proof.
  destruct (alone (dismissing (id_text 0) "2026-03-31") contracted) as [r w'] eqn:E.
  assert (status_of (r, w') = 200) as S by (rewrite <- E; vm_compute; reflexivity). destruct r as [rep|e|]; [|discriminate..].
  exists rep, w'. split; [reflexivity|].
  destruct (dismissal_ends_pay clerk (id_text 0) (leaving "2026-03-31") rep contracted w' (roster_of contracted) (roster_of w') E S (reflexivity _) (reflexivity _))
    as (e & d & s & Hs & Hd & He & _ & K).
  assert (s = "2026-03-31") as -> by (vm_compute in Hs; congruence). assert (d = "2026-03-31") as -> by (vm_compute in Hd; congruence).
  assert (Payroll.date_le (hired e) "2026-03-31" = true) as Hh.
  { assert (option_map hired (first_card contracted) = Some "2026-01-12") as F by (vm_compute; reflexivity). unfold first_card in F.
    change (Requests.uuid_key (id_text 0)) with (id_text 0) in He. rewrite He in F. injection F as ->. reflexivity. }
  split.
  - split; [done|]. intros _. by apply (proj1 (K "2026-03-01" "2026-03-31")).
  - intros Hp. by apply (proj1 (K "2026-04-01" "2026-04-30")) in Hp as [_ ?].
Defined.

Lemma contract_prints_its_record_witness : exists vid v input ru, vers (docs_store printed_one) !! vid = Some v /\ v_snapshot v = Some input /\
  walk input ["salary_words"] = Some (JString ru) /\ Words.read_ru ru = Some 30000000.
Proof.
  destruct (alone (printing_it extra) contracted) as [r w'] eqn:E.
  assert (status_of (r, w') = 202) as S by (rewrite <- E; vm_compute; reflexivity). destruct r as [rep|e|]; [|discriminate..].
  destruct (contract_prints_its_record disk true true clerk (id_text 1) (Some extra) contracted rep w' (sound_docs _ contracted_in_order) E S)
    as (c & e & o & d & vid & v & input & Hc & He & _ & _ & V & _ & I & _ & _ & _ & _ & _ & _ & (ru & R1 & R2) & _).
  exists vid, v, input, ru. unfold printed_one. rewrite E. split; [exact V|]. split; [exact I|]. split; [exact R1|]. rewrite R2. f_equal.
  assert (option_map c_employee (contract_in (Requests.uuid_key (id_text 1)) "org" contracted) = Some (id_text 0)) as F1 by (vm_compute; reflexivity).
  change (ctx_org clerk) with "org" in *. rewrite Hc in F1. injection F1 as F1. rewrite F1 in He. apply employee_in_Some in He as [He _].
  assert (option_map salary (first_card contracted) = Some 30000000) as F by (vm_compute; reflexivity). unfold first_card in F. rewrite He in F. by injection F.
Defined.
End Example.
End Hr.
