(* ===== verification/Paydesk.v ===== *)
(** * The payroll desk

    The handlers of src/api/PayrollController.hpp over the payroll service, the roster of
    src/hr/EmployeeRepository.hpp and the documents: listing, calculating, approving and
    posting runs, and the payslips made of them, which the payroll and nobody else may read. *)
From Stdlib Require Import ZArith Lia Ascii String.
From stdpp Require Import relations sorting.
From S2P Require Import Prelude Money Ledger PayrollCalculator JournalDb PayrollService Json Utils Threads Dates Agent Requests.
From S2P Require Import InputPolicy Templates Documents DocumentFlow Tenancy Hr.
Import Json Threads Http Requests Documents.
Open Scope string_scope.
Open Scope Z_scope.

Module Paydesk.

(** ** The store *)

(** The payroll tables with the journal; the roster, the organizations and the documents. *)
Record World := mkWorld { pay : Payroll.PWorld; hr : Hr.World }.

(** The roster and the organizations are one table each, whoever reads them. *)
Definition shared (w : World) : Payroll.PWorld :=
  let p := Payroll.pw_p (pay w) in
  Payroll.mkPW (Payroll.pw_w (pay w))
    (Payroll.mkPayDB (Payroll.pd_runs p) (Payroll.pd_slips p) (map Hr.payroll_row (map_to_list (Hr.staff (hr w)))) (Payroll.pd_rates p)
       (Payroll.pd_constants p) (Tenancy.tax_regime <$> Hr.companies (hr w)) (dom (Hr.companies (hr w))) (Payroll.pd_seq p) (Payroll.pd_now p))
    (Payroll.pw_env (pay w)).

Definition on_pay {A} (m : st Payroll.PWorld A) : st World A := fun w => let '(r, p) := m (shared w) in (r, mkWorld p (hr w)).
Definition put_hr (h : Hr.World) (w : World) : World := mkWorld (pay w) h.
Definition payroll (w : World) : Payroll.PayDB := Payroll.pw_p (pay w).

(** ** JSON *)

(** [to_json]: src/payroll/Payslip.hpp:73-91.  (Time stamps left out.) *)
Definition payslip_json (p : Payroll.Payslip) : json :=
  JObject [("employee_id", JString (Payroll.ps_employee p)); ("gross_tiyn", JInt (Payroll.ps_gross p)); ("id", JString (Payroll.ps_id p));
           ("ipn", JInt (Payroll.ps_ipn p)); ("net", JInt (Payroll.ps_net p)); ("opv", JInt (Payroll.ps_opv p)); ("opvr", JInt (Payroll.ps_opvr p));
           ("org_id", JString (Payroll.ps_org p)); ("osms", JInt (Payroll.ps_osms p)); ("run_id", JString (Payroll.ps_run p));
           ("so", JInt (Payroll.ps_so p)); ("social_tax", JInt (Payroll.ps_social p)); ("vosms", JInt (Payroll.ps_vosms p))].

(** The snapshot of the rates is kept as texts. *)
Definition snapshot_value (k v : string) : json :=
  if String.eqb k "effective_date" then JString v
  else if String.eqb k "social_tax_applies" then JBool (String.eqb v "true")
  else match stoll v with Ok z => JInt z | _ => JString v end.
Definition snapshot_json (l : list (string * string)) : json :=
  JObject (foldl (fun acc e => obj_set e.1 (snapshot_value e.1 e.2) acc) [] l).

(** [to_json]: src/payroll/Payslip.hpp:143-158.  (Time stamps left out.) *)
Definition run_json (r : Payroll.PayrollRun) : json :=
  JObject [("id", JString (Payroll.run_id r)); ("journal_entry_id", match Payroll.journal_entry_id r with Some e => JString e | None => JNull end);
           ("org_id", JString (Payroll.run_org r)); ("payslips", JArray (map payslip_json (Payroll.payslips r)));
           ("period_month", JInt (Payroll.period_month r)); ("period_year", JInt (Payroll.period_year r));
           ("rates_snapshot", snapshot_json (Payroll.rates_snapshot r)); ("status", JString (Payroll.run_status r))].

(** ** Lists *)

Definition of_year (org : string) (year : option string) (r : Payroll.PayrollRun) : bool :=
  String.eqb (Payroll.run_org r) org && match year with Some y => Payroll.period_year r =? parse_digits 0 y | None => true end.
Definition later_period (a b : Payroll.PayrollRun) : bool :=
  (Payroll.period_year b <? Payroll.period_year a) ||
  (Payroll.period_year a =? Payroll.period_year b) && (Payroll.period_month b <? Payroll.period_month a).

(** [list_filtered]: src/payroll/PayrollRepository.hpp:95-114. *)
Definition list_runs (org : string) (year : option string) (limit offset : nat) : st World (list Payroll.PayrollRun) :=
  gets (fun w => take limit (drop offset (stable_sort later_period (List.filter (of_year org year) (Payroll.pd_runs (payroll w)))))).

(** [count_filtered]: src/payroll/PayrollRepository.hpp:119-127. *)
Definition count_runs (org : string) (year : option string) : st World Z :=
  gets (fun w => Z.of_nat (length (List.filter (of_year org year) (Payroll.pd_runs (payroll w))))).

Definition find_run (id org : string) : st World (option Payroll.PayrollRun) := gets (fun w => Payroll.find_run_in_org id org (payroll w)).
Definition payslips_of (r : Payroll.PayrollRun) : st World (list Payroll.Payslip) := gets (fun w => Payroll.list_payslips r (payroll w)).

(** ** Handlers *)

Section Handlers.
Context `{PG : Postgres} `{RD : Renderer} `{MP : MergePatch}.
Context (tree : Registry.Tree).

Abbreviation permitted := (DocumentFlow.permitted (W := World)).

(** The years of a period: [kMinYear], [kMaxYear]. *)
Definition year_ok (y : Z) : bool := (2000 <=? y) && (y <=? 2100).

(** [is_plain_integer]: src/api/PayrollController.hpp:580-588. *)
Definition is_plain_integer (s : string) : bool := negb (String.eqb s "") && Nat.leb (size s) 9 && str_all is_digit s.

(** [parse_year_filter]: src/api/PayrollController.hpp:555-575. *)
Definition parse_year_filter (param : string) (k : option string -> prog World Reply) : prog World Reply :=
  if String.eqb param "" then k None
  else if negb (is_plain_integer param) then mret (one_error "year" "not_integer")
  else if negb (year_ok (parse_int param 0)) then mret (one_error "year" "out_of_range") else k (Some param).

(** [list]: src/api/PayrollController.hpp:205-222. *)
Definition list_ (ctx : OrgContext) (year_param limit_param offset_param : string) : prog World Reply :=
  permitted ctx "payroll" "read" (parse_year_filter year_param (fun year =>
    let page := parse_page_params limit_param offset_param 50 200 in
    with_repo_errors (
      rows ← atomic (list_runs (ctx_org ctx) year (Z.to_nat (limit page)) (Z.to_nat (offset page)));
      total ← atomic (count_runs (ctx_org ctx) year);
      mret (paginated (map run_json rows) total page)))).

(** [catch (const Payroll::MissingPayrollReference&)]. *)
Definition missing_reference (p : prog World Reply) : prog World Reply :=
  catch (fun e => if bool_decide (exn_cls e = MissingPayrollReference) then Ok (one_error "year" "missing_tax_reference") else Throw e) p.

Definition period_errors (year month : Z) : Validation.Errors :=
  let errs := if year_ok year then [] else Validation.add "year" "out_of_range" [] in
  if (month <? 1) || (12 <? month) then Validation.add "month" "out_of_range" errs else errs.

(** [calculate]: src/api/PayrollController.hpp:230-292. *)
Definition calculate (ctx : OrgContext) (parsed : option json) : prog World Reply :=
  permitted ctx "payroll" "write" (match parsed with
  | None => mret (refusal 400 "invalid_json")
  | Some body =>
      match Validation.int_if_there body "month" (Validation.int_if_there body "year" (Validation.require body "month" (Validation.require body "year" []))) with
      | [] =>
          let year := Hr.int_field "year" body in
          let month := Hr.int_field "month" body in
          match period_errors year month with
          | [] => with_repo_errors (missing_reference (
                    run ← atomic (on_pay (Payroll.calculate_run (ctx_org ctx) year month));
                    mret (wrapped 200 (run_json run))))
          | errs => mret (invalid errs 422)
          end
      | errs => mret (invalid errs 400)
      end
  end).

(** [approve]: src/api/PayrollController.hpp:298-319. *)
Definition approve (ctx : OrgContext) (id : string) : prog World Reply :=
  permitted ctx "payroll" "write" (
    if negb (is_valid_uuid id) then mret invalid_id
    else with_repo_errors (
      approved ← atomic (on_pay (Payroll.approve (ctx_org ctx) (Requests.uuid_key id)));
      mret match approved with Some r => wrapped 200 (run_json r) | None => refusal 404 "not_found" end)).

(** [postToJournal]: src/api/PayrollController.hpp:326-361. *)
Definition postToJournal (ctx : OrgContext) (id : string) : prog World Reply :=
  permitted ctx "payroll_posting" "write" (
    if negb (is_valid_uuid id) then mret invalid_id
    else with_repo_errors (
      run ← atomic (find_run (Requests.uuid_key id) (ctx_org ctx));
      match run with
      | None => mret (refusal 404 "not_found")
      | Some r =>
          slips ← atomic (payslips_of r);
          match slips with
          | [] => mret (refusal 409 "empty_run")
          | _ =>
              entry ← atomic (on_pay (Payroll.post_to_journal (ctx_org ctx) (Requests.uuid_key id) (user_id ctx)));
              mret (mkReply 200 "" (JObject [("entry_id", JString entry)]))
          end
      end)).

(** [listPayslips]: src/api/PayrollController.hpp:367-393. *)
Definition listPayslips (ctx : OrgContext) (id : string) : prog World Reply :=
  permitted ctx "payroll" "read" (
    if negb (is_valid_uuid id) then mret invalid_id
    else with_repo_errors (
      run ← atomic (find_run (Requests.uuid_key id) (ctx_org ctx));
      match run with
      | None => mret (refusal 404 "not_found")
      | Some r => slips ← atomic (payslips_of r); mret (mkReply 200 "" (JObject [("data", JArray (map payslip_json slips))]))
      end)).

Definition kMonthsRu : list string :=
  ["Январь"; "Февраль"; "Март"; "Апрель"; "Май"; "Июнь"; "Июль"; "Август"; "Сентябрь"; "Октябрь"; "Ноябрь"; "Декабрь"].

(** [period_label_ru]: src/api/PayrollController.hpp:602-619. *)
Definition period_label_ru (year month : Z) : string :=
  if (month <? 1) || (12 <? month) then to_string month +:+ "." +:+ to_string year
  else nth (Z.to_nat (month - 1)) kMonthsRu "" +:+ " " +:+ to_string year.

(** [payslip_allowed_extra_fields]: src/api/PayrollController.hpp:189-192. *)
Definition payslip_allowed_extra_fields : list string := [].

(** The amounts of a payslip under the names of the form. *)
Definition figures (p : Payroll.Payslip) : list (string * Z) :=
  [("gross_tenge", Payroll.ps_gross p); ("ipn", Payroll.ps_ipn p); ("net", Payroll.ps_net p); ("opv", Payroll.ps_opv p); ("opvr", Payroll.ps_opvr p);
   ("osms", Payroll.ps_osms p); ("so", Payroll.ps_so p); ("social_tax", Payroll.ps_social p); ("vosms", Payroll.ps_vosms p)].

Fixpoint in_print (l : list (string * Z)) : outcome (list (string * json)) :=
  match l with
  | [] => Ok []
  | (k, z) :: r => s ← Format.format_tiyn_ru z; rest ← in_print r; Ok ((k, JString s) :: rest)
  end.

(** [generatePayslip]: src/api/PayrollController.hpp:459-481.  The input of the form. *)
Definition payslip_input (run : Payroll.PayrollRun) (p : Payroll.Payslip) (e : Hr.Employee) (o : Tenancy.Organization) : outcome json :=
  amounts ← in_print (figures p);
  words ← Words.to_words_ru (Payroll.ps_net p);
  Ok (JObject (foldl (fun acc x => obj_set x.1 x.2 acc) []
    (("employee", Hr.person_json e) :: ("employer", Hr.employer_json o) :: ("net_words", JString words) ::
     ("period_label", JString (period_label_ru (Payroll.period_year run) (Payroll.period_month run))) :: amounts))).

Definition kPayslipSlug : string := "payslip".

(** [generatePayslip]: src/api/PayrollController.hpp:425-544.  From the payslip on. *)
Definition generate_for (jobs_ready queued : bool) (ctx : OrgContext) (employee : string) (extra : list (string * json))
    (run : Payroll.PayrollRun) (p : Payroll.Payslip) : prog World Reply :=
  found ← atomic (gets (fun w => Hr.employee_in employee (ctx_org ctx) (hr w)));
  match found with
  | None => mret (refusal 500 "internal_error")
  | Some e =>
      company ← atomic (gets (fun w => Hr.companies (hr w) !! ctx_org ctx));
      match company with
      | None => mret (refusal 500 "internal_error")
      | Some o =>
          base ← pure (payslip_input run p e o);
          match InputPolicy.merge_allowed_extra base extra payslip_allowed_extra_fields with
          | inl x => mret (one_error (InputPolicy.field x) (InputPolicy.err_code x))
          | inr input =>
              info ← pure (Registry.latest tree kPayslipSlug);
              match info with
              | None => mret (refusal 500 "internal_error")
              | Some info =>
                  match schema_error (Registry.schema info) input with
                  | Some _ => mret (one_error "input" "schema_validation_failed")
                  | None =>
                      if negb jobs_ready then mret (refusal 503 "jobs_disabled")
                      else with_repo_errors (zoom hr put_hr
                        (Hr.create_document queued DocumentFlow.kPayrollDocType (ctx_org ctx) kPayslipSlug info input (fun _ => mret tt)))
                  end
              end
          end
      end
  end.

(** [generatePayslip]: src/api/PayrollController.hpp:401-545.  The payslip is looked up by
    the text of the path, the employee by the identifier it spells. *)
Definition generatePayslip (jobs_ready queued : bool) (ctx : OrgContext) (id employee : string) (extra : option (list (string * json))) : prog World Reply :=
  permitted ctx "payroll" "write" (
    if negb (is_valid_uuid id) then mret invalid_id
    else if negb (is_valid_uuid employee) then mret (refusal 400 "invalid_employee_id")
    else match extra with
    | None => mret (refusal 400 "invalid_json")
    | Some extra =>
        found ← atomic (find_run (Requests.uuid_key id) (ctx_org ctx));
        match found with
        | None => mret (refusal 404 "not_found")
        | Some run =>
            slips ← atomic (payslips_of run);
            match List.find (fun p => String.eqb (Payroll.ps_employee p) employee) slips with
            | None => mret (refusal 404 "not_found")
            | Some p => generate_for jobs_ready queued ctx (Requests.uuid_key employee) extra run p
            end
        end
    end).
End Handlers.

(** ** What a payslip prints *)

Section Printed.
Context `{PG : Postgres} `{RD : Renderer} `{MP : MergePatch}.
Context (tree : Registry.Tree).

Lemma in_print_ok l : Forall (fun x => 0 <= x.2) l ->
  exists out, in_print l = Ok out /\ Forall2 (fun x e => e.1 = x.1 /\ exists s, e.2 = JString s /\ Format.format_tiyn_ru x.2 = Ok s) l out.
Proof.
  induction 1 as [|[k z] l Hz _ (out & E & F)]; [by exists []|]. cbn [in_print]. cbn in Hz.
  destruct (Format.format_tiyn_ru z) as [s|e|] eqn:Es.
  2,3: unfold Format.format_tiyn_ru in Es; destruct (Z.ltb_spec z 0); [lia | discriminate].
  rewrite bind_ok, E. exists ((k, JString s) :: out). split; [done|]. constructor; [|done]. split; [done|]. by exists s.
Qed.

(** A payslip the calculator made can always be printed, with each amount under its name. *)
Lemma payslip_input_ok run p e o : Payroll.slip_ok p ->
  exists j, payslip_input run p e o = Ok j /\ Hr.parties_on e o j /\
    walk j ["period_label"] = Some (JString (period_label_ru (Payroll.period_year run) (Payroll.period_month run))) /\
    Forall (fun x => exists s, walk j [x.1] = Some (JString s) /\ Format.format_tiyn_ru x.2 = Ok s) (figures p) /\
    exists ru, walk j ["net_words"] = Some (JString ru) /\ Words.read_ru ru = Some (Payroll.ps_net p).
Proof.
  intros (G & [G1 G2] & ? & ? & ? & ? & ? & ? & ? & ?).
  destruct (in_print_ok (figures p)) as (out & E & F); [unfold figures; repeat constructor; cbn; lia|].
  destruct (Words.to_words_ru_in_range (Payroll.ps_net p)) as (ru & Er & Rr).
  { unfold Words.kMaxTiyn, PayrollCalculator.Calculator.kMaxGrossTiyn in *. lia. }
  unfold payslip_input. rewrite E, bind_ok, Er, bind_ok. eexists. split; [reflexivity|]. unfold figures in F.
  repeat match goal with H : Forall2 _ (_ :: _) _ |- _ => inversion H; subst; clear H end.
  repeat match goal with H : Forall2 _ [] _ |- _ => inversion H; subst; clear H end.
  repeat match goal with H : _ /\ exists _, _ |- _ => destruct H as (? & ? & ? & ?) end.
  repeat match goal with y : string * json |- _ => destruct y; cbn in * end. subst. unfold Hr.parties_on, figures.
  split; [repeat split; reflexivity|]. split; [reflexivity|]. split; [|by exists ru].
  repeat (constructor; [eexists; split; [reflexivity | assumption]|]). constructor.
Qed.

Lemma put_hr_laws :
  (forall v w, hr (put_hr v w) = v) /\ (forall v v' w, put_hr v (put_hr v' w) = put_hr v w) /\ (forall w, put_hr (hr w) w = w).
Proof. split; [done|]. split; [done|]. by intros []. Qed.

Lemma find_slip_in employee run p d : Payroll.pay_inv d ->
  List.find (fun p => String.eqb (Payroll.ps_employee p) employee) (Payroll.list_payslips run d) = Some p ->
  Payroll.ps_employee p = employee /\ p ∈ Payroll.slips_of d (Payroll.run_id run) /\ Payroll.slip_ok p.
Proof.
  intros I H. apply List.find_some in H as [H ->%String.eqb_eq]. unfold Payroll.list_payslips in H.
  apply list_elem_of_In in H. rewrite stable_sort_perm in H. apply list_elem_of_In, filter_In in H as [H [E%String.eqb_eq _]%andb_true_iff].
  apply list_elem_of_In in H. split; [done|]. split; [by apply list_elem_of_filter|].
  exact (proj1 (Forall_forall _ _) (Payroll.pay_slips_ok _ I) _ H).
Qed.

(** What a request for a payslip finds when it is not refused. *)
Lemma payslip_found jr q ctx id employee extra w rep w' : Payroll.pay_inv (payroll w) ->
  alone (generatePayslip tree jr q ctx id employee extra) w = (Ok rep, w') -> http rep = 202 ->
  exists run p e o base input info, Payroll.find_run_in_org (Requests.uuid_key id) (ctx_org ctx) (payroll w) = Some run /\
    Payroll.ps_employee p = employee /\ p ∈ Payroll.slips_of (payroll w) (Payroll.run_id run) /\ Payroll.slip_ok p /\
    Hr.employee_in (Requests.uuid_key employee) (ctx_org ctx) (hr w) = Some e /\ Hr.companies (hr w) !! ctx_org ctx = Some o /\
    payslip_input run p e o = Ok base /\ (forall qs, InputPolicy.clear_of [] qs = true -> walk input qs = walk base qs) /\
    exists h, alone (Hr.create_document q DocumentFlow.kPayrollDocType (ctx_org ctx) kPayslipSlug info input (fun _ => mret tt)) (hr w) = (Ok rep, h) /\ w' = put_hr h w.
Proof.
  intros I H Hr. unfold generatePayslip, DocumentFlow.permitted in H. destruct (Agent.allows _ _ _); [|by injection H as <- <-].
  destruct (negb _); [by injection H as <- <-|]. destruct (negb _); [by injection H as <- <-|]. destruct extra as [extra|]; [|by injection H as <- <-].
  apply step_Ok in H as (found & w1 & [= <- <-] & H). destruct (Payroll.find_run_in_org _ _ _) as [run|] eqn:Er in H; [|by injection H as <- <-].
  apply step_Ok in H as (slips & w1 & [= <- <-] & H). destruct (List.find _ _) as [p|] eqn:Ep in H; [|by injection H as <- <-].
  destruct (find_slip_in _ _ _ _ I Ep) as (Ee & Hp & Hok). unfold generate_for in H.
  apply step_Ok in H as (x & w1 & [= <- <-] & H). destruct (Hr.employee_in _ _ _) as [e|] eqn:He in H; [|by injection H as <- <-].
  apply step_Ok in H as (x & w1 & [= <- <-] & H). destruct (Hr.companies (hr w) !! _) as [o|] eqn:Ho in H; [|by injection H as <- <-].
  destruct (payslip_input run p e o) as [base|x|] eqn:Eb; [|done..]. rewrite pure_ok in H.
  destruct (InputPolicy.merge_allowed_extra _ _ _) as [x|input] eqn:Em in H; [by injection H as <- <-|].
  destruct (Registry.latest tree kPayslipSlug) as [[info|]|x|]; [|by injection H as <- <-|done..]. rewrite pure_ok in H.
  destruct (schema_error _ _); [by injection H as <- <-|]. destruct (negb jr); [by injection H as <- <-|].
  apply with_repo_errors_202 in H; [|done]. destruct put_hr_laws as (L1 & L2 & L3). rewrite (alone_zoom hr put_hr _ _ L1 L2 L3) in H.
  destruct (alone _ (hr w)) as [r h] eqn:Ec in H. injection H as -> <-.
  exists run, p, e, o, base, input, info. do 7 (split; [done|]). split; [intros qs Hq; by eapply InputPolicy.merge_clear | by exists h].
Qed.

(** C9: A payslip prints the run, and the personnel clerk may not read it.  When a
    payslip is accepted for printing, the request cannot have changed a word of it: the
    input that is stored with the new document and queued for it has the two sides as
    they are on file, the month of the run, each of the nine amounts of the stored
    payslip in print, and the net pay in words that read back as that very amount; and
    the document is of the payroll, so that it may be read and changed by exactly the
    roles the matrix gives the payroll to, of which "hr" is none. *)
Theorem payslip_prints_the_run jr q ctx id employee extra w rep w' : good (Hr.docs_store (hr w)) -> Payroll.pay_inv (payroll w) ->
  alone (generatePayslip tree jr q ctx id employee extra) w = (Ok rep, w') -> http rep = 202 ->
  exists run p e o d vid v input, Payroll.find_run_in_org (Requests.uuid_key id) (ctx_org ctx) (payroll w) = Some run /\
    p ∈ Payroll.slips_of (payroll w) (Payroll.run_id run) /\ Payroll.ps_employee p = employee /\
    Hr.employee_in (Requests.uuid_key employee) (ctx_org ctx) (hr w) = Some e /\ Hr.companies (hr w) !! ctx_org ctx = Some o /\
    docs (Hr.docs_store (hr w)) !! d = None /\ vers (Hr.docs_store (hr w')) !! vid = Some v /\ v_doc v = d /\ v_snapshot v = Some input /\
    queue (Hr.docs_store (hr w')) = (queue (Hr.docs_store (hr w)) ++ if q then [DocumentFlow.render_payload (ctx_org ctx) d vid kPayslipSlug input] else [])%list /\
    Hr.parties_on e o input /\
    walk input ["period_label"] = Some (JString (period_label_ru (Payroll.period_year run) (Payroll.period_month run))) /\
    Forall (fun x => exists s, walk input [x.1] = Some (JString s) /\ Format.format_tiyn_ru x.2 = Ok s) (figures p) /\
    (exists ru, walk input ["net_words"] = Some (JString ru) /\ Words.read_ru ru = Some (Payroll.ps_net p)) /\
    exists r, docs (Hr.docs_store (hr w')) !! d = Some r /\
      forall reader action, DocumentFlow.ensure_document_access reader r action = Agent.allows (role reader) "payroll" action /\
        (role reader = "hr" -> DocumentFlow.ensure_document_access reader r action = false).
Proof.
  intros G I H Hr. destruct (payslip_found _ _ _ _ _ _ _ _ _ I H Hr) as (run & p & e & o & base & input & info & Hf & Ee & Hp & Hok & He & Ho & Eb & Hw & h & Hc & ->).
  apply Hr.create_document_spec in Hc as (d & vid & v & s1 & w2 & _ & N & T & V & D & S & Q & A & s3 & -> & _ & Hd); [|done | by intros ? ? ? [= <-]].
  destruct (payslip_input_ok run p e o Hok) as (j & Ej & (P1 & P2 & P3 & P4 & P5) & L & F & ru & R1 & R2). rewrite Eb in Ej. injection Ej as <-.
  exists run, p, e, o, d, vid, v, input. do 10 (split; [done|]). unfold Hr.parties_on. rewrite !Hw by (vm_compute; reflexivity).
  split; [done|]. split; [done|]. split; [|split; [by exists ru|]].
  - apply Forall_forall. intros x Hx. destruct (proj1 (Forall_forall _ _) F x Hx) as (t & W & X). exists t. split; [|exact X]. rewrite Hw; [exact W|].
    unfold figures in Hx. rewrite !elem_of_cons, elem_of_nil in Hx. by repeat (destruct Hx as [->|Hx]; [vm_compute; reflexivity|]).
  - cbn [hr put_hr Hr.docs_store Hr.with_store]. rewrite Hd. destruct (docs (Hr.docs_store w2) !! d) as [r|]; [|done]. injection T as T.
    exists r. split; [done|]. intros reader action. unfold DocumentFlow.ensure_document_access, DocumentFlow.resource_of. rewrite T. split; [done|].
    intros ->. unfold Agent.allows. cbn. by repeat case_match.
Qed.

Lemma generate_for_calm jr q ctx employee extra run p w : Payroll.slip_ok p -> (exists i, Registry.latest tree kPayslipSlug = Ok i) ->
  forall x, (alone (generate_for tree jr q ctx employee extra run p) w).1 <> Throw x.
Proof.
  intros Hok (i & Hi) x. unfold generate_for. rewrite alone_bind. cbn [alone atomic gets fst snd]. destruct (Hr.employee_in _ _ _) as [e|]; [|done].
  rewrite alone_bind. cbn [alone atomic gets fst snd]. destruct (Hr.companies _ !! _) as [o|]; [|done].
  destruct (payslip_input_ok run p e o Hok) as (j & -> & _). rewrite pure_ok. destruct (InputPolicy.merge_allowed_extra _ _ _); [done|].
  rewrite Hi, pure_ok. destruct i as [info|]; [|done]. destruct (schema_error _ _); [done|]. destruct (negb jr); [done|].
  unfold with_repo_errors. rewrite alone_catch. destruct (alone _ w) as [[r|y|] w1]; done.
Qed.

(** C12: Every stored payslip can be printed.  Money in words and in print is refused
    outside of its range, and the handler calls it outside of anything that catches
    errors; a payslip that the payroll has stored is always inside of that range, so
    that as long as the templates on disk can be read no error escapes the handler. *)
Theorem payslips_always_print jr q ctx id employee extra w : Payroll.pay_inv (payroll w) -> (exists i, Registry.latest tree kPayslipSlug = Ok i) ->
  forall x, (alone (generatePayslip tree jr q ctx id employee extra) w).1 <> Throw x.
Proof.
  intros I Hi x. unfold generatePayslip, DocumentFlow.permitted. destruct (Agent.allows _ _ _); [|done].
  destruct (negb _); [done|]. destruct (negb _); [done|]. destruct extra as [extra|]; [|done].
  rewrite alone_bind. cbn [alone atomic find_run gets fst snd]. destruct (Payroll.find_run_in_org _ _ _) as [run|]; [|done].
  rewrite alone_bind. cbn [alone atomic payslips_of gets fst snd]. destruct (List.find _ _) as [p|] eqn:Ep; [|done].
  apply generate_for_calm; [|done]. by destruct (find_slip_in _ _ _ _ I Ep) as (_ & _ & ?).
Qed.
End Printed.

(** ** Whom a run pays *)

Section Roster.
Context `{PG : Postgres} `{RD : Renderer} `{MP : MergePatch}.

(** The cards of an organization whose employment overlaps the days between. *)
Definition on_roster (org from to : string) (x : string * Hr.Employee) : bool := String.eqb (Hr.e_org x.2) org && Hr.overlaps from to x.2.

Lemma employed_rows org from to w :
  Payroll.list_employed_during org from to (Payroll.pw_p (shared w)) ≡ₚ
  map Hr.payroll_row (List.filter (on_roster org from to) (map_to_list (Hr.staff (hr w)))).
Proof.
  unfold Payroll.list_employed_during. rewrite stable_sort_perm. unfold shared. cbn [Payroll.pw_p Payroll.pd_employees].
  induction (map_to_list _) as [|x l IH]; [done|]. cbn [map List.filter]. unfold on_roster at 1, Hr.overlaps at 1. cbn [Hr.payroll_row Payroll.emp_org Payroll.hired_on Payroll.dismissed_on Payroll.emp_status].
  rewrite <- andb_assoc. destruct (_ && (_ && _)); [|exact IH]. cbn [map]. by constructor.
Qed.

Lemma shared_inv w : Payroll.pay_inv (payroll w) -> Payroll.pay_inv (Payroll.pw_p (shared w)).
Proof. intros [? ? ? ? ?]. by split. Qed.

Lemma calculate_found ctx body w rep w' : alone (calculate ctx (Some body)) w = (Ok rep, w') -> http rep = 200 ->
  exists run p, let year := Hr.int_field "year" body in let month := Hr.int_field "month" body in
    2000 <= year <= 2100 /\ 1 <= month <= 12 /\ Payroll.calculate_run (ctx_org ctx) year month (shared w) = (Ok run, p) /\
    w' = mkWorld p (hr w) /\ rep = wrapped 200 (run_json run).
Proof.
  unfold calculate, DocumentFlow.permitted. intros H Hr. destruct (Agent.allows _ _ _); [|by injection H as <- <-].
  destruct (Validation.int_if_there _ _ _) as [|err errs]; [|by injection H as <- <-]. cbv zeta in *.
  set (year := Hr.int_field "year" body) in *. set (month := Hr.int_field "month" body) in *.
  destruct (period_errors year month) as [|err errs] eqn:Ep; [|by injection H as <- <-].
  assert (2000 <= year <= 2100 /\ 1 <= month <= 12) as [Hy Hm].
  { unfold period_errors, year_ok in Ep. destruct (Z.ltb_spec month 1), (Z.ltb_spec 12 month), (Z.leb_spec 2000 year), (Z.leb_spec year 2100); try done; lia. }
  unfold with_repo_errors, missing_reference in H. rewrite !alone_catch, alone_bind, alone_atomic in H. unfold on_pay in H.
  destruct (Payroll.calculate_run _ _ _ (shared w)) as [[run|e|] p] eqn:Ec; [|exfalso|done].
  - injection H as <- <-. by exists run, p.
  - destruct (bool_decide _); [by injection H as <- <-|]. injection H as <- <-. destruct (repo_reply_status e) as [F|[F|F]]; rewrite F in Hr; discriminate.
Qed.

(** C8: A calculated run pays the roster, all of it and once each.  When a run is
    calculated and no other session commits meanwhile, the tables hold for it one payslip
    for each employee of the organization whose employment overlaps the month, as their
    cards stand now, over the salary of the card, and no payslip of anybody else; it is
    the run of the month that was asked for, the reply shows it with these payslips, and
    the calculation has not changed the roster. *)
Theorem payroll_pays_the_roster ctx body w rep w' : Payroll.pay_inv (payroll w) -> Payroll.pw_env (pay w) = [] ->
  alone (calculate ctx (Some body)) w = (Ok rep, w') -> http rep = 200 ->
  exists run year month day, year = Hr.int_field "year" body /\ month = Hr.int_field "month" body /\
    Payroll.last_day_of_month year month = Ok day /\ rep = wrapped 200 (run_json run) /\ Payroll.run_org run = ctx_org ctx /\
    Payroll.period_year run = year /\ Payroll.period_month run = month /\
    Payroll.payslips run = Payroll.slips_of (payroll w') (Payroll.run_id run) /\
    map (fun p => (Payroll.ps_employee p, Payroll.ps_gross p)) (Payroll.payslips run) ≡ₚ
      map (fun x => (x.1, Hr.salary x.2)) (List.filter (on_roster (ctx_org ctx) (Payroll.first_day_of_month year month) day) (map_to_list (Hr.staff (hr w)))) /\
    NoDup (map Payroll.ps_employee (Payroll.payslips run)) /\ hr w' = hr w.
Proof.
  intros I Henv H Hr. destruct (calculate_found _ _ _ _ _ H Hr) as (run & p & Hy & Hm & Ec & -> & ->). cbv zeta in *.
  set (year := Hr.int_field "year" body) in *. set (month := Hr.int_field "month" body) in *.
  assert (shared w = Payroll.mkPW (Payroll.pw_w (shared w)) (Payroll.pw_p (shared w)) []) as Es by (unfold shared at 1; by rewrite Henv).
  rewrite Es in Ec. apply Payroll.calculate_run_pays_everyone in Ec as (day & rates & Hd & _ & F & Hs & _ & _ & _ & Ho & Py & Pm); [|by apply shared_inv].
  exists run, year, month, day. do 7 (split; [done|]). split; [by symmetry|].
  set (cards := List.filter _ _) in *.
  assert (map (fun p => (Payroll.ps_employee p, Payroll.ps_gross p)) (Payroll.payslips run) ≡ₚ map (fun x => (x.1, Hr.salary x.2)) cards) as P.
  { transitivity (map (fun e => (Payroll.emp_id e, Payroll.salary_tiyn e)) (map Hr.payroll_row cards)); [|by rewrite map_map].
    unfold cards. rewrite <- employed_rows. clear -F. induction F as [|e s es ss (_ & _ & E1 & E2 & _) _ IH]; [done|]. cbn [map]. by rewrite E1, E2, IH. }
  split; [exact P|]. split; [|done].
  assert (map Payroll.ps_employee (Payroll.payslips run) ≡ₚ map fst cards) as ->.
  { transitivity (map fst (map (fun p => (Payroll.ps_employee p, Payroll.ps_gross p)) (Payroll.payslips run))); [by rewrite map_map|].
    rewrite P. by rewrite map_map. }
  apply NoDup_ListNoDup. unfold cards. generalize (NoDup_fst_map_to_list (Hr.staff (hr w))). intros N%NoDup_ListNoDup. revert N. generalize (map_to_list (Hr.staff (hr w))).
  intros l. induction l as [|x l IH]; [done|]. cbn [fmap list_fmap map List.filter]. intros N. inversion N as [|? ? Hx N']; subst.
  destruct (on_roster _ _ _ x); [|by apply IH]. cbn [map]. constructor; [|by apply IH].
  intros Hin. apply Hx. apply in_map_iff in Hin as (y & <- & [Hy' _]%filter_In). by apply in_map.
Qed.
End Roster.

(** ** A month at the desk *)

Module Example.
Import JournalDb.Reference.

#[local] Existing Instance uuid_server.
#[local] Existing Instance Hr.Example.printing.

Definition disk : Registry.Tree := {["payslip" := Hr.Example.form_dir]}.
Definition clerk : OrgContext := mkCtx "org" "accountant" "someone".
Definition personnel : OrgContext := mkCtx "org" "hr" "someone".
Definition start : World := mkWorld Payroll.pay0 Hr.Example.hired_one.

Definition period (year month : Z) : json := JObject [("month", JInt month); ("year", JInt year)].
Definition calculating (year month : Z) : prog World Reply := calculate clerk (Some (period year month)).
Definition calculated : World := (alone (calculating 2026 2) start).2.
Definition printing_it (x : list (string * json)) : prog World Reply := generatePayslip disk true true clerk (id_text 0) (id_text 0) (Some x).
Definition printed_one : World := (alone (printing_it []) calculated).2.
Definition status_of (x : outcome Reply * World) : Z := match x.1 with Ok r => http r | _ => 0 end.

Example payday_flow :
  (status_of (alone (calculating 2026 2) start), status_of (alone (printing_it []) calculated),
   status_of (alone (printing_it [("net", JString "1,00")]) calculated), length (queue (Hr.docs_store (hr printed_one))),
   map status_of [alone (approve clerk (id_text 0)) calculated; alone (postToJournal clerk (id_text 0)) calculated;
                  alone (calculating 2025 2) start; alone (calculating 1999 13) start;
                  alone (calculate personnel (Some (period 2026 2))) start; alone (list_ clerk "2026" "" "") calculated;
                  alone (list_ clerk "26x" "" "") calculated; alone (listPayslips clerk (id_text 1)) calculated])
  = (200, 202, 422, 1%nat, [200; 409; 422; 422; 403; 200; 422; 404]).
Proof. vm_compute. reflexivity. Qed.

(** Of the year only the low 32 bits are looked at. *)
Example year_cut : map Payroll.period_year (Payroll.pd_runs (payroll (alone (calculating (2 ^ 32 + 2026) 2) start).2)) = [2026].
Proof. vm_compute. reflexivity. Qed.

(** The identifier of the employee is compared letter by letter: the same UUID in capitals has no payslip. *)
Definition lettered : string := "aaaaaaaa-0000-4000-8000-000000000001".
Definition shouted : string := "AAAAAAAA-0000-4000-8000-000000000001".
Definition lettered_start : World :=
  mkWorld Payroll.pay0 (Hr.with_staff (fun _ => match Hr.Example.first_card Hr.Example.hired_one with Some e => {[lettered := e]} | None => ∅ end) Hr.Example.hired_one).
Definition lettered_one : World := (alone (calculating 2026 2) lettered_start).2.
Example capitals_not_found :
  (status_of (alone (generatePayslip disk true true clerk (id_text 0) lettered (Some [])) lettered_one),
   status_of (alone (generatePayslip disk true true clerk (id_text 0) shouted (Some [])) lettered_one), Requests.uuid_key shouted)
  = (202, 404, lettered).
Proof. vm_compute. reflexivity. Qed.

Lemma opening_in_order : Payroll.pay_inv (payroll start).
Proof. split; cbn; [by apply Forall_nil | by apply NoDup_nil | intros x Hx; by apply elem_of_nil in Hx..]. Qed.

Lemma calculated_in_order : Payroll.pay_inv (payroll calculated).
Proof.
  unfold calculated. assert (Payroll.pay_inv (Payroll.pw_p (shared start))) as I by apply shared_inv, opening_in_order.
  destruct (alone (calculating 2026 2) start) as [r w'] eqn:E.
  assert (status_of (r, w') = 200) as S by (rewrite <- E; vm_compute; reflexivity). destruct r as [rep|e|]; [|discriminate..].
  destruct (calculate_found clerk (period 2026 2) start rep w' E S) as (run & p & _ & _ & Ec & -> & _). cbn [snd payroll pay].
  pose proof (proj1 (Payroll.calculate_run_safe "org" 2026 2 (shared start) I (Forall_nil_2 _))) as K. cbv zeta in Ec.
  change (Hr.int_field "year" (period 2026 2)) with 2026 in Ec. change (Hr.int_field "month" (period 2026 2)) with 2 in Ec.
  change (ctx_org clerk) with "org" in Ec. by rewrite Ec in K.
Qed.

Lemma calculated_docs : good (Hr.docs_store (hr calculated)).
Proof.
  assert (hr calculated = hr start) as ->.
  { unfold calculated. destruct (alone (calculating 2026 2) start) as [r w'] eqn:E.
    assert (status_of (r, w') = 200) as S by (rewrite <- E; vm_compute; reflexivity). destruct r as [rep|e|]; [|discriminate..].
    by destruct (calculate_found clerk (period 2026 2) start rep w' E S) as (run & p & _ & _ & _ & -> & _). }
  change (Hr.docs_store (hr start)) with DocumentFlow.Example.empty_store. exact DocumentFlow.Example.empty_good.
Qed.

Lemma payroll_pays_the_roster_witness :
  exists rep w' run, alone (calculating 2026 2) start = (Ok rep, w') /\ rep = wrapped 200 (run_json run) /\
    map Payroll.ps_employee (Payroll.payslips run) ≡ₚ [id_text 0].
Proof.
  destruct (alone (calculating 2026 2) start) as [r w'] eqn:E.
  assert (status_of (r, w') = 200) as S by (rewrite <- E; vm_compute; reflexivity). destruct r as [rep|e|]; [|discriminate..].
  destruct (payroll_pays_the_roster clerk (period 2026 2) start rep w' opening_in_order eq_refl E S)
    as (run & year & month & day & -> & -> & Hd & -> & _ & _ & _ & _ & P & _).
  exists (wrapped 200 (run_json run)), w', run. split; [done|]. split; [done|].
  change (Hr.int_field "year" (period 2026 2)) with 2026 in *. change (Hr.int_field "month" (period 2026 2)) with 2 in *.
  assert (day = "2026-02-28") as -> by (vm_compute in Hd; congruence).
  apply (Permutation_map fst) in P. rewrite !map_map in P. cbn [fst] in P. rewrite P. vm_compute. reflexivity.
Defined.

Lemma payslip_prints_the_run_witness : exists vid v input ru z, vers (Hr.docs_store (hr printed_one)) !! vid = Some v /\ v_snapshot v = Some input /\
  walk input ["net_words"] = Some (JString ru) /\ Words.read_ru ru = Some z /\ walk input ["period_label"] = Some (JString "Февраль 2026").
Proof.
  destruct (alone (printing_it []) calculated) as [r w'] eqn:E.
  assert (status_of (r, w') = 202) as S by (rewrite <- E; vm_compute; reflexivity). destruct r as [rep|e|]; [|discriminate..].
  destruct (payslip_prints_the_run disk true true clerk (id_text 0) (id_text 0) (Some []) calculated rep w' calculated_docs calculated_in_order E S)
    as (run & p & e & o & d & vid & v & input & Hf & _ & _ & _ & _ & _ & V & _ & I & _ & _ & L & _ & (ru & R1 & R2) & _).
  exists vid, v, input, ru, (Payroll.ps_net p). unfold printed_one. rewrite E. do 4 (split; [done|]). rewrite L. do 2 f_equal.
  assert (option_map (fun r => (Payroll.period_year r, Payroll.period_month r)) (Payroll.find_run_in_org (id_text 0) "org" (payroll calculated)) = Some (2026, 2)) as F
    by (vm_compute; reflexivity).
  change (Requests.uuid_key (id_text 0)) with (id_text 0) in Hf. change (ctx_org clerk) with "org" in Hf. rewrite Hf in F. injection F as -> ->. reflexivity.
Defined.

Lemma payslips_always_print_witness : (alone (printing_it [("net", JString "1,00")]) calculated).1 <> Throw (Exn std_out_of_range "").
Proof.
  apply (payslips_always_print disk true true clerk (id_text 0) (id_text 0) (Some [("net", JString "1,00")]) calculated calculated_in_order).
  eexists. vm_compute. reflexivity.
Defined.
End Example.
End Paydesk.
