(* ===== verification/Bookdesk.v ===== *)
(** * The books desk

    The handlers of src/api/JournalController.hpp, AccountsController.hpp and
    CounterpartiesController.hpp over the journal service, with the repositories of
    accounts and counterparties: the tables of migrations/007_counterparties.sql,
    008_accounts.sql and 009_journal.sql, other sessions committing between any two
    accesses. *)
From Stdlib Require Import ZArith Lia Ascii String.
From stdpp Require Import relations sorting.
From S2P Require Import Prelude Ledger JournalDb JournalService Json Threads Dates Agent Requests DocumentFlow Tenancy.
Import Json Threads Http Requests Bodies.
Open Scope string_scope.
Open Scope Z_scope.

Set Warnings "-clear-no-such-hyp".

Module Bookdesk.
Import Db Journal.

Definition text (o : option string) : json := match o with Some s => JString s | None => JNull end.

(** ** JSON *)

(** [to_json]: src/ledger/Account.hpp:63-76.  (Time stamps left out.) *)
Definition account_json (a : Account) : json :=
  JObject [("code", JString (code a)); ("currency_tracked", JBool (currency_tracked a)); ("id", JString (acc_id a));
           ("name_kk", JString (name_kk a)); ("name_ru", JString (name_ru a)); ("org_id", text (acc_org_id a));
           ("parent_code", text (parent_code a)); ("type", JString (acc_type a))].

(** [to_json]: src/ledger/Counterparty.hpp:63-79.  (Time stamps left out.) *)
Definition counterparty_json (id : string) (c : Counterparty) : json :=
  JObject [("address", JString (cp_address c)); ("bik", JString (cp_bik c)); ("contact_email", JString (cp_email c)); ("id", JString id);
           ("identifier", JString (cp_identifier c)); ("iik", JString (cp_iik c)); ("is_resident", JBool (cp_resident c)); ("kbe", JString (cp_kbe c));
           ("name", JString (cp_name c)); ("org_id", JString (cp_org c)); ("vat_payer", JBool (cp_vat c))].

(** [to_json]: src/ledger/JournalEntry.hpp:65-75. *)
Definition line_json (l : JournalLine) : json :=
  JObject [("account_code", JString (account_code l)); ("amount", JString (amount l)); ("counterparty_id", text (counterparty_id l));
           ("entry_id", JString (line_entry_id l)); ("id", JString (line_id l)); ("side", JString (side l)); ("vat_amount", text (vat_amount l))].

(** [to_json]: src/ledger/JournalEntry.hpp:103-114. *)
Definition entry_json (e : JournalEntry) : json :=
  JObject [("created_by_user_id", text (created_by_user_id e)); ("description", JString (description e)); ("entry_date", JString (entry_date e));
           ("id", JString (id e)); ("lines", JArray (map line_json (lines e))); ("org_id", JString (org_id e));
           ("reverses_entry_id", text (reverses_entry_id e)); ("status", JString (status e))].

Section Repositories.
Context `{PG : Postgres}.

(** ** Accounts *)

(** Of the system, or of this organization. *)
Definition visible (org : string) (a : Account) : bool := match acc_org_id a with None => true | Some o => String.eqb o org end.

(** [list_visible]: src/ledger/AccountRepository.hpp:78-89.  Codes in the order of their bytes. *)
Definition list_visible (org : string) (d : DB) : list Account :=
  stable_sort (fun a b => String.ltb (code a) (code b)) (List.filter (visible org) (db_accounts d)).

Definition account_types : list string := ["asset"; "liability"; "equity"; "income"; "expense"].
Definition code_taken : exn := Exn DuplicateAccount "An account with that code already exists for this organization (or is a reserved system code)".

(** [create_subaccount]: src/ledger/AccountRepository.hpp:145-158.  The INSERT with the
    constraints of migrations/008_accounts.sql. *)
Definition insert_account (org c ru kk : string) (parent : Account) : st Txn Account :=
  d ← gets tx_db;
  if negb (existsb (String.eqb (acc_type parent)) account_types) then sql_error "23514"
  else if negb (bool_decide (org ∈ db_orgs d)) then sql_error "23503"
  else if existsb (fun a => bool_decide (acc_org_id a = Some org) && String.eqb (code a) c) (db_accounts d) then sql_error "23505"
  else
    let a := mkAccount (gen_random_uuid (db_seq d)) (Some org) c ru kk (acc_type parent) (Some (code parent)) (currency_tracked parent) in
    tx_map (fun d => with_accounts (fun l => l ++ [a])%list (next_uuid d)) ;; mret a.

(** [create_subaccount]: src/ledger/AccountRepository.hpp:128-164. *)
Definition create_subaccount (org c ru kk parent_code : string) : st World Account :=
  parent ← execute_read (find_visible org parent_code);
  match parent with
  | None => throw InvalidSubaccount ("parent account '" +:+ (parent_code +:+ "' not found or not visible to this organization"))
  | Some p =>
      if negb (String.prefix (code p) c) then
        throw InvalidSubaccount ("subaccount code '" +:+ (c +:+ ("' must start with parent code '" +:+ (code p +:+ "'"))))
      else
        taken ← execute_read (find_visible org c);
        match taken with
        | Some _ => lift (Throw code_taken)
        | None => translate_sql (fun ss => if String.eqb ss "23505" then Some code_taken else None) (execute_write (insert_account org c ru kk p))
        end
  end.

(** ** Counterparties *)

(** What a request says of a counterparty. *)
Record Draft := mkDraft {
  g_identifier : string; g_name : string; g_address : string; g_iik : string; g_bik : string; g_kbe : string;
  g_resident : bool; g_vat : bool; g_email : string
}.

(** [DuplicateCounterparty]: src/ledger/CounterpartyRepository.hpp:30-34. *)
Definition identifier_taken : exn := Exn DuplicateCounterparty "counterparty_identifier_taken".
Definition on_taken (ss : string) : option exn := if String.eqb ss "23505" then Some identifier_taken else None.

(** UNIQUE (org_id, identifier), apart from the row itself. *)
Definition has_identifier (org number : string) (except : option string) (d : DB) : bool :=
  existsb (fun x => String.eqb (cp_org x.2) org && String.eqb (cp_identifier x.2) number && negb (bool_decide (except = Some x.1)))
    (map_to_list (db_counterparties d)).

Definition drafted (org number : string) (g : Draft) (now : Z) : Counterparty :=
  mkCounterparty org number (g_name g) (g_address g) (g_iik g) (g_bik g) (g_kbe g) (g_resident g) (g_vat g) (g_email g) now.

(** [create]: src/ledger/CounterpartyRepository.hpp:59-77.  The INSERT. *)
Definition insert_counterparty (org : string) (g : Draft) : st Txn (string * Counterparty) :=
  d ← gets tx_db;
  match Tenancy.char_in 12 (g_identifier g) with
  | None => sql_error "22001"
  | Some number =>
      if negb (bool_decide (org ∈ db_orgs d)) then sql_error "23503"
      else if has_identifier org number None d then sql_error "23505"
      else
        let cid := gen_random_uuid (db_seq d) in
        let c := drafted org number g (db_now d) in
        tx_map (fun d => with_counterparties <[cid := c]> (next_uuid d)) ;; mret (cid, c)
  end.

(** [create]: src/ledger/CounterpartyRepository.hpp:56-83. *)
Definition create_counterparty (org : string) (g : Draft) : st World (string * Counterparty) :=
  translate_sql on_taken (execute_write (insert_counterparty org g)).

(** [find_in_org]: src/tenancy/OrgScoped.hpp:48-59.  Of a counterparty. *)
Definition counterparty_of (cid org : string) (d : DB) : option Counterparty :=
  match db_counterparties d !! cid with Some c => if String.eqb (cp_org c) org then Some c else None | None => None end.

(** [update]: src/ledger/CounterpartyRepository.hpp:97-118.  The UPDATE. *)
Definition patch_counterparty (org cid : string) (g : Draft) : st Txn (option Counterparty) :=
  d ← gets tx_db;
  match counterparty_of cid org d with
  | None => mret None
  | Some old =>
      match Tenancy.char_in 12 (g_identifier g) with
      | None => sql_error "22001"
      | Some number =>
          if has_identifier org number (Some cid) d then sql_error "23505"
          else
            let c := drafted org number g (cp_created old) in
            tx_map (with_counterparties <[cid := c]>) ;; mret (Some c)
      end
  end.

(** [update]: src/ledger/CounterpartyRepository.hpp:94-124. *)
Definition update_counterparty (org cid : string) (g : Draft) : st World (option Counterparty) :=
  translate_sql on_taken (execute_write (patch_counterparty org cid g)).

(** [find_by_identifier]: src/ledger/CounterpartyRepository.hpp:128-138. *)
Definition find_by_identifier (org number : string) (d : DB) : option (string * Counterparty) :=
  List.find (fun x => String.eqb (cp_org x.2) org && String.eqb (cp_identifier x.2) number) (map_to_list (db_counterparties d)).

Definition of_org (org : string) (d : DB) : list (string * Counterparty) :=
  List.filter (fun x => String.eqb (cp_org x.2) org) (map_to_list (db_counterparties d)).

(** [list_in_org]: src/tenancy/OrgScoped.hpp:61-73.  Of counterparties. *)
Definition list_counterparties (org : string) (limit offset : nat) (d : DB) : list (string * Counterparty) :=
  take limit (drop offset (stable_sort (fun a b => cp_created b.2 <? cp_created a.2) (of_org org d))).

(** [count_in_org]: src/tenancy/OrgScoped.hpp:75-82.  Of counterparties. *)
Definition count_counterparties (org : string) (d : DB) : Z := Z.of_nat (length (of_org org d)).

(** ** Entries *)

(** A bound that may be missing, as the [::date] cast reads it. *)
Definition cast_date (o : option string) : outcome (option string) :=
  match o with
  | None => Ok None
  | Some s => match date_in s with Some d => Ok (Some d) | None => Throw (Exn pqxx_sql_error "22007") end
  end.

Definition between (org : string) (from to : option string) (d : DB) : list (string * EntryRow) :=
  List.filter (fun x => String.eqb (er_org x.2) org && match from with Some f => String.leb f (er_date x.2) | None => true end
                 && match to with Some t => String.leb (er_date x.2) t | None => true end) (map_to_list (db_entries d)).

Definition later_entry (a b : string * EntryRow) : bool :=
  String.ltb (er_date b.2) (er_date a.2) || String.eqb (er_date a.2) (er_date b.2) && (er_created b.2 <? er_created a.2).

(** [list_filtered]: src/ledger/JournalRepository.hpp:110-134. *)
Definition list_filtered (org : string) (from to : option string) (limit offset : nat) : st World (list JournalEntry) :=
  from ← lift (cast_date from);
  to ← lift (cast_date to);
  execute_read (fun d => map (fun x => entry_from_row x.1 x.2) (take limit (drop offset (stable_sort later_entry (between org from to d))))).

(** [count_filtered]: src/ledger/JournalRepository.hpp:139-151. *)
Definition count_filtered (org : string) (from to : option string) : st World Z :=
  from ← lift (cast_date from);
  to ← lift (cast_date to);
  execute_read (fun d => Z.of_nat (length (between org from to d))).

End Repositories.

(** ** Handlers *)

Section Handlers.
Context `{PG : Postgres}.

Abbreviation permitted := (DocumentFlow.permitted (W := World)).
Definition listed (rows : list json) : Reply := mkReply 200 "" (JObject [("data", JArray rows)]).

(** *** The journal *)

(** A date of the query, with the errors so far. *)
Definition date_param (field s : string) (errs : Validation.Errors) : outcome (Validation.Errors * option string) :=
  if String.eqb s "" then Ok (errs, None)
  else valid ← Validation.is_valid_date s; Ok (if (valid : bool) then (errs, Some s) else (Validation.add field "invalid_date" errs, None)).

Definition date_read (field s : string) (errs : Validation.Errors) : prog World (Validation.Errors * option string) := pure (date_param field s errs).

(** [list]: src/api/JournalController.hpp:99-140. *)
Definition list_entries (ctx : OrgContext) (from_param to_param limit_param offset_param : string) : prog World Reply :=
  permitted ctx "journal" "read" (
    from ← date_read "from" from_param [];
    to ← date_read "to" to_param (fst from);
    match fst to with
    | [] =>
        let page := parse_page_params limit_param offset_param 50 200 in
        with_repo_errors (
          rows ← atomic (list_filtered (ctx_org ctx) (snd from) (snd to) (Z.to_nat (limit page)) (Z.to_nat (offset page)));
          total ← atomic (count_filtered (ctx_org ctx) (snd from) (snd to));
          mret (paginated (map entry_json rows) total page))
    | errs => mret (invalid errs 422)
    end).

(** [create]: src/api/JournalController.hpp:154-164. *)
Definition array_if_there (body : json) (field : string) (errs : Validation.Errors) : Validation.Errors :=
  match member field body with Some (JArray _) | None => errs | Some _ => Validation.add field "not_array" errs end.
Definition entry_errors (body : json) : Validation.Errors :=
  array_if_there body "lines" (Validation.string_if_there body "description" (Validation.string_if_there body "entry_date"
    (required body ["entry_date"; "description"; "lines"]))).

(** A field of a line, or an error and nothing. *)
Definition taken {A} (o : option A) (default : A) (c : string) (errs : Validation.Errors) : Validation.Errors * A :=
  match o with Some a => (errs, a) | None => (Validation.add "lines" c errs, default) end.

Definition account_field (item : json) : option string := match text_field "account_code" item with Some "" => None | o => o end.
Definition counterparty_field (item : json) : option (option string) :=
  match Validation.present item "counterparty_id" with
  | None => Some None
  | Some (JString s) => if is_valid_uuid s then Some (Some (Requests.uuid_key s)) else None
  | Some _ => None
  end.
Definition vat_field (item : json) : option (option string) :=
  match Validation.present item "vat_amount" with None => Some None | Some (JString s) => Some (Some s) | Some _ => None end.

(** [parse_lines]: src/api/JournalController.hpp:309-348.  One line; what is missing is left empty. *)
Definition parse_line (item : json) (errs : Validation.Errors) : Validation.Errors * option JournalLine :=
  match item with
  | JObject _ =>
      let '(errs, account) := taken (account_field item) "" "missing_account_code" errs in
      let '(errs, sd) := taken (text_field "side" item) "" "missing_side" errs in
      let '(errs, amt) := taken (text_field "amount" item) "" "missing_amount" errs in
      let '(errs, cp) := taken (counterparty_field item) None "invalid_counterparty_id" errs in
      let '(errs, vat) := taken (vat_field item) None "invalid_vat_amount" errs in
      (errs, Some (mkLine "" "" account sd amt cp vat))
  | _ => (Validation.add "lines" "not_object" errs, None)
  end.

(** [parse_lines]: src/api/JournalController.hpp:306-351. *)
Fixpoint parse_lines (items : list json) (errs : Validation.Errors) : Validation.Errors * list JournalLine :=
  match items with
  | [] => (errs, [])
  | item :: rest =>
      let '(errs, line) := parse_line item errs in
      let '(errs, ls) := parse_lines rest errs in
      (errs, match line with Some l => l :: ls | None => ls end)
  end.

(** [create]: src/api/JournalController.hpp:182-203.  What becomes of an exception. *)
Definition draft_reply (e : exn) : Reply :=
  match exn_cls e with
  | UnbalancedEntry => one_error "lines" "unbalanced_entry"
  | UnknownAccount => one_error "lines" "unknown_account"
  | ForeignCounterparty => one_error "lines" "foreign_counterparty"
  | std_invalid_argument => one_error "lines" "invalid_line"
  | _ => refusal 500 "internal_error"
  end.

(** [create]: src/api/JournalController.hpp:147-204. *)
Definition create_entry (ctx : OrgContext) (parsed : option json) : prog World Reply :=
  permitted ctx "journal" "write" (parsed_body parsed (fun body =>
    match entry_errors body with
    | [] =>
        let entry_date := text_or "" "entry_date" body in
        dated "entry_date" entry_date (
          match parse_lines (match array_field "lines" body with Some l => l | None => [] end) [] with
          | ([], ls) =>
              catch (fun e => Ok (draft_reply e)) (
                entry ← atomic (Journal.create_draft (ctx_org ctx) (user_id ctx) entry_date (text_or "" "description" body) ls);
                mret (wrapped 201 (entry_json entry)))
          | (errs, _) => mret (invalid errs 400)
          end)
    | errs => mret (invalid errs 400)
    end)).

Definition valid_path (id : string) (k : string -> prog World Reply) : prog World Reply :=
  if negb (is_valid_uuid id) then mret invalid_id else k (Requests.uuid_key id).

(** [get]: src/api/JournalController.hpp:209-227. *)
Definition get_entry (ctx : OrgContext) (id : string) : prog World Reply :=
  permitted ctx "journal" "read" (valid_path id (fun eid => with_repo_errors (
    found ← atomic (execute_read (find_in_org eid (ctx_org ctx)));
    match found with
    | None => mret (refusal 404 "not_found")
    | Some e => ls ← atomic (execute_read (load_lines eid)); mret (wrapped 200 (entry_json (Journal.with_lines_of e (status e) ls)))
    end))).

(** [post]: src/api/JournalController.hpp:251-256.  What becomes of an exception. *)
Definition state_reply (e : exn) : Reply :=
  match exn_cls e with InvalidEntryState => refusal 409 "invalid_entry_state" | _ => refusal 500 "internal_error" end.

(** [post]: src/api/JournalController.hpp:233-257. *)
Definition post_entry (ctx : OrgContext) (id : string) : prog World Reply :=
  permitted ctx "journal" "write" (valid_path id (fun eid => catch (fun e => Ok (state_reply e)) (
    updated ← atomic (Journal.post (ctx_org ctx) eid);
    mret match updated with Some e => wrapped 200 (entry_json e) | None => refusal 404 "not_found" end))).

(** [reverse]: src/api/JournalController.hpp:264-288. *)
Definition reverse_entry (ctx : OrgContext) (id : string) : prog World Reply :=
  permitted ctx "journal" "write" (valid_path id (fun eid => catch (fun e => Ok (state_reply e)) (
    storno ← atomic (Journal.reverse (ctx_org ctx) eid (user_id ctx));
    mret match storno with Some e => wrapped 200 (entry_json e) | None => refusal 404 "not_found" end))).

(** *** Accounts *)

(** [list]: src/api/AccountsController.hpp:72-84. *)
Definition list_accounts (ctx : OrgContext) : prog World Reply :=
  permitted ctx "journal" "read" (with_repo_errors (
    rows ← atomic (execute_read (list_visible (ctx_org ctx)));
    mret (listed (map account_json rows)))).

(** [create]: src/api/AccountsController.hpp:99-110. *)
Definition account_errors (body : json) : Validation.Errors :=
  foldl (fun errs f => Validation.string_if_there body f errs) (required body ["code"; "name_ru"; "parent_code"])
    ["code"; "name_ru"; "parent_code"; "name_kk"].

(** [create]: src/api/AccountsController.hpp:129-136.  What becomes of an exception. *)
Definition account_reply (e : exn) : Reply :=
  if bool_decide (exn_cls e = InvalidSubaccount) then refusal 422 "invalid_subaccount"
  else if is_conflict (exn_cls e) then refusal 409 (conflict_code e) else refusal 500 "internal_error".

(** [create]: src/api/AccountsController.hpp:92-137. *)
Definition create_account (ctx : OrgContext) (parsed : option json) : prog World Reply :=
  permitted ctx "journal" "write" (parsed_body parsed (fun body =>
    match account_errors body with
    | [] =>
        catch (fun e => Ok (account_reply e)) (
          created ← atomic (create_subaccount (ctx_org ctx) (text_or "" "code" body) (text_or "" "name_ru" body) (text_or "" "name_kk" body)
                              (text_or "" "parent_code" body));
          mret (wrapped 201 (account_json created)))
    | errs => mret (invalid errs 400)
    end)).

(** *** Counterparties *)

(** [list]: src/api/CounterpartiesController.hpp:71-86. *)
Definition list_partners (ctx : OrgContext) (limit_param offset_param : string) : prog World Reply :=
  permitted ctx "counterparties" "read" (
    let page := parse_page_params limit_param offset_param 50 200 in
    with_repo_errors (
      rows ← atomic (execute_read (list_counterparties (ctx_org ctx) (Z.to_nat (limit page)) (Z.to_nat (offset page))));
      total ← atomic (execute_read (count_counterparties (ctx_org ctx)));
      mret (paginated (map (fun c => counterparty_json c.1 c.2) rows) total page))).

(** [validate_and_fill]: src/api/CounterpartiesController.hpp:190-206. *)
Definition partner_errors (body : json) : Validation.Errors :=
  Validation.bool_if_there body "vat_payer" (Validation.bool_if_there body "is_resident"
    (foldl (fun errs f => Validation.string_if_there body f errs) (required body ["identifier"; "name"])
       ["identifier"; "name"; "address"; "iik"; "bik"; "kbe"; "contact_email"])).

Definition flag_or (d : bool) (k : string) (body : json) : bool := match member k body with Some (JBool b) => b | _ => d end.

(** [validate_and_fill]: src/api/CounterpartiesController.hpp:187-226. *)
Definition validate_and_fill (body : json) (k : Draft -> prog World Reply) : prog World Reply :=
  match partner_errors body with
  | [] =>
      let number := text_or "" "identifier" body in
      valid ← pure (KzIdentifiers.is_valid_bin_iin number);
      if negb valid then mret (one_error "identifier" "invalid_identifier")
      else k (mkDraft number (text_or "" "name" body) (text_or "" "address" body) (text_or "" "iik" body) (text_or "" "bik" body)
                (text_or "" "kbe" body) (flag_or true "is_resident" body) (flag_or false "vat_payer" body) (text_or "" "contact_email" body))
  | errs => mret (invalid errs 400)
  end.

(** [create]: src/api/CounterpartiesController.hpp:91-108. *)
Definition create_partner (ctx : OrgContext) (parsed : option json) : prog World Reply :=
  permitted ctx "counterparties" "write" (parsed_body parsed (fun body => validate_and_fill body (fun g => with_repo_errors (
    created ← atomic (create_counterparty (ctx_org ctx) g);
    mret (wrapped 201 (counterparty_json created.1 created.2)))))).

(** [get]: src/api/CounterpartiesController.hpp:113-131. *)
Definition get_partner (ctx : OrgContext) (id : string) : prog World Reply :=
  permitted ctx "counterparties" "read" (valid_path id (fun cid => with_repo_errors (
    found ← atomic (execute_read (counterparty_of cid (ctx_org ctx)));
    mret match found with Some c => wrapped 200 (counterparty_json cid c) | None => refusal 404 "not_found" end))).

(** [patch]: src/api/CounterpartiesController.hpp:138-165. *)
Definition patch_partner (ctx : OrgContext) (id : string) (parsed : option json) : prog World Reply :=
  permitted ctx "counterparties" "write" (valid_path id (fun cid => parsed_body parsed (fun body => validate_and_fill body (fun g => with_repo_errors (
    updated ← atomic (update_counterparty (ctx_org ctx) cid g);
    mret match updated with Some c => wrapped 200 (counterparty_json cid c) | None => refusal 404 "not_found" end))))).

End Handlers.

(** ** What the books keep *)

Section Kept.
Context `{PG : Postgres}.

(** The account and the counterparty a line of an organization names are its own. *)
Definition names_own (org account : string) (cp : option string) (d : DB) : Prop :=
  (exists a, a ∈ db_accounts d /\ visible org a = true /\ code a = account) /\
  (forall c, cp = Some c -> exists p, db_counterparties d !! c = Some p /\ cp_org p = org).

(** A subaccount stands below the account it extends, and is of its kind. *)
Definition below (org : string) (a p : Account) : Prop :=
  visible org p = true /\ parent_code a = Some (code p) /\ String.prefix (code p) (code a) = true /\ code a <> code p /\
  acc_type a = acc_type p /\ currency_tracked a = currency_tracked p.

Record desk_inv (d : DB) : Prop := mkDeskInv {
  desk_books : ledger_inv d;
  desk_codes : forall a b, a ∈ db_accounts d -> b ∈ db_accounts d -> code a = code b -> acc_org_id a = acc_org_id b \/ acc_org_id a = None -> a = b;
  desk_parents : forall a org, a ∈ db_accounts d -> acc_org_id a = Some org -> exists p, p ∈ db_accounts d /\ below org a p;
  desk_partners : forall i c, db_counterparties d !! i = Some c ->
    KzIdentifiers.is_valid_bin_iin (cp_identifier c) = Ok true /\ exists k, (k < db_seq d)%nat /\ i = gen_random_uuid k;
  desk_numbers : forall i j c c', db_counterparties d !! i = Some c -> db_counterparties d !! j = Some c' -> cp_org c = cp_org c' ->
    cp_identifier c = cp_identifier c' -> i = j;
  desk_lines : forall l, l ∈ db_lines d -> names_own (lr_org l) (lr_account l) (lr_cp l) d
}.

(** What may happen to the books of the desk: of posted entries what the journal allows;
    accounts come, of organizations only, and stay; counterparties stay with theirs. *)
Record desk_evolves (d d' : DB) : Prop := mkDeskEvolves {
  ev_books : evolves d d';
  ev_accounts : forall a, a ∈ db_accounts d -> a ∈ db_accounts d';
  ev_system : forall a, a ∈ db_accounts d' -> acc_org_id a = None -> a ∈ db_accounts d;
  ev_partners : forall i c, db_counterparties d !! i = Some c -> exists c', db_counterparties d' !! i = Some c' /\ cp_org c' = cp_org c;
  ev_seq : (db_seq d <= db_seq d')%nat
}.

#[export] Instance desk_evolves_pre : PreOrder desk_evolves.
Proof.
  split.
  - intros d. constructor; [reflexivity | done | done | by eauto | done].
  - intros d1 d2 d3 [B1 A1 S1 P1 Q1] [B2 A2 S2 P2 Q2]. constructor; [by etrans | auto | auto | | lia].
    intros i c H. destruct (P1 i c H) as (c1 & H1 & E1). destruct (P2 i c1 H1) as (c2 & H2 & E2). exists c2. split; congruence.
Qed.

Lemma names_own_later org account cp d d' : desk_evolves d d' -> names_own org account cp d -> names_own org account cp d'.
Proof.
  intros [_ A _ P _] [(a & Ha & Hv & Hc) Hp]. split; [exists a; auto|]. intros c Ec. destruct (Hp c Ec) as (p & H & <-). by apply P.
Qed.

(** A change of the books that leaves accounts and counterparties alone. *)
Lemma books_move d d' : desk_inv d -> ledger_inv d' -> evolves d d' -> db_accounts d' = db_accounts d ->
  db_counterparties d' = db_counterparties d -> (db_seq d <= db_seq d')%nat ->
  (forall l, l ∈ db_lines d' -> l ∈ db_lines d \/ names_own (lr_org l) (lr_account l) (lr_cp l) d) ->
  desk_inv d' /\ desk_evolves d d'.
Proof.
  intros [B C Pa Pt N L] B' Ev Ea Ep Eq HL.
  assert (desk_evolves d d') as E by (constructor; rewrite ?Ea, ?Ep; by eauto). split; [|exact E].
  constructor; rewrite ?Ea, ?Ep; try done.
  - intros i c H. destruct (Pt i c H) as (H1 & k & Hk & ->). split; [done|]. exists k. split; [lia | done].
  - intros l Hl. destruct (HL l Hl) as [Hl'|Hl']; [|by eapply names_own_later]. by eapply names_own_later, L.
Qed.

Abbreviation desk_env := (guarded_env desk_inv desk_evolves).
Abbreviation desk_guarded := (guarded desk_inv desk_evolves).
Abbreviation desk_safe := (guards desk_inv desk_evolves).

Lemma desk_tick d : desk_inv d -> desk_inv (tick d).
Proof. intros [B C Pa Pt N L]. constructor; try done. exact (proj1 (tick_inv d) B). Qed.

(** What a transaction does to the rest of the tables. *)
Definition same_rest (t t' : Txn) : Prop :=
  db_accounts (tx_db t') = db_accounts (tx_db t) /\ db_counterparties (tx_db t') = db_counterparties (tx_db t) /\
  (db_seq (tx_db t) <= db_seq (tx_db t'))%nat.

Lemma same_rest_trans t1 t2 t3 : same_rest t1 t2 -> same_rest t2 t3 -> same_rest t1 t3.
Proof. intros (A1 & B1 & C1) (A2 & B2 & C2). split_and!; [congruence | congruence | lia]. Qed.

Lemma insert_lines_rest org eid ls : forall t rows t', Journal.insert_lines org eid ls t = (Ok rows, t') -> same_rest t t'.
Proof.
  induction ls as [|l ls IH]; intros t rows t' H; simpl in H; [by injection H as <- <-|].
  st_inv H. st_inv H. injection H as <- <-. apply insert_line_ok in Hs as (r & _ & _ & _ & ->). apply IH in Hs0.
  eapply same_rest_trans; [|exact Hs0]. split_and!; [done | done | cbn; lia].
Qed.

Lemma insert_entry_rest org date desc rev user t e t' : insert_entry org date desc rev user t = (Ok e, t') ->
  same_rest t t' /\ db_lines (tx_db t') = db_lines (tx_db t).
Proof. intros H. apply insert_entry_ok in H as (day & _ & _ & _ & _ & ->). split; [|done]. split_and!; [done | done | cbn; lia]. Qed.

Lemma update_status_rest eid org from to t r t' : update_status eid org from to t = (Ok r, t') ->
  same_rest t t' /\ db_lines (tx_db t') = db_lines (tx_db t).
Proof. intros H. by apply update_status_ok in H as [[-> ->]|(e & _ & _ & _ & _ & _ & ->)]. Qed.

(** Inserted lines name what the lines of the request name. *)
Lemma inserted_names org eid ls t rows t' d : Journal.insert_lines org eid ls t = (Ok rows, t') ->
  Forall (fun l => names_own org (account_code l) (counterparty_id l) d) ls ->
  forall l, l ∈ db_lines (tx_db t') -> l ∈ db_lines (tx_db t) \/ names_own (lr_org l) (lr_account l) (lr_cp l) d.
Proof.
  intros H F. apply insert_lines_ok in H as (rs & Hrs & _ & _ & _ & -> & _). intros l [Hl|Hl]%elem_of_app; [by left | right].
  clear -Hrs F Hl. induction Hrs as [|x r ls rs (_ & Ho & Ha & _ & _ & Hc & _) _ IH]; [by apply elem_of_nil in Hl|].
  apply Forall_cons in F as [F1 F]. apply elem_of_cons in Hl as [->|Hl]; [by rewrite Ho, Ha, Hc | by apply IH].
Qed.

(** *** The journal service *)

Lemma guarded_here w : desk_inv (w_db w) -> desk_env w -> desk_guarded w w.
Proof. apply guarded_refl, _. Qed.

Lemma guarded_on w1 w2 w3 : desk_guarded w1 w2 -> desk_guarded w2 w3 -> desk_guarded w1 w3.
Proof. apply guarded_trans, _. Qed.

Lemma desk_ticked d : desk_evolves d (tick d).
Proof. constructor; cbn; [change (evolves d d); reflexivity | by eauto | by eauto | by eauto | done]. Qed.

Lemma desk_write {A} (body : st Txn A) w : desk_inv (w_db w) -> desk_env w ->
  (forall d a t, desk_inv d -> desk_evolves (w_db w) d -> body (mkTxn d []) = (Ok a, t) ->
     Forall (fun x => journal_entry_must_balance (tx_db t) x = true) (tx_touched t) -> desk_inv (tx_db t) /\ desk_evolves d (tx_db t)) ->
  desk_guarded w (execute_write body w).2.
Proof.
  intros Hi He H. apply write_guarded; [exact _ | done | done|]. intros a t (Hn & _ & R1) Ht Hb.
  pose proof (desk_ticked (w_db (next w))) as K.
  destruct (H (tick (w_db (next w))) a t (desk_tick _ Hn) ltac:(by etrans) Ht Hb) as [H1 H2]. split; [done | by etrans].
Qed.

(** The books after a transaction of the journal. *)
Lemma journal_move d t : desk_inv d -> ledger_inv (tx_db t) -> evolves d (tx_db t) -> same_rest (mkTxn d []) t ->
  (forall l, l ∈ db_lines (tx_db t) -> l ∈ db_lines d \/ names_own (lr_org l) (lr_account l) (lr_cp l) d) ->
  desk_inv (tx_db t) /\ desk_evolves d (tx_db t).
Proof. intros Hi B E (A1 & A2 & A3) L. by apply books_move. Qed.

Lemma validate_lines_names org ls : forall dt ct w r w', desk_inv (w_db w) -> desk_env w -> validate_lines org ls dt ct w = (r, w') ->
  desk_guarded w w' /\ forall x, r = Ok x -> Forall (fun l => names_own org (account_code l) (counterparty_id l) (w_db w')) ls.
Proof.
  induction ls as [|l ls IH]; intros dt ct w r w' Hi He H; cbn [validate_lines] in H.
  { injection H as <- <-. split; [by apply guarded_here | done]. }
  rewrite st_bind_case in H. unfold lift at 1 in H. destruct (Amounts.parse_tiyn (amount l)) as [tiyn|e|]; [|injection H as <- <-; split; [by apply guarded_here | done]..].
  rewrite st_bind_case in H. match type of H with (let (_, _) := ?x in _) = _ => destruct x as [rt w1] eqn:Et end.
  assert (w1 = w) as ->.
  { revert Et. repeat case_match; rewrite ?st_bind_case; unfold lift, throw, mret, st_ret; cbn; try (by inversion 1).
    all: destruct (add64 _ _); by inversion 1. }
  destruct rt as [totals|e|]; [|injection H as <- <-; split; [by apply guarded_here | done]..]. clear Et.
  rewrite st_bind_case, execute_read_eq in H. pose proof (next_guarded _ _ w Hi He) as G1. destruct (G1) as (Hi1 & He1 & _).
  set (w1 := next w) in *. clearbody w1.
  destruct (find_visible org (account_code l) (w_db w1)) as [a|] eqn:Ea.
  2: { rewrite st_bind_case in H. injection H as <- <-. by split. }
  rewrite bool_decide_eq_false_2 in H by done. rewrite (st_bind_ok _ _ w1 tt w1) in H by done.
  assert (exists a, a ∈ db_accounts (w_db w1) /\ visible org a = true /\ code a = account_code l) as V.
  { apply List.find_some in Ea as [Hin [Hv Hc%String.eqb_eq]%andb_true_iff]. exists a. split; [by apply list_elem_of_In|]. by split. }
  destruct (counterparty_id l) as [c|] eqn:Ec.
  - rewrite st_bind_case, st_bind_case, execute_read_eq in H. pose proof (next_guarded _ _ w1 Hi1 He1) as G2. destruct (G2) as (Hi2 & He2 & R2).
    set (w2 := next w1) in *. clearbody w2. destruct (counterparty_in_org c org (w_db w2)) eqn:Ep.
    2: { injection H as <- <-. split; [by eapply guarded_on | done]. }
    cbn [mret st_ret] in H. apply IH in H as [G3 F]; [|done..]. split; [eapply guarded_on; [exact G1 | eapply guarded_on; [exact G2 | exact G3]]|].
    intros x Hx. constructor; [|by apply F with x]. destruct G3 as (_ & _ & R3). rewrite Ec. eapply names_own_later; [exact R3|].
    assert (names_own org (account_code l) None (w_db w2)) as [V2 _] by (eapply names_own_later; [exact R2|]; by split).
    split; [exact V2|]. intros c' [= <-].
    unfold counterparty_in_org in Ep. destruct (db_counterparties _ !! c) as [p|]; [|done]. exists p. split; [done|]. by apply String.eqb_eq.
  - rewrite (st_bind_ok _ _ w1 tt w1) in H by done. apply IH in H as [G3 F]; [|done..]. split; [by eapply guarded_on|].
    intros x Hx. constructor; [|by apply F with x]. destruct G3 as (_ & _ & R3). rewrite Ec. eapply names_own_later; [exact R3|]. by split.
Qed.

Lemma create_draft_desk org user date desc ls : desk_safe (create_draft org user date desc ls).
Proof.
  intros w Hi He. unfold create_draft. destruct (length ls <? 2)%nat; [by apply guarded_here|].
  rewrite st_bind_case. destruct (validate_lines org ls 0 0 w) as [r w1] eqn:E.
  apply validate_lines_names in E as [G F]; [|done..]. destruct r as [[dt ct]|e|]; [|exact G..]. specialize (F _ eq_refl). cbn [fst snd].
  destruct (negb _); [exact G|]. eapply guarded_on; [exact G|]. destruct G as (Hi1 & He1 & _).
  apply desk_write; [done..|]. intros d e t Hd R1 Ht Hb.
  destruct (create_txn_ok d org user date desc ls e t (desk_books d Hd) Ht) as (day & rs & _ & _ & Hrs & _ & Htt & Hl & K).
  destruct K as [K1 K2]; [by eapply touched_balance|]. st_inv Ht. st_inv Ht. injection Ht as _ <-.
  apply insert_entry_rest in Hs as [S1 E1]. pose proof (insert_lines_rest _ _ _ _ _ _ Hs0) as S2.
  apply journal_move; [done | done | done | by eapply same_rest_trans|]. intros l Hlin.
  eapply inserted_names in Hlin; [| exact Hs0 |]; [rewrite E1 in Hlin; exact Hlin|].
  eapply Forall_impl; [exact F|]. intros x. by apply names_own_later.
Qed.

Lemma post_desk org eid : desk_safe (Journal.post org eid).
Proof.
  apply guards_bind; [exact _ | apply guards_read, _|]. intros [e|]; [|apply guards_ret, _].
  destruct (negb _); [apply guards_throw, _|]. apply guards_bind; [exact _ | |].
  - intros w Hi He. apply desk_write; [done..|]. intros d r t Hd _ Ht _. destruct (update_status_rest _ _ _ _ _ _ _ Ht) as [S L].
    destruct (update_status_keeps eid org "draft" "posted" (mkTxn d []) r t (desk_books d Hd) ltac:(by left) Ht) as [K1 K2].
    apply journal_move; [done..|]. rewrite L. by left.
  - intros [row|]; [|apply guards_throw, _]. apply guards_bind; [exact _ | apply guards_read, _|]. intros ls. apply guards_ret, _.
Qed.

Lemma storno_names d org user o ls e t : desk_inv d -> storno_txn org user o ls (mkTxn d []) = (Ok e, t) ->
  Forall (fun l => names_own org (account_code l) (counterparty_id l) d) ls ->
  same_rest (mkTxn d []) t /\ forall l, l ∈ db_lines (tx_db t) -> l ∈ db_lines d \/ names_own (lr_org l) (lr_account l) (lr_cp l) d.
Proof.
  intros Hd Ht F. unfold storno_txn in Ht. st_inv Ht. apply insert_entry_rest in Hs as [S1 E1]. st_inv Ht.
  pose proof (insert_lines_rest _ _ _ _ _ _ Hs) as S2.
  assert (forall l, l ∈ db_lines (tx_db s0) -> l ∈ db_lines d \/ names_own (lr_org l) (lr_account l) (lr_cp l) d) as L.
  { intros l Hl. eapply inserted_names in Hl; [| exact Hs |]; [rewrite E1 in Hl; exact Hl|].
    apply Forall_fmap. eapply Forall_impl; [exact F | done]. }
  st_inv Ht. apply update_status_rest in Hs0 as [S3 E3]. destruct a1 as [prow|]; [|discriminate].
  st_inv Ht. apply update_status_rest in Hs0 as [S4 E4]. destruct a1 as [orow|]; [|discriminate]. injection Ht as _ <-.
  split; [by repeat (eapply same_rest_trans; [eassumption|])|]. by rewrite E4, E3.
Qed.

Lemma loaded_names eid org d e : desk_inv d -> find_in_org eid org d = Some e ->
  Forall (fun l => names_own org (account_code l) (counterparty_id l) d) (load_lines eid d).
Proof.
  intros Hd Hf. unfold find_in_org in Hf. destruct (db_entries d !! eid) as [row|] eqn:He; [|done].
  destruct (String.eqb_spec (er_org row) org) as [<-|]; [|done]. unfold load_lines. apply Forall_fmap, Forall_forall. intros l Hl.
  rewrite merge_sort_Permutation in Hl. unfold lines_of in Hl. apply list_elem_of_filter in Hl as [Hle Hl].
  pose proof (desk_lines d Hd l Hl) as N. destruct (inv_line d (desk_books d Hd) l Hl) as (_ & row' & He' & Ho). cbn.
  rewrite Hle, He in He'. injection He' as <-. by rewrite Ho.
Qed.

Lemma reverse_desk org eid user : desk_safe (Journal.reverse org eid user).
Proof.
  intros w Hi He. unfold Journal.reverse. rewrite st_bind_case, execute_read_eq.
  pose proof (next_guarded _ _ w Hi He) as G1. destruct (G1) as (Hi1 & He1 & R1). set (w1 := next w) in *. clearbody w1.
  destruct (find_in_org eid org (w_db w1)) as [o|] eqn:Eo; [|exact G1]. destruct (String.eqb_spec (status o) "posted") as [Hst|]; cbn [negb]; [|exact G1].
  eapply guarded_on; [exact G1|]. rewrite st_bind_case, execute_read_eq.
  pose proof (next_guarded _ _ w1 Hi1 He1) as G2. destruct (G2) as (Hi2 & He2 & R2). set (w2 := next w1) in *. clearbody w2.
  eapply guarded_on; [exact G2|]. rewrite st_bind_case.
  destruct (execute_write _ w2) as [r w3] eqn:E. assert (desk_guarded w2 w3) as G3; [|by destruct r as [s|x|]].
  change w3 with (r, w3).2. rewrite <- E. apply desk_write; [done..|]. intros d s t Hd R3 Ht Hb.
  assert (exists e2, find_in_org eid org (w_db w2) = Some e2) as (e2 & Ef2).
  { unfold find_in_org in Eo. destruct (db_entries (w_db w1) !! eid) as [row|] eqn:Er; [|done].
    destruct (String.eqb_spec (er_org row) org) as [<-|]; [|done]. injection Eo as <-. cbn in Hst.
    destruct (ev_books _ _ R2 eid row Er ltac:(by rewrite Hst)) as (row' & Hr' & Ho' & _). unfold find_in_org. rewrite Hr', Ho', String.eqb_refl. by eexists. }
  destruct (storno_names d org user o (load_lines eid (w_db w2)) s t Hd Ht) as [S L].
  { eapply Forall_impl; [exact (loaded_names eid org (w_db w2) e2 Hi2 Ef2)|]. intros l. by apply names_own_later. }
  destruct (storno_txn_ok d org user o _ s t (desk_books d Hd) Ht Hb) as (day & rs & oe & K). by apply journal_move; [done | apply K..| |].
Qed.

(** *** Accounts and counterparties *)

Lemma find_visible_None org c d : find_visible org c d = None -> forall a, a ∈ db_accounts d -> visible org a = true -> code a <> c.
Proof.
  intros H a Ha Hv Hc. apply list_elem_of_In in Ha. pose proof (List.find_none _ _ H a Ha) as N. cbv beta in N. unfold visible in Hv.
  rewrite Hv, Hc, String.eqb_refl in N. discriminate.
Qed.

Lemma find_visible_Some org c d a : find_visible org c d = Some a -> a ∈ db_accounts d /\ visible org a = true /\ code a = c.
Proof. intros H. apply List.find_some in H as [Hin [Hv Hc%String.eqb_eq]%andb_true_iff]. split; [by apply list_elem_of_In | by split]. Qed.

Lemma insert_account_desk org c ru kk p d a t : desk_inv d -> p ∈ db_accounts d -> visible org p = true -> String.prefix (code p) c = true ->
  (forall b, b ∈ db_accounts d -> code b = c -> acc_org_id b = None -> False) -> c <> code p ->
  insert_account org c ru kk p (mkTxn d []) = (Ok a, t) -> desk_inv (tx_db t) /\ desk_evolves d (tx_db t).
Proof.
  intros [B C Pa Pt N L] Hp Hv Hx Hsys Hne H. unfold insert_account in H. st_inv H. injection Hs as <- <-. cbn [tx_db] in H.
  destruct (negb _); [discriminate|]. destruct (negb _); [discriminate|]. destruct (existsb _ (db_accounts d)) eqn:Ex; [discriminate|].
  injection H as <- <-. set (a := mkAccount _ _ _ _ _ _ _ _) in *. cbn [tx_db].
  assert (forall b, b ∈ db_accounts d -> code b = c -> acc_org_id b = Some org -> False) as Hown.
  { intros b Hb Hc Ho. apply list_elem_of_In in Hb. rewrite <- not_true_iff_false in Ex. apply Ex. apply existsb_exists. exists b.
    rewrite Hc, String.eqb_refl, bool_decide_eq_true_2 by done. done. }
  match goal with |- desk_inv ?x /\ _ => set (d' := x) end.
  assert (desk_evolves d d') as E.
  { constructor; cbn; [change (evolves d d); reflexivity | by set_solver | | by eauto | lia].
    intros b Hb Ho. apply elem_of_app in Hb as [Hb|Hb]; [done|]. apply list_elem_of_singleton in Hb as ->. discriminate. }
  split; [|exact E]. constructor; cbn.
  - destruct B as [B1 B2 B3 B4 B5]. constructor; try done. intros eid e He. destruct (B3 eid e He) as (k & Hk & ->). exists k. cbn. split; [lia | done].
  - intros x y Hxx Hy Hc Ho. apply elem_of_app in Hxx as [Hxx|Hxx], Hy as [Hy|Hy]; rewrite ?list_elem_of_singleton in *; subst; [by apply C | | | done].
    + exfalso. destruct Ho as [Ho|Ho]; [by apply (Hown x) | by apply (Hsys x)].
    + exfalso. destruct Ho as [Ho|Ho]; [by apply (Hown y) | discriminate].
  - intros x o Hxx Ho. apply elem_of_app in Hxx as [Hxx|Hxx]; rewrite ?list_elem_of_singleton in Hxx; subst.
    + destruct (Pa x o Hxx Ho) as (q & Hq & K). exists q. split; [set_solver | exact K].
    + injection Ho as <-. exists p. split; [set_solver|]. by split_and!.
  - intros i x Hi. destruct (Pt i x Hi) as (H1 & k & Hk & ->). split; [done|]. exists k. split; [lia | done].
  - exact N.
  - intros l Hl. eapply names_own_later; [exact E|]. by apply L.
Qed.

Lemma create_subaccount_desk org c ru kk parent : desk_safe (create_subaccount org c ru kk parent).
Proof.
  intros w Hi He. unfold create_subaccount. rewrite st_bind_case, execute_read_eq.
  pose proof (next_guarded _ _ w Hi He) as G1. destruct (G1) as (Hi1 & He1 & R1). set (w1 := next w) in *. clearbody w1.
  destruct (find_visible org parent (w_db w1)) as [p|] eqn:Ep; [|exact G1]. apply find_visible_Some in Ep as (Hp & Hv & _).
  destruct (String.prefix (code p) c) eqn:Hx; cbn [negb]; [|exact G1]. eapply guarded_on; [exact G1|].
  rewrite st_bind_case, execute_read_eq. pose proof (next_guarded _ _ w1 Hi1 He1) as G2. destruct (G2) as (Hi2 & He2 & R2). set (w2 := next w1) in *. clearbody w2.
  destruct (find_visible org c (w_db w2)) eqn:Ec; [exact G2|]. eapply guarded_on; [exact G2|]. rewrite translate_snd.
  pose proof (find_visible_None _ _ _ Ec) as Hfree. apply (ev_accounts _ _ R2) in Hp.
  apply desk_write; [done..|]. intros d a t Hd R3 Ht _. apply (insert_account_desk org c ru kk p d a t Hd); [by apply (ev_accounts _ _ R3) | done | done | | |exact Ht].
  - intros b Hb Hc Ho. apply (Hfree b); [by apply (ev_system _ _ R3) | by unfold visible; rewrite Ho | done].
  - intros ->. by apply (Hfree p).
Qed.

Lemma digits_plain s : str_all is_digit s = true -> Tenancy.chars s = size s /\ Tenancy.cut_chars (size s) s = (s, "").
Proof.
  induction s as [|c s IH]; [done|]. cbn [str_all]. intros [Hc Hs]%andb_true_iff. destruct (IH Hs) as [E1 E2].
  assert (Tenancy.continues c = false) as F.
  { unfold Tenancy.continues. unfold is_digit in Hc. apply andb_true_iff in Hc as [H1 H2]. destruct (Z.leb_spec 128 (Prelude.code c)); [|done]. lia. }
  change (size (String c s)) with (S (size s)). cbn [Tenancy.chars Tenancy.cut_chars]. rewrite F, E1, E2. done.
Qed.

(** A valid number is stored as it is. *)
Lemma number_stored s : KzIdentifiers.is_valid_bin_iin s = Ok true -> Tenancy.char_in 12 s = Some s.
Proof.
  intros H. assert (size s = 12%nat /\ str_all is_digit s = true) as [Hs Hd].
  { unfold KzIdentifiers.is_valid_bin_iin in H. destruct (Nat.eqb_spec (size s) 12); [|done]. cbn [negb] in H. split; [done|].
    destruct (KzIdentifiers.digits_of s) as [d|] eqn:E; [|done]. clear -E. revert d E. induction s as [|c s IH]; intros d E; [done|]. cbn in E |- *.
    destruct (is_digit c); [|done]. destruct (KzIdentifiers.digits_of s); [by eapply IH | done]. }
  destruct (digits_plain s Hd) as [E1 E2]. rewrite Hs in E1, E2. unfold Tenancy.char_in, Tenancy.varchar_in. rewrite E2. cbn. rewrite E1. cbn. by rewrite app_empty_r.
Qed.

Definition draft_ok (g : Draft) : Prop := KzIdentifiers.is_valid_bin_iin (g_identifier g) = Ok true.

Lemma has_identifier_free org number except d : has_identifier org number except d = false ->
  forall i c, db_counterparties d !! i = Some c -> cp_org c = org -> cp_identifier c = number -> except = Some i.
Proof.
  unfold has_identifier. intros H i c Hi <- <-. destruct (decide (except = Some i)) as [|N]; [done|].
  rewrite <- not_true_iff_false in H. exfalso. apply H. apply existsb_exists. exists (i, c). cbn. split.
  - by apply list_elem_of_In, elem_of_map_to_list.
  - by rewrite !String.eqb_refl, bool_decide_eq_false_2.
Qed.

(** A row that comes or changes, its organization staying. *)
Lemma partner_row_desk d d' i c : desk_inv d -> KzIdentifiers.is_valid_bin_iin (cp_identifier c) = Ok true ->
  (exists k, (k < db_seq d')%nat /\ i = gen_random_uuid k) -> (forall old, db_counterparties d !! i = Some old -> cp_org c = cp_org old) ->
  (forall j x, db_counterparties d !! j = Some x -> cp_org x = cp_org c -> cp_identifier x = cp_identifier c -> j = i) ->
  (db_seq d <= db_seq d')%nat -> db_counterparties d' = <[i := c]> (db_counterparties d) -> db_accounts d' = db_accounts d ->
  db_entries d' = db_entries d -> db_lines d' = db_lines d -> db_orgs d' = db_orgs d -> desk_inv d' /\ desk_evolves d d'.
Proof.
  intros [B C Pa Pt N L] Hok Hid Hold Hu Hq Ep Ea Ee El Eo. destruct B as [B1 B2 B3 B4 B5].
  assert (forall x, lines_of d' x = lines_of d x) as Elo by (intros x; unfold lines_of; by rewrite El).
  assert (desk_evolves d d') as E.
  { constructor; rewrite ?Ea, ?Ep; try done.
    - intros eid e He Hs. exists e. rewrite Ee, Elo. repeat split; auto.
    - intros j x Hj. destruct (decide (i = j)) as [<-|Nj]; [exists c; rewrite lookup_insert_eq; split; [done | by apply Hold] | exists x; by rewrite lookup_insert_ne]. }
  split; [|exact E]. constructor; rewrite ?Ea, ?El; try done.
  - constructor; rewrite ?Ee, ?El, ?Eo; try done.
    + intros eid e He. rewrite Elo. unfold has_lines. rewrite Elo. by apply B1.
    + intros eid e He. destruct (B3 eid e He) as (k & Hk & ->). exists k. split; [lia | done].
  - intros j x. rewrite Ep. intros [[<- <-]|[_ Hj]]%lookup_insert_Some; [by split|]. destruct (Pt j x Hj) as (H1 & k & Hk & ->).
    split; [done|]. exists k. split; [lia | done].
  - intros j1 j2 x1 x2. rewrite Ep. intros [[<- <-]|[N1 H1]]%lookup_insert_Some [[<- <-]|[N2 H2]]%lookup_insert_Some Ho Hn; [done | | | by eapply N].
    + symmetry. by eapply Hu.
    + by eapply Hu.
  - intros l Hl. eapply names_own_later; [exact E|]. by apply L.
Qed.

Lemma create_counterparty_desk org g : draft_ok g -> desk_safe (create_counterparty org g).
Proof.
  intros Hg w Hi He. unfold create_counterparty. rewrite translate_snd. apply desk_write; [done..|]. intros d x t Hd _ Ht _.
  unfold insert_counterparty in Ht. st_inv Ht. injection Hs as <- <-. cbn [tx_db] in Ht. rewrite (number_stored _ Hg) in Ht.
  destruct (negb _); [discriminate|]. destruct (has_identifier _ _ _ d) eqn:Hf; [discriminate|]. injection Ht as _ <-. cbn [tx_db].
  apply (partner_row_desk d _ (gen_random_uuid (db_seq d)) (drafted org (g_identifier g) g (db_now d)) Hd Hg); try done; cbn; try lia.
  - exists (db_seq d). split; [lia | done].
  - intros old Ho. destruct (desk_partners d Hd _ _ Ho) as (_ & k & Hk & Ek). apply uuid_unique in Ek. lia.
  - intros j y Hj Ho Hn. pose proof (has_identifier_free _ _ _ _ Hf j y Hj Ho Hn). discriminate.
Qed.

Lemma update_counterparty_desk org i g : draft_ok g -> desk_safe (update_counterparty org i g).
Proof.
  intros Hg w Hi He. unfold update_counterparty. rewrite translate_snd. apply desk_write; [done..|]. intros d x t Hd _ Ht _.
  unfold patch_counterparty in Ht. st_inv Ht. injection Hs as <- <-. cbn [tx_db] in Ht. unfold counterparty_of in Ht.
  destruct (db_counterparties d !! i) as [old|] eqn:Eo; [|by injection Ht as _ <-].
  destruct (String.eqb_spec (cp_org old) org) as [<-|]; [|by injection Ht as _ <-]. rewrite (number_stored _ Hg) in Ht.
  destruct (has_identifier _ _ _ d) eqn:Hf; [discriminate|]. injection Ht as _ <-. cbn [tx_db].
  apply (partner_row_desk d _ i (drafted (cp_org old) (g_identifier g) g (cp_created old)) Hd Hg); try done; cbn.
  - by apply (desk_partners d Hd _ _ Eo).
  - intros y. rewrite Eo. by intros [= <-].
  - intros j y Hj Ho Hn. pose proof (has_identifier_free _ _ _ _ Hf j y Hj Ho Hn). congruence.
Qed.

(** *** Requests *)

Inductive desk_request :=
| ListEntries (ctx : OrgContext) (from to limit offset : string) | CreateEntry (ctx : OrgContext) (body : option json)
| GetEntry (ctx : OrgContext) (id : string) | PostEntry (ctx : OrgContext) (id : string) | ReverseEntry (ctx : OrgContext) (id : string)
| ListAccounts (ctx : OrgContext) | CreateAccount (ctx : OrgContext) (body : option json)
| ListPartners (ctx : OrgContext) (limit offset : string) | CreatePartner (ctx : OrgContext) (body : option json)
| GetPartner (ctx : OrgContext) (id : string) | PatchPartner (ctx : OrgContext) (id : string) (body : option json).

Definition handle (r : desk_request) : prog World Reply :=
  match r with
  | ListEntries ctx from to limit offset => list_entries ctx from to limit offset
  | CreateEntry ctx body => create_entry ctx body
  | GetEntry ctx id => get_entry ctx id
  | PostEntry ctx id => post_entry ctx id
  | ReverseEntry ctx id => reverse_entry ctx id
  | ListAccounts ctx => list_accounts ctx
  | CreateAccount ctx body => create_account ctx body
  | ListPartners ctx limit offset => list_partners ctx limit offset
  | CreatePartner ctx body => create_partner ctx body
  | GetPartner ctx id => get_partner ctx id
  | PatchPartner ctx id body => patch_partner ctx id body
  end.

Definition in_order (w : World) : Prop := desk_inv (w_db w) /\ desk_env w.
Definition onward (w w' : World) : Prop := desk_evolves (w_db w) (w_db w').

#[export] Instance onward_pre : PreOrder onward.
Proof. split; unfold onward; [by intros w | by intros w1 w2 w3 H1 H2; etrans]. Qed.

Abbreviation calmly := (quiet in_order onward).

Lemma desk_call {A B} (m : st World A) (k : A -> prog World B) w : desk_safe m -> (forall a w', calmly (k a) w') -> calmly (atomic m ≫= k) w.
Proof. intros Hm Hk. apply quiet_call; [|done]. intros w1 [Hi He]. destruct (Hm w1 Hi He) as (? & ? & ?). by split. Qed.

Lemma dated_calm field s (k : prog World Reply) w : calmly k w -> calmly (dated field s k) w.
Proof. intros H. unfold dated. apply quiet_pure. by intros [] _. Qed.

Lemma filtered_safe org from to l o : desk_safe (list_filtered org from to l o).
Proof. (do 2 (apply guards_bind; [exact _ | apply guards_lift, _ | intros ?])); apply guards_read, _. Qed.

Lemma counted_safe org from to : desk_safe (count_filtered org from to).
Proof. (do 2 (apply guards_bind; [exact _ | apply guards_lift, _ | intros ?])); apply guards_read, _. Qed.

Lemma fill_calm body k w : (forall g w', draft_ok g -> calmly (k g) w') -> calmly (validate_and_fill body k) w.
Proof.
  intros H. unfold validate_and_fill. case_match; [|done]. apply quiet_pure. intros [] E; [|done]. by apply H.
Qed.

Lemma desk_handle_calm r w : calmly (handle r) w.
Proof.
  destruct r; cbn [handle]; unfold list_entries, create_entry, get_entry, post_entry, reverse_entry, list_accounts, create_account, list_partners,
    create_partner, get_partner, patch_partner, DocumentFlow.permitted, valid_path, parsed_body, with_repo_errors.
  all: case_match; [|done].
  all: repeat (case_match; try done).
  all: repeat first [apply quiet_pure; intros ? _ | apply dated_calm | apply fill_calm; intros g w1 Hg | progress case_match | done
    | apply quiet_catch
    | apply desk_call; [first [apply guards_read, _ | apply create_draft_desk | apply post_desk | apply reverse_desk | apply create_subaccount_desk
        | by apply create_counterparty_desk | by apply update_counterparty_desk | apply filtered_safe | apply counted_safe] | intros ? ?]].
Qed.

(** What may run: these requests, and whatever else keeps the books. *)
Inductive entered : World -> prog World () -> Prop :=
| enter_request w r : entered w (void (handle r))
| enter_outside w f : (forall d, desk_inv d -> desk_inv (f d) /\ desk_evolves d (f d)) ->
    entered w (Step (fun w' => mkWorld (f (w_db w')) (w_env w')) (fun _ => mret tt)).

Lemma desk_entered_calm w p : entered w p -> calmly p w.
Proof.
  intros [w0 r | w0 f Hf].
  - unfold void. apply quiet_bind; [exact _ | apply desk_handle_calm | intros a w1; apply quiet_done].
  - intros w1 _ [Hi He]. destruct (Hf _ Hi) as [H1 H2]. split; [by split|]. by split.
Qed.

(** *** The trial balance *)

Lemma zsum_split {A} (P : A -> Prop) `{!forall x, Decision (P x)} (f : A -> Z) l :
  zsum (map f l) = zsum (map f (filter P l)) + zsum (map f (filter (fun x => ~ P x) l)).
Proof.
  induction l as [|x l IH]; [done|]. destruct (decide (P x)) as [Hp|Hp].
  - rewrite filter_cons_True, (filter_cons_False (fun x => ~ P x)) by (done || tauto). unfold zsum in *. cbn [map foldr fold_right]. lia.
  - rewrite filter_cons_False, (filter_cons_True (fun x => ~ P x)) by done. unfold zsum in *. cbn [map foldr fold_right]. lia.
Qed.

Lemma filter_agree {A} (P Q : A -> Prop) `{!forall x, Decision (P x)} `{!forall x, Decision (Q x)} (l : list A) :
  (forall x, x ∈ l -> P x <-> Q x) -> filter P l = filter Q l.
Proof.
  induction l as [|x l IH]; intros Hpq; [done|]. assert (filter P l = filter Q l) as E by (apply IH; intros y Hy; apply Hpq; by right).
  pose proof (Hpq x ltac:(left)) as Hx. destruct (decide (P x)) as [Hp|Hp].
  - rewrite !filter_cons_True by tauto. by f_equal.
  - rewrite !filter_cons_False by tauto. done.
Qed.

Lemma filter_empty {A} (P : A -> Prop) `{!forall x, Decision (P x)} (l : list A) : (forall x, x ∈ l -> ~ P x) -> filter P l = [].
Proof.
  induction l as [|x l IH]; intros Hn; [done|]. rewrite filter_cons_False by (apply Hn; left). apply IH. intros y Hy. apply Hn. by right.
Qed.

(** What balances entry by entry balances. *)
Lemma balance_by_entry (es : list string) : forall ls : list LineRow, (forall l, l ∈ ls -> lr_entry l ∈ es) ->
  (forall e, e ∈ es -> diff (filter (fun l => lr_entry l = e) ls) = 0) -> diff ls = 0.
Proof.
  unfold diff. induction es as [|e es IH]; intros ls Hc Hz.
  { destruct ls as [|l ls]; [done|]. by pose proof (Hc l ltac:(left)) as ?%elem_of_nil. }
  rewrite (zsum_split (fun l => lr_entry l = e) signed ls), (Hz e) by left. apply IH.
  - intros l [Hn Hl]%list_elem_of_filter. by apply Hc in Hl as [?|?]%elem_of_cons.
  - intros e' He'. rewrite list_filter_filter. destruct (decide (e' = e)) as [->|N]; [rewrite filter_empty; [done | tauto]|].
    rewrite <- (Hz e') by (by right). do 2 f_equal. apply filter_agree. intros l _. split; [tauto|]. intros <-. by split.
Qed.

Definition lines_of_org (org : string) (d : DB) : list LineRow := filter (fun l => lr_org l = org) (db_lines d).

Lemma trial_balance org d : ledger_inv d -> diff (lines_of_org org d) = 0.
Proof.
  intros I. apply (balance_by_entry (elements (dom (db_entries d)))).
  - intros l [_ Hl]%list_elem_of_filter. destruct (inv_line d I l Hl) as (_ & e & He & _). apply elem_of_elements, elem_of_dom. by eexists.
  - intros eid [e He]%elem_of_elements%elem_of_dom. unfold lines_of_org. rewrite list_filter_filter.
    assert (forall l, l ∈ db_lines d -> lr_entry l = eid -> lr_org l = er_org e) as Ho.
    { intros l Hl <-. destruct (inv_line d I l Hl) as (_ & e' & He' & Ho'). congruence. }
    destruct (decide (er_org e = org)) as [<-|N].
    + destruct (inv_entry d I eid e He) as (_ & Hz & _). rewrite <- Hz. unfold lines_of. f_equal. apply filter_agree.
      intros l Hl. split; [tauto|]. intros E. split; [done | by apply Ho].
    + rewrite filter_empty; [done|]. intros l Hl [E1 E2]. destruct N. rewrite <- (Ho l Hl E1). done.
Qed.

(** C13: The desk keeps the books.  However requests of the three controllers interleave
    with each other and with whatever else keeps the books, every entry balances, and so
    do all lines of an organization together; posted and reversed entries stay as they
    are but for a reversal; every line names an account the organization may use and, if
    any, a counterparty of its own; no code means two accounts to an organization, and
    every subaccount extends the code of an account that organization may use, of the
    same type; counterparties have valid numbers, no two of an organization the same one. *)
Theorem books_desk_kept w w' ps : desk_inv (w_db w) -> desk_env w -> rtc (turn entered) (w, []) (w', ps) ->
  let d := w_db w' in
  (forall eid e, db_entries d !! eid = Some e -> diff (lines_of d eid) = 0) /\ (forall org, diff (lines_of_org org d) = 0) /\
  evolves (w_db w) d /\
  (forall l, l ∈ db_lines d -> names_own (lr_org l) (lr_account l) (lr_cp l) d) /\
  (forall org a b, a ∈ db_accounts d -> b ∈ db_accounts d -> visible org a = true -> visible org b = true -> code a = code b -> a = b) /\
  (forall a org, a ∈ db_accounts d -> acc_org_id a = Some org -> exists p, p ∈ db_accounts d /\ below org a p) /\
  (forall i c, db_counterparties d !! i = Some c -> KzIdentifiers.is_valid_bin_iin (cp_identifier c) = Ok true) /\
  (forall i j c c', db_counterparties d !! i = Some c -> db_counterparties d !! j = Some c' -> cp_org c = cp_org c' -> cp_identifier c = cp_identifier c' -> i = j).
Proof.
  intros Hi He H. destruct (pool_keeps in_order onward entered (fun w p _ => desk_entered_calm w p) (w, []) (w', ps) H) as ([D _] & O & _);
    [by split | by constructor|]. cbn [fst snd] in D, O. cbv zeta.
  pose proof (desk_books _ D) as B. split; [intros eid e Hx; by apply (inv_entry _ B eid e Hx)|]. split; [intros org; by apply trial_balance|].
  split; [by apply O|]. split; [apply D|]. split; [|split; [apply D|]; split; [intros i c Hx; by apply (desk_partners _ D i c Hx) | apply D]].
  intros org a b Ha Hb Va Vb Hc. unfold visible in Va, Vb.
  destruct (acc_org_id a) as [oa|] eqn:Ea; [|by apply (desk_codes _ D); auto].
  destruct (acc_org_id b) as [ob|] eqn:Eb; [|symmetry; by apply (desk_codes _ D); auto].
  apply String.eqb_eq in Va, Vb. subst. apply (desk_codes _ D); [done..|]. left. congruence.
Qed.

(** *** An entry is the one that was asked for *)

(** What a line of the request says. *)
Definition asks (item : json) (l : JournalLine) : Prop :=
  text_field "account_code" item = Some (account_code l) /\ text_field "side" item = Some (side l) /\ text_field "amount" item = Some (amount l) /\
  counterparty_id l = Requests.uuid_key <$> text_field "counterparty_id" item /\ vat_amount l = text_field "vat_amount" item.

Lemma taken_clean {A} (o : option A) d c errs a : taken o d c errs = ([], a) -> errs = [] /\ o = Some a.
Proof. unfold taken, Validation.add. destruct o; [by intros [= -> ->]|]. intros [= E _]. by destruct errs. Qed.

Lemma present_text item k : text_field k item = match Validation.present item k with Some (JString s) => Some s | _ => None end.
Proof. unfold text_field, Validation.present. destruct (member k item) as [[]|]; done. Qed.

Lemma parse_line_clean item errs o : parse_line item errs = ([], o) -> errs = [] /\ exists l, o = Some l /\ asks item l.
Proof.
  unfold parse_line. destruct item; try (unfold Validation.add; intros [= E _]; by destruct errs). set (item := JObject _).
  destruct (taken (account_field item) _ _ _) as [e1 account] eqn:E1. destruct (taken (text_field "side" item) _ _ _) as [e2 sd] eqn:E2.
  destruct (taken (text_field "amount" item) _ _ _) as [e3 amt] eqn:E3. destruct (taken (counterparty_field item) _ _ _) as [e4 cp] eqn:E4.
  destruct (taken (vat_field item) _ _ _) as [e5 vat] eqn:E5. intros [= -> <-].
  apply taken_clean in E5 as [-> F5]. apply taken_clean in E4 as [-> F4]. apply taken_clean in E3 as [-> F3]. apply taken_clean in E2 as [-> F2].
  apply taken_clean in E1 as [-> F1]. split; [done|]. eexists. split; [reflexivity|]. unfold asks. cbn [account_code side amount counterparty_id vat_amount].
  split; [unfold account_field in F1; destruct (text_field "account_code" item) as [[|]|]; congruence|]. split; [done|]. split; [done|]. rewrite !present_text. split.
  - unfold counterparty_field in F4. destruct (Validation.present item "counterparty_id") as [[]|]; try discriminate; [destruct (is_valid_uuid s); [|done]|]; by injection F4 as <-.
  - unfold vat_field in F5. destruct (Validation.present item "vat_amount") as [[]|]; try discriminate; by injection F5 as <-.
Qed.

Lemma parse_lines_clean items : forall errs ls, parse_lines items errs = ([], ls) -> errs = [] /\ Forall2 asks items ls.
Proof.
  induction items as [|item items IH]; intros errs ls; cbn [parse_lines]; [by intros [= -> <-]|].
  destruct (parse_line item errs) as [e1 o] eqn:E1. destruct (parse_lines items e1) as [e2 rest] eqn:E2. intros [= -> <-].
  apply IH in E2 as [-> F]. apply parse_line_clean in E1 as (-> & l & -> & Hl). split; [done|]. by constructor.
Qed.

Lemma draft_reply_refuses e : http (draft_reply e) = 422 \/ http (draft_reply e) = 500.
Proof. unfold draft_reply. case_match; cbn; tauto. Qed.

Lemma execute_read_alone {A} (q : DB -> A) d : execute_read q (mkWorld d []) = (Ok (q d), mkWorld d []).
Proof. done. Qed.

Lemma validate_lines_alone org ls : forall dt ct d, (validate_lines org ls dt ct (mkWorld d [])).2 = mkWorld d [].
Proof.
  induction ls as [|l ls IH]; intros dt ct d; cbn [validate_lines]; [done|].
  rewrite st_bind_case. unfold lift at 1. destruct (Amounts.parse_tiyn (amount l)); [|done..].
  rewrite st_bind_case. match goal with |- (let (_, _) := ?x in _).2 = _ => destruct x as [rt w1] eqn:Et end.
  assert (w1 = mkWorld d []) as ->.
  { revert Et. repeat case_match; rewrite ?st_bind_case; unfold lift, throw, mret, st_ret; cbn; try (by inversion 1).
    all: destruct (add64 _ _); by inversion 1. }
  destruct rt as [totals|e|]; [|done..]. rewrite st_bind_case, execute_read_alone, st_bind_case. destruct (bool_decide _); [done|]. cbn [mret st_ret].
  rewrite st_bind_case. destruct (counterparty_id l) as [c|]; [rewrite st_bind_case, execute_read_alone; destruct (counterparty_in_org c org d); [|done]|]; apply IH.
Qed.

(** A draft that is not made leaves the books as they were. *)
Lemma create_draft_refused org user date desc ls d r w' : create_draft org user date desc ls (mkWorld d []) = (r, w') -> (forall e, r <> Ok e) -> w' = mkWorld d [].
Proof.
  unfold create_draft. destruct (length ls <? 2)%nat; [by intros [= <- <-]|]. rewrite st_bind_case.
  pose proof (validate_lines_alone org ls 0 0 d) as E. destruct (validate_lines org ls 0 0 (mkWorld d [])) as [[t|e|] w1]; cbn [snd] in E; subst; [|by intros [= <- <-]..].
  destruct (negb _); [by intros [= <- <-]|]. intros H N. by apply execute_write_inv in H as [(a & t' & -> & _)|[-> _]]; [destruct (N a)|].
Qed.

(** A stored line that says what the line of the request says; the amount in hundredths. *)
Definition stored_as (item : json) (r : LineRow) : Prop :=
  text_field "account_code" item = Some (lr_account r) /\ text_field "side" item = Some (lr_side r) /\
  (exists s, text_field "amount" item = Some s /\ Amounts.parse_tiyn s = Ok (lr_amount r)) /\
  lr_cp r = Requests.uuid_key <$> text_field "counterparty_id" item.

Lemma asked_is_stored org eid items : forall ls ts rs, Forall2 asks items ls -> Forall2 line_ok ls ts -> Forall2 (row_for org eid) ls rs -> map lr_amount rs = ts ->
  Forall2 stored_as items rs.
Proof.
  induction items as [|item items IH]; intros ls ts rs HA HL HR HT; inversion HA; subst; inversion HL; subst; inversion HR; subst; constructor.
  - cbn in *. simplify_eq. destruct H1 as (A1 & A2 & A3 & A4 & _).
    repeat match goal with H : row_for _ _ _ _ |- _ => destruct H as (_ & _ & R1 & R2 & _ & R3 & _) | H : line_ok _ _ |- _ => destruct H as [L1 _] end.
    unfold stored_as. rewrite R1, R2, R3. split; [done|]. split; [done|]. split; [by eexists | done].
  - cbn in *. simplify_eq. by eapply IH.
Qed.

(** The entry a draft makes when nobody else commits. *)
Lemma create_draft_entries org user date desc ls d e w' : ledger_inv d -> create_draft org user date desc ls (mkWorld d []) = (Ok e, w') ->
  exists row, db_entries d !! id e = None /\ db_entries (w_db w') = <[id e := row]> (db_entries d).
Proof.
  intros Hd. unfold create_draft. destruct (length ls <? 2)%nat; [done|]. rewrite st_bind_case.
  pose proof (validate_lines_alone org ls 0 0 d) as E. destruct (validate_lines org ls 0 0 (mkWorld d [])) as [[t|x|] w1]; cbn [snd] in E; subst; [|done..].
  destruct (negb _); [done|]. intros H. apply execute_write_inv in H as [(a & t' & [= ->] & Ht & _ & ->)|[_ N]]; [|by destruct (N e)].
  apply create_txn_ok in Ht as (day & rs & _ & -> & _ & Hen & _); [|by apply (proj1 (tick_inv d))]. eexists. split; [|exact Hen]. by apply (fresh_uuid d Hd).
Qed.

(** C14: An accepted entry is the entry that was asked for, and a refused one is nothing.
    When nobody else commits meanwhile, the answer to a new entry is 201 and the books
    hold one entry more, a draft of the organization with the date and the text of the
    request, by its user, and with one line for each line of the request, in its order,
    of its account, side, amount and counterparty, the debits and credits being equal and
    positive; or it is 400, 403, 422 or 500, and the books are as they were. *)
Theorem entry_as_requested ctx body d rep w' : desk_inv d -> alone (create_entry ctx (Some body)) (mkWorld d []) = (Ok rep, w') ->
  (http rep = 201 /\ exists items day eid row, array_field "lines" body = Some items /\ date_in (text_or "" "entry_date" body) = Some day /\
     db_entries d !! eid = None /\ db_entries (w_db w') = <[eid := row]> (db_entries d) /\
     er_org row = ctx_org ctx /\ er_date row = day /\ er_desc row = text_or "" "description" body /\ er_status row = "draft" /\ er_user row = Some (user_id ctx) /\
     Forall2 stored_as items (lines_of (w_db w') eid) /\ (2 <= length items)%nat /\ diff (lines_of (w_db w') eid) = 0 /\
     Forall (fun r => 0 < lr_amount r) (lines_of (w_db w') eid)) \/
  (http rep ∈ [400; 403; 422; 500] /\ w' = mkWorld d []).
Proof.
  intros Hd H.
  unfold create_entry, DocumentFlow.permitted, parsed_body in H.
  destruct (Agent.allows _ _ _); [|injection H as <- <-; right; split; [|done]; cbn; set_solver].
  destruct (entry_errors body) as [|er ers] eqn:Ee; [|injection H as <- <-; right; split; [|done]; cbn; set_solver].
  cbv zeta in H. unfold dated in H. destruct (Validation.is_valid_date _) as [[]|e|]; [|injection H as <- <-; right; split; [|done]; cbn; set_solver|done..].
  rewrite pure_ok in H. destruct (parse_lines _ []) as [[|er ers] ls] eqn:Ep; [|injection H as <- <-; right; split; [|done]; cbn; set_solver].
  rewrite alone_catch, alone_bind, alone_atomic in H.
  destruct (create_draft _ _ _ _ ls (mkWorld d [])) as [[e|x|] w1] eqn:Ec; [|pose proof (create_draft_refused _ _ _ _ _ _ _ _ Ec ltac:(done)) as ->|done].
  2: { injection H as <- <-. right. split; [|done]. destruct (draft_reply_refuses x) as [-> | ->]; set_solver. }
  injection H as <- <-. left. split; [done|].
  destruct (create_draft_entries _ _ _ _ _ _ _ _ (desk_books _ Hd) Ec) as (row & Hfresh & Hins).
  pose proof (create_draft_safe (ctx_org ctx) (user_id ctx) (text_or "" "entry_date" body) (text_or "" "description" body) ls (mkWorld d []) (desk_books _ Hd) (Forall_nil_2 _)) as (Hw & _). rewrite Ec in Hw. cbn [snd] in Hw.
  apply create_draft_inv in Ec as (Hn & ts & d1 & row1 & rs & HL & Hz & _ & Hday & Erow & _ & _ & Hins1 & Hlo & HR & HT); [|by apply desk_books | constructor].
  assert (row1 = row) as ->.
  { assert (db_entries (w_db w1) !! id e = Some row) as F by (rewrite Hins; apply lookup_insert_eq). rewrite Hins1, lookup_insert_eq in F. by injection F. }
  destruct (array_field "lines" body) as [items|] eqn:Ei; [|by injection Ep as <-; cbn in Hn; lia].
  apply parse_lines_clean in Ep as [_ HA]. exists items, (er_date row), (id e), row. rewrite Hlo.
  do 4 (split; [done|]). split; [by rewrite Erow|]. split; [done|]. do 3 (split; [by rewrite Erow|]). split; [by eapply asked_is_stored|]. split; [by rewrite (Forall2_length _ _ _ HA)|].
  destruct (inv_entry _ Hw (id e) row ltac:(rewrite Hins; apply lookup_insert_eq)) as (_ & Hdiff & _). split; [by rewrite <- Hlo|].
  apply Forall_forall. intros r Hr. rewrite <- Hlo in Hr. unfold lines_of in Hr. apply list_elem_of_filter in Hr as [_ Hr]. by apply (inv_line _ Hw r Hr).
Qed.
End Kept.

(** ** A day at the desk *)

Module Example.
Import JournalDb.Reference.

#[local] Existing Instance uuid_server.

Definition chart : list Account :=
  map (fun c => mkAccount c.1 None c.1 c.1 "" c.2 None false) [("1030", "asset"); ("1210", "asset"); ("6010", "income")].
Definition books : DB := mkDB {["org"; "other"]} {["someone"]} ∅ [] chart ∅ 0 7.
Definition start : World := mkWorld books [].
Definition clerk : OrgContext := mkCtx "org" "accountant" "someone".
Definition stranger : OrgContext := mkCtx "other" "accountant" "someone".
Definition personnel : OrgContext := mkCtx "org" "hr" "someone".

Definition partner : json := JObject [("identifier", JString "104332181962"); ("name", JString "TOO Alma")].
Definition subaccount (c parent : string) : json := JObject [("code", JString c); ("name_ru", JString "Kaspi"); ("parent_code", JString parent)].
Definition item (account sd amt : string) (cp : json) : json :=
  JObject [("account_code", JString account); ("amount", JString amt); ("counterparty_id", cp); ("side", JString sd)].
Definition entry (items : list json) : json :=
  JObject [("description", JString "sale"); ("entry_date", JString "2026-03-02"); ("lines", JArray items)].
Definition sale (cp : json) : json := entry [item "1030.1" "debit" "150.50" JNull; item "6010" "credit" "150.50" cp].

Definition with_partner : World := (alone (create_partner clerk (Some partner)) start).2.
Definition with_account : World := (alone (create_account clerk (Some (subaccount "1030.1" "1030"))) with_partner).2.
Definition selling : prog World Reply := create_entry clerk (Some (sale (JString (id_text 0)))).
Definition sold : World := (alone selling with_account).2.
Definition status_of (x : outcome Reply * World) : Z * string := match x.1 with Ok r => (http r, Http.code r) | _ => (0, "") end.

Example desk_flow :
  map status_of
    [alone (create_partner clerk (Some partner)) start; alone (create_partner clerk (Some partner)) with_partner;
     alone (create_account clerk (Some (subaccount "1030.1" "1030"))) with_partner; alone (create_account clerk (Some (subaccount "1030" "1030"))) with_partner;
     alone (create_account clerk (Some (subaccount "2030" "1030"))) with_partner; alone (create_account stranger (Some (subaccount "1030.1.1" "1030.1"))) with_account;
     alone selling with_account; alone selling with_partner; alone (create_entry stranger (Some (sale JNull))) with_account;
     alone (create_entry clerk (Some (sale (JString (id_text 7))))) with_account; alone (create_entry personnel (Some (sale JNull))) with_account;
     alone (post_entry clerk (id_text 2)) sold; alone (reverse_entry clerk (id_text 2)) sold; alone (get_entry stranger (id_text 2)) sold]
  = [(201, ""); (409, "counterparty_identifier_taken"); (201, ""); (409, "account_code_taken"); (422, "invalid_subaccount"); (422, "invalid_subaccount");
     (201, ""); (422, "validation_failed"); (422, "validation_failed"); (422, "validation_failed"); (403, "org_role_denied");
     (200, ""); (409, "invalid_entry_state"); (404, "not_found")].
Proof. vm_compute. reflexivity. Qed.

Lemma books_in_order : desk_inv books.
Proof.
  constructor; cbn; try (intros *; rewrite ?lookup_empty; done).
  - split; cbn; intros x; [intros ? Hx; by rewrite lookup_empty in Hx | intros Hx; by apply elem_of_nil in Hx | intros ? Hx; by rewrite lookup_empty in Hx..].
  - unfold chart. cbn. intros a b Ha Hb. rewrite !elem_of_cons, !elem_of_nil in Ha, Hb.
    destruct Ha as [->|[->|[->|[]]]], Hb as [->|[->|[->|[]]]]; done.
  - unfold chart. cbn. intros a org Ha. rewrite !elem_of_cons, !elem_of_nil in Ha. by destruct Ha as [->|[->|[->|[]]]].
  - intros l Hl. by apply elem_of_nil in Hl.
Qed.

Lemma with_account_in_order : desk_inv (w_db with_account).
Proof.
  assert (in_order start) as G by (split; [exact books_in_order | constructor]).
  pose proof (proj1 (quiet_alone in_order onward _ _ (desk_handle_calm (CreatePartner clerk (Some partner)) start) G)) as G1.
  exact (proj1 (proj1 (quiet_alone in_order onward _ _ (desk_handle_calm (CreateAccount clerk (Some (subaccount "1030.1" "1030"))) with_partner) G1))).
Qed.

Lemma books_desk_kept_witness :
  let s := schedule [0; 0; 1]%nat (with_account, [void selling; void (create_account clerk (Some (subaccount "6010.5" "6010")))]) in
  (length (db_lines (w_db s.1)), length (db_accounts (w_db s.1))) = (2%nat, 5%nat) /\ diff (lines_of_org "org" (w_db s.1)) = 0.
Proof.
  intros s. split; [vm_compute; reflexivity|].
  apply (books_desk_kept with_account s.1 s.2 with_account_in_order (Forall_nil_2 _)).
  rewrite <- surjective_pairing. apply schedule_reached.
  apply Forall_cons_2; [exact (enter_request with_account (CreateEntry clerk (Some (sale (JString (id_text 0))))))|].
  apply Forall_cons_2; [exact (enter_request with_account (CreateAccount clerk (Some (subaccount "6010.5" "6010")))) | apply Forall_nil_2].
Defined.

Lemma entry_as_requested_witness : exists eid, map lr_amount (lines_of (w_db sold) eid) = [15050; 15050] /\ diff (lines_of (w_db sold) eid) = 0.
Proof.
  destruct (alone selling with_account) as [r w'] eqn:E.
  assert (status_of (r, w') = (201, "")) as S by (rewrite <- E; vm_compute; reflexivity). destruct r as [rep|e|]; [|discriminate..].
  destruct (entry_as_requested clerk (sale (JString (id_text 0))) (w_db with_account) rep w' with_account_in_order E)
    as [(_ & items & day & eid & row & Hi & _ & _ & _ & _ & _ & _ & _ & _ & F & _ & Z & _)|[N _]].
  - exists eid. unfold sold. rewrite E. split; [|exact Z]. assert (Some items = Some [item "1030.1" "debit" "150.50" JNull; item "6010" "credit" "150.50" (JString (id_text 0))]) as [= ->] by (rewrite <- Hi; reflexivity).
    clear Z. revert F. cbn [snd]. generalize (lines_of (w_db w') eid). intros rs F.
    inversion F as [|? r1 ? ? (_ & _ & (s1 & A1 & P1) & _) F1]; subst. inversion F1 as [|? r2 ? ? (_ & _ & (s2 & A2 & P2) & _) F2]; subst. inversion F2; subst.
    cbn in A1, A2. injection A1 as <-. injection A2 as <-. assert (Amounts.parse_tiyn "150.50" = Ok 15050) as P by (vm_compute; reflexivity). rewrite P in P1, P2. cbn [map]. congruence.
  - exfalso. injection S as S _. rewrite S in N. rewrite !elem_of_cons, elem_of_nil in N. by destruct N as [?|[?|[?|[?|[]]]]].
Defined.
End Example.
End Bookdesk.
