(* ===== verification/Worker.v ===== *)
(** * The worker

    src/jobs/Dispatcher.hpp, BuiltinHandlers.hpp and the loop of src/worker_main.cpp over
    the queue of Jobs: handlers by job type, one iteration of a worker thread (the
    maintenance passes, a pick, the handler, the report of its outcome), what a worker
    does when it starts, and the handlers of src/api/JobsController.hpp with the listings
    they read.  A handler works on a state of its own beside the queue's. *)
From Stdlib Require Import ZArith Lia Ascii String.
From S2P Require Import Prelude Utils Json Jobs Threads Requests Auth.
Import Json Jobs Http.
Open Scope string_scope.
Open Scope Z_scope.
Set Warnings "-clear-no-such-hyp".

Module Worker.

(** [try { m } catch (const std::exception& e) { h }]: death of the process is no exception. *)
Definition try_ {S A} (m : st S A) (h : exn -> st S A) : st S A := fun s =>
  match m s with
  | (Throw e, s') => if bool_decide (exn_cls e = process_death) then (Throw e, s') else h e s'
  | r => r
  end.

(** A call on one of two states. *)
Definition on_fst {S T A} (m : st S A) : st (S * T) A := fun s => let '(o, x) := m (fst s) in (o, (x, snd s)).
Definition on_snd {S T A} (m : st T A) : st (S * T) A := fun s => let '(o, x) := m (snd s) in (o, (fst s, x)).

(** ** Handlers by job type *)

Section Dispatch.
Context {W : Type}.

(** [Dispatcher]: src/jobs/Dispatcher.hpp:28-32. *)
Definition Handler := json -> st W json.
Definition Dispatcher := gmap string Handler.

(** [register_handler]: src/jobs/Dispatcher.hpp:39-39. *)
Definition register_handler (t : string) (fn : Handler) (d : Dispatcher) : Dispatcher := <[t := fn]> d.

(** [has_handler]: src/jobs/Dispatcher.hpp:41-41. *)
Definition has_handler (d : Dispatcher) (t : string) : bool := bool_decide (is_Some (d !! t)).

(** [known_types]: src/jobs/Dispatcher.hpp:45-51.  In the order of some table. *)
Definition known_types (d : Dispatcher) : list string := (map_to_list d).*1.

(** [unregistered]: src/jobs/Dispatcher.hpp:57-63. *)
Definition unregistered (d : Dispatcher) (subscribed : list string) : list string :=
  List.filter (fun t => negb (has_handler d t)) subscribed.

(** [dispatch]: src/jobs/Dispatcher.hpp:68-73. *)
Definition dispatch (d : Dispatcher) (job : Job) : st W json :=
  match (d !! type job : option Handler) with
  | None => throw PermanentJobError ("no handler for job type: " +:+ type job)
  | Some h => h (payload job)
  end.

(** [register_builtin_handlers]: src/jobs/BuiltinHandlers.hpp:46-46. *)
Definition echo : Handler := fun body => mret body.
(** [register_builtin_handlers]: src/jobs/BuiltinHandlers.hpp:47-53.  (The pause left out.) *)
Definition slow : Handler := fun body =>
  let seconds := match member "seconds" body with Some (JInt z) => Z.max 1 (Z.min (wrap32 z) 30) | _ => 2 end in
  mret (JObject [("message", JString "done"); ("slept_seconds", JInt seconds)]).
(** [register_builtin_handlers]: src/jobs/BuiltinHandlers.hpp:54-55. *)
Definition fail_ : Handler := fun _ => throw std_runtime_error "intentional failure for testing".

(** [register_builtin_handlers]: src/jobs/BuiltinHandlers.hpp:33-56. *)
Definition register_builtin_handlers (account_email email_send webhook : Handler) (d : Dispatcher) : Dispatcher :=
  register_handler "fail" fail_ (register_handler "slow" slow (register_handler "echo" echo
    (register_handler "webhook.deliver" webhook (register_handler "email.send" email_send
       (register_handler "account_email" account_email d))))).

End Dispatch.
Arguments Handler : clear implicits.
Arguments Dispatcher : clear implicits.

(** ** A worker thread *)

Section Loop.
Context `{UuidSource} {W : Type} (q : JobQueue) (d : Dispatcher W).

(** [worker_loop]: src/worker_main.cpp:148-151. *)
Definition maintenance : st JW unit := best_effort (promote_due_jobs q ;; reap_expired_leases q ;; mret tt).

(** [worker_loop]: src/worker_main.cpp:143-179.  Up to the job and its span, whose trace id is [trace]. *)
Definition take_job (types : list string) (worker trace : string) : st JW (option Job) :=
  maintenance ;;
  job ← pick q types worker;
  match job with
  | None => mret None
  | Some j => try_ (set_trace_id q (id j) trace) (fun _ => mret tt) ;; mret (Some j)
  end.

(** [worker_loop]: src/worker_main.cpp:217-241.  What is reported of an exception of the handler. *)
Definition report (job : Job) (e : exn) : st JW unit :=
  match exn_cls e with
  | PermanentJobError => dead_letter q (id job) (what e)
  | not_std => fail q (id job) "non-std exception in handler"
  | _ => fail q (id job) (what e)
  end.

(** [worker_loop]: src/worker_main.cpp:210-241. *)
Definition run_job (job : Job) : st (JW * W) unit :=
  try_ (result ← on_snd (dispatch d job); on_fst (complete q (id job) result)) (fun e => on_fst (report job e)).

(** [worker_loop]: src/worker_main.cpp:142-247.  One iteration; an exception that is left over ends it. *)
Definition cycle (types : list string) (worker trace : string) : st (JW * W) unit :=
  try_ (job ← on_fst (take_job types worker trace); match job with None => mret tt | Some j => run_job j end) (fun _ => mret tt).

(** Time goes by, and the jobs whose time has come are forgotten. *)
Definition elapse (ms : Z) : st JW unit := fun s => (Ok tt, perform q (Wait ms) s).

(** [worker_loop]: src/worker_main.cpp:130-251.  One iteration after each wait, until the shutdown is seen. *)
Fixpoint worker_loop (types : list string) (worker trace : string) (waits : list Z) : st (JW * W) unit :=
  match waits with
  | [] => mret tt
  | ms :: rest => on_fst (elapse ms) ;; cycle types worker trace ;; worker_loop types worker trace rest
  end.

(** ** Start *)

(** The name of a thread. *)
Definition thread_id (base : string) (k : nat) : string := base +:+ "-" +:+ to_string (Z.of_nat k).

Fixpoint each {S A} (f : A -> st S unit) (l : list A) : st S unit :=
  match l with [] => mret tt | a :: r => f a ;; each f r end.

(** [main]: src/worker_main.cpp:434-449.  What an earlier instance left. *)
Definition rescue (base : string) (concurrency : nat) : st JW unit :=
  each (fun w => recover_processing q w ;; mret tt) (base :: map (thread_id base) (seq 0 concurrency)).

(** The values a range-for goes through. *)
Definition range_values (j : json) : list json :=
  match j with JArray l => l | JObject l => map snd l | JNull => [] | x => [x] end.

(** [main]: src/worker_main.cpp:474-481.  The types of the configuration, up to the first that is no string. *)
Fixpoint texts (l : list json) : list string := match l with JString s :: r => s :: texts r | _ => [] end.
Definition configured_types (cfg : json) : list string :=
  match member "worker" cfg with
  | Some w => match member "types" w with Some l => texts (range_values l) | None => [] end
  | None => []
  end.

(** [main]: src/worker_main.cpp:470-489. *)
Definition worker_types (csv : string) (cfg : json) : list string :=
  match Utils.Strings.split_csv_vec csv with
  | [] => match configured_types cfg with [] => known_types d | l => l end
  | l => l
  end.

(** [main]: src/worker_main.cpp:495-515.  The exit code of a refusal, or the types served. *)
Definition guard_rail (strict : bool) (types : list string) : Z + list string :=
  match unregistered d types with [] => inr types | _ => if strict then inl 1 else inr types end.

End Loop.

(** ** Listings (src/jobs/Jobs.hpp) *)

(** [j.at(k)]. *)
Definition at_ (k : string) (j : json) : outcome json :=
  match j with
  | JObject l => match obj_get k l with Some v => Ok v | None => Throw (Exn json_out_of_range "key not found") end
  | _ => type_error
  end.

(** [from_json]: src/jobs/Job.hpp:80-96. *)
Definition from_json (j : json) : outcome Job :=
  i ← at_ "id" j ≫= get_string;
  t ← at_ "type" j ≫= get_string;
  p ← value Ok "payload" (JObject []) j;
  s ← at_ "status" j ≫= get_string;
  r ← value Ok "result" JNull j;
  e ← value_string "error" "" j;
  w ← value_string "worker_id" "" j;
  tr ← value_string "trace_id" "" j;
  tp ← value_string "traceparent" "" j;
  rc ← value_int "retry_count" 0 j;
  mr ← value_int "max_retries" 3 j;
  c ← value_int "created_at" 0 j;
  u ← value_int "updated_at" 0 j;
  Ok (mkJob i t p s r e w tr tp (wrap32 rc) (wrap32 mr) (get_ll c) (get_ll u)).

(** A blob is the job its text parses to. *)
Lemma job_roundtrip j : in_i32 (retry_count j) = true -> in_i32 (max_retries j) = true ->
  in_i64 (created_at j) = true -> in_i64 (updated_at j) = true -> from_json (job_json j) = Ok j.
Proof.
  unfold in_i32, in_i64. intros H1 H2 H3 H4. destruct j as [i t p s r e w tr tp rc mr c u]. cbn in H1, H2, H3, H4.
  change (Ok (mkJob i t p s r e w tr tp (wrap32 rc) (wrap32 mr) (get_ll c) (get_ll u)) = Ok (mkJob i t p s r e w tr tp rc mr c u)).
  rewrite !get_ll_id by bound64. unfold wrap32. rewrite !Z.mod_small by bound64. do 2 f_equal; lia.
Qed.

Section Listing.
Context (q : JobQueue).

(** ZREVRANGE: members from the highest score down, then by name. *)
Definition newest (z : gmap string Z) : list string :=
  rev (map fst (stable_sort (fun a b => (a.2 <? b.2) || (a.2 =? b.2) && String.ltb a.1 b.1) (map_to_list z))).
Definition index_of (k : string) (r : Redis) : gmap string Z := default ∅ (indexes r !! k).
Definition zrevrange (k : string) (limit offset : nat) : st JW (list string) :=
  cmd (fun r => (take limit (drop offset (newest (index_of k r))), r)).
Definition mget (ids : list string) : st JW (list (option Job)) := cmd (fun r => (map (fun i => fst <$> blobs r !! i) ids, r)).
Definition zrem_index (k i : string) : st JW unit := write (set_index k (delete i)).

Record JobPage := mkJobPage { page_jobs : list Job; page_total : Z }.

(** [list_paged]: src/jobs/Jobs.hpp:756-766. *)
Definition stale_of (ids : list string) (vals : list (option Job)) : list string :=
  omap (fun x => match snd x with None => Some (fst x) | Some _ => None end) (zip ids vals).
(** [list_paged]: src/jobs/Jobs.hpp:770-776. *)
Definition heal (ty : string) (stale : list string) : st JW unit :=
  each (fun i => best_effort (zrem_index ty i ;; if String.eqb ty "" then mret tt else zrem_index "" i)) stale.

(** [list_paged]: src/jobs/Jobs.hpp:737-780. *)
Definition list_paged (ty : string) (limit offset : nat) : st JW JobPage :=
  check_initialized q ;;
  ids ← zrevrange ty limit offset;
  jobs ← match ids with
         | [] => mret []
         | _ => vals ← mget ids; heal ty (stale_of ids vals) ;; mret (omap (fun o => o) vals)
         end;
  total ← cmd (fun r => (Z.of_nat (base.size (index_of ty r)), r));
  mret (mkJobPage jobs total).

(** [fetch_jobs_by_ids_]: src/jobs/Jobs.hpp:870-893. *)
Definition fetch_jobs_by_ids (ids : list string) : st JW (list Job) :=
  match ids with [] => mret [] | _ => vals ← mget ids; mret (omap (fun o => o) vals) end.

(** [list_dlq]: src/jobs/Jobs.hpp:406-420. *)
Definition list_dlq (ty : string) (limit : nat) : st JW (list Job) :=
  check_initialized q ;;
  ids ← (if String.eqb ty "" then cmd (fun r => (elements (dlq_all r), r)) else cmd (fun r => (take limit (lst (dlqs r) ty), r)));
  fetch_jobs_by_ids (take limit ids).

(** [dlq_depth]: src/jobs/Jobs.hpp:458-466. *)
Definition dlq_depth : st JW Z :=
  if negb (initialized q) then mret 0 else catch (cmd (fun r => (Z.of_nat (base.size (dlq_all r)), r))) (mret 0).

(** One LLEN per key of a SCAN; what was counted before an error is kept. *)
Fixpoint depths (get : Redis -> gmap string (list string)) (keys : list string) (out : gmap string Z) : st JW (gmap string Z) :=
  match keys with
  | [] => mret out
  | k :: rest =>
      n ← catch (l ← cmd (fun r => (lst (get r) k, r)); mret (Some (Z.of_nat (length l)))) (mret None);
      match n with None => mret out | Some n => depths get rest (<[k := n]> out) end
  end.
(** SCAN over the keys of a prefix: those whose list is not empty. *)
Definition depth_by_type (get : Redis -> gmap string (list string)) : st JW (gmap string Z) :=
  if negb (initialized q) then mret ∅
  else
    keys ← catch (cmd (fun r => ((map_to_list (filter (fun e => e.2 <> []) (get r))).*1, r))) (mret []);
    depths get keys ∅.

(** [dlq_depth_by_type]: src/jobs/Jobs.hpp:473-498. *)
Definition dlq_depth_by_type : st JW (gmap string Z) := depth_by_type dlqs.
(** [queue_depth_by_type]: src/jobs/Jobs.hpp:509-530. *)
Definition queue_depth_by_type : st JW (gmap string Z) := depth_by_type queues.

(** ** Handlers (src/api/JobsController.hpp) *)

Context `{UuidSource} (cfg : option Auth.AuthConfig) (who : option Auth.AuthPrincipal).

(** The guards every handler begins with. *)
Definition as_operator (k : st JW Reply) : st JW Reply :=
  match Auth.require_admin cfg who with
  | Some e => mret (refusal e.1 e.2)
  | None =>
      if negb (initialized q) then mret (refusal 503 "jobs_disabled")
      else try_ k (fun _ => mret (refusal 500 "internal_error"))
  end.
Definition valid_id (i : string) (k : st JW Reply) : st JW Reply :=
  if negb (Requests.is_valid_uuid i) then mret (refusal 400 "invalid_uuid") else k.

(** [listJobs]: src/api/JobsController.hpp:41-58. *)
Definition listJobs (type_param limit_param offset_param : string) : st JW Reply :=
  as_operator (
    let pp := Requests.parse_page_params limit_param offset_param 20 200 in
    page ← list_paged type_param (Z.to_nat (Requests.limit pp)) (Z.to_nat (Requests.offset pp));
    mret (paginated (map job_json (page_jobs page)) (page_total page) pp)).

(** [submitJob]: src/api/JobsController.hpp:60-86.  The trace of the request is ambient. *)
Definition submitJob (current_traceparent : string) (parsed : option json) : st JW Reply :=
  as_operator (
    match parsed with
    | None => mret (refusal 400 "invalid_json")
    | Some body =>
        match Validation.string_length body "type" 1 255 (Validation.require body "type" []) with
        | [] =>
            ty ← lift (at_ "type" body ≫= get_string);
            content ← lift (value Ok "payload" (JObject []) body);
            retries ← lift (value_int "max_retries" (-1) body);
            job ← submit q ty content (wrap32 retries) current_traceparent;
            mret (mkReply 201 "" (JObject [("data", job_json job); ("message", JString "Job submitted")]))
        | errs => mret (invalid errs 400)
        end
    end).

(** [getJobStatus]: src/api/JobsController.hpp:88-108. *)
Definition getJobStatus (i : string) : st JW Reply :=
  as_operator (valid_id i (
    job ← get_status q i;
    mret match job with None => refusal 404 "not_found" | Some j => wrapped 200 (job_json j) end)).

(** [listDlq]: src/api/JobsController.hpp:110-127. *)
Definition listDlq (type_param limit_param : string) : st JW Reply :=
  as_operator (
    jobs ← list_dlq type_param (Z.to_nat (Requests.clamp_int limit_param 100 1 500));
    depth ← dlq_depth;
    mret (mkReply 200 "" (JObject [("count", JInt (Z.of_nat (length jobs))); ("data", JArray (map job_json jobs)); ("depth", JInt depth)]))).

(** [requeueDlq]: src/api/JobsController.hpp:129-148. *)
Definition requeueDlq (i : string) : st JW Reply :=
  as_operator (valid_id i (
    moved ← requeue_from_dlq q i;
    mret (if (moved : bool) then mkReply 200 "" (JObject [("id", JString i); ("message", JString "Job requeued from DLQ")])
          else refusal 404 "not_found"))).

(** [cancelJob]: src/api/JobsController.hpp:150-168. *)
Definition cancelJob (i : string) : st JW Reply :=
  as_operator (valid_id i (
    cancelled ← cancel q i;
    mret (if (cancelled : bool) then mkReply 200 "" (JObject [("message", JString "Job cancelled")]) else refusal 404 "not_found"))).

End Listing.

(** ** What an operation leaves alone *)

Section Frames.
Context `{UuidSource} (q : JobQueue).
Context (Hq : initialized q = true) (Hv : visibility_timeout_ms q <= 0).
(** The jobs in progress, each with the worker that has it. *)
Context (X : string -> string -> Prop).

Definition ids_ok (r : Redis) : Prop := forall i j ttl, blobs r !! i = Some (j, ttl) -> id j = i.
Definition pinned (r : Redis) : Prop := forall x w, X x w -> at_spot x (OnProc w) r.
Definition spare (i : string) : Prop := forall w, ~ X i w.

Record spared (r r' : Redis) : Prop := {
  sp_slice : forall x w, X x w -> same_slice x r r';
  sp_ids : ids_ok r -> ids_ok r';
  sp_procs : forall w y, y ∈ lst (procs r') w -> y ∈ lst (procs r) w
}.

#[export] Instance spared_preorder : PreOrder spared.
Proof.
  split; [by split|]. intros r1 r2 r3 [A1 A2 A3] [B1 B2 B3].
  split; [intros x w Hx; transitivity r2; eauto | auto | auto].
Qed.

Lemma at_spot_slice i s r r' : same_slice i r r' -> at_spot i s r -> at_spot i s r'.
Proof.
  intros (A1 & A2 & A3 & A4 & A5 & A6 & A7) [C1 C2 C3 C4 C5 C6].
  split; intros; rewrite ?A2, ?A3, ?A4, ?A5, ?A6; auto. apply C6. by rewrite <- A7.
Qed.

Lemma pinned_spared r r' : spared r r' -> pinned r -> pinned r'.
Proof. intros [Hs _ _] Hp x w Hx. eapply at_spot_slice; eauto. Qed.

(** The call moves no job in progress; [Q] holds of its result. *)
Definition spares {A} (Q : A -> Prop) (op : st JW A) : Prop :=
  forall r u m, ids_ok r -> pinned r ->
  exists o r' u', op (calm r u m) = (o, calm r' u' m) /\ spared r r' /\ forall a, o = Ok a -> Q a.

Abbreviation leaves := (spares (fun _ => True)).

Lemma spares_bind {A B} (Q : A -> Prop) (R : B -> Prop) (op : st JW A) (f : A -> st JW B) :
  spares Q op -> (forall a, Q a -> spares R (f a)) -> spares R (op ≫= f).
Proof.
  intros H1 H2 r u m Hi Hp. rewrite st_bind_case. destruct (H1 r u m Hi Hp) as (o & r1 & u1 & -> & S1 & HQ).
  destruct o as [a|e|]; [|by exists (Throw e), r1, u1|by exists Undef, r1, u1].
  destruct (H2 a (HQ a eq_refl) r1 u1 m) as (o & r2 & u2 & E & S2 & HR);
    [by apply (sp_ids _ _ S1) | by eapply pinned_spared |].
  exists o, r2, u2. split; [exact E|]. split; [by transitivity r1 | done].
Qed.

Lemma spares_ret {A} (Q : A -> Prop) a : Q a -> spares Q (mret a : st JW A).
Proof. intros Ha r u m _ _. exists (Ok a), r, u. split; [done|]. split; [reflexivity|]. by intros ? [= <-]. Qed.

Lemma spares_lift {A} (Q : A -> Prop) (o : outcome A) : (forall a, o = Ok a -> Q a) -> spares Q (lift o : st JW A).
Proof. intros Ha r u m _ _. exists o, r, u. split; [done|]. split; [reflexivity | done]. Qed.

Lemma spares_gets {A} (f : JW -> A) : leaves (gets f).
Proof. intros r u m _ _. exists (Ok (f (calm r u m))), r, u. split; [done|]. split; [reflexivity | done]. Qed.

Lemma spares_catch {A} (Q : A -> Prop) (op h : st JW A) : spares Q op -> spares Q h -> spares Q (catch op h).
Proof.
  intros H1 H2 r u m Hi Hp. unfold catch. destruct (H1 r u m Hi Hp) as (o & r1 & u1 & -> & S1 & HQ).
  destruct o as [a|e|]; [by exists (Ok a), r1, u1 | | by exists Undef, r1, u1].
  case_bool_decide; [by exists (Throw e), r1, u1|].
  destruct (H2 r1 u1 m) as (o & r2 & u2 & E & S2 & HR); [by apply (sp_ids _ _ S1) | by eapply pinned_spared |].
  exists o, r2, u2. split; [exact E|]. split; [by transitivity r1 | done].
Qed.

Lemma spares_try {A} (Q : A -> Prop) (op : st JW A) h : spares Q op -> (forall e, spares Q (h e)) -> spares Q (try_ op h).
Proof.
  intros H1 H2 r u m Hi Hp. unfold try_. destruct (H1 r u m Hi Hp) as (o & r1 & u1 & -> & S1 & HQ).
  destruct o as [a|e|]; [by exists (Ok a), r1, u1 | | by exists Undef, r1, u1].
  case_bool_decide; [by exists (Throw e), r1, u1|].
  destruct (H2 e r1 u1 m) as (o & r2 & u2 & E & S2 & HR); [by apply (sp_ids _ _ S1) | by eapply pinned_spared |].
  exists o, r2, u2. split; [exact E|]. split; [by transitivity r1 | done].
Qed.

Lemma spares_cmd {A} (Q : A -> Prop) (f : Redis -> A * Redis) :
  (forall r, ids_ok r -> pinned r -> spared r (f r).2 /\ Q (f r).1) -> spares Q (cmd f).
Proof.
  intros Hf r u m Hi Hp. unfold cmd. cbn [events calm redis uuids now_ms]. destruct (Hf r Hi Hp) as [Hs HQ].
  destruct (f r) as [a r']. exists (Ok a), r', u. split; [done|]. split; [exact Hs|]. by intros ? [= <-].
Qed.

Lemma spares_read {A} (f : Redis -> A) : leaves (cmd (fun r => (f r, r))).
Proof. apply spares_cmd. intros r _ _. split; [reflexivity | done]. Qed.

Lemma spares_write (f : Redis -> Redis) : (forall r, spared r (f r)) -> leaves (write f).
Proof. intros Hf. apply spares_cmd. intros r _ _. split; [apply Hf | done]. Qed.

Lemma leaves_any {A} (Q : A -> Prop) (op : st JW A) : spares Q op -> leaves op.
Proof. intros H1 r u m Hi Hp. destruct (H1 r u m Hi Hp) as (o & r' & u' & E & S' & _). exists o, r', u'. done. Qed.

Lemma leaves_check : leaves (check_initialized q).
Proof. unfold check_initialized. rewrite Hq. by apply spares_ret. Qed.

(** One structure at a time. *)
Lemma moves f r : (forall x w, X x w -> same_slice x r (f r)) -> (blobs (f r) = blobs r) -> (procs (f r) = procs r) -> spared r (f r).
Proof. intros H1 H2 H3. split; [done | intros Hi i j ttl; rewrite H2; apply Hi | intros w y; by rewrite H3]. Qed.

Lemma other i x w : spare i -> X x w -> x <> i.
Proof. intros Hs Hx ->. by apply (Hs w). Qed.

Lemma spared_blob i v r : spare i -> id v.1 = i -> spared r (set_blobs <[i := v]> r).
Proof.
  intros Hs Hv'. split; [intros x w Hx; apply slice_blob; by apply (other _ _ w) | | done].
  intros Hi k j ttl. cbn. rewrite lookup_insert. case_decide; [intros [= ->]; by subst | apply Hi].
Qed.
Lemma spared_queue t f r : (forall x w l, X x w -> x ∈ f l <-> x ∈ l) -> spared r (set_queue t f r).
Proof. intros Hs. apply (moves (set_queue t f)); try done. intros x w Hx. apply slice_queue. intros l. by apply (Hs x w). Qed.
Lemma spared_off_proc w' i r : spare i -> spared r (set_proc w' (without i) r).
Proof.
  intros Hs. split; [intros x w Hx; apply slice_proc; intros; by apply without_other, (other _ _ w) | done|].
  intros w y. cbn. rewrite lst_insert. case_decide; [subst|done]. rewrite in_without. tauto.
Qed.
Lemma spared_dlq t i r : spare i -> spared r (set_dlq t (cons i) r) /\ spared r (set_dlq t (without i) r).
Proof.
  intros Hs. split; [apply (moves (set_dlq t (cons i))) | apply (moves (set_dlq t (without i)))]; try done;
    intros x w Hx; apply slice_dlq; intros; [by apply cons_other, (other _ _ w) | by apply without_other, (other _ _ w)].
Qed.
Lemma spared_all i r : spare i -> spared r (set_dlq_all (union {[i]}) r) /\ spared r (set_dlq_all (fun s => s ∖ {[i]}) r).
Proof.
  intros Hs. split; [apply (moves (set_dlq_all (union {[i]}))) | apply (moves (set_dlq_all (fun s => s ∖ {[i]})))]; try done;
    intros x w Hx; apply slice_all; pose proof (other _ _ w Hs Hx); set_solver.
Qed.
Lemma spared_delayed i z r : spare i -> spared r (set_delayed <[i := z]> r) /\ spared r (set_delayed (delete i) r).
Proof.
  intros Hs. split; [apply (moves (set_delayed <[i := z]>)) | apply (moves (set_delayed (delete i)))]; try done;
    intros x w Hx; apply slice_delayed; intros; pose proof (other _ _ w Hs Hx);
    [by rewrite lookup_insert_ne | by rewrite lookup_delete_ne].
Qed.
Lemma spared_index k f r : spared r (set_index k f r).
Proof. apply (moves (set_index k f)); [intros; apply slice_index | done | done]. Qed.

(** The job that is read has the id it is read by. *)
Definition is_job (i : string) (o : option Job) : Prop := match o with Some j => id j = i | None => True end.

Lemma get_spares i : spares (is_job i) (redis_get i).
Proof.
  apply spares_cmd. intros r Hi _. split; [reflexivity|]. cbn. destruct (blobs r !! i) as [[j ttl]|] eqn:E; [|done]. by apply (Hi i j ttl).
Qed.
Lemma dumped_spares j : leaves (dumped j).
Proof. unfold dumped. case_match; [by apply spares_ret | by apply (spares_lift _ (Throw _))]. Qed.
Lemma set_spares i j : spare i -> id j = i -> leaves (redis_set i j).
Proof.
  intros. eapply spares_bind; [apply dumped_spares | intros _ _]. apply spares_write. intros r. by apply spared_blob.
Qed.
Lemma push_spares t i : spare i -> leaves (lpush_queue t i).
Proof. intros. apply spares_write. intros r. apply spared_queue. intros x w l Hx. by apply cons_other, (other _ _ w). Qed.
Lemma lrem_spares w i : spare i -> leaves (lrem_proc w i).
Proof. intros. apply spares_write. intros r. by apply spared_off_proc. Qed.
Lemma best_spares (op : st JW unit) : leaves op -> leaves (best_effort op).
Proof. intros. apply spares_catch; [done | by apply spares_ret]. Qed.
Lemma release_spares j i : spare i -> leaves (release j i).
Proof. intros. unfold release. case_match; [by apply spares_ret | by apply best_spares, lrem_spares]. Qed.
Lemma clear_spares i : leaves (clear_lease q i).
Proof. unfold clear_lease. rewrite (proj2 (Z.leb_le _ _) Hv). by apply spares_ret. Qed.

(** [spares_step]: one command or test of an operation on an id that is nobody's. *)
Ltac spares_step :=
  lazymatch goal with
  | |- spares _ (check_initialized q ;; _) => eapply spares_bind; [apply leaves_check | intros _ _]
  | |- spares _ (redis_get _ ≫= _) => eapply spares_bind; [apply get_spares | intros [?|] ?; cbn [is_job] in *]
  | |- spares _ (_ ≫= _) => eapply (spares_bind (fun _ => True)); [|intros ? _]
  | |- spares _ (mret _) => by apply spares_ret
  | |- spares _ (lift _) => by apply spares_lift
  | |- spares _ (throw _ _) => by apply (spares_lift _ (Throw _))
  | |- spares _ (not_found _) => by apply (spares_lift _ (Throw _))
  | |- spares _ now_epoch => apply spares_gets
  | |- spares _ (dumped _) => apply dumped_spares
  | |- spares _ clock => apply spares_gets
  | |- spares _ (release _ _) => by apply release_spares
  | |- spares _ (clear_lease _ _) => apply clear_spares
  | |- spares _ (redis_set _ _) => by apply set_spares
  | |- spares _ (lpush_queue _ _) => by apply push_spares
  | |- spares _ (lrem_proc _ _) => by apply lrem_spares
  | |- spares _ (best_effort _) => apply best_spares
  | |- spares _ (catch _ _) => apply spares_catch
  | |- spares _ (write (set_blobs _)) => apply spares_write; intros; by apply spared_blob
  | |- spares _ (write (set_dlq _ _)) => apply spares_write; intros; by apply spared_dlq
  | |- spares _ (write (set_dlq_all _)) => apply spares_write; intros; by apply spared_all
  | |- spares _ (write (set_delayed _)) => apply spares_write; intros; by apply spared_delayed
  | |- spares _ (write (set_index _ _)) => apply spares_write; intros; apply spared_index
  | |- spares _ (if _ then _ else _) => case_match
  | |- spares _ (let _ := _ in _) => cbv zeta
  end.
Ltac spares := repeat spares_step.

Lemma complete_spares i res : spare i -> leaves (complete q i res).
Proof. intros Hs. unfold complete. spares. Qed.
Lemma fail_spares i err : spare i -> leaves (fail q i err).
Proof. intros Hs. unfold fail. spares. Qed.
Lemma dead_letter_spares i err : spare i -> leaves (dead_letter q i err).
Proof. intros Hs. unfold dead_letter. spares. Qed.
Lemma requeue_spares i : spare i -> leaves (requeue_from_dlq q i).
Proof. intros Hs. unfold requeue_from_dlq. spares. Qed.
Lemma cancel_spares i : spare i -> leaves (cancel q i).
Proof.
  intros Hs. unfold cancel. spares. all: try (apply spares_write; intros; apply spared_queue; intros x w l Hx; by apply without_other, (other _ _ w)).
Qed.
Lemma trace_spares i trace : spare i -> leaves (set_trace_id q i trace).
Proof. intros Hs. unfold set_trace_id. spares. Qed.

(** A job in progress is not parked, and not on another worker's list. *)
Lemma parked_spare r x z : pinned r -> delayed r !! x = Some z -> spare x.
Proof. intros Hp Hz w Hx. pose proof (proj1 (at_delayed _ _ _ (Hp _ _ Hx))) as E. rewrite Hz in E. by specialize (E (mk_is_Some _ _ eq_refl)). Qed.

Lemma queued_spare r x t : pinned r -> x ∈ lst (queues r) t -> spare x.
Proof. intros Hp Ht w Hx. by apply (at_queue _ _ _ (Hp _ _ Hx)) in Ht. Qed.

Lemma listed_spare r x w : (forall y, ~ X y w) -> pinned r -> x ∈ lst (procs r) w -> spare x.
Proof.
  intros Hw Hp Ht w' Hx. apply (at_proc _ _ _ (Hp _ _ Hx)) in Ht. injection Ht as ->. by apply (Hw x).
Qed.

Lemma due_in now z x : x ∈ due now z -> is_Some (z !! x).
Proof.
  unfold due. intros Hx. apply elem_of_map in Hx as ([y s] & -> & Hy). cbn.
  rewrite stable_sort_perm in Hy. apply list_elem_of_In, filter_In in Hy as [Hy _].
  apply list_elem_of_In, elem_of_map_to_list in Hy. by exists s.
Qed.

Lemma promote_one_spares i n : spare i -> leaves (promote_one i n).
Proof.
  intros Hs. unfold promote_one. eapply (spares_bind (fun _ => True)).
  - apply spares_cmd. intros r _ _. split; [by apply spared_delayed | done].
  - intros [] _; spares.
Qed.

Lemma promote_loop_spares ids : Forall spare ids -> forall n, leaves (promote_loop ids n).
Proof.
  induction 1 as [|i ids Hi Hids IH]; intros n; cbn [promote_loop]; [spares|].
  eapply (spares_bind (fun _ => True)); [|intros k _; apply IH].
  apply spares_catch; [by apply promote_one_spares | spares].
Qed.

Lemma promote_spares : leaves (promote_due_jobs q).
Proof.
  unfold promote_due_jobs. case_match; [spares|]. eapply (spares_bind (fun _ => True)); [apply spares_gets | intros now _].
  eapply (spares_bind (fun o => match o with Some ids => Forall spare ids | None => True end)).
  - apply spares_catch; [|by apply spares_ret]. eapply (spares_bind (Forall spare)); [|intros l Hl; by apply spares_ret].
    apply spares_cmd. intros r _ Hp. split; [reflexivity|]. apply Forall_forall. intros x Hx. apply due_in in Hx as [z Hz].
    by eapply parked_spare.
  - intros [ids|] Hids; [by apply promote_loop_spares | spares].
Qed.

Lemma reap_spares : leaves (reap_expired_leases q).
Proof. unfold reap_expired_leases. rewrite (proj2 (Z.leb_le _ _) Hv), orb_true_r. spares. Qed.

Lemma maintenance_spares : leaves (maintenance q).
Proof. unfold maintenance. spares; [apply promote_spares | apply reap_spares]. Qed.

Lemma recover_loop_spares ids : Forall spare ids -> forall n, leaves (recover_loop ids n).
Proof. induction 1 as [|i ids Hi Hids IH]; intros n; cbn [recover_loop]; spares. apply IH. Qed.

Lemma recover_spares w : (forall x, ~ X x w) -> leaves (recover_processing q w).
Proof.
  intros Hw. unfold recover_processing. eapply spares_bind; [apply leaves_check | intros _ _]. case_match; [spares|].
  eapply (spares_bind (fun o => match o with Some ids => Forall spare ids | None => True end)).
  - apply spares_catch; [|by apply spares_ret]. eapply (spares_bind (Forall spare)); [|intros l Hl; by apply spares_ret].
    apply spares_cmd. intros r _ Hp. split; [reflexivity|]. apply Forall_forall. intros x Hx. by eapply listed_spare.
  - intros [ids|] Hids; [|spares]. eapply (spares_bind (fun _ => True)); [by apply recover_loop_spares|]. intros n _.
    eapply (spares_bind (fun _ => True)); [apply best_spares | intros _ _; spares].
    intros r u m Hi Hp. exists (Ok tt), (set_proc w (fun _ => []) r), u. split; [done|]. split; [|done].
    split; [|done|].
    + intros x w' Hx. repeat split; cbn; auto; rewrite lst_insert; case_decide as E; subst; auto; intros Hin.
      * by apply elem_of_nil in Hin.
      * apply (at_proc _ _ _ (Hp _ _ Hx)) in Hin. injection Hin as ->. by destruct (Hw x).
    + intros w' y. cbn. rewrite lst_insert. case_decide; [by intros ?%elem_of_nil | done].
Qed.

Lemma typed r u i j ttl : jobs_inv q r u -> blobs r !! i = Some (j, ttl) -> Json.utf8 (type j) = true.
Proof. intros Hi Hb. pose proof (inv_writable q _ _ _ _ _ Hi Hb) as Hwr. rewrite writable_parts, !andb_true_iff in Hwr. tauto. Qed.

Lemma pick_pinned types worker r u m : Json.utf8 worker = true -> jobs_inv q r u -> pinned r -> worker <> "" ->
  match pick q types worker (calm r u m) with
  | (Ok None, s) => s = calm r u m
  | (Ok (Some j), s) => exists r', s = calm r' u m /\ jobs_inv q r' u /\ at_spot (id j) (OnProc worker) r' /\ pinned r' /\ spare (id j) /\ Json.utf8 (type j) = true /\
      (forall w y, y ∈ lst (procs r') w -> y ∈ lst (procs r) w \/ w = worker /\ y = id j)
  | _ => False
  end.
Proof.
  intros Hu Hi Hp Hw. destruct (pick_cases q Hq types worker r u m Hu Hi) as [->|(t & x & rest & j & ttl & f & Hpop & Hb & Hid & Hf & _ & ->)]; [done|].
  pose proof (claimed_keeps q t x worker rest j ttl f m r u Hu Hi Hpop Hb Hw Hf) as Hi'.
  cbn [id taken_by touched with_worker with_status]. rewrite Hid. exists (claimed q t x worker rest j f m r). split; [done|]. split; [done|].
  assert (Hx : x ∈ lst (queues r) t).
  { apply pop_right_spec in Hpop. rewrite Hpop. apply elem_of_app. right. by left. }
  assert (Hs : spare x) by by eapply queued_spare.
  assert (E : procs (claimed q t x worker rest j f m r) = <[worker := f (lst (procs r) worker)]> (procs r)) by (unfold claimed; cbn zeta; by case_match).
  split; [|split; [|split; [exact Hs|split; [by apply (typed r u x j ttl)|]]]].
  - destruct (inv_job _ _ _ Hi' x) as (s & Ha & _). pose proof (proj1 (at_proc _ _ _ Ha worker)) as H1.
    rewrite E, lst_insert, decide_True in H1 by done. by rewrite (H1 (push_in _ _ Hf _)) in Ha.
  - intros y w Hy. apply (at_spot_slice y _ r); [|by apply Hp]. eapply claimed_slice; [exact Hi | exact Hpop | exact Hf | by apply (other _ _ w)].
  - intros w y. rewrite E, lst_insert. case_decide as Ew; [subst w | auto]. intros Hy. destruct (decide (y = x)) as [->|Hne]; [auto|].
    left. by apply (push_other _ _ Hf).
Qed.

Lemma ids_of r u : jobs_inv q r u -> ids_ok r.
Proof. intros Hi i j ttl Hb. destruct (inv_at _ _ _ _ _ _ Hi Hb) as (s & _ & Hk). apply (k_id _ _ _ _ Hk). Qed.

End Frames.

(** ** Workers at work *)

Section System.
Context `{UuidSource} {W : Type} (q : JobQueue) (d : Dispatcher W).

(** The queue, the handlers' state, and the job each worker has in hand. *)
Record System := mkSystem { jobs : JW; app : W; held : gmap string Job }.

(** What happens: requests to the queue, the two halves of an iteration of a worker,
    the start of a worker in the place of one that died, and time. *)
Inductive action :=
| Ask (ty : string) (body : json) (retries : Z) (tp : string)
| Again (i : string)
| Withdraw (i : string)
| Begin (types : list string) (worker trace : string)
| Finish (worker : string)
| Restart (worker : string)
| Pass (ms : Z).

Definition with_jobs (f : JW -> JW) (s : System) : System := mkSystem (f (jobs s)) (app s) (held s).

Definition begin_ (types : list string) (worker trace : string) : st JW (option Job) := try_ (take_job q types worker trace) (fun _ => mret None).
Definition finish_ (j : Job) : st (JW * W) unit := try_ (run_job q d j) (fun _ => mret tt).

(** A handler that never returns leaves its worker with the job in hand. *)
Definition act (a : action) (s : System) : System :=
  match a with
  | Ask ty body retries tp => with_jobs (fun jw => (submit q ty body (wrap32 retries) tp jw).2) s
  | Again i => with_jobs (fun jw => (requeue_from_dlq q i jw).2) s
  | Withdraw i => with_jobs (fun jw => (cancel q i jw).2) s
  | Begin types w trace =>
      match held s !! w with
      | Some _ => s
      | None =>
          match begin_ types w trace (jobs s) with
          | (Ok (Some j), jw) => mkSystem jw (app s) (<[w := j]> (held s))
          | (_, jw) => mkSystem jw (app s) (held s)
          end
      end
  | Finish w =>
      match held s !! w with
      | None => s
      | Some j =>
          let '(o, (jw, a)) := finish_ j (jobs s, app s) in
          mkSystem jw a (match o with Ok _ => delete w (held s) | _ => held s end)
      end
  | Restart w => mkSystem (recover_processing q w (jobs s)).2 (app s) (delete w (held s))
  | Pass ms => with_jobs (fun jw => (elapse q ms jw).2) s
  end.

(** The two halves make the iteration. *)
Lemma cycle_halves types w trace jw a :
  cycle q d types w trace (jw, a) =
  match begin_ types w trace jw with
  | (Ok None, jw') => (Ok tt, (jw', a))
  | (Ok (Some j), jw') => finish_ j (jw', a)
  | (Throw e, jw') => (Throw e, (jw', a))
  | (Undef, jw') => (Undef, (jw', a))
  end.
Proof.
  unfold cycle, begin_, finish_, try_, on_fst. rewrite st_bind_case. cbn [fst snd].
  destruct (take_job q types w trace jw) as [[[j|]|e|] jw']; [done | done | | done]. by case_bool_decide.
Qed.

(** No type has the name of the index of the dead; a worker has a name; what is taken back
    is neither in progress nor waiting out a backoff. *)
Definition orderly (a : action) (s : System) : Prop :=
  match a with
  | Ask ty _ _ _ => ty <> "_all"
  | Begin _ w _ | Restart w => w <> "" /\ Json.utf8 w = true
  | Withdraw i => delayed (redis (jobs s)) !! i = None /\ forall w j, held s !! w = Some j -> id j <> i
  | _ => True
  end.

Fixpoint history (s : System) (l : list action) : Prop :=
  match l with [] => True | a :: r => orderly a s /\ history (act a s) r end.
Definition after (s : System) (l : list action) : System := fold_left (fun s a => act a s) l s.

(** The queue is in order, and what is on a worker's list is the job it has in hand. *)
Record in_order (s : System) : Prop := {
  io_calm : events (jobs s) = [];
  io_inv : jobs_inv q (redis (jobs s)) (uuids (jobs s));
  io_held : forall w j, held s !! w = Some j -> at_spot (id j) (OnProc w) (redis (jobs s));
  io_typed : forall w j, held s !! w = Some j -> Json.utf8 (type j) = true;
  io_listed : forall w i, i ∈ lst (procs (redis (jobs s))) w -> exists j, held s !! w = Some j /\ id j = i
}.

Context (Hq : initialized q = true) (Hv : visibility_timeout_ms q <= 0) (Hd : default_max_retries q <= I32_MAX).

Definition in_hand (h : gmap string Job) (x w : string) : Prop := exists j, h !! w = Some j /\ id j = x.

Lemma io_pinned s : in_order s -> pinned (in_hand (held s)) (redis (jobs s)).
Proof. intros Hs x w (j & Hj & <-). by apply (io_held _ Hs). Qed.

(** What a handler throws says so in UTF-8. *)
Definition legible : Prop := forall t h body a e a', (d !! t : option (Handler W)) = Some h -> h body a = (Throw e, a') ->
  exn_cls e <> process_death -> Json.utf8 (what e) = true.
Context (Hleg : legible).

(** A call that keeps the queue's invariant and spares what is in hand. *)
Definition spares_here {A} (h : gmap string Job) (op : st JW A) (jw : JW) : Prop := pinned (in_hand h) (redis jw) ->
  exists o r' u', op jw = (o, calm r' u' (now_ms jw)) /\ spared (in_hand h) (redis jw) r'.

Lemma kept_call {A} s (P : Redis -> Prop) (op : st JW A) h :
  in_order s -> good q P op -> P (redis (jobs s)) -> spares_here h op (jobs s) -> (forall w, h !! w = held s !! w \/ h !! w = None) ->
  (forall r', spared (in_hand h) (redis (jobs s)) r' -> (op (jobs s)).2 = calm r' (uuids (op (jobs s)).2) (now_ms (jobs s)) ->
     jobs_inv q r' (uuids (op (jobs s)).2) -> forall w i, i ∈ lst (procs r') w -> in_hand h i w) ->
  in_order (mkSystem (op (jobs s)).2 (app s) h).
Proof.
  intros Hs Hg Hp Hf Hh Hl. destruct s as [[r ev u m] a h0]. pose proof (io_calm _ Hs) as He. cbn in *. subst ev.
  change (mkJW r [] u m) with (calm r u m) in *.
  assert (Hpin : pinned (in_hand h) r).
  { intros x w (j & Hj & <-). apply (io_held _ Hs). cbn. destruct (Hh w) as [<- | E]; [done | congruence]. }
  destruct (Hg r u m (io_inv _ Hs) Hp) as (x & r' & u' & E & Hi').
  destruct (Hf Hpin) as (o & r2 & u2 & E2 & Hsp). cbn [calm now_ms] in E2.
  rewrite E in E2. injection E2 as <- <- <-. rewrite E in *. cbn [snd calm uuids] in *. split; cbn; [done | done | | |].
  - intros w j Hj. eapply at_spot_slice; [apply (sp_slice _ _ _ Hsp (id j) w); by exists j | apply Hpin; by exists j].
  - intros w j Hj. apply (io_typed _ Hs w). cbn. destruct (Hh w) as [<- | E2]; [done | congruence].
  - intros w i Hin. by apply (Hl r' Hsp eq_refl Hi').
Qed.

Lemma spares_at {A} h (Q : A -> Prop) (op : st JW A) s : in_order s -> spares (in_hand h) Q op -> spares_here h op (jobs s).
Proof.
  intros Hs Hf Hp. pose proof (ids_of _ _ _ (io_inv _ Hs)) as Hi. pose proof (io_calm _ Hs) as He.
  destruct (jobs s) as [r ev u m]. cbn in *. subst ev. destruct (Hf r u m Hi Hp) as (o & r' & u' & E & Hsp & _). by exists o, r', u'.
Qed.

(** Of what is in hand nothing changes. *)
Lemma kept_aside {A} s (P : Redis -> Prop) (op : st JW A) :
  in_order s -> good q P op -> P (redis (jobs s)) -> spares_here (held s) op (jobs s) -> in_order (mkSystem (op (jobs s)).2 (app s) (held s)).
Proof.
  intros Hs Hg Hp Hf. eapply kept_call; eauto. intros r' Hsp _ _ w i Hin. apply (sp_procs _ _ _ Hsp), (io_listed _ Hs) in Hin. exact Hin.
Qed.

Lemma wrap32_le z : wrap32 z <= I32_MAX.
Proof. unfold wrap32, I32_MAX. pose proof (Z.mod_pos_bound (z + 2 ^ 31) (2 ^ 32) eq_refl). lia. Qed.

(** The id of a new job is nobody's. *)
Lemma submit_here s ty body retries tp : in_order s -> spares_here (held s) (submit q ty body retries tp) (jobs s).
Proof.
  intros Hs Hp. pose proof (ids_of _ _ _ (io_inv _ Hs)) as Hi. pose proof (io_calm _ Hs) as He. pose proof (io_inv _ Hs) as Hinv.
  destruct (jobs s) as [r ev u m]. cbn in *. subst ev. change (mkJW r [] u m) with (calm r u m).
  set (i := generate_uuid u).
  assert (Hi' : spare (in_hand (held s)) i).
  { intros w (j & Hj & E). pose proof (Hp i w (ex_intro _ j (conj Hj E))) as Ha.
    destruct (inv_somewhere _ _ _ _ _ Hinv Ha) as (j' & ttl & Hb & _); [done|]. unfold i in Hb. by rewrite (inv_new _ _ _ Hinv) in Hb. }
  unfold submit. rewrite (st_bind_ok _ _ _ tt (calm r u m)) by (unfold check_initialized; by rewrite Hq).
  rewrite (st_bind_ok _ _ _ i (calm r (S u) m)) by done.
  match goal with |- exists o r' u', ?op _ = _ /\ _ => assert (Hop : spares (in_hand (held s)) (fun _ => True) op) end.
  { eapply (spares_bind _ (fun _ => True)); [apply spares_gets | intros now _].
    eapply (spares_bind _ (fun _ => True)); [by apply set_spares | intros _ _].
    eapply (spares_bind _ (fun _ => True)); [by apply push_spares | intros _ _].
    eapply (spares_bind _ (fun _ => True)); [|intros _ _; by apply spares_ret].
    apply best_spares. eapply (spares_bind _ (fun _ => True)); [|intros _ _]; apply spares_write; intros; apply spared_index. }
  destruct (Hop r (S u) m Hi Hp) as (o & r' & u' & E & Hsp & _). by exists o, r', u'.
Qed.

Lemma maintenance_good : good q (fun _ => True) (maintenance q).
Proof.
  intros r u m Hi _. unfold maintenance, best_effort. destruct (promote_good q r u m Hi I) as (n & r1 & u1 & E1 & H1).
  destruct (reap_good q Hq r1 u1 m H1 I) as (k & r2 & u2 & E2 & H2). exists tt, r2, u2. split; [|done]. apply catch_ok.
  rewrite (st_bind_ok _ _ _ n _ E1). by rewrite (st_bind_ok _ _ _ k _ E2).
Qed.

(** The first half of an iteration: nothing, or one job more on the worker's list. *)
Lemma begin_pinned X types w trace r u m : Json.utf8 w = true -> jobs_inv q r u -> pinned X r -> w <> "" ->
  exists o r' u', begin_ types w trace (calm r u m) = (Ok o, calm r' u' m) /\ jobs_inv q r' u' /\ pinned X r' /\
    match o with
    | None => forall w' y, y ∈ lst (procs r') w' -> y ∈ lst (procs r) w'
    | Some j => at_spot (id j) (OnProc w) r' /\ Json.utf8 (type j) = true /\ forall w' y, y ∈ lst (procs r') w' -> y ∈ lst (procs r) w' \/ w' = w /\ y = id j
    end.
Proof.
  intros Hu Hi Hp Hw. destruct (maintenance_good r u m Hi I) as ([] & r1 & u1 & E1 & H1).
  destruct (maintenance_spares q Hv X r u m (ids_of _ _ _ Hi) Hp) as (o1 & r1' & u1' & E1' & S1 & _).
  rewrite E1 in E1'. injection E1' as <- <- <-. pose proof (pinned_spared _ _ _ S1 Hp) as Hp1.
  pose proof (pick_pinned q Hq X types w r1 u1 m Hu H1 Hp1 Hw) as Hpk.
  unfold begin_, try_ at 1, take_job. rewrite (st_bind_ok _ _ _ tt _ E1). rewrite st_bind_case.
  destruct (pick q types w (calm r1 u1 m)) as [[[j|]|e|] s]; [| |done|done].
  - destruct Hpk as (r2 & -> & H2 & Ha & Hp2 & _ & Hty & Hl). destruct (trace_run q Hq (id j) trace r2 u1 m) as (f & E3 & H3).
    exists (Some j), (set_blobs f r2), u1. split.
    { rewrite (st_bind_ok _ _ _ tt (calm (set_blobs f r2) u1 m)); [done|]. unfold try_. by rewrite E3. }
    split; [auto|]. split; [intros x w' Hx; apply spot_blobs; auto|]. split; [by apply spot_blobs|]. split; [exact Hty|].
    intros w' y Hy. apply Hl in Hy as [Hy|?]; [|auto]. left. by apply (sp_procs _ _ _ S1).
  - subst s. exists None, r1, u1. split; [done|]. split; [done|]. split; [done|]. intros w' y. apply (sp_procs _ _ _ S1).
Qed.

(** What is told of an exception, and that it can be written. *)
Lemma told j e : Json.utf8 (what e) = true -> settles q (id j) (report q j e) /\
  forall X, spare X (id j) -> spares X (fun _ => True) (report q j e).
Proof.
  intros He. unfold report. destruct (exn_cls e); (split;
    [first [by apply fail_settles | by apply dead_letter_settles] | intros; first [by apply fail_spares | by apply dead_letter_spares]]).
Qed.

Lemma dispatch_told j a e a' : Json.utf8 (type j) = true -> dispatch d j a = (Throw e, a') -> exn_cls e <> process_death ->
  Json.utf8 (what e) = true.
Proof.
  intros Hj. unfold dispatch. destruct (d !! type j) as [h|] eqn:Ed; [by apply (Hleg (type j))|].
  intros [= <- _] _. cbn [what]. apply (utf8_app "no handler for job type: "); [reflexivity | done].
Qed.

(** The second half: the handler dies with the job in hand, or the job is settled. *)
Lemma finish_cases j r u m a jb ttl : Json.utf8 (type j) = true -> blobs r !! id j = Some (jb, ttl) ->
  exists op, settles q (id j) op /\ (forall X, spare X (id j) -> spares X (fun _ => True) op) /\
  let '(o, a') := dispatch d j a in
  (forall jw', op (calm r u m) = (Ok tt, jw') -> finish_ j (calm r u m, a) = (Ok tt, (jw', a'))) \/
  (forall x, (finish_ j (calm r u m, a)).1 <> Ok x) /\ (finish_ j (calm r u m, a)).2 = (calm r u m, a').
Proof.
  intros Hty Hb. destruct (dispatch d j a) as [[res|e|] a'] eqn:E.
  - destruct (Json.clean res) eqn:Ec.
    + exists (complete q (id j) res). split; [by apply complete_settles|]. split; [intros X Hx; by apply complete_spares|]. left. intros jw' Eo.
      unfold finish_, run_job, try_. rewrite st_bind_case. unfold on_snd. cbn [fst snd]. rewrite E. unfold on_fst. cbn [fst snd].
      by rewrite Eo.
    + destruct (told j (Exn json_type_error "[json.exception.type_error.316] invalid UTF-8 byte") eq_refl) as [H1 H2].
      eexists. split; [exact H1|]. split; [exact H2|]. left. intros jw' Eo.
      unfold finish_, run_job, try_. rewrite st_bind_case. unfold on_snd. cbn [fst snd]. rewrite E. unfold on_fst. cbn [fst snd].
      rewrite (complete_refused q Hq (id j) res jb ttl r u m Hb Ec). unfold not_utf8.
      rewrite bool_decide_eq_false_2 by done. cbn [fst snd]. by rewrite Eo.
  - destruct (decide (exn_cls e = process_death)) as [Hd'|Hd'].
    + exists (complete q (id j) JNull). split; [by apply complete_settles|]. split; [intros X Hx; by apply complete_spares|].
      right. unfold finish_, run_job, try_. rewrite st_bind_case. unfold on_snd. cbn [fst snd]. rewrite E.
      rewrite bool_decide_eq_true_2 by done. rewrite bool_decide_eq_true_2 by done. done.
    + destruct (told j e (dispatch_told j a e a' Hty E Hd')) as [H1 H2]. eexists. split; [exact H1|]. split; [exact H2|].
      left. intros jw' Eo. unfold finish_, run_job, try_. rewrite st_bind_case. unfold on_snd. cbn [fst snd]. rewrite E.
      rewrite bool_decide_eq_false_2 by done. unfold on_fst. cbn [fst snd]. by rewrite Eo.
  - exists (complete q (id j) JNull). split; [by apply complete_settles|]. split; [intros X Hx; by apply complete_spares|].
    right. unfold finish_, run_job, try_. rewrite st_bind_case. unfold on_snd. cbn [fst snd]. by rewrite E.
Qed.

Lemma apart_hands s w j : in_order s -> held s !! w = Some j -> spare (in_hand (delete w (held s))) (id j).
Proof.
  intros Hs Hj w' (j' & Hj' & E). apply lookup_delete_Some in Hj' as [Hne Hj'].
  pose proof (io_held _ Hs _ _ Hj) as Ha. pose proof (proj2 (at_proc _ _ _ (io_held _ Hs _ _ Hj') w') eq_refl) as Hin.
  rewrite E in Hin. apply (at_proc _ _ _ Ha) in Hin. congruence.
Qed.

Lemma begin_kept types w trace s : in_order s -> w <> "" -> Json.utf8 w = true -> held s !! w = None -> in_order (act (Begin types w trace) s).
Proof.
  intros Hs Hw Hu Hn. cbn [act]. rewrite Hn. pose proof (io_typed _ Hs) as Ht. pose proof (io_pinned s Hs) as Hp. pose proof (io_inv _ Hs) as Hi. pose proof (io_calm _ Hs) as He.
  pose proof (io_listed _ Hs) as Hl. destruct s as [[r ev u m] a h]. cbn in *. subst ev.
  destruct (begin_pinned _ types w trace r u m Hu Hi Hp Hw) as (o & r' & u' & E & H1 & Hp1 & Ho).
  change (mkJW r [] u m) with (calm r u m). rewrite E. destruct o as [j|].
  - destruct Ho as (Ha & Hjt & Hy). split; cbn; [done | done | | |].
    + intros w' j' Hj'. destruct (decide (w' = w)) as [->|Hne].
      * rewrite lookup_insert_eq in Hj'. by injection Hj' as <-.
      * rewrite lookup_insert_ne in Hj' by done. apply Hp1. by exists j'.
    + intros w' j' [[_ <-]|[_ Hj']]%lookup_insert_Some; [done | by apply (Ht w')].
    + intros w' i Hin. apply Hy in Hin as [Hin|[-> ->]]; [|exists j; by rewrite lookup_insert_eq].
      destruct (Hl _ _ Hin) as (j' & Hj' & Ei). exists j'. rewrite lookup_insert_ne; [done | by intros ->; rewrite Hn in Hj'].
  - split; cbn; [done | done | | exact Ht |]; [intros w' j' Hj'; apply Hp1; by exists j' | intros w' i Hin; by apply Hl, Ho].
Qed.

Lemma finish_kept w s : in_order s -> in_order (act (Finish w) s).
Proof.
  intros Hs. cbn [act]. destruct (held s !! w) as [j|] eqn:Hj; [|done].
  pose proof (io_held _ Hs _ _ Hj) as Ha. pose proof (apart_hands _ _ _ Hs Hj) as Hap.
  destruct (inv_somewhere _ _ _ _ _ (io_inv _ Hs) Ha) as (jb & ttl & Hb & Hk); [done|].
  pose proof Hs as [He Hi Hh Ht Hl]. destruct s as [[r ev u m] a h]. cbn in He, Hi, Hh, Ht, Hl, Hj, Hb, Ha, Hap |- *. subst ev.
  change (mkJW r [] u m) with (calm r u m).
  destruct (finish_cases j r u m a jb ttl (Ht _ _ Hj) Hb) as (op & Hst & Hsp & Hf). destruct (dispatch d j a) as [x a'].
  destruct Hf as [Hf|[Hno Hf]].
  - pose proof (Hsp _ Hap) as Hop.
    destruct (Hst r u m Hi) as (r' & j' & ttl' & E & Hi' & Hb' & Hn); [exists jb, ttl; split; [done | apply (k_belongs _ _ _ _ Hk)]|].
    assert (Hp : pinned (in_hand (delete w h)) r).
    { intros y w' (k & Hy & <-). apply lookup_delete_Some in Hy as [_ Hy]. by apply Hh. }
    destruct (Hop r u m (ids_of _ _ _ Hi) Hp) as (o & r2 & u2 & E2 & S2 & _). rewrite E in E2. injection E2 as <- <- <-.
    rewrite (Hf _ E). split; cbn; [done | done | | |].
    + intros w' k Hy. apply (pinned_spared _ _ _ S2 Hp). by exists k.
    + intros w' k [_ Hy]%lookup_delete_Some. by apply (Ht w').
    + intros w' i Hin. destruct (inv_job _ _ _ Hi' i) as (sp & Ha' & Hk'). pose proof (proj1 (at_proc _ _ _ Ha' w') Hin) as ->.
      destruct (inv_somewhere _ _ _ _ _ Hi' Ha') as (k & tk & Hbk & Hkk); [done|]. pose proof (k_belongs _ _ _ _ Hkk) as (Hpr & _).
      apply (sp_procs _ _ _ S2) in Hin. destruct (Hl _ _ Hin) as (k2 & Hk2 & Ei). exists k2. split; [|done].
      apply lookup_delete_Some. split; [|done]. intros ->. rewrite Hj in Hk2. injection Hk2 as <-. subst i.
      rewrite Hb' in Hbk. by injection Hbk as -> ->.
  - destruct (finish_ j (calm r u m, a)) as [o [jw a2]]. cbn in Hno, Hf. injection Hf as -> ->.
    destruct o as [[]|e|]; [by destruct (Hno tt)| |]; by split.
Qed.

Lemma restart_kept w s : in_order s -> w <> "" -> in_order (act (Restart w) s).
Proof.
  intros Hs Hw. cbn [act]. eapply (kept_call s (fun _ => True)); [done | by apply recover_good | exact I | | |].
  - apply (spares_at _ (fun _ => True)); [done|]. apply recover_spares; [done|]. intros x (j & Hj & _). by rewrite lookup_delete_eq in Hj.
  - intros w'. destruct (decide (w' = w)) as [->|Hne]; [right; apply lookup_delete_eq | left; by apply lookup_delete_ne].
  - intros r' Hsp E _ w' i Hin. pose proof (io_calm _ Hs) as He. pose proof (io_inv _ Hs) as Hi. pose proof (sp_procs _ _ _ Hsp _ _ Hin) as H1.
    destruct (io_listed _ Hs _ _ H1) as (j & Hj & Ei). exists j. split; [|done]. apply lookup_delete_Some. split; [|done]. intros ->.
    destruct (jobs s) as [r ev u m]. cbn in *. subst ev. change (mkJW r [] u m) with (calm r u m) in *.
    destruct (recover_run q Hq w' r u m Hv Hw Hi) as (n & r1 & E1 & _). rewrite E1 in E. injection E as <-.
    unfold unread in Hin. cbn in Hin. rewrite lst_insert, decide_True in Hin by done. by apply elem_of_nil in Hin.
Qed.

Lemma pass_kept ms s : in_order s -> in_order (act (Pass ms) s).
Proof.
  intros [I1 I2 I3 It I4]. destruct s as [[r ev u m] a h]. cbn in *. subst ev. split; cbn; [done | by apply expire_keeps | | exact It |].
  - intros w j Hj. apply spot_blobs. by apply I3.
  - intros w i Hin. by apply I4.
Qed.

Lemma requeue_here s i : in_order s -> spares_here (held s) (requeue_from_dlq q i) (jobs s).
Proof.
  intros Hs Hp. pose proof (io_calm _ Hs) as He. pose proof (io_inv _ Hs) as Hi.
  destruct (jobs s) as [r ev u m]. cbn in *. subst ev. change (mkJW r [] u m) with (calm r u m).
  assert (Hc : spare (in_hand (held s)) i \/ exists o, requeue_from_dlq q i (calm r u m) = (o, calm r u m)).
  { destruct (blobs r !! i) as [[j ttl]|] eqn:Hb; [destruct (decide (status j = "dead")) as [Hst|Hst]|].
    - left. intros w Hx. pose proof (Hp i w Hx) as Ha. destruct (inv_somewhere _ _ _ _ _ Hi Ha) as (j' & ttl' & Hb' & Hk); [done|].
      rewrite Hb in Hb'. injection Hb' as <- <-. destruct (k_belongs _ _ _ _ Hk) as [Hpr _]. congruence.
    - right. exists (Ok false). apply requeue_refused; [done|]. intros j' ttl'. rewrite Hb. by intros [= <- <-].
    - right. exists (Ok false). apply requeue_refused; [done|]. intros j' ttl'. by rewrite Hb. }
  destruct Hc as [Hsp|[o ->]]; [|exists o, r, u; split; [done | reflexivity]].
  destruct (requeue_spares q Hq Hv _ i Hsp r u m (ids_of _ _ _ Hi) Hp) as (o & r' & u' & E & S & _). by exists o, r', u'.
Qed.

(** A job whose text cannot be written is refused. *)
Lemma ask_kept ty body retries tp s : in_order s -> in_order (act (Ask ty body retries tp) s).
Proof.
  intros Hs. destruct (texts_ok ty body tp) eqn:Et.
  - apply (kept_aside s (fun _ => True)); [done | by apply submit_good; [|apply wrap32_le|..] | exact I | by apply submit_here].
  - cbn [act with_jobs]. destruct Hs as [I1 I2 I3 It I4]. destruct s as [[r ev u m] a h]. cbn in *. subst ev.
    pose proof (submit_refused q Hq ty body (wrap32 retries) tp r u m Et) as E. unfold calm in E.
    change (in_order (mkSystem (submit q ty body (wrap32 retries) tp (mkJW r [] u m)).2 a h)). rewrite E.
    split; cbn; [done | apply (inv_more _ _ u); [lia | done] | done | done | done].
Qed.

Lemma act_kept a s : in_order s -> orderly a s -> in_order (act a s).
Proof.
  intros Hs Ho. destruct a as [ty body retries tp|i|i|types w trace|w|w|ms]; cbn [orderly] in Ho.
  - by apply ask_kept.
  - apply (kept_aside s (fun _ => True)); [done | by apply requeue_good | exact I | by apply requeue_here].
  - destruct Ho as [Hp Hn]. apply (kept_aside s (fun r => delayed r !! i = None)); [done | by apply cancel_good | exact Hp |].
    apply (spares_at _ (fun _ => True)); [done|]. apply cancel_spares; [done | done |]. intros w (j & Hj & E). by apply (Hn w j).
  - destruct (held s !! w) eqn:E; [by cbn [act]; rewrite E | destruct Ho; by apply begin_kept].
  - by apply finish_kept.
  - destruct Ho. by apply restart_kept.
  - by apply pass_kept.
Qed.

Lemma history_kept_order l : forall s, in_order s -> history s l -> in_order (after s l).
Proof. induction l as [|a l IH]; intros s Hs Hl; [done|]. destruct Hl as [Ha Hl]. apply (IH (act a s)); [by apply act_kept | done]. Qed.

Definition fresh_system (m : Z) (a : W) : System := mkSystem (mkJW (mkRedis ∅ ∅ ∅ ∅ ∅ ∅ ∅ ∅) [] 0 m) a ∅.

Lemma fresh_in_order m a : in_order (fresh_system m a).
Proof.
  split; cbn; [done | by apply (nothing_inv q Hq m) | done | done |]. intros w i. unfold lst. rewrite lookup_empty. by intros ?%elem_of_nil.
Qed.

(** C39: Workers lose no job and strand none.  On a healthy connection (no command fails,
    and no process dies inside a half of an iteration), whatever the handlers do - return
    anything, throw anything whose message is UTF-8, change their own state, never return -
    and however many workers take turns with requests to the queue, one half of an
    iteration at a time, with workers started again in the place of those that died: as
    long as no leases are given, no job type is called [_all], every worker has a name in
    UTF-8 and nobody takes back a job that is in progress or waits out a backoff,
    every job is where its status says and nowhere else, every job in progress is on its
    worker's list and is the one that worker has in hand, and nothing else is on any
    worker's list. *)
Theorem workers_keep_jobs l m a : history (fresh_system m a) l ->
  let s := after (fresh_system m a) l in
  jobs_inv q (redis (jobs s)) (uuids (jobs s)) /\
  (forall w j, held s !! w = Some j -> processing (id j) (redis (jobs s)) /\ id j ∈ lst (procs (redis (jobs s))) w) /\
  (forall w i, i ∈ lst (procs (redis (jobs s))) w -> exists j, held s !! w = Some j /\ id j = i).
Proof.
  intros Hl s. destruct (history_kept_order l _ (fresh_in_order m a) Hl) as [I1 I2 I3 _ I4]. fold s in I1, I2, I3, I4.
  split; [done|]. split; [|done]. intros w j Hj. pose proof (I3 _ _ Hj) as Ha.
  destruct (inv_somewhere _ _ _ _ _ I2 Ha) as (jb & ttl & Hb & Hk); [done|]. split; [|by apply (at_proc _ _ _ Ha)].
  exists jb, ttl. split; [done | apply (k_belongs _ _ _ _ Hk)].
Qed.
End System.
Arguments System : clear implicits.

(** ** A job that always fails *)

Section Burial.
Context `{UuidSource} {W : Type} (q : JobQueue) (d : Dispatcher W) (Hq : initialized q = true).
Context (types : list string) (worker trace ty i : string) (h : Handler W) (e : exn) (tick : W -> W).
Context (Hty : ty ∈ types) (Hw : worker <> "") (Hh : d !! ty = Some h) (Hfail : forall p a, h p a = (Throw e, tick a)).
Context (Hdeath : exn_cls e <> process_death) (Hlim : 0 <= retry_backoff_max_ms q).
Context (Hwu : Json.utf8 worker = true) (Htr : Json.utf8 trace = true) (Hmsg : Json.utf8 (what e) = true).

(** How often a job with a budget may run: a permanent failure is the first one. *)
Definition permanent : bool := bool_decide (exn_cls e = PermanentJobError).
Definition cap (mx : Z) : Z := if permanent then 1 else mx.

(** What becomes the job's error. *)
Definition message : string := if bool_decide (exn_cls e = not_std) then "non-std exception in handler" else what e.

Definition blob_at (n mx : Z) (r : Redis) : Prop := exists j, blobs r !! i = Some (j, None) /\ id j = i /\ type j = ty /\
  retry_count j = n /\ max_retries j = mx /\ status j = "pending" /\ writable j = true.

(** The only job of the types served, with [n] attempts behind it, queued or parked. *)
Record waiting (n mx : Z) (r : Redis) (m : Z) : Prop := {
  wt_blob : blob_at n mx r;
  wt_leases : leases r = ∅;
  wt_others : forall t, t ∈ types -> t <> ty -> lst (queues r) t = [];
  wt_place : (lst (queues r) ty = [i] /\ delayed r = ∅) \/
             (0 < retry_backoff_base_ms q /\ lst (queues r) ty = [] /\ exists z, delayed r = {[i := z]} /\ 0 <= z <= m + retry_backoff_max_ms q)
}.

Record dead (r : Redis) : Prop := {
  dd_blob : exists j, blobs r !! i = Some (j, None) /\ id j = i /\ status j = "dead" /\ error j = message;
  dd_dlq : i ∈ lst (dlqs r) ty /\ i ∈ dlq_all r;
  dd_gone : lst (queues r) ty = [] /\ delayed r = ∅ /\ leases r = ∅
}.

Lemma due_none now : due now ∅ = [].
Proof. unfold due. by rewrite map_to_list_empty. Qed.

Lemma reap_nothing r u m : leases r = ∅ -> reap_expired_leases q (calm r u m) = (Ok 0, calm r u m).
Proof.
  intros Hl. unfold reap_expired_leases. case_match; [done|]. rewrite (st_bind_ok _ _ _ m (calm r u m)) by done.
  rewrite (st_bind_ok _ _ _ (Some []) (calm r u m)); [done|]. apply catch_ok. unfold cmd, mbind, st_bind. cbn. by rewrite Hl, due_none.
Qed.

(** After the maintenance the job is on its queue. *)
Lemma brought_back n mx r u m m' : waiting n mx r m -> 0 <= m -> m + retry_backoff_max_ms q <= m' ->
  exists r', maintenance q (calm r u m') = (Ok tt, calm r' u m') /\ waiting n mx r' m' /\ lst (queues r') ty = [i] /\ delayed r' = ∅.
Proof.
  intros Hwt Hm Hm'. pose proof Hwt as [(j & Hb & Hid & Htj & Hn & Hmx & Hst) Hl Ho Hpl].
  assert (Hp : exists r' k, promote_due_jobs q (calm r u m') = (Ok k, calm r' u m') /\ waiting n mx r' m' /\ lst (queues r') ty = [i] /\ delayed r' = ∅).
  { destruct Hpl as [[Hqu Hde]|(Hbase & Hqu & z & Hde & Hz)].
    - exists r, 0. split; [|split; [split; eauto; by exists j | done]]. unfold promote_due_jobs. rewrite Hq. cbn [negb orb].
      destruct (retry_backoff_base_ms q <=? 0); [done|]. rewrite (st_bind_ok _ _ _ m' (calm r u m')) by done.
      rewrite (st_bind_ok _ _ _ (Some []) (calm r u m')); [done|]. apply catch_ok. unfold cmd, mbind, st_bind. cbn. by rewrite Hde, due_none.
    - set (r1 := set_queue ty (cons i) (set_delayed (delete i) r)).
      assert (E1 : lst (queues r1) ty = [i]) by (cbn; by rewrite lst_insert, decide_True, Hqu by done).
      assert (E2 : delayed r1 = ∅) by (cbn; rewrite Hde; apply delete_singleton_eq).
      exists r1, 1. split; [|split; [split; [by exists j | done | | by left] | done]].
      + unfold promote_due_jobs. rewrite Hq, (proj2 (Z.leb_gt _ _)) by lia. cbn [negb orb].
        rewrite (st_bind_ok _ _ _ m' (calm r u m')) by done.
        rewrite (st_bind_ok _ _ _ (Some [i]) (calm r u m')).
        2:{ apply catch_ok. unfold cmd, mbind, st_bind. cbn. by rewrite Hde, due_one by lia. }
        cbn [promote_loop]. rewrite (st_bind_ok _ _ _ 1 (calm r1 u m')); [done|]. apply catch_ok.
        rewrite (st_bind_ok _ _ _ true (calm (set_delayed (delete i) r) u m')).
        2:{ unfold zrem_delayed, cmd. cbn. rewrite Hde, lookup_singleton_eq. by rewrite bool_decide_eq_true_2. }
        rewrite (st_bind_ok _ _ _ (Some j) (calm (set_delayed (delete i) r) u m')) by (unfold redis_get, cmd; cbn; by rewrite Hb).
        rewrite Htj. reflexivity.
      + intros t Ht Hne. cbn. rewrite lst_insert, decide_False by done. by apply Ho. }
  destruct Hp as (r' & k & E & Hwt' & Hpl'). exists r'. split; [|done]. unfold maintenance, best_effort. apply catch_ok.
  rewrite (st_bind_ok _ _ _ _ _ E). by rewrite (st_bind_ok _ _ _ _ _ (reap_nothing r' u m' (wt_leases _ _ _ _ Hwt'))).
Qed.

Lemma find_only (f : string -> bool) : f ty = true -> (forall t, t ∈ types -> t <> ty -> f t = false) -> List.find f types = Some ty.
Proof.
  intros Hf Ho. clear Hq Hw. revert Hty Ho. induction types as [|t l IH]; intros Hin Ho; [by apply elem_of_nil in Hin|]. cbn.
  destruct (decide (t = ty)) as [->|Hne]; [by rewrite Hf|]. rewrite Ho by (done || by left).
  apply IH; [|intros t' Ht'; apply Ho; by right]. apply elem_of_cons in Hin as [->|]; done.
Qed.

(** A pick takes the only job there is. *)
Lemma pick_only r u m j : lst (queues r) ty = [i] -> (forall t, t ∈ types -> t <> ty -> lst (queues r) t = []) ->
  blobs r !! i = Some (j, None) -> id j = i -> writable j = true ->
  exists f, pick q types worker (calm r u m) = (Ok (Some (taken_by worker m j)), calm (claimed q ty i worker [] j f m r) u m).
Proof.
  intros Hqu Ho Hb Hid Hwr. pose proof (taken_writable worker m j Hwr Hwu) as Htk. unfold pick. rewrite (st_bind_ok _ _ _ tt (calm r u m)) by (unfold check_initialized; by rewrite Hq).
  assert (Hmany : exists f, pick_many q types worker (calm r u m) = (Ok (Some (taken_by worker m j)), calm (claimed q ty i worker [] j f m r) u m)).
  { exists (fun l => (l ++ [i])%list). unfold pick_many. rewrite st_bind_case. unfold brpop, cmd. cbn [events calm redis uuids now_ms].
    rewrite find_only by first [by rewrite Hqu | intros t Ht Hne; by rewrite (Ho t Ht Hne)]. rewrite Hqu. cbn [pop_right rev app].
    by apply (claim_run q ty i worker [] j None (fun l => (l ++ [i])%list)). }
  destruct types as [|t [|t2 ts]] eqn:Et; [done | | done]. exists (cons i).
  apply list_elem_of_singleton in Hty as <-. unfold pick_one. rewrite st_bind_case. unfold brpoplpush, cmd. cbn [events calm redis uuids now_ms].
  rewrite Hqu. cbn [pop_right rev app]. by apply (claim_run q ty i worker [] j None (cons i)).
Qed.

Lemma report_is j : report q j e = if permanent then dead_letter q (id j) message else fail q (id j) message.
Proof. unfold report, message, permanent. by destruct (exn_cls e). Qed.

Lemma message_utf8 : Json.utf8 message = true.
Proof. unfold message. by case_bool_decide. Qed.

(** The job as its worker has it. *)
Definition in_work (m : Z) (j : Job) : Job := traced trace m (taken_by worker m j).

Lemma in_work_writable m j : writable j = true -> writable (in_work m j) = true.
Proof.
  intros Hj. pose proof (taken_writable worker m j Hj Hwu) as Htk. unfold in_work, traced. rewrite writable_parts in Htk |- *.
  cbn [error id payload result status trace_id traceparent type worker_id touched]. rewrite !andb_true_iff in *. tauto.
Qed.

(** What is left of the rest of the store when the only job leaves its worker. *)
Lemma set_aside m j j4 f r : lst (queues r) ty = [i] -> delayed r = ∅ -> leases r = ∅ -> worker_id j4 = worker ->
  let r4 := released q j4 i (set_blobs <[i := (in_work m j, None)]> (claimed q ty i worker [] j f m r)) in
  leases r4 = ∅ /\ queues r4 = <[ty := []]> (queues r) /\ delayed r4 = ∅.
Proof.
  intros Hqu Hde Hl Hw4 r4. unfold r4, released. cbn zeta. rewrite Hw4, (proj2 (String.eqb_neq _ _) Hw).
  unfold claimed. cbn zeta. destruct (Z.leb_spec (visibility_timeout_ms q) 0), (Z.ltb_spec 0 (visibility_timeout_ms q)); try lia; cbn; [done|].
  split; [|done]. rewrite Hl. apply delete_insert_id. apply lookup_empty.
Qed.

(** What a permanent failure makes of the only job. *)
Lemma buried_only n mx r u m j f : waiting n mx r m -> lst (queues r) ty = [i] -> delayed r = ∅ -> blobs r !! i = Some (j, None) ->
  let r3 := set_blobs <[i := (in_work m j, None)]> (claimed q ty i worker [] j f m r) in
  exists r', dead_letter q i message (calm r3 u m) = (Ok tt, calm r' u m) /\ dead r'.
Proof.
  intros [(j0 & Hb0 & Hid & Htj & Hn & Hmx & Hst & Hwr) Hl Ho _] Hqu Hde Hb r3. rewrite Hb in Hb0. injection Hb0 as <-.
  assert (Hb3 : blobs r3 !! i = Some (in_work m j, None)) by (cbn; apply lookup_insert_eq).
  exists (buried q (in_work m j) i message m r3). split.
  { by apply (dead_letter_run q Hq i message (in_work m j) None); [exact Hb3 | apply in_work_writable | apply message_utf8]. }
  destruct (set_aside m j (touched (Z.quot m 1000) (in_work m j)) f r Hqu Hde Hl eq_refl) as (E1 & E2 & E3). unfold buried. cbn zeta.
  split.
  - eexists. split; [cbn; apply lookup_insert_eq | done].
  - change (type (in_work m j)) with (type j). rewrite Htj. split; cbn; [rewrite lst_insert, decide_True by done; by left | set_solver].
  - cbn. fold r3 in E1, E2, E3. rewrite E1, E2, E3. split; [by rewrite lst_insert, decide_True | done].
Qed.

(** What a failed attempt makes of the only job. *)
Lemma failed_only n mx r u m j f : waiting n mx r m -> lst (queues r) ty = [i] -> delayed r = ∅ -> 0 <= m -> 0 <= n -> n + 1 <= I32_MAX ->
  blobs r !! i = Some (j, None) ->
  let j3 := in_work m j in
  let r3 := set_blobs <[i := (j3, None)]> (claimed q ty i worker [] j f m r) in
  exists r', fail q i message (calm r3 u m) = (Ok tt, calm r' u m) /\ if n + 1 <? mx then waiting (n + 1) mx r' m else dead r'.
Proof.
  intros [(j0 & Hb0 & Hid & Htj & Hn & Hmx & Hst & Hwr) Hl Ho _] Hqu Hde Hm Hn0 Hn1 Hb j3 r3. rewrite Hb in Hb0. injection Hb0 as <-.
  assert (Hb3 : blobs r3 !! i = Some (j3, None)) by (cbn; apply lookup_insert_eq).
  assert (Hwr3 : writable (failed_job j3 message (Z.quot m 1000)) = true).
  { apply failed_writable; [by apply in_work_writable | apply message_utf8]. }
  exists (failed q j3 i message m r3). split.
  { eapply fail_run; [done | exact Hb3 | | exact Hwr3]. cbn. rewrite Hn. unfold in_i32. rewrite (proj2 (Z.leb_le _ _)), (proj2 (Z.leb_le _ _)); [done | bound64..]. }
  assert (Hblob : blobs (failed q j3 i message m r3) !! i = Some (failed_job j3 message (Z.quot m 1000), None)).
  { unfold failed. cbn zeta. repeat case_match; cbn; apply lookup_insert_eq. }
  assert (leases (released q j3 i r3) = ∅ /\ queues (released q j3 i r3) = <[ty := []]> (queues r) /\ delayed (released q j3 i r3) = ∅)
    as (Hlease & Hqs & Hds) by exact (set_aside m j j3 f r Hqu Hde Hl eq_refl).
  assert (Ht3 : type j3 = ty) by exact Htj.
  unfold failed, failed_job in *. cbn zeta in *. rewrite Ht3 in *.
  cbn [retry_count max_retries j3 in_work traced touched taken_by with_worker with_status with_retries] in *. rewrite Hn, Hmx in *.
  destruct (Z.ltb_spec (n + 1) mx) as [Hlt|Hge]; [split | split].
  - eexists. split; [exact Hblob|]. repeat split; [done.. | exact Hwr3].
  - case_match; cbn; exact Hlease.
  - intros t Ht Hne. case_match; cbn; rewrite ?lst_insert, ?decide_False by done; rewrite Hqs, lst_insert, decide_False by done; by apply Ho.
  - destruct (Z.ltb_spec 0 (backoff_delay_ms q (n + 1))) as [Hpos|Hz].
    + right. assert (Hbd : 0 < retry_backoff_base_ms q /\ backoff_delay_ms q (n + 1) <= retry_backoff_max_ms q).
      { unfold backoff_delay_ms in *. destruct (Z.leb_spec (retry_backoff_base_ms q) 0); [lia|]. cbv zeta in *. split; [done|].
        match goal with |- (if (?x <=? 0) || _ then _ else _) <= _ => destruct (Z.leb_spec x 0), (Z.ltb_spec (retry_backoff_max_ms q) x); cbn [orb]; lia end. }
      split; [apply Hbd|]. split; [cbn; by rewrite Hqs, lst_insert, decide_True by done|].
      exists (m + backoff_delay_ms q (n + 1)). split; [cbn; by rewrite Hds | lia].
    + left. cbn. rewrite lst_insert, decide_True, Hqs by done. split; [|done]. by rewrite lst_insert, decide_True by done.
  - eexists. split; [exact Hblob|]. done.
  - split; cbn; [rewrite lst_insert, decide_True by done; by left | apply elem_of_union_l, elem_of_singleton_2; done].
  - split; [cbn; by rewrite Hqs, lst_insert, decide_True by done|]. split; [exact Hds | exact Hlease].
Qed.

(** One iteration is one attempt. *)
Lemma attempt n mx r u m m' a : waiting n mx r m -> 0 <= m -> m + retry_backoff_max_ms q <= m' -> 0 <= n -> n + 1 <= I32_MAX ->
  exists r', cycle q d types worker trace (calm r u m', a) = (Ok tt, (calm r' u m', tick a)) /\
    if n + 1 <? cap mx then waiting (n + 1) mx r' m' else dead r'.
Proof.
  intros Hwt Hm Hm' Hn Hn1. destruct (brought_back n mx r u m m' Hwt Hm Hm') as (r1 & E1 & Hwt1 & Hqu & Hde).
  pose proof (wt_blob _ _ _ _ Hwt1) as (j & Hb & Hid & Htj & _ & _ & _ & Hwr).
  destruct (pick_only r1 u m' j Hqu (wt_others _ _ _ _ Hwt1) Hb Hid Hwr) as (f & E2).
  set (jt := taken_by worker m' j) in *. set (r3 := set_blobs <[i := (in_work m' j, None)]> (claimed q ty i worker [] j f m' r1)).
  assert (Hout : exists r', report q jt e (calm r3 u m') = (Ok tt, calm r' u m') /\ if n + 1 <? cap mx then waiting (n + 1) mx r' m' else dead r').
  { rewrite report_is. change (id jt) with (id j). rewrite Hid. unfold cap. destruct permanent.
    - rewrite (proj2 (Z.ltb_ge _ _)) by lia. by apply (buried_only n mx).
    - apply failed_only; done || lia. }
  destruct Hout as (r' & E3 & Hr'). exists r'. split; [|exact Hr']. rewrite cycle_halves.
  assert (Eb : begin_ q types worker trace (calm r u m') = (Ok (Some jt), calm r3 u m')).
  { unfold begin_, try_ at 1, take_job. rewrite (st_bind_ok _ _ _ _ _ E1), (st_bind_ok _ _ _ _ _ E2).
    rewrite (st_bind_ok _ _ _ tt (calm r3 u m')); [done|].
    unfold try_. change (id jt) with (id j). rewrite Hid. rewrite (trace_found q Hq i trace jt None).
    - change (traced trace m' jt) with (in_work m' j). by rewrite in_work_writable.
    - unfold claimed. cbn zeta. destruct (0 <? visibility_timeout_ms q); cbn; apply lookup_insert_eq. }
  assert (Ed : dispatch d jt a = (Throw e, tick a)).
  { unfold dispatch. change (type jt) with (type j). rewrite Htj. rewrite Hh. apply Hfail. }
  rewrite Eb. unfold finish_, run_job, try_. rewrite st_bind_case. unfold on_snd. cbn [fst snd]. rewrite Ed.
  rewrite bool_decide_eq_false_2 by done. unfold on_fst. cbn [fst snd]. by rewrite E3.
Qed.

Lemma waits_on n mx r m ms : waiting n mx r m -> 0 <= ms -> waiting n mx (expire (Z.quot (m + ms) 1000) r) m.
Proof.
  intros [(j & Hb & Hj) Hl Ho Hp] Hms. split; [|done|done|done]. exists j. split; [|done]. cbn.
  by apply map_lookup_filter_Some_2.
Qed.

Lemma attempts waits : Forall (fun ms => retry_backoff_max_ms q <= ms) waits -> forall n mx r u m a,
  waiting n mx r m -> 0 <= m -> 0 <= n -> mx <= I32_MAX -> n + Z.of_nat (length waits) <= Z.max 1 (cap mx) -> n < Z.max 1 (cap mx) ->
  exists r' m', worker_loop q d types worker trace waits (calm r u m, a) = (Ok tt, (calm r' u m', Nat.iter (length waits) tick a)) /\
    let k := n + Z.of_nat (length waits) in if k <? Z.max 1 (cap mx) then blob_at k mx r' else dead r'.
Proof.
  induction 1 as [|ms waits Hms Hall IH]; intros n mx r u m a Hwt Hm Hn Hmx Hlen Hnk.
  all: assert (Hcap : cap mx <= I32_MAX) by (unfold cap; case_match; bound64).
  - exists r, m. split; [done|]. cbn. rewrite Z.add_0_r, (proj2 (Z.ltb_lt _ _)) by lia. apply (wt_blob _ _ _ _ Hwt).
  - cbn [length] in *. rewrite Nat2Z.inj_succ in *. cbn [worker_loop].
    pose proof (waits_on _ _ _ _ ms Hwt ltac:(lia)) as Hw1. set (r0 := expire (Z.quot (m + ms) 1000) r) in *.
    rewrite (st_bind_ok _ _ _ tt (calm r0 u (m + ms), a)) by done.
    destruct (attempt n mx r0 u m (m + ms) a Hw1 Hm ltac:(lia) Hn ltac:(bound64)) as (r1 & E1 & Hr1).
    rewrite (st_bind_ok _ _ _ _ _ E1).
    destruct (Z.ltb_spec (n + 1) (cap mx)) as [Hlt|Hge].
    + destruct (IH (n + 1) mx r1 u (m + ms) (tick a) Hr1 ltac:(lia) ltac:(lia) Hmx ltac:(lia) ltac:(lia)) as (r2 & m2 & E2 & Hr2).
      exists r2, m2. rewrite E2, Nat.iter_succ_r. split; [done|]. cbn zeta in *. by replace (n + Z.succ (Z.of_nat (length waits))) with (n + 1 + Z.of_nat (length waits)) by lia.
    + destruct waits as [|w ws]; [|cbn [length] in Hlen; lia]. exists r1, (m + ms). split; [done|]. cbn [length].
      cbn zeta. rewrite (proj2 (Z.ltb_ge _ _)) by lia. exact Hr1.
Qed.
End Burial.

(** C40: A job whose handler always throws is given up after exactly as many attempts as
    it may have, and at least one; when what it throws is a permanent failure, after the
    first.  One worker with a healthy connection, names and messages in UTF-8, on a queue
    where nothing of the types served waits, nothing is parked for a retry and nothing has
    a lease, with waits between iterations that outlast the longest backoff: after fewer
    iterations than that the job is pending with one attempt counted for each, and after
    the last one it is dead, with the text of the exception, in the dead-letter queue and
    its index, off the live queue, and the handler has run once per attempt. *)
Theorem failing_job_buried `{UuidSource} {W : Type} (q : JobQueue) (d : Dispatcher W) types worker trace ty (h : Handler W) e tick
    body retries tp r u m (a : W) waits :
  initialized q = true -> 0 <= retry_backoff_max_ms q ->
  ty ∈ types -> worker <> "" -> d !! ty = Some h -> (forall p a, h p a = (Throw e, tick a)) -> exn_cls e <> process_death ->
  texts_ok ty body tp = true -> Json.utf8 worker = true -> Json.utf8 trace = true -> Json.utf8 (what e) = true ->
  (forall t, t ∈ types -> lst (queues r) t = []) -> delayed r = ∅ -> leases r = ∅ -> 0 <= m ->
  let budget := if 0 <=? retries then retries else default_max_retries q in
  let tries := if bool_decide (exn_cls e = PermanentJobError) then 1 else Z.max 1 budget in
  budget <= I32_MAX -> Forall (fun ms => retry_backoff_max_ms q <= ms) waits -> Z.of_nat (length waits) <= tries ->
  exists job jw r' m', submit q ty body retries tp (calm r u m) = (Ok job, jw) /\
    worker_loop q d types worker trace waits (jw, a) = (Ok tt, (calm r' (S u) m', Nat.iter (length waits) tick a)) /\
    if Z.of_nat (length waits) <? tries then blob_at ty (id job) (Z.of_nat (length waits)) budget r'
    else dead ty (id job) e r'.
Proof.
  intros Hq Hlim Hty Hw Hh Hf Hde Htx Hwu Htr Hmsg Hqu Hdel Hle Hm budget tries Hb Hall Hlen. set (i := generate_uuid u).
  pose (j := mkJob i ty body "pending" JNull "" "" "" tp 0 budget (Z.quot m 1000) (Z.quot m 1000)).
  pose (r0 := set_index ty <[i := Z.quot m 1000]> (set_index "" <[i := Z.quot m 1000]>
                (set_queue ty (cons i) (set_blobs <[i := (j, None)]> r)))).
  assert (Hwt : waiting q types ty i 0 budget r0 m).
  { assert (Hwj : writable j = true) by (etransitivity; [symmetry; apply submitted_writable | exact Htx]).
    split; [exists j; split; [apply lookup_insert_eq | done] | exact Hle | |].
    - intros t Ht Hne. cbn. rewrite lst_insert, decide_False by done. by apply Hqu.
    - left. split; [|exact Hdel]. cbn. rewrite lst_insert, decide_True by done. f_equal. by apply Hqu. }
  assert (Etr : Z.max 1 (cap e budget) = tries) by (unfold cap, permanent, tries; by destruct (bool_decide _)).
  destruct (attempts q d Hq types worker trace ty i h e tick Hty Hw Hh Hf Hde Hlim Hwu Htr Hmsg waits Hall 0 budget r0 (S u) m a Hwt) as (r' & m' & E & Hr);
    [done | done | done | rewrite Etr; lia | rewrite Etr; unfold tries; case_match; lia |].
  cbv zeta in Hr. rewrite Etr, Z.add_0_l in Hr. exists j, (calm r0 (S u) m), r', m'. split.
  { unfold submit. rewrite (st_bind_ok _ _ _ tt (calm r u m)) by (unfold check_initialized; by rewrite Hq).
    rewrite (st_bind_ok _ _ _ i (calm r (S u) m)) by done. rewrite (st_bind_ok _ _ _ (Z.quot m 1000) (calm r (S u) m)) by done.
    fold budget. fold j. unfold redis_set, dumped. assert (Hwj : writable j = true) by (etransitivity; [symmetry; apply submitted_writable | exact Htx]).
    rewrite Hwj. reflexivity. }
  split; [exact E | exact Hr].
Qed.

(** ** What a start rescues *)

Section Rescue.
Context `{UuidSource} (q : JobQueue) (Hq : initialized q = true) (Hv : visibility_timeout_ms q <= 0).

Lemma thread_id_named base k : base <> "" -> thread_id base k <> "".
Proof. by destruct base. Qed.

Lemma sweep_lists l : (forall w, w ∈ l -> w <> "") -> forall r u m, jobs_inv q r u ->
  exists r', each (fun w => recover_processing q w ;; mret tt) l (calm r u m) = (Ok tt, calm r' u m) /\ jobs_inv q r' u /\
    (forall w, w ∈ l -> lst (procs r') w = []) /\ (forall w i, w ∉ l -> i ∈ lst (procs r) w -> same_slice i r r') /\
    (forall w y, y ∈ lst (procs r') w -> y ∈ lst (procs r) w).
Proof.
  induction l as [|w l IH]; intros Hl r u m Hi; [exists r; split; [done|]; split; [done|]; split; [by intros w ?%elem_of_nil | done]|].
  destruct (recover_run q Hq w r u m Hv (Hl w ltac:(by left)) Hi) as (n & r1 & E1 & H1).
  assert (Hsp : forall X : string -> string -> Prop, (forall x, ~ X x w) -> pinned X r -> spared X r (unread w [] r1)).
  { intros X HX Hp. destruct (recover_spares q Hq X w HX r u m (ids_of _ _ _ Hi) Hp) as (o & r' & u' & E & S & _).
    rewrite E1 in E. by injection E as _ <- _. }
  assert (Hmono : forall w' y, y ∈ lst (procs (unread w [] r1)) w' -> y ∈ lst (procs r) w').
  { apply (sp_procs _ _ _ (Hsp (fun _ _ => False) ltac:(auto) ltac:(by intros ? ?))). }
  destruct (IH ltac:(intros w' Hw'; apply Hl; by right) (unread w [] r1) u m H1) as (r' & E2 & H2 & He & Ho & Hm).
  exists r'. split; [|split; [done|split; [|split]]].
  - cbn [each]. rewrite (st_bind_ok _ _ _ tt (calm (unread w [] r1) u m)); [exact E2|]. by rewrite (st_bind_ok _ _ _ _ _ E1).
  - intros w' [->|Hin]%elem_of_cons; [|by apply He]. destruct (lst (procs r') w) as [|y ys] eqn:Ey; [done|].
    assert (Hin : y ∈ lst (procs (unread w [] r1)) w) by (apply Hm; rewrite Ey; by left).
    unfold unread in Hin. cbn in Hin. rewrite lst_insert, decide_True in Hin by done. by apply elem_of_nil in Hin.
  - intros w' i Hn Hin. apply not_elem_of_cons in Hn as [Hne Hn].
    destruct (inv_job _ _ _ Hi i) as (s & Ha & _). pose proof (proj1 (at_proc _ _ _ Ha w') Hin) as ->.
    assert (Hs1 : same_slice i r (unread w [] r1)).
    { apply (sp_slice _ _ _ (Hsp (fun x v => x = i /\ v = w') ltac:(by intros x [_ ?]) ltac:(by intros x v [-> ->])) i w'). done. }
    transitivity (unread w [] r1); [done|]. apply (Ho w'); [done|]. destruct Hs1 as (_ & _ & Hpr & _). by apply Hpr.
  - intros w' y Hy. by apply Hmono, Hm.
Qed.

(** A start rescues what the threads of an instance of the same name and size left, and
    nothing of what the further threads of a larger one did. *)
Theorem rescue_sweeps base n r u m : jobs_inv q r u -> base <> "" ->
  exists r', rescue q base n (calm r u m) = (Ok tt, calm r' u m) /\ jobs_inv q r' u /\
    lst (procs r') base = [] /\ (forall k, (k < n)%nat -> lst (procs r') (thread_id base k) = []) /\
    (forall w i, w <> base -> (forall k, (k < n)%nat -> w <> thread_id base k) -> i ∈ lst (procs r) w -> same_slice i r r').
Proof.
  intros Hi Hb. destruct (sweep_lists (base :: map (thread_id base) (seq 0 n))) with (r := r) (u := u) (m := m) as (r' & E & H1 & He & Ho & _); [|done|].
  - intros w [->|Hw]%elem_of_cons; [done|]. apply elem_of_map in Hw as (k & -> & _). by apply thread_id_named.
  - exists r'. split; [exact E|]. split; [done|]. split; [apply He; by left|]. split.
    + intros k Hk. apply He, elem_of_cons. right. apply elem_of_map. exists k. split; [done|]. apply elem_of_seq. lia.
    + intros w i Hne Hk Hin. apply (Ho w i); [|done]. apply not_elem_of_cons. split; [done|]. intros (k & -> & Hseq)%elem_of_map.
      apply elem_of_seq in Hseq. apply (Hk k); [lia | done].
Qed.
End Rescue.

(** ** Worked examples and witnesses *)

Module Example.

(** A handler that counts its runs and throws; one that counts and echoes. *)
Definition crash : Handler nat := fun _ n => (Throw (Exn std_runtime_error "boom"), S n).
Definition count : Handler nat := fun body n => (Ok body, S n).
Definition stuck : Handler nat := fun _ n => (Throw (Exn process_death "killed"), S n).
Definition handlers : Dispatcher nat := register_handler "stuck" stuck (register_handler "count" count (register_handler "crash" crash ∅)).

Definition morning : list action :=
  [Ask "count" JNull (-1) ""; Ask "crash" (JInt 7) 2 ""; Ask "stuck" JNull (-1) ""; Begin ["count"] "w-0" "t"; Begin ["crash"; "stuck"] "w-1" "t";
   Finish "w-0"; Begin ["crash"; "stuck"] "w-0" "t"; Finish "w-1"; Finish "w-0"; Restart "w-0"; Pass 5000; Begin ["crash"; "stuck"] "w-1" "t"].

(** Jobs "j", "jj" and "jjj": done, back on its queue after a failure, and rescued. *)
Example morning_flow :
  let s := after plain_queue handlers (fresh_system 1000000 0%nat) morning in
  (app s, held s !! "w-0", id <$> held s !! "w-1", lst (procs (redis (jobs s))) "w-1", lst (queues (redis (jobs s))) "crash")
  = (3%nat, None, Some "jj", ["jj"], []).
Proof. vm_compute. reflexivity. Qed.

Lemma morning_orderly : history plain_queue handlers (fresh_system 1000000 0%nat) morning.
Proof. repeat split; vm_compute; discriminate. Qed.

Lemma handlers_legible : legible handlers.
Proof.
  intros t h body a e a' Hh.
  assert (Hc : forall t1 h1 (m : gmap string (Handler nat)), <[t1 := h1]> m !! t = Some h -> h = h1 \/ m !! t = Some h).
  { intros t1 h1 m. rewrite lookup_insert. case_decide; [intros [= <-]; by left | by right]. }
  destruct (Hc _ _ _ Hh) as [->|Hh1]; [by intros [= <- _]|]. destruct (Hc _ _ _ Hh1) as [->|Hh2]; [done|].
  destruct (Hc _ _ _ Hh2) as [->|Hh3]; [by intros [= <- _] | done].
Qed.

Lemma workers_keep_jobs_witness :
  let s := after plain_queue handlers (fresh_system 1000000 0%nat) morning in
  jobs_inv plain_queue (redis (jobs s)) (uuids (jobs s)) /\
  (forall w i, i ∈ lst (procs (redis (jobs s))) w -> exists j, held s !! w = Some j /\ id j = i).
Proof.
  destruct (workers_keep_jobs plain_queue handlers eq_refl ltac:(vm_compute; discriminate) ltac:(vm_compute; discriminate)
              handlers_legible morning 1000000 0%nat morning_orderly) as (A & _ & B). split; [exact A | exact B].
Defined.

Lemma failing_job_buried_witness :
  exists job jw r' m', submit patient_queue "crash" JNull 3 "" (nothing 1000000) = (Ok job, jw) /\
    worker_loop patient_queue handlers ["count"; "crash"] "w-0" "t" [60000; 60000; 60000] (jw, 0%nat) = (Ok tt, (calm r' 1 m', 3%nat)) /\
    dead "crash" (id job) (Exn std_runtime_error "boom") r'.
Proof.
  apply (failing_job_buried patient_queue handlers ["count"; "crash"] "w-0" "t" "crash" crash (Exn std_runtime_error "boom") S JNull 3 ""
           (redis (nothing 1000000)) 0 1000000 0%nat [60000; 60000; 60000]).
  - reflexivity.
  - vm_compute; discriminate.
  - right. left.
  - discriminate.
  - reflexivity.
  - reflexivity.
  - discriminate.
  - reflexivity.
  - reflexivity.
  - reflexivity.
  - reflexivity.
  - reflexivity.
  - reflexivity.
  - reflexivity.
  - vm_compute; discriminate.
  - vm_compute; discriminate.
  - repeat constructor; vm_compute; discriminate.
  - vm_compute; discriminate.
Defined.

(** A job that is taken back while it runs: [cancel] says yes, and the report of its
    worker puts it back on its queue, or marks it completed. *)
Example cancelled_while_running ty :
  ty = "crash" \/ ty = "count" ->
  let s1 := after plain_queue handlers (fresh_system 1000000 0%nat) [Ask ty JNull 2 ""; Begin [ty] "w-0" "t"] in
  let c := cancel plain_queue "j" (jobs s1) in
  let s2 := after plain_queue handlers (mkSystem c.2 (app s1) (held s1)) [Finish "w-0"] in
  c.1 = Ok true /\ (status ∘ fst <$> blobs (redis c.2) !! "j") = Some "failed" /\
  (status ∘ fst <$> blobs (redis (jobs s2)) !! "j") = Some (if String.eqb ty "crash" then "pending" else "completed").
Proof. intros [-> | ->]; vm_compute; auto. Qed.

(** The dead-letter queue has no handler to wait for. *)
Example unknown_type :
  let s := after plain_queue handlers (fresh_system 1000000 0%nat) [Ask "nobody" JNull 2 ""; Begin ["nobody"] "w-0" "t"; Finish "w-0"] in
  (lst (dlqs (redis (jobs s))) "nobody", app s) = (["j"], 0%nat).
Proof. vm_compute. reflexivity. Qed.

End Example.
End Worker.
