(* ===== verification/Migrations.v ===== *)
(** * Migrations

    src/database/Migrations.hpp: the files of a directory, the table of versions that
    were applied, and the start of a process, which applies what is missing under an
    advisory lock.  Processes start, stop and are killed in any order, each with the
    directory of its own image; a step of one of them is one statement that commits or
    one whole transaction. *)
From Stdlib Require Import ZArith Lia Ascii String.
From stdpp Require Import relations sorting.
From S2P Require Import Prelude.
Open Scope string_scope.
Open Scope Z_scope.
Set Warnings "-clear-no-such-hyp".

Module Migrations.

(** ** The files *)

(** [MigrationFile]: src/database/Migrations.hpp:29-33.  The path stands for the text behind it. *)
Record MigrationFile := mkFile { version : Z; name : string; sql : string }.

(** [has_no_transaction_marker]: src/database/Migrations.hpp:41-43. *)
Definition has_no_transaction_marker (text : string) : bool :=
  match String.index 0 "-- migrate:no-transaction" text with Some _ => true | None => false end.

(** [scan_migrations]: src/database/Migrations.hpp:101-101.  Digits, one of [_] and [-], a
    line, and the suffix. *)
Definition newline (c : ascii) : bool := (code c =? 10) || (code c =? 13).
Definition version_digits (filename : string) : option string :=
  let ds := digit_prefix filename in
  match ds, str_drop (size ds) filename with
  | String _ _, String c rest =>
      if (Ascii.eqb c "_" || Ascii.eqb c "-") && str_all (fun c => negb (newline c)) rest
         && (4 <=? size rest)%nat && String.eqb (str_drop (size rest - 4) rest) ".sql"
      then Some ds else None
  | _, _ => None
  end.

(** [scan_migrations]: src/database/Migrations.hpp:108-121.  One entry of the directory. *)
Definition entry_of (f : string * string) : outcome (option MigrationFile) :=
  match version_digits (fst f) with
  | None => Ok None
  | Some ds => v ← stoi ds; Ok (Some (mkFile v (fst f) (snd f)))
  end.
Fixpoint entries (dir : list (string * string)) : outcome (list MigrationFile) :=
  match dir with
  | [] => Ok []
  | f :: r => e ← entry_of f; es ← entries r; Ok (match e with Some m => m :: es | None => es end)
  end.

(** [scan_migrations]: src/database/Migrations.hpp:99-128.  The files in the order the
    directory gives them; files of one version stay in that order. *)
Definition scan_migrations (dir : list (string * string)) : outcome (list MigrationFile) :=
  ms ← entries dir; Ok (stable_sort (fun a b => version a <? version b) ms).

(** ** The database *)

Section Database.
(** The rest of the schema, and what the server makes of a text; [None] is an error. *)
Context {S : Type} (exec : string -> S -> option S).

(** The table of versions, if it was made; the schema; the holder of the advisory lock;
    and what has been run, with whether in a transaction. *)
Record DB := mkDB { tracked : option (gmap Z string); schema : S; lock : option nat; ran : list (MigrationFile * bool) }.

Definition applied (d : DB) : gmap Z string := default ∅ (tracked d).
Definition set_lock (o : option nat) (d : DB) : DB := mkDB (tracked d) (schema d) o (ran d).
(** Release the lock, if it is this process's. *)
Definition unlock (i : nat) (d : DB) : DB := if bool_decide (lock d = Some i) then set_lock None d else d.
Definition record (m : MigrationFile) (d : DB) : DB := mkDB (Some (<[version m := name m]> (applied d))) (schema d) (lock d) (ran d).
Definition committed (m : MigrationFile) (in_txn : bool) (s : S) (d : DB) : DB := mkDB (tracked d) s (lock d) (ran d ++ [(m, in_txn)]).

(** [ensure_tracking_table]: src/database/Migrations.hpp:86-97. *)
Definition ensure_tracking_table (d : DB) : DB := mkDB (Some (applied d)) (schema d) (lock d) (ran d).

(** [get_applied]: src/database/Migrations.hpp:130-141. *)
Definition get_applied (d : DB) : gset Z := dom (applied d).

Definition missing (seen : gset Z) (ms : list MigrationFile) : list MigrationFile :=
  List.filter (fun m => negb (bool_decide (version m ∈ seen))) ms.

(** [list_pending]: src/database/Migrations.hpp:56-80.  Without the table everything is pending. *)
Definition list_pending (dir : list (string * string)) (d : DB) : outcome (list MigrationFile) :=
  ms ← scan_migrations dir; Ok (missing (get_applied d) ms).

(** ** A process that starts *)

(** Where [initialize] is: before the table, before the versions are read, with the files
    still to go through, holding the lock for one of them - before its statement, after
    it, after its row -, at its end, or gone. *)
Inductive phase :=
| Booting
| Tabled
| Going (todo : list MigrationFile)
| Locked (m : MigrationFile) (todo : list MigrationFile)
| Done_ (m : MigrationFile) (todo : list MigrationFile)
| Releasing (todo : list MigrationFile)
| Ready
| Gone.

(** [initialize]: src/database/Migrations.hpp:227-237.  The transaction, under its lock. *)
Definition in_transaction (m : MigrationFile) (d : DB) : option DB :=
  if bool_decide (is_Some (applied d !! version m)) then Some d
  else match exec (sql m) (schema d) with None => None | Some s => Some (record m (committed m true s d)) end.

(** [apply_no_transaction_]: src/database/Migrations.hpp:159-182.  The statements after the
    lock, each on its own. *)
Definition checked (i : nat) (m : MigrationFile) (todo : list MigrationFile) (d : DB) : phase * DB :=
  if bool_decide (is_Some (applied d !! version m)) then (Releasing todo, d)
  else match exec (sql m) (schema d) with
       | None => (Gone, unlock i d)
       | Some s => (Done_ m todo, committed m false s d)
       end.
Definition inserted (i : nat) (m : MigrationFile) (todo : list MigrationFile) (d : DB) : phase * DB :=
  if bool_decide (is_Some (applied d !! version m)) then (Gone, unlock i d) else (Releasing todo, record m d).

(** [initialize]: src/database/Migrations.hpp:185-248.  One step of process [i]; [None]
    waits for the lock, or has nothing left to do. *)
Definition advance (i : nat) (dir : list (string * string)) (p : phase) (d : DB) : option (phase * DB) :=
  match p with
  | Booting => Some (Tabled, ensure_tracking_table d)
  | Tabled =>
      match scan_migrations dir with
      | Ok [] => Some (Ready, d)
      | Ok ms => Some (Going (missing (get_applied d) ms), d)
      | _ => Some (Gone, d)
      end
  | Going [] => Some (Ready, d)
  | Going (m :: todo) =>
      match lock d with
      | Some _ => None
      | None =>
          if has_no_transaction_marker (sql m) then Some (Locked m todo, set_lock (Some i) d)
          else match in_transaction m d with None => Some (Gone, d) | Some d' => Some (Going todo, d') end
      end
  | Locked m todo => Some (checked i m todo d)
  | Done_ m todo => Some (inserted i m todo d)
  | Releasing todo => Some (Going todo, unlock i d)
  | Ready | Gone => None
  end.

(** ** Processes *)

Record System := mkSystem { db : DB; procs : gmap nat phase }.

Section Fleet.
(** The migrations in the image of a process. *)
Context (image : nat -> list (string * string)).

(** A process takes a step, is killed - the server takes its lock back -, or a new one starts. *)
Inductive step (s : System) : System -> Prop :=
| step_advance i p p' d' : procs s !! i = Some p -> advance i (image i) p (db s) = Some (p', d') -> step s (mkSystem d' (<[i := p']> (procs s)))
| step_kill i p : procs s !! i = Some p -> step s (mkSystem (unlock i (db s)) (<[i := Gone]> (procs s)))
| step_start i : procs s !! i = None -> step s (mkSystem (db s) (<[i := Booting]> (procs s))).

(** An empty database, and nobody yet. *)
Definition start (s0 : S) : System := mkSystem (mkDB None s0 None []) ∅.
Definition reachable (s0 : S) (s : System) : Prop := rtc step (start s0) s.

(** ** What every history keeps *)

(** The file a process has the lock for. *)
Definition holds (p : phase) : bool := match p with Locked _ _ | Done_ _ _ | Releasing _ => true | _ => false end.

(** The files a process has still to see recorded. *)
Definition ahead (p : phase) : option (list MigrationFile) :=
  match p with
  | Going todo | Releasing todo => Some todo
  | Locked m todo | Done_ m todo => Some (m :: todo)
  | Ready => Some []
  | _ => None
  end.

(** The schema after these texts. *)
Definition replay (s0 : S) (l : list (MigrationFile * bool)) : S := foldl (fun s e => default s (exec (sql e.1) s)) s0 l.

Definition once (v : Z) (l : list (MigrationFile * bool)) : list (MigrationFile * bool) :=
  List.filter (fun e => (version e.1 =? v) && e.2) l.

Record db_ok (s0 : S) (d : DB) : Prop := {
  ok_row : forall v n, applied d !! v = Some n -> exists m b, (m, b) ∈ ran d /\ version m = v /\ name m = n;
  ok_txn : forall m, (m, true) ∈ ran d -> applied d !! version m = Some (name m);
  ok_once : forall v, (length (once v (ran d)) <= 1)%nat;
  ok_replay : schema d = replay s0 (ran d)
}.

(** What the place of a process says. *)
Definition place_ok (i : nat) (p : phase) (d : DB) : Prop :=
  (holds p = true <-> lock d = Some i) /\
  (forall m todo, p = Done_ m todo -> (m, false) ∈ ran d) /\
  (forall todo, ahead p = Some todo -> exists ms, scan_migrations (image i) = Ok ms /\
     forall m, m ∈ ms -> m ∈ todo \/ is_Some (applied d !! version m)).

Record fleet_ok (s0 : S) (s : System) : Prop := {
  fl_db : db_ok s0 (db s);
  fl_place : forall i p, procs s !! i = Some p -> place_ok i p (db s);
  fl_lock : forall i, lock (db s) = Some i -> exists p, procs s !! i = Some p
}.

(** The database only gains: rows, and runs of versions that had none. *)
Record gains (d d' : DB) : Prop := {
  ga_rows : applied d ⊆ applied d';
  ga_ran : exists l, ran d' = (ran d ++ l)%list /\ forall e, e ∈ l -> applied d !! version e.1 = None
}.

#[export] Instance gains_preorder : PreOrder gains.
Proof.
  split.
  - intros d. split; [done|]. exists []. split; [by rewrite app_nil_r | by intros e ?%elem_of_nil].
  - intros d1 d2 d3 [A1 (l1 & E1 & N1)] [B1 (l2 & E2 & N2)]. split; [by transitivity (applied d2)|].
    exists (l1 ++ l2)%list. split; [by rewrite E2, E1, app_assoc|]. intros e [He|He]%elem_of_app; [by apply N1|].
    specialize (N2 _ He). destruct (applied d1 !! version e.1) as [n|] eqn:E; [|done].
    by rewrite (lookup_weaken _ _ _ _ E A1) in N2.
Qed.

(** *** The statements *)

Lemma applied_same d d' : tracked d' = tracked d -> applied d' = applied d.
Proof. unfold applied. by intros ->. Qed.

Lemma same_ok s0 d d' : applied d' = applied d -> schema d' = schema d -> ran d' = ran d -> db_ok s0 d -> db_ok s0 d'.
Proof. intros E1 E2 E3 [O1 O2 O3 O4]. split; [by rewrite E1, E3 | by rewrite E1, E3 | by rewrite E3 | by rewrite E2, E3]. Qed.

Lemma same_gains d d' : applied d' = applied d -> ran d' = ran d -> gains d d'.
Proof. intros E1 E2. split; [by rewrite E1|]. exists []. rewrite app_nil_r. split; [done | by intros e ?%elem_of_nil]. Qed.

Lemma unlock_same i d : applied (unlock i d) = applied d /\ schema (unlock i d) = schema d /\ ran (unlock i d) = ran d.
Proof. unfold unlock. by case_bool_decide. Qed.

Lemma unlock_lock i j d : lock (unlock i d) = Some j <-> lock d = Some j /\ j <> i.
Proof. unfold unlock. case_bool_decide as H; cbn; split; [done | | | tauto]; [intros [? ?]; congruence | intros ?; split; congruence]. Qed.

Lemma row_none d v : ~ is_Some (applied d !! v) -> applied d !! v = None.
Proof. intros H. by apply eq_None_not_Some. Qed.

Lemma once_app v l e : once v (l ++ [e]) = (once v l ++ if (version e.1 =? v) && e.2 then [e] else [])%list.
Proof. unfold once. rewrite List.filter_app. cbn. by destruct ((version e.1 =? v) && e.2). Qed.

Lemma once_none s0 d v : db_ok s0 d -> applied d !! v = None -> once v (ran d) = [].
Proof.
  intros Hd Hv. destruct (once v (ran d)) as [|e l] eqn:E; [done|].
  assert (He : e ∈ once v (ran d)) by (rewrite E; by left).
  apply list_elem_of_In, filter_In in He as [He Hb]. apply andb_true_iff in Hb as [Hv' Hb]. apply Z.eqb_eq in Hv'.
  apply list_elem_of_In in He. destruct e as [m b]. cbn in *. subst b v. by rewrite (ok_txn _ _ Hd _ He) in Hv.
Qed.

Lemma executed_ok s0 d m b s : db_ok s0 d -> exec (sql m) (schema d) = Some s -> applied d !! version m = None ->
  (forall d', applied d' = (if b : bool then <[version m := name m]> (applied d) else applied d) -> schema d' = s ->
     ran d' = (ran d ++ [(m, b)])%list -> db_ok s0 d' /\ gains d d').
Proof.
  intros Hd He Hn d' E1 E2 E3. split; split.
  - rewrite E1, E3. intros v n Hv. destruct b.
    + apply lookup_insert_Some in Hv as [[<- <-]|[Hne Hv]]; [exists m, true; rewrite elem_of_app, list_elem_of_singleton; auto|].
      destruct (ok_row _ _ Hd _ _ Hv) as (m' & b' & Hin & Hm'). exists m', b'. rewrite elem_of_app. auto.
    + destruct (ok_row _ _ Hd _ _ Hv) as (m' & b' & Hin & Hm'). exists m', b'. rewrite elem_of_app. auto.
  - rewrite E1, E3. intros m' [Hin|Hin%list_elem_of_singleton]%elem_of_app.
    + pose proof (ok_txn _ _ Hd _ Hin) as H'. destruct b; [|done]. rewrite lookup_insert_ne; [done|]. intros E. by rewrite E, H' in Hn.
    + injection Hin as -> <-. by rewrite lookup_insert_eq.
  - intros v. rewrite E3, once_app. cbn [fst snd]. destruct (Z.eqb_spec (version m) v) as [<-|]; cbn [andb]; [|rewrite app_nil_r; apply (ok_once _ _ Hd)].
    destruct b; [|rewrite app_nil_r; apply (ok_once _ _ Hd)]. rewrite (once_none s0) by done. cbn. lia.
  - rewrite E2, E3. unfold replay. rewrite foldl_app. cbn. fold (replay s0 (ran d)). rewrite <- (ok_replay _ _ Hd). by rewrite He.
  - rewrite E1. destruct b; [by apply insert_subseteq | done].
  - exists [(m, b)]. split; [done|]. by intros e ->%list_elem_of_singleton.
Qed.

Lemma record_ok s0 d m : db_ok s0 d -> applied d !! version m = None -> (m, false) ∈ ran d -> db_ok s0 (record m d) /\ gains d (record m d).
Proof.
  intros Hd Hn Hin. split; split.
  - intros v n Hv. change (applied (record m d)) with (<[version m := name m]> (applied d)) in Hv. cbn [ran record].
    apply lookup_insert_Some in Hv as [[<- <-]|[Hne Hv]]; [by exists m, false | by apply (ok_row _ _ Hd)].
  - intros m' Hm'. change (applied (record m d)) with (<[version m := name m]> (applied d)). cbn [ran record] in Hm'.
    pose proof (ok_txn _ _ Hd _ Hm') as H'. rewrite lookup_insert_ne; [done|]. intros E. by rewrite E, H' in Hn.
  - apply (ok_once _ _ Hd).
  - apply (ok_replay _ _ Hd).
  - by apply insert_subseteq.
  - exists []. rewrite app_nil_r. split; [done | by intros e ?%elem_of_nil].
Qed.

(** *** One step *)

Lemma row_now d m : is_Some (applied (record m d) !! version m).
Proof. change (applied (record m d)) with (<[version m := name m]> (applied d)). rewrite lookup_insert_eq. eauto. Qed.

Lemma missing_or seen ms m : m ∈ ms -> m ∈ missing seen ms \/ version m ∈ seen.
Proof.
  intros Hm. destruct (decide (version m ∈ seen)); [by right|]. left. unfold missing.
  apply list_elem_of_In, filter_In. split; [by apply list_elem_of_In | by rewrite bool_decide_eq_false_2].
Qed.

(** What is ahead after a step, when nothing recorded is lost. *)
Lemma ahead_later i d d' (todo todo' : list MigrationFile) : gains d d' ->
  (exists ms, scan_migrations (image i) = Ok ms /\ forall m, m ∈ ms -> m ∈ todo \/ is_Some (applied d !! version m)) ->
  (forall m, m ∈ todo -> m ∈ todo' \/ is_Some (applied d' !! version m)) ->
  exists ms, scan_migrations (image i) = Ok ms /\ forall m, m ∈ ms -> m ∈ todo' \/ is_Some (applied d' !! version m).
Proof.
  intros Hg (ms & Hs & Hm) Ht. exists ms. split; [done|]. intros m Hin. destruct (Hm m Hin) as [H1|[n Hn]]; [by apply Ht|].
  right. exists n. by apply (lookup_weaken _ _ _ _ Hn), (ga_rows _ _ Hg).
Qed.

(** What a step owes: the invariant of the database, what it gains, its own place, the others' locks. *)
Definition stepped (s0 : S) (i : nat) (d : DB) (x : phase * DB) : Prop :=
  db_ok s0 x.2 /\ gains d x.2 /\ place_ok i x.1 x.2 /\ forall j, j <> i -> lock x.2 = Some j <-> lock d = Some j.

Lemma gone_stepped s0 i d : db_ok s0 d -> stepped s0 i d (Gone, unlock i d).
Proof.
  intros Hd. destruct (unlock_same i d) as (E1 & E2 & E3). split; [by apply (same_ok s0 d)|]. split; [by apply same_gains|].
  split; [|intros j Hj; cbn; rewrite unlock_lock; tauto]. split; [|split; done]. cbn. rewrite unlock_lock. split; [done | tauto].
Qed.

Ltac place := split; [|split; [try by intros ? ? [=] | try by intros ? [=]]].

Lemma checked_stepped s0 i m todo d : db_ok s0 d -> place_ok i (Locked m todo) d -> stepped s0 i d (checked i m todo d).
Proof.
  intros Hd (Hl & _ & Ha). specialize (Ha _ eq_refl). unfold checked. case_bool_decide as Hs; [|destruct (exec (sql m) (schema d)) as [s|] eqn:He].
  - split; [done|]. split; [reflexivity|]. split; [|done]. place; [by rewrite <- Hl|]. intros t [= <-].
    eapply ahead_later; [reflexivity | exact Ha |]. intros m' [->|Hm']%elem_of_cons; auto.
  - destruct (executed_ok s0 d m false s Hd He (row_none _ _ Hs) (committed m false s d)) as [H1 H2]; [done..|].
    split; [done|]. split; [done|]. split; [|done]. place; [by rewrite <- Hl | |].
    + intros m' t [= <- <-]. cbn. apply elem_of_app. right. by left.
    + intros t [= <-]. eapply ahead_later; [exact H2 | exact Ha | auto].
  - by apply gone_stepped.
Qed.

Lemma inserted_stepped s0 i m todo d : db_ok s0 d -> place_ok i (Done_ m todo) d -> stepped s0 i d (inserted i m todo d).
Proof.
  intros Hd (Hl & Hr & Ha). specialize (Ha _ eq_refl). specialize (Hr _ _ eq_refl). unfold inserted.
  case_bool_decide as Hs; [by apply gone_stepped|]. destruct (record_ok s0 d m Hd (row_none _ _ Hs) Hr) as [H1 H2].
  split; [done|]. split; [done|]. split; [|done]. place; [by rewrite <- Hl|]. intros t [= <-].
  eapply ahead_later; [exact H2 | exact Ha |]. intros m' [->|Hm']%elem_of_cons; [right; apply row_now | auto].
Qed.

Lemma going_stepped s0 i m todo d x : db_ok s0 d -> place_ok i (Going (m :: todo)) d -> advance i (image i) (Going (m :: todo)) d = Some x ->
  stepped s0 i d x.
Proof.
  intros Hd (Hl & _ & Ha). specialize (Ha _ eq_refl). cbn [advance]. destruct (lock d) as [k|] eqn:El; [done|].
  destruct (has_no_transaction_marker (sql m)); [intros [= <-]|].
  - split; [by apply (same_ok s0 d)|]. split; [by apply same_gains|]. split; [|intros j Hj; cbn; split; congruence]. place; [done|].
    intros t [= <-]. eapply ahead_later; [by apply same_gains | exact Ha | auto].
  - unfold in_transaction. case_bool_decide as Hs; [intros [= <-]|destruct (exec (sql m) (schema d)) as [s|] eqn:He; intros [= <-]].
    + split; [done|]. split; [reflexivity|]. split; [|done]. place; [cbn; by rewrite El|]. intros t [= <-].
      eapply ahead_later; [reflexivity | exact Ha |]. intros m' [->|Hm']%elem_of_cons; auto.
    + destruct (executed_ok s0 d m true s Hd He (row_none _ _ Hs) (record m (committed m true s d))) as [H1 H2]; [done..|].
      split; [done|]. split; [done|]. split; [|done]. place; [cbn; by rewrite El|]. intros t [= <-].
      eapply ahead_later; [exact H2 | exact Ha |]. intros m' [->|Hm']%elem_of_cons; [right; apply row_now | auto].
    + split; [done|]. split; [reflexivity|]. split; [|done]. place. cbn. by rewrite El.
Qed.

Lemma advance_stepped s0 i p d x : db_ok s0 d -> place_ok i p d -> advance i (image i) p d = Some x -> stepped s0 i d x.
Proof.
  intros Hd Hp. pose proof Hp as (Hl & _ & Ha).
  destruct p as [| |[|m todo]|m todo|m todo|todo| |].
  - intros [= <-]. split; [by apply (same_ok s0 d)|]. split; [by apply same_gains|]. split; [|done]. by place.
  - cbn [advance]. assert (Hg : stepped s0 i d (Gone, d)) by (split; [done|]; split; [done|]; split; [by place | done]).
    destruct (scan_migrations (image i)) as [[|m0 ms0]|e|] eqn:Es; intros [= <-]; [| |done|done];
      (split; [done|]; split; [reflexivity|]; split; [|done]; place; [done|]; intros t [= <-]; eexists; split; [exact Es|]).
    + intros m Hm. by apply elem_of_nil in Hm.
    + intros m Hm. destruct (missing_or (get_applied d) _ m Hm) as [?|H]; [by left|]. right. unfold get_applied in H. by apply elem_of_dom in H.
  - intros [= <-]. split; [done|]. split; [reflexivity|]. split; [|done]. place; [done|]. intros t [= <-]. by apply Ha.
  - by apply going_stepped.
  - intros [= <-]. by apply checked_stepped.
  - intros [= <-]. by apply inserted_stepped.
  - intros [= <-]. destruct (unlock_same i d) as (E1 & E2 & E3). split; [by apply (same_ok s0 d)|]. split; [by apply same_gains|].
    split; [|intros j Hj; cbn; rewrite unlock_lock; tauto]. place; [cbn; rewrite unlock_lock; split; [done | tauto]|].
    intros t [= <-]. eapply ahead_later; [by apply same_gains | by apply Ha | auto].
  - done.
  - done.
Qed.

(** *** Every history *)

Lemma place_later i p d d' : place_ok i p d -> gains d d' -> (lock d' = Some i <-> lock d = Some i) -> place_ok i p d'.
Proof.
  intros (Hl & Hr & Ha) Hg Hk. split; [by rewrite Hk|]. split.
  - intros m todo Hp. destruct (ga_ran _ _ Hg) as (l & -> & _). apply elem_of_app. left. by eapply Hr.
  - intros todo Hp. eapply ahead_later; [exact Hg | by apply Ha | auto].
Qed.

Lemma stepped_ok s0 s i p x : fleet_ok s0 s -> procs s !! i = Some p -> stepped s0 i (db s) x ->
  fleet_ok s0 (mkSystem x.2 (<[i := x.1]> (procs s))).
Proof.
  intros [F1 F2 F3] Hp (H1 & H2 & H3 & H4). split; cbn; [done | |].
  - intros j p' Hj. apply lookup_insert_Some in Hj as [[<- <-]|[Hne Hj]]; [done|]. eapply place_later; eauto.
  - intros j Hj. destruct (decide (j = i)) as [->|Hne]; [rewrite lookup_insert_eq; eauto|]. rewrite lookup_insert_ne by done. apply F3. by apply H4.
Qed.

Lemma step_ok s0 s s' : fleet_ok s0 s -> step s s' -> fleet_ok s0 s' /\ gains (db s) (db s').
Proof.
  intros Hf Hst. destruct Hst as [i p p' d' Hp Ha|i p Hp|i Hn].
  - pose proof (advance_stepped s0 i p (db s) (p', d') (fl_db _ _ Hf) (fl_place _ _ Hf _ _ Hp) Ha) as H1.
    split; [by apply (stepped_ok s0 s i p (p', d')) | apply H1].
  - pose proof (gone_stepped s0 i (db s) (fl_db _ _ Hf)) as H1. split; [by apply (stepped_ok s0 s i p (Gone, unlock i (db s))) | apply H1].
  - split; [|reflexivity]. destruct Hf as [F1 F2 F3]. split; cbn; [done | |].
    + intros j p Hj. apply lookup_insert_Some in Hj as [[<- <-]|[Hne Hj]]; [|by apply F2].
      place; [split; [done|]; intros Hl; destruct (F3 _ Hl) as [p Hp]; congruence].
    + intros j Hj. destruct (decide (j = i)) as [->|Hne]; [rewrite lookup_insert_eq; eauto | rewrite lookup_insert_ne by done; auto].
Qed.

Lemma history_ok s0 s : reachable s0 s -> fleet_ok s0 s.
Proof.
  intros Hr. apply rtc_ind_r with (P := fleet_ok s0) in Hr; [done | | intros y z _ Hs Hy; by apply (step_ok s0 y z Hy)].
  split; cbn; [|done|done]. split; cbn; [by intros v n Hv | by intros m ?%elem_of_nil | intros; cbn; lia | done].
Qed.

Lemma later_gains s0 s s' : reachable s0 s -> rtc step s s' -> gains (db s) (db s').
Proof.
  intros Hr Hs. pose proof (history_ok s0 s Hr) as Hf. clear Hr. induction Hs as [|x y z Hxy Hyz IH]; [reflexivity|].
  destruct (step_ok s0 x y Hf Hxy) as [Hf' Hg]. transitivity (db y); auto.
Qed.

(** ** What is promised *)

(** The runs of one version. *)
Definition runs (v : Z) (l : list (MigrationFile * bool)) : list (MigrationFile * bool) := List.filter (fun e => version e.1 =? v) l.

Lemma runs_none v l : (forall e, e ∈ l -> version e.1 <> v) -> runs v l = [].
Proof.
  induction l as [|e l IH]; intros H; [done|]. cbn. rewrite (proj2 (Z.eqb_neq _ _)) by (apply H; by left).
  apply IH. intros e' He'. apply H. by right.
Qed.

(** A migration is applied once.  Whatever processes start, stop and are killed, from
    images with whatever files: the text of a version is committed in a transaction at
    most once, and then its row stands; a row stands for a text that ran, never goes, and
    after it no text of that version runs again; the schema is what the texts that ran,
    in their order, make of the empty one; and a process that is ready has every version
    of its image recorded. *)
Theorem migrated_once s0 s s' : reachable s0 s -> rtc step s s' ->
  (forall v, (length (once v (ran (db s'))) <= 1)%nat) /\
  (forall m, (m, true) ∈ ran (db s') -> applied (db s') !! version m = Some (name m)) /\
  (forall v n, applied (db s') !! v = Some n -> exists m b, (m, b) ∈ ran (db s') /\ version m = v /\ name m = n) /\
  (forall v n, applied (db s) !! v = Some n -> applied (db s') !! v = Some n /\ runs v (ran (db s')) = runs v (ran (db s))) /\
  schema (db s') = replay s0 (ran (db s')) /\
  (forall i, procs s' !! i = Some Ready -> exists ms, scan_migrations (image i) = Ok ms /\ forall m, m ∈ ms -> is_Some (applied (db s') !! version m)).
Proof.
  intros Hr Hs. assert (Hr' : reachable s0 s') by (unfold reachable; by transitivity s).
  destruct (history_ok _ _ Hr') as [[O1 O2 O3 O4] F2 _]. destruct (later_gains _ _ _ Hr Hs) as [G1 (l & El & Hl)].
  split; [done|]. split; [done|]. split; [done|]. split; [|split; [done|]].
  - intros v n Hv. split; [by apply (lookup_weaken _ _ _ _ Hv)|]. unfold runs. rewrite El, List.filter_app.
    fold (runs v l). rewrite (runs_none v l); [apply app_nil_r|]. intros e He Ev. specialize (Hl e He). congruence.
  - intros i Hi. destruct (F2 _ _ Hi) as (_ & _ & Ha). destruct (Ha [] eq_refl) as (ms & Hms & Hin). exists ms. split; [done|].
    intros m Hm. destruct (Hin m Hm) as [H|H]; [by apply elem_of_nil in H | done].
Qed.

(** *** No process waits for ever *)

Definition moves (s s' : System) : Prop := exists i p p' d', procs s !! i = Some p /\ advance i (image i) p (db s) = Some (p', d') /\
  s' = mkSystem d' (<[i := p']> (procs s)).

(** The steps a process may still take. *)
Definition work (i : nat) (p : phase) : nat :=
  match p with
  | Booting => 3 + 4 * length (image i)
  | Tabled => 2 + 4 * length (image i)
  | Going todo => 1 + 4 * length todo
  | Locked _ todo => 4 + 4 * length todo
  | Done_ _ todo => 3 + 4 * length todo
  | Releasing todo => 2 + 4 * length todo
  | Ready | Gone => 0
  end.

Definition total_work (s : System) : nat := sum_list_with (fun x => work x.1 x.2) (map_to_list (procs s)).

Lemma entries_length dir ms : entries dir = Ok ms -> (length ms <= length dir)%nat.
Proof.
  revert ms. induction dir as [|f dir IH]; intros ms; cbn [entries]; [by intros [= <-]|].
  intros H. apply bind_Ok_inv in H as (e & _ & H). apply bind_Ok_inv in H as (es & Hes & H). specialize (IH _ Hes).
  destruct e; injection H as <-; cbn; lia.
Qed.

Lemma scan_length dir ms : scan_migrations dir = Ok ms -> (length ms <= length dir)%nat.
Proof.
  unfold scan_migrations. intros H. apply bind_Ok_inv in H as (l & Hl & H). injection H as <-. rewrite stable_sort_perm. by apply entries_length.
Qed.

Lemma missing_length seen ms : (length (missing seen ms) <= length ms)%nat.
Proof. unfold missing. induction ms as [|m ms IH]; cbn; [lia|]. case_match; cbn; lia. Qed.

Lemma work_decreases i p d p' d' : advance i (image i) p d = Some (p', d') -> (work i p' < work i p)%nat.
Proof.
  destruct p as [| |[|m todo]|m todo|m todo|todo| |]; cbn [advance]; try discriminate.
  - intros [= <- <-]. cbn. lia.
  - destruct (scan_migrations (image i)) as [[|m ms]|e|] eqn:Es; intros [= <- <-]; cbn [work]; [lia| |lia|lia].
    apply scan_length in Es. pose proof (missing_length (get_applied d) (m :: ms)). unfold missing in *. cbn [List.filter] in *. lia.
  - intros [= <- <-]. cbn. lia.
  - destruct (lock d); [done|]. destruct (has_no_transaction_marker (sql m)); [intros [= <- <-]; cbn; lia|].
    destruct (in_transaction m d); intros [= <- <-]; cbn; lia.
  - unfold checked. case_bool_decide; [|destruct (exec _ _)]; intros [= <- <-]; cbn; lia.
  - unfold inserted. case_bool_decide; intros [= <- <-]; cbn; lia.
  - intros [= <- <-]. cbn. lia.
Qed.

Lemma move_works s s' : moves s s' -> (total_work s' < total_work s)%nat.
Proof.
  intros (i & p & p' & d' & Hp & Ha & ->). apply work_decreases in Ha. unfold total_work. cbn [procs].
  rewrite <- (insert_delete_eq (procs s) i p'). rewrite <- (insert_delete_id (procs s) i p Hp) at 2.
  rewrite !map_to_list_insert by apply lookup_delete_eq. cbn. lia.
Qed.

(** The processes that start get through.  However they take turns, with no kill and
    no new process the steps come to an end, within a bound that the sizes of the images
    give; and where no process can take a step, every one of them is ready or has
    stopped at an error - none waits for a lock that nobody will give back. *)
Theorem boots_terminate s0 s : reachable s0 s ->
  (forall n s', nsteps moves n s s' -> (n <= total_work s)%nat) /\
  ((forall s', ~ moves s s') -> forall i p, procs s !! i = Some p -> p = Ready \/ p = Gone).
Proof.
  intros Hr. split.
  - intros n s' Hn. induction Hn as [|n x y z Hxy Hyz IH]; [lia|]. assert (Hry : reachable s0 y).
    { destruct Hxy as (i & p & p' & d' & Hp & Ha & ->). eapply rtc_r; [exact Hr | by eapply step_advance]. }
    specialize (IH Hry). apply move_works in Hxy. lia.
  - intros Hstuck i p Hp. pose proof (history_ok _ _ Hr) as [_ F2 F3].
    assert (Hcan : forall j pj, procs s !! j = Some pj -> advance j (image j) pj (db s) = None).
    { intros j pj Hj. destruct (advance j (image j) pj (db s)) as [[p' d']|] eqn:E; [|done]. edestruct Hstuck. by exists j, pj, p', d'. }
    destruct (lock (db s)) as [k|] eqn:El.
    + destruct (F3 k eq_refl) as [pk Hk]. pose proof (proj2 (proj1 (F2 _ _ Hk)) El) as Hh. specialize (Hcan _ _ Hk). by destruct pk.
    + specialize (Hcan _ _ Hp). destruct p as [| |[|m todo]|m todo|m todo|todo| |]; cbn [advance] in Hcan; try discriminate; auto.
      * by destruct (scan_migrations (image i)) as [[|? ?]| |].
      * rewrite El in Hcan. destruct (has_no_transaction_marker (sql m)); [done|]. by destruct (in_transaction m (db s)).
Qed.

(** ** Playing a history *)

Inductive event := Go (i : nat) | Kill (i : nat) | New (i : nat).

Definition play1 (e : event) (s : System) : System :=
  match e with
  | Go i => match procs s !! i with
            | Some p => match advance i (image i) p (db s) with Some x => mkSystem x.2 (<[i := x.1]> (procs s)) | None => s end
            | None => s
            end
  | Kill i => match procs s !! i with Some _ => mkSystem (unlock i (db s)) (<[i := Gone]> (procs s)) | None => s end
  | New i => match procs s !! i with Some _ => s | None => mkSystem (db s) (<[i := Booting]> (procs s)) end
  end.
Definition play (l : list event) (s : System) : System := fold_left (fun s e => play1 e s) l s.

Lemma play_steps l : forall s, rtc step s (play l s).
Proof.
  induction l as [|e l IH]; intros s; [reflexivity|]. transitivity (play1 e s); [|apply IH].
  destruct e as [i|i|i]; cbn [play1]; destruct (procs s !! i) as [p|] eqn:Hp; try reflexivity.
  - destruct (advance i (image i) p (db s)) as [[p' d']|] eqn:Ha; [|reflexivity]. apply rtc_once. by eapply step_advance.
  - apply rtc_once. by eapply step_kill.
  - apply rtc_once. by apply step_start.
Qed.

End Fleet.
End Database.

(** ** Worked examples and witnesses *)

Module Example.

Definition exec (text : string) (s : list string) : option (list string) := if String.eqb text "broken" then None else Some (s ++ [text])%list.

Definition index_sql : string := "-- migrate:no-transaction
CREATE INDEX CONCURRENTLY i ON t (c)".

(** Two images, the second with one more file; what is no migration is left out. *)
Definition image (i : nat) : list (string * string) :=
  ([("002_b.sql", "b"); ("001_a.sql", "a"); ("README.md", "x"); ("010-c.sql", index_sql)] ++ if Nat.eqb i 1 then [("011_d.sql", "d")] else [])%list.

Example scanned : (map version <$> match scan_migrations (image 1) with Ok l => Some l | _ => None end) = Some [1; 2; 10; 11].
Proof. reflexivity. Qed.

(** The two processes start at once, take turns, and the second waits while the first has the lock. *)
Definition turns : list event :=
  [New 0; New 1; Go 0; Go 1; Go 0; Go 1; Go 0; Go 1; Go 0; Go 1; Go 0; Go 1; Go 0; Go 1; Go 0; Go 1; Go 0; Go 1; Go 1; Go 1; Go 1; Go 1; Go 1; Go 0; Go 1].

Example rolled_out :
  let s := play exec image turns (start []) in
  (schema (db s), map_to_list (applied (db s)), procs s !! 0%nat, procs s !! 1%nat)
  = (["a"; "b"; index_sql; "d"], map_to_list (list_to_map [(1, "001_a.sql"); (2, "002_b.sql"); (10, "010-c.sql"); (11, "011_d.sql")]), Some Ready, Some Ready).
Proof. vm_compute. reflexivity. Qed.

Lemma migrated_once_witness :
  let s := play exec image turns (start []) in
  (forall v, (length (once v (ran (db s))) <= 1)%nat) /\ is_Some (applied (db s) !! 11).
Proof.
  intros s. destruct (migrated_once exec image [] (start []) s (rtc_refl _ _) (play_steps exec image turns (start []))) as (H1 & _ & _ & _ & _ & H2).
  split; [exact H1|]. destruct (H2 1%nat) as (ms & Hms & Hin); [vm_compute; reflexivity|]. apply (Hin (mkFile 11 "011_d.sql" "d")).
  vm_compute in Hms. injection Hms as <-. right. right. right. left.
Defined.

Lemma boots_terminate_witness :
  let s := play exec image turns (start []) in
  (forall n s', nsteps (moves exec image) n s s' -> (n <= 0)%nat) /\ procs s !! 1%nat = Some Ready.
Proof.
  intros s. pose proof (boots_terminate exec image [] s (play_steps exec image turns (start []))) as [H1 H2].
  split; [|vm_compute; reflexivity]. intros n s' Hn. exact (H1 n s' Hn).
Defined.

(** Two files with one version: the second is taken for applied, and never runs. *)
Definition twins (_ : nat) : list (string * string) := [("001_a.sql", "a"); ("001_b.sql", "b")].
Example second_of_a_version_lost :
  let s := play exec twins [New 0; Go 0; Go 0; Go 0; Go 0; Go 0] (start []) in
  (procs s !! 0%nat, schema (db s)) = (Some Ready, ["a"]).
Proof. vm_compute. reflexivity. Qed.

(** Killed between its statement and its row, a migration without a transaction runs again. *)
Definition backfill (_ : nat) : list (string * string) := [("001_fill.sql", index_sql)].
Example run_twice :
  let s := play exec backfill [New 0; Go 0; Go 0; Go 0; Go 0; Kill 0; New 1; Go 1; Go 1; Go 1; Go 1; Go 1; Go 1; Go 1] (start []) in
  (procs s !! 1%nat, schema (db s)) = (Some Ready, [index_sql; index_sql]).
Proof. vm_compute. reflexivity. Qed.

(** A text that fails stops its process, and the ones that come after it. *)
Definition broken (_ : nat) : list (string * string) := [("001_a.sql", "a"); ("002_b.sql", "broken"); ("003_c.sql", "c")].
Example stops_at_an_error :
  let s := play exec broken [New 0; Go 0; Go 0; Go 0; Go 0; Go 0] (start []) in
  (procs s !! 0%nat, schema (db s)) = (Some Gone, ["a"]).
Proof. vm_compute. reflexivity. Qed.

End Example.
End Migrations.
 
