(* ===== verification/Storage.v ===== *)
(** * Object storage

    src/storage/Storage.hpp: which keys are taken, the requests the S3 backend makes of
    them with their AWS signature, the links it hands out, and what it reads of a
    listing.  The service behind the requests is a parameter with its documented laws,
    HMAC and SHA-256 are those of the tokens; the local backend's files are left out. *)
From Stdlib Require Import ZArith Lia Ascii String Sorted.
From S2P Require Import Prelude Text Dates Documents Auth.
Open Scope string_scope.
Open Scope Z_scope.
Set Warnings "-clear-no-such-hyp".

Module Storage.

(** ** Keys *)

(** [key_is_safe]: src/storage/Storage.hpp:73-81. *)
Definition key_is_safe (key : string) : bool :=
  match key with
  | EmptyString => false
  | String c _ => negb (Ascii.eqb c "/" || Ascii.eqb c "\") && negb (has ".." key) && str_all (fun c => negb (code c =? 0)) key
  end.

Definition unsafe {A} (key : string) : outcome A := Throw (Exn std_runtime_error ("storage: unsafe key '" +:+ (key +:+ "'"))).

(** [url]: src/storage/Storage.hpp:156-160.  Of the local backend. *)
Definition local_url (public_base key : string) : outcome string :=
  if negb (key_is_safe key) then Throw (Exn std_runtime_error "storage: unsafe key")
  else Ok (if String.eqb public_base "" then "/uploads/" +:+ key else public_base +:+ ("/" +:+ key)).

(** ** Encodings *)

Definition hex_upper (d : Z) : ascii := chr (if d <? 10 then 48 + d else 55 + d).
Definition hex_lower (d : Z) : ascii := chr (if d <? 10 then 48 + d else 87 + d).

(** [bytes_to_hex]: src/utils/Crypto.hpp:26-35. *)
Fixpoint bytes_to_hex (s : string) : string :=
  match s with
  | EmptyString => EmptyString
  | String c r => String (hex_lower (Z.shiftr (code c) 4)) (String (hex_lower (Z.land (code c) 15)) (bytes_to_hex r))
  end.

Definition unreserved (c : ascii) : bool :=
  let z := code c in
  ((65 <=? z) && (z <=? 90)) || ((97 <=? z) && (z <=? 122)) || ((48 <=? z) && (z <=? 57))
  || Ascii.eqb c "-" || Ascii.eqb c "_" || Ascii.eqb c "." || Ascii.eqb c "~".

Fixpoint encode (plain : ascii -> bool) (s : string) : string :=
  match s with
  | EmptyString => EmptyString
  | String c r =>
      if plain c then String c (encode plain r)
      else String "%" (String (hex_upper (Z.shiftr (code c) 4)) (String (hex_upper (Z.land (code c) 15)) (encode plain r)))
  end.

(** [uri_encode_path]: src/storage/Storage.hpp:408-422. *)
Definition uri_encode_path : string -> string := encode (fun c => unreserved c || Ascii.eqb c "/").
(** [uri_encode_query]: src/storage/Storage.hpp:426-440. *)
Definition uri_encode_query : string -> string := encode unreserved.

(** ** The S3 backend *)

(** [Config]: src/storage/Storage.hpp:180-208. *)
Record Config := mkConfig {
  endpoint : string; region : string; bucket : string; access_key : string; secret_key : string; public_base : string;
  public_endpoint : string; timeout_sec : Z; connect_timeout_sec : Z
}.

(** [host_from_endpoint]: src/storage/Storage.hpp:384-405. *)
Definition host_from_endpoint (ep : string) : string :=
  let '(scheme, rest) := match find_from 0 "://" ep with
                         | None => ("", ep)
                         | Some pos => (str_take pos ep, str_drop (pos + 3) ep)
                         end in
  let host := match str_find "/" rest with None => rest | Some n => str_take n rest end in
  match cut_last ":" host with
  | Some (name, port) =>
      if String.eqb scheme "http" && String.eqb port "80" || String.eqb scheme "https" && String.eqb port "443" then name else host
  | None => host
  end.

(** [S3Storage]: src/storage/Storage.hpp:210-222.  The configuration as the backend keeps it. *)
Definition configured (c : Config) : Config :=
  mkConfig (endpoint c) (if String.eqb (region c) "" then "us-east-1" else region c) (bucket c) (access_key c) (secret_key c) (public_base c)
    (public_endpoint c) (if timeout_sec c <=? 0 then 10 else timeout_sec c) (if connect_timeout_sec c <=? 0 then 2 else connect_timeout_sec c).

(** [effective_public_endpoint]: src/storage/Storage.hpp:477-479. *)
Definition effective_public_endpoint (c : Config) : string := if String.eqb (public_endpoint c) "" then endpoint c else public_endpoint c.

(** [url]: src/storage/Storage.hpp:301-307. *)
Definition url (c : Config) (key : string) : outcome string :=
  if negb (key_is_safe key) then Throw (Exn std_runtime_error "storage: unsafe key")
  else Ok (if negb (String.eqb (public_base c) "") then public_base c +:+ ("/" +:+ key)
           else endpoint c +:+ ("/" +:+ (bucket c +:+ ("/" +:+ key)))).

(** A moment in UTC, and [strftime]. *)
Record moment := mkMoment { date : ymd; hour : Z; minute : Z; second : Z }.
Definition two (z : Z) : string := String (digit (z / 10)) (String (digit (z mod 10)) EmptyString).

(** [amz_dates]: src/storage/Storage.hpp:459-472. *)
Definition datestamp (m : moment) : string := dec (year (date m)) +:+ (two (month (date m)) +:+ two (day (date m))).
Definition amzdate (m : moment) : string := datestamp m +:+ ("T" +:+ (two (hour m) +:+ (two (minute m) +:+ (two (second m) +:+ "Z")))).

Definition nl : string := String (chr 10) EmptyString.
Fixpoint lines (l : list string) : string :=
  match l with [] => "" | [s] => s | s :: r => s +:+ (nl +:+ lines r) end.

Section Signing.
Context `{Auth.Crypto}.
Context (c : Config).

(** [signing_key]: src/storage/Storage.hpp:445-450. *)
Definition signing_key (stamp : string) : string :=
  let k_date := Auth.hmac_sha256 ("AWS4" +:+ secret_key c) stamp in
  let k_region := Auth.hmac_sha256 k_date (region c) in
  let k_service := Auth.hmac_sha256 k_region "s3" in
  Auth.hmac_sha256 k_service "aws4_request".

(** [hmac_hex]: src/storage/Storage.hpp:454-457. *)
Definition hmac_hex (key data : string) : string := bytes_to_hex (Auth.hmac_sha256 key data).

(** [signed_request]: src/storage/Storage.hpp:509-509. *)
Definition scope (m : moment) : string := datestamp m +:+ ("/" +:+ (region c +:+ "/s3/aws4_request")).
(** [signed_request]: src/storage/Storage.hpp:510-511. *)
Definition string_to_sign (m : moment) (canonical_request : string) : string :=
  lines ["AWS4-HMAC-SHA256"; amzdate m; scope m; Auth.sha256 canonical_request].
(** [signed_request]: src/storage/Storage.hpp:513-513. *)
Definition signature (m : moment) (canonical_request : string) : string :=
  hmac_hex (signing_key (datestamp m)) (string_to_sign m canonical_request).

(** [request]: src/storage/Storage.hpp:488-488.  The path of an object. *)
Definition object_uri (key : string) : string := "/" +:+ (bucket c +:+ ("/" +:+ uri_encode_path key)).

(** [presign]: src/storage/Storage.hpp:343-347. *)
Definition presign_query (m : moment) (ttl : Z) : string :=
  "X-Amz-Algorithm=AWS4-HMAC-SHA256" +:+ ("&X-Amz-Credential=" +:+ (uri_encode_query (access_key c +:+ ("/" +:+ scope m)) +:+
    ("&X-Amz-Date=" +:+ (amzdate m +:+ ("&X-Amz-Expires=" +:+ (to_string ttl +:+ "&X-Amz-SignedHeaders=host")))))).

(** [presign]: src/storage/Storage.hpp:329-358. *)
Definition presign (m : moment) (key method : string) (ttl_sec : Z) : outcome string :=
  if negb (key_is_safe key) then unsafe key
  else
    let ttl := if ttl_sec <=? 0 then 3600 else ttl_sec in
    let query := presign_query m ttl in
    let host := host_from_endpoint (effective_public_endpoint c) in
    let canonical_request := lines [method; object_uri key; query; "host:" +:+ host; ""; "host"; "UNSIGNED-PAYLOAD"] in
    Ok (effective_public_endpoint c +:+ (object_uri key +:+ ("?" +:+ (query +:+ ("&X-Amz-Signature=" +:+ signature m canonical_request))))).

(** A request as it goes out: method, target, headers, body. *)
Record Request := mkRequest { rq_method : string; rq_uri : string; rq_query : string; rq_headers : list (string * string); rq_body : string }.

(** [signed_request]: src/storage/Storage.hpp:493-570.  What is sent. *)
Definition signed (m : moment) (method canonical_uri canonical_query body content_type : string) : Request :=
  let host := host_from_endpoint (endpoint c) in
  let payload_hash := Auth.sha256 body in
  let signed_headers := "host;x-amz-content-sha256;x-amz-date" in
  let canonical_request := lines [method; canonical_uri; canonical_query; "host:" +:+ host; "x-amz-content-sha256:" +:+ payload_hash;
                                  "x-amz-date:" +:+ amzdate m; ""; signed_headers; payload_hash] in
  let authorization := "AWS4-HMAC-SHA256 Credential=" +:+ (access_key c +:+ ("/" +:+ (scope m +:+
                         (", SignedHeaders=" +:+ (signed_headers +:+ (", Signature=" +:+ signature m canonical_request)))))) in
  mkRequest method canonical_uri canonical_query
    ([("Host", host); ("x-amz-date", amzdate m); ("x-amz-content-sha256", payload_hash); ("Authorization", authorization)]
     ++ if String.eqb method "PUT" && negb (String.eqb content_type "") then [("Content-Type", content_type)] else [])
    (if String.eqb method "PUT" then body else "").

End Signing.

(** ** The service *)

Definition hex_value (c : ascii) : option Z :=
  let z := code c in
  if (48 <=? z) && (z <=? 57) then Some (z - 48)
  else if (65 <=? z) && (z <=? 70) then Some (z - 55) else if (97 <=? z) && (z <=? 102) then Some (z - 87) else None.

(** What a percent-encoded text stands for (RFC 3986). *)
Fixpoint decode (s : string) : string :=
  match s with
  | EmptyString => EmptyString
  | String c t =>
      match t with
      | String h (String l r) =>
          if Ascii.eqb c "%" then
            match hex_value h, hex_value l with
            | Some a, Some b => String (chr (16 * a + b)) (decode r)
            | _, _ => String c (decode t)
            end
          else String c (decode t)
      | _ => String c (decode t)
      end
  end.

(** No segment of the path is one that a client resolves before it sends it. *)
Definition undotted (path : string) : Prop := ("." ∉ pieces "/" path) /\ (".." ∉ pieces "/" path).

(** The part of the service the backend relies on: objects by the text of their path,
    for the methods of the backend on paths that go out as they are written. *)
Class ObjectService (W : Type) := {
  serve : Request -> st W (Z * string);
  stored : W -> gmap string string;
  serve_put rq w : rq_method rq = "PUT" -> rq_query rq = "" -> undotted (rq_uri rq) ->
    exists b w', serve rq w = (Ok (200, b), w') /\ stored w' = <[decode (rq_uri rq) := rq_body rq]> (stored w);
  serve_get rq w : rq_method rq = "GET" -> rq_query rq = "" -> undotted (rq_uri rq) ->
    exists b, serve rq w = (Ok (match stored w !! decode (rq_uri rq) with Some x => (200, x) | None => (404, b) end), w);
  serve_head rq w : rq_method rq = "HEAD" -> rq_query rq = "" -> undotted (rq_uri rq) ->
    serve rq w = (Ok (if stored w !! decode (rq_uri rq) is Some _ then 200 else 404, ""), w);
  serve_delete rq w : rq_method rq = "DELETE" -> rq_query rq = "" -> undotted (rq_uri rq) ->
    exists b w', serve rq w = (Ok (204, b), w') /\ stored w' = delete (decode (rq_uri rq)) (stored w)
}.

(** An object as a listing shows it. *)
Record ObjectInfo := mkObject { o_key : string; o_size : Z; o_modified : string }.

(** [std::stoull]: a negative number wraps. *)
Definition stoull (s : string) : outcome Z :=
  match strtol s with
  | None => Throw (Exn std_invalid_argument "stoull")
  | Some z => if (- 2 ^ 64 <? z) && (z <? 2 ^ 64) then Ok (z mod 2 ^ 64) else Throw (Exn std_out_of_range "stoull")
  end.

(** [parse_list_objects_xml]: src/storage/Storage.hpp:255-265. *)
Definition grab (body : string) (pos end_ : nat) (tag : string) : string :=
  let op := "<" +:+ (tag +:+ ">") in
  match find_from pos op body with
  | None => ""
  | Some a =>
      if (end_ <? a)%nat then ""
      else match find_from a ("</" +:+ (tag +:+ ">")) body with
           | None => ""
           | Some b => if (end_ <? b)%nat then "" else str_take (b - a - size op) (str_drop (a + size op) body)
           end
  end.

(** [parse_list_objects_xml]: src/storage/Storage.hpp:266-276.  One entry. *)
Definition entry_at (body : string) (pos end_ : nat) : outcome ObjectInfo :=
  let sz := grab body pos end_ "Size" in
  n ← (if String.eqb sz "" then Ok 0 else stoull sz);
  let lm := grab body pos end_ "LastModified" in
  Ok (mkObject (grab body pos end_ "Key") n (if (20 <? size lm)%nat then str_take 19 lm +:+ "Z" else lm)).

(** [parse_list_objects_xml]: src/storage/Storage.hpp:250-277.  Every round moves on in the body. *)
Fixpoint entries_from (fuel : nat) (body : string) (pos : nat) : outcome (list ObjectInfo) :=
  match fuel with
  | O => Ok []
  | S fuel =>
      match find_from pos "<Contents>" body with
      | None => Ok []
      | Some p =>
          match find_from p "</Contents>" body with
          | None => Ok []
          | Some e =>
              o ← entry_at body p e;
              rest ← entries_from fuel body e;
              Ok (if String.eqb (o_key o) "" then rest else o :: rest)
          end
      end
  end.

Definition newest_first (l : list ObjectInfo) : list ObjectInfo := stable_sort (fun a b => String.ltb (o_modified b) (o_modified a)) l.

(** [parse_list_objects_xml]: src/storage/Storage.hpp:248-284.  Objects of one moment, whose order std::sort leaves open, stay as they came. *)
Definition parse_list_objects_xml (body : string) : outcome (list ObjectInfo * bool) :=
  l ← entries_from (S (size body)) body 0;
  Ok (newest_first l, has "<IsTruncated>true</IsTruncated>" body).

Section Operations.
Context `{Auth.Crypto} {W : Type} `{ObjectService W} (c : Config) (m : moment).

(** [request]: src/storage/Storage.hpp:481-489. *)
Definition request (method key body content_type : string) : st W (Z * string) :=
  if negb (key_is_safe key) then lift (unsafe key)
  else serve (signed c m method (object_uri c key) "" body content_type).

(** [put]: src/storage/Storage.hpp:224-228. *)
Definition put (key bytes content_type : string) : st W unit :=
  answer ← request "PUT" key bytes content_type;
  if (fst answer <? 200) || (300 <=? fst answer)
  then throw std_runtime_error ("s3: PUT " +:+ (key +:+ (" failed with HTTP " +:+ to_string (fst answer))))
  else mret tt.

(** [get]: src/storage/Storage.hpp:230-236. *)
Definition get (key : string) : st W (option string) :=
  answer ← request "GET" key "" "";
  mret (if fst answer =? 200 then Some (snd answer) else None).

(** [remove]: src/storage/Storage.hpp:238-241. *)
Definition remove (key : string) : st W bool :=
  answer ← request "DELETE" key "" "";
  mret ((fst answer =? 204) || (fst answer =? 200)).

(** [exists]: src/storage/Storage.hpp:243-243. *)
Definition exists_ (key : string) : st W bool := answer ← request "HEAD" key "" ""; mret (fst answer =? 200).

(** [list]: src/storage/Storage.hpp:286-299. *)
Definition list_ (prefix : string) : st W (list ObjectInfo) :=
  answer ← serve (signed c m "GET" ("/" +:+ bucket c) ("list-type=2&prefix=" +:+ uri_encode_query prefix) "" "");
  if negb (fst answer =? 200) then throw std_runtime_error ("s3: LIST failed with HTTP " +:+ to_string (fst answer))
  else found ← lift (parse_list_objects_xml (snd answer)); mret (fst found).

End Operations.

(** [initialize]: src/storage/Storage.hpp:590-636.  Which backend is brought up; the
    settings are those of the configuration with their defaults. *)
Inductive Backend := LocalBackend (root public_base : string) | S3Backend (c : Config).
Definition initialize (backend root base : string) (s3 : Config) : outcome Backend :=
  if String.eqb backend "local" then Ok (LocalBackend root base)
  else if String.eqb backend "s3" then
    if String.eqb (endpoint s3) "" || String.eqb (bucket s3) "" then Throw (Exn std_runtime_error "storage.backend=s3 requires S3_ENDPOINT and S3_BUCKET")
    else Ok (S3Backend (configured s3))
  else Throw (Exn std_runtime_error ("storage.backend '" +:+ (backend +:+ "' is not built in"))).

(** ** Keys stay below *)

(** How far below where it began a walk along segments ends; [None] when it climbed above. *)
Fixpoint depth_after (n : nat) (segs : list string) : option nat :=
  match segs with
  | [] => Some n
  | s :: r =>
      if String.eqb s ".." then match n with O => None | S n' => depth_after n' r end
      else if String.eqb s "" || String.eqb s "." then depth_after n r else depth_after (S n) r
  end.

Lemma depth_grows segs : (".." ∉ segs) -> forall n, exists k, depth_after n segs = Some k /\ (n <= k)%nat.
Proof.
  induction segs as [|s r IH]; intros Hn n; [by exists n|]. apply not_elem_of_cons in Hn as [Hs Hr]. cbn [depth_after].
  rewrite (proj2 (String.eqb_neq s "..")) by congruence. destruct (_ || _); [by apply IH|].
  destruct (IH Hr (S n)) as (k & -> & Hk). exists k. split; [done | lia].
Qed.

(** A key that is taken is relative, has no segment that climbs, and whatever directory it
    is put in, the walk along it ends there or below and never leaves on its way. *)
Lemma safe_key_descends key : key_is_safe key = true ->
  (".." ∉ pieces "/" key) /\ (exists x r, key = String x r /\ x <> "/"%char) /\
  forall l n, pieces "/" key = l -> exists k, depth_after n l = Some k /\ (n <= k)%nat.
Proof.
  unfold key_is_safe. destruct key as [|x r] eqn:E; [done|]. rewrite <- E. intros [[Hx Hd]%andb_true_iff _]%andb_true_iff.
  assert (Hp : ".." ∉ pieces "/" key).
  { intros Hin. destruct (piece_inside _ _ _ Hin) as (a & b & Hk). apply negb_true_iff in Hd. by apply (index_split _ _ Hd) in Hk. }
  split; [done|]. split; [|intros l n <-; by apply depth_grows]. exists x, r. split; [done|]. intros ->. done.
Qed.

(** A version's key whose owner climbs is refused here. *)
Example climbing_key_refused : key_is_safe (Files.version_key ".." "generated" "v" "a.pdf") = false.
Proof. reflexivity. Qed.

(** ** Encoded text *)

Lemma unreserved_not sep : unreserved sep = false -> forall c, unreserved c = true -> negb (Ascii.eqb c sep) = true.
Proof. intros Hs c Hc. destruct (Ascii.eqb_spec c sep); [congruence | done]. Qed.

Lemma hex_digits c : unreserved (hex_upper (Z.shiftr (code c) 4)) = true /\ unreserved (hex_upper (Z.land (code c) 15)) = true /\
  unreserved (hex_lower (Z.shiftr (code c) 4)) = true /\ unreserved (hex_lower (Z.land (code c) 15)) = true.
Proof. destruct c as [[] [] [] [] [] [] [] []]; by repeat split. Qed.

Lemma hex_reads_back c : exists a b, hex_value (hex_upper (Z.shiftr (code c) 4)) = Some a /\
  hex_value (hex_upper (Z.land (code c) 15)) = Some b /\ chr (16 * a + b) = c.
Proof. destruct c as [[] [] [] [] [] [] [] []]; eexists _, _; (split; [reflexivity | split; reflexivity]). Qed.

Lemma encode_all q plain s : (forall c, plain c = true -> q c = true) -> (forall c, unreserved c = true -> q c = true) -> q "%"%char = true ->
  str_all q (encode plain s) = true.
Proof.
  intros Hp Hu Hq. induction s as [|c s IH]; cbn [encode str_all]; [done|].
  destruct (plain c) eqn:E; cbn [str_all]; [by rewrite (Hp _ E)|].
  destruct (hex_digits c) as (H1 & H2 & _). by rewrite Hq, (Hu _ H1), (Hu _ H2).
Qed.

Lemma decode_plain c t : Ascii.eqb c "%" = false -> decode (String c t) = String c (decode t).
Proof. intros E. destruct t as [|h [|l r]]; cbn [decode]; rewrite ?E; done. Qed.

Lemma decode_app s t : str_all (fun c => negb (Ascii.eqb c "%")) s = true -> decode (s +:+ t) = s +:+ decode t.
Proof.
  induction s as [|c s IH]; cbn [str_all String.append]; [done|]. intros [Hc%negb_true_iff Hs]%andb_true_iff.
  rewrite decode_plain by done. by rewrite IH.
Qed.

Lemma percent_decoded plain s : plain "%"%char = false -> decode (encode plain s) = s.
Proof.
  intros Hp. induction s as [|c s IH]; cbn [encode]; [done|]. destruct (plain c) eqn:E.
  - rewrite decode_plain, IH; [done|]. destruct (Ascii.eqb_spec c "%"); [congruence | done].
  - destruct (hex_reads_back c) as (a & b & Ha & Hb & Hc). cbn [decode Ascii.eqb Bool.eqb]. by rewrite Ha, Hb, Hc, IH.
Qed.

Lemma plain_decodes s : str_all unreserved s = true -> decode s = s.
Proof.
  intros H. rewrite <- (app_empty_r s) at 1. rewrite decode_app; [by rewrite app_empty_r|].
  apply (str_all_impl unreserved); [by apply unreserved_not | done].
Qed.

Lemma split_encode plain s : plain "/"%char = true ->
  split_on "/" (encode plain s) = (let '(w, ws) := split_on "/" s in (encode plain w, map (encode plain) ws)).
Proof.
  intros Hp. induction s as [|c s IH]; cbn [encode]; [done|]. destruct (plain c) eqn:E.
  - cbn [split_on]. rewrite IH. destruct (split_on "/" s). destruct (ascii_dec c "/"); cbn [encode]; [done | by rewrite E].
  - destruct (hex_digits c) as (H1 & H2 & _). assert (Hs : unreserved "/" = false) by reflexivity.
    set (h := hex_upper (Z.shiftr _ _)) in *. set (l := hex_upper (Z.land _ _)) in *.
    set (t := encode plain s) in *. change (String "%" (String h (String l t))) with (String "%" (String h (String l "")) +:+ t).
    rewrite split_on_app.
    2: { cbn [str_all]. by rewrite (unreserved_not _ Hs _ H1), (unreserved_not _ Hs _ H2). }
    rewrite IH. cbn [split_on]. destruct (split_on "/" s). destruct (ascii_dec c "/"); [congruence|]. cbn [encode]. by rewrite E.
Qed.

Lemma pieces_encode s : pieces "/" (uri_encode_path s) = map uri_encode_path (pieces "/" s).
Proof. unfold pieces, uri_encode_path. rewrite split_encode by done. by destruct (split_on "/" s). Qed.

(** ** The bucket as a map *)

(** A name a bucket can have. *)
Definition bucket_name (b : string) : Prop := str_all unreserved b = true /\ b <> "." /\ b <> "..".

Definition place (c : Config) (key : string) : string := "/" +:+ (bucket c +:+ ("/" +:+ key)).

Lemma object_uri_reads_back c key : bucket_name (bucket c) -> decode (object_uri c key) = place c key.
Proof.
  intros (Hb & _). unfold object_uri, place. rewrite decode_app by done. f_equal.
  rewrite decode_app by (by apply (str_all_impl unreserved); [apply unreserved_not|]). f_equal.
  rewrite decode_app by done. f_equal. by apply percent_decoded.
Qed.

Lemma encoded_dot d s : str_all unreserved d = true -> uri_encode_path s = d -> s = d.
Proof. intros Hd <-. rewrite <- (plain_decodes _ Hd). symmetry. by apply percent_decoded. Qed.

Lemma object_uri_undotted c key : bucket_name (bucket c) -> undotted key -> undotted (object_uri c key).
Proof.
  intros (Hb & H1 & H2) [Hd Hdd]. unfold undotted, object_uri.
  assert (Hn : str_all (fun c => negb (Ascii.eqb c "/")) (bucket c) = true) by (by apply (str_all_impl unreserved); [apply unreserved_not|]).
  assert (pieces "/" ("/" +:+ (bucket c +:+ ("/" +:+ uri_encode_path key))) = "" :: bucket c :: map uri_encode_path (pieces "/" key)) as ->.
  { rewrite <- pieces_encode. etransitivity; [by apply (pieces_cons "/" "")|]. f_equal. by apply pieces_cons. }
  split; rewrite !not_elem_of_cons; (split_and!; [done | congruence |]); intros (s & Hs & Hin)%list_elem_of_fmap;
    symmetry in Hs; apply encoded_dot in Hs as ->; done.
Qed.

Lemma safe_undotted key : key_is_safe key = true -> "." ∉ pieces "/" key -> undotted key.
Proof. intros H Hd. split; [done|]. by apply safe_key_descends in H as [? _]. Qed.

(** The calls of a client, and their answers. *)
Inductive call := Put (key bytes content_type : string) | Get (key : string) | Remove (key : string) | Exists (key : string).
Inductive reply := Done | Found (o : option string) | Was (b : bool).

Definition key_of (k : call) : string := match k with Put key _ _ | Get key | Remove key | Exists key => key end.

Section Refinement.
Context `{Auth.Crypto} {W : Type} `{ObjectService W} (c : Config) (m : moment).

Definition perform (k : call) : st W reply :=
  match k with
  | Put key bytes type => _ ← put c m key bytes type; mret Done
  | Get key => o ← get c m key; mret (Found o)
  | Remove key => b ← remove c m key; mret (Was b)
  | Exists key => b ← exists_ c m key; mret (Was b)
  end.

(** What the store promises: a map from keys, and keys it does not take. *)
Definition promised (k : call) (o : gmap string string) : outcome reply * gmap string string :=
  if negb (key_is_safe (key_of k)) then (unsafe (key_of k), o)
  else match k with
       | Put key bytes _ => (Ok Done, <[key := bytes]> o)
       | Get key => (Ok (Found (o !! key)), o)
       | Remove key => (Ok (Was true), delete key o)
       | Exists key => (Ok (Was (if o !! key is Some _ then true else false)), o)
       end.

(** Each call is made whatever the one before it answered. *)
Fixpoint each {S R} (f : call -> S -> outcome R * S) (ks : list call) (s : S) : list (outcome R) * S :=
  match ks with
  | [] => ([], s)
  | k :: r => let '(x, s1) := f k s in let '(xs, s2) := each f r s1 in (x :: xs, s2)
  end.

(** The objects of the bucket are those of the map. *)
Definition shows (w : W) (o : gmap string string) : Prop := forall key, stored w !! place c key = o !! key.

Lemma place_inj j k : place c j = place c k -> j = k.
Proof. unfold place. intros E. do 3 apply str_app_inj_l in E. done. Qed.

Lemma shows_insert w w' o key b : shows w o -> stored w' = <[place c key := b]> (stored w) -> shows w' (<[key := b]> o).
Proof.
  intros Hs E j. rewrite E. destruct (decide (j = key)) as [->|Hn]; [by rewrite !lookup_insert_eq|].
  rewrite !lookup_insert_ne by (congruence || by intros ?%place_inj). apply Hs.
Qed.

Lemma shows_delete w w' o key : shows w o -> stored w' = delete (place c key) (stored w) -> shows w' (delete key o).
Proof.
  intros Hs E j. rewrite E. destruct (decide (j = key)) as [->|Hn]; [by rewrite !lookup_delete_eq|].
  rewrite !lookup_delete_ne by (congruence || by intros ?%place_inj). apply Hs.
Qed.

(** A call whose key is not refused has no segment [.]: a client would send another path. *)
Definition sent_as_is (k : call) : Prop := "." ∉ pieces "/" (key_of k).

Lemma signed_uri method uri query body type : rq_uri (signed c m method uri query body type) = uri.
Proof. done. Qed.

Lemma perform_refines k w o : bucket_name (bucket c) -> sent_as_is k -> shows w o ->
  exists w', perform k w = ((promised k o).1, w') /\ shows w' (promised k o).2.
Proof.
  intros Hb Hd Hs. unfold promised. destruct (key_is_safe (key_of k)) eqn:E; cbn [negb].
  - assert (Hu : undotted (object_uri c (key_of k))) by (by apply object_uri_undotted, safe_undotted).
    pose proof (object_uri_reads_back c (key_of k) Hb) as Hr.
    destruct k as [key b t|key|key|key]; cbn [key_of] in *; unfold perform, put, get, remove, exists_, request; rewrite E; cbn [negb].
    + destruct (serve_put (signed c m "PUT" (object_uri c key) "" b t) w) as (a & w' & Hq & Hw); [done..|].
      unfold mbind, st_bind. rewrite Hq. exists w'. split; [done|]. eapply shows_insert; [done|]. by rewrite Hw, <- Hr.
    + destruct (serve_get (signed c m "GET" (object_uri c key) "" "" "") w) as (a & Hq); [done..|].
      rewrite signed_uri, Hr, Hs in Hq. unfold mbind, st_bind. rewrite Hq. exists w. destruct (o !! key); (split; [reflexivity | exact Hs]).
    + destruct (serve_delete (signed c m "DELETE" (object_uri c key) "" "" "") w) as (a & w' & Hq & Hw); [done..|].
      unfold mbind, st_bind. rewrite Hq. exists w'. split; [done|]. eapply shows_delete; [done|]. by rewrite Hw, <- Hr.
    + unfold mbind, st_bind. rewrite serve_head by done. exists w. cbn [signed rq_uri]. rewrite Hr, Hs. destruct (o !! key); (split; [reflexivity | exact Hs]).
  - exists w. split; [|done]. destruct k; cbn [key_of] in E; unfold perform, put, get, remove, exists_, request; by rewrite E.
Qed.

(** Over any sequence of calls the S3 backend answers as a map from keys to objects
    does and stays one: what was put last is what is read, what was removed is gone, other
    keys keep their objects although each travels percent-encoded, and a key that is not
    safe is refused without a request. *)
Theorem s3_is_a_map ks w o : bucket_name (bucket c) -> Forall sent_as_is ks -> shows w o ->
  (each perform ks w).1 = (each promised ks o).1 /\ shows (each perform ks w).2 (each promised ks o).2.
Proof.
  intros Hb Hk. revert w o. induction Hk as [|k ks Hd _ IH]; intros w o Hs; [done|]. cbn [each].
  destruct (perform_refines k w o Hb Hd Hs) as (w1 & -> & H1). destruct (promised k o) as [x o1]. cbn [fst snd] in *.
  destruct (IH w1 o1 H1) as [H2 H3]. destruct (each perform ks w1), (each promised ks o1). cbn [fst snd] in *. by subst.
Qed.

End Refinement.

(** A service that keeps its objects in a map. *)
Definition serve_map (rq : Request) : st (gmap string string) (Z * string) := fun w =>
  let key := decode (rq_uri rq) in
  if String.eqb (rq_method rq) "PUT" then (Ok (200, ""), <[key := rq_body rq]> w)
  else if String.eqb (rq_method rq) "DELETE" then (Ok (204, ""), delete key w)
  else if String.eqb (rq_method rq) "HEAD" then (Ok (if w !! key is Some _ then 200 else 404, ""), w)
  else (Ok (match w !! key with Some x => (200, x) | None => (404, "NoSuchKey") end), w).

#[export] Instance map_service : ObjectService (gmap string string).
Proof.
  refine {| serve := serve_map; stored w := w |}; unfold serve_map; intros rq w -> _ _.
  - by eexists _, _.
  - by exists "NoSuchKey".
  - done.
  - by eexists _, _.
Defined.

Definition bucket_of_tests : Config := mkConfig "http://minio:9000" "us-east-1" "acc-docs" "AK" "SK" "" "https://s3.example.com" 10 2.
Definition noon : moment := mkMoment (mkYmd 2026 3 7) 12 0 9.
Definition calls : list call :=
  [Put "org/a b?.pdf" "one" "application/pdf"; Exists "org/a"; Get "org/a b?.pdf"; Remove "org/../x"; Remove "org/a b?.pdf"; Get "org/a b?.pdf"].

#[local] Instance tag_crypto : Auth.Crypto := { Auth.hmac_sha256 k m := k +:+ ("|" +:+ m); Auth.sha256 s := "#" +:+ s }.

Lemma s3_is_a_map_witness :
  (each (perform bucket_of_tests noon) calls (∅ : gmap string string)).1 =
    [Ok Done; Ok (Was false); Ok (Found (Some "one")); unsafe "org/../x"; Ok (Was true); Ok (Found None)].
Proof.
  refine (eq_trans (proj1 (s3_is_a_map bucket_of_tests noon calls ∅ ∅ _ _ _)) _).
  - split; [reflexivity | by split].
  - repeat constructor; unfold sent_as_is; apply (bool_decide_unpack _); reflexivity.
  - intros k. done.
  - reflexivity.
Defined.

(** ** Links *)

Definition in_clock (m : moment) : Prop :=
  0 <= year (date m) /\ 0 <= month (date m) < 100 /\ 0 <= day (date m) < 100 /\ 0 <= hour m < 100 /\ 0 <= minute m < 100 /\ 0 <= second m < 100.

(** A parameter of a query: its name, and its value as it was meant. *)
Definition parameter (p : string) : string * string :=
  match str_find "=" p with Some n => (str_take n p, decode (str_drop (S n) p)) | None => (p, "") end.

Lemma parameter_of name value : str_all unreserved name = true -> parameter (name +:+ ("=" +:+ value)) = (name, decode value).
Proof.
  intros Hn. unfold parameter. assert (Hd : size (name +:+ "=") = S (size name)) by (rewrite size_app; unfold size; cbn [String.length]; lia).
  change ("=" +:+ value) with (String "=" value). rewrite (str_find_app unreserved) by done. rewrite str_take_app. f_equal. f_equal.
  rewrite <- Hd. etransitivity; [|apply (str_drop_app (name +:+ "=") value)]. by rewrite str_app_assoc.
Qed.

Lemma two_plain z : 0 <= z < 100 -> str_all unreserved (two z) = true.
Proof.
  intros Hz. assert (Hd : forall d, 0 <= d < 10 -> unreserved (digit d) = true).
  { intros d Hd. assert (d = 0 \/ d = 1 \/ d = 2 \/ d = 3 \/ d = 4 \/ d = 5 \/ d = 6 \/ d = 7 \/ d = 8 \/ d = 9) as Hc by lia.
    repeat destruct Hc as [->|Hc]; subst; reflexivity. }
  cbn [two str_all]. rewrite !Hd; [done | |]; [apply Z.mod_pos_bound | split; [apply Z.div_pos | apply Z.div_lt_upper_bound]]; lia.
Qed.

Lemma digits_unreserved s : str_all is_digit s = true -> str_all unreserved s = true.
Proof. apply str_all_impl. intros [[] [] [] [] [] [] [] []]; cbn; done. Qed.

Lemma datestamp_plain m : in_clock m -> str_all unreserved (datestamp m) = true.
Proof.
  intros (_ & H1 & H2 & _). unfold datestamp. by rewrite !str_all_app, (digits_unreserved _ (dec_all _)), !two_plain.
Qed.

Lemma amzdate_plain m : in_clock m -> str_all unreserved (amzdate m) = true.
Proof.
  intros Hm. unfold amzdate. rewrite !str_all_app, datestamp_plain by done. destruct Hm as (_ & _ & _ & H3 & H4 & H5). by rewrite !two_plain.
Qed.

Lemma hex_plain s : str_all unreserved (bytes_to_hex s) = true.
Proof. induction s as [|c s IH]; cbn [bytes_to_hex str_all]; [done|]. destruct (hex_digits c) as (_ & _ & -> & ->). done. Qed.

Section Links.
Context `{Auth.Crypto} (c : Config) (m : moment).

Definition no (sep : ascii) (s : string) : Prop := str_all (fun x => negb (Ascii.eqb x sep)) s = true.

Lemma plain_no sep s : unreserved sep = false -> str_all unreserved s = true -> no sep s.
Proof. intros Hs. apply str_all_impl. by apply unreserved_not. Qed.

Lemma no_app sep s t : no sep s -> no sep t -> no sep (s +:+ t).
Proof. unfold no. intros Hs Ht. by rewrite str_all_app, Hs, Ht. Qed.

Lemma query_no sep s : unreserved sep = false -> sep <> "%"%char -> no sep (uri_encode_query s).
Proof.
  intros Hs Hp. apply encode_all; try (by apply unreserved_not). destruct (Ascii.eqb_spec "%" sep); [congruence | done].
Qed.

Lemma path_no sep s : unreserved sep = false -> sep <> "%"%char -> sep <> "/"%char -> no sep (uri_encode_path s).
Proof.
  intros Hs Hp Hl. apply encode_all; [|by apply unreserved_not | destruct (Ascii.eqb_spec "%" sep); [congruence | done]].
  intros x [Hx|Hx]%orb_true_iff; [by apply unreserved_not|]. apply Ascii.eqb_eq in Hx as ->. by destruct (Ascii.eqb_spec "/" sep).
Qed.

(** The parameters of a link, in their order. *)
Definition link_parameters (key method : string) (ttl : Z) : list (string * string) :=
  [("X-Amz-Algorithm", "AWS4-HMAC-SHA256"); ("X-Amz-Credential", access_key c +:+ ("/" +:+ scope c m)); ("X-Amz-Date", amzdate m);
   ("X-Amz-Expires", to_string ttl); ("X-Amz-SignedHeaders", "host");
   ("X-Amz-Signature", signature c m (lines [method; object_uri c key; presign_query c m ttl;
      "host:" +:+ host_from_endpoint (effective_public_endpoint c); ""; "host"; "UNSIGNED-PAYLOAD"]))].

Lemma pieces_cut sep w s : no sep w -> pieces sep (w +:+ String sep s) = w :: pieces sep s.
Proof. apply pieces_cons. Qed.

Lemma param_no sep name value : str_all unreserved name = true -> unreserved sep = false -> sep <> "="%char -> no sep value -> no sep (name +:+ ("=" +:+ value)).
Proof.
  intros Hn Hs He Hv. apply no_app; [by apply plain_no|]. apply (no_app sep "="); [|done]. unfold no. cbn [str_all].
  by destruct (Ascii.eqb_spec "=" sep).
Qed.

Lemma query_reads_back t key method : in_clock m ->
  map parameter (pieces "&" (presign_query c m t +:+ ("&X-Amz-Signature=" +:+ signature c m (lines [method; object_uri c key; presign_query c m t;
      "host:" +:+ host_from_endpoint (effective_public_endpoint c); ""; "host"; "UNSIGNED-PAYLOAD"])))) = link_parameters key method t.
Proof.
  intros Hm. unfold link_parameters. set (sig := signature _ _ _).
  assert (Hsig : str_all unreserved sig = true) by apply hex_plain. clearbody sig.
  assert (Ht : str_all unreserved (to_string t) = true).
  { unfold to_string. destruct (t <? 0); cbn [str_all]; by rewrite (digits_unreserved _ (dec_all _)). }
  set (cred := access_key c +:+ _).
  assert (presign_query c m t +:+ ("&X-Amz-Signature=" +:+ sig) =
    ("X-Amz-Algorithm" +:+ ("=" +:+ "AWS4-HMAC-SHA256")) +:+ String "&" (("X-Amz-Credential" +:+ ("=" +:+ uri_encode_query cred)) +:+ String "&"
      (("X-Amz-Date" +:+ ("=" +:+ amzdate m)) +:+ String "&" (("X-Amz-Expires" +:+ ("=" +:+ to_string t)) +:+ String "&"
      (("X-Amz-SignedHeaders" +:+ ("=" +:+ "host")) +:+ String "&" ("X-Amz-Signature" +:+ ("=" +:+ sig))))))) as ->.
  { unfold presign_query. rewrite !str_app_assoc. reflexivity. }
  pose proof (amzdate_plain m Hm) as Hd.
  rewrite !pieces_cut, pieces_one by (apply param_no; [done..|]; first [by apply query_no | by apply plain_no]).
  cbn [map]. rewrite !parameter_of by done. unfold uri_encode_query. rewrite percent_decoded by done. by rewrite !plain_decodes.
Qed.

(** A link that is handed out reads back: before its only question mark stand the
    public endpoint and a path that decodes to the object's place, after it the parameters
    of the signature, decoded to what was meant, those that are signed in ascending order
    as the signature demands, with a lifetime that is never zero or negative, and the
    signature over exactly the path and the parameters that the link carries. *)
Theorem presigned_link_reads_back key method ttl link : presign c m key method ttl = Ok link -> in_clock m -> bucket_name (bucket c) ->
  no "?" (effective_public_endpoint c) ->
  key_is_safe key = true /\
  exists uri query t, pieces "?" link = [effective_public_endpoint c +:+ uri; query] /\ decode uri = place c key /\
    map parameter (pieces "&" query) = link_parameters key method t /\ t = (if ttl <=? 0 then 3600 else ttl) /\ 0 < t /\
    StronglySorted (fun a b => String.ltb a.1 b.1 = true) (take 5 (link_parameters key method t)).
Proof.
  unfold presign. destruct (key_is_safe key); cbn [negb]; [|done]. intros Hl Hm Hb He. split; [done|].
  apply (f_equal (fun o => match o with Ok l => l | _ => "" end)) in Hl. cbv beta iota in Hl. subst link.
  set (t := if ttl <=? 0 then 3600 else ttl). exists (object_uri c key). eexists _, t. split_and!.
  - rewrite <- str_app_assoc. etransitivity; [apply (pieces_cut "?")|f_equal; apply pieces_one].
    + apply no_app; [done|]. unfold object_uri. apply (no_app "?" "/"); [done|]. apply no_app; [by apply plain_no; [|apply Hb]|].
      apply (no_app "?" "/"); [done|]. by apply path_no.
    + apply no_app; [|apply (no_app "?" "&X-Amz-Signature="); [done | by apply plain_no, hex_plain]].
      unfold presign_query. repeat (apply no_app; [first [done | by apply query_no | by apply plain_no, amzdate_plain]|]).
      apply no_app; [|done]. apply plain_no; [done|]. unfold to_string. destruct (_ <? 0); cbn [str_all]; by rewrite (digits_unreserved _ (dec_all _)).
  - by apply object_uri_reads_back.
  - by apply query_reads_back.
  - done.
  - unfold t. destruct (Z.leb_spec ttl 0); lia.
  - unfold link_parameters. cbn [take]. repeat constructor.
Qed.

End Links.

Definition asked : string := "org/ж a&b.pdf".

Lemma presigned_link_reads_back_witness : exists link, presign bucket_of_tests noon asked "GET" 0 = Ok link /\ exists uri query t,
  pieces "?" link = ["https://s3.example.com" +:+ uri; query] /\ decode uri = "/acc-docs/org/ж a&b.pdf" /\ 0 < t.
Proof.
  eexists. split; [reflexivity|].
  destruct (presigned_link_reads_back bucket_of_tests noon asked "GET" 0 _ eq_refl) as (_ & uri & query & t & H1 & H2 & _ & _ & H3 & _).
  - unfold in_clock. cbn. lia.
  - split; [reflexivity | by split].
  - reflexivity.
  - by exists uri, query, t.
Defined.

(** ** Listings *)

(** A service escapes the keys it lists; the backend shows them as they are escaped, so
    the key of the listing is not the key of the object. *)
Example listed_key_is_escaped :
  parse_list_objects_xml "<ListBucketResult><Contents><Key>a&amp;b</Key><LastModified>2026-07-25T05:34:32.000Z</LastModified><Size>12</Size></Contents><IsTruncated>false</IsTruncated></ListBucketResult>"
  = Ok ([mkObject "a&amp;b" 12 "2026-07-25T05:34:32Z"], false).
Proof. vm_compute. reflexivity. Qed.

Lemma opens_or_closes d : String.prefix "<Contents>" d = true -> String.prefix "</Contents>" d = true -> False.
Proof.
  destruct d as [|a d]; [done|]. cbn [String.prefix]. destruct (ascii_dec "<" a) as [<-|]; [|done].
  destruct d as [|b d]; [by destruct (ascii_dec "<" "<")|]. cbn [String.prefix]. destruct (ascii_dec "<" "<"); [|done].
  destruct (ascii_dec "C" b) as [<-|]; [|done]. by destruct (ascii_dec "/" "C").
Qed.

(** Every round of the parse starts further on, so that one round for each character is
    enough, and more change nothing. *)
Lemma entries_enough body f g pos : (size body < f + pos)%nat -> (size body < g + pos)%nat -> entries_from f body pos = entries_from g body pos.
Proof.
  revert g pos. induction f as [|f IH]; intros [|g] pos Hf Hg; cbn [entries_from]; try done;
    destruct (find_from pos "<Contents>" body) as [p|] eqn:E; try done; pose proof (find_from_bounds _ _ _ _ E) as [H1 H2];
    unfold size in *; cbn [String.length] in H2; try lia.
  destruct (find_from p "</Contents>" body) as [e|] eqn:F; [|done]. pose proof (find_from_bounds _ _ _ _ F) as [H3 H4].
  assert (e <> p) by (intros ->; eauto using opens_or_closes, find_from_here).
  rewrite (IH g e); [done | lia..].
Qed.

End Storage.
