(* ===== verification/Outbound.v ===== *)
(** * What leaves the service

    The calls it makes of others and what is checked of them first: the host the model is
    called at (src/agent/ModelEgress.hpp, src/agent/ModelClient.hpp), the hosts webhooks
    are refused at (src/webhooks/Webhooks.hpp), and mails (src/email/Mailer.hpp,
    src/email/GenericEmail.hpp).  The transports are parameters. *)
From Stdlib Require Import ZArith Lia Ascii String.
From S2P Require Import Prelude Text Json Utils Requests Agent Auth Tenancy Storage.
Import Json.
Open Scope string_scope.
Open Scope Z_scope.
Set Warnings "-clear-no-such-hyp".

(** ** Where the model is *)
Module Egress.

(** What is after the last [@], and what is before the last colon unless there is a bracket. *)
Definition after_at (s : string) : string := match cut_last "@" s with Some (_, r) => r | None => s end.
Definition before_port (s : string) : string :=
  match cut_last ":" s with
  | Some (h, _) => match str_find "]" s with None => h | Some _ => s end
  | None => s
  end.

Definition ends_authority (c : ascii) : bool := Ascii.eqb c "/" || Ascii.eqb c "?" || Ascii.eqb c "#".

(** [host_of]: src/agent/ModelEgress.hpp:31-57. *)
Definition host_of (url : string) : string :=
  let lower := Requests.lower_all url in
  let authority start := before_port (after_at (take_until ends_authority (str_drop start lower))) in
  if String.prefix "http://" lower then authority 7%nat
  else if String.prefix "https://" lower then authority 8%nat
  else "".

(** [is_allowed_host]: src/agent/ModelEgress.hpp:72-101. *)
Definition is_allowed_host (host : string) : bool :=
  if String.eqb host "" then false
  else if String.eqb host "localhost" || String.prefix "127." host || String.eqb host "::1" || String.prefix "[" host then false
  else if str_all (fun c => is_digit c || Ascii.eqb c ".") host then false
  else if negb (has "." host) then true
  else if ends_with ".svc" host then true
  else has ".svc." host.

(** [refusal_reason]: src/agent/ModelEgress.hpp:104-115. *)
Definition refusal_reason (url : string) : string :=
  let host := host_of url in
  if String.eqb host "" then "адрес модели должен быть http(s): '" +:+ (url +:+ "'")
  else if negb (is_allowed_host host) then
    "агент обязан ходить к модели ТОЛЬКО через прокси внутри кластера, а адрес ведёт на '" +:+ (host +:+
    ("'. Прокси — граница маскирования персональных данных; прямой адрес отключает её. " +:+
     ("Допустимы односоставное имя сервиса либо форма с '.svc' " +:+
      ("(например, guardrails-llm-filter.guardrails.svc.cluster.local): форма 'сервис.namespace' " +:+
       "синтаксически неотличима от публичного домена и поэтому не принимается"))))
  else "".

(** A URL by its parts: the credentials with their [@] and the port with its colon, or
    nothing in their place. *)
Record Url := mkUrl { scheme : string; user : option string; host : string; port : option string; rest : string }.
Definition text_of (u : Url) : string :=
  scheme u +:+ ("://" +:+ (from_option (fun x => x +:+ "@") "" (user u) +:+ (host u +:+ (from_option (fun x => ":" +:+ x) "" (port u) +:+ rest u)))).

Definition plain_host (c : ascii) : bool := negb (ends_authority c || Ascii.eqb c "@" || Ascii.eqb c ":" || Ascii.eqb c "]").
Definition in_user (c : ascii) : bool := negb (ends_authority c).

(** The parts a URL can be read from: the host and the port are free of the characters
    that separate, the credentials only of those that end them. *)
Record readable (u : Url) : Prop := mkReadable {
  r_scheme : Requests.lower_all (scheme u) = "http" \/ Requests.lower_all (scheme u) = "https";
  r_user : from_option (str_all in_user) true (user u) = true;
  r_host : str_all plain_host (host u) = true;
  r_port : from_option (str_all plain_host) true (port u) = true;
  r_rest : match rest u with EmptyString => True | String c _ => ends_authority c = true end
}.

Lemma lower_app s t : Requests.lower_all (s +:+ t) = Requests.lower_all s +:+ Requests.lower_all t.
Proof. induction s as [|c s IH]; cbn; [done | by rewrite IH]. Qed.

Lemma lower_keeps p s : (forall c, p (Requests.lower c) = p c) -> str_all p (Requests.lower_all s) = str_all p s.
Proof. intros Hp. induction s as [|c s IH]; cbn [Requests.lower_all str_all]; [done|]. by rewrite Hp, IH. Qed.

Lemma plain_host_lower c : plain_host (Requests.lower c) = plain_host c.
Proof. destruct c as [[] [] [] [] [] [] [] []]; reflexivity. Qed.
Lemma in_user_lower c : in_user (Requests.lower c) = in_user c.
Proof. destruct c as [[] [] [] [] [] [] [] []]; reflexivity. Qed.
Lemma ends_lower c : ends_authority (Requests.lower c) = ends_authority c.
Proof. destruct c as [[] [] [] [] [] [] [] []]; reflexivity. Qed.

Lemma plain_not d s : str_all plain_host s = true -> plain_host d = false -> str_all (fun c => negb (Ascii.eqb c d)) s = true.
Proof. intros Hs Hd. revert Hs. apply str_all_impl. intros c Hc. destruct (Ascii.eqb_spec c d); [congruence | done]. Qed.

(** The authority of a URL, read as the client reads it. *)
Lemma authority_reads u : from_option (str_all plain_host) true (port u) = true -> str_all plain_host (host u) = true ->
  before_port (after_at (from_option (fun x => x +:+ "@") "" (user u) +:+ (host u +:+ from_option (fun x => ":" +:+ x) "" (port u)))) = host u.
Proof.
  intros Hp Hh. set (tail := host u +:+ _).
  assert (Ht : str_all (fun c => negb (Ascii.eqb c "@")) tail = true).
  { unfold tail. rewrite str_all_app, (plain_not "@" _ Hh) by done. destruct (port u) as [q|]; [|done]. cbn in Hp |- *. by apply plain_not. }
  assert (after_at (from_option (fun x => x +:+ "@") "" (user u) +:+ tail) = tail) as ->.
  { unfold after_at. destruct (user u) as [x|]; cbn [from_option]; [|by rewrite cut_last_none].
    rewrite str_app_assoc. change ("@" +:+ tail) with (String "@" tail). by rewrite cut_last_app. }
  unfold before_port, tail. destruct (port u) as [q|]; cbn [from_option] in *.
  - change (":" +:+ q) with (String ":" q). rewrite cut_last_app by (by apply plain_not).
    rewrite (str_find_none (fun c => negb (Ascii.eqb c "]"))); [done | | done].
    rewrite str_all_app, (plain_not "]" _ Hh) by done. cbn. by apply plain_not.
  - rewrite app_empty_r. by rewrite (cut_last_none ":" (host u)) by (by apply plain_not).
Qed.

Lemma lower_parts u : text_of (mkUrl (Requests.lower_all (scheme u)) (Requests.lower_all <$> user u) (Requests.lower_all (host u))
    (Requests.lower_all <$> port u) (Requests.lower_all (rest u))) = Requests.lower_all (text_of u).
Proof.
  unfold text_of. cbn [scheme user host port rest]. destruct (user u), (port u); cbn [fmap option_fmap option_map from_option]; by rewrite !lower_app.
Qed.

Definition authority (u : Url) : string :=
  from_option (fun x => x +:+ "@") "" (user u) +:+ (host u +:+ from_option (fun x => ":" +:+ x) "" (port u)).

Lemma text_of_parts u : text_of u = scheme u +:+ ("://" +:+ (authority u +:+ rest u)).
Proof. unfold text_of, authority. by rewrite !str_app_assoc. Qed.

Lemma authority_in u : readable u -> str_all in_user (authority u) = true.
Proof.
  intros [_ Hu Hh Hp _]. assert (Hi : forall s, str_all plain_host s = true -> str_all in_user s = true).
  { intros s. apply str_all_impl. unfold plain_host, in_user. intros c. by destruct (ends_authority c). }
  unfold authority. rewrite !str_all_app, (Hi _ Hh).
  destruct (user u), (port u); cbn [from_option] in *; rewrite ?str_all_app, ?Hu, ?(Hi _ Hp); done.
Qed.

Lemma readable_lower u : readable u -> let l := mkUrl (Requests.lower_all (scheme u)) (Requests.lower_all <$> user u) (Requests.lower_all (host u))
    (Requests.lower_all <$> port u) (Requests.lower_all (rest u)) in
  readable l /\ (scheme l = "http" \/ scheme l = "https") /\ text_of l = Requests.lower_all (text_of u).
Proof.
  intros [Hs Hu Hh Hp Hr] l. split_and!; [|exact Hs | apply lower_parts]. constructor; unfold l; cbn [scheme user host port rest].
  - by destruct Hs as [-> | ->]; [left | right].
  - destruct (user u); [|done]. cbn in *. by rewrite lower_keeps by apply in_user_lower.
  - by rewrite lower_keeps by apply plain_host_lower.
  - destruct (port u); [|done]. cbn in *. by rewrite lower_keeps by apply plain_host_lower.
  - destruct (rest u); [done|]. cbn. by rewrite ends_lower.
Qed.

Lemma host_of_reads u : readable u -> host_of (text_of u) = Requests.lower_all (host u).
Proof.
  intros Hu. destruct (readable_lower u Hu) as (Hl & Hs & Et). unfold host_of. rewrite <- Et. set (l := mkUrl _ _ _ _ _) in *.
  assert (Ha : before_port (after_at (take_until ends_authority (authority l +:+ rest l))) = Requests.lower_all (host u)).
  { rewrite take_until_app; [|by apply authority_in | apply Hl]. apply (authority_reads l); apply Hl. }
  rewrite text_of_parts. set (x := authority l +:+ rest l) in *. clearbody x l.
  assert (H7 : str_drop 7 ("http" +:+ ("://" +:+ x)) = x) by done. assert (H8 : str_drop 8 ("https" +:+ ("://" +:+ x)) = x) by done.
  assert (P7 : String.prefix "http://" ("http" +:+ ("://" +:+ x)) = true) by (by destruct x).
  assert (P8 : String.prefix "http://" ("https" +:+ ("://" +:+ x)) = false) by done.
  assert (P9 : String.prefix "https://" ("https" +:+ ("://" +:+ x)) = true) by (by destruct x).
  destruct Hs as [-> | ->]; [by rewrite P7, H7 | by rewrite P8, P9, H8].
Qed.

(** The names of a cluster: one label, or a label [svc] after the first. *)
Definition in_cluster (h : string) : Prop := tl (pieces "." h) = [] \/ "svc" ∈ tl (pieces "." h).
Definition own_machine (h : string) : Prop := h = "localhost" \/ String.prefix "127." h = true \/ h = "::1" \/ String.prefix "[" h = true.
Definition numeric (h : string) : Prop := str_all (fun c => is_digit c || Ascii.eqb c ".") h = true.

Lemma allowed_by_labels h : is_allowed_host h = true <-> h <> "" /\ ~ own_machine h /\ ~ numeric h /\ in_cluster h.
Proof.
  unfold is_allowed_host, own_machine, numeric, in_cluster. destruct (String.eqb_spec h "") as [->|Hne]; [naive_solver|].
  destruct (String.eqb_spec h "localhost") as [->|H1]; [naive_solver|]. destruct (String.prefix "127." h) eqn:H2; [naive_solver|].
  destruct (String.eqb_spec h "::1") as [->|H3]; [naive_solver|]. destruct (String.prefix "[" h) eqn:H4; [naive_solver|]. cbn [orb].
  destruct (str_all _ h) eqn:H5; [naive_solver|]. rewrite tail_pieces_nil, tail_piece by done.
  assert (Hdot : has "." h = false <-> str_all (fun c => negb (Ascii.eqb c ".")) h = true).
  { rewrite <- tail_pieces_nil. rewrite <- not_true_iff_false, has_true by done. split.
    - intros Hn. apply tail_pieces_nil. destruct (str_all (fun c => negb (Ascii.eqb c ".")) h) eqn:E; [done|]. exfalso. apply Hn.
      clear -E. induction h as [|c h IH]; [done|]. cbn [str_all] in E. destruct (Ascii.eqb_spec c ".") as [->|Hc]; [by exists "", h|].
      cbn [negb andb] in E. destruct (IH E) as (a & b & ->). by exists (String c a), b.
    - intros Hn (a & b & ->). apply tail_pieces_nil in Hn. rewrite str_all_app in Hn. by destruct (str_all _ a). }
  destruct (has "." h) eqn:Ed; cbn [negb].
  - assert (str_all (fun c => negb (Ascii.eqb c ".")) h <> true) by (intros E; by apply Hdot in E).
    pose proof (ends_with_true ".svc" h) as He. pose proof (has_true ".svc." h ltac:(done)) as Hm. cbn [String.append] in *.
    destruct (ends_with ".svc" h); [naive_solver|]. naive_solver.
  - naive_solver.
Qed.

(** Whatever credentials, port or path surround it, it is the host alone that decides
    whether the model is called: a URL is not refused exactly when its host, in small
    letters, is a name of the cluster, that is neither the machine itself nor an address
    in digits, and has one label or a label [svc] after the first. *)
Theorem model_stays_inside u : readable u ->
  (refusal_reason (text_of u) = "" <->
   let h := Requests.lower_all (host u) in h <> "" /\ ~ own_machine h /\ ~ numeric h /\ in_cluster h).
Proof.
  intros Hu. rewrite <- allowed_by_labels. unfold refusal_reason. rewrite host_of_reads by done.
  destruct (String.eqb_spec (Requests.lower_all (host u)) "") as [-> | Hne]; [by split|]. by destruct (is_allowed_host _).
Qed.

(** The label need not be the cluster's, and an address need not be in decimal. *)
Example public_svc_allowed : refusal_reason "https://llm.svc.attacker.example/v1" = "".
Proof. reflexivity. Qed.
Example hexadecimal_allowed : refusal_reason "http://0x7f000001:8080/" = "".
Proof. reflexivity. Qed.

End Egress.

Definition disguised : Egress.Url := Egress.mkUrl "HTTP" (Some "guardrails:x@y") "api.Example.com" (Some "443") "/v1?a@b".
Lemma model_stays_inside_witness : Egress.text_of disguised = "HTTP://guardrails:x@y@api.Example.com:443/v1?a@b" /\
  (Egress.refusal_reason (Egress.text_of disguised) = "" <->
   let h := Requests.lower_all (Egress.host disguised) in h <> "" /\ ~ Egress.own_machine h /\ ~ Egress.numeric h /\ Egress.in_cluster h).
Proof. split; [reflexivity|]. apply (Egress.model_stays_inside disguised). constructor; try reflexivity. by left. Defined.

(** ** The model *)
Module Model.
Section Call.
Context `{TX : JsonText}.

(** The settings that are read for every call. *)
Record Settings := mkSettings { base_url : string; model_name : string; api_key : string }.
Context (s : Settings).

(** [is_configured]: src/agent/ModelClient.hpp:97-99. *)
Definition is_configured : bool := negb (String.eqb (api_key s) "") && String.eqb (Egress.refusal_reason (base_url s)) "".

(** [configuration_problem]: src/agent/ModelClient.hpp:102-107. *)
Definition configuration_problem : string :=
  if String.eqb (api_key s) ""
  then "ключ модели не настроен: положите его в секрет 'api' пространства cyber-accountant "
         +:+ "под ключом 'anthropic-api-key' и пропишите переменную AGENT_API_KEY"
  else Egress.refusal_reason (base_url s).

(** [value("input_tokens", 0LL)]: an integer, or a boolean as one. *)
Definition get_long_long (j : json) : outcome Z :=
  match j with JInt z => Ok (get_ll z) | JBool b => Ok (if b then 1 else 0) | _ => type_error end.

(** [parse_reply]: src/agent/ModelClient.hpp:128-139.  One block. *)
Definition read_block (r : Agent.ModelReply) (block : json) : outcome Agent.ModelReply :=
  type ← value_string "type" "" block;
  if String.eqb type "text" then
    t ← value_string "text" "" block;
    Ok (Agent.mkReply (Agent.text r +:+ t) (Agent.tool_calls r) (Agent.in_tokens r) (Agent.out_tokens r) (Agent.stop_reason r))
  else if String.eqb type "tool_use" then
    name ← value_string "name" "" block;
    input ← value (fun j => Ok j) "input" (JObject []) block;
    Ok (Agent.mkReply (Agent.text r) (Agent.tool_calls r ++ [(name, input)])%list (Agent.in_tokens r) (Agent.out_tokens r) (Agent.stop_reason r))
  else Ok r.

Fixpoint read_blocks (blocks : list json) (r : Agent.ModelReply) : outcome Agent.ModelReply :=
  match blocks with [] => Ok r | b :: bs => r' ← read_block r b; read_blocks bs r' end.

(** [parse_reply]: src/agent/ModelClient.hpp:114-141. *)
Definition parse_reply (raw : string) : outcome Agent.ModelReply :=
  match json_parse raw with
  | None => Throw (Exn std_runtime_error "agent: model returned a body that is not JSON")
  | Some j =>
      stop ← value_string "stop_reason" "" j;
      tokens ← match member "usage" j with
               | Some u => i ← value get_long_long "input_tokens" 0 u; o ← value get_long_long "output_tokens" 0 u; Ok (i, o)
               | None => Ok (0, 0)
               end;
      let empty := Agent.mkReply "" [] tokens.1 tokens.2 stop in
      match member "content" j with
      | Some (JArray blocks) => read_blocks blocks empty
      | _ => Ok empty
      end
  end.

(** A request of the transport: where to, with what headers and body; its answer is the
    status and the body, or that it failed. *)
Definition transport (W : Type) := string -> list string -> string -> st W (Z * string).

(** [call]: src/agent/ModelClient.hpp:150-202. *)
Definition call {W} (post : transport W) (messages tools : json) (max_tokens : Z) : st W Agent.ModelReply :=
  if negb (String.eqb configuration_problem "") then throw std_runtime_error configuration_problem
  else
    let url := base_url s +:+ "/v1/messages" in
    payload ← lift (json_dump (JObject [("max_tokens", JInt max_tokens); ("messages", messages); ("model", JString (model_name s)); ("tools", tools)]));
    answer ← post url ["content-type: application/json"; "anthropic-version: 2023-06-01"; "x-api-key: " +:+ api_key s] payload;
    if (fst answer <? 200) || (300 <=? fst answer)
    then throw std_runtime_error ("agent: model returned HTTP " +:+ (to_string (fst answer) +:+ (" via " +:+ Egress.host_of url)))
    else lift (parse_reply (snd answer)).

Lemma take_until_stop stop a c b : stop c = true -> take_until stop (a +:+ String c b) = take_until stop a.
Proof. intros Hc. induction a as [|d a IH]; cbn [String.append take_until]; [by rewrite Hc|]. by rewrite IH. Qed.

Lemma prefix_longer p a b : String.prefix p a = true -> String.prefix p (a +:+ b) = true.
Proof.
  revert a. induction p as [|c p IH]; intros a; [by destruct (a +:+ b)|]. destruct a as [|d a]; cbn [String.prefix String.append]; [done|].
  destruct (ascii_dec c d); [apply IH | done].
Qed.

Lemma drop_longer n a b : (n <= size a)%nat -> str_drop n (a +:+ b) = str_drop n a +:+ b.
Proof.
  unfold size. revert a. induction n as [|n IH]; intros [|c a] Hn; cbn [String.length str_drop String.append] in *; try done; [lia|]. apply IH. lia.
Qed.

Lemma prefix_size p a : String.prefix p a = true -> (size p <= size a)%nat.
Proof. intros [r ->]%prefix_split. rewrite size_app. lia. Qed.

(** A path put behind a URL that has a host leaves the host. *)
Lemma host_of_path url path : Egress.host_of url <> "" -> Egress.host_of (url +:+ String "/" path) = Egress.host_of url.
Proof.
  unfold Egress.host_of. rewrite Egress.lower_app. cbn [Requests.lower_all]. set (l := Requests.lower_all url).
  change (Requests.lower "/") with "/"%char. set (t := Requests.lower_all path).
  destruct (String.prefix "http://" l) eqn:E.
  - rewrite (prefix_longer _ _ _ E), drop_longer by apply (prefix_size _ _ E). by rewrite take_until_stop.
  - destruct (String.prefix "https://" l) eqn:F; [|done]. intros _.
    assert (String.prefix "http://" (l +:+ String "/" t) = false) as ->.
    { apply prefix_split in F as [r ->]. done. }
    rewrite (prefix_longer _ _ _ F), drop_longer by apply (prefix_size _ _ F). by rewrite take_until_stop.
Qed.

(** Nothing is ever sent to a host outside: whatever the settings, the messages and
    the tools are, what a call does depends on the transport only at addresses that are
    not refused, and only with the key of the settings in the headers; without a key or
    with another address the transport is not used at all. *)
Theorem model_called_inside {W} (post other : transport W) messages tools max_tokens w :
  (forall url body w, Egress.refusal_reason url = "" -> api_key s <> "" -> let h := ["content-type: application/json"; "anthropic-version: 2023-06-01"; "x-api-key: " +:+ api_key s] in
     post url h body w = other url h body w) ->
  call post messages tools max_tokens w = call other messages tools max_tokens w.
Proof.
  intros Hp. unfold call. destruct (String.eqb_spec configuration_problem "") as [E|]; [|done]. cbn [negb].
  unfold mbind, st_bind, lift. destruct (json_dump _) as [payload| |]; [|done..].
  rewrite Hp; [done| |].
  - revert E. unfold configuration_problem. destruct (String.eqb (api_key s) ""); [done|]. unfold Egress.refusal_reason.
    destruct (String.eqb_spec (Egress.host_of (base_url s)) "") as [|Hh]; [done|].
    change (base_url s +:+ "/v1/messages") with (base_url s +:+ String "/" "v1/messages"). rewrite host_of_path by done.
    apply String.eqb_neq in Hh. rewrite Hh. by destruct (Egress.is_allowed_host _).
  - intros Hk. revert E. unfold configuration_problem. by rewrite Hk.
Qed.

End Call.
End Model.

Definition proxied : Model.Settings := Model.mkSettings "http://guardrails-llm-filter.guardrails.svc:8080" "claude-sonnet-5" "key".
Definition answering (w : list string) (url : string) : outcome (Z * string) * list string :=
  (Throw (Exn std_runtime_error "agent: transport error"), (url :: w)%list).
Definition only_inside : Model.transport (list string) := fun url _ _ w =>
  if String.eqb (Egress.refusal_reason url) "" then answering w url else (Ok (200, "leaked"), ("outside" :: w)%list).

Lemma model_called_inside_witness :
  Model.call proxied only_inside JNull JNull 4096 [] = Model.call proxied (fun url _ _ w => answering w url) JNull JNull 4096 [].
Proof.
  apply (Model.model_called_inside proxied). intros url body w H _ h. unfold only_inside. rewrite H. reflexivity.
Defined.

(** ** Webhooks *)
Module Webhooks.

(** [url_host]: src/webhooks/Webhooks.hpp:39-51. *)
Definition url_host (url : string) : string :=
  match find_from 0 "://" url with
  | None => ""
  | Some n =>
      let proto := str_take n url in
      if negb (String.eqb proto "http") && negb (String.eqb proto "https") then ""
      else Requests.lower_all (take_until (fun c => Ascii.eqb c "/" || Ascii.eqb c ":" || Ascii.eqb c "?" || Ascii.eqb c "#") (str_drop (n + 3) url))
  end.

(** [std::atoi], as the library does it: the number is cut to 64 bits, then taken modulo 2^32. *)
Definition atoi (s : string) : Z :=
  match strtol s with None => 0 | Some z => wrap32 (Z.max I64_MIN (Z.min I64_MAX z)) end.

(** [host_is_blocked]: src/webhooks/Webhooks.hpp:56-72. *)
Definition host_is_blocked (host : string) : bool :=
  if String.eqb host "" || String.eqb host "localhost" then true
  else if String.prefix "127." host || String.prefix "10." host || String.prefix "192.168." host || String.prefix "169.254." host
          || String.eqb host "::1" || String.eqb host "[::1]" then true
  else if String.prefix "172." host then
    match find_from 4 "." host with
    | Some dot => let second := atoi (str_take (dot - 4) (str_drop 4 host)) in (16 <=? second) && (second <=? 31)
    | None => false
    end
  else false.

Section Deliver.
Context `{TX : JsonText} `{CR : Auth.Crypto}.

(** [process_job]: src/webhooks/Webhooks.hpp:80-131. *)
Definition process_job {W} (post : string -> list string -> string -> st W Z) (payload : json) : st W json :=
  url ← lift (value_string "url" "" payload);
  event ← lift (value_string "event" "" payload);
  body ← lift (match member "body" payload with Some b => json_dump b | None => Ok "{}" end);
  secret ← lift (value_string "secret" "" payload);
  let host := url_host url in
  if String.eqb host "" then throw std_runtime_error ("webhook: url is not http(s): " +:+ url)
  else if host_is_blocked host then throw std_runtime_error ("webhook: refusing to POST to internal host: " +:+ host)
  else
    status ← post url (["Content-Type: application/json"; "X-Webhook-Event: " +:+ event]
                       ++ if String.eqb secret "" then []
                          else ["X-Webhook-Signature: sha256=" +:+ Storage.bytes_to_hex (Auth.hmac_sha256 secret body)])%list body;
    if (status <? 200) || (300 <=? status)
    then throw std_runtime_error ("webhook: non-2xx response (" +:+ (to_string status +:+ (") from " +:+ host)))
    else mret (JObject [("delivered", JBool true); ("event", JString event); ("status", JInt status)]).

(** [send]: src/webhooks/Webhooks.hpp:138-151.  What is queued; that the queue refuses is
    not the caller's concern. *)
Definition job_payload (url event : string) (body : json) (secret : string) : json :=
  let p := JObject [("body", body); ("event", JString event); ("url", JString url)] in
  if String.eqb secret "" then p else JObject [("body", body); ("event", JString event); ("secret", JString secret); ("url", JString url)].

Definition send {W} (jobs_up : bool) (submit : string -> json -> st W string) (url event : string) (body : json) (secret : string) : st W unit := fun w =>
  if negb jobs_up then (Ok tt, w)
  else match submit "webhook.deliver" (job_payload url event body secret) w with
       | (Ok _, w') => (Ok tt, w')
       | (Throw e, w') => if bool_decide (exn_cls e = not_std) || bool_decide (exn_cls e = process_death) then (Throw e, w') else (Ok tt, w')
       | (Undef, w') => (Undef, w')
       end.

End Deliver.

(** An address in decimal, and those that are private, loopback or link-local. *)
Definition octet (z : Z) : Prop := 0 <= z < 256.
Definition quad (a b c d : Z) : string := dec a +:+ ("." +:+ (dec b +:+ ("." +:+ (dec c +:+ ("." +:+ dec d))))).
Definition internal (a b : Z) : bool :=
  (a =? 127) || (a =? 10) || ((a =? 192) && (b =? 168)) || ((a =? 169) && (b =? 254)) || ((a =? 172) && (16 <=? b) && (b <=? 31)).

Lemma prefix_number p z s : str_all is_digit p = true -> String.prefix (p +:+ ".") (dec z +:+ String "." s) = String.eqb p (dec z).
Proof.
  intros Hp. generalize (dec_all z). generalize (dec z) as d. clear z. induction p as [|c p IH]; intros d Hd.
  - destruct d as [|e d]; [by destruct s|]. cbn [String.append String.prefix String.eqb str_all] in *. apply andb_true_iff in Hd as [He _].
    by destruct (ascii_dec "." e) as [<-|].
  - cbn [str_all] in Hp. apply andb_true_iff in Hp as [Hc Hp]. destruct d as [|e d]; cbn [String.append String.prefix String.eqb].
    + by destruct (ascii_dec c ".") as [->|].
    + cbn [str_all] in Hd. apply andb_true_iff in Hd as [_ Hd]. destruct (ascii_dec c e) as [<-|He]; [by rewrite Ascii.eqb_refl, IH|].
      apply Ascii.eqb_neq in He. by rewrite He.
Qed.

Lemma dec_eqb p z : 0 <= p < 256 -> octet z -> String.eqb (dec p) (dec z) = (z =? p).
Proof.
  unfold octet. intros Hp Hz. destruct (String.eqb_spec (dec p) (dec z)) as [E|E].
  - apply dec_inj in E; lia.
  - symmetry. apply Z.eqb_neq. intros ->. by apply E.
Qed.

(** A prefix of one or two numbers, each with its point. *)
Lemma prefix_one p z s : 0 <= p < 256 -> octet z -> String.prefix (dec p +:+ ".") (dec z +:+ String "." s) = (z =? p).
Proof. intros Hp Hz. by rewrite prefix_number, dec_eqb by apply dec_all || done. Qed.

Lemma prefix_empty s : String.prefix "" s = true.
Proof. by destruct s. Qed.

Lemma prefix_same x a b : String.prefix (x +:+ a) (x +:+ b) = String.prefix a b.
Proof. induction x as [|c x IH]; cbn [String.append String.prefix]; [done|]. by destruct (ascii_dec c c). Qed.

Lemma prefix_two p q a b s : 0 <= p < 256 -> 0 <= q < 256 -> octet a -> octet b ->
  String.prefix (dec p +:+ ("." +:+ (dec q +:+ "."))) (dec a +:+ String "." (dec b +:+ String "." s)) = (a =? p) && (b =? q).
Proof.
  intros Hp Hq Ha Hb. destruct (Z.eqb_spec a p) as [->|Hn]; cbn [andb].
  - rewrite prefix_same. change (String "." (dec b +:+ String "." s)) with ("." +:+ (dec b +:+ String "." s)). rewrite prefix_same. by apply prefix_one.
  - destruct (String.prefix _ _) eqn:E; [|done]. exfalso.
    assert (String.prefix (dec p +:+ ".") (dec a +:+ String "." (dec b +:+ String "." s)) = true) as H.
    { apply prefix_split in E as [r E]. rewrite E, str_app_assoc, prefix_same. generalize (dec q) as y. intros y. cbn [String.append String.prefix]. destruct (ascii_dec "." "."); [|done]. apply prefix_empty. }
    rewrite prefix_one in H by done. lia.
Qed.

Lemma find_number b s : find_from 4 "." ("172." +:+ (dec b +:+ String "." s)) = Some (4 + size (dec b))%nat.
Proof.
  unfold find_from. cbn [String.append String.index]. generalize (dec_all b). generalize (dec b) as d. intros d Hd.
  assert (String.index 0 "." (d +:+ String "." s) = Some (size d)) as ->; [|done].
  induction d as [|c d IH]; [by destruct s|]. cbn [str_all] in Hd. apply andb_true_iff in Hd as [Hc Hd].
  cbn [String.append String.index String.prefix]. destruct (ascii_dec "." c) as [<-|]; [done|]. by rewrite IH.
Qed.

Lemma atoi_dec b : octet b -> atoi (dec b) = b.
Proof.
  unfold octet. intros Hb. unfold atoi. rewrite strtol_digits; [|by destruct (dec b) eqn:E; [pose proof (dec_size 3 b ltac:(lia) ltac:(lia)) as Hs; rewrite E in Hs; cbn in Hs; lia|]|by apply dec_all].
  rewrite parse_dec by lia. unfold I64_MIN, I64_MAX, wrap32. rewrite Z.mod_small; lia.
Qed.

Lemma quad_blocked a b c d : octet a -> octet b -> host_is_blocked (quad a b c d) = internal a b.
Proof.
  intros Ha Hb. unfold host_is_blocked. set (rest := dec c +:+ ("." +:+ dec d)).
  assert (E : quad a b c d = dec a +:+ String "." (dec b +:+ String "." rest)) by done.
  assert (Hn : forall t, str_all (fun c => negb (Ascii.eqb c ".")) t = true -> String.eqb (quad a b c d) t = false).
  { intros t Ht. apply String.eqb_neq. rewrite E. intros <-. rewrite str_all_app in Ht. apply andb_true_iff in Ht as [_ Ht]. done. }
  rewrite !Hn by done. rewrite E.
  set (after := dec b +:+ String "." rest).
  pose proof (prefix_one 127 a after ltac:(lia) Ha : String.prefix "127." (dec a +:+ String "." after) = _) as ->.
  pose proof (prefix_one 10 a after ltac:(lia) Ha : String.prefix "10." (dec a +:+ String "." after) = _) as ->.
  pose proof (prefix_two 192 168 a b rest ltac:(lia) ltac:(lia) Ha Hb : String.prefix "192.168." (dec a +:+ String "." after) = _) as ->.
  pose proof (prefix_two 169 254 a b rest ltac:(lia) ltac:(lia) Ha Hb : String.prefix "169.254." (dec a +:+ String "." after) = _) as ->.
  pose proof (prefix_one 172 a after ltac:(lia) Ha : String.prefix "172." (dec a +:+ String "." after) = _) as ->. unfold internal.
  destruct (Z.eqb_spec a 172) as [->|Hne].
  - change (dec 172 +:+ String "." after) with ("172." +:+ (dec b +:+ String "." rest)). rewrite find_number.
    replace (4 + size (dec b) - 4)%nat with (size (dec b)) by lia.
    change (str_drop 4 ("172." +:+ ?x)) with x. rewrite str_take_app, atoi_dec by done. cbn. by destruct (_ && _).
  - cbn [andb orb]. rewrite !orb_false_r. destruct (_ || _); done.
Qed.

Lemma url_host_of host tail : str_all (fun c => is_digit c || Ascii.eqb c ".") host = true ->
  match tail with EmptyString => True | String t _ => t = "/"%char \/ t = ":"%char end ->
  url_host ("http://" +:+ (host +:+ tail)) = host.
Proof.
  intros Hh Ht. unfold url_host. set (x := host +:+ tail).
  assert (find_from 0 "://" ("http://" +:+ x) = Some 4%nat) as -> by (by destruct x).
  change (str_take 4 ("http://" +:+ x)) with "http". cbn [String.eqb Ascii.eqb Bool.eqb negb andb].
  change (str_drop (4 + 3) ("http://" +:+ x)) with x. unfold x. rewrite take_until_app.
  - clear -Hh. induction host as [|c h IH]; cbn [str_all Requests.lower_all] in *; [done|]. apply andb_true_iff in Hh as [Hc Hh]. rewrite IH by done. f_equal.
    revert Hc. clear. destruct c as [[] [] [] [] [] [] [] []]; by cbn.
  - revert Hh. apply str_all_impl. intros [[] [] [] [] [] [] [] []]; by cbn.
  - by destruct tail as [|t r]; [|destruct Ht as [-> | ->]].
Qed.

(** Among the addresses written in decimal a webhook is refused at exactly those that
    are loopback, private or link-local, to the bounds of 172.16.0.0/12; and at such an
    address nothing is sent, whatever port or path follows. *)
Theorem webhook_quads_blocked `{JsonText} `{Auth.Crypto} a b c d : octet a -> octet b -> octet c -> octet d ->
  host_is_blocked (quad a b c d) = internal a b /\
  forall W (post other : string -> list string -> string -> st W Z) payload tail w,
    internal a b = true -> member "url" payload = Some (JString ("http://" +:+ (quad a b c d +:+ tail))) ->
    match tail with EmptyString => True | String t _ => t = "/"%char \/ t = ":"%char end ->
    process_job post payload w = process_job other payload w /\ forall x, (process_job post payload w).1 <> Ok x.
Proof.
  intros Ha Hb Hc Hd. split; [by apply quad_blocked|]. intros W post other payload tail w Hi Hm Ht.
  assert (Hu : value_string "url" "" payload = Ok ("http://" +:+ (quad a b c d +:+ tail))).
  { destruct payload as [| | | | |l]; try done. cbn [member] in Hm. unfold value_string, value. by rewrite Hm. }
  assert (Hq : str_all (fun c => is_digit c || Ascii.eqb c ".") (quad a b c d) = true).
  { unfold quad. rewrite !str_all_app. assert (Hz : forall z, str_all (fun c => is_digit c || Ascii.eqb c ".") (dec z) = true).
    { intros z. generalize (dec_all z). apply str_all_impl. by intros c' ->. }
    by rewrite !Hz. }
  assert (Hne : String.eqb (quad a b c d) "" = false) by (unfold quad; by destruct (dec a)).
  unfold process_job. rewrite Hu. unfold mbind, st_bind, lift. destruct (value_string "event" "" payload); try done.
  destruct (member "body" payload) as [bj|]; [destruct (json_dump bj); try done|]; destruct (value_string "secret" "" payload); try done;
    cbv zeta; rewrite url_host_of by done; rewrite Hne, quad_blocked, Hi by done; done.
Qed.

(** What the guard does not see: credentials before the host, an address in brackets, one
    that is not in dotted decimal. *)
Example credentials_pass : host_is_blocked (url_host "http://hooks@127.0.0.1/") = false.
Proof. reflexivity. Qed.
Example brackets_pass : url_host "http://[::1]/" = "[" /\ host_is_blocked "[" = false.
Proof. by split. Qed.
Example one_number_passes : host_is_blocked (url_host "http://2130706433/") = false.
Proof. reflexivity. Qed.

End Webhooks.

#[local] Instance tag_crypto : Auth.Crypto := { Auth.hmac_sha256 k m := k +:+ ("|" +:+ m); Auth.sha256 s := "#" +:+ s }.
Definition to_the_cluster : json := JObject [("url", JString "http://172.31.0.9:8080/hook")].
Lemma webhook_quads_blocked_witness : Webhooks.host_is_blocked "172.31.0.9" = true /\ Webhooks.host_is_blocked "172.32.0.9" = false /\
  forall x, (Webhooks.process_job (fun _ _ _ (w : nat) => (Ok 200, S w)) to_the_cluster 0%nat).1 <> Ok x.
Proof.
  split; [exact (proj1 (Webhooks.webhook_quads_blocked 172 31 0 9 ltac:(split; [by apply (bool_decide_unpack _) | reflexivity])
    ltac:(split; [by apply (bool_decide_unpack _) | reflexivity]) ltac:(split; [by apply (bool_decide_unpack _) | reflexivity])
    ltac:(split; [by apply (bool_decide_unpack _) | reflexivity])))|].
  split; [reflexivity|]. intros x. refine (proj2 (proj2 (Webhooks.webhook_quads_blocked 172 31 0 9 _ _ _ _) nat _ (fun _ _ _ w => (Ok 200, w)) to_the_cluster ":8080/hook" 0%nat _ _ _) x);
    try reflexivity; unfold Webhooks.octet; try lia. by right.
Defined.

(** ** Mails *)
Module Mail.

(** [MailerConfig]: src/email/Mailer.hpp:47-58. *)
Record MailerConfig := mkMailer {
  enabled : bool; smtp_host : string; smtp_port : Z; smtp_username : string; smtp_password : string; use_tls : bool; from : string;
  from_name : string; subject_prefix : string; timeout_sec : Z
}.

(** [Message]: src/email/Mailer.hpp:60-65. *)
Record Message := mkMessage { to_ : string; subject : string; text_body : string; html_body : string }.

Definition cr : ascii := chr 13.
Definition lf : ascii := chr 10.
Definition quote : ascii := chr 34.
Definition crlf : string := String cr (String lf "").
Definition line (s : string) : string := s +:+ crlf.

(** [strip_crlf]: src/email/Mailer.hpp:109-116. *)
Definition strip_crlf (s : string) : string := str_filter (fun c => negb (Ascii.eqb c cr || Ascii.eqb c lf)) s.

(** [make_message_id]: src/email/Mailer.hpp:93-99.  With the number of the generator in hexadecimal. *)
Definition make_message_id (host draw : string) : string := "<" +:+ (draw +:+ ("@" +:+ ((if String.eqb host "" then "localhost" else host) +:+ ">"))).

Definition last_is_space (s : string) : bool := match str_rev s with String c _ => Ascii.eqb c " " | EmptyString => false end.

(** [build_mime]: src/email/Mailer.hpp:148-159.  One of the two parts. *)
Definition part (boundary type body : string) : string :=
  if String.eqb body "" then ""
  else line ("--" +:+ boundary) +:+ (line ("Content-Type: text/" +:+ (type +:+ "; charset=utf-8")) +:+
       (line "Content-Transfer-Encoding: 8bit" +:+ (line "" +:+ line body))).

(** [build_mime]: src/email/Mailer.hpp:118-162.  With the date and the boundary's number. *)
Definition build_mime (cfg : MailerConfig) (msg : Message) (date message_id draw : string) : string :=
  let boundary := "----=_Part_" +:+ draw in
  line ("Date: " +:+ date)
  +:+ (line (if String.eqb (from_name cfg) "" then "From: " +:+ from cfg
             else "From: " +:+ String quote (from_name cfg +:+ String quote (" <" +:+ (from cfg +:+ ">"))))
  +:+ (line ("To: " +:+ strip_crlf (to_ msg))
  +:+ (line ("Subject: " +:+ (subject_prefix cfg +:+ ((if negb (String.eqb (subject_prefix cfg) "") && negb (last_is_space (subject_prefix cfg)) then " " else "")
                              +:+ strip_crlf (subject msg))))
  +:+ (line ("Message-ID: " +:+ message_id)
  +:+ (line "MIME-Version: 1.0"
  +:+ (line ("Content-Type: multipart/alternative; boundary=" +:+ String quote (boundary +:+ String quote ""))
  +:+ (line ""
  +:+ (line "This is a MIME message."
  +:+ (part boundary "plain" (text_body msg) +:+ (part boundary "html" (html_body msg) +:+ line ("--" +:+ (boundary +:+ "--")))))))))))).

(** What is asked of the SMTP client. *)
Record Envelope := mkEnvelope { url : string; login : option (string * string); starttls : bool; mail_from : string; rcpt : string; blob : string }.

Section Sending.
Context {W : Type} (smtp : Envelope -> st W bool) (date draw1 draw2 : string).

(** [send]: src/email/Mailer.hpp:204-268.  A transport that fails is an answer, no exception. *)
Definition send (cfg : MailerConfig) (msg : Message) : st W bool :=
  if negb (enabled cfg) then mret true
  else if String.eqb (to_ msg) "" || String.eqb (subject msg) "" || (String.eqb (text_body msg) "" && String.eqb (html_body msg) "") then mret false
  else smtp (mkEnvelope
         ((if use_tls cfg && (smtp_port cfg =? 465) then "smtps://" else "smtp://") +:+ (smtp_host cfg +:+ (":" +:+ to_string (smtp_port cfg))))
         (if String.eqb (smtp_username cfg) "" then None else Some (smtp_username cfg, smtp_password cfg))
         (use_tls cfg && negb (smtp_port cfg =? 465))
         ("<" +:+ (from cfg +:+ ">")) ("<" +:+ (to_ msg +:+ ">"))
         (build_mime cfg msg date (make_message_id (smtp_host cfg) draw1) draw2)).

(** [message_from_payload]: src/email/GenericEmail.hpp:35-46. *)
Definition message_from_payload (payload : json) : outcome Message :=
  t ← value_string "to" "" payload;
  s ← value_string "subject" "" payload;
  text ← value_string "text" "" payload;
  html ← value_string "html" "" payload;
  if String.eqb t "" then Throw (Exn std_runtime_error "email.send: 'to' is required")
  else if String.eqb text "" && String.eqb html "" then Throw (Exn std_runtime_error "email.send: needs a 'text' or 'html' body")
  else Ok (mkMessage t s text html).

(** [process_job]: src/email/GenericEmail.hpp:52-59.  [None]: the mailer is not initialized. *)
Definition process_job (mailer : option MailerConfig) (payload : json) : st W json :=
  m ← lift (message_from_payload payload);
  match mailer with
  | None => throw std_runtime_error "email.send: Mailer not initialized"
  | Some cfg =>
      sent ← send cfg m;
      if (sent : bool) then mret (JObject [("sent", JBool true); ("to", JString (to_ m))])
      else throw std_runtime_error ("email.send: SMTP refused mail to " +:+ to_ m)
  end.

(** [send]: src/email/GenericEmail.hpp:74-106.  [submit] answers whether the job was queued. *)
Definition send_generic (mailer : option MailerConfig) (via_jobs : bool) (submit : string -> json -> st W bool) (t s text html : string) : st W unit :=
  let p := [("subject", JString s); ("text", JString text); ("to", JString t)] in
  queued ← (if via_jobs then submit "email.send" (JObject (if String.eqb html "" then p else ("html", JString html) :: p)) else mret false);
  if (queued : bool) then mret tt
  else match mailer with
       | None => mret tt
       | Some cfg => _ ← send cfg (mkMessage t s text html); mret tt
       end.

End Sending.

(** Reading a mail by its lines. *)
Fixpoint lines_of (s : string) : list string :=
  match s with
  | EmptyString => [""]
  | String c r =>
      match r with
      | String d t =>
          if Ascii.eqb c cr && Ascii.eqb d lf then "" :: lines_of t
          else match lines_of r with l :: ls => String c l :: ls | [] => [] end
      | EmptyString => [String c ""]
      end
  end.

Definition one_line (s : string) : Prop := str_all (fun c => negb (Ascii.eqb c cr)) s = true.

Lemma lines_line w s : one_line w -> lines_of (line w +:+ s) = w :: lines_of s.
Proof.
  unfold one_line, line. rewrite str_app_assoc. induction w as [|c w IH]; cbn [str_all]; [done|].
  intros [Hc%negb_true_iff Hw]%andb_true_iff. specialize (IH Hw). cbn [String.append].
  destruct (w +:+ (crlf +:+ s)) as [|d t] eqn:E; [by destruct w|]. cbn [lines_of]. rewrite Hc. cbn [andb]. cbn [lines_of] in IH. by rewrite IH.
Qed.

Lemma one_line_app a b : one_line a -> one_line b -> one_line (a +:+ b).
Proof. unfold one_line. intros Ha Hb. by rewrite str_all_app, Ha, Hb. Qed.

Lemma stripped_one_line s : one_line (strip_crlf s).
Proof.
  unfold one_line, strip_crlf. induction s as [|c s IH]; cbn [str_filter]; [done|]. destruct (negb _) eqn:E; [|done].
  cbn [str_all]. rewrite IH. by destruct (Ascii.eqb c cr).
Qed.

(** The settings fit on a line each. *)
Definition plain_settings (cfg : MailerConfig) : Prop := one_line (from cfg) /\ one_line (from_name cfg) /\ one_line (subject_prefix cfg).

(** The header of a mail is the seven lines it is built with, whatever the recipient,
    the subject and the bodies are: the line ends of a value are gone, so that nothing in
    a message adds a header or ends the header early; the subject keeps its other
    characters after the prefix. *)
Theorem mail_header_holds cfg msg date id draw : plain_settings cfg -> one_line date -> one_line id -> one_line draw ->
  exists sender, take 8 (lines_of (build_mime cfg msg date id draw)) =
    ["Date: " +:+ date; "From: " +:+ sender; "To: " +:+ strip_crlf (to_ msg);
     "Subject: " +:+ (subject_prefix cfg +:+ ((if negb (String.eqb (subject_prefix cfg) "") && negb (last_is_space (subject_prefix cfg)) then " " else "")
                      +:+ strip_crlf (subject msg)));
     "Message-ID: " +:+ id; "MIME-Version: 1.0"; "Content-Type: multipart/alternative; boundary=" +:+ String quote ("----=_Part_" +:+ (draw +:+ String quote "")); ""].
Proof.
  intros (Hf & Hn & Hp) Hd Hi Hb. unfold build_mime.
  assert (Hs : exists sender, (if String.eqb (from_name cfg) "" then "From: " +:+ from cfg
      else "From: " +:+ String quote (from_name cfg +:+ String quote (" <" +:+ (from cfg +:+ ">")))) = "From: " +:+ sender /\ one_line sender).
  { destruct (String.eqb (from_name cfg) ""); [by exists (from cfg)|]. eexists. split; [reflexivity|].
    apply (one_line_app (String quote "")); [done|]. apply one_line_app; [done|]. apply (one_line_app (String quote " <")); [done|].
    by apply one_line_app. }
  destruct Hs as (sender & -> & Hs). exists sender.
  rewrite !lines_line; [cbn [take]; by rewrite ?str_app_assoc|..]; repeat first [done | apply stripped_one_line | apply one_line_app]. by destruct (_ && _).
Qed.

End Mail.

Definition injecting : Mail.Message :=
  Mail.mkMessage ("a@b.kz" +:+ (Mail.crlf +:+ "Bcc: all@b.kz")) ("Hi" +:+ (Mail.crlf +:+ (Mail.crlf +:+ "early body"))) "text" "".
Definition plain_mailer : Mail.MailerConfig := Mail.mkMailer true "localhost" 1025 "" "" false "noreply@example.com" "App" "[App]" 30.
Lemma mail_header_holds_witness : exists sender,
  take 8 (Mail.lines_of (Mail.build_mime plain_mailer injecting "Sat, 07 Mar 2026 12:00:09 +0000" "<1f@localhost>" "9a")) =
    ["Date: Sat, 07 Mar 2026 12:00:09 +0000"; "From: " +:+ sender; "To: a@b.kzBcc: all@b.kz"; "Subject: [App] Hiearly body"; "Message-ID: <1f@localhost>";
     "MIME-Version: 1.0"; "Content-Type: multipart/alternative; boundary=" +:+ String Mail.quote ("----=_Part_9a" +:+ String Mail.quote ""); ""].
Proof. apply (Mail.mail_header_holds plain_mailer injecting "Sat, 07 Mar 2026 12:00:09 +0000" "<1f@localhost>" "9a"); [by split_and! | reflexivity..]. Defined.
