(* ===== verification/Gateway.v ===== *)
(** * The edges of the service

    What crosses them and is checked on the way: the trace context of a request and the
    log lines that carry it (src/observability/), the settings read from a file and the
    environment (src/utils/Config.hpp), and the advice of src/api/Middleware.hpp: what
    each part looks at, and the order in which they are run.  The environment and the
    random generator are parameters. *)
From Stdlib Require Import ZArith Lia Ascii String.
From S2P Require Import Prelude Text Json Utils Requests RateLimit Idempotency Auth Tenancy Storage Outbound.
Import Json.
Open Scope string_scope.
Open Scope Z_scope.

(** ** Traces *)
Module Trace.

(** [TraceContext]: src/observability/Trace.hpp:38-42. *)
Record TraceContext := mkTrace { trace_id : string; parent_id : string; flags : string }.

(** [is_hex_lower]: src/observability/Trace.hpp:46-48. *)
Definition is_hex_lower (c : ascii) : bool := is_digit c || ((97 <=? code c) && (code c <=? 102)).
(** [is_hex_string]: src/observability/Trace.hpp:50-57. *)
Definition is_hex_string (s : string) (n : nat) : bool := (size s =? n)%nat && str_all is_hex_lower s.
(** [is_all_zero_hex]: src/observability/Trace.hpp:87-92. *)
Definition is_all_zero_hex (s : string) : bool := str_all (fun c => Ascii.eqb c "0") s && negb (String.eqb s "").

(** [parse_traceparent]: src/observability/Trace.hpp:100-137. *)
Definition parse_traceparent (header : string) : option TraceContext :=
  match pieces "-" (Requests.lower_all header) with
  | [version; trace; parent; fl] =>
      if negb (String.eqb version "00") then None
      else if negb (is_hex_string trace 32) then None
      else if negb (is_hex_string parent 16) then None
      else if negb (is_hex_string fl 2) then None
      else if is_all_zero_hex trace || is_all_zero_hex parent then None
      else Some (mkTrace trace parent fl)
  | _ => None
  end.

(** [format_traceparent]: src/observability/Trace.hpp:142-144. *)
Definition format_traceparent (c : TraceContext) : string :=
  "00-" +:+ (trace_id c +:+ ("-" +:+ (parent_id c +:+ ("-" +:+ flags c)))).

(** [random_hex]: src/observability/Trace.hpp:75-85.  The bytes of the generator's
    numbers, the low byte of each first. *)
Fixpoint bytes_le (k : nat) (v : Z) : list Z :=
  match k with O => [] | S k => Z.land v 255 :: bytes_le k (Z.shiftr v 8) end.
Fixpoint random_bytes (n : nat) (numbers : list Z) : list Z :=
  match numbers with
  | [] => []
  | v :: r => bytes_le (min 8 n) v ++ random_bytes (n - 8) r
  end.

(** [to_hex]: src/observability/Trace.hpp:59-68. *)
Definition to_hex (bytes : list Z) : string := Storage.bytes_to_hex (foldr (fun b s => String (chr b) s) "" bytes).
Definition random_hex (n : nat) (numbers : list Z) : string := to_hex (random_bytes n numbers).

(** [generate_context]: src/observability/Trace.hpp:149-155.  With the numbers of the
    generator, two for the trace and one for the span. *)
Definition generate_context (a b c : Z) : TraceContext := mkTrace (random_hex 16 [a; b]) (random_hex 8 [c]) "01".

(** [extract_or_generate]: src/observability/Trace.hpp:161-168. *)
Definition extract_or_generate (header : string) (a b c : Z) : TraceContext :=
  if String.eqb header "" then generate_context a b c
  else match parse_traceparent header with Some t => t | None => generate_context a b c end.

(** [hex_to_bytes]: src/api/Middleware.hpp:65-83. *)
Fixpoint hex_to_bytes (hex : string) (n : nat) : option (list Z) :=
  match n, hex with
  | O, EmptyString => Some []
  | S n, String h (String l r) => a ← Storage.hex_value h; b ← Storage.hex_value l; rest ← hex_to_bytes r n; Some (Z.lor (Z.shiftl a 4) b :: rest)
  | _, _ => None
  end.

(** [to_remote_span_context]: src/api/Middleware.hpp:91-102. *)
Definition to_remote_span_context (t : TraceContext) : option (list Z * list Z * list Z) :=
  tid ← hex_to_bytes (trace_id t) 16; sid ← hex_to_bytes (parent_id t) 8; fl ← hex_to_bytes (flags t) 1; Some (tid, sid, fl).

(** [format]: src/observability/Observability.hpp:105-115.  The trace of a log line. *)
Definition trace_of_line (tp : string) : string :=
  match str_find "-" tp with
  | None => ""
  | Some a =>
      match str_find "-" (str_drop (S a) tp) with
      | None => ""
      | Some b => str_take b (str_drop (S a) tp)
      end
  end.

(** A context the format allows. *)
Record well_formed (c : TraceContext) : Prop := mkWf {
  wf_trace : is_hex_string (trace_id c) 32 = true; wf_parent : is_hex_string (parent_id c) 16 = true; wf_flags : is_hex_string (flags c) 2 = true;
  wf_nonzero : is_all_zero_hex (trace_id c) || is_all_zero_hex (parent_id c) = false
}.

Lemma hex_lowered s n : is_hex_string s n = true -> Requests.lower_all s = s /\ str_all (fun c => negb (Ascii.eqb c "-")) s = true.
Proof.
  unfold is_hex_string. intros [_ H]%andb_true_iff. split; [|revert H; apply str_all_impl; intros [[] [] [] [] [] [] [] []]; by cbn].
  induction s as [|c s IH]; cbn [str_all Requests.lower_all] in *; [done|]. apply andb_true_iff in H as [Hc H]. rewrite IH by done. f_equal.
  revert Hc. clear. destruct c as [[] [] [] [] [] [] [] []]; by cbn.
Qed.

Lemma format_pieces c : well_formed c -> pieces "-" (Requests.lower_all (format_traceparent c)) = ["00"; trace_id c; parent_id c; flags c].
Proof.
  intros [H1 H2 H3 _]. apply hex_lowered in H1 as [L1 N1], H2 as [L2 N2], H3 as [L3 N3].
  assert (Requests.lower_all (format_traceparent c) = "00" +:+ String "-" (trace_id c +:+ String "-" (parent_id c +:+ String "-" (flags c)))) as ->.
  { unfold format_traceparent. by rewrite !Egress.lower_app, L1, L2, L3. }
  by rewrite !pieces_cons, pieces_one.
Qed.

Lemma hex_bytes_some s n : size s = (2 * n)%nat -> str_all is_hex_lower s = true -> hex_to_bytes s n <> None.
Proof.
  assert (Hv : forall c, is_hex_lower c = true -> Storage.hex_value c <> None) by (intros [[] [] [] [] [] [] [] []]; by cbn).
  revert s. induction n as [|n IH]; intros [|h [|l s]]; unfold size in *; cbn [String.length str_all hex_to_bytes]; try lia; [done|].
  intros Hn [Hh [Hl Hs]%andb_true_iff]%andb_true_iff. apply Hv in Hh, Hl. destruct (Storage.hex_value h), (Storage.hex_value l); try done.
  cbn [mbind option_bind]. specialize (IH s ltac:(lia) Hs). by destruct (hex_to_bytes s n).
Qed.

Lemma wf_bytes c : well_formed c -> to_remote_span_context c <> None.
Proof.
  intros [[H1%Nat.eqb_eq A1]%andb_true_iff [H2%Nat.eqb_eq A2]%andb_true_iff [H3%Nat.eqb_eq A3]%andb_true_iff _]. unfold to_remote_span_context.
  pose proof (hex_bytes_some _ 16 H1 A1). pose proof (hex_bytes_some _ 8 H2 A2). pose proof (hex_bytes_some _ 1 H3 A3).
  destruct (hex_to_bytes (trace_id c) 16), (hex_to_bytes (parent_id c) 8), (hex_to_bytes (flags c) 1); done.
Qed.

Lemma parsed_well_formed h d : parse_traceparent h = Some d -> well_formed d /\ Requests.lower_all h = format_traceparent d.
Proof.
  unfold parse_traceparent. destruct (pieces "-" (Requests.lower_all h)) as [|v [|t [|p [|f [|? ?]]]]] eqn:E; try done.
  destruct (String.eqb_spec v "00") as [->|]; [|done]. cbn [negb].
  destruct (is_hex_string t 32) eqn:H1; [|done]. destruct (is_hex_string p 16) eqn:H2; [|done]. destruct (is_hex_string f 2) eqn:H3; [|done]. cbn [negb].
  destruct (_ || _) eqn:H4; [done|]. intros [= <-]. split; [by constructor|]. apply joined_back in E. rewrite E. unfold format_traceparent.
  cbn [foldl trace_id parent_id flags]. by rewrite !str_app_assoc.
Qed.

(** A trace context reads back from the header it is printed as, and whatever header
    is accepted is, but for the case of its letters, the header that its context prints:
    no other version, length or character passes, and neither does an identifier of
    zeros; a log line shows exactly the trace of the header. *)
Theorem traceparent_reads_back c : well_formed c ->
  parse_traceparent (format_traceparent c) = Some c /\ trace_of_line (format_traceparent c) = trace_id c /\
  forall h d, parse_traceparent h = Some d -> well_formed d /\ Requests.lower_all h = format_traceparent d /\ to_remote_span_context d <> None.
Proof.
  intros Hc. split_and!.
  - unfold parse_traceparent. rewrite format_pieces by done. destruct Hc as [H1 H2 H3 H4]. rewrite H1, H2, H3, H4. by destruct c.
  - destruct Hc as [[_ N]%hex_lowered _ _ _]. unfold trace_of_line, format_traceparent.
    assert (Hf : forall x, str_find "-" ("00-" +:+ x) = Some 2%nat) by done. rewrite Hf.
    assert (Hd : forall x, str_drop 3 ("00-" +:+ x) = x) by done. rewrite Hd.
    pose proof (str_find_app _ "-" (trace_id c) (parent_id c +:+ ("-" +:+ flags c)) N eq_refl) as Hs.
    cbn [String.append] in Hs |- *. by rewrite Hs, str_take_app.
  - intros h d Hd. apply parsed_well_formed in Hd as [Hw Hl]. auto using wf_bytes.
Qed.

End Trace.

Definition a_trace : Trace.TraceContext := Trace.mkTrace "4bf92f3577b34da6a3ce929d0e0e4736" "00f067aa0ba902b7" "01".

Lemma traceparent_reads_back_witness :
  Trace.parse_traceparent "00-4bf92f3577b34da6a3ce929d0e0e4736-00f067aa0ba902b7-01" = Some a_trace.
Proof. apply (Trace.traceparent_reads_back a_trace). by constructor. Defined.

(** What is generated is well formed unless the generator gives zeros. *)
Example generated : Trace.generate_context 1 2 (-1) = Trace.mkTrace "01000000000000000200000000000000" "ffffffffffffffff" "01".
Proof. reflexivity. Qed.

(** ** Log lines *)
Module LogLine.

Definition quote : ascii := chr 34.

(** [format]: src/observability/Observability.hpp:51-88.  A character of a message. *)
Definition escaped (c : ascii) : string :=
  let back d := String "\" (String d "") in
  if Ascii.eqb c quote then back quote
  else if Ascii.eqb c "\" then back "\"%char
  else if code c =? 10 then back "n"%char
  else if code c =? 13 then back "r"%char
  else if code c =? 9 then back "t"%char
  else if code c =? 8 then back "b"%char
  else if code c =? 12 then back "f"%char
  else if code c <? 32 then "\u00" +:+ String (Storage.hex_lower (Z.shiftr (code c) 4)) (String (Storage.hex_lower (Z.land (code c) 15)) "")
  else String c "".

Fixpoint message (s : string) : string := match s with EmptyString => EmptyString | String c r => escaped c +:+ message r end.

(** How JSON reads the inside of a string (RFC 8259, the escapes below 128): the text up
    to the quote that ends it, and what follows. *)
Definition unescape (c : ascii) : option ascii :=
  if Ascii.eqb c quote || Ascii.eqb c "\" || Ascii.eqb c "/" then Some c
  else if Ascii.eqb c "n" then Some (chr 10) else if Ascii.eqb c "r" then Some (chr 13) else if Ascii.eqb c "t" then Some (chr 9)
  else if Ascii.eqb c "b" then Some (chr 8) else if Ascii.eqb c "f" then Some (chr 12) else None.

Definition hex4 (a b c d : ascii) : option ascii :=
  x ← Storage.hex_value a; y ← Storage.hex_value b; z ← Storage.hex_value c; t ← Storage.hex_value d;
  let n := ((16 * x + y) * 16 + z) * 16 + t in if n <? 128 then Some (chr n) else None.

Fixpoint read_string (s : string) : option (string * string) :=
  match s with
  | EmptyString => None
  | String c r =>
      if Ascii.eqb c quote then Some ("", r)
      else if Ascii.eqb c "\" then
        match r with
        | String d t =>
            if Ascii.eqb d "u" then
              match t with
              | String h1 (String h2 (String h3 (String h4 u))) =>
                  x ← hex4 h1 h2 h3 h4; '(m, rest) ← read_string u; Some (String x m, rest)
              | _ => None
              end
            else x ← unescape d; '(m, rest) ← read_string t; Some (String x m, rest)
        | EmptyString => None
        end
      else if code c <? 32 then None
      else '(m, rest) ← read_string r; Some (String c m, rest)
  end.

Lemma escaped_reads c r : read_string (escaped c +:+ r) = ('(m, rest) ← read_string r; Some (String c m, rest)).
Proof. destruct c as [[] [] [] [] [] [] [] []]; reflexivity. Qed.

(** Whatever is logged stays inside its field: a reader of the line gets back the
    message to the byte and goes on right after the closing quote, so that quotes, line
    ends and control characters of a message can neither end the field nor the line. *)
Theorem message_stays_inside s rest :
  read_string (message s +:+ String quote rest) = Some (s, rest) /\ str_all (fun c => 32 <=? code c) (message s) = true.
Proof.
  split.
  - induction s as [|c s IH]; [reflexivity|]. cbn [message]. by rewrite str_app_assoc, escaped_reads, IH.
  - assert (He : forall c, str_all (fun c => 32 <=? code c) (escaped c) = true) by (intros [[] [] [] [] [] [] [] []]; reflexivity).
    induction s as [|c s IH]; cbn [message]; [done|]. by rewrite str_all_app, He.
Qed.

End LogLine.


(** ** Settings *)
Module Config.

(** The process environment. *)
Definition Env := string -> option string.

Section Expand.
Context (getenv : Env).

(** [expand_string]: src/utils/Config.hpp:180-197.  What stands for one placeholder. *)
Definition placeholder (expr : string) : string :=
  let '(name, default) := match find_from 0 ":-" expr with
                          | Some k => (str_take k expr, Some (str_drop (k + 2) expr))
                          | None => (expr, None)
                          end in
  match (if String.eqb name "" then None else getenv name) with
  | Some v => v
  | None => match default with Some d => d | None => "" end
  end.

(** [expand_string]: src/utils/Config.hpp:169-206.  Every round moves on in the text. *)
Fixpoint expand (fuel : nat) (s : string) : string :=
  match fuel with
  | O => ""
  | S fuel =>
      match s with
      | EmptyString => ""
      | String c r =>
          if Ascii.eqb c "$" && String.prefix "{" r then
            let inner := str_drop 1 r in
            match str_find "}" inner with
            | None => s
            | Some n => placeholder (str_take n inner) +:+ expand fuel (str_drop (S n) inner)
            end
          else String c (expand fuel r)
      end
  end.
Definition expand_string (s : string) : string := expand (S (size s)) s.

(** [substitute_env_placeholders]: src/utils/Config.hpp:211-225. *)
Fixpoint substitute_env_placeholders (node : json) : json :=
  match node with
  | JString raw => if has "${" raw then JString (expand_string raw) else node
  | JObject l => JObject (map (fun e => (e.1, substitute_env_placeholders e.2)) l)
  | JArray l => JArray (map substitute_env_placeholders l)
  | _ => node
  end.

End Expand.

(** [load_from_file]: src/utils/Config.hpp:52-66.  With the text of the file, if it
    opens; the parser's own words are left out of its error. *)
Definition load_from_file `{JsonText} (getenv : Env) (path : string) (text : option string) : outcome json :=
  match text with
  | None => Throw (Exn std_runtime_error ("Failed to open config file: " +:+ path))
  | Some t => match json_parse t with
              | None => Throw (Exn std_runtime_error "Failed to parse config file: ")
              | Some j => Ok (substitute_env_placeholders getenv j)
              end
  end.

(** The types a setting is read as. *)
Class Setting (T : Type) := { parse_env_value : string -> outcome T; get_as : json -> outcome T }.

(** [parse_env_value]: src/utils/Config.hpp:147-162. *)
#[export] Instance text_setting : Setting string := { parse_env_value s := Ok s; get_as := get_string }.
#[export] Instance bool_setting : Setting bool := {
  parse_env_value s := Ok (String.eqb s "true" || String.eqb s "1" || String.eqb s "yes"); get_as := get_bool }.
#[export] Instance int_setting : Setting Z := {
  parse_env_value := stoi;
  get_as j := match j with JInt z => Ok (wrap32 z) | JBool b => Ok (if b then 1 else 0) | _ => type_error end }.

Fixpoint at_path (j : json) (ks : list string) : outcome json :=
  match ks with
  | [] => Ok j
  | k :: r =>
      match j with
      | JObject l => match obj_get k l with Some v => at_path v r | None => Throw (Exn json_out_of_range k) end
      | _ => type_error
      end
  end.

Section Reading.
Context (getenv : Env) (config_data : json) {T : Type} `{Setting T}.

(** [get_nested_value]: src/utils/Config.hpp:234-246. *)
Definition get_nested_value (key : string) : outcome T := v ← at_path config_data (keys key); get_as v.

Definition from_environment (env_var : string) : option string := if String.eqb env_var "" then None else getenv env_var.

(** [get]: src/utils/Config.hpp:75-91. *)
Definition get (key env_var : string) (default : T) : outcome T :=
  match from_environment env_var with
  | Some v => parse_env_value v
  | None => match get_nested_value key with Throw _ => Ok default | o => o end
  end.

(** [require]: src/utils/Config.hpp:98-111. *)
Definition require (key env_var : string) : outcome T :=
  match from_environment env_var with
  | Some v => parse_env_value v
  | None => match get_nested_value key with
            | Throw _ => Throw (Exn std_runtime_error ("Required configuration missing: key='" +:+ (key +:+ ("' env='" +:+ (env_var +:+ "'")))))
            | o => o
            end
  end.

(** [get_optional]: src/utils/Config.hpp:119-126. *)
Definition get_optional (key : string) : option T := match get_nested_value key with Ok v => Some v | _ => None end.

End Reading.

(** ** What an expanded text is *)

(** A text by its parts: literals without a dollar, and placeholders. *)
Inductive item := Lit (s : string) | Var (name : string) (default : option string).

Definition written (i : item) : string :=
  match i with
  | Lit s => s
  | Var name default => "${" +:+ (name +:+ (from_option (fun d => ":-" +:+ d) "" default +:+ "}"))
  end.
Definition meant (getenv : Env) (i : item) : string :=
  match i with
  | Lit s => s
  | Var name default => match (if String.eqb name "" then None else getenv name) with Some v => v | None => from_option id "" default end
  end.

Definition without (d : ascii) (s : string) : bool := str_all (fun c => negb (Ascii.eqb c d)) s.
Definition readable (i : item) : Prop :=
  match i with
  | Lit s => without "$" s = true
  | Var name default => without "}" name = true /\ without ":" name = true /\ from_option (without "}") true default = true
  end.

Definition whole (f : item -> string) (l : list item) : string := foldr (fun i t => f i +:+ t) "" l.

Section Expansion.
Context (getenv : Env).

Lemma drop_size n s : (size (str_drop n s) <= size s)%nat.
Proof. unfold size. revert s. induction n as [|n IH]; intros [|c s]; cbn [str_drop String.length]; try lia. specialize (IH s). lia. Qed.

Lemma expand_enough s : forall f g, (size s < f)%nat -> (size s < g)%nat -> expand getenv f s = expand getenv g s.
Proof.
  intros f. revert s. induction f as [|f IH]; intros [|c r] [|g] Hf Hg; unfold size in *; cbn [expand String.length] in *; try lia; [done|].
  destruct (_ && _); [destruct (str_find "}" (str_drop 1 r)) as [n|]|]; [|done|]; f_equal; apply IH; unfold size in *; try lia.
  all: pose proof (drop_size (S n) (str_drop 1 r)); pose proof (drop_size 1 r); unfold size in *; lia.
Qed.

Lemma expand_char c r : Ascii.eqb c "$" = false -> expand_string getenv (String c r) = String c (expand_string getenv r).
Proof. intros Hc. unfold expand_string. cbn [size String.length expand]. by rewrite Hc. Qed.

Lemma expand_plain s r : without "$" s = true -> expand_string getenv (s +:+ r) = s +:+ expand_string getenv r.
Proof.
  unfold without. induction s as [|c s IH]; cbn [str_all String.append]; [done|]. intros [Hc%negb_true_iff Hs]%andb_true_iff.
  rewrite expand_char by done. by rewrite IH.
Qed.

Lemma expand_step f t : expand getenv (S f) (String "$" (String "{" t)) =
  match str_find "}" t with
  | None => String "$" (String "{" t)
  | Some n => placeholder getenv (str_take n t) +:+ expand getenv f (str_drop (S n) t)
  end.
Proof. cbn [expand]. by destruct t. Qed.

Lemma expand_var e r : without "}" e = true -> expand_string getenv ("${" +:+ (e +:+ String "}" r)) = placeholder getenv e +:+ expand_string getenv r.
Proof.
  intros He. unfold expand_string. change ("${" +:+ ?t) with (String "$" (String "{" t)). rewrite expand_step.
  rewrite (str_find_app (fun c => negb (Ascii.eqb c "}"))) by done. rewrite str_take_app. f_equal.
  assert (str_drop (S (size e)) (e +:+ String "}" r) = r) as ->.
  { clear. unfold size. induction e as [|c e IH]; [done | exact IH]. }
  apply expand_enough; [|lia]. change (size (String "$" (String "{" ?t))) with (S (S (size t))). rewrite size_app. unfold size. cbn. lia.
Qed.

Lemma find_default name d : without ":" name = true -> find_from 0 ":-" (name +:+ (":-" +:+ d)) = Some (size name).
Proof.
  unfold without, find_from, size. induction name as [|c name IH]; cbn [str_all]; [by destruct d|]. intros [Hc%negb_true_iff Hn]%andb_true_iff.
  cbn [String.append String.index String.prefix String.length] in *. rewrite IH by done.
  destruct (ascii_dec ":" c) as [<-|]; [done|]. done.
Qed.

Lemma no_default name : without ":" name = true -> find_from 0 ":-" name = None.
Proof.
  unfold without, find_from. induction name as [|c name IH]; cbn [str_all]; [done|]. intros [Hc%negb_true_iff Hn]%andb_true_iff.
  cbn [String.index String.prefix]. rewrite IH by done. by destruct (ascii_dec ":" c) as [<-|].
Qed.

Lemma placeholder_meant name default : without ":" name = true ->
  placeholder getenv (name +:+ from_option (fun d => ":-" +:+ d) "" default) = meant getenv (Var name default).
Proof.
  intros Hn. unfold placeholder, meant. destruct default as [d|]; cbn [from_option].
  - rewrite find_default by done. rewrite str_take_app.
    assert (str_drop (size name + 2) (name +:+ (":-" +:+ d)) = d) as ->.
    { clear. unfold size. induction name as [|c name IH]; [by destruct d | exact IH]. }
    done.
  - rewrite app_empty_r, no_default by done. by destruct (if String.eqb name "" then None else getenv name).
Qed.

(** A setting's text is expanded to what its parts mean, each once and in place: a
    literal stays, a placeholder becomes the variable, or its default where the variable
    is not set, or nothing; what the environment puts in is not read again. *)
Theorem placeholders_expand l : Forall readable l -> expand_string getenv (whole written l) = whole (meant getenv) l.
Proof.
  induction 1 as [|i l Hi _ IH]; [done|]. unfold whole in *. cbn [foldr]. rewrite <- IH. destruct i as [s|name default]; cbn [written].
  - by apply expand_plain.
  - destruct Hi as (Hb & Hn & Hd). set (r := foldr _ "" l). rewrite <- placeholder_meant by done. rewrite <- expand_var.
    + f_equal. rewrite !str_app_assoc. done.
    + unfold without in *. rewrite str_all_app, Hb. destruct default as [d|]; [|done]. cbn in Hd |- *. done.
Qed.

(** Reading never fails on text; a number in the environment that is none is not
    replaced by the default but thrown. *)
Lemma get_text_total config key env_var default : exists v : string, get getenv config key env_var default = Ok v \/ get_nested_value (T := string) config key = Undef.
Proof.
  unfold get. destruct (from_environment getenv env_var) as [v|]; [exists v; by left|].
  destruct (get_nested_value config key) as [v|e|]; [exists v; by left | exists default; by left | exists default; by right].
Qed.

End Expansion.
(** A number in the environment that is none stops the start although there is a default. *)
Example port_is_no_number : get (fun _ => Some "http") (JObject []) "server.port" "PORT" 8080 = Throw (Exn std_invalid_argument "stoi").
Proof. reflexivity. Qed.

End Config.

Definition env_of_tests : Config.Env := fun k => if String.eqb k "DB_HOST" then Some "${HOME}" else None.
Definition url_items : list Config.item := [Config.Lit "pg://"; Config.Var "DB_HOST" None; Config.Lit ":"; Config.Var "DB_PORT" (Some "54${32"); Config.Var "X" None].
Lemma placeholders_expand_witness : Config.expand_string env_of_tests "pg://${DB_HOST}:${DB_PORT:-54${32}${X}" = "pg://${HOME}:54${32".
Proof. apply (Config.placeholders_expand env_of_tests url_items). repeat constructor. Defined.


(** ** Advice on headers *)
Module Advice.

(** The headers of a response by their names in small letters; adding one replaces it. *)
Abbreviation Headers := (gmap string string).
Definition add_header (k v : string) (h : Headers) : Headers := <[Requests.lower_all k := v]> h.
Definition header_of (h : Headers) (k : string) : string := default "" (h !! Requests.lower_all k).

Definition blank (c : ascii) : bool := Ascii.eqb c " " || Ascii.eqb c (chr 9).
Fixpoint drop_blanks (s : string) : string :=
  match s with String c r => if blank c then drop_blanks r else s | EmptyString => EmptyString end.

(** [register_content_type_check]: src/api/Middleware.hpp:294-304.  The media type without its parameters. *)
Definition media_type (ct : string) : string :=
  let bare := match str_find ";" ct with Some n => str_take n ct | None => ct end in
  drop_blanks (str_rev (drop_blanks (str_rev bare))).

(** [register_content_type_check]: src/api/Middleware.hpp:286-318.  Whether the request passes. *)
Definition content_type_passes (m : Method) (body content_type : string) : bool :=
  match m with
  | Post | Put | Patch =>
      if String.eqb body "" then true
      else
        let ct := media_type content_type in
        String.eqb ct "application/json" || (String.prefix "application/" ct && ends_with "+json" ct) || String.prefix "multipart/form-data" ct
  | _ => true
  end.

(** [load_cors_origins]: src/api/Middleware.hpp:320-327. *)
Definition load_cors_origins (csv : outcome string) : outcome (list string) :=
  c ← csv; Ok (if String.eqb c "" then [] else Strings.split_csv_vec c).

Definition allow_origin (origins : list string) (origin : string) (h : Headers) : Headers :=
  if negb (String.eqb origin "") && bool_decide (origin ∈ origins)
  then add_header "Vary" "Origin" (add_header "Access-Control-Allow-Origin" origin h) else h.

(** [register_cors]: src/api/Middleware.hpp:334-348.  The answer to a preflight. *)
Definition preflight (origins : list string) (origin : string) : Headers :=
  add_header "Access-Control-Max-Age" "600"
    (add_header "Access-Control-Allow-Headers" "Content-Type, Authorization"
      (add_header "Access-Control-Allow-Methods" "GET, POST, PUT, DELETE, OPTIONS" (allow_origin origins origin ∅))).

(** [register_cors]: src/api/Middleware.hpp:349-356. *)
Definition cors_post (origins : list string) (origin : string) (h : Headers) : Headers :=
  match origins with [] => h | _ => allow_origin origins origin h end.

Definition set_if_absent (k v : string) (h : Headers) : Headers := if String.eqb (header_of h k) "" then add_header k v h else h.

(** [register_security_headers]: src/api/Middleware.hpp:375-388. *)
Definition security_post (hsts : option Z) (h : Headers) : Headers :=
  let h := set_if_absent "Content-Security-Policy" "default-src 'none'; frame-ancestors 'none'"
             (set_if_absent "Referrer-Policy" "no-referrer"
               (set_if_absent "X-Frame-Options" "DENY" (set_if_absent "X-Content-Type-Options" "nosniff" h))) in
  match hsts with
  | Some age => set_if_absent "Strict-Transport-Security" ("max-age=" +:+ (to_string age +:+ "; includeSubDomains")) h
  | None => h
  end.

(** [register_rate_limit]: src/api/Middleware.hpp:219-231. *)
Definition rate_limit_post (limit_remaining : option (Z * Z)) (h : Headers) : Headers :=
  match limit_remaining with
  | None => h
  | Some (limit, remaining) => add_header "X-RateLimit-Remaining" (to_string remaining) (add_header "X-RateLimit-Limit" (to_string limit) h)
  end.

(** [emit_trace_headers]: src/api/Middleware.hpp:515-531.  With what the tracing advice left. *)
Definition emit_trace_headers (t : option Trace.TraceContext) (h : Headers) : Headers :=
  match t with
  | None => h
  | Some c => if String.eqb (Trace.trace_id c) "" then h
              else add_header "traceparent" (Trace.format_traceparent c) (add_header "X-Request-Id" (Trace.trace_id c) h)
  end.

(** [register_access_log_post]: src/api/Middleware.hpp:593-614.  The labels a request is counted under. *)
Definition metric_path (norm_path : string) (status : Z) : string := if status =? 404 then "<unmatched>" else norm_path.

(** Every header of the list is there after the advice, whatever the handler set. *)
Lemma set_if_absent_there k v h : v <> "" -> header_of (set_if_absent k v h) k <> "".
Proof.
  intros Hv. unfold set_if_absent. destruct (String.eqb_spec (header_of h k) "") as [|Hn]; [|done].
  unfold header_of, add_header. by rewrite lookup_insert_eq.
Qed.

Lemma set_if_absent_keeps k v h k' : header_of h k' <> "" -> header_of (set_if_absent k v h) k' = header_of h k'.
Proof.
  intros Hh. unfold set_if_absent. destruct (String.eqb_spec (header_of h k) "") as [E|]; [|done].
  unfold header_of, add_header in *. rewrite lookup_insert_ne; [done|]. intros El. rewrite El in E. done.
Qed.

Lemma secured hsts h : Forall (fun k => header_of (security_post hsts h) k <> "")
  ["X-Content-Type-Options"; "X-Frame-Options"; "Referrer-Policy"; "Content-Security-Policy"].
Proof.
  assert (Hk : forall k k' v h, header_of h k <> "" -> header_of (set_if_absent k' v h) k <> "").
  { intros k k' v h' H. by rewrite set_if_absent_keeps. }
  unfold security_post. set (g := set_if_absent "Content-Security-Policy" _ _).
  assert (Hg : Forall (fun k => header_of g k <> "") ["X-Content-Type-Options"; "X-Frame-Options"; "Referrer-Policy"; "Content-Security-Policy"]).
  { unfold g. repeat constructor; repeat first [by apply set_if_absent_there | apply Hk]. }
  destruct hsts as [age|]; [|done]. eapply Forall_impl; [exact Hg|]. intros k H. by apply Hk.
Qed.

End Advice.

(** ** The chain *)
Module Chain.

#[export] Instance method_eq_dec : EqDecision Method.
Proof. solve_decision. Defined.

(** A request as the server hands it on: header names in small letters. *)
Record Incoming := mkIncoming { method : Method; path : string; header : string -> string; cookie : string -> string; body : string; peer : string }.

Definition verb (m : Method) : string :=
  match m with Get => "GET" | Head => "HEAD" | Post => "POST" | Put => "PUT" | Delete => "DELETE" | Patch => "PATCH" | Options => "OPTIONS" end.

(** What each module reads of it, with the principal that was found. *)
Definition auth_view (r : Incoming) : Auth.Request := Auth.mkRequest (verb (method r)) (path r) (header r "authorization") (header r "x-api-key") (cookie r).
Definition limit_view (r : Incoming) (p : option Auth.AuthPrincipal) : RateLimit.Request :=
  RateLimit.mkRequest (path r) (bool_decide (method r = Options)) (header r "x-real-ip") (header r "x-forwarded-for") (peer r) (Auth.subject <$> p).
Definition idem_view (r : Incoming) (p : option Auth.AuthPrincipal) : Idempotency.Request :=
  Idempotency.mkRequest (method r) (path r) (header r "idempotency-key") (body r) (Auth.subject <$> p) (peer r).

(** What is registered, and what each call meets. *)
Record Setup := mkSetup {
  auth : option Auth.AuthConfig; csrf : option (string * string * string); limiter : option RateLimit.Config; idem : option Idempotency.Config; origins : list string
}.
Record Moment := mkMoment { now_s : Z; keys : gmap string Auth.KeyRow; db_up : bool; rl_env : RateLimit.Env; cache_up : bool;
                            f1 : Idempotency.Fault; f2 : Idempotency.Fault; f3 : Idempotency.Fault; now_ms : Z }.
Record World := mkWorld { limits : RateLimit.World; entries : Idempotency.Store }.

(** How a request leaves the advice: refused, with its status and code; a preflight
    answered; answered by the idempotency module; or on to its handler. *)
Inductive Leaves :=
| Refused (status : Z) (why : string)
| Preflight (h : Advice.Headers)
| Replayed (a : Idempotency.Answer)
| Handled (p : option Auth.AuthPrincipal) (tracked : Idempotency.PreResult).

Section Advices.
Context `{CR : Auth.Crypto} `{TX : JsonText} `{PL : Platform} (s : Setup) (m : Moment).

(** [register_csrf]: src/api/Middleware.hpp:242-264. *)
Definition csrf_passes (r : Incoming) : bool :=
  match csrf s with
  | None => true
  | Some (access, token, hdr) => match Auth.csrf access token (header r (Requests.lower_all hdr)) (auth_view r) with None => true | Some _ => false end
  end.

(** [register_cors]: src/api/Middleware.hpp:329-348.  Last of the advice before a handler. *)
Definition cors (r : Incoming) (p : option Auth.AuthPrincipal) (t : Idempotency.PreResult) : Leaves :=
  if bool_decide (method r = Options) && negb (bool_decide (origins s = [])) then Preflight (Advice.preflight (origins s) (header r "origin"))
  else Handled p t.

(** [register_idempotency]: src/api/Middleware.hpp:266-273. *)
Definition after_limit (r : Incoming) (p : option Auth.AuthPrincipal) : st World Leaves := fun w =>
  match idem s with
  | None => (Ok (cors r p Idempotency.Pass), w)
  | Some cfg =>
      let '(o, e) := Idempotency.pre_handle cfg (cache_up m) (f1 m) (f2 m) (f3 m) (idem_view r p) (now_ms m) (entries w) in
      (t ← o; Ok (match t with Idempotency.Answered a => Replayed a | t => cors r p t end), mkWorld (limits w) e)
  end.

(** [register_rate_limit]: src/api/Middleware.hpp:174-217. *)
Definition after_csrf (r : Incoming) (p : option Auth.AuthPrincipal) : st World Leaves := fun w =>
  match limiter s with
  | Some cfg =>
      if RateLimit.enabled cfg then
        let '(d, l) := RateLimit.advice cfg (limit_view r p) (rl_env m) (limits w) in
        let w' := mkWorld l (entries w) in
        match d with
        | Some d => if RateLimit.allowed d then after_limit r p w' else (Ok (Refused 429 (to_string (RateLimit.retry_after_sec d))), w')
        | None => after_limit r p w'
        end
      else after_limit r p w
  | None => after_limit r p w
  end.

(** [register_controllers]: src/api/Api.hpp:53-68.  The advice in its order. *)
Definition advise (r : Incoming) : st World Leaves := fun w =>
  if negb (Advice.content_type_passes (method r) (body r) (header r "content-type")) then (Ok (Refused 415 "unsupported_media_type"), w)
  else
    match (match auth s with None => Ok (Auth.Pass None) | Some cfg => Auth.authenticate cfg (keys m) (db_up m) (now_s m) (auth_view r) end) with
    | Throw e => (Throw e, w)
    | Undef => (Undef, w)
    | Ok (Auth.Unauthorized code) => (Ok (Refused 401 code), w)
    | Ok (Auth.Pass p) => if csrf_passes r then after_csrf r p w else (Ok (Refused 403 "csrf_failed"), w)
    end.

(** An OPTIONS request meets no advice but the last. *)
Lemma options_pass r w : method r = Options -> advise r w = (Ok (if bool_decide (origins s = []) then Handled None Idempotency.Pass
                                                              else Preflight (Advice.preflight (origins s) (header r "origin"))), w).
Proof.
  intros Hm. unfold advise. rewrite Hm. cbn [Advice.content_type_passes negb].
  assert (match auth s with None => Ok (Auth.Pass None) | Some cfg => Auth.authenticate cfg (keys m) (db_up m) (now_s m) (auth_view r) end = Ok (Auth.Pass None)) as ->.
  { destruct (auth s) as [cfg|]; [|done]. unfold Auth.authenticate. cbn [auth_view Auth.verb]. rewrite Hm. by destruct (Auth.mode cfg). }
  assert (csrf_passes r = true) as ->.
  { unfold csrf_passes, Auth.csrf. destruct (csrf s) as [[[a t] h]|]; [|done]. cbn [auth_view Auth.verb]. by rewrite Hm. }
  assert (Hl : after_limit r None w = (Ok (if bool_decide (origins s = []) then Handled None Idempotency.Pass
                                         else Preflight (Advice.preflight (origins s) (header r "origin"))), w)).
  { unfold after_limit, cors. rewrite Hm, bool_decide_eq_true_2 by done. destruct w as [l e]. destruct (idem s) as [cfg|]; [|by destruct (bool_decide _)].
    unfold Idempotency.pre_handle. cbn [idem_view Idempotency.method]. rewrite Hm. cbn [Idempotency.is_mutating negb]. rewrite orb_true_r. by destruct (bool_decide _). }
  unfold after_csrf. destruct (limiter s) as [cfg|]; [|done]. destruct (RateLimit.enabled cfg); [|done].
  unfold RateLimit.advice. cbn [limit_view RateLimit.is_options]. rewrite Hm, bool_decide_eq_true_2 by done. cbn. by destruct w.
Qed.

Lemma after_limit_leaves r p w o w' : after_limit r p w = (Ok o, w') ->
  match o with
  | Refused _ _ => False
  | Preflight h => method r = Options /\ h = Advice.preflight (origins s) (header r "origin")
  | Replayed _ => Idempotency.is_mutating (method r) = true
  | Handled q _ => q = p
  end.
Proof.
  unfold after_limit.   assert (Hc : forall t, match cors r p t with Refused _ _ => False | Preflight h => method r = Options /\ h = Advice.preflight (origins s) (header r "origin")
                           | Replayed _ => Idempotency.is_mutating (method r) = true | Handled q _ => q = p end).
  { intros t. unfold cors. destruct (bool_decide (method r = Options)) eqn:E; [apply bool_decide_eq_true in E|]; [|done].
    by destruct (negb _). }
  destruct (idem s) as [cfg|]; [|intros [= <- _]; apply Hc].
  destruct (Idempotency.is_mutating (method r)) eqn:Em.
  - destruct (Idempotency.pre_handle _ _ _ _ _ _ _ _) as [[t|e|] e']; [|done..]. intros [= <- _]. specialize (Hc t). by destruct t.
  - unfold Idempotency.pre_handle. cbn [idem_view Idempotency.method]. rewrite Em. cbn [negb]. rewrite orb_true_r. cbn [orb]. intros [= <- _]. apply Hc.
Qed.

Lemma after_csrf_leaves r p w o w' : after_csrf r p w = (Ok o, w') ->
  match o with
  | Refused n _ => n = 429 /\ entries w' = entries w
  | Preflight h => method r = Options /\ h = Advice.preflight (origins s) (header r "origin")
  | Replayed _ => Idempotency.is_mutating (method r) = true
  | Handled q _ => q = p
  end.
Proof.
  assert (Hl : forall v, after_limit r p v = (Ok o, w') -> match o with Refused n _ => n = 429 /\ entries w' = entries w
    | Preflight h => method r = Options /\ h = Advice.preflight (origins s) (header r "origin")
    | Replayed _ => Idempotency.is_mutating (method r) = true | Handled q _ => q = p end).
  { intros v Hv%after_limit_leaves. by destruct o. }
  unfold after_csrf. destruct (limiter s) as [cfg|]; [|apply Hl]. destruct (RateLimit.enabled cfg); [|apply Hl].
  destruct (RateLimit.advice _ _ _ _) as [[d|] l]; [|apply Hl]. destruct (RateLimit.allowed d); [apply Hl|]. by intros [= <- <-].
Qed.

(** The order of the advice keeps the budgets of the others: a request that is
    refused for its body's type, for its credentials or for its token against forgery
    costs neither a place in a rate window nor an idempotency entry, one over its limit
    no entry, and a preflight, whatever it carries, reaches the CORS answer and changes
    nothing. *)
Theorem refusals_cost_nothing r w o w' : advise r w = (Ok o, w') ->
  match o with
  | Refused 429 _ => entries w' = entries w
  | Refused _ _ => w' = w
  | Preflight h => w' = w /\ method r = Options /\ h = Advice.preflight (origins s) (header r "origin")
  | Replayed _ => Idempotency.is_mutating (method r) = true
  | Handled p t => Advice.content_type_passes (method r) (body r) (header r "content-type") = true /\ csrf_passes r = true /\
      forall cfg, auth s = Some cfg -> Auth.authenticate cfg (keys m) (db_up m) (now_s m) (auth_view r) = Ok (Auth.Pass p)
  end.
Proof.
  intros H. destruct (decide (method r = Options)) as [Ho|Ho].
  - rewrite options_pass in H by done. destruct (bool_decide (origins s = [])); injection H as <- <-; [|done]. split_and!.
    + by rewrite Ho.
    + unfold csrf_passes, Auth.csrf. destruct (csrf s) as [[[a t] h]|]; [|done]. cbn [auth_view Auth.verb]. by rewrite Ho.
    + intros cfg _. unfold Auth.authenticate. cbn [auth_view Auth.verb]. rewrite Ho. by destruct (Auth.mode cfg).
  - revert H. unfold advise. destruct (Advice.content_type_passes _ _ _) eqn:Ec; cbn [negb]; [|by intros [= <- <-]].
    set (v := match auth s with None => _ | Some _ => _ end). destruct v as [[p|code]|e|] eqn:Ev; try done; [|by intros [= <- <-]].
    destruct (csrf_passes r) eqn:Ef; [|by intros [= <- <-]]. intros H%after_csrf_leaves. destruct o as [n why|h|a|q t]; try done.
    + by destruct H as [-> H].
    + by destruct H.
    + subst q. split_and!; [done..|]. intros cfg E. unfold v in Ev. by rewrite E in Ev.
Qed.

End Advices.
End Chain.

#[local] Instance tag_crypto : Auth.Crypto := { Auth.hmac_sha256 k m := k +:+ ("|" +:+ m); Auth.sha256 s := "#" +:+ s }.

#[local] Existing Instance Idempotency.toy_platform.

Module Registered.
Definition setup : Chain.Setup := Chain.mkSetup (Some Auth.Example.cfg) (Some ("a", "csrf-token", "X-CSRF-Token"))
  (Some (RateLimit.mkConfig true 2 60 2 60 RateLimit.IpOrUser true 1 false [] [] [])) (Some (Idempotency.mkConfig true 86400 1048576 262144 30)) ["https://app.example.com"].
Definition moment : Chain.Moment := Chain.mkMoment 500 ∅ true (RateLimit.mkEnv 1 500000 500000 true RateLimit.NoFault) true
  Idempotency.NoFault Idempotency.NoFault Idempotency.NoFault 500000.
Definition unsigned : Chain.Incoming :=
  Chain.mkIncoming Post "/api/v1/journal" (fun h => if String.eqb h "content-type" then "application/json; charset=utf-8" else "") (fun _ => "") "{}" "10.1.2.3".
Definition start : Chain.World := Chain.mkWorld (RateLimit.mkWorld ∅ ∅) ∅.
End Registered.

Lemma refusals_cost_nothing_witness : exists w,
  Chain.advise Registered.setup Registered.moment Registered.unsigned Registered.start = (Ok (Chain.Refused 401 "missing_token"), w) /\ w = Registered.start.
Proof.
  eexists. split; [vm_compute; reflexivity|].
  apply (Chain.refusals_cost_nothing Registered.setup Registered.moment Registered.unsigned Registered.start (Chain.Refused 401 "missing_token")).
  vm_compute. reflexivity.
Defined.
