(* ===== verification/Connections.v ===== *)
(** * Connections

    src/database/Database.hpp below its queries: the pool of connections as threads take
    them, lose them and give them back, a transaction with the retries around it, reads
    from a replica with the primary behind it; and the text the connections are made of
    (src/utils/Pg.hpp, the addresses of src/cache/Cache.hpp). *)
From Stdlib Require Import ZArith Lia Ascii String.
From S2P Require Import Prelude Text Utils.
Open Scope string_scope.
Open Scope Z_scope.
Set Warnings "-clear-no-such-hyp".

(** ** The pool *)
Module Pool.

(** Where a thread that was let in stands: its connection is being opened, or it holds one. *)
Inductive User := Opening | Holding (c : nat).

(** [ConnectionPool]: src/database/Database.hpp:182-191.  Connections by number, the
    oldest that is free first; the threads that were let in; the connections that are
    closed; the number of the next that is opened. *)
Record Pool := mkPool {
  pool_size_ : nat; available : list nat; active : Z; users : gmap nat User; closed : gset nat; fresh : nat
}.

(** [ConnectionPool]: src/database/Database.hpp:222-245. *)
Definition new_pool (size : nat) : Pool := mkPool size (seq 0 size) 0 ∅ ∅ size.

(** A [size_t] one up, one down. *)
Definition incr (z : Z) : Z := (z + 1) mod 2 ^ 64.
Definition decr (z : Z) : Z := (z - 1) mod 2 ^ 64.

(** [acquire]: src/database/Database.hpp:258-261. *)
Definition can_proceed (p : Pool) : bool :=
  match available p with [] => Z.of_nat (length (available p)) + active p <? Z.of_nat (pool_size_ p) | _ => true end.

(** [acquire]: src/database/Database.hpp:255-279.  Under the lock; [None]: the thread goes on waiting. *)
Definition acquire (t : nat) (p : Pool) : option Pool :=
  if can_proceed p then
    Some match available p with
         | c :: r => mkPool (pool_size_ p) r (incr (active p)) (<[t := Holding c]> (users p)) (closed p) (fresh p)
         | [] => mkPool (pool_size_ p) [] (incr (active p)) (<[t := Opening]> (users p)) (closed p) (fresh p)
         end
  else None.

(** [acquire]: src/database/Database.hpp:263-267.  What is thrown when the wait is over. *)
Definition timed_out (p : Pool) : exn :=
  Exn std_runtime_error ("Timed out waiting for database connection from pool (size=" +:+ (to_string (Z.of_nat (pool_size_ p)) +:+
                         (", active=" +:+ (to_string (active p) +:+ ")")))).

(** [acquire]: src/database/Database.hpp:280-283. *)
Definition opened (t : nat) (p : Pool) : Pool :=
  mkPool (pool_size_ p) (available p) (active p) (<[t := Holding (fresh p)]> (users p)) (closed p) (S (fresh p)).

(** [acquire]: src/database/Database.hpp:284-289. *)
Definition open_failed (t : nat) (p : Pool) : Pool :=
  mkPool (pool_size_ p) (available p) (decr (active p)) (delete t (users p)) (closed p) (fresh p).

(** [release]: src/database/Database.hpp:302-313. *)
Definition release (t c : nat) (p : Pool) : Pool :=
  mkPool (pool_size_ p) (if bool_decide (c ∈ closed p) then available p else available p ++ [c])%list (decr (active p)) (delete t (users p)) (closed p) (fresh p).

Definition closes (c : nat) (p : Pool) : Pool :=
  mkPool (pool_size_ p) (available p) (active p) (users p) ({[c]} ∪ closed p) (fresh p).

(** What threads and the network do, in any order. *)
Inductive step : Pool -> Pool -> Prop :=
| s_acquire t p p' : users p !! t = None -> acquire t p = Some p' -> step p p'
| s_opened t p : users p !! t = Some Opening -> step p (opened t p)
| s_failed t p : users p !! t = Some Opening -> step p (open_failed t p)
| s_release t c p : users p !! t = Some (Holding c) -> step p (release t c p)
| s_closes c p : step p (closes c p).

Definition reachable (size : nat) : Pool -> Prop := rtc step (new_pool size).

(** The books of the pool: its counter is the number of threads inside, nobody shares a
    connection, none that is held is free, and together they are never more than the size. *)
Record kept (p : Pool) : Prop := mkKept {
  k_count : active p = Z.of_nat (base.size (users p));
  k_cap : (length (available p) + base.size (users p) <= pool_size_ p)%nat;
  k_free : NoDup (available p);
  k_apart : forall t c, users p !! t = Some (Holding c) -> (c ∉ available p) /\ (c < fresh p)%nat;
  k_own : forall t u c, users p !! t = Some (Holding c) -> users p !! u = Some (Holding c) -> t = u;
  k_known : forall c, c ∈ available p -> (c < fresh p)%nat
}.

Definition in_size_t (size : nat) : Prop := Z.of_nat size < 2 ^ 64.

Lemma new_kept size : kept (new_pool size).
Proof.
  constructor; cbn [new_pool available users active pool_size_ fresh]; try done.
  - rewrite length_seq. change (base.size (∅ : gmap nat User)) with 0%nat. lia.
  - apply NoDup_ListNoDup, seq_NoDup.
  - intros c Hc. apply elem_of_seq in Hc. lia.
Qed.

Lemma size_delete (m : gmap nat User) t u : m !! t = Some u -> base.size m = S (base.size (delete t m)).
Proof.
  intros H. rewrite map_size_delete, H. assert (base.size m <> 0%nat); [|cbn; lia]. apply map_size_ne_0_lookup_2 with t. by exists u.
Qed.

Lemma step_size p p' : step p p' -> pool_size_ p' = pool_size_ p.
Proof.
  intros Hst. destruct Hst as [t p p' _ H| | | |]; try done. revert H. unfold acquire. destruct (can_proceed p); [|done].
  intros [= <-]. by destruct (available p).
Qed.

Lemma step_kept p p' : in_size_t (pool_size_ p) -> step p p' -> kept p -> kept p'.
Proof.
  unfold in_size_t. intros Hs Hst [Hc Hcap Hf Ha Ho Hk]. destruct Hst as [t p p' Ht H|t p Ht|t p Ht|t c p Ht|c p].
  - unfold acquire in H. destruct (can_proceed p) eqn:Ep; [|done]. injection H as <-. unfold can_proceed in Ep.
    assert (Hin : forall v, base.size (<[t:=v]> (users p)) = S (base.size (users p))) by (intros v; by rewrite map_size_insert_None).
    destruct (available p) as [|c r] eqn:Ev.
    + apply Z.ltb_lt in Ep. cbn [length] in *. constructor; cbn [available users active pool_size_ fresh]; try done.
      * rewrite Hin. unfold incr. rewrite Z.mod_small; lia.
      * rewrite Hin. cbn. lia.
      * intros u c [[-> ?]|[_ H]]%lookup_insert_Some; [done|]. by apply Ha in H.
      * intros u v c [[-> ?]|[_ H1]]%lookup_insert_Some [[-> ?]|[_ H2]]%lookup_insert_Some; try done. by eapply Ho.
    + apply NoDup_cons in Hf as [Hcr Hf]. cbn [length] in *. constructor; cbn [available users active pool_size_ fresh].
      * rewrite Hin. unfold incr. rewrite Z.mod_small; lia.
      * rewrite Hin. lia.
      * done.
      * intros u d [[-> [= ->]]|[_ H]]%lookup_insert_Some; [split; [done | apply Hk; by apply list_elem_of_here]|].
        destruct (Ha _ _ H) as [H1 H2]. apply not_elem_of_cons in H1 as [_ H1]. done.
      * assert (Hnew : forall u, users p !! u <> Some (Holding c)).
        { intros u H. destruct (Ha _ _ H) as [H1 _]. apply H1, list_elem_of_here. }
        intros u v d [[-> [= ->]]|[_ H1]]%lookup_insert_Some [[-> E]|[_ H2]]%lookup_insert_Some; try done; [by apply Hnew in H2 | injection E as ->; by apply Hnew in H1 | by eapply Ho].
      * intros d Hd. apply Hk, list_elem_of_further, Hd.
  - assert (Hsz : base.size (<[t:=Holding (fresh p)]> (users p)) = base.size (users p)).
    { rewrite map_size_insert, Ht. done. }
    constructor; cbn [opened available users active pool_size_ fresh]; rewrite ?Hsz; try done.
    + intros u c [[-> [= <-]]|[_ H]]%lookup_insert_Some; [split; [intros H%Hk; lia | lia]|]. destruct (Ha _ _ H). split; [done | lia].
    + intros u v c [[-> [= <-]]|[_ H1]]%lookup_insert_Some [[-> E]|[_ H2]]%lookup_insert_Some; try done;
        [apply Ha in H2; lia | injection E as <-; apply Ha in H1; lia | by eapply Ho].
    + intros c Hx%Hk. lia.
  - pose proof (size_delete _ _ _ Ht) as Hsz. constructor; cbn [open_failed available users active pool_size_ fresh]; try done.
    + unfold decr. rewrite Z.mod_small; lia.
    + lia.
    + intros u c [_ H]%lookup_delete_Some. by apply Ha in H.
    + intros u v c [_ H1]%lookup_delete_Some [_ H2]%lookup_delete_Some. by eapply Ho.
  - pose proof (size_delete _ _ _ Ht) as Hsz. destruct (Ha _ _ Ht) as [Hnf Hlt].
    assert (Hgone : forall u, delete t (users p) !! u <> Some (Holding c)).
    { intros u [Hu H]%lookup_delete_Some. apply Hu. by eapply Ho. }
    constructor; cbn [release available users active pool_size_ fresh].
    + unfold decr. rewrite Z.mod_small; lia.
    + destruct (bool_decide _); [lia|]. rewrite length_app. cbn. lia.
    + destruct (bool_decide _); [done|]. apply NoDup_app. split; [done|]. split; [|apply NoDup_singleton]. intros x Hx ->%list_elem_of_singleton. done.
    + intros u d H. pose proof H as [_ H']%lookup_delete_Some. destruct (Ha _ _ H') as [H1 H2]. split; [|done].
      destruct (bool_decide _); [done|]. rewrite elem_of_app, list_elem_of_singleton. intros [?| ->]; [done | by apply Hgone in H].
    + intros u v d [_ H1]%lookup_delete_Some [_ H2]%lookup_delete_Some. by eapply Ho.
    + intros d. destruct (bool_decide _); [apply Hk|]. rewrite elem_of_app, list_elem_of_singleton. intros [?%Hk| ->]; done.
  - by constructor.
Qed.

Lemma reachable_kept size p : in_size_t size -> reachable size p -> kept p /\ pool_size_ p = size.
Proof.
  intros Hs H. assert (Hg : forall q, pool_size_ q = size -> kept q -> forall p, rtc step q p -> kept p /\ pool_size_ p = size).
  { intros q Hq Hk p' Hr. induction Hr as [q|q r p' Hst _ IH]; [done|]. apply IH; [rewrite (step_size _ _ Hst); done|].
    eapply step_kept; [by rewrite Hq | done..]. }
  by apply (Hg (new_pool size)); [| apply new_kept |].
Qed.

(** However threads take connections, open them, lose them and give them back, no
    connection has two holders or is free while it is held, the counter is exactly the
    number of threads inside and never wraps, and a thread is kept waiting exactly when
    as many as the pool's size are inside: connections that broke are no longer counted,
    so that the pool never shrinks. *)
Theorem pool_never_shrinks size p t : in_size_t size -> reachable size p ->
  (forall u v c, users p !! u = Some (Holding c) -> users p !! v = Some (Holding c) -> u = v) /\
  (forall u c, users p !! u = Some (Holding c) -> c ∉ available p) /\
  active p = Z.of_nat (base.size (users p)) /\ (length (available p) + base.size (users p) <= size)%nat /\
  (acquire t p = None <-> base.size (users p) = size).
Proof.
  intros Hs Hr. destruct (reachable_kept _ _ Hs Hr) as [[Hc Hcap Hf Ha Ho Hk] Hsz]. rewrite Hsz in Hcap. split_and!; [done | | done..|].
  - intros u c H. apply (Ha _ _ H).
  - unfold acquire, can_proceed. rewrite Hsz, Hc. destruct (available p) as [|c r]; cbn [length] in *.
    + destruct (Z.ltb_spec (Z.of_nat 0 + Z.of_nat (base.size (users p))) (Z.of_nat size)); [|split; [lia | done]]. split; [done | intros; lia].
    + split; [done | intros; lia].
Qed.

End Pool.

Lemma pool_never_shrinks_witness : exists p, Pool.reachable 1 p /\ Pool.available p = [] /\ Pool.acquire 7 p <> None.
Proof.
  set (p1 := Pool.mkPool 1 [] 1 {[3%nat := Pool.Holding 0]} ∅ 1). set (p2 := Pool.closes 0 p1). set (p3 := Pool.release 3 0 p2).
  assert (Hr : Pool.reachable 1 p3).
  { eapply (rtc_l _ _ p1); [by apply (Pool.s_acquire 3)|]. eapply (rtc_l _ _ p2); [apply Pool.s_closes|].
    eapply (rtc_l _ _ p3); [by apply Pool.s_release | apply rtc_refl]. }
  exists p3. split; [exact Hr|]. split; [reflexivity|].
  intros H. destruct (Pool.pool_never_shrinks 1 p3 7) as (_ & _ & _ & _ & Hn); [reflexivity | exact Hr|].
  apply Hn in H. discriminate H.
Defined.

(** ** Transactions *)
Module Transactions.

(** What the server makes of one attempt: nothing special; it aborts the transaction and
    says so; the connection breaks at the commit, which landed or did not; there was no
    connection to be had. *)
Inductive Fault := Fine | Aborts (sqlstate : string) | Breaks (landed : bool) | NoConnection (why : string).

Section Attempts.
Context {D : Type}.

(** The committed data, and what the attempts to come meet. *)
Record Server := mkServer { data : D; to_come : list Fault }.

Definition meets (s : Server) : Fault := match to_come s with [] => Fine | f :: _ => f end.

(** [execute_with_]: src/database/Database.hpp:452-474.  One attempt: the body works on
    what is committed and is committed itself, or nothing of it is. *)
Definition attempt {A} (body : D -> outcome A * D) : st Server A := fun s =>
  let rest := tl (to_come s) in
  match meets s with
  | NoConnection why => (Throw (Exn std_runtime_error why), mkServer (data s) rest)
  | Aborts sqlstate => (Throw (Exn pqxx_sql_error sqlstate), mkServer (data s) rest)
  | f =>
      match body (data s) with
      | (Ok a, d) =>
          match f with
          | Breaks landed => (Throw (Exn pqxx_broken_connection ""), mkServer (if landed then d else data s) rest)
          | _ => (Ok a, mkServer d rest)
          end
      | (r, _) => (r, mkServer (data s) rest)
      end
  end.

(** The classifiers, on an exception: that of a statement carries its SQLSTATE. *)
Definition of_exception (classify : option string -> bool) (e : exn) : bool :=
  match exn_cls e with
  | pqxx_sql_error => classify (Some (what e))
  | pqxx_broken_connection => classify None
  | _ => false
  end.
Definition transient_write : exn -> bool := of_exception Retry.is_transient_pqxx_write.
Definition transient_read : exn -> bool := of_exception Retry.is_transient_pqxx_read.

Context (p : Retry.Policy) (draw : Z -> Z -> Z).

(** [execute_with_]: src/database/Database.hpp:437-477. *)
Definition execute_with {A} (classifier : exn -> bool) (body : D -> outcome A * D) : st Server A := fun s =>
  let '(o, s', _) := Retry.run (attempt body) classifier p draw s in (o, s').

(** [execute_write]: src/database/Database.hpp:484-491. *)
Definition execute_write {A} (body : D -> outcome A * D) : st Server A := execute_with transient_write body.
(** [execute_write_idempotent]: src/database/Database.hpp:497-504. *)
Definition execute_write_idempotent {A} (body : D -> outcome A * D) : st Server A := execute_with transient_read body.
(** [execute_read_primary]: src/database/Database.hpp:555-560. *)
Definition execute_read_primary {A} (q : D -> outcome A) : st Server A := execute_with transient_read (fun d => (q d, d)).

(** An attempt that threw what a write is retried for left everything as it was. *)
Lemma transient_kept {A} (body : D -> outcome A * D) s e : (attempt body s).1 = Throw e -> transient_write e = true -> data (attempt body s).2 = data s.
Proof.
  unfold attempt. destruct (meets s) as [|ss|landed|why]; [|done| |done].
  - by destruct (body (data s)) as [[a|e'|] d].
  - destruct (body (data s)) as [[a|e'|] d]; [|done..]. by intros [= <-].
Qed.

Lemma calls_kept {A} (body : D -> outcome A * D) s k :
  (forall j, (j < k)%nat -> exists e, (attempt body (Retry.calls (attempt body) j s)).1 = Throw e /\ transient_write e = true) ->
  data (Retry.calls (attempt body) k s) = data s.
Proof.
  revert s. induction k as [|k IH]; intros s Hj; [done|]. rewrite Retry.calls_S. destruct (Hj 0%nat ltac:(lia)) as (e & He & Ht).
  rewrite IH, (transient_kept body s e); [done|done|done|]. intros j Hl. destruct (Hj (S j) ltac:(lia)) as (e' & He'). rewrite Retry.calls_S in He'. by exists e'.
Qed.

(** Whatever the server and the network do and however often a write is tried, its
    body takes effect at most once: what is returned is the body's value, with its effect
    committed exactly once on what was there; when it throws, nothing is committed, but
    for a connection that broke at the commit, which is not tried again and may have
    committed the body once. *)
Theorem write_at_most_once {A} (body : D -> outcome A * D) s o s' : execute_write body s = (o, s') ->
  match o with
  | Ok a => body (data s) = (Ok a, data s')
  | Throw e => data s' = data s \/ e = Exn pqxx_broken_connection "" /\ exists a, body (data s) = (Ok a, data s')
  | Undef => data s' = data s
  end.
Proof.
  unfold execute_write, execute_with. destruct (Retry.run_spec (attempt body) transient_write p draw s) as (k & log & -> & _ & _ & Hj & _).
  pose proof (calls_kept body s k Hj) as Hk. clear Hj. intros [Ho Hs']%pair_equal_spec. subst s'. unfold Retry.calls in *.
  rewrite Nat.iter_succ. set (sk := Nat.iter k _ s) in *. rewrite <- Hk. clear Hk. revert Ho. unfold attempt. destruct (meets sk) as [|ss|landed|why]; cbn.
  - destruct (body (data sk)) as [[a|e|] d]; cbn; intros <-; auto.
  - intros <-. by left.
  - destruct (body (data sk)) as [[a|e|] d]; cbn; intros <-; auto. destruct landed; [right; split; [done | by exists a] | by left].
  - intros <-. by left.
Qed.

(** Where the budget allows it, a write that only met aborts a retry helps with is made. *)
Lemma aborts_overcome {A} (body : D -> outcome A * D) n s a d : to_come s = repeat (Aborts "40001") n -> Z.of_nat n < Retry.max_attempts p ->
  body (data s) = (Ok a, d) -> execute_write body s = (Ok a, mkServer d []).
Proof.
  intros Hn Hb E. unfold execute_write, execute_with, Retry.run.
  assert (Hl : forall k at_ log s, to_come s = repeat (Aborts "40001") k -> body (data s) = (Ok a, d) -> at_ + Z.of_nat k < Retry.max_attempts p -> forall f, (k < f)%nat ->
    exists log', Retry.run_loop (attempt body) transient_write p draw f at_ log s = (Ok a, mkServer d [], log')).
  { induction k as [|k IH]; intros at_ log [dt tc] Ht Eb Hk [|f] Hf; cbn [to_come data] in *; subst tc; try lia; cbn [Retry.run_loop repeat attempt meets to_come data tl].
    - rewrite Eb. by eexists.
    - change (transient_write (Exn pqxx_sql_error "40001")) with true. destruct (Z.ltb_spec (at_ + 1) (Retry.max_attempts p)); [|lia]. cbn [andb].
      apply IH; cbn [to_come data]; [done | done | lia | lia]. }
  destruct (Hl n 0 [] s Hn E ltac:(lia) (S (Z.to_nat (Retry.max_attempts p))) ltac:(lia)) as (log & ->). done.
Qed.

(** ** Reads *)

(** The primary and the replicas, each with data of its own, and whose turn it is. *)
Record Cluster := mkCluster { primary : Server; replicas : list Server; current_replica : Z }.

(** [pick_replica_pool_]: src/database/Database.hpp:604-609. *)
Definition pick_replica (c : Cluster) : nat := Z.to_nat (current_replica c mod Z.of_nat (length (replicas c))).

(** [execute_read]: src/database/Database.hpp:562-587. *)
Definition execute_read {A} (q : D -> outcome A) : st Cluster A := fun c =>
  let on_primary c := let '(o, s) := execute_read_primary q (primary c) in (o, mkCluster s (replicas c) (current_replica c)) in
  match replicas c !! pick_replica c with
  | None => on_primary c
  | Some r =>
      let '(o, r') := execute_read_primary q r in
      let c' := mkCluster (primary c) (<[pick_replica c := r']> (replicas c)) ((current_replica c + 1) mod 2 ^ 64) in
      match o with
      | Throw e => if bool_decide (exn_cls e = not_std) then (o, c') else on_primary c'
      | _ => (o, c')
      end
  end.

(** A read leaves the data of its server, and what it returns is read off it. *)
Lemma attempt_read {A} (q : D -> outcome A) s : data (attempt (fun d => (q d, d)) s).2 = data s.
Proof. unfold attempt. destruct (meets s) as [|ss|[]|why]; cbn; by destruct (q (data s)). Qed.

Lemma primary_reads {A} (q : D -> outcome A) s o s' : execute_read_primary q s = (o, s') -> data s' = data s /\ forall a, o = Ok a -> q (data s) = Ok a.
Proof.
  unfold execute_read_primary, execute_with. destruct (Retry.run_spec (attempt (fun d => (q d, d))) transient_read p draw s) as (k & log & -> & _).
  assert (Hc : forall k, data (Retry.calls (attempt (fun d => (q d, d))) k s) = data s).
  { clear. unfold Retry.calls. induction k as [|k IH]; [done|]. by rewrite Nat.iter_succ, attempt_read. }
  intros [Ho Hs']%pair_equal_spec. subst o s'. split; [exact (Hc (S k))|]. intros a. rewrite <- (Hc k). set (sk := Retry.calls _ k s). unfold attempt.
  destruct (meets sk) as [|ss|landed|why]; cbn; try done; by destruct (q (data sk)).
Qed.

(** A read returns what the primary or the replica whose turn it is holds, changes the
    data of none, and when the replica fails it is the primary that answers. *)
Lemma read_answers {A} (q : D -> outcome A) c o c' : execute_read q c = (o, c') ->
  data (primary c') = data (primary c) /\ length (replicas c') = length (replicas c) /\
  forall a, o = Ok a -> q (data (primary c)) = Ok a \/ exists r, replicas c !! pick_replica c = Some r /\ q (data r) = Ok a.
Proof.
  unfold execute_read. destruct (replicas c !! pick_replica c) as [r|] eqn:Er.
  - destruct (execute_read_primary q r) as [x r'] eqn:Ex. apply primary_reads in Ex as [_ Hx].
    destruct x as [a|e|]; [intros [= <- <-]; cbn; rewrite length_insert; split_and!; [done..|]; intros b [= <-]; right; exists r; auto | |
                           intros [= <- <-]; cbn; rewrite length_insert; split_and!; done].
    destruct (bool_decide (exn_cls e = not_std)); [intros [= <- <-]; cbn; rewrite length_insert; split_and!; done|]. cbn [primary].
    destruct (execute_read_primary q (primary c)) as [y s'] eqn:Ey. apply primary_reads in Ey as [Hd Hy]. intros [= <- <-]. cbn. rewrite length_insert.
    split_and!; [done..|]. intros a Ha. left. auto.
  - destruct (execute_read_primary q (primary c)) as [y s'] eqn:Ey. apply primary_reads in Ey as [Hd Hy]. intros [= <- <-]. cbn.
    split_and!; [done..|]. intros a Ha. left. auto.
Qed.

End Attempts.
End Transactions.

(** With the classifier of reads a write that broke at a commit that landed is made twice. *)
Example idempotent_twice : (Transactions.execute_write_idempotent (Retry.mkPolicy 3 20 200 false) (fun _ d => d) (fun d => (Ok tt, d + 1))
  (Transactions.mkServer 10 [Transactions.Breaks true; Transactions.Fine])).2 = Transactions.mkServer 12 [].
Proof. reflexivity. Qed.

Lemma write_at_most_once_witness :
  let s := Transactions.mkServer 10 [Transactions.Aborts "40P01"; Transactions.Breaks true; Transactions.Fine] in
  exists e s', Transactions.execute_write (Retry.mkPolicy 3 20 200 false) (fun _ d => d) (fun d => (Ok tt, d + 1)) s = (Throw e, s') /\
    (Transactions.data s' = 10 \/ e = Exn pqxx_broken_connection "" /\ exists a, (Ok tt, 10 + 1) = (Ok a, Transactions.data s')).
Proof.
  intros s. eexists _, _. split; [reflexivity|].
  refine (Transactions.write_at_most_once (Retry.mkPolicy 3 20 200 false) (fun _ d => d) (fun d => (Ok tt, d + 1)) s (Throw _) _ _). reflexivity.
Defined.

(** ** Connection strings *)
Module Strings_of_connections.

Definition quote : ascii := "'".
Definition backslash : ascii := "\".

(** [quote_value]: src/utils/Pg.hpp:17-26. *)
Fixpoint escaped (v : string) : string :=
  match v with
  | EmptyString => EmptyString
  | String c r => if Ascii.eqb c backslash || Ascii.eqb c quote then String backslash (String c (escaped r)) else String c (escaped r)
  end.
Definition quote_value (v : string) : string := String quote (escaped v +:+ String quote "").

(** [make_conninfo]: src/utils/Pg.hpp:34-44. *)
Definition make_conninfo (host : string) (port : Z) (user dbname password : string) : string :=
  "host=" +:+ (quote_value host +:+ (" port=" +:+ (to_string port +:+ (" user=" +:+ (quote_value user +:+ (" dbname=" +:+ (quote_value dbname
  +:+ (if String.eqb password "" then "" else " password=" +:+ quote_value password)))))))).

(** How libpq reads such a text (its documentation of keyword/value strings): a keyword,
    an equals sign, a value in quotes with backslashes or one up to the next blank. *)
Fixpoint quoted (s : string) : option (string * string) :=
  match s with
  | EmptyString => None
  | String c r =>
      if Ascii.eqb c quote then Some ("", r)
      else if Ascii.eqb c backslash then
        match r with
        | String d t => '(v, rest) ← quoted t; Some (String d v, rest)
        | EmptyString => None
        end
      else '(v, rest) ← quoted r; Some (String c v, rest)
  end.

Fixpoint bare (s : string) : string * string :=
  match s with
  | EmptyString => ("", "")
  | String c r => if Ascii.eqb c " " then ("", s) else let '(v, rest) := bare r in (String c v, rest)
  end.

Fixpoint skip_blanks (s : string) : string :=
  match s with String c r => if Ascii.eqb c " " then skip_blanks r else s | EmptyString => EmptyString end.

Fixpoint conninfo_parse (fuel : nat) (s : string) : option (list (string * string)) :=
  match fuel with
  | O => None
  | S fuel =>
      match skip_blanks s with
      | EmptyString => Some []
      | t =>
          n ← str_find "=" t;
          let after := str_drop (S n) t in
          '(v, rest) ← match after with
                       | String c r => if Ascii.eqb c quote then quoted r else Some (bare after)
                       | EmptyString => Some ("", "")
                       end;
          l ← conninfo_parse fuel rest;
          Some ((str_take n t, v) :: l)
      end
  end.

Lemma quoted_escaped v rest : quoted (escaped v +:+ String quote rest) = Some (v, rest).
Proof.
  induction v as [|c v IH]; [reflexivity|]. cbn [escaped]. destruct (Ascii.eqb c backslash || Ascii.eqb c quote) eqn:E; cbn [String.append quoted].
  - change (Ascii.eqb backslash quote) with false. cbn [Ascii.eqb Bool.eqb]. rewrite Ascii.eqb_refl, IH. done.
  - apply orb_false_iff in E as [E1 E2]. by rewrite E1, E2, IH.
Qed.

Lemma bare_app v rest : str_all (fun c => negb (Ascii.eqb c " ")) v = true -> match rest with EmptyString => True | String c _ => c = " "%char end ->
  bare (v +:+ rest) = (v, rest).
Proof.
  intros Hv Hr. induction v as [|c v IH]; cbn [str_all String.append] in *.
  - destruct rest as [|c r]; [done|]. by subst.
  - apply andb_true_iff in Hv as [Hc%negb_true_iff Hv]. cbn [bare]. by rewrite Hc, IH.
Qed.

Definition keyword (name : string) : Prop := str_all (fun c => negb (Ascii.eqb c "=" || Ascii.eqb c " ")) name = true /\ name <> "".

(** One pair at the front, with its value in quotes or without. *)
Lemma parse_pair fuel name after v rest : keyword name ->
  match after with
  | String c r => (if Ascii.eqb c quote then quoted r else Some (bare after)) = Some (v, rest)
  | EmptyString => (v, rest) = ("", "")
  end ->
  conninfo_parse (S fuel) (name +:+ String "=" after) = (l ← conninfo_parse fuel rest; Some ((name, v) :: l)).
Proof.
  intros [Hn Hne] Ha. cbn [conninfo_parse].
  assert (skip_blanks (name +:+ String "=" after) = name +:+ String "=" after) as ->.
  { destruct name as [|c r]; [done|]. cbn [str_all] in Hn. apply andb_true_iff in Hn as [Hc _]. cbn [String.append skip_blanks].
    by destruct (Ascii.eqb c "="), (Ascii.eqb c " "). }
  assert (Hf : str_find "=" (name +:+ String "=" after) = Some (size name)) by (by apply (str_find_app _ "=" name after Hn)).
  assert (Ht : str_take (size name) (name +:+ String "=" after) = name) by apply str_take_app.
  assert (Hd : str_drop (S (size name)) (name +:+ String "=" after) = after).
  { clear. unfold size. induction name as [|c r IH]; [by destruct after | exact IH]. }
  destruct (name +:+ String "=" after) as [|c r] eqn:E; [by destruct name|]. rewrite Hf. cbn [mbind option_bind]. rewrite Hd, Ht.
  destruct after as [|d t]; [by injection Ha as -> ->|]. by rewrite Ha.
Qed.

Lemma parse_quoted fuel name v rest : keyword name ->
  conninfo_parse (S fuel) (name +:+ ("=" +:+ (quote_value v +:+ rest))) = (l ← conninfo_parse fuel rest; Some ((name, v) :: l)).
Proof.
  intros Hn. change ("=" +:+ ?x) with (String "=" x). apply parse_pair; [done|]. unfold quote_value. cbn [String.append].
  rewrite Ascii.eqb_refl, str_app_assoc. apply quoted_escaped.
Qed.

Lemma digits_no_blank z : 0 <= z -> str_all (fun c => negb (Ascii.eqb c " ")) (to_string z) = true /\ exists c r, to_string z = String c r /\ Ascii.eqb c quote = false.
Proof.
  intros Hz. rewrite to_string_nonneg by done. pose proof (dec_all z) as Hd. split.
  - revert Hd. apply str_all_impl. intros c Hc. by rewrite (digit_not c " ").
  - destruct (dec z) as [|c r] eqn:E; [by pose proof (dec_digits_nonempty 19 z) as Hn; unfold dec in E; rewrite E in Hn; cbn in Hn; lia|].
    exists c, r. split; [done|]. cbn [str_all] in Hd. apply andb_true_iff in Hd as [Hc _]. by apply digit_not.
Qed.

Lemma parse_number fuel name z rest : keyword name -> 0 <= z ->
  conninfo_parse (S fuel) (name +:+ String "=" (to_string z +:+ String " " rest)) = (l ← conninfo_parse fuel (String " " rest); Some ((name, to_string z) :: l)).
Proof.
  intros Hn Hz. destruct (digits_no_blank z Hz) as (Hd & c & r & Ec & Eq).
  pose proof (bare_app (to_string z) (String " " rest) Hd eq_refl) as Hb.
  apply parse_pair; [done|]. destruct (to_string z) as [|c' r']; [done|]. simplify_eq.
  cbn [String.append] in *. by rewrite Eq, Hb.
Qed.

(** The connection string gives back its parts to libpq whatever they hold: no quote,
    backslash, blank or equals sign of a name or a password ends its value, adds a
    parameter or changes one, and an empty password adds none. *)
Theorem conninfo_reads_back host port user dbname password fuel : 0 <= port -> (5 < fuel)%nat ->
  conninfo_parse fuel (make_conninfo host port user dbname password) =
  Some ([("host", host); ("port", to_string port); ("user", user); ("dbname", dbname)]
        ++ if String.eqb password "" then [] else [("password", password)])%list.
Proof.
  intros Hp Hf. do 6 (destruct fuel as [|fuel]; [lia|]). clear Hf. unfold make_conninfo.
  assert (Hk : forall name, str_all (fun c => negb (Ascii.eqb c "=" || Ascii.eqb c " ")) name = true -> name <> "" -> keyword name) by done.
  change ("host=" +:+ ?x) with ("host" +:+ ("=" +:+ x)). rewrite parse_quoted by done.
  assert (Hb : forall f s, conninfo_parse (S f) (String " " s) = conninfo_parse (S f) s) by done.
  change (" port=" +:+ ?x) with (String " " ("port" +:+ String "=" x)). rewrite Hb.
  change (" user=" +:+ ?x) with (String " " ("user" +:+ ("=" +:+ x))). rewrite parse_number by done.
  rewrite Hb, parse_quoted by done.
  change (" dbname=" +:+ ?x) with (String " " ("dbname" +:+ ("=" +:+ x))). rewrite Hb, parse_quoted by done.
  destruct (String.eqb password ""); [done|].
  change (" password=" +:+ ?x) with (String " " ("password" +:+ ("=" +:+ x))). rewrite Hb.
  rewrite <- (app_empty_r (quote_value password)), parse_quoted by done. done.
Qed.

(** [RedisAddress]: src/cache/Cache.hpp:47-50. *)
Record RedisAddress := mkRedis { r_host : string; r_port : Z }.

(** [parse_redis_url]: src/cache/Cache.hpp:58-77. *)
Definition parse_redis_url (url : string) : outcome RedisAddress :=
  let addr := if String.prefix "tcp://" url then str_drop 6 url else url in
  match str_find ":" addr with
  | None => Ok (mkRedis (if String.eqb addr "" then "127.0.0.1" else addr) 6379)
  | Some colon =>
      let port_str := str_drop (S colon) addr in
      match stoi port_str with
      | Ok port => Ok (mkRedis (str_take colon addr) port)
      | Throw _ => Throw (Exn std_runtime_error ("Invalid Redis port in connection string: '" +:+ (port_str +:+ "'")))
      | Undef => Undef
      end
  end.

(** [parse_sentinel_nodes_csv]: src/cache/Cache.hpp:83-98. *)
Definition parse_sentinel_nodes_csv (csv : string) : list (string * Z) :=
  omap (fun node => match str_find ":" node with
                    | None => None
                    | Some colon => match stoi (str_drop (S colon) node) with Ok port => Some (str_take colon node, port) | _ => None end
                    end) (Strings.split_csv_vec csv).

(** The number of a database in the text is dropped, as the header of the file warns. *)
Example database_number_dropped : parse_redis_url "tcp://redis:6379/3" = Ok (mkRedis "redis" 6379).
Proof. reflexivity. Qed.
Example sentinels : parse_sentinel_nodes_csv "a:26379, b, c:x,d:1" = [("a", 26379); ("d", 1)].
Proof. reflexivity. Qed.

End Strings_of_connections.

Lemma conninfo_reads_back_witness :
  Strings_of_connections.conninfo_parse 6 (Strings_of_connections.make_conninfo "db" 5432 "app" "a b" "x' host='evil\\") =
  Some [("host", "db"); ("port", "5432"); ("user", "app"); ("dbname", "a b"); ("password", "x' host='evil\\")].
Proof. apply (Strings_of_connections.conninfo_reads_back "db" 5432 "app" "a b" "x' host='evil\\" 6); lia. Defined.
